(* ===== verification/_CoqProject ===== *)
-Q . S2P
Prelude.v
GoStd.v
Sha256.v
JsonText.v
Protobuf.v
Pricing.v
CommerceTypes.v
Sanitize.v
Strconv.v
Hmac.v
Evidence.v
Texts.v
Snapshot.v
Rules.v
PaymentEvents.v
CommerceService.v
AdapterCommon.v
MoMo.v
ZaloPay.v
VNPay.v
ShopeePay.v
PaymentRegistry.v
PaymentLaws.v
ServiceLaws.v
Db.v
Queries.v
CashQueries.v
MachineIdempotency.v
MachineReplay.v
History.v
PgCommerce.v
OperatorSessions.v
OperatorService.v
CashSettlement.v
CashForensic.v
CashService.v
Fulfillment.v
Quotes.v
OfflineSale.v
MachineMessages.v
MachineCommerce.v
SaleLines.v
StoreLaws.v
Logic.v
CashLaws.v
OperatorLaws.v
CollectionLaws.v
QuoteLaws.v
Backend.v
PaymentCallbacks.v
Scenario.v
Settlement.v
Webhooks.v
CallbackLaws.v
Orders.v
Requests.v
MutationLaws.v
CashSales.v
OfflineLaws.v
OfflineSteps.v
MutationSteps.v
QuoteOrders.v
Stock.v
Vends.v
SaleSteps.v
MachineCommerceLaws.v
MachineSales.v
MachineSteps.v
Outbox.v
OutboxLaws.v
OutboxProgress.v
OutboxSteps.v
Reconciler.v
Refresh.v
RefreshLaws.v
ReconcilerLaws.v
Promotion.v
ReconcilerSteps.v
CashSteps.v
PaymentSteps.v
