(* ===== verification/Prelude.v ===== *)
(** * Verification library for the AVF vending backend

    AVF is a Go backend for vending machines over PostgreSQL.  Machines and
    administrators reach it by HTTP and gRPC; payment providers call webhooks;
    a worker moves events from the database to a broker and a reconciler looks
    for what got stuck.  This library models the money path of that program
    (pricing a cart, taking an order, collecting a payment, vending, refunding,
    publishing what happened) and proves what it promises.

    ** Files and the code they model

    The library itself: [Prelude] (errors, the monad [M W A] of a Go function
    over a state [W], the logic of [evolves], lists and tables), [GoStd] (the
    Go language and standard library: machine integers with wrap-around,
    strings as bytes, binary64, times in nanoseconds since year 1, UUIDs,
    decoded JSON), [JsonText] (encoding/json, an automaton that reads and
    functions that write), [Strconv] (strconv, hexadecimal and base64), [Sha256]
    and [Hmac] (SHA-256, HMAC and MD5, executable), [Protobuf] (messages as
    reflection shows them; their encodings are a class), [Texts] (facts on
    trimmed texts).

    Pricing and inputs (pure):
    - [Pricing]: internal/app/pricingengine; promotions, slot selection, one
      line and a batch.
    - [CommerceTypes], [Evidence], [Rules]: internal/domain/commerce and the
      rules of internal/app/commerce; records, hardware evidence, the state
      machines of orders, payments and vends.
    - [Snapshot]: offline_sale_pricing.go, pricing_snapshot_quote.go,
      sale_line_checkout.go; prices a machine declares.
    - [Sanitize]: internal/domain/compliance/sanitize.go.

    The commerce service and its store:
    - [CommerceService]: internal/app/commerce; one definition per method,
      against the interfaces of ports.go as records of operations.  [ServiceLaws]
      proves it against classes over those records.
    - [Db]: PostgreSQL; tables, statements, transactions, savepoints.
      [Queries]: the statements of internal/gen/db (sqlc, from db/queries) with
      the constraints of migrations.  [PgCommerce], [Fulfillment]:
      internal/modules/postgres.
      [StoreLaws] proves the store against any relation its statements respect.
    - [Quotes], [SaleLines]: quote_service.go and its parts, checkout_quotes.go,
      commerce_sale_line*.go; carts, quotes, orders made from them, and the
      resolvers of the store over the pricing engine, with their laws in
      [QuoteLaws].
    - [Backend]: the service over the store, as internal/bootstrap wires it, and
      requests as a type.
    - [OfflineSale]: offline_sale.go; sales a machine reports afterwards, decoded
      from text by [JsonText].
    - [Refresh]: payment_query_refresh*.go; asking the provider for the state of
      an open payment, with the throttle the process keeps.

    Cash and who handles it:
    - [CashQueries]: the statements of cash_forensic.sql.go and cash.sql.go.
    - [CashForensic], [CashService]: internal/app/commerce/cash_forensic*.go and
      internal/modules/postgres/cash_forensic.go; notes reported by a machine,
      its cash position, the ledger in pages.
    - [OperatorSessions], [OperatorService]: internal/domain/operator, the
      statements of operator.sql.go, operator_repository.go,
      operator_attribution.go and internal/app/operator; who is signed in at a
      machine and what was done in their name.
    - [CashSettlement]: internal/modules/postgres/cash_settlement.go; emptying a
      machine, the count against what its sales left.

    Payment providers:
    - [PaymentEvents]: the files webhook_*.go, errors.go, live_common.go and
      psp/ref of internal/platform/payments; references of payments, answers
      read as maps, the normalized event, its signature and its secret.
    - [AdapterCommon]: net/url, the JSON of a map, psp/httpx over a transport
      that is a parameter ([send]).
    - [MoMo], [ZaloPay], [VNPay], [ShopeePay]: the packages of psp and the
      *_provider.go of each; credentials, signatures, result codes, sessions,
      status queries, refunds, notifications.
    - [PaymentRegistry]: registry.go, resolve.go, runtime.go, refund_bridge.go
      and the sandbox and placeholder adapters; which adapter a session gets,
      what a machine is told it may use.
    - [PaymentCallbacks]: commerce_psp_webhooks.go, commerce_webhook_public.go
      and the mapping of errors in commerce_http.go (internal/httpserver),
      payment_by_provider_ref.go; the routes providers call, down to the tables.

    The machine protocol:
    - [MachineIdempotency]: internal/app/machineidempotency; the ledger that
      makes a machine's request run once, its statements and the interceptor.
      [MachineReplay]: machine_replay_ledger.go; which methods it guards and
      what they answer.
    - [MachineMessages], [MachineCommerce]: the commerce server of
      internal/grpcserver (machine_commerce_grpc.go and its helpers); how
      errors become statuses, the messages with the gates and the evidence in
      front of a call, and the handlers themselves.

    The outbox and recovery:
    - [Outbox]: internal/app/reliability (policy, decisions, scans, backoff),
      internal/app/background/worker.go, the repository in
      internal/modules/postgres/repositories.go, internal/app/outbox and the
      message contract of internal/platform/nats.
    - [Reconciler]: internal/app/background/reconciler.go, its classification
      and financial checks, the repository it reads and its queries.

    ** How the parts interact

    The service calls the store through records of operations, and knows its
    other dependencies (payment provider, session registry, workflow boundary,
    audit) only through classes of laws.  The store opens a transaction
    ([with_tx]) or sends one statement ([stmt]).  The same tables connect the
    parts: the service inserts the outbox row in the transaction that changes
    the order or payment, and the worker leases that row later.

    ** Failures, other clients and time

    A [world] is the database, the state of the transaction, a clock, a key
    generator and a schedule.  Each statement consumes one event of the
    schedule: nothing, an error, an error after the effect (a lost
    acknowledgement), or a committed step of another client.  Theorems about
    safety hold for every schedule whose other clients are [polite], that is,
    respect the same relation.  Theorems about what a request does are for a
    quiet world ([calm], [quiet]): no failures, nobody else.  Transactions are
    serialised; row locks appear as that.  The clock moves by one with each
    transaction; inside one tick of the worker it stands still.

    ** What the theorems show

    - Pricing: batch and single evaluation agree; promotion stacking and order;
      amounts add up and stay in range ([Pricing], [Snapshot], [Rules]).
    - Orders and money: one winner per order for ever; the exact tables after
      a new order, payment, capture, refund, cancellation; replays answer the
      same and change nothing; refunds do not exceed the payment while requests
      come one at a time and their sums stay in 64 bits; a delivery that does not fit is refused untouched ([Settlement], [Webhooks],
      [Orders], [Requests]).  A quote becomes at most one order, with one vend
      session per unit ([QuoteOrders]).
    - Vends: success and failure close the vend, settle the order, move one
      item of stock at most once and decide the compensation by the payment
      ([Stock], [Vends]).
    - A confirmation of cash pays an open order, and an offline sale of one item
      becomes one paid order; its sealed prices are accepted exactly when they add up
      ([CashSales], [OfflineLaws]).
    - A status refresh asks at most once per interval, applies nothing but
      captures, and a capture it hears of pays the order as a delivery does
      ([RefreshLaws]).
    - A mutation a machine sends runs at most once under its key, its answer is
      given again, another payload is refused, and the fingerprint ignores
      exactly what a retry may change ([MutationLaws], against the class
      [MutationLedgerLaws] that the PostgreSQL ledger satisfies).
    - Cash: a report is recorded once whatever fails, and books what it takes
      in and pays out and a page of the ledger is a page of all of it
      ([CashLaws]); a machine has at most one session and one open collection,
      sessions that ended and collections that were closed are final, and a
      sign-in, a start and a closing do what their abstract rules say
      ([OperatorLaws], [CollectionLaws]).
    - The machine server: a call answers only for the machine's own orders and
      within their time, runs its handler once behind the ledger, reaches the
      machine as a status when it fails, and sells and is paid as the service
      promises ([MachineCommerceLaws], [MachineSales]).
    - The backend as a whole: any requests under any schedule keep the
      well-formedness of the tables and the append-only history; store
      transactions are atomic; reads change nothing ([History], [Backend]).
    - Payment providers: a signature is accepted for the text it was made for,
      and for another only if the two have the same HMAC under the secret; a
      notification is read only when a configured tenant signed it; what is read
      and what a query answers is captured exactly on the code of success, which
      for MoMo includes a field that holds no code;
      sessions in production go to live adapters, and what a machine is offered
      resolves ([PaymentLaws]).  Over HTTP an unsigned delivery changes nothing
      where signatures are required, and a capture that is delivered, signed or
      in the format of a provider, pays its order ([CallbackLaws]).  The VNPay
      return carries no signature, and no theorem says that it is authentic.
    - The outbox: every event follows its life cycle ([OutboxLaws]); a broker
      that acknowledges what JetStreamPublish sends it drains the outbox of the
      events that honour the contract of a message, and one that is down, with
      any error for any event, leads to quarantine ([OutboxProgress], against the
      class [OutboxStore]); nothing is marked published that was not
      acknowledged ([OutboxProgress]).
    - The reconciler: with actions off, or in a dry run without the promotion, it
      changes nothing but cases, one open case per finding ([ReconcilerLaws],
      against a class of its collaborators' laws); a pass of the promotion pays
      the captured orders it selects ([Promotion]).
    - Redaction: what a card number is, is said apart from the code; exactly the
      card numbers in strings are replaced, a stored object or array is clean at
      every depth and a clean one stays as it is ([Sanitize]).
    [Scenario], [SaleSteps], [OfflineSteps], [MutationSteps], [MachineSteps],
    [OutboxSteps], [ReconcilerSteps], [CashSteps] and [PaymentSteps] evaluate
    concrete runs and apply the theorems there.

    ** Recursion and bounds

    Loops over lists are structural.  The doubling of the backoff recurs on the
    number of attempts and the look at the ledger on its two tries, as the loops
    count them.  No definition has fuel that
    could run out.  int64 and int32 sums of the code wrap ([add64], [wrap32]);
    the theorems state where that matters.

    ** Not modelled

    The HTTP routes other than the payment notifications; the gRPC services
    other than the commerce one, and of that one the reads and the cash report;
    the transport to the providers and the status probe over HTTP (parameters;
    the refresh and the reconciler take the providers as parameters too);
    methods of the adapters that only call a shared function; MQTT, telemetry and NATS transport, message headers and
    sanitised subjects; goroutines, tickers and locks of the worker and the reconciler; logs,
    metrics and trace notes; Unicode case mapping beyond ASCII; the SKIP LOCKED
    of the lease, since statements do not overlap; fleet, catalog, media,
    reporting, authentication and rollout administration. *)

From stdpp Require Export base tactics list strings pretty sorting relations.
From Stdlib Require Export Ascii ZArith Lia.

#[global] Open Scope Z_scope.

(** ** Errors

    A Go [error] value.  [ESentinel] is a package-level [errors.New]
    variable compared by identity; [ENew] is any other leaf error
    ([errors.New] or [fmt.Errorf] without [%w]); [EJoin a b] is
    [errors.Join(a, b)]; [EWrap e s] is [fmt.Errorf("%w: s", e)] and
    [EWrapPre s e] is [fmt.Errorf("s: %w", e)]; [EPg code msg] is a
    PostgreSQL error with its SQLSTATE; [EStatus code msg] is
    [status.Error(code, msg)] of gRPC; [EOpaque msg e] is a type of the program
    whose text is its own and whose [Unwrap] gives [e]. *)
Inductive grpc_code :=
| Canceled | Unknown | InvalidArgument | DeadlineExceeded | NotFound | AlreadyExists
| PermissionDenied | ResourceExhausted | FailedPrecondition | CodeAborted | OutOfRange
| Unimplemented | Internal | Unavailable | DataLoss | Unauthenticated.
#[export] Instance grpc_code_eq_dec : EqDecision grpc_code.
Proof. solve_decision. Defined.
Definition code_String (c : grpc_code) : string :=
  match c with
  | Canceled => "Canceled" | Unknown => "Unknown" | InvalidArgument => "InvalidArgument"
  | DeadlineExceeded => "DeadlineExceeded" | NotFound => "NotFound"
  | AlreadyExists => "AlreadyExists" | PermissionDenied => "PermissionDenied"
  | ResourceExhausted => "ResourceExhausted" | FailedPrecondition => "FailedPrecondition"
  | CodeAborted => "Aborted" | OutOfRange => "OutOfRange" | Unimplemented => "Unimplemented"
  | Internal => "Internal" | Unavailable => "Unavailable" | DataLoss => "DataLoss"
  | Unauthenticated => "Unauthenticated"
  end.
Inductive goerr :=
| ESentinel (name : string)
| ENew (msg : string)
| EJoin (a b : goerr)
| EWrap (e : goerr) (msg : string)
| EWrapPre (msg : string) (e : goerr)
| EPg (code msg : string)
| EStatus (code : grpc_code) (msg : string)
| EOpaque (msg : string) (e : goerr).

#[export] Instance goerr_eq_dec : EqDecision goerr.
Proof. solve_decision. Defined.

(** [err.Error()]. *)
Fixpoint err_Error (e : goerr) : string :=
  match e with
  | ESentinel s => s
  | ENew m => m
  | EJoin a b => err_Error a +:+ String "010"%char "" +:+ err_Error b
  | EWrap e m => err_Error e +:+ ": " +:+ m
  | EWrapPre m e => m +:+ ": " +:+ err_Error e
  | EPg _ m => m
  | EOpaque m _ => m
  | EStatus c m => "rpc error: code = " +:+ code_String c +:+ " desc = " +:+ m
  end.

(** [errors.Is(err, target)]: some node of the error tree is the target. *)
Fixpoint errors_Is (e target : goerr) : bool :=
  bool_decide (e = target) ||
  match e with
  | EJoin a b => errors_Is a target || errors_Is b target
  | EWrap e _ => errors_Is e target
  | EWrapPre _ e | EOpaque _ e => errors_Is e target
  | _ => false
  end.

(** ** Results *)
Inductive res (A : Type) :=
| Ok (a : A)
| Err (e : goerr).
Arguments Ok {A} a.
Arguments Err {A} e.

#[export] Instance res_eq_dec `{EqDecision A} : EqDecision (res A).
Proof. solve_decision. Defined.

Definition is_Ok {A} (r : res A) : bool :=
  match r with Ok _ => true | Err _ => false end.

Definition res_bind {A B} (r : res A) (k : A -> res B) : res B :=
  match r with Ok a => k a | Err e => Err e end.

(** [if cond { return err }] *)
Definition guard_err (cond : bool) (e : goerr) : res unit :=
  if cond then Err e else Ok tt.

(** ** Effects

    A Go function that reads and writes the state [W] and may return an
    error.  The state survives an error: only a database transaction rolls
    it back. *)
Definition M (W A : Type) : Type := W -> res A * W.

Definition ret {W A} (a : A) : M W A := fun w => (Ok a, w).
Definition fail {W A} (e : goerr) : M W A := fun w => (Err e, w).
Definition lift {W A} (r : res A) : M W A := fun w => (r, w).
Definition bind {W A B} (m : M W A) (k : A -> M W B) : M W B :=
  fun w => match m w with
           | (Ok a, w') => k a w'
           | (Err e, w') => (Err e, w')
           end.
(** [x, err := m] where the code inspects [err] instead of returning it. *)
Definition attempt {W A} (m : M W A) : M W (res A) :=
  fun w => let '(r, w') := m w in (Ok r, w').
Definition gets {W A} (f : W -> A) : M W A := fun w => (Ok (f w), w).
Definition modify {W} (f : W -> W) : M W unit := fun w => (Ok tt, f w).

(** [_, _ = m]: the outcome is ignored. *)
Definition ignore {W A} (m : M W A) : M W unit := fun w => (Ok tt, (m w).2).
Definition fmap_M {W A B} (f : A -> B) (m : M W A) : M W B :=
  fun w => match m w with (Ok a, w') => (Ok (f a), w') | (Err e, w') => (Err e, w') end.

(** [errors.As] with a [*pgconn.PgError]: the code of the first one. *)
Fixpoint pg_code (err : goerr) : option string :=
  match err with
  | EPg c _ => Some c
  | EJoin a b => match pg_code a with Some c => Some c | None => pg_code b end
  | EWrap e _ | EWrapPre _ e | EOpaque _ e => pg_code e
  | _ => None
  end.
(** [status.FromError]: the first status of the error tree. *)
Fixpoint status_of (err : goerr) : option (grpc_code * string) :=
  match err with
  | EStatus c m => Some (c, m)
  | EJoin a b => match status_of a with Some s => Some s | None => status_of b end
  | EWrap e _ | EWrapPre _ e | EOpaque _ e => status_of e
  | _ => None
  end.
(** [status.Code] of an error that is not nil. *)
Definition status_Code (err : goerr) : grpc_code :=
  match status_of err with Some (c, _) => c | None => Unknown end.
Definition isUniqueViolation (err : goerr) : bool :=
  match pg_code err with Some c => String.eqb c "23505" | None => false end.

Declare Scope go_scope.
Delimit Scope go_scope with go.
Notation "'let!' x ':=' m 'in' k" := (bind m (fun x => k))
  (at level 10, x pattern, m at level 100, k at level 200,
   format "'[v' 'let!'  x  ':='  m  'in' '/' k ']'") : go_scope.
Notation "'let?' x ':=' m 'in' k" := (res_bind m (fun x => k))
  (at level 10, x pattern, m at level 100, k at level 200,
   format "'[v' 'let?'  x  ':='  m  'in' '/' k ']'") : go_scope.
Notation "m ;;; k" := (bind m (fun _ => k))
  (at level 100, k at level 200, right associativity) : go_scope.
#[global] Open Scope go_scope.

(** A [for] loop over a list whose body may fail. *)
Fixpoint for_each {W A} (f : A -> M W unit) (l : list A) : M W unit :=
  match l with
  | [] => ret tt
  | x :: l => f x ;;; for_each f l
  end.

(** A [for] loop that appends one result per element. *)
Fixpoint map_each {W A B} (f : A -> M W B) (l : list A) : M W (list B) :=
  match l with
  | [] => ret []
  | x :: l => let! y := f x in let! ys := map_each f l in ret (y :: ys)
  end.

(** ** Reasoning about effects *)

(** Every run of [m], successful or not, moves the state along [R]. *)
Definition evolves {W A} (R : W -> W -> Prop) (m : M W A) : Prop :=
  forall w, R w (snd (m w)).

Section Evolves.
Context {W : Type} (R : W -> W -> Prop) `{!PreOrder R}.

Lemma evolves_ret {A} (a : A) : evolves R (ret a).
Proof. intros w. reflexivity. Qed.

Lemma evolves_fail {A} e : evolves R (fail (A := A) e).
Proof. intros w. reflexivity. Qed.

Lemma evolves_lift {A} (r : res A) : evolves R (lift r).
Proof. intros w. reflexivity. Qed.

Lemma evolves_gets {A} (f : W -> A) : evolves R (gets f).
Proof. intros w. reflexivity. Qed.

Lemma evolves_bind {A B} (m : M W A) (k : A -> M W B) :
    evolves R m -> (forall a, evolves R (k a)) -> evolves R (bind m k).
Proof.
    intros Hm Hk w. unfold bind. specialize (Hm w).
    destruct (m w) as [[a|e] w'] eqn:E; cbn in *; [|done].
    transitivity w'; [done|apply Hk].
Qed.

Lemma evolves_bind_ret {A B} (a : A) (k : A -> M W B) : evolves R (k a) -> evolves R (bind (ret a) k).
Proof. done. Qed.

Lemma evolves_attempt {A} (m : M W A) : evolves R m -> evolves R (attempt m).
Proof.
    intros Hm w. unfold attempt. specialize (Hm w). by destruct (m w).
Qed.

Lemma evolves_ignore {A} (m : M W A) : evolves R m -> evolves R (ignore m).
Proof. intros Hm w. exact (Hm w). Qed.

Lemma evolves_fmap {A B} (f : A -> B) (m : M W A) : evolves R m -> evolves R (fmap_M f m).
Proof. intros Hm w. unfold fmap_M. specialize (Hm w). by destruct (m w) as [[?|?] ?]. Qed.

Lemma evolves_for_each {A} (f : A -> M W unit) l :
    (forall a, evolves R (f a)) -> evolves R (for_each f l).
Proof.
    intros Hf. induction l as [|a l IH]; cbn;
      [apply evolves_ret|apply evolves_bind; auto].
Qed.

Lemma evolves_map_each {A B} (f : A -> M W B) l :
    (forall a, evolves R (f a)) -> evolves R (map_each f l).
Proof.
    intros Hf. induction l as [|a l IH]; cbn; [apply evolves_ret|].
    apply evolves_bind; [done|intros y].
    apply evolves_bind; [done|intros ys; apply evolves_ret].
Qed.
End Evolves.

Create HintDb evolves discriminated.
#[export] Hint Resolve evolves_ret evolves_fail evolves_lift evolves_gets : evolves.

(** Walks a handler: binds, branches and the registered operations. *)
Ltac evolve :=
  repeat first
    [ progress intros
    | solve [eauto with evolves typeclass_instances]
    | lazymatch goal with
      | |- evolves _ (bind _ _) => apply evolves_bind; [typeclasses eauto| |]
      | |- evolves _ (attempt _) => apply evolves_attempt
      | |- evolves _ (ignore _) => apply evolves_ignore
      | |- evolves _ (fmap_M _ _) => apply evolves_fmap
      | |- evolves _ (for_each _ _) => apply evolves_for_each; [typeclasses eauto|]
      | |- evolves _ (map_each _ _) => apply evolves_map_each; [typeclasses eauto|]
      end
    | case_match ].

(** One successful or failing step of a run. *)
Lemma bind_Ok {W A B} (m : M W A) (k : A -> M W B) w a w' :
  m w = (Ok a, w') -> bind m k w = k a w'.
Proof. intros H. unfold bind. by rewrite H. Qed.

Lemma bind_Err {W A B} (m : M W A) (k : A -> M W B) w e w' :
  m w = (Err e, w') -> bind m k w = (Err e, w').
Proof. intros H. unfold bind. by rewrite H. Qed.

Lemma bind_inv_Ok {W A B} (m : M W A) (k : A -> M W B) w b w' :
  bind m k w = (Ok b, w') -> exists a w1, m w = (Ok a, w1) /\ k a w1 = (Ok b, w').
Proof.
  unfold bind. destruct (m w) as [[a|e] w1] eqn:E; [eauto|congruence].
Qed.

Lemma res_bind_inv_Ok {A B} (r : res A) (k : A -> res B) b :
  res_bind r k = Ok b -> exists a, r = Ok a /\ k a = Ok b.
Proof. destruct r; cbn; [eauto|congruence]. Qed.

(** Opens a hypothesis [bind .. w = (Ok .., ..)] or [res_bind .. = Ok ..]. *)
Ltac inv_run :=
  repeat match goal with
  | H : bind _ _ _ = (Ok _, _) |- _ =>
      let a := fresh "a" in let w := fresh "w" in let E := fresh "E" in
      apply bind_inv_Ok in H as (a & w & E & H)
  | H : res_bind _ _ = Ok _ |- _ =>
      let a := fresh "a" in let E := fresh "E" in
      apply res_bind_inv_Ok in H as (a & E & H)
  | H : ret _ _ = (_, _) |- _ => unfold ret in H; simplify_eq
  | H : fail _ _ = (_, _) |- _ => unfold fail in H; simplify_eq
  | H : lift _ _ = (_, _) |- _ => unfold lift in H; simplify_eq
  | H : gets _ _ = (_, _) |- _ => unfold gets in H; simplify_eq
  | H : guard_err ?b _ = Ok _ |- _ =>
      let E := fresh "G" in
      unfold guard_err in H; destruct b eqn:E; [discriminate|clear H]
  end.

(** A read leaves the state alone. *)
Definition read_only {W A} (m : M W A) : Prop := forall w, snd (m w) = w.

Lemma read_only_ret {W A} (a : A) : read_only (W := W) (ret a).
Proof. done. Qed.
Lemma read_only_fail {W A} e : read_only (W := W) (fail (A := A) e).
Proof. done. Qed.
Lemma read_only_lift {W A} (r : res A) : read_only (W := W) (lift r).
Proof. done. Qed.
Lemma read_only_bind {W A B} (m : M W A) (k : A -> M W B) :
  read_only m -> (forall a, read_only (k a)) -> read_only (bind m k).
Proof.
  intros Hm Hk w. unfold bind. specialize (Hm w).
  destruct (m w) as [[a|e] w']; cbn in *; subst; [apply Hk|done].
Qed.

(** Sequencing after a read. *)
Lemma bind_read {W A B} (m : M W A) (k : A -> M W B) w :
  read_only m -> bind m k w = match fst (m w) with Ok a => k a w | Err e => (Err e, w) end.
Proof.
  intros Hm. unfold bind. specialize (Hm w).
  destruct (m w) as [[a|e] w']; cbn in *; by subst.
Qed.

Create HintDb read_only discriminated.

(** [len(l) == 0] and [p == nil]. *)
Definition is_nil {A} (l : list A) : bool :=
  match l with [] => true | _ => false end.
Definition is_none {A} (o : option A) : bool :=
  match o with None => true | Some _ => false end.

(** ** Tables: lists with an in-place conditional update *)
Definition update_where {A} (p : A -> bool) (f : A -> A) (l : list A) : list A :=
  map (fun x => if p x then f x else x) l.
Arguments update_where : simpl never.

Section Update_where.
Context {A : Type} (p : A -> bool) (f : A -> A).

Lemma update_where_cons x l :
    update_where p f (x :: l) = (if p x then f x else x) :: update_where p f l.
Proof. done. Qed.

Lemma update_where_none l :
    (forall x, x ∈ l -> p x = false) -> update_where p f l = l.
Proof.
    intros H. induction l as [|x l IH]; [done|].
    rewrite update_where_cons, (H x), IH; set_solver.
Qed.

Lemma elem_of_update_where l y :
    y ∈ update_where p f l <->
    exists x, x ∈ l /\ y = if p x then f x else x.
Proof.
    unfold update_where. rewrite list_elem_of_fmap. firstorder.
Qed.

Lemma length_update_where l : length (update_where p f l) = length l.
Proof. apply length_map. Qed.

Lemma map_update_where {B} (g : A -> B) l :
    (forall x, g (f x) = g x) -> map g (update_where p f l) = map g l.
Proof.
    intros H. unfold update_where. rewrite map_map.
    apply map_ext. intros x. by destruct (p x).
Qed.

Lemma filter_update_where (q : A -> bool) l :
    (forall x, q (f x) = q x) ->
    List.filter q (update_where p f l) = update_where p f (List.filter q l).
Proof.
    intros H. induction l as [|x l IH]; [done|].
    rewrite update_where_cons; cbn [List.filter]; rewrite IH.
    destruct (p x) eqn:Px; rewrite ?H; destruct (q x); rewrite ?update_where_cons, ?Px; done.
Qed.

Lemma find_update_where (q : A -> bool) l :
    (forall x, q (f x) = q x) ->
    List.find q (update_where p f l) =
    option_map (fun x => if p x then f x else x) (List.find q l).
Proof.
    intros H. induction l as [|x l IH]; [done|].
    rewrite update_where_cons; cbn [List.find]; rewrite IH.
    destruct (p x) eqn:Px; rewrite ?H; destruct (q x); cbn; rewrite ?Px; done.
Qed.
End Update_where.

Lemma find_Some_elem {A} (p : A -> bool) l x :
  List.find p l = Some x -> x ∈ l /\ p x = true.
Proof. intros H%List.find_some. by rewrite list_elem_of_In. Qed.

Lemma find_snoc {A} (p : A -> bool) l x :
  List.find p (l ++ [x]) = match List.find p l with Some y => Some y | None => if p x then Some x else None end.
Proof. induction l as [|y l IH]; cbn; [done|]. by destruct (p y). Qed.
Lemma find_None_elem {A} (p : A -> bool) l :
  List.find p l = None <-> forall x, x ∈ l -> p x = false.
Proof.
  split.
  - intros H x Hx%list_elem_of_In. eapply List.find_none; eauto.
  - intros H. destruct (List.find p l) as [x|] eqn:E; [|done].
    apply find_Some_elem in E as [Hx Px]. by rewrite H in Px.
Qed.

Lemma elem_of_filter_bool {A} (p : A -> bool) l x :
  x ∈ List.filter p l <-> x ∈ l /\ p x = true.
Proof. by rewrite !list_elem_of_In, List.filter_In. Qed.

(** ** Stable sorting: [sort.SliceStable] with a strict order [less]. *)
Section Stable_sort.
Context {A : Type} (less : A -> A -> bool).

Fixpoint sorted_insert (x : A) (l : list A) : list A :=
    match l with
    | [] => [x]
    | y :: l' => if less y x then y :: sorted_insert x l' else x :: l
    end.

Fixpoint stable_sort (l : list A) : list A :=
    match l with
    | [] => []
    | x :: l => sorted_insert x (stable_sort l)
    end.

Lemma sorted_insert_Permutation x l : sorted_insert x l ≡ₚ x :: l.
Proof.
    induction l as [|y l IH]; cbn; [done|].
    destruct (less y x); [|done]. rewrite IH. apply Permutation_swap.
Qed.

Lemma stable_sort_Permutation l : stable_sort l ≡ₚ l.
Proof.
    induction l as [|x l IH]; cbn; [done|].
    by rewrite sorted_insert_Permutation, IH.
Qed.

Lemma elem_of_stable_sort l x : x ∈ stable_sort l <-> x ∈ l.
Proof. by rewrite stable_sort_Permutation. Qed.

  (** The order [x] not after [y]. *)
Definition not_after (x y : A) : Prop := less y x = false.

  Section Laws.
Context (Hasym : forall x y, less x y = true -> less y x = false).
Context (Htrans : forall x y z, not_after x y -> not_after y z -> not_after x z).

Lemma sorted_insert_sorted x l :
      StronglySorted not_after l -> StronglySorted not_after (sorted_insert x l).
Proof.
      induction 1 as [|y l Hs IH Hy]; cbn; [repeat constructor|].
      destruct (less y x) eqn:E.
      - constructor; [done|].
        rewrite sorted_insert_Permutation. constructor; [|done].
        by apply Hasym.
      - repeat constructor; [done..|].
        eapply Forall_impl; [exact Hy|]. intros z Hz.
        eapply Htrans; [exact E|done].
Qed.

Lemma stable_sort_sorted l : StronglySorted not_after (stable_sort l).
Proof.
      induction l as [|x l IH]; cbn; [constructor|by apply sorted_insert_sorted].
Qed.
  End Laws.

Lemma stable_sort_sorted_id l :
    StronglySorted not_after l -> stable_sort l = l.
Proof.
    induction 1 as [|x l Hs IH Hx]; cbn; [done|].
    rewrite IH. destruct l as [|y l]; cbn; [done|].
    apply Forall_cons in Hx as [Hxy _]. unfold not_after in Hxy. by rewrite Hxy.
Qed.
End Stable_sort.

(** Two sorted permutations of each other coincide when the order decides
    every pair that occurs in them. *)
Lemma sorted_perm_unique {A} (R : A -> A -> Prop) (l1 l2 : list A) :
  (forall x y, x ∈ l1 -> y ∈ l1 -> R x y -> R y x -> x = y) ->
  StronglySorted R l1 -> StronglySorted R l2 -> l1 ≡ₚ l2 -> l1 = l2.
Proof.
  intros Hanti Hs1 Hs2. revert l2 Hs2 Hanti.
  induction Hs1 as [|x l1 Hs1 IH Hx]; intros l2 Hs2 Hanti Hp.
  { by apply Permutation_nil_l in Hp. }
  destruct Hs2 as [|y l2 Hs2 Hy].
  { symmetry in Hp. by apply Permutation_nil_cons in Hp. }
  assert (x = y) as ->.
  { assert (Hin : x ∈ y :: l2) by (rewrite <- Hp; set_solver).
    assert (Hin' : y ∈ x :: l1) by (rewrite Hp; set_solver).
    apply elem_of_cons in Hin as [->|Hin]; [done|].
    apply elem_of_cons in Hin' as [->|Hin']; [done|].
    rewrite Forall_forall in Hx, Hy.
    apply Hanti; [set_solver|set_solver|by apply Hx|by apply Hy]. }
  f_equal. apply IH; [done| |by apply Permutation_cons_inv in Hp].
  intros a b Ha Hb. apply Hanti; set_solver.
Qed.
