(* ===== verification/GoStd.v ===== *)
(** * Go language and standard library fragments used by the program

    Machine integers ([int64], [int32]) with their wrap-around, the parts of
    package [strings] and [strconv] the program calls, [float64] arithmetic
    (IEEE 754 binary64, round to nearest even, through the Standard
    Library's [SpecFloat]), times as integers, UUIDs, and decoded JSON
    values as [encoding/json] presents them.

    Strings are byte sequences.  [TrimSpace] trims exactly Go's white space
    (the UTF-8 encodings of [unicode.IsSpace] code points); the case mappings
    act on ASCII letters, which covers the identifiers, states, currency and
    hex digits the program compares. *)

From S2P Require Import Prelude.
From Stdlib Require Export Floats.SpecFloat.

(** ** Machine integers *)

Definition wrap (w z : Z) : Z := (z + 2 ^ (w - 1)) mod 2 ^ w - 2 ^ (w - 1).
Definition wrap64 (z : Z) : Z := wrap 64 z.
Definition wrap32 (z : Z) : Z := wrap 32 z.

Definition MaxInt64 : Z := 9223372036854775807.
Definition MinInt64 : Z := -9223372036854775808.
Definition MaxInt32 : Z := 2147483647.
Definition MinInt32 : Z := -2147483648.
Definition in_int64 (z : Z) : Prop := MinInt64 <= z <= MaxInt64.
Definition in_int32 (z : Z) : Prop := MinInt32 <= z <= MaxInt32.

Ltac unfold_int :=
  unfold in_int64, in_int32, MaxInt64, MinInt64, MaxInt32, MinInt32 in *.

Lemma wrap64_id z : in_int64 z -> wrap64 z = z.
Proof. unfold_int. unfold wrap64, wrap. cbn. intros. rewrite Z.mod_small; lia. Qed.

Lemma wrap32_id z : in_int32 z -> wrap32 z = z.
Proof. unfold_int. unfold wrap32, wrap. cbn. intros. rewrite Z.mod_small; lia. Qed.

Lemma wrap64_range z : in_int64 (wrap64 z).
Proof.
  unfold_int. unfold wrap64, wrap.
  pose proof (Z.mod_pos_bound (z + 2 ^ (64 - 1)) (2 ^ 64) eq_refl).
  change (2 ^ (64 - 1)) with 9223372036854775808 in *.
  change (2 ^ 64) with 18446744073709551616 in *. lia.
Qed.

(** The Go operators on [int64] values. *)
Definition add64 (a b : Z) : Z := wrap64 (a + b).
Definition sub64 (a b : Z) : Z := wrap64 (a - b).
Definition mul64 (a b : Z) : Z := wrap64 (a * b).

Lemma add64_id a b : in_int64 (a + b) -> add64 a b = a + b.
Proof. apply wrap64_id. Qed.
Lemma sub64_id a b : in_int64 (a - b) -> sub64 a b = a - b.
Proof. apply wrap64_id. Qed.
Lemma mul64_id a b : in_int64 (a * b) -> mul64 a b = a * b.
Proof. apply wrap64_id. Qed.

(** ** Package [strings] *)

Definition s2l (s : string) : list ascii := String.list_ascii_of_string s.
Definition l2s (l : list ascii) : string := String.string_of_list_ascii l.

Lemma l2s_s2l s : l2s (s2l s) = s.
Proof. apply String.string_of_list_ascii_of_string. Qed.
Lemma s2l_l2s l : s2l (l2s l) = l.
Proof. apply String.list_ascii_of_string_of_list_ascii. Qed.

Definition byte_of (c : ascii) : N := N_of_ascii c.
Definition byte_in (c : ascii) (l : list N) : bool := existsb (N.eqb (byte_of c)) l.

(** [\t \n \v \f \r] and space. *)
Definition space1 (c : ascii) : bool := byte_in c [9; 10; 11; 12; 13; 32]%N.
(** U+0085 and U+00A0. *)
Definition space2 (c d : ascii) : bool := byte_in c [194]%N && byte_in d [133; 160]%N.
(** U+1680, U+2000..U+200A, U+2028, U+2029, U+202F, U+205F and U+3000. *)
Definition space3 (c d e : ascii) : bool :=
  (byte_in c [225]%N && byte_in d [154]%N && byte_in e [128]%N) ||
  (byte_in c [226]%N && byte_in d [128]%N &&
   byte_in e [128; 129; 130; 131; 132; 133; 134; 135; 136; 137; 138; 168; 169; 175]%N) ||
  (byte_in c [226]%N && byte_in d [129]%N && byte_in e [159]%N) ||
  (byte_in c [227]%N && byte_in d [128]%N && byte_in e [128]%N).

Arguments space1 : simpl never.
Arguments space2 : simpl never.
Arguments space3 : simpl never.

Fixpoint trim_front (l : list ascii) : list ascii :=
  match l with
  | [] => []
  | c :: l1 =>
      if space1 c then trim_front l1 else
      match l1 with
      | [] => l
      | d :: l2 =>
          if space2 c d then trim_front l2 else
          match l2 with
          | [] => l
          | e :: l3 => if space3 c d e then trim_front l3 else l
          end
      end
  end.

(** The same on a reversed list: removes trailing white space. *)
Fixpoint trim_back (l : list ascii) : list ascii :=
  match l with
  | [] => []
  | c :: l1 =>
      if space1 c then trim_back l1 else
      match l1 with
      | [] => l
      | d :: l2 =>
          if space2 d c then trim_back l2 else
          match l2 with
          | [] => l
          | e :: l3 => if space3 e d c then trim_back l3 else l
          end
      end
  end.

Definition TrimSpace (s : string) : string :=
  l2s (rev (trim_back (rev (trim_front (s2l s))))).

Definition lower_ascii (c : ascii) : ascii :=
  let n := N_of_ascii c in
  if (65 <=? n)%N && (n <=? 90)%N then ascii_of_N (n + 32) else c.
Definition upper_ascii (c : ascii) : ascii :=
  let n := N_of_ascii c in
  if (97 <=? n)%N && (n <=? 122)%N then ascii_of_N (n - 32) else c.
Definition ToLower (s : string) : string := l2s (map lower_ascii (s2l s)).
Definition ToUpper (s : string) : string := l2s (map upper_ascii (s2l s)).
Definition EqualFold (a b : string) : bool := String.eqb (ToLower a) (ToLower b).

Definition HasPrefix (s p : string) : bool := String.prefix p s.
(** [strings.TrimPrefix] *)
Definition TrimPrefix (s p : string) : string :=
  if HasPrefix s p then String.substring (String.length p) (String.length s - String.length p) s else s.

Fixpoint Contains (s sub : string) : bool :=
  String.prefix sub s ||
  match s with String.EmptyString => false | String.String _ s' => Contains s' sub end.

Lemma prefix_spec s p : String.prefix p s = true <-> exists r, s = p +:+ r.
Proof.
  revert s. induction p as [|c p IH]; intros s.
  - split; [by exists s|by destruct s].
  - destruct s as [|d s]; [split; [done|by intros [? ?]]|].
    change (String.prefix (String.String c p) (String.String d s)) with
      (if ascii_dec c d then String.prefix p s else false).
    destruct (ascii_dec c d) as [->|Hn].
    + rewrite IH. split; intros [r Hr]; exists r; [by rewrite Hr|by injection Hr].
    + split; [done|]. intros [r Hr]. injection Hr. congruence.
Qed.
Lemma Contains_spec s sub : Contains s sub = true <-> exists a b, s = a +:+ sub +:+ b.
Proof.
  induction s as [|c s IH]; cbn [Contains]; rewrite orb_true_iff, prefix_spec.
  - split.
    + intros [[b E]|?]; [|done]. by exists "", b.
    + intros (a & b & E). left. destruct a; [|done]. by exists b.
  - rewrite IH. split.
    + intros [[b E]|(a & b & E)]; [by exists "", b|]. exists (String c a), b. by rewrite E.
    + intros ([|d a] & b & E); [left; by exists b|right]. injection E as -> E. by exists a, b.
Qed.

(** [strings.IndexByte] and [strings.LastIndexByte]; [None] is [-1]. *)
Fixpoint index_byte (l : list ascii) (c : ascii) : option nat :=
  match l with
  | [] => None
  | d :: l' => if Ascii.eqb d c then Some O else option_map S (index_byte l' c)
  end.
Fixpoint last_index_byte (l : list ascii) (c : ascii) : option nat :=
  match l with
  | [] => None
  | d :: l' =>
      match last_index_byte l' c with
      | Some i => Some (S i)
      | None => if Ascii.eqb d c then Some O else None
      end
  end.

Definition is_digit (c : ascii) : bool :=
  let n := N_of_ascii c in (48 <=? n)%N && (n <=? 57)%N.
Definition is_hex_digit (c : ascii) : bool :=
  let n := N_of_ascii c in
  is_digit c || ((97 <=? n)%N && (n <=? 102)%N) || ((65 <=? n)%N && (n <=? 70)%N).
(** [unicode.IsLetter] on the one-byte runes. *)
Definition is_letter (c : ascii) : bool :=
  let n := N_of_ascii c in
  ((97 <=? n)%N && (n <=? 122)%N) || ((65 <=? n)%N && (n <=? 90)%N).

(** Go's [<] on strings: bytewise lexicographic. *)
Definition string_lt (a b : string) : bool := String.ltb a b.

(** [len(s)]. *)
Definition len (s : string) : Z := Z.of_nat (String.length s).

(** [strconv.FormatInt(z, 10)]. *)
Definition FormatInt (z : Z) : string := pretty z.

Notation "a == b" := (String.eqb a b) (at level 70, no associativity) : string_scope.

(** *** Facts about trimming *)

(** One step of the loop: drop one encoded space, or stop. *)
Lemma trim_front_step l :
  trim_front l = l \/
  exists k l', l = k ++ l' /\ length k <> O /\ trim_front l = trim_front l'.
Proof.
  destruct l as [|c l1]; [by left|].
  destruct (space1 c) eqn:E1; [right; exists [c], l1; cbn; by rewrite E1|].
  destruct l1 as [|d l2]; [left; cbn; by rewrite E1|].
  destruct (space2 c d) eqn:E2; [right; exists [c; d], l2; cbn; by rewrite E1, E2|].
  destruct l2 as [|e l3]; [left; cbn; by rewrite E1, E2|].
  destruct (space3 c d e) eqn:E3.
  - right. exists [c; d; e], l3. cbn. by rewrite E1, E2, E3.
  - left. cbn. by rewrite E1, E2, E3.
Qed.

Lemma trim_front_suffix l : exists k, l = k ++ trim_front l.
Proof.
  remember (length l) as n eqn:En.
  revert l En. induction n as [n IH] using lt_wf_ind; intros l ->.
  destruct (trim_front_step l) as [->|(k & l' & -> & Hk & ->)]; [by exists []|].
  rewrite length_app in IH.
  destruct (IH (length l') ltac:(lia) l' eq_refl) as [k' Hk'].
  exists (k ++ k'). rewrite <- app_assoc. by f_equal.
Qed.

(** The list starts with an encoded white space character. *)
Definition starts_space (l : list ascii) : bool :=
  match l with
  | [] => false
  | c :: l1 => space1 c || match l1 with
      | [] => false
      | d :: l2 => space2 c d || match l2 with
          | [] => false
          | e :: _ => space3 c d e
          end
      end
  end.

Lemma trim_front_id l : starts_space l = false -> trim_front l = l.
Proof.
  destruct l as [|c [|d [|e l]]]; cbn; intros H; [done|..];
    (destruct (space1 c); [discriminate|]); try done;
    (destruct (space2 c d); [discriminate|]); try done;
    cbn in H; by rewrite H.
Qed.

Lemma trim_front_done l : starts_space (trim_front l) = false.
Proof.
  remember (length l) as n eqn:En.
  revert l En. induction n as [n IH] using lt_wf_ind; intros l ->.
  destruct l as [|c [|d [|e l]]]; [done|..].
  - cbn. destruct (space1 c) eqn:E; cbn; rewrite ?E; done.
  - change (trim_front [c; d]) with
      (if space1 c then trim_front [d] else
       if space2 c d then [] else [c; d]).
    destruct (space1 c) eqn:E; [apply (IH 1%nat); cbn; [lia|done]|].
    destruct (space2 c d) eqn:E2; cbn; rewrite ?E, ?E2; done.
  - change (trim_front (c :: d :: e :: l)) with
      (if space1 c then trim_front (d :: e :: l) else
       if space2 c d then trim_front (e :: l) else
       if space3 c d e then trim_front l else c :: d :: e :: l).
    destruct (space1 c) eqn:E; [eapply (IH (length (d :: e :: l))); cbn; lia|].
    destruct (space2 c d) eqn:E2; [eapply (IH (length (e :: l))); cbn; lia|].
    destruct (space3 c d e) eqn:E3; [eapply (IH (length l)); cbn; lia|].
    cbn. by rewrite E, E2, E3.
Qed.

Lemma starts_space_app l k : starts_space l = true -> starts_space (l ++ k) = true.
Proof.
  destruct l as [|c [|d [|e l]]]; cbn; [done|..]; rewrite ?orb_false_r.
  - by intros ->.
  - destruct (space1 c), (space2 c d); done.
  - done.
Qed.

(** Trailing trimming is leading trimming of the mirrored encodings. *)
Definition ends_space (l : list ascii) : bool :=
  match l with
  | [] => false
  | c :: l1 => space1 c || match l1 with
      | [] => false
      | d :: l2 => space2 d c || match l2 with
          | [] => false
          | e :: _ => space3 e d c
          end
      end
  end.

(** One step of the loop: drop one encoded space, or stop. *)
Lemma trim_back_step l :
  trim_back l = l \/
  exists k l', l = k ++ l' /\ length k <> O /\ trim_back l = trim_back l'.
Proof.
  destruct l as [|c l1]; [by left|].
  destruct (space1 c) eqn:E1; [right; exists [c], l1; cbn; by rewrite E1|].
  destruct l1 as [|d l2]; [left; cbn; by rewrite E1|].
  destruct (space2 d c) eqn:E2; [right; exists [c; d], l2; cbn; by rewrite E1, E2|].
  destruct l2 as [|e l3]; [left; cbn; by rewrite E1, E2|].
  destruct (space3 e d c) eqn:E3.
  - right. exists [c; d; e], l3. cbn. by rewrite E1, E2, E3.
  - left. cbn. by rewrite E1, E2, E3.
Qed.

Lemma trim_back_suffix l : exists k, l = k ++ trim_back l.
Proof.
  remember (length l) as n eqn:En.
  revert l En. induction n as [n IH] using lt_wf_ind; intros l ->.
  destruct (trim_back_step l) as [->|(k & l' & -> & Hk & ->)]; [by exists []|].
  rewrite length_app in IH.
  destruct (IH (length l') ltac:(lia) l' eq_refl) as [k' Hk'].
  exists (k ++ k'). rewrite <- app_assoc. by f_equal.
Qed.

Lemma trim_back_id l : ends_space l = false -> trim_back l = l.
Proof.
  destruct l as [|c [|d [|e l]]]; cbn; intros H; [done|..];
    (destruct (space1 c); [discriminate|]); try done;
    (destruct (space2 d c); [discriminate|]); try done;
    cbn in H; by rewrite H.
Qed.

Lemma trim_back_done l : ends_space (trim_back l) = false.
Proof.
  remember (length l) as n eqn:En.
  revert l En. induction n as [n IH] using lt_wf_ind; intros l ->.
  destruct l as [|c [|d [|e l]]]; [done|..].
  - cbn. destruct (space1 c) eqn:E; cbn; rewrite ?E; done.
  - change (trim_back [c; d]) with
      (if space1 c then trim_back [d] else
       if space2 d c then [] else [c; d]).
    destruct (space1 c) eqn:E; [apply (IH 1%nat); cbn; [lia|done]|].
    destruct (space2 d c) eqn:E2; cbn; rewrite ?E, ?E2; done.
  - change (trim_back (c :: d :: e :: l)) with
      (if space1 c then trim_back (d :: e :: l) else
       if space2 d c then trim_back (e :: l) else
       if space3 e d c then trim_back l else c :: d :: e :: l).
    destruct (space1 c) eqn:E; [eapply (IH (length (d :: e :: l))); cbn; lia|].
    destruct (space2 d c) eqn:E2; [eapply (IH (length (e :: l))); cbn; lia|].
    destruct (space3 e d c) eqn:E3; [eapply (IH (length l)); cbn; lia|].
    cbn. by rewrite E, E2, E3.
Qed.

Lemma TrimSpace_idemp s : TrimSpace (TrimSpace s) = TrimSpace s.
Proof.
  unfold TrimSpace. rewrite s2l_l2s. f_equal.
  set (l := trim_front (s2l s)).
  destruct (trim_back_suffix (rev l)) as [k Hk].
  assert (Hl : l = rev (trim_back (rev l)) ++ rev k).
  { rewrite <- rev_app_distr, <- Hk. by rewrite rev_involutive. }
  rewrite trim_front_id.
  - rewrite rev_involutive. f_equal. apply trim_back_id, trim_back_done.
  - destruct (starts_space (rev (trim_back (rev l)))) eqn:E; [|done].
    apply (starts_space_app _ (rev k)) in E. rewrite <- Hl in E.
    unfold l in E. by rewrite trim_front_done in E.
Qed.

(** A string without leading or trailing space is its own trimming. *)
Lemma TrimSpace_id s :
  starts_space (s2l s) = false -> ends_space (rev (s2l s)) = false ->
  TrimSpace s = s.
Proof.
  intros Hs He. unfold TrimSpace.
  by rewrite trim_front_id, trim_back_id, rev_involutive, l2s_s2l.
Qed.

Create Rewrite HintDb go.
#[export] Hint Rewrite TrimSpace_idemp : go.

Lemma eqb_true (a b : string) : String.eqb a b = true <-> a = b.
Proof. apply String.eqb_eq. Qed.
Lemma eqb_false (a b : string) : String.eqb a b = false <-> a <> b.
Proof. apply String.eqb_neq. Qed.

Lemma EqualFold_refl s : EqualFold s s = true.
Proof. apply String.eqb_refl. Qed.

(** *** The order on strings *)

Lemma string_lt_asym a b : string_lt a b = true -> string_lt b a = false.
Proof.
  unfold string_lt, String.ltb. rewrite (String.compare_antisym a b).
  by destruct (String.compare b a).
Qed.

Lemma string_lt_total a b : string_lt a b = false -> string_lt b a = false -> a = b.
Proof.
  unfold string_lt, String.ltb. rewrite (String.compare_antisym a b).
  destruct (String.compare b a) eqn:E; cbn; try done.
  intros _ _. symmetry. by apply String.compare_eq_iff.
Qed.

Lemma ascii_compare_N a b : Ascii.compare a b = (N_of_ascii a ?= N_of_ascii b)%N.
Proof. done. Qed.

(** [not_after] for strings is transitive: [a <= b] and [b <= c] give [a <= c]. *)
Lemma string_ge_trans a b c :
  string_lt b a = false -> string_lt c b = false -> string_lt c a = false.
Proof.
  unfold string_lt, String.ltb.
  revert b c. induction a as [|x a IH]; intros [|y b] [|z c]; cbn; try done.
  specialize (IH b c). rewrite !ascii_compare_N.
  destruct (N.compare_spec (N_of_ascii y) (N_of_ascii x)),
           (N.compare_spec (N_of_ascii z) (N_of_ascii y)),
           (N.compare_spec (N_of_ascii z) (N_of_ascii x)); try done; try lia;
    auto.
Qed.
(** [sort.Strings] depends on the strings only. *)
Lemma sort_strings_perm l1 l2 : l1 ≡ₚ l2 -> stable_sort string_lt l1 = stable_sort string_lt l2.
Proof.
  intros Hp.
  assert (Hsrt : forall l, StronglySorted (not_after string_lt) (stable_sort string_lt l)).
  { intros l. apply stable_sort_sorted; [apply string_lt_asym|]. intros x y z. apply string_ge_trans. }
  apply (sorted_perm_unique (not_after string_lt)); auto.
  - intros x y _ _ Hx Hy. symmetry. by apply string_lt_total.
  - by rewrite !stable_sort_Permutation.
Qed.

(** ** [float64] *)

Definition float64 := spec_float.
Definition f64_prec : Z := 53.
Definition f64_emax : Z := 1024.

(** [float64(z)] for an integer [z]. *)
Definition f64_of_Z (z : Z) : float64 :=
  binary_normalize f64_prec f64_emax z 0 false.
Definition f64_mul (a b : float64) : float64 := SFmul f64_prec f64_emax a b.
Definition f64_div (a b : float64) : float64 := SFdiv f64_prec f64_emax a b.
Definition f64_leb (a b : float64) : bool := SFleb a b.

(** The correctly rounded value of the decimal literal [m * 10^-scale]. *)
Definition f64_of_decimal (m : Z) (scale : nat) : float64 :=
  match m with
  | Z0 => S754_zero false
  | Zpos p => SFdiv f64_prec f64_emax (S754_finite false p 0)
                (S754_finite false (Z.to_pos (10 ^ Z.of_nat scale)) 0)
  | Zneg p => SFdiv f64_prec f64_emax (S754_finite true p 0)
                (S754_finite false (Z.to_pos (10 ^ Z.of_nat scale)) 0)
  end.

(** Truncation toward zero of a finite value. *)
Definition f64_trunc (f : float64) : option Z :=
  match f with
  | S754_zero _ => Some 0
  | S754_finite s m e =>
      let a := if 0 <=? e then Z.pos m * 2 ^ e else Z.pos m / 2 ^ (- e) in
      Some (if s then - a else a)
  | S754_infinity _ | S754_nan => None
  end.

(** [int64(f)].  Go leaves the result of a value that does not fit
    implementation-defined; this is the amd64 result, [MinInt64]. *)
Definition f64_to_int64 (f : float64) : Z :=
  match f64_trunc f with
  | Some z => if (MinInt64 <=? z) && (z <=? MaxInt64) then z else MinInt64
  | None => MinInt64
  end.

Lemma f64_to_int64_range f : in_int64 (f64_to_int64 f).
Proof.
  unfold f64_to_int64. destruct (f64_trunc f) as [z|]; [|unfold_int; lia].
  destruct (_ && _) eqn:E; [|unfold_int; lia].
  apply andb_true_iff in E as [? ?]. unfold in_int64. lia.
Qed.

(** ** Times, identifiers and JSON *)

(** Nanoseconds since Go's zero time; [0] is [time.Time{}]. *)
Abbreviation time := Z (only parsing).
Definition IsZero (t : Z) : bool := t =? 0.
Definition Millisecond : Z := 1000000.
(** [t.Sub(u)], which saturates. *)
Definition time_Sub (t u : Z) : Z := Z.max MinInt64 (Z.min MaxInt64 (t - u)).
Definition Second : Z := 1000000000.
Definition Minute : Z := 60 * Second.
Definition Hour : Z := 60 * Minute.

(** A 128-bit identifier; [uuid.Nil] is zero. *)
Abbreviation uuid := N (only parsing).
Definition uuid_Nil : N := 0%N.
Notation "a =u b" := (N.eqb a b) (at level 70, no associativity).

(** [uuid.UUID.String] of github.com/google/uuid: a parameter, with the
    injectivity its documentation gives. *)
Class UuidText := uuid_String : N -> string.
Class UuidTextLaws (U : UuidText) := uuid_String_inj :: Inj (=) (=) uuid_String.

(** A concrete instance for evaluation. *)
Definition decimal_uuid : UuidText := fun n => pretty n.
Lemma decimal_uuid_laws : UuidTextLaws decimal_uuid.
Proof. unfold UuidTextLaws, uuid_String, decimal_uuid. apply _. Qed.

(** A decoded JSON value; [JNum m k] is the literal [m * 10^-k] printed with
    [k] fraction digits, as PostgreSQL prints a [jsonb] number. *)
Inductive json :=
| JNull
| JBool (b : bool)
| JNum (m : Z) (scale : nat)
| JStr (s : string)
| JArr (l : list json)
| JObj (fields : list (string * json)).

Definition JInt (z : Z) : json := JNum z 0.

(** The values [json.Unmarshal] stores into the field with a struct tag, in
    document order: keys are compared case-insensitively. *)
Definition json_values (tag : string) (fields : list (string * json)) : list json :=
  map snd (List.filter (fun kv => EqualFold (fst kv) tag) fields).

(** Storing the values one after the other; [store] fails with an
    [UnmarshalTypeError], after which the whole decoding reports an error. *)
Fixpoint json_store {A} (store : A -> json -> option A) (acc : A) (vs : list json) : option A :=
  match vs with
  | [] => Some acc
  | v :: vs => match store acc v with
               | Some acc => json_store store acc vs
               | None => None
               end
  end.

(** One value into a [float64], [int64], [*int64] or [string] field. *)
Definition store_float (acc : float64) (v : json) : option float64 :=
  match v with
  | JNull => Some acc
  | JNum m k => match f64_of_decimal m k with
                | S754_infinity _ | S754_nan => None
                | f => Some f
                end
  | _ => None
  end.
Definition store_int64 (acc : Z) (v : json) : option Z :=
  match v with
  | JNull => Some acc
  | JNum m O => if (MinInt64 <=? m) && (m <=? MaxInt64) then Some m else None
  | _ => None
  end.
Definition store_int64_ptr (acc : option Z) (v : json) : option (option Z) :=
  match v with
  | JNull => Some None
  | v => option_map Some (store_int64 0 v)
  end.
Definition store_string (acc : string) (v : json) : option string :=
  match v with
  | JNull => Some acc
  | JStr s => Some s
  | _ => None
  end.

Definition json_float tag fs := json_store store_float (S754_zero false) (json_values tag fs).
Definition json_int64 tag fs := json_store store_int64 0 (json_values tag fs).
Definition json_int64_ptr tag fs := json_store store_int64_ptr None (json_values tag fs).
Definition json_string tag fs := json_store store_string EmptyString (json_values tag fs).

(** The last value of a key; [encoding/json] into a map. *)
Definition json_last (key : string) (fields : list (string * json)) : option json :=
  option_map snd (List.find (fun kv => String.eqb kv.1 key) (rev fields)).

(** [hex.EncodeToString(sha256.Sum256(b))]: the hash is a parameter. *)
Class Sha256 := sha256_hex : list ascii -> string.

(** ** [time.Time.Format(time.RFC3339Nano)] in UTC *)

(** Day, month and year of a day number counted from 1 January of year 1,
    by 400-year eras that start on 1 March. *)
Definition civil_from_days (days : Z) : Z * Z * Z :=
  let z := days + 306 in
  let era := z / 146097 in
  let doe := z mod 146097 in
  let yoe := (doe - doe / 1460 + doe / 36524 - doe / 146096) / 365 in
  let doy := doe - (365 * yoe + yoe / 4 - yoe / 100) in
  let mp := (5 * doy + 2) / 153 in
  let d := doy - (153 * mp + 2) / 5 + 1 in
  let m := if mp <? 10 then mp + 3 else mp - 9 in
  let y := yoe + era * 400 + (if m <=? 2 then 1 else 0) in
  (y, m, d).

(** [n] in decimal with at least [width] digits. *)
Definition pad (width : nat) (n : Z) : string :=
  let s := FormatInt n in
  l2s (replicate (width - String.length s) "0"%char) +:+ s.

(** The fraction without its trailing zeros; empty for a whole second. *)
Definition fraction (nanos : Z) : string :=
  if nanos =? 0 then EmptyString else
  let fix strip l := match l with
                     | c :: l' => if Ascii.eqb c "0"%char then strip l' else l
                     | [] => []
                     end in
  l2s ("."%char :: rev (strip (rev (s2l (pad 9 nanos))))).

Definition Format_RFC3339Nano (t : Z) : string :=
  let '(y, m, d) := civil_from_days (t / (24 * Hour)) in
  let s := t mod (24 * Hour) in
  pad 4 y +:+ l2s ["-"%char] +:+ pad 2 m +:+ l2s ["-"%char] +:+ pad 2 d +:+ l2s ["T"%char] +:+
  pad 2 (s / Hour) +:+ l2s [":"%char] +:+ pad 2 (s / Minute mod 60) +:+ l2s [":"%char] +:+
  pad 2 (s / Second mod 60) +:+ fraction (s mod Second) +:+ l2s ["Z"%char].

Example format_epoch :
  Format_RFC3339Nano (62135596800 * Second) = "1970-01-01T00:00:00Z".
Proof. vm_compute. reflexivity. Qed.
Example format_leap :
  Format_RFC3339Nano (63844847999 * Second + 120000000) = "2024-02-29T23:59:59.12Z".
Proof. vm_compute. reflexivity. Qed.
