(* ===== verification/Sha256.v ===== *)
(** * SHA-256

    crypto/sha256 and encoding/hex of the Go standard library, executable
    (FIPS 180-4): words are integers below 2^32, additions modulo 2^32. *)

From S2P Require Import Prelude.
From S2P Require Import GoStd.
Local Open Scope list_scope.
Local Open Scope Z_scope.

Definition word (z : Z) : Z := z mod 2 ^ 32.
Definition rotr (x n : Z) : Z := Z.lor (Z.shiftr x n) (word (Z.shiftl x (32 - n))).

Definition big_sigma0 (x : Z) : Z := Z.lxor (rotr x 2) (Z.lxor (rotr x 13) (rotr x 22)).
Definition big_sigma1 (x : Z) : Z := Z.lxor (rotr x 6) (Z.lxor (rotr x 11) (rotr x 25)).
Definition small_sigma0 (x : Z) : Z := Z.lxor (rotr x 7) (Z.lxor (rotr x 18) (Z.shiftr x 3)).
Definition small_sigma1 (x : Z) : Z := Z.lxor (rotr x 17) (Z.lxor (rotr x 19) (Z.shiftr x 10)).
Definition choice (x y z : Z) : Z := Z.lxor (Z.land x y) (Z.land (word (Z.lnot x)) z).
Definition majority (x y z : Z) : Z := Z.lxor (Z.land x y) (Z.lxor (Z.land x z) (Z.land y z)).

Definition round_constants : list Z :=
  [1116352408; 1899447441; 3049323471; 3921009573; 961987163; 1508970993; 2453635748; 2870763221;
   3624381080; 310598401; 607225278; 1426881987; 1925078388; 2162078206; 2614888103; 3248222580;
   3835390401; 4022224774; 264347078; 604807628; 770255983; 1249150122; 1555081692; 1996064986;
   2554220882; 2821834349; 2952996808; 3210313671; 3336571891; 3584528711; 113926993; 338241895;
   666307205; 773529912; 1294757372; 1396182291; 1695183700; 1986661051; 2177026350; 2456956037;
   2730485921; 2820302411; 3259730800; 3345764771; 3516065817; 3600352804; 4094571909; 275423344;
   430227734; 506948616; 659060556; 883997877; 958139571; 1322822218; 1537002063; 1747873779;
   1955562222; 2024104815; 2227730452; 2361852424; 2428436474; 2756734187; 3204031479; 3329325298].

Record hash_state := mk_hash_state { hs_a : Z; hs_b : Z; hs_c : Z; hs_d : Z; hs_e : Z; hs_f : Z; hs_g : Z; hs_h : Z }.
Definition initial_state : hash_state :=
  mk_hash_state 1779033703 3144134277 1013904242 2773480762 1359893119 2600822924 528734635 1541459225.

(** The message schedule, latest word first. *)
Fixpoint extend (n : nat) (ws : list Z) : list Z :=
  match n with
  | O => ws
  | S n =>
      extend n (word (small_sigma1 (nth 1 ws 0) + nth 6 ws 0 + small_sigma0 (nth 14 ws 0) + nth 15 ws 0) :: ws)
  end.
Definition schedule (block : list Z) : list Z := rev (extend 48 (rev block)).

Definition round (s : hash_state) (kw : Z * Z) : hash_state :=
  let t1 := word (hs_h s + big_sigma1 (hs_e s) + choice (hs_e s) (hs_f s) (hs_g s) + kw.1 + kw.2) in
  let t2 := word (big_sigma0 (hs_a s) + majority (hs_a s) (hs_b s) (hs_c s)) in
  mk_hash_state (word (t1 + t2)) (hs_a s) (hs_b s) (hs_c s) (word (hs_d s + t1)) (hs_e s) (hs_f s) (hs_g s).
Definition add_state (s t : hash_state) : hash_state :=
  mk_hash_state (word (hs_a s + hs_a t)) (word (hs_b s + hs_b t)) (word (hs_c s + hs_c t))
    (word (hs_d s + hs_d t)) (word (hs_e s + hs_e t)) (word (hs_f s + hs_f t)) (word (hs_g s + hs_g t))
    (word (hs_h s + hs_h t)).

(** Big-endian words of bytes, and back. *)
Fixpoint words (bytes : list Z) : list Z :=
  match bytes with
  | a :: b :: c :: d :: rest => (((a * 256 + b) * 256 + c) * 256 + d) :: words rest
  | _ => []
  end.
Definition bytes_of_word (w : Z) : list Z :=
  [Z.shiftr w 24 mod 256; Z.shiftr w 16 mod 256; Z.shiftr w 8 mod 256; w mod 256].

Definition compress (s : hash_state) (block : list Z) : hash_state :=
  add_state s (fold_left round (combine round_constants (schedule (words block))) s).
(** [n] blocks of 64 bytes. *)
Fixpoint compress_blocks (n : nat) (s : hash_state) (bytes : list Z) : hash_state :=
  match n with
  | O => s
  | S n => compress_blocks n (compress s (take 64 bytes)) (drop 64 bytes)
  end.

(** One bit, zeros to 56 modulo 64, and the length in bits. *)
Definition padded (bytes : list Z) : list Z :=
  let size := Z.of_nat (length bytes) in
  bytes ++ [128] ++ repeat 0 (Z.to_nat ((55 - size) mod 64)) ++
  bytes_of_word (Z.shiftr (8 * size) 32 mod 2 ^ 32) ++ bytes_of_word (word (8 * size)).
Definition state_bytes (s : hash_state) : list Z :=
  concat (map bytes_of_word [hs_a s; hs_b s; hs_c s; hs_d s; hs_e s; hs_f s; hs_g s; hs_h s]).

Definition byte_char (z : Z) : ascii := ascii_of_N (Z.to_N z).
Definition char_byte (c : ascii) : Z := Z.of_N (N_of_ascii c).
(** [sha256.Sum256]. *)
Definition Sum256 (l : list ascii) : list ascii :=
  let bytes := padded (map char_byte l) in
  map byte_char (state_bytes (compress_blocks (length bytes / 64) initial_state bytes)).

(** [hex.EncodeToString]. *)
Definition hex_char (z : Z) : ascii := byte_char (if z <? 10 then 48 + z else 87 + z).
Definition hex_byte (c : ascii) : list ascii := [hex_char (char_byte c / 16); hex_char (char_byte c mod 16)].
Definition EncodeToString (l : list ascii) : string := l2s (concat (map hex_byte l)).

(** The hash the program uses. *)
Definition sha256 : Sha256 := fun l => EncodeToString (Sum256 l).

(** The test vectors of the standard: no bytes, one block, two blocks. *)
Example sha256_empty :
  sha256 [] = "e3b0c44298fc1c149afbf4c8996fb92427ae41e4649b934ca495991b7852b855"%string.
Proof. vm_compute. reflexivity. Qed.
Example sha256_abc :
  sha256 (s2l "abc") = "ba7816bf8f01cfea414140de5dae2223b00361a396177a9cb410ff61f20015ad"%string.
Proof. vm_compute. reflexivity. Qed.
Example sha256_two_blocks :
  sha256 (s2l "abcdbcdecdefdefgefghfghighijhijkijkljklmklmnlmnomnopnopq")
  = "248d6a61d20638b8e5c026930c3e6039a33ce45964ff2167f6ecedd419db06c1"%string.
Proof. vm_compute. reflexivity. Qed.

Lemma length_Sum256 l : length (Sum256 l) = 32%nat.
Proof. unfold Sum256. by rewrite length_map. Qed.
