(* ===== verification/JsonText.v ===== *)
(** * JSON text, read and written

    [json.Unmarshal] of encoding/json of Go's standard library, as far as the
    program relies on it, and [json.Marshal] of strings, integers and structs
    (HTML escaping on), with what a hash of such a text distinguishes: a written
    string ends at its closing quote ([json_string_split]), so two texts of one
    struct agree field by field. *)

From S2P Require Import Prelude.
From S2P Require Import GoStd.
Local Open Scope string_scope.
Local Open Scope list_scope.
Local Open Scope Z_scope.

(** ** Strings between quotes *)

(** What the scanner keeps of a string: bytes, and [\uXXXX] code units. *)
Inductive strunit := SByte (b : ascii) | SUnit (u : Z).

Definition byte_of (z : Z) : ascii := ascii_of_N (Z.to_N z).
Definition code (b : ascii) : Z := Z.of_N (N_of_ascii b).
Definition between (lo hi x : Z) : bool := (lo <=? x) && (x <=? hi).
Definition cont (b : ascii) : bool := between 128 191 (code b).
(** [utf8.AppendRune] of a code point that is no surrogate. *)
Definition utf8_encode (r : Z) : list ascii :=
  if r <=? 127 then [byte_of r]
  else if r <=? 2047 then [byte_of (192 + r / 64); byte_of (128 + r mod 64)]
  else if r <=? 65535 then
    [byte_of (224 + r / 4096); byte_of (128 + r / 64 mod 64); byte_of (128 + r mod 64)]
  else [byte_of (240 + r / 262144); byte_of (128 + r / 4096 mod 64);
        byte_of (128 + r / 64 mod 64); byte_of (128 + r mod 64)].
Definition RuneError : list ascii := utf8_encode 65533.
Definition high_surrogate (u : Z) : bool := between 55296 56319 u.
Definition low_surrogate (u : Z) : bool := between 56320 57343 u.

(** Second byte of a longer UTF-8 sequence, by its first. *)
Definition second_ok (b0 b1 : ascii) : bool :=
  let c := code b0 in let d := code b1 in
  if c =? 224 then between 160 191 d
  else if c =? 237 then between 128 159 d
  else if c =? 240 then between 144 191 d
  else if c =? 244 then between 128 143 d
  else between 128 191 d.
(** [unquoteBytes]: bytes that are no UTF-8 and unpaired surrogates become U+FFFD. *)
Fixpoint unquote (l : list strunit) : list ascii :=
  match l with
  | [] => []
  | SUnit u :: rest =>
      match rest with
      | SUnit lo :: rest' =>
          if high_surrogate u && low_surrogate lo
          then utf8_encode ((u - 55296) * 1024 + (lo - 56320) + 65536) ++ unquote rest'
          else (if high_surrogate u || low_surrogate u then RuneError else utf8_encode u) ++ unquote rest
      | _ => (if high_surrogate u || low_surrogate u then RuneError else utf8_encode u) ++ unquote rest
      end
  | SByte b0 :: rest =>
      if code b0 <=? 127 then b0 :: unquote rest
      else
        match rest with
        | SByte b1 :: rest1 =>
            if between 194 223 (code b0) && cont b1 then b0 :: b1 :: unquote rest1
            else
              match rest1 with
              | SByte b2 :: rest2 =>
                  if between 224 239 (code b0) && second_ok b0 b1 && cont b2
                  then b0 :: b1 :: b2 :: unquote rest2
                  else
                    match rest2 with
                    | SByte b3 :: rest3 =>
                        if between 240 244 (code b0) && second_ok b0 b1 && cont b2 && cont b3
                        then b0 :: b1 :: b2 :: b3 :: unquote rest3
                        else RuneError ++ unquote rest
                    | _ => RuneError ++ unquote rest
                    end
              | _ => RuneError ++ unquote rest
              end
        | _ => RuneError ++ unquote rest
        end
  end.
Definition unquoted (l : list strunit) : string := l2s (unquote l).

(** ** Numbers *)

(** Sign, digits before and after the point, whether there is a point, and the exponent. *)
Record number := mk_number {
  nm_neg : bool; nm_int : Z; nm_frac : nat; nm_exp : option (bool * Z) }.
(** With an exponent the literal is no integer literal, whatever its value. *)
Definition number_json (n : number) : json :=
  let m := if nm_neg n then - nm_int n else nm_int n in
  match nm_exp n with
  | None => JNum m (nm_frac n)
  | Some (neg, e) =>
      let shift := (if neg then - e else e) - Z.of_nat (nm_frac n) in
      if 0 <=? shift then JNum (m * 10 ^ (shift + 1)) 1 else JNum m (Z.to_nat (- shift))
  end.
Definition add_int (n : number) (d : Z) : number :=
  mk_number (nm_neg n) (nm_int n * 10 + d) (nm_frac n) (nm_exp n).
Definition add_frac (n : number) (d : Z) : number :=
  mk_number (nm_neg n) (nm_int n * 10 + d) (S (nm_frac n)) (nm_exp n).
Definition set_exp (n : number) (neg : bool) : number :=
  mk_number (nm_neg n) (nm_int n) (nm_frac n) (Some (neg, 0)).
Definition add_exp (n : number) (d : Z) : number :=
  mk_number (nm_neg n) (nm_int n) (nm_frac n)
    (match nm_exp n with Some (s, e) => Some (s, e * 10 + d) | None => Some (false, d) end).

(** ** The scanner *)

Inductive frame :=
| FArr (acc : list json)
| FObj (acc : list (string * json)) (key : string).
Inductive scan :=
| ScValue                                 (* a value has to come *)
| ScElem                                  (* after an opening bracket *)
| ScKey                                   (* after an opening brace *)
| ScNextKey                               (* after a comma in an object *)
| ScColon                                 (* after a key *)
| ScAfter (v : json)                      (* after a value *)
| ScStr (key : bool) (acc : list strunit) (* in a string, reversed *)
| ScEsc (key : bool) (acc : list strunit)
| ScHex (key : bool) (acc : list strunit) (left_ : nat) (u : Z)
| ScWord (rest : list ascii) (v : json)   (* in true, false or null *)
| ScNeg
| ScZero (n : number)                     (* after a leading zero *)
| ScInt (n : number)
| ScDot (n : number)
| ScFrac (n : number)
| ScE (n : number)
| ScESign (n : number)
| ScExp (n : number).

Definition is_json_space (c : ascii) : bool :=
  existsb (Z.eqb (code c)) [32; 9; 13; 10].
Definition digit (c : ascii) : option Z :=
  if between 48 57 (code c) then Some (code c - 48) else None.
Definition hex_digit (c : ascii) : option Z :=
  if between 48 57 (code c) then Some (code c - 48)
  else if between 97 102 (code c) then Some (code c - 87)
  else if between 65 70 (code c) then Some (code c - 55)
  else None.
Definition maxNestingDepth : Z := 10000.
Definition push (f : frame) (sc : scan) (st : list frame) : option (scan * list frame) :=
  if Z.of_nat (length (f :: st)) <=? maxNestingDepth then Some (sc, f :: st) else None.
Definition is_char (c : ascii) (d : string) : bool :=
  match d with String e _ => Ascii.eqb c e | EmptyString => false end.
Definition zero_number (neg : bool) : number := mk_number neg 0 0 None.

Definition step_value (c : ascii) (st : list frame) : option (scan * list frame) :=
  if is_json_space c then Some (ScValue, st)
  else if is_char c "{" then push (FObj [] "") ScKey st
  else if is_char c "[" then push (FArr []) ScElem st
  else if code c =? 34 then Some (ScStr false [], st)
  else if is_char c "-" then Some (ScNeg, st)
  else if is_char c "t" then Some (ScWord (s2l "rue") (JBool true), st)
  else if is_char c "f" then Some (ScWord (s2l "alse") (JBool false), st)
  else if is_char c "n" then Some (ScWord (s2l "ull") JNull, st)
  else match digit c with
       | Some 0 => Some (ScZero (zero_number false), st)
       | Some d => Some (ScInt (add_int (zero_number false) d), st)
       | None => None
       end.
Definition step_after (v : json) (c : ascii) (st : list frame) : option (scan * list frame) :=
  if is_json_space c then Some (ScAfter v, st)
  else
    match st with
    | [] => None
    | FArr acc :: st =>
        if is_char c "," then Some (ScValue, FArr (v :: acc) :: st)
        else if is_char c "]" then Some (ScAfter (JArr (rev (v :: acc))), st)
        else None
    | FObj acc key :: st =>
        if is_char c "," then Some (ScNextKey, FObj ((key, v) :: acc) "" :: st)
        else if is_char c "}" then Some (ScAfter (JObj (rev ((key, v) :: acc))), st)
        else None
    end.
Definition step_key (c : ascii) (st : list frame) : option (scan * list frame) :=
  if is_json_space c then Some (ScNextKey, st)
  else if code c =? 34 then Some (ScStr true [], st)
  else None.
(** The closing quote: a key goes to the open object. *)
Definition close_string (key : bool) (acc : list strunit) (st : list frame) : option (scan * list frame) :=
  let s := unquoted (rev acc) in
  if key then
    match st with
    | FObj fs _ :: st => Some (ScColon, FObj fs s :: st)
    | _ => None
    end
  else Some (ScAfter (JStr s), st).
Definition escaped (c : ascii) : option Z :=
  if code c =? 34 then Some 34
  else if is_char c "\" then Some 92
  else if is_char c "/" then Some 47
  else if is_char c "b" then Some 8
  else if is_char c "f" then Some 12
  else if is_char c "n" then Some 10
  else if is_char c "r" then Some 13
  else if is_char c "t" then Some 9
  else None.
Definition is_e (c : ascii) : bool := is_char c "e" || is_char c "E".

Definition step (c : ascii) (s : scan * list frame) : option (scan * list frame) :=
  let '(sc, st) := s in
  match sc with
  | ScValue => step_value c st
  | ScElem =>
      if is_json_space c then Some (ScElem, st)
      else if is_char c "]" then
        match st with FArr _ :: st => Some (ScAfter (JArr []), st) | _ => None end
      else step_value c st
  | ScKey =>
      if is_json_space c then Some (ScKey, st)
      else if is_char c "}" then
        match st with FObj _ _ :: st => Some (ScAfter (JObj []), st) | _ => None end
      else step_key c st
  | ScNextKey => step_key c st
  | ScColon =>
      if is_json_space c then Some (ScColon, st)
      else if is_char c ":" then Some (ScValue, st)
      else None
  | ScAfter v => step_after v c st
  | ScStr key acc =>
      if code c =? 34 then close_string key acc st
      else if is_char c "\" then Some (ScEsc key acc, st)
      else if code c <? 32 then None
      else Some (ScStr key (SByte c :: acc), st)
  | ScEsc key acc =>
      if is_char c "u" then Some (ScHex key acc 4 0, st)
      else match escaped c with
           | Some b => Some (ScStr key (SByte (byte_of b) :: acc), st)
           | None => None
           end
  | ScHex key acc left_ u =>
      match hex_digit c, left_ with
      | Some d, S O => Some (ScStr key (SUnit (u * 16 + d) :: acc), st)
      | Some d, S n => Some (ScHex key acc n (u * 16 + d), st)
      | _, _ => None
      end
  | ScWord rest v =>
      match rest with
      | [d] => if Ascii.eqb c d then Some (ScAfter v, st) else None
      | d :: rest => if Ascii.eqb c d then Some (ScWord rest v, st) else None
      | [] => None
      end
  | ScNeg =>
      match digit c with
      | Some 0 => Some (ScZero (zero_number true), st)
      | Some d => Some (ScInt (add_int (zero_number true) d), st)
      | None => None
      end
  | ScZero n =>
      if is_char c "." then Some (ScDot n, st)
      else if is_e c then Some (ScE n, st)
      else step_after (number_json n) c st
  | ScInt n =>
      match digit c with
      | Some d => Some (ScInt (add_int n d), st)
      | None =>
          if is_char c "." then Some (ScDot n, st)
          else if is_e c then Some (ScE n, st)
          else step_after (number_json n) c st
      end
  | ScDot n =>
      match digit c with
      | Some d => Some (ScFrac (add_frac n d), st)
      | None => None
      end
  | ScFrac n =>
      match digit c with
      | Some d => Some (ScFrac (add_frac n d), st)
      | None => if is_e c then Some (ScE n, st) else step_after (number_json n) c st
      end
  | ScE n =>
      match digit c with
      | Some d => Some (ScExp (add_exp (set_exp n false) d), st)
      | None =>
          if is_char c "+" then Some (ScESign (set_exp n false), st)
          else if is_char c "-" then Some (ScESign (set_exp n true), st)
          else None
      end
  | ScESign n =>
      match digit c with
      | Some d => Some (ScExp (add_exp n d), st)
      | None => None
      end
  | ScExp n =>
      match digit c with
      | Some d => Some (ScExp (add_exp n d), st)
      | None => step_after (number_json n) c st
      end
  end.

Fixpoint run (l : list ascii) (s : scan * list frame) : option (scan * list frame) :=
  match l with
  | [] => Some s
  | c :: l => match step c s with Some s => run l s | None => None end
  end.
(** [None] is a syntax error. *)
Definition finish (s : scan * list frame) : option json :=
  match s with
  | (ScAfter v, []) => Some v
  | (ScZero n, []) | (ScInt n, []) | (ScFrac n, []) | (ScExp n, []) => Some (number_json n)
  | _ => None
  end.
Definition json_parse (text : string) : option json :=
  match run (s2l text) (ScValue, []) with
  | Some s => finish s
  | None => None
  end.

(** ** Examples, with ' standing for the quote *)

Definition quoted (s : string) : string :=
  l2s (map (fun c => if Ascii.eqb c "'" then byte_of 34 else c) (s2l s)).
Example parse_object :
  json_parse (quoted " {'a' : [1, -2.50, 1e2, true, null], 'b\n':'\u00e9\ud83d\ude00\ud800x', 'c':{}} ") =
  Some (JObj [("a", JArr [JNum 1 0; JNum (-250) 2; JNum 1000 1; JBool true; JNull]);
              (unquoted [SByte "b"; SByte (byte_of 10)],
               JStr (unquoted [SUnit 233; SUnit 55357; SUnit 56832; SUnit 55296; SByte "x"]));
              ("c", JObj [])]).
Proof. vm_compute. reflexivity. Qed.
Example parse_refused :
  map (fun s => json_parse (quoted s)) [""; "01"; "[1,]"; "{'a':1,}"; "tru"; "'\x'"; "1 2"; "-"; "1."; "[1"] =
  repeat None 10.
Proof. vm_compute. reflexivity. Qed.
Example unquote_utf8 :
  unquote (map SByte [byte_of 226; byte_of 130; byte_of 172; byte_of 255; byte_of 226; byte_of 130]) =
  [byte_of 226; byte_of 130; byte_of 172] ++ RuneError ++ RuneError ++ RuneError.
Proof. vm_compute. reflexivity. Qed.

(** ** Strings *)

Definition quote_char : ascii := byte_of 34.
Definition backslash : ascii := byte_of 92.
Definition hex_digit_char (n : Z) : ascii := byte_of (if n <? 10 then 48 + n else 87 + n).
Definition escape_ascii (b : ascii) : list ascii :=
  let c := code b in
  if (c =? 34) || (c =? 92) then [backslash; b]
  else if c =? 8 then s2l "\b"
  else if c =? 12 then s2l "\f"
  else if c =? 10 then s2l "\n"
  else if c =? 13 then s2l "\r"
  else if c =? 9 then s2l "\t"
  else if (c <? 32) || (c =? 60) || (c =? 62) || (c =? 38)
  then s2l "\u00" ++ [hex_digit_char (c / 16); hex_digit_char (c mod 16)]
  else [b].
(** [appendString]: bytes that are no UTF-8 become U+FFFD; the line separators
    U+2028 and U+2029 are escaped. *)
Fixpoint escape (l : list ascii) : list ascii :=
  match l with
  | [] => []
  | b0 :: rest =>
      if code b0 <=? 127 then escape_ascii b0 ++ escape rest
      else
        match rest with
        | b1 :: rest1 =>
            if between 194 223 (code b0) && cont b1 then b0 :: b1 :: escape rest1
            else
              match rest1 with
              | b2 :: rest2 =>
                  if between 224 239 (code b0) && second_ok b0 b1 && cont b2
                  then (if (code b0 =? 226) && (code b1 =? 128) && between 168 169 (code b2)
                        then s2l "\u202" ++ [hex_digit_char (code b2 mod 16)]
                        else [b0; b1; b2]) ++ escape rest2
                  else
                    match rest2 with
                    | b3 :: rest3 =>
                        if between 240 244 (code b0) && second_ok b0 b1 && cont b2 && cont b3
                        then b0 :: b1 :: b2 :: b3 :: escape rest3
                        else s2l "\ufffd" ++ escape rest
                    | [] => s2l "\ufffd" ++ escape rest
                    end
              | [] => s2l "\ufffd" ++ escape rest
              end
        | [] => s2l "\ufffd" ++ escape rest
        end
  end.
Definition marshal_string (s : string) : list ascii := quote_char :: escape (s2l s) ++ [quote_char].
Definition json_int (z : Z) : list ascii := s2l (FormatInt z).
(** A struct whose fields are written in their order. *)
Definition json_field (f : string * list ascii) : list ascii := marshal_string f.1 ++ s2l ":" ++ f.2.
Fixpoint json_fields (fs : list (string * list ascii)) : list ascii :=
  match fs with
  | [] => []
  | [f] => json_field f
  | f :: fs => json_field f ++ s2l "," ++ json_fields fs
  end.
Definition json_struct (fs : list (string * list ascii)) : list ascii := s2l "{" ++ json_fields fs ++ s2l "}".
Definition json_array (l : list (list ascii)) : list ascii :=
  s2l "[" ++ match l with
             | [] => []
             | x :: l => x ++ concat (map (fun y => s2l "," ++ y) l)
             end ++ s2l "]".

Example json_string_escapes :
  marshal_string (l2s (map byte_of [97; 34; 92; 10; 60; 1; 127; 226; 128; 168; 195; 169; 255])) =
  s2l (quoted "'a\") ++ s2l (quoted "'\\\n\u003c\u0001") ++ map byte_of [127] ++ s2l "\u2028" ++
  map byte_of [195; 169] ++ s2l (quoted "\ufffd'").
Proof. vm_compute. reflexivity. Qed.
(** The scanner of JsonText reads it back. *)
Example json_string_parsed :
  let s := l2s (map byte_of [97; 34; 92; 10; 60; 1; 127; 226; 128; 168; 195; 169; 240; 159; 152; 128]) in
  json_parse (l2s (marshal_string s)) = Some (JStr s).
Proof. vm_compute. reflexivity. Qed.

(** ** Where a string ends *)

(** Up to the first quote that no backslash precedes. *)
Fixpoint to_quote (l : list ascii) : list ascii * list ascii :=
  match l with
  | [] => ([], [])
  | b :: l' =>
      if Ascii.eqb b quote_char then ([], l')
      else if Ascii.eqb b backslash then
        match l' with
        | c :: l'' => let '(t, k) := to_quote l'' in (b :: c :: t, k)
        | [] => ([b], [])
        end
      else let '(t, k) := to_quote l' in (b :: t, k)
  end.
(** The scan passes over the text. *)
Definition passes (t : list ascii) : Prop :=
  forall k, to_quote (t ++ k) = (t ++ (to_quote k).1, (to_quote k).2).
Lemma passes_nil : passes [].
Proof. intros k. cbn. by destruct (to_quote k). Qed.
Lemma passes_app t u : passes t -> passes u -> passes (t ++ u).
Proof. intros Ht Hu k. rewrite <- app_assoc, Ht, Hu. cbn [fst snd]. by rewrite app_assoc. Qed.
Lemma passes_plain b t : Ascii.eqb b quote_char = false -> Ascii.eqb b backslash = false -> passes t -> passes (b :: t).
Proof. intros H1 H2 Ht k. cbn [to_quote app]. rewrite H1, H2, Ht. done. Qed.
Lemma passes_escaped c t : passes t -> passes (backslash :: c :: t).
Proof. intros Ht k. cbn [to_quote app]. rewrite Ht. done. Qed.
Lemma code_byte_of z : 0 <= z < 256 -> code (byte_of z) = z.
Proof. intros H. unfold code, byte_of. rewrite N_ascii_embedding by lia. lia. Qed.
Lemma plain_code b z : code b <> z -> 0 <= z < 256 -> Ascii.eqb b (byte_of z) = false.
Proof. intros H Hz. apply Ascii.eqb_neq. intros ->. by rewrite code_byte_of in H. Qed.
Lemma passes_char b : code b <> 34 -> code b <> 92 -> forall t, passes t -> passes (b :: t).
Proof. intros H1 H2 t Ht. apply passes_plain; [apply plain_code; [done|lia]..|done]. Qed.
Lemma hex_passes n : 0 <= n < 16 -> forall t, passes t -> passes (hex_digit_char n :: t).
Proof.
  intros Hn. apply passes_char; unfold hex_digit_char; destruct (n <? 10) eqn:E; rewrite code_byte_of; lia.
Qed.
Lemma code_range b : 0 <= code b < 256.
Proof. unfold code. pose proof (N_ascii_bounded b). lia. Qed.

Ltac pass_literal := repeat (apply passes_escaped || (apply passes_plain; [reflexivity|reflexivity|]) || apply passes_nil).
Lemma escape_ascii_passes b : passes (escape_ascii b).
Proof.
  unfold escape_ascii. pose proof (code_range b) as Hb.
  destruct (code b =? 34) eqn:E34; cbn [orb]; [apply passes_escaped, passes_nil|].
  destruct (code b =? 92) eqn:E92; [apply passes_escaped, passes_nil|].
  do 5 (lazymatch goal with |- passes (if ?c then _ else _) => destruct c end; [cbn; pass_literal|]).
  lazymatch goal with |- passes (if ?c then _ else _) => destruct c end.
  - apply passes_app; [cbn; pass_literal|].
    apply hex_passes; [split; [apply Z.div_pos; lia|apply Z.div_lt_upper_bound; lia]|].
    apply hex_passes; [apply Z.mod_pos_bound; lia|apply passes_nil].
  - apply passes_char; [lia..|apply passes_nil].
Qed.

Lemma high_passes b t : 127 < code b -> passes t -> passes (b :: t).
Proof. intros H. apply passes_char; lia. Qed.
Lemma between_high lo hi b : between lo hi (code b) = true -> 127 < lo -> 127 < code b.
Proof. unfold between. lia. Qed.
Lemma second_ok_high b0 b1 : second_ok b0 b1 = true -> 127 < code b1.
Proof.
  unfold second_ok. destruct (code b0 =? 224), (code b0 =? 237), (code b0 =? 240), (code b0 =? 244);
    intros H; eapply between_high; try exact H; lia.
Qed.
Lemma escape_passes l : passes (escape l).
Proof.
  induction l as [l IH] using (induction_ltof1 _ (@length ascii)). unfold ltof in IH.
  destruct l as [|b0 rest]; [apply passes_nil|]. cbn [escape].
  assert (Hbad : passes (s2l "\ufffd" ++ escape rest))
    by (apply passes_app; [cbn; pass_literal|apply IH; cbn; lia]).
  destruct (code b0 <=? 127) eqn:E0; [apply passes_app; [apply escape_ascii_passes|apply IH; cbn; lia]|].
  assert (H0 : 127 < code b0) by lia. destruct rest as [|b1 rest1]; [done|].
  destruct (_ && cont b1) eqn:E1.
  { apply andb_true_iff in E1 as [_ E1]. apply high_passes; [done|]. apply high_passes; [by eapply between_high; [exact E1|]|].
    apply IH. cbn. lia. }
  destruct rest1 as [|b2 rest2]; [done|]. destruct (_ && second_ok b0 b1 && cont b2) eqn:E2.
  { apply andb_true_iff in E2 as [E2 Hc2]. apply andb_true_iff in E2 as [_ Hs2].
    apply passes_app; [|apply IH; cbn; lia]. destruct ((code b0 =? 226) && _ && _).
    - apply passes_app; [cbn; pass_literal|]. apply hex_passes; [apply Z.mod_pos_bound; lia|apply passes_nil].
    - apply high_passes; [done|]. apply high_passes; [by eapply second_ok_high|].
      apply high_passes; [by eapply between_high; [exact Hc2|]|apply passes_nil]. }
  destruct rest2 as [|b3 rest3]; [done|]. destruct (_ && cont b3) eqn:E3; [|done].
  apply andb_true_iff in E3 as [E3 Hc3]. apply andb_true_iff in E3 as [E3 Hc2]. apply andb_true_iff in E3 as [_ Hs].
  apply high_passes; [done|]. apply high_passes; [by eapply second_ok_high|].
  apply high_passes; [by eapply between_high; [exact Hc2|]|].
  apply high_passes; [by eapply between_high; [exact Hc3|]|]. apply IH. cbn. lia.
Qed.
Lemma json_string_split a b x y :
  marshal_string a ++ x = marshal_string b ++ y -> marshal_string a = marshal_string b /\ x = y.
Proof.
  unfold marshal_string. cbn [app]. rewrite <- !app_assoc. cbn [app]. intros [= E].
  assert (H : forall l k, to_quote (escape l ++ quote_char :: k) = (escape l, k)).
  { intros l k. rewrite escape_passes. cbn [to_quote]. rewrite Ascii.eqb_refl. cbn [fst snd]. by rewrite app_nil_r. }
  pose proof (H (s2l a) x) as Ha. rewrite E, H in Ha. injection Ha as Ha ->. by rewrite Ha.
Qed.

(** ** Where a number ends *)

Definition int_char (c : ascii) : bool := between 48 57 (code c) || (code c =? 45).
Lemma json_int_chars z : forallb int_char (json_int z) = true.
Proof.
  assert (Hgo : forall n s, forallb int_char (s2l s) = true -> forallb int_char (s2l (pretty_N_go n s)) = true).
  { intros n. induction n as [n IH] using (well_founded_induction N.lt_wf_0). intros s Hs.
    destruct (decide (n = 0%N)) as [->|Hn]; [by rewrite pretty_N_go_0|].
    rewrite pretty_N_go_step by lia. apply IH; [apply N.div_lt; lia|].
    change (int_char (pretty_N_char (n `mod` 10)) && forallb int_char (s2l s) = true). rewrite Hs, andb_true_r.
    assert (Hl : forall j, (j < 10)%nat -> int_char (pretty_N_char (N.of_nat j)) = true)
      by (intros j Hj; do 10 (destruct j as [|j]; [reflexivity|]); lia).
    rewrite <- (N2Nat.id (n `mod` 10)). apply Hl. pose proof (N.mod_lt n 10). lia. }
  assert (HN : forall n : N, forallb int_char (s2l (pretty n)) = true).
  { intros n. unfold pretty, pretty_N. destruct (decide _); [reflexivity|]. by apply Hgo. }
  unfold json_int, FormatInt, pretty, pretty_Z. destruct z as [|p|p]; [reflexivity|apply HN|].
  change (int_char "-"%char && forallb int_char (s2l (pretty (N.pos p))) = true). by rewrite HN.
Qed.
Lemma split_at (p : ascii -> bool) c t u x y :
  forallb p t = true -> forallb p u = true -> p c = false -> t ++ c :: x = u ++ c :: y -> t = u /\ x = y.
Proof.
  intros Ht Hu Hc. revert u Hu. induction t as [|a t IH]; intros [|b u] Hu E; cbn in *.
  - by injection E as ->.
  - injection E as -> _. by rewrite Hc in Hu.
  - injection E as -> _. by rewrite Hc in Ht.
  - apply andb_true_iff in Ht as [_ Ht]. apply andb_true_iff in Hu as [_ Hu]. injection E as -> E.
    destruct (IH Ht u Hu E) as [-> ->]. done.
Qed.
Lemma json_int_split a b c x y :
  int_char c = false -> json_int a ++ c :: x = json_int b ++ c :: y -> a = b /\ x = y.
Proof.
  intros Hc E. apply (split_at int_char) in E as [E ->]; [|by apply json_int_chars..|done].
  split; [|done]. unfold json_int, FormatInt in E. apply (f_equal l2s) in E. rewrite !l2s_s2l in E.
  by apply (inj pretty) in E.
Qed.
