(* ===== verification/Protobuf.v ===== *)
(** * Protobuf messages

    A message as google.golang.org/protobuf reflection shows it: its fields in
    the order of the descriptor, each with its value or its absence.  The
    encodings (binary and JSON) belong to that library: they are the class
    [ProtoCodec], and [ProtoCodecLaws] is what the program relies on. *)

From S2P Require Import Prelude.
From S2P Require Import GoStd.
From S2P Require Import JsonText.
Local Open Scope string_scope.
Local Open Scope list_scope.

(** The value of a field: a string (absent when empty), a string with
    presence, any other scalar, a message, no message, a list or map. *)
Inductive pvalue :=
| PString (s : string)
| POptString (o : option string)
| PBool (b : bool)
| PInt (z : Z)
| PMessage (typ : string) (fields : list (string * pvalue))
| PNil
| PRepeated (l : list pvalue).

(** A [proto.Message] that is not nil: its full name and its fields. *)
Record proto := mk_proto { pm_type : string; pm_fields : list (string * pvalue) }.
Definition pm_value (m : proto) : pvalue := PMessage (pm_type m) (pm_fields m).

(** The first field of that name. *)
Fixpoint field_of (fields : list (string * pvalue)) (name : string) : option pvalue :=
  match fields with
  | [] => None
  | (n, v) :: fields => if String.eqb n name then Some v else field_of fields name
  end.
Definition set_field (name : string) (f : pvalue -> pvalue) (fields : list (string * pvalue))
    : list (string * pvalue) :=
  map (fun nv => if String.eqb nv.1 name then (nv.1, f nv.2) else nv) fields.

(** Deterministic binary marshalling; protojson with unpopulated fields, and
    back into an empty message of a type; and the text that PostgreSQL keeps
    of a text cast to jsonb. *)
Class ProtoCodec := {
  proto_Marshal : proto -> res (list ascii);
  protojson_Marshal : proto -> res string;
  protojson_Unmarshal : string -> string -> res proto;
  jsonb_text : string -> res string }.
(** PostgreSQL takes no [jsonb] that holds the character zero, which JSON can
    only write in this way. *)
Definition jsonb_takes (text : string) : bool := negb (Contains text "\u0000").
(** The JSON that a column can keep of a message. *)
Definition column_text `{ProtoCodec} (m : proto) (text : string) : Prop :=
  protojson_Marshal m = Ok text /\ jsonb_takes text = true.
(** The JSON of a message is an object without space around it.  PostgreSQL
    takes it unless the character zero is in it, and what it gives back decodes
    to the message. *)
Class ProtoCodecLaws (C : ProtoCodec) : Prop := {
  protojson_object m text : protojson_Marshal m = Ok text ->
    TrimSpace text = text /\ text <> "" /\ text <> "null" /\ is_Some (json_parse text);
  protojson_stored m text : column_text m text ->
    exists stored, jsonb_text text = Ok stored /\ stored <> "" /\
      protojson_Unmarshal (pm_type m) stored = Ok m }.

Section Pvalue_ind.
Context (P : pvalue -> Prop).
Context (HString : forall s, P (PString s)) (HOpt : forall o, P (POptString o))
  (HBool : forall b, P (PBool b)) (HInt : forall z, P (PInt z)) (HNil : P PNil)
  (HMessage : forall t fs, Forall (fun nv => P nv.2) fs -> P (PMessage t fs))
  (HRepeated : forall l, Forall P l -> P (PRepeated l)).
(** Induction through the fields. *)
Fixpoint pvalue_ind_deep (v : pvalue) : P v :=
  match v with
  | PString s => HString s
  | POptString o => HOpt o
  | PBool b => HBool b
  | PInt z => HInt z
  | PNil => HNil
  | PMessage t fs =>
      HMessage t fs ((fix go (fs : list (string * pvalue)) : Forall (fun nv => P nv.2) fs :=
        match fs with [] => Forall_nil_2 _ | nv :: fs => Forall_cons_2 _ nv fs (pvalue_ind_deep nv.2) (go fs) end) fs)
  | PRepeated l =>
      HRepeated l ((fix go (l : list pvalue) : Forall P l :=
        match l with [] => Forall_nil_2 _ | v :: l => Forall_cons_2 _ v l (pvalue_ind_deep v) (go l) end) l)
  end.
End Pvalue_ind.

#[export] Instance pvalue_eq_dec : EqDecision pvalue.
Proof.
  refine (fix go v w := let _ : EqDecision pvalue := go in
    match v, w with
    | PString a, PString b => cast_if (decide (a = b))
    | POptString a, POptString b => cast_if (decide (a = b))
    | PBool a, PBool b => cast_if (decide (a = b))
    | PInt a, PInt b => cast_if (decide (a = b))
    | PMessage t fs, PMessage u gs => cast_if_and (decide (t = u)) (decide (fs = gs))
    | PNil, PNil => left _
    | PRepeated l, PRepeated k => cast_if (decide (l = k))
    | _, _ => right _
    end); congruence.
Defined.
#[export] Instance proto_eq_dec : EqDecision proto.
Proof. solve_decision. Defined.
