(* ===== verification/Pricing.v ===== *)
(** * Pricing engine (internal/app/pricingengine)

    Promotion targeting and discounts, slot selection, batch loading and the
    pricing of one line or of a whole cart.  The engine reads PostgreSQL
    through the generated queries; they are the record [PricingQueries] of
    operations on an abstract state [W]. *)

From S2P Require Import Prelude.
From S2P Require Import GoStd.
From stdpp Require Import gmap.
Local Open Scope string_scope.
Local Open Scope list_scope.
Local Open Scope Z_scope.

(** ** Data *)

(** [pgtype.UUID]: [None] is an invalid (NULL) value. *)
Abbreviation pgUUID := (option N) (only parsing).

(** db.Promotion, the columns the engine reads. *)
Record Promotion := mk_Promotion {
  pr_ID : N; pr_Name : string; pr_Priority : Z; pr_Stackable : bool; pr_StartsAt : Z }.

(** db.PromotionRule; the [jsonb] payload is decoded. *)
Record PromotionRule := mk_PromotionRule {
  ru_ID : N; ru_PromotionID : N; ru_RuleType : string; ru_Payload : json }.

(** db.PromotionTarget. *)
Record PromotionTarget := mk_PromotionTarget {
  tg_PromotionID : N; tg_TargetType : string;
  tg_ProductID : pgUUID; tg_CategoryID : pgUUID; tg_MachineID : pgUUID;
  tg_SiteID : pgUUID; tg_TagID : pgUUID }.

Record SkippedPromotionRule := mk_Skipped {
  sk_PromotionID : N; sk_RuleID : N; sk_RuleType : string; sk_Reason : string }.

Record PromoEvalCtx := mk_PromoEvalCtx {
  ec_Org : N; ec_MachineID : option N; ec_SiteID : option N; ec_ProductID : N;
  ec_CategoryID : pgUUID; ec_TagIDs : list N }.

Definition NewPromoEvalCtx (org : N) (machineID siteID : option N) (productID : N)
    (categoryID : pgUUID) (tagIDs : list N) : PromoEvalCtx :=
  mk_PromoEvalCtx org machineID siteID productID categoryID tagIDs.

Record SaleLineSelector := mk_SaleLineSelector {
  ss_MachineID : N; ss_ProductID : N; ss_SlotID : option N;
  ss_CabinetCode : string; ss_SlotCode : string; ss_SlotIndex : option Z }.

Record PriceLineInput := mk_PriceLineInput {
  pli_MachineID : N; pli_ProductID : N; pli_SlotListUnitMinor : Z; pli_SlotConfigID : N;
  pli_CabinetCode : string; pli_SlotCode : string; pli_SlotIndex : Z; pli_Quantity : Z }.

Record LinePriceResult := mk_LinePriceResult {
  lp_SlotListUnitMinor : Z; lp_RegisterUnitMinor : Z; lp_DiscountUnitMinor : Z;
  lp_EffectiveUnitMinor : Z; lp_SubtotalMinor : Z; lp_TaxMinor : Z; lp_TotalMinor : Z;
  lp_Currency : string; lp_AppliedPromotionIDs : list N; lp_PromotionLabel : string;
  lp_PricingFingerprint : string; lp_CalcTrace : list string }.

Record ProductPromoMeta := mk_ProductPromoMeta {
  pm_Category : pgUUID; pm_Tags : list N }.

(** db.InventoryAdminListCurrentMachineSlotConfigsByMachineRow. *)
Record SlotConfigRow := mk_SlotConfigRow {
  sr_ID : N; sr_CabinetCode : string; sr_SlotCode : string;
  sr_SlotIndex : option Z; sr_ProductID : pgUUID; sr_PriceMinor : Z }.

(** db.PricingRuntimeListMachineOverridesAtRow. *)
Record OverrideRow := mk_OverrideRow {
  ov_ProductID : N; ov_UnitPriceMinor : Z; ov_Currency : string }.

(** appcommerce.ResolvedSaleLine. *)
Record ResolvedSaleLine := mk_ResolvedSaleLine {
  sl_SlotConfigID : N; sl_CabinetCode : string; sl_SlotCode : string; sl_SlotIndex : Z;
  sl_PriceMinor : Z; sl_SubtotalMinor : Z; sl_TaxMinor : Z; sl_TotalMinor : Z;
  sl_BasePriceMinor : Z; sl_DiscountUnitMinor : Z; sl_PromotionLabel : string;
  sl_Currency : string; sl_PricingFingerprint : string; sl_AppliedPromotionIDs : list N }.

Definition ErrInvalidArgument : goerr := ESentinel "commerce: invalid argument".

(** [len(ids) == 0] aside, drops nil and repeated identifiers. *)
Fixpoint dedupe_from (seen : list N) (ids : list N) : list N :=
  match ids with
  | [] => []
  | id :: ids =>
      if id =u uuid_Nil then dedupe_from seen ids
      else if existsb (N.eqb id) seen then dedupe_from seen ids
      else id :: dedupe_from (id :: seen) ids
  end.
Definition dedupeUUIDs (ids : list N) : list N := dedupe_from [] ids.

(** ** Promotions *)

Section Promotions.
Context `{UuidText}.

Definition promoLess (a b : Promotion) : bool :=
  if negb (pr_Priority a =? pr_Priority b) then pr_Priority b <? pr_Priority a
  else if negb (pr_StartsAt a =? pr_StartsAt b) then pr_StartsAt b <? pr_StartsAt a
  else string_lt (uuid_String (pr_ID a)) (uuid_String (pr_ID b)).

Definition SortPromotions (ps : list Promotion) : list Promotion :=
  stable_sort promoLess ps.

(** A non-nil pointer and a valid column hold the same identifier. *)
Definition same_uuid (a b : option N) : bool :=
  match a, b with Some x, Some y => x =u y | _, _ => false end.

Definition targetMatches (ctx : PromoEvalCtx) (t : PromotionTarget) : bool :=
  let ty := tg_TargetType t in
  if String.eqb ty "site" then same_uuid (ec_SiteID ctx) (tg_SiteID t)
  else if String.eqb ty "machine" then same_uuid (ec_MachineID ctx) (tg_MachineID t)
  else if String.eqb ty "product" then same_uuid (tg_ProductID t) (Some (ec_ProductID ctx))
  else if String.eqb ty "category" then same_uuid (tg_CategoryID t) (ec_CategoryID ctx)
  else if String.eqb ty "tag" then
    match tg_TagID t with
    | None => false
    | Some tid => existsb (fun x => x =u tid) (ec_TagIDs ctx)
    end
  else false.

Definition promotionApplicable (ctx : PromoEvalCtx) (promoID : N)
    (targets : list PromotionTarget) : bool :=
  let promoTargets := List.filter (fun t => tg_PromotionID t =u promoID) targets in
  match promoTargets with
  | [] => true
  | _ => existsb (targetMatches ctx) promoTargets
  end.

(** [rulePayloadPct] and [rulePayloadFixed] with their [json.Unmarshal]. *)
Record rulePayloadPct := mk_rulePayloadPct {
  pct_Percent : float64; pct_MaxDiscountMinor : option Z }.
Record rulePayloadFixed := mk_rulePayloadFixed {
  fix_AmountMinor : Z; fix_MaxDiscountMinor : option Z }.

Definition decode_rulePayloadPct (v : json) : option rulePayloadPct :=
  match v with
  | JNull => Some (mk_rulePayloadPct (S754_zero false) None)
  | JObj fs =>
      match json_float "percent" fs, json_int64_ptr "max_discount_minor" fs with
      | Some p, Some m => Some (mk_rulePayloadPct p m)
      | _, _ => None
      end
  | _ => None
  end.

Definition decode_rulePayloadFixed (v : json) : option rulePayloadFixed :=
  match v with
  | JNull => Some (mk_rulePayloadFixed 0 None)
  | JObj fs =>
      match json_int64 "amount_minor" fs, json_int64_ptr "max_discount_minor" fs with
      | Some a, Some m => Some (mk_rulePayloadFixed a m)
      | _, _ => None
      end
  | _ => None
  end.

Definition RulePercentageDiscount : string := "percentage_discount".
Definition RuleFixedAmountDiscount : string := "fixed_amount_discount".
Definition RuleBuyXGetY : string := "buy_x_get_y".

Definition skip_rule (rule : PromotionRule) (reason : string) : list SkippedPromotionRule :=
  [mk_Skipped (ru_PromotionID rule) (ru_ID rule) (ru_RuleType rule) reason].

(** [if max != nil && *max >= 0 && d > *max { d = *max }] *)
Definition cap_discount (max : option Z) (d : Z) : Z :=
  match max with
  | Some m => if (0 <=? m) && (m <? d) then m else d
  | None => d
  end.

Definition discountFromRule (basePriceMinor : Z) (rule : PromotionRule)
    : Z * list SkippedPromotionRule :=
  if String.eqb (ru_RuleType rule) RuleBuyXGetY then
    (0, skip_rule rule "rule_type_not_implemented_buy_x_get_y_deferred")
  else if String.eqb (ru_RuleType rule) RulePercentageDiscount then
    match decode_rulePayloadPct (ru_Payload rule) with
    | None => (0, skip_rule rule "invalid_payload_percentage_discount")
    | Some p =>
        if f64_leb (pct_Percent p) (f64_of_Z 0) then
          (0, skip_rule rule "invalid_payload_percentage_discount")
        else
          let raw := f64_to_int64
            (f64_mul (f64_of_Z basePriceMinor) (f64_div (pct_Percent p) (f64_of_Z 100))) in
          let d := cap_discount (pct_MaxDiscountMinor p) raw in
          let d := if basePriceMinor <? d then basePriceMinor else d in
          let d := if d <? 0 then 0 else d in
          (d, [])
    end
  else if String.eqb (ru_RuleType rule) RuleFixedAmountDiscount then
    match decode_rulePayloadFixed (ru_Payload rule) with
    | None => (0, skip_rule rule "invalid_payload_fixed_amount_discount")
    | Some p =>
        if fix_AmountMinor p <=? 0 then
          (0, skip_rule rule "invalid_payload_fixed_amount_discount")
        else
          let d := cap_discount (fix_MaxDiscountMinor p) (fix_AmountMinor p) in
          let d := if basePriceMinor <? d then basePriceMinor else d in
          (d, [])
    end
  else (0, skip_rule rule "unknown_rule_type").

(** The loop of [bestDiscountForPromotion]: the best discount so far, the
    rule that gave it ([None] is [have == false]) and the skipped rules. *)
Fixpoint best_loop (base best : Z) (bestRule : option PromotionRule)
    (skipped : list SkippedPromotionRule) (rules : list PromotionRule)
    : Z * option PromotionRule * list SkippedPromotionRule :=
  match rules with
  | [] => (best, bestRule, skipped)
  | r :: rules =>
      let '(d, sk) := discountFromRule base r in
      let skipped := (skipped ++ sk) in
      if (d <=? 0) && negb (is_nil sk) then best_loop base best bestRule skipped rules
      else if is_none bestRule || (best <? d) then
        best_loop base d (Some r) skipped rules
      else best_loop base best bestRule skipped rules
  end.

Definition bestDiscountForPromotion (base : Z) (rules : list PromotionRule)
    : Z * N * list SkippedPromotionRule :=
  let '(best, bestRule, skipped) := best_loop base 0 None [] rules in
  (best, match bestRule with Some r => ru_ID r | None => uuid_Nil end, skipped).

(** The four results of promotion evaluation. *)
Record PromoResult := mk_PromoResult {
  po_discount : Z; po_appliedIDs : list N; po_appliedRules : list string;
  po_skipped : list SkippedPromotionRule }.

Definition rule_label (rid : N) : list string :=
  if negb (rid =u uuid_Nil) then [("promotion_rule:" +:+ uuid_String rid)%string] else [].

Definition skip_promo (pr : Promotion) (reason : string) : SkippedPromotionRule :=
  mk_Skipped (pr_ID pr) uuid_Nil "" reason.

Section Apply.
Context (rulesByPromo : gmap N (list PromotionRule)) (targets : list PromotionTarget)
        (ctx : PromoEvalCtx).

Definition rules_of (pr : Promotion) : list PromotionRule :=
  default [] (rulesByPromo !! pr_ID pr).

(** [stackChain == false]: the first promotion with a discount. *)
Fixpoint apply_first (base : Z) (skipped : list SkippedPromotionRule)
    (sorted : list Promotion) : PromoResult :=
  match sorted with
  | [] => mk_PromoResult 0 [] [] skipped
  | pr :: rest =>
      if negb (promotionApplicable ctx (pr_ID pr) targets) then
        apply_first base (skipped ++ [skip_promo pr "target_not_matched"]) rest
      else
        let '(d, rid, sk) := bestDiscountForPromotion base (rules_of pr) in
        let skipped := (skipped ++ sk) in
        if d <=? 0 then
          apply_first base (skipped ++ [skip_promo pr "no_discount_from_rules"]) rest
        else mk_PromoResult d [pr_ID pr] (rule_label rid) skipped
  end.

(** [stackChain == true]: each promotion discounts what the previous left. *)
Fixpoint apply_chain (remaining : Z) (acc : PromoResult) (sorted : list Promotion)
    : PromoResult :=
  match sorted with
  | [] => acc
  | pr :: rest =>
      let skip sk := mk_PromoResult (po_discount acc) (po_appliedIDs acc)
                       (po_appliedRules acc) (po_skipped acc ++ sk) in
      if negb (promotionApplicable ctx (pr_ID pr) targets) then
        apply_chain remaining (skip [skip_promo pr "target_not_matched"]) rest
      else
        let '(d, rid, sk) := bestDiscountForPromotion remaining (rules_of pr) in
        if d <=? 0 then
          apply_chain remaining (skip (sk ++ [skip_promo pr "no_discount_from_rules"])) rest
        else
          let d := if remaining <? d then remaining else d in
          let acc := mk_PromoResult (add64 (po_discount acc) d)
                       (po_appliedIDs acc ++ [pr_ID pr])
                       (po_appliedRules acc ++ rule_label rid) (po_skipped acc ++ sk) in
          let remaining := sub64 remaining d in
          if remaining <=? 0 then acc else apply_chain remaining acc rest
  end.

Definition applyPromotionsToBase (base : Z) (promos : list Promotion) (stackChain : bool)
    : PromoResult :=
  let sorted := SortPromotions promos in
  if negb stackChain then apply_first base [] sorted
  else apply_chain base (mk_PromoResult 0 [] [] []) sorted.

(** [EvaluatePromotionDiscountForProduct]: the promotions that match the
    line, non-stackable first. *)
Definition applicable (pr : Promotion) : bool := promotionApplicable ctx (pr_ID pr) targets.

Definition matchingNonStack (ps : list Promotion) : list Promotion :=
  List.filter (fun pr => applicable pr && negb (pr_Stackable pr)) ps.
Definition matchingStack (ps : list Promotion) : list Promotion :=
  List.filter (fun pr => applicable pr && pr_Stackable pr) ps.
Definition notMatching (ps : list Promotion) : list Promotion :=
  List.filter (fun pr => negb (applicable pr)) ps.

Definition EvaluatePromotionDiscountForProduct (baseBeforePromotions : Z)
    (sorted : list Promotion) : PromoResult :=
  let skipped := map (fun pr => skip_promo pr "target_not_matched") (notMatching sorted) in
  let '(remaining, r1) :=
    if negb (is_nil (matchingNonStack sorted)) then
      let r := applyPromotionsToBase baseBeforePromotions (matchingNonStack sorted) false in
      let remaining := sub64 baseBeforePromotions (po_discount r) in
      (if remaining <? 0 then 0 else remaining,
       mk_PromoResult (po_discount r) (po_appliedIDs r) (po_appliedRules r)
         (skipped ++ po_skipped r))
    else (baseBeforePromotions, mk_PromoResult 0 [] [] skipped) in
  if negb (is_nil (matchingStack sorted)) then
    let r := applyPromotionsToBase remaining (matchingStack sorted) true in
    mk_PromoResult (add64 (po_discount r1) (po_discount r))
      (po_appliedIDs r1 ++ po_appliedIDs r) (po_appliedRules r1 ++ po_appliedRules r)
      (po_skipped r1 ++ po_skipped r)
  else r1.
End Apply.

(** The map a loop [m[p.ID] = p.Name] builds: the last entry of a key wins. *)
Definition PromotionNameByID (promos : list Promotion) : gmap N string :=
  foldl (fun m p => <[pr_ID p := pr_Name p]> m) ∅ promos.

(** ** Slot selection *)

Definition rowSlotIndex (r : SlotConfigRow) : option Z := sr_SlotIndex r.
Definition rowProductUUID (r : SlotConfigRow) : option N := sr_ProductID r.

Definition matchSlotRow (sel : SaleLineSelector) (r : SlotConfigRow) : bool :=
  match rowProductUUID r with
  | None => false
  | Some pid =>
      if negb (pid =u ss_ProductID sel) then false else
      let by_index :=
        match ss_SlotIndex sel with
        | Some i => if 0 <=? i then
                      match rowSlotIndex r with Some si => si =? i | None => false end
                    else false
        | None => false
        end in
      let by_code :=
        if negb (String.eqb (TrimSpace (ss_CabinetCode sel)) "") &&
           negb (String.eqb (TrimSpace (ss_SlotCode sel)) "") then
          String.eqb (TrimSpace (sr_CabinetCode r)) (TrimSpace (ss_CabinetCode sel)) &&
          String.eqb (TrimSpace (sr_SlotCode r)) (TrimSpace (ss_SlotCode sel))
        else by_index in
      match ss_SlotID sel with
      | Some id => if negb (id =u uuid_Nil) then sr_ID r =u id else by_code
      | None => by_code
      end
  end.

Definition errNoSlotMatch : goerr :=
  EJoin ErrInvalidArgument
    (ENew "no matching current slot config for this product and slot selector").
Definition errAmbiguousSlot : goerr :=
  EJoin ErrInvalidArgument (ENew "ambiguous slot selector; multiple slot configs matched").
Definition errNotPublished : goerr :=
  EJoin ErrInvalidArgument (ENew "product is not in the machine's published assortment").

Definition pickSlotRow (rows : list SlotConfigRow) (org : N) (sel : SaleLineSelector)
    : res SlotConfigRow :=
  match List.filter (fun r => (uuid_Nil =u org) && matchSlotRow sel r) rows with
  | [] => Err errNoSlotMatch
  | [r] => Ok r
  | _ => Err errAmbiguousSlot
  end.

Definition PickSlotRowFromInventory (rows : list SlotConfigRow) (sel : SaleLineSelector)
    : res SlotConfigRow := pickSlotRow rows uuid_Nil sel.

(** ** Batches *)

(** The queries of the engine; [SyncAssortment] is the fleet component's
    [SyncAssortmentFromCurrentSlotConfigs]. *)
Record PricingQueries (W : Type) := mk_PricingQueries {
  GetOrgDefaultCurrency : M W string;
  GetMachineSiteForOrg : N -> M W N;
  ListMachineOverridesAt : N -> Z -> M W (list OverrideRow);
  ListPromotionsForPreview : Z -> M W (list Promotion);
  ListRulesForPromotions : list N -> M W (list PromotionRule);
  ListTargetsForOrgPromotions : M W (list PromotionTarget);
  GetProductCategory : N -> M W pgUUID;
  ListProductTagIDs : N -> M W (list N);
  GetProductCategories : list N -> M W (list (N * pgUUID));
  ListProductTagIDsForProducts : list N -> M W (list (N * N));
  IsProductInMachinePublishedAssortment : N -> N -> M W bool;
  ListCurrentMachineSlotConfigsByMachine : N -> M W (list SlotConfigRow);
  SyncAssortment : N -> M W unit }.

Record Batch := mk_Batch {
  b_scopeID : N; b_machineID : N; b_siteID : N; b_at : Z; b_currency : string;
  b_sortedPromos : list Promotion; b_rulesByPromo : gmap N (list PromotionRule);
  b_targets : list PromotionTarget; b_promoNames : gmap N string;
  b_overridePrice : gmap N Z; b_overrideCur : gmap N string;
  b_productMeta : option (gmap N ProductPromoMeta) }.

(** [for r in rows { m[key r] = append(m[key r], val r) }] *)
Definition group_append {R V} (key : R -> N) (val : R -> V) (rows : list R)
    (m : gmap N (list V)) : gmap N (list V) :=
  foldl (fun m r => <[key r := default [] (m !! key r) ++ [val r]]> m) m rows.

Definition hashStringsFingerprint `{Sha256} (prefix : string) (parts : list string) : string :=
  let nul := ["000"%char] in
  sha256_hex (s2l prefix ++ nul ++ concat (map (fun p => s2l p ++ nul) parts)).

Definition SortedKeyFingerprint `{Sha256} (prefix : string) (parts : list string) : string :=
  match parts with
  | [] => hashStringsFingerprint prefix []
  | _ => hashStringsFingerprint prefix (stable_sort string_lt parts)
  end.

Definition fingerprint_parts (scopeID machineID slotCfg : N) (slotIdx : Z)
    (productID : N) (slotList register eff : Z) (promoIDs : list N) : list string :=
  (["org:" +:+ uuid_String scopeID;
   "mach:" +:+ uuid_String machineID;
   "slot_cfg:" +:+ uuid_String slotCfg;
   "idx:" +:+ FormatInt slotIdx;
   "prod:" +:+ uuid_String productID;
   "slot_list:" +:+ FormatInt slotList;
   "reg:" +:+ FormatInt register;
   "eff:" +:+ FormatInt eff] ++ map (fun id => "promo:" +:+ uuid_String id) promoIDs).

Definition LinePricingFingerprint `{Sha256} (scopeID machineID slotCfg : N) (slotIdx : Z)
    (productID : N) (slotList register eff : Z) (promoIDs : list N) : string :=
  SortedKeyFingerprint "price_line_v1"
    (fingerprint_parts scopeID machineID slotCfg slotIdx productID slotList register eff
       promoIDs).

Section Engine.
Context `{Sha256} {W : Type} (q : PricingQueries W).

Definition LoadProductPromoMetaBatch (productIDs : list N)
    : M W (gmap N ProductPromoMeta) :=
  match productIDs with
  | [] => ret ∅
  | _ =>
      let ids := dedupeUUIDs productIDs in
      let! catRows := GetProductCategories _ q ids in
      let out := foldl (fun m row => <[row.1 := mk_ProductPromoMeta row.2 []]> m) ∅ catRows in
      let! tagRows := ListProductTagIDsForProducts _ q ids in
      ret (foldl (fun m row =>
             let pm := default (mk_ProductPromoMeta None []) (m !! row.1) in
             <[row.1 := mk_ProductPromoMeta (pm_Category pm) (pm_Tags pm ++ [row.2])]> m)
           out tagRows)
  end.

Definition newBatch (scopeID machineID : N) (at_ : Z) : M W Batch :=
  let! cur := GetOrgDefaultCurrency _ q in
  let currency := ToUpper (TrimSpace cur) in
  let currency := if String.eqb currency "" then "USD" else currency in
  let! siteID := GetMachineSiteForOrg _ q machineID in
  let! ovRows := ListMachineOverridesAt _ q machineID at_ in
  let overridePrice := foldl (fun m r => <[ov_ProductID r := ov_UnitPriceMinor r]> m) ∅ ovRows in
  let overrideCur := foldl (fun m r =>
    <[ov_ProductID r := ToUpper (TrimSpace (ov_Currency r))]> m) ∅ ovRows in
  let! promos := ListPromotionsForPreview _ q at_ in
  let sortedPromos := SortPromotions promos in
  let ids := map pr_ID sortedPromos in
  let! rows := (if negb (is_nil ids) then
                  let! ruleRows := ListRulesForPromotions _ q ids in
                  let! tgtRows := ListTargetsForOrgPromotions _ q in
                  ret (ruleRows, tgtRows)
                else ret ([], [])) in
  let rulesByPromo := group_append ru_PromotionID id rows.1 ∅ in
  ret (mk_Batch scopeID machineID siteID at_ currency sortedPromos rulesByPromo rows.2
         (PromotionNameByID sortedPromos) overridePrice overrideCur None).

Definition PrefetchProductMeta (b : Batch) (productIDs : list N) : M W Batch :=
  let! meta := LoadProductPromoMetaBatch productIDs in
  ret (mk_Batch (b_scopeID b) (b_machineID b) (b_siteID b) (b_at b) (b_currency b)
         (b_sortedPromos b) (b_rulesByPromo b) (b_targets b) (b_promoNames b)
         (b_overridePrice b) (b_overrideCur b) (Some meta)).

Definition productCategoryAndTags (b : Batch) (productID : N) : M W (pgUUID * list N) :=
  match (meta ← b_productMeta b; meta !! productID) with
  | Some m => ret (pm_Category m, pm_Tags m)
  | None =>
      let! cat := GetProductCategory _ q productID in
      let! tagRows := ListProductTagIDs _ q productID in
      ret (cat, tagRows)
  end.

(** Slot price or machine override, with the trace; fails on a currency
    mismatch. *)
Definition register_price (b : Batch) (in_ : PriceLineInput) : res (Z * list string) :=
  let slotList := pli_SlotListUnitMinor in_ in
  let trace := ["slot_list:" +:+ FormatInt slotList] in
  match b_overridePrice b !! pli_ProductID in_ with
  | Some ov =>
      let oc := ToUpper (TrimSpace (default "" (b_overrideCur b !! pli_ProductID in_))) in
      if negb (String.eqb oc "") && negb (String.eqb oc (b_currency b)) then
        Err (ENew ("pricingengine: machine price override currency " +:+ oc +:+
                   " does not match org currency " +:+ b_currency b))
      else Ok (ov, trace ++ ["machine_override:" +:+ FormatInt ov])
  | None => Ok (slotList, trace)
  end.

(** The arithmetic of [PriceLine] once the register price and the product's
    category and tags are known. *)
Definition price_from (b : Batch) (in_ : PriceLineInput) (register : Z)
    (trace : list string) (cat : pgUUID) (tags : list N) : LinePriceResult :=
  let qty := if pli_Quantity in_ <=? 0 then 1 else pli_Quantity in_ in
  let slotList := pli_SlotListUnitMinor in_ in
  let eCtx := NewPromoEvalCtx uuid_Nil (Some (b_machineID b)) (Some (b_siteID b))
                (pli_ProductID in_) cat tags in
  let promo :=
    if negb (is_nil (b_sortedPromos b)) then
      EvaluatePromotionDiscountForProduct (b_rulesByPromo b) (b_targets b) eCtx register
        (b_sortedPromos b)
    else mk_PromoResult 0 [] [] [] in
  let disc := po_discount promo in
  let applied := po_appliedIDs promo in
  let trace := trace ++ ["promo_discount:" +:+ FormatInt disc] in
  let eff := sub64 register disc in
  let eff := if eff <? 0 then 0 else eff in
  let sub := mul64 eff qty in
  let label := match applied with
               | a :: _ => default "" (b_promoNames b !! a)
               | [] => ""
               end in
  let fp := LinePricingFingerprint uuid_Nil (pli_MachineID in_) (pli_SlotConfigID in_)
              (pli_SlotIndex in_) (pli_ProductID in_) slotList register eff applied in
  mk_LinePriceResult slotList register disc eff sub 0 sub (b_currency b) applied label fp trace.

Definition PriceLine (b : Batch) (in_ : PriceLineInput) : M W LinePriceResult :=
  if negb (uuid_Nil =u b_scopeID b) || negb (pli_MachineID in_ =u b_machineID b) then
    fail (ENew "pricingengine: batch org/machine mismatch")
  else
    let! reg := lift (register_price b in_) in
    let! meta := productCategoryAndTags b (pli_ProductID in_) in
    ret (price_from b in_ reg.1 reg.2 meta.1 meta.2).

(** ** Sale lines *)

Definition repairPublishedAssortmentFromSlotConfigs (machineID productID : N) : M W bool :=
  if (machineID =u uuid_Nil) || (productID =u uuid_Nil) then ret false else
  let! rows := ListCurrentMachineSlotConfigsByMachine _ q machineID in
  let assigned := existsb (fun row => match rowProductUUID row with
                                      | Some pid => pid =u productID
                                      | None => false
                                      end) rows in
  if negb assigned then ret false
  else SyncAssortment _ q machineID ;;; ret true.

(** The assortment check both evaluators start a line with. *)
Definition ensurePublished (machineID productID : N) : M W unit :=
  let! ok := IsProductInMachinePublishedAssortment _ q productID machineID in
  let! ok := (if negb ok then
                let! repaired := repairPublishedAssortmentFromSlotConfigs machineID productID in
                if repaired then IsProductInMachinePublishedAssortment _ q productID machineID
                else ret false
              else ret true) in
  if negb ok then fail errNotPublished else ret tt.

Definition errNoSlotIndex : goerr := ENew "pricingengine: slot config has no slot_index".

Definition price_input (machineID : N) (sel : SaleLineSelector) (row : SlotConfigRow)
    (si qty : Z) : PriceLineInput :=
  mk_PriceLineInput machineID (ss_ProductID sel) (sr_PriceMinor row) (sr_ID row)
    (sr_CabinetCode row) (sr_SlotCode row) si qty.

Definition EvaluateSaleLine (sel : SaleLineSelector) (at_ qty : Z)
    : M W (LinePriceResult * SlotConfigRow) :=
  ensurePublished (ss_MachineID sel) (ss_ProductID sel) ;;;
  let! rows := ListCurrentMachineSlotConfigsByMachine _ q (ss_MachineID sel) in
  let! row := lift (pickSlotRow rows uuid_Nil sel) in
  match rowSlotIndex row with
  | None => fail errNoSlotIndex
  | Some si =>
      let! batch := newBatch uuid_Nil (ss_MachineID sel) at_ in
      let! r := PriceLine batch (price_input (ss_MachineID sel) sel row si qty) in
      ret (r, row)
  end.

Record EvaluateSaleLineRequest := mk_EvaluateSaleLineRequest {
  esl_Selector : SaleLineSelector; esl_Qty : Z }.

(** One iteration of the pricing loop of [EvaluateSaleLines]. *)
Definition evaluate_request (machineID : N) (rows : list SlotConfigRow) (batch : Batch)
    (req : EvaluateSaleLineRequest) : M W (LinePriceResult * SlotConfigRow) :=
  let sel := esl_Selector req in
  let qty := if esl_Qty req <=? 0 then 1 else esl_Qty req in
  ensurePublished machineID (ss_ProductID sel) ;;;
  let! row := lift (pickSlotRow rows uuid_Nil sel) in
  match rowSlotIndex row with
  | None => fail errNoSlotIndex
  | Some si =>
      let! r := PriceLine batch (price_input machineID sel row si qty) in
      ret (r, row)
  end.

Definition EvaluateSaleLines (reqs : list EvaluateSaleLineRequest) (at_ : Z)
    : M W (list (LinePriceResult * SlotConfigRow)) :=
  match reqs with
  | [] => fail (EJoin ErrInvalidArgument (ENew "at least one sale line required"))
  | req0 :: rest =>
      let machineID := ss_MachineID (esl_Selector req0) in
      if machineID =u uuid_Nil then
        fail (EJoin ErrInvalidArgument (ENew "machine_id required"))
      else if existsb (fun r => negb (ss_MachineID (esl_Selector r) =u machineID)) rest then
        fail (EJoin ErrInvalidArgument (ENew "all sale lines must share machine_id"))
      else
        let! rows := ListCurrentMachineSlotConfigsByMachine _ q machineID in
        let! batch := newBatch uuid_Nil machineID at_ in
        let productIDs := dedupeUUIDs (map (fun r => ss_ProductID (esl_Selector r)) reqs) in
        let! batch := (if negb (is_nil productIDs) then PrefetchProductMeta batch productIDs
                       else ret batch) in
        map_each (evaluate_request machineID rows batch) reqs
  end.

Definition MapToResolvedSaleLine (slotCfgID : N) (cab slot : string) (slotIdx : Z)
    (r : LinePriceResult) : ResolvedSaleLine :=
  mk_ResolvedSaleLine slotCfgID cab slot slotIdx (lp_EffectiveUnitMinor r)
    (lp_SubtotalMinor r) (lp_TaxMinor r) (lp_TotalMinor r) (lp_RegisterUnitMinor r)
    (lp_DiscountUnitMinor r) (lp_PromotionLabel r) (lp_Currency r)
    (lp_PricingFingerprint r) (lp_AppliedPromotionIDs r).
End Engine.
End Promotions.

(** ** Discount bounds *)

Section Bounds.
Context `{UuidText}.

Lemma cap_discount_bounds max d : 0 <= d -> 0 <= cap_discount max d <= d.
Proof. intros. unfold cap_discount. repeat case_match; lia. Qed.

Lemma discountFromRule_bounds base rule :
  0 <= base -> 0 <= (discountFromRule base rule).1 <= base.
Proof.
  intros Hb. unfold discountFromRule.
  repeat (case_match; cbn; try lia).
  match goal with |- context [cap_discount ?m ?d] =>
    pose proof (cap_discount_bounds m d) end. lia.
Qed.

Lemma best_loop_bounds base best br sk rules :
  0 <= best <= base -> 0 <= (best_loop base best br sk rules).1.1 <= base.
Proof.
  revert best br sk. induction rules as [|r rules IH]; intros best br sk Hb; cbn; [done|].
  pose proof (discountFromRule_bounds base r ltac:(lia)) as Hd.
  destruct (discountFromRule base r) as [d s]; cbn in *.
  repeat case_match; auto.
Qed.

Lemma bestDiscount_bounds base rules :
  0 <= base -> 0 <= (bestDiscountForPromotion base rules).1.1 <= base.
Proof.
  intros Hb. unfold bestDiscountForPromotion.
  pose proof (best_loop_bounds base 0 None [] rules ltac:(lia)) as Hl.
  by destruct (best_loop base 0 None [] rules) as [[b r] s].
Qed.

Context (rulesByPromo : gmap N (list PromotionRule)) (targets : list PromotionTarget)
        (ctx : PromoEvalCtx).
Local Abbreviation first_ := (apply_first rulesByPromo targets ctx).
Local Abbreviation chain := (apply_chain rulesByPromo targets ctx).

Lemma apply_first_bounds base sk sorted :
  0 <= base -> 0 <= po_discount (first_ base sk sorted) <= base.
Proof.
  intros Hb. revert sk. induction sorted as [|pr rest IH]; intros sk; cbn; [lia|].
  destruct (promotionApplicable _ _ _); cbn; [|done].
  pose proof (bestDiscount_bounds base (rules_of rulesByPromo pr) Hb) as Hd.
  destruct (bestDiscountForPromotion _ _) as [[d rid] s]; cbn in *.
  case_match; [done|cbn; lia].
Qed.

Lemma apply_chain_bounds base remaining acc sorted :
  base <= MaxInt64 -> 0 <= remaining -> 0 <= po_discount acc ->
  po_discount acc + remaining = base ->
  0 <= po_discount (chain remaining acc sorted) <= base.
Proof.
  intros Hmax. revert remaining acc.
  induction sorted as [|pr rest IH]; intros remaining acc Hr Ha He; cbn; [lia|].
  destruct (promotionApplicable _ _ _); cbn; [|by apply IH].
  pose proof (bestDiscount_bounds remaining (rules_of rulesByPromo pr) Hr) as Hd.
  destruct (bestDiscountForPromotion _ _) as [[d rid] s]; cbn in *.
  destruct (d <=? 0); [by apply IH|].
  destruct (Z.ltb_spec remaining d); [lia|].
  rewrite add64_id, sub64_id by (unfold_int; lia).
  case_match; [cbn; lia|]. apply IH; cbn; lia.
Qed.

Lemma evaluate_bounds base sorted :
  0 <= base <= MaxInt64 ->
  0 <= po_discount
    (EvaluatePromotionDiscountForProduct rulesByPromo targets ctx base sorted) <= base.
Proof.
  intros Hb. unfold EvaluatePromotionDiscountForProduct, applyPromotionsToBase; cbn.
  set (ns := matchingNonStack _ _ _). set (st := matchingStack _ _ _).
  pose proof (apply_first_bounds base [] (SortPromotions ns) ltac:(lia)) as H1.
  set (d1 := po_discount (first_ base [] (SortPromotions ns))) in *.
  assert (Hst : forall rem acc, 0 <= rem -> rem <= base -> po_discount acc + rem = base ->
    0 <= po_discount acc ->
    0 <= add64 (po_discount acc) (po_discount
      (chain rem (mk_PromoResult 0 [] [] []) (SortPromotions st))) <= base).
  { intros rem acc Hr Hle He Ha.
    pose proof (apply_chain_bounds rem rem (mk_PromoResult 0 [] [] []) (SortPromotions st)
      ltac:(lia) Hr ltac:(cbn; lia) eq_refl).
    rewrite add64_id by (unfold_int; lia). lia. }
  destruct (is_nil ns); cbn.
  - destruct (is_nil st); cbn; [lia|].
    apply (Hst base (mk_PromoResult 0 [] [] [])); cbn; lia.
  - rewrite sub64_id by (unfold_int; lia).
    destruct (Z.ltb_spec (base - d1) 0); [lia|].
    destruct (is_nil st); cbn; [lia|].
    apply (Hst (base - d1) (mk_PromoResult d1 [] [] [])); cbn; lia.
Qed.
End Bounds.

(** ** The evaluation order *)

Section Order.
Context `{UuidTextLaws}.

Lemma promoLess_asym a b : promoLess a b = true -> promoLess b a = false.
Proof.
  unfold promoLess. rewrite (Z.eqb_sym (pr_Priority b)), (Z.eqb_sym (pr_StartsAt b)).
  destruct (Z.eqb_spec (pr_Priority a) (pr_Priority b)); cbn; [|lia].
  destruct (Z.eqb_spec (pr_StartsAt a) (pr_StartsAt b)); cbn; [|lia].
  apply string_lt_asym.
Qed.

Lemma promoLess_trans a b c :
  not_after promoLess a b -> not_after promoLess b c -> not_after promoLess a c.
Proof.
  unfold not_after, promoLess.
  destruct (Z.eqb_spec (pr_Priority b) (pr_Priority a)),
           (Z.eqb_spec (pr_Priority c) (pr_Priority b)),
           (Z.eqb_spec (pr_Priority c) (pr_Priority a)); cbn; try lia.
  destruct (Z.eqb_spec (pr_StartsAt b) (pr_StartsAt a)),
           (Z.eqb_spec (pr_StartsAt c) (pr_StartsAt b)),
           (Z.eqb_spec (pr_StartsAt c) (pr_StartsAt a)); cbn; try lia.
  eauto using string_ge_trans.
Qed.

Lemma promoLess_total a b :
  not_after promoLess a b -> not_after promoLess b a -> pr_ID a = pr_ID b.
Proof.
  unfold not_after, promoLess.
  rewrite (Z.eqb_sym (pr_Priority b)), (Z.eqb_sym (pr_StartsAt b)).
  destruct (Z.eqb_spec (pr_Priority a) (pr_Priority b)); cbn; [|lia].
  destruct (Z.eqb_spec (pr_StartsAt a) (pr_StartsAt b)); cbn; [|lia].
  intros H1 H2. apply (inj uuid_String). by apply string_lt_total.
Qed.

Lemma SortPromotions_sorted ps : StronglySorted (not_after promoLess) (SortPromotions ps).
Proof. apply stable_sort_sorted; [apply promoLess_asym|apply promoLess_trans]. Qed.

Lemma SortPromotions_Permutation ps : SortPromotions ps ≡ₚ ps.
Proof. apply stable_sort_Permutation. Qed.

Lemma NoDup_map_eq {A B} (f : A -> B) l x y :
  NoDup (map f l) -> x ∈ l -> y ∈ l -> f x = f y -> x = y.
Proof.
  induction l as [|a l IH]; cbn; intros Hn Hx Hy He; [set_solver|].
  apply NoDup_cons in Hn as [Ha Hn].
  assert (Hin : forall z, z ∈ l -> f z ∈ map f l) by (intros; by apply list_elem_of_fmap_2).
  apply elem_of_cons in Hx as [->|Hx], Hy as [->|Hy]; auto.
  - destruct Ha. rewrite He. auto.
  - destruct Ha. rewrite <- He. auto.
Qed.

Lemma SortPromotions_perm ps1 ps2 :
  NoDup (map pr_ID ps1) -> ps1 ≡ₚ ps2 -> SortPromotions ps1 = SortPromotions ps2.
Proof.
  intros Hnd Hp. apply (sorted_perm_unique (not_after promoLess));
    [|apply SortPromotions_sorted..|by rewrite !SortPromotions_Permutation].
  intros x y. rewrite !SortPromotions_Permutation. intros Hx Hy H1 H2.
  eapply NoDup_map_eq; eauto using promoLess_total.
Qed.

(** Sorting the promotions gives a canonical order *)
Theorem SortPromotions_canonical ps1 ps2 :
  NoDup (map pr_ID ps1) -> ps1 ≡ₚ ps2 ->
  SortPromotions ps1 = SortPromotions ps2 /\ SortPromotions ps1 ≡ₚ ps1 /\
  StronglySorted (not_after promoLess) (SortPromotions ps1) /\
  SortPromotions (SortPromotions ps1) = SortPromotions ps1.
Proof.
  intros Hnd Hp. split; [by apply SortPromotions_perm|].
  split; [apply SortPromotions_Permutation|].
  split; [apply SortPromotions_sorted|].
  apply stable_sort_sorted_id, SortPromotions_sorted.
Qed.
End Order.

(** ** Which promotions apply *)

Section Applied.
Context `{UuidText} (rulesByPromo : gmap N (list PromotionRule))
        (targets : list PromotionTarget) (ctx : PromoEvalCtx).
Local Abbreviation appl := (fun pr => applicable targets ctx pr).

(** A promotion that gives a discount on [base]. *)
Definition discounts (base : Z) (pr : Promotion) : bool :=
  applicable targets ctx pr &&
  (0 <? (bestDiscountForPromotion base (rules_of rulesByPromo pr)).1.1).

Lemma apply_first_spec base sk sorted :
  let r := apply_first rulesByPromo targets ctx base sk sorted in
  match List.find (discounts base) sorted with
  | None => po_discount r = 0 /\ po_appliedIDs r = []
  | Some pr =>
      po_discount r = (bestDiscountForPromotion base (rules_of rulesByPromo pr)).1.1 /\
      po_appliedIDs r = [pr_ID pr]
  end.
Proof.
  revert sk. induction sorted as [|pr rest IH]; intros sk; cbn; [done|].
  unfold discounts at 1, applicable.
  destruct (promotionApplicable _ _ _); cbn; [|apply IH].
  destruct (bestDiscountForPromotion _ _) as [[d rid] s] eqn:E; cbn.
  destruct (Z.ltb_spec 0 d), (Z.leb_spec d 0); try lia; cbn; [|apply IH].
  by rewrite E.
Qed.

Lemma apply_chain_applied remaining acc sorted :
  exists l, po_appliedIDs (apply_chain rulesByPromo targets ctx remaining acc sorted) =
            po_appliedIDs acc ++ map pr_ID l /\
            sublist l sorted /\ Forall (fun pr => appl pr = true) l.
Proof.
  revert remaining acc. induction sorted as [|pr rest IH]; intros remaining acc; cbn.
  { exists []. rewrite app_nil_r. auto using sublist_nil. }
  destruct (promotionApplicable _ _ _) eqn:Ea; cbn.
  2: { edestruct IH as (l & -> & ? & ?). exists l. cbn. auto using sublist_cons. }
  destruct (bestDiscountForPromotion _ _) as [[d rid] s].
  destruct (d <=? 0).
  { edestruct IH as (l & -> & ? & ?). exists l. cbn. auto using sublist_cons. }
  destruct (_ <=? 0).
  { exists [pr]. cbn. split_and!; [done| |by repeat constructor].
    apply sublist_skip, sublist_nil_l. }
  edestruct IH as (l & -> & ? & ?). exists (pr :: l). cbn. rewrite <- app_assoc.
  auto using sublist_skip.
Qed.
End Applied.

Section Applied_theorem.
Context `{UuidText} (rulesByPromo : gmap N (list PromotionRule))
        (targets : list PromotionTarget) (ctx : PromoEvalCtx).

Lemma chain_of_sorted base ps :
  exists l, po_appliedIDs (applyPromotionsToBase rulesByPromo targets ctx base ps true) =
            map pr_ID l /\ l ⊆+ ps.
Proof.
  unfold applyPromotionsToBase; cbn.
  destruct (apply_chain_applied rulesByPromo targets ctx base
              (mk_PromoResult 0 [] [] []) (SortPromotions ps)) as (l & Hl & Hs & _).
  exists l. split; [done|]. etransitivity; [by apply sublist_submseteq|].
  by rewrite SortPromotions_Permutation.
Qed.

(** at most one non-stackable promotion applies, the first with a discount *)
Theorem evaluate_applied_promotions base ps :
  NoDup (map pr_ID ps) ->
  let r := EvaluatePromotionDiscountForProduct rulesByPromo targets ctx base ps in
  exists stacked,
    po_appliedIDs r =
      map pr_ID (option_list (List.find (discounts rulesByPromo targets ctx base)
                   (SortPromotions (matchingNonStack targets ctx ps))) ++ stacked) /\
    stacked ⊆+ matchingStack targets ctx ps /\ NoDup (po_appliedIDs r).
Proof.
  intros Hnd r. set (ns := matchingNonStack targets ctx ps).
  set (st := matchingStack targets ctx ps).
  set (first := List.find (discounts rulesByPromo targets ctx base) (SortPromotions ns)).
  assert (Hids : exists stacked, po_appliedIDs r = map pr_ID (option_list first ++ stacked) /\
            stacked ⊆+ st).
  { unfold r, EvaluatePromotionDiscountForProduct. fold ns st.
    pose proof (apply_first_spec rulesByPromo targets ctx base [] (SortPromotions ns)) as Hf.
    fold first in Hf. cbn in Hf.
    set (d := po_discount (apply_first _ _ _ base [] (SortPromotions ns))) in *.
    destruct (is_nil ns) eqn:En; cbn -[po_appliedIDs].
    - assert (first = None) as -> by (unfold first; by destruct ns).
      destruct (is_nil st); cbn; [exists []; split; [done|apply submseteq_nil_l]|].
      apply chain_of_sorted.
    - set (rem := if (_ <? 0) then _ else _). clearbody rem d.
      assert (Ha : po_appliedIDs (apply_first rulesByPromo targets ctx base []
                      (SortPromotions ns)) = map pr_ID (option_list first)).
      { destruct first; cbn; apply Hf. }
      destruct (is_nil st); cbn; rewrite Ha.
      + exists []. rewrite app_nil_r. split; [done|apply submseteq_nil_l].
      + destruct (chain_of_sorted rem st) as (l & Hl & Hs).
        cbn in Hl. rewrite Hl. exists l. by rewrite map_app. }
  destruct Hids as (stacked & Hids & Hsub). exists stacked.
  split_and!; [done|done|]. rewrite Hids.
  assert (Hall : option_list first ++ stacked ⊆+ ps).
  { transitivity (ns ++ st).
    - apply submseteq_app; [|done].
      destruct first as [pr|] eqn:E; cbn; [|apply submseteq_nil_l].
      apply find_Some_elem in E as [Hin _]. rewrite SortPromotions_Permutation in Hin.
      by apply singleton_submseteq_l.
    - unfold ns, st, matchingNonStack, matchingStack. clear.
      induction ps as [|p l IH]; cbn; [done|].
      destruct (applicable targets ctx p), (pr_Stackable p); cbn.
      + rewrite <- Permutation_middle. by apply submseteq_skip.
      + by apply submseteq_skip.
      + by apply submseteq_cons.
      + by apply submseteq_cons. }
  apply (fmap_submseteq pr_ID) in Hall.
  apply submseteq_Permutation in Hall as [k Hk].
  change (pr_ID <$> ?l) with (map pr_ID l) in Hk.
  rewrite Hk in Hnd. apply NoDup_app in Hnd as [Hnd _]. exact Hnd.
Qed.
End Applied_theorem.

(** ** Deduplication and slot selection *)

Lemma dedupe_from_spec seen ids :
  NoDup (dedupe_from seen ids) /\
  forall x, x ∈ dedupe_from seen ids <-> x ∈ ids /\ x <> uuid_Nil /\ x ∉ seen.
Proof.
  revert seen. induction ids as [|id ids IH]; intros seen; cbn.
  { split; [constructor|set_solver]. }
  destruct (N.eqb_spec id uuid_Nil) as [->|Hn].
  { destruct (IH seen) as [Hnd Hin]. split; [done|]. set_solver. }
  assert (Hs : existsb (N.eqb id) seen = true <-> id ∈ seen).
  { rewrite existsb_exists, list_elem_of_In. split.
    - intros (x & Hx & E%N.eqb_eq). by subst.
    - intros Hi. exists id. by rewrite N.eqb_refl. }
  destruct (existsb _ _) eqn:E.
  - destruct (IH seen) as [Hnd Hin]. split; [done|].
    assert (id ∈ seen) by (by apply Hs). set_solver.
  - assert (id ∉ seen) by (rewrite <- Hs; congruence).
    destruct (IH (id :: seen)) as [Hnd Hin]. split.
    + constructor; [|done]. rewrite Hin. set_solver.
    + intros x. rewrite elem_of_cons, Hin.
      destruct (decide (x = id)) as [->|]; set_solver.
Qed.

Lemma dedupeUUIDs_spec ids :
  NoDup (dedupeUUIDs ids) /\
  forall x, x ∈ dedupeUUIDs ids <-> x ∈ ids /\ x <> uuid_Nil.
Proof.
  destruct (dedupe_from_spec [] ids) as [Hnd Hin]. split; [done|].
  intros x. unfold dedupeUUIDs. rewrite Hin. set_solver.
Qed.

(** ** Line amounts *)

Section Lines.
Context `{UuidText} `{Sha256} {W : Type} (q : PricingQueries W).

(** The unit price before promotions. *)
Definition register_of (b : Batch) (in_ : PriceLineInput) : Z :=
  default (pli_SlotListUnitMinor in_) (b_overridePrice b !! pli_ProductID in_).

(** The quantity that is charged: at least one. *)
Definition charged_qty (qty : Z) : Z := if qty <=? 0 then 1 else qty.

(** C39: the amounts of a priced line *)
Theorem PriceLine_amounts b in_ w r w' :
  PriceLine q b in_ w = (Ok r, w') -> 0 <= register_of b in_ <= MaxInt64 ->
  lp_RegisterUnitMinor r = register_of b in_ /\
  0 <= lp_DiscountUnitMinor r <= lp_RegisterUnitMinor r /\
  lp_EffectiveUnitMinor r = lp_RegisterUnitMinor r - lp_DiscountUnitMinor r /\
  lp_TotalMinor r = lp_SubtotalMinor r + lp_TaxMinor r /\
  lp_Currency r = b_currency b /\
  (lp_EffectiveUnitMinor r * charged_qty (pli_Quantity in_) <= MaxInt64 ->
   lp_SubtotalMinor r = lp_EffectiveUnitMinor r * charged_qty (pli_Quantity in_)).
Proof.
  unfold PriceLine. case_match; [discriminate|]. intros Hr Hb. inv_run.
  destruct a as [reg trace], a0 as [cat tags]; cbn.
  assert (reg = register_of b in_) as ->.
  { unfold register_price in *. unfold register_of.
    destruct (b_overridePrice b !! _); cbn; [case_match|]; naive_solver. }
  set (promo := if negb (is_nil _) then _ else _).
  assert (Hd : 0 <= po_discount promo <= register_of b in_).
  { unfold promo. case_match; [|cbn; lia]. by apply evaluate_bounds. }
  clearbody promo. rewrite sub64_id by (unfold_int; lia).
  destruct (Z.ltb_spec (register_of b in_ - po_discount promo) 0); [lia|].
  split_and!; try done; try lia. intros Hmax.
  unfold charged_qty in *. apply mul64_id.
  assert (1 <= charged_qty (pli_Quantity in_)).
  { unfold charged_qty. destruct (Z.leb_spec (pli_Quantity in_) 0); lia. }
  unfold charged_qty, in_int64, MinInt64 in *. nia.
Qed.

(** Two contexts that select the same promotions price alike. *)
Lemma evaluate_ext rules tg c1 c2 base ps :
  (forall pid, promotionApplicable c1 pid tg = promotionApplicable c2 pid tg) ->
  EvaluatePromotionDiscountForProduct rules tg c1 base ps =
  EvaluatePromotionDiscountForProduct rules tg c2 base ps.
Proof.
  intros He.
  assert (Hf : forall l sk b, apply_first rules tg c1 b sk l = apply_first rules tg c2 b sk l).
  { induction l as [|p l IH]; intros; cbn; [done|].
    rewrite He. repeat case_match; auto. }
  assert (Hc : forall l rem acc, apply_chain rules tg c1 rem acc l = apply_chain rules tg c2 rem acc l).
  { induction l as [|p l IH]; intros; cbn; [done|].
    rewrite He. repeat case_match; auto. }
  assert (Hflt : forall g : bool -> Promotion -> bool,
    List.filter (fun pr => g (applicable tg c1 pr) pr) ps =
    List.filter (fun pr => g (applicable tg c2 pr) pr) ps).
  { intros g. apply List.filter_ext. intros p. unfold applicable. by rewrite He. }
  unfold EvaluatePromotionDiscountForProduct, applyPromotionsToBase.
  assert (matchingNonStack tg c1 ps = matchingNonStack tg c2 ps) as ->
    by apply (Hflt (fun a pr => a && negb (pr_Stackable pr))).
  assert (matchingStack tg c1 ps = matchingStack tg c2 ps) as ->
    by apply (Hflt (fun a pr => a && pr_Stackable pr)).
  assert (notMatching tg c1 ps = notMatching tg c2 ps) as ->
    by apply (Hflt (fun a pr => negb a)).
  cbn. rewrite !Hf. repeat (case_match; rewrite ?Hc; try done).
Qed.

Lemma existsb_Permutation {A} (p : A -> bool) l1 l2 :
  l1 ≡ₚ l2 -> existsb p l1 = existsb p l2.
Proof. induction 1; cbn; try congruence; by destruct (p x), (p y). Qed.

Lemma price_from_tags b in_ reg tr cat t1 t2 :
  t1 ≡ₚ t2 -> price_from b in_ reg tr cat t1 = price_from b in_ reg tr cat t2.
Proof.
  intros Hp. unfold price_from, NewPromoEvalCtx.
  assert (He : forall pid,
    promotionApplicable (mk_PromoEvalCtx uuid_Nil (Some (b_machineID b)) (Some (b_siteID b))
      (pli_ProductID in_) cat t1) pid (b_targets b) =
    promotionApplicable (mk_PromoEvalCtx uuid_Nil (Some (b_machineID b)) (Some (b_siteID b))
      (pli_ProductID in_) cat t2) pid (b_targets b)).
  { intros pid. unfold promotionApplicable. generalize (List.filter (fun t => tg_PromotionID t =u pid) (b_targets b)).
    intros [|t l]; [done|]. revert t l.
    assert (Ht : forall t, targetMatches (mk_PromoEvalCtx uuid_Nil (Some (b_machineID b)) (Some (b_siteID b))
      (pli_ProductID in_) cat t1) t = targetMatches (mk_PromoEvalCtx uuid_Nil (Some (b_machineID b))
      (Some (b_siteID b)) (pli_ProductID in_) cat t2) t).
    { intros t. unfold targetMatches; cbn.
      repeat (case_match; try done). by apply existsb_Permutation. }
    intros t l. cbn. rewrite Ht. f_equal. induction l as [|u l IH]; cbn; [done|].
    by rewrite Ht, IH. }
  by rewrite (evaluate_ext _ _ _ _ _ _ He).
Qed.
End Lines.

(** ** The batched evaluator agrees with the line evaluator *)

(** What the engine relies on of its queries: reads leave the state alone,
    and the two set-based queries return the rows of the per-product ones.
    The order of a product's tags is unspecified. *)
Class PricingQueriesLaws {W} (q : PricingQueries W) : Prop := {
  ro_currency : read_only (GetOrgDefaultCurrency _ q);
  ro_site m : read_only (GetMachineSiteForOrg _ q m);
  ro_overrides m t : read_only (ListMachineOverridesAt _ q m t);
  ro_promos t : read_only (ListPromotionsForPreview _ q t);
  ro_rules ids : read_only (ListRulesForPromotions _ q ids);
  ro_targets : read_only (ListTargetsForOrgPromotions _ q);
  ro_category p : read_only (GetProductCategory _ q p);
  ro_tags p : read_only (ListProductTagIDs _ q p);
  ro_categories ids : read_only (GetProductCategories _ q ids);
  ro_tags_batch ids : read_only (ListProductTagIDsForProducts _ q ids);
  ro_published p m : read_only (IsProductInMachinePublishedAssortment _ q p m);
  ro_slots m : read_only (ListCurrentMachineSlotConfigsByMachine _ q m);
  categories_rows ids w rows :
    (GetProductCategories _ q ids w).1 = Ok rows ->
    forall p c, (p, c) ∈ rows <-> p ∈ ids /\ (GetProductCategory _ q p w).1 = Ok c;
  tags_rows ids w rows :
    (ListProductTagIDsForProducts _ q ids w).1 = Ok rows ->
    forall p,
      if bool_decide (p ∈ ids /\ is_Ok (GetProductCategory _ q p w).1 = true)
      then exists tags, (ListProductTagIDs _ q p w).1 = Ok tags /\
                        map snd (List.filter (fun row => row.1 =u p) rows) ≡ₚ tags
      else List.filter (fun row => row.1 =u p) rows = [] }.

#[export] Hint Resolve ro_currency ro_site ro_overrides ro_promos ro_rules ro_targets
  ro_category ro_tags ro_categories ro_tags_batch ro_published ro_slots
  read_only_bind read_only_ret read_only_fail read_only_lift : read_only.

Section Batched.
Context `{UuidText} `{Sha256} {W : Type} (q : PricingQueries W) `{!PricingQueriesLaws q}.

Lemma newBatch_read_only s m t : read_only (newBatch q s m t).
Proof.
  unfold newBatch. repeat (apply read_only_bind; [eauto with read_only|intros]).
  - case_match; eauto 10 with read_only.
  - eauto with read_only.
Qed.

(** The category and tags found for a product in a prefetched map. *)
Lemma foldl_insert_fst {V R} (key : R -> N) (val : R -> V) rows (m : gmap N V) p :
  foldl (fun m r => <[key r := val r]> m) m rows !! p =
  match List.find (fun r => key r =u p) (rev rows) with
  | Some r => Some (val r)
  | None => m !! p
  end.
Proof.
  induction rows as [|r rows IH] using rev_ind; [done|].
  rewrite foldl_snoc, rev_unit; cbn [List.find].
  destruct (N.eqb_spec (key r) p) as [<-|Hn].
  - apply lookup_insert_eq.
  - rewrite lookup_insert_ne by done. apply IH.
Qed.

Lemma foldl_append_tags rows (m : gmap N ProductPromoMeta) p :
  let tags := map snd (List.filter (fun row : N * N => row.1 =u p) rows) in
  foldl (fun m row =>
    let pm := default (mk_ProductPromoMeta None []) (m !! row.1) in
    <[row.1 := mk_ProductPromoMeta (pm_Category pm) (pm_Tags pm ++ [row.2])]> m) m rows !! p =
  match m !! p with
  | Some pm => Some (mk_ProductPromoMeta (pm_Category pm) (pm_Tags pm ++ tags))
  | None => if is_nil tags then None else Some (mk_ProductPromoMeta None tags)
  end.
Proof.
  induction rows as [|row rows IH] using rev_ind; cbn.
  { destruct (m !! p) as [[c t]|]; cbn; [by rewrite app_nil_r|done]. }
  rewrite foldl_snoc, List.filter_app, map_app; cbn in *.
  destruct (N.eqb_spec row.1 p) as [<-|Hn].
  - rewrite lookup_insert_eq, IH; cbn.
    destruct (m !! row.1) as [[c t]|]; cbn; [by rewrite app_assoc|].
    destruct (map snd _); done.
  - rewrite lookup_insert_ne by done. cbn. rewrite app_nil_r. apply IH.
Qed.

(** Prefetching changes nothing for a product the batch can price. *)
Lemma prefetch_meta b ids b' w p :
  PrefetchProductMeta q b ids w = (Ok b', w) -> b_productMeta b = None ->
  exists meta, b' = mk_Batch (b_scopeID b) (b_machineID b) (b_siteID b) (b_at b) (b_currency b)
         (b_sortedPromos b) (b_rulesByPromo b) (b_targets b) (b_promoNames b)
         (b_overridePrice b) (b_overrideCur b) (Some meta) /\
  match meta !! p with
  | None => True
  | Some pm => exists tags, (GetProductCategory _ q p w).1 = Ok (pm_Category pm) /\
      (ListProductTagIDs _ q p w).1 = Ok tags /\ pm_Tags pm ≡ₚ tags
  end.
Proof.
  unfold PrefetchProductMeta. intros Hp Hb. inv_run.
  eexists; split; [done|]. rename a into meta, E into Hm.
  unfold LoadProductPromoMetaBatch in Hm. destruct ids as [|i ids]; [unfold ret in Hm; by simplify_eq|].
  inv_run. rename a into cats, a0 into tagrows.
  pose proof (ro_categories (dedupeUUIDs (i :: ids)) w) as Hro; rewrite E in Hro; cbn in Hro; subst.
  rewrite foldl_append_tags, (foldl_insert_fst fst (fun row => mk_ProductPromoMeta row.2 [])).
  pose proof (categories_rows (dedupeUUIDs (i :: ids)) w cats ltac:(by rewrite E) p) as Hc.
  pose proof (tags_rows (dedupeUUIDs (i :: ids)) w tagrows ltac:(by rewrite E0) p) as Ht.
  destruct (List.find _ (rev cats)) as [[p' c]|] eqn:Ef; cbn.
  - apply find_Some_elem in Ef as [Hin Hk%N.eqb_eq]. cbn in Hk. subst p'.
    rewrite list_elem_of_In, <- in_rev, <- list_elem_of_In in Hin.
    apply Hc in Hin as [Hin Hcat]. rewrite bool_decide_true in Ht by (rewrite Hcat; done).
    destruct Ht as (tags & Htags & Hperm). exists tags. by rewrite Hcat.
  - rewrite bool_decide_false in Ht; [by rewrite Ht; cbn; rewrite lookup_empty|].
    intros [Hin Hok]. destruct ((GetProductCategory _ q p w).1) as [c|] eqn:Ec; [|done].
    assert ((p, c) ∈ cats) as Hin' by (by apply Hc).
    rewrite find_None_elem in Ef. specialize (Ef (p, c)). cbn in Ef.
    rewrite N.eqb_refl in Ef. discriminate Ef.
    by rewrite list_elem_of_In, <- in_rev, <- list_elem_of_In.
Qed.

Lemma PriceLine_prefetched b ids b' w in_ :
  PrefetchProductMeta q b ids w = (Ok b', w) -> b_productMeta b = None ->
  PriceLine q b' in_ w = PriceLine q b in_ w.
Proof.
  intros Hp Hb.
  destruct (prefetch_meta b ids b' w (pli_ProductID in_) Hp Hb) as (meta & -> & Hm).
  unfold PriceLine; cbn [b_scopeID b_machineID].
  destruct (negb _ || negb _); [done|].
  change (register_price (mk_Batch _ _ _ _ _ _ _ _ _ _ _ _) in_) with (register_price b in_).
  unfold bind, lift. destruct (register_price b in_) as [[reg tr]|e]; [|done].
  unfold productCategoryAndTags; cbn. rewrite Hb; cbn.
  destruct (meta !! pli_ProductID in_) as [pm|]; [|done].
  destruct Hm as (tags & Hc & Ht & Hperm). cbn.
  rewrite !bind_read, Hc by eauto with read_only.
  rewrite bind_read, Ht by eauto with read_only. cbn.
  exact (f_equal (fun r => (Ok r, w)) (price_from_tags b in_ reg tr _ _ _ Hperm)).
Qed.

Lemma newBatch_no_meta s m t w b w' :
  newBatch q s m t w = (Ok b, w') -> b_productMeta b = None /\ b_scopeID b = s /\ b_machineID b = m.
Proof. unfold newBatch. intros Hr. inv_run. done. Qed.

Lemma PriceLine_qty b machineID sel row si qty w :
  PriceLine q b (price_input machineID sel row si (if qty <=? 0 then 1 else qty)) w =
  PriceLine q b (price_input machineID sel row si qty) w.
Proof.
  unfold PriceLine, price_input; cbn [pli_MachineID].
  destruct (negb _ || negb _); [done|].
  unfold bind; cbn. unfold register_price; cbn.
  repeat case_match; try done; simplify_eq; unfold ret, price_from; cbn;
    destruct (Z.leb_spec qty 0); try done; by destruct (Z.leb_spec qty 0); try lia.
Qed.

(** A line evaluated on its own is a line evaluated in the batch. *)
Lemma EvaluateSaleLine_in_batch machineID rows batch ids batch' req at_ w :
  ss_MachineID (esl_Selector req) = machineID ->
  (IsProductInMachinePublishedAssortment _ q (ss_ProductID (esl_Selector req)) machineID w).1
    = Ok true ->
  (ListCurrentMachineSlotConfigsByMachine _ q machineID w).1 = Ok rows ->
  newBatch q uuid_Nil machineID at_ w = (Ok batch, w) ->
  PrefetchProductMeta q batch ids w = (Ok batch', w) \/ batch' = batch ->
  EvaluateSaleLine q (esl_Selector req) at_ (esl_Qty req) w =
  evaluate_request q machineID rows batch' req w.
Proof.
  intros Hm Hpub Hrows Hbatch Hpre. unfold EvaluateSaleLine, evaluate_request.
  rewrite Hm.
  assert (Hen : ensurePublished q machineID (ss_ProductID (esl_Selector req)) w = (Ok tt, w)).
  { unfold ensurePublished. by rewrite bind_read, Hpub by eauto with read_only. }
  rewrite !(bind_Ok _ _ _ _ _ Hen), bind_read, Hrows by eauto with read_only.
  rewrite !bind_read by eauto with read_only. cbn [lift fst].
  destruct (pickSlotRow rows uuid_Nil (esl_Selector req)) as [row|e]; [|done].
  destruct (rowSlotIndex row) as [si|]; [|done].
  rewrite (bind_Ok _ _ _ _ _ Hbatch). unfold bind.
  rewrite PriceLine_qty.
  destruct (newBatch_no_meta _ _ _ _ _ _ Hbatch) as (Hnone & _).
  destruct Hpre as [Hpre| ->]; [|done].
  by rewrite (PriceLine_prefetched _ _ _ _ _ Hpre Hnone).
Qed.

Lemma evaluate_request_read_only machineID rows batch req w :
  (IsProductInMachinePublishedAssortment _ q (ss_ProductID (esl_Selector req)) machineID w).1
    = Ok true ->
  (evaluate_request q machineID rows batch req w).2 = w.
Proof.
  intros Hpub. unfold evaluate_request, ensurePublished.
  rewrite (bind_Ok _ _ w tt w); [|by rewrite bind_read, Hpub by eauto with read_only].
  rewrite bind_read by eauto with read_only. cbn [lift fst].
  destruct (pickSlotRow _ _ _) as [row|e]; [|done].
  destruct (rowSlotIndex row) as [si|]; [|done].
  apply read_only_bind; [|done]. unfold PriceLine.
  destruct (negb _ || negb _); [done|].
  apply read_only_bind; [eauto with read_only|intros].
  apply read_only_bind; [|done].
  unfold productCategoryAndTags. case_match; [done|].
  repeat (apply read_only_bind; [eauto with read_only|intros]). done.
Qed.

Lemma map_each_ext_read {A B} (f g : A -> M W B) l w :
  (forall x, x ∈ l -> f x w = g x w /\ (g x w).2 = w) ->
  map_each f l w = map_each g l w.
Proof.
  induction l as [|x l IH]; intros Hfg; [done|]. cbn.
  destruct (Hfg x ltac:(set_solver)) as [He Hw]. unfold bind at 1 3. rewrite He.
  destruct (g x w) as [[b|e] w']; cbn in Hw; subst; [|done].
  unfold bind. rewrite IH; [done|]. intros y Hy. apply Hfg. set_solver.
Qed.

(** C38: pricing a cart in one batch gives the lines priced one by one *)
Theorem EvaluateSaleLines_one_by_one machineID reqs at_ w rows batch batch' :
  reqs <> [] -> machineID <> uuid_Nil ->
  (forall r, r ∈ reqs -> ss_MachineID (esl_Selector r) = machineID /\
     (IsProductInMachinePublishedAssortment _ q (ss_ProductID (esl_Selector r)) machineID w).1
       = Ok true) ->
  (ListCurrentMachineSlotConfigsByMachine _ q machineID w).1 = Ok rows ->
  newBatch q uuid_Nil machineID at_ w = (Ok batch, w) ->
  PrefetchProductMeta q batch (dedupeUUIDs (map (fun r => ss_ProductID (esl_Selector r)) reqs)) w
    = (Ok batch', w) ->
  EvaluateSaleLines q reqs at_ w =
  map_each (fun r => EvaluateSaleLine q (esl_Selector r) at_ (esl_Qty r)) reqs w.
Proof.
  intros Hne Hmid Hreqs Hrows Hbatch Hpre.
  destruct reqs as [|req0 rest]; [done|]. unfold EvaluateSaleLines.
  destruct (Hreqs req0 ltac:(set_solver)) as [Hm0 _]. rewrite Hm0.
  destruct (N.eqb_spec machineID uuid_Nil) as [|_]; [done|].
  assert (existsb (fun r => negb (N.eqb (ss_MachineID (esl_Selector r)) machineID)) rest = false)
    as ->.
  { apply not_true_iff_false. intros (r & Hr%list_elem_of_In & Hn)%existsb_exists.
    destruct (Hreqs r ltac:(set_solver)) as [E _]. by rewrite E, N.eqb_refl in Hn. }
  rewrite bind_read, Hrows, (bind_Ok _ _ _ _ _ Hbatch) by eauto with read_only.
  set (ids := dedupeUUIDs _) in *.
  assert (Hb : exists b2, (if negb (is_nil ids) then PrefetchProductMeta q batch ids
      else ret batch) w = (Ok b2, w) /\ (PrefetchProductMeta q batch ids w = (Ok b2, w) \/ b2 = batch)).
  { destruct (is_nil ids); [exists batch|exists batch']; cbn; auto. }
  destruct Hb as (b2 & Hb2 & Hor). rewrite (bind_Ok _ _ _ _ _ Hb2).
  symmetry. apply map_each_ext_read. intros r Hr. destruct (Hreqs r Hr) as [Hm Hpub].
  split; [by eapply EvaluateSaleLine_in_batch|by apply evaluate_request_read_only].
Qed.
End Batched.

(** ** Slot selection is unambiguous *)

Lemma pickSlotRow_cases rows sel :
  match PickSlotRowFromInventory rows sel with
  | Ok r => exists l1 l2, rows = l1 ++ r :: l2 /\ matchSlotRow sel r = true /\
              forall x, x ∈ l1 ++ l2 -> matchSlotRow sel x = false
  | Err e =>
      (e = errNoSlotMatch /\ forall x, x ∈ rows -> matchSlotRow sel x = false) \/
      (e = errAmbiguousSlot /\ exists l1 x l2 y l3, rows = l1 ++ x :: l2 ++ y :: l3 /\
         matchSlotRow sel x = true /\ matchSlotRow sel y = true)
  end.
Proof.
  unfold PickSlotRowFromInventory, pickSlotRow; cbn [uuid_Nil N.eqb andb].
  assert (Hnone : forall l, List.filter (matchSlotRow sel) l = [] ->
            forall x, x ∈ l -> matchSlotRow sel x = false).
  { intros l Hl x Hx. apply not_true_iff_false. intros Hm.
    assert (x ∈ List.filter (matchSlotRow sel) l) by (by apply elem_of_filter_bool).
    rewrite Hl in *. set_solver. }
  assert (Hsplit : forall l x k, List.filter (matchSlotRow sel) l = x :: k ->
    exists l1 l2, l = l1 ++ x :: l2 /\ matchSlotRow sel x = true /\
      List.filter (matchSlotRow sel) l1 = [] /\ List.filter (matchSlotRow sel) l2 = k).
  { induction l as [|y l IH]; intros x k; cbn; [done|].
    destruct (matchSlotRow sel y) eqn:Ey.
    - intros [= -> <-]. exists [], l. done.
    - intros Hk. destruct (IH _ _ Hk) as (l1 & l2 & -> & Hx & H1 & H2).
      exists (y :: l1), l2. cbn. rewrite Ey. done. }
  change (fun r => (0 =? 0)%N && matchSlotRow sel r) with (matchSlotRow sel).
  destruct (List.filter (matchSlotRow sel) rows) as [|x [|y k]] eqn:E.
  - left. split; [done|]. by apply Hnone.
  - destruct (Hsplit _ _ _ E) as (l1 & l2 & -> & Hx & H1 & H2).
    exists l1, l2. split; [done|]. split; [done|].
    intros z [Hz|Hz]%elem_of_app; [by apply (Hnone l1)|by apply (Hnone l2)].
  - right. split; [done|].
    destruct (Hsplit _ _ _ E) as (l1 & l2 & -> & Hx & _ & H2).
    destruct (Hsplit _ _ _ H2) as (l3 & l4 & -> & Hy & _ & _).
    by exists l1, x, l3, y, l4.
Qed.

(** ** Fingerprints *)

Lemma SortedKeyFingerprint_perm `{Sha256} prefix l1 l2 :
  l1 ≡ₚ l2 -> SortedKeyFingerprint prefix l1 = SortedKeyFingerprint prefix l2.
Proof.
  intros Hp. pose proof (sort_strings_perm l1 l2 Hp) as Hs.
  unfold SortedKeyFingerprint. rewrite Hs.
  destruct l1, l2; try done; exfalso.
  all: try (symmetry in Hp; by apply Permutation_nil_cons in Hp).
  all: by apply Permutation_nil_cons in Hp.
Qed.

(** ** Witnesses *)

#[local] Existing Instances decimal_uuid decimal_uuid_laws.

(** A stand-in digest: any function does. *)
Definition plain_sha256 : Sha256 := l2s.
#[local] Existing Instance plain_sha256.

Definition promo_half : Promotion := mk_Promotion 11 "half" 5 false 100.
Definition promo_stack : Promotion := mk_Promotion 12 "stack" 5 true 200.
Definition promo_late : Promotion := mk_Promotion 13 "late" 5 false 300.
Definition pct_rule (id pid : N) (pct : Z) : PromotionRule :=
  mk_PromotionRule id pid RulePercentageDiscount (JObj [("percent", JNum pct 0)]).
Definition sample_rules : gmap N (list PromotionRule) :=
  group_append ru_PromotionID id [pct_rule 1 11 50; pct_rule 2 12 10; pct_rule 3 13 20] ∅.

Definition sample_ctx : PromoEvalCtx :=
  NewPromoEvalCtx uuid_Nil (Some 1%N) (Some 2%N) 21 None [].
Definition target_all (pid : N) : PromotionTarget :=
  mk_PromotionTarget pid "product" (Some 21%N) None None None None.
Definition sample_targets : list PromotionTarget := map target_all [11; 12; 13]%N.

Lemma SortPromotions_canonical_witness :
  SortPromotions [promo_stack; promo_late; promo_half] =
  SortPromotions [promo_half; promo_stack; promo_late].
Proof.
  destruct (SortPromotions_canonical (U := decimal_uuid) [promo_stack; promo_late; promo_half]
    [promo_half; promo_stack; promo_late]) as [He _]; [..|exact He].
  - apply NoDup_ListNoDup. repeat constructor; cbn; intuition discriminate.
  - apply (Permutation_app_comm [promo_stack; promo_late] [promo_half]).
Defined.

Lemma evaluate_applied_promotions_witness :
  po_appliedIDs (EvaluatePromotionDiscountForProduct sample_rules sample_targets sample_ctx 1000
    [promo_stack; promo_late; promo_half]) = [13; 12]%N /\
  NoDup (po_appliedIDs (EvaluatePromotionDiscountForProduct sample_rules sample_targets
    sample_ctx 1000 [promo_stack; promo_late; promo_half])).
Proof.
  split; [vm_compute; reflexivity|].
  destruct (evaluate_applied_promotions sample_rules sample_targets sample_ctx 1000
    [promo_stack; promo_late; promo_half]) as (? & _ & _ & Hn); [|exact Hn].
  apply NoDup_ListNoDup. repeat constructor; cbn; intuition discriminate.
Defined.

(** A catalogue of two products, two slots and one promotion, in memory. *)
Definition sample_products : list (N * pgUUID * list N) :=
  [(21%N, Some 7%N, [31%N; 32%N]); (22%N, None, [])].
Definition wanted (ids : list N) : list (N * pgUUID * list N) :=
  List.filter (fun p => existsb (N.eqb p.1.1) ids) sample_products.
Definition product_row {A} (f : N * pgUUID * list N -> A) (p : N) : M unit A :=
  match List.find (fun r => r.1.1 =u p) sample_products with
  | Some r => ret (f r)
  | None => fail (ESentinel "no rows in result set")
  end.
Definition sample_slots : list SlotConfigRow :=
  [mk_SlotConfigRow 41 "A" "A1" (Some 1) (Some 21%N) 1000;
   mk_SlotConfigRow 42 "A" "A2" (Some 2) (Some 22%N) 2500].
Definition sample_queries : PricingQueries unit := {|
  GetOrgDefaultCurrency := ret "usd";
  GetMachineSiteForOrg _ := ret 2%N;
  ListMachineOverridesAt _ _ := ret [mk_OverrideRow 22 2000 "USD"];
  ListPromotionsForPreview _ := ret [promo_half];
  ListRulesForPromotions _ := ret [pct_rule 1 11 50];
  ListTargetsForOrgPromotions := ret [target_all 11];
  GetProductCategory := product_row (fun r => r.1.2);
  ListProductTagIDs p :=
    ret (concat (map snd (List.filter (fun r => r.1.1 =u p) sample_products)));
  GetProductCategories ids := ret (map (fun r => (r.1.1, r.1.2)) (wanted ids));
  ListProductTagIDsForProducts ids :=
    ret (concat (map (fun r => map (fun t => (r.1.1, t)) r.2) (wanted ids)));
  IsProductInMachinePublishedAssortment _ _ := ret true;
  ListCurrentMachineSlotConfigsByMachine _ := ret sample_slots;
  SyncAssortment _ := ret tt |}.

#[export] Instance sample_queries_laws : PricingQueriesLaws sample_queries.
Proof.
  assert (Hex : forall p ids, existsb (N.eqb p) ids = true <-> p ∈ ids).
  { intros p ids. rewrite existsb_exists, list_elem_of_In. split.
    - by intros (x & Hx & ->%N.eqb_eq).
    - intros Hp. exists p. by rewrite N.eqb_refl. }
  constructor; try done.
  - intros p []. cbn. unfold product_row. by destruct (List.find _ _).
  - intros ids [] rows [= <-] p c. cbn -[N.eqb]; unfold wanted, product_row; cbn -[N.eqb].
    pose proof (Hex 21%N ids) as H1. pose proof (Hex 22%N ids) as H2. clear Hex.
    destruct (N.eqb_spec 21 p) as [<-|]; [|destruct (N.eqb_spec 22 p) as [<-|]];
      destruct (existsb (N.eqb 21) ids), (existsb (N.eqb 22) ids); cbn;
      rewrite ?elem_of_cons, ?elem_of_nil; intuition congruence.
  - intros ids [] rows [= <-] p. cbn -[N.eqb]; unfold wanted, product_row; cbn -[N.eqb].
    pose proof (Hex 21%N ids) as H1. pose proof (Hex 22%N ids) as H2. clear Hex.
    destruct (N.eqb_spec 21 p) as [<-|Hn1]; [|destruct (N.eqb_spec 22 p) as [<-|Hn2]];
      destruct (existsb (N.eqb 21) ids), (existsb (N.eqb 22) ids); case_bool_decide;
      cbn -[N.eqb]; rewrite ?(proj2 (N.eqb_neq 21 p)), ?(proj2 (N.eqb_neq 22 p)) by done; cbn;
      try (eexists; split; reflexivity); try done; intuition congruence.
Qed.

Definition sample_batch : Batch :=
  match (newBatch sample_queries uuid_Nil 1 500 tt).1 with
  | Ok b => b
  | Err _ => mk_Batch 0 0 0 0 "" [] ∅ [] ∅ ∅ ∅ None
  end.
Definition sample_input (qty : Z) : PriceLineInput :=
  mk_PriceLineInput 1 21 1000 41 "A" "A1" 1 qty.
Definition sample_price (qty : Z) : LinePriceResult :=
  match (PriceLine sample_queries sample_batch (sample_input qty) tt).1 with
  | Ok r => r
  | Err _ => mk_LinePriceResult 0 0 0 0 0 0 0 "" [] "" "" []
  end.

Lemma PriceLine_amounts_witness :
  lp_DiscountUnitMinor (sample_price 3) = 500 /\ lp_SubtotalMinor (sample_price 3) = 500 * 3 /\
  lp_TotalMinor (sample_price 3) = lp_SubtotalMinor (sample_price 3) + lp_TaxMinor (sample_price 3).
Proof.
  destruct (PriceLine_amounts sample_queries sample_batch (sample_input 3) tt (sample_price 3) tt)
    as (_ & _ & _ & Ht & _ & Hs).
  - vm_compute. reflexivity.
  - unfold register_of. replace (b_overridePrice sample_batch !! _) with (@None Z)
      by (vm_compute; reflexivity). cbn. unfold MaxInt64. lia.
  - split; [vm_compute; reflexivity|]. split; [|exact Ht].
    apply Hs. vm_compute. discriminate.
Defined.

Definition sample_request (product : N) (slot : string) (qty : Z) : EvaluateSaleLineRequest :=
  mk_EvaluateSaleLineRequest (mk_SaleLineSelector 1 product None "A" slot None) qty.
Definition sample_cart : list EvaluateSaleLineRequest :=
  [sample_request 21 "A1" 2; sample_request 22 "A2" 1].

Lemma EvaluateSaleLines_one_by_one_witness :
  EvaluateSaleLines sample_queries sample_cart 500 tt =
    map_each (fun r => EvaluateSaleLine sample_queries (esl_Selector r) 500 (esl_Qty r))
      sample_cart tt /\
  match (EvaluateSaleLines sample_queries sample_cart 500 tt).1 with
  | Ok lines => map (fun l => lp_TotalMinor l.1) lines = [1000; 2000]
  | Err _ => False
  end.
Proof.
  split; [|vm_compute; reflexivity].
  refine (EvaluateSaleLines_one_by_one sample_queries 1 sample_cart 500 tt sample_slots
    sample_batch
    (match (PrefetchProductMeta sample_queries sample_batch [21; 22]%N tt).1 with
     | Ok b => b | Err _ => sample_batch end) _ _ _ _ _ _).
  - discriminate.
  - discriminate.
  - intros r Hr. repeat (apply elem_of_cons in Hr as [->|Hr]; [split; reflexivity|]).
    by apply not_elem_of_nil in Hr.
  - reflexivity.
  - vm_compute. reflexivity.
  - vm_compute. reflexivity.
Defined.

(** A 29% discount of 100 is 28: the product is computed in [float64] and
    truncated. *)
Example percentage_truncates :
  (discountFromRule 100 (pct_rule 1 11 29)).1 = 28.
Proof. vm_compute. reflexivity. Qed.
