(* ===== verification/CommerceTypes.v ===== *)
(** * Commerce data types

    The records of internal/domain/commerce (types.go, ports.go,
    reconciliation.go, vend_evidence.go) and internal/app/commerce (types.go,
    webhook_types.go, financial_correctness.go, offline_sale_pricing.go), and
    the sentinel errors of internal/app/commerce/errors.go.

    Field names carry a short prefix for their record.  Pointers and
    [pgtype] values are options; [jsonb] columns and JSON payloads are
    decoded values. *)

From S2P Require Import Prelude.
From S2P Require Import GoStd.
From S2P Require Import Pricing.
Local Open Scope string_scope.
Local Open Scope list_scope.
Local Open Scope Z_scope.

(** ** Errors (errors.go) *)

Definition ErrNotConfigured : goerr := ESentinel "commerce: dependency not configured".
Definition ErrNotFound : goerr := ESentinel "commerce: not found".
Definition ErrOrgMismatch : goerr := ESentinel "commerce: company mismatch".
Definition ErrIllegalTransition : goerr := ESentinel "commerce: illegal state transition".
Definition ErrPaymentNotSettled : goerr :=
  ESentinel "commerce: payment not in a settled captured state for this operation".
Definition ErrRefundNotAllowed : goerr :=
  ESentinel "commerce: refund not allowed for current payment or order state".
Definition ErrCancelNotAllowed : goerr :=
  ESentinel "commerce: cancel not allowed for current order state".
Definition ErrWebhookIdempotencyConflict : goerr :=
  ESentinel "commerce: webhook idempotency conflict".
Definition ErrWebhookProviderMismatch : goerr :=
  ESentinel "commerce: webhook provider does not match payment provider".
Definition ErrWebhookAmountCurrencyMismatch : goerr :=
  ESentinel "commerce: webhook amount or currency does not match payment".
Definition ErrWebhookAfterTerminalOrder : goerr :=
  ESentinel "commerce: webhook rejected because order or payment is already terminal".
Definition ErrIdempotencyPayloadConflict : goerr :=
  ESentinel "commerce: idempotency key conflict".

(** [errors.Join(ErrInvalidArgument, errors.New(msg))] *)
Definition invalid_arg (msg : string) : goerr := EJoin ErrInvalidArgument (ENew msg).
Definition illegal_transition (msg : string) : goerr := EJoin ErrIllegalTransition (ENew msg).

(** ** Persisted aggregates *)

(** commerce.Order; the same record stands for the row db.Order. *)
Record Order := mk_Order {
  o_ID : N; o_MachineID : N; o_Status : string; o_Currency : string;
  o_SubtotalMinor : Z; o_TaxMinor : Z; o_TotalMinor : Z; o_IdempotencyKey : option string;
  o_Simulated : bool; o_SimulationRunID : option string; o_SimulationScenario : option string;
  o_FakeBill : bool; o_FakeBoard : bool;
  o_WinningPaymentID : option N; o_WinningClaimedAt : option Z;
  o_PricingSource : string; o_MachinePricingRevision : option Z;
  o_MachinePricingSnapshot : option json; o_ServerReferenceTotalMinor : Z;
  o_CreatedAt : Z; o_UpdatedAt : Z }.

(** [commerce.Order{}], what a lookup that failed leaves in its place. *)
Definition zero_order : Order :=
  mk_Order 0 0 "" "" 0 0 0 None false None None false false None None "" None None 0 0 0.

(** commerce.VendSession. *)
Record VendSession := mk_VendSession {
  v_ID : N; v_OrderID : N; v_MachineID : N; v_SlotIndex : Z; v_ProductID : N;
  v_State : string; v_FinalCommandAttemptID : option N; v_Simulated : bool;
  v_SimulationRunID : option string; v_SimulationScenario : option string; v_CreatedAt : Z }.

(** commerce.Payment; the same record stands for the row db.Payment. *)
Record Payment := mk_Payment {
  p_ID : N; p_OrderID : N; p_Provider : string; p_State : string;
  p_AmountMinor : Z; p_Currency : string; p_IdempotencyKey : option string;
  p_ReconciliationStatus : string; p_SettlementStatus : string; p_SettlementBatchID : option N;
  p_Simulated : bool; p_SimulationRunID : option string; p_SimulationScenario : option string;
  p_FakeBill : bool; p_FakeBoard : bool; p_Outcome : string; p_AttemptSeq : Z;
  p_SupersedesPaymentID : option N; p_CreatedAt : Z }.

(** commerce.OutboxEvent, the columns the commerce transactions write and
    the delivery columns the publisher owns. *)
Record OutboxEvent := mk_OutboxEvent {
  ob_ID : N; ob_Topic : string; ob_EventType : string; ob_Payload : json;
  ob_AggregateType : string; ob_AggregateID : N; ob_IdempotencyKey : option string;
  ob_CreatedAt : Z; ob_PublishedAt : option Z;
  ob_PublishAttemptCount : Z; ob_LastPublishError : option string;
  ob_LastPublishAttemptAt : option Z; ob_NextPublishAfter : option Z;
  ob_DeadLetteredAt : option Z; ob_Status : string; ob_LockedBy : option string;
  ob_LockedUntil : option Z; ob_Simulated : bool; ob_SimulationRunID : option string;
  ob_SimulationScenario : option string; ob_UpdatedAt : Z; ob_MaxPublishAttempts : Z }.

(** appcommerce.PaymentAttemptView and RefundRowView. *)
Record PaymentAttemptView := mk_PaymentAttemptView {
  pa_ID : N; pa_PaymentID : N; pa_State : string; pa_CreatedAt : Z }.
Record RefundRowView := mk_RefundRowView {
  rf_ID : N; rf_PaymentID : N; rf_OrderID : N; rf_AmountMinor : Z; rf_Currency : string;
  rf_State : string; rf_Reason : option string; rf_IdempotencyKey : option string;
  rf_Metadata : json; rf_CreatedAt : Z }.

(** ** Hardware evidence (vend_evidence.go) *)

Record HardwareCommandRef := mk_HardwareCommandRef {
  hc_CommandID : string; hc_TxRxDigest : string; hc_RawRef : string }.
Record BillFinalRecord := mk_BillFinalRecord {
  bf_EventID : string; bf_AmountMinor : Z; bf_Currency : string; bf_RawRef : string }.
Record TcnDispenseRecord := mk_TcnDispenseRecord {
  td_Slot : string; td_Result : string; td_Dropped : bool; td_Digest : string;
  td_RawRef : string }.
Record VendHardwareEvidence := mk_VendHardwareEvidence {
  ev_VendAttemptID : N; ev_CorrelationID : N; ev_Command : HardwareCommandRef;
  ev_BillFinal : option BillFinalRecord; ev_TcnDispense : TcnDispenseRecord }.

(** ** Workflow inputs and results (domain ports.go) *)

Record CreateOrderVendInput := mk_CreateOrderVendInput {
  cov_MachineID : N; cov_ProductID : N; cov_SlotIndex : Z; cov_Currency : string;
  cov_SubtotalMinor : Z; cov_TaxMinor : Z; cov_TotalMinor : Z; cov_IdempotencyKey : string;
  cov_OrderStatus : string; cov_VendState : string; cov_Simulated : bool;
  cov_SimulationRunID : string; cov_SimulationScenario : string; cov_FakeBill : bool;
  cov_FakeBoard : bool; cov_PricingSource : string; cov_MachinePricingRevision : option Z;
  cov_MachinePricingSnapshot : option json; cov_OrderID : N; cov_CreatedAt : Z }.
Record CreateOrderVendResult := mk_CreateOrderVendResult {
  cor_Order : Order; cor_Vend : VendSession; cor_Replay : bool }.

Record PaymentOutboxInput := mk_PaymentOutboxInput {
  poi_OrderID : N; poi_Provider : string; poi_PaymentState : string; poi_AmountMinor : Z;
  poi_Currency : string; poi_IdempotencyKey : string; poi_OutboxTopic : string;
  poi_OutboxEventType : string; poi_OutboxPayload : json; poi_OutboxAggregateType : string;
  poi_OutboxAggregateID : N; poi_OutboxIdempotencyKey : string; poi_Simulated : bool;
  poi_SimulationRunID : string; poi_SimulationScenario : string; poi_FakeBill : bool;
  poi_FakeBoard : bool; poi_AttemptSeq : Z; poi_SupersedesPaymentID : option N;
  poi_BindAttemptState : string; poi_BindProviderReference : string; poi_BindPayload : json }.
Record PaymentOutboxResult := mk_PaymentOutboxResult {
  por_Payment : Payment; por_Outbox : OutboxEvent; por_Replay : bool }.

Record ReconciledPaymentTransitionInput := mk_ReconciledPaymentTransitionInput {
  rpt_PaymentID : N; rpt_ToState : string; rpt_Reason : string; rpt_ProviderHint : json;
  rpt_DryRun : bool; rpt_OutboxTopic : string; rpt_OutboxEventType : string;
  rpt_OutboxPayload : option json; rpt_OutboxAggregateType : string;
  rpt_OutboxAggregateID : N; rpt_OutboxIdempotencyKey : string }.

Record ReconciliationCaseInput := mk_ReconciliationCaseInput {
  rci_CaseType : string; rci_Severity : string; rci_OrderID : option N;
  rci_PaymentID : option N; rci_VendSessionID : option N; rci_RefundID : option N;
  rci_MachineID : option N; rci_Provider : option string; rci_ProviderEventID : option N;
  rci_CorrelationKey : string; rci_Reason : string; rci_Metadata : json }.
Record ReconciliationCase := mk_ReconciliationCase {
  rc_ID : N; rc_CaseType : string; rc_Status : string; rc_Severity : string;
  rc_OrderID : option N; rc_PaymentID : option N; rc_VendSessionID : option N;
  rc_RefundID : option N; rc_MachineID : option N; rc_Provider : option string;
  rc_ProviderEventID : option N; rc_CorrelationKey : string; rc_Reason : string;
  rc_Metadata : json; rc_FirstDetectedAt : Z; rc_LastDetectedAt : Z }.

(** ** Pricing snapshots (offline_sale_pricing.go) *)

Record MachinePricingSnapshotLineInput := mk_MachinePricingSnapshotLineInput {
  pl_LineSequence : Z; pl_ProductID : N; pl_CabinetCode : string; pl_SlotCode : string;
  pl_SlotIndex : Z; pl_Quantity : Z; pl_UnitPriceMinor : Z; pl_LineSubtotalMinor : Z;
  pl_PricingSyncState : string }.
Record MachinePricingSnapshotInput := mk_MachinePricingSnapshotInput {
  ps_SubtotalMinor : Z; ps_TaxMinor : Z; ps_TotalMinor : Z; ps_UnitPriceMinor : Z;
  ps_LocalPricingRevision : Z; ps_PricingFingerprint : string; ps_CapturedAt : Z;
  ps_SnapshotID : string; ps_SlotConfigVersion : Z; ps_ServerPricingFingerprint : string;
  ps_Lines : list MachinePricingSnapshotLineInput }.

(** ** Application inputs and results (app types.go) *)

Record CreateOrderInput := mk_CreateOrderInput {
  co_MachineID : N; co_ProductID : N; co_SlotID : option N; co_CabinetCode : string;
  co_SlotCode : string; co_SlotIndex : option Z; co_Currency : string;
  co_SubtotalMinor : Z; co_TaxMinor : Z; co_TotalMinor : Z; co_IdempotencyKey : string;
  co_Simulated : bool; co_SimulationRunID : string; co_SimulationScenario : string;
  co_FakeBill : bool; co_FakeBoard : bool;
  co_PricingSnapshot : option MachinePricingSnapshotInput;
  co_ClientOrderID : N; co_CreatedAt : Z }.
Record CreateOrderResult := mk_CreateOrderResult {
  cr_Base : CreateOrderVendResult; cr_SaleLine : ResolvedSaleLine }.

Record StartPaymentInput := mk_StartPaymentInput {
  sp_OrderID : N; sp_Provider : string; sp_PaymentState : string; sp_AmountMinor : Z;
  sp_Currency : string; sp_IdempotencyKey : string; sp_OutboxTopic : string;
  sp_OutboxEventType : string; sp_OutboxPayload : json; sp_OutboxAggregateType : string;
  sp_OutboxAggregateID : N; sp_OutboxIdempotencyKey : string; sp_Simulated : bool;
  sp_SimulationRunID : string; sp_SimulationScenario : string; sp_FakeBill : bool;
  sp_FakeBoard : bool; sp_AttemptSeq : Z; sp_SupersedesPaymentID : option N;
  sp_BindAttemptState : string; sp_BindProviderReference : string; sp_BindPayload : json;
  sp_SkipOrderLookup : bool }.

Record AdvanceVendInput := mk_AdvanceVendInput {
  av_OrderID : N; av_SlotIndex : Z; av_LineSequence : Z; av_ToState : string;
  av_FailureReason : option string }.

Record FinalizeAfterVendInput := mk_FinalizeAfterVendInput {
  fi_OrderID : N; fi_SlotIndex : Z; fi_LineSequence : Z; fi_TerminalVendState : string;
  fi_FailureReason : option string; fi_InventoryDedupeKey : string;
  fi_ClientWriteIdempotencyKey : string; fi_CorrelationID : option N;
  fi_Evidence : option VendHardwareEvidence; fi_VerificationStatus : string;
  fi_OutboxTopic : string; fi_OutboxEventType : string; fi_OutboxAggregateType : string;
  fi_OutboxIdempotencyKey : string; fi_ReconciliationEventType : string;
  fi_RefundRequired : bool; fi_LocalCashRefundRequired : bool }.

Record FulfillSuccessfulVendInput := mk_FulfillSuccessfulVendInput {
  fs_OrderID : N; fs_SlotIndex : Z; fs_LineSequence : Z; fs_InventoryDedupeKey : string;
  fs_CorrelationID : option N; fs_Evidence : option VendHardwareEvidence;
  fs_VerificationStatus : string; fs_OutboxTopic : string; fs_OutboxEventType : string;
  fs_OutboxAggregateType : string; fs_OutboxIdempotencyKey : string;
  fs_ReconciliationEventType : string }.
Record FulfillSuccessfulVendResult := mk_FulfillSuccessfulVendResult {
  fsr_Order : Order; fsr_Vend : VendSession; fsr_InventoryReplay : bool;
  fsr_OrderVendReplay : bool }.
Record FulfillFailedVendInput := mk_FulfillFailedVendInput {
  ff_OrderID : N; ff_SlotIndex : Z; ff_LineSequence : Z; ff_FailureReason : option string;
  ff_Evidence : option VendHardwareEvidence; ff_VerificationStatus : string;
  ff_OutboxTopic : string; ff_OutboxEventType : string; ff_OutboxAggregateType : string;
  ff_OutboxIdempotencyKey : string; ff_ReconciliationEventType : string;
  ff_RefundRequired : bool; ff_LocalCashRefundRequired : bool }.
Record FulfillFailedVendResult := mk_FulfillFailedVendResult {
  ffr_Order : Order; ffr_Vend : VendSession; ffr_Replay : bool }.

Record UpdateVendSessionParams := mk_UpdateVendSessionParams {
  uv_OrderID : N; uv_SlotIndex : Z; uv_LineSequence : Z; uv_ToState : string;
  uv_FailureReason : option string }.
Record InsertPaymentAttemptParams := mk_InsertPaymentAttemptParams {
  ipa_PaymentID : N; ipa_State : string; ipa_ProviderReference : option string;
  ipa_Payload : json }.
Record FinalizeOutcome := mk_FinalizeOutcome {
  fo_Order : Order; fo_Vend : VendSession; fo_OrderVendReplay : bool;
  fo_InventoryReplay : bool }.
Record RefundEligibilityAssessment := mk_RefundEligibilityAssessment {
  re_Eligible : bool; re_Reason : string; re_PaymentState : string; re_VendState : string }.
Record InsertRefundRowInput := mk_InsertRefundRowInput {
  ir_PaymentID : N; ir_OrderID : N; ir_AmountMinor : Z; ir_Currency : string;
  ir_State : string; ir_Reason : string; ir_IdempotencyKey : string; ir_Metadata : json }.
Record CreateRefundInput := mk_CreateRefundInput {
  cf_OrderID : N; cf_AmountMinor : Z; cf_Currency : string; cf_Reason : string;
  cf_IdempotencyKey : string; cf_Metadata : option json }.

(** ** Provider webhooks (webhook_types.go)

    A payload field is empty, not JSON, or JSON. *)
Inductive rawjson := RawEmpty | RawInvalid | RawJSON (v : json).

Record ApplyPaymentProviderWebhookInput := mk_WebhookInput {
  wh_OrderID : N; wh_PaymentID : N; wh_Provider : string; wh_ProviderReference : string;
  wh_WebhookEventID : string; wh_EventType : string; wh_NormalizedPaymentState : string;
  wh_Payload : rawjson; wh_ProviderAmountMinor : option Z; wh_Currency : option string;
  wh_WebhookValidationStatus : string; wh_ProviderMetadata : rawjson;
  wh_OutboxTopic : string; wh_OutboxEventType : string; wh_OutboxPayload : rawjson;
  wh_OutboxAggregateType : string; wh_OutboxAggregateID : N;
  wh_OutboxIdempotencyKey : string }.
Record PaymentWebhookAppliedEvent := mk_WebhookAppliedEvent {
  wa_OrderID : N; wa_PaymentID : N; wa_Replay : bool; wa_Provider : string;
  wa_WebhookEventID : string; wa_Validation : string; wa_NormalizedPaymentState : string;
  wa_ProviderReference : string; wa_AmountMinor : Z; wa_Currency : string; wa_MachineID : N }.
Record ApplyPaymentProviderWebhookResult := mk_WebhookResult {
  wr_Replay : bool; wr_Order : Order; wr_Payment : Payment;
  wr_Attempt : option PaymentAttemptView; wr_ProviderRowID : N }.
Record CheckoutStatusView := mk_CheckoutStatusView {
  cs_Order : Order; cs_Vend : option VendSession; cs_Payment : option Payment }.

(** ** Cash evidence (financial_correctness.go) *)

Record CashAcceptanceEventInput := mk_CashAcceptanceEventInput {
  cae_DeviceEventID : string; cae_DenominationMinor : Z; cae_CreditSource : string;
  cae_AcceptedAt : Z; cae_BootID : string; cae_RawMetadata : json }.
Record RecordCashAcceptanceEventsInput := mk_RecordCashAcceptanceEventsInput {
  rca_MachineID : N; rca_OrderID : N; rca_Currency : string;
  rca_Events : list CashAcceptanceEventInput }.
Record RecordCashAllocationInput := mk_RecordCashAllocationInput {
  ral_OrderID : N; ral_PaymentID : N; ral_MachineID : N; ral_AmountMinor : Z;
  ral_PreOrderCreditMinor : Z; ral_PostOrderInsertedMinor : Z; ral_ConsentSource : string;
  ral_ConsentedAt : option Z; ral_Currency : string; ral_IdempotencyKey : string }.
Record RecordCashChangeEventInput := mk_RecordCashChangeEventInput {
  rcc_OrderID : N; rcc_PaymentID : N; rcc_MachineID : N; rcc_ChangeDueMinor : Z;
  rcc_ChangeDispensedMinor : Z; rcc_Outcome : string; rcc_LiabilityMinor : Z;
  rcc_Currency : string; rcc_IdempotencyKey : string }.
Record CashAllocationView := mk_CashAllocationView {
  cav_ID : N; cav_OrderID : N; cav_AmountMinor : Z; cav_PreOrderCreditMinor : Z;
  cav_PostOrderInsertedMinor : Z; cav_ConsentSource : string }.
Record CashChangeEventView := mk_CashChangeEventView {
  ccv_ID : N; ccv_ChangeDueMinor : Z; ccv_ChangeDispensedMinor : Z; ccv_Outcome : string;
  ccv_LiabilityMinor : Z }.
Record CashAcceptanceEventView := mk_CashAcceptanceEventView {
  cev_DeviceEventID : string; cev_DenominationMinor : Z; cev_CreditSource : string;
  cev_AcceptedAt : Z }.
Record LedgerEntryInput := mk_LedgerEntryInput {
  le_MachineID : option N; le_OrderID : option N; le_PaymentID : option N;
  le_EntryType : string; le_SignedAmountMinor : Z; le_Currency : string;
  le_OccurredAt : Z; le_Metadata : json }.
Record PaymentMoneyView := mk_PaymentMoneyView {
  pmv_Payment : Payment; pmv_IsWinner : bool; pmv_IsLosingCapture : bool }.
Record OrderMoneyView := mk_OrderMoneyView {
  om_OrderID : N; om_WinningPaymentID : option N; om_Payments : list PaymentMoneyView;
  om_CashAllocation : option CashAllocationView; om_CashChange : option CashChangeEventView;
  om_AcceptanceEvents : list CashAcceptanceEventView; om_OutstandingLiability : Z }.
Record ConfirmCashPaymentInput := mk_ConfirmCashPaymentInput {
  cc_OrderID : N; cc_MachineID : N; cc_IdempotencyKey : string; cc_GrossAcceptedMinor : Z;
  cc_AllocatedMinor : Z; cc_PreOrderCreditMinor : Z; cc_PostOrderInsertedMinor : Z;
  cc_ChangeDueMinor : Z; cc_ChangeDispensedMinor : Z; cc_ChangeOutcome : string;
  cc_ConsentSource : string; cc_ConsentedAt : option Z; cc_Currency : string;
  cc_AcceptanceEvents : list CashAcceptanceEventInput; cc_Simulated : bool;
  cc_SimulationRunID : string; cc_SimulationScenario : string; cc_FakeBill : bool;
  cc_FakeBoard : bool; cc_OutboxTopic : string; cc_OutboxEventType : string;
  cc_OutboxAggregateType : string }.
Record ConfirmCashPaymentResult := mk_ConfirmCashPaymentResult {
  ccr_Replay : bool; ccr_Payment : Payment; ccr_Order : Order;
  ccr_Allocation : option CashAllocationView; ccr_ChangeEvent : option CashChangeEventView }.
Record CancelPaymentSessionInput := mk_CancelPaymentSessionInput {
  cps_OrderID : N; cps_MachineID : N; cps_IdempotencyKey : string; cps_Reason : string;
  cps_PaymentID : option N }.
Record CancelPaymentSessionResult := mk_CancelPaymentSessionResult {
  cpr_Order : Order; cpr_Payment : option Payment }.
Record ArbitrationResult := mk_ArbitrationResult {
  ar_Won : bool; ar_Order : Order; ar_ExistingWinner : option N }.
Record PaymentStatusView := mk_PaymentStatusView {
  psv_OrderID : N; psv_Payment : Payment; psv_Outcome : string; psv_IsWinningPayment : bool;
  psv_PaymentDiagnostic : string }.

(** ** Audit and principals *)

(** compliance.EnterpriseAuditRecord, the fields the program sets here. *)
Record AuditRecord := mk_AuditRecord {
  aud_ActorType : string; aud_ActorID : option string; aud_Action : string; aud_ResourceType : string;
  aud_ResourceID : string; aud_MachineID : option N; aud_Metadata : json; aud_Outcome : string }.

(** ** What is asked of a provider about a payment, and its answer *)

Record PaymentProviderLookup := mk_PaymentProviderLookup {
  ppl_Provider : string; ppl_PaymentID : N; ppl_OrderID : N; ppl_ProviderReference : string;
  ppl_AmountMinor : Z; ppl_MachineExternalCode : string; ppl_AttemptPayloadJSON : option json }.
Record PaymentStatusSnapshot := mk_PaymentStatusSnapshot {
  pss_NormalizedState : string; pss_ProviderHint : json }.

(** platform/auth Principal, the claims commerce reads. *)
Record Principal := mk_Principal { pri_Roles : list string; pri_MachineIDs : list N }.
Definition RoleMachine : string := "machine".
Definition HasRole (p : Principal) (want : string) : bool :=
  existsb (fun r => EqualFold (TrimSpace r) (TrimSpace want)) (pri_Roles p).
Definition AllowsMachine (p : Principal) (machineID : N) : bool :=
  if machineID =u uuid_Nil then false else existsb (N.eqb machineID) (pri_MachineIDs p).
