(* ===== verification/Sanitize.v ===== *)
(** * Redaction of stored payloads

    internal/domain/compliance/sanitize.go: [SanitizeJSONBytes] and its
    helpers.  A Go [map[string]any] decoded from an object keeps the last
    value of a repeated key and is marshalled with its keys sorted
    ([go_map]).  What a card number is, and what a clean value is, is said
    without the code: a maximal run of digits, spaces and dashes with 13 to 19
    digits whose Luhn total ends in zero.  The code replaces exactly these runs;
    a sanitised object or array is clean, and a clean one is left as it is. *)

From S2P Require Import Prelude.
From S2P Require Import GoStd.
From S2P Require Import Pricing.
From S2P Require Import CommerceTypes.
Local Open Scope string_scope.
Local Open Scope list_scope.
Local Open Scope Z_scope.

Definition sensitiveKeySubstrings : list string :=
  ["password"; "secret"; "token"; "authorization"; "refresh"; "accesskey"; "apikey"; "api_key";
   "webhook"; "hmac"; "pan"; "card"; "cvv"; "cvc"; "expiry"; "exp_month"; "exp_year";
   "security_code"; "account_number"; "iban"].

Definition keyLooksSensitive (k : string) : bool :=
  existsb (fun s => Contains k s) sensitiveKeySubstrings.
Arguments keyLooksSensitive : simpl never.
#[local] Arguments ToLower : simpl never.

Definition redacted : string := "[REDACTED]".

(** The Luhn sum of [digits] read from the last digit. *)
Fixpoint luhn_sum (double : bool) (rev_digits : list ascii) : option Z :=
  match rev_digits with
  | [] => Some 0
  | c :: l =>
      if negb (is_digit c) then None
      else
        let n := Z.of_N (N_of_ascii c) - 48 in
        let n := if double then (if 9 <? n * 2 then n * 2 - 9 else n * 2) else n in
        sum ← luhn_sum (negb double) l; Some (n + sum)
  end.
Definition luhnValid (digits : list ascii) : bool :=
  match luhn_sum false (rev digits) with
  | Some sum => (0 <? sum) && (Z.rem sum 10 =? 0)
  | None => false
  end.

(** A byte of the class [[\d -]]. *)
Definition run_char (c : ascii) : bool :=
  is_digit c || Ascii.eqb c " "%char || Ascii.eqb c "-"%char.

(** The replacement of one match of the pattern. *)
Definition redact_candidate (candidate : list ascii) : list ascii :=
  let digits := List.filter is_digit candidate in
  let n := Z.of_nat (length digits) in
  if (n <? 13) || (19 <? n) || negb (luhnValid digits) then candidate else s2l redacted.

Fixpoint drop_nondigits (l : list ascii) : list ascii :=
  match l with
  | [] => []
  | c :: l' => if is_digit c then l else drop_nondigits l'
  end.
Fixpoint take_nondigits (l : list ascii) : list ascii :=
  match l with
  | [] => []
  | c :: l' => if is_digit c then [] else c :: take_nondigits l'
  end.

(** [acc] is, reversed, a maximal run of digits, spaces and dashes that
    starts with a digit.  The pattern [\d[\d -]{11,}\d] matches it up to its
    last digit if that is at least thirteen bytes, and nothing in it
    otherwise. *)
Definition flush_run (acc : list ascii) : list ascii :=
  let core := rev (drop_nondigits acc) in
  (if 13 <=? Z.of_nat (length core) then redact_candidate core else core)
  ++ rev (take_nondigits acc).

Fixpoint redact_from (acc l : list ascii) : list ascii :=
  match l with
  | [] => flush_run acc
  | c :: l =>
      match acc with
      | [] => if is_digit c then redact_from [c] l else c :: redact_from [] l
      | _ => if run_char c then redact_from (c :: acc) l
             else flush_run acc ++ c :: redact_from [] l
      end
  end.
Definition redactSensitiveString (s : string) : string := l2s (redact_from [] (s2l s)).

(** A decoded object, marshalled again. *)
Fixpoint map_put (k : string) (v : json) (m : list (string * json)) : list (string * json) :=
  match m with
  | [] => [(k, v)]
  | (k', v') :: m' =>
      if String.eqb k k' then (k, v) :: m'
      else if string_lt k k' then (k, v) :: m
      else (k', v') :: map_put k v m'
  end.
Definition go_map (fields : list (string * json)) : list (string * json) :=
  foldl (fun m kv => map_put kv.1 kv.2 m) [] fields.

(** A value inside an object or an array: a string is redacted, anything else
    is sanitised. *)
Fixpoint sanitize_slot (v : json) : json :=
  match v with
  | JStr s => JStr (redactSensitiveString s)
  | JObj fields =>
      JObj (go_map (map (fun kv =>
        (kv.1, if keyLooksSensitive (ToLower kv.1) then JStr redacted else sanitize_slot kv.2))
        fields))
  | JArr l => JArr (map sanitize_slot l)
  | _ => v
  end.
(** A string that is the whole payload is left alone. *)
Definition sanitizeValue (v : json) : json :=
  match v with JStr _ => v | _ => sanitize_slot v end.

Definition SanitizeJSONBytes (b : rawjson) : json :=
  match b with
  | RawEmpty => JObj []
  | RawInvalid => JObj [("_sanitize_error", JStr "non_json_payload")]
  | RawJSON v => sanitizeValue v
  end.

(** ** Redaction is idempotent *)

Lemma nondigits_app acc : rev acc = rev (drop_nondigits acc) ++ rev (take_nondigits acc).
Proof.
  induction acc as [|c acc IH]; [done|]. cbn.
  destruct (is_digit c); cbn; [by rewrite app_nil_r|]. by rewrite IH, app_assoc.
Qed.

Lemma take_nondigits_spec acc c : c ∈ take_nondigits acc -> is_digit c = false.
Proof.
  induction acc as [|d acc IH]; cbn; [set_solver|].
  destruct (is_digit d) eqn:E; [set_solver|].
  intros [->|Hc]%elem_of_cons; [done|auto].
Qed.

(** Bytes that are not digits pass through. *)
Lemma redact_pass p l :
  (forall c, c ∈ p -> is_digit c = false) -> redact_from [] (p ++ l) = p ++ redact_from [] l.
Proof.
  induction p as [|c p IH]; intros Hp; [done|]. cbn.
  rewrite (Hp c) by set_solver. rewrite IH; set_solver.
Qed.

(** A run is collected whole. *)
Lemma redact_run r acc l :
  acc <> [] -> forallb run_char r = true -> redact_from acc (r ++ l) = redact_from (rev r ++ acc) l.
Proof.
  revert acc. induction r as [|c r IH]; intros acc Ha Hr; [done|].
  cbn in *. apply andb_true_iff in Hr as [Hc Hr]. destruct acc as [|a acc]; [done|].
  rewrite Hc, IH by done. by rewrite <- app_assoc.
Qed.

(** A run in progress: it starts with a digit. *)
Definition run_state (acc : list ascii) : Prop :=
  exists d r, acc = rev r ++ [d] /\ is_digit d = true /\ forallb run_char r = true.

Lemma run_state_cons c acc : run_state acc -> run_char c = true -> run_state (c :: acc).
Proof.
  intros (d & r & -> & Hd & Hr) Hc. exists d, (r ++ [c]).
  rewrite rev_app_distr, forallb_app, Hr. cbn. by rewrite Hc.
Qed.

Lemma run_state_start c : is_digit c = true -> run_state [c].
Proof. intros Hc. by exists c, []. Qed.

Lemma redact_restart acc l : run_state acc -> redact_from [] (rev acc ++ l) = redact_from acc l.
Proof.
  intros (d & r & -> & Hd & Hr). rewrite rev_app_distr, rev_involutive. cbn.
  rewrite Hd. by rewrite redact_run.
Qed.

(** What a closed run turns into is left alone. *)
Lemma redact_flushed acc l :
  run_state acc -> redact_from [] l = l -> redact_from acc l = flush_run acc ++ l ->
  redact_from [] (flush_run acc ++ l) = flush_run acc ++ l.
Proof.
  intros Hacc Hl Hclosed.
  assert (Hkeep : flush_run acc = rev acc \/
     flush_run acc = s2l redacted ++ rev (take_nondigits acc)).
  { unfold flush_run, redact_candidate. rewrite (nondigits_app acc).
    destruct (13 <=? _); [|by left]. destruct (_ || _ || _); [by left|by right]. }
  destruct Hkeep as [E|E].
  - rewrite E at 1. by rewrite redact_restart.
  - rewrite E, redact_pass; [by rewrite Hl|].
    intros c [Hc|Hc]%elem_of_app.
    + unfold redacted in Hc. cbn in Hc.
      repeat (apply elem_of_cons in Hc as [->|Hc]; [reflexivity|]). by apply not_elem_of_nil in Hc.
    + eapply take_nondigits_spec. rewrite list_elem_of_In in *. by apply in_rev.
Qed.

Lemma redact_from_idemp l : forall acc, acc = [] \/ run_state acc ->
  redact_from [] (redact_from acc l) = redact_from acc l.
Proof.
  induction l as [|c l IH]; intros acc Hacc.
  - destruct Hacc as [->|Hacc]; [done|]. cbn.
    rewrite <- (app_nil_r (flush_run acc)). apply redact_flushed; [done..|].
    cbn. by rewrite app_nil_r.
  - destruct Hacc as [->|Hacc]; cbn.
    + destruct (is_digit c) eqn:Hc; [apply IH; right; by apply run_state_start|].
      cbn. rewrite Hc. by rewrite IH by (by left).
    + destruct acc as [|a acc].
      { destruct Hacc as (d & r & E & _). by destruct (rev r). }
      destruct (run_char c) eqn:Hc; [apply IH; right; by apply run_state_cons|].
      assert (Hd : is_digit c = false).
      { unfold run_char in Hc. by destruct (is_digit c). }
      assert (Hrest : redact_from [] (c :: redact_from [] l) = c :: redact_from [] l).
      { cbn. rewrite Hd. by rewrite IH by (by left). }
      apply redact_flushed; [done|done|]. cbn. rewrite Hc.
      by rewrite IH by (by left).
Qed.

Lemma redact_idemp s : redactSensitiveString (redactSensitiveString s) = redactSensitiveString s.
Proof.
  unfold redactSensitiveString. rewrite s2l_l2s. by rewrite redact_from_idemp by (by left).
Qed.

(** ** Card numbers *)

Definition separator (c : ascii) : bool := Ascii.eqb c " "%char || Ascii.eqb c "-"%char.
Definition digit_value (c : ascii) : Z := Z.of_N (N_of_ascii c) - 48.
(** Every second digit from the right counts the digits of its double. *)
Definition luhn_weight (i : nat) (c : ascii) : Z :=
  if Nat.even i then digit_value c else (2 * digit_value c) / 10 + (2 * digit_value c) mod 10.
Definition luhn_total (digits : list ascii) : Z := foldr Z.add 0 (imap luhn_weight (rev digits)).
(** A digit comes next, spaces and dashes aside. *)
Fixpoint digit_next (l : list ascii) : bool :=
  match l with c :: l => is_digit c || separator c && digit_next l | [] => false end.
(** The part [card] of a text is a card number: digits, spaces and dashes from a
    digit to a digit, that no digit before or after prolongs, with 13 to 19
    digits, not all zero, whose Luhn total ends in zero. *)
Record card_number (before card after : list ascii) : Prop := mk_card_number {
  cn_chars : forall c, c ∈ card -> is_digit c = true \/ separator c = true;
  cn_first : exists c l, card = c :: l /\ is_digit c = true;
  cn_last : exists c l, card = l ++ [c] /\ is_digit c = true;
  cn_before : digit_next (rev before) = false;
  cn_after : digit_next after = false;
  cn_digits : 13 <= Z.of_nat (length (List.filter is_digit card)) <= 19;
  cn_luhn : 0 < luhn_total (List.filter is_digit card) /\ (10 | luhn_total (List.filter is_digit card)) }.
Definition holds_card (s : string) : Prop :=
  exists before card after, s2l s = before ++ card ++ after /\ card_number before card after.

Lemma digit_range c : is_digit c = true -> 0 <= digit_value c <= 9.
Proof. unfold is_digit, digit_value. intros [?%N.leb_le ?%N.leb_le]%andb_true_iff. lia. Qed.
Lemma digit_separator c : is_digit c = true -> separator c = false.
Proof.
  unfold separator. intros Hc. apply orb_false_iff. split; apply Ascii.eqb_neq; intros ->; discriminate.
Qed.
Lemma run_char_spec c : run_char c = is_digit c || separator c.
Proof. unfold run_char, separator. by rewrite orb_assoc. Qed.
(** The sum of the code is the Luhn total. *)
Lemma luhn_sum_total l k :
  forallb is_digit l = true ->
  luhn_sum (negb (Nat.even k)) l = Some (foldr Z.add 0 (imap (fun i => luhn_weight (k + i)) l)).
Proof.
  revert k. induction l as [|c l IH]; intros k Hl; [done|].
  cbn [forallb] in Hl. apply andb_true_iff in Hl as [Hc Hl]. cbn [luhn_sum imap foldr]. rewrite Hc. cbn [negb].
  specialize (IH (S k) Hl). rewrite Nat.even_succ, <- Nat.negb_even in IH. rewrite IH. cbn [mbind option_bind].
  rewrite Nat.add_0_r. apply digit_range in Hc. fold (digit_value c). f_equal. f_equal.
  - unfold luhn_weight. destruct (Nat.even k); cbn [negb]; [done|].
    destruct (Z.ltb_spec 9 (digit_value c * 2)); Z.to_euclidean_division_equations; lia.
  - f_equal. apply imap_ext. intros i x _. unfold compose. by replace (S k + i)%nat with (k + S i)%nat by lia.
Qed.
Lemma luhnValid_spec digits :
  forallb is_digit digits = true ->
  luhnValid digits = true <-> 0 < luhn_total digits /\ (10 | luhn_total digits).
Proof.
  intros Hd. unfold luhnValid, luhn_total.
  assert (E : luhn_sum false (rev digits) = Some (foldr Z.add 0 (imap luhn_weight (rev digits)))).
  { apply (luhn_sum_total (rev digits) 0). apply forallb_forall. rewrite forallb_forall in Hd.
    intros c Hc. by apply Hd, in_rev. }
  rewrite E, andb_true_iff, Z.ltb_lt, Z.eqb_eq. split; intros [H0 H]; (split; [done|]).
  - by apply Z.rem_divide.
  - by apply Z.rem_divide in H.
Qed.
Lemma filter_digits l : forallb is_digit (List.filter is_digit l) = true.
Proof. apply forallb_forall. by intros c [_ Hc]%filter_In. Qed.
Lemma filter_length_le_all {A} (p : A -> bool) l : (length (List.filter p l) <= length l)%nat.
Proof. induction l as [|a l IH]; cbn; [lia|]. destruct (p a); cbn; lia. Qed.
(** One match of the pattern is replaced when its digits are those of a card. *)
Lemma redact_candidate_spec card :
  let digits := List.filter is_digit card in
  13 <= Z.of_nat (length digits) <= 19 /\ 0 < luhn_total digits /\ (10 | luhn_total digits) /\
    redact_candidate card = s2l redacted \/
  ~ (13 <= Z.of_nat (length digits) <= 19 /\ 0 < luhn_total digits /\ (10 | luhn_total digits)) /\
    redact_candidate card = card.
Proof.
  cbn zeta. unfold redact_candidate. pose proof (luhnValid_spec _ (filter_digits card)) as Hv.
  destruct (Z.ltb_spec (Z.of_nat (length (List.filter is_digit card))) 13); [right; split; [lia|done]|].
  destruct (Z.ltb_spec 19 (Z.of_nat (length (List.filter is_digit card)))); [right; split; [lia|done]|]. cbn [orb].
  destruct (luhnValid _); cbn [negb].
  - left. destruct (proj1 Hv eq_refl). split_and!; try done; lia.
  - right. split; [|done]. intros (_ & Hl). by apply Hv in Hl.
Qed.

(** ** Exactly the card numbers are replaced *)

Lemma digit_next_app a b : digit_next a = true -> digit_next (a ++ b) = true.
Proof.
  induction a as [|c a IH]; [done|]. cbn. intros [->|[-> Ha]%andb_true_iff]%orb_true_iff; [done|].
  rewrite IH by done. apply orb_true_r.
Qed.
Lemma run_state_digit acc : run_state acc -> digit_next acc = true.
Proof.
  intros (d & r & -> & Hd & Hr). rewrite forallb_forall in Hr.
  assert (Hr' : forall c, In c (rev r) -> run_char c = true) by (intros c Hc; apply Hr; by apply in_rev).
  induction (rev r) as [|c l IH]; cbn; [by rewrite Hd|].
  rewrite IH by (intros; apply Hr'; by right). rewrite andb_true_r, <- run_char_spec. apply Hr'. by left.
Qed.
Lemma run_state_cases acc : acc = [] \/ run_state acc -> digit_next acc = false -> acc = [].
Proof. intros [?|Hr%run_state_digit] Hn; [done|congruence]. Qed.
(** Where no number is cut, the parts of a text are redacted one by one. *)
Lemma redact_split p l : forall acc, acc = [] \/ run_state acc -> digit_next (rev p ++ acc) = false ->
  redact_from acc (p ++ l) = redact_from acc p ++ redact_from [] l.
Proof.
  induction p as [|c p IH]; intros acc Hacc Hn.
  { cbn in Hn. by rewrite (run_state_cases acc). }
  cbn [rev] in Hn. rewrite <- app_assoc in Hn. cbn [app] in Hn |- *.
  assert (Hempty : digit_next (rev p ++ []) = false).
  { apply not_true_is_false. rewrite app_nil_r. intros Ht. by rewrite (digit_next_app _ (c :: acc) Ht) in Hn. }
  destruct acc as [|a acc]; cbn [redact_from].
  - destruct (is_digit c) eqn:Hc; [apply IH; [right; by apply run_state_start|done]|].
    cbn [app]. f_equal. apply IH; [by left|done].
  - destruct (run_char c) eqn:Hc.
    + apply IH; [|done]. right. destruct Hacc; [done|]. by apply run_state_cons.
    + rewrite <- app_assoc. cbn [app]. do 2 f_equal. apply IH; [by left|done].
Qed.
(** A run ends where no digit prolongs it. *)
Lemma flush_nondigit c acc : is_digit c = false -> flush_run (c :: acc) = flush_run acc ++ [c].
Proof. intros Hc. unfold flush_run. cbn. rewrite Hc. cbn. by rewrite app_assoc. Qed.
Lemma redact_closed l : forall acc, run_state acc -> digit_next l = false ->
  redact_from acc l = flush_run acc ++ redact_from [] l.
Proof.
  induction l as [|c l IH]; intros acc Hacc Hn; [cbn; by rewrite app_nil_r|].
  cbn [digit_next] in Hn. apply orb_false_iff in Hn as [Hc Hn].
  assert (Hne : acc <> []) by (intros ->; by apply run_state_digit in Hacc).
  cbn [redact_from]. rewrite Hc. destruct acc as [|a acc]; [done|]. rewrite run_char_spec, Hc. cbn [orb].
  destruct (separator c) eqn:Hs; [|done]. rewrite IH, flush_nondigit, <- app_assoc; try done.
  apply run_state_cons; [done|]. by rewrite run_char_spec, Hs, orb_true_r.
Qed.
Lemma redact_card before card after : card_number before card after ->
  redact_from [] (before ++ card ++ after) = redact_from [] before ++ s2l redacted ++ redact_from [] after.
Proof.
  intros [Hch (d & l & El & Hd) (e & k & Ek & He) Hb Ha Hdig Hluhn].
  rewrite redact_split by (rewrite ?app_nil_r; auto). f_equal.
  assert (Hrun : forallb run_char l = true).
  { apply forallb_forall. intros c Hc. rewrite run_char_spec. apply orb_true_iff, Hch. rewrite El.
    right. by apply list_elem_of_In. }
  assert (Estart : redact_from [] (card ++ after) = redact_from (rev card) after).
  { rewrite El. cbn [app redact_from rev]. rewrite Hd. by apply redact_run. }
  rewrite Estart, redact_closed by (try done; exists d, l; by rewrite El). f_equal.
  rewrite Ek, rev_unit. unfold flush_run. cbn [drop_nondigits take_nondigits]. rewrite He. cbn [rev].
  rewrite app_nil_r, rev_involutive, <- Ek.
  pose proof (filter_length_le_all is_digit card). rewrite (proj2 (Z.leb_le _ _)) by lia.
  destruct (redact_candidate_spec card) as [(_ & _ & _ & E)|[Hn _]]; [exact E|]. exfalso. tauto.
Qed.

Lemma drop_last acc : run_state acc -> exists c l, drop_nondigits acc = c :: l /\ is_digit c = true.
Proof.
  intros Hr%run_state_digit. induction acc as [|c acc IH]; [done|]. cbn in *.
  destruct (is_digit c) eqn:E; [by exists c, acc|]. cbn in Hr. apply andb_true_iff in Hr as [_ Hr]. auto.
Qed.
Lemma drop_first r d : is_digit d = true -> exists k, drop_nondigits (r ++ [d]) = k ++ [d].
Proof.
  intros Hd. induction r as [|c r IH]; cbn; [rewrite Hd; by exists []|].
  destruct (is_digit c); [by exists (c :: r)|done].
Qed.
Lemma separators_then l k :
  (forall c, c ∈ l -> is_digit c = false) -> digit_next k = false -> digit_next (l ++ k) = false.
Proof.
  intros Hl Hk. induction l as [|c l IH]; [done|]. cbn. rewrite (Hl c), IH by set_solver. apply andb_false_r.
Qed.
Lemma flush_run_spec before acc after :
  run_state acc -> digit_next (rev before) = false -> digit_next after = false ->
  flush_run acc = rev acc \/
  card_number before (rev (drop_nondigits acc)) (rev (take_nondigits acc) ++ after).
Proof.
  intros Hacc Hb Ha. unfold flush_run.
  destruct (13 <=? _); [|left; by rewrite (nondigits_app acc)].
  destruct (redact_candidate_spec (rev (drop_nondigits acc))) as [(Hn & Hp & H10 & _)|[_ E]];
    [right|left; by rewrite E, (nondigits_app acc)].
  split; try done.
  - intros c Hc. apply orb_true_iff. rewrite <- run_char_spec. destruct Hacc as (d & r & E & Hd & Hr).
    assert (Hin : c ∈ rev acc) by (rewrite nondigits_app; apply elem_of_app; by left).
    rewrite E, rev_app_distr, rev_involutive in Hin. apply elem_of_cons in Hin as [->|Hin].
    + by rewrite run_char_spec, Hd.
    + rewrite forallb_forall in Hr. by apply Hr, list_elem_of_In.
  - destruct Hacc as (d & r & -> & Hd & Hr). destruct (drop_first (rev r) d Hd) as [k ->].
    exists d, (rev k). by rewrite rev_app_distr.
  - destruct (drop_last acc Hacc) as (c & l & -> & Hc). by exists c, (rev l).
  - apply separators_then; [|done]. intros c Hc. apply (take_nondigits_spec acc).
    rewrite list_elem_of_In in *. by apply in_rev.
Qed.
(** What is changed holds a card number. *)
Lemma redact_changed l : forall acc before, acc = [] \/ run_state acc -> digit_next (rev before) = false ->
  redact_from acc l = rev acc ++ l \/
  exists b card a, before ++ rev acc ++ l = b ++ card ++ a /\ card_number b card a.
Proof.
  assert (Hflush : forall acc before after, run_state acc -> digit_next (rev before) = false ->
    digit_next after = false -> flush_run acc = rev acc \/
    exists b card a, before ++ rev acc ++ after = b ++ card ++ a /\ card_number b card a).
  { intros acc before after Hacc Hb Ha. destruct (flush_run_spec before acc after) as [?|Hcard]; [done..|by left|].
    right. do 3 eexists. split; [|exact Hcard]. by rewrite (nondigits_app acc), <- app_assoc. }
  induction l as [|c l IH]; intros acc before Hacc Hb.
  - destruct Hacc as [->|Hacc]; [by left|]. cbn. destruct (Hflush acc before []) as [E|?]; [done..| |by right].
    left. by rewrite E, app_nil_r.
  - destruct acc as [|a acc]; cbn [redact_from].
    + destruct (is_digit c) eqn:Hc.
      { apply (IH [c] before); [right; by apply run_state_start|done]. }
      destruct (IH [] (before ++ [c])) as [E|Hcard]; [by left| |left; by rewrite E|right].
      { rewrite rev_app_distr. cbn. rewrite Hc, Hb. apply andb_false_r. }
      replace (before ++ rev [] ++ c :: l) with ((before ++ [c]) ++ rev [] ++ l); [exact Hcard|].
      by rewrite <- app_assoc.
    + destruct Hacc as [|Hacc]; [done|]. destruct (run_char c) eqn:Hc.
      { destruct (IH (c :: a :: acc) before) as [E|Hcard]; [right; by apply run_state_cons|done|left|right].
        - rewrite E. cbn [rev]. by rewrite <- !app_assoc.
        - replace (rev (a :: acc) ++ c :: l) with (rev (c :: a :: acc) ++ l); [exact Hcard|].
          cbn [rev]. by rewrite <- !app_assoc. }
      rewrite run_char_spec in Hc. apply orb_false_iff in Hc as [Hc Hs].
      destruct (Hflush (a :: acc) before (c :: l)) as [E|?]; [done|done|cbn; by rewrite Hc, Hs| |by right].
      destruct (IH [] (before ++ rev (a :: acc) ++ [c])) as [E'|Hcard]; [by left| | |right].
      * rewrite !rev_app_distr. cbn [rev app digit_next]. by rewrite Hc, Hs.
      * left. by rewrite E, E'.
      * replace (before ++ rev (a :: acc) ++ c :: l) with ((before ++ rev (a :: acc) ++ [c]) ++ rev [] ++ l);
          [exact Hcard|]. cbn [rev]. by rewrite <- !app_assoc.
Qed.
Lemma redact_without_card s : ~ holds_card s -> redactSensitiveString s = s.
Proof.
  intros Hn. unfold redactSensitiveString. destruct (redact_changed (s2l s) [] []) as [E|(b & card & a & E & Hc)];
    [by left|done|rewrite E; apply l2s_s2l|]. destruct Hn. by exists b, card, a.
Qed.
Lemma flush_length acc : (length (flush_run acc) <= length acc)%nat.
Proof.
  unfold flush_run. rewrite <- (length_rev acc), (nondigits_app acc), !length_app.
  destruct (Z.leb_spec 13 (Z.of_nat (length (rev (drop_nondigits acc))))); [|lia].
  unfold redact_candidate. destruct (_ || _ || _); [lia|]. change (length (s2l redacted)) with 10%nat. lia.
Qed.
Lemma redact_length l : forall acc, (length (redact_from acc l) <= length acc + length l)%nat.
Proof.
  induction l as [|c l IH]; intros acc; cbn [redact_from length]; [pose proof (flush_length acc); lia|].
  destruct acc as [|a acc].
  - destruct (is_digit c); [specialize (IH [c])|specialize (IH [])]; cbn [length] in *; lia.
  - destruct (run_char c); [specialize (IH (c :: a :: acc)); cbn [length] in *; lia|].
    pose proof (flush_length (a :: acc)). specialize (IH []). rewrite length_app. cbn [length] in *. lia.
Qed.
Lemma redacted_holds_none s : ~ holds_card (redactSensitiveString s).
Proof.
  unfold holds_card, redactSensitiveString. rewrite s2l_l2s. intros (b & card & a & E & Hc).
  pose proof (redact_from_idemp (s2l s) []) as Hi. rewrite E, (redact_card _ _ _ Hc) in Hi.
  specialize (Hi (or_introl eq_refl)). apply (f_equal length) in Hi. revert Hi. rewrite !length_app.
  change (length (s2l redacted)) with 10%nat.
  pose proof (redact_length b []). pose proof (redact_length a []). cbn [length] in *.
  pose proof (cn_digits _ _ _ Hc). pose proof (filter_length_le_all is_digit card). lia.
Qed.

(** ** Sanitised values are clean *)

(** A word of the list stands in the key, in small letters. *)
Definition sensitive_key (k : string) : Prop :=
  exists word a b, word ∈ sensitiveKeySubstrings /\ ToLower k = a +:+ word +:+ b.
Lemma keyLooksSensitive_spec k : keyLooksSensitive (ToLower k) = true <-> sensitive_key k.
Proof.
  unfold keyLooksSensitive, sensitive_key. rewrite existsb_exists. split.
  - intros (w & Hw & (a & b & E)%Contains_spec). exists w, a, b. by rewrite list_elem_of_In.
  - intros (w & a & b & Hw & E). exists w. rewrite <- list_elem_of_In. split; [done|].
    apply Contains_spec. by exists a, b.
Qed.

Lemma foldr_and {A} (Q : A -> Prop) l :
  foldr (fun x p => Q x /\ p) True l <-> forall x, x ∈ l -> Q x.
Proof.
  induction l as [|x l IH]; cbn; [set_solver|]. rewrite IH. set_solver.
Qed.
(** At every depth: under a sensitive key only the mark, and no card number in a string. *)
Fixpoint clean (v : json) : Prop :=
  match v with
  | JStr s => ~ holds_card s
  | JObj fields =>
      foldr (fun kv p => (sensitive_key kv.1 /\ kv.2 = JStr redacted \/ ~ sensitive_key kv.1 /\ clean kv.2) /\ p)
        True fields
  | JArr l => foldr (fun x p => clean x /\ p) True l
  | _ => True
  end.
Lemma clean_fields fields : clean (JObj fields) <->
  forall kv, kv ∈ fields -> sensitive_key kv.1 /\ kv.2 = JStr redacted \/ ~ sensitive_key kv.1 /\ clean kv.2.
Proof. exact (foldr_and (fun kv => sensitive_key kv.1 /\ kv.2 = JStr redacted \/ ~ sensitive_key kv.1 /\ clean kv.2) fields). Qed.
Lemma clean_items l : clean (JArr l) <-> forall x, x ∈ l -> clean x.
Proof. exact (foldr_and clean l). Qed.

Definition key_before (a b : string * json) : Prop := string_lt a.1 b.1 = true.

Lemma elem_of_map_put k v m x : x ∈ map_put k v m -> x = (k, v) \/ x ∈ m.
Proof.
  induction m as [|[k' v'] m IH]; cbn; [set_solver|].
  destruct (String.eqb k k'); [set_solver|]. destruct (string_lt k k'); set_solver.
Qed.

Lemma elem_of_go_map fields x : x ∈ go_map fields -> x ∈ fields.
Proof.
  unfold go_map. assert (H : forall l acc, x ∈ foldl (fun m kv => map_put kv.1 kv.2 m) acc l ->
    x ∈ acc \/ x ∈ l).
  { induction l as [|[k v] l IH]; intros acc; cbn; [by left|].
    intros [Hx|Hx]%IH; [|set_solver]. apply elem_of_map_put in Hx as [->|Hx]; set_solver. }
  intros Hx%H. set_solver.
Qed.

Lemma string_lt_trans a b c : string_lt a b = true -> string_lt b c = true -> string_lt a c = true.
Proof.
  intros Hab Hbc%string_lt_asym. destruct (string_lt a c) eqn:E; [done|].
  pose proof (string_ge_trans b c a Hbc E). congruence.
Qed.

Lemma map_put_sorted k v m :
  StronglySorted key_before m -> StronglySorted key_before (map_put k v m).
Proof.
  induction 1 as [|[k' v'] m Hs IH Hm]; cbn; [repeat constructor|].
  rewrite Forall_forall in Hm.
  destruct (String.eqb_spec k k') as [->|Hne].
  - constructor; [done|]. apply Forall_forall. intros x Hx. by apply (Hm x).
  - destruct (string_lt k k') eqn:E.
    + constructor; [by constructor; [|apply Forall_forall]|].
      constructor; [done|]. apply Forall_forall. intros x Hx.
      eapply string_lt_trans; [exact E|by apply (Hm x)].
    + constructor; [done|]. apply Forall_forall. intros x Hx.
      apply elem_of_map_put in Hx as [->|Hx]; [|by apply Hm]. unfold key_before; cbn.
      destruct (string_lt k' k) eqn:E'; [done|]. by destruct Hne; apply string_lt_total.
Qed.

Lemma go_map_sorted fields : StronglySorted key_before (go_map fields).
Proof.
  unfold go_map. assert (H : forall l acc, StronglySorted key_before acc ->
    StronglySorted key_before (foldl (fun m kv => map_put kv.1 kv.2 m) acc l)).
  { induction l as [|[k v] l IH]; intros acc Ha; cbn; [done|]. by apply IH, map_put_sorted. }
  apply H. constructor.
Qed.

Lemma map_put_last k v m :
  (forall x, x ∈ m -> string_lt x.1 k = true) -> map_put k v m = m ++ [(k, v)].
Proof.
  induction m as [|[k' v'] m IH]; intros Hm; cbn; [done|].
  assert (Hk : string_lt k' k = true) by (apply (Hm (k', v')); set_solver).
  destruct (String.eqb_spec k k') as [->|_].
  { apply string_lt_asym in Hk as Hk'. congruence. }
  rewrite (string_lt_asym _ _ Hk), IH; [done|]. intros x Hx. apply Hm. set_solver.
Qed.

Lemma go_map_id l : StronglySorted key_before l -> go_map l = l.
Proof.
  unfold go_map. intros Hs.
  assert (H : forall acc, (forall x y, x ∈ acc -> y ∈ l -> key_before x y) ->
    foldl (fun m kv => map_put kv.1 kv.2 m) acc l = acc ++ l).
  { induction Hs as [|[k v] l Hs IH Hl]; intros acc Ha; cbn; [by rewrite app_nil_r|].
    rewrite map_put_last by (intros x Hx; apply (Ha x (k, v) Hx); set_solver).
    rewrite IH, <- app_assoc; [done|]. rewrite Forall_forall in Hl.
    intros x y [Hx|Hx]%elem_of_app Hy; [apply Ha; set_solver|].
    apply list_elem_of_singleton in Hx as ->. by apply Hl. }
  rewrite H; [done|]. set_solver.
Qed.

(** Structural induction through lists of values. *)
Lemma json_ind_deep (P : json -> Prop) :
  P JNull -> (forall b, P (JBool b)) -> (forall m k, P (JNum m k)) -> (forall s, P (JStr s)) ->
  (forall l, Forall P l -> P (JArr l)) ->
  (forall fields, Forall (fun kv => P kv.2) fields -> P (JObj fields)) ->
  forall v, P v.
Proof.
  intros Hn Hb Hnum Hs Ha Ho. fix IH 1.
  intros [| | | |l|fields]; [apply Hn|apply Hb|apply Hnum|apply Hs| |].
  - apply Ha. induction l as [|x l IHl]; constructor; [apply IH|exact IHl].
  - apply Ho. induction fields as [|[k v] fields IHf]; constructor; [apply IH|exact IHf].
Qed.

Lemma sanitize_slot_clean v : clean (sanitize_slot v).
Proof.
  induction v as [| | |s|l IH|fields IH] using json_ind_deep; try done.
  - apply redacted_holds_none.
  - cbn [sanitize_slot]. apply clean_items. intros x Hx. rewrite Forall_forall in IH.
    apply list_elem_of_fmap in Hx as (y & -> & Hy). by apply IH.
  - cbn [sanitize_slot]. apply clean_fields. intros x Hx%elem_of_go_map. rewrite Forall_forall in IH.
    apply list_elem_of_fmap in Hx as ([k y] & -> & Hy). cbn [fst snd].
    pose proof (keyLooksSensitive_spec k) as Hk. destruct (keyLooksSensitive (ToLower k)).
    + left. split; [by apply Hk|done].
    + right. split; [by intros ?%Hk|]. by apply (IH (k, y)).
Qed.

(** Marshalled objects are sorted already. *)
Fixpoint decoded (v : json) : Prop :=
  match v with
  | JObj fields => StronglySorted key_before fields /\ foldr (fun kv p => decoded kv.2 /\ p) True fields
  | JArr l => foldr (fun x p => decoded x /\ p) True l
  | _ => True
  end.

Lemma sanitize_slot_decoded v : decoded (sanitize_slot v).
Proof.
  induction v as [| | |s|l IH|fields IH] using json_ind_deep; try done;
    rewrite Forall_forall in IH; cbn.
  - apply foldr_and. intros x Hx. apply list_elem_of_fmap in Hx as (y & -> & Hy). by apply IH.
  - split; [apply go_map_sorted|]. apply foldr_and. intros x Hx%elem_of_go_map.
    apply list_elem_of_fmap in Hx as ([k y] & -> & Hy). cbn.
    destruct (keyLooksSensitive (ToLower k)); [done|]. by apply (IH (k, y)).
Qed.

Lemma map_same {A} (f : A -> A) l : (forall x, x ∈ l -> f x = x) -> map f l = l.
Proof. induction l; intros H; cbn; [done|]. f_equal; [apply H|apply IHl]; set_solver. Qed.

Lemma sanitize_slot_id v : decoded v -> clean v -> sanitize_slot v = v.
Proof.
  induction v as [| | |s|l IH|fields IH] using json_ind_deep; try done;
    try rewrite Forall_forall in IH; cbn [sanitize_slot decoded].
  - intros _ Hs. by rewrite redact_without_card.
  - intros Hd Hc. pose proof (proj1 (foldr_and decoded l) Hd) as Hd'. rewrite clean_items in Hc.
    f_equal. apply map_same. intros x Hx. apply IH; [done|by apply Hd'|by apply Hc].
  - intros [Hs Hd] Hc. pose proof (proj1 (foldr_and (fun kv => decoded kv.2) fields) Hd) as Hd'.
    rewrite clean_fields in Hc. rewrite map_same; [by rewrite go_map_id|].
    intros [k x] Hx. cbn [fst snd]. specialize (Hc (k, x) Hx). cbn [fst snd] in Hc.
    pose proof (keyLooksSensitive_spec k) as Hk. destruct (keyLooksSensitive (ToLower k)).
    + destruct Hc as [[_ ->]|[Hn _]]; [done|]. by destruct Hn; apply Hk.
    + destruct Hc as [[Hk' _]|[_ Hc]]; [by apply Hk in Hk'|].
      f_equal. by apply (IH (k, x) Hx); [apply (Hd' (k, x))|].
Qed.
Lemma marker_clean : clean (JObj [("_sanitize_error", JStr "non_json_payload")]).
Proof.
  apply clean_fields. intros kv ->%list_elem_of_singleton. right. cbn [fst snd]. split.
  - rewrite <- keyLooksSensitive_spec. by vm_compute.
  - intros (b & card & a & E & Hc). pose proof (f_equal length E) as Hl. rewrite !length_app in Hl.
    apply (f_equal (List.filter is_digit)) in E. rewrite !List.filter_app in E.
    assert (Hd : List.filter is_digit (s2l "non_json_payload") = []) by (vm_compute; reflexivity).
    rewrite Hd in E. apply (f_equal length) in E. rewrite !length_app in E. cbn [length] in E.
    pose proof (cn_digits _ _ _ Hc). lia.
Qed.


(** The example of the package's tests. *)
Example card_number_redacted :
  SanitizeJSONBytes (RawJSON (JObj
    [("note", JStr "provider returned card 4111 1111 1111 1111 for dispute");
     ("api_key", JNum 5 0); ("safe_id", JStr "1234567890123")])) =
  JObj [("api_key", JStr redacted);
        ("note", JStr "provider returned card [REDACTED] for dispute");
        ("safe_id", JStr "1234567890123")].
Proof. vm_compute. reflexivity. Qed.

(** Digits next to a card number hide it: the match is longer than nineteen
    digits and is left as it is. *)
Example card_number_after_digits :
  redactSensitiveString "order 2024 4111 1111 1111 1111" = "order 2024 4111 1111 1111 1111".
Proof. vm_compute. reflexivity. Qed.

(** A payload that is a string is stored with the card number in it. *)
Example top_level_string_kept :
  let s := "card 4111 1111 1111 1111" in
  SanitizeJSONBytes (RawJSON (JStr s)) = JStr s /\ redactSensitiveString s = "card [REDACTED]".
Proof. vm_compute. split; reflexivity. Qed.

