(* ===== verification/Strconv.v ===== *)
(** * Numbers and bytes as text

    strconv, encoding/hex, encoding/base64 and fmt.Sprint of the Go standard
    library, as the payment adapters use them: integers read with the value Go
    leaves behind on an error, the shortest decimal of a [float64], digests in
    hexadecimal and base64, and how a decoded JSON value is printed. *)

From S2P Require Import Prelude.
From S2P Require Import GoStd.
From S2P Require Import Sha256.
From S2P Require Import JsonText.
From S2P Require Import Sanitize.
Local Open Scope string_scope.
Local Open Scope list_scope.
Local Open Scope Z_scope.

(** ** Integers *)

(** [strconv.ParseUint(s, 10, 64)] on the digits: [None] is a syntax error, and
    a value past the end stops the loop at the greatest one. *)
Definition MaxUint64 : Z := 18446744073709551615.
Fixpoint parse_digits (l : list ascii) (n : Z) : option Z :=
  match l with
  | [] => Some n
  | c :: l =>
      match digit c with
      | None => None
      | Some d => let n := n * 10 + d in if MaxUint64 <? n then Some MaxUint64 else parse_digits l n
      end
  end.
Definition parse_unsigned (l : list ascii) : option Z :=
  match l with [] => None | _ => parse_digits l 0 end.
Definition signed_digits (l : list ascii) : bool * list ascii :=
  match l with
  | c :: l' => if is_char c "-" then (true, l') else if is_char c "+" then (false, l') else (false, l)
  | [] => (false, [])
  end.
(** [strconv.ParseInt(s, 10, 64)] and [strconv.Atoi(s)]: the value and whether
    there is no error.  A syntax error leaves zero, a value out of range the
    nearest integer. *)
Definition ParseInt (s : string) : Z * bool :=
  let '(neg, digits) := signed_digits (s2l s) in
  match parse_unsigned digits with
  | None => (0, false)
  | Some n =>
      if neg then (if - n <? MinInt64 then (MinInt64, false) else (- n, true))
      else (if MaxInt64 <? n then (MaxInt64, false) else (n, true))
  end.

Example parse_int_values :
  map ParseInt ["0"; "-12"; "+7"; ""; "-"; "12x"; "9223372036854775807"; "9223372036854775808";
                "-9223372036854775808"; "99999999999999999999x"; "9999999999999999999x"; " 1"; "1_0"] =
  [(0, true); (-12, true); (7, true); (0, false); (0, false); (0, false); (MaxInt64, true);
   (MaxInt64, false); (MinInt64, true); (MaxInt64, false); (0, false); (0, false); (0, false)].
Proof. vm_compute. reflexivity. Qed.

(** [strconv.FormatInt] is read back. *)
Lemma digit_pretty n : (n < 10)%N -> digit (pretty_N_char n) = Some (Z.of_N n).
Proof.
  intros Hn. rewrite <- (N2Nat.id n). assert (Hj : (N.to_nat n < 10)%nat) by lia.
  revert Hj. generalize (N.to_nat n) as j. intros j Hj. do 10 (destruct j as [|j]; [reflexivity|]). lia.
Qed.
Lemma parse_pretty_go n s :
  Z.of_N n <= MaxUint64 -> parse_digits (s2l (pretty_N_go n s)) 0 = parse_digits (s2l s) (Z.of_N n).
Proof.
  revert s. induction n as [n IH] using (well_founded_induction N.lt_wf_0). intros s Hn.
  destruct (decide (n = 0%N)) as [->|Hz]; [by rewrite pretty_N_go_0|].
  assert (Hd : (n / 10 < n)%N) by (apply N.div_lt; lia).
  assert (Hq : Z.of_N (n / 10) <= MaxUint64) by lia.
  rewrite pretty_N_go_step, IH by lia.
  change (s2l (String ?c s)) with (c :: s2l s). cbn [parse_digits].
  rewrite digit_pretty by (pose proof (N.mod_lt n 10); lia).
  rewrite N2Z.inj_div, N2Z.inj_mod. change (Z.of_N 10) with 10.
  replace (Z.of_N n / 10 * 10 + Z.of_N n mod 10) with (Z.of_N n) by (pose proof (Z.div_mod (Z.of_N n) 10); lia).
  by rewrite (proj2 (Z.ltb_ge _ _) Hn).
Qed.
Lemma pretty_N_digits n : forallb is_digit (s2l (pretty (n : N))) = true /\ s2l (pretty n) <> [].
Proof.
  assert (Hgo : forall m s, forallb is_digit (s2l s) = true ->
    forallb is_digit (s2l (pretty_N_go m s)) = true /\ (length (s2l s) <= length (s2l (pretty_N_go m s)))%nat).
  { intros m. induction m as [m IH] using (well_founded_induction N.lt_wf_0). intros s Hs.
    destruct (decide (m = 0%N)) as [->|Hm]; [rewrite pretty_N_go_0; by split|].
    rewrite pretty_N_go_step by lia. destruct (IH (m / 10)%N ltac:(apply N.div_lt; lia)
      (String (pretty_N_char (m mod 10)) s)) as [H1 H2]; [|split; [done|]; etransitivity; [apply Nat.le_succ_diag_r|exact H2]].
    change (is_digit (pretty_N_char (m mod 10)) && forallb is_digit (s2l s) = true). rewrite Hs, andb_true_r.
    assert (Hl : forall j, (j < 10)%nat -> is_digit (pretty_N_char (N.of_nat j)) = true)
      by (intros j Hj; do 10 (destruct j as [|j]; [reflexivity|]); lia).
    rewrite <- (N2Nat.id (m mod 10)). apply Hl. pose proof (N.mod_lt m 10). lia. }
  unfold pretty, pretty_N. destruct (decide _); [done|].
  rewrite pretty_N_go_step by lia.
  destruct (Hgo (n / 10)%N (String (pretty_N_char (n mod 10)) "")) as [H1 H2].
  - change (is_digit (pretty_N_char (n mod 10)) && true = true). rewrite andb_true_r.
    assert (Hl : forall j, (j < 10)%nat -> is_digit (pretty_N_char (N.of_nat j)) = true)
      by (intros j Hj; do 10 (destruct j as [|j]; [reflexivity|]); lia).
    rewrite <- (N2Nat.id (n mod 10)). apply Hl. pose proof (N.mod_lt n 10). lia.
  - split; [done|]. intros E. rewrite E in H2. change (1 <= 0)%nat in H2. lia.
Qed.
Lemma parse_unsigned_pretty n :
  Z.of_N n <= MaxUint64 -> parse_unsigned (s2l (pretty n)) = Some (Z.of_N n).
Proof.
  intros Hn. destruct (pretty_N_digits n) as [_ Hne]. unfold parse_unsigned.
  destruct (s2l (pretty n)) as [|c l] eqn:E; [done|]. rewrite <- E. clear Hne E c l.
  unfold pretty, pretty_N. destruct (decide (n = 0%N)) as [->|]; [reflexivity|].
  by rewrite parse_pretty_go.
Qed.
Lemma signed_digits_plain l : forallb is_digit l = true -> l <> [] -> signed_digits l = (false, l).
Proof.
  destruct l as [|c l]; [done|]. cbn [forallb]. intros [Hc _]%andb_true_iff _. unfold signed_digits, is_char.
  destruct (Ascii.eqb_spec c "-"%char) as [->|]; [discriminate|].
  by destruct (Ascii.eqb_spec c "+"%char) as [->|].
Qed.
Lemma ParseInt_FormatInt z : in_int64 z -> ParseInt (FormatInt z) = (z, true).
Proof.
  intros Hz. unfold ParseInt, FormatInt. unfold_int.
  assert (HN : forall n, (Z.of_N n <= 9223372036854775807) ->
    (let '(neg, digits) := signed_digits (s2l (pretty n)) in
     match parse_unsigned digits with
     | None => (0, false)
     | Some n => if neg then (if - n <? MinInt64 then (MinInt64, false) else (- n, true))
                 else (if MaxInt64 <? n then (MaxInt64, false) else (n, true))
     end) = (Z.of_N n, true)).
  { intros n Hn. rewrite signed_digits_plain by apply pretty_N_digits.
    rewrite parse_unsigned_pretty by (unfold MaxUint64; lia).
    unfold MaxInt64. by rewrite (proj2 (Z.ltb_ge _ _) Hn). }
  unfold pretty, pretty_Z. destruct z as [|p|p]; [apply (HN 0%N); lia|apply (HN (N.pos p)); lia|].
  assert (E : signed_digits (s2l ("-" +:+ pretty p)) = (true, s2l (pretty (N.pos p)))) by reflexivity.
  rewrite E, parse_unsigned_pretty by (unfold MaxUint64; lia).
  rewrite (proj2 (Z.ltb_ge _ _)) by lia. done.
Qed.

(** ** The shortest decimal of a float *)

(** A positive value [num / den], and the place of its first digit: it is below
    [10 ^ point] and not below [10 ^ (point - 1)]. *)
Fixpoint count_digits (fuel : nat) (n : Z) : Z :=
  match fuel with
  | O => 0
  | S fuel => if n =? 0 then 0 else 1 + count_digits fuel (n / 10)
  end.
Fixpoint leading_zeros (fuel : nat) (num den : Z) : Z :=
  match fuel with
  | O => 0
  | S fuel => if num * 10 <? den then 1 + leading_zeros fuel (num * 10) den else 0
  end.
Definition point_of (num den : Z) : Z :=
  if den <=? num then count_digits 400 (num / den) else - leading_zeros 400 num den.
(** [d] times ten to [e]. *)
Definition f64_of_scaled (d e : Z) : float64 :=
  if 0 <=? e then f64_of_decimal (d * 10 ^ e) 0 else f64_of_decimal d (Z.to_nat (- e)).
(** The decimals of [k] digits on both sides; one that reads back as the float,
    the nearer one if both do. *)
Definition digits_of_length (f : float64) (num den point k : Z) : option Z :=
  let e := point - k in
  let n := if 0 <=? e then num else num * 10 ^ (- e) in
  let m := if 0 <=? e then den * 10 ^ e else den in
  let low := n / m in
  let same d := f64_leb (f64_of_scaled d e) f && f64_leb f (f64_of_scaled d e) in
  let up := 2 * (n mod m) in
  if same low && ((up <? m) || (up =? m) && Z.even low || negb (same (low + 1))) then Some low
  else if same (low + 1) then Some (low + 1) else None.
Fixpoint shortest_from (fuel : nat) (f : float64) (num den point k : Z) : Z * Z :=
  match fuel with
  | O => (0, point - k)
  | S fuel =>
      match digits_of_length f num den point k with
      | Some d => (d, point - k)
      | None => shortest_from fuel f num den point (k + 1)
      end
  end.
(** The digits without zeros at the end, and the place of the point. *)
Fixpoint drop_zeros (fuel : nat) (d e : Z) : Z * Z :=
  match fuel with
  | O => (d, e)
  | S fuel => if (d =? 0) || negb (d mod 10 =? 0) then (d, e) else drop_zeros fuel (d / 10) (e + 1)
  end.
Definition shortest_value (m e : Z) : Z * Z :=
  let num := if 0 <=? e then m * 2 ^ e else m in
  let den := if 0 <=? e then 1 else 2 ^ (- e) in
  let f := S754_finite false (Z.to_pos m) e in
  let '(d, e) := shortest_from 17 f num den (point_of num den) 1 in
  drop_zeros 20 d e.
Definition shortest (m e : Z) : list ascii * Z :=
  let '(d, e) := shortest_value m e in
  let digits := s2l (FormatInt d) in
  (digits, Z.of_nat (length digits) + e).

Definition zeros (n : Z) : list ascii := repeat "0"%char (Z.to_nat n).
(** [%f] and [%e] with as many digits as it takes. *)
Definition fixed_form (digits : list ascii) (point : Z) : list ascii :=
  let n := Z.of_nat (length digits) in
  let whole := if 0 <? point then take (Z.to_nat point) digits ++ zeros (point - n) else ["0"%char] in
  let rest := if 0 <? point then drop (Z.to_nat point) digits else zeros (- point) ++ digits in
  whole ++ match rest with [] => [] | _ => "."%char :: rest end.
Definition exp_form (digits : list ascii) (point : Z) : list ascii :=
  let e := point - 1 in
  take 1 digits ++ (match drop 1 digits with [] => [] | rest => "."%char :: rest end) ++
  s2l (if e <? 0 then "e-" else "e+") ++ s2l (pad 2 (Z.abs e)).
Definition sign_form (neg : bool) (l : list ascii) : string := l2s (if neg then "-"%char :: l else l).
(** [strconv.FormatFloat(f, 'f', -1, 64)] and [(f, 'g', -1, 64)]; the adapters
    get no infinities out of a decoded text. *)
Definition format_with (form : list ascii -> Z -> list ascii) (f : float64) : string :=
  match f with
  | S754_zero neg => sign_form neg ["0"%char]
  | S754_finite neg m e => let '(digits, point) := shortest (Z.pos m) e in sign_form neg (form digits point)
  | S754_infinity neg => if neg then "-Inf" else "+Inf"
  | S754_nan => "NaN"
  end.
Definition FormatFloat_f : float64 -> string := format_with fixed_form.
Definition FormatFloat_g : float64 -> string := format_with (fun digits point =>
  if (point - 1 <? -4) || (6 <=? point - 1) then exp_form digits point else fixed_form digits point).

Example format_floats :
  map (fun p => FormatFloat_f (f64_of_decimal p.1 p.2))
    [(15, 1%nat); (1, 1%nat); (3, 1%nat); (-25, 1%nat); (10 ^ 21, 0%nat); (1, 7%nat); (123456789012345678, 0%nat);
     (30000000000000004, 17%nat); (2 ^ 53 + 2, 0%nat); (5, 324%nat); (12, 0%nat)] =
  ["1.5"; "0.1"; "0.3"; "-2.5"; "1000000000000000000000"; "0.0000001"; "123456789012345680";
   "0.30000000000000004"; "9007199254740994"; l2s (s2l "0." ++ zeros 323 ++ s2l "5"); "12"].
Proof. vm_compute. reflexivity. Qed.

(** ** A decoded value printed *)

(** [float64(int64(x))] is the value again. *)
Definition f64_integer (f : float64) : option Z :=
  let z := f64_to_int64 f in
  if f64_leb f (f64_of_Z z) && f64_leb (f64_of_Z z) f then Some z else None.
(** [fmt.Sprint] of a value [encoding/json] decoded into an [any]; a map is
    printed in the order of its keys.  The sign of a zero is not kept. *)
Fixpoint Sprint (v : json) : string :=
  match v with
  | JNull => "<nil>"
  | JBool b => if b then "true" else "false"
  | JNum m k => FormatFloat_g (f64_of_decimal m k)
  | JStr s => s
  | JArr l => "[" +:+ String.concat " " (map Sprint l) +:+ "]"
  | JObj fs =>
      "map[" +:+
      String.concat " " (map (fun kv => kv.1 +:+ ":" +:+ match kv.2 with JStr s => s | _ => "" end)
        (go_map (map (fun kv => (kv.1, JStr (Sprint kv.2))) fs))) +:+ "]"
  end.

(** ** Digests as text *)

Definition hex_value (c : ascii) : option Z := hex_digit c.
(** [hex.DecodeString]; [None] is an error. *)
Fixpoint decode_hex (l : list ascii) : option (list ascii) :=
  match l with
  | [] => Some []
  | [_] => None
  | a :: b :: l =>
      match hex_value a, hex_value b, decode_hex l with
      | Some x, Some y, Some rest => Some (byte_char (16 * x + y) :: rest)
      | _, _, _ => None
      end
  end.
Definition DecodeString (s : string) : option (list ascii) := decode_hex (s2l s).

(** [base64.StdEncoding.EncodeToString]. *)
Definition base64_char (n : Z) : ascii :=
  byte_char (if n <? 26 then 65 + n else if n <? 52 then 71 + n else if n <? 62 then n - 4
             else if n =? 62 then 43 else 47).
Fixpoint base64_list (l : list Z) : list ascii :=
  match l with
  | [] => []
  | [a] => [base64_char (a / 4); base64_char (a mod 4 * 16); "="%char; "="%char]
  | [a; b] => [base64_char (a / 4); base64_char (a mod 4 * 16 + b / 16); base64_char (b mod 16 * 4); "="%char]
  | a :: b :: c :: l =>
      base64_char (a / 4) :: base64_char (a mod 4 * 16 + b / 16) :: base64_char (b mod 16 * 4 + c / 64) ::
      base64_char (c mod 64) :: base64_list l
  end.
Definition base64 (l : list ascii) : string := l2s (base64_list (map char_byte l)).

Example base64_vectors :
  map (fun s => base64 (s2l s)) [""; "f"; "fo"; "foo"; "foob"; "fooba"; "foobar"; "~~~???"] =
  [""; "Zg=="; "Zm8="; "Zm9v"; "Zm9vYg=="; "Zm9vYmE="; "Zm9vYmFy"; "fn5+Pz8/"].
Proof. vm_compute. reflexivity. Qed.

(** A digest written is read back. *)
Lemma hex_value_char z : 0 <= z < 16 -> hex_value (hex_char z) = Some z.
Proof.
  intros Hz. rewrite <- (Z2Nat.id z) by lia. assert (Hj : (Z.to_nat z < 16)%nat) by lia.
  revert Hj. generalize (Z.to_nat z) as j. intros j Hj. do 16 (destruct j as [|j]; [reflexivity|]). lia.
Qed.
Lemma char_byte_range c : 0 <= char_byte c < 256.
Proof. unfold char_byte. pose proof (N_ascii_bounded c). lia. Qed.
Lemma byte_char_byte c : byte_char (char_byte c) = c.
Proof. unfold byte_char, char_byte. by rewrite N2Z.id, ascii_N_embedding. Qed.
Lemma decode_hex_bytes l : decode_hex (concat (map hex_byte l)) = Some l.
Proof.
  induction l as [|c l IH]; [done|]. change (concat (map hex_byte (c :: l))) with
    (hex_char (char_byte c / 16) :: hex_char (char_byte c mod 16) :: concat (map hex_byte l)).
  cbn [decode_hex]. pose proof (char_byte_range c).
  rewrite !hex_value_char by (split; [apply Z.div_pos || apply Z.mod_pos_bound|
    apply Z.div_lt_upper_bound || apply Z.mod_pos_bound]; lia).
  rewrite IH. do 2 f_equal. rewrite <- (byte_char_byte c) at 3. f_equal.
  pose proof (Z.div_mod (char_byte c) 16). lia.
Qed.
Lemma DecodeString_EncodeToString l : DecodeString (EncodeToString l) = Some l.
Proof. unfold DecodeString, EncodeToString. rewrite s2l_l2s. apply decode_hex_bytes. Qed.
Lemma EncodeToString_inj l k : EncodeToString l = EncodeToString k -> l = k.
Proof. intros E. apply (f_equal DecodeString) in E. rewrite !DecodeString_EncodeToString in E. by injection E. Qed.
