(* ===== verification/Hmac.v ===== *)
(** * Digests: MD5 and HMAC

    crypto/md5 (RFC 1321) and crypto/hmac over SHA-256 (RFC 2104) of Go's
    standard library, executable and with the test vectors of the RFCs. *)

From S2P Require Import Prelude.
From S2P Require Import GoStd.
From S2P Require Import Sha256.
From S2P Require Import JsonText.
From S2P Require Import Strconv.
Local Open Scope string_scope.
Local Open Scope list_scope.
Local Open Scope Z_scope.

Definition md5_constants : list Z :=
  [3614090360; 3905402710; 606105819; 3250441966; 4118548399; 1200080426; 2821735955; 4249261313;
   1770035416; 2336552879; 4294925233; 2304563134; 1804603682; 4254626195; 2792965006; 1236535329;
   4129170786; 3225465664; 643717713; 3921069994; 3593408605; 38016083; 3634488961; 3889429448;
   568446438; 3275163606; 4107603335; 1163531501; 2850285829; 4243563512; 1735328473; 2368359562;
   4294588738; 2272392833; 1839030562; 4259657740; 2763975236; 1272893353; 4139469664; 3200236656;
   681279174; 3936430074; 3572445317; 76029189; 3654602809; 3873151461; 530742520; 3299628645;
   4096336452; 1126891415; 2878612391; 4237533241; 1700485571; 2399980690; 4293915773; 2240044497;
   1873313359; 4264355552; 2734768916; 1309151649; 4149444226; 3174756917; 718787259; 3951481745].
Definition md5_shifts : list Z :=
  [7; 12; 17; 22; 7; 12; 17; 22; 7; 12; 17; 22; 7; 12; 17; 22;
   5; 9; 14; 20; 5; 9; 14; 20; 5; 9; 14; 20; 5; 9; 14; 20;
   4; 11; 16; 23; 4; 11; 16; 23; 4; 11; 16; 23; 4; 11; 16; 23;
   6; 10; 15; 21; 6; 10; 15; 21; 6; 10; 15; 21; 6; 10; 15; 21].
Definition rotl (x n : Z) : Z := Z.lor (word (Z.shiftl x n)) (Z.shiftr (word x) (32 - n)).
Definition md5_state : Type := Z * Z * Z * Z.

(** Step [i] of a block whose words are [m]. *)
Definition md5_step (m : list Z) (s : md5_state) (i : nat) : md5_state :=
  let '(a, b, c, d) := s in
  let j := Z.of_nat i in
  let '(f, g) :=
    if j <? 16 then (Z.lor (Z.land b c) (Z.land (word (Z.lnot b)) d), j)
    else if j <? 32 then (Z.lor (Z.land d b) (Z.land (word (Z.lnot d)) c), (5 * j + 1) mod 16)
    else if j <? 48 then (Z.lxor b (Z.lxor c d), (3 * j + 5) mod 16)
    else (Z.lxor c (Z.lor b (word (Z.lnot d))), 7 * j mod 16) in
  let f := word (f + a + nth i md5_constants 0 + nth (Z.to_nat g) m 0) in
  (d, word (b + rotl f (nth i md5_shifts 0)), b, c).
(** Little-endian words of bytes, and back. *)
Fixpoint words_le (bytes : list Z) : list Z :=
  match bytes with
  | a :: b :: c :: d :: rest => (((d * 256 + c) * 256 + b) * 256 + a) :: words_le rest
  | _ => []
  end.
Definition md5_block (s : md5_state) (bytes : list Z) : md5_state :=
  let '(a, b, c, d) := s in
  let '(a', b', c', d') := fold_left (md5_step (words_le bytes)) (seq 0 64) s in
  (word (a + a'), word (b + b'), word (c + c'), word (d + d')).
Fixpoint md5_blocks (n : nat) (s : md5_state) (bytes : list Z) : md5_state :=
  match n with
  | O => s
  | S n => md5_blocks n (md5_block s (take 64 bytes)) (drop 64 bytes)
  end.
Definition md5_padded (bytes : list Z) : list Z :=
  let size := Z.of_nat (length bytes) in
  bytes ++ [128] ++ repeat 0 (Z.to_nat ((55 - size) mod 64)) ++
  rev (bytes_of_word (word (8 * size))) ++ rev (bytes_of_word (Z.shiftr (8 * size) 32 mod 2 ^ 32)).
(** [md5.Sum]. *)
Definition md5_Sum (l : list ascii) : list ascii :=
  let bytes := md5_padded (map char_byte l) in
  let '(a, b, c, d) := md5_blocks (length bytes / 64) (1732584193, 4023233417, 2562383102, 271733878) bytes in
  map byte_char (concat (map (fun w => rev (bytes_of_word w)) [a; b; c; d])).

(** The test suite of RFC 1321. *)
Example md5_empty : EncodeToString (md5_Sum []) = "d41d8cd98f00b204e9800998ecf8427e"%string.
Proof. vm_compute. reflexivity. Qed.
Example md5_abc : EncodeToString (md5_Sum (s2l "abc")) = "900150983cd24fb0d6963f7d28e17f72"%string.
Proof. vm_compute. reflexivity. Qed.
Example md5_two_blocks :
  EncodeToString (md5_Sum (s2l "12345678901234567890123456789012345678901234567890123456789012345678901234567890"))
  = "57edf4a22be3c955ac49da2e2107b67a"%string.
Proof. vm_compute. reflexivity. Qed.

Definition BlockSize : nat := 64.
Definition block_key (key : list ascii) : list ascii :=
  let key := if Nat.ltb BlockSize (length key) then Sum256 key else key in
  key ++ repeat (byte_char 0) (BlockSize - length key).
Definition xor_with (b : Z) (l : list ascii) : list ascii := map (fun c => byte_char (Z.lxor (char_byte c) b)) l.
(** [mac := hmac.New(sha256.New, key); mac.Write(msg); mac.Sum(nil)]; several
    writes are one write of the bytes in their order. *)
Definition hmac_sha256 (key msg : list ascii) : list ascii :=
  let k := block_key key in
  Sum256 (xor_with 92 k ++ Sum256 (xor_with 54 k ++ msg)).
(** [hmac.Equal]: the constant time comparison of byte strings. *)
Definition hmac_Equal (a b : list ascii) : bool := bool_decide (a = b).
Definition hmacSHA256Hex (secret raw : string) : string :=
  EncodeToString (hmac_sha256 (s2l secret) (s2l raw)).

(** The test vectors of RFC 4231: a short key, a key of text, and a key longer
    than a block. *)
Example rfc4231_1 :
  hmacSHA256Hex (l2s (repeat (byte_char 11) 20)) "Hi There"
  = "b0344c61d8db38535ca8afceaf0bf12b881dc200c9833da726e9376c2e32cff7".
Proof. vm_compute. reflexivity. Qed.
Example rfc4231_2 :
  hmacSHA256Hex "Jefe" "what do ya want for nothing?"
  = "5bdcc146bf60754e6a042426089575c75a003f089d2739839dec58b964ec3843".
Proof. vm_compute. reflexivity. Qed.
Example rfc4231_6 :
  hmacSHA256Hex (l2s (repeat (byte_char 170) 131)) "Test Using Larger Than Block-Size Key - Hash Key First"
  = "60e431591ee0b67f0d8a26aacbf5b77f8e0bc6213728c5140546040f0ee37f54".
Proof. vm_compute. reflexivity. Qed.

Lemma hmac_Equal_spec a b : hmac_Equal a b = true <-> a = b.
Proof. apply bool_decide_eq_true. Qed.
Lemma length_hmac key msg : length (hmac_sha256 key msg) = 32%nat.
Proof. apply length_Sum256. Qed.
