(* ===== verification/Evidence.v ===== *)
(** * Hardware evidence and cash movement identities

    internal/domain/commerce/vend_evidence.go: the evidence a machine attaches
    to a vend outcome.  internal/app/commerce/cash_movement_identity.go: the
    identity under which a physical bank note is recorded. *)

From S2P Require Import Prelude.
From S2P Require Import GoStd.
From S2P Require Import CommerceTypes.
Local Open Scope string_scope.
Local Open Scope list_scope.
Local Open Scope Z_scope.

(** ** Vend hardware evidence *)

Definition ErrVendEvidenceRequired : goerr := ESentinel "vend hardware evidence required".
Definition ErrVendEvidenceInvalid : goerr := ESentinel "vend hardware evidence invalid".

Definition VerificationUnverified : string := "unverified".
Definition VerificationVerified : string := "verified".
Definition VerificationHardwareUnverified : string := "hardware_unverified".

(** [s == ""] *)
Definition blank (s : string) : bool := String.eqb s "".

Definition isSHA256Hex (s : string) : bool :=
  if negb (len s =? 64) then false else forallb is_hex_digit (s2l s).

(** [fmt.Errorf("%w: msg", ErrVendEvidenceInvalid)] *)
Definition evidence_invalid (msg : string) : goerr := EWrap ErrVendEvidenceInvalid msg.

(** The cash-flow block of [Validate]. *)
Definition Validate_bill (b : option BillFinalRecord) : res unit :=
  match b with
  | None => Err (evidence_invalid "bill_final required for cash flow")
  | Some b =>
      let? _ := guard_err (blank (TrimSpace (bf_EventID b)))
                  (evidence_invalid "bill_final.event_id required") in
      let? _ := guard_err (bf_AmountMinor b <=? 0)
                  (evidence_invalid "bill_final.amount_minor must be positive") in
      guard_err (negb (len (ToUpper (TrimSpace (bf_Currency b))) =? 3))
        (evidence_invalid "bill_final.currency must be 3-letter ISO")
  end.

Definition Validate (e : option VendHardwareEvidence) (cashFlow requireSuccessEvidence : bool)
    : res unit :=
  match e with
  | None => Err ErrVendEvidenceRequired
  | Some e =>
      let cmd := ev_Command e in
      let tcn := ev_TcnDispense e in
      let? _ := guard_err (ev_VendAttemptID e =u uuid_Nil)
                  (evidence_invalid "vend_attempt_id required") in
      let? _ := guard_err (ev_CorrelationID e =u uuid_Nil)
                  (evidence_invalid "correlation_id required") in
      let? _ := guard_err (blank (TrimSpace (hc_CommandID cmd)))
                  (evidence_invalid "command.command_id required") in
      let digest := TrimSpace (hc_TxRxDigest cmd) in
      let rawRef := TrimSpace (hc_RawRef cmd) in
      let? _ := guard_err (blank digest && blank rawRef)
                  (evidence_invalid "command tx_rx_digest or raw_ref required") in
      let? _ := (if cashFlow then Validate_bill (ev_BillFinal e) else Ok tt) in
      let? _ := guard_err (blank (TrimSpace (td_Slot tcn)))
                  (evidence_invalid "tcn_dispense.slot required") in
      let? _ := guard_err (blank (TrimSpace (td_Result tcn)))
                  (evidence_invalid "tcn_dispense.result required") in
      let? _ := guard_err (requireSuccessEvidence && negb (td_Dropped tcn))
                  (evidence_invalid "tcn_dispense.dropped must be true for vend success") in
      let tdDigest := TrimSpace (td_Digest tcn) in
      let tdRaw := TrimSpace (td_RawRef tcn) in
      let? _ := guard_err (blank tdDigest && blank tdRaw)
                  (evidence_invalid "tcn_dispense digest or raw_ref required") in
      let? _ := guard_err (negb (blank digest) && negb (isSHA256Hex digest))
                  (evidence_invalid "command.tx_rx_digest must be sha-256 hex") in
      let? _ := guard_err (negb (blank tdDigest) && negb (isSHA256Hex tdDigest))
                  (evidence_invalid "tcn_dispense.digest must be sha-256 hex") in
      guard_err (negb (blank digest) && negb (blank tdDigest) && negb (EqualFold digest tdDigest))
        (evidence_invalid "tcn_dispense.digest must match command.tx_rx_digest")
  end.

Definition EvidenceDigest (e : option VendHardwareEvidence) : string :=
  match e with
  | None => ""
  | Some e =>
      let d := TrimSpace (hc_TxRxDigest (ev_Command e)) in
      if negb (blank d) then d else
      let d := TrimSpace (td_Digest (ev_TcnDispense e)) in
      if negb (blank d) then d else TrimSpace (hc_RawRef (ev_Command e))
  end.

(** ** Cash movement identity *)

Definition colon : ascii := ":"%char.

Definition cashEpisodeDigits (value : list ascii) : bool := forallb is_digit value.

Definition isIctHexDeviceEventID (value : list ascii) : bool :=
  Nat.eqb (length value) 6 && forallb is_hex_digit value.

Definition CanonicalizeCashMovementDeviceEventID (deviceEventID : string) : string :=
  let s := TrimSpace deviceEventID in
  let id := s2l s in
  if is_nil id then s else
  match last_index_byte id colon with
  | None | Some O => s
  | Some last =>
      let tail := drop (S last) id in
      if is_nil tail || (8 <? Z.of_nat (length tail)) || negb (cashEpisodeDigits tail) then s
      else
        let head := take last id in
        let hexPart := match last_index_byte head colon with
                       | Some i => drop (S i) head
                       | None => head
                       end in
        if negb (isIctHexDeviceEventID hexPart) then s else l2s head
  end.

Definition movement_prefixes : list string :=
  ["payout:"; "bill_reject:"; "record_ambiguous:"; "returned:"; "escrow:"; "fault:";
   "stacked:"; "stored:"].

Definition shouldPrefixCashMovementBoot (deviceEventID : string) : bool :=
  let s := TrimSpace deviceEventID in
  let id := s2l s in
  if existsb (HasPrefix s) movement_prefixes then false
  else if isIctHexDeviceEventID id then true
  else match index_byte id colon with
       | Some 6%nat =>
           if negb (isIctHexDeviceEventID (take 6 id)) then false
           else let tail := drop 7 id in
                if is_nil tail then false else cashEpisodeDigits tail
       | _ => false
       end.

Definition QualifyCashMovementDeviceEventID (deviceEventID bootID : string) : string :=
  let id := CanonicalizeCashMovementDeviceEventID deviceEventID in
  let boot := TrimSpace bootID in
  if blank id || blank boot then id
  else if HasPrefix id (boot +:+ ":") then id
  else if negb (shouldPrefixCashMovementBoot id) then id
  else boot +:+ ":" +:+ id.

(** ** What valid evidence contains *)

Definition present (s : string) : Prop := TrimSpace s <> "".

(** The specification of [Validate]: the fields that must be present, and
    digests that are well formed and agree. *)
Record well_formed_evidence (e : VendHardwareEvidence) (cash success : bool) : Prop := {
  wf_attempt : ev_VendAttemptID e <> uuid_Nil;
  wf_correlation : ev_CorrelationID e <> uuid_Nil;
  wf_command : present (hc_CommandID (ev_Command e));
  wf_wire : present (hc_TxRxDigest (ev_Command e)) \/ present (hc_RawRef (ev_Command e));
  wf_bill : cash = true -> exists b, ev_BillFinal e = Some b /\ present (bf_EventID b) /\
              0 < bf_AmountMinor b /\ len (ToUpper (TrimSpace (bf_Currency b))) = 3;
  wf_slot : present (td_Slot (ev_TcnDispense e));
  wf_result : present (td_Result (ev_TcnDispense e));
  wf_dropped : success = true -> td_Dropped (ev_TcnDispense e) = true;
  wf_tcn : present (td_Digest (ev_TcnDispense e)) \/ present (td_RawRef (ev_TcnDispense e));
  wf_digest : present (hc_TxRxDigest (ev_Command e)) ->
                isSHA256Hex (TrimSpace (hc_TxRxDigest (ev_Command e))) = true;
  wf_tcn_digest : present (td_Digest (ev_TcnDispense e)) ->
                isSHA256Hex (TrimSpace (td_Digest (ev_TcnDispense e))) = true;
  wf_agree : present (hc_TxRxDigest (ev_Command e)) -> present (td_Digest (ev_TcnDispense e)) ->
                EqualFold (TrimSpace (hc_TxRxDigest (ev_Command e)))
                          (TrimSpace (td_Digest (ev_TcnDispense e))) = true }.

Lemma guard_err_Ok b e : guard_err b e = Ok tt <-> b = false.
Proof. unfold guard_err. by destruct b. Qed.

Lemma res_bind_Ok {A B} (r : res A) (k : A -> res B) b :
  res_bind r k = Ok b <-> exists a, r = Ok a /\ k a = Ok b.
Proof. destruct r; cbn; naive_solver. Qed.

Lemma res_bind_Err {A B} (r : res A) (k : A -> res B) e :
  res_bind r k = Err e <-> r = Err e \/ exists a, r = Ok a /\ k a = Err e.
Proof. destruct r; cbn; naive_solver. Qed.

Lemma bind_guard b e (r : res unit) :
  res_bind (guard_err b e) (fun _ => r) = Ok tt <-> b = false /\ r = Ok tt.
Proof. destruct b; cbn; naive_solver. Qed.

Lemma bind_unit (r r' : res unit) :
  res_bind r (fun _ => r') = Ok tt <-> r = Ok tt /\ r' = Ok tt.
Proof. destruct r as [[]|]; cbn; naive_solver. Qed.

Lemma blank_false s : blank s = false <-> s <> "".
Proof. apply eqb_false. Qed.
Lemma blank_true s : blank s = true <-> s = "".
Proof. apply eqb_true. Qed.

Lemma blank_both s t : blank s && blank t = false <-> s <> "" \/ t <> "".
Proof. unfold blank. rewrite andb_false_iff, !eqb_false. done. Qed.

Lemma nonblank_imp s b : negb (blank s) && negb b = false <-> (s <> "" -> b = true).
Proof.
  unfold blank. destruct (String.eqb_spec s ""), b; cbn; naive_solver.
Qed.

Lemma Validate_bill_Ok b :
  Validate_bill b = Ok tt <-> exists b', b = Some b' /\ present (bf_EventID b') /\
    0 < bf_AmountMinor b' /\ len (ToUpper (TrimSpace (bf_Currency b'))) = 3.
Proof.
  destruct b as [b|]; cbn -[ToUpper len]; [|naive_solver].
  rewrite !bind_guard, guard_err_Ok, blank_false, negb_false_iff, Z.leb_gt, Z.eqb_eq.
  unfold present. naive_solver.
Qed.

(** The evidence [Validate] accepts is exactly the well-formed one. *)
Theorem Validate_spec e cash success :
  Validate (Some e) cash success = Ok tt <-> well_formed_evidence e cash success.
Proof.
  unfold Validate. rewrite !bind_guard, bind_unit, !bind_guard, guard_err_Ok.
  rewrite !N.eqb_neq, !blank_false, !blank_both, !nonblank_imp.
  assert (Hb : (if cash then Validate_bill (ev_BillFinal e) else Ok tt) = Ok tt <->
    (cash = true -> exists b, ev_BillFinal e = Some b /\ present (bf_EventID b) /\
       0 < bf_AmountMinor b /\ len (ToUpper (TrimSpace (bf_Currency b))) = 3)).
  { destruct cash; [rewrite Validate_bill_Ok|]; naive_solver. }
  rewrite Hb.
  assert (Hd : success && negb (td_Dropped (ev_TcnDispense e)) = false <->
    (success = true -> td_Dropped (ev_TcnDispense e) = true)).
  { destruct success, (td_Dropped _); cbn; naive_solver. }
  rewrite Hd.
  assert (Ha : forall s t b, negb (blank s) && negb (blank t) && negb b = false <->
    (s <> "" -> t <> "" -> b = true)).
  { intros s t b. unfold blank. destruct (String.eqb_spec s ""), (String.eqb_spec t ""), b;
      cbn; naive_solver. }
  rewrite Ha. split.
  - intros (? & ? & ? & ? & ? & ? & ? & ? & ? & ? & ? & ?). by constructor.
  - intros []. done.
Qed.

(** Every rejection is one of the two evidence errors. *)
Lemma Validate_error e cash success err :
  Validate e cash success = Err err ->
  err = ErrVendEvidenceRequired \/ errors_Is err ErrVendEvidenceInvalid = true.
Proof.
  assert (Hg : forall b msg (r : unit -> res unit) err, res_bind (guard_err b (evidence_invalid msg)) r = Err err ->
    err = evidence_invalid msg \/ r tt = Err err).
  { intros [] msg r err'; cbn; naive_solver. }
  assert (Hi : forall msg, errors_Is (evidence_invalid msg) ErrVendEvidenceInvalid = true).
  { intros msg. cbn. by rewrite orb_comm. }
  destruct e as [e|]; [|cbn; naive_solver]. intros H. right. unfold Validate in H.
  do 4 (apply Hg in H as [->|H]; [apply Hi|]).
  destruct (if cash then _ else _) as [[]|e0] eqn:Eb; cbn in H.
  - do 6 (apply Hg in H as [->|H]; [apply Hi|]).
    unfold guard_err in H. case_match; [injection H as <-; apply Hi|discriminate].
  - injection H as <-. destruct cash; [|discriminate].
    destruct (ev_BillFinal e); cbn -[evidence_invalid ToUpper len] in Eb; [|injection Eb as <-; apply Hi].
    do 2 (apply Hg in Eb as [->|Eb]; [apply Hi|]).
    unfold guard_err in Eb. case_match; [injection Eb as <-; apply Hi|discriminate].
Qed.

Lemma Validate_digest e cash success :
  Validate (Some e) cash success = Ok tt -> EvidenceDigest (Some e) <> "".
Proof.
  intros Hw%Validate_spec. unfold EvidenceDigest.
  destruct (blank (TrimSpace (hc_TxRxDigest (ev_Command e)))) eqn:E1; cbn.
  - apply blank_true in E1.
    destruct (blank (TrimSpace (td_Digest (ev_TcnDispense e)))) eqn:E2; cbn.
    + destruct (wf_wire _ _ _ Hw) as [Hp|Hp]; [by destruct Hp|done].
    + by apply blank_false.
  - by apply blank_false.
Qed.

(** ** Identities of bank notes *)

(** Characters that cannot start or end white space in UTF-8 and are not a
    colon: those of boot identifiers and of note codes. *)
Definition token_char (c : ascii) : bool :=
  (33 <=? N_of_ascii c)%N && (N_of_ascii c <? 127)%N && negb (Ascii.eqb c colon).

Lemma byte_in_false c l :
  Forall (fun n => n <> N_of_ascii c) l -> byte_in c l = false.
Proof.
  intros Hl. unfold byte_in, byte_of. apply not_true_iff_false.
  intros (n & Hn & E%N.eqb_eq)%existsb_exists.
  rewrite Forall_forall in Hl. apply (Hl n); [by apply list_elem_of_In|done].
Qed.

Definition solid (c : ascii) : Prop := (33 <= N_of_ascii c < 127)%N.

Lemma token_solid c : token_char c = true -> solid c /\ Ascii.eqb c colon = false.
Proof.
  unfold token_char, solid. rewrite !andb_true_iff, N.leb_le, N.ltb_lt, negb_true_iff. tauto.
Qed.
Lemma digit_token c : is_digit c = true -> token_char c = true.
Proof.
  unfold is_digit, token_char. rewrite !andb_true_iff, !N.leb_le, N.ltb_lt, negb_true_iff.
  intros [? ?]. split; [lia|]. destruct (Ascii.eqb_spec c colon) as [->|]; [cbn in *; lia|done].
Qed.
Lemma hex_token c : is_hex_digit c = true -> token_char c = true.
Proof.
  unfold is_hex_digit. destruct (is_digit c) eqn:E; [intros _; by apply digit_token|].
  unfold token_char. cbn. rewrite orb_true_iff, !andb_true_iff, !N.leb_le, N.ltb_lt, negb_true_iff.
  intros [[? ?]|[? ?]]; (split; [lia|]);
    (destruct (Ascii.eqb_spec c colon) as [->|]; [cbn in *; lia|done]).
Qed.

Lemma solid_starts c l : solid c -> starts_space (c :: l) = false.
Proof.
  intros [? ?]. cbn.
  assert (space1 c = false) as -> by (apply byte_in_false; repeat constructor; lia).
  destruct l as [|d l]; [done|].
  assert (space2 c d = false) as ->.
  { unfold space2. rewrite (byte_in_false c); [done|repeat constructor; lia]. }
  destruct l as [|e l]; [done|]. unfold space3.
  rewrite !(byte_in_false c) by (repeat constructor; lia). done.
Qed.

Lemma solid_ends c l : solid c -> ends_space (c :: l) = false.
Proof.
  intros [? ?]. cbn.
  assert (space1 c = false) as -> by (apply byte_in_false; repeat constructor; lia).
  destruct l as [|d l]; [done|].
  assert (space2 d c = false) as ->.
  { unfold space2. rewrite (byte_in_false c), andb_false_r; [done|repeat constructor; lia]. }
  destruct l as [|e l]; [done|]. unfold space3.
  rewrite !(byte_in_false c) by (repeat constructor; lia). by rewrite !andb_false_r.
Qed.

(** A string that starts and ends with solid characters is trimmed. *)
Lemma TrimSpace_solid c l d :
  solid c -> solid d -> (exists l', c :: l = l' ++ [d]) -> TrimSpace (l2s (c :: l)) = l2s (c :: l).
Proof.
  intros Hc Hd [l' E]. apply TrimSpace_id; rewrite s2l_l2s.
  - by apply solid_starts.
  - rewrite E, rev_app_distr. by apply solid_ends.
Qed.

Lemma last_index_app l k :
  forallb token_char k = true -> last_index_byte (l ++ colon :: k) colon = Some (length l).
Proof.
  intros Hk. assert (Hn : last_index_byte k colon = None).
  { induction k as [|c k IH]; [done|]. cbn in *. apply andb_true_iff in Hk as [Hc Hk].
    rewrite IH by done. by destruct (token_solid c Hc) as [_ ->]. }
  induction l as [|c l IH]; cbn -[Ascii.eqb]; [by rewrite Hn, Ascii.eqb_refl|by rewrite IH].
Qed.

Lemma last_index_none k : forallb token_char k = true -> last_index_byte k colon = None.
Proof.
  induction k as [|c k IH]; [done|]. cbn. rewrite andb_true_iff. intros [Hc Hk].
  rewrite IH by done. by destruct (token_solid c Hc) as [_ ->].
Qed.

Lemma forallb_impl {A} (p q : A -> bool) l :
  (forall x, p x = true -> q x = true) -> forallb p l = true -> forallb q l = true.
Proof. intros H. rewrite !forallb_forall. auto. Qed.

(** A note code, an episode suffix and a boot identifier. *)
Definition note_code (h : list ascii) : Prop := isIctHexDeviceEventID h = true.
Definition episode (e : list ascii) : Prop :=
  e <> [] /\ Z.of_nat (length e) <= 8 /\ cashEpisodeDigits e = true.
Definition boot_token (b : list ascii) : Prop :=
  b <> [] /\ forallb token_char b = true /\ isIctHexDeviceEventID b = false.

Lemma note_tokens h : note_code h -> length h = 6%nat /\ forallb token_char h = true.
Proof.
  unfold note_code, isIctHexDeviceEventID. rewrite andb_true_iff, Nat.eqb_eq.
  intros [? ?]. split; [done|]. eapply forallb_impl; [exact hex_token|done].
Qed.
Lemma episode_tokens e : episode e -> forallb token_char e = true.
Proof. intros (_ & _ & H). eapply forallb_impl; [exact digit_token|done]. Qed.

(** A nonempty list that ends in a token character is trimmed when it starts
    with one. *)
Lemma TrimSpace_tokens a b :
  a <> [] -> b <> [] -> forallb token_char a = true -> forallb token_char b = true ->
  forall m, TrimSpace (l2s (a ++ m ++ b)) = l2s (a ++ m ++ b).
Proof.
  intros Ha Hb Hta Htb m. destruct a as [|c a]; [done|].
  destruct (@exists_last _ b Hb) as (b' & d & ->).
  cbn in Hta. apply andb_true_iff in Hta as [Hc _].
  rewrite forallb_app in Htb. apply andb_true_iff in Htb as [_ Hd]. cbn in Hd.
  rewrite andb_true_r in Hd.
  apply (TrimSpace_solid _ _ d); [apply (token_solid _ Hc)|apply (token_solid _ Hd)|].
  exists (c :: a ++ m ++ b'). by rewrite <- app_comm_cons, <- !app_assoc.
Qed.

Lemma TrimSpace_token a : a <> [] -> forallb token_char a = true -> TrimSpace (l2s a) = l2s a.
Proof.
  intros Ha Hta. destruct (@exists_last _ a Ha) as (a' & d & E).
  destruct a as [|c a]; [done|].
  assert (Hd : token_char d = true).
  { rewrite E, forallb_app in Hta. apply andb_true_iff in Hta as [_ Hd]. cbn in Hd.
    by rewrite andb_true_r in Hd. }
  cbn in Hta. apply andb_true_iff in Hta as [Hc _].
  apply (TrimSpace_solid _ _ d); [apply (token_solid _ Hc)|apply (token_solid _ Hd)|]. by exists a'.
Qed.

Lemma Canonicalize_note h : note_code h ->
  CanonicalizeCashMovementDeviceEventID (l2s h) = l2s h.
Proof.
  intros Hh. destruct (note_tokens h Hh) as [Hl Ht].
  assert (h <> []) by (intros ->; done).
  unfold CanonicalizeCashMovementDeviceEventID.
  rewrite TrimSpace_token, s2l_l2s, last_index_none by done. by destruct (is_nil h).
Qed.

Lemma drop_after {A} (l : list A) x k : drop (S (length l)) (l ++ x :: k) = k.
Proof. induction l; cbn; [by rewrite drop_0|done]. Qed.

(** Stripping the episode of [pre ++ h], where [pre] is empty or a boot
    identifier with its colon. *)
Lemma Canonicalize_strip pre h e :
  note_code h -> episode e -> (pre = [] \/ exists b, boot_token b /\ pre = b ++ [colon]) ->
  CanonicalizeCashMovementDeviceEventID (l2s (pre ++ h ++ colon :: e)) = l2s (pre ++ h).
Proof.
  intros Hh He Hpre. destruct (note_tokens h Hh) as [Hl Ht].
  pose proof (episode_tokens e He) as Hte. destruct He as (Hne & Hle & Hd).
  assert (Hhn : h <> []) by (intros ->; done).
  assert (Htrim : TrimSpace (l2s (pre ++ h ++ colon :: e)) = l2s (pre ++ h ++ colon :: e)).
  { destruct Hpre as [->|(b & (Hb & Htb & _) & ->)]; cbn [app].
    - apply (TrimSpace_tokens h e Hhn Hne Ht Hte [colon]).
    - rewrite <- app_assoc.
      replace ([colon] ++ h ++ colon :: e) with ((colon :: h ++ [colon]) ++ e)
        by (cbn; by rewrite <- app_assoc).
      by apply TrimSpace_tokens. }
  unfold CanonicalizeCashMovementDeviceEventID. rewrite Htrim, s2l_l2s.
  rewrite app_assoc, last_index_app by done.
  destruct (is_nil _) eqn:En; [by destruct pre, h|].
  destruct (length (pre ++ h)) as [|n] eqn:El; [rewrite length_app in El; lia|].
  rewrite <- El.
  rewrite drop_after, take_app_length.
  destruct e as [|c e]; [done|]. cbn [is_nil orb].
  destruct (Z.ltb_spec 8 (Z.of_nat (length (c :: e)))); [lia|]. cbn [orb].
  rewrite Hd. cbn [negb].
  assert (match last_index_byte (pre ++ h) colon with
          | Some i => drop (S i) (pre ++ h) | None => pre ++ h end = h) as ->.
  { destruct Hpre as [->|(b & _ & ->)]; cbn [app].
    - by rewrite last_index_none.
    - rewrite <- app_assoc; cbn [app]. rewrite last_index_app by done.
      by rewrite drop_after. }
  by rewrite Hh.
Qed.

(** A qualified code has nothing to strip: the boot is not itself a code. *)
Lemma Canonicalize_booted b h : boot_token b -> note_code h ->
  CanonicalizeCashMovementDeviceEventID (l2s (b ++ colon :: h)) = l2s (b ++ colon :: h).
Proof.
  intros (Hb & Htb & Hbn) Hh. destruct (note_tokens h Hh) as [Hl Ht].
  assert (Hhn : h <> []) by (intros ->; done).
  unfold CanonicalizeCashMovementDeviceEventID.
  pose proof (TrimSpace_tokens b h Hb Hhn Htb Ht [colon]) as Htrim. cbn [app] in Htrim.
  rewrite Htrim, s2l_l2s.
  destruct (is_nil _); [done|]. rewrite last_index_app by done.
  destruct (length b) as [|n] eqn:El; [done|]. rewrite <- El.
  rewrite take_app_length, last_index_none, Hbn by done.
  by case_match.
Qed.

Lemma l2s_app a b : l2s (a ++ b) = l2s a +:+ l2s b.
Proof.
  induction a as [|c a IH]; [done|].
  change (l2s ((c :: a) ++ b)) with (String.String c (l2s (a ++ b))). by rewrite IH.
Qed.

Lemma append_assoc (a b c : string) : (a +:+ b) +:+ c = a +:+ (b +:+ c).
Proof. by rewrite <- (l2s_s2l a), <- (l2s_s2l b), <- (l2s_s2l c), <- !l2s_app, app_assoc. Qed.

Lemma note_no_prefix h s : note_code h ->
  (exists p, p ∈ movement_prefixes /\ String.prefix p (l2s h) = true) -> s = true.
Proof.
  intros Hh (p & Hp & (r & Hr)%prefix_spec). exfalso.
  destruct (note_tokens h Hh) as [Hl Ht].
  assert (Hin : colon ∈ s2l p).
  { unfold movement_prefixes in Hp. repeat (apply elem_of_cons in Hp as [->|Hp]; [cbn; set_solver|]).
    by apply not_elem_of_nil in Hp. }
  assert (E : h = s2l p ++ s2l r).
  { rewrite <- (s2l_l2s (s2l p ++ s2l r)), l2s_app, !l2s_s2l, <- Hr. by rewrite s2l_l2s. }
  rewrite E, forallb_app in Ht. apply andb_true_iff in Ht as [Ht _].
  rewrite forallb_forall in Ht. apply list_elem_of_In in Hin. by apply Ht in Hin.
Qed.

Lemma shouldPrefix_note h : note_code h -> shouldPrefixCashMovementBoot (l2s h) = true.
Proof.
  intros Hh. destruct (note_tokens h Hh) as [Hl Ht].
  assert (h <> []) by (intros ->; done).
  unfold shouldPrefixCashMovementBoot. rewrite TrimSpace_token, s2l_l2s, Hh by done.
  destruct (existsb _ _) eqn:E; [|done].
  apply existsb_exists in E as (p & Hp & E). apply (note_no_prefix h false Hh).
  exists p. split; [by apply list_elem_of_In|done].
Qed.

Lemma prefix_refl p r : HasPrefix (p +:+ r) p = true.
Proof. apply prefix_spec. by exists r. Qed.

Lemma blank_l2s l : l <> [] -> blank (l2s l) = false.
Proof. by destruct l. Qed.

(** every report of a note in one boot has the same identity *)
Theorem Qualify_one_identity boot h e :
  boot_token boot -> note_code h -> episode e ->
  let id := l2s (boot ++ colon :: h) in
  QualifyCashMovementDeviceEventID (l2s h) (l2s boot) = id /\
  QualifyCashMovementDeviceEventID (l2s (h ++ colon :: e)) (l2s boot) = id /\
  QualifyCashMovementDeviceEventID (l2s (boot ++ colon :: h ++ colon :: e)) (l2s boot) = id /\
  QualifyCashMovementDeviceEventID id (l2s boot) = id.
Proof.
  intros Hboot Hh He id.
  assert (Hpre : HasPrefix (l2s h) (l2s boot +:+ ":") = false).
  { apply not_true_iff_false. intros (r & Hr)%prefix_spec.
    destruct (note_tokens h Hh) as [_ Ht].
    assert (E : h = boot ++ colon :: s2l r).
    { apply (f_equal s2l) in Hr. rewrite s2l_l2s in Hr. rewrite Hr.
      rewrite <- (s2l_l2s (boot ++ colon :: s2l r)), l2s_app. f_equal.
      change (colon :: s2l r) with ([colon] ++ s2l r). rewrite l2s_app, l2s_s2l.
      by rewrite append_assoc. }
    rewrite E, forallb_app in Ht. apply andb_true_iff in Ht as [_ Ht]. by cbn in Ht. }
  assert (Hid : forall x, CanonicalizeCashMovementDeviceEventID x = l2s h ->
    QualifyCashMovementDeviceEventID x (l2s boot) = id).
  { intros x Hx. unfold QualifyCashMovementDeviceEventID. rewrite Hx.
    destruct Hboot as (Hb & Htb & _). rewrite (TrimSpace_token boot) by done.
    rewrite !blank_l2s by (try done; by intros ->). cbn [orb].
    rewrite Hpre, shouldPrefix_note by done. cbn [negb].
    unfold id. by rewrite l2s_app. }
  assert (Hid' : forall x, CanonicalizeCashMovementDeviceEventID x = id ->
    QualifyCashMovementDeviceEventID x (l2s boot) = id).
  { intros x Hx. unfold QualifyCashMovementDeviceEventID. rewrite Hx.
    destruct Hboot as (Hb & Htb & _). rewrite (TrimSpace_token boot) by done.
    rewrite (blank_l2s boot) by done. unfold id at 1.
    rewrite blank_l2s by (by destruct boot). cbn [orb].
    replace id with ((l2s boot +:+ ":") +:+ l2s h); [by rewrite prefix_refl|].
    unfold id. rewrite l2s_app. by rewrite append_assoc. }
  split_and!.
  - apply Hid, Canonicalize_note, Hh.
  - apply Hid, (Canonicalize_strip [] h e Hh He). by left.
  - apply Hid'. pose proof (Canonicalize_strip (boot ++ [colon]) h e Hh He) as Hs.
    rewrite <- !app_assoc in Hs. apply Hs. right. by exists boot.
  - apply Hid', Canonicalize_booted; done.
Qed.

Lemma Qualify_one_identity_witness :
  QualifyCashMovementDeviceEventID "01a2f3:17" "boot9" = "boot9:01a2f3" /\
  QualifyCashMovementDeviceEventID "boot9:01a2f3" "boot9" = "boot9:01a2f3".
Proof.
  destruct (Qualify_one_identity (s2l "boot9") (s2l "01a2f3") (s2l "17")) as (_ & H2 & _ & H4).
  - split; [discriminate|]. split; reflexivity.
  - reflexivity.
  - split; [discriminate|]. split; [discriminate|reflexivity].
  - split; [exact H2|exact H4].
Defined.
