(* ===== verification/Texts.v ===== *)
(** * Trimmed texts

    Keys the program builds from a trimmed text and a suffix, and case mapping. *)

From S2P Require Import Prelude.
From S2P Require Import GoStd.
From S2P Require Import CommerceTypes.
From S2P Require Import Evidence.
Local Open Scope string_scope.
Local Open Scope list_scope.
Local Open Scope Z_scope.

Definition solid_text (s : string) : bool :=
  forallb (fun c => (33 <=? N_of_ascii c)%N && (N_of_ascii c <? 127)%N) (s2l s).
Lemma solid_elem s c : solid_text s = true -> c ∈ s2l s -> solid c.
Proof.
  unfold solid_text. rewrite forallb_forall. intros Hs Hc%list_elem_of_In. specialize (Hs c Hc).
  apply andb_true_iff in Hs as [?%N.leb_le ?%N.ltb_lt]. by split.
Qed.
Lemma starts_space_suffix l c k :
  l <> [] -> starts_space l = false -> solid c -> starts_space (l ++ c :: k) = false.
Proof.
  intros Hne Hl [? ?]. destruct l as [|a [|b [|e l]]]; cbn in *; [done|..].
  - rewrite orb_false_r in Hl. rewrite Hl. cbn.
    assert (space2 a c = false) as ->.
    { unfold space2. rewrite (byte_in_false c), andb_false_r; [done|repeat constructor; lia]. }
    destruct k as [|e k]; [done|]. unfold space3.
    rewrite !(byte_in_false c) by (repeat constructor; lia). by rewrite !andb_false_r.
  - rewrite orb_false_r in Hl. apply orb_false_iff in Hl as [-> ->]. cbn.
    unfold space3. rewrite !(byte_in_false c) by (repeat constructor; lia). by rewrite !andb_false_r.
  - done.
Qed.
Lemma TrimSpace_starts key : starts_space (s2l (TrimSpace key)) = false.
Proof.
  set (k := TrimSpace key). pose proof (TrimSpace_idemp key) as E. fold k in E. unfold TrimSpace in E.
  apply (f_equal s2l) in E. rewrite s2l_l2s in E. destruct (starts_space (s2l k)) eqn:Est; [|done]. exfalso.
  destruct (trim_back_suffix (rev (trim_front (s2l k)))) as [x Ex].
  assert (El : trim_front (s2l k) = s2l k ++ rev x).
  { rewrite <- E at 2. rewrite <- rev_app_distr, <- Ex. by rewrite rev_involutive. }
  pose proof (trim_front_done (s2l k)) as Hd. rewrite El in Hd. by rewrite (starts_space_app _ _ Est) in Hd.
Qed.
Lemma s2l_app a b : s2l (a +:+ b) = s2l a ++ s2l b.
Proof. by rewrite <- (l2s_s2l a), <- (l2s_s2l b), <- l2s_app, !s2l_l2s. Qed.
Lemma s2l_nonblank s : blank s = false -> s2l s <> [].
Proof. intros Hb E. by rewrite <- (l2s_s2l s), E in Hb. Qed.
(** A trimmed key with a suffix of visible characters is trimmed, and is no blank. *)
Lemma TrimSpace_suffix key suf :
  blank (TrimSpace key) = false -> solid_text suf = true -> suf <> "" ->
  TrimSpace (TrimSpace key +:+ suf) = TrimSpace key +:+ suf.
Proof.
  intros Hk Hs Hne. set (k := TrimSpace key) in *.
  assert (Ek : s2l k <> []) by by apply s2l_nonblank.
  assert (Es : s2l suf <> []). { intros E. apply Hne. by rewrite <- (l2s_s2l suf), E. }
  assert (Ea : s2l (k +:+ suf) = s2l k ++ s2l suf) by apply s2l_app.
  assert (Hst : starts_space (s2l k) = false) by apply TrimSpace_starts.
  destruct (exists_last Es) as (s' & c & El). apply TrimSpace_id; rewrite Ea.
  - destruct (s2l suf) as [|c0 k0] eqn:E0; [done|]. apply starts_space_suffix; [done..|].
    apply (solid_elem suf); [done|]. rewrite E0. by left.
  - rewrite El, app_assoc, rev_app_distr. apply solid_ends, (solid_elem suf); [done|].
    rewrite El. apply elem_of_app. right. by left.
Qed.
Lemma blank_suffix a b : b <> "" -> blank (a +:+ b) = false.
Proof. intros Hb. apply blank_false. intros E. apply Hb. by destruct a. Qed.

Lemma trim_back_nil r : trim_back r = [] -> r <> [] -> starts_space (rev r) = true.
Proof.
  remember (length r) as n eqn:En. revert r En. induction n as [n IH] using lt_wf_ind; intros r -> E Hne.
  assert (Hstep : forall k l', r = k ++ l' -> k <> [] -> trim_back l' = [] -> starts_space (rev k) = true ->
    starts_space (rev r) = true).
  { intros k l' -> Hk El Hs. rewrite rev_app_distr. destruct l' as [|c l'].
    - done.
    - apply starts_space_app. apply (IH (length (c :: l'))); [|done|done|done].
      rewrite length_app. destruct k; [done|cbn; lia]. }
  destruct r as [|c l1]; [done|]. cbn in E.
  destruct (space1 c) eqn:E1; [apply (Hstep [c] l1); cbn; by rewrite ?E1|].
  destruct l1 as [|d l2]; [done|].
  destruct (space2 d c) eqn:E2; [apply (Hstep [c; d] l2); cbn; rewrite ?E2, ?orb_true_r; done|].
  destruct l2 as [|e l3]; [done|].
  destruct (space3 e d c) eqn:E3; [apply (Hstep [c; d; e] l3); cbn; rewrite ?E3, ?orb_true_r; done|done].
Qed.
(** What starts with a visible character is not blank. *)
Lemma TrimSpace_not_blank s : s2l s <> [] -> starts_space (s2l s) = false -> blank (TrimSpace s) = false.
Proof.
  intros Hne Hs. apply blank_false. intros E. apply (f_equal s2l) in E. unfold TrimSpace in E.
  rewrite s2l_l2s, trim_front_id in E by done. change (s2l "") with ([] : list ascii) in E.
  assert (trim_back (rev (s2l s)) = []) as Et by (rewrite <- (rev_involutive (trim_back _)), E; done).
  apply trim_back_nil in Et; [by rewrite rev_involutive, Hs in Et|]. intros Er. apply Hne.
  by rewrite <- (rev_involutive (s2l s)), Er.
Qed.
(** A trimmed key with a suffix that starts with a visible character. *)
Lemma suffixed_not_blank key c k :
  blank (TrimSpace key) = false -> solid c -> blank (TrimSpace (TrimSpace key +:+ String c k)) = false.
Proof.
  intros Hk Hc. apply TrimSpace_not_blank; rewrite s2l_app.
  - intros [E _]%app_eq_nil. by apply s2l_nonblank in Hk.
  - apply starts_space_suffix; [by apply s2l_nonblank|apply TrimSpace_starts|done].
Qed.

Lemma upper_idemp c : upper_ascii (upper_ascii c) = upper_ascii c.
Proof. destruct c as [[] [] [] [] [] [] [] []]; reflexivity. Qed.
Lemma ToUpper_idemp s : ToUpper (ToUpper s) = ToUpper s.
Proof. unfold ToUpper. rewrite s2l_l2s, map_map. f_equal. apply map_ext, upper_idemp. Qed.

Lemma lower_idemp c : lower_ascii (lower_ascii c) = lower_ascii c.
Proof. destruct c as [[] [] [] [] [] [] [] []]; reflexivity. Qed.
Lemma ToLower_idemp s : ToLower (ToLower s) = ToLower s.
Proof. unfold ToLower. rewrite s2l_l2s, map_map. f_equal. apply map_ext, lower_idemp. Qed.
(** No letter is a byte of a space. *)
Lemma byte_in_lower c l :
  forallb (fun n => (n <? 65) || (122 <? n))%N l = true -> byte_in (lower_ascii c) l = byte_in c l.
Proof.
  intros Hl. unfold lower_ascii. destruct (_ && _) eqn:E; [|done].
  apply andb_true_iff in E as [E1%N.leb_le E2%N.leb_le].
  assert (Hn : N_of_ascii (ascii_of_N (N_of_ascii c + 32)) = (N_of_ascii c + 32)%N) by (apply N_ascii_embedding; lia).
  rewrite !byte_in_false; [done|..]; apply Forall_forall; intros n Hin%list_elem_of_In;
    rewrite forallb_forall in Hl; apply Hl in Hin; rewrite ?Hn;
    apply orb_true_iff in Hin as [?%N.ltb_lt|?%N.ltb_lt]; lia.
Qed.
Lemma space1_lower c : space1 (lower_ascii c) = space1 c. Proof. by apply byte_in_lower. Qed.
Lemma space2_lower c d : space2 (lower_ascii c) (lower_ascii d) = space2 c d.
Proof. unfold space2. by rewrite !byte_in_lower. Qed.
Lemma space3_lower c d e : space3 (lower_ascii c) (lower_ascii d) (lower_ascii e) = space3 c d e.
Proof. unfold space3. by rewrite !byte_in_lower. Qed.
(** Lower case keeps a trimmed text trimmed. *)
Lemma TrimSpace_lower s : TrimSpace (ToLower (TrimSpace s)) = ToLower (TrimSpace s).
Proof.
  assert (He : ends_space (rev (s2l (TrimSpace s))) = false).
  { unfold TrimSpace. rewrite s2l_l2s, rev_involutive. apply trim_back_done. }
  pose proof (TrimSpace_starts s) as Hs. apply TrimSpace_id; unfold ToLower; rewrite s2l_l2s.
  - revert Hs. generalize (s2l (TrimSpace s)) as l. intros [|c [|d [|e l]]]; cbn;
      by rewrite ?space1_lower, ?space2_lower, ?space3_lower.
  - rewrite <- map_rev. revert He. generalize (rev (s2l (TrimSpace s))) as l. intros [|c [|d [|e l]]]; cbn;
      by rewrite ?space1_lower, ?space2_lower, ?space3_lower.
Qed.
Lemma lower_trim_idemp s : ToLower (TrimSpace (ToLower (TrimSpace s))) = ToLower (TrimSpace s).
Proof. by rewrite TrimSpace_lower, ToLower_idemp. Qed.
