(* ===== verification/Snapshot.v ===== *)
(** * Machine pricing snapshots

    internal/app/commerce/offline_sale_pricing.go and
    pricing_snapshot_quote.go: the sealed prices a machine declares for an
    order, their validation, their classification against the server price
    or the machine's layout mirror, and the replay check; and the selection
    of a snapshot line and the stale-assortment test of
    sale_line_checkout.go. *)

From S2P Require Import Prelude.
From S2P Require Import GoStd.
From S2P Require Import Pricing.
From S2P Require Import CommerceTypes.
From S2P Require Import Sanitize.
From S2P Require Import Evidence.
From stdpp Require Import gmap.
Local Open Scope string_scope.
Local Open Scope list_scope.
Local Open Scope Z_scope.

Definition PricingSourceServerPriced : string := "server_priced".
Definition PricingSourceMachineLocalVerified : string := "machine_local_verified".
Definition PricingSourceMachineLocalUnverified : string := "machine_local_unverified".

Definition pricingSnapshotMaxSkew : Z := 24 * Hour.
Definition pricingSnapshotMaxFutureSkew : Z := 5 * Minute.
Definition pricingMaxUnitPriceMinor : Z := 100000000.

(** ** Validation *)

Section Validate.
Context `{UuidText}.

Definition validateMachinePricingSnapshotTotals (snap : MachinePricingSnapshotInput) : res unit :=
  let? _ := guard_err (ps_TotalMinor snap <=? 0)
              (invalid_arg "pricing_snapshot total_minor must be positive") in
  let? _ := guard_err ((ps_SubtotalMinor snap <? 0) || (ps_TaxMinor snap <? 0))
              (invalid_arg "pricing_snapshot amounts must be non-negative") in
  let? _ := guard_err (negb (add64 (ps_SubtotalMinor snap) (ps_TaxMinor snap)
                             =? ps_TotalMinor snap))
              (invalid_arg "pricing_snapshot line sum does not match total_minor") in
  guard_err (ps_LocalPricingRevision snap <? 0)
    (invalid_arg "pricing_snapshot local_pricing_revision must be non-negative").

Definition validateMachinePricingSnapshotLegacySingleLine (snap : MachinePricingSnapshotInput)
    : res unit :=
  let? _ := validateMachinePricingSnapshotTotals snap in
  let? _ := guard_err (ps_UnitPriceMinor snap <=? 0)
              (invalid_arg "pricing_snapshot unit_price_minor must be positive") in
  guard_err (negb (ps_UnitPriceMinor snap =? ps_SubtotalMinor snap))
    (invalid_arg "pricing_snapshot unit_price_minor must match subtotal_minor for single-line order").

(** The identity under which a line may occur once. *)
Definition line_identity (ln : MachinePricingSnapshotLineInput) : string :=
  ToUpper (TrimSpace (pl_CabinetCode ln)) +:+ "|" +:+
  ToUpper (TrimSpace (pl_SlotCode ln)) +:+ "|" +:+ uuid_String (pl_ProductID ln).

(** The loop over the lines: running sum, sequences and identities seen. *)
Fixpoint validate_lines (lineSum : Z) (seenSeq : list Z) (seenIdentity : list string)
    (lines : list MachinePricingSnapshotLineInput) : res Z :=
  match lines with
  | [] => Ok lineSum
  | ln :: rest =>
      let? _ := guard_err (pl_LineSequence ln <=? 0)
                  (invalid_arg "pricing_snapshot line_sequence must be positive") in
      let? _ := guard_err (existsb (Z.eqb (pl_LineSequence ln)) seenSeq)
                  (invalid_arg "pricing_snapshot duplicate line_sequence") in
      let? _ := guard_err (existsb (String.eqb (line_identity ln)) seenIdentity)
                  (invalid_arg "pricing_snapshot duplicate line identity") in
      let? _ := guard_err (pl_Quantity ln <=? 0)
                  (invalid_arg "pricing_snapshot quantity must be positive") in
      let qty := pl_Quantity ln in
      let? _ := guard_err ((pl_UnitPriceMinor ln <=? 0) ||
                           (pricingMaxUnitPriceMinor <? pl_UnitPriceMinor ln))
                  (invalid_arg "pricing_snapshot unit_price_minor out of range") in
      let? _ := guard_err (Z.quot MaxInt64 qty <? pl_UnitPriceMinor ln)
                  (invalid_arg "pricing_snapshot line subtotal overflow") in
      let? _ := guard_err (negb (pl_LineSubtotalMinor ln =? mul64 (pl_UnitPriceMinor ln) qty))
                  (invalid_arg "pricing_snapshot line subtotal mismatch") in
      let? _ := guard_err (sub64 MaxInt64 (pl_LineSubtotalMinor ln) <? lineSum)
                  (invalid_arg "pricing_snapshot subtotal overflow") in
      validate_lines (add64 lineSum (pl_LineSubtotalMinor ln))
        (pl_LineSequence ln :: seenSeq) (line_identity ln :: seenIdentity) rest
  end.

(** [now] is the clock reading of [time.Now]. *)
Definition validateMachinePricingSnapshotMultiLine (now : Z)
    (snap : MachinePricingSnapshotInput) (lineCount : Z) : res unit :=
  let? _ := validateMachinePricingSnapshotTotals snap in
  let lines := ps_Lines snap in
  match lines with
  | [] => if lineCount =? 1 then validateMachinePricingSnapshotLegacySingleLine snap
          else Err (invalid_arg "pricing_snapshot lines required for multi-line quote")
  | l0 :: _ =>
      let n := Z.of_nat (length lines) in
      let? _ := guard_err ((0 <? lineCount) && negb (n =? lineCount))
                  (invalid_arg "pricing_snapshot line count mismatch") in
      let? _ := (if negb (IsZero (ps_CapturedAt snap)) then
                   let age := now - ps_CapturedAt snap in
                   guard_err ((age <? - pricingSnapshotMaxFutureSkew) ||
                              (pricingSnapshotMaxSkew <? age))
                     (invalid_arg "pricing_snapshot captured_at outside allowed skew")
                 else Ok tt) in
      let? lineSum := validate_lines 0 [] [] lines in
      let? _ := guard_err (negb (lineSum =? ps_SubtotalMinor snap))
                  (invalid_arg "pricing_snapshot subtotal does not match line sum") in
      guard_err ((n =? 1) && (0 <? ps_UnitPriceMinor snap) &&
                 negb (ps_UnitPriceMinor snap =? pl_UnitPriceMinor l0))
        (invalid_arg "pricing_snapshot unit_price_minor must match the single line unit price")
  end.

Definition validateMachinePricingSnapshot (now : Z) (snap : MachinePricingSnapshotInput)
    : res unit :=
  if negb (is_nil (ps_Lines snap)) then
    validateMachinePricingSnapshotMultiLine now snap (Z.of_nat (length (ps_Lines snap)))
  else validateMachinePricingSnapshotLegacySingleLine snap.

(** ** Classification and replay *)

Definition isMachineLocalPricingSource (source : string) : bool :=
  let s := TrimSpace source in
  String.eqb s PricingSourceMachineLocalVerified ||
  String.eqb s PricingSourceMachineLocalUnverified.

Definition validateReplayPricingSnapshot (snap : option MachinePricingSnapshotInput)
    (order : Order) : res unit :=
  match snap with
  | None => Ok tt
  | Some snap =>
      if negb (isMachineLocalPricingSource (o_PricingSource order)) then Ok tt
      else guard_err (negb (ps_TotalMinor snap =? o_TotalMinor order) ||
                      negb (ps_SubtotalMinor snap =? o_SubtotalMinor order) ||
                      negb (ps_TaxMinor snap =? o_TaxMinor order))
             ErrIdempotencyPayloadConflict
  end.

Definition classifyMachineLocalPricingSource (snap : MachinePricingSnapshotInput)
    (server : ResolvedSaleLine) : string :=
  if (ps_UnitPriceMinor snap =? sl_PriceMinor server) &&
     (ps_SubtotalMinor snap =? sl_SubtotalMinor server) &&
     (ps_TotalMinor snap =? sl_TotalMinor server)
  then PricingSourceMachineLocalVerified else PricingSourceMachineLocalUnverified.

(** LocalLayoutMirror with its slots JSON. *)
Record LocalLayoutMirror := mk_LocalLayoutMirror {
  mi_Revision : Z; mi_SlotsJSON : rawjson; mi_ReportedAt : Z }.

Record mirrorSlotPrice := mk_mirrorSlotPrice {
  ms_SlotCode : string; ms_ProductID : string; ms_PriceMinor : Z;
  ms_LocalPricingRevision : Z }.

Definition mirrorSlotKey (slotCode productID : string) : string :=
  ToUpper slotCode +:+ "|" +:+ TrimSpace productID.

Definition decode_mirrorSlotPrice (v : json) : option mirrorSlotPrice :=
  match v with
  | JNull => Some (mk_mirrorSlotPrice "" "" 0 0)
  | JObj fs =>
      match json_string "slotCode" fs, json_string "productId" fs,
            json_int64 "priceMinor" fs, json_int64 "localPricingRevision" fs with
      | Some c, Some p, Some m, Some r => Some (mk_mirrorSlotPrice c p m r)
      | _, _, _, _ => None
      end
  | _ => None
  end.

Definition decode_mirror (j : rawjson) : option (list mirrorSlotPrice) :=
  match j with
  | RawEmpty => Some []
  | RawInvalid => None
  | RawJSON JNull => Some []
  | RawJSON (JArr l) => mapM decode_mirrorSlotPrice l
  | RawJSON _ => None
  end.

(** [None] is a decoding error. *)
Definition parseMirrorSlotPrices (j : rawjson) : option (gmap string mirrorSlotPrice) :=
  slots ← decode_mirror j;
  Some (foldl (fun m slot =>
          let code := TrimSpace (ms_SlotCode slot) in
          if String.eqb code "" then m
          else <[mirrorSlotKey code (TrimSpace (ms_ProductID slot)) := slot]> m) ∅ slots).

Definition mirror_line_ok (snap : MachinePricingSnapshotInput)
    (prices : gmap string mirrorSlotPrice) (ln : MachinePricingSnapshotLineInput) : bool :=
  match prices !! mirrorSlotKey (pl_SlotCode ln) (uuid_String (pl_ProductID ln)) with
  | None => false
  | Some slot =>
      (ms_PriceMinor slot =? pl_UnitPriceMinor ln) &&
      negb ((0 <? ps_LocalPricingRevision snap) && (0 <? ms_LocalPricingRevision slot) &&
            (ms_LocalPricingRevision slot <? ps_LocalPricingRevision snap))
  end.

Definition classifyMachineLocalPricingSourceFromMirror (snap : MachinePricingSnapshotInput)
    (mirror : LocalLayoutMirror) : string :=
  if is_nil (ps_Lines snap) then PricingSourceMachineLocalUnverified else
  match parseMirrorSlotPrices (mi_SlotsJSON mirror) with
  | None => PricingSourceMachineLocalUnverified
  | Some prices =>
      if bool_decide (prices = ∅) then PricingSourceMachineLocalUnverified
      else if forallb (mirror_line_ok snap prices) (ps_Lines snap)
      then PricingSourceMachineLocalVerified else PricingSourceMachineLocalUnverified
  end.

Fixpoint snapshotLineUnitPrice_in (lines : list MachinePricingSnapshotLineInput)
    (seq fallback : Z) : Z :=
  match lines with
  | [] => fallback
  | ln :: rest => if pl_LineSequence ln =? seq then pl_UnitPriceMinor ln
                  else snapshotLineUnitPrice_in rest seq fallback
  end.
Definition snapshotLineUnitPrice (snap : MachinePricingSnapshotInput) (seq fallback : Z) : Z :=
  snapshotLineUnitPrice_in (ps_Lines snap) seq fallback.
End Validate.

(** ** The persisted snapshot and line selection *)

Section Lines.
Context `{UuidText}.


Definition snapshot_line_json (ln : MachinePricingSnapshotLineInput) : json :=
  JObj (go_map [("line_sequence", JInt (pl_LineSequence ln));
        ("product_id", JStr (uuid_String (pl_ProductID ln)));
        ("cabinet_code", JStr (pl_CabinetCode ln));
        ("slot_code", JStr (pl_SlotCode ln));
        ("slot_index", JInt (pl_SlotIndex ln));
        ("quantity", JInt (pl_Quantity ln));
        ("unit_price_minor", JInt (pl_UnitPriceMinor ln));
        ("line_subtotal_minor", JInt (pl_LineSubtotalMinor ln));
        ("pricing_sync_state", JStr (pl_PricingSyncState ln))]).

Definition machinePricingSnapshotJSON (snap : MachinePricingSnapshotInput) : json :=
  JObj (go_map ([("schema_version", JInt 2);
         ("snapshot_id", JStr (TrimSpace (ps_SnapshotID snap)));
         ("subtotal_minor", JInt (ps_SubtotalMinor snap));
         ("tax_minor", JInt (ps_TaxMinor snap));
         ("total_minor", JInt (ps_TotalMinor snap));
         ("unit_price_minor", JInt (ps_UnitPriceMinor snap));
         ("local_pricing_revision", JInt (ps_LocalPricingRevision snap));
         ("pricing_fingerprint", JStr (ps_PricingFingerprint snap));
         ("slot_config_version", JInt (ps_SlotConfigVersion snap));
         ("server_pricing_fingerprint", JStr (ps_ServerPricingFingerprint snap))] ++
        (if negb (IsZero (ps_CapturedAt snap))
         then [("captured_at", JStr (Format_RFC3339Nano (ps_CapturedAt snap)))] else []) ++
        (if negb (is_nil (ps_Lines snap))
         then [("lines", JArr (map snapshot_line_json (ps_Lines snap)))] else []))).

(** ResolveSaleLineInput has the fields of the engine's selector. *)
Abbreviation ResolveSaleLineInput := SaleLineSelector (only parsing).

Fixpoint find_snapshot_line (slotCode : string) (productID : N)
    (lines : list MachinePricingSnapshotLineInput) : option MachinePricingSnapshotLineInput :=
  match lines with
  | [] => None
  | ln :: rest =>
      if negb (productID =u uuid_Nil) && negb (pl_ProductID ln =u uuid_Nil) &&
         negb (pl_ProductID ln =u productID) then find_snapshot_line slotCode productID rest
      else if negb (blank slotCode) && negb (EqualFold (TrimSpace (pl_SlotCode ln)) slotCode)
      then find_snapshot_line slotCode productID rest
      else Some ln
  end.

Definition snapshotLineForSelector (snap : MachinePricingSnapshotInput)
    (in_ : ResolveSaleLineInput) : option MachinePricingSnapshotLineInput :=
  let slotCode := TrimSpace (ss_SlotCode in_) in
  let productID := ss_ProductID in_ in
  if is_nil (ps_Lines snap) then
    if blank slotCode || (productID =u uuid_Nil) then None
    else Some (mk_MachinePricingSnapshotLineInput 1 productID "" slotCode 0 1
                 (ps_UnitPriceMinor snap) (ps_SubtotalMinor snap) "")
  else find_snapshot_line slotCode productID (ps_Lines snap).

(** [IsAssortmentStaleError]: a test on the error text. *)
Definition IsAssortmentStaleError (err : goerr) : bool :=
  let msg := ToLower (err_Error err) in
  Contains msg "no matching current slot config" ||
  Contains msg "product is not in the machine's published assortment".
End Lines.

(** ** Accepted snapshots add up *)

Section Theorems.
Context `{UuidText}.

(** The machine widths of the fields. *)
Definition line_in_range (ln : MachinePricingSnapshotLineInput) : Prop :=
  in_int32 (pl_LineSequence ln) /\ in_int32 (pl_Quantity ln) /\
  in_int64 (pl_UnitPriceMinor ln) /\ in_int64 (pl_LineSubtotalMinor ln).
Definition snapshot_in_range (snap : MachinePricingSnapshotInput) : Prop :=
  in_int64 (ps_SubtotalMinor snap) /\ in_int64 (ps_TaxMinor snap) /\
  in_int64 (ps_TotalMinor snap) /\ Forall line_in_range (ps_Lines snap).

Definition sum_Z (l : list Z) : Z := foldr Z.add 0 l.

Lemma totals_exact snap :
  snapshot_in_range snap -> validateMachinePricingSnapshotTotals snap = Ok tt ->
  0 < ps_TotalMinor snap /\ 0 <= ps_SubtotalMinor snap /\ 0 <= ps_TaxMinor snap /\
  ps_SubtotalMinor snap + ps_TaxMinor snap = ps_TotalMinor snap.
Proof.
  intros (Hs & Ht & Htot & _). unfold validateMachinePricingSnapshotTotals.
  rewrite !bind_guard, guard_err_Ok, orb_false_iff, negb_false_iff, !Z.ltb_ge, Z.leb_gt, Z.eqb_eq.
  intros (? & (? & ?) & Hadd & _). split_and!; try lia.
  unfold add64, wrap64, wrap in Hadd. unfold_int.
  pose proof (Z.mod_pos_bound (ps_SubtotalMinor snap + ps_TaxMinor snap + 2 ^ (64 - 1)) (2 ^ 64) eq_refl).
  assert (E : (ps_SubtotalMinor snap + ps_TaxMinor snap + 2 ^ (64 - 1)) mod 2 ^ 64 =
              ps_SubtotalMinor snap + ps_TaxMinor snap + 2 ^ (64 - 1)).
  { destruct (Z_lt_ge_dec (ps_SubtotalMinor snap + ps_TaxMinor snap + 2 ^ (64 - 1)) (2 ^ 64)).
    - apply Z.mod_small. change (2 ^ (64 - 1)) with 9223372036854775808 in *. lia.
    - exfalso. revert Hadd.
      rewrite <- (Z_mod_plus_full _ (-1)), Z.mod_small;
        change (2 ^ (64 - 1)) with 9223372036854775808 in *;
        change (2 ^ 64) with 18446744073709551616 in *; lia. }
  rewrite E in Hadd. lia.
Qed.

Lemma existsb_eqb_Z x l : existsb (Z.eqb x) l = false <-> x ∉ l.
Proof.
  rewrite <- not_true_iff_false, existsb_exists, list_elem_of_In.
  split; intros Hn Hx; apply Hn.
  - exists x. by rewrite Z.eqb_refl.
  - destruct Hx as (y & Hy & ->%Z.eqb_eq). done.
Qed.
Lemma existsb_eqb_string x l : existsb (String.eqb x) l = false <-> x ∉ l.
Proof.
  rewrite <- not_true_iff_false, existsb_exists, list_elem_of_In.
  split; intros Hn Hx; apply Hn.
  - exists x. by rewrite String.eqb_refl.
  - destruct Hx as (y & Hy & ->%String.eqb_eq). done.
Qed.

(** A line the loop accepts. *)
Definition line_exact (ln : MachinePricingSnapshotLineInput) : Prop :=
  0 < pl_LineSequence ln /\ 0 < pl_Quantity ln /\
  0 < pl_UnitPriceMinor ln <= pricingMaxUnitPriceMinor /\
  pl_LineSubtotalMinor ln = pl_UnitPriceMinor ln * pl_Quantity ln.

Lemma validate_lines_exact lines : forall acc seqs ids total,
  0 <= acc <= MaxInt64 -> Forall line_in_range lines ->
  validate_lines acc seqs ids lines = Ok total ->
  Forall line_exact lines /\ total = acc + sum_Z (map pl_LineSubtotalMinor lines) /\
  total <= MaxInt64 /\
  NoDup (map pl_LineSequence lines) /\ (forall x, x ∈ map pl_LineSequence lines -> x ∉ seqs) /\
  NoDup (map line_identity lines) /\ (forall x, x ∈ map line_identity lines -> x ∉ ids).
Proof.
  induction lines as [|ln lines IH]; intros acc seqs ids total Hacc Hr; cbn -[MaxInt64 Z.quot].
  { intros [= <-]. split_and!; try constructor; try lia; set_solver. }
  apply Forall_cons in Hr as [(Hseq & Hq & Hu & Hsub) Hr].
  assert (Hbind : forall b e (k : res Z), res_bind (guard_err b e) (fun _ => k) = Ok total <->
            b = false /\ k = Ok total).
  { intros [] e k; cbn; naive_solver. }
  rewrite !Hbind, existsb_eqb_Z, existsb_eqb_string, orb_false_iff, negb_false_iff, !Z.leb_gt,
    !Z.ltb_ge, Z.eqb_eq.
  intros (Hs & Hns & Hni & Hqp & (Hup & Hmax) & Hquot & Hprod & Hsum & Hrest).
  assert (Hp : pl_LineSubtotalMinor ln = pl_UnitPriceMinor ln * pl_Quantity ln).
  { rewrite Hprod. apply mul64_id. unfold pricingMaxUnitPriceMinor in *. unfold_int. nia. }
  assert (0 <= pl_LineSubtotalMinor ln) by (rewrite Hp; nia).
  rewrite sub64_id in Hsum by (unfold_int; lia).
  rewrite add64_id in Hrest by (unfold_int; lia).
  apply IH in Hrest as (Hle & -> & Hb & Hnd & Hdis & Hnd' & Hdis'); [|unfold_int; lia|done].
  split_and!.
  - constructor; [|done]. done.
  - unfold sum_Z. cbn. lia.
  - unfold sum_Z in *. cbn in *. lia.
  - constructor; [|done]. intros Hin. apply Hdis in Hin. set_solver.
  - intros x [->|Hx]%elem_of_cons; [done|]. apply Hdis in Hx. set_solver.
  - constructor; [|done]. intros Hin. apply Hdis' in Hin. set_solver.
  - intros x [->|Hx]%elem_of_cons; [done|]. apply Hdis' in Hx. set_solver.
Qed.

(** An accepted snapshot adds up exactly, without overflow *)
Theorem validated_snapshot_adds_up now snap :
  snapshot_in_range snap -> validateMachinePricingSnapshot now snap = Ok tt ->
  0 < ps_TotalMinor snap /\
  ps_SubtotalMinor snap + ps_TaxMinor snap = ps_TotalMinor snap /\
  match ps_Lines snap with
  | [] => ps_UnitPriceMinor snap = ps_SubtotalMinor snap
  | lines =>
      Forall line_exact lines /\
      sum_Z (map pl_LineSubtotalMinor lines) = ps_SubtotalMinor snap /\
      NoDup (map pl_LineSequence lines) /\ NoDup (map line_identity lines)
  end.
Proof.
  intros Hr. unfold validateMachinePricingSnapshot.
  destruct (ps_Lines snap) as [|l0 ls] eqn:El; cbn [is_nil negb].
  - unfold validateMachinePricingSnapshotLegacySingleLine. rewrite bind_unit, bind_guard, guard_err_Ok.
    rewrite negb_false_iff, Z.eqb_eq. intros (Ht & _ & Hu).
    apply totals_exact in Ht; [tauto|done].
  - unfold validateMachinePricingSnapshotMultiLine. rewrite El, bind_unit, bind_guard, bind_unit.
    intros (Ht & _ & _ & Hl). apply totals_exact in Ht; [|done].
    apply res_bind_Ok in Hl as (total & Hl & Hrest).
    rewrite bind_guard, negb_false_iff, Z.eqb_eq in Hrest. destruct Hrest as [Hs _].
    apply validate_lines_exact in Hl as (? & -> & _ & ? & _ & ? & _).
    + split_and!; try done; lia.
    + unfold_int; lia.
    + destruct Hr as (_ & _ & _ & Hr). by rewrite El in Hr.
Qed.
End Theorems.

(** Slot selection is unambiguous, and exactly the missing slot is reported
    as a stale assortment *)
Theorem slot_selection_contract rows sel :
  match PickSlotRowFromInventory rows sel with
  | Ok r => exists l1 l2, rows = l1 ++ r :: l2 /\ matchSlotRow sel r = true /\
              forall x, x ∈ l1 ++ l2 -> matchSlotRow sel x = false
  | Err e =>
      errors_Is e ErrInvalidArgument = true /\
      if IsAssortmentStaleError e
      then forall x, x ∈ rows -> matchSlotRow sel x = false
      else exists l1 x l2 y l3, rows = l1 ++ x :: l2 ++ y :: l3 /\
             matchSlotRow sel x = true /\ matchSlotRow sel y = true
  end.
Proof.
  pose proof (pickSlotRow_cases rows sel) as Hc.
  destruct (PickSlotRowFromInventory rows sel) as [r|e]; [done|].
  destruct Hc as [[-> Hc]|[-> Hc]]; (split; [reflexivity|]).
  - by replace (IsAssortmentStaleError errNoSlotMatch) with true by (vm_compute; reflexivity).
  - by replace (IsAssortmentStaleError errAmbiguousSlot) with false by (vm_compute; reflexivity).
Qed.

(** ** Witness *)

Definition sample_line (seq qty unit_price : Z) (slot : string) : MachinePricingSnapshotLineInput :=
  mk_MachinePricingSnapshotLineInput seq 21 "A" slot seq qty unit_price (unit_price * qty) "synced".
Definition sample_snapshot : MachinePricingSnapshotInput :=
  mk_MachinePricingSnapshotInput 4500 0 4500 1000 7 "fp" (100 * Hour) "snap-1" 3 "sfp"
    [sample_line 1 2 1000 "A1"; sample_line 2 1 2500 "A2"].

Lemma validated_snapshot_adds_up_witness :
  @validateMachinePricingSnapshot decimal_uuid (100 * Hour) sample_snapshot = Ok tt /\
  sum_Z (map pl_LineSubtotalMinor (ps_Lines sample_snapshot)) = ps_TotalMinor sample_snapshot.
Proof.
  assert (Hok : @validateMachinePricingSnapshot decimal_uuid (100 * Hour) sample_snapshot = Ok tt)
    by (vm_compute; reflexivity).
  split; [exact Hok|].
  destruct (validated_snapshot_adds_up (H := decimal_uuid) (100 * Hour) sample_snapshot)
    as (_ & Ht & _ & Hs & _); [|exact Hok|].
  - unfold snapshot_in_range, line_in_range; cbn. unfold_int.
    split_and!; try lia. repeat constructor; cbn; lia.
  - transitivity (ps_SubtotalMinor sample_snapshot); [exact Hs|reflexivity].
Defined.
