(* ===== verification/Rules.v ===== *)
(** * State machines and input rules of commerce

    The pure decisions of the commerce service (service.go,
    financial_correctness.go, payment_apply_reason.go, cash_confirm.go) and
    of its PostgreSQL store (commerce_webhook.go,
    commerce_vend_fulfillment.go, pricing_source.go): which transitions are
    legal, when an order is terminal, how a multi-line order resolves, and
    which inputs are rejected. *)

From S2P Require Import Prelude.
From S2P Require Import GoStd.
From S2P Require Import Pricing.
From S2P Require Import CommerceTypes.
From S2P Require Import Evidence.
From S2P Require Import Snapshot.
Local Open Scope string_scope.
Local Open Scope list_scope.
Local Open Scope Z_scope.

(** Membership in a literal set of strings, as a [switch] tests it. *)
Definition one_of (s : string) (l : list string) : bool := existsb (String.eqb s) l.

(** ** State maps (service.go) *)

Definition paymentStates : list string :=
  ["created"; "authorized"; "captured"; "failed"; "refunded"; "expired"; "canceled";
   "partially_refunded"].
Definition vendStates : list string := ["pending"; "in_progress"; "success"; "failed"].
Definition vendTransitions (from : string) : list string :=
  if String.eqb from "pending" then ["in_progress"]
  else if String.eqb from "in_progress" then ["success"; "failed"]
  else [].

(** ** Payment transitions (commerce_webhook.go) *)

Definition paymentTransitionAllowed (from to : string) : bool :=
  if String.eqb from to then true
  else if String.eqb from "created" then
    one_of to ["authorized"; "captured"; "failed"; "expired"; "canceled"]
  else if String.eqb from "authorized" then
    one_of to ["captured"; "failed"; "expired"; "canceled"]
  else if String.eqb from "captured" then
    one_of to ["failed"; "refunded"; "partially_refunded"]
  else if String.eqb from "partially_refunded" then one_of to ["refunded"]
  else false.

Definition normalizeWebhookCurrency (s : string) : string := ToUpper (TrimSpace s).

Definition webhookAmountCurrencyMatches (pay : Payment) (ord : Order)
    (in_ : ApplyPaymentProviderWebhookInput) : res unit :=
  let? _ := guard_err (negb (p_AmountMinor pay =? o_TotalMinor ord))
              ErrWebhookAmountCurrencyMismatch in
  let? _ := guard_err (negb (String.eqb (ToUpper (TrimSpace (p_Currency pay)))
                                        (ToUpper (TrimSpace (o_Currency ord)))))
              ErrWebhookAmountCurrencyMismatch in
  let? _ := guard_err (match wh_ProviderAmountMinor in_ with
                       | Some a => negb (o_TotalMinor ord =? a)
                       | None => false
                       end) ErrWebhookAmountCurrencyMismatch in
  guard_err (match wh_Currency in_ with
             | Some c => negb (blank (TrimSpace c)) &&
                         negb (String.eqb (normalizeWebhookCurrency (p_Currency pay))
                                          (normalizeWebhookCurrency c))
             | None => false
             end) ErrWebhookAmountCurrencyMismatch.

Definition terminal_order_states : list string :=
  ["completed"; "partially_completed"; "failed"; "cancelled"; "unknown"].

Definition webhookLateDeliveryAgainstTerminalState (ord : Order) (pay : Payment) : bool :=
  one_of (TrimSpace (o_Status ord)) terminal_order_states ||
  one_of (TrimSpace (p_State pay)) ["refunded"; "failed"; "expired"; "canceled"].

Definition shouldInsertWebhookOutbox (in_ : ApplyPaymentProviderWebhookInput) : bool :=
  negb (blank (TrimSpace (wh_OutboxTopic in_))) &&
  negb (blank (TrimSpace (wh_OutboxEventType in_))) &&
  negb (blank (TrimSpace (wh_OutboxAggregateType in_))) &&
  negb (wh_OutboxAggregateID in_ =u uuid_Nil) &&
  negb (blank (TrimSpace (wh_OutboxIdempotencyKey in_))).

Definition shouldInsertReconciledPaymentOutbox (in_ : ReconciledPaymentTransitionInput) : bool :=
  negb (blank (TrimSpace (rpt_OutboxTopic in_))) &&
  negb (blank (TrimSpace (rpt_OutboxEventType in_))) &&
  negb (blank (TrimSpace (rpt_OutboxAggregateType in_))) &&
  negb (rpt_OutboxAggregateID in_ =u uuid_Nil) &&
  negb (blank (TrimSpace (rpt_OutboxIdempotencyKey in_))).

(** ** Order resolution (commerce_vend_fulfillment.go)

    [norm] is the [strings.ToLower(strings.TrimSpace(s))] the functions switch
    on. *)
Definition norm (s : string) : string := ToLower (TrimSpace s).

Definition isTerminalOrderStatus (status : string) : bool :=
  one_of (norm status) terminal_order_states.
(** machine_payment_session.go *)
Definition orderStatusTerminal (st : string) : bool :=
  one_of (norm st) terminal_order_states.

Definition multiLineOrderHasOpenVendLines (states : list string) : bool :=
  existsb (fun s => one_of (norm s) ["pending"; "in_progress"]) states.

Definition resolveMultiLineTerminalOrderStatus (states : list string) : string :=
  let anySuccess := existsb (fun s => String.eqb (norm s) "success") states in
  let anyFailed := existsb (fun s => String.eqb (norm s) "failed") states in
  if anySuccess && anyFailed then "partially_completed"
  else if anySuccess then "completed"
  else if anyFailed then "failed"
  else "vending".

(** ** Pricing source (pricing_source.go) *)

Definition supportedPricingSources : list string :=
  [PricingSourceServerPriced; PricingSourceMachineLocalVerified;
   PricingSourceMachineLocalUnverified].

Definition validatePricingSourceForPersist (raw : string) : res string :=
  let source := TrimSpace raw in
  if blank source then Err (ENew "postgres: pricing_source required")
  else if negb (one_of source supportedPricingSources)
  then Err (ENew ("postgres: unsupported pricing_source " +:+ source))
  else Ok source.

Definition hasMachinePricingEvidence (revision : option Z) (snapshot : option json) : bool :=
  if negb (is_none snapshot) then true
  else match revision with Some r => 0 <? r | None => false end.

Definition resolvePricingSourceForOrderPersist (explicit : string)
    (machinePricingEvidence : bool) : res string :=
  let trimmed := TrimSpace explicit in
  if negb (blank trimmed) then validatePricingSourceForPersist trimmed
  else if machinePricingEvidence then
    Err (ENew "postgres: pricing_source required when machine pricing snapshot is present")
  else Ok PricingSourceServerPriced.

(** ** Input validation (service.go) *)

Definition isAllAlpha (s : string) : bool := forallb is_letter (s2l s).

(** A currency that is not three letters after trimming. *)
Definition bad_currency (c : string) : bool :=
  let cur := ToUpper (TrimSpace c) in negb (len cur =? 3) || negb (isAllAlpha cur).

Definition slot_id_set (id : option N) : bool :=
  match id with Some i => negb (i =u uuid_Nil) | None => false end.
Definition slot_index_set (i : option Z) : bool :=
  match i with Some i => 0 <=? i | None => false end.

Definition validateCreateOrder (in_ : CreateOrderInput) : res unit :=
  let? _ := guard_err ((co_MachineID in_ =u uuid_Nil) || (co_ProductID in_ =u uuid_Nil))
              (invalid_arg "machine_id and product_id must be set") in
  let? _ := guard_err (blank (TrimSpace (co_IdempotencyKey in_)))
              (invalid_arg "idempotency_key is required") in
  let? _ := guard_err (bad_currency (co_Currency in_))
              (invalid_arg "currency must be a 3-letter ISO code") in
  let? _ := guard_err (negb (co_SubtotalMinor in_ =? 0) || negb (co_TaxMinor in_ =? 0) ||
                       negb (co_TotalMinor in_ =? 0))
              (invalid_arg "subtotal_minor, tax_minor, and total_minor must be omitted or zero; totals are resolved from the published assortment") in
  let hasSlotID := slot_id_set (co_SlotID in_) in
  let hasCodes := negb (blank (TrimSpace (co_CabinetCode in_))) &&
                  negb (blank (TrimSpace (co_SlotCode in_))) in
  let hasSlotIdx := slot_index_set (co_SlotIndex in_) in
  guard_err (negb (hasSlotID || hasCodes || hasSlotIdx))
    (invalid_arg "set slot_id, or cabinet_code with slot_code, or slot_index (deprecated)").

Definition validateStartPayment (in_ : StartPaymentInput) : res unit :=
  let? _ := guard_err (sp_OrderID in_ =u uuid_Nil) (invalid_arg "order_id must be set") in
  let? _ := guard_err (blank (TrimSpace (sp_Provider in_)))
              (invalid_arg "provider is required") in
  let? _ := guard_err (negb (one_of (sp_PaymentState in_) paymentStates))
              (invalid_arg "invalid payment state") in
  let? _ := guard_err (sp_AmountMinor in_ <? 0)
              (invalid_arg "amount_minor must be non-negative") in
  let? _ := guard_err (bad_currency (sp_Currency in_))
              (invalid_arg "currency must be a 3-letter ISO code") in
  let? _ := guard_err (blank (TrimSpace (sp_IdempotencyKey in_)) ||
                       blank (TrimSpace (sp_OutboxIdempotencyKey in_)))
              (invalid_arg "idempotency keys are required") in
  let? _ := guard_err (blank (TrimSpace (sp_OutboxTopic in_)) ||
                       blank (TrimSpace (sp_OutboxEventType in_)) ||
                       blank (TrimSpace (sp_OutboxAggregateType in_)))
              (invalid_arg "outbox topic, event type, and aggregate type are required") in
  let? _ := guard_err (sp_OutboxAggregateID in_ =u uuid_Nil)
              (invalid_arg "outbox_aggregate_id must be set") in
  guard_err (sp_AttemptSeq in_ <? 0) (invalid_arg "attempt_seq must be non-negative").

Definition validateAdvanceVend (in_ : AdvanceVendInput) : res unit :=
  let? _ := guard_err (av_OrderID in_ =u uuid_Nil) (invalid_arg "order_id must be set") in
  let? _ := guard_err (String.eqb (av_ToState in_) "success" || String.eqb (av_ToState in_) "failed")
              (invalid_arg "use FinalizeOrderAfterVend for terminal vend states") in
  guard_err (negb (one_of (av_ToState in_) vendStates)) (invalid_arg "invalid vend state").

(** ** Cash (financial_correctness.go, cash_confirm.go) *)

Definition normalizeConsentSource (s : string) : string :=
  if one_of (TrimSpace (ToLower s))
       ["explicit_confirm"; "implicit_post_order"; "operator"; "unknown"; "wallet_auto_settlement"]
  then TrimSpace (ToLower s) else "unknown".

Definition normalizeChangeOutcome (s : string) : string :=
  if one_of (TrimSpace (ToLower s))
       ["delivered"; "delivered_after_fault"; "not_delivered"; "ambiguous"; "none"; ""]
  then if blank (TrimSpace s) then "none" else TrimSpace (ToLower s)
  else "ambiguous".

Definition validateCashConfirmConsent (consent : string) (in_ : ConfirmCashPaymentInput)
    : res unit :=
  if cc_PreOrderCreditMinor in_ <=? 0 then Ok tt
  else if one_of consent ["explicit_confirm"; "unknown"; "operator"] then Ok tt
  else if String.eqb consent "wallet_auto_settlement" then
    let? _ := guard_err (negb (cc_PostOrderInsertedMinor in_ =? 0))
                (invalid_arg "wallet_auto_settlement requires post_order_inserted_minor=0") in
    guard_err (is_nil (cc_AcceptanceEvents in_))
      (invalid_arg "wallet_auto_settlement requires cash_acceptance_events")
  else Err (invalid_arg
    "pre_order_credit requires explicit_confirm or wallet_auto_settlement consent").

(** The machine's debt for change it did not deliver ([liability] of
    [ConfirmCashPayment]). *)
Definition change_liability (changeOutcome : string) (due dispensed : Z) : Z :=
  if String.eqb changeOutcome "not_delivered" || String.eqb changeOutcome "ambiguous" then
    let liability := sub64 due dispensed in
    if liability <? 0 then due else liability
  else 0.

(** [found == false] is [None]. *)
Definition settled_capture (state : string) : bool :=
  one_of (norm state) ["captured"; "partially_refunded"].

Fixpoint oldest_captured (best : option Payment) (payments : list Payment) : option Payment :=
  match payments with
  | [] => best
  | pay :: rest =>
      if negb (settled_capture (p_State pay))
      then oldest_captured best rest
      else match best with
           | None => oldest_captured (Some pay) rest
           | Some b => if p_CreatedAt pay <? p_CreatedAt b
                       then oldest_captured (Some pay) rest else oldest_captured best rest
           end
  end.
Definition oldestCapturedOrPartiallyRefundedPayment (payments : list Payment) : option Payment :=
  oldest_captured None payments.

(** ** Diagnostics (payment_apply_reason.go) *)

Definition ClassifyApplyRejectReason (err : option goerr) : string :=
  match err with
  | None => ""
  | Some err =>
      if errors_Is err ErrWebhookAmountCurrencyMismatch then "amount_currency_mismatch"
      else if errors_Is err ErrIllegalTransition then "illegal_transition"
      else if errors_Is err ErrWebhookProviderMismatch then "provider_mismatch"
      else if errors_Is err ErrWebhookAfterTerminalOrder then "after_terminal_order"
      else if errors_Is err ErrWebhookIdempotencyConflict then "idempotency_conflict"
      else if errors_Is err ErrOrgMismatch then "org_mismatch"
      else if Contains (norm (err_Error err)) "terminal" then "after_terminal_order"
      else "apply_error"
  end.

(** ** The payment life cycle *)

Lemma one_of_spec s l : one_of s l = true <-> s ∈ l.
Proof.
  unfold one_of. rewrite existsb_exists, list_elem_of_In. split.
  - by intros (x & Hx & ->%String.eqb_eq).
  - intros Hs. exists s. by rewrite String.eqb_refl.
Qed.

(** One accepted provider notification. *)
Definition payment_step (from to : string) : Prop := paymentTransitionAllowed from to = true.

(** A height that every proper step increases. *)
Definition payment_rank (s : string) : nat :=
  if String.eqb s "created" then 0 else if String.eqb s "authorized" then 1
  else if String.eqb s "captured" then 2 else if String.eqb s "partially_refunded" then 3 else 4.

Definition payment_terminal (s : string) : Prop :=
  s ∈ ["failed"; "expired"; "canceled"; "refunded"].

Ltac string_cases :=
  repeat match goal with
  | H : context [String.eqb ?a ?b] |- _ => destruct (String.eqb_spec a b); subst; cbn in H
  | |- context [String.eqb ?a ?b] => destruct (String.eqb_spec a b); subst; cbn
  end.

Lemma one_of_cases s l (P : string -> Prop) :
  Forall P l -> one_of s l = true -> P s.
Proof. intros Hl Hs%one_of_spec. rewrite Forall_forall in Hl. auto. Qed.

Lemma payment_step_cases from to :
  payment_step from to -> from = to \/
  (payment_rank from < payment_rank to)%nat /\ ~ payment_terminal from.
Proof.
  unfold payment_step, paymentTransitionAllowed.
  destruct (String.eqb_spec from to) as [->|Hne]; [by left|]. intros Hs. right.
  assert (Hstep : forall f l, from = f -> one_of to l = true ->
    Forall (fun t => payment_rank f < payment_rank t)%nat l -> ~ payment_terminal f ->
    (payment_rank from < payment_rank to)%nat /\ ~ payment_terminal from).
  { intros f l -> Hl Hr Hn. split; [|done]. by apply (one_of_cases to l). }
  assert (Hnt : forall f, one_of f ["failed"; "expired"; "canceled"; "refunded"] = false ->
    ~ payment_terminal f).
  { intros f Hf Ht%one_of_spec. congruence. }
  destruct (String.eqb_spec from "created");
    [|destruct (String.eqb_spec from "authorized");
      [|destruct (String.eqb_spec from "captured");
        [|destruct (String.eqb_spec from "partially_refunded"); [|discriminate]]]];
    (eapply Hstep; [eassumption|exact Hs
      |repeat constructor; apply Nat.ltb_lt; vm_compute; reflexivity|apply Hnt; vm_compute; reflexivity]).
Qed.

(** The payment life cycle never goes back *)
Theorem payment_lifecycle from to :
  rtc payment_step from to ->
  (payment_terminal from -> to = from) /\
  (rtc payment_step to from -> to = from) /\
  (to = "captured" -> from = "created" \/ from = "authorized" \/ from = "captured").
Proof.
  assert (Hrank : forall a b, rtc payment_step a b -> a = b \/ (payment_rank a < payment_rank b)%nat).
  { induction 1 as [|a b c Hab Hbc IH]; [by left|].
    apply payment_step_cases in Hab as [->|[Hab _]]; [done|]. right. destruct IH as [<-|]; lia. }
  intros Hr. split_and!.
  - intros Ht. destruct Hr as [|a b c Hab Hbc]; [done|].
    apply payment_step_cases in Hab as Hc. destruct Hc as [->|(_ & Hn)]; [|done].
    clear Hab. revert Ht. induction Hbc as [|b c d Hbc Hcd IH]; [done|]. intros Ht.
    apply payment_step_cases in Hbc as [->|(_ & Hn)]; [by apply IH|done].
  - intros Hback. apply Hrank in Hr as [->|Hr]; [done|].
    apply Hrank in Hback as [->|Hback]; [done|lia].
  - intros ->. apply Hrank in Hr as [->|Hr]; [auto|].
    unfold payment_rank in Hr. cbn in Hr. revert Hr.
    destruct (String.eqb_spec from "created"); [auto|].
    destruct (String.eqb_spec from "authorized"); [auto|].
    destruct (String.eqb_spec from "captured"); [auto|].
    destruct (String.eqb from "partially_refunded"); lia.
Qed.

(** ** Resolution of a multi-line order *)

Lemma existsb_false {A} (p : A -> bool) l :
  existsb p l = false <-> forall x, x ∈ l -> p x = false.
Proof.
  rewrite <- not_true_iff_false, existsb_exists. split.
  - intros Hn x Hx. apply not_true_iff_false. intros Hp. apply Hn. exists x.
    by rewrite <- list_elem_of_In.
  - intros Hf (x & Hx & Hp). rewrite <- list_elem_of_In in Hx. by rewrite Hf in Hp.
Qed.

Lemma existsb_true {A} (p : A -> bool) l :
  existsb p l = true <-> exists x, x ∈ l /\ p x = true.
Proof. rewrite existsb_exists. by setoid_rewrite list_elem_of_In. Qed.

Lemma norm_vend_state s : s ∈ vendStates -> norm s = s.
Proof.
  unfold vendStates. intros Hs.
  repeat (apply elem_of_cons in Hs as [->|Hs]; [vm_compute; reflexivity|]).
  by apply not_elem_of_nil in Hs.
Qed.

(** A closed order is completed, failed or partial according to its lines *)
Theorem resolve_closed_order states :
  states <> [] -> (forall s, s ∈ states -> s ∈ vendStates) ->
  multiLineOrderHasOpenVendLines states = false ->
  (resolveMultiLineTerminalOrderStatus states = "completed" <->
     forall s, s ∈ states -> s = "success") /\
  (resolveMultiLineTerminalOrderStatus states = "failed" <->
     forall s, s ∈ states -> s = "failed") /\
  (resolveMultiLineTerminalOrderStatus states = "partially_completed" <->
     "success" ∈ states /\ "failed" ∈ states) /\
  isTerminalOrderStatus (resolveMultiLineTerminalOrderStatus states) = true.
Proof.
  intros Hne Hv Hopen. unfold multiLineOrderHasOpenVendLines in Hopen.
  rewrite existsb_false in Hopen.
  assert (Hterm : forall s, s ∈ states -> s = "success" \/ s = "failed").
  { intros s Hs. specialize (Hopen s Hs). specialize (Hv s Hs).
    rewrite norm_vend_state in Hopen by done. unfold vendStates in Hv.
    repeat (apply elem_of_cons in Hv as [->|Hv]; [vm_compute in Hopen; auto; discriminate|]).
    by apply not_elem_of_nil in Hv. }
  assert (He : forall t, t = "success" \/ t = "failed" ->
     existsb (fun s => String.eqb (norm s) t) states = bool_decide (t ∈ states)).
  { intros t Ht. apply eq_true_iff_eq. rewrite existsb_true, bool_decide_eq_true. split.
    - intros (x & Hx & E%String.eqb_eq). rewrite norm_vend_state in E by auto. by subst.
    - intros Hx. exists t. rewrite norm_vend_state by auto. by rewrite String.eqb_refl. }
  destruct states as [|s0 rest] eqn:Es; [done|]. rewrite <- Es in *.
  assert (H0 : s0 ∈ states) by (rewrite Es; set_solver).
  assert (Hr : resolveMultiLineTerminalOrderStatus states =
    if bool_decide ("success" ∈ states) then
      if bool_decide ("failed" ∈ states) then "partially_completed" else "completed"
    else if bool_decide ("failed" ∈ states) then "failed" else "vending").
  { unfold resolveMultiLineTerminalOrderStatus. rewrite !He by auto.
    by destruct (bool_decide _), (bool_decide _). }
  rewrite Hr. clear Hr He Hv Hopen Es.
  destruct (decide ("success" ∈ states)) as [Hs|Hs];
    [rewrite (bool_decide_true ("success" ∈ _)) by exact Hs
    |rewrite (bool_decide_false ("success" ∈ _)) by exact Hs];
    (destruct (decide ("failed" ∈ states)) as [Hf|Hf];
      [rewrite (bool_decide_true ("failed" ∈ _)) by exact Hf
      |rewrite (bool_decide_false ("failed" ∈ _)) by exact Hf]).
  - split_and!; [split; [discriminate|]|split; [discriminate|]|tauto|vm_compute; reflexivity].
    + intros Hx. specialize (Hx _ Hf). discriminate.
    + intros Hx. specialize (Hx _ Hs). discriminate.
  - split_and!; [split; [|reflexivity]|split; [discriminate|]|split; [discriminate|tauto]
                |vm_compute; reflexivity].
    + intros _ s Hin. destruct (Hterm s Hin) as [->| ->]; [reflexivity|contradiction].
    + intros Hx. specialize (Hx _ Hs). discriminate.
  - split_and!; [split; [discriminate|]|split; [|reflexivity]|split; [discriminate|tauto]
                |vm_compute; reflexivity].
    + intros Hx. specialize (Hx _ Hf). discriminate.
    + intros _ s Hin. destruct (Hterm s Hin) as [->| ->]; [contradiction|reflexivity].
  - exfalso. destruct (Hterm s0 H0) as [->| ->]; contradiction.
Qed.

(** ** Cash *)

(** The change debt is between nothing and the change due *)
Theorem change_liability_bounds outcome due dispensed :
  0 <= due <= MaxInt64 -> 0 <= dispensed <= MaxInt64 ->
  let l := change_liability (normalizeChangeOutcome outcome) due dispensed in
  0 <= l <= due /\
  (dispensed <= due -> l = due - dispensed \/ l = 0) /\
  (l <> 0 -> normalizeChangeOutcome outcome = "not_delivered" \/
             normalizeChangeOutcome outcome = "ambiguous").
Proof.
  intros Hdue Hdis. unfold change_liability.
  destruct (String.eqb_spec (normalizeChangeOutcome outcome) "not_delivered") as [E1|E1];
    [|destruct (String.eqb_spec (normalizeChangeOutcome outcome) "ambiguous") as [E2|E2]];
    cbn [orb]; [..|split_and!; lia];
    rewrite sub64_id by (unfold_int; lia);
    destruct (Z.ltb_spec (due - dispensed) 0); split_and!; try lia; auto.
Qed.

Lemma oldest_captured_spec best payments b :
  oldest_captured best payments = Some b ->
  (best = Some b \/ b ∈ payments /\ settled_capture (p_State b) = true)
  /\ (forall p, best = Some p -> p_CreatedAt b <= p_CreatedAt p) /\
  (forall p, p ∈ payments -> settled_capture (p_State p) = true ->
     p_CreatedAt b <= p_CreatedAt p).
Proof.
  revert best. induction payments as [|p rest IH]; intros best;
    cbn [oldest_captured].
  { intros ->. split_and!; [by left| |set_solver]. intros p [= ->]. lia. }
  destruct (settled_capture (p_State p)) eqn:Ep; cbn [negb].
  - assert (Hstep : forall best', oldest_captured best' rest = Some b ->
      (exists q, best' = Some q /\ p_CreatedAt q <= p_CreatedAt p /\
         (q = p \/ best = Some q) /\ forall q', best = Some q' -> p_CreatedAt q <= p_CreatedAt q') ->
      (best = Some b \/ b ∈ p :: rest /\ settled_capture (p_State b) = true)
      /\ (forall p0, best = Some p0 -> p_CreatedAt b <= p_CreatedAt p0) /\
      (forall p0, p0 ∈ p :: rest -> settled_capture (p_State p0) = true ->
         p_CreatedAt b <= p_CreatedAt p0)).
    { intros best' Hb (q & -> & Hq & Hor & Hmin). apply IH in Hb as (Hin & Hle & Hall).
      specialize (Hle q eq_refl). split_and!.
      - destruct Hin as [[= ->]|[Hin Hst]]; [|right; split; [set_solver|done]].
        destruct Hor as [->| ->]; [right; split; [set_solver|done]|by left].
      - intros p0 H0. specialize (Hmin p0 H0). lia.
      - intros p0 [->|Hp0]%elem_of_cons Hst; [lia|by apply Hall]. }
    destruct best as [q|].
    + destruct (Z.ltb_spec (p_CreatedAt p) (p_CreatedAt q)); intros Hb.
      * apply (Hstep _ Hb). exists p. split_and!; [done|lia|by left|]. intros q' [= <-]. lia.
      * apply (Hstep _ Hb). exists q. split_and!; [done|lia|by right|]. intros q' [= <-]. lia.
    + intros Hb. apply (Hstep _ Hb). exists p. split_and!; [done|lia|by left|done].
  - intros Hb. apply IH in Hb as (Hin & Hle & Hall). split_and!.
    + destruct Hin as [?|[? ?]]; [by left|right; split; [set_solver|done]].
    + done.
    + intros p0 [->|Hp0]%elem_of_cons Hst; [congruence|by apply Hall].
Qed.

(** ** Witnesses *)

Lemma payment_lifecycle_witness :
  rtc payment_step "created" "captured" /\ ~ rtc payment_step "captured" "created".
Proof.
  assert (Hr : rtc payment_step "created" "captured")
    by (eapply rtc_l; [|apply rtc_refl]; vm_compute; reflexivity).
  split; [exact Hr|]. intros Hb.
  destruct (payment_lifecycle "created" "captured" Hr) as (_ & Hback & _).
  discriminate (Hback Hb).
Defined.

Lemma resolve_closed_order_witness :
  resolveMultiLineTerminalOrderStatus ["success"; "failed"; "success"] = "partially_completed" /\
  isTerminalOrderStatus (resolveMultiLineTerminalOrderStatus ["success"; "failed"; "success"]) = true.
Proof.
  destruct (resolve_closed_order ["success"; "failed"; "success"]) as (_ & _ & Hp & Ht).
  - discriminate.
  - intros s Hs. apply one_of_spec.
    repeat (apply elem_of_cons in Hs as [->|Hs]; [vm_compute; reflexivity|]).
    by apply not_elem_of_nil in Hs.
  - vm_compute. reflexivity.
  - split; [|exact Ht]. apply Hp. split; apply one_of_spec; vm_compute; reflexivity.
Defined.

Lemma change_liability_bounds_witness :
  change_liability (normalizeChangeOutcome " Not_Delivered ") 500 200 = 300 /\
  0 <= change_liability (normalizeChangeOutcome " Not_Delivered ") 500 200 <= 500.
Proof.
  split; [vm_compute; reflexivity|].
  apply (change_liability_bounds " Not_Delivered " 500 200); unfold_int; lia.
Defined.

(** A machine that reports more change than was due owes the whole change. *)
Example over_dispensed_change_is_owed : change_liability "ambiguous" 500 700 = 500.
Proof. vm_compute. reflexivity. Qed.
