(* ===== verification/PaymentEvents.v ===== *)
(** * References and events of payment providers

    internal/platform/payments: the references given to providers (psp/ref), the
    normalized event (webhook_event.go), its authentication by HMAC
    (webhook_hmac.go, webhook_secret.go), the keys of providers and their
    families (resolve.go, provider_family.go, config/psp_credentials.go), and how
    the adapters read the fields of an answer (live_common.go). *)

From stdpp Require Import gmap.
From S2P Require Import Prelude.
From S2P Require Import GoStd.
From S2P Require Import Sha256.
From S2P Require Import JsonText.
From S2P Require Import Pricing.
From S2P Require Import CommerceTypes.
From S2P Require Import Sanitize.
From S2P Require Import Strconv.
From S2P Require Import Hmac.
From S2P Require Import Evidence.
From S2P Require Import Rules.
Local Open Scope string_scope.
Local Open Scope list_scope.
Local Open Scope Z_scope.

Definition ref_MaxLength : nat := 21.
Definition crockfordAlphabet : string := "0123456789ABCDEFGHJKMNPQRSTVWXYZ".
Definition crockford_char (idx : Z) : ascii :=
  match String.get (Z.to_nat idx) crockfordAlphabet with Some c => c | None => "0"%char end.
(** The inner loop runs while five bits are left: at most twice per byte, as
    less than five are left over from the byte before. *)
Fixpoint crockford_emit (n : nat) (bits nbits : Z) : list ascii * Z :=
  match n with
  | O => ([], nbits)
  | S n =>
      if nbits <? 5 then ([], nbits)
      else
        let nbits := nbits - 5 in
        let '(out, rest) := crockford_emit n bits nbits in
        (crockford_char (Z.land (Z.shiftr bits nbits) 31) :: out, rest)
  end.
Fixpoint crockford_bytes (data : list Z) (bits nbits : Z) : list ascii :=
  match data with
  | [] => if 0 <? nbits then [crockford_char (Z.land (Z.shiftl bits (5 - nbits)) 31)] else []
  | b :: data =>
      let bits := Z.lor (Z.shiftl bits 8 mod 2 ^ 64) b in
      let '(out, rest) := crockford_emit 2 bits (nbits + 8) in
      out ++ crockford_bytes data bits rest
  end.
Definition encodeCrockford (data : list Z) : string := l2s (crockford_bytes data 0 0).
(** The sixteen bytes of a UUID, the most significant first. *)
Definition uuid_bytes (u : N) : list Z :=
  map (fun i => Z.land (Z.shiftr (Z.of_N u) (8 * i)) 255) (map Z.of_nat (rev (seq 0 16))).
Definition GenerateFromUUID (u : N) : string :=
  String.substring 0 ref_MaxLength (encodeCrockford (uuid_bytes u)).
Definition ref_Validate (r : string) : res unit :=
  let? _ := guard_err (blank r) (ENew "provider reference is required") in
  guard_err (Nat.ltb ref_MaxLength (String.length r)) (ENew "provider reference must be at most 21 characters").

Example reference_zero : GenerateFromUUID 0 = "000000000000000000000".
Proof. reflexivity. Qed.
Example reference_sample :
  GenerateFromUUID 340282366920938463463374607431768211455 = "ZZZZZZZZZZZZZZZZZZZZZ".
Proof. vm_compute. reflexivity. Qed.

(** ** platform/payments/errors.go *)

Definition ErrQueryPaymentStatusNotSupported : goerr :=
  ESentinel "payments: query payment status not supported for provider".
Definition ErrNotImplemented : goerr := ESentinel "payments: not implemented".
Definition ErrSandboxProviderInProduction : goerr :=
  ESentinel "payments: sandbox or mock payment provider is not allowed in production".
Definition ErrPaymentProviderRequired : goerr := ESentinel "payments: COMMERCE_PAYMENT_PROVIDER is required".
Definition ErrUnknownProvider : goerr := ESentinel "payments: unknown payment provider".
Definition ErrProviderKeyMismatch : goerr :=
  ESentinel "payments: client provider does not match server COMMERCE_PAYMENT_PROVIDER".
Definition ErrLiveProviderNotWired : goerr :=
  ESentinel "payments: live provider adapter is not wired for this deployment".
Definition ErrProviderUnavailable : goerr := ESentinel "provider_unavailable".
Definition ErrInvalidCardSessionProvider : goerr :=
  ESentinel "payments: invalid provider for card/QR payment session".

(** ** Decoding (encoding/json) *)

(** The error of a text that is no JSON, or does not fit its target. *)
Definition ErrDecode : goerr := ENew "json: cannot unmarshal".
(** Every number, at any depth, fits a [float64]: an [any] is decoded into one. *)
Fixpoint any_ok (v : json) : bool :=
  match v with
  | JNum m k => match f64_of_decimal m k with S754_infinity _ | S754_nan => false | _ => true end
  | JArr l => forallb any_ok l
  | JObj fs => forallb (fun kv => any_ok kv.2) fs
  | _ => true
  end.
(** What a decoded [any] stands for: a number is the [float64] nearest to it,
    written again as its shortest decimal; an object is a map. *)
Definition number_any (m : Z) (k : nat) : json :=
  match f64_of_decimal m k with
  | S754_finite neg p e =>
      let '(d, e) := shortest_value (Z.pos p) e in
      let d := if neg then - d else d in
      if 0 <=? e then JNum (d * 10 ^ e) 0 else JNum d (Z.to_nat (- e))
  | _ => JNum 0 0
  end.
Fixpoint as_any (v : json) : json :=
  match v with
  | JNum m k => number_any m k
  | JArr l => JArr (map as_any l)
  | JObj fs => JObj (go_map (map (fun kv => (kv.1, as_any kv.2)) fs))
  | v => v
  end.
Definition decodeJSONMap (body : string) : res (list (string * json)) :=
  match json_parse body with
  | Some v =>
      if negb (any_ok v) then Err ErrDecode
      else match as_any v with
           | JObj m => Ok m
           | JNull => Ok []
           | _ => Err ErrDecode
           end
  | None => Err ErrDecode
  end.
(** [m[key]] of such a map; a missing key is [nil]. *)
Definition field (key : string) (m : list (string * json)) : json := default JNull (json_last key m).
Definition has_field (key : string) (m : list (string * json)) : bool := negb (is_none (json_last key m)).

Definition asString (v : json) : string :=
  match v with
  | JNull => ""
  | JStr s => s
  | JNum m k =>
      let x := f64_of_decimal m k in
      match f64_integer x with Some z => FormatInt z | None => FormatFloat_f x end
  | JBool b => if b then "true" else "false"
  | v => Sprint v
  end.
Definition asInt64 (v : json) : Z :=
  match v with
  | JNum m k => f64_to_int64 (f64_of_decimal m k)
  | JStr s => (ParseInt (TrimSpace s)).1
  | _ => 0
  end.
(** [int] has 64 bits. *)
Definition asInt (v : json) : Z :=
  match v with
  | JNum m k => f64_to_int64 (f64_of_decimal m k)
  | JStr s => (ParseInt (TrimSpace s)).1
  | _ => 0
  end.

(** [strings.TrimRight(s, "/")] and the join. *)
Fixpoint drop_slashes (l : list ascii) : list ascii :=
  match l with
  | c :: l' => if is_char c "/" then drop_slashes l' else l
  | [] => []
  end.
Definition TrimRight_slash (s : string) : string := l2s (rev (drop_slashes (rev (s2l s)))).
Definition joinEndpoint (base path : string) : string :=
  let base := TrimRight_slash (TrimSpace base) in
  if blank path then base
  else base +:+ (if HasPrefix path "/" then path else "/" +:+ path).

(** ** The normalized event (webhook_event.go) *)

Record CommerceWebhookEventJSON := mk_WebhookEvent {
  wj_Provider : string; wj_ProviderReference : string; wj_WebhookEventID : string; wj_EventType : string;
  wj_NormalizedPaymentState : string; wj_PayloadJSON : rawjson; wj_ProviderAmountMinor : option Z;
  wj_Currency : option string }.
Definition no_event : CommerceWebhookEventJSON := mk_WebhookEvent "" "" "" "" "" RawEmpty None None.

Definition store_string_ptr (acc : option string) (v : json) : option (option string) :=
  match v with JNull => Some None | v => option_map Some (store_string "" v) end.
Definition json_string_ptr tag fs := json_store store_string_ptr None (json_values tag fs).
(** A [json.RawMessage] keeps what it is given, null as well. *)
Definition json_raw (tag : string) (fs : list (string * json)) : rawjson :=
  match last (json_values tag fs) with Some v => RawJSON v | None => RawEmpty end.
(** [json.Unmarshal] into the struct. *)
Definition decode_event_fields (fs : list (string * json)) : option CommerceWebhookEventJSON :=
  provider ← json_string "provider" fs;
  reference ← json_string "provider_reference" fs;
  id ← json_string "webhook_event_id" fs;
  type ← json_string "event_type" fs;
  state ← json_string "normalized_payment_state" fs;
  amount ← json_int64_ptr "provider_amount_minor" fs;
  currency ← json_string_ptr "currency" fs;
  Some (mk_WebhookEvent provider reference id type state (json_raw "payload_json" fs) amount currency).
Definition decode_event (raw : string) : res CommerceWebhookEventJSON :=
  match json_parse raw with
  | Some JNull => Ok no_event
  | Some (JObj fs) => match decode_event_fields fs with Some e => Ok e | None => Err ErrDecode end
  | _ => Err ErrDecode
  end.
Definition ParseCommerceWebhookEventJSON (raw : string) : res CommerceWebhookEventJSON :=
  let? wh := decode_event raw in
  Ok (mk_WebhookEvent (TrimSpace (wj_Provider wh)) (TrimSpace (wj_ProviderReference wh))
        (TrimSpace (wj_WebhookEventID wh)) (TrimSpace (wj_EventType wh))
        (TrimSpace (wj_NormalizedPaymentState wh)) (wj_PayloadJSON wh) (wj_ProviderAmountMinor wh)
        (wj_Currency wh)).

(** ** Authentication (webhook_hmac.go, webhook_secret.go) *)

Definition PeekWebhookProvider (body : string) : string :=
  match json_parse body with
  | Some (JObj fs) => match json_string "provider" fs with Some p => TrimSpace p | None => "" end
  | _ => ""
  end.
(** [perProvider] is a nil or other map. *)
Definition ResolveWebhookHMACSecret (globalSecret : string) (perProvider : gmap string string)
    (providerPeek : string) : string :=
  let k := ToLower (TrimSpace providerPeek) in
  let s := TrimSpace (default "" (perProvider !! k)) in
  if negb (blank k) && negb (blank s) then s else TrimSpace globalSecret.

(** [t.Unix()]. *)
Definition time_Unix (t : Z) : Z := t / Second - 62135596800.
Definition ErrWebhookHeaders : goerr := ENew "missing X-AVF-Webhook-Timestamp or X-AVF-Webhook-Signature".
Definition ErrWebhookTimestamp : goerr := ENew "invalid X-AVF-Webhook-Timestamp".
Definition ErrWebhookSkew : goerr := ENew "webhook timestamp outside allowed skew".
Definition ErrWebhookSignature : goerr := ENew "invalid webhook signature".
Definition skew_seconds (skew : Z) : Z := let s := Z.quot skew Second in if s <? 1 then 300 else s.
Definition signed_text (ts : Z) (body : string) : list ascii :=
  s2l (FormatInt ts) ++ ["."%char] ++ s2l body.
(** The digest a header announces. *)
Definition announced (sigHeader : string) : option (list ascii) :=
  DecodeString (TrimSpace (TrimPrefix sigHeader "sha256=")).
(** [now] is [time.Now().Unix()]. *)
Definition VerifyCommerceWebhookHMAC (secret tsHeader sigHeader body : string) (skew now : Z) : res unit :=
  let sigHeader := TrimSpace sigHeader in
  let tsHeader := TrimSpace tsHeader in
  if blank sigHeader || blank tsHeader then Err ErrWebhookHeaders
  else
    let '(ts, ok) := ParseInt tsHeader in
    if negb ok then Err ErrWebhookTimestamp
    else
      let skewSec := skew_seconds skew in
      if (add64 now skewSec <? ts) || (ts <? sub64 now skewSec) then Err ErrWebhookSkew
      else
        let sum := hmac_sha256 (s2l secret) (signed_text ts body) in
        match announced sigHeader with
        | None => Err ErrWebhookSignature
        | Some want =>
            guard_err (negb (Nat.eqb (length want) (length sum)) || negb (hmac_Equal sum want)) ErrWebhookSignature
        end.

(** ** Provider keys *)

(** config.NormalizePaymentProviderKey *)
Definition NormalizePaymentProviderKey (key : string) : string :=
  let k := ToLower (TrimSpace key) in
  if one_of k ["momo_qr"; "momo-qr"] then "momo"
  else if one_of k ["zalo"; "zalo_pay"; "zalo-pay"] then "zalopay"
  else if one_of k ["vnpay_qr"; "vn_pay"] then "vnpay"
  else if one_of k ["shopee"; "shopee_pay"; "shopee-pay"] then "shopeepay"
  else if one_of k ["viet_qr"; "viet-qr"] then "vietqr"
  else k.
Definition NormalizeProviderKey (key : string) : string := NormalizePaymentProviderKey key.
Definition SameWebhookAdapterFamily (eventProvider storedProvider : string) : bool :=
  let a := NormalizeProviderKey eventProvider in
  let b := NormalizeProviderKey storedProvider in
  if blank a || blank b then false
  else if String.eqb a b then true
  else (String.eqb a "zalopay" && String.eqb b "vietqr") || (String.eqb a "vietqr" && String.eqb b "zalopay").
