(* ===== verification/CommerceService.v ===== *)
(** * The commerce service

    internal/app/commerce: service.go, sale_line_checkout.go,
    financial_correctness.go, cash_confirm.go, payment_status_view.go and
    machine_payment_session.go.  The service calls its stores through the
    interfaces of ports.go and domain ports.go, here records of operations
    over an abstract state [W]; a nil dependency is [None]. *)

From S2P Require Import Prelude.
From S2P Require Import GoStd.
From S2P Require Import Pricing.
From S2P Require Import CommerceTypes.
From S2P Require Import Sanitize.
From S2P Require Import Evidence.
From S2P Require Import Snapshot.
From S2P Require Import Rules.
Local Open Scope string_scope.
Local Open Scope list_scope.
Local Open Scope Z_scope.

(** ** Interfaces (ports.go) *)

Record OrderVendWorkflow (W : Type) := mk_OrderVendWorkflow {
  ow_CreateOrderWithVendSession : CreateOrderVendInput -> M W CreateOrderVendResult;
  ow_TryReplay : N -> string -> M W (option CreateOrderVendResult) }.

Record CommerceLifecycleStore (W : Type) := mk_CommerceLifecycleStore {
  ls_GetOrderByID : N -> M W Order;
  ls_UpdateOrderStatus : N -> N -> string -> M W Order;
  ls_GetVendSessionByOrderAndSlot : N -> Z -> M W VendSession;
  ls_GetVendSessionByOrderAndLineSequence : N -> Z -> M W VendSession;
  ls_ListVendSessionsForOrder : N -> M W (list VendSession);
  ls_UpdateVendSessionState : UpdateVendSessionParams -> M W VendSession;
  ls_GetLatestPaymentForOrder : N -> M W Payment;
  ls_GetPaymentByID : N -> M W Payment;
  ls_GetLatestPaymentAttemptProviderReference : N -> M W string;
  ls_GetLatestPaymentAttemptPayload : N -> M W (option json);
  ls_InsertPaymentAttempt : InsertPaymentAttemptParams -> M W PaymentAttemptView;
  ls_InsertRefundRow : InsertRefundRowInput -> M W RefundRowView;
  ls_ListRefundsForOrder : N -> M W (list RefundRowView);
  ls_GetRefundByIDForOrder : N -> N -> M W RefundRowView;
  ls_GetRefundByOrderIdempotency : N -> string -> M W RefundRowView;
  ls_SumNonFailedRefundAmountForPayment : N -> M W Z;
  ls_FulfillSuccessfulVendAtomically :
    FulfillSuccessfulVendInput -> M W FulfillSuccessfulVendResult;
  ls_FulfillFailedVendAtomically : FulfillFailedVendInput -> M W FulfillFailedVendResult }.

Record FinancialCorrectnessStore (W : Type) := mk_FinancialCorrectnessStore {
  fc_ClaimWinningPayment : N -> N -> M W (Order * bool);
  fc_GetWinningPaymentForOrder : N -> M W Payment;
  fc_UpdatePaymentOutcome : N -> string -> M W Payment;
  fc_CancelPaymentByID : N -> M W Payment;
  fc_GetLatestNonCapturedPaymentForOrder : N -> M W Payment;
  fc_ListPaymentsForOrder : N -> M W (list Payment);
  fc_RecordCashAcceptanceEvents : RecordCashAcceptanceEventsInput -> M W unit;
  fc_RecordCashAllocation : RecordCashAllocationInput -> M W CashAllocationView;
  fc_RecordCashChangeEvent : RecordCashChangeEventInput -> M W CashChangeEventView;
  fc_GetOrderMoneyView : N -> M W OrderMoneyView;
  fc_InsertLedgerEntry : LedgerEntryInput -> M W unit;
  fc_UpsertReconciliationCase : ReconciliationCaseInput -> M W ReconciliationCase }.

(** [QuantityAwareSaleLineResolver] and [slotConfigByCodeReader] are optional
    extensions, found by a type assertion. *)
Record SaleLineResolver (W : Type) := mk_SaleLineResolver {
  slr_ResolveSaleLine : SaleLineSelector -> M W ResolvedSaleLine;
  slr_LookupSlotDisplay : N -> N -> N -> Z -> M W ResolvedSaleLine;
  slr_ResolveSaleLineWithQuantity : option (SaleLineSelector -> Z -> M W ResolvedSaleLine);
  slr_LookupCurrentSlotConfigByCode : option (N -> string -> M W SlotConfigRow) }.

(** workfloworch.StartVendFailureAfterPaymentSuccess input. *)
Record VendFailureInput := mk_VendFailureInput {
  vf_OrderID : N; vf_PaymentID : N; vf_VendID : N; vf_SlotIndex : Z; vf_FailureReason : string;
  vf_ObservedAt : Z }.
Record WorkflowBoundary (W : Type) := mk_WorkflowBoundary {
  wb_Enabled : bool; wb_Start : VendFailureInput -> M W unit }.

(** platform/payments: one adapter, and the registry that picks it. *)
Record PSPSessionInput := mk_PSPSessionInput {
  psi_OrderID : N; psi_PaymentID : N; psi_AmountMinor : Z; psi_Currency : string;
  psi_IdempotencyKey : string; psi_MachineExternalCode : string; psi_StoreID : string;
  psi_ProviderReference : string; psi_PreferredMethod : string }.
Record PSPSession := mk_PSPSession {
  pss_ProviderReference : string; pss_ProviderSessionID : string; pss_QRPayloadOrURL : string;
  pss_PaymentURL : string; pss_CheckoutURL : string; pss_ExpiresAt : option Z;
  pss_ProviderDisplayJSON : rawjson }.
Definition PaymentProvider (W : Type) : Type := PSPSessionInput -> M W PSPSession.
Definition PaymentSessionRegistry (W : Type) : Type :=
  string -> string -> res (PaymentProvider W * string).

Record Service (W : Type) := mk_Service {
  sv_orders : OrderVendWorkflow W;
  sv_payments : option (PaymentOutboxInput -> M W PaymentOutboxResult);
  sv_life : option (CommerceLifecycleStore W);
  sv_webhook : option (ApplyPaymentProviderWebhookInput -> M W ApplyPaymentProviderWebhookResult);
  sv_saleLines : SaleLineResolver W;
  sv_workflow : WorkflowBoundary W;
  sv_scheduleVendFailureFollowUp : bool;
  sv_enterpriseAudit : option (AuditRecord -> M W unit);
  sv_webhookAppliedHook : option (PaymentWebhookAppliedEvent -> M W unit);
  sv_paymentSessionReg : option (PaymentSessionRegistry W);
  sv_financial : option (FinancialCorrectnessStore W);
  sv_bindAcceptanceEvents : option (N -> N -> list string -> M W unit);
  sv_winnerArbitrationEnabled : bool;
  sv_layoutMirror : option (N -> M W LocalLayoutMirror);
  sv_now : M W Z;
  sv_newReference : M W string }.

(** A nil dependency. *)
Definition need {W A} (d : option A) : M W A :=
  match d with Some a => ret a | None => fail ErrNotConfigured end.
Arguments need : simpl never.
Definition guard {W} (b : bool) (e : goerr) : M W unit := lift (guard_err b e).

Section Methods.
Context `{UuidText} {W : Type} (s : Service W).

(** ** Payments an order is judged by (financial_correctness.go) *)

Definition resolveAuthoritativePayment (orderID : N) : M W Payment :=
  match sv_financial W s with
  | None =>
      let! life := need (sv_life W s) in ls_GetLatestPaymentForOrder W life orderID
  | Some fin =>
      let! pay := attempt (fc_GetWinningPaymentForOrder W fin orderID) in
      match pay with
      | Ok pay => ret pay
      | Err e =>
          if negb (errors_Is e ErrNotFound) then fail e
          else
            let! all := fc_ListPaymentsForOrder W fin orderID in
            match oldestCapturedOrPartiallyRefundedPayment all with
            | Some p => ret p
            | None =>
                match sv_life W s with
                | Some life => ls_GetLatestPaymentForOrder W life orderID
                | None => fail ErrNotFound
                end
            end
      end
  end.

Definition AttemptWinningPaymentClaim (paymentID orderID : N) : M W ArbitrationResult :=
  let! fin := need (sv_financial W s) in
  guard ((paymentID =u uuid_Nil) || (orderID =u uuid_Nil))
    (invalid_arg "payment_id and order_id required") ;;;
  let! claim := fc_ClaimWinningPayment W fin paymentID orderID in
  if claim.2 then
    fc_UpdatePaymentOutcome W fin paymentID "winner" ;;;
    ret (mk_ArbitrationResult true claim.1 None)
  else
    let! life := need (sv_life W s) in
    let! ord := attempt (ls_GetOrderByID W life orderID) in
    fc_UpdatePaymentOutcome W fin paymentID "refund_required" ;;;
    ignore (fc_UpsertReconciliationCase W fin (mk_ReconciliationCaseInput
      "late_capture_refund_required" "critical" (Some orderID) (Some paymentID) None None None None
      None ("financial_correctness:losing_capture:" +:+ uuid_String paymentID)
      "Payment captured but order already has a winning payment" (JObj []))) ;;;
    ret (mk_ArbitrationResult false
           (match ord with Ok o => o | Err _ => zero_order end)
           (match ord with Ok o => o_WinningPaymentID o | Err _ => None end)).

(** ** Sale lines at checkout (sale_line_checkout.go) *)

Definition resolveSaleLineFromPricingSnapshot (sel : SaleLineSelector)
    (snap : MachinePricingSnapshotInput) (qty : Z) : M W ResolvedSaleLine :=
  let! now := sv_now W s in
  let! _ := lift (validateMachinePricingSnapshot now snap) in
  let slotCode := TrimSpace (ss_SlotCode sel) in
  guard (blank slotCode) (invalid_arg "slot_code required for mirror checkout resolution") ;;;
  match snapshotLineForSelector snap sel with
  | None => fail (invalid_arg "pricing_snapshot missing line for slot selector")
  | Some snapLine =>
      let qty := if qty <=? 0 then pl_Quantity snapLine else qty in
      let qty := if qty <=? 0 then 1 else qty in
      let unit_price := pl_UnitPriceMinor snapLine in
      let unit_price := if unit_price <=? 0 then ps_UnitPriceMinor snap else unit_price in
      guard (unit_price <=? 0) (invalid_arg "pricing_snapshot unit_price_minor invalid") ;;;
      let lineTotal := mul64 unit_price qty in
      match slr_LookupCurrentSlotConfigByCode W (sv_saleLines W s) with
      | None => fail (invalid_arg "slot topology lookup unavailable")
      | Some lookup =>
          let! row := lookup (ss_MachineID sel) slotCode in
          match sr_SlotIndex row with
          | None => fail (invalid_arg "slot config has no slot_index")
          | Some slotIdx =>
              let cab := TrimSpace (sr_CabinetCode row) in
              let cab := if blank cab then TrimSpace (ss_CabinetCode sel) else cab in
              (match sv_layoutMirror W s with
               | Some mirror => ignore (mirror (ss_MachineID sel))
               | None => ret tt
               end) ;;;
              ret (mk_ResolvedSaleLine (sr_ID row) cab (TrimSpace (sr_SlotCode row)) slotIdx
                     unit_price lineTotal 0 lineTotal 0 0 "" ""
                     (TrimSpace (ps_PricingFingerprint snap)) [])
          end
      end
  end.

Definition line_times (qty : Z) (l : ResolvedSaleLine) : ResolvedSaleLine :=
  if 1 <? qty then
    let total := mul64 (sl_PriceMinor l) qty in
    mk_ResolvedSaleLine (sl_SlotConfigID l) (sl_CabinetCode l) (sl_SlotCode l) (sl_SlotIndex l)
      (sl_PriceMinor l) total (sl_TaxMinor l) total (sl_BasePriceMinor l) (sl_DiscountUnitMinor l)
      (sl_PromotionLabel l) (sl_Currency l) (sl_PricingFingerprint l) (sl_AppliedPromotionIDs l)
  else l.
Definition resolveCheckoutSaleLine (sel : SaleLineSelector)
    (snap : option MachinePricingSnapshotInput) (qty : Z) : M W ResolvedSaleLine :=
  let! resolved := attempt
    (match slr_ResolveSaleLineWithQuantity W (sv_saleLines W s) with
     | Some f => f sel qty
     | None => fmap_M (line_times qty) (slr_ResolveSaleLine W (sv_saleLines W s) sel)
     end) in
  match resolved, snap with
  | Ok l, _ => ret l
  | Err e, Some snap =>
      if IsAssortmentStaleError e then resolveSaleLineFromPricingSnapshot sel snap qty else fail e
  | Err e, None => fail e
  end.

(** ** Orders (service.go) *)

Definition saleLineFromReplay (replay : CreateOrderVendResult) : ResolvedSaleLine :=
  let o := cor_Order replay in
  mk_ResolvedSaleLine uuid_Nil "" "" (v_SlotIndex (cor_Vend replay)) (o_SubtotalMinor o)
    (o_SubtotalMinor o) (o_TaxMinor o) (o_TotalMinor o) 0 0 "" "" "" [].
(** The display line of a replay carries the order's amounts. *)
Definition replay_display (o : Order) (d : ResolvedSaleLine) : ResolvedSaleLine :=
  mk_ResolvedSaleLine (sl_SlotConfigID d) (sl_CabinetCode d) (sl_SlotCode d) (sl_SlotIndex d)
    (o_SubtotalMinor o) (o_SubtotalMinor o) (o_TaxMinor o) (o_TotalMinor o) (sl_BasePriceMinor d)
    (sl_DiscountUnitMinor d) (sl_PromotionLabel d) (sl_Currency d) (sl_PricingFingerprint d)
    (sl_AppliedPromotionIDs d).
Definition create_order_replay (i : CreateOrderInput) (replay : CreateOrderVendResult)
    : M W CreateOrderResult :=
  let o := cor_Order replay in
  let! disp := attempt (slr_LookupSlotDisplay W (sv_saleLines W s) uuid_Nil (o_MachineID o)
    (v_ProductID (cor_Vend replay)) (v_SlotIndex (cor_Vend replay))) in
  let line := match disp with Ok d => replay_display o d | Err _ => saleLineFromReplay replay end in
  let! _ := lift (validateReplayPricingSnapshot (co_PricingSnapshot i) o) in
  ret (mk_CreateOrderResult replay line).

Definition selector_of (i : CreateOrderInput) : SaleLineSelector :=
  mk_SaleLineSelector (co_MachineID i) (co_ProductID i) (co_SlotID i) (co_CabinetCode i)
    (co_SlotCode i) (co_SlotIndex i).
(** The sale line with its pricing source, revision and snapshot. *)
Definition price_order (i : CreateOrderInput)
    : M W (ResolvedSaleLine * string * option Z * option json) :=
  match co_PricingSnapshot i with
  | Some snap =>
      let! now := sv_now W s in
      let! _ := lift (validateMachinePricingSnapshot now snap) in
      let! identity := resolveCheckoutSaleLine (selector_of i) (Some snap) 1 in
      ret (mk_ResolvedSaleLine (sl_SlotConfigID identity) (sl_CabinetCode identity)
             (sl_SlotCode identity) (sl_SlotIndex identity) (ps_UnitPriceMinor snap)
             (ps_SubtotalMinor snap) (ps_TaxMinor snap) (ps_TotalMinor snap) 0 0 ""
             (ToUpper (TrimSpace (co_Currency i))) (ps_PricingFingerprint snap) [],
           classifyMachineLocalPricingSource snap identity, Some (ps_LocalPricingRevision snap),
           Some (machinePricingSnapshotJSON snap))
  | None =>
      let! line := slr_ResolveSaleLine W (sv_saleLines W s) (selector_of i) in
      ret (line, PricingSourceServerPriced, None, None)
  end.
Definition CreateOrder (i : CreateOrderInput) : M W CreateOrderResult :=
  let! _ := lift (validateCreateOrder i) in
  let! replay := ow_TryReplay W (sv_orders W s) (co_MachineID i) (TrimSpace (co_IdempotencyKey i)) in
  match replay with
  | Some replay => create_order_replay i replay
  | None =>
      let! priced := price_order i in
      let '(line, source, revision, snapshot) := priced in
      let! base := ow_CreateOrderWithVendSession W (sv_orders W s)
        (mk_CreateOrderVendInput (co_MachineID i) (co_ProductID i) (sl_SlotIndex line)
           (ToUpper (TrimSpace (co_Currency i))) (sl_SubtotalMinor line) (sl_TaxMinor line)
           (sl_TotalMinor line) (TrimSpace (co_IdempotencyKey i)) "created" "pending"
           (co_Simulated i) (TrimSpace (co_SimulationRunID i))
           (TrimSpace (co_SimulationScenario i)) (co_FakeBill i) (co_FakeBoard i) source revision
           snapshot (co_ClientOrderID i) (co_CreatedAt i)) in
      ret (mk_CreateOrderResult base line)
  end.

(** ** Payments (service.go) *)

Definition StartPaymentWithOutbox (i : StartPaymentInput) : M W PaymentOutboxResult :=
  let! payments := need (sv_payments W s) in
  let! _ := lift (validateStartPayment i) in
  (match sv_life W s with
   | Some life => if negb (sp_SkipOrderLookup i)
                  then let! _ := ls_GetOrderByID W life (sp_OrderID i) in ret tt else ret tt
   | None => ret tt
   end) ;;;
  payments (mk_PaymentOutboxInput (sp_OrderID i) (TrimSpace (sp_Provider i)) (sp_PaymentState i)
    (sp_AmountMinor i) (ToUpper (TrimSpace (sp_Currency i))) (TrimSpace (sp_IdempotencyKey i))
    (TrimSpace (sp_OutboxTopic i)) (TrimSpace (sp_OutboxEventType i)) (sp_OutboxPayload i)
    (TrimSpace (sp_OutboxAggregateType i)) (sp_OutboxAggregateID i)
    (TrimSpace (sp_OutboxIdempotencyKey i)) (sp_Simulated i) (TrimSpace (sp_SimulationRunID i))
    (TrimSpace (sp_SimulationScenario i)) (sp_FakeBill i) (sp_FakeBoard i) (sp_AttemptSeq i)
    (sp_SupersedesPaymentID i) (sp_BindAttemptState i) (sp_BindProviderReference i)
    (sp_BindPayload i)).

Definition BindPaymentAttempt (i : InsertPaymentAttemptParams) : M W PaymentAttemptView :=
  let! life := need (sv_life W s) in
  guard (ipa_PaymentID i =u uuid_Nil) (invalid_arg "payment_id must be set") ;;;
  guard (blank (TrimSpace (ipa_State i))) (invalid_arg "state is required") ;;;
  ls_InsertPaymentAttempt W life i.

Definition MarkOrderPaidAfterPaymentCapture (companyID orderID : N) : M W Order :=
  let! life := need (sv_life W s) in
  guard (orderID =u uuid_Nil) (invalid_arg "order_id must be set") ;;;
  let! o := ls_GetOrderByID W life orderID in
  guard (negb (uuid_Nil =u companyID)) ErrOrgMismatch ;;;
  let! pay := resolveAuthoritativePayment orderID in
  guard (negb (String.eqb (p_State pay) "captured")) ErrPaymentNotSettled ;;;
  if one_of (o_Status o) ["paid"; "vending"; "completed"] then ret o
  else
    guard (negb (one_of (o_Status o) ["created"; "quoted"]))
      (illegal_transition "order cannot move to paid from current status") ;;;
    let! won := (if sv_winnerArbitrationEnabled W s && negb (is_none (sv_financial W s)) &&
                    is_none (o_WinningPaymentID o)
                 then
                   let! arb := AttemptWinningPaymentClaim (p_ID pay) orderID in
                   ret (if ar_Won arb then Some (ar_Order arb) else None)
                 else ret None) in
    match won with
    | Some o => ret o
    | None => ls_UpdateOrderStatus W life orderID companyID "paid"
    end.

Definition lookupVendSession (orderID : N) (slotIndex lineSequence : Z) : M W VendSession :=
  let! life := need (sv_life W s) in
  if 0 <? lineSequence
  then ls_GetVendSessionByOrderAndLineSequence W life orderID lineSequence
  else ls_GetVendSessionByOrderAndSlot W life orderID slotIndex.

(** ** Vending (service.go) *)

(** [resolveAuthoritativePayment] where a missing payment is not an error. *)
Definition payment_if_any (orderID : N) : M W (option Payment) :=
  let! pay := attempt (resolveAuthoritativePayment orderID) in
  match pay with
  | Ok pay => ret (Some pay)
  | Err e => if errors_Is e ErrNotFound then ret None else fail e
  end.
Definition settled (pay : Payment) : bool :=
  one_of (p_State pay) ["captured"; "partially_refunded"].

Definition AdvanceVend (i : AdvanceVendInput) : M W VendSession :=
  let! life := need (sv_life W s) in
  let! _ := lift (validateAdvanceVend i) in
  let! o := ls_GetOrderByID W life (av_OrderID i) in
  let! v := lookupVendSession (av_OrderID i) (av_SlotIndex i) (av_LineSequence i) in
  guard (negb (one_of (av_ToState i) vendStates)) (invalid_arg "invalid vend target state") ;;;
  guard (negb (one_of (av_ToState i) (vendTransitions (v_State v)))) ErrIllegalTransition ;;;
  (if String.eqb (av_ToState i) "in_progress" then
     let! pay := payment_if_any (av_OrderID i) in
     guard (negb (match pay with Some pay => settled pay | None => false end))
       ErrPaymentNotSettled
   else ret tt) ;;;
  let! updated := ls_UpdateVendSessionState W life
    (mk_UpdateVendSessionParams (av_OrderID i) (av_SlotIndex i) (av_LineSequence i)
       (av_ToState i) (av_FailureReason i)) in
  (if String.eqb (av_ToState i) "in_progress" && String.eqb (o_Status o) "paid" then
     let! _ := ls_UpdateOrderStatus W life (av_OrderID i) uuid_Nil "vending" in ret tt
   else ret tt) ;;;
  ret updated.

(** The key under which one sale decrements stock once. *)
Definition inventory_dedupe_key (i : FinalizeAfterVendInput) : string :=
  let dedupe := TrimSpace (fi_InventoryDedupeKey i) in
  if negb (blank dedupe) then dedupe
  else
    let cw := TrimSpace (fi_ClientWriteIdempotencyKey i) in
    if negb (blank cw) then cw +:+ ":vend_sale_inventory"
    else
      "commerce_vend_sale:" +:+ uuid_String uuid_Nil +:+ "|" +:+ uuid_String (fi_OrderID i) +:+
      "|" +:+ FormatInt (fi_SlotIndex i) +:+
      (if 0 <? fi_LineSequence i then "|" +:+ FormatInt (fi_LineSequence i) else "").

Definition finalize_success (life : CommerceLifecycleStore W) (i : FinalizeAfterVendInput)
    : M W FinalizeOutcome :=
  let! r := ls_FulfillSuccessfulVendAtomically W life
    (mk_FulfillSuccessfulVendInput (fi_OrderID i) (fi_SlotIndex i) (fi_LineSequence i)
       (inventory_dedupe_key i) (fi_CorrelationID i) (fi_Evidence i) (fi_VerificationStatus i)
       (fi_OutboxTopic i) (fi_OutboxEventType i) (fi_OutboxAggregateType i)
       (fi_OutboxIdempotencyKey i) (fi_ReconciliationEventType i)) in
  ret (mk_FinalizeOutcome (fsr_Order r) (fsr_Vend r) (fsr_OrderVendReplay r)
         (fsr_InventoryReplay r)).

(** The refund workflow is started best-effort after a paid vend failed. *)
Definition start_follow_up (i : FinalizeAfterVendInput) (fr : FulfillFailedVendResult)
    (pay : option Payment) : M W unit :=
  match pay with
  | Some pay =>
      if negb (ffr_Replay fr) && settled pay && sv_scheduleVendFailureFollowUp W s &&
         wb_Enabled W (sv_workflow W s)
      then
        let! now := sv_now W s in
        ignore (wb_Start W (sv_workflow W s)
          (mk_VendFailureInput (fi_OrderID i) (p_ID pay) (v_ID (ffr_Vend fr)) (fi_SlotIndex i)
             (TrimSpace (default "" (fi_FailureReason i))) now))
      else ret tt
  | None => ret tt
  end.
Definition finalize_failed (life : CommerceLifecycleStore W) (i : FinalizeAfterVendInput)
    (v : VendSession) : M W FinalizeOutcome :=
  guard (negb (one_of (fi_TerminalVendState i) (vendTransitions (v_State v))))
    ErrIllegalTransition ;;;
  let! fr := ls_FulfillFailedVendAtomically W life
    (mk_FulfillFailedVendInput (fi_OrderID i) (fi_SlotIndex i) (fi_LineSequence i)
       (fi_FailureReason i) (fi_Evidence i) (fi_VerificationStatus i) (fi_OutboxTopic i)
       (fi_OutboxEventType i) (fi_OutboxAggregateType i) (fi_OutboxIdempotencyKey i)
       (fi_ReconciliationEventType i) (fi_RefundRequired i) (fi_LocalCashRefundRequired i)) in
  let! pay := payment_if_any (fi_OrderID i) in
  start_follow_up i fr pay ;;;
  ret (mk_FinalizeOutcome (ffr_Order fr) (ffr_Vend fr) (ffr_Replay fr) false).

Definition FinalizeOrderAfterVend (i : FinalizeAfterVendInput) : M W FinalizeOutcome :=
  let! life := need (sv_life W s) in
  guard (fi_OrderID i =u uuid_Nil) (invalid_arg "order_id must be set") ;;;
  guard (negb (one_of (fi_TerminalVendState i) ["success"; "failed"]))
    (invalid_arg "terminal vend state must be success or failed") ;;;
  let! _ := ls_GetOrderByID W life (fi_OrderID i) in
  let! v := lookupVendSession (fi_OrderID i) (fi_SlotIndex i) (fi_LineSequence i) in
  if EqualFold (fi_TerminalVendState i) "success" then finalize_success life i
  else if String.eqb (v_State v) "failed" && EqualFold (fi_TerminalVendState i) "failed" then
    let! o2 := ls_GetOrderByID W life (fi_OrderID i) in
    ret (mk_FinalizeOutcome o2 v true false)
  else finalize_failed life i v.

(** ** Reads (service.go, payment_status_view.go) *)

Definition getCheckoutStatus (companyID orderID : N) (slotIndex lineSequence : Z)
    : M W CheckoutStatusView :=
  let! life := need (sv_life W s) in
  let! o := ls_GetOrderByID W life orderID in
  guard (negb (uuid_Nil =u companyID)) ErrOrgMismatch ;;;
  let! v := lookupVendSession orderID slotIndex lineSequence in
  let! pay := payment_if_any orderID in
  ret (mk_CheckoutStatusView o (Some v) pay).
Definition GetCheckoutStatus (companyID orderID : N) (slotIndex : Z) : M W CheckoutStatusView :=
  getCheckoutStatus companyID orderID slotIndex 0.
Definition GetCheckoutStatusByLineSequence (companyID orderID : N) (lineSequence : Z)
    : M W CheckoutStatusView :=
  getCheckoutStatus companyID orderID 0 lineSequence.

(** [None] is the zero VendSession. *)
Definition resolveVendForOrderStatusRead (orderID : N) (slotIndex lineSequence : Z)
    : M W (option VendSession) :=
  let! life := need (sv_life W s) in
  if 0 <? lineSequence then
    let! v := attempt (ls_GetVendSessionByOrderAndLineSequence W life orderID lineSequence) in
    match v with
    | Ok v => ret (Some v)
    | Err e => if errors_Is e ErrNotFound then ret None else fail e
    end
  else
    let! v := attempt (ls_GetVendSessionByOrderAndSlot W life orderID slotIndex) in
    match v with
    | Ok v => ret (Some v)
    | Err e =>
        if negb (errors_Is e ErrNotFound) then fail e
        else fmap_M head (ls_ListVendSessionsForOrder W life orderID)
    end.
Definition GetOrderStatusView (companyID orderID : N) (slotIndex lineSequence : Z)
    : M W CheckoutStatusView :=
  let! life := need (sv_life W s) in
  let! o := ls_GetOrderByID W life orderID in
  guard (negb (uuid_Nil =u companyID)) ErrOrgMismatch ;;;
  let! v := resolveVendForOrderStatusRead orderID slotIndex lineSequence in
  let! pay := payment_if_any orderID in
  ret (mk_CheckoutStatusView o v pay).

Definition GetPaymentStatusView (companyID orderID paymentID : N) : M W PaymentStatusView :=
  let! life := need (sv_life W s) in
  guard ((orderID =u uuid_Nil) || (paymentID =u uuid_Nil))
    (invalid_arg "order_id and payment_id required") ;;;
  let! o := ls_GetOrderByID W life orderID in
  guard (negb (companyID =u uuid_Nil)) ErrOrgMismatch ;;;
  let! pay := ls_GetPaymentByID W life paymentID in
  guard (negb (p_OrderID pay =u orderID)) (invalid_arg "payment order mismatch") ;;;
  ret (mk_PaymentStatusView orderID pay (TrimSpace (p_Outcome pay))
         (match o_WinningPaymentID o with Some w => w =u paymentID | None => false end)
         (if one_of (norm (p_State pay)) ["created"; "authorized"; "pending"]
          then "awaiting_callback" else "")).

Definition EnsureVendInProgressForPaidOrder (companyID orderID : N) (slotIndex : Z) : M W unit :=
  let! st := GetCheckoutStatus companyID orderID slotIndex in
  if match cs_Vend st with Some v => String.eqb (v_State v) "pending" | None => false end &&
     one_of (o_Status (cs_Order st)) ["paid"; "vending"]
  then
    let! r := attempt (AdvanceVend
      (mk_AdvanceVendInput orderID slotIndex 0 "in_progress" None)) in
    match r with
    | Err e => if errors_Is e ErrIllegalTransition then ret tt else fail e
    | Ok _ => ret tt
    end
  else ret tt.

(** ** Access and closing (service.go) *)

Definition EnsureOrderCompany (companyID orderID : N) : M W unit :=
  let! life := need (sv_life W s) in
  let! _ := ls_GetOrderByID W life orderID in
  guard (negb (uuid_Nil =u companyID)) ErrOrgMismatch.
Definition EnsureCommerceCallerOrderAccess (companyID orderID : N) (p : Principal) : M W unit :=
  EnsureOrderCompany companyID orderID ;;;
  if negb (HasRole p RoleMachine) then ret tt
  else
    let! life := need (sv_life W s) in
    let! o := ls_GetOrderByID W life orderID in
    guard (negb (AllowsMachine p (o_MachineID o))) ErrOrgMismatch.

Definition CancelOrder (companyID orderID : N) (reason : string) : M W Order :=
  let! life := need (sv_life W s) in
  guard (orderID =u uuid_Nil) (invalid_arg "order_id must be set") ;;;
  let! o := ls_GetOrderByID W life orderID in
  guard (negb (uuid_Nil =u companyID)) ErrOrgMismatch ;;;
  guard (negb (one_of (o_Status o) ["created"; "quoted"])) ErrCancelNotAllowed ;;;
  let! pay := payment_if_any orderID in
  guard (match pay with Some pay => settled pay | None => false end) ErrCancelNotAllowed ;;;
  ls_UpdateOrderStatus W life orderID companyID "cancelled".

Definition MarkOrderUnknown (companyID orderID : N) (reason : string) : M W Order :=
  let! life := need (sv_life W s) in
  guard (orderID =u uuid_Nil) (invalid_arg "order_id must be set") ;;;
  let! o := ls_GetOrderByID W life orderID in
  guard (negb (uuid_Nil =u companyID)) ErrOrgMismatch ;;;
  let st := norm (o_Status o) in
  if String.eqb st "unknown" then ret o
  else
    guard (orderStatusTerminal st) ErrIllegalTransition ;;;
    ls_UpdateOrderStatus W life orderID companyID "unknown".

(** ** Refunds (service.go) *)

Definition refund_verdict (o : Order) (pay : Payment) (vendState : string) : bool * string :=
  if String.eqb (p_State pay) "refunded" then (false, "payment already refunded")
  else if String.eqb (p_State pay) "partially_refunded" && String.eqb vendState "failed"
  then (true, "partially refunded payment with failed vend")
  else if String.eqb (p_State pay) "captured" && String.eqb vendState "failed"
  then (true, "captured payment with failed vend")
  else if String.eqb (p_State pay) "captured" && String.eqb (o_Status o) "failed"
  then (true, "order failed after capture")
  else if String.eqb (p_State pay) "captured" && String.eqb vendState "success" &&
          String.eqb (o_Status o) "completed"
  then (false, "successful fulfillment")
  else (false, "no refund policy match for current states").
Definition EvaluateRefundEligibility (orderID : N) (slotIndex : Z)
    : M W RefundEligibilityAssessment :=
  let! life := need (sv_life W s) in
  guard (orderID =u uuid_Nil) (invalid_arg "order_id must be set") ;;;
  guard (slotIndex <? 0) (invalid_arg "slot_index must be non-negative") ;;;
  let! o := ls_GetOrderByID W life orderID in
  let! pay := payment_if_any orderID in
  match pay with
  | None => ret (mk_RefundEligibilityAssessment false "no payment on file" "" "")
  | Some pay =>
      let! v := attempt (ls_GetVendSessionByOrderAndSlot W life orderID slotIndex) in
      let! vendState := match v with
        | Ok v => ret (v_State v)
        | Err e => if errors_Is e ErrNotFound then ret "" else fail e
        end in
      let '(eligible, reason) := refund_verdict o pay vendState in
      ret (mk_RefundEligibilityAssessment eligible reason (p_State pay) vendState)
  end.

Definition refund_audit (i : CreateRefundInput) (row : RefundRowView) (pay : Payment)
    (cur : string) : AuditRecord :=
  mk_AuditRecord "system" None "refund.requested" "commerce.refund" (uuid_String (rf_ID row)) None
    (SanitizeJSONBytes (RawJSON (JObj (go_map
       [("order_id", JStr (uuid_String (cf_OrderID i)));
        ("refund_id", JStr (uuid_String (rf_ID row)));
        ("payment_id", JStr (uuid_String (p_ID pay)));
        ("amount_minor", JInt (cf_AmountMinor i)); ("currency", JStr cur);
        ("idempotency_key", JStr (TrimSpace (cf_IdempotencyKey i)))])))) "".

(** The row of a refund that passed the checks. *)
Definition insert_refund (life : CommerceLifecycleStore W) (i : CreateRefundInput)
    (pay : Payment) (cur : string) : M W RefundRowView :=
  let! row := attempt (ls_InsertRefundRow W life
    (mk_InsertRefundRowInput (p_ID pay) (cf_OrderID i) (cf_AmountMinor i) cur "requested"
       (TrimSpace (cf_Reason i)) (TrimSpace (cf_IdempotencyKey i))
       (default (JObj []) (cf_Metadata i)))) in
  match row with
  | Err e =>
      if isUniqueViolation e
      then ls_GetRefundByOrderIdempotency W life (cf_OrderID i) (cf_IdempotencyKey i)
      else fail e
  | Ok row =>
      (match sv_enterpriseAudit W s with
       | Some audit => ignore (audit (refund_audit i row pay cur))
       | None => ret tt
       end) ;;;
      ret row
  end.
Definition CreateRefund (i : CreateRefundInput) : M W RefundRowView :=
  let! life := need (sv_life W s) in
  guard (cf_OrderID i =u uuid_Nil) (invalid_arg "order_id must be set") ;;;
  guard (cf_AmountMinor i <=? 0) (invalid_arg "amount_minor must be positive") ;;;
  guard (blank (TrimSpace (cf_IdempotencyKey i))) (invalid_arg "idempotency_key is required") ;;;
  let cur := ToUpper (TrimSpace (cf_Currency i)) in
  guard (negb (len cur =? 3)) (invalid_arg "currency must be a 3-letter ISO code") ;;;
  let! _ := ls_GetOrderByID W life (cf_OrderID i) in
  let! pay := resolveAuthoritativePayment (cf_OrderID i) in
  guard (negb (settled pay)) ErrRefundNotAllowed ;;;
  guard (negb (String.eqb (ToUpper (TrimSpace (p_Currency pay))) cur))
    (invalid_arg "currency does not match payment") ;;;
  let! already := attempt
    (ls_GetRefundByOrderIdempotency W life (cf_OrderID i) (cf_IdempotencyKey i)) in
  match already with
  | Ok already => ret already
  | Err e =>
      if negb (errors_Is e ErrNotFound) then fail e
      else
        let! refunded := ls_SumNonFailedRefundAmountForPayment W life (p_ID pay) in
        guard (p_AmountMinor pay <? add64 refunded (cf_AmountMinor i)) ErrRefundNotAllowed ;;;
        insert_refund life i pay cur
  end.

Definition ListRefundsForOrder (companyID orderID : N) : M W (list RefundRowView) :=
  let! life := need (sv_life W s) in
  EnsureOrderCompany companyID orderID ;;;
  ls_ListRefundsForOrder W life orderID.
Definition GetRefundForOrder (companyID orderID refundID : N) : M W RefundRowView :=
  let! life := need (sv_life W s) in
  EnsureOrderCompany companyID orderID ;;;
  ls_GetRefundByIDForOrder W life orderID refundID.

(** ** Provider webhooks (service.go) *)

Definition invalid_json (b : rawjson) : bool :=
  match b with RawInvalid => true | _ => false end.
(** [if len(b) == 0 { b = []byte("{}") }] *)
Definition or_empty_object (b : rawjson) : rawjson :=
  match b with RawEmpty => RawJSON (JObj []) | b => b end.
Definition webhook_validation_statuses : list string :=
  [""; "hmac_verified"; "unsigned_development"; "provider_native_verified"].

(** The checks of the input, and the input handed to the store. *)
Definition prepare_webhook (i : ApplyPaymentProviderWebhookInput)
    : res ApplyPaymentProviderWebhookInput :=
  let target := TrimSpace (ToLower (wh_NormalizedPaymentState i)) in
  let vstat := TrimSpace (wh_WebhookValidationStatus i) in
  let? _ := guard_err (negb (one_of target paymentStates))
              (invalid_arg "invalid normalized_payment_state") in
  let? _ := guard_err (blank (TrimSpace (wh_Provider i)) || blank (TrimSpace (wh_ProviderReference i)))
              (invalid_arg "provider and provider_reference are required") in
  let? _ := guard_err (blank (TrimSpace (wh_EventType i))) (invalid_arg "event_type is required") in
  let? _ := guard_err (invalid_json (wh_Payload i)) (invalid_arg "payload must be JSON") in
  let? _ := guard_err (negb (one_of vstat webhook_validation_statuses))
              (invalid_arg "invalid webhook validation_status") in
  let? _ := guard_err (invalid_json (wh_ProviderMetadata i))
              (invalid_arg "provider_metadata must be JSON") in
  let? _ := guard_err (invalid_json (wh_OutboxPayload i))
              (invalid_arg "outbox_payload must be JSON") in
  Ok (mk_WebhookInput (wh_OrderID i) (wh_PaymentID i) (TrimSpace (wh_Provider i))
        (TrimSpace (wh_ProviderReference i)) (TrimSpace (wh_WebhookEventID i))
        (TrimSpace (wh_EventType i)) target
        (RawJSON (SanitizeJSONBytes (or_empty_object (wh_Payload i))))
        (wh_ProviderAmountMinor i) (wh_Currency i)
        (if blank vstat then "hmac_verified" else vstat)
        (RawJSON (SanitizeJSONBytes (or_empty_object (wh_ProviderMetadata i))))
        (TrimSpace (wh_OutboxTopic i)) (TrimSpace (wh_OutboxEventType i)) (wh_OutboxPayload i)
        (TrimSpace (wh_OutboxAggregateType i)) (wh_OutboxAggregateID i)
        (TrimSpace (wh_OutboxIdempotencyKey i))).

Definition applied_event (i : ApplyPaymentProviderWebhookInput)
    (r : ApplyPaymentProviderWebhookResult) : PaymentWebhookAppliedEvent :=
  mk_WebhookAppliedEvent (wh_OrderID i) (wh_PaymentID i) (wr_Replay r) (wh_Provider i)
    (wh_WebhookEventID i) (wh_WebhookValidationStatus i) (wh_NormalizedPaymentState i)
    (wh_ProviderReference i) (p_AmountMinor (wr_Payment r)) (p_Currency (wr_Payment r))
    (o_MachineID (wr_Order r)).

Definition ApplyPaymentProviderWebhook (i : ApplyPaymentProviderWebhookInput)
    : M W ApplyPaymentProviderWebhookResult :=
  let wid := TrimSpace (wh_WebhookEventID i) in
  guard (blank wid) (invalid_arg "webhook_event_id is required") ;;;
  guard (256 <? len wid) (invalid_arg "webhook_event_id too long") ;;;
  let! webhook := need (sv_webhook W s) in
  let! in2 := lift (prepare_webhook i) in
  let! r := webhook in2 in
  (match sv_webhookAppliedHook W s with
   | Some hook => ignore (hook (applied_event in2 r))
   | None => ret tt
   end) ;;;
  ret r.

(** ** Cash (cash_confirm.go) *)

(** The amount the cash covers and the consent recorded; a confirmation
    without amounts comes from an old client. *)
Definition legacy_thin (i : ConfirmCashPaymentInput) : bool :=
  (cc_GrossAcceptedMinor i =? 0) && (cc_AllocatedMinor i =? 0).
Definition cash_amount (i : ConfirmCashPaymentInput) (o : Order) : res (Z * string) :=
  let consent := if legacy_thin i then "unknown" else normalizeConsentSource (cc_ConsentSource i) in
  let allocated := if legacy_thin i then o_TotalMinor o else cc_AllocatedMinor i in
  let? _ := guard_err (negb (legacy_thin i) && (allocated <=? 0))
              (invalid_arg "allocated_minor must be positive") in
  let? _ := guard_err (negb (legacy_thin i) && negb (allocated =? o_TotalMinor o))
              (invalid_arg "allocated_minor must match order total") in
  let? _ := validateCashConfirmConsent consent i in
  let? _ := guard_err (negb (legacy_thin i) && (0 <? cc_GrossAcceptedMinor i) &&
                       (cc_GrossAcceptedMinor i <?
                        add64 (cc_PreOrderCreditMinor i) (cc_PostOrderInsertedMinor i)))
              (invalid_arg "gross_accepted_minor must cover pre_order and post_order credit") in
  Ok (allocated, consent).

Definition cash_currency (i : ConfirmCashPaymentInput) (o : Order) : string :=
  let cur := ToUpper (TrimSpace (cc_Currency i)) in
  if blank cur then ToUpper (TrimSpace (o_Currency o)) else cur.

Definition cash_payment (i : ConfirmCashPaymentInput) (allocated : Z) (currency : string)
    : StartPaymentInput :=
  let key := TrimSpace (cc_IdempotencyKey i) in
  mk_StartPaymentInput (cc_OrderID i) "cash" "captured" allocated currency
    (key +:+ ":cash:payment") (cc_OutboxTopic i) (cc_OutboxEventType i)
    (JObj [("source", JStr "machine_grpc_cash")]) (cc_OutboxAggregateType i) (cc_OrderID i)
    (key +:+ ":cash:payment:outbox:" +:+ uuid_String (cc_OrderID i)) (cc_Simulated i)
    (cc_SimulationRunID i) (cc_SimulationScenario i) (cc_FakeBill i) (cc_FakeBoard i) 0 None
    "" "" (JObj []) false.

Definition record_acceptance (fin : FinancialCorrectnessStore W) (i : ConfirmCashPaymentInput)
    (currency : string) : M W unit :=
  if is_nil (cc_AcceptanceEvents i) then ret tt
  else
    fc_RecordCashAcceptanceEvents W fin (mk_RecordCashAcceptanceEventsInput (cc_MachineID i)
      (cc_OrderID i) currency (cc_AcceptanceEvents i)) ;;;
    let deviceIDs := List.filter (fun id => negb (blank id))
      (map (fun ev => TrimSpace (cae_DeviceEventID ev)) (cc_AcceptanceEvents i)) in
    match sv_bindAcceptanceEvents W s with
    | Some bind_events =>
        if is_nil deviceIDs then ret tt
        else ignore (bind_events (cc_MachineID i) (cc_OrderID i) deviceIDs)
    | None => ret tt
    end.

Definition record_change (fin : FinancialCorrectnessStore W) (i : ConfirmCashPaymentInput)
    (paymentID : N) (currency : string) : M W (option CashChangeEventView) :=
  let outcome := normalizeChangeOutcome (cc_ChangeOutcome i) in
  if (0 <? cc_ChangeDueMinor i) || negb (String.eqb outcome "none") then
    fmap_M Some (fc_RecordCashChangeEvent W fin (mk_RecordCashChangeEventInput (cc_OrderID i)
      paymentID (cc_MachineID i) (cc_ChangeDueMinor i) (cc_ChangeDispensedMinor i) outcome
      (change_liability outcome (cc_ChangeDueMinor i) (cc_ChangeDispensedMinor i)) currency
      (TrimSpace (cc_IdempotencyKey i) +:+ ":cash:change")))
  else ret None.

(** The cash evidence of one confirmation. *)
Definition record_cash (fin : FinancialCorrectnessStore W) (i : ConfirmCashPaymentInput)
    (pay : Payment) (allocated : Z) (consent currency : string)
    : M W (option CashAllocationView * option CashChangeEventView) :=
  record_acceptance fin i currency ;;;
  let! alloc := fc_RecordCashAllocation W fin (mk_RecordCashAllocationInput (cc_OrderID i)
    (p_ID pay) (cc_MachineID i) allocated (cc_PreOrderCreditMinor i)
    (cc_PostOrderInsertedMinor i) consent (cc_ConsentedAt i) currency
    (TrimSpace (cc_IdempotencyKey i) +:+ ":cash:allocation")) in
  let! change := record_change fin i (p_ID pay) currency in
  let! now := sv_now W s in
  ignore (fc_InsertLedgerEntry W fin (mk_LedgerEntryInput (Some (cc_MachineID i))
    (Some (cc_OrderID i)) (Some (p_ID pay)) "cash_allocated" allocated currency now (JObj []))) ;;;
  (if String.eqb consent "unknown" then
     ignore (fc_UpsertReconciliationCase W fin (mk_ReconciliationCaseInput
       "legacy_cash_confirm_unknown_consent" "info" (Some (cc_OrderID i)) (Some (p_ID pay)) None
       None (Some (cc_MachineID i)) None None
       ("financial_correctness:legacy_cash:" +:+ uuid_String (cc_OrderID i))
       "Legacy thin cash confirm without consent or amount evidence" (JObj [])))
   else ret tt) ;;;
  ret (Some alloc, change).

(** The cash payment becomes the order's payment. *)
Definition pay_with_cash (i : ConfirmCashPaymentInput) (pay : Payment) : M W Order :=
  if sv_winnerArbitrationEnabled W s && negb (is_none (sv_financial W s)) then
    let! arb := AttemptWinningPaymentClaim (p_ID pay) (cc_OrderID i) in
    guard (negb (ar_Won arb)) (illegal_transition "payment lost winner arbitration") ;;;
    ret (ar_Order arb)
  else MarkOrderPaidAfterPaymentCapture uuid_Nil (cc_OrderID i).

Definition ConfirmCashPayment (i : ConfirmCashPaymentInput) : M W ConfirmCashPaymentResult :=
  let! _ := need (sv_payments W s) in
  let! life := need (sv_life W s) in
  guard ((cc_OrderID i =u uuid_Nil) || (cc_MachineID i =u uuid_Nil))
    (invalid_arg "order_id and machine_id required") ;;;
  guard (blank (TrimSpace (cc_IdempotencyKey i))) (invalid_arg "idempotency_key required") ;;;
  let! o := ls_GetOrderByID W life (cc_OrderID i) in
  guard (negb (o_MachineID o =u cc_MachineID i)) (invalid_arg "order machine mismatch") ;;;
  guard (orderStatusTerminal (o_Status o)) (illegal_transition "order is terminal") ;;;
  let! amount := lift (cash_amount i o) in
  let '(allocated, consent) := amount in
  let currency := cash_currency i o in
  let! payRes := StartPaymentWithOutbox (cash_payment i allocated currency) in
  let pay := por_Payment payRes in
  guard (por_Replay payRes &&
         (negb (p_AmountMinor pay =? allocated) ||
          negb (String.eqb (ToUpper (TrimSpace (p_Currency pay))) currency) ||
          negb (String.eqb (p_State pay) "captured"))) ErrIdempotencyPayloadConflict ;;;
  let! evidence := match sv_financial W s with
    | Some fin => record_cash fin i pay allocated consent currency
    | None => ret (None, None)
    end in
  let! paid := pay_with_cash i pay in
  ret (mk_ConfirmCashPaymentResult (por_Replay payRes) pay paid evidence.1 evidence.2).

(** ** Payment sessions (cash_confirm.go, machine_payment_session.go) *)

Definition CancelPaymentSession (i : CancelPaymentSessionInput) : M W CancelPaymentSessionResult :=
  let! life := need (sv_life W s) in
  guard (cps_OrderID i =u uuid_Nil) (invalid_arg "order_id required") ;;;
  let! o := ls_GetOrderByID W life (cps_OrderID i) in
  guard (negb (o_MachineID o =u cps_MachineID i)) (invalid_arg "order machine mismatch") ;;;
  guard (orderStatusTerminal (o_Status o)) (illegal_transition "order is terminal") ;;;
  let! fin := need (sv_financial W s) in
  let! pay := match cps_PaymentID i with
    | Some pid =>
        if pid =u uuid_Nil
        then attempt (fc_GetLatestNonCapturedPaymentForOrder W fin (cps_OrderID i))
        else
          let! pay := ls_GetPaymentByID W life pid in
          guard (negb (p_OrderID pay =u cps_OrderID i)) (invalid_arg "payment order mismatch") ;;;
          ret (Ok pay)
    | None => attempt (fc_GetLatestNonCapturedPaymentForOrder W fin (cps_OrderID i))
    end in
  match pay with
  | Err e => if errors_Is e ErrNotFound then ret (mk_CancelPaymentSessionResult o None) else fail e
  | Ok pay =>
      let! canceled := fc_CancelPaymentByID W fin (p_ID pay) in
      ret (mk_CancelPaymentSessionResult o (Some canceled))
  end.

Definition GetOrderMoneyView (orderID : N) : M W OrderMoneyView :=
  let! fin := need (sv_financial W s) in fc_GetOrderMoneyView W fin orderID.

(** [json.Unmarshal] into a map keeps the last of two equal keys. *)
Definition qr_field (fields : list (string * json)) (k : string) : string :=
  match List.find (fun kv => String.eqb kv.1 k) (reverse fields) with
  | Some (_, JStr v) => TrimSpace v
  | _ => ""
  end.
Definition qrFromAttemptPayload (b : json) : string :=
  match b with
  | JObj fields =>
      default "" (List.find (fun v => negb (blank v))
        (map (qr_field fields) ["qr_code_url"; "qr_url"; "qr_payload_or_url"]))
  | _ => ""
  end.
Definition replayQRPayloadFromStoredAttempt (paymentID : N) : M W string :=
  let! life := need (sv_life W s) in
  if paymentID =u uuid_Nil then ret ""
  else
    let! payload := attempt (ls_GetLatestPaymentAttemptPayload W life paymentID) in
    ret (match payload with Ok (Some b) => qrFromAttemptPayload b | _ => "" end).

Record CreateMachinePaymentSessionInput := mk_SessionInput {
  mi_OrderID : N; mi_MachineID : N; mi_IdempotencyKey : string; mi_ClientProvider : string;
  mi_ClientPayState : string; mi_AmountMinor : Z; mi_Currency : string; mi_AppEnv : string;
  mi_OutboxTopic : string; mi_OutboxEventType : string; mi_OutboxAggregate : string;
  mi_MachineExternalCode : string; mi_StoreID : string; mi_ProviderReference : string;
  mi_PreferredMethod : string; mi_AttemptSeq : Z; mi_SupersedesPaymentID : option N;
  mi_LoadedOrder : option Order }.
Record CreateMachinePaymentSessionResult := mk_SessionResult {
  mr_Replay : bool; mr_Payment : Payment; mr_Outbox : OutboxEvent; mr_ProviderKey : string;
  mr_ProviderReference : string; mr_ProviderSessionID : string; mr_QRPayloadOrURL : string;
  mr_PaymentURL : string; mr_CheckoutURL : string; mr_ExpiresAt : option Z }.

Definition session_payment (i : CreateMachinePaymentSessionInput) (o : Order)
    (pkey providerRef : string) : StartPaymentInput :=
  let key := TrimSpace (mi_IdempotencyKey i) in
  mk_StartPaymentInput (mi_OrderID i) pkey "created" (o_TotalMinor o) (o_Currency o) key
    (mi_OutboxTopic i) (mi_OutboxEventType i)
    (JObj (go_map [("source", JStr "machine_payment_session");
                   ("order_id", JStr (uuid_String (mi_OrderID i))); ("provider", JStr pkey);
                   ("idempotency", JStr key); ("schema_version", JInt 1)]))
    (mi_OutboxAggregate i) (mi_OrderID i) (key +:+ ":outbox:" +:+ uuid_String (mi_OrderID i))
    (o_Simulated o) (default "" (o_SimulationRunID o)) (default "" (o_SimulationScenario o))
    (o_FakeBill o) (o_FakeBoard o) (mi_AttemptSeq i) (mi_SupersedesPaymentID i) "created"
    providerRef
    (JObj (go_map [("provider_reference", JStr providerRef); ("bind_phase", JStr "pre_create")]))
    true.

Definition replay_session (o : Order) (pkey : string) (payRes : PaymentOutboxResult)
    : M W CreateMachinePaymentSessionResult :=
  let pay := por_Payment payRes in
  guard (negb (blank (TrimSpace (p_Provider pay))) &&
         negb (EqualFold (TrimSpace (p_Provider pay)) pkey)) ErrIdempotencyPayloadConflict ;;;
  guard (negb (p_AmountMinor pay =? o_TotalMinor o) ||
         negb (String.eqb (ToUpper (TrimSpace (p_Currency pay))) (ToUpper (TrimSpace (o_Currency o)))) ||
         negb (String.eqb (p_State pay) "created")) ErrIdempotencyPayloadConflict ;;;
  let! qr := replayQRPayloadFromStoredAttempt (p_ID pay) in
  ret (mk_SessionResult true pay (por_Outbox payRes) pkey "" "" qr "" "" None).

(** What is stored of the provider's answer. *)
Definition attempt_payload (sess : PSPSession) (boundRef : string) : rawjson :=
  match pss_ProviderDisplayJSON sess with
  | RawEmpty => RawJSON (JObj (go_map
      [("provider_reference", JStr boundRef);
       ("provider_session_id", JStr (pss_ProviderSessionID sess));
       ("qr_url", JStr (pss_QRPayloadOrURL sess)); ("payment_url", JStr (pss_PaymentURL sess));
       ("checkout_url", JStr (pss_CheckoutURL sess))]))
  | raw => raw
  end.
Definition open_session (i : CreateMachinePaymentSessionInput) (o : Order) (pkey providerRef : string)
    (prov : PaymentProvider W) (payRes : PaymentOutboxResult)
    : M W CreateMachinePaymentSessionResult :=
  let pay := por_Payment payRes in
  let! sess := prov (mk_PSPSessionInput (mi_OrderID i) (p_ID pay) (o_TotalMinor o) (o_Currency o)
    (TrimSpace (mi_IdempotencyKey i)) (TrimSpace (mi_MachineExternalCode i))
    (TrimSpace (mi_StoreID i)) providerRef (TrimSpace (mi_PreferredMethod i))) in
  let boundRef := TrimSpace (pss_ProviderReference sess) in
  let boundRef := if blank boundRef then providerRef else boundRef in
  guard (blank boundRef)
    (EJoin ErrNotConfigured (ENew "payment provider returned empty provider_reference")) ;;;
  let! payload := match attempt_payload sess boundRef with
    | RawJSON v => ret v
    | _ => fail (EJoin ErrNotConfigured
             (ENew "payment provider returned invalid attempt payload json"))
    end in
  let! _ := BindPaymentAttempt
    (mk_InsertPaymentAttemptParams (p_ID pay) "created" (Some boundRef) payload) in
  let qr := TrimSpace (pss_QRPayloadOrURL sess) in
  ret (mk_SessionResult false pay (por_Outbox payRes) pkey boundRef
         (TrimSpace (pss_ProviderSessionID sess))
         (if blank qr then TrimSpace (pss_PaymentURL sess) else qr)
         (TrimSpace (pss_PaymentURL sess)) (TrimSpace (pss_CheckoutURL sess))
         (pss_ExpiresAt sess)).

(** The order the session is for, read or handed in. *)
Definition session_order (life : CommerceLifecycleStore W) (i : CreateMachinePaymentSessionInput)
    : M W Order :=
  match mi_LoadedOrder i with
  | Some o => if o_ID o =u mi_OrderID i then ret o else ls_GetOrderByID W life (mi_OrderID i)
  | None => ls_GetOrderByID W life (mi_OrderID i)
  end.
Definition CreateMachinePaymentSession (i : CreateMachinePaymentSessionInput)
    : M W CreateMachinePaymentSessionResult :=
  let! _ := need (sv_payments W s) in
  let! life := need (sv_life W s) in
  let! registry := need (sv_paymentSessionReg W s) in
  guard ((mi_OrderID i =u uuid_Nil) || (mi_MachineID i =u uuid_Nil))
    (invalid_arg "order_id and machine_id are required") ;;;
  guard (blank (TrimSpace (mi_IdempotencyKey i))) (invalid_arg "idempotency_key is required") ;;;
  let ps := TrimSpace (mi_ClientPayState i) in
  guard (negb (blank ps) && negb (String.eqb (ToLower ps) "created"))
    (invalid_arg "payment_state must be empty or created for PSP sessions") ;;;
  let! o := session_order life i in
  guard (negb (o_MachineID o =u mi_MachineID i)) (invalid_arg "order machine mismatch") ;;;
  guard (negb (o_TotalMinor o =? mi_AmountMinor i))
    (invalid_arg "amount_minor does not match order total") ;;;
  guard (negb (String.eqb (ToUpper (TrimSpace (o_Currency o))) (ToUpper (TrimSpace (mi_Currency i)))))
    (invalid_arg "currency does not match order") ;;;
  guard (orderStatusTerminal (o_Status o)) (illegal_transition "order is terminal") ;;;
  let! chosen := lift (registry (mi_AppEnv i) (mi_ClientProvider i)) in
  let '(prov, pkey) := chosen in
  let given := TrimSpace (mi_ProviderReference i) in
  let! providerRef := (if blank given then sv_newReference W s else ret given) in
  let! payRes := StartPaymentWithOutbox (session_payment i o pkey providerRef) in
  if por_Replay payRes then replay_session o pkey payRes
  else open_session i o pkey providerRef prov payRes.

End Methods.
