(* ===== verification/AdapterCommon.v ===== *)
(** * What the payment adapters share

    net/url of the Go standard library as the adapters use it (writing a form,
    reading a query, the name of the host of an endpoint; a host in brackets is
    taken as it stands, zones included); the posts of
    internal/platform/payments/psp/httpx; the references, the errors of a call
    and of its answer (live_common.go and the adapters).  What happens on the
    wire (net/http, its timeout, reading the answer) is a parameter: a request
    is answered with a response or an error. *)

From S2P Require Import Prelude.
From S2P Require Import GoStd.
From S2P Require Import Sha256.
From S2P Require Import JsonText.
From S2P Require Import Pricing.
From S2P Require Import CommerceTypes.
From S2P Require Import Sanitize.
From S2P Require Import Strconv.
From S2P Require Import Evidence.
From S2P Require Import Rules.
From S2P Require Import PaymentEvents.
From S2P Require Import CommerceService.
Local Open Scope string_scope.
Local Open Scope list_scope.
Local Open Scope Z_scope.

(** ** Writing *)

(** [url.Values.Encode]: keys in their order, escaped as in a query. *)
Definition unreserved (c : ascii) : bool :=
  is_letter c || is_digit c || existsb (is_char c) ["-"; "_"; "."; "~"].
Definition upper_hex (z : Z) : ascii := byte_char (if z <? 10 then 48 + z else 55 + z).
Definition query_char (c : ascii) : list ascii :=
  if unreserved c then [c]
  else if is_char c " " then ["+"%char]
  else ["%"%char; upper_hex (char_byte c / 16); upper_hex (char_byte c mod 16)].
Definition QueryEscape (s : string) : string := l2s (concat (map query_char (s2l s))).
Definition form_pair (kv : string * json) : string :=
  QueryEscape kv.1 +:+ "=" +:+ QueryEscape (match kv.2 with JStr s => s | _ => "" end).
Definition form_encode (fields : list (string * string)) : string :=
  String.concat "&" (map form_pair (go_map (map (fun kv => (kv.1, JStr kv.2)) fields))).

Example form_of_fields :
  form_encode [("mac", "a+b"); ("item", quoted "['x']"); ("bank_code", "")]
  = "bank_code=&item=%5B%22x%22%5D&mac=a%2Bb".
Proof. vm_compute. reflexivity. Qed.

(** ** Reading *)

(** [strings.Cut] at the first byte. *)
Fixpoint cut_at (c : string) (l : list ascii) : list ascii * option (list ascii) :=
  match l with
  | [] => ([], None)
  | x :: l => if is_char x c then ([], Some l) else let '(a, b) := cut_at c l in (x :: a, b)
  end.
Fixpoint split_at (c : string) (l : list ascii) : list (list ascii) :=
  match l with
  | [] => [[]]
  | x :: l =>
      match split_at c l with
      | p :: ps => if is_char x c then [] :: p :: ps else (x :: p) :: ps
      | [] => [[x]]
      end
  end.
(** [%XX] decoded, and [+] for a space in a query; [None] is an error. *)
Fixpoint unescape (query : bool) (l : list ascii) : option (list ascii) :=
  match l with
  | [] => Some []
  | c :: l1 =>
      if is_char c "%" then
        match l1 with
        | a :: b :: l2 =>
            match hex_value a, hex_value b, unescape query l2 with
            | Some x, Some y, Some rest => Some (byte_char (16 * x + y) :: rest)
            | _, _, _ => None
            end
        | _ => None
        end
      else
        rest ← unescape query l1;
        Some ((if query && is_char c "+" then " "%char else c) :: rest)
  end.
(** [url.ParseQuery]: the pairs that can be read, in their order. *)
Definition query_pair (l : list ascii) : option (string * string) :=
  if is_nil l || existsb (fun c => is_char c ";") l then None
  else
    let '(k, v) := cut_at "=" l in
    k ← unescape true k;
    v ← unescape true (default [] v);
    Some (l2s k, l2s v).
Definition ParseQuery (query : string) : list (string * string) :=
  omap query_pair (split_at "&" (s2l query)).
(** [url.Values.Get]: the first value. *)
Definition Values_Get (q : list (string * string)) (key : string) : string :=
  default "" (option_map snd (List.find (fun kv => String.eqb kv.1 key) q)).

Example query_read :
  ParseQuery "vnp_TxnRef=A%2B1&vnp_ResponseCode=00&a;b=1&bad=%zz&x&vnp_TxnRef=B+2" =
  [("vnp_TxnRef", "A+1"); ("vnp_ResponseCode", "00"); ("x", ""); ("vnp_TxnRef", "B 2")].
Proof. vm_compute. reflexivity. Qed.

(** What comes before the last [c], if there is one, and what after. *)
Definition cut_last (c : string) (l : list ascii) : option (list ascii) * list ascii :=
  let '(after, before) := cut_at c (rev l) in (option_map (@rev ascii) before, rev after).
Definition scheme_char (c : ascii) : bool :=
  is_letter c || is_digit c || existsb (is_char c) ["+"; "-"; "."].
(** The scheme and the rest; a text without one is all rest. *)
Definition get_scheme (l : list ascii) : list ascii * list ascii :=
  match cut_at ":" l with
  | (c :: s, Some rest) => if is_letter c && forallb scheme_char s then (c :: s, rest) else ([], l)
  | _ => ([], l)
  end.
Definition host_char (c : ascii) : bool :=
  unreserved c || (127 <? char_byte c) ||
  existsb (is_char c) ["!"; "$"; "&"; "'"; "("; ")"; "*"; "+"; ","; ";"; "="; ":"; "["; "]"; "<"; ">"; "%"] ||
  Ascii.eqb c (byte_char 34).
Definition userinfo_char (c : ascii) : bool :=
  is_letter c || is_digit c ||
  existsb (is_char c) ["-"; "."; "_"; ":"; "~"; "!"; "$"; "&"; "'"; "("; ")"; "*"; "+"; ","; ";"; "="; "%"; "@"].
(** In a host only bytes that are not ASCII, and the percent sign, are escaped. *)
Fixpoint host_escapes_ok (l : list ascii) : bool :=
  match l with
  | c :: l1 =>
      (if is_char c "%" then
         match l1 with
         | a :: b :: _ => (match hex_value a with Some x => 8 <=? x | None => false end) ||
                          (is_char a "2" && is_char b "5")
         | _ => false
         end
       else true) && host_escapes_ok l1
  | [] => true
  end.
(** The host without its port. *)
Definition strip_port (host : list ascii) : list ascii :=
  let host := match cut_last ":" host with
              | (Some h, port) => if forallb is_digit port then h else host
              | _ => host
              end in
  match host with
  | c :: rest =>
      if is_char c "[" then
        match rev rest with d :: r => if is_char d "]" then rev r else host | [] => host end
      else host
  | [] => []
  end.
Definition parse_host (host : list ascii) : option (list ascii) :=
  let port_ok := match host with
    | c :: _ =>
        if is_char c "[" then
          match cut_last "]" host with
          | (Some _, []) => true
          | (Some _, p :: port) => is_char p ":" && forallb is_digit port
          | _ => false
          end
        else match cut_last ":" host with (Some _, port) => forallb is_digit port | _ => true end
    | [] => true
    end in
  if port_ok && forallb host_char host && host_escapes_ok host then unescape false host else None.
(** [url.Parse(raw)] and [Hostname]; [None] is an error. *)
Definition url_Hostname (raw : string) : option string :=
  let '(u, fragment) := cut_at "#" (s2l raw) in
  if existsb (fun c => (char_byte c <? 32) || (char_byte c =? 127)) u || is_none (unescape false (default [] fragment))
  then None
  else
    let '(scheme, rest) := get_scheme u in
    let '(rest, _) := cut_at "?" rest in
    match rest with
    | a :: b :: rest =>
        if is_char a "/" && is_char b "/" then
          let '(authority, path) := cut_at "/" rest in
          let '(userinfo, host) := cut_last "@" authority in
          if negb (forallb userinfo_char (default [] userinfo)) ||
             is_none (unescape false (default [] userinfo)) || is_none (unescape false (default [] path))
          then None
          else option_map (fun h => l2s (strip_port h)) (parse_host host)
        else Some ""
    | _ => Some ""
    end.

Example hostnames :
  map url_Hostname ["https://api.wallet.airpay.vn/v3?x=1#y"; "https://user:pw@Host.vn:8080/"; "host.vn/path";
                    "http://[::1]:80/a"; "https://a b/"; "https://h:x/"; "https://h/%zz"; "mailto:x@y"; "https://"]
  = [Some "api.wallet.airpay.vn"; Some "Host.vn"; Some ""; Some "::1"; None; None; None; Some ""; Some ""].
Proof. vm_compute. reflexivity. Qed.

(** [json.Marshal] of a map of texts, numbers and maps: keys in their order. *)
Fixpoint json_marshal (v : json) : list ascii :=
  match v with
  | JNull => s2l "null"
  | JBool b => s2l (if b then "true" else "false")
  | JNum m O => json_int m
  | JNum m k => s2l (FormatFloat_f (f64_of_decimal m k))
  | JStr s => marshal_string s
  | JArr l => json_array (map json_marshal l)
  | JObj fs => json_struct (map (fun kv => (kv.1, json_marshal kv.2)) fs)
  end.
Definition marshal_map (fs : list (string * json)) : string := l2s (json_marshal (JObj (go_map fs))).

Example marshal_sorted :
  marshal_map [("b", JStr "x<y"); ("amount", JNum 1080 0)] = quoted "{'amount':1080,'b':'x\u003cy'}".
Proof. vm_compute. reflexivity. Qed.

Record HttpRequest := mk_HttpRequest {
  rq_URL : string; rq_Header : list (string * string); rq_Body : string }.
(** [rs_Header] is [resp.Header.Get]. *)
Record HttpResponse := mk_HttpResponse {
  rs_Status : Z; rs_Header : string -> string; rs_Body : string }.

Section Client.
Context {W : Type} (send : HttpRequest -> M W HttpResponse).

(** The headers of a request: its own content type, whatever the caller gives. *)
Definition request_header (contentType : string) (headers : list (string * string)) : list (string * string) :=
  (if blank contentType then [] else [("Content-Type", contentType)]) ++
  List.filter (fun kv => negb (EqualFold kv.1 "Content-Type")) headers.
Definition http_do (endpoint contentType : string) (headers : list (string * string)) (body : string)
    : M W (string * Z) :=
  let! resp := send (mk_HttpRequest endpoint (request_header contentType headers) body) in
  ret (rs_Body resp, rs_Status resp).
Definition PostJSON (endpoint : string) (headers : list (string * string)) (body : list (string * json))
    : M W (string * Z) :=
  http_do endpoint "application/json" headers (marshal_map body).
Definition PostRaw (endpoint contentType : string) (headers : list (string * string)) (body : string)
    : M W (string * Z) :=
  http_do endpoint contentType headers body.
Definition PostForm (endpoint : string) (headers fields : list (string * string)) : M W (string * Z) :=
  http_do endpoint "application/x-www-form-urlencoded" headers (form_encode fields).
Definition PostJSONBytesResult (endpoint : string) (headers : list (string * string)) (body : string)
    : M W HttpResponse :=
  send (mk_HttpRequest endpoint (request_header "application/json" headers) body).
End Client.

Definition resolveProviderRef (i : PSPSessionInput) : string :=
  let r := TrimSpace (psi_ProviderReference i) in
  if blank r then GenerateFromUUID (psi_PaymentID i) else r.

(** [%q] of a plain text. *)
Definition quoted_text (s : string) : string := l2s (quote_char :: s2l s ++ [quote_char]).
Definition not_wired (key : string) : goerr :=
  EOpaque (err_Error ErrLiveProviderNotWired +:+ " for provider " +:+ quoted_text key) ErrLiveProviderNotWired.
(** An answer with a code that is no success. *)
Definition refused (what : string) (m : list (string * json)) (code label message : string) : goerr :=
  ENew (what +:+ " failed: " +:+ code +:+ "=" +:+ Sprint (field code m) +:+ " " +:+ label +:+ "=" +:+
        asString (field message m)).
(** An error of the call keeps its cause, named. *)
Definition named {W A} (name : string) (m : M W A) : M W A :=
  let! r := attempt m in match r with Ok a => ret a | Err e => fail (EWrapPre name e) end.
(** The map an answer holds; [answer] is its body and its status. *)
Definition decoded {W} (name : string) (answer : string * Z) : M W (list (string * json)) :=
  match decodeJSONMap answer.1 with
  | Ok m => ret m
  | Err e => fail (EOpaque (name +:+ " decode: " +:+ err_Error e +:+ " (http " +:+ FormatInt answer.2 +:+ ")") e)
  end.
(** The body of a notification, as it is stored. *)
Definition raw_payload (raw : string) : rawjson :=
  match json_parse raw with Some v => RawJSON v | None => RawInvalid end.
