(* ===== verification/MoMo.v ===== *)
(** * The MoMo adapter

    internal/platform/payments/momo_provider.go and psp/momo: signatures over
    canonical texts, result codes, the calls to the gateway and its
    notifications.  The wire, the clock and fresh request ids are parameters. *)

From S2P Require Import Prelude.
From S2P Require Import GoStd.
From S2P Require Import JsonText.
From S2P Require Import Pricing.
From S2P Require Import CommerceTypes.
From S2P Require Import Sanitize.
From S2P Require Import Strconv.
From S2P Require Import Hmac.
From S2P Require Import Evidence.
From S2P Require Import Rules.
From S2P Require Import PaymentEvents.
From S2P Require Import AdapterCommon.
From S2P Require Import CommerceService.
Local Open Scope string_scope.
Local Open Scope list_scope.
Local Open Scope Z_scope.

(** ** psp/momo *)

Record Credentials := mk_Credentials {
  PartnerCode : string; AccessKey : string; SecretKey : string; Endpoint : string; RedirectURL : string;
  IPNURL : string; TerminalID : string }.
Record TenantKeys := mk_TenantKeys { key_AVF : Credentials; key_TFO : Credentials }.
Definition ResolveTenant (machineCode : string) : string := if HasPrefix machineCode "TFO" then "tfo" else "avf".
Definition ForTenant (k : TenantKeys) (tenant : string) : Credentials :=
  if String.eqb tenant "tfo" then key_TFO k else key_AVF k.

(** The canonical text of a list of named fields. *)
Definition canonical (fields : list (string * string)) : string :=
  String.concat "&" (map (fun kv => kv.1 +:+ "=" +:+ kv.2) fields).

Record CreateRequest := mk_CreateRequest {
  cr_AccessKey : string; cr_Amount : string; cr_ExtraData : string; cr_IPNURL : string; cr_OrderID : string;
  cr_OrderInfo : string; cr_PartnerCode : string; cr_RedirectURL : string; cr_RequestID : string;
  cr_RequestType : string; cr_StoreID : string; cr_Lang : string }.
Definition SignCreate (secret : string) (r : CreateRequest) : string :=
  hmacSHA256Hex secret (canonical
    [("accessKey", cr_AccessKey r); ("amount", cr_Amount r); ("extraData", cr_ExtraData r);
     ("ipnUrl", cr_IPNURL r); ("orderId", cr_OrderID r); ("orderInfo", cr_OrderInfo r);
     ("partnerCode", cr_PartnerCode r); ("redirectUrl", cr_RedirectURL r); ("requestId", cr_RequestID r);
     ("requestType", cr_RequestType r)]).
Definition SignQuery (secret accessKey orderID partnerCode requestID : string) : string :=
  hmacSHA256Hex secret (canonical
    [("accessKey", accessKey); ("orderId", orderID); ("partnerCode", partnerCode); ("requestId", requestID)]).
Record IPNFields := mk_IPNFields {
  ipn_AccessKey : string; ipn_Amount : string; ipn_ExtraData : string; ipn_Message : string;
  ipn_OrderID : string; ipn_OrderInfo : string; ipn_OrderType : string; ipn_PartnerCode : string;
  ipn_PayType : string; ipn_RequestID : string; ipn_ResponseTime : string; ipn_ResultCode : string;
  ipn_TransID : string }.
Definition ipn_text (f : IPNFields) : string :=
  canonical
    [("accessKey", ipn_AccessKey f); ("amount", ipn_Amount f); ("extraData", ipn_ExtraData f);
     ("message", ipn_Message f); ("orderId", ipn_OrderID f); ("orderInfo", ipn_OrderInfo f);
     ("orderType", ipn_OrderType f); ("partnerCode", ipn_PartnerCode f); ("payType", ipn_PayType f);
     ("requestId", ipn_RequestID f); ("responseTime", ipn_ResponseTime f); ("resultCode", ipn_ResultCode f);
     ("transId", ipn_TransID f)].
Definition SignIPN (secret : string) (f : IPNFields) : string := hmacSHA256Hex secret (ipn_text f).
Definition BuildCreateBody (secret : string) (r : CreateRequest) : list (string * json) :=
  let r := mk_CreateRequest (cr_AccessKey r) (cr_Amount r) (cr_ExtraData r) (cr_IPNURL r) (cr_OrderID r)
             (cr_OrderInfo r) (cr_PartnerCode r) (cr_RedirectURL r) (cr_RequestID r)
             (if blank (cr_RequestType r) then "captureWallet" else cr_RequestType r) (cr_StoreID r)
             (if blank (cr_Lang r) then "vi" else cr_Lang r) in
  [("partnerCode", JStr (cr_PartnerCode r)); ("storeId", JStr (cr_StoreID r));
   ("requestType", JStr (cr_RequestType r)); ("ipnUrl", JStr (cr_IPNURL r));
   ("redirectUrl", JStr (cr_RedirectURL r)); ("orderId", JStr (cr_OrderID r));
   ("amount", JStr (cr_Amount r)); ("lang", JStr (cr_Lang r)); ("orderInfo", JStr (cr_OrderInfo r));
   ("requestId", JStr (cr_RequestID r)); ("extraData", JStr (cr_ExtraData r));
   ("signature", JStr (SignCreate secret r))].
Definition VerifyIPNSignature (secret : string) (f : IPNFields) (signature : string) : bool :=
  if blank secret || blank signature then false
  else hmac_Equal (s2l (SignIPN secret f)) (s2l signature).

Record ResultCodeDetail := mk_ResultCodeDetail { rcd_Status : string; rcd_Recognized : bool }.
Definition pending_codes : list Z := [9000; 1000; 7000; 7002; 8000].
Definition failed_codes : list Z :=
  [1001; 1002; 1003; 1004; 1005; 1006; 1007; 1008; 1009; 1010; 11; 12; 13; 20; 21; 22; 40; 41; 42; 43; 44; 45;
   46; 47; 48; 49; 50].
Definition MapResultCodeDetail (resultCode : Z) : ResultCodeDetail :=
  if resultCode =? 0 then mk_ResultCodeDetail "captured" true
  else if existsb (Z.eqb resultCode) pending_codes then mk_ResultCodeDetail "pending" true
  else if existsb (Z.eqb resultCode) failed_codes then mk_ResultCodeDetail "failed" true
  else mk_ResultCodeDetail "pending" false.
Definition MapResultCode (resultCode : Z) : string := rcd_Status (MapResultCodeDetail resultCode).
Definition MapResultCodeToReturnCode (resultCode : Z) : Z :=
  let s := MapResultCode resultCode in
  if String.eqb s "captured" then 0 else if String.eqb s "pending" then 1 else -1.
Definition FormatAmount (vnd : Z) : string := FormatInt vnd.

(** ** momo_provider.go *)

Record MoMoProvider := mk_MoMoProvider { mp_keys : TenantKeys; mp_wired : bool }.
Definition momoTenantWired (t : Credentials) : bool :=
  negb (blank (TrimSpace (PartnerCode t))) && negb (blank (TrimSpace (AccessKey t))) &&
  negb (blank (TrimSpace (SecretKey t))) && negb (blank (TrimSpace (Endpoint t))).
Definition MoMoWired (k : TenantKeys) : bool := momoTenantWired (key_AVF k) || momoTenantWired (key_TFO k).
(** From the credentials of the configuration. *)
Definition NewMoMoProvider (k : TenantKeys) : MoMoProvider := mk_MoMoProvider k (MoMoWired k).

Definition credsForMachine (p : MoMoProvider) (machineCode : string) : Credentials :=
  ForTenant (mp_keys p) (ResolveTenant machineCode).
Definition resolveMoMoStoreID (i : PSPSessionInput) (creds : Credentials) : string :=
  let storeID := TrimSpace (psi_StoreID i) in
  if blank storeID then TrimSpace (TerminalID creds) else storeID.
Definition momoOrderInfo (machineExternalCode providerRef : string) : string :=
  let code := TrimSpace machineExternalCode in
  if blank code then "Thanh toan don hang MoMo " +:+ providerRef
  else "Thanh toan " +:+ code +:+ " don hang MoMo " +:+ providerRef.

(** The text a notification is signed over, from its fields and the key of the partner. *)
Definition ipn_fields (creds : Credentials) (partnerCode : string) (data : list (string * json)) : IPNFields :=
  let text key := asString (field key data) in
  mk_IPNFields (AccessKey creds) (text "amount") (text "extraData") (text "message") (text "orderId")
    (text "orderInfo") (text "orderType") partnerCode (text "payType") (text "requestId") (text "responseTime")
    (text "resultCode") (text "transId").
Definition ipn_partner (p : MoMoProvider) (partnerCode : string) : option Credentials :=
  let mine c := negb (blank (TrimSpace (PartnerCode c))) && String.eqb partnerCode (PartnerCode c) in
  if mine (key_TFO (mp_keys p)) then Some (key_TFO (mp_keys p))
  else if mine (key_AVF (mp_keys p)) then Some (key_AVF (mp_keys p)) else None.
Definition ipn_event (data : list (string * json)) (fields : IPNFields) (raw : string) : CommerceWebhookEventJSON :=
  mk_WebhookEvent "momo" (ipn_OrderID fields) (ipn_RequestID fields) "momo.ipn"
    (MapResultCode (asInt (field "resultCode" data))) (raw_payload raw) (Some (asInt64 (field "amount" data)))
    (Some "VND").
Definition VerifyAndParseIPN (p : MoMoProvider) (raw : string)
    : res (string * string * string * CommerceWebhookEventJSON) :=
  let? data := decodeJSONMap raw in
  let partnerCode := asString (field "partnerCode" data) in
  if blank partnerCode then Err (ENew "momo ipn: missing partnerCode")
  else
    match ipn_partner p partnerCode with
    | None => Err (ENew "momo ipn: unknown partnerCode")
    | Some creds =>
        let fields := ipn_fields creds partnerCode data in
        let sig := asString (field "signature" data) in
        if negb (VerifyIPNSignature (SecretKey creds) fields sig) then Err (ENew "momo ipn: invalid signature")
        else
          let event := ipn_event data fields raw in
          Ok (ipn_OrderID fields, wj_NormalizedPaymentState event, ipn_TransID fields, event)
    end.

Section Calls.
Context {W : Type} (send : HttpRequest -> M W HttpResponse) (now : M W Z) (newRequestID : M W string).
Context (p : MoMoProvider).

Definition create_request (i : PSPSessionInput) (creds : Credentials) (providerRef requestID : string)
    : CreateRequest :=
  mk_CreateRequest (AccessKey creds) (FormatAmount (psi_AmountMinor i)) "" (IPNURL creds) providerRef
    (momoOrderInfo (psi_MachineExternalCode i) providerRef) (PartnerCode creds) (RedirectURL creds) requestID
    "captureWallet" (resolveMoMoStoreID i creds) "vi".
Definition CreatePaymentSession (i : PSPSessionInput) : M W PSPSession :=
  let creds := credsForMachine p (psi_MachineExternalCode i) in
  if negb (mp_wired p) || blank (TrimSpace (Endpoint creds)) || blank (TrimSpace (PartnerCode creds))
  then fail (not_wired "momo")
  else
    let providerRef := resolveProviderRef i in
    let! requestID := newRequestID in
    let body := BuildCreateBody (SecretKey creds) (create_request i creds providerRef requestID) in
    let! answer := named "momo create"
      (PostJSON send (joinEndpoint (Endpoint creds) "/v2/gateway/api/create") [] body) in
    let! m := decoded "momo create" answer in
    if negb (asInt (field "resultCode" m) =? 0) then fail (refused "momo create" m "resultCode" "message" "message")
    else
      let qr := asString (field "qrCodeUrl" m) in
      let display := JObj (go_map
        [("provider", JStr "momo"); ("provider_reference", JStr providerRef); ("request_id", JStr requestID);
         ("qr_code_url", JStr qr); ("result_code", field "resultCode" m)]) in
      let! t := now in
      ret (mk_PSPSession providerRef requestID qr qr qr (Some (t + 15 * Minute)) (RawJSON display)).

Definition QueryPaymentStatus (lookup : PaymentProviderLookup) : M W PaymentStatusSnapshot :=
  let orderID := TrimSpace (ppl_ProviderReference lookup) in
  if negb (mp_wired p) then fail ErrQueryPaymentStatusNotSupported
  else if blank orderID then fail (ENew "momo query: provider_reference required")
  else
    let creds := credsForMachine p (ppl_MachineExternalCode lookup) in
    let! requestID := newRequestID in
    let sig := SignQuery (SecretKey creds) (AccessKey creds) orderID (PartnerCode creds) requestID in
    let! answer := named "momo query"
      (PostJSON send (joinEndpoint (Endpoint creds) "/v2/gateway/api/query") []
         [("partnerCode", JStr (PartnerCode creds)); ("requestId", JStr requestID); ("orderId", JStr orderID);
          ("signature", JStr sig); ("lang", JStr "vi")]) in
    let! m := decoded "momo query" answer in
    if negb (has_field "resultCode" m) then fail (ENew "momo query: missing resultCode in response")
    else ret (mk_PaymentStatusSnapshot (MapResultCode (asInt (field "resultCode" m))) (JObj m)).

(** platform/payments.RefundPaymentInput and CancelPaymentInput, what the adapters read. *)
Definition trans_prefix : string := "trans:".
Definition refund_trans (idempotencyKey : string) : string :=
  if HasPrefix (ToLower (TrimSpace idempotencyKey)) trans_prefix
  then TrimSpace (String.substring 6 (String.length idempotencyKey - 6) idempotencyKey) else "".
Definition RefundPayment (providerReference : string) (amountMinor : Z) (idempotencyKey : string) : M W unit :=
  if negb (mp_wired p) then fail (not_wired "momo")
  else
    let transID := refund_trans idempotencyKey in
    let orderID := TrimSpace providerReference in
    if blank transID then fail ErrNotImplemented
    else if blank orderID then fail (ENew "momo refund: provider_reference required")
    else
      let creds := if blank (TrimSpace (PartnerCode (key_AVF (mp_keys p)))) then key_TFO (mp_keys p)
                   else key_AVF (mp_keys p) in
      let! requestID := newRequestID in
      let amount := FormatAmount amountMinor in
      let description := "Refund don hang " +:+ orderID in
      let sig := hmacSHA256Hex (SecretKey creds) (canonical
        [("accessKey", AccessKey creds); ("amount", amount); ("description", description);
         ("orderId", orderID); ("partnerCode", PartnerCode creds); ("requestId", requestID);
         ("transId", transID)]) in
      let! answer := named "momo refund"
        (PostJSON send (joinEndpoint (Endpoint creds) "/v2/gateway/api/refund") []
           [("partnerCode", JStr (PartnerCode creds)); ("orderId", JStr orderID); ("requestId", JStr requestID);
            ("amount", JStr amount); ("transId", JStr transID); ("description", JStr description);
            ("ipnUrl", JStr (IPNURL creds)); ("signature", JStr sig)]) in
      let! m := decoded "momo refund" answer in
      if negb (asInt (field "resultCode" m) =? 0) then fail (refused "momo refund" m "resultCode" "message" "message")
      else ret tt.
End Calls.
