(* ===== verification/ZaloPay.v ===== *)
(** * The ZaloPay adapter

    internal/platform/payments/zalopay_provider.go and psp/zalopay; VietQR is
    the same adapter under another key.  The wire and the clock are parameters,
    and so is the distance of the local time of the process from UTC, by which
    ZaloPay's transaction ids are dated. *)

From S2P Require Import Prelude.
From S2P Require Import GoStd.
From S2P Require Import JsonText.
From S2P Require Import Pricing.
From S2P Require Import CommerceTypes.
From S2P Require Import Sanitize.
From S2P Require Import Strconv.
From S2P Require Import Hmac.
From S2P Require Import Evidence.
From S2P Require Import Rules.
From S2P Require Import PaymentEvents.
From S2P Require Import AdapterCommon.
From S2P Require Import CommerceService.
Local Open Scope string_scope.
Local Open Scope list_scope.
Local Open Scope Z_scope.

(** ** psp/zalopay *)

Record Credentials := mk_Credentials {
  AppID : string; Key1 : string; Key2 : string; Endpoint : string; CallbackURL : string }.
Definition piped (fields : list string) : string := String.concat "|" fields.
Definition CreateOrderMAC (key1 appID appTransID appUser amount : string) (appTime : Z) (embedData item : string)
    : string :=
  hmacSHA256Hex key1 (piped [appID; appTransID; appUser; amount; FormatInt appTime; embedData; item]).
Definition QueryMAC (key1 appID appTransID : string) : string :=
  hmacSHA256Hex key1 (piped [appID; appTransID; key1]).
Definition CallbackMAC (key2 data : string) : string := hmacSHA256Hex key2 data.
Definition VerifyCallbackMAC (key2 data mac : string) : bool :=
  if blank key2 || blank mac then false else hmac_Equal (s2l (CallbackMAC key2 data)) (s2l mac).

(** [now.Format("060102")] of a local time. *)
Definition Format_yymmdd (t : Z) : string :=
  let '(y, m, d) := civil_from_days (t / (24 * Hour)) in pad 2 (y mod 100) +:+ pad 2 m +:+ pad 2 d.
Definition AppTransID (orderCode : string) (local : Z) : string := Format_yymmdd local +:+ "_" +:+ orderCode.
Definition EmbedData (vietqr : bool) : string :=
  marshal_map [("preferred_payment_method", JArr [JStr (if vietqr then "vietqr" else "zalopay_wallet")])].

Record ReturnCodeDetail := mk_ReturnCodeDetail { zrd_Status : string; zrd_LegacyCode : Z; zrd_Recognized : bool }.
Definition MapReturnCodeDetail (returnCode : Z) : ReturnCodeDetail :=
  if returnCode =? 1 then mk_ReturnCodeDetail "captured" 0 true
  else if returnCode =? 3 then mk_ReturnCodeDetail "pending" 1 true
  else if existsb (Z.eqb returnCode) [2; -1; -49; -54; -63] then mk_ReturnCodeDetail "failed" (-1) true
  else mk_ReturnCodeDetail "pending" 1 false.
Definition MapReturnCode (returnCode : Z) : string * Z :=
  let d := MapReturnCodeDetail returnCode in (zrd_Status d, zrd_LegacyCode d).
Definition FormatAmount (vnd : Z) : string := FormatInt vnd.

(** ** zalopay_provider.go *)

Record ZaloPayProvider := mk_ZaloPayProvider { zp_creds : Credentials; zp_vietQR : bool; zp_wired : bool }.
Definition ZaloPayWired (c : Credentials) : bool :=
  negb (blank (TrimSpace (AppID c))) && negb (blank (TrimSpace (Key1 c))) && negb (blank (TrimSpace (Key2 c))) &&
  negb (blank (TrimSpace (Endpoint c))).
Definition NewZaloPayProvider (c : Credentials) (vietQR : bool) : ZaloPayProvider :=
  mk_ZaloPayProvider c vietQR (ZaloPayWired c).
Definition ZaloPay_Key (p : ZaloPayProvider) : string := if zp_vietQR p then "vietqr" else "zalopay".

(** What follows the first underscore, if anything does. *)
Definition reference_of_trans (appTransID : string) : string :=
  match index_byte (s2l appTransID) "_"%char with
  | Some i => if Nat.ltb (i + 1) (String.length appTransID) then l2s (drop (i + 1) (s2l appTransID)) else appTransID
  | None => appTransID
  end.
(** The envelope of a callback: the signed text and its mac. *)
Definition decode_envelope (raw : string) : res (string * string) :=
  match json_parse raw with
  | Some JNull => Ok ("", "")
  | Some (JObj fs) =>
      match GoStd.json_string "data" fs, GoStd.json_string "mac" fs, GoStd.json_string "type" fs with
      | Some data, Some mac, Some _ => Ok (data, mac)
      | _, _, _ => Err ErrDecode
      end
  | _ => Err ErrDecode
  end.
Definition callback_event (p : ZaloPayProvider) (data : list (string * json)) (raw : string)
    : CommerceWebhookEventJSON :=
  let status := if has_field "return_code" data
                then (MapReturnCode (asInt (field "return_code" data))).1 else "pending" in
  mk_WebhookEvent (ZaloPay_Key p) (reference_of_trans (asString (field "app_trans_id" data)))
    (asString (field "zp_trans_id" data)) "zalopay.callback" status (raw_payload raw)
    (Some (asInt64 (field "amount" data))) (Some "VND").
Definition VerifyAndParseCallback (p : ZaloPayProvider) (raw : string)
    : res (string * string * string * CommerceWebhookEventJSON) :=
  let? cb := decode_envelope raw in
  let '(data, mac) := cb in
  if negb (VerifyCallbackMAC (Key2 (zp_creds p)) data mac) then Err (ENew "zalopay callback: invalid mac")
  else
    match decodeJSONMap data with
    | Err e => Err (EWrapPre "zalopay callback data" e)
    | Ok m =>
        let event := callback_event p m raw in
        Ok (wj_ProviderReference event, wj_NormalizedPaymentState event, wj_WebhookEventID event, event)
    end.
Definition zalopayAppTransIDFromPayload (payload : option json) : string :=
  match payload with
  | Some (JObj fs) =>
      if any_ok (JObj fs)
      then match as_any (JObj fs) with JObj m => TrimSpace (asString (field "app_trans_id" m)) | _ => "" end
      else ""
  | _ => ""
  end.

Section Calls.
Context {W : Type} (send : HttpRequest -> M W HttpResponse) (now : M W Z) (zone : Z).
Context (p : ZaloPayProvider).

(** [t.UnixMilli()]. *)
Definition unix_milli (t : Z) : Z := t / Millisecond - 62135596800 * 1000.
Definition embed_of (preferredMethod : string) : string :=
  let pm := ToLower (TrimSpace preferredMethod) in
  if String.eqb pm "vietqr" then EmbedData true
  else if one_of pm ["zalopay"; "zalopay_wallet"] then EmbedData false
  else EmbedData (zp_vietQR p).
Definition CreatePaymentSession (i : PSPSessionInput) : M W PSPSession :=
  if negb (zp_wired p) then fail (not_wired (ZaloPay_Key p))
  else
    let creds := zp_creds p in
    let providerRef := resolveProviderRef i in
    let! t := now in
    let appTransID := AppTransID providerRef (t + zone) in
    let appTime := unix_milli t in
    let embed := embed_of (psi_PreferredMethod i) in
    let amount := FormatAmount (psi_AmountMinor i) in
    let appUser := let u := TrimSpace (psi_StoreID i) in if blank u then "avf" else u in
    let mac := CreateOrderMAC (Key1 creds) (AppID creds) appTransID appUser amount appTime embed "[]" in
    let! answer := named "zalopay create"
      (PostForm send (joinEndpoint (Endpoint creds) "/v2/create") []
         [("app_id", AppID creds); ("app_trans_id", appTransID); ("app_user", appUser);
          ("app_time", FormatInt appTime); ("embed_data", embed); ("item", "[]"); ("amount", amount);
          ("callback_url", TrimSpace (CallbackURL creds));
          ("description", "AVF - Thanh toan cho don hang #" +:+ providerRef); ("bank_code", ""); ("mac", mac)]) in
    let! m := decoded "zalopay create" answer in
    if negb (asInt (field "return_code" m) =? 1) then
      fail (refused "zalopay create" m "return_code" "message"
              (if blank (asString (field "sub_return_message" m)) then "return_message" else "sub_return_message"))
    else
      let qr := asString (field "qr_code" m) in
      let display := JObj (go_map
        [("provider", JStr (ZaloPay_Key p)); ("provider_reference", JStr providerRef);
         ("app_trans_id", JStr appTransID); ("qr_code", JStr qr); ("return_code", field "return_code" m)]) in
      ret (mk_PSPSession providerRef appTransID qr qr qr (Some (t + 15 * Minute)) (RawJSON display)).

(** The transaction a query asks about: the reference itself if it is dated,
    the one stored with the attempt, or the reference dated today. *)
Definition asked_trans (reference : string) (payload : option json) (local : Z) : string :=
  if Contains reference "_" then reference
  else
    let stored := zalopayAppTransIDFromPayload payload in
    if blank stored then AppTransID reference local else stored.
Definition QueryPaymentStatus (lookup : PaymentProviderLookup) : M W PaymentStatusSnapshot :=
  let reference := TrimSpace (ppl_ProviderReference lookup) in
  if negb (zp_wired p) then fail ErrQueryPaymentStatusNotSupported
  else if blank reference then fail (ENew "zalopay query: provider_reference required")
  else
    let creds := zp_creds p in
    let! t := now in
    let appTransID := asked_trans reference (ppl_AttemptPayloadJSON lookup) (t + zone) in
    let! answer := named "zalopay query"
      (PostForm send (joinEndpoint (Endpoint creds) "/v2/query") []
         [("app_id", AppID creds); ("app_trans_id", appTransID);
          ("mac", QueryMAC (Key1 creds) (AppID creds) appTransID)]) in
    let! m := decoded "zalopay query" answer in
    if negb (has_field "return_code" m) then fail (ENew "zalopay query: missing return_code in response")
    else ret (mk_PaymentStatusSnapshot (MapReturnCode (asInt (field "return_code" m))).1 (JObj m)).
End Calls.

Example app_trans_id : AppTransID "REF1" (63844847999 * Second) = "240229_REF1".
Proof. vm_compute. reflexivity. Qed.
Example embed_vietqr : EmbedData true = quoted "{'preferred_payment_method':['vietqr']}".
Proof. vm_compute. reflexivity. Qed.
