(* ===== verification/VNPay.v ===== *)
(** * The VNPay adapter

    internal/platform/payments/vnpay_provider.go and psp/vnpay: checksums by
    MD5, response codes, the calls to the gateway, and the query its return URL
    carries.  The wire and the clock are parameters. *)

From S2P Require Import Prelude.
From S2P Require Import GoStd.
From S2P Require Import Sha256.
From S2P Require Import JsonText.
From S2P Require Import Pricing.
From S2P Require Import CommerceTypes.
From S2P Require Import Sanitize.
From S2P Require Import Strconv.
From S2P Require Import Hmac.
From S2P Require Import Evidence.
From S2P Require Import Rules.
From S2P Require Import PaymentEvents.
From S2P Require Import AdapterCommon.
From S2P Require Import CommerceService.
Local Open Scope string_scope.
Local Open Scope list_scope.
Local Open Scope Z_scope.

(** ** psp/vnpay *)

Definition MerchantName : string := "AVF VIET NAM".
Definition ServiceCode : string := "03".
Definition PayType : string := "03".
Definition CCY : string := "704".
Definition MerchantType : string := "5045".
Definition CountryCode : string := "VN".

Record Credentials := mk_Credentials {
  AppID : string; SecretKey : string; SecretKeyCheckTrans : string; SecretKeyRefund : string;
  MasterMerCode : string; MerchantCode : string; TerminalID : string; EndpointURL : string;
  EndpointQueryURL : string; ReturnURL : string }.
Record CreateChecksumFields := mk_CreateChecksumFields {
  cc_AppID : string; cc_MasterMerCode : string; cc_MerchantCode : string; cc_TerminalID : string;
  cc_ProductID : string; cc_TxnID : string; cc_Amount : string; cc_TipAndFee : string; cc_ExpDate : string;
  cc_Secret : string }.
Definition md5Upper (raw : string) : string := ToUpper (EncodeToString (md5_Sum (s2l raw))).
Definition CreateChecksum (f : CreateChecksumFields) : string :=
  md5Upper (String.concat "|"
    [cc_AppID f; MerchantName; ServiceCode; CountryCode; cc_MasterMerCode f; MerchantType; cc_MerchantCode f;
     cc_TerminalID f; PayType; cc_ProductID f; cc_TxnID f; cc_Amount f; cc_TipAndFee f; CCY; cc_ExpDate f;
     cc_Secret f]).
Definition QueryChecksum (payDate txnID merchantCode terminalID secretCheckTrans : string) : string :=
  md5Upper (String.concat "|" [payDate; txnID; merchantCode; terminalID; secretCheckTrans]).

Record CodeDetail := mk_CodeDetail { vcd_Status : string; vcd_LegacyCode : Z; vcd_Recognized : bool }.
Definition pending_codes : list string := ["09"; "10"; "11"; "12"; "13"; "24"; "51"; "91"; "97"; "99"].
Definition failed_codes : list string :=
  ["01"; "02"; "03"; "04"; "05"; "06"; "07"; "19"; "20"; "21"; "22"; "23"; "25"; "26"; "27"; "28"; "29"; "30";
   "31"; "32"; "33"; "34"; "35"; "36"; "37"; "38"; "39"; "40"; "41"; "42"; "43"; "44"; "45"; "46"; "47"; "48";
   "49"; "50"; "52"; "53"; "54"; "55"; "56"; "57"; "58"; "59"; "60"; "61"; "62"; "63"; "64"; "65"; "66"; "67";
   "68"; "69"; "70"; "71"; "72"; "73"; "74"; "75"; "76"; "77"; "78"; "79"; "80"; "81"; "82"; "83"; "84"; "85";
   "86"; "87"; "88"; "89"; "90"; "92"; "93"; "94"; "95"; "96"; "98"].
Definition MapCodeDetail (code : string) : CodeDetail :=
  let c := TrimSpace code in
  if one_of c ["00"; "08"] then mk_CodeDetail "captured" 0 true
  else if one_of c pending_codes then mk_CodeDetail "pending" 1 true
  else if one_of c failed_codes then mk_CodeDetail "failed" (-1) true
  else mk_CodeDetail "pending" 1 false.
Definition MapCode (code : string) : string * Z := (vcd_Status (MapCodeDetail code), vcd_LegacyCode (MapCodeDetail code)).

(** ** vnpay_provider.go *)

Record VNPayProvider := mk_VNPayProvider { vp_creds : Credentials; vp_wired : bool }.
Definition VNPayWired (c : Credentials) : bool :=
  negb (blank (TrimSpace (AppID c))) && negb (blank (TrimSpace (SecretKey c))) &&
  negb (blank (TrimSpace (MerchantCode c))) && negb (blank (TrimSpace (EndpointURL c))) &&
  negb (blank (TrimSpace (EndpointQueryURL c))).
Definition NewVNPayProvider (c : Credentials) : VNPayProvider := mk_VNPayProvider c (VNPayWired c).

(** [now.Format("06010215") + now.Format("01")]: year, month, day, hour, month. *)
Definition expiry_date (t : Z) : string :=
  let '(y, m, d) := civil_from_days (t / (24 * Hour)) in
  pad 2 (y mod 100) +:+ pad 2 m +:+ pad 2 d +:+ pad 2 (t mod (24 * Hour) / Hour) +:+ pad 2 m.
(** [now.Format("02/01/2006")] *)
Definition pay_date (t : Z) : string :=
  let '(y, m, d) := civil_from_days (t / (24 * Hour)) in pad 2 d +:+ "/" +:+ pad 2 m +:+ "/" +:+ pad 4 y.
Definition checksum_fields (c : Credentials) (terminalID providerRef amount expDate : string) : CreateChecksumFields :=
  mk_CreateChecksumFields (AppID c) (MasterMerCode c) (MerchantCode c) terminalID "" providerRef amount ""
    expDate (SecretKey c).
Definition create_payload (c : Credentials) (terminalID providerRef amount expDate : string)
    : list (string * json) :=
  [("appId", JStr (AppID c)); ("merchantName", JStr MerchantName); ("serviceCode", JStr ServiceCode);
   ("payType", JStr PayType); ("ccy", JStr CCY); ("merchantType", JStr MerchantType);
   ("masterMerCode", JStr (MasterMerCode c)); ("countryCode", JStr CountryCode);
   ("merchantCode", JStr (MerchantCode c)); ("payloadFormat", JStr ""); ("terminalId", JStr terminalID);
   ("productId", JStr ""); ("productName", JStr ""); ("imageName", JStr ""); ("txnId", JStr providerRef);
   ("amount", JStr amount); ("tipAndFee", JStr ""); ("expDate", JStr expDate); ("desc", JStr "");
   ("merchantCity", JStr ""); ("merchantCC", JStr ""); ("fixedFee", JStr ""); ("percentageFee", JStr "");
   ("pinCode", JStr ""); ("billNumber", JStr providerRef); ("creator", JStr ""); ("consumerID", JStr "");
   ("purpose", JStr "");
   ("checksum", JStr (CreateChecksum (checksum_fields c terminalID providerRef amount expDate)))].

(** The query of the return URL: nothing in it is checked against a key. *)
Definition ParseReturnQuery (q : list (string * string)) : res CommerceWebhookEventJSON :=
  let txnRef := TrimSpace (Values_Get q "vnp_TxnRef") in
  let respCode := TrimSpace (Values_Get q "vnp_ResponseCode") in
  let transNo := TrimSpace (Values_Get q "vnp_TransactionNo") in
  if blank txnRef then Err (ENew "vnpay return: missing vnp_TxnRef")
  else Ok (mk_WebhookEvent "vnpay" txnRef transNo "vnpay.return" (MapCode respCode).1
             (RawJSON (JObj (go_map [("vnp_TxnRef", JStr txnRef); ("vnp_ResponseCode", JStr respCode);
                                     ("vnp_TransactionNo", JStr transNo)])))
             None (Some "VND")).

Section Calls.
Context {W : Type} (send : HttpRequest -> M W HttpResponse) (now : M W Z).
Context (p : VNPayProvider).

Definition CreatePaymentSession (i : PSPSessionInput) : M W PSPSession :=
  if negb (vp_wired p) then fail (not_wired "vnpay")
  else
    let creds := vp_creds p in
    let providerRef := resolveProviderRef i in
    let terminalID := let s := TrimSpace (psi_StoreID i) in if blank s then TrimSpace (TerminalID creds) else s in
    let! t := now in
    let amount := FormatInt (psi_AmountMinor i) in
    let body := marshal_map (create_payload creds terminalID providerRef amount (expiry_date t)) in
    let! answer := named "vnpay create"
      (PostRaw send (joinEndpoint (EndpointURL creds) "/QRCreateAPIRestV2/rest/CreateQrcodeApi/createQrcode")
         "text/plain" [] body) in
    let! m := decoded "vnpay create" answer in
    if negb (String.eqb (asString (field "code" m)) "00")
    then fail (refused "vnpay create" m "code" "message" "message")
    else
      let qr := asString (field "data" m) in
      let display := JObj (go_map
        [("provider", JStr "vnpay"); ("provider_reference", JStr providerRef); ("qr_payload", JStr qr);
         ("code", field "code" m); ("terminal_id", JStr terminalID)]) in
      ret (mk_PSPSession providerRef providerRef qr qr qr None (RawJSON display)).

Definition QueryPaymentStatus (lookup : PaymentProviderLookup) : M W PaymentStatusSnapshot :=
  let txnID := TrimSpace (ppl_ProviderReference lookup) in
  if negb (vp_wired p) then fail ErrQueryPaymentStatusNotSupported
  else if blank txnID then fail (ENew "vnpay query: provider_reference required")
  else
    let creds := vp_creds p in
    let terminalID := TrimSpace (TerminalID creds) in
    let! t := now in
    let payDate := pay_date t in
    let checksum := QueryChecksum payDate txnID (MerchantCode creds) terminalID (SecretKeyCheckTrans creds) in
    let! answer := named "vnpay query"
      (PostJSON send (joinEndpoint (EndpointQueryURL creds) "/CheckTransaction/rest/api/CheckTrans") []
         [("txnId", JStr txnID); ("payDate", JStr payDate); ("merchantCode", JStr (MerchantCode creds));
          ("terminalID", JStr terminalID); ("checkSum", JStr checksum)]) in
    let! m := decoded "vnpay query" answer in
    let code := asString (field "code" m) in
    let norm := if String.eqb code "08" then "captured" else (MapCode code).1 in
    ret (mk_PaymentStatusSnapshot norm (JObj m)).
End Calls.

Example expiry_quirk : expiry_date (63844847999 * Second) = "2402292302".
Proof. vm_compute. reflexivity. Qed.
Example pay_date_of : pay_date (63844847999 * Second) = "29/02/2024".
Proof. vm_compute. reflexivity. Qed.
