(* ===== verification/ShopeePay.v ===== *)
(** * The ShopeePay adapter

    internal/platform/payments/shopeepay_provider.go and psp/shopeepay: bodies
    signed both ways, amounts in hundredths of a dong, the lists of addresses
    and stores, and the calls to the gateway.  The wire, the clock and fresh
    request ids are parameters, and so is the list of stores the build embeds. *)

From stdpp Require Import gmap.
From S2P Require Import Prelude.
From S2P Require Import GoStd.
From S2P Require Import JsonText.
From S2P Require Import Pricing.
From S2P Require Import CommerceTypes.
From S2P Require Import Sanitize.
From S2P Require Import Strconv.
From S2P Require Import Hmac.
From S2P Require Import Evidence.
From S2P Require Import Rules.
From S2P Require Import PaymentEvents.
From S2P Require Import AdapterCommon.
From S2P Require Import CommerceService.
Local Open Scope string_scope.
Local Open Scope list_scope.
Local Open Scope Z_scope.

(** ** psp/shopeepay *)

Definition AmountFactor : Z := 100.
Definition PaymentReferenceIDMaxLength : nat := 21.
Definition LiveHost : string := "api.wallet.airpay.vn".
Definition UATHost : string := "api.uat.wallet.airpay.vn".
Definition HeaderClientID : string := "X-Airpay-ClientId".
Definition HeaderReqH : string := "X-Airpay-Req-H".
Definition HeaderRespH : string := "X-Airpay-Resp-H".
Definition QRCreatePath : string := "/v3/merchant-host/qr/create".
Definition QRInvalidatePath : string := "/v3/merchant-host/qr/invalidate".
Definition TxnCheckPath : string := "/v3/merchant-host/transaction/check".
Definition RefundCreatePath : string := "/v3/merchant-host/transaction/refund/create-new".

Definition ErrCallbackForbiddenIP : goerr := ESentinel "forbidden ip".
Definition ErrCallbackMissingClientID : goerr := ESentinel "missing client id".
Definition ErrCallbackMissingSignature : goerr := ESentinel "missing signature".
Definition ErrCallbackUnknownClientID : goerr := ESentinel "unknown client id".
Definition ErrCallbackInvalidSignature : goerr := ESentinel "invalid signature".
Definition ErrStoreNotAllowlisted : goerr := ESentinel "store_ext_id is not allowlisted".
Definition ErrInvalidResponseSignature : goerr := ESentinel "invalid response signature".
Definition ErrRedirectBlocked : goerr := ESentinel "redirect blocked".
Definition ErrEmptyEndpointHost : goerr := ESentinel "endpoint host is empty".
Definition ErrUATEndpointOnProduction : goerr := ESentinel "uat endpoint blocked on production".
Definition ErrNotLiveEndpoint : goerr := ESentinel "endpoint is not ShopeePay LIVE host".
Definition ErrLiveEndpointBlocked : goerr := ESentinel "live endpoint blocked".

Record Credentials := mk_Credentials {
  ClientID : string; SecretKey : string; Endpoint : string; MerchantExtID : string; StoreExtID : string;
  CallbackURL : string; TerminalID : string }.
Record TenantKeys := mk_TenantKeys { key_AVF : Credentials; key_TFO : Credentials }.
Definition ResolveTenant (machineCode : string) : string :=
  if HasPrefix (TrimSpace machineCode) "TFO" then "tfo" else "avf".
Definition ForTenant (k : TenantKeys) (tenant : string) : Credentials :=
  if String.eqb tenant "tfo" then key_TFO k else key_AVF k.
Definition ResolveStoreExtID (machineCode fallback : string) : string :=
  let code := TrimSpace machineCode in
  if negb (blank code) && (HasPrefix code "AVF" || HasPrefix code "TFO") then code else TrimSpace fallback.
Definition EndpointHost (endpoint : string) : string :=
  let raw := TrimSpace endpoint in
  if blank raw then ""
  else
    match url_Hostname (if Contains raw "://" then raw else "https://" +:+ raw) with
    | Some host => ToLower host
    | None => ""
    end.
Definition ValidateEndpoint (endpoint : string) (production : bool) : res unit :=
  let host := EndpointHost endpoint in
  if blank host then Err ErrEmptyEndpointHost
  else if production then
    if String.eqb host LiveHost then Ok tt
    else if String.eqb host UATHost then Err ErrUATEndpointOnProduction
    else Err ErrNotLiveEndpoint
  else guard_err (String.eqb host LiveHost) ErrLiveEndpointBlocked.
Definition SignBody (secret body : string) : string := base64 (hmac_sha256 (s2l secret) (s2l body)).
Definition VerifySignature (secret body signature : string) : bool :=
  if blank secret || blank signature then false
  else hmac_Equal (s2l (SignBody secret body)) (s2l signature).
Definition ToAPIAmount (vnd : Z) : Z := mul64 vnd AmountFactor.
Definition FromAPIAmount (apiAmount : Z) : Z := Z.quot apiAmount AmountFactor.

Definition text_lines (c : string) (s : string) : list string := map l2s (split_at c (s2l s)).
Definition ParseWhitelist (csv : string) : gset string :=
  list_to_set (List.filter (fun ip => negb (blank ip)) (map TrimSpace (text_lines "," csv))).
Definition carriage_return : string := l2s [byte_of 13].
Definition ParseAllowlistLines (text : string) : gset string :=
  list_to_set (List.filter (fun l => negb (blank l || HasPrefix l "#"))
    (map (fun l => TrimSpace (TrimPrefix l carriage_return)) (text_lines (l2s [byte_of 10]) text))).
(** Commas become line ends. *)
Definition ParseAllowlistCSV (csv : string) : gset string :=
  ParseAllowlistLines (l2s (map (fun c => if is_char c "," then byte_of 10 else c) (s2l csv))).
Definition MergeAllowlist (csv fileText : string) : gset string :=
  ParseAllowlistCSV csv ∪ ParseAllowlistLines fileText.
Definition StoreAllowed (storeExtID : string) (allowlist : gset string) (failClosed : bool) : bool :=
  let storeExtID := TrimSpace storeExtID in
  if bool_decide (allowlist = ∅) then negb failClosed
  else if blank storeExtID then false
  else bool_decide (storeExtID ∈ allowlist).
Definition ClientIPPolicy (ip : string) (whitelist : gset string) (failClosed : bool) : bool :=
  if bool_decide (whitelist = ∅) then negb failClosed
  else if blank ip then false
  else bool_decide (ip ∈ whitelist).

Record TxStatusDetail := mk_TxStatusDetail { std_Status : string; std_LegacyCode : Z; std_Recognized : bool }.
Definition TXStatusSuccess : Z := 3.
Definition MapTxStatusDetail (txStatus : Z) : TxStatusDetail :=
  if txStatus =? TXStatusSuccess then mk_TxStatusDetail "captured" 0 true
  else if existsb (Z.eqb txStatus) [1; 2] then mk_TxStatusDetail "pending" 1 true
  else if existsb (Z.eqb txStatus) [4; 6; 7] then mk_TxStatusDetail "failed" (-1) true
  else mk_TxStatusDetail "pending" 1 false.
Definition MapTxStatus (txStatus : Z) : string * Z :=
  let d := MapTxStatusDetail txStatus in (std_Status d, std_LegacyCode d).
Definition BuildHeaders (clientID secret body : string) : list (string * string) :=
  [("Content-Type", "application/json"); (HeaderClientID, clientID); (HeaderReqH, SignBody secret body)].

(** ** shopeepay_provider.go *)

Record ShopeePayProvider := mk_ShopeePayProvider {
  sp_keys : TenantKeys; sp_wired : bool; sp_production : bool; sp_strict : bool; sp_trustProxy : bool;
  sp_whitelist : gset string; sp_storeAllowlist : gset string }.
(** config.ShopeePayConfig, what the adapter reads of it. *)
Record ShopeePayConfig := mk_ShopeePayConfig {
  sc_Keys : TenantKeys; sc_CallbackIPWhitelist : list string; sc_StoreExtIDAllowlist : list string;
  sc_StoreExtIDAllowlistText : string; sc_TrustProxy : bool }.
Definition shopeeTenantWired (t : Credentials) : bool :=
  negb (blank (TrimSpace (ClientID t))) && negb (blank (TrimSpace (SecretKey t))) &&
  negb (blank (TrimSpace (Endpoint t))) && negb (blank (TrimSpace (MerchantExtID t))) &&
  negb (blank (TrimSpace (StoreExtID t))).
Definition ShopeePayWired (k : TenantKeys) : bool :=
  shopeeTenantWired (key_AVF k) || shopeeTenantWired (key_TFO k).
Definition NewShopeePayProvider (defaultStoreAllowlistFile : string) (cfg : ShopeePayConfig) (appEnv : string)
    : ShopeePayProvider :=
  let strict := one_of appEnv ["production"; "staging"] in
  let stores := MergeAllowlist (String.concat "," (sc_StoreExtIDAllowlist cfg)) (sc_StoreExtIDAllowlistText cfg) in
  mk_ShopeePayProvider (sc_Keys cfg) (ShopeePayWired (sc_Keys cfg)) (String.eqb appEnv "production") strict
    (sc_TrustProxy cfg) (ParseWhitelist (String.concat "," (sc_CallbackIPWhitelist cfg)))
    (if bool_decide (stores = ∅) && strict then ParseAllowlistLines defaultStoreAllowlistFile else stores).

Definition credsForMachine (p : ShopeePayProvider) (machineCode : string) : Credentials :=
  ForTenant (sp_keys p) (ResolveTenant machineCode).
Definition resolveStoreExtID (machineCode : string) (creds : Credentials) : string :=
  ResolveStoreExtID machineCode (StoreExtID creds).
Definition shopee_error (e : goerr) : goerr := EWrapPre "shopeepay" e.
Definition ensureStoreAllowed (p : ShopeePayProvider) (storeExtID : string) : res unit :=
  guard_err (negb (StoreAllowed storeExtID (sp_storeAllowlist p) (sp_strict p)))
    (shopee_error ErrStoreNotAllowlisted).
Definition credsByClientID (p : ShopeePayProvider) (clientID : string) : option Credentials :=
  let clientID := TrimSpace clientID in
  if negb (blank clientID) && String.eqb clientID (ClientID (key_AVF (sp_keys p))) then Some (key_AVF (sp_keys p))
  else if negb (blank clientID) && String.eqb clientID (ClientID (key_TFO (sp_keys p)))
  then Some (key_TFO (sp_keys p)) else None.

(** The transaction status of a callback: the older "payment_status" counts when it is missing. *)
Definition callback_status (data : list (string * json)) : Z :=
  if negb (has_field "transaction_status" data) && (asInt (field "payment_status" data) =? 1)
  then TXStatusSuccess else asInt (field "transaction_status" data).
Definition callback_reference (data : list (string * json)) : string :=
  let r := asString (field "reference_id" data) in
  if blank r then asString (field "payment_reference_id" data) else r.
Definition callback_event (data : list (string * json)) (raw : string) : CommerceWebhookEventJSON :=
  mk_WebhookEvent "shopeepay" (callback_reference data) (asString (field "transaction_sn" data))
    "shopeepay.callback" (MapTxStatus (callback_status data)).1 (raw_payload raw)
    (Some (FromAPIAmount (asInt64 (field "amount" data)))) (Some "VND").
(** The merchant id the body names selects credentials that are not used. *)
Definition VerifyAndParseCallback (p : ShopeePayProvider) (raw clientID signature clientIP : string)
    : res (string * string * string * CommerceWebhookEventJSON) :=
  if negb (ClientIPPolicy clientIP (sp_whitelist p) (sp_strict p)) then Err ErrCallbackForbiddenIP
  else if blank (TrimSpace clientID) then Err ErrCallbackMissingClientID
  else if blank (TrimSpace signature) then Err ErrCallbackMissingSignature
  else
    match credsByClientID p clientID with
    | None => Err ErrCallbackUnknownClientID
    | Some creds =>
        if negb (VerifySignature (SecretKey creds) raw signature) then Err ErrCallbackInvalidSignature
        else
          let? data := decodeJSONMap raw in
          let event := callback_event data raw in
          Ok (wj_ProviderReference event, wj_NormalizedPaymentState event, wj_WebhookEventID event, event)
    end.
Definition ShopeeCallbackHTTPStatus (err : goerr) : Z * string :=
  (if errors_Is err ErrCallbackForbiddenIP then 403
   else if existsb (errors_Is err) [ErrCallbackMissingClientID; ErrCallbackMissingSignature;
                                    ErrCallbackUnknownClientID; ErrCallbackInvalidSignature] then 401
   else 400, err_Error err).

Section Calls.
Context {W : Type} (send : HttpRequest -> M W HttpResponse) (now : M W Z) (newRequestID : M W string).
Context (p : ShopeePayProvider).

(** A signed post whose answer has to be signed; redirects are not followed. *)
Definition postShopee (creds : Credentials) (path : string) (payload : list (string * json))
    : M W (list (string * json)) :=
  match ValidateEndpoint (Endpoint creds) (sp_production p) with
  | Err e => fail (shopee_error e)
  | Ok _ =>
      let body := marshal_map payload in
      let! resp := PostJSONBytesResult send (joinEndpoint (Endpoint creds) path)
                     (BuildHeaders (ClientID creds) (SecretKey creds) body) body in
      if (300 <=? rs_Status resp) && (rs_Status resp <? 400) then fail (shopee_error ErrRedirectBlocked)
      else if 400 <=? rs_Status resp then fail (ENew ("shopeepay: http " +:+ FormatInt (rs_Status resp)))
      else if negb (VerifySignature (SecretKey creds) (rs_Body resp) (TrimSpace (rs_Header resp HeaderRespH)))
      then fail (shopee_error ErrInvalidResponseSignature)
      else decoded "shopeepay" (rs_Body resp, rs_Status resp)
  end.
Definition session_payload (i : PSPSessionInput) (creds : Credentials) (requestID storeExtID providerRef
    terminalID : string) : list (string * json) :=
  [("request_id", JStr requestID); ("amount", JInt (ToAPIAmount (psi_AmountMinor i))); ("currency", JStr "VND");
   ("merchant_ext_id", JStr (MerchantExtID creds)); ("store_ext_id", JStr storeExtID);
   ("payment_reference_id", JStr providerRef); ("qr_validity_period", JInt 1200)] ++
  (if blank terminalID then [] else [("terminal_id", JStr terminalID)]).
Definition CreatePaymentSession (i : PSPSessionInput) : M W PSPSession :=
  if negb (sp_wired p) then fail (not_wired "shopeepay")
  else
    let creds := credsForMachine p (psi_MachineExternalCode i) in
    let providerRef := resolveProviderRef i in
    match ref_Validate providerRef with
    | Err e => fail (shopee_error e)
    | Ok _ =>
        guard (Nat.ltb PaymentReferenceIDMaxLength (String.length providerRef))
          (ENew "shopeepay: provider_reference exceeds 21 chars") ;;;
        let storeExtID := resolveStoreExtID (psi_MachineExternalCode i) creds in
        let! _ := lift (ensureStoreAllowed p storeExtID) in
        let terminalID := let s := TrimSpace (psi_StoreID i) in
                          if blank s then TrimSpace (TerminalID creds) else s in
        let! requestID := newRequestID in
        let! m := named "shopeepay create"
          (postShopee creds QRCreatePath (session_payload i creds requestID storeExtID providerRef terminalID)) in
        if negb (asInt (field "errcode" m) =? 0)
        then fail (refused "shopeepay create" m "errcode" "debug_msg" "debug_msg")
        else
          let content := asString (field "qr_content" m) in
          let url := asString (field "qr_url" m) in
          let qr := if blank content then url else content in
          if blank qr then fail (ENew "shopeepay create failed: empty qr payload")
          else
            let display := JObj (go_map
              [("provider", JStr "shopeepay"); ("provider_reference", JStr providerRef);
               ("request_id", JStr requestID); ("qr_content", JStr content); ("qr_url", JStr url);
               ("store_ext_id", JStr storeExtID); ("errcode", field "errcode" m)]) in
            let! t := now in
            ret (mk_PSPSession providerRef requestID qr qr qr (Some (t + 1200 * Second)) (RawJSON display))
    end.
Definition invalidateQR (creds : Credentials) (storeExtID orderCode : string) : M W unit :=
  let! requestID := newRequestID in
  let! m := named "shopeepay invalidate" (postShopee creds QRInvalidatePath
    [("request_id", JStr requestID); ("payment_reference_id", JStr orderCode);
     ("merchant_ext_id", JStr (MerchantExtID creds)); ("store_ext_id", JStr storeExtID)]) in
  if negb (asInt (field "errcode" m) =? 0)
  then fail (refused "shopeepay invalidate" m "errcode" "debug_msg" "debug_msg") else ret tt.
Definition transaction_status (m : list (string * json)) : Z :=
  match field "transaction" m with JObj tx => asInt (field "status" tx) | _ => 0 end.
Definition QueryPaymentStatus (lookup : PaymentProviderLookup) : M W PaymentStatusSnapshot :=
  let orderCode := TrimSpace (ppl_ProviderReference lookup) in
  if negb (sp_wired p) then fail ErrQueryPaymentStatusNotSupported
  else if blank orderCode then fail (ENew "shopeepay query: provider_reference required")
  else
    let creds := credsForMachine p (ppl_MachineExternalCode lookup) in
    let storeExtID := resolveStoreExtID (ppl_MachineExternalCode lookup) creds in
    let! requestID := newRequestID in
    let! m := named "shopeepay query" (postShopee creds TxnCheckPath
      [("request_id", JStr requestID); ("reference_id", JStr orderCode); ("transaction_type", JInt 13);
       ("merchant_ext_id", JStr (MerchantExtID creds)); ("store_ext_id", JStr storeExtID);
       ("amount", JInt (ToAPIAmount (ppl_AmountMinor lookup)))]) in
    let norm := (MapTxStatus (transaction_status m)).1 in
    (if String.eqb norm "failed" then ignore (invalidateQR creds storeExtID orderCode) else ret tt) ;;;
    ret (mk_PaymentStatusSnapshot norm (JObj m)).
Definition CancelPayment (machineCode providerReference : string) : M W unit :=
  let orderCode := TrimSpace providerReference in
  if negb (sp_wired p) then fail (not_wired "shopeepay")
  else if blank orderCode then fail (ENew "shopeepay cancel: provider_reference required")
  else
    let creds := credsForMachine p machineCode in
    invalidateQR creds (resolveStoreExtID machineCode creds) orderCode.
Definition cut_to (n : nat) (s : string) : string :=
  if Nat.ltb n (String.length s) then String.substring 0 n s else s.
Definition RefundPayment (machineCode providerReference : string) (amountMinor : Z) (idempotencyKey : string)
    : M W unit :=
  let orderCode := TrimSpace providerReference in
  if negb (sp_wired p) then fail (not_wired "shopeepay")
  else if blank orderCode then fail (ENew "shopeepay refund: provider_reference required")
  else
    let creds := credsForMachine p machineCode in
    let storeExtID := resolveStoreExtID machineCode creds in
    let given := TrimSpace idempotencyKey in
    let! refundRef := (if blank given then newRequestID else ret given) in
    let! requestID := newRequestID in
    let! m := named "shopeepay refund" (postShopee creds RefundCreatePath
      [("request_id", JStr requestID); ("reference_id", JStr orderCode); ("transaction_type", JInt 13);
       ("refund_reference_id", JStr (cut_to PaymentReferenceIDMaxLength refundRef));
       ("merchant_ext_id", JStr (MerchantExtID creds)); ("store_ext_id", JStr storeExtID);
       ("amount", JInt (ToAPIAmount amountMinor))]) in
    if negb (asInt (field "errcode" m) =? 0)
    then fail (refused "shopeepay refund" m "errcode" "debug_msg" "debug_msg") else ret tt.
End Calls.
