(* ===== verification/PaymentRegistry.v ===== *)
(** * The registry of payment providers

    internal/platform/payments: the adapters a process has (registry.go,
    sandbox_provider.go, placeholder_provider.go), which one a payment session
    gets (resolve.go), how ready each provider is, what the deployment can take,
    and the payment methods a machine is told of (runtime.go).  The
    configuration and the registry are there, as in the processes that ask. *)

From stdpp Require Import gmap.
From S2P Require Import Prelude.
From S2P Require Import GoStd.
From S2P Require Import Sha256.
From S2P Require Import Pricing.
From S2P Require Import CommerceTypes.
From S2P Require Import Sanitize.
From S2P Require Import Strconv.
From S2P Require Import Evidence.
From S2P Require Import Rules.
From S2P Require Import PaymentEvents.
From S2P Require Import CommerceService.
From S2P Require Import AdapterCommon.
From S2P Require MoMo.
From S2P Require ZaloPay.
From S2P Require VNPay.
From S2P Require ShopeePay.
Local Open Scope string_scope.
Local Open Scope list_scope.
Local Open Scope Z_scope.

(** ** The adapters *)

(** The dynamic types behind the interface PaymentProvider. *)
Inductive Adapter :=
| SandboxProvider (key : string)
| PlaceholderLiveProvider (key : string)
| cashPaymentProvider
| AMoMo (p : MoMo.MoMoProvider)
| AZaloPay (p : ZaloPay.ZaloPayProvider)
| AVNPay (p : VNPay.VNPayProvider)
| AShopeePay (p : ShopeePay.ShopeePayProvider).

Definition NewSandboxProvider (key : string) : Adapter :=
  let k := ToLower (TrimSpace key) in SandboxProvider (if blank k then "sandbox" else k).
Definition NewPlaceholderLiveProvider (key : string) : Adapter := PlaceholderLiveProvider (ToLower (TrimSpace key)).
Definition adapter_Key (p : Adapter) : string :=
  match p with
  | SandboxProvider k | PlaceholderLiveProvider k => k
  | cashPaymentProvider => "cash"
  | AMoMo _ => "momo"
  | AZaloPay p => ZaloPay.ZaloPay_Key p
  | AVNPay _ => "vnpay"
  | AShopeePay _ => "shopeepay"
  end.
(** [p.(WiredLiveProvider)] and its [LivePaymentWired]. *)
Definition LivePaymentWired (p : Adapter) : option bool :=
  match p with
  | AMoMo p => Some (MoMo.mp_wired p)
  | AZaloPay p => Some (ZaloPay.zp_wired p)
  | AVNPay p => Some (VNPay.vp_wired p)
  | AShopeePay p => Some (ShopeePay.sp_wired p)
  | _ => None
  end.
Definition IsPlaceholderLiveProvider (p : Adapter) : bool :=
  match p with PlaceholderLiveProvider _ => true | _ => false end.
Definition SupportsQueryPaymentStatus (p : Adapter) : bool := default false (LivePaymentWired p).

(** FNV-1a with 32 bits, in hexadecimal. *)
Definition fnv32a (l : list ascii) : Z :=
  fold_left (fun h c => word (Z.lxor h (char_byte c) * 16777619)) l 2166136261.
Definition hash10 (s : string) : string :=
  EncodeToString (map byte_char (bytes_of_word (fnv32a (s2l s)))).

Example hash10_values : map hash10 [""; "a"; "foobar"] = ["811c9dc5"; "e40c292c"; "bf9cf968"].
Proof. vm_compute. reflexivity. Qed.

Section Dispatch.
Context `{UuidText} {W : Type} (send : HttpRequest -> M W HttpResponse) (now : M W Z) (zone : Z).
Context (newRequestID : M W string).

Definition sandbox_session (key : string) (i : PSPSessionInput) : M W PSPSession :=
  let idem := TrimSpace (psi_IdempotencyKey i) in
  let cur := ToUpper (TrimSpace (psi_Currency i)) in
  if (psi_PaymentID i =u uuid_Nil) || (psi_OrderID i =u uuid_Nil)
  then fail (ENew "payments sandbox: payment_id and order_id required")
  else if blank idem then fail (ENew "payments sandbox: idempotency_key required")
  else if psi_AmountMinor i <? 0 then fail (ENew "payments sandbox: amount_minor invalid")
  else if negb (len cur =? 3) then fail (ENew "payments sandbox: currency must be ISO 4217")
  else
    let pid := uuid_String (psi_PaymentID i) in
    let ref := "sb_" +:+ pid in
    let sessID := "sess_" +:+ pid +:+ "_" +:+ hash10 idem in
    let! t := now in
    let exp := t + 15 * Minute in
    let qr := "https://sandbox.pay.avf.invalid/qr/" +:+ ref in
    let payURL := "https://sandbox.pay.avf.invalid/pay/" +:+ ref in
    let display := JObj (go_map
      [("environment", JStr "sandbox"); ("provider_key", JStr key); ("provider_reference", JStr ref);
       ("provider_session_id", JStr sessID); ("qr_url", JStr qr); ("payment_url", JStr payURL);
       ("amount_minor", JInt (psi_AmountMinor i)); ("currency", JStr cur);
       ("expires_at", JStr (Format_RFC3339Nano exp)); ("psp_idempotency_hint", JStr idem)]) in
    ret (mk_PSPSession ref sessID qr payURL payURL (Some exp) (RawJSON display)).
Definition CreatePaymentSession (p : Adapter) (i : PSPSessionInput) : M W PSPSession :=
  match p with
  | SandboxProvider key => sandbox_session key i
  | PlaceholderLiveProvider key => fail (not_wired key)
  | cashPaymentProvider => fail (EWrap ErrNotImplemented "use cash confirmation RPC instead of card session")
  | AMoMo p => MoMo.CreatePaymentSession send now newRequestID p i
  | AZaloPay p => ZaloPay.CreatePaymentSession send now zone p i
  | AVNPay p => VNPay.CreatePaymentSession send now p i
  | AShopeePay p => ShopeePay.CreatePaymentSession send now newRequestID p i
  end.
Definition QueryPaymentStatus (p : Adapter) (lookup : PaymentProviderLookup) : M W PaymentStatusSnapshot :=
  match p with
  | SandboxProvider _ | PlaceholderLiveProvider _ | cashPaymentProvider => fail ErrQueryPaymentStatusNotSupported
  | AMoMo p => MoMo.QueryPaymentStatus send newRequestID p lookup
  | AZaloPay p => ZaloPay.QueryPaymentStatus send now zone p lookup
  | AVNPay p => VNPay.QueryPaymentStatus send now p lookup
  | AShopeePay p => ShopeePay.QueryPaymentStatus send newRequestID p lookup
  end.

(** CancelPaymentInput and RefundPaymentInput, what the adapters read. *)
Record CancelPaymentInput := mk_CancelPaymentInput {
  cp_ProviderReference : string; cp_MachineExternalCode : string }.
Record RefundPaymentInput := mk_RefundPaymentInput {
  rp_ProviderReference : string; rp_AmountMinor : Z; rp_IdempotencyKey : string;
  rp_MachineExternalCode : string }.
Definition CancelPayment (p : Adapter) (i : CancelPaymentInput) : M W unit :=
  match p with
  | PlaceholderLiveProvider _ => fail ErrLiveProviderNotWired
  | AShopeePay p => ShopeePay.CancelPayment send newRequestID p (cp_MachineExternalCode i) (cp_ProviderReference i)
  | _ => fail ErrNotImplemented
  end.
Definition RefundPayment (p : Adapter) (i : RefundPaymentInput) : M W unit :=
  match p with
  | PlaceholderLiveProvider _ => fail ErrLiveProviderNotWired
  | AMoMo p => MoMo.RefundPayment send newRequestID p (rp_ProviderReference i) (rp_AmountMinor i) (rp_IdempotencyKey i)
  | AShopeePay p => ShopeePay.RefundPayment send newRequestID p (rp_MachineExternalCode i) (rp_ProviderReference i)
                      (rp_AmountMinor i) (rp_IdempotencyKey i)
  | _ => fail ErrNotImplemented
  end.
End Dispatch.

(** ** The registry (registry.go) *)

(** config.Config, what the payments read of it. *)
Record PaymentsConfig := mk_PaymentsConfig {
  pc_AppEnv : string; pc_PaymentEnv : string; pc_DefaultPaymentProvider : string;
  pc_AllowedPaymentProviders : list string; pc_MoMo : MoMo.TenantKeys; pc_ZaloPay : ZaloPay.Credentials;
  pc_VNPay : VNPay.Credentials; pc_ShopeePay : ShopeePay.ShopeePayConfig }.
(** [rg_httpProbe]: whether the reconciler configured the probe over HTTP. *)
Record Registry := mk_Registry {
  rg_byKey : gmap string Adapter; rg_httpProbe : bool; rg_defaultPaymentProviderKey : string;
  rg_paymentEnv : string; rg_allowedPaymentProviders : list string }.

Definition sandbox_keys : list string := ["mock"; "sandbox"; "test"; "psp_fixture"; "dev"; "psp_grpc_int"].
Definition PlaceholderLiveProviderKeys : list string := ["stripe"].
Definition Register (p : Adapter) (m : gmap string Adapter) : gmap string Adapter :=
  <[ToLower (TrimSpace (adapter_Key p)) := p]> m.
Definition live_adapters (defaultStores : string) (cfg : PaymentsConfig) : list Adapter :=
  [AMoMo (MoMo.NewMoMoProvider (pc_MoMo cfg)); AZaloPay (ZaloPay.NewZaloPayProvider (pc_ZaloPay cfg) false);
   AZaloPay (ZaloPay.NewZaloPayProvider (pc_ZaloPay cfg) true); AVNPay (VNPay.NewVNPayProvider (pc_VNPay cfg));
   AShopeePay (ShopeePay.NewShopeePayProvider defaultStores (pc_ShopeePay cfg) (pc_AppEnv cfg))].
(** All the adapters, a later one with the same key in place of the earlier. *)
Definition registered (defaultStores : string) (cfg : PaymentsConfig) : list Adapter :=
  map NewSandboxProvider sandbox_keys ++ map NewPlaceholderLiveProvider PlaceholderLiveProviderKeys ++
  [cashPaymentProvider] ++ live_adapters defaultStores cfg.
Definition NewRegistry (defaultStores : string) (cfg : PaymentsConfig) : Registry :=
  mk_Registry (fold_left (fun m p => Register p m) (registered defaultStores cfg) ∅) false
    (NormalizeProviderKey (pc_DefaultPaymentProvider cfg)) (ToLower (TrimSpace (pc_PaymentEnv cfg)))
    (pc_AllowedPaymentProviders cfg).
Definition sandboxFamilyProviderKey (key : string) : bool := one_of (ToLower (TrimSpace key)) sandbox_keys.
Definition Get (r : Registry) (key : string) : option Adapter := rg_byKey r !! ToLower (TrimSpace key).

(** The gateway the reconciler asks: the adapter, or the probe. *)
Definition FetchPaymentStatus `{UuidText} {W} (send : HttpRequest -> M W HttpResponse) (now : M W Z) (zone : Z)
    (newRequestID : M W string) (probe : PaymentProviderLookup -> M W PaymentStatusSnapshot) (r : Registry)
    (lookup : PaymentProviderLookup) : M W PaymentStatusSnapshot :=
  let ask_probe := if rg_httpProbe r then probe lookup
    else fail (EOpaque (err_Error ErrQueryPaymentStatusNotSupported +:+ " for provider " +:+
                        quoted_text (ppl_Provider lookup)) ErrQueryPaymentStatusNotSupported) in
  match Get r (ToLower (TrimSpace (ppl_Provider lookup))) with
  | Some p => if SupportsQueryPaymentStatus p then QueryPaymentStatus send now zone newRequestID p lookup
              else ask_probe
  | None => ask_probe
  end.

(** ** Which adapter a session gets (resolve.go) *)

Definition allowedProviderSet (r : Registry) : option (gset string) :=
  match rg_allowedPaymentProviders r with
  | [] => None
  | l => Some (list_to_set (List.filter (fun k => negb (blank k)) (map NormalizeProviderKey l)))
  end.
(** The key asked for, the default, or none yet. *)
Definition session_key (r : Registry) (clientDeclaredProvider : string) : res string :=
  let def := NormalizeProviderKey (rg_defaultPaymentProviderKey r) in
  let client := NormalizeProviderKey clientDeclaredProvider in
  match allowedProviderSet r with
  | Some allow =>
      if blank client then Ok def
      else if bool_decide (client ∈ allow) then Ok client
      else Err (EWrap ErrUnknownProvider (quoted_text client +:+ " not in COMMERCE_PAYMENT_PROVIDERS"))
  | None =>
      if blank client then Ok def
      else if negb (blank def) && negb (String.eqb client def)
      then Err (EWrap ErrProviderKeyMismatch ("got " +:+ quoted_text client +:+ " want " +:+ quoted_text def))
      else Ok client
  end.
Definition ResolveForPaymentSession (r : Registry) (appEnv clientDeclaredProvider : string)
    : res (Adapter * string) :=
  let? key := session_key r clientDeclaredProvider in
  if String.eqb (rg_paymentEnv r) "cash_only" then Err ErrProviderUnavailable
  else if blank key && String.eqb appEnv "production" then Err ErrPaymentProviderRequired
  else
    let key := if blank key then "sandbox" else key in
    if String.eqb key "cash"
    then Err (EWrap ErrInvalidCardSessionProvider "card/QR sessions cannot use provider cash")
    else
      match Get r key with
      | None => Err (EWrap ErrUnknownProvider (quoted_text key))
      | Some p =>
          if String.eqb appEnv "production" && sandboxFamilyProviderKey key
          then Err (EWrap ErrSandboxProviderInProduction (quoted_text key))
          else if IsPlaceholderLiveProvider p || negb (default true (LivePaymentWired p))
          then Err (EWrap ErrProviderUnavailable (quoted_text key))
          else Ok (p, key)
      end.
(** What the commerce service knows of the registry. *)
Definition session_registry `{UuidText} {W} (send : HttpRequest -> M W HttpResponse) (now : M W Z) (zone : Z)
    (newRequestID : M W string) (r : Registry) : PaymentSessionRegistry W := fun appEnv client =>
  let? found := ResolveForPaymentSession r appEnv client in
  Ok (CreatePaymentSession send now zone newRequestID found.1, found.2).

(** Refunds asked for by the workflow engine (refund_bridge.go).
    [ResolveAttempt] gives the provider of a payment and its reference. *)
Definition bridge_RefundPayment {W} (send : HttpRequest -> M W HttpResponse) (newRequestID : M W string)
    (r : Registry) (resolveAttempt : N -> M W (string * string)) (paymentID : N) (amountMinor : Z)
    (idempotencyKey : string) : M W unit :=
  let! found := resolveAttempt paymentID in
  match Get r found.1 with
  | None => fail (EWrap ErrUnknownProvider (quoted_text found.1))
  | Some p => RefundPayment send newRequestID p
                (mk_RefundPaymentInput found.2 amountMinor (TrimSpace idempotencyKey) "")
  end.

(** ** The state of a provider *)

Definition PaymentModeSandbox : string := "sandbox".
Definition PaymentModeCashOnly : string := "cash_only".
Definition PaymentModeLivePSP : string := "live_psp".
Definition ProviderStatusSandbox : string := "sandbox".
Definition ProviderStatusWired : string := "wired".
Definition ProviderStatusPlaceholder : string := "placeholder".
Definition ProviderStatusUnavailable : string := "unavailable".
Definition ReasonProviderUnavailable : string := "provider_unavailable".
Definition ReasonMachineMethodDisabled : string := "machine_method_disabled".
Definition MachineFeatureCashEnabled : string := "commerce.cash_enabled".
Definition MachineFeatureQRCardEnabled : string := "commerce.qr_card_enabled".

Definition IsPlaceholderLiveProviderKey (key : string) : bool :=
  one_of (ToLower (TrimSpace key)) PlaceholderLiveProviderKeys.
(** The status, and whether sessions are available. *)
Definition providerSessionStatus (p : option Adapter) : string * bool :=
  match p with
  | None => (ProviderStatusUnavailable, false)
  | Some p =>
      if sandboxFamilyProviderKey (adapter_Key p) then (ProviderStatusSandbox, true)
      else if IsPlaceholderLiveProvider p then (ProviderStatusPlaceholder, false)
      else match LivePaymentWired p with
           | Some true => (ProviderStatusWired, true)
           | Some false => (ProviderStatusUnavailable, false)
           | None => (ProviderStatusWired, true)
           end
  end.

Record ProviderSummary := mk_ProviderSummary {
  psu_Key : string; psu_QuerySupported : bool; psu_WebhookProfile : string; psu_ConfigSource : string;
  psu_DefaultForEnv : bool; psu_ActiveSessionKey : bool; psu_Wired : bool; psu_SessionAvailable : bool;
  psu_ProviderStatus : string }.
Definition summary_of (r : Registry) (k : string) (p : Adapter) : ProviderSummary :=
  let '(st, sessionAvail) := providerSessionStatus (Some p) in
  let defKey := ToLower (TrimSpace (rg_defaultPaymentProviderKey r)) in
  let default_for := negb (blank defKey) && String.eqb k defKey in
  mk_ProviderSummary k (SupportsQueryPaymentStatus p || rg_httpProbe r) "avf_hmac" "environment"
    default_for default_for (one_of st [ProviderStatusWired; ProviderStatusSandbox]) sessionAvail st.
Definition ProviderSummaries (r : Registry) : list ProviderSummary :=
  omap (fun k => option_map (summary_of r k) (rg_byKey r !! k))
    (stable_sort string_lt (map fst (map_to_list (rg_byKey r)))).

(** ** The deployment *)

Record DeploymentRuntime := mk_DeploymentRuntime {
  dr_PaymentEnv : string; dr_PaymentMode : string; dr_CardQRProviderKey : string;
  dr_CardQRProviderStatus : string; dr_CardQRSessionsAvailable : bool; dr_CashAllowedByDeployment : bool;
  dr_QRCardUnavailableReason : string; dr_DefaultSessionProviderKey : string;
  dr_EnabledProviders : list string }.

(** A provider a session can be made with. *)
Definition enabled_key (r : Registry) (k : string) : option string :=
  let k := NormalizeProviderKey k in
  if blank k || String.eqb k "cash" then None
  else match Get r k with
       | None => None
       | Some p =>
           if IsPlaceholderLiveProvider p || negb (default true (LivePaymentWired p)) ||
              sandboxFamilyProviderKey k
           then None else Some k
       end.
Definition enabledWiredProviders (cfg : PaymentsConfig) (r : Registry) : list string :=
  let keys := match pc_AllowedPaymentProviders cfg with
              | [] => let def := NormalizeProviderKey (pc_DefaultPaymentProvider cfg) in
                      if blank def then [] else [def]
              | l => l
              end in
  omap (enabled_key r) keys.
Definition EnabledWiredProviders := enabledWiredProviders.

Definition DeploymentRuntimeFromConfig (cfg : PaymentsConfig) (r : Registry) : DeploymentRuntime :=
  let env := ToLower (TrimSpace (pc_PaymentEnv cfg)) in
  if String.eqb env "cash_only"
  then mk_DeploymentRuntime env PaymentModeCashOnly "" ProviderStatusUnavailable false true
         ReasonProviderUnavailable "" []
  else
    let mode := if String.eqb env "live" then PaymentModeLivePSP else PaymentModeSandbox in
    let key := ToLower (TrimSpace (rg_defaultPaymentProviderKey r)) in
    let key := if blank key then ToLower (TrimSpace (pc_DefaultPaymentProvider cfg)) else key in
    if blank key then
      if String.eqb mode PaymentModeSandbox && negb (String.eqb (pc_AppEnv cfg) "production")
      then mk_DeploymentRuntime env mode "sandbox" ProviderStatusSandbox true true "" "" []
      else mk_DeploymentRuntime env mode "" ProviderStatusUnavailable false true
             ReasonProviderUnavailable "" []
    else
      let '(st, avail) := providerSessionStatus (Get r key) in
      mk_DeploymentRuntime env mode key st avail true
        (if avail then "" else ReasonProviderUnavailable) key (enabledWiredProviders cfg r).

(** ** The machine *)

(** [mo_Enabled]: the switches of a machine whose methods are configured. *)
Record MachineMethodOverride := mk_MachineMethodOverride {
  mo_Configured : bool; mo_Enabled : gmap string bool }.
Definition override_on (o : MachineMethodOverride) (key : string) : bool := default false (mo_Enabled o !! key).
Definition machineMethodEnabled (o : MachineMethodOverride) (key : string) (deploymentAllowed : bool) : bool :=
  deploymentAllowed && (negb (mo_Configured o) || override_on o (NormalizeProviderKey key)).

Record ProviderCapabilityView := mk_ProviderCapabilityView {
  pv_Key : string; pv_Enabled : bool; pv_Status : string; pv_Ready : bool; pv_SessionCreatable : bool;
  pv_UnavailableReason : string }.
Definition productionProviderOrder : list string := ["momo"; "zalopay"; "vnpay"; "vietqr"; "shopeepay"].

Definition unavailable_reason (deploy : DeploymentRuntime) (sum : ProviderSummary) (enabled : bool)
    (o : MachineMethodOverride) (key : string) : string :=
  if String.eqb (dr_PaymentMode deploy) PaymentModeCashOnly then "cash_only_deployment"
  else if negb (psu_Wired sum) || negb (dr_CardQRSessionsAvailable deploy) then ReasonProviderUnavailable
  else if enabled then ""
  else if mo_Configured o && negb (override_on o key) then ReasonMachineMethodDisabled
  else "provider_not_enabled".
Definition capability (cfg : PaymentsConfig) (deploy : DeploymentRuntime) (enabled : list string)
    (o : MachineMethodOverride) (key : string) (sum : ProviderSummary) : ProviderCapabilityView :=
  let can := psu_Wired sum && psu_SessionAvailable sum in
  let listed := if is_nil enabled && is_nil (pc_AllowedPaymentProviders cfg) then can
                else one_of key (map NormalizeProviderKey enabled) in
  let providerEnabled := machineMethodEnabled o key listed in
  let ready := can && dr_CardQRSessionsAvailable deploy in
  let creatable := ready && providerEnabled && negb (String.eqb (dr_PaymentMode deploy) PaymentModeCashOnly) in
  mk_ProviderCapabilityView key providerEnabled (psu_ProviderStatus sum) ready creatable
    (if creatable then "" else unavailable_reason deploy sum providerEnabled o key).
Definition listProviderCapabilities (cfg : PaymentsConfig) (r : Registry) (deploy : DeploymentRuntime)
    (enabled : list string) (o : MachineMethodOverride) : list ProviderCapabilityView :=
  omap (fun key => option_map (capability cfg deploy enabled o key)
                     (List.find (fun s => String.eqb (psu_Key s) key) (ProviderSummaries r)))
    productionProviderOrder.

Record MachinePaymentMethodsView := mk_MachinePaymentMethodsView {
  mm_CashEnabled : bool; mm_QRCardEnabled : bool; mm_PaymentMode : string; mm_CardQRProviderKey : string;
  mm_CardQRProviderStatus : string; mm_QRCardUnavailableReason : string; mm_EnabledProviders : list string;
  mm_Providers : list ProviderCapabilityView }.
(** [flags] is a nil or other map. *)
Definition featureFlagDefaultTrue (flags : gmap string bool) (key : string) (defaultVal : bool) : bool :=
  default defaultVal (flags !! key).
Definition anySessionCreatable (l : list ProviderCapabilityView) : bool := existsb pv_SessionCreatable l.
Definition ResolveMachinePaymentMethodsWithOverride (cfg : PaymentsConfig) (r : Registry)
    (featureFlags : gmap string bool) (o : MachineMethodOverride) : MachinePaymentMethodsView :=
  let deploy := DeploymentRuntimeFromConfig cfg r in
  let sessions := dr_CardQRSessionsAvailable deploy in
  let cashDefault := dr_CashAllowedByDeployment deploy || String.eqb (dr_PaymentMode deploy) PaymentModeLivePSP in
  let cash := featureFlagDefaultTrue featureFlags MachineFeatureCashEnabled cashDefault in
  let cash := if mo_Configured o then cash && machineMethodEnabled o "cash" true else cash in
  let qr := featureFlagDefaultTrue featureFlags MachineFeatureQRCardEnabled sessions && sessions in
  let reason := if sessions then dr_QRCardUnavailableReason deploy else ReasonProviderUnavailable in
  let enabled := enabledWiredProviders cfg r in
  let providers := listProviderCapabilities cfg r deploy enabled o in
  let none := mo_Configured o && negb (anySessionCreatable providers) in
  mk_MachinePaymentMethodsView cash (qr && negb none) (dr_PaymentMode deploy) (dr_CardQRProviderKey deploy)
    (dr_CardQRProviderStatus deploy)
    (if none && blank reason then ReasonMachineMethodDisabled else reason) enabled providers.
Definition ResolveMachinePaymentMethods (cfg : PaymentsConfig) (r : Registry) (featureFlags : gmap string bool)
    : MachinePaymentMethodsView :=
  ResolveMachinePaymentMethodsWithOverride cfg r featureFlags (mk_MachineMethodOverride false ∅).
Definition EnabledSessionCreatableProviders (m : MachinePaymentMethodsView) : list string :=
  omap (fun p => if pv_SessionCreatable p && negb (blank (TrimSpace (pv_Key p))) then Some (pv_Key p) else None)
    (mm_Providers m).
