(* ===== verification/PaymentLaws.v ===== *)
(** * What the payment adapters and their registry promise

    The signatures of deliveries and notifications, what an adapter may report
    of a payment, which adapter a session gets, and that a machine is offered
    nothing else. *)

From stdpp Require Import gmap.
From S2P Require Import Prelude.
From S2P Require Import GoStd.
From S2P Require Import Sha256.
From S2P Require Import JsonText.
From S2P Require Import Pricing.
From S2P Require Import CommerceTypes.
From S2P Require Import Sanitize.
From S2P Require Import Strconv.
From S2P Require Import Hmac.
From S2P Require Import Evidence.
From S2P Require Import Texts.
From S2P Require Import Rules.
From S2P Require Import PaymentEvents.
From S2P Require Import AdapterCommon.
From S2P Require Import CommerceService.
From S2P Require MoMo.
From S2P Require ZaloPay.
From S2P Require VNPay.
From S2P Require ShopeePay.
From S2P Require Import PaymentRegistry.
Local Open Scope string_scope.
Local Open Scope list_scope.
Local Open Scope Z_scope.

(** ** Numbers and digests in headers *)

Lemma FormatInt_tokens z : forallb token_char (s2l (FormatInt z)) = true /\ s2l (FormatInt z) <> [].
Proof.
  assert (HN : forall n : N, forallb token_char (s2l (pretty n)) = true /\ s2l (pretty n) <> []).
  { intros n. destruct (pretty_N_digits n) as [Hd Hn]. split; [|done].
    eapply forallb_impl; [exact digit_token|exact Hd]. }
  unfold FormatInt, pretty, pretty_Z. destruct z as [|p|p]; [apply (HN 0%N)|apply (HN (N.pos p))|].
  change (s2l ("-" +:+ pretty p)) with ("-"%char :: s2l (pretty (N.pos p))). split; [|done].
  cbn [forallb]. by rewrite (proj1 (HN _)).
Qed.
Lemma FormatInt_trimmed z : TrimSpace (FormatInt z) = FormatInt z.
Proof. rewrite <- (l2s_s2l (FormatInt z)). destruct (FormatInt_tokens z). by apply TrimSpace_token. Qed.
Lemma FormatInt_inj a b : FormatInt a = FormatInt b -> a = b.
Proof. unfold FormatInt. apply (inj pretty). Qed.

Definition hex_text_char (c : ascii) : bool := match hex_value c with Some _ => token_char c | None => false end.
Lemma hex_chars l : forallb hex_text_char (s2l (EncodeToString l)) = true.
Proof.
  unfold EncodeToString. rewrite s2l_l2s. induction l as [|c l IH]; [done|].
  change (concat (map hex_byte (c :: l))) with
    (hex_char (char_byte c / 16) :: hex_char (char_byte c mod 16) :: concat (map hex_byte l)).
  assert (Hh : forall z, 0 <= z < 16 -> hex_text_char (hex_char z) = true).
  { intros z Hz. rewrite <- (Z2Nat.id z) by lia. assert (Hj : (Z.to_nat z < 16)%nat) by lia.
    revert Hj. generalize (Z.to_nat z) as j. intros j Hj. do 16 (destruct j as [|j]; [reflexivity|]). lia. }
  pose proof (char_byte_range c). cbn [forallb]. rewrite !Hh, IH; [done|..]; Z.to_euclidean_division_equations; lia.
Qed.
Lemma hex_trimmed l : TrimSpace (EncodeToString l) = EncodeToString l.
Proof.
  destruct (s2l (EncodeToString l)) as [|c k] eqn:E.
  { apply (f_equal l2s) in E. rewrite l2s_s2l in E. by rewrite E. }
  rewrite <- (l2s_s2l (EncodeToString l)). apply TrimSpace_token; [by rewrite E|].
  eapply forallb_impl; [|apply hex_chars]. intros a. unfold hex_text_char. by destruct (hex_value a).
Qed.
(** A digest in hexadecimal announces itself, with and without its scheme. *)
Lemma TrimPrefix_hex l : TrimPrefix (EncodeToString l) "sha256=" = EncodeToString l.
Proof.
  pose proof (hex_chars l) as Hh. unfold TrimPrefix, HasPrefix.
  destruct (EncodeToString l) as [|c s]; [done|]. cbn [s2l forallb] in Hh.
  apply andb_true_iff in Hh as [Hc _]. cbn [String.prefix].
  destruct (ascii_dec "s" c) as [<-|]; [by vm_compute in Hc|done].
Qed.
Lemma announced_hex l : announced (EncodeToString l) = Some l.
Proof. unfold announced. rewrite TrimPrefix_hex, hex_trimmed. apply DecodeString_EncodeToString. Qed.
Lemma substring_whole s : String.substring 0 (String.length s) s = s.
Proof. induction s as [|c s IH]; [done|]. cbn. by rewrite IH. Qed.
Lemma prefix_app p s : String.prefix p (p +:+ s) = true.
Proof.
  induction p as [|c p IH]; [by destruct s|]. change (String c p +:+ s) with (String c (p +:+ s)). cbn.
  destruct (ascii_dec c c); [exact IH|congruence].
Qed.
Lemma length_app_string p s : String.length (p +:+ s) = (String.length p + String.length s)%nat.
Proof. induction p as [|c p IH]; [done|]. change (String c p +:+ s) with (String c (p +:+ s)). cbn. by rewrite IH. Qed.
Lemma TrimPrefix_app p s : TrimPrefix (p +:+ s) p = s.
Proof.
  unfold TrimPrefix, HasPrefix. rewrite prefix_app, length_app_string.
  replace (_ - _)%nat with (String.length s) by lia. rewrite <- (substring_whole s) at 3.
  generalize (String.length s) as n. intros n. induction p as [|c p IH]; [done|].
  change (String c p +:+ s) with (String c (p +:+ s)). exact IH.
Qed.
Lemma announced_scheme l : announced ("sha256=" +:+ EncodeToString l) = Some l.
Proof. unfold announced. rewrite TrimPrefix_app, hex_trimmed. apply DecodeString_EncodeToString. Qed.

(** A time and a body can be read off the text that is signed. *)
Lemma tokens_cut (a a' b b' : list ascii) c :
  c ∉ a -> c ∉ a' -> a ++ c :: b = a' ++ c :: b' -> a = a' /\ b = b'.
Proof.
  revert a'. induction a as [|x a IH]; intros [|y a'] Ha Ha' E; simplify_eq/=.
  - done.
  - exfalso. apply Ha'. left.
  - exfalso. apply Ha. left.
  - destruct (IH a') as [-> ->]; [intros ?; apply Ha; by right|intros ?; apply Ha'; by right|done|done].
Qed.
Lemma FormatInt_no_dot z : "."%char ∉ s2l (FormatInt z).
Proof.
  assert (HN : forall n : N, "."%char ∉ s2l (pretty n)).
  { intros n Hin. destruct (pretty_N_digits n) as [Hd _]. rewrite forallb_forall in Hd.
    apply list_elem_of_In, Hd in Hin. discriminate. }
  unfold FormatInt, pretty, pretty_Z. destruct z as [|p|p]; [apply (HN 0%N)|apply (HN (N.pos p))|].
  change (s2l ("-" +:+ pretty p)) with ("-"%char :: s2l (pretty (N.pos p))).
  intros [E|Hin]%elem_of_cons; [discriminate|by apply (HN (N.pos p))].
Qed.
Lemma signed_text_inj ts body ts' body' :
  signed_text ts body = signed_text ts' body' -> ts = ts' /\ body = body'.
Proof.
  unfold signed_text. intros E. apply tokens_cut in E as [Et Eb]; [|apply FormatInt_no_dot..].
  split; apply (f_equal l2s) in Et, Eb; rewrite !l2s_s2l in Et, Eb; [by apply FormatInt_inj|done].
Qed.

(** ** The signature of a delivery (webhook_hmac.go) *)

(** The headers carry a time of the window and the digest of the time and the body. *)
Definition signed (secret tsHeader sigHeader body : string) (skew now ts : Z) : Prop :=
  ParseInt (TrimSpace tsHeader) = (ts, true) /\
  sub64 now (skew_seconds skew) <= ts <= add64 now (skew_seconds skew) /\
  announced (TrimSpace sigHeader) = Some (hmac_sha256 (s2l secret) (signed_text ts body)).
Lemma verified_signed secret tsHeader sigHeader body skew now :
  VerifyCommerceWebhookHMAC secret tsHeader sigHeader body skew now = Ok tt <->
  exists ts, signed secret tsHeader sigHeader body skew now ts.
Proof.
  unfold VerifyCommerceWebhookHMAC, signed. split.
  - destruct (blank (TrimSpace sigHeader) || blank (TrimSpace tsHeader)); [done|].
    destruct (ParseInt (TrimSpace tsHeader)) as [ts [|]] eqn:Ep; [|done]. cbn [negb].
    destruct (_ || _) eqn:Ew; [done|]. apply orb_false_iff in Ew as [Ha Hb].
    destruct (announced (TrimSpace sigHeader)) as [want|] eqn:Ea; [|done].
    destruct (negb (Nat.eqb _ _)); cbn [orb guard_err]; [done|].
    destruct (hmac_Equal _ want) eqn:Ee; cbn [negb guard_err]; [|done].
    apply hmac_Equal_spec in Ee as <-. intros _. exists ts. split; [done|]. split; [|done]. lia.
  - intros (ts & Ep & Hw & Ea).
    destruct (blank (TrimSpace sigHeader)) eqn:Eb.
    { apply String.eqb_eq in Eb. rewrite Eb in Ea. exfalso.
      assert (En : announced "" = Some []) by reflexivity. rewrite En in Ea. injection Ea as Ea.
      apply (f_equal length) in Ea. by rewrite length_hmac in Ea. }
    destruct (blank (TrimSpace tsHeader)) eqn:Et.
    { apply String.eqb_eq in Et. by rewrite Et in Ep. }
    cbn [orb]. rewrite Ep, Ea. cbn [negb].
    rewrite (proj2 (Z.ltb_ge _ _)), (proj2 (Z.ltb_ge _ _)) by lia. cbn [orb].
    rewrite Nat.eqb_refl, (proj2 (hmac_Equal_spec _ _) eq_refl). done.
Qed.

(** A signed delivery is accepted, and its signature for nothing else. *)
Definition signature_of (secret : string) (ts : Z) (body : string) : string :=
  "sha256=" +:+ EncodeToString (hmac_sha256 (s2l secret) (signed_text ts body)).
Lemma signature_trimmed secret ts body : TrimSpace (signature_of secret ts body) = signature_of secret ts body.
Proof.
  rewrite <- (l2s_s2l (signature_of secret ts body)). unfold signature_of. rewrite s2l_app.
  apply TrimSpace_token; [done|]. rewrite forallb_app. change (forallb token_char (s2l "sha256=")) with true.
  eapply forallb_impl; [|apply hex_chars]. intros a. unfold hex_text_char. by destruct (hex_value a).
Qed.

(** C6: A delivery whose headers carry its time, within the allowed skew of the
    clock, and the HMAC of time and body under the secret is accepted.  Whatever
    the same signature header is accepted for under the same secret, with any time
    header, any body and at any time, is that time and that body, unless the text
    that was signed and the one that is accepted differ and have the same HMAC
    under the secret: whoever gets another delivery accepted has a collision of
    HMAC-SHA256 with this one. *)
Theorem signed_delivery_round_trip secret skew now ts body :
  in_int64 ts -> sub64 now (skew_seconds skew) <= ts <= add64 now (skew_seconds skew) ->
  VerifyCommerceWebhookHMAC secret (FormatInt ts) (signature_of secret ts body) body skew now = Ok tt /\
  forall tsHeader body' skew' now',
    VerifyCommerceWebhookHMAC secret tsHeader (signature_of secret ts body) body' skew' now' = Ok tt ->
    exists ts', ParseInt (TrimSpace tsHeader) = (ts', true) /\
      hmac_sha256 (s2l secret) (signed_text ts' body') = hmac_sha256 (s2l secret) (signed_text ts body) /\
      (ts' = ts /\ body' = body \/ signed_text ts' body' <> signed_text ts body).
Proof.
  intros Hts Hw.
  assert (Ha : announced (TrimSpace (signature_of secret ts body)) =
               Some (hmac_sha256 (s2l secret) (signed_text ts body))).
  { rewrite signature_trimmed. apply announced_scheme. }
  split.
  - apply verified_signed. exists ts. split; [by rewrite FormatInt_trimmed, ParseInt_FormatInt|done].
  - intros tsHeader body' skew' now' (ts' & Ep & _ & Ea)%verified_signed. rewrite Ha in Ea. apply (inj Some) in Ea.
    exists ts'. split; [exact Ep|]. split; [by rewrite Ea|].
    destruct (decide (signed_text ts' body' = signed_text ts body)) as [E|Hn]; [left|right; exact Hn].
    by apply signed_text_inj.
Qed.

(** ** Notifications in the format of a provider *)

Lemma momo_captured code : MoMo.MapResultCode code = "captured" <-> code = 0.
Proof.
  unfold MoMo.MapResultCode, MoMo.MapResultCodeDetail. destruct (Z.eqb_spec code 0) as [->|Hn]; [done|].
  split; [|done]. by do 2 (destruct (existsb _ _); [done|]).
Qed.
Lemma zalopay_captured code : (ZaloPay.MapReturnCode code).1 = "captured" <-> code = 1.
Proof.
  unfold ZaloPay.MapReturnCode, ZaloPay.MapReturnCodeDetail. cbn [fst].
  destruct (Z.eqb_spec code 1) as [->|Hn]; [done|]. split; [|done].
  destruct (code =? 3); [done|]. by destruct (existsb _ _).
Qed.
Lemma shopeepay_captured code : (ShopeePay.MapTxStatus code).1 = "captured" <-> code = ShopeePay.TXStatusSuccess.
Proof.
  unfold ShopeePay.MapTxStatus, ShopeePay.MapTxStatusDetail. cbn [fst].
  destruct (Z.eqb_spec code ShopeePay.TXStatusSuccess) as [->|Hn]; [done|].
  split; [|done]. by do 2 (destruct (existsb _ _); [done|]).
Qed.
Lemma vnpay_captured code : (VNPay.MapCode code).1 = "captured" <-> TrimSpace code ∈ ["00"; "08"].
Proof.
  unfold VNPay.MapCode, VNPay.MapCodeDetail. cbn [fst]. rewrite <- one_of_spec.
  destruct (one_of (TrimSpace code) ["00"; "08"]); [done|]. split; [|done].
  destruct (one_of _ _); [done|]. by destruct (one_of _ _).
Qed.
Ltac mapped := cbn [fst]; repeat match goal with |- context [if ?b then _ else _] => destruct b; [done|] end; done.
Lemma known_states_momo code : MoMo.MapResultCode code ∈ ["captured"; "pending"; "failed"].
Proof. apply one_of_spec. unfold MoMo.MapResultCode, MoMo.MapResultCodeDetail. mapped. Qed.
Lemma known_states_zalopay code : (ZaloPay.MapReturnCode code).1 ∈ ["captured"; "pending"; "failed"].
Proof. apply one_of_spec. unfold ZaloPay.MapReturnCode, ZaloPay.MapReturnCodeDetail. mapped. Qed.
Lemma known_states_vnpay code : (VNPay.MapCode code).1 ∈ ["captured"; "pending"; "failed"].
Proof. apply one_of_spec. unfold VNPay.MapCode, VNPay.MapCodeDetail. mapped. Qed.
Lemma known_states_shopeepay code : (ShopeePay.MapTxStatus code).1 ∈ ["captured"; "pending"; "failed"].
Proof. apply one_of_spec. unfold ShopeePay.MapTxStatus, ShopeePay.MapTxStatusDetail. mapped. Qed.

(** The code a field holds: a number, cut to an integer as Go's conversion does,
    or a text that is the decimal of one. *)
Definition code_read (v : json) : option Z :=
  match v with
  | JNum m k => Some (f64_to_int64 (f64_of_decimal m k))
  | JStr s => match ParseInt (TrimSpace s) with (z, true) => Some z | _ => None end
  | _ => None
  end.
(** A field without a code: missing, [null], a truth value, a list or an object,
    or a text that is no decimal at all. *)
Definition no_code (v : json) : bool :=
  match v with
  | JNum _ _ => false
  | JStr s => match ParseInt (TrimSpace s) with (0, false) => true | _ => false end
  | _ => true
  end.
Lemma ParseInt_refused s z : ParseInt s = (z, false) -> z = 0 \/ z = MinInt64 \/ z = MaxInt64.
Proof.
  unfold ParseInt. destruct (signed_digits (s2l s)) as [neg l].
  destruct (parse_unsigned l) as [n|]; [|intros [= <-]; auto].
  destruct neg; case_match; intros [= <-]; auto.
Qed.
(** Every code of success is small, and zero is what a field without a code reads as. *)
Lemma asInt_code v n :
  MinInt64 < n < MaxInt64 -> asInt v = n <-> code_read v = Some n \/ n = 0 /\ no_code v = true.
Proof.
  intros Hn. destruct v as [|b|m k|s|l|fs]; cbn [asInt code_read no_code].
  - naive_solver.
  - naive_solver.
  - split; [intros ->; by left|intros [[= ->]|[_ [=]]]; done].
  - destruct (ParseInt (TrimSpace s)) as [z [|]] eqn:E; cbn [fst].
    + split; [intros ->; by left|]. intros [[= ->]|[_ H]]; [done|]. by destruct z.
    + apply ParseInt_refused in E. split.
      * intros <-. right. destruct E as [->|[->| ->]]; [done|lia|lia].
      * intros [[=]|[-> H]]. by destruct z.
  - naive_solver.
  - naive_solver.
Qed.
Lemma asInt_nonzero v n : n <> 0 -> MinInt64 < n < MaxInt64 -> asInt v = n <-> code_read v = Some n.
Proof. intros Hz Hn. rewrite asInt_code by done. naive_solver. Qed.

(** The code of success in a notification: MoMo's is 0, and what is no code is
    taken for it; ZaloPay's is 1; ShopeePay's is 3, or an older status of 1 when
    the notification has no transaction status. *)
Definition momo_success (data : list (string * json)) : Prop :=
  code_read (field "resultCode" data) = Some 0 \/ no_code (field "resultCode" data) = true.
Definition zalopay_success (data : list (string * json)) : Prop := code_read (field "return_code" data) = Some 1.
Definition shopeepay_success (data : list (string * json)) : Prop :=
  if has_field "transaction_status" data then code_read (field "transaction_status" data) = Some 3
  else code_read (field "payment_status" data) = Some 1.
Ltac small_code := first [done | unfold_int; lia].
Lemma momo_reads data : MoMo.MapResultCode (asInt (field "resultCode" data)) = "captured" <-> momo_success data.
Proof. unfold momo_success. rewrite momo_captured, asInt_code by small_code. naive_solver. Qed.
Lemma zalopay_reads data :
  (ZaloPay.MapReturnCode (asInt (field "return_code" data))).1 = "captured" <-> zalopay_success data.
Proof. unfold zalopay_success. by rewrite zalopay_captured, asInt_nonzero by small_code. Qed.
Lemma missing_field key data : has_field key data = false -> field key data = JNull.
Proof. unfold has_field, field. by destruct (json_last key data). Qed.
Lemma shopeepay_reads data :
  (ShopeePay.MapTxStatus (ShopeePay.callback_status data)).1 = "captured" <-> shopeepay_success data.
Proof.
  rewrite shopeepay_captured. unfold ShopeePay.callback_status, shopeepay_success, ShopeePay.TXStatusSuccess.
  destruct (has_field "transaction_status" data) eqn:Ef; cbn [negb andb].
  - by rewrite asInt_nonzero by small_code.
  - rewrite (missing_field _ _ Ef), <- asInt_nonzero by small_code.
    destruct (Z.eqb_spec (asInt (field "payment_status" data)) 1) as [->|]; [done|]. by split.
Qed.
(** Which addresses the whitelist lets in: with none, every address outside
    staging and production and no address there. *)
Lemma allowed_address ip whitelist strict :
  ShopeePay.ClientIPPolicy ip whitelist strict = true <->
  ip ∈ whitelist /\ ip <> "" \/ whitelist = ∅ /\ strict = false.
Proof.
  unfold ShopeePay.ClientIPPolicy. case_bool_decide as Ew.
  - subst. destruct strict; set_solver.
  - destruct (blank ip) eqn:Eb; [apply String.eqb_eq in Eb; naive_solver|]. apply String.eqb_neq in Eb.
    rewrite bool_decide_eq_true. naive_solver.
Qed.

(** The digest a notification of each provider has to carry. *)
Definition momo_signed (p : MoMo.MoMoProvider) (data : list (string * json)) : Prop :=
  exists creds, creds ∈ [MoMo.key_TFO (MoMo.mp_keys p); MoMo.key_AVF (MoMo.mp_keys p)] /\
    asString (field "partnerCode" data) = MoMo.PartnerCode creds /\ blank (MoMo.SecretKey creds) = false /\
    asString (field "signature" data) =
      hmacSHA256Hex (MoMo.SecretKey creds) (MoMo.ipn_text (MoMo.ipn_fields creds (MoMo.PartnerCode creds) data)).
Definition zalopay_signed (p : ZaloPay.ZaloPayProvider) (data mac : string) : Prop :=
  blank (ZaloPay.Key2 (ZaloPay.zp_creds p)) = false /\ mac = hmacSHA256Hex (ZaloPay.Key2 (ZaloPay.zp_creds p)) data.
Definition shopeepay_signed (p : ShopeePay.ShopeePayProvider) (clientID signature raw : string) : Prop :=
  exists creds, creds ∈ [ShopeePay.key_AVF (ShopeePay.sp_keys p); ShopeePay.key_TFO (ShopeePay.sp_keys p)] /\
    TrimSpace clientID = ShopeePay.ClientID creds /\ blank (ShopeePay.SecretKey creds) = false /\
    signature = base64 (hmac_sha256 (s2l (ShopeePay.SecretKey creds)) (s2l raw)).

Lemma digest_checked secret sum given :
  (if blank secret || blank given then false else hmac_Equal (s2l sum) (s2l given)) = true ->
  blank secret = false /\ given = sum.
Proof.
  destruct (blank secret); [done|]. destruct (blank given); [done|]. cbn [orb].
  intros E%hmac_Equal_spec. split; [done|]. by rewrite <- (l2s_s2l given), <- E, l2s_s2l.
Qed.

(** The first of two keys that is named. *)
Lemma named_key {K} (name : K -> string) given (ga gb : bool) (a b c : K) :
  (if ga && String.eqb given (name a) then Some a
   else if gb && String.eqb given (name b) then Some b else None) = Some c ->
  c ∈ [a; b] /\ given = name c.
Proof.
  rewrite !elem_of_cons. destruct (ga && _) eqn:E1.
  - intros [= <-]. apply andb_true_iff in E1 as [_ E1%String.eqb_eq]. auto.
  - destruct (gb && _) eqn:E2; [|done]. intros [= <-]. apply andb_true_iff in E2 as [_ E2%String.eqb_eq]. auto.
Qed.


(** ** What a query may report *)

(** Whatever a call answers with, [P] holds of it. *)
Definition yields {W A} (P : A -> Prop) (m : M W A) : Prop := forall w a w', m w = (Ok a, w') -> P a.
Lemma yields_ret {W A} (P : A -> Prop) (a : A) : P a -> yields (W:=W) P (ret a).
Proof. by intros Ha w b w' [= <- _]. Qed.
Lemma yields_fail {W A} (P : A -> Prop) e : yields (W:=W) P (fail e : M W A).
Proof. by intros w b w' [=]. Qed.
Lemma yields_bind {W A B} (P : B -> Prop) (m : M W A) (k : A -> M W B) :
  (forall a, yields P (k a)) -> yields P (bind m k).
Proof. intros Hk w b w'. unfold bind. destruct (m w) as [[a|e] w1]; [apply Hk|done]. Qed.
#[local] Hint Resolve yields_ret yields_fail yields_bind : core.
Ltac yields_go :=
  repeat match goal with
  | |- yields _ (fail _) => apply yields_fail
  | |- yields _ (ret _) => apply yields_ret
  | |- yields _ (bind _ _) => apply yields_bind; intros ?
  | |- yields _ (if _ then _ else _) => case_match
  end.

(** The answer of the gateway is the one of a payment that went through: MoMo's
    has to hold its field; VNPay's query takes 08 for a success as well as 00. *)
Definition success_reported (p : Adapter) (m : list (string * json)) : Prop :=
  match p with
  | AMoMo _ => has_field "resultCode" m = true /\ momo_success m
  | AZaloPay _ => zalopay_success m
  | AVNPay _ => TrimSpace (asString (field "code" m)) ∈ ["00"; "08"]
  | AShopeePay _ => exists tx, field "transaction" m = JObj tx /\ code_read (field "status" tx) = Some 3
  | _ => False
  end.
Lemma shopeepay_answer m :
  (ShopeePay.MapTxStatus (ShopeePay.transaction_status m)).1 = "captured" <->
  exists tx, field "transaction" m = JObj tx /\ code_read (field "status" tx) = Some 3.
Proof.
  rewrite shopeepay_captured. unfold ShopeePay.transaction_status, ShopeePay.TXStatusSuccess.
  destruct (field "transaction" m) as [| | | | |tx]; try by split; [|intros (? & [=] & _)].
  rewrite asInt_nonzero by small_code. naive_solver.
Qed.
Definition reported_exactly (p : Adapter) (s : PaymentStatusSnapshot) : Prop :=
  exists m, pss_ProviderHint s = JObj m /\ pss_NormalizedState s ∈ ["captured"; "pending"; "failed"] /\
            (pss_NormalizedState s = "captured" <-> success_reported p m).

(** C24: When an adapter answers a query at all, whatever the gateway sent, the
    state is one of captured, pending and failed, the hint is the answer as it
    was decoded, and the state is captured exactly when that answer holds the
    gateway's code of success: 0 for MoMo, whose answer is refused without the
    field and counts as 0 when what the field holds is no code; 1 for ZaloPay; 00
    or 08 for VNPay; a transaction with status 3 for ShopeePay. *)
Theorem queried_state_exact `{UuidText} {W} (send : HttpRequest -> M W HttpResponse) (now : M W Z) (zone : Z)
    (newRequestID : M W string) p lookup :
  yields (reported_exactly p) (QueryPaymentStatus send now zone newRequestID p lookup).
Proof.
  destruct p as [k|k| |p|p|p|p]; cbn [QueryPaymentStatus]; try apply yields_fail.
  - unfold MoMo.QueryPaymentStatus. yields_go. exists a1.
    split; [done|]. split; [apply known_states_momo|]. cbn [pss_NormalizedState].
    rewrite momo_reads. split; [|by intros [_ ?]]. intros ?. split; [|done]. by apply negb_false_iff.
  - unfold ZaloPay.QueryPaymentStatus. yields_go. exists a1.
    split; [done|]. split; [apply known_states_zalopay|apply zalopay_reads].
  - unfold VNPay.QueryPaymentStatus. yields_go. exists a1. split; [done|]. cbn [pss_NormalizedState].
    destruct (String.eqb_spec (asString (field "code" a1)) "08") as [E|_].
    + split; [left|]. cbn. rewrite E. split; [|done]. intros _. right. left.
    + split; [apply known_states_vnpay|apply vnpay_captured].
  - unfold ShopeePay.QueryPaymentStatus. yields_go. all: exists a0; split; [done|];
      split; [apply known_states_shopeepay|apply shopeepay_answer].
Qed.

(** ** ZaloPay's transaction ids *)

Lemma length_s2l s : length (s2l s) = String.length s.
Proof. induction s as [|c s IH]; [done|]. cbn [String.length]. by rewrite <- IH. Qed.
Lemma index_after (l k : list ascii) c : c ∉ l -> index_byte (l ++ c :: k) c = Some (length l).
Proof.
  induction l as [|x l IH]; intros Hn; cbn.
  - by rewrite Ascii.eqb_refl.
  - destruct (Ascii.eqb_spec x c) as [->|]; [exfalso; apply Hn; left|].
    rewrite IH; [done|]. intros Hin. apply Hn. by right.
Qed.
Lemma pad_no_underscore w z : "_"%char ∉ s2l (pad w z).
Proof.
  unfold pad. rewrite s2l_app, s2l_l2s. intros [Hr|Hin]%elem_of_app.
  - apply elem_of_replicate in Hr as [E _]. discriminate.
  - assert (HN : forall n : N, "_"%char ∉ s2l (pretty n)).
    { intros n Hx. destruct (pretty_N_digits n) as [Hd _]. rewrite forallb_forall in Hd.
      apply list_elem_of_In, Hd in Hx. discriminate. }
    revert Hin. unfold FormatInt, pretty, pretty_Z.
    destruct z as [|p|p]; [apply (HN 0%N)|apply (HN (N.pos p))|].
    change (s2l ("-" +:+ pretty p)) with ("-"%char :: s2l (pretty (N.pos p))).
    intros [E|Hin]%elem_of_cons; [discriminate|by apply (HN (N.pos p))].
Qed.

(** The reference a payment session was created with is read back from the
    transaction id that ZaloPay returns in a callback, whatever the day and
    whatever the reference, underscores included. *)
Theorem zalopay_reference_round_trip reference local :
  reference <> "" -> ZaloPay.reference_of_trans (ZaloPay.AppTransID reference local) = reference.
Proof.
  intros Hr. unfold ZaloPay.AppTransID, ZaloPay.Format_yymmdd.
  destruct (civil_from_days _) as [[y m] d].
  set (day := pad 2 (y mod 100) +:+ pad 2 m +:+ pad 2 d).
  assert (Hd : "_"%char ∉ s2l day).
  { unfold day. rewrite !s2l_app, !elem_of_app. intros [?|[?|?]]; by eapply pad_no_underscore. }
  assert (El : s2l (day +:+ "_" +:+ reference) = s2l day ++ "_"%char :: s2l reference) by (by rewrite !s2l_app).
  assert (Hs : (0 < length (s2l reference))%nat).
  { destruct reference; [done|]. cbn. lia. }
  unfold ZaloPay.reference_of_trans. rewrite El, index_after by done.
  rewrite <- length_s2l, El, length_app. cbn [length].
  rewrite (proj2 (Nat.ltb_lt _ _)) by lia.
  rewrite Nat.add_1_r. change (s2l day ++ "_"%char :: s2l reference) with (s2l day ++ ["_"%char] ++ s2l reference).
  rewrite app_assoc, drop_app_length' by (rewrite length_app; cbn; lia). apply l2s_s2l.
Qed.

(** An amount survives the unit of ShopeePay. *)
Lemma shopeepay_amount_round_trip vnd :
  in_int64 (vnd * ShopeePay.AmountFactor) -> ShopeePay.FromAPIAmount (ShopeePay.ToAPIAmount vnd) = vnd.
Proof.
  intros Hv. unfold ShopeePay.ToAPIAmount, ShopeePay.FromAPIAmount, mul64. rewrite wrap64_id by done.
  apply Z.quot_mul. discriminate.
Qed.

(** ** The registry *)

Definition registry_key (p : Adapter) : string := ToLower (TrimSpace (adapter_Key p)).
Lemma registered_lookup l m k :
  fold_left (fun m p => Register p m) l m !! k =
  match List.find (fun p => String.eqb (registry_key p) k) (rev l) with Some p => Some p | None => m !! k end.
Proof.
  revert m. induction l as [|p l IH]; intros m; [done|]. cbn [fold_left rev]. rewrite IH.
  assert (Hf : forall a b, List.find (fun p => String.eqb (registry_key p) k) (a ++ b) =
    match List.find (fun p => String.eqb (registry_key p) k) a with
    | Some q => Some q | None => List.find (fun p => String.eqb (registry_key p) k) b end).
  { induction a as [|q a IHa]; intros b; [done|]. cbn. destruct (String.eqb _ _); [done|apply IHa]. }
  rewrite Hf. destruct (List.find _ (rev l)); [done|]. cbn [List.find]. unfold Register. fold (registry_key p).
  destruct (String.eqb_spec (registry_key p) k) as [<-|Hn].
  - by rewrite lookup_insert_eq.
  - by rewrite lookup_insert_ne.
Qed.

Section Configured.
Context (defaultStores : string) (cfg : PaymentsConfig).
Notation registry := (NewRegistry defaultStores cfg).

Definition momo_of : Adapter := AMoMo (MoMo.NewMoMoProvider (pc_MoMo cfg)).
Definition zalopay_of (vietQR : bool) : Adapter := AZaloPay (ZaloPay.NewZaloPayProvider (pc_ZaloPay cfg) vietQR).
Definition vnpay_of : Adapter := AVNPay (VNPay.NewVNPayProvider (pc_VNPay cfg)).
Definition shopeepay_of : Adapter :=
  AShopeePay (ShopeePay.NewShopeePayProvider defaultStores (pc_ShopeePay cfg) (pc_AppEnv cfg)).
(** The adapter behind each key of a live provider. *)
Definition live_of (key : string) : option Adapter :=
  if String.eqb key "momo" then Some momo_of
  else if String.eqb key "zalopay" then Some (zalopay_of false)
  else if String.eqb key "vietqr" then Some (zalopay_of true)
  else if String.eqb key "vnpay" then Some vnpay_of
  else if String.eqb key "shopeepay" then Some shopeepay_of else None.

Ltac live_key k key :=
  destruct (String.eqb_spec k key) as [->|]; [intros E; apply (inj Some) in E as <-; reflexivity|].
Lemma Get_live key p :
  live_of (ToLower (TrimSpace key)) = Some p -> Get registry key = Some p.
Proof.
  unfold Get, NewRegistry. cbn [rg_byKey]. rewrite registered_lookup.
  unfold live_of, registered, live_adapters. fold momo_of (zalopay_of false) (zalopay_of true) vnpay_of shopeepay_of.
  generalize (ToLower (TrimSpace key)) as k. intros k.
  live_key k "momo". live_key k "zalopay". live_key k "vietqr". live_key k "vnpay". live_key k "shopeepay".
  done.
Qed.
(** Every other adapter is of the sandbox, a shell, or cash. *)
Lemma Get_cases key p :
  Get registry key = Some p -> let k := ToLower (TrimSpace key) in
  live_of k = Some p \/ IsPlaceholderLiveProvider p = true \/ k = "cash" \/ k ∈ sandbox_keys.
Proof.
  intros E. cbn zeta. destruct (live_of (ToLower (TrimSpace key))) as [q|] eqn:El.
  { left. apply Get_live in El. congruence. }
  right. revert E. unfold Get, NewRegistry. cbn [rg_byKey]. rewrite registered_lookup, lookup_empty.
  destruct (List.find _ _) as [q|] eqn:Ef; [|done]. intros [= ->].
  apply find_some in Ef as [Hin Ek%String.eqb_eq]. apply in_rev in Hin. rewrite <- Ek in El |- *.
  unfold registered in Hin. rewrite !in_app_iff in Hin. clear Ek key.
  destruct Hin as [Hin|[Hin|[[<-|[]]|Hin]]].
  - right. right. cbn in Hin. by destruct_or! Hin; subst; apply one_of_spec.
  - left. cbn in Hin. by destruct_or! Hin; subst.
  - by right; left.
  - exfalso. cbn [In live_adapters] in Hin.
    destruct_or! Hin; subst; discriminate El.
Qed.
End Configured.

(** ** Which adapter a session gets *)

Lemma NormalizeProviderKey_idemp key : NormalizeProviderKey (NormalizeProviderKey key) = NormalizeProviderKey key.
Proof.
  unfold NormalizeProviderKey, NormalizePaymentProviderKey at 2 3.
  destruct (one_of _ ["momo_qr"; _]) eqn:E1; [reflexivity|].
  destruct (one_of _ ["zalo"; _; _]) eqn:E2; [reflexivity|].
  destruct (one_of _ ["vnpay_qr"; _]) eqn:E3; [reflexivity|].
  destruct (one_of _ ["shopee"; _; _]) eqn:E4; [reflexivity|].
  destruct (one_of _ ["viet_qr"; _]) eqn:E5; [reflexivity|].
  unfold NormalizePaymentProviderKey. by rewrite lower_trim_idemp, E1, E2, E3, E4, E5.
Qed.
Lemma NormalizeProviderKey_lower key : ToLower (TrimSpace (NormalizeProviderKey key)) = NormalizeProviderKey key.
Proof.
  unfold NormalizeProviderKey, NormalizePaymentProviderKey.
  repeat match goal with |- context [if ?b then _ else _] => destruct b; [reflexivity|] end. apply lower_trim_idemp.
Qed.
Lemma sandbox_family key : ToLower (TrimSpace key) ∈ sandbox_keys <-> sandboxFamilyProviderKey key = true.
Proof. symmetry. apply one_of_spec. Qed.

Section Sessions.
Context (defaultStores : string) (cfg : PaymentsConfig).
Notation registry := (NewRegistry defaultStores cfg).
Notation live := (live_of defaultStores cfg).

(** What the list of allowed providers says of a key. *)
Definition allowed_key (key : string) : Prop :=
  exists k, k ∈ pc_AllowedPaymentProviders cfg /\ NormalizeProviderKey k = key /\ blank key = false.
Lemma allowed_set allow key :
  allowedProviderSet registry = Some allow -> key ∈ allow <-> allowed_key key.
Proof.
  unfold allowedProviderSet, NewRegistry, allowed_key. cbn [rg_allowedPaymentProviders].
  destruct (pc_AllowedPaymentProviders cfg) as [|a l]; [done|]. generalize (a :: l) as keys. clear a l.
  intros keys [= <-]. rewrite elem_of_list_to_set, list_elem_of_In, filter_In, in_map_iff. split.
  - intros [(k & <- & Hin) Hb%negb_true_iff]. exists k. by rewrite list_elem_of_In.
  - intros (k & Hin & <- & Hb). rewrite Hb. split; [|done]. exists k. by rewrite <- list_elem_of_In.
Qed.
Lemma no_allowed_set : allowedProviderSet registry = None <-> pc_AllowedPaymentProviders cfg = [].
Proof.
  unfold allowedProviderSet, NewRegistry. cbn [rg_allowedPaymentProviders].
  by destruct (pc_AllowedPaymentProviders cfg).
Qed.

Lemma session_key_normal client k :
  session_key registry client = Ok k -> exists given, k = NormalizeProviderKey given.
Proof.
  unfold session_key. destruct (allowedProviderSet registry).
  - destruct (blank _); [intros [= <-]; eauto|]. destruct (bool_decide _); [intros [= <-]; eauto|done].
  - destruct (blank _); [intros [= <-]; eauto|]. destruct (_ && _); [done|intros [= <-]; eauto].
Qed.
Lemma live_wired_known k p : live k = Some p -> is_none (LivePaymentWired p) = false.
Proof. unfold live_of. repeat (destruct (String.eqb k _); [by intros [= <-]|]). done. Qed.

(** C25: In production a payment session, whatever the client asks for, goes to
    the adapter of MoMo, ZaloPay, VietQR, VNPay or ShopeePay that was made from
    the configured credentials, and these are complete: never to the sandbox, to
    a placeholder or to cash, and to none when only cash is taken.  With a list
    of allowed providers, what a client asks for is on it. *)
Theorem production_sessions_live client p key :
  ResolveForPaymentSession registry "production" client = Ok (p, key) ->
  live key = Some p /\ LivePaymentWired p = Some true /\
  ToLower (TrimSpace (pc_PaymentEnv cfg)) <> "cash_only" /\
  (pc_AllowedPaymentProviders cfg <> [] -> blank (NormalizeProviderKey client) = false -> allowed_key key).
Proof.
  unfold ResolveForPaymentSession. destruct (session_key registry client) as [k|] eqn:Ek; [cbn [res_bind]|done].
  assert (Hk : ToLower (TrimSpace k) = k).
  { destruct (session_key_normal _ _ Ek) as [given ->]. apply NormalizeProviderKey_lower. }
  change (rg_paymentEnv registry) with (ToLower (TrimSpace (pc_PaymentEnv cfg))).
  destruct (String.eqb_spec (ToLower (TrimSpace (pc_PaymentEnv cfg))) "cash_only") as [|Henv]; [done|].
  destruct (blank k) eqn:Eb; [done|]. cbn [andb].
  destruct (String.eqb_spec k "cash") as [|Hcash]; [done|].
  destruct (Get registry k) as [q|] eqn:Eg; [|done].
  replace (String.eqb "production" "production") with true by done. cbn [andb].
  destruct (sandboxFamilyProviderKey k) eqn:Es; [done|].
  destruct (IsPlaceholderLiveProvider q) eqn:Ep; [done|]. cbn [orb].
  apply Get_cases in Eg. rewrite Hk in Eg.
  destruct Eg as [El|[El|[El|El]]]; [|congruence|congruence|rewrite <- Hk in El; apply sandbox_family in El; congruence].
  apply live_wired_known in El as Hw.
  destruct (LivePaymentWired q) as [[|]|] eqn:Ew; cbn [default negb]; try done.
  intros [= <- <-]. split_and!; try done. intros Ha Hc.
  destruct (allowedProviderSet registry) as [allow|] eqn:Eset; [|by apply no_allowed_set in Eset].
  unfold session_key in Ek. rewrite Eset, Hc in Ek. destruct (bool_decide _) eqn:Ed; [|done].
  injection Ek as <-. apply bool_decide_eq_true in Ed. by apply (allowed_set allow).
Qed.

(** ** What a machine is offered (runtime.go) *)

Lemma summary_found r key sum :
  List.find (fun s => String.eqb (psu_Key s) key) (ProviderSummaries r) = Some sum ->
  exists p, rg_byKey r !! key = Some p /\ sum = summary_of r key p.
Proof.
  intros [Hin Ek%String.eqb_eq]%find_some. unfold ProviderSummaries in Hin.
  apply list_elem_of_In, list_elem_of_omap in Hin as (k & _ & E).
  destruct (rg_byKey r !! k) as [p|] eqn:Ep; [|done]. injection E as <-.
  assert (k = key) as ->; [|by exists p]. revert Ek. unfold summary_of. by destruct (providerSessionStatus _).
Qed.
Lemma production_live key p :
  key ∈ productionProviderOrder -> rg_byKey registry !! key = Some p ->
  live key = Some p /\ NormalizeProviderKey key = key /\ ToLower (TrimSpace key) = key /\ key <> "cash" /\
  blank key = false /\ sandboxFamilyProviderKey key = false /\ IsPlaceholderLiveProvider p = false /\
  providerSessionStatus (Some p) =
    (if default false (LivePaymentWired p) then (ProviderStatusWired, true) else (ProviderStatusUnavailable, false)).
Proof.
  intros Hk Hp.
  assert (Hl : forall q, live key = Some q -> ToLower (TrimSpace key) = key -> q = p).
  { intros q Hq El. rewrite <- El in Hq. apply Get_live in Hq. unfold Get in Hq. rewrite El in Hq. congruence. }
  unfold productionProviderOrder in Hk. rewrite !elem_of_cons, elem_of_nil in Hk.
  destruct_or! Hk; subst; try done; rewrite <- (Hl _ eq_refl eq_refl); split_and!; try done.
  all: by match goal with |- providerSessionStatus (Some (?a ?q)) = _ =>
    unfold providerSessionStatus; cbn [LivePaymentWired default momo_of zalopay_of vnpay_of shopeepay_of];
    destruct (default false (LivePaymentWired (a q))) eqn:E end.
Qed.

Lemma enabled_live a key : enabled_key registry a = Some key -> key = NormalizeProviderKey a /\ blank key = false.
Proof.
  unfold enabled_key. destruct (blank (NormalizeProviderKey a)) eqn:Eb; [done|].
  destruct (String.eqb _ "cash"); [done|]. cbn [orb]. destruct (Get _ _); [|done].
  destruct (_ || _); [done|]. by intros [= <-].
Qed.
(** A key that is listed is allowed, is the default, or nothing is configured. *)
Lemma listed_key key sum enabled :
  enabled = enabledWiredProviders cfg registry ->
  (if is_nil enabled && is_nil (pc_AllowedPaymentProviders cfg) then psu_Wired sum && psu_SessionAvailable sum
   else one_of key (map NormalizeProviderKey enabled)) = true ->
  (pc_AllowedPaymentProviders cfg <> [] /\ allowed_key key) \/
  (pc_AllowedPaymentProviders cfg = [] /\
   (enabled = [] \/ key = NormalizeProviderKey (pc_DefaultPaymentProvider cfg))).
Proof.
  intros -> Hl. destruct (is_nil (enabledWiredProviders cfg registry) && _) eqn:En.
  { apply andb_true_iff in En as [En Ea]. right.
    destruct (pc_AllowedPaymentProviders cfg); [|done]. split; [done|]. left. by destruct (enabledWiredProviders _ _). }
  apply one_of_spec, list_elem_of_In, in_map_iff in Hl as (e & <- & He).
  unfold enabledWiredProviders in He. apply list_elem_of_In, list_elem_of_omap in He as (a & Ha & Ee).
  apply enabled_live in Ee as [-> Hb]. rewrite NormalizeProviderKey_idemp.
  destruct (pc_AllowedPaymentProviders cfg) as [|b l] eqn:El.
  - right. split; [done|]. right. destruct (blank _) eqn:Ed; [by apply elem_of_nil in Ha|].
    apply list_elem_of_singleton in Ha as ->. apply NormalizeProviderKey_idemp.
  - left. split; [done|]. exists a. by rewrite El.
Qed.
Lemma resolve_ready appEnv key p :
  session_key registry key = Ok key -> live key = Some p -> LivePaymentWired p = Some true ->
  ToLower (TrimSpace (pc_PaymentEnv cfg)) <> "cash_only" -> ToLower (TrimSpace key) = key ->
  blank key = false -> key <> "cash" -> sandboxFamilyProviderKey key = false -> IsPlaceholderLiveProvider p = false ->
  ResolveForPaymentSession registry appEnv key = Ok (p, key).
Proof.
  intros Ek El Ew He Hlow Hb Hc Hs Hp. unfold ResolveForPaymentSession. rewrite Ek. cbn [res_bind].
  change (rg_paymentEnv registry) with (ToLower (TrimSpace (pc_PaymentEnv cfg))).
  rewrite (proj2 (String.eqb_neq _ _) He), Hb. cbn [andb].
  rewrite (proj2 (String.eqb_neq _ _) Hc). rewrite <- Hlow in El. apply Get_live in El. rewrite El.
  rewrite Hs, andb_false_r, Hp, Ew. done.
Qed.

(** C26: Whatever the switches of a machine, a provider it is told it may create
    sessions with is a live one with complete credentials, switched on for the
    machine if its methods are configured; and a session asked for with that
    provider gets its adapter, in every environment, unless no list of allowed
    providers is configured and the default is a provider no session of the
    machine may use. *)
Theorem offered_methods_resolve flags o k :
  let view := ResolveMachinePaymentMethodsWithOverride cfg registry flags o in
  k ∈ EnabledSessionCreatableProviders view ->
  exists p, live k = Some p /\ LivePaymentWired p = Some true /\
    (mo_Configured o = true -> override_on o k = true) /\
    (pc_AllowedPaymentProviders cfg <> [] \/ mm_EnabledProviders view <> [] \/
       NormalizeProviderKey (pc_DefaultPaymentProvider cfg) = "" ->
     forall appEnv, ResolveForPaymentSession registry appEnv k = Ok (p, k)).
Proof.
  cbn zeta. unfold EnabledSessionCreatableProviders, ResolveMachinePaymentMethodsWithOverride.
  cbn [mm_Providers mm_EnabledProviders]. set (deploy := DeploymentRuntimeFromConfig cfg registry).
  set (enabled := enabledWiredProviders cfg registry).
  intros (v & Hv & Ev)%list_elem_of_omap. unfold listProviderCapabilities in Hv.
  apply list_elem_of_omap in Hv as (key & Hkey & Ec).
  destruct (List.find _ _) as [sum|] eqn:Ef; [|done]. apply (inj Some) in Ec as <-.
  apply summary_found in Ef as (p & Hp & ->).
  destruct (production_live key p Hkey Hp) as (El & Hn & Hlow & Hcash & Hb & Hs & Hph & Hst).
  unfold capability in Ev. cbn [pv_SessionCreatable pv_Key] in Ev.
  destruct (_ && _) eqn:Ecan in Ev; [|done]. apply (inj Some) in Ev as <-.
  rewrite !andb_true_iff in Ecan. destruct Ecan as [[[[[Hwired Hav] _] Hen] Hmode] _].
  assert (Ew : LivePaymentWired p = Some true).
  { unfold summary_of in Hwired. rewrite Hst in Hwired.
    destruct (LivePaymentWired p) as [[|]|]; cbn [default] in Hwired; try done. }
  unfold machineMethodEnabled in Hen. apply andb_true_iff in Hen as [Hlisted Hov]. rewrite Hn in Hov.
  exists p. split; [done|]. split; [done|]. split; [by intros Hconf; rewrite Hconf in Hov|].
  intros Hcond appEnv. apply resolve_ready; try done.
  - unfold session_key. rewrite Hn, Hb.
    apply listed_key in Hlisted; [|done]. destruct (allowedProviderSet registry) as [allow|] eqn:Eset.
    + destruct Hlisted as [[_ Ha]|[Ha _]]; [|apply no_allowed_set in Ha; congruence].
      by rewrite bool_decide_eq_true_2 by (by apply (allowed_set allow)).
    + apply no_allowed_set in Eset. destruct Hlisted as [[Ha _]|[_ Hd]]; [done|].
      change (rg_defaultPaymentProviderKey registry) with (NormalizeProviderKey (pc_DefaultPaymentProvider cfg)).
      rewrite NormalizeProviderKey_idemp.
      assert (Hdef : NormalizeProviderKey (pc_DefaultPaymentProvider cfg) = "" \/
                     key = NormalizeProviderKey (pc_DefaultPaymentProvider cfg)).
      { destruct Hd as [Hd|Hd]; [|by right]. destruct Hcond as [?|[?|?]]; [done|done|by left]. }
      destruct Hdef as [->|<-]; [done|]. by rewrite String.eqb_refl, andb_false_r.
  - intros He. subst deploy. unfold DeploymentRuntimeFromConfig in Hmode. rewrite He in Hmode. done.
Qed.
End Sessions.
