(* ===== verification/ServiceLaws.v ===== *)
(** * The service respects what its stores respect

    The contract between the commerce service and its dependencies: a
    relation on states that every operation of every dependency respects is
    respected by every method of the service, on every outcome.  The laws are
    classes over the interface records, proved for the PostgreSQL store in
    Backend. *)

From S2P Require Import Prelude.
From S2P Require Import GoStd.
From S2P Require Import Pricing.
From S2P Require Import CommerceTypes.
From S2P Require Import Sanitize.
From S2P Require Import Evidence.
From S2P Require Import Snapshot.
From S2P Require Import Rules.
From S2P Require Import CommerceService.
Local Open Scope string_scope.
Local Open Scope list_scope.
Local Open Scope Z_scope.

(** ** The laws of the interfaces *)

Class LifecycleLaws {W} (R : W -> W -> Prop) (l : CommerceLifecycleStore W) : Prop := {
  ll_GetOrderByID o : evolves R (ls_GetOrderByID W l o);
  ll_UpdateOrderStatus o c s : evolves R (ls_UpdateOrderStatus W l o c s);
  ll_VendBySlot o s : evolves R (ls_GetVendSessionByOrderAndSlot W l o s);
  ll_VendByLine o s : evolves R (ls_GetVendSessionByOrderAndLineSequence W l o s);
  ll_ListVends o : evolves R (ls_ListVendSessionsForOrder W l o);
  ll_UpdateVend p : evolves R (ls_UpdateVendSessionState W l p);
  ll_LatestPayment o : evolves R (ls_GetLatestPaymentForOrder W l o);
  ll_GetPayment p : evolves R (ls_GetPaymentByID W l p);
  ll_AttemptReference p : evolves R (ls_GetLatestPaymentAttemptProviderReference W l p);
  ll_AttemptPayload p : evolves R (ls_GetLatestPaymentAttemptPayload W l p);
  ll_InsertAttempt i : evolves R (ls_InsertPaymentAttempt W l i);
  ll_InsertRefund i : evolves R (ls_InsertRefundRow W l i);
  ll_ListRefunds o : evolves R (ls_ListRefundsForOrder W l o);
  ll_RefundByID o r : evolves R (ls_GetRefundByIDForOrder W l o r);
  ll_RefundByKey o k : evolves R (ls_GetRefundByOrderIdempotency W l o k);
  ll_SumRefunds p : evolves R (ls_SumNonFailedRefundAmountForPayment W l p);
  ll_Success i : evolves R (ls_FulfillSuccessfulVendAtomically W l i);
  ll_Failed i : evolves R (ls_FulfillFailedVendAtomically W l i) }.

Class FinancialLaws {W} (R : W -> W -> Prop) (f : FinancialCorrectnessStore W) : Prop := {
  fl_Claim p o : evolves R (fc_ClaimWinningPayment W f p o);
  fl_Winner o : evolves R (fc_GetWinningPaymentForOrder W f o);
  fl_Outcome p s : evolves R (fc_UpdatePaymentOutcome W f p s);
  fl_Cancel p : evolves R (fc_CancelPaymentByID W f p);
  fl_LatestOpen o : evolves R (fc_GetLatestNonCapturedPaymentForOrder W f o);
  fl_ListPayments o : evolves R (fc_ListPaymentsForOrder W f o);
  fl_Acceptance i : evolves R (fc_RecordCashAcceptanceEvents W f i);
  fl_Allocation i : evolves R (fc_RecordCashAllocation W f i);
  fl_Change i : evolves R (fc_RecordCashChangeEvent W f i);
  fl_MoneyView o : evolves R (fc_GetOrderMoneyView W f o);
  fl_Ledger i : evolves R (fc_InsertLedgerEntry W f i);
  fl_Case i : evolves R (fc_UpsertReconciliationCase W f i) }.

Class ResolverLaws {W} (R : W -> W -> Prop) (r : SaleLineResolver W) : Prop := {
  rl_Resolve x : evolves R (slr_ResolveSaleLine W r x);
  rl_Display a b c d : evolves R (slr_LookupSlotDisplay W r a b c d);
  rl_Quantity f x q : slr_ResolveSaleLineWithQuantity W r = Some f -> evolves R (f x q);
  rl_Config f m c : slr_LookupCurrentSlotConfigByCode W r = Some f -> evolves R (f m c) }.

Class ServiceLaws {W} (R : W -> W -> Prop) (s : Service W) : Prop := {
  sl_pre :: PreOrder R;
  sl_create i : evolves R (ow_CreateOrderWithVendSession W (sv_orders W s) i);
  sl_try m k : evolves R (ow_TryReplay W (sv_orders W s) m k);
  sl_payments f i : sv_payments W s = Some f -> evolves R (f i);
  sl_life l : sv_life W s = Some l -> LifecycleLaws R l;
  sl_webhook f i : sv_webhook W s = Some f -> evolves R (f i);
  sl_resolver :: ResolverLaws R (sv_saleLines W s);
  sl_workflow i : evolves R (wb_Start W (sv_workflow W s) i);
  sl_audit f r : sv_enterpriseAudit W s = Some f -> evolves R (f r);
  sl_hook f e : sv_webhookAppliedHook W s = Some f -> evolves R (f e);
  sl_psp reg env prov p k i : sv_paymentSessionReg W s = Some reg ->
    reg env prov = Ok (p, k) -> evolves R (p i);
  sl_financial f : sv_financial W s = Some f -> FinancialLaws R f;
  sl_bind f m o l : sv_bindAcceptanceEvents W s = Some f -> evolves R (f m o l);
  sl_mirror f m : sv_layoutMirror W s = Some f -> evolves R (f m);
  sl_now : evolves R (sv_now W s);
  sl_reference : evolves R (sv_newReference W s) }.

#[export] Hint Resolve ll_GetOrderByID ll_UpdateOrderStatus ll_VendBySlot ll_VendByLine
  ll_ListVends ll_UpdateVend ll_LatestPayment ll_GetPayment ll_AttemptReference ll_AttemptPayload ll_InsertAttempt
  ll_InsertRefund ll_ListRefunds ll_RefundByID ll_RefundByKey ll_SumRefunds ll_Success ll_Failed
  fl_Claim fl_Winner fl_Outcome fl_Cancel fl_LatestOpen fl_ListPayments fl_Acceptance
  fl_Allocation fl_Change fl_MoneyView fl_Ledger fl_Case rl_Resolve rl_Display sl_create sl_try
  sl_workflow sl_now sl_reference : evolves.

(** A dependency that is configured. *)
Lemma evolves_need {W D A} (R : W -> W -> Prop) `{!PreOrder R} (d : option D) (k : D -> M W A) :
  (forall x, d = Some x -> evolves R (k x)) -> evolves R (bind (need d) k).
Proof.
  intros Hk. destruct d as [x|]; [|intros w; reflexivity]. intros w. exact (Hk x eq_refl w).
Qed.

(** A pure step that succeeded. *)
Lemma evolves_bind_lift {W A B} (R : W -> W -> Prop) `{!PreOrder R} (r : res A) (k : A -> M W B) :
  (forall x, r = Ok x -> evolves R (k x)) -> evolves R (bind (lift r) k).
Proof.
  intros Hk. destruct r as [x|e]; [|intros w; reflexivity]. intros w. exact (Hk x eq_refl w).
Qed.

(** [evolve], and the dependencies a method needs. *)
Ltac serve :=
  repeat first
    [ progress intros
    | lazymatch goal with
      | |- evolves _ (bind (need _) _) =>
          let x := fresh "dep" in let E := fresh "Edep" in
          apply evolves_need; [typeclasses eauto|intros x E];
          first [ pose proof (sl_life _ E) | pose proof (sl_financial _ E)
                | pose proof (fun i => sl_payments _ i E) | pose proof (fun i => sl_webhook _ i E)
                | idtac ]
      end
    | solve [eauto with evolves typeclass_instances]
    | lazymatch goal with
      | |- evolves _ (bind (lift _) _) => apply evolves_bind_lift; [typeclasses eauto|]
      | |- evolves _ (bind _ _) => apply evolves_bind; [typeclasses eauto| |]
      | |- evolves _ (attempt _) => apply evolves_attempt
      | |- evolves _ (ignore _) => apply evolves_ignore
      | |- evolves _ (fmap_M _ _) => apply evolves_fmap
      | |- evolves _ (guard _ _) => apply evolves_lift; typeclasses eauto
      end
    | case_match ].

Section Methods.
Context `{UuidText} {W : Type} (R : W -> W -> Prop) (s : Service W) `{!ServiceLaws R s}.

Lemma sv_resolveAuthoritativePayment o : evolves R (resolveAuthoritativePayment s o).
Proof.
  unfold resolveAuthoritativePayment.
  destruct (sv_financial W s) as [f|] eqn:Ef; [pose proof (sl_financial f Ef)|serve].
  destruct (sv_life W s) as [l|] eqn:El; [pose proof (sl_life l El)|]; serve.
Qed.
Hint Resolve sv_resolveAuthoritativePayment : evolves.
Lemma sv_payment_if_any o : evolves R (payment_if_any s o).
Proof. unfold payment_if_any. serve. Qed.
Hint Resolve sv_payment_if_any : evolves.
Lemma sv_AttemptWinningPaymentClaim p o : evolves R (AttemptWinningPaymentClaim s p o).
Proof. unfold AttemptWinningPaymentClaim. serve. Qed.
Hint Resolve sv_AttemptWinningPaymentClaim : evolves.

Lemma sv_resolveSaleLineFromPricingSnapshot x snap q :
  evolves R (resolveSaleLineFromPricingSnapshot s x snap q).
Proof.
  unfold resolveSaleLineFromPricingSnapshot.
  destruct (slr_LookupCurrentSlotConfigByCode W (sv_saleLines W s)) as [f|] eqn:Ef;
    [pose proof (fun m c => rl_Config f m c Ef)|serve].
  destruct (sv_layoutMirror W s) as [g|] eqn:Eg; [pose proof (fun m => sl_mirror g m Eg)|]; serve.
Qed.
Hint Resolve sv_resolveSaleLineFromPricingSnapshot : evolves.
Lemma sv_resolveCheckoutSaleLine x snap q : evolves R (resolveCheckoutSaleLine s x snap q).
Proof.
  unfold resolveCheckoutSaleLine.
  destruct (slr_ResolveSaleLineWithQuantity W (sv_saleLines W s)) as [f|] eqn:Ef;
    [pose proof (fun y n => rl_Quantity f y n Ef)|]; serve.
Qed.
Hint Resolve sv_resolveCheckoutSaleLine : evolves.
Lemma sv_CreateOrder i : evolves R (CreateOrder s i).
Proof. unfold CreateOrder, price_order, create_order_replay. serve. Qed.
Lemma sv_StartPaymentWithOutbox i : evolves R (StartPaymentWithOutbox s i).
Proof.
  unfold StartPaymentWithOutbox.
  destruct (sv_life W s) as [l|] eqn:El; [pose proof (sl_life l El)|]; serve.
Qed.
Lemma sv_BindPaymentAttempt i : evolves R (BindPaymentAttempt s i).
Proof. unfold BindPaymentAttempt. serve. Qed.
Lemma sv_MarkOrderPaid c o : evolves R (MarkOrderPaidAfterPaymentCapture s c o).
Proof. unfold MarkOrderPaidAfterPaymentCapture. serve. Qed.
Hint Resolve sv_StartPaymentWithOutbox sv_BindPaymentAttempt sv_MarkOrderPaid : evolves.

Lemma sv_lookupVendSession o a b : evolves R (lookupVendSession s o a b).
Proof. unfold lookupVendSession. serve. Qed.
Hint Resolve sv_lookupVendSession : evolves.
Lemma sv_AdvanceVend i : evolves R (AdvanceVend s i).
Proof. unfold AdvanceVend. serve. Qed.
Hint Resolve sv_AdvanceVend : evolves.
Lemma sv_start_follow_up i fr p : evolves R (start_follow_up s i fr p).
Proof. unfold start_follow_up. serve. Qed.
Hint Resolve sv_start_follow_up : evolves.
Lemma sv_FinalizeOrderAfterVend i : evolves R (FinalizeOrderAfterVend s i).
Proof. unfold FinalizeOrderAfterVend, finalize_success, finalize_failed. serve. Qed.

Lemma sv_getCheckoutStatus c o a b : evolves R (getCheckoutStatus s c o a b).
Proof. unfold getCheckoutStatus. serve. Qed.
Hint Resolve sv_getCheckoutStatus : evolves.
Lemma sv_GetOrderStatusView c o a b : evolves R (GetOrderStatusView s c o a b).
Proof. unfold GetOrderStatusView, resolveVendForOrderStatusRead. serve. Qed.
Lemma sv_GetPaymentStatusView c o p : evolves R (GetPaymentStatusView s c o p).
Proof. unfold GetPaymentStatusView. serve. Qed.
Lemma sv_EnsureVendInProgress c o a : evolves R (EnsureVendInProgressForPaidOrder s c o a).
Proof. unfold EnsureVendInProgressForPaidOrder, GetCheckoutStatus. serve. Qed.
Lemma sv_EnsureOrderCompany c o : evolves R (EnsureOrderCompany s c o).
Proof. unfold EnsureOrderCompany. serve. Qed.
Hint Resolve sv_EnsureOrderCompany : evolves.
Lemma sv_EnsureCaller c o p : evolves R (EnsureCommerceCallerOrderAccess s c o p).
Proof. unfold EnsureCommerceCallerOrderAccess. serve. Qed.
Lemma sv_CancelOrder c o r : evolves R (CancelOrder s c o r).
Proof. unfold CancelOrder. serve. Qed.
Lemma sv_MarkOrderUnknown c o r : evolves R (MarkOrderUnknown s c o r).
Proof. unfold MarkOrderUnknown. serve. Qed.
Lemma sv_EvaluateRefundEligibility o a : evolves R (EvaluateRefundEligibility s o a).
Proof. unfold EvaluateRefundEligibility. serve. Qed.
Lemma sv_insert_refund l i p cur : LifecycleLaws R l -> evolves R (insert_refund s l i p cur).
Proof.
  intros Hl. unfold insert_refund.
  destruct (sv_enterpriseAudit W s) as [a|] eqn:Ea; [pose proof (fun r => sl_audit a r Ea)|]; serve.
Qed.
Hint Resolve sv_insert_refund : evolves.
Lemma sv_CreateRefund i : evolves R (CreateRefund s i).
Proof. unfold CreateRefund. serve. Qed.
Lemma sv_ListRefundsForOrder c o : evolves R (ListRefundsForOrder s c o).
Proof. unfold ListRefundsForOrder. serve. Qed.
Lemma sv_GetRefundForOrder c o r : evolves R (GetRefundForOrder s c o r).
Proof. unfold GetRefundForOrder. serve. Qed.
Lemma sv_ApplyPaymentProviderWebhook i : evolves R (ApplyPaymentProviderWebhook s i).
Proof.
  unfold ApplyPaymentProviderWebhook.
  destruct (sv_webhookAppliedHook W s) as [h|] eqn:Eh; [pose proof (fun e => sl_hook h e Eh)|]; serve.
Qed.

Lemma sv_record_cash f i p a c cur : FinancialLaws R f -> evolves R (record_cash s f i p a c cur).
Proof.
  intros Hf. unfold record_cash, record_acceptance, record_change.
  destruct (sv_bindAcceptanceEvents W s) as [b|] eqn:Eb;
    [pose proof (fun m o l => sl_bind b m o l Eb)|]; serve.
Qed.
Hint Resolve sv_record_cash : evolves.
Lemma sv_pay_with_cash i p : evolves R (pay_with_cash s i p).
Proof. unfold pay_with_cash. serve. Qed.
Hint Resolve sv_pay_with_cash : evolves.
Lemma sv_ConfirmCashPayment i : evolves R (ConfirmCashPayment s i).
Proof.
  unfold ConfirmCashPayment.
  destruct (sv_financial W s) as [f|] eqn:Ef; [pose proof (sl_financial f Ef)|]; serve.
Qed.
Lemma sv_CancelPaymentSession i : evolves R (CancelPaymentSession s i).
Proof. unfold CancelPaymentSession. serve. Qed.
Lemma sv_GetOrderMoneyView o : evolves R (GetOrderMoneyView s o).
Proof. unfold GetOrderMoneyView. serve. Qed.

Lemma sv_replayQR p : evolves R (replayQRPayloadFromStoredAttempt s p).
Proof. unfold replayQRPayloadFromStoredAttempt. serve. Qed.
Hint Resolve sv_replayQR : evolves.
Lemma sv_replay_session o k r : evolves R (replay_session s o k r).
Proof. unfold replay_session. serve. Qed.
Lemma sv_open_session i o k ref prov r :
  (forall x, evolves R (prov x)) -> evolves R (open_session s i o k ref prov r).
Proof. intros Hp. unfold open_session. serve. Qed.
Hint Resolve sv_replay_session : evolves.
Lemma sv_CreateMachinePaymentSession i : evolves R (CreateMachinePaymentSession s i).
Proof.
  unfold CreateMachinePaymentSession, session_order. serve; subst.
  eapply sv_open_session. intros x. by eapply sl_psp.
Qed.
End Methods.
