(* ===== verification/Db.v ===== *)
(** * The PostgreSQL database

    The tables the commerce store writes (migrations/), a world made of the
    database, its clock, its key generator and the schedule of what happens
    around the server, and the ways Go code talks to it: one autonomous
    statement on the pool ([stmt] outside a transaction), or a transaction
    ([with_tx]) with savepoints.

    The schedule gives, for each statement sent, what else happens: nothing,
    an error, an error after the statement took effect (a lost
    acknowledgement), or a step of another client that commits first.
    Transactions are serialised: other clients act between transactions and
    between autonomous statements, not inside a transaction.  A statement that
    fails aborts its transaction: every later statement fails with 25P02 and
    the commit becomes a rollback with an error, as in PostgreSQL and pgx. *)

From S2P Require Import Prelude.
From S2P Require Import GoStd.
From S2P Require Import Pricing.
From S2P Require Import CommerceTypes.
Local Open Scope string_scope.
Local Open Scope list_scope.
Local Open Scope Z_scope.

(** ** Rows *)

(** A row of vend_sessions: the columns the domain type shows, and the
    others. *)
Record VendRow := mk_VendRow {
  vr_Session : VendSession; vr_LineSequence : Z; vr_FailureReason : option string;
  vr_StartedAt : option Z; vr_CompletedAt : option Z; vr_VerificationStatus : string;
  vr_CorrelationID : option N }.

Record AttemptRow := mk_AttemptRow {
  at_ID : N; at_PaymentID : N; at_ProviderReference : option string; at_State : string;
  at_Payload : json; at_CreatedAt : Z }.

Record ProviderEvent := mk_ProviderEvent {
  pe_ID : N; pe_PaymentID : option N; pe_Provider : string; pe_ProviderRef : option string;
  pe_WebhookEventID : option string; pe_ProviderAmountMinor : option Z;
  pe_Currency : option string; pe_EventType : string; pe_Payload : json;
  pe_ValidationStatus : string; pe_ProviderMetadata : json; pe_SignatureValid : bool;
  pe_AppliedAt : option Z; pe_IngressStatus : string }.

Record TimelineRow := mk_TimelineRow {
  tl_ID : N; tl_OrderID : N; tl_EventType : string; tl_ActorType : string;
  tl_Payload : json; tl_OccurredAt : Z }.

Record EvidenceRow := mk_EvidenceRow {
  er_ID : N; er_OrderID : N; er_VendSessionID : N; er_MachineID : N; er_SlotIndex : Z;
  er_VendAttemptID : N; er_CorrelationID : N; er_CommandID : string; er_Digest : string;
  er_Evidence : VendHardwareEvidence; er_DedupeKey : string }.

Record LedgerRow := mk_LedgerRow {
  lr_ID : N; lr_MachineID : option N; lr_OrderID : option N; lr_PaymentID : option N;
  lr_EntryType : string; lr_SignedAmountMinor : Z; lr_Currency : string; lr_OccurredAt : Z;
  lr_CorrelationID : option N; lr_Metadata : json }.

Record CashAcceptanceRow := mk_CashAcceptanceRow {
  ca_ID : N; ca_MachineID : N; ca_OrderID : option N; ca_DeviceEventID : string;
  ca_DenominationMinor : Z; ca_CreditSource : string; ca_Currency : string; ca_AcceptedAt : Z;
  ca_BootID : option string; ca_RawMetadata : json; ca_CreatedAt : Z }.

Record CashAllocationRow := mk_CashAllocationRow {
  al_ID : N; al_OrderID : N; al_PaymentID : option N; al_MachineID : N; al_AmountMinor : Z;
  al_PreOrderCreditMinor : Z; al_PostOrderInsertedMinor : Z; al_ConsentSource : string;
  al_ConsentedAt : option Z; al_Currency : string; al_IdempotencyKey : option string;
  al_CreatedAt : Z }.

Record CashChangeRow := mk_CashChangeRow {
  ch_ID : N; ch_OrderID : N; ch_PaymentID : option N; ch_MachineID : N; ch_ChangeDueMinor : Z;
  ch_ChangeDispensedMinor : Z; ch_Outcome : string; ch_LiabilityMinor : Z; ch_Currency : string;
  ch_IdempotencyKey : option string; ch_CreatedAt : Z }.

(** inventory_events; [ie_IdempotencyKey] is [metadata ->> 'idempotency_key']. *)
Record InventoryEvent := mk_InventoryEvent {
  ie_ID : N; ie_MachineID : N; ie_SlotCode : string; ie_ProductID : N; ie_EventType : string;
  ie_QuantityDelta : Z; ie_QuantityAfter : Z; ie_OrderID : N; ie_CorrelationID : option N;
  ie_OccurredAt : Z; ie_IdempotencyKey : option string }.

Record SlotState := mk_SlotState {
  ss_Machine : N; ss_PlanogramID : N; ss_Slot : Z; ss_CurrentQuantity : Z; ss_PriceMinor : Z;
  ss_RevisionApplied : Z }.

(** machine_slot_configs, the current rows in the order of the query. *)
Record VendSlotConfig := mk_VendSlotConfig {
  vc_ID : N; vc_MachineID : N; vc_SlotCode : string; vc_SlotIndex : option Z;
  vc_ProductID : option N; vc_MaxQuantity : Z; vc_PriceMinor : Z }.

(** checkout_quotes and checkout_quote_lines. *)
Record QuoteRow := mk_QuoteRow {
  qt_ID : N; qt_MachineID : N; qt_Currency : string; qt_PaymentMethod : string;
  qt_SubtotalMinor : Z; qt_DiscountMinor : Z; qt_PayableMinor : Z; qt_State : string;
  qt_IdempotencyKey : option string; qt_ExpiresAt : Z; qt_PricingSource : string;
  qt_MachinePricingRevision : option Z; qt_MachinePricingSnapshot : option json;
  qt_ServerReferencePayableMinor : option Z; qt_CreatedAt : Z }.
Record QuoteLineRow := mk_QuoteLineRow {
  ql_ID : N; ql_QuoteID : N; ql_LineSequence : Z; ql_ProductID : N; ql_SlotConfigID : option N;
  ql_CabinetCode : string; ql_SlotCode : string; ql_SlotIndex : Z; ql_Quantity : Z;
  ql_UnitPriceMinor : Z; ql_LineSubtotalMinor : Z; ql_PricingFingerprint : string;
  ql_MachineUnitPriceMinor : option Z; ql_ServerReferenceUnitPriceMinor : option Z; ql_CreatedAt : Z }.

(** machine_idempotency_keys: the requests of machines that must not run twice. *)
Record MutationRow := mk_MutationRow {
  mu_ID : N; mu_MachineID : N; mu_Operation : string; mu_IdempotencyKey : string;
  mu_RequestHash : string; mu_ResponseSnapshot : option string; mu_Status : string;
  mu_FirstSeenAt : Z; mu_LastSeenAt : Z; mu_ExpiresAt : Z; mu_TraceID : string }.
(** machines: the columns of GetMachineCredentialGate. *)
Record MachineGateRow := mk_MachineGateRow {
  mg_MachineID : N; mg_CredentialVersion : Z; mg_Status : string; mg_CredentialRevokedAt : option Z }.

(** What a machine reports of the cash in it: notes paid out, notes on their
    way, counts of the recycler; and what people do with that cash:
    adjustments, collections, and the comparison of a count with the books. *)
Record PayoutRow := mk_PayoutRow {
  po_ID : N; po_MachineID : N; po_OrderID : option N; po_WithdrawalID : string; po_NoteSequence : Z;
  po_EventType : string; po_DeviceEventID : string; po_DenominationMinor : Z; po_AmountMinor : Z;
  po_RecyclerCountBefore : option Z; po_RecyclerCountAfter : option Z; po_OutcomeFinality : string;
  po_Currency : string; po_OccurredAtDevice : Z; po_RawMetadata : json; po_CreatedAt : Z }.
Record LifecycleRow := mk_LifecycleRow {
  bl_ID : N; bl_MachineID : N; bl_OrderID : option N; bl_DeviceEventID : string; bl_LifecycleType : string;
  bl_DenominationMinor : Z; bl_RawRecordHex : string; bl_Currency : string; bl_OccurredAtDevice : Z;
  bl_RawMetadata : json; bl_CreatedAt : Z }.
Record ObservationRow := mk_ObservationRow {
  ho_ID : N; ho_MachineID : N; ho_DeviceEventID : string; ho_ObservedAtDevice : Z;
  ho_RecyclerDenominationMinor : Z; ho_RecyclerCount : Z; ho_CashboxCount : option Z; ho_Source : string;
  ho_Currency : string; ho_RawMetadata : json; ho_CreatedAt : Z }.
Record AdjustmentRow := mk_AdjustmentRow {
  ad_ID : N; ad_MachineID : N; ad_AmountMinor : Z; ad_Bucket : string; ad_Reason : string;
  ad_OperatorAccountID : option N; ad_IdempotencyKey : string; ad_Currency : string;
  ad_Metadata : json; ad_CreatedAt : Z }.
Record CollectionRow := mk_CollectionRow {
  kc_ID : N; kc_MachineID : N; kc_CollectedAt : Z; kc_OpenedAt : Z; kc_ClosedAt : option Z;
  kc_LifecycleStatus : string; kc_AmountMinor : Z; kc_ExpectedAmountMinor : Z; kc_VarianceAmountMinor : Z;
  kc_RequiresReview : bool; kc_CloseRequestHash : option string; kc_Currency : string; kc_Metadata : json;
  kc_ReconciliationStatus : string; kc_CreatedAt : Z; kc_OperatorSessionID : option N }.
Record CashReconRow := mk_CashReconRow {
  kr_ID : N; kr_MachineID : N; kr_CashCollectionID : option N; kr_ExpectedAmountMinor : Z;
  kr_CountedAmountMinor : Z; kr_VarianceAmountMinor : Z; kr_ReconciledAt : Z; kr_Status : string;
  kr_Metadata : json }.
Record CashTables := mk_CashTables {
  ct_payouts : list PayoutRow; ct_lifecycle : list LifecycleRow; ct_observations : list ObservationRow;
  ct_adjustments : list AdjustmentRow; ct_collections : list CollectionRow; ct_recons : list CashReconRow }.

(** Who works at a machine: sessions, sign-ins, and what was done in a session. *)
Record SessionRow := mk_SessionRow {
  os_ID : N; os_MachineID : N; os_ActorType : string; os_TechnicianID : option N;
  os_UserPrincipal : option string; os_Status : string; os_StartedAt : Z; os_EndedAt : option Z;
  os_ExpiresAt : option Z; os_ClientMetadata : json; os_LastActivityAt : Z; os_EndedReason : option string;
  os_CreatedAt : Z; os_UpdatedAt : Z }.
Record AuthEventRow := mk_AuthEventRow {
  ae_ID : N; ae_OperatorSessionID : option N; ae_MachineID : N; ae_EventType : string;
  ae_AuthMethod : string; ae_OccurredAt : Z; ae_CorrelationID : option N; ae_Metadata : json }.
Record AttributionRow := mk_AttributionRow {
  aa_ID : N; aa_OperatorSessionID : option N; aa_MachineID : N; aa_ActionOriginType : string;
  aa_ResourceType : string; aa_ResourceID : string; aa_OccurredAt : Z; aa_Metadata : json;
  aa_CorrelationID : option N }.
Record OperatorTables := mk_OperatorTables {
  ot_sessions : list SessionRow; ot_auth_events : list AuthEventRow; ot_attributions : list AttributionRow }.

(** The tables of the machine protocol. *)
Record MachineTables := mk_MachineTables {
  mt_mutations : list MutationRow; mt_gates : list MachineGateRow;
  mt_cash : CashTables; mt_operator : OperatorTables }.
Definition no_cash : CashTables := mk_CashTables [] [] [] [] [] [].
Definition no_operators : OperatorTables := mk_OperatorTables [] [] [].
Definition no_machine_rows : MachineTables := mk_MachineTables [] [] no_cash no_operators.

(** What vend fulfilment reads of the fleet: machines, the columns of the
    active layout, the slots of the published planogram version of a machine
    (code, product, capacity, price), the latest published planogram, and the
    slots of a planogram (product and capacity). *)
Record Topology := mk_Topology {
  tp_Machines : list N; tp_GridCols : list (N * Z);
  tp_PublishedSlots : list (N * (string * option N * Z * Z));
  tp_PublishedPlanogram : option N;
  tp_PlanogramSlots : list (N * Z * (option N * Z)) }.

(** ** The database *)

Record pgdb := mk_pgdb {
  d_orders : list Order; d_vends : list VendRow; d_payments : list Payment;
  d_attempts : list AttemptRow; d_refunds : list RefundRowView; d_events : list ProviderEvent;
  d_outbox : list OutboxEvent; d_cases : list ReconciliationCase;
  d_timeline : list TimelineRow; d_evidences : list EvidenceRow; d_ledger : list LedgerRow;
  d_acceptances : list CashAcceptanceRow; d_allocations : list CashAllocationRow;
  d_changes : list CashChangeRow; d_stock_events : list InventoryEvent;
  d_slots : list SlotState; d_slot_cfgs : list VendSlotConfig; d_quotes : list QuoteRow;
  d_quote_lines : list QuoteLineRow; d_machine : MachineTables; d_topo : Topology }.

Definition set_orders (f : list Order -> list Order) (d : pgdb) : pgdb :=
  mk_pgdb (f (d_orders d)) (d_vends d) (d_payments d) (d_attempts d) (d_refunds d)
    (d_events d) (d_outbox d) (d_cases d) (d_timeline d) (d_evidences d) (d_ledger d)
    (d_acceptances d) (d_allocations d) (d_changes d) (d_stock_events d) (d_slots d)
    (d_slot_cfgs d) (d_quotes d) (d_quote_lines d) (d_machine d) (d_topo d).
Definition set_vends (f : list VendRow -> list VendRow) (d : pgdb) : pgdb :=
  mk_pgdb (d_orders d) (f (d_vends d)) (d_payments d) (d_attempts d) (d_refunds d)
    (d_events d) (d_outbox d) (d_cases d) (d_timeline d) (d_evidences d) (d_ledger d)
    (d_acceptances d) (d_allocations d) (d_changes d) (d_stock_events d) (d_slots d)
    (d_slot_cfgs d) (d_quotes d) (d_quote_lines d) (d_machine d) (d_topo d).
Definition set_payments (f : list Payment -> list Payment) (d : pgdb) : pgdb :=
  mk_pgdb (d_orders d) (d_vends d) (f (d_payments d)) (d_attempts d) (d_refunds d)
    (d_events d) (d_outbox d) (d_cases d) (d_timeline d) (d_evidences d) (d_ledger d)
    (d_acceptances d) (d_allocations d) (d_changes d) (d_stock_events d) (d_slots d)
    (d_slot_cfgs d) (d_quotes d) (d_quote_lines d) (d_machine d) (d_topo d).
Definition set_attempts (f : list AttemptRow -> list AttemptRow) (d : pgdb) : pgdb :=
  mk_pgdb (d_orders d) (d_vends d) (d_payments d) (f (d_attempts d)) (d_refunds d)
    (d_events d) (d_outbox d) (d_cases d) (d_timeline d) (d_evidences d) (d_ledger d)
    (d_acceptances d) (d_allocations d) (d_changes d) (d_stock_events d) (d_slots d)
    (d_slot_cfgs d) (d_quotes d) (d_quote_lines d) (d_machine d) (d_topo d).
Definition set_refunds (f : list RefundRowView -> list RefundRowView) (d : pgdb) : pgdb :=
  mk_pgdb (d_orders d) (d_vends d) (d_payments d) (d_attempts d) (f (d_refunds d))
    (d_events d) (d_outbox d) (d_cases d) (d_timeline d) (d_evidences d) (d_ledger d)
    (d_acceptances d) (d_allocations d) (d_changes d) (d_stock_events d) (d_slots d)
    (d_slot_cfgs d) (d_quotes d) (d_quote_lines d) (d_machine d) (d_topo d).
Definition set_events (f : list ProviderEvent -> list ProviderEvent) (d : pgdb) : pgdb :=
  mk_pgdb (d_orders d) (d_vends d) (d_payments d) (d_attempts d) (d_refunds d)
    (f (d_events d)) (d_outbox d) (d_cases d) (d_timeline d) (d_evidences d) (d_ledger d)
    (d_acceptances d) (d_allocations d) (d_changes d) (d_stock_events d) (d_slots d)
    (d_slot_cfgs d) (d_quotes d) (d_quote_lines d) (d_machine d) (d_topo d).
Definition set_outbox (f : list OutboxEvent -> list OutboxEvent) (d : pgdb) : pgdb :=
  mk_pgdb (d_orders d) (d_vends d) (d_payments d) (d_attempts d) (d_refunds d) (d_events d)
    (f (d_outbox d)) (d_cases d) (d_timeline d) (d_evidences d) (d_ledger d) (d_acceptances d)
    (d_allocations d) (d_changes d) (d_stock_events d) (d_slots d) (d_slot_cfgs d)
    (d_quotes d) (d_quote_lines d) (d_machine d) (d_topo d).
Definition set_cases (f : list ReconciliationCase -> list ReconciliationCase) (d : pgdb) : pgdb :=
  mk_pgdb (d_orders d) (d_vends d) (d_payments d) (d_attempts d) (d_refunds d) (d_events d)
    (d_outbox d) (f (d_cases d)) (d_timeline d) (d_evidences d) (d_ledger d) (d_acceptances d)
    (d_allocations d) (d_changes d) (d_stock_events d) (d_slots d) (d_slot_cfgs d)
    (d_quotes d) (d_quote_lines d) (d_machine d) (d_topo d).
Definition set_timeline (f : list TimelineRow -> list TimelineRow) (d : pgdb) : pgdb :=
  mk_pgdb (d_orders d) (d_vends d) (d_payments d) (d_attempts d) (d_refunds d) (d_events d)
    (d_outbox d) (d_cases d) (f (d_timeline d)) (d_evidences d) (d_ledger d) (d_acceptances d)
    (d_allocations d) (d_changes d) (d_stock_events d) (d_slots d) (d_slot_cfgs d)
    (d_quotes d) (d_quote_lines d) (d_machine d) (d_topo d).
Definition set_evidences (f : list EvidenceRow -> list EvidenceRow) (d : pgdb) : pgdb :=
  mk_pgdb (d_orders d) (d_vends d) (d_payments d) (d_attempts d) (d_refunds d) (d_events d)
    (d_outbox d) (d_cases d) (d_timeline d) (f (d_evidences d)) (d_ledger d) (d_acceptances d)
    (d_allocations d) (d_changes d) (d_stock_events d) (d_slots d) (d_slot_cfgs d)
    (d_quotes d) (d_quote_lines d) (d_machine d) (d_topo d).
Definition set_ledger (f : list LedgerRow -> list LedgerRow) (d : pgdb) : pgdb :=
  mk_pgdb (d_orders d) (d_vends d) (d_payments d) (d_attempts d) (d_refunds d) (d_events d)
    (d_outbox d) (d_cases d) (d_timeline d) (d_evidences d) (f (d_ledger d)) (d_acceptances d)
    (d_allocations d) (d_changes d) (d_stock_events d) (d_slots d) (d_slot_cfgs d)
    (d_quotes d) (d_quote_lines d) (d_machine d) (d_topo d).
Definition set_acceptances (f : list CashAcceptanceRow -> list CashAcceptanceRow) (d : pgdb) : pgdb :=
  mk_pgdb (d_orders d) (d_vends d) (d_payments d) (d_attempts d) (d_refunds d) (d_events d)
    (d_outbox d) (d_cases d) (d_timeline d) (d_evidences d) (d_ledger d) (f (d_acceptances d))
    (d_allocations d) (d_changes d) (d_stock_events d) (d_slots d) (d_slot_cfgs d)
    (d_quotes d) (d_quote_lines d) (d_machine d) (d_topo d).
Definition set_allocations (f : list CashAllocationRow -> list CashAllocationRow) (d : pgdb) : pgdb :=
  mk_pgdb (d_orders d) (d_vends d) (d_payments d) (d_attempts d) (d_refunds d) (d_events d)
    (d_outbox d) (d_cases d) (d_timeline d) (d_evidences d) (d_ledger d) (d_acceptances d)
    (f (d_allocations d)) (d_changes d) (d_stock_events d) (d_slots d) (d_slot_cfgs d)
    (d_quotes d) (d_quote_lines d) (d_machine d) (d_topo d).
Definition set_changes (f : list CashChangeRow -> list CashChangeRow) (d : pgdb) : pgdb :=
  mk_pgdb (d_orders d) (d_vends d) (d_payments d) (d_attempts d) (d_refunds d) (d_events d)
    (d_outbox d) (d_cases d) (d_timeline d) (d_evidences d) (d_ledger d) (d_acceptances d)
    (d_allocations d) (f (d_changes d)) (d_stock_events d) (d_slots d) (d_slot_cfgs d)
    (d_quotes d) (d_quote_lines d) (d_machine d) (d_topo d).
Definition set_stock_events (f : list InventoryEvent -> list InventoryEvent) (d : pgdb) : pgdb :=
  mk_pgdb (d_orders d) (d_vends d) (d_payments d) (d_attempts d) (d_refunds d) (d_events d)
    (d_outbox d) (d_cases d) (d_timeline d) (d_evidences d) (d_ledger d) (d_acceptances d)
    (d_allocations d) (d_changes d) (f (d_stock_events d)) (d_slots d) (d_slot_cfgs d)
    (d_quotes d) (d_quote_lines d) (d_machine d) (d_topo d).
Definition set_slots (f : list SlotState -> list SlotState) (d : pgdb) : pgdb :=
  mk_pgdb (d_orders d) (d_vends d) (d_payments d) (d_attempts d) (d_refunds d) (d_events d)
    (d_outbox d) (d_cases d) (d_timeline d) (d_evidences d) (d_ledger d) (d_acceptances d)
    (d_allocations d) (d_changes d) (d_stock_events d) (f (d_slots d)) (d_slot_cfgs d)
    (d_quotes d) (d_quote_lines d) (d_machine d) (d_topo d).
Definition set_slot_cfgs (f : list VendSlotConfig -> list VendSlotConfig) (d : pgdb) : pgdb :=
  mk_pgdb (d_orders d) (d_vends d) (d_payments d) (d_attempts d) (d_refunds d) (d_events d)
    (d_outbox d) (d_cases d) (d_timeline d) (d_evidences d) (d_ledger d) (d_acceptances d)
    (d_allocations d) (d_changes d) (d_stock_events d) (d_slots d) (f (d_slot_cfgs d))
    (d_quotes d) (d_quote_lines d) (d_machine d) (d_topo d).
Definition set_quotes (f : list QuoteRow -> list QuoteRow) (d : pgdb) : pgdb :=
  mk_pgdb (d_orders d) (d_vends d) (d_payments d) (d_attempts d) (d_refunds d) (d_events d)
    (d_outbox d) (d_cases d) (d_timeline d) (d_evidences d) (d_ledger d) (d_acceptances d)
    (d_allocations d) (d_changes d) (d_stock_events d) (d_slots d) (d_slot_cfgs d)
    (f (d_quotes d)) (d_quote_lines d) (d_machine d) (d_topo d).
Definition set_quote_lines (f : list QuoteLineRow -> list QuoteLineRow) (d : pgdb) : pgdb :=
  mk_pgdb (d_orders d) (d_vends d) (d_payments d) (d_attempts d) (d_refunds d) (d_events d)
    (d_outbox d) (d_cases d) (d_timeline d) (d_evidences d) (d_ledger d) (d_acceptances d)
    (d_allocations d) (d_changes d) (d_stock_events d) (d_slots d) (d_slot_cfgs d)
    (d_quotes d) (f (d_quote_lines d)) (d_machine d) (d_topo d).

Definition set_machine (f : MachineTables -> MachineTables) (d : pgdb) : pgdb :=
  mk_pgdb (d_orders d) (d_vends d) (d_payments d) (d_attempts d) (d_refunds d) (d_events d)
    (d_outbox d) (d_cases d) (d_timeline d) (d_evidences d) (d_ledger d) (d_acceptances d)
    (d_allocations d) (d_changes d) (d_stock_events d) (d_slots d) (d_slot_cfgs d)
    (d_quotes d) (d_quote_lines d) (f (d_machine d)) (d_topo d).
Definition d_mutations (d : pgdb) : list MutationRow := mt_mutations (d_machine d).
Definition set_mutations (f : list MutationRow -> list MutationRow) : pgdb -> pgdb :=
  set_machine (fun t => mk_MachineTables (f (mt_mutations t)) (mt_gates t) (mt_cash t) (mt_operator t)).
Definition d_gates (d : pgdb) : list MachineGateRow := mt_gates (d_machine d).
Definition d_cash (d : pgdb) : CashTables := mt_cash (d_machine d).
Definition set_cash (f : CashTables -> CashTables) : pgdb -> pgdb :=
  set_machine (fun t => mk_MachineTables (mt_mutations t) (mt_gates t) (f (mt_cash t)) (mt_operator t)).
Definition d_operator (d : pgdb) : OperatorTables := mt_operator (d_machine d).
Definition set_operator (f : OperatorTables -> OperatorTables) : pgdb -> pgdb :=
  set_machine (fun t => mk_MachineTables (mt_mutations t) (mt_gates t) (mt_cash t) (f (mt_operator t))).

Definition d_payouts (d : pgdb) := ct_payouts (d_cash d).
Definition set_payouts (f : list PayoutRow -> list PayoutRow) : pgdb -> pgdb := set_cash (fun t =>
  mk_CashTables (f (ct_payouts t)) (ct_lifecycle t) (ct_observations t) (ct_adjustments t) (ct_collections t) (ct_recons t)).
Definition d_lifecycle (d : pgdb) := ct_lifecycle (d_cash d).
Definition set_lifecycle (f : list LifecycleRow -> list LifecycleRow) : pgdb -> pgdb := set_cash (fun t =>
  mk_CashTables (ct_payouts t) (f (ct_lifecycle t)) (ct_observations t) (ct_adjustments t) (ct_collections t) (ct_recons t)).
Definition d_observations (d : pgdb) := ct_observations (d_cash d).
Definition set_observations (f : list ObservationRow -> list ObservationRow) : pgdb -> pgdb := set_cash (fun t =>
  mk_CashTables (ct_payouts t) (ct_lifecycle t) (f (ct_observations t)) (ct_adjustments t) (ct_collections t) (ct_recons t)).
Definition d_adjustments (d : pgdb) := ct_adjustments (d_cash d).
Definition set_adjustments (f : list AdjustmentRow -> list AdjustmentRow) : pgdb -> pgdb := set_cash (fun t =>
  mk_CashTables (ct_payouts t) (ct_lifecycle t) (ct_observations t) (f (ct_adjustments t)) (ct_collections t) (ct_recons t)).
Definition d_collections (d : pgdb) := ct_collections (d_cash d).
Definition set_collections (f : list CollectionRow -> list CollectionRow) : pgdb -> pgdb := set_cash (fun t =>
  mk_CashTables (ct_payouts t) (ct_lifecycle t) (ct_observations t) (ct_adjustments t) (f (ct_collections t)) (ct_recons t)).
Definition d_recons (d : pgdb) := ct_recons (d_cash d).
Definition set_recons (f : list CashReconRow -> list CashReconRow) : pgdb -> pgdb := set_cash (fun t =>
  mk_CashTables (ct_payouts t) (ct_lifecycle t) (ct_observations t) (ct_adjustments t) (ct_collections t) (f (ct_recons t))).

Definition d_sessions (d : pgdb) := ot_sessions (d_operator d).
Definition set_sessions (f : list SessionRow -> list SessionRow) : pgdb -> pgdb :=
  set_operator (fun t => mk_OperatorTables (f (ot_sessions t)) (ot_auth_events t) (ot_attributions t)).
Definition d_auth_events (d : pgdb) := ot_auth_events (d_operator d).
Definition set_auth_events (f : list AuthEventRow -> list AuthEventRow) : pgdb -> pgdb :=
  set_operator (fun t => mk_OperatorTables (ot_sessions t) (f (ot_auth_events t)) (ot_attributions t)).
Definition d_attributions (d : pgdb) := ot_attributions (d_operator d).
Definition set_attributions (f : list AttributionRow -> list AttributionRow) : pgdb -> pgdb :=
  set_operator (fun t => mk_OperatorTables (ot_sessions t) (ot_auth_events t) (f (ot_attributions t))).

Definition empty_topology : Topology := mk_Topology [] [] [] None [].
Definition empty_db (t : Topology) : pgdb :=
  mk_pgdb [] [] [] [] [] [] [] [] [] [] [] [] [] [] [] [] [] [] [] no_machine_rows t.

(** ** The world *)

Inductive event := Calm | Fails | LostAck | Other (step : pgdb -> pgdb).
Inductive txstate := NoTx | InTx | Aborted.

Record world := mk_world {
  w_db : pgdb; w_tx : txstate; w_sched : list event; w_now : Z; w_next : N }.

Definition ErrNoRows : goerr := ESentinel "no rows in result set".
Definition ErrConn : goerr := ENew "unexpected EOF".
Definition ErrTxCommitRollback : goerr :=
  ESentinel "commit unexpectedly resulted in rollback".
Definition pg_in_failed_tx : goerr := EPg "25P02" "current transaction is aborted".
Definition pg_unique (c : string) : goerr := EPg "23505" c.
Definition pg_foreign_key (c : string) : goerr := EPg "23503" c.
Definition pg_check (c : string) : goerr := EPg "23514" c.

Definition next_event (s : list event) : event * list event :=
  match s with [] => (Calm, []) | e :: s => (e, s) end.
Definition failed_tx (t : txstate) : txstate :=
  match t with NoTx => NoTx | _ => Aborted end.

(** The effect of a statement on the tables: rows, or no row, or an error of
    the server. *)
Definition sql (A : Type) : Type := Z -> N -> pgdb -> res (option A * pgdb).

(** One statement.  [None] becomes [pgx.ErrNoRows], which is found by the
    client and does not abort a transaction. *)
Definition stmt {A} (f : sql A) : M world A := fun w =>
  match w_tx w with
  | Aborted => (Err pg_in_failed_tx, w)
  | tx =>
      let '(ev, s) := next_event (w_sched w) in
      let d := match ev, tx with Other g, NoTx => g (w_db w) | _, _ => w_db w end in
      let failed e := (Err e, mk_world d (failed_tx tx) s (w_now w) (w_next w)) in
      match ev with
      | Fails => failed ErrConn
      | _ =>
          match f (w_now w) (w_next w) d with
          | Err e => failed e
          | Ok (r, d') =>
              let w' := mk_world d' tx s (w_now w) (w_next w + 1)%N in
              match ev, tx with
              | LostAck, NoTx => (Err ErrConn, w')
              | LostAck, _ => failed ErrConn
              | _, _ => (match r with Some a => Ok a | None => Err ErrNoRows end, w')
              end
          end
      end
  end.

(** What the body of a transaction ends with: [tx.Commit], or a return that
    leaves the deferred [Rollback] to undo it. *)
Inductive tx_end (A : Type) := Commit (a : A) | Rollback (a : A).
Arguments Commit {A} a.
Arguments Rollback {A} a.

(** The body of a transaction that begins on the tables [d], then
    [tx.Commit] or the deferred [tx.Rollback]. *)
Definition run_tx {A} (body : M world (tx_end A)) (d : pgdb) (s : list event) (now : Z) (next : N)
    : res A * world :=
  let undo w' := mk_world d NoTx (w_sched w') (w_now w') (w_next w') in
  match body (mk_world d InTx s now next) with
  | (Err e, w') => (Err e, undo w')
  | (Ok (Rollback a), w') => (Ok a, undo w')
  | (Ok (Commit a), w') =>
      match w_tx w' with
      | InTx =>
          let '(ev, s') := next_event (w_sched w') in
          let w'' := mk_world (w_db w') NoTx s' (w_now w') (w_next w') in
          match ev with
          | Fails => (Err ErrConn, undo w'')
          | LostAck => (Err ErrConn, w'')
          | _ => (Ok a, w'')
          end
      | _ => (Err ErrTxCommitRollback, undo w')
      end
  end.

(** [pool.BeginTx] and the rest. *)
Definition with_tx {A} (body : M world (tx_end A)) : M world A := fun w =>
  let '(ev, s) := next_event (w_sched w) in
  match ev with
  | Fails | LostAck => (Err ErrConn, mk_world (w_db w) (w_tx w) s (w_now w) (w_next w))
  | Calm => run_tx body (w_db w) s (w_now w + 1) (w_next w)
  | Other g => run_tx body (g (w_db w)) s (w_now w + 1) (w_next w)
  end.

(** [SAVEPOINT] gives the state to return to. *)
Definition savepoint : M world pgdb := stmt (fun _ _ d => Ok (Some d, d)).
(** [ROLLBACK TO SAVEPOINT] is accepted in an aborted transaction. *)
Definition rollback_to (saved : pgdb) : M world unit := fun w =>
  let '(ev, s) := next_event (w_sched w) in
  match ev with
  | Fails | LostAck => (Err ErrConn, mk_world (w_db w) Aborted s (w_now w) (w_next w))
  | _ => (Ok tt, mk_world saved InTx s (w_now w) (w_next w))
  end.
Definition release_savepoint : M world unit := stmt (fun _ _ d => Ok (Some tt, d)).

(** [time.Now().UTC()] *)
Definition time_Now : M world Z := gets w_now.

(** ** Statement forms *)

(** A query for one row, and for many. *)
Definition select_one {A} (f : pgdb -> option A) : sql A := fun _ _ d => Ok (f d, d).
Definition select_many {A} (f : pgdb -> list A) : sql (list A) := fun _ _ d => Ok (Some (f d), d).

(** [INSERT ... RETURNING]: the row gets the generated key and the clock;
    the constraints are checked against the tables. *)
Definition insert_row {A} (set : (list A -> list A) -> pgdb -> pgdb)
    (check : A -> pgdb -> res unit) (row : Z -> N -> A) : sql A := fun now id d =>
  match check (row now id) d with
  | Ok _ => Ok (Some (row now id), set (fun l => l ++ [row now id]) d)
  | Err e => Err e
  end.

(** [UPDATE ... WHERE p RETURNING] for one row: the first of the updated
    rows. *)
Definition update_rows {A} (get : pgdb -> list A) (set : (list A -> list A) -> pgdb -> pgdb)
    (check : A -> pgdb -> res unit) (p : A -> bool) (f : Z -> A -> A) : sql A := fun now _ d =>
  match List.find p (get d) with
  | None => Ok (None, d)
  | Some r =>
      match check (f now r) d with
      | Ok _ => Ok (Some (f now r), set (update_where p (f now)) d)
      | Err e => Err e
      end
  end.

(** [ORDER BY at DESC LIMIT 1]; of rows with the same time, the last one
    inserted. *)
Fixpoint latest_from {A} (at_ : A -> Z) (best : option A) (l : list A) : option A :=
  match l with
  | [] => best
  | x :: l =>
      match best with
      | Some b => if at_ x <? at_ b then latest_from at_ best l else latest_from at_ (Some x) l
      | None => latest_from at_ (Some x) l
      end
  end.
Definition latest {A} (at_ : A -> Z) (l : list A) : option A := latest_from at_ None l.
(** [ORDER BY at ASC]. *)
Definition in_order {A} (at_ : A -> Z) (l : list A) : list A :=
  stable_sort (fun x y => at_ x <? at_ y) l.

Definition opt_eqb_N (a b : option N) : bool :=
  match a, b with Some a, Some b => N.eqb a b | None, None => true | _, _ => false end.
(** SQL's [=] on a nullable text column: [NULL] is equal to nothing. *)
Definition sql_text_eq (a b : option string) : bool :=
  match a, b with Some a, Some b => String.eqb a b | _, _ => false end.

(** [SAVEPOINT s], one statement, and [RELEASE SAVEPOINT s] or, ignoring its
    outcome, [ROLLBACK TO SAVEPOINT s]. *)
Definition with_savepoint {A} (m : M world A) : M world (res A) :=
  let! saved := savepoint in
  let! r := attempt m in
  match r with
  | Err e => attempt (rollback_to saved) ;;; ret (Err e)
  | Ok a => release_savepoint ;;; ret (Ok a)
  end.

(** ** Guarantees

    A relation between databases that every statement of a handler, and every
    step of the other clients, satisfies holds across the handler, whatever
    the schedule. *)
Section Guarantee.
Context (R : pgdb -> pgdb -> Prop) `{!PreOrder R}.

Definition polite (s : list event) : Prop := forall g d, Other g ∈ s -> R d (g d).
Definition world_rel (w w' : world) : Prop :=
  polite (w_sched w) -> polite (w_sched w') /\ R (w_db w) (w_db w').

#[export] Instance world_rel_preorder : PreOrder world_rel.
Proof.
  split.
  - intros w Hp. by split.
  - intros w1 w2 w3 H12 H23 Hp. destruct (H12 Hp) as [Hp2 HR]. destruct (H23 Hp2) as [Hp3 HR'].
    split; [done|]. by transitivity (w_db w2).
Qed.

Lemma polite_next s : polite s -> polite (next_event s).2.
Proof. intros Hp. destruct s as [|e s]; [done|]. intros g d Hg. apply Hp. cbn in *. set_solver. Qed.

Lemma polite_other s g d : polite s -> (next_event s).1 = Other g -> R d (g d).
Proof. intros Hp. destruct s as [|e s]; [done|]. intros [= ->]. apply Hp. set_solver. Qed.

(** What a statement starts from. *)
Lemma polite_seen s ev d :
  polite s -> (next_event s).1 = ev -> R d (match ev with Other g => g d | _ => d end).
Proof. intros Hp He. destruct ev; try reflexivity. by eapply polite_other. Qed.

Definition sql_guarantee {A} (f : sql A) : Prop :=
  forall now id d r d', f now id d = Ok (r, d') -> R d d'.

Lemma evolves_stmt {A} (f : sql A) : sql_guarantee f -> evolves world_rel (stmt f).
Proof.
  intros Hf w Hp. unfold stmt.
  destruct (w_tx w) eqn:Etx; [| |by split].
  all: pose proof (polite_next _ Hp) as Hn; pose proof (fun d => polite_seen _ _ d Hp eq_refl) as Hs;
    destruct (next_event (w_sched w)) as [ev s]; cbn [fst snd] in *;
    specialize (Hs (w_db w)).
  - set (d := match ev with Other g => g (w_db w) | _ => w_db w end) in *.
    assert (Hd : forall r d', f (w_now w) (w_next w) d = Ok (r, d') -> R (w_db w) d')
      by (intros; transitivity d; [done|by eapply Hf]).
    replace (match ev with Other g => g (w_db w) | _ => w_db w end) with d by done.
    destruct ev; cbn; try by split.
    all: destruct (f _ _ d) as [[r d']|e] eqn:E; cbn; split; try done; by eapply Hd.
  - assert (Hd : forall r d', f (w_now w) (w_next w) (w_db w) = Ok (r, d') -> R (w_db w) d')
      by (intros; by eapply Hf).
    destruct ev; cbn; try by split.
    all: destruct (f _ _ (w_db w)) as [[r d']|e] eqn:E; cbn; split; try done; by eapply Hd.
Qed.

Lemma run_tx_rel {A} (body : M world (tx_end A)) d s now next :
  evolves world_rel body -> polite s ->
  let w' := (run_tx body d s now next).2 in polite (w_sched w') /\ R d (w_db w').
Proof.
  intros Hb Hp. unfold run_tx.
  destruct (Hb (mk_world d InTx s now next) Hp) as [Hp' HR]. cbn in HR.
  destruct (body _) as [[[a|a]|e] w']; cbn in *; try by split.
  destruct (w_tx w'); cbn; try by split.
  pose proof (polite_next _ Hp') as Hn. destruct (next_event (w_sched w')) as [ev s']; cbn in *.
  destruct ev; cbn; by split.
Qed.

Lemma evolves_with_tx {A} (body : M world (tx_end A)) :
  evolves world_rel body -> evolves world_rel (with_tx body).
Proof.
  intros Hb w Hp. unfold with_tx.
  pose proof (polite_next _ Hp) as Hn. pose proof (fun d => polite_seen _ _ d Hp eq_refl) as Hs.
  destruct (next_event (w_sched w)) as [ev s]; cbn [fst snd] in *. specialize (Hs (w_db w)).
  destruct ev; cbn [snd]; try by split.
  - by apply run_tx_rel.
  - destruct (run_tx_rel body (step (w_db w)) s (w_now w + 1) (w_next w) Hb Hn) as [? ?].
    split; [done|]. by transitivity (step (w_db w)).
Qed.

Lemma savepoint_spec w :
  match savepoint w with
  | (Ok saved, w1) => world_rel w w1 /\ w_db w1 = saved
  | (Err _, w1) => world_rel w w1
  end.
Proof.
  pose proof (evolves_stmt (fun _ _ d => Ok (Some d, d)) ltac:(by intros ? ? ? ? ? [= <- <-]) w)
    as Hs.
  unfold savepoint in *. destruct (stmt _ w) as [[saved|e] w1] eqn:E; [|done].
  split; [exact Hs|]. revert E. unfold stmt. destruct (w_tx w); try done.
  all: destruct (next_event _) as [ev s]; destruct ev; intros [= <- <-]; done.
Qed.

Lemma evolves_rollback_to saved w w0 :
  world_rel w0 w -> w_db w0 = saved -> world_rel w0 (rollback_to saved w).2.
Proof.
  intros H Hs Hp. destruct (H Hp) as [Hp' HR]. unfold rollback_to.
  pose proof (polite_next _ Hp') as Hn. destruct (next_event (w_sched w)) as [ev s].
  destruct ev; cbn in *; subst saved; by split.
Qed.

Lemma evolves_release : evolves world_rel release_savepoint.
Proof. apply evolves_stmt. by intros ? ? ? ? ? [= <- <-]. Qed.

Lemma evolves_with_savepoint {A} (m : M world A) :
  evolves world_rel m -> evolves world_rel (with_savepoint m).
Proof.
  intros Hm w. unfold with_savepoint. pose proof (savepoint_spec w) as Hsave.
  unfold bind at 1. destruct (savepoint w) as [[saved|e] w1]; [|exact Hsave].
  destruct Hsave as [H1 Hsaved]. transitivity w1; [done|].
  unfold bind at 1, attempt at 1. pose proof (Hm w1) as H2.
  destruct (m w1) as [[a|e] w2]; cbn [snd] in H2.
  - transitivity w2; [done|]. unfold bind. pose proof (evolves_release w2) as Hr.
    by destruct (release_savepoint w2) as [[[]|e] w3].
  - pose proof (evolves_rollback_to saved w2 w1 H2 Hsaved) as Hr.
    unfold bind, attempt. by destruct (rollback_to saved w2) as [[[]|e'] w3].
Qed.
End Guarantee.

#[export] Hint Resolve evolves_with_tx evolves_with_savepoint : evolves.
