(* ===== verification/Queries.v ===== *)
(** * The statements of the commerce store

    The sqlc statements (db/queries/) the store sends, one definition per
    query, over the tables of Db.  A row is checked against the constraints
    of migrations/ that concern the columns modelled: primary keys, unique
    indexes, foreign keys between the modelled tables, and CHECKs. *)

From S2P Require Import Prelude.
From S2P Require Import GoStd.
From S2P Require Import Pricing.
From S2P Require Import CommerceTypes.
From S2P Require Import Evidence.
From S2P Require Import Rules.
From S2P Require Import Db.
Local Open Scope string_scope.
Local Open Scope list_scope.
Local Open Scope Z_scope.

(** ** Constraints *)

(** [key IS NOT NULL AND btrim(key) <> ''] *)
Definition keyed (k : option string) : bool :=
  match k with Some s => negb (blank (TrimSpace s)) | None => false end.
Definition has_id {A} (id : A -> N) (i : N) (l : list A) : bool := existsb (fun x => id x =u i) l.
Definition fk {A} (id : A -> N) (i : N) (l : list A) (c : string) : res unit :=
  guard_err (negb (has_id id i l)) (pg_foreign_key c).
Definition fk_opt {A} (id : A -> N) (i : option N) (l : list A) (c : string) : res unit :=
  match i with Some i => fk id i l c | None => Ok tt end.
Definition char3 (s : string) : res unit :=
  guard_err (3 <? len s) (EPg "22001" "value too long for type character(3)").
Definition check (b : bool) (c : string) : res unit := guard_err (negb b) (pg_check c).
Definition unique {A} (same : A -> bool) (l : list A) (c : string) : res unit :=
  guard_err (existsb same l) (pg_unique c).

Definition orderStatuses : list string :=
  ["created"; "quoted"; "paid"; "vending"; "completed"; "partially_completed"; "failed";
   "cancelled"; "unknown"].
Definition paymentOutcomes : list string :=
  ["pending"; "winner"; "superseded"; "refund_required"; "refunded"].
Definition ledgerEntryTypes : list string :=
  ["order_created"; "payment_authorized"; "payment_captured"; "payment_failed"; "refund_issued";
   "cash_inserted"; "change_dispensed"; "cash_collected"; "variance_recorded"; "adjustment";
   "other"; "cash_accepted"; "cash_allocated"; "change_due"; "change_liability";
   "capture_superseded"].
Definition caseTypes : list string :=
  ["payment_paid_vend_not_started"; "payment_paid_vend_failed"; "vend_started_no_terminal_ack";
   "refund_pending_too_long"; "webhook_provider_mismatch"; "duplicate_provider_event";
   "duplicate_payment"; "webhook_amount_currency_mismatch"; "webhook_after_terminal_order";
   "settlement_amount_mismatch"; "duplicate_payment_ambiguous_winner";
   "late_capture_refund_required"; "legacy_cash_confirm_unknown_consent"; "cash_gross_mismatch";
   "change_liability_unresolved"; "unclaimed_capture"; "cash_payout_ambiguous"].

Definition order_row_ok (o : Order) (d : pgdb) : res unit :=
  let? _ := fk id (o_MachineID o) (tp_Machines (d_topo d)) "orders_machine_id_fkey" in
  let? _ := check (one_of (o_Status o) orderStatuses) "orders_status_check" in
  let? _ := check ((0 <=? o_SubtotalMinor o) && (0 <=? o_TaxMinor o) && (0 <=? o_TotalMinor o))
              "orders_amounts_check" in
  let? _ := check (one_of (o_PricingSource o) supportedPricingSources) "orders_pricing_source_check" in
  char3 (o_Currency o).
Definition order_insert_ok (o : Order) (d : pgdb) : res unit :=
  let? _ := order_row_ok o d in
  let? _ := unique (fun x => o_ID x =u o_ID o) (d_orders d) "orders_pkey" in
  unique (fun x => keyed (o_IdempotencyKey o) &&
                   sql_text_eq (o_IdempotencyKey x) (o_IdempotencyKey o))
    (d_orders d) "uniq_orders_idempotency".
(** [ux_orders_winning_payment_id]. *)
Definition order_update_ok (o : Order) (d : pgdb) : res unit :=
  let? _ := check (one_of (o_Status o) orderStatuses) "orders_status_check" in
  let? _ := fk_opt p_ID (o_WinningPaymentID o) (d_payments d) "orders_winning_payment_id_fkey" in
  unique (fun x => negb (o_ID x =u o_ID o) && negb (is_none (o_WinningPaymentID o)) &&
                   opt_eqb_N (o_WinningPaymentID x) (o_WinningPaymentID o))
    (d_orders d) "ux_orders_winning_payment_id".

Definition vend_insert_ok (v : VendRow) (d : pgdb) : res unit :=
  let s := vr_Session v in
  let? _ := fk o_ID (v_OrderID s) (d_orders d) "vend_sessions_order_id_fkey" in
  let? _ := check (one_of (v_State s) vendStates) "vend_sessions_state_check" in
  let? _ := unique (fun x => v_ID (vr_Session x) =u v_ID s) (d_vends d) "vend_sessions_pkey" in
  unique (fun x => (v_OrderID (vr_Session x) =u v_OrderID s) &&
                   (vr_LineSequence x =? vr_LineSequence v))
    (d_vends d) "ux_vend_sessions_order_line_seq".
Definition vend_update_ok (v : VendRow) (d : pgdb) : res unit :=
  let? _ := check (one_of (v_State (vr_Session v)) vendStates) "vend_sessions_state_check" in
  check (one_of (vr_VerificationStatus v) ["unverified"; "verified"; "hardware_unverified"])
    "chk_vend_sessions_verification_status".

Definition payment_update_ok (p : Payment) (d : pgdb) : res unit :=
  let? _ := check (one_of (p_State p) paymentStates) "payments_state_check" in
  check (one_of (p_Outcome p) paymentOutcomes) "payments_outcome_check".
Definition payment_insert_ok (p : Payment) (d : pgdb) : res unit :=
  let? _ := fk o_ID (p_OrderID p) (d_orders d) "payments_order_id_fkey" in
  let? _ := payment_update_ok p d in
  let? _ := check (0 <=? p_AmountMinor p) "payments_amount_minor_check" in
  let? _ := check (1 <=? p_AttemptSeq p) "payments_attempt_seq_check" in
  let? _ := char3 (p_Currency p) in
  let? _ := unique (fun x => p_ID x =u p_ID p) (d_payments d) "payments_pkey" in
  unique (fun x => keyed (p_IdempotencyKey p) && (p_OrderID x =u p_OrderID p) &&
                   sql_text_eq (p_IdempotencyKey x) (p_IdempotencyKey p))
    (d_payments d) "ux_payments_order_idempotency".

Definition refund_insert_ok (r : RefundRowView) (d : pgdb) : res unit :=
  let? _ := fk p_ID (rf_PaymentID r) (d_payments d) "refunds_payment_id_fkey" in
  let? _ := fk o_ID (rf_OrderID r) (d_orders d) "refunds_order_id_fkey" in
  let? _ := check (0 <=? rf_AmountMinor r) "refunds_amount_minor_check" in
  let? _ := check (one_of (rf_State r) ["requested"; "processing"; "completed"; "failed"])
              "refunds_state_check" in
  let? _ := char3 (rf_Currency r) in
  unique (fun x => keyed (rf_IdempotencyKey r) && (rf_OrderID x =u rf_OrderID r) &&
                   sql_text_eq (rf_IdempotencyKey x) (rf_IdempotencyKey r))
    (d_refunds d) "ux_refunds_order_idempotency".

Definition event_insert_ok (e : ProviderEvent) (d : pgdb) : res unit :=
  let? _ := fk_opt p_ID (pe_PaymentID e) (d_payments d) "payment_provider_events_payment_id_fkey" in
  let? _ := check (one_of (pe_ValidationStatus e)
                     ["hmac_verified"; "unsigned_development"; "invalid_signature";
                      "provider_native_verified"])
              "chk_payment_provider_events_validation_status" in
  let? _ := match pe_Currency e with Some c => char3 c | None => Ok tt end in
  let? _ := unique (fun x => keyed (pe_ProviderRef e) && String.eqb (pe_Provider x) (pe_Provider e) &&
                             sql_text_eq (pe_ProviderRef x) (pe_ProviderRef e))
              (d_events d) "ux_payment_provider_events_provider_ref" in
  unique (fun x => keyed (pe_WebhookEventID e) && String.eqb (pe_Provider x) (pe_Provider e) &&
                   sql_text_eq (pe_WebhookEventID x) (pe_WebhookEventID e))
    (d_events d) "ux_payment_provider_events_provider_webhook_event".

Definition same_outbox (topic : string) (key : option string) (x : OutboxEvent) : bool :=
  keyed key && String.eqb (ob_Topic x) topic && sql_text_eq (ob_IdempotencyKey x) key.
Definition outbox_insert_ok (o : OutboxEvent) (d : pgdb) : res unit :=
  unique (same_outbox (ob_Topic o) (ob_IdempotencyKey o)) (d_outbox d) "ux_outbox_topic_idempotency".

Definition no_check {A} (_ : A) (_ : pgdb) : res unit := Ok tt.

(** ** Row updates *)

Definition order_with (o : Order) (status : string) (winner : option N) (claimed : option Z)
    (updated : Z) : Order :=
  mk_Order (o_ID o) (o_MachineID o) status (o_Currency o) (o_SubtotalMinor o) (o_TaxMinor o)
    (o_TotalMinor o) (o_IdempotencyKey o) (o_Simulated o) (o_SimulationRunID o)
    (o_SimulationScenario o) (o_FakeBill o) (o_FakeBoard o) winner claimed (o_PricingSource o)
    (o_MachinePricingRevision o) (o_MachinePricingSnapshot o) (o_ServerReferenceTotalMinor o)
    (o_CreatedAt o) updated.
Definition payment_with (p : Payment) (state outcome : string) : Payment :=
  mk_Payment (p_ID p) (p_OrderID p) (p_Provider p) state (p_AmountMinor p) (p_Currency p)
    (p_IdempotencyKey p) (p_ReconciliationStatus p) (p_SettlementStatus p)
    (p_SettlementBatchID p) (p_Simulated p) (p_SimulationRunID p) (p_SimulationScenario p)
    (p_FakeBill p) (p_FakeBoard p) outcome (p_AttemptSeq p) (p_SupersedesPaymentID p)
    (p_CreatedAt p).
Definition session_with (s : VendSession) (state : string) : VendSession :=
  mk_VendSession (v_ID s) (v_OrderID s) (v_MachineID s) (v_SlotIndex s) (v_ProductID s) state
    (v_FinalCommandAttemptID s) (v_Simulated s) (v_SimulationRunID s) (v_SimulationScenario s)
    (v_CreatedAt s).

(** ** Orders *)

Definition GetOrderByID (id : N) : M world Order :=
  stmt (select_one (fun d => List.find (fun o => o_ID o =u id) (d_orders d))).
Definition LockOrderByIDAndOrgForUpdate := GetOrderByID.
Definition LockOrderForPaymentAttempt (id : N) : M world N :=
  stmt (select_one (fun d => option_map o_ID (List.find (fun o => o_ID o =u id) (d_orders d)))).
Definition GetOrderByMachineAndIdempotencyKey (machine : N) (key : option string) : M world Order :=
  stmt (select_one (fun d => List.find (fun o =>
    (o_MachineID o =u machine) && sql_text_eq (o_IdempotencyKey o) key) (d_orders d))).
Definition UpdateOrderStatusByOrg (status : string) (id : N) : M world Order :=
  stmt (update_rows d_orders set_orders order_update_ok (fun o => o_ID o =u id)
    (fun now o => order_with o status (o_WinningPaymentID o) (o_WinningClaimedAt o) now)).
Definition ClaimWinningPaymentQ (winner order : N) : M world Order :=
  stmt (update_rows d_orders set_orders order_update_ok
    (fun o => (o_ID o =u order) && is_none (o_WinningPaymentID o))
    (fun now o => order_with o
       (if one_of (o_Status o) ["created"; "quoted"] then "paid" else o_Status o)
       (Some winner) (Some now) now)).
Definition InsertOrder (id : option N) (row : Z -> N -> Order) : M world Order :=
  stmt (insert_row set_orders order_insert_ok (fun now fresh => row now (default fresh id))).

(** ** Vend sessions *)

Definition by_slot (order : N) (slot : Z) (v : VendRow) : bool :=
  (v_OrderID (vr_Session v) =u order) && (v_SlotIndex (vr_Session v) =? slot).
Definition by_line (order : N) (line : Z) (v : VendRow) : bool :=
  (v_OrderID (vr_Session v) =u order) && (vr_LineSequence v =? line).
Definition by_order (order : N) (v : VendRow) : bool := v_OrderID (vr_Session v) =u order.

Definition GetVendSessionByOrderAndSlotQ (order : N) (slot : Z) : M world VendRow :=
  stmt (select_one (fun d => List.find (by_slot order slot) (d_vends d))).
Definition GetVendSessionByOrderAndLineSequenceQ (order : N) (line : Z) : M world VendRow :=
  stmt (select_one (fun d => List.find (by_line order line) (d_vends d))).
Definition LockVendSessionByOrderAndSlotForUpdate := GetVendSessionByOrderAndSlotQ.
Definition LockVendSessionByOrderAndLineSequenceForUpdate := GetVendSessionByOrderAndLineSequenceQ.
Definition ListVendSessionsByOrder (order : N) : M world (list VendRow) :=
  stmt (select_many (fun d => in_order vr_LineSequence (List.filter (by_order order) (d_vends d)))).
Definition GetFirstVendSessionByOrder (order : N) : M world VendRow :=
  stmt (select_one (fun d => head
    (in_order (fun v => v_CreatedAt (vr_Session v)) (List.filter (by_order order) (d_vends d))))).
Definition InsertVendSession (order machine product : N) (slot : Z) (state : string)
    (simulated : bool) (run scenario : option string) : M world VendRow :=
  stmt (insert_row set_vends vend_insert_ok (fun now id =>
    mk_VendRow (mk_VendSession id order machine slot product state None simulated run scenario now)
      1 None None None "unverified" None)).
Definition vend_moved (state : string) (reason : option string) (now : Z) (v : VendRow) : VendRow :=
  mk_VendRow (session_with (vr_Session v) state) (vr_LineSequence v) reason
    (if String.eqb state "in_progress" && is_none (vr_StartedAt v) then Some now else vr_StartedAt v)
    (if one_of state ["success"; "failed"] then Some now else vr_CompletedAt v)
    (vr_VerificationStatus v) (vr_CorrelationID v).
Definition UpdateVendSessionStateByOrderLineSequence (state : string) (reason : option string)
    (order : N) (line : Z) : M world VendRow :=
  stmt (update_rows d_vends set_vends vend_update_ok (by_line order line) (vend_moved state reason)).
Definition UpdateVendSessionStateByOrderSlot (state : string) (reason : option string)
    (order : N) (slot : Z) : M world VendRow :=
  stmt (update_rows d_vends set_vends vend_update_ok (by_slot order slot) (vend_moved state reason)).
Definition vend_verified (status : string) (_ : Z) (v : VendRow) : VendRow :=
  mk_VendRow (vr_Session v) (vr_LineSequence v) (vr_FailureReason v) (vr_StartedAt v)
    (vr_CompletedAt v) status (vr_CorrelationID v).
Definition SetVendSessionVerificationStatusByLineSequence (status : string) (order : N) (line : Z)
    : M world VendRow :=
  stmt (update_rows d_vends set_vends vend_update_ok (by_line order line) (vend_verified status)).
Definition SetVendSessionVerificationStatus (status : string) (order : N) (slot : Z)
    : M world VendRow :=
  stmt (update_rows d_vends set_vends vend_update_ok (by_slot order slot) (vend_verified status)).

(** One vend session per unit of a quote: [InsertVendSession] with a line. *)
Definition InsertVendSessionWithLineSequence (order machine product : N) (slot : Z) (state : string)
    (simulated : bool) (run scenario : option string) (line : Z) : M world VendRow :=
  stmt (insert_row set_vends vend_insert_ok (fun now id =>
    mk_VendRow (mk_VendSession id order machine slot product state None simulated run scenario now)
      line None None None "unverified" None)).

(** ** Quotes *)

Definition quoteStates : list string := ["active"; "consumed"; "expired"].
Definition quote_insert_ok (q : QuoteRow) (d : pgdb) : res unit :=
  let? _ := fk id (qt_MachineID q) (tp_Machines (d_topo d)) "checkout_quotes_machine_id_fkey" in
  let? _ := check (one_of (qt_State q) quoteStates) "checkout_quotes_state_check" in
  let? _ := check (one_of (qt_PricingSource q) supportedPricingSources) "checkout_quotes_pricing_source_check" in
  let? _ := unique (fun x => qt_ID x =u qt_ID q) (d_quotes d) "checkout_quotes_pkey" in
  unique (fun x => keyed (qt_IdempotencyKey q) && (qt_MachineID x =u qt_MachineID q) &&
                   sql_text_eq (qt_IdempotencyKey x) (qt_IdempotencyKey q))
    (d_quotes d) "ux_checkout_quotes_machine_idempotency".
Definition quote_line_insert_ok (l : QuoteLineRow) (d : pgdb) : res unit :=
  let? _ := fk qt_ID (ql_QuoteID l) (d_quotes d) "checkout_quote_lines_quote_id_fkey" in
  let? _ := check (0 <? ql_Quantity l) "checkout_quote_lines_quantity_check" in
  unique (fun x => (ql_QuoteID x =u ql_QuoteID l) && (ql_LineSequence x =? ql_LineSequence l))
    (d_quote_lines d) "ux_checkout_quote_lines_quote_seq".
Definition quote_with (state : string) (q : QuoteRow) : QuoteRow :=
  mk_QuoteRow (qt_ID q) (qt_MachineID q) (qt_Currency q) (qt_PaymentMethod q) (qt_SubtotalMinor q)
    (qt_DiscountMinor q) (qt_PayableMinor q) state (qt_IdempotencyKey q) (qt_ExpiresAt q)
    (qt_PricingSource q) (qt_MachinePricingRevision q) (qt_MachinePricingSnapshot q)
    (qt_ServerReferencePayableMinor q) (qt_CreatedAt q).
Definition InsertCheckoutQuote (row : Z -> N -> QuoteRow) : M world QuoteRow :=
  stmt (insert_row set_quotes quote_insert_ok row).
Definition InsertCheckoutQuoteLine (row : Z -> N -> QuoteLineRow) : M world QuoteLineRow :=
  stmt (insert_row set_quote_lines quote_line_insert_ok row).
Definition GetCheckoutQuoteByID (id : N) : M world QuoteRow :=
  stmt (select_one (fun d => List.find (fun q => qt_ID q =u id) (d_quotes d))).
Definition GetCheckoutQuoteByMachineAndIdempotencyKey (machine : N) (key : option string)
    : M world QuoteRow :=
  stmt (select_one (fun d => List.find (fun q =>
    (qt_MachineID q =u machine) && sql_text_eq (qt_IdempotencyKey q) key) (d_quotes d))).
Definition active_quote (id : N) (q : QuoteRow) : bool := (qt_ID q =u id) && String.eqb (qt_State q) "active".
Definition MarkCheckoutQuoteConsumed (id : N) : M world QuoteRow :=
  stmt (update_rows d_quotes set_quotes no_check (active_quote id) (fun _ => quote_with "consumed")).
Definition quote_lines_of (id : N) (d : pgdb) : list QuoteLineRow :=
  in_order ql_LineSequence (List.filter (fun l => ql_QuoteID l =u id) (d_quote_lines d)).
Definition ListCheckoutQuoteLines (id : N) : M world (list QuoteLineRow) :=
  stmt (select_many (quote_lines_of id)).

(** ** Payments *)

Definition payments_of (order : N) (d : pgdb) : list Payment :=
  List.filter (fun p => p_OrderID p =u order) (d_payments d).
Definition GetPaymentByIDQ (id : N) : M world Payment :=
  stmt (select_one (fun d => List.find (fun p => p_ID p =u id) (d_payments d))).
Definition GetPaymentByOrderAndIdempotencyKey (order : N) (key : option string) : M world Payment :=
  stmt (select_one (fun d =>
    List.find (fun p => sql_text_eq (p_IdempotencyKey p) key) (payments_of order d))).
Definition GetLatestPaymentForOrderQ (order : N) : M world Payment :=
  stmt (select_one (fun d => latest p_CreatedAt (payments_of order d))).
Definition open_state (p : Payment) : bool := one_of (p_State p) ["created"; "authorized"].
Definition GetLatestNonCapturedPaymentForOrderQ (order : N) : M world Payment :=
  stmt (select_one (fun d => latest p_CreatedAt (List.filter open_state (payments_of order d)))).
Definition ListPaymentsForOrderQ (order : N) : M world (list Payment) :=
  stmt (select_many (fun d => in_order p_CreatedAt (payments_of order d))).
Definition winner_of (order : N) (d : pgdb) : option Payment :=
  o ← List.find (fun o => o_ID o =u order) (d_orders d);
  w ← o_WinningPaymentID o;
  List.find (fun p => p_ID p =u w) (d_payments d).
Definition GetWinningPaymentForOrderQ (order : N) : M world Payment :=
  stmt (select_one (winner_of order)).
(** [COALESCE(MAX(attempt_seq), 0)::int + 1] *)
Definition next_attempt_seq (order : N) (d : pgdb) : Z :=
  foldr (fun p m => Z.max (p_AttemptSeq p) m) 0 (payments_of order d) + 1.
Definition NextPaymentAttemptSeqForOrder (order : N) : M world Z :=
  stmt (fun _ _ d =>
    if MaxInt32 <? next_attempt_seq order d then Err (EPg "22003" "integer out of range")
    else Ok (Some (next_attempt_seq order d), d)).
Definition InsertPayment (row : Z -> N -> Payment) : M world Payment :=
  stmt (insert_row set_payments payment_insert_ok row).
Definition update_payment (p : Payment -> bool) (f : Payment -> Payment) : M world Payment :=
  stmt (update_rows d_payments set_payments payment_update_ok p (fun _ => f)).
Definition UpdatePaymentState (id : N) (state : string) : M world Payment :=
  update_payment (fun p => p_ID p =u id) (fun p => payment_with p state (p_Outcome p)).
Definition ForceUpdatePaymentStateCaptured (id : N) : M world Payment :=
  UpdatePaymentState id "captured".
Definition UpdatePaymentStateForReconciliation (state : string) (id : N) : M world Payment :=
  update_payment (fun p => (p_ID p =u id) && open_state p)
    (fun p => payment_with p state (p_Outcome p)).
Definition UpdatePaymentOutcomeQ (id : N) (outcome : string) : M world Payment :=
  update_payment (fun p => p_ID p =u id) (fun p => payment_with p (p_State p) outcome).
Definition CancelPaymentByIDQ (id : N) : M world Payment :=
  update_payment (fun p => (p_ID p =u id) && open_state p)
    (fun p => payment_with p "canceled"
       (if String.eqb (p_Outcome p) "winner" then p_Outcome p
        else if String.eqb (p_Outcome p) "pending" then "superseded" else p_Outcome p)).

Definition InsertPaymentAttemptQ (payment : N) (reference : option string) (state : string)
    (payload : json) : M world AttemptRow :=
  stmt (insert_row set_attempts
    (fun a d => fk p_ID (at_PaymentID a) (d_payments d) "payment_attempts_payment_id_fkey")
    (fun now id => mk_AttemptRow id payment reference state payload now)).
Definition attempts_of (payment : N) (d : pgdb) : list AttemptRow :=
  List.filter (fun a => at_PaymentID a =u payment) (d_attempts d).
Definition GetLatestPaymentAttemptPayloadQ (payment : N) : M world json :=
  stmt (select_one (fun d => option_map at_Payload (latest at_CreatedAt (attempts_of payment d)))).
Definition GetLatestPaymentAttemptProviderReferenceQ (payment : N) : M world (option string) :=
  stmt (select_one (fun d => option_map at_ProviderReference
    (latest at_CreatedAt (List.filter (fun a => keyed (at_ProviderReference a))
                            (attempts_of payment d))))).

(** ** Refunds *)

Definition InsertRefundRowQ (row : Z -> N -> RefundRowView) : M world RefundRowView :=
  stmt (insert_row set_refunds refund_insert_ok row).
Definition ListRefundsForOrderQ (order : N) : M world (list RefundRowView) :=
  stmt (select_many (fun d => in_order rf_CreatedAt
    (List.filter (fun r => rf_OrderID r =u order) (d_refunds d)))).
Definition GetRefundByIDForOrderQ (order id : N) : M world RefundRowView :=
  stmt (select_one (fun d =>
    List.find (fun r => (rf_ID r =u id) && (rf_OrderID r =u order)) (d_refunds d))).
Definition GetRefundByOrderIdempotencyQ (order : N) (key : option string) : M world RefundRowView :=
  stmt (select_one (fun d => List.find (fun r =>
    (rf_OrderID r =u order) && sql_text_eq (rf_IdempotencyKey r) key) (d_refunds d))).
(** The refunds counted against a payment, and their sum. *)
Definition counted (payment : N) (r : RefundRowView) : bool :=
  (rf_PaymentID r =u payment) && negb (String.eqb (rf_State r) "failed").
Definition refunded_minor (payment : N) (d : pgdb) : Z :=
  foldr Z.add 0 (map rf_AmountMinor (List.filter (counted payment) (d_refunds d))).
Definition SumNonFailedRefundAmountForPaymentQ (payment : N) : M world Z :=
  stmt (fun _ _ d =>
    if MaxInt64 <? refunded_minor payment d then Err (EPg "22003" "bigint out of range")
    else Ok (Some (refunded_minor payment d), d)).

(** ** Provider events and the outbox *)

Definition GetPaymentProviderEventByProviderRef (provider : string) (ref : option string)
    : M world ProviderEvent :=
  stmt (select_one (fun d => List.find (fun e =>
    String.eqb (pe_Provider e) provider && sql_text_eq (pe_ProviderRef e) ref) (d_events d))).
Definition GetPaymentProviderEventByWebhookEventID (provider : string) (id : option string)
    : M world ProviderEvent :=
  stmt (select_one (fun d => List.find (fun e =>
    String.eqb (pe_Provider e) provider && sql_text_eq (pe_WebhookEventID e) id) (d_events d))).
Definition InsertPaymentProviderEvent (row : Z -> N -> ProviderEvent) : M world ProviderEvent :=
  stmt (insert_row set_events event_insert_ok row).

(** [ON CONFLICT ... DO NOTHING RETURNING]: no row when one is there. *)
Definition insert_or_nothing {A} (get : pgdb -> list A) (set : (list A -> list A) -> pgdb -> pgdb)
    (same : A -> bool) (check : A -> pgdb -> res unit) (row : Z -> N -> A) : sql A :=
  fun now id d =>
    if existsb same (get d) then Ok (None, d) else insert_row set check row now id d.
(** [INSERT ... ON CONFLICT (key) DO NOTHING RETURNING]: types and CHECK
    constraints of the row come first, then the conflict, then the other
    unique indexes and the references. *)
Definition insert_once {A} (get : pgdb -> list A) (set : (list A -> list A) -> pgdb -> pgdb)
    (valid : A -> res unit) (same : A -> bool) (refs : A -> pgdb -> res unit) (row : Z -> N -> A) : sql A :=
  fun now id d =>
    match valid (row now id) with
    | Err e => Err e
    | Ok _ => insert_or_nothing get set same refs row now id d
    end.
(** [ON CONFLICT ... DO UPDATE] that writes nothing new: the row that is
    there. *)
Definition insert_or_get {A} (get : pgdb -> list A) (set : (list A -> list A) -> pgdb -> pgdb)
    (same : A -> bool) (check : A -> pgdb -> res unit) (row : Z -> N -> A) : sql A :=
  fun now id d =>
    match List.find same (get d) with
    | Some r => Ok (Some r, d)
    | None => insert_row set check row now id d
    end.

Record OutboxParams := mk_OutboxParams {
  op_Topic : string; op_EventType : string; op_Payload : json; op_AggregateType : string;
  op_AggregateID : N; op_IdempotencyKey : option string; op_Simulated : bool;
  op_SimulationRunID : option string; op_SimulationScenario : option string }.
Definition outbox_row (p : OutboxParams) (now : Z) (id : N) : OutboxEvent :=
  mk_OutboxEvent id (op_Topic p) (op_EventType p) (op_Payload p) (op_AggregateType p)
    (op_AggregateID p) (op_IdempotencyKey p) now None 0 None None None None "pending" None None
    (op_Simulated p) (op_SimulationRunID p) (op_SimulationScenario p) now 24.
Definition InsertOutboxEvent (p : OutboxParams) : M world OutboxEvent :=
  stmt (insert_row set_outbox outbox_insert_ok (outbox_row p)).
Definition InsertOutboxEventIdempotent (p : OutboxParams) : M world OutboxEvent :=
  stmt (insert_or_nothing d_outbox set_outbox (same_outbox (op_Topic p) (op_IdempotencyKey p))
    no_check (outbox_row p)).
Definition GetOutboxByTopicAndIdempotency (topic : string) (key : option string)
    : M world OutboxEvent :=
  stmt (select_one (fun d => List.find (fun x =>
    String.eqb (ob_Topic x) topic && sql_text_eq (ob_IdempotencyKey x) key) (d_outbox d))).
Definition GetOutboxEventByTopicIdempotencyKey := GetOutboxByTopicAndIdempotency.

(** ** Reconciliation cases *)

Definition case_open (c : ReconciliationCase) : bool :=
  one_of (rc_Status c) ["open"; "reviewing"; "escalated"].
(** The conflict target of the upsert. *)
Definition same_case (c x : ReconciliationCase) : bool :=
  case_open x && String.eqb (rc_CaseType x) (rc_CaseType c) &&
  opt_eqb_N (rc_OrderID x) (rc_OrderID c) && opt_eqb_N (rc_PaymentID x) (rc_PaymentID c) &&
  opt_eqb_N (rc_VendSessionID x) (rc_VendSessionID c) && opt_eqb_N (rc_RefundID x) (rc_RefundID c) &&
  opt_eqb_N (rc_ProviderEventID x) (rc_ProviderEventID c) &&
  String.eqb (rc_CorrelationKey x) (rc_CorrelationKey c).
Definition opt_or {A} (a b : option A) : option A := match a with Some _ => a | None => b end.
Definition case_refreshed (c : ReconciliationCase) (now : Z) (x : ReconciliationCase)
    : ReconciliationCase :=
  mk_ReconciliationCase (rc_ID x) (rc_CaseType x) (rc_Status x) (rc_Severity c) (rc_OrderID x)
    (rc_PaymentID x) (rc_VendSessionID x) (rc_RefundID x) (opt_or (rc_MachineID c) (rc_MachineID x))
    (opt_or (rc_Provider c) (rc_Provider x)) (rc_ProviderEventID x) (rc_CorrelationKey x)
    (rc_Reason c) (rc_Metadata c) (rc_FirstDetectedAt x) now.
Definition UpsertCommerceReconciliationCase (i : ReconciliationCaseInput)
    : M world ReconciliationCase :=
  stmt (fun now id d =>
    let c := mk_ReconciliationCase id (rci_CaseType i) "open" (rci_Severity i) (rci_OrderID i)
               (rci_PaymentID i) (rci_VendSessionID i) (rci_RefundID i) (rci_MachineID i)
               (rci_Provider i) (rci_ProviderEventID i) (rci_CorrelationKey i) (rci_Reason i)
               (rci_Metadata i) now now in
    if negb (one_of (rci_CaseType i) caseTypes)
    then Err (pg_check "commerce_reconciliation_cases_case_type_check")
    else match List.find (same_case c) (d_cases d) with
         | Some x => Ok (Some (case_refreshed c now x),
                         set_cases (update_where (same_case c) (case_refreshed c now)) d)
         | None => Ok (Some c, set_cases (fun l => l ++ [c]) d)
         end).

(** ** Evidence, timelines and the ledger *)

Definition InsertOrderTimelineEvent (order : N) (etype : string) (payload : json) (at_ : Z)
    : M world TimelineRow :=
  stmt (insert_row set_timeline
    (fun t d => fk o_ID (tl_OrderID t) (d_orders d) "order_timelines_order_id_fkey")
    (fun _ id => mk_TimelineRow id order etype "system" payload at_)).
Definition InsertVendHardwareEvidence (dedupe : string) (row : Z -> N -> EvidenceRow)
    : M world EvidenceRow :=
  stmt (insert_or_nothing d_evidences set_evidences (fun e => String.eqb (er_DedupeKey e) dedupe)
    (fun e d => fk o_ID (er_OrderID e) (d_orders d) "vend_hardware_evidence_order_id_fkey") row).
Definition InsertFinancialLedgerEntry (row : Z -> N -> LedgerRow) : M world LedgerRow :=
  stmt (insert_row set_ledger (fun l d =>
    let? _ := fk_opt o_ID (lr_OrderID l) (d_orders d) "financial_ledger_entries_order_id_fkey" in
    let? _ := fk_opt p_ID (lr_PaymentID l) (d_payments d)
                "financial_ledger_entries_payment_id_fkey" in
    let? _ := char3 (lr_Currency l) in
    check (one_of (lr_EntryType l) ledgerEntryTypes) "financial_ledger_entries_entry_type_check")
    row).

(** ** Cash *)

Definition acceptance_valid (c : CashAcceptanceRow) : res unit :=
  let? _ := char3 (ca_Currency c) in
  check (0 <? ca_DenominationMinor c) "cash_acceptance_events_denomination_minor_check".
Definition acceptance_refs (c : CashAcceptanceRow) (d : pgdb) : res unit :=
  fk_opt o_ID (ca_OrderID c) (d_orders d) "cash_acceptance_events_order_id_fkey".
Definition InsertCashAcceptanceEvent (machine : N) (device_event : string)
    (row : Z -> N -> CashAcceptanceRow) : M world CashAcceptanceRow :=
  stmt (insert_once d_acceptances set_acceptances acceptance_valid
    (fun c => (ca_MachineID c =u machine) && String.eqb (ca_DeviceEventID c) device_event)
    acceptance_refs row).
Definition InsertCashAllocation (order : N) (key : option string)
    (row : Z -> N -> CashAllocationRow) : M world CashAllocationRow :=
  stmt (insert_or_get d_allocations set_allocations
    (fun c => (al_OrderID c =u order) && sql_text_eq (al_IdempotencyKey c) key)
    (fun c d =>
       let? _ := fk o_ID (al_OrderID c) (d_orders d) "cash_allocations_order_id_fkey" in
       let? _ := fk_opt p_ID (al_PaymentID c) (d_payments d) "cash_allocations_payment_id_fkey" in
       let? _ := check ((0 <=? al_AmountMinor c) && (0 <=? al_PreOrderCreditMinor c) &&
                        (0 <=? al_PostOrderInsertedMinor c)) "cash_allocations_amounts_check" in
       check (one_of (al_ConsentSource c) ["explicit_confirm"; "implicit_post_order"; "operator";
                "unknown"; "wallet_auto_settlement"]) "cash_allocations_consent_source_check")
    row).
Definition InsertCashChangeEvent (order : N) (key : option string)
    (row : Z -> N -> CashChangeRow) : M world CashChangeRow :=
  stmt (insert_or_get d_changes set_changes
    (fun c => (ch_OrderID c =u order) && sql_text_eq (ch_IdempotencyKey c) key)
    (fun c d =>
       let? _ := fk o_ID (ch_OrderID c) (d_orders d) "cash_change_events_order_id_fkey" in
       let? _ := check ((0 <=? ch_ChangeDueMinor c) && (0 <=? ch_ChangeDispensedMinor c) &&
                        (0 <=? ch_LiabilityMinor c)) "cash_change_events_amounts_check" in
       check (one_of (ch_Outcome c) ["delivered"; "delivered_after_fault"; "not_delivered";
                "ambiguous"; "none"]) "cash_change_events_outcome_check")
    row).
Definition GetCashAllocationForOrder (order : N) : M world CashAllocationRow :=
  stmt (select_one (fun d =>
    latest al_CreatedAt (List.filter (fun c => al_OrderID c =u order) (d_allocations d)))).
Definition GetCashChangeEventForOrder (order : N) : M world CashChangeRow :=
  stmt (select_one (fun d =>
    latest ch_CreatedAt (List.filter (fun c => ch_OrderID c =u order) (d_changes d)))).
Definition ListCashAcceptanceEventsForOrder (order : N) : M world (list CashAcceptanceRow) :=
  stmt (select_many (fun d => in_order ca_AcceptedAt
    (List.filter (fun c => opt_eqb_N (ca_OrderID c) (Some order)) (d_acceptances d)))).

(** ** Inventory *)

Definition GetMachineByIDForUpdate (machine : N) : M world N :=
  stmt (select_one (fun d => List.find (N.eqb machine) (tp_Machines (d_topo d)))).
Definition InventoryAdminCountInventoryEventsByIdempotencyKey (key : string) (machine : N)
    : M world Z :=
  stmt (fun _ _ d => Ok (Some (Z.of_nat (length (List.filter (fun e =>
    (ie_MachineID e =u machine) && sql_text_eq (ie_IdempotencyKey e) (Some key))
    (d_stock_events d)))), d)).

(** InventoryAdminListMachineSlotsRow: the product and the capacity come from
    the current slot configuration of the index, or from the planogram. *)
Record MachineSlotRow := mk_MachineSlotRow {
  ms_PlanogramID : N; ms_SlotIndex : Z; ms_CurrentQuantity : Z; ms_MaxQuantity : Z;
  ms_PriceMinor : Z; ms_RevisionApplied : Z; ms_ProductID : option N }.
Definition slot_config_at (machine : N) (slot : Z) (d : pgdb) : option VendSlotConfig :=
  List.find (fun c => (vc_MachineID c =u machine) &&
    match vc_SlotIndex c with Some i => i =? slot | None => false end) (d_slot_cfgs d).
Definition planogram_slot (planogram : N) (slot : Z) (d : pgdb) : option (option N * Z) :=
  option_map snd (List.find (fun r => (r.1.1 =u planogram) && (r.1.2 =? slot))
    (tp_PlanogramSlots (d_topo d))).
Definition machine_slot_row (machine : N) (d : pgdb) (s : SlotState) : MachineSlotRow :=
  let cfg := slot_config_at machine (ss_Slot s) d in
  let pg := planogram_slot (ss_PlanogramID s) (ss_Slot s) d in
  mk_MachineSlotRow (ss_PlanogramID s) (ss_Slot s) (ss_CurrentQuantity s)
    (match cfg, pg with Some c, _ => vc_MaxQuantity c | None, Some p => p.2 | None, None => 0 end)
    (ss_PriceMinor s) (ss_RevisionApplied s)
    (opt_or (cfg ≫= vc_ProductID) (pg ≫= fst)).
Definition InventoryAdminListMachineSlots (machine : N) : M world (list MachineSlotRow) :=
  stmt (select_many (fun d => map (machine_slot_row machine d)
    (in_order ss_Slot (in_order (fun s => Z.of_N (ss_PlanogramID s))
       (List.filter (fun s => ss_Machine s =u machine) (d_slots d)))))).
Definition InventoryAdminListCurrentMachineSlotConfigsByMachine (machine : N)
    : M world (list VendSlotConfig) :=
  stmt (select_many (fun d => List.filter (fun c => vc_MachineID c =u machine) (d_slot_cfgs d))).
Definition InventoryAdminGetMachineActiveLayoutGridCols (machine : N) : M world Z :=
  stmt (select_one (fun d =>
    option_map snd (List.find (fun r => r.1 =u machine) (tp_GridCols (d_topo d))))).
Definition InventoryAdminRelinkCurrentMachineSlotConfigSlotIndex (id : N) (slot : Z)
    : M world unit :=
  stmt (fun _ _ d => Ok (Some tt, set_slot_cfgs (update_where (fun c => vc_ID c =u id)
    (fun c => mk_VendSlotConfig (vc_ID c) (vc_MachineID c) (vc_SlotCode c) (Some slot)
                (vc_ProductID c) (vc_MaxQuantity c) (vc_PriceMinor c))) d)).
Definition InventoryAdminGetPublishedPlanogramSlotForMachine (machine : N) (code : string)
    : M world (option N * Z * Z) :=
  stmt (select_one (fun d => option_map (fun r : N * (string * option N * Z * Z) =>
      (r.2.1.1.2, r.2.1.2, r.2.2))
    (List.find (fun r => (r.1 =u machine) && String.eqb r.2.1.1.1 code)
       (tp_PublishedSlots (d_topo d))))).
Definition InventoryAdminGetMachineLegacyPlanogramID (machine : N) : M world N :=
  stmt (select_one (fun d => option_map ss_PlanogramID
    (List.find (fun s => ss_Machine s =u machine) (d_slots d)))).
Definition InventoryAdminGetPublishedPlanogramID : M world N :=
  stmt (select_one (fun d => tp_PublishedPlanogram (d_topo d))).
Definition same_slot (s x : SlotState) : bool :=
  (ss_Machine x =u ss_Machine s) && (ss_PlanogramID x =u ss_PlanogramID s) &&
  (ss_Slot x =? ss_Slot s).
Definition InventoryAdminUpsertMachineSlotState (s : SlotState) : M world SlotState :=
  stmt (fun _ _ d =>
    if ss_Slot s <? 0 then Err (pg_check "machine_slot_state_slot_index_check")
    else if existsb (same_slot s) (d_slots d)
    then Ok (Some s, set_slots (update_where (same_slot s) (fun _ => s)) d)
    else Ok (Some s, set_slots (fun l => l ++ [s]) d)).
Definition InventoryAdminInsertInventoryEventsBatch (row : Z -> N -> InventoryEvent)
    : M world InventoryEvent :=
  stmt (insert_row set_stock_events no_check row).
