(* ===== verification/CashQueries.v ===== *)
(** * Statements on the cash of a machine

    The statements of internal/gen/db/cash_forensic.sql.go and cash.sql.go
    (sqlc, from db/queries), with the constraints of migrations 00002, 00026
    and 00035: reports of notes, adjustments, collections and their
    reconciliation.  Foreign keys to machines and accounts, whose ids come
    from whoever is signed in, are taken to hold. *)

From S2P Require Import Prelude.
From S2P Require Import GoStd.
From S2P Require Import Pricing.
From S2P Require Import CommerceTypes.
From S2P Require Import Rules.
From S2P Require Import Db.
From S2P Require Import Queries.
Local Open Scope string_scope.
Local Open Scope list_scope.
Local Open Scope Z_scope.

(** ** Statement forms *)

(** [sum(x)::bigint]: the sum is exact, the cast is checked. *)
Definition sum_bigint (l : list Z) : res Z :=
  let s := fold_right Z.add 0 l in
  if (MinInt64 <=? s) && (s <=? MaxInt64) then Ok s else Err (EPg "22003" "bigint out of range").
Definition select_sum (f : pgdb -> list Z) : sql Z := fun _ _ d =>
  match sum_bigint (f d) with Ok s => Ok (Some s, d) | Err e => Err e end.
(** [ORDER BY at DESC, id DESC] *)
Definition later {A} (at_ : A -> Z) (id_ : A -> N) (x y : A) : bool :=
  (at_ y <? at_ x) || (at_ x =? at_ y) && (id_ y <? id_ x)%N.
Definition newest_first {A} (at_ : A -> Z) (id_ : A -> N) (l : list A) : list A := stable_sort (later at_ id_) l.
(** [LIMIT n] *)
Definition limit_to {A} (n : Z) (l : list A) : list A := take (Z.to_nat n) l.

(** ** Reports of a machine *)

Definition payoutEventTypes : list string :=
  ["BEGUN"; "NOTE_DISPENSE_REQUESTED"; "NOTE_COMMAND_ACCEPTED"; "NOTE_CONFIRMED"; "NOTE_MONITOR_FAILED";
   "NOTE_RECONCILIATION_STARTED"; "NOTE_FINALITY_PENDING"; "NOTE_DELIVERED_AFTER_FAULT"; "NOTE_FAILED";
   "NOTE_NOT_DELIVERED"; "NOTE_AMBIGUOUS"; "COMPLETED"; "PARTIAL"; "PARTIAL_AFTER_FAULT"; "FAILED";
   "AMBIGUOUS"; "RECOVERY"].
Definition payoutFinalities : list string :=
  ["requested"; "command_accepted"; "confirmed"; "ambiguous"; "failed"; "not_delivered"].
Definition lifecycleTypes : list string :=
  ["escrow_held"; "returned_customer"; "transfer_to_escrow"; "transfer_to_cashbox"; "record_ambiguous"; "fault"].
Definition observationSources : list string := ["poll"; "payout"; "startup_recovery"; "collection"].

Definition payout_valid (r : PayoutRow) : res unit :=
  let? _ := char3 (po_Currency r) in
  let? _ := check (one_of (po_EventType r) payoutEventTypes) "cash_payout_events_event_type_check" in
  let? _ := check ((0 <=? po_DenominationMinor r) && (0 <=? po_AmountMinor r)) "cash_payout_events_amounts_check" in
  check (one_of (po_OutcomeFinality r) payoutFinalities) "cash_payout_events_outcome_finality_check".
Definition same_note (r x : PayoutRow) : bool :=
  (po_MachineID x =u po_MachineID r) && String.eqb (po_WithdrawalID x) (po_WithdrawalID r) &&
  (po_NoteSequence x =? po_NoteSequence r) && String.eqb (po_EventType x) (po_EventType r).
Definition payout_refs (r : PayoutRow) (d : pgdb) : res unit :=
  let? _ := unique (same_note r) (d_payouts d) "ux_cash_payout_events_withdrawal_note_type" in
  fk_opt o_ID (po_OrderID r) (d_orders d) "cash_payout_events_order_id_fkey".
Definition InsertCashPayoutEvent (machine : N) (device_event : string) (row : Z -> N -> PayoutRow) : M world PayoutRow :=
  stmt (insert_once d_payouts set_payouts payout_valid
    (fun x => (po_MachineID x =u machine) && String.eqb (po_DeviceEventID x) device_event) payout_refs row).

Definition lifecycle_valid (r : LifecycleRow) : res unit :=
  let? _ := char3 (bl_Currency r) in
  let? _ := check (one_of (bl_LifecycleType r) lifecycleTypes) "cash_bill_lifecycle_events_lifecycle_type_check" in
  check (0 <=? bl_DenominationMinor r) "cash_bill_lifecycle_events_denomination_minor_check".
Definition lifecycle_refs (r : LifecycleRow) (d : pgdb) : res unit :=
  fk_opt o_ID (bl_OrderID r) (d_orders d) "cash_bill_lifecycle_events_order_id_fkey".
Definition InsertCashBillLifecycleEvent (machine : N) (device_event : string) (row : Z -> N -> LifecycleRow)
    : M world LifecycleRow :=
  stmt (insert_once d_lifecycle set_lifecycle lifecycle_valid
    (fun x => (bl_MachineID x =u machine) && String.eqb (bl_DeviceEventID x) device_event) lifecycle_refs row).

Definition observation_valid (r : ObservationRow) : res unit :=
  let? _ := char3 (ho_Currency r) in
  let? _ := check ((0 <? ho_RecyclerDenominationMinor r) && (0 <=? ho_RecyclerCount r))
              "cash_hardware_observations_amounts_check" in
  check (one_of (ho_Source r) observationSources) "cash_hardware_observations_source_check".
Definition InsertCashHardwareObservation (machine : N) (device_event : string) (row : Z -> N -> ObservationRow)
    : M world ObservationRow :=
  stmt (insert_once d_observations set_observations observation_valid
    (fun x => (ho_MachineID x =u machine) && String.eqb (ho_DeviceEventID x) device_event) no_check row).

(** The order of a note that has none, or that one. *)
Definition acceptance_bound (order : N) (c : CashAcceptanceRow) : CashAcceptanceRow :=
  mk_CashAcceptanceRow (ca_ID c) (ca_MachineID c) (Some order) (ca_DeviceEventID c) (ca_DenominationMinor c)
    (ca_CreditSource c) (ca_Currency c) (ca_AcceptedAt c) (ca_BootID c) (ca_RawMetadata c) (ca_CreatedAt c).
Definition UpdateCashAcceptanceEventOrder (machine : N) (device_event : string) (order : N) : M world unit :=
  stmt (fun _ _ d =>
    let hit c := (ca_MachineID c =u machine) && String.eqb (ca_DeviceEventID c) device_event &&
                 match ca_OrderID c with None => true | Some o => o =u order end in
    if negb (existsb hit (d_acceptances d)) then Ok (Some tt, d)
    else
      let? _ := fk o_ID order (d_orders d) "cash_acceptance_events_order_id_fkey" in
      Ok (Some tt, set_acceptances (update_where hit (acceptance_bound order)) d)).

(** ** Sums *)

Definition is_since (machine : N) (currency : string) (since : Z) (m : N) (c : string) (t : Z) : bool :=
  (m =u machine) && String.eqb c currency && (since <? t).
Definition acceptances_since (machine : N) (currency : string) (since : Z) (d : pgdb) : list CashAcceptanceRow :=
  List.filter (fun c => is_since machine currency since (ca_MachineID c) (ca_Currency c) (ca_AcceptedAt c))
    (d_acceptances d).
Definition in_cashbox (source : string) : bool := one_of source ["stacked_cashbox"; "unknown"].
Definition in_recycler (source : string) : bool := String.eqb source "stored_in_recycler".
(** cashbox_minor and recycler_minor. *)
Definition SumCashAcceptanceByMachineSince (machine : N) (currency : string) (since : Z) : M world (Z * Z) :=
  stmt (fun _ _ d =>
    let rows := acceptances_since machine currency since d in
    let? box := sum_bigint (map (fun c => if in_cashbox (ca_CreditSource c) then ca_DenominationMinor c else 0) rows) in
    let? rec := sum_bigint (map (fun c => if in_recycler (ca_CreditSource c) then ca_DenominationMinor c else 0) rows) in
    Ok (Some (box, rec), d)).
Definition payouts_since (machine : N) (currency : string) (since : Z) (d : pgdb) : list PayoutRow :=
  List.filter (fun r => is_since machine currency since (po_MachineID r) (po_Currency r) (po_OccurredAtDevice r) &&
                        String.eqb (po_OutcomeFinality r) "confirmed") (d_payouts d).
Definition SumCashPayoutConfirmedByMachineSince (machine : N) (currency : string) (since : Z) : M world Z :=
  stmt (select_sum (fun d => map po_AmountMinor (payouts_since machine currency since d))).
Definition adjustments_since (machine : N) (currency : string) (since : Z) (d : pgdb) : list AdjustmentRow :=
  List.filter (fun r => is_since machine currency since (ad_MachineID r) (ad_Currency r) (ad_CreatedAt r))
    (d_adjustments d).
Definition bucket_amount (bucket : string) (r : AdjustmentRow) : Z :=
  if String.eqb (ad_Bucket r) bucket then ad_AmountMinor r else 0.
(** cashbox_minor, recycler_minor and wallet_minor. *)
Definition SumCashAdjustmentsByMachineSince (machine : N) (currency : string) (since : Z) : M world (Z * Z * Z) :=
  stmt (fun _ _ d =>
    let rows := adjustments_since machine currency since d in
    let? box := sum_bigint (map (bucket_amount "cashbox") rows) in
    let? rec := sum_bigint (map (bucket_amount "recycler") rows) in
    let? wallet := sum_bigint (map (bucket_amount "unallocated_wallet") rows) in
    Ok (Some (box, rec, wallet), d)).
Definition collected_since (machine : N) (currency : string) (since : Z) (d : pgdb) : list CollectionRow :=
  List.filter (fun r => (kc_MachineID r =u machine) && String.eqb (kc_Currency r) currency &&
                        String.eqb (kc_LifecycleStatus r) "closed" &&
                        match kc_ClosedAt r with Some t => since <? t | None => false end) (d_collections d).
Definition SumCollectedCashByMachineSince (machine : N) (currency : string) (since : Z) : M world Z :=
  stmt (select_sum (fun d => map kc_AmountMinor (collected_since machine currency since d))).
Definition GetLatestCashHardwareObservation (machine : N) (currency : string) : M world ObservationRow :=
  stmt (select_one (fun d => hd_error (newest_first ho_ObservedAtDevice ho_ID
    (List.filter (fun r => (ho_MachineID r =u machine) && String.eqb (ho_Currency r) currency) (d_observations d))))).
Definition ListUnresolvedCashPayoutAmbiguous (machine : N) (before : Z) (limit : Z) : M world (list PayoutRow) :=
  stmt (select_many (fun d => limit_to limit (in_order po_OccurredAtDevice
    (List.filter (fun r => (po_MachineID r =u machine) && String.eqb (po_OutcomeFinality r) "ambiguous" &&
                           (po_OccurredAtDevice r <? before)) (d_payouts d))))).

(** ** Pages of the ledger *)

Record LedgerPage := mk_LedgerPage {
  lp_Machine : N; lp_From : Z; lp_To : Z; lp_Order : option N; lp_After : option (Z * N); lp_Limit : Z }.
(** [id::text < after_id]: the text of a uuid has the order of its bytes. *)
Definition in_window (p : LedgerPage) (machine : N) (at_ : Z) : bool :=
  (machine =u lp_Machine p) && (lp_From p <=? at_) && (at_ <? lp_To p).
Definition of_order (p : LedgerPage) (order : option N) : bool :=
  match lp_Order p with None => true | Some _ => opt_eqb_N order (lp_Order p) end.
Definition past_cursor (p : LedgerPage) (at_ : Z) (id : N) : bool :=
  match lp_After p with
  | None => true
  | Some (t, i) => (at_ <? t) || (at_ =? t) && (id <? i)%N
  end.
Definition acceptance_in (p : LedgerPage) (c : CashAcceptanceRow) : bool :=
  in_window p (ca_MachineID c) (ca_AcceptedAt c) && of_order p (ca_OrderID c).
Definition payout_in (p : LedgerPage) (r : PayoutRow) : bool :=
  in_window p (po_MachineID r) (po_OccurredAtDevice r) && of_order p (po_OrderID r).
Definition lifecycle_in (p : LedgerPage) (r : LifecycleRow) : bool :=
  in_window p (bl_MachineID r) (bl_OccurredAtDevice r) && of_order p (bl_OrderID r).
Definition observation_in (p : LedgerPage) (r : ObservationRow) : bool :=
  in_window p (ho_MachineID r) (ho_ObservedAtDevice r).
Definition page_of {A} (p : LedgerPage) (at_ : A -> Z) (id_ : A -> N) (hit : A -> bool) (l : list A) : list A :=
  limit_to (lp_Limit p) (newest_first at_ id_ (List.filter (fun x => hit x && past_cursor p (at_ x) (id_ x)) l)).
Definition ListCashLedgerAcceptanceEvents (p : LedgerPage) : M world (list CashAcceptanceRow) :=
  stmt (select_many (fun d => page_of p ca_AcceptedAt ca_ID (acceptance_in p) (d_acceptances d))).
Definition ListCashLedgerPayoutEvents (p : LedgerPage) : M world (list PayoutRow) :=
  stmt (select_many (fun d => page_of p po_OccurredAtDevice po_ID (payout_in p) (d_payouts d))).
Definition ListCashBillLifecycleEventsForLedger (p : LedgerPage) : M world (list LifecycleRow) :=
  stmt (select_many (fun d => page_of p bl_OccurredAtDevice bl_ID (lifecycle_in p) (d_lifecycle d))).
Definition ListCashHardwareObservationsForLedger (p : LedgerPage) : M world (list ObservationRow) :=
  stmt (select_many (fun d => page_of p ho_ObservedAtDevice ho_ID (observation_in p) (d_observations d))).
Definition count_in {A} (hit : A -> bool) (l : list A) : Z := Z.of_nat (length (List.filter hit l)).
Definition CountCashLedgerAcceptanceEvents (p : LedgerPage) : M world Z :=
  stmt (select_one (fun d => Some (count_in (acceptance_in p) (d_acceptances d)))).
Definition CountCashLedgerPayoutEvents (p : LedgerPage) : M world Z :=
  stmt (select_one (fun d => Some (count_in (payout_in p) (d_payouts d)))).
Definition CountCashLedgerLifecycleEvents (p : LedgerPage) : M world Z :=
  stmt (select_one (fun d => Some (count_in (lifecycle_in p) (d_lifecycle d)))).
Definition CountCashLedgerHardwareObservations (p : LedgerPage) : M world Z :=
  stmt (select_one (fun d => Some (count_in (observation_in p) (d_observations d)))).
Definition GetCashPayoutEventByID (id : N) : M world PayoutRow :=
  stmt (select_one (fun d => List.find (fun r => po_ID r =u id) (d_payouts d))).
Definition GetCashAcceptanceEventByID (id : N) : M world CashAcceptanceRow :=
  stmt (select_one (fun d => List.find (fun r => ca_ID r =u id) (d_acceptances d))).
Definition ListCashBillLifecycleEventsForOrder (order : N) : M world (list LifecycleRow) :=
  stmt (select_many (fun d => in_order bl_OccurredAtDevice
    (List.filter (fun r => opt_eqb_N (bl_OrderID r) (Some order)) (d_lifecycle d)))).
Definition ListCashPayoutEventsForOrder (order : N) : M world (list PayoutRow) :=
  stmt (select_many (fun d => in_order po_OccurredAtDevice
    (List.filter (fun r => opt_eqb_N (po_OrderID r) (Some order)) (d_payouts d)))).

(** ** Adjustments and collections *)

Definition adjustmentBuckets : list string := ["cashbox"; "recycler"; "unallocated_wallet"].
Definition InsertCashAdjustmentQ (key : string) (row : Z -> N -> AdjustmentRow) : M world AdjustmentRow :=
  stmt (fun now id d =>
    let? _ := char3 (ad_Currency (row now id)) in
    let? _ := check (one_of (ad_Bucket (row now id)) adjustmentBuckets) "cash_adjustments_bucket_check" in
    insert_or_get d_adjustments set_adjustments (fun x => String.eqb (ad_IdempotencyKey x) key) no_check row now id d).

Definition collectionStatuses : list string := ["open"; "closed"; "cancelled"].
Definition collection_of (machine id : N) (r : CollectionRow) : bool := (kc_ID r =u id) && (kc_MachineID r =u machine).
Definition is_open (r : CollectionRow) : bool := String.eqb (kc_LifecycleStatus r) "open".
Definition GetCashCollectionByIDForOrgMachine (machine id : N) : M world CollectionRow :=
  stmt (select_one (fun d => List.find (collection_of machine id) (d_collections d))).
Definition GetOpenCashCollectionByMachine (machine : N) : M world CollectionRow :=
  stmt (select_one (fun d => List.find (fun r => (kc_MachineID r =u machine) && is_open r) (d_collections d))).
(** [metadata ->> key] of a text. *)
Definition metadata_text (key : string) (m : json) : option string :=
  match m with
  | JObj fs => match List.find (fun f => String.eqb f.1 key) (rev fs) with Some (_, JStr s) => Some s | _ => None end
  | _ => None
  end.
Definition FindCashCollectionOpenByStartIdempotencyKey (key : string) (machine : N) : M world CollectionRow :=
  stmt (select_one (fun d => List.find (fun r =>
    sql_text_eq (metadata_text "start_idempotency_key" (kc_Metadata r)) (Some key) &&
    (kc_MachineID r =u machine) && is_open r) (d_collections d))).
Definition InsertCashCollection (row : Z -> N -> CollectionRow) : M world CollectionRow :=
  stmt (insert_row set_collections (fun r d =>
    let? _ := char3 (kc_Currency r) in
    let? _ := check (one_of (kc_LifecycleStatus r) collectionStatuses && (0 <=? kc_AmountMinor r)) "cash_collections_check" in
    let? _ := unique (fun x => kc_ID x =u kc_ID r) (d_collections d) "cash_collections_pkey" in
    let? _ := (if is_open r
               then unique (fun x => (kc_MachineID x =u kc_MachineID r) && is_open x) (d_collections d)
                      "ux_cash_collections_machine_one_open"
               else Ok tt) in
    fk_opt os_ID (kc_OperatorSessionID r) (d_sessions d) "cash_collections_operator_session_id_fkey") row).
Record CloseParams := mk_CloseParams {
  cp_AmountMinor : Z; cp_ExpectedAmountMinor : Z; cp_VarianceAmountMinor : Z; cp_RequiresReview : bool;
  cp_CloseRequestHash : string; cp_ReconciliationStatus : string; cp_Metadata : json }.
Definition collection_closed (p : CloseParams) (now : Z) (r : CollectionRow) : CollectionRow :=
  mk_CollectionRow (kc_ID r) (kc_MachineID r) (kc_CollectedAt r) (kc_OpenedAt r) (Some now) "closed"
    (cp_AmountMinor p) (cp_ExpectedAmountMinor p) (cp_VarianceAmountMinor p) (cp_RequiresReview p)
    (Some (cp_CloseRequestHash p)) (kc_Currency r) (cp_Metadata p) (cp_ReconciliationStatus p) (kc_CreatedAt r)
    (kc_OperatorSessionID r).
Definition CloseCashCollection (p : CloseParams) (machine id : N) : M world CollectionRow :=
  stmt (update_rows d_collections set_collections
    (fun r _ => check ((0 <=? kc_AmountMinor r) &&
                       one_of (kc_ReconciliationStatus r) ["pending"; "matched"; "mismatch"; "waived"]) "cash_collections_check")
    (fun r => collection_of machine id r && is_open r) (collection_closed p)).
Definition InsertCashReconciliation (row : Z -> N -> CashReconRow) : M world CashReconRow :=
  stmt (insert_row set_recons (fun r d =>
    let? _ := check (one_of (kr_Status r) ["matched"; "mismatch"; "pending"; "review"]) "cash_reconciliations_status_check" in
    fk_opt kc_ID (kr_CashCollectionID r) (d_collections d) "cash_reconciliations_cash_collection_id_fkey") row).
Definition ListCashCollectionsForMachine (machine : N) (limit offset : Z) : M world (list CollectionRow) :=
  stmt (select_many (fun d => limit_to limit (drop (Z.to_nat offset) (stable_sort (fun x y => kc_CollectedAt y <? kc_CollectedAt x)
    (List.filter (fun r => kc_MachineID r =u machine) (d_collections d)))))).
(** The moment of the last closing, if there was one. *)
Definition last_closed (machine : N) (d : pgdb) : option Z :=
  foldr (fun r m =>
    if (kc_MachineID r =u machine) && String.eqb (kc_LifecycleStatus r) "closed"
    then match kc_ClosedAt r, m with
         | Some t, Some u => Some (Z.max t u)
         | Some t, None => Some t
         | None, _ => m
         end
    else m) None (d_collections d).
Definition UnixEpoch : Z := 62135596800 * Second.
Definition CashSettlementLastClosedAt (machine : N) : M world Z :=
  stmt (select_one (fun d => Some (default UnixEpoch (last_closed machine d)))).

(** [payments.updated_at], a column no other statement reads, is a function of
    the tables. *)
Class PaymentUpdates := payment_updated_at : pgdb -> Payment -> Z.
Definition after_closing (closed : option Z) (t : Z) : bool :=
  match closed with Some c => c <? t | None => true end.
Definition order_row (d : pgdb) (id : N) : option Order := List.find (fun o => o_ID o =u id) (d_orders d).
Definition cash_taken `{PaymentUpdates} (machine : N) (currency : string) (d : pgdb) : list Z :=
  map p_AmountMinor (List.filter (fun p =>
    match order_row d (p_OrderID p) with Some o => o_MachineID o =u machine | None => false end &&
    String.eqb (p_Provider p) "cash" && String.eqb (p_State p) "captured" && String.eqb (p_Currency p) currency &&
    after_closing (last_closed machine d) (payment_updated_at d p)) (d_payments d)).
Definition cash_refunded (machine : N) (currency : string) (d : pgdb) : list Z :=
  map rf_AmountMinor (List.filter (fun r =>
    match order_row d (rf_OrderID r) with
    | Some o => (o_MachineID o =u machine) && String.eqb (o_Currency o) currency
    | None => false
    end && String.eqb (rf_State r) "completed" && after_closing (last_closed machine d) (rf_CreatedAt r)) (d_refunds d)).
Definition CashSettlementNetExpectedMinor `{PaymentUpdates} (machine : N) (currency : string) : M world Z :=
  stmt (fun _ _ d =>
    let net := fold_right Z.add 0 (cash_taken machine currency d) - fold_right Z.add 0 (cash_refunded machine currency d) in
    if (MinInt64 <=? net) && (net <=? MaxInt64) then Ok (Some net, d) else Err (EPg "22003" "bigint out of range")).

(** [INNER JOIN orders o ON o.id = order_id] *)
Definition with_order {A} (order_of : A -> N) (d : pgdb) (l : list A) : list (A * Order) :=
  flat_map (fun a => map (fun o => (a, o)) (List.filter (fun o => o_ID o =u order_of a) (d_orders d))) l.
(** It has no ORDER BY: the rows as they are stored. *)
Definition ListUnresolvedChangeLiabilityQ (before limit : Z) : M world (list CashChangeRow) :=
  stmt (select_many (fun d => take (Z.to_nat limit)
    (map fst (List.filter (fun co => (0 <? ch_LiabilityMinor co.1) &&
       one_of (ch_Outcome co.1) ["not_delivered"; "ambiguous"] &&
       negb (one_of (o_Status co.2) ["cancelled"; "failed"]) && (ch_CreatedAt co.1 <? before))
       (with_order ch_OrderID d (d_changes d)))))).
