(* ===== verification/MachineIdempotency.v ===== *)
(** * The ledger of machine mutations

    internal/app/machineidempotency and db/queries/machine_idempotency.sql: a
    machine sends a request that changes something with an idempotency key; the
    ledger keeps one row per machine, operation and key, so that the request is
    carried out at most once and its answer can be given again. *)

From S2P Require Import Prelude.
From S2P Require Import GoStd.
From S2P Require Import Sha256.
From S2P Require Import JsonText.
From S2P Require Import Protobuf.
From S2P Require Import Pricing.
From S2P Require Import CommerceTypes.
From S2P Require Import Sanitize.
From S2P Require Import Evidence.
From S2P Require Import Rules.
From S2P Require Import Db.
From S2P Require Import Queries.
Local Open Scope string_scope.
Local Open Scope list_scope.
Local Open Scope Z_scope.

(** ** hash.go *)

Section Hash.
Context `{ProtoCodec}.

Definition StableProtoHash (m : proto) : res string :=
  let? b := proto_Marshal m in Ok (l2s (Sum256 b)).

Definition isVolatileTimestampField (name : string) : bool :=
  one_of name ["client_created_at"; "captured_at"; "generated_at"; "occurred_at"].
Definition volatile_text (name : string) : bool :=
  one_of name ["request_id"; "client_event_id"; "simulation_run_id"].
(** The value of a field after the loop over the fields of its message. *)
Fixpoint scrub_value (name : string) (v : pvalue) : pvalue :=
  match v with
  | PMessage t fs =>
      if isVolatileTimestampField name then PNil
      else PMessage t (map (fun nv => let '(n, x) := nv in (n, scrub_value n x)) fs)
  | PString _ => if volatile_text name then PString "" else v
  | POptString _ => if volatile_text name then POptString None else v
  | _ => v
  end.
Definition scrubVolatileFieldsForLedger (m : proto) : proto :=
  mk_proto (pm_type m) (map (fun nv => (nv.1, scrub_value nv.1 nv.2)) (pm_fields m)).
Definition HashMutationRequest (m : proto) : res string :=
  StableProtoHash (scrubVolatileFieldsForLedger m).
End Hash.

(** A string field that is set. *)
Definition present_text (v : pvalue) : option string :=
  match v with
  | PString s => if String.eqb s "" then None else Some s
  | POptString o => o
  | _ => None
  end.
(** [out] is what was found so far.  The loop over the fields of a message
    goes on after a nested message gave a key, and ends at a key of its own. *)
Fixpoint inspect_value (v : pvalue) (out : string) : string :=
  match v with
  | PMessage _ fs =>
      if negb (String.eqb out "") then out
      else
        (fix loop (fs : list (string * pvalue)) (out : string) : string :=
           match fs with
           | [] => out
           | (n, x) :: fs =>
               match (if String.eqb n "idempotency_key" then present_text x else None) with
               | Some s => TrimSpace s
               | None => loop fs (inspect_value x out)
               end
           end) fs out
  | _ => out
  end.
Definition MachineRequestIdempotencyKey (m : proto) : string := inspect_value (pm_value m) "".

Definition reconcileEventsSyntheticKey (keys : list string) : string :=
  let cp := stable_sort string_lt (map TrimSpace keys) in
  "telemetry.reconcile.v1.sha256-" +:+
  EncodeToString (Sum256 (concat (map (fun k => s2l k ++ [ascii_of_N 0]) cp))).
(** The strings of a repeated field. *)
Definition repeated_strings (v : option pvalue) : list string :=
  match v with
  | Some (PRepeated l) => omap (fun x => match x with PString s => Some s | _ => None end) l
  | _ => []
  end.
Definition ReconcileEventsRequest : string := "avf.machine.v1.ReconcileEventsRequest".
Definition key_error (s : string) : goerr := ENew ("machineidempotency: " +:+ s).
Definition MutationIdempotencyKey (m : proto) : res string :=
  if String.eqb (pm_type m) ReconcileEventsRequest then
    let keys := repeated_strings (field_of (pm_fields m) "idempotency_keys") in
    if (Z.of_nat (length keys) <? 1) || (500 <? Z.of_nat (length keys)) then
      Err (key_error "reconcile idempotency_keys must contain 1 to 500 entries")
    else if existsb (fun k => blank (TrimSpace k)) keys then
      Err (key_error "reconcile idempotency_keys must not include empty strings")
    else Ok (reconcileEventsSyntheticKey keys)
  else
    let key := MachineRequestIdempotencyKey m in
    if blank (TrimSpace key) then Err (key_error "idempotency_key required") else Ok key.

(** ** machine_idempotency.sql *)

Definition same_mutation (machine : N) (operation key : string) (r : MutationRow) : bool :=
  (mu_MachineID r =u machine) && String.eqb (mu_Operation r) operation &&
  String.eqb (mu_IdempotencyKey r) key.
(** A row with the columns the statements change. *)
Definition mutation_with (r : MutationRow) (status : string) (snapshot : option string)
    (last expires : Z) (trace : string) : MutationRow :=
  mk_MutationRow (mu_ID r) (mu_MachineID r) (mu_Operation r) (mu_IdempotencyKey r)
    (mu_RequestHash r) snapshot status (mu_FirstSeenAt r) last expires trace.
Definition mutation_seen (expires : Z) (trace : string) (now : Z) (r : MutationRow) : MutationRow :=
  mutation_with r (mu_Status r) (mu_ResponseSnapshot r) now expires trace.

(** The row, and whether it was inserted: [xmax = 0]. *)
Definition UpsertMachineIdempotencyKey (machine : N) (operation key hash : string) (expires : Z)
    (trace : string) : M world (MutationRow * bool) :=
  stmt (fun now id d =>
    let same := same_mutation machine operation key in
    match List.find same (d_mutations d) with
    | Some r => Ok (Some (mutation_seen expires trace now r, false),
                    set_mutations (update_where same (mutation_seen expires trace now)) d)
    | None =>
        let row := mk_MutationRow id machine operation key hash None "in_progress" now now expires trace in
        let? _ := fk (fun m => m) machine (tp_Machines (d_topo d)) "machine_idempotency_keys_machine_id_fkey" in
        Ok (Some (row, true), set_mutations (fun l => l ++ [row]) d)
    end).
(** [:exec] reports no row. *)
Definition update_mutations (p : MutationRow -> bool) (f : Z -> MutationRow -> MutationRow) : sql unit :=
  fun now _ d => Ok (Some tt, set_mutations (update_where p (f now)) d).
Definition in_progress (r : MutationRow) : bool := String.eqb (mu_Status r) "in_progress".
Definition stale_mutation (machine : N) (operation key : string) (cutoff : Z) (r : MutationRow) : bool :=
  same_mutation machine operation key r && in_progress r && (mu_LastSeenAt r <? cutoff).
Definition DeleteStaleMachineIdempotencyInProgress (machine : N) (operation key : string) (cutoff : Z)
    : M world unit :=
  stmt (fun _ _ d =>
    Ok (Some tt, set_mutations (List.filter (fun r => negb (stale_mutation machine operation key cutoff r))) d)).
Definition mutation_succeeded (snapshot : option string) (trace : string) (now : Z) (r : MutationRow)
    : MutationRow := mutation_with r "succeeded" snapshot now (mu_ExpiresAt r) trace.
(** [NULLIF(text, '')::jsonb] *)
Definition jsonb_or_null `{ProtoCodec} (text : string) : res (option string) :=
  if String.eqb text "" then Ok None else let? j := jsonb_text text in Ok (Some j).
Definition MarkMachineIdempotencySucceeded `{ProtoCodec} (snapshot trace : string) (machine : N)
    (operation key : string) : M world MutationRow :=
  stmt (fun now id d =>
    let? snap := jsonb_or_null snapshot in
    update_rows d_mutations set_mutations no_check (same_mutation machine operation key)
      (mutation_succeeded snap trace) now id d).
Definition mutation_failed (trace : string) (now : Z) (r : MutationRow) : MutationRow :=
  mutation_with r "failed" (mu_ResponseSnapshot r) now (mu_ExpiresAt r) trace.
Definition MarkMachineIdempotencyFailed (trace : string) (machine : N) (operation key : string)
    : M world unit :=
  stmt (update_mutations (fun r => same_mutation machine operation key r && in_progress r)
          (mutation_failed trace)).
Definition mutation_conflict (now : Z) (r : MutationRow) : MutationRow :=
  mutation_with r "conflict" (mu_ResponseSnapshot r) now (mu_ExpiresAt r) (mu_TraceID r).
Definition MarkMachineIdempotencyConflict (machine : N) (operation key : string) : M world unit :=
  stmt (update_mutations (same_mutation machine operation key) mutation_conflict).

(** ** ledger.go *)

Definition DefaultTTL : Z := 24 * Hour.
Definition DefaultInProgressStale : Z := 2 * Minute.
Definition ErrMsgIdempotencyPayloadMismatch : string := "idempotency_payload_mismatch".
Definition ErrMsgIdempotencyFinalizeFailed : string := "machine_idempotency_finalize_failed".

(** auth.MachineAccessClaims, the claims that are read here. *)
Record MachineAccessClaims := mk_MachineAccessClaims { mac_MachineID : N; mac_CredentialVersion : Z }.
Definition precondition {W A} (msg : string) : M W A := fail (EStatus FailedPrecondition msg).
Definition internal {W A} (msg : string) : M W A := fail (EStatus Internal msg).

(** The first twelve hex digits of the hash. *)
Definition hashFingerprint (b : string) : string :=
  if String.eqb b "" then "" else l2s (take 12 (s2l (EncodeToString (Sum256 (s2l b))))).
(** pgjson.RequiredString, on text. *)
Definition RequiredJSONText (text : string) : string :=
  let trim := TrimSpace text in
  if String.eqb trim "" || String.eqb trim "null" || is_none (json_parse trim) then "{}" else trim.

Record Ledger := mk_Ledger {
  lg_audit : option (AuditRecord -> M world unit);
  lg_idempotencyTTL : Z; lg_staleInProgress : Z }.
Definition NewLedger (audit : option (AuditRecord -> M world unit)) : Ledger :=
  mk_Ledger audit DefaultTTL DefaultInProgressStale.

(** One row of audit; its failure is ignored. *)
Definition recordAudit `{UuidText} (l : Ledger) (claims : MachineAccessClaims)
    (action operation key : string) (meta : list (string * json)) : M world unit :=
  match lg_audit l with
  | None => ret tt
  | Some record =>
      let mid := uuid_String (mac_MachineID claims) in
      ignore (record (mk_AuditRecord "machine" (Some mid) action "machine_idempotency_key" mid None
        (JObj (go_map (meta ++ [("operation", JStr operation); ("idempotency_key", JStr key)]))) ""))
  end.

Section Ledger.
Context `{UuidText} `{ProtoCodec} (l : Ledger) (claims : MachineAccessClaims).

Definition or_default (d default : Z) : Z := if d <=? 0 then default else d.
(** [now] is the time the call began. *)
Definition stale_cutoff (now : Z) : Z := now - or_default (lg_staleInProgress l) DefaultInProgressStale.
Definition looks_stale (cutoff : Z) (row : MutationRow * bool) : bool :=
  EqualFold (TrimSpace (mu_Status row.1)) "in_progress" && negb row.2 && (mu_LastSeenAt row.1 <? cutoff).
(** At most two attempts: a stale row of an interrupted call is deleted after
    the first. *)
Fixpoint upsert_attempts (attempts : nat) (last : MutationRow * bool) (operation key hash trace : string)
    (now expires : Z) : M world (MutationRow * bool) :=
  match attempts with
  | O => ret last
  | S attempts =>
      let! row := attempt (UpsertMachineIdempotencyKey (mac_MachineID claims) operation key hash expires trace) in
      match row with
      | Err _ => internal "machine idempotency lookup failed"
      | Ok row =>
          if looks_stale (stale_cutoff now) row then
            ignore (DeleteStaleMachineIdempotencyInProgress (mac_MachineID claims) operation key (stale_cutoff now)) ;;;
            upsert_attempts attempts row operation key hash trace now expires
          else ret row
      end
  end.
(** The answer stored in the row; [newResponse] gives the type of its message. *)
Definition replay_response (newResponse : string -> option string) (row : MutationRow)
    (operation key : string) : M world proto :=
  match mu_ResponseSnapshot row with
  | None => precondition "idempotency response unavailable"
  | Some text =>
      if String.eqb text "" then precondition "idempotency response unavailable"
      else
        match newResponse operation with
        | None => internal "machine idempotency response type unavailable"
        | Some t =>
            match protojson_Unmarshal t text with
            | Err _ => internal "machine idempotency response decode failed"
            | Ok m => recordAudit l claims "machine.idempotency.replayed" operation key [] ;;; ret m
            end
        end
  end.
Definition conflicting_payload (row : MutationRow) (operation key hash : string) : M world unit :=
  ignore (MarkMachineIdempotencyConflict (mac_MachineID claims) operation key) ;;;
  recordAudit l claims "machine.idempotency.conflict" operation key
    [("status", JStr (mu_Status row));
     ("stored_hash_fingerprint", JStr (hashFingerprint (mu_RequestHash row)));
     ("incoming_hash_fingerprint", JStr (hashFingerprint hash));
     ("idempotency_key_fingerprint", JStr (hashFingerprint key))].
(** What the row of this request says: go on ([None]), or answer again. *)
Definition decide_mutation (row : MutationRow * bool) (newResponse : string -> option string)
    (operation key hash : string) (now : Z) : M world (option proto) :=
  if mu_ExpiresAt row.1 <? now then precondition "idempotency key expired"
  else if negb (String.eqb (mu_RequestHash row.1) hash) then
    conflicting_payload row.1 operation key hash ;;; precondition ErrMsgIdempotencyPayloadMismatch
  else
    let status := ToLower (TrimSpace (mu_Status row.1)) in
    if String.eqb status "succeeded" then
      fmap_M Some (replay_response newResponse row.1 operation key)
    else if String.eqb status "in_progress" then
      if row.2 then ret None
      else
        let! later := time_Now in
        if or_default (lg_staleInProgress l) DefaultInProgressStale <? later - mu_LastSeenAt row.1
        then precondition "idempotent operation still recovering; retry later"
        else fail (EStatus CodeAborted "idempotent operation already in progress")
    else if String.eqb status "failed" then
      precondition "idempotent operation failed_final; use a new idempotency key"
    else if String.eqb status "conflict" then precondition ErrMsgIdempotencyPayloadMismatch
    else if String.eqb status "expired" then precondition "idempotency key expired"
    else precondition "idempotency key unavailable".
Definition BeginMutation (operation key hash trace : string) (newResponse : string -> option string)
    : M world (MutationRow * option proto) :=
  let key := TrimSpace key in
  let! now := time_Now in
  let expires := now + or_default (lg_idempotencyTTL l) DefaultTTL in
  let zero := (mk_MutationRow uuid_Nil uuid_Nil "" "" "" None "" 0 0 0 "", false) in
  let! row := upsert_attempts 2 zero operation key hash trace now expires in
  let! replay := decide_mutation row newResponse operation key hash now in
  ret (row.1, replay).

Definition wrapFinalizeStoreError (e : goerr) : goerr :=
  EOpaque (match pg_code e with
           | Some c => if String.eqb c "" then "machine idempotency response store failed"
                       else "machine idempotency response store failed sqlstate=" +:+ c
           | None => "machine idempotency response store failed"
           end) e.
Definition MarkSucceeded (operation key : string) (resp : proto) (trace : string) : M world unit :=
  match protojson_Marshal resp with
  | Err _ => internal "machine idempotency response encode failed"
  | Ok snap =>
      let! stored := attempt (MarkMachineIdempotencySucceeded (RequiredJSONText snap) trace
                                (mac_MachineID claims) operation (TrimSpace key)) in
      match stored with
      | Err e => fail (wrapFinalizeStoreError e)
      | Ok _ => ret tt
      end
  end.
Definition MarkFailed (operation key trace : string) : M world unit :=
  MarkMachineIdempotencyFailed trace (mac_MachineID claims) operation (TrimSpace key).
End Ledger.

(** ** interceptor.go *)

(** What the interceptor calls of the ledger. *)
Record MutationLedger (W : Type) := mk_MutationLedger {
  ml_BeginMutation : MachineAccessClaims -> string -> string -> string -> string ->
    (string -> option string) -> M W (MutationRow * option proto);
  ml_MarkSucceeded : MachineAccessClaims -> string -> string -> proto -> string -> M W unit;
  ml_MarkFailed : MachineAccessClaims -> string -> string -> string -> M W unit }.
Definition pg_ledger `{UuidText} `{ProtoCodec} (l : Ledger) : MutationLedger world :=
  mk_MutationLedger world (BeginMutation l) MarkSucceeded MarkFailed.

(** machineCredentialGateSnapshot: what the authentication of the call read. *)
Record machineCredentialGateSnapshot := mk_GateSnapshot {
  gs_status : string; gs_credentialVersion : Z; gs_credentialRevoked : bool }.
(** What the context of a call carries: the claims of the token, the snapshot
    if it is loaded, the request id, the metadata (lower-case names), and the
    time of the event when it is replayed from an offline batch. *)
Record CallContext := mk_CallContext {
  cx_claims : option MachineAccessClaims; cx_gate : option machineCredentialGateSnapshot;
  cx_requestID : option string; cx_metadata : list (string * list string);
  cx_offlineReplayOccurredAt : option Z }.
Record InterceptorConfig := mk_InterceptorConfig {
  ic_IsIdempotentMutation : string -> bool;
  ic_NewMutationResponse : string -> option string;
  ic_CanonicalOperation : option (string -> string);
  ic_TraceID : option (CallContext -> string);
  ic_DecorateLedgerReplayResponse : option (proto -> proto) }.

Definition shouldMarkLedgerRowFailed (handlerErr : goerr) : bool :=
  match status_Code handlerErr with
  | Canceled | DeadlineExceeded => true
  | Unknown | CodeAborted | ResourceExhausted | Internal | Unavailable => false
  | _ => true
  end.

Section Interceptor.
Context `{ProtoCodec} {W : Type} (ledger : MutationLedger W) (cfg : InterceptorConfig).

Definition trace_of (ctx : CallContext) : string :=
  match ic_TraceID cfg with Some f => f ctx | None => "" end.
Definition ledger_operation (fullMethod : string) : string :=
  match ic_CanonicalOperation cfg with
  | Some f => let c := TrimSpace (f fullMethod) in if blank c then fullMethod else c
  | None => fullMethod
  end.
(** The call after its row was begun.  The handler's answer is [None] when it
    is not a message. *)
Definition run_and_record (claims : MachineAccessClaims) (row : MutationRow) (operation key trace : string)
    (handler : M W (option proto)) : M W proto :=
  let! resp := attempt handler in
  match resp with
  | Err e =>
      (if shouldMarkLedgerRowFailed e
       then ignore (ml_MarkFailed W ledger claims operation key trace) else ret tt) ;;; fail e
  | Ok None =>
      ignore (ml_MarkFailed W ledger claims operation key trace) ;;;
      internal "machine mutation response is not protobuf"
  | Ok (Some m) =>
      let! stored := attempt (ml_MarkSucceeded W ledger claims (mu_Operation row) key m trace) in
      match stored with
      | Err _ =>
          ignore (ml_MarkFailed W ledger claims operation key trace) ;;;
          precondition ErrMsgIdempotencyFinalizeFailed
      | Ok _ => ret m
      end
  end.
Definition decorated (m : proto) : proto :=
  match ic_DecorateLedgerReplayResponse cfg with Some f => f m | None => m end.
(** A mutation of a machine that identified itself. *)
Definition mutate (ctx : CallContext) (claims : MachineAccessClaims) (fullMethod key hash : string)
    (handler : M W (option proto)) : M W proto :=
  let operation := ledger_operation fullMethod in
  let! begin := ml_BeginMutation W ledger claims operation key hash (trace_of ctx) (ic_NewMutationResponse cfg) in
  match begin.2 with
  | Some replay => ret (decorated replay)
  | None => run_and_record claims begin.1 operation key (trace_of ctx) handler
  end.
(** [UnaryServerInterceptor]: [None] as the answer of a handler that is not a
    mutation passes through.  A request that is not a message is [None]. *)
Definition UnaryServerInterceptor (ctx : CallContext) (req : option proto) (fullMethod : string)
    (handler : M W (option proto)) : M W (option proto) :=
  if negb (ic_IsIdempotentMutation cfg fullMethod) then handler
  else
    match cx_claims ctx with
    | None => fail (EStatus Unauthenticated "missing machine credentials")
    | Some claims =>
        match req with
        | None => fail (EStatus InvalidArgument "invalid machine mutation request")
        | Some pm =>
            match MutationIdempotencyKey pm with
            | Err e => fail (EStatus InvalidArgument (TrimPrefix (err_Error e) "machineidempotency: "))
            | Ok key =>
                match HashMutationRequest pm with
                | Err _ => fail (EStatus InvalidArgument "request hash failed")
                | Ok hash => fmap_M Some (mutate ctx claims fullMethod key hash handler)
                end
            end
        end
    end.
End Interceptor.
