(* ===== verification/MachineReplay.v ===== *)
(** * The methods of the machine protocol and the ledger

    internal/grpcserver/machine_replay_ledger.go: which methods are mutations
    the ledger guards, which of them are names of the same operation, the
    message each answers with, and how a replayed answer is marked. *)

From S2P Require Import Prelude.
From S2P Require Import GoStd.
From S2P Require Import Protobuf.
From S2P Require Import Pricing.
From S2P Require Import CommerceTypes.
From S2P Require Import Rules.
From S2P Require Import Db.
From S2P Require Import MachineIdempotency.
Local Open Scope string_scope.
Local Open Scope list_scope.

(** The names the generated code declares. *)
Definition full_method (service method : string) : string :=
  "/avf.machine.v1.Machine" +:+ service +:+ "Service/" +:+ method.
Definition bootstrap_rpc : string -> string := full_method "Bootstrap".
Definition catalog_rpc : string -> string := full_method "Catalog".
Definition command_rpc : string -> string := full_method "Command".
Definition commerce_rpc : string -> string := full_method "Commerce".
Definition inventory_rpc : string -> string := full_method "Inventory".
Definition media_rpc : string -> string := full_method "Media".
Definition offlinesync_rpc : string -> string := full_method "OfflineSync".
Definition operator_rpc : string -> string := full_method "Operator".
Definition sale_rpc : string -> string := full_method "Sale".
Definition telemetry_rpc : string -> string := full_method "Telemetry".

Definition canonicalMachineMutationOperation (fullMethod : string) : string :=
  if String.eqb fullMethod (commerce_rpc "CreateCashCheckout") then commerce_rpc "ConfirmCashPayment"
  else if String.eqb fullMethod (commerce_rpc "AttachPaymentResult") then commerce_rpc "CreatePaymentSession"
  else if String.eqb fullMethod (commerce_rpc "ReportVendSuccess") then commerce_rpc "ConfirmVendSuccess"
  else if String.eqb fullMethod (inventory_rpc "SubmitFillReport") then inventory_rpc "SubmitFillResult"
  else if String.eqb fullMethod (inventory_rpc "SubmitStockAdjustment") then inventory_rpc "SubmitInventoryAdjustment"
  else fullMethod.

Definition machine_mutations : list string :=
    [commerce_rpc "CreateQuote";
     commerce_rpc "CreateOrderFromQuote";
     commerce_rpc "CreateOrder";
     commerce_rpc "CreatePaymentSession";
     commerce_rpc "AttachPaymentResult";
     commerce_rpc "ConfirmCashPayment";
     commerce_rpc "CreateCashCheckout";
     commerce_rpc "StartVend";
     commerce_rpc "ConfirmVendSuccess";
     commerce_rpc "ReportVendSuccess";
     commerce_rpc "ReportVendFailure";
     commerce_rpc "CancelOrder";
     commerce_rpc "MarkOrderUnknown";
     sale_rpc "CreateSale";
     sale_rpc "AttachPayment";
     sale_rpc "ConfirmCashReceived";
     sale_rpc "StartVend";
     sale_rpc "CompleteVend";
     sale_rpc "FailVend";
     sale_rpc "CancelSale";
     inventory_rpc "PushInventoryDelta";
     inventory_rpc "SubmitStockSnapshot";
     inventory_rpc "SubmitFillResult";
     inventory_rpc "SubmitFillReport";
     inventory_rpc "SubmitRestock";
     inventory_rpc "SubmitInventoryAdjustment";
     inventory_rpc "SubmitStockAdjustment";
     operator_rpc "SubmitFillReport";
     operator_rpc "SubmitStockAdjustment";
     operator_rpc "HeartbeatOperatorSession";
     telemetry_rpc "CheckIn";
     telemetry_rpc "SubmitTelemetryBatch";
     telemetry_rpc "PushTelemetryBatch";
     telemetry_rpc "PushCriticalEvent";
     telemetry_rpc "ReconcileEvents";
     bootstrap_rpc "CheckIn";
     bootstrap_rpc "AckConfigVersion";
     catalog_rpc "AckCatalogVersion";
     inventory_rpc "AckInventorySync";
     media_rpc "AckMediaVersion";
     command_rpc "ReportUpdateStatus";
     command_rpc "ReportDiagnosticBundleResult"].
Definition isMachineIdempotentMutation (fullMethod : string) : bool := one_of fullMethod machine_mutations.

Definition machine_v1 (message : string) : string := "avf.machine.v1." +:+ message.
Definition response_types : list (string * string) :=
    [(commerce_rpc "CreateQuote", "CreateQuoteResponse");
     (commerce_rpc "CreateOrderFromQuote", "CreateOrderFromQuoteResponse");
     (commerce_rpc "CreateOrder", "CreateOrderResponse");
     (commerce_rpc "CreatePaymentSession", "CreatePaymentSessionResponse");
     (commerce_rpc "ConfirmCashPayment", "ConfirmCashPaymentResponse");
     (commerce_rpc "StartVend", "StartVendResponse");
     (commerce_rpc "ConfirmVendSuccess", "ConfirmVendSuccessResponse");
     (commerce_rpc "ReportVendSuccess", "ReportVendSuccessResponse");
     (commerce_rpc "ReportVendFailure", "ReportVendFailureResponse");
     (commerce_rpc "CancelOrder", "CancelOrderResponse");
     (commerce_rpc "MarkOrderUnknown", "MarkOrderUnknownResponse");
     (sale_rpc "CreateSale", "CreateSaleResponse");
     (sale_rpc "AttachPayment", "AttachPaymentResponse");
     (sale_rpc "ConfirmCashReceived", "ConfirmCashReceivedResponse");
     (sale_rpc "StartVend", "StartVendResponse");
     (sale_rpc "CompleteVend", "ConfirmVendSuccessResponse");
     (sale_rpc "FailVend", "ReportVendFailureResponse");
     (sale_rpc "CancelSale", "CancelOrderResponse");
     (inventory_rpc "PushInventoryDelta", "ReportInventoryDeltaResponse");
     (inventory_rpc "SubmitStockSnapshot", "SubmitStockSnapshotResponse");
     (inventory_rpc "SubmitFillResult", "SubmitFillResultResponse");
     (inventory_rpc "SubmitRestock", "SubmitRestockResponse");
     (inventory_rpc "SubmitInventoryAdjustment", "SubmitInventoryAdjustmentResponse");
     (operator_rpc "SubmitFillReport", "SubmitFillReportResponse");
     (operator_rpc "SubmitStockAdjustment", "SubmitStockAdjustmentResponse");
     (operator_rpc "HeartbeatOperatorSession", "HeartbeatOperatorSessionResponse");
     (telemetry_rpc "CheckIn", "CheckInResponse");
     (telemetry_rpc "SubmitTelemetryBatch", "SubmitTelemetryBatchResponse");
     (telemetry_rpc "PushTelemetryBatch", "PushTelemetryBatchResponse");
     (telemetry_rpc "PushCriticalEvent", "PushCriticalEventResponse");
     (telemetry_rpc "ReconcileEvents", "ReconcileEventsResponse");
     (offlinesync_rpc "PushOfflineEvents", "SyncOfflineEventsResponse");
     (bootstrap_rpc "CheckIn", "MachineBootstrapServiceCheckInResponse");
     (bootstrap_rpc "AckConfigVersion", "AckConfigVersionResponse");
     (catalog_rpc "AckCatalogVersion", "AckCatalogVersionResponse");
     (inventory_rpc "AckInventorySync", "AckInventorySyncResponse");
     (media_rpc "AckMediaVersion", "AckMediaVersionResponse");
     (command_rpc "ReportUpdateStatus", "ReportUpdateStatusResponse");
     (command_rpc "ReportDiagnosticBundleResult", "ReportDiagnosticBundleResultResponse")].
(** [None]: the code panics. *)
Definition newMachineMutationResponse (fullMethod : string) : option string :=
  option_map (fun r => machine_v1 r.2)
    (List.find (fun r => String.eqb r.1 (canonicalMachineMutationOperation fullMethod)) response_types).

(** The answers the services declare (proto/avf/machine/v1). *)
Definition declared_responses : list (string * string) :=
    [(commerce_rpc "CreateQuote", "CreateQuoteResponse");
     (commerce_rpc "CreateOrderFromQuote", "CreateOrderFromQuoteResponse");
     (commerce_rpc "CreateOrder", "CreateOrderResponse");
     (commerce_rpc "CreatePaymentSession", "CreatePaymentSessionResponse");
     (commerce_rpc "AttachPaymentResult", "CreatePaymentSessionResponse");
     (commerce_rpc "ConfirmCashPayment", "ConfirmCashPaymentResponse");
     (commerce_rpc "CreateCashCheckout", "ConfirmCashPaymentResponse");
     (commerce_rpc "StartVend", "StartVendResponse");
     (commerce_rpc "ConfirmVendSuccess", "ConfirmVendSuccessResponse");
     (commerce_rpc "ReportVendSuccess", "ReportVendSuccessResponse");
     (commerce_rpc "ReportVendFailure", "ReportVendFailureResponse");
     (commerce_rpc "CancelOrder", "CancelOrderResponse");
     (commerce_rpc "MarkOrderUnknown", "MarkOrderUnknownResponse");
     (sale_rpc "CreateSale", "CreateSaleResponse");
     (sale_rpc "AttachPayment", "AttachPaymentResponse");
     (sale_rpc "ConfirmCashReceived", "ConfirmCashReceivedResponse");
     (sale_rpc "StartVend", "StartVendResponse");
     (sale_rpc "CompleteVend", "ConfirmVendSuccessResponse");
     (sale_rpc "FailVend", "ReportVendFailureResponse");
     (sale_rpc "CancelSale", "CancelOrderResponse");
     (inventory_rpc "PushInventoryDelta", "ReportInventoryDeltaResponse");
     (inventory_rpc "SubmitStockSnapshot", "SubmitStockSnapshotResponse");
     (inventory_rpc "SubmitFillResult", "SubmitFillResultResponse");
     (inventory_rpc "SubmitFillReport", "SubmitFillResultResponse");
     (inventory_rpc "SubmitRestock", "SubmitRestockResponse");
     (inventory_rpc "SubmitInventoryAdjustment", "SubmitInventoryAdjustmentResponse");
     (inventory_rpc "SubmitStockAdjustment", "SubmitInventoryAdjustmentResponse");
     (operator_rpc "SubmitFillReport", "SubmitFillReportResponse");
     (operator_rpc "SubmitStockAdjustment", "SubmitStockAdjustmentResponse");
     (operator_rpc "HeartbeatOperatorSession", "HeartbeatOperatorSessionResponse");
     (telemetry_rpc "CheckIn", "CheckInResponse");
     (telemetry_rpc "SubmitTelemetryBatch", "SubmitTelemetryBatchResponse");
     (telemetry_rpc "PushTelemetryBatch", "PushTelemetryBatchResponse");
     (telemetry_rpc "PushCriticalEvent", "PushCriticalEventResponse");
     (telemetry_rpc "ReconcileEvents", "ReconcileEventsResponse");
     (bootstrap_rpc "CheckIn", "MachineBootstrapServiceCheckInResponse");
     (bootstrap_rpc "AckConfigVersion", "AckConfigVersionResponse");
     (catalog_rpc "AckCatalogVersion", "AckCatalogVersionResponse");
     (inventory_rpc "AckInventorySync", "AckInventorySyncResponse");
     (media_rpc "AckMediaVersion", "AckMediaVersionResponse");
     (command_rpc "ReportUpdateStatus", "ReportUpdateStatusResponse");
     (command_rpc "ReportDiagnosticBundleResult", "ReportDiagnosticBundleResultResponse")].
Definition declared_response (fullMethod : string) : option string :=
  option_map (fun r => machine_v1 r.2) (List.find (fun r => String.eqb r.1 fullMethod) declared_responses).

Definition replayed_flag (m : pvalue) : pvalue :=
  match m with
  | PMessage t fs => PMessage t (set_field "replay" (fun _ => PBool true) fs)
  | v => v
  end.
(** Messages with a flag of their own, and messages with a part that has it. *)
Definition flagged_responses : list string :=
    ["CreateQuoteResponse";
     "CreateOrderFromQuoteResponse";
     "CreateOrderResponse";
     "CreatePaymentSessionResponse";
     "ConfirmCashPaymentResponse";
     "StartVendResponse";
     "ConfirmVendSuccessResponse";
     "ReportVendSuccessResponse";
     "ReportVendFailureResponse";
     "CancelOrderResponse";
     "MarkOrderUnknownResponse";
     "ReportInventoryDeltaResponse";
     "SubmitStockSnapshotResponse";
     "SubmitFillResultResponse";
     "SubmitRestockResponse";
     "SubmitInventoryAdjustmentResponse";
     "CheckInResponse";
     "PushCriticalEventResponse"].
Definition flagged_parts : list (string * string) :=
    [("CreateSaleResponse", "order");
     ("AttachPaymentResponse", "payment_session");
     ("ConfirmCashReceivedResponse", "payment");
     ("SubmitFillReportResponse", "fill");
     ("SubmitStockAdjustmentResponse", "adjustment")].
Definition decorateMachineLedgerReplayResponse (m : proto) : proto :=
  if existsb (fun t => String.eqb (pm_type m) (machine_v1 t)) flagged_responses then
    mk_proto (pm_type m) (set_field "replay" (fun _ => PBool true) (pm_fields m))
  else
    match List.find (fun p => String.eqb (pm_type m) (machine_v1 p.1)) flagged_parts with
    | Some p => mk_proto (pm_type m) (set_field p.2 replayed_flag (pm_fields m))
    | None => m
    end.

(** The interceptor as the server configures it. *)
Definition machine_replay_config : InterceptorConfig :=
  mk_InterceptorConfig isMachineIdempotentMutation newMachineMutationResponse
    (Some canonicalMachineMutationOperation)
    (Some (fun ctx => match cx_requestID ctx with Some r => r | None => "" end))
    (Some decorateMachineLedgerReplayResponse).
(** [newUnaryMachineReplayInterceptor]: the ledger may be switched off, or
    missing. *)
Definition newUnaryMachineReplayInterceptor `{ProtoCodec} {W} (RequireGRPCIdempotency : bool)
    (ledger : option (MutationLedger W)) (ctx : CallContext) (req : option proto) (fullMethod : string)
    (handler : M W (option proto)) : M W (option proto) :=
  if negb RequireGRPCIdempotency then handler
  else
    match ledger with
    | None =>
        if isMachineIdempotentMutation fullMethod then
          internal "machine idempotency ledger required but not configured"
        else handler
    | Some ledger => UnaryServerInterceptor ledger machine_replay_config ctx req fullMethod handler
    end.
