(* ===== verification/History.v ===== *)
(** * What the database never loses

    [grows]: how the tables may change over any stretch of time: rows are
    appended and never deleted, and the columns that identify a row or fix
    money keep their values; the winning payment of an order never changes
    once it is set.  [wf]: the uniqueness, reference and range invariants of
    the tables.  Every statement of Queries satisfies [safe], which is both:
    the tables grow, and well-formed tables stay well-formed. *)

From S2P Require Import Prelude.
From S2P Require Import GoStd.
From S2P Require Import Pricing.
From S2P Require Import CommerceTypes.
From S2P Require Import Evidence.
From S2P Require Import Rules.
From S2P Require Import Db.
From S2P Require Import Queries.
Local Open Scope string_scope.
Local Open Scope list_scope.
Local Open Scope Z_scope.

(** ** Tables that only grow *)

Definition rows_kept {A} (K : A -> A -> Prop) (l l' : list A) : Prop :=
  exists l1 l2, l' = l1 ++ l2 /\ Forall2 K l l1.

#[export] Instance rows_kept_preorder {A} (K : A -> A -> Prop) `{!PreOrder K} :
  PreOrder (rows_kept K).
Proof.
  split.
  - intros l. exists l, []. split; [by rewrite app_nil_r|]. apply Forall_Forall2_diag.
    by apply Forall_true.
  - intros l1 l2 l3 (a & b & -> & H12) (c & e & -> & H23).
    apply Forall2_app_inv_l in H23 as (c1 & c2 & H1 & H2 & ->).
    exists c1, (c2 ++ e). split; [by rewrite app_assoc|]. by transitivity a.
Qed.

Lemma rows_kept_app {A} (K : A -> A -> Prop) `{!Reflexive K} l k : rows_kept K l (l ++ k).
Proof. exists l, k. split; [done|]. apply Forall_Forall2_diag. by apply Forall_true. Qed.

Lemma rows_kept_update {A} (K : A -> A -> Prop) `{!Reflexive K} p f l :
  (forall x, p x = true -> K x (f x)) -> rows_kept K l (update_where p f l).
Proof.
  intros Hf. exists (update_where p f l), []. split; [by rewrite app_nil_r|].
  induction l as [|x l IH]; [constructor|]. rewrite update_where_cons. constructor; [|done].
  destruct (p x) eqn:E; [by apply Hf|reflexivity].
Qed.

(** A row that was there is there, as a row of the same identity. *)
Lemma rows_kept_elem {A} (K : A -> A -> Prop) l l' x :
  rows_kept K l l' -> x ∈ l -> exists y, y ∈ l' /\ K x y.
Proof.
  intros (a & b & -> & HF) Hx. apply list_elem_of_lookup in Hx as (i & Hi).
  eapply Forall2_lookup_l in HF as (y & Hy & HK); [|exact Hi].
  exists y. split; [|done]. apply elem_of_app. left. by eapply list_elem_of_lookup_2.
Qed.

Lemma rows_kept_map {A B} (K : A -> A -> Prop) (g : A -> B) l l' :
  (forall x y, K x y -> g x = g y) -> rows_kept K l l' -> map g l `prefix_of` map g l'.
Proof.
  intros Hg (a & b & -> & HF). exists (map g b). rewrite map_app. f_equal.
  induction HF; cbn; [done|]. f_equal; [symmetry; by apply Hg|done].
Qed.

(** Columns that never change. *)
Definition fixed {A B} (g : A -> B) (x y : A) : Prop := g x = g y.
#[export] Instance fixed_preorder {A B} (g : A -> B) : PreOrder (fixed g).
Proof. split; [done|]. intros x y z. unfold fixed. congruence. Qed.

Definition order_identity (o : Order) :=
  (o_ID o, o_MachineID o, o_Currency o, (o_SubtotalMinor o, o_TaxMinor o, o_TotalMinor o),
   o_IdempotencyKey o, o_PricingSource o, o_MachinePricingSnapshot o, o_CreatedAt o).
Definition vend_identity (v : VendRow) :=
  let s := vr_Session v in
  (v_ID s, v_OrderID s, v_MachineID s, v_SlotIndex s, v_ProductID s, vr_LineSequence v,
   v_CreatedAt s).
Definition payment_identity (p : Payment) :=
  (p_ID p, p_OrderID p, p_Provider p, p_AmountMinor p, p_Currency p, p_IdempotencyKey p,
   p_AttemptSeq p, p_SupersedesPaymentID p, p_CreatedAt p).
Definition refund_identity (r : RefundRowView) :=
  (rf_ID r, rf_PaymentID r, rf_OrderID r, rf_AmountMinor r, rf_Currency r, rf_IdempotencyKey r).
Definition outbox_identity (o : OutboxEvent) :=
  (ob_ID o, ob_Topic o, ob_EventType o, ob_Payload o, ob_AggregateType o, ob_AggregateID o,
   ob_IdempotencyKey o).
Definition case_identity (c : ReconciliationCase) :=
  (rc_ID c, rc_CaseType c, rc_OrderID c, rc_PaymentID c, rc_VendSessionID c, rc_RefundID c,
   rc_ProviderEventID c, rc_CorrelationKey c, rc_FirstDetectedAt c).
Definition mutation_identity (r : MutationRow) :=
  (mu_ID r, mu_MachineID r, mu_Operation r, mu_IdempotencyKey r, mu_RequestHash r, mu_FirstSeenAt r).
Definition slot_identity (s : SlotState) := (ss_Machine s, ss_PlanogramID s, ss_Slot s).
Definition config_identity (c : VendSlotConfig) :=
  (vc_ID c, vc_MachineID c, vc_SlotCode c, vc_ProductID c).

Definition quote_identity (q : QuoteRow) :=
  (qt_ID q, qt_MachineID q, qt_Currency q, (qt_SubtotalMinor q, qt_DiscountMinor q, qt_PayableMinor q),
   qt_IdempotencyKey q, qt_ExpiresAt q, qt_PricingSource q, qt_MachinePricingSnapshot q, qt_CreatedAt q).

(** A consumed quote stays consumed. *)
Definition quote_kept (x y : QuoteRow) : Prop :=
  quote_identity x = quote_identity y /\ (qt_State x = "consumed" -> qt_State y = "consumed").
#[export] Instance quote_kept_preorder : PreOrder quote_kept.
Proof.
  split; [by split|]. intros x y z [H1 H2] [H3 H4]. split; [congruence|]. eauto.
Qed.

(** The winner of an order is final. *)
Definition order_kept (x y : Order) : Prop :=
  order_identity x = order_identity y /\
  forall w, o_WinningPaymentID x = Some w -> o_WinningPaymentID y = Some w.
#[export] Instance order_kept_preorder : PreOrder order_kept.
Proof.
  split; [by split|]. intros x y z [H1 H2] [H3 H4]. split; [congruence|]. eauto.
Qed.

(** A bank note that was accepted stays the same; the order it was given for
    may become known later, once. *)
Definition acceptance_identity (c : CashAcceptanceRow) :=
  (ca_ID c, ca_MachineID c, ca_DeviceEventID c, ca_DenominationMinor c, ca_CreditSource c, ca_Currency c,
   ca_AcceptedAt c, ca_BootID c, ca_RawMetadata c, ca_CreatedAt c).
Definition acceptance_kept (x y : CashAcceptanceRow) : Prop :=
  acceptance_identity x = acceptance_identity y /\
  forall o, ca_OrderID x = Some o -> ca_OrderID y = Some o.
#[export] Instance acceptance_kept_preorder : PreOrder acceptance_kept.
Proof.
  split; [by split|]. intros x y z [H1 H2] [H3 H4]. split; [congruence|]. eauto.
Qed.
(** A collection that is closed is final. *)
Definition collection_identity (c : CollectionRow) :=
  (kc_ID c, kc_MachineID c, kc_CollectedAt c, kc_OpenedAt c, kc_Currency c, kc_CreatedAt c, kc_OperatorSessionID c).
Definition collection_kept (x y : CollectionRow) : Prop :=
  collection_identity x = collection_identity y /\ (kc_LifecycleStatus x <> "open" -> x = y).
#[export] Instance collection_kept_preorder : PreOrder collection_kept.
Proof.
  split; [by split|]. intros x y z [H1 H2] [H3 H4]. split; [congruence|].
  intros H. rewrite (H2 H). apply H4. by rewrite <- (H2 H).
Qed.
Record cash_grows (t t' : CashTables) : Prop := mk_cash_grows {
  cg_payouts : rows_kept eq (ct_payouts t) (ct_payouts t');
  cg_lifecycle : rows_kept eq (ct_lifecycle t) (ct_lifecycle t');
  cg_observations : rows_kept eq (ct_observations t) (ct_observations t');
  cg_adjustments : rows_kept eq (ct_adjustments t) (ct_adjustments t');
  cg_collections : rows_kept collection_kept (ct_collections t) (ct_collections t');
  cg_recons : rows_kept eq (ct_recons t) (ct_recons t') }.
#[export] Instance cash_grows_preorder : PreOrder cash_grows.
Proof. split; [intros t; by split|]. intros x y z [] []. split; by etransitivity. Qed.
(** The session of an operator that has ended is final. *)
Definition session_identity (r : SessionRow) :=
  (os_ID r, os_MachineID r, os_ActorType r, os_TechnicianID r, os_UserPrincipal r, os_StartedAt r, os_CreatedAt r).
Definition session_kept (x y : SessionRow) : Prop :=
  session_identity x = session_identity y /\ (os_Status x <> "ACTIVE" -> x = y).
#[export] Instance session_kept_preorder : PreOrder session_kept.
Proof.
  split; [by split|]. intros x y z [H1 H2] [H3 H4]. split; [congruence|].
  intros H. rewrite (H2 H). apply H4. by rewrite <- (H2 H).
Qed.
Record operators_grow (t t' : OperatorTables) : Prop := mk_operators_grow {
  og_sessions : rows_kept session_kept (ot_sessions t) (ot_sessions t');
  og_auth_events : rows_kept eq (ot_auth_events t) (ot_auth_events t');
  og_attributions : rows_kept eq (ot_attributions t) (ot_attributions t') }.
#[export] Instance operators_grow_preorder : PreOrder operators_grow.
Proof. split; [intros t; by split|]. intros x y z [] []. split; by etransitivity. Qed.

(** Provider events, attempts, timelines, ledgers, evidence, cash and stock
    movements are append-only. *)
Record grows (d d' : pgdb) : Prop := mk_grows {
  gr_orders : rows_kept order_kept (d_orders d) (d_orders d');
  gr_vends : rows_kept (fixed vend_identity) (d_vends d) (d_vends d');
  gr_payments : rows_kept (fixed payment_identity) (d_payments d) (d_payments d');
  gr_attempts : rows_kept eq (d_attempts d) (d_attempts d');
  gr_refunds : rows_kept (fixed refund_identity) (d_refunds d) (d_refunds d');
  gr_events : rows_kept eq (d_events d) (d_events d');
  gr_outbox : rows_kept (fixed outbox_identity) (d_outbox d) (d_outbox d');
  gr_cases : rows_kept (fixed case_identity) (d_cases d) (d_cases d');
  gr_timeline : rows_kept eq (d_timeline d) (d_timeline d');
  gr_evidences : rows_kept eq (d_evidences d) (d_evidences d');
  gr_ledger : rows_kept eq (d_ledger d) (d_ledger d');
  gr_acceptances : rows_kept acceptance_kept (d_acceptances d) (d_acceptances d');
  gr_allocations : rows_kept eq (d_allocations d) (d_allocations d');
  gr_changes : rows_kept eq (d_changes d) (d_changes d');
  gr_stock_events : rows_kept eq (d_stock_events d) (d_stock_events d');
  gr_slots : rows_kept (fixed slot_identity) (d_slots d) (d_slots d');
  gr_slot_cfgs : rows_kept (fixed config_identity) (d_slot_cfgs d) (d_slot_cfgs d');
  gr_quotes : rows_kept quote_kept (d_quotes d) (d_quotes d');
  gr_quote_lines : rows_kept eq (d_quote_lines d) (d_quote_lines d');
  gr_mutations : rows_kept (fixed mutation_identity) (d_mutations d) (d_mutations d');
  gr_cash : cash_grows (d_cash d) (d_cash d');
  gr_operator : operators_grow (d_operator d) (d_operator d') }.
#[export] Instance grows_preorder : PreOrder grows.
Proof.
  split; [intros d; by split|]. intros x y z [] []. split; by etransitivity.
Qed.

(** ** Well-formed tables *)

(** A unique index on the rows that have a key. *)
Definition unique_on {A K} (key : A -> option K) (l : list A) : Prop := NoDup (omap key l).

Lemma unique_on_same {A K} (key : A -> option K) l x y :
  unique_on key l -> x ∈ l -> y ∈ l -> key x = key y -> key x <> None -> x = y.
Proof.
  unfold unique_on. induction l as [|z l IH]; [by intros _ ?%elem_of_nil|].
  cbn. intros Hn Hx Hy E Hs.
  assert (Htail : forall u, u ∈ l -> key u <> None -> key z = key u -> False).
  { intros u Hu Hsu Ez. rewrite Ez in Hn. destruct (key u) as [c|] eqn:Eu; [|done].
    apply NoDup_cons in Hn as [Hc _]. apply Hc. apply list_elem_of_omap. eauto. }
  assert (Hl : NoDup (omap key l)).
  { destruct (key z); [by apply NoDup_cons in Hn as [_ ?]|done]. }
  apply elem_of_cons in Hx as [->|Hx]; apply elem_of_cons in Hy as [->|Hy]; [done|..].
  - exfalso. eapply (Htail y); [done| |done]. by rewrite <- E.
  - exfalso. eapply (Htail x); [done|done|by symmetry].
  - by apply IH.
Qed.

Lemma unique_on_snoc {A K} (key : A -> option K) l x :
  unique_on key l -> (forall c y, key x = Some c -> y ∈ l -> key y <> Some c) ->
  unique_on key (l ++ [x]).
Proof.
  unfold unique_on. intros Hl Hx. rewrite omap_app. cbn. destruct (key x) as [c|] eqn:E; cbn;
    [|by rewrite app_nil_r].
  apply NoDup_app. split_and!; [done| |apply NoDup_singleton].
  intros c' Hc' ->%list_elem_of_singleton. apply list_elem_of_omap in Hc' as (y & Hy & Ey).
  by eapply Hx.
Qed.

Lemma unique_on_update {A K} (key : A -> option K) p f l :
  unique_on key l -> (forall x, p x = true -> key (f x) = key x) ->
  unique_on key (update_where p f l).
Proof.
  unfold unique_on. intros Hl Hf. replace (omap key (update_where p f l)) with (omap key l); [done|].
  clear Hl. induction l as [|x l IH]; [done|]. rewrite update_where_cons. cbn. rewrite IH.
  destruct (p x) eqn:E; [|done]. by rewrite Hf.
Qed.

(** One row gets the key [c]. *)
Lemma unique_on_claim {A K} (id : A -> option N) (key : A -> option K) p f l i c :
  unique_on id l -> unique_on key l ->
  (forall x, p x = true -> id x = Some i /\ key (f x) = Some c) ->
  (forall x, x ∈ l -> p x = false -> key x <> Some c) ->
  unique_on key (update_where p f l).
Proof.
  unfold unique_on. intros Hid Hk Hp Hn. induction l as [|x l IH]; [done|].
  rewrite update_where_cons. cbn in *.
  assert (Hk' : NoDup (omap key l))
    by (destruct (key x); [by apply NoDup_cons in Hk as [_ ?]|done]).
  assert (Hid' : NoDup (omap id l))
    by (destruct (id x); [by apply NoDup_cons in Hid as [_ ?]|done]).
  destruct (p x) eqn:Px.
  - destruct (Hp x Px) as [Ei Ec]. rewrite Ec. rewrite Ei in Hid. apply NoDup_cons in Hid as [Hi _].
    assert (Hrest : forall y, y ∈ l -> p y = false).
    { intros y Hy. destruct (p y) eqn:Py; [|done]. destruct Hi. apply list_elem_of_omap.
      exists y. split; [done|]. by apply Hp. }
    rewrite update_where_none by done. apply NoDup_cons. split; [|done].
    intros (y & Hy & Ey)%list_elem_of_omap. eapply (Hn y); [set_solver|by apply Hrest|done].
  - assert (IH' : NoDup (omap key (update_where p f l)))
      by (apply IH; [done|done|]; intros; apply Hn; [set_solver|done]).
    destruct (key x) as [e|] eqn:Ex; [|done]. apply NoDup_cons. split; [|done].
    intros (y & Hy & Ey)%list_elem_of_omap. apply elem_of_update_where in Hy as (z & Hz & ->).
    destruct (p z) eqn:Pz.
    + destruct (Hp z Pz) as [_ Ec]. eapply (Hn x); [set_solver|done|]. congruence.
    + apply NoDup_cons in Hk as [Hk _]. apply Hk. apply list_elem_of_omap. eauto.
Qed.

Definition all_in {A} (f : A -> N) (l : list A) (ids : list N) : Prop := forall x, x ∈ l -> f x ∈ ids.

Definition text_key (k : option string) : option string := if keyed k then k else None.
Definition order_key (o : Order) : option string := text_key (o_IdempotencyKey o).
Definition payment_key (p : Payment) : option (N * string) :=
  k ← text_key (p_IdempotencyKey p); Some (p_OrderID p, k).
Definition refund_key (r : RefundRowView) : option (N * string) :=
  k ← text_key (rf_IdempotencyKey r); Some (rf_OrderID r, k).
Definition event_ref_key (e : ProviderEvent) : option (string * string) :=
  k ← text_key (pe_ProviderRef e); Some (pe_Provider e, k).
Definition event_id_key (e : ProviderEvent) : option (string * string) :=
  k ← text_key (pe_WebhookEventID e); Some (pe_Provider e, k).
Definition outbox_key (o : OutboxEvent) : option (string * string) :=
  k ← text_key (ob_IdempotencyKey o); Some (ob_Topic o, k).
Definition vend_line_key (v : VendRow) : option (N * Z) :=
  Some (v_OrderID (vr_Session v), vr_LineSequence v).
Definition acceptance_key (c : CashAcceptanceRow) : option (N * string) :=
  Some (ca_MachineID c, ca_DeviceEventID c).
Definition allocation_key (c : CashAllocationRow) : option (N * string) :=
  k ← al_IdempotencyKey c; Some (al_OrderID c, k).
Definition change_key (c : CashChangeRow) : option (N * string) :=
  k ← ch_IdempotencyKey c; Some (ch_OrderID c, k).

Record wf_orders (l : list Order) (payments : list N) : Prop := mk_wf_orders {
  wo_ids : unique_on (fun o => Some (o_ID o)) l;
  wo_keys : unique_on order_key l;
  wo_winners : unique_on o_WinningPaymentID l;
  wo_winner_exists : forall o w, o ∈ l -> o_WinningPaymentID o = Some w -> w ∈ payments;
  wo_status : forall o, o ∈ l -> o_Status o ∈ orderStatuses;
  wo_amounts : forall o, o ∈ l -> 0 <= o_SubtotalMinor o /\ 0 <= o_TaxMinor o /\ 0 <= o_TotalMinor o }.
Record wf_vends (l : list VendRow) (orders : list N) : Prop := mk_wf_vends {
  wv_ids : unique_on (fun v => Some (v_ID (vr_Session v))) l;
  wv_lines : unique_on vend_line_key l;
  wv_order : all_in (fun v => v_OrderID (vr_Session v)) l orders;
  wv_state : forall v, v ∈ l -> v_State (vr_Session v) ∈ vendStates }.
Record wf_payments (l : list Payment) (orders : list N) : Prop := mk_wf_payments {
  wp_ids : unique_on (fun p => Some (p_ID p)) l;
  wp_keys : unique_on payment_key l;
  wp_order : all_in p_OrderID l orders;
  wp_state : forall p, p ∈ l -> p_State p ∈ paymentStates;
  wp_amounts : forall p, p ∈ l -> 0 <= p_AmountMinor p /\ 1 <= p_AttemptSeq p }.
Record wf_refunds (l : list RefundRowView) (payments orders : list N) : Prop := mk_wf_refunds {
  wr_keys : unique_on refund_key l;
  wr_payment : all_in rf_PaymentID l payments;
  wr_order : all_in rf_OrderID l orders;
  wr_amounts : forall r, r ∈ l -> 0 <= rf_AmountMinor r }.
(** A slot is one row, and its quantity is not negative. *)
Record wf_slots (l : list SlotState) : Prop := mk_wf_slots {
  ws_slots : unique_on (fun s => Some (slot_identity s)) l;
  ws_quantity : forall s, s ∈ l -> 0 <= ss_CurrentQuantity s }.

Definition quote_key (q : QuoteRow) : option (N * string) :=
  k ← text_key (qt_IdempotencyKey q); Some (qt_MachineID q, k).
Record wf_quotes (l : list QuoteRow) (lines : list QuoteLineRow) : Prop := mk_wf_quotes {
  wq_ids : unique_on (fun q => Some (qt_ID q)) l;
  wq_keys : unique_on quote_key l;
  wq_quote : all_in ql_QuoteID lines (map qt_ID l);
  wq_lines : unique_on (fun x => Some (ql_QuoteID x, ql_LineSequence x)) lines;
  wq_quantity : forall x, x ∈ lines -> 0 < ql_Quantity x }.

Definition mutation_key (r : MutationRow) : option (N * string * string) :=
  Some (mu_MachineID r, mu_Operation r, mu_IdempotencyKey r).

Definition payout_key (r : PayoutRow) : option (N * string) := Some (po_MachineID r, po_DeviceEventID r).
Definition note_key (r : PayoutRow) : option (N * string * Z * string) :=
  Some (po_MachineID r, po_WithdrawalID r, po_NoteSequence r, po_EventType r).
Definition lifecycle_key (r : LifecycleRow) : option (N * string) := Some (bl_MachineID r, bl_DeviceEventID r).
Definition observation_key (r : ObservationRow) : option (N * string) := Some (ho_MachineID r, ho_DeviceEventID r).
Definition open_collection (r : CollectionRow) : option N :=
  if String.eqb (kc_LifecycleStatus r) "open" then Some (kc_MachineID r) else None.
Definition active_session (r : SessionRow) : option N :=
  if String.eqb (os_Status r) "ACTIVE" then Some (os_MachineID r) else None.
(** At most one collection of a machine is open, and a closed one has what it
    was closed with. *)
Record wf_cash (t : CashTables) : Prop := mk_wf_cash {
  wc_payouts : unique_on payout_key (ct_payouts t);
  wc_notes : unique_on note_key (ct_payouts t);
  wc_lifecycle : unique_on lifecycle_key (ct_lifecycle t);
  wc_observations : unique_on observation_key (ct_observations t);
  wc_adjustments : unique_on (fun r => Some (ad_IdempotencyKey r)) (ct_adjustments t);
  wc_collections : unique_on (fun r => Some (kc_ID r)) (ct_collections t);
  wc_open : unique_on open_collection (ct_collections t) }.
(** At most one session of a machine is active. *)
Record wf_operator (t : OperatorTables) : Prop := mk_wf_operator {
  wt_sessions : unique_on (fun r => Some (os_ID r)) (ot_sessions t);
  wt_active : unique_on active_session (ot_sessions t) }.

Record wf (d : pgdb) : Prop := mk_wf {
  wf_o : wf_orders (d_orders d) (map p_ID (d_payments d));
  wf_v : wf_vends (d_vends d) (map o_ID (d_orders d));
  wf_p : wf_payments (d_payments d) (map o_ID (d_orders d));
  wf_at : all_in at_PaymentID (d_attempts d) (map p_ID (d_payments d));
  wf_r : wf_refunds (d_refunds d) (map p_ID (d_payments d)) (map o_ID (d_orders d));
  wf_ev_ref : unique_on event_ref_key (d_events d);
  wf_ev_id : unique_on event_id_key (d_events d);
  wf_ob : unique_on outbox_key (d_outbox d);
  wf_er : unique_on (fun e => Some (er_DedupeKey e)) (d_evidences d);
  wf_ca : unique_on acceptance_key (d_acceptances d);
  wf_al : unique_on allocation_key (d_allocations d);
  wf_ch : unique_on change_key (d_changes d);
  wf_s : wf_slots (d_slots d);
  wf_q : wf_quotes (d_quotes d) (d_quote_lines d);
  wf_mu : unique_on mutation_key (d_mutations d);
  wf_c : wf_cash (d_cash d);
  wf_op : wf_operator (d_operator d) }.

(** What every statement does. *)
Definition safe (d d' : pgdb) : Prop := grows d d' /\ (wf d -> wf d').
#[export] Instance safe_preorder : PreOrder safe.
Proof.
  split; [intros d; by split|]. intros x y z [] []. split; [by etransitivity|auto].
Qed.

(** ** One table changes *)

Lemma all_in_mono {A} (f : A -> N) l ids ids' :
  all_in f l ids -> ids `prefix_of` ids' -> all_in f l ids'.
Proof. intros H [k ->] x Hx. apply elem_of_app. left. by apply H. Qed.

Lemma prefix_elem {A} (l l' : list A) x : l `prefix_of` l' -> x ∈ l -> x ∈ l'.
Proof. intros [k ->] Hx. apply elem_of_app. by left. Qed.

Lemma order_ids_prefix l l' : rows_kept order_kept l l' -> map o_ID l `prefix_of` map o_ID l'.
Proof. apply rows_kept_map. intros x y [H _]. unfold order_identity in H. congruence. Qed.
Lemma payment_ids_prefix l l' :
  rows_kept (fixed payment_identity) l l' -> map p_ID l `prefix_of` map p_ID l'.
Proof. apply rows_kept_map. intros x y H. unfold fixed, payment_identity in H. congruence. Qed.

Lemma safe_orders d f :
  rows_kept order_kept (d_orders d) (f (d_orders d)) ->
  (wf d -> wf_orders (f (d_orders d)) (map p_ID (d_payments d))) -> safe d (set_orders f d).
Proof.
  intros Hk Hw. pose proof (order_ids_prefix _ _ Hk) as Hids. split; [by split|].
  intros H. specialize (Hw H). destruct H as [Ho [] [] Hat [] ? ? ? ? ? ? ? ? ? ? ?].
  split; cbn; try done; split; try done; by eapply all_in_mono.
Qed.
Lemma safe_payments d f :
  rows_kept (fixed payment_identity) (d_payments d) (f (d_payments d)) ->
  (wf d -> wf_payments (f (d_payments d)) (map o_ID (d_orders d))) -> safe d (set_payments f d).
Proof.
  intros Hk Hw. pose proof (payment_ids_prefix _ _ Hk) as Hids. split; [by split|].
  intros H. specialize (Hw H). destruct H as [[] [] [] Hat [] ? ? ? ? ? ? ? ? ? ? ?].
  split; cbn; try done; try (by eapply all_in_mono); split; try done; try (by eapply all_in_mono).
  intros o w Ho Ew. eapply prefix_elem; [done|eauto].
Qed.
(** The tables no other table refers to. *)
Lemma safe_vends d f :
  rows_kept (fixed vend_identity) (d_vends d) (f (d_vends d)) ->
  (wf d -> wf_vends (f (d_vends d)) (map o_ID (d_orders d))) -> safe d (set_vends f d).
Proof. intros Hk Hw. split; [by split|]. intros H. specialize (Hw H). by destruct H. Qed.
Lemma safe_attempts d f :
  rows_kept eq (d_attempts d) (f (d_attempts d)) ->
  (wf d -> all_in at_PaymentID (f (d_attempts d)) (map p_ID (d_payments d))) ->
  safe d (set_attempts f d).
Proof. intros Hk Hw. split; [by split|]. intros H. specialize (Hw H). by destruct H. Qed.
Lemma safe_refunds d f :
  rows_kept (fixed refund_identity) (d_refunds d) (f (d_refunds d)) ->
  (wf d -> wf_refunds (f (d_refunds d)) (map p_ID (d_payments d)) (map o_ID (d_orders d))) ->
  safe d (set_refunds f d).
Proof. intros Hk Hw. split; [by split|]. intros H. specialize (Hw H). by destruct H. Qed.
Lemma safe_events d f :
  rows_kept eq (d_events d) (f (d_events d)) ->
  (wf d -> unique_on event_ref_key (f (d_events d)) /\ unique_on event_id_key (f (d_events d))) ->
  safe d (set_events f d).
Proof. intros Hk Hw. split; [by split|]. intros H. destruct (Hw H). by destruct H. Qed.
Lemma safe_outbox d f :
  rows_kept (fixed outbox_identity) (d_outbox d) (f (d_outbox d)) ->
  (wf d -> unique_on outbox_key (f (d_outbox d))) -> safe d (set_outbox f d).
Proof. intros Hk Hw. split; [by split|]. intros H. specialize (Hw H). by destruct H. Qed.
Lemma safe_evidences d f :
  rows_kept eq (d_evidences d) (f (d_evidences d)) ->
  (wf d -> unique_on (fun e => Some (er_DedupeKey e)) (f (d_evidences d))) ->
  safe d (set_evidences f d).
Proof. intros Hk Hw. split; [by split|]. intros H. specialize (Hw H). by destruct H. Qed.
Lemma safe_acceptances d f :
  rows_kept acceptance_kept (d_acceptances d) (f (d_acceptances d)) ->
  (wf d -> unique_on acceptance_key (f (d_acceptances d))) -> safe d (set_acceptances f d).
Proof. intros Hk Hw. split; [by split|]. intros H. specialize (Hw H). by destruct H. Qed.
Lemma safe_allocations d f :
  rows_kept eq (d_allocations d) (f (d_allocations d)) ->
  (wf d -> unique_on allocation_key (f (d_allocations d))) -> safe d (set_allocations f d).
Proof. intros Hk Hw. split; [by split|]. intros H. specialize (Hw H). by destruct H. Qed.
Lemma safe_changes d f :
  rows_kept eq (d_changes d) (f (d_changes d)) ->
  (wf d -> unique_on change_key (f (d_changes d))) -> safe d (set_changes f d).
Proof. intros Hk Hw. split; [by split|]. intros H. specialize (Hw H). by destruct H. Qed.
Lemma safe_mutations d f :
  rows_kept (fixed mutation_identity) (d_mutations d) (f (d_mutations d)) ->
  (wf d -> unique_on mutation_key (f (d_mutations d))) -> safe d (set_mutations f d).
Proof. intros Hk Hw. split; [by split|]. intros H. specialize (Hw H). by destruct H. Qed.
Lemma safe_cash d f :
  cash_grows (d_cash d) (f (d_cash d)) -> (wf_cash (d_cash d) -> wf_cash (f (d_cash d))) -> safe d (set_cash f d).
Proof. intros Hk Hw. split; [by split|]. intros []. split; auto. Qed.
Lemma safe_operator d f :
  operators_grow (d_operator d) (f (d_operator d)) -> (wf_operator (d_operator d) -> wf_operator (f (d_operator d))) ->
  safe d (set_operator f d).
Proof. intros Hk Hw. split; [by split|]. intros []. split; auto. Qed.
Lemma safe_slots d f :
  rows_kept (fixed slot_identity) (d_slots d) (f (d_slots d)) ->
  (wf d -> wf_slots (f (d_slots d))) -> safe d (set_slots f d).
Proof. intros Hk Hw. split; [by split|]. intros H. specialize (Hw H). by destruct H. Qed.
(** The tables without an invariant. *)
Lemma safe_cases d f :
  rows_kept (fixed case_identity) (d_cases d) (f (d_cases d)) -> safe d (set_cases f d).
Proof. intros Hk. split; [by split|]. by intros []. Qed.
Lemma safe_timeline d f :
  rows_kept eq (d_timeline d) (f (d_timeline d)) -> safe d (set_timeline f d).
Proof. intros Hk. split; [by split|]. by intros []. Qed.
Lemma safe_ledger d f : rows_kept eq (d_ledger d) (f (d_ledger d)) -> safe d (set_ledger f d).
Proof. intros Hk. split; [by split|]. by intros []. Qed.
Lemma safe_stock_events d f :
  rows_kept eq (d_stock_events d) (f (d_stock_events d)) -> safe d (set_stock_events f d).
Proof. intros Hk. split; [by split|]. by intros []. Qed.
Lemma safe_slot_cfgs d f :
  rows_kept (fixed config_identity) (d_slot_cfgs d) (f (d_slot_cfgs d)) ->
  safe d (set_slot_cfgs f d).
Proof. intros Hk. split; [by split|]. by intros []. Qed.

Lemma safe_quotes d f :
  rows_kept quote_kept (d_quotes d) (f (d_quotes d)) ->
  (wf d -> wf_quotes (f (d_quotes d)) (d_quote_lines d)) -> safe d (set_quotes f d).
Proof. intros Hk Hw. split; [by split|]. intros H. specialize (Hw H). by destruct H. Qed.
Lemma safe_quote_lines d f :
  rows_kept eq (d_quote_lines d) (f (d_quote_lines d)) ->
  (wf d -> wf_quotes (d_quotes d) (f (d_quote_lines d))) -> safe d (set_quote_lines f d).
Proof. intros Hk Hw. split; [by split|]. intros H. specialize (Hw H). by destruct H. Qed.

(** ** Checked constraints *)

Lemma guard_err_inv b e u : guard_err b e = Ok u -> b = false.
Proof. by destruct b. Qed.
Lemma unique_Ok {A} (same : A -> bool) l c u : unique same l c = Ok u -> forall x, x ∈ l -> same x = false.
Proof.
  intros H%guard_err_inv x Hx. destruct (same x) eqn:E; [|done].
  rewrite <- H. symmetry. apply existsb_exists. exists x. by rewrite <- list_elem_of_In.
Qed.
Lemma existsb_false_elem {A} (same : A -> bool) l :
  existsb same l = false -> forall x, x ∈ l -> same x = false.
Proof.
  intros H x Hx. destruct (same x) eqn:E; [|done].
  rewrite <- H. symmetry. apply existsb_exists. exists x. by rewrite <- list_elem_of_In.
Qed.
Lemma check_Ok b c u : check b c = Ok u -> b = true.
Proof. intros H%guard_err_inv. by destruct b. Qed.
Lemma fk_Ok {A} (id : A -> N) i l c u : fk id i l c = Ok u -> i ∈ map id l.
Proof.
  intros H%guard_err_inv%negb_false_iff. apply existsb_exists in H as (x & Hx & E%N.eqb_eq).
  apply list_elem_of_fmap. exists x. split; [done|]. by apply list_elem_of_In.
Qed.
Lemma text_key_Some k c : text_key k = Some c -> keyed k = true /\ k = Some c.
Proof. unfold text_key. by destruct (keyed k). Qed.
Lemma sql_text_eq_refl c : sql_text_eq (Some c) (Some c) = true.
Proof. apply String.eqb_refl. Qed.

(** Opens the result of a constraint check. *)
Ltac inv_checks :=
  repeat match goal with
  | H : res_bind _ _ = Ok _ |- _ =>
      let u := fresh "u" in let E := fresh "C" in apply res_bind_inv_Ok in H as (u & E & H)
  | H : check _ _ = Ok _ |- _ => apply check_Ok in H
  | H : one_of _ _ = true |- _ => apply one_of_spec in H
  | H : fk _ _ _ _ = Ok _ |- _ => apply fk_Ok in H
  | H : unique _ _ _ = Ok _ |- _ =>
      let U := fresh "U" in pose proof (unique_Ok _ _ _ _ H) as U; cbn beta in U; clear H
  | H : _ && _ = true |- _ => apply andb_true_iff in H as [? ?]
  | H : (_ <=? _) = true |- _ => apply Z.leb_le in H
  | H : (_ <? _) = true |- _ => apply Z.ltb_lt in H
  end.

(** ** The statement forms *)

Section Forms.
Context (P : pgdb -> pgdb -> Prop) `{!Reflexive P}.

Lemma guarantee_select_one {A} (f : pgdb -> option A) : sql_guarantee P (select_one f).
Proof. by intros now id d r d' [= <- <-]. Qed.
Lemma guarantee_select_many {A} (f : pgdb -> list A) : sql_guarantee P (select_many f).
Proof. by intros now id d r d' [= <- <-]. Qed.

Lemma guarantee_insert_row {A} (set : (list A -> list A) -> pgdb -> pgdb) chk row :
  (forall now id d, chk (row now id) d = Ok tt -> P d (set (fun l => l ++ [row now id]) d)) ->
  sql_guarantee P (insert_row set chk row).
Proof.
  intros H now id d r d'. unfold insert_row. destruct (chk _ _) as [[]|] eqn:E; [|done].
  intros [= <- <-]. by apply H.
Qed.
Lemma guarantee_insert_or_nothing {A} get (set : (list A -> list A) -> pgdb -> pgdb) same chk row :
  (forall now id d, (forall x, x ∈ get d -> same x = false) ->
     chk (row now id) d = Ok tt -> P d (set (fun l => l ++ [row now id]) d)) ->
  sql_guarantee P (insert_or_nothing get set same chk row).
Proof.
  intros H now id d r d'. unfold insert_or_nothing.
  destruct (existsb same (get d)) eqn:E; [by intros [= <- <-]|].
  unfold insert_row. destruct (chk _ _) as [[]|] eqn:Ec; [|done].
  intros [= <- <-]. apply H; [by apply existsb_false_elem|done].
Qed.
Lemma guarantee_insert_once {A} get (set : (list A -> list A) -> pgdb -> pgdb) valid same refs row :
  (forall now id d, valid (row now id) = Ok tt -> (forall x, x ∈ get d -> same x = false) ->
     refs (row now id) d = Ok tt -> P d (set (fun l => l ++ [row now id]) d)) ->
  sql_guarantee P (insert_once get set valid same refs row).
Proof.
  intros H now id d r d'. unfold insert_once. destruct (valid _) as [[]|] eqn:Ev; [|done].
  unfold insert_or_nothing. destruct (existsb same (get d)) eqn:E; [by intros [= <- <-]|].
  unfold insert_row. destruct (refs _ _) as [[]|] eqn:Ec; [|done].
  intros [= <- <-]. apply H; [done|by apply existsb_false_elem|done].
Qed.
Lemma guarantee_insert_or_get {A} get (set : (list A -> list A) -> pgdb -> pgdb) same chk row :
  (forall now id d, (forall x, x ∈ get d -> same x = false) ->
     chk (row now id) d = Ok tt -> P d (set (fun l => l ++ [row now id]) d)) ->
  sql_guarantee P (insert_or_get get set same chk row).
Proof.
  intros H now id d r d'. unfold insert_or_get.
  destruct (List.find same (get d)) eqn:E; [by intros [= <- <-]|].
  unfold insert_row. destruct (chk _ _) as [[]|] eqn:Ec; [|done].
  intros [= <- <-]. apply H; [by apply find_None_elem|done].
Qed.
Lemma guarantee_update_rows {A} get (set : (list A -> list A) -> pgdb -> pgdb) chk p f :
  (forall now d r, r ∈ get d -> p r = true -> chk (f now r) d = Ok tt ->
     P d (set (update_where p (f now)) d)) ->
  sql_guarantee P (update_rows get set chk p f).
Proof.
  intros H now id d r d'. unfold update_rows.
  destruct (List.find p (get d)) as [x|] eqn:E; [|by intros [= <- <-]].
  apply find_Some_elem in E as [Hx Px].
  destruct (chk _ _) as [[]|] eqn:Ec; [|done]. intros [= <- <-]. by eapply H.
Qed.
End Forms.

(** ** Every statement is safe *)

Lemma elem_of_snoc {A} (x y : A) l : x ∈ l ++ [y] <-> x ∈ l \/ x = y.
Proof. by rewrite elem_of_app, list_elem_of_singleton. Qed.
Lemma all_in_snoc {A} (f : A -> N) l x ids : all_in f l ids -> f x ∈ ids -> all_in f (l ++ [x]) ids.
Proof. intros H Hx y [Hy|Hy]%elem_of_snoc; [by apply H|by subst]. Qed.
Lemma forall_snoc {A} (P : A -> Prop) l x :
  (forall y, y ∈ l -> P y) -> P x -> forall y, y ∈ l ++ [x] -> P y.
Proof. intros H Hx y [Hy|Hy]%elem_of_snoc; [by apply H|by subst]. Qed.
Lemma forall_update {A} (P : A -> Prop) p f l :
  (forall y, y ∈ l -> P y) -> (forall x, x ∈ l -> p x = true -> P (f x)) ->
  forall y, y ∈ update_where p f l -> P y.
Proof.
  intros H Hf y (x & Hx & ->)%elem_of_update_where. destruct (p x) eqn:E; [by apply Hf|by apply H].
Qed.

(** The composite keys of the unique indexes. *)
Lemma pair_key_Some {B} (b : B) k c :
  (k' ← text_key k; Some (b, k')) = Some c -> keyed k = true /\ exists s, k = Some s /\ c = (b, s).
Proof.
  destruct (text_key k) as [s|] eqn:E; [|done]. intros [= <-].
  apply text_key_Some in E as [? ->]. eauto.
Qed.

Lemma InsertOrder_safe (id : option N) (row : Z -> N -> Order) :
  (forall now i, o_WinningPaymentID (row now i) = None) ->
  sql_guarantee safe (insert_row set_orders order_insert_ok (fun now fresh => row now (default fresh id))).
Proof.
  intros Hw. apply guarantee_insert_row. intros now i d Hc.
  set (o := row now (default i id)) in *. specialize (Hw now (default i id)). fold o in Hw.
  unfold order_insert_ok, order_row_ok in Hc. inv_checks.
  apply safe_orders; [apply rows_kept_app; apply _|]. intros [[] _ _ _ _ _ _ _ _ _ _ _ _]. split.
  - apply unique_on_snoc; [done|]. intros c y [= <-] Hy [= E].
    specialize (U0 y Hy). by apply N.eqb_neq in U0.
  - apply unique_on_snoc; [done|]. intros c y [Hk E]%text_key_Some Hy [Hk' E']%text_key_Some.
    specialize (U y Hy). rewrite Hk, E, E' in U. by rewrite sql_text_eq_refl in U.
  - apply unique_on_snoc; [done|]. by rewrite Hw.
  - intros x w [Hx|Hx]%elem_of_snoc; [by apply wo_winner_exists0|subst x; congruence].
  - by apply forall_snoc.
  - apply forall_snoc; [done|]. done.
Qed.

(** Orders: a status update keeps the winner, a claim sets it once. *)
Lemma order_with_kept o status now :
  order_kept o (order_with o status (o_WinningPaymentID o) (o_WinningClaimedAt o) now).
Proof. split; [done|]. by intros w. Qed.

Lemma UpdateOrderStatus_safe status id :
  sql_guarantee safe (update_rows d_orders set_orders order_update_ok (fun o => o_ID o =u id)
    (fun now o => order_with o status (o_WinningPaymentID o) (o_WinningClaimedAt o) now)).
Proof.
  apply guarantee_update_rows; [apply _|]. intros now d r Hr Hp Hc.
  unfold order_update_ok in Hc. inv_checks.
  apply safe_orders; [apply rows_kept_update; [apply _|]; intros; apply order_with_kept|].
  intros [[] _ _ _ _ _ _ _ _ _ _ _ _]. split.
  - by apply unique_on_update.
  - by apply unique_on_update.
  - by apply unique_on_update.
  - intros o w (x & Hx & ->)%elem_of_update_where Hw. apply (wo_winner_exists0 x); [done|].
    by destruct (o_ID x =u id).
  - apply forall_update; [done|]. by intros.
  - apply forall_update; [done|]. intros x Hx _. exact (wo_amounts0 x Hx).
Qed.

Lemma claim_kept winner status now o :
  is_none (o_WinningPaymentID o) = true -> order_kept o (order_with o status (Some winner) (Some now) now).
Proof. intros Hn. split; [done|]. intros w Hw. by rewrite Hw in Hn. Qed.

Lemma ClaimWinning_safe winner order :
  sql_guarantee safe (update_rows d_orders set_orders order_update_ok
    (fun o => (o_ID o =u order) && is_none (o_WinningPaymentID o))
    (fun now o => order_with o
       (if one_of (o_Status o) ["created"; "quoted"] then "paid" else o_Status o)
       (Some winner) (Some now) now)).
Proof.
  apply guarantee_update_rows; [apply _|]. intros now d r Hr Hp Hc.
  unfold order_update_ok in Hc. cbn [o_Status o_WinningPaymentID order_with fk_opt] in Hc. inv_checks.
  apply safe_orders.
  { apply rows_kept_update; [apply _|]. intros x [_ Hn]%andb_true_iff. by apply claim_kept. }
  intros [[] _ _ _ _ _ _ _ _ _ _ _ _].
  assert (Hid : o_ID r = order) by by apply N.eqb_eq.
  split.
  - by apply unique_on_update.
  - by apply unique_on_update.
  - eapply unique_on_claim with (i := order) (c := winner); [exact wo_ids0|done|..].
    { intros x [Ei _]%andb_true_iff. apply N.eqb_eq in Ei as ->. done. }
    intros x Hx Px Ew. destruct (decide (o_ID x = o_ID r)) as [E|E].
    + assert (x = r) as -> by by eapply (unique_on_same _ _ x r wo_ids0); [| |congruence|].
      rewrite Ew in *. done.
    + specialize (U x Hx). cbn in U. rewrite Ew in U. cbn in U. rewrite N.eqb_refl in U.
      apply N.eqb_neq in E. by rewrite E in U.
  - intros o w (x & Hx & ->)%elem_of_update_where Hw.
    destruct ((o_ID x =u order) && _); [|by apply (wo_winner_exists0 x)].
    by injection Hw as <-.
  - apply forall_update; [done|]. intros x Hx _. cbn [o_Status order_with].
    destruct (one_of (o_Status x) _); [apply one_of_spec; reflexivity|by apply wo_status0].
  - apply forall_update; [done|]. intros x Hx _. exact (wo_amounts0 x Hx).
Qed.

Lemma InsertVendSession_safe order machine product slot state simulated run scenario line :
  sql_guarantee safe (insert_row set_vends vend_insert_ok (fun now id =>
    mk_VendRow (mk_VendSession id order machine slot product state None simulated run scenario now)
      line None None None "unverified" None)).
Proof.
  apply guarantee_insert_row. intros now i d Hc. unfold vend_insert_ok in Hc. inv_checks.
  apply safe_vends; [apply rows_kept_app; apply _|]. intros [_ [] _ _ _ _ _ _ _ _ _ _ _]. split.
  - apply unique_on_snoc; [done|]. intros c y [= <-] Hy [= E].
    specialize (U0 y Hy). by apply N.eqb_neq in U0.
  - apply unique_on_snoc; [done|]. intros c y [= <-] Hy [= E1 E2].
    specialize (U y Hy). cbn in U. by rewrite E1, E2, N.eqb_refl, Z.eqb_refl in U.
  - by apply all_in_snoc.
  - by apply forall_snoc.
Qed.
Lemma vends_updated_safe p (f : VendRow -> VendRow) d :
  (forall v, vend_identity (f v) = vend_identity v) ->
  (forall v, v_State (vr_Session v) ∈ vendStates -> v_State (vr_Session (f v)) ∈ vendStates) ->
  safe d (set_vends (update_where p f) d).
Proof.
  intros Hk Hst. assert (Hkn : forall v, vend_identity v = vend_identity (f v)) by (intros; by rewrite Hk).
  apply safe_vends; [apply rows_kept_update; [apply _|]; intros; apply Hkn|].
  intros [_ [] _ _ _ _ _ _ _ _ _ _ _]. unfold vend_identity in Hkn. split.
  - apply unique_on_update; [done|]. intros x _. specialize (Hkn x). congruence.
  - apply unique_on_update; [done|]. intros x _. unfold vend_line_key. specialize (Hkn x). congruence.
  - intros y (x & Hx & ->)%elem_of_update_where. destruct (p x); [|by apply wv_order0].
    replace (v_OrderID (vr_Session (f x))) with (v_OrderID (vr_Session x)); [by apply wv_order0|].
    specialize (Hkn x). congruence.
  - apply forall_update; [done|]. intros x Hx _. eapply Hst, wv_state0, Hx.
Qed.
Lemma update_vend_safe p (f : Z -> VendRow -> VendRow) :
  (forall now v, vend_identity (f now v) = vend_identity v) ->
  (forall now v r d u, vend_update_ok (f now r) d = Ok u -> v_State (vr_Session v) ∈ vendStates ->
     v_State (vr_Session (f now v)) ∈ vendStates) ->
  sql_guarantee safe (update_rows d_vends set_vends vend_update_ok p f).
Proof.
  intros Hk Hst. apply guarantee_update_rows; [apply _|]. intros now d r Hr Hp Hc.
  apply vends_updated_safe; [done|]. intros v Hv. by eapply Hst.
Qed.
Lemma vend_moved_safe p state reason :
  sql_guarantee safe (update_rows d_vends set_vends vend_update_ok p (vend_moved state reason)).
Proof.
  apply update_vend_safe; [done|]. intros now v r d u Hc _. unfold vend_update_ok in Hc. inv_checks. done.
Qed.
Lemma vend_verified_safe p status :
  sql_guarantee safe (update_rows d_vends set_vends vend_update_ok p (vend_verified status)).
Proof. by apply update_vend_safe. Qed.

(** Payments. *)
Lemma InsertPayment_safe row : sql_guarantee safe (insert_row set_payments payment_insert_ok row).
Proof.
  apply guarantee_insert_row. intros now i d Hc. set (p := row now i) in *.
  unfold payment_insert_ok, payment_update_ok in Hc. inv_checks.
  apply safe_payments; [apply rows_kept_app; apply _|]. intros [_ _ [] _ _ _ _ _ _ _ _ _ _]. split.
  - apply unique_on_snoc; [done|]. intros c y [= <-] Hy [= E].
    specialize (U0 y Hy). by apply N.eqb_neq in U0.
  - apply unique_on_snoc; [done|]. intros c y (Hk & s & E & ->)%pair_key_Some Hy
      (Hk' & s' & E' & [= Eo <-])%pair_key_Some.
    specialize (U y Hy). by rewrite Hk, E, E', Eo, N.eqb_refl, sql_text_eq_refl in U.
  - by apply all_in_snoc.
  - by apply forall_snoc.
  - by apply forall_snoc.
Qed.
Lemma update_payment_safe p f :
  (forall x, payment_identity (f x) = payment_identity x) ->
  (forall x r d u, payment_update_ok (f r) d = Ok u -> p_State x ∈ paymentStates ->
     p_State (f x) ∈ paymentStates) ->
  sql_guarantee safe (update_rows d_payments set_payments payment_update_ok p (fun _ => f)).
Proof.
  intros Hk Hst. apply guarantee_update_rows; [apply _|]. intros now d r Hr Hp Hc.
  assert (Hkn : forall v, payment_identity v = payment_identity (f v)) by (intros; by rewrite Hk).
  apply safe_payments; [apply rows_kept_update; [apply _|]; intros; apply Hkn|].
  intros [_ _ [] _ _ _ _ _ _ _ _ _ _]. unfold payment_identity in Hkn. split.
  - apply unique_on_update; [done|]. intros x _. specialize (Hkn x). congruence.
  - apply unique_on_update; [done|]. intros x _. unfold payment_key. specialize (Hkn x).
    assert (p_OrderID (f x) = p_OrderID x /\ p_IdempotencyKey (f x) = p_IdempotencyKey x) as [-> ->]
      by (split; congruence). done.
  - intros y (x & Hx & ->)%elem_of_update_where. destruct (p x); [|by apply wp_order0].
    replace (p_OrderID (f x)) with (p_OrderID x); [by apply wp_order0|].
    specialize (Hkn x). congruence.
  - apply forall_update; [done|]. intros x Hx _. eapply Hst; [done|by apply wp_state0].
  - apply forall_update; [done|]. intros x Hx _.
    assert (p_AmountMinor (f x) = p_AmountMinor x /\ p_AttemptSeq (f x) = p_AttemptSeq x) as [-> ->]
      by (specialize (Hkn x); split; congruence). by apply wp_amounts0.
Qed.
Lemma payment_state_safe p state out :
  sql_guarantee safe (update_rows d_payments set_payments payment_update_ok p
    (fun _ x => payment_with x state (out x))).
Proof.
  apply (update_payment_safe p (fun x => payment_with x state (out x))); [done|].
  intros x r d u Hc _. unfold payment_update_ok in Hc. inv_checks. done.
Qed.
Lemma payment_outcome_safe p out :
  sql_guarantee safe (update_rows d_payments set_payments payment_update_ok p
    (fun _ x => payment_with x (p_State x) out)).
Proof. by apply (update_payment_safe p (fun x => payment_with x (p_State x) out)). Qed.

(** Attempts, refunds, provider events. *)
Lemma InsertPaymentAttempt_safe row :
  sql_guarantee safe (insert_row set_attempts
    (fun a d => fk p_ID (at_PaymentID a) (d_payments d) "payment_attempts_payment_id_fkey") row).
Proof.
  apply guarantee_insert_row. intros now i d Hc. inv_checks.
  apply safe_attempts; [apply rows_kept_app; apply _|]. intros []. by apply all_in_snoc.
Qed.
Lemma InsertRefundRow_safe row : sql_guarantee safe (insert_row set_refunds refund_insert_ok row).
Proof.
  apply guarantee_insert_row. intros now i d Hc. unfold refund_insert_ok in Hc. inv_checks.
  apply safe_refunds; [apply rows_kept_app; apply _|]. intros [_ _ _ _ [] _ _ _ _ _ _ _ _]. split.
  - apply unique_on_snoc; [done|]. intros c y (Hk & s & E & ->)%pair_key_Some Hy
      (Hk' & s' & E' & [= Eo <-])%pair_key_Some.
    specialize (U y Hy). by rewrite Hk, E, E', Eo, N.eqb_refl, sql_text_eq_refl in U.
  - by apply all_in_snoc.
  - by apply all_in_snoc.
  - by apply forall_snoc.
Qed.
Lemma InsertPaymentProviderEvent_safe row :
  sql_guarantee safe (insert_row set_events event_insert_ok row).
Proof.
  apply guarantee_insert_row. intros now i d Hc. unfold event_insert_ok in Hc. inv_checks.
  apply safe_events; [apply rows_kept_app; apply _|]. intros [_ _ _ _ _ Href Hid _ _ _ _ _ _].
  split; (apply unique_on_snoc; [done|]); intros c y (Hk & s & E & ->)%pair_key_Some Hy
      (Hk' & s' & E' & [= Eo <-])%pair_key_Some.
  - specialize (U0 y Hy). by rewrite Hk, E, E', Eo, String.eqb_refl, sql_text_eq_refl in U0.
  - specialize (U y Hy). by rewrite Hk, E, E', Eo, String.eqb_refl, sql_text_eq_refl in U.
Qed.

(** The outbox. *)
Lemma outbox_snoc (d : pgdb) (o : OutboxEvent) :
  (forall x, x ∈ d_outbox d -> same_outbox (ob_Topic o) (ob_IdempotencyKey o) x = false) ->
  safe d (set_outbox (fun l => l ++ [o]) d).
Proof.
  intros U. apply safe_outbox; [apply rows_kept_app; apply _|]. intros H.
  apply unique_on_snoc; [apply H|]. intros c y (Hk & s & E & ->)%pair_key_Some Hy
      (Hk' & s' & E' & [= Eo <-])%pair_key_Some.
  specialize (U y Hy). unfold same_outbox in U.
  by rewrite Hk, E, E', Eo, String.eqb_refl, sql_text_eq_refl in U.
Qed.
Lemma InsertOutboxEvent_safe p :
  sql_guarantee safe (insert_row set_outbox outbox_insert_ok (outbox_row p)).
Proof.
  apply guarantee_insert_row. intros now i d Hc. unfold outbox_insert_ok in Hc. inv_checks.
  by apply outbox_snoc.
Qed.
Lemma InsertOutboxEventIdempotent_safe p :
  sql_guarantee safe (insert_or_nothing d_outbox set_outbox
    (same_outbox (op_Topic p) (op_IdempotencyKey p)) no_check (outbox_row p)).
Proof.
  apply guarantee_insert_or_nothing; [apply _|]. intros now i d U _. by apply outbox_snoc.
Qed.

Lemma UpsertCase_safe (i : ReconciliationCaseInput) :
  sql_guarantee safe (fun now id d =>
    let c := mk_ReconciliationCase id (rci_CaseType i) "open" (rci_Severity i) (rci_OrderID i)
               (rci_PaymentID i) (rci_VendSessionID i) (rci_RefundID i) (rci_MachineID i)
               (rci_Provider i) (rci_ProviderEventID i) (rci_CorrelationKey i) (rci_Reason i)
               (rci_Metadata i) now now in
    if negb (one_of (rci_CaseType i) caseTypes)
    then Err (pg_check "commerce_reconciliation_cases_case_type_check")
    else match List.find (same_case c) (d_cases d) with
         | Some x => Ok (Some (case_refreshed c now x),
                         set_cases (update_where (same_case c) (case_refreshed c now)) d)
         | None => Ok (Some c, set_cases (fun l => l ++ [c]) d)
         end).
Proof.
  intros now id d r d'. cbn zeta. destruct (negb _); [done|].
  destruct (List.find _ _); intros [= <- <-]; apply safe_cases.
  - by apply rows_kept_update; [apply _|].
  - apply rows_kept_app. apply _.
Qed.

(** Timelines, evidence, the ledger. *)
Lemma InsertTimeline_safe chk row : sql_guarantee safe (insert_row set_timeline chk row).
Proof.
  apply guarantee_insert_row. intros now i d _. apply safe_timeline, rows_kept_app, _.
Qed.
Lemma InsertLedger_safe chk row : sql_guarantee safe (insert_row set_ledger chk row).
Proof. apply guarantee_insert_row. intros now i d _. apply safe_ledger, rows_kept_app, _. Qed.
Lemma InsertStockEvent_safe chk row : sql_guarantee safe (insert_row set_stock_events chk row).
Proof. apply guarantee_insert_row. intros now i d _. apply safe_stock_events, rows_kept_app, _. Qed.
Lemma InsertEvidence_safe dedupe chk row :
  (forall now i, er_DedupeKey (row now i) = dedupe) ->
  sql_guarantee safe (insert_or_nothing d_evidences set_evidences
    (fun e => String.eqb (er_DedupeKey e) dedupe) chk row).
Proof.
  intros Hd. apply guarantee_insert_or_nothing; [apply _|]. intros now i d U _.
  apply safe_evidences; [apply rows_kept_app; apply _|]. intros H.
  apply unique_on_snoc; [apply H|]. intros c y [= <-] Hy [= E]. rewrite Hd in E.
  specialize (U y Hy). cbn in U. by rewrite E, String.eqb_refl in U.
Qed.

(** Cash. *)
Lemma InsertAcceptance_safe machine device valid refs row :
  (forall now i, ca_MachineID (row now i) = machine /\ ca_DeviceEventID (row now i) = device) ->
  sql_guarantee safe (insert_once d_acceptances set_acceptances valid
    (fun c => (ca_MachineID c =u machine) && String.eqb (ca_DeviceEventID c) device) refs row).
Proof.
  intros Hr. apply guarantee_insert_once; [apply _|]. intros now i d _ U _.
  apply safe_acceptances; [apply rows_kept_app; apply _|]. intros H.
  apply unique_on_snoc; [apply H|]. destruct (Hr now i) as [Hm Hdev].
  intros c y [= <-] Hy [= E1 E2]. rewrite Hm in E1. rewrite Hdev in E2.
  specialize (U y Hy). cbn in U. by rewrite E1, E2, N.eqb_refl, String.eqb_refl in U.
Qed.
Lemma InsertAllocation_safe order key chk row :
  (forall now i, al_OrderID (row now i) = order /\ al_IdempotencyKey (row now i) = key) ->
  sql_guarantee safe (insert_or_get d_allocations set_allocations
    (fun c => (al_OrderID c =u order) && sql_text_eq (al_IdempotencyKey c) key) chk row).
Proof.
  intros Hr. apply guarantee_insert_or_get; [apply _|]. intros now i d U _.
  apply safe_allocations; [apply rows_kept_app; apply _|]. intros H.
  apply unique_on_snoc; [apply H|]. destruct (Hr now i) as [Ho Hk]. unfold allocation_key.
  rewrite Ho, Hk. intros c y Ec Hy Ey. specialize (U y Hy). cbn in U.
  destruct key as [k|]; [|done]. injection Ec as <-.
  destruct (al_IdempotencyKey y) as [k'|]; [|done]. injection Ey as E1 ->.
  by rewrite E1, N.eqb_refl, sql_text_eq_refl in U.
Qed.
Lemma InsertChange_safe order key chk row :
  (forall now i, ch_OrderID (row now i) = order /\ ch_IdempotencyKey (row now i) = key) ->
  sql_guarantee safe (insert_or_get d_changes set_changes
    (fun c => (ch_OrderID c =u order) && sql_text_eq (ch_IdempotencyKey c) key) chk row).
Proof.
  intros Hr. apply guarantee_insert_or_get; [apply _|]. intros now i d U _.
  apply safe_changes; [apply rows_kept_app; apply _|]. intros H.
  apply unique_on_snoc; [apply H|]. destruct (Hr now i) as [Ho Hk]. unfold change_key.
  rewrite Ho, Hk. intros c y Ec Hy Ey. specialize (U y Hy). cbn in U.
  destruct key as [k|]; [|done]. injection Ec as <-.
  destruct (ch_IdempotencyKey y) as [k'|]; [|done]. injection Ey as E1 ->.
  by rewrite E1, N.eqb_refl, sql_text_eq_refl in U.
Qed.

(** Inventory. *)
Lemma same_slot_spec s x : same_slot s x = true <-> slot_identity x = slot_identity s.
Proof.
  unfold same_slot, slot_identity. rewrite !andb_true_iff, !N.eqb_eq, Z.eqb_eq.
  split; [intros [[-> ->] ->]; done|intros [= -> -> ->]; done].
Qed.
Lemma UpsertSlot_safe (s : SlotState) :
  0 <= ss_CurrentQuantity s ->
  sql_guarantee safe (fun _ _ d =>
    if ss_Slot s <? 0 then Err (pg_check "machine_slot_state_slot_index_check")
    else if existsb (same_slot s) (d_slots d)
    then Ok (Some s, set_slots (update_where (same_slot s) (fun _ => s)) d)
    else Ok (Some s, set_slots (fun l => l ++ [s]) d)).
Proof.
  intros Hq now i d r d'. destruct (_ <? _); [done|].
  destruct (existsb _ _) eqn:E; intros [= <- <-]; apply safe_slots.
  - apply rows_kept_update; [apply _|]. by intros x Hx%same_slot_spec.
  - intros [_ _ _ _ _ _ _ _ _ _ _ _ []]. split.
    + apply unique_on_update; [done|]. intros x Hx%same_slot_spec. by rewrite Hx.
    + by apply forall_update.
  - apply rows_kept_app, _.
  - intros [_ _ _ _ _ _ _ _ _ _ _ _ []]. split.
    + apply unique_on_snoc; [done|]. intros c y [= <-] Hy [= E1 E2 E3].
      pose proof (existsb_false_elem _ _ E y Hy) as Hs.
      assert (same_slot s y = true) as Ht; [|congruence]. apply same_slot_spec.
      unfold slot_identity. congruence.
    + by apply forall_snoc.
Qed.
Lemma Relink_safe id slot :
  sql_guarantee safe (fun _ _ d => Ok (Some tt, set_slot_cfgs (update_where (fun c => vc_ID c =u id)
    (fun c => mk_VendSlotConfig (vc_ID c) (vc_MachineID c) (vc_SlotCode c) (Some slot)
                (vc_ProductID c) (vc_MaxQuantity c) (vc_PriceMinor c))) d)).
Proof.
  intros now i d r d' [= <- <-]. apply safe_slot_cfgs, rows_kept_update; [apply _|]. done.
Qed.

(** Quotes: inserted active, consumed at most once. *)
Lemma InsertCheckoutQuote_safe row :
  sql_guarantee safe (insert_row set_quotes quote_insert_ok row).
Proof.
  apply guarantee_insert_row. intros now i d Hc. unfold quote_insert_ok in Hc. inv_checks.
  apply safe_quotes; [apply rows_kept_app, _|]. intros H. destruct (wf_q d H) as []. split; try done.
  - apply unique_on_snoc; [done|]. intros c y [= <-] Hy [= E]. specialize (U0 y Hy). by apply N.eqb_neq in U0.
  - apply unique_on_snoc; [done|].
    intros c y [Hk (s & E & ->)]%pair_key_Some Hy [Hk' (s' & E' & [= Em <-])]%pair_key_Some.
    specialize (U y Hy). cbn in U. by rewrite Hk, E, E', <- Em, N.eqb_refl, sql_text_eq_refl in U.
  - rewrite map_app. intros x Hx. apply elem_of_app. left. by apply wq_quote0.
Qed.
Lemma InsertCheckoutQuoteLine_safe row :
  sql_guarantee safe (insert_row set_quote_lines quote_line_insert_ok row).
Proof.
  apply guarantee_insert_row. intros now i d Hc. unfold quote_line_insert_ok in Hc. inv_checks.
  apply safe_quote_lines; [apply rows_kept_app, _|]. intros H. destruct (wf_q d H) as []. split; try done.
  - by apply all_in_snoc.
  - apply unique_on_snoc; [done|]. intros c y [= <-] Hy [= E1 E2].
    specialize (U y Hy). cbn in U. by rewrite E1, E2, N.eqb_refl, Z.eqb_refl in U.
  - by apply forall_snoc.
Qed.
Lemma MarkCheckoutQuoteConsumed_safe id :
  sql_guarantee safe (update_rows d_quotes set_quotes no_check (active_quote id) (fun _ => quote_with "consumed")).
Proof.
  apply guarantee_update_rows; [apply _|]. intros now d r Hr Hp _.
  apply safe_quotes; [apply rows_kept_update; [apply _|]; by split|].
  intros H. destruct (wf_q d H) as []. split; try done; try by apply unique_on_update.
  by rewrite map_update_where.
Qed.

Lemma wf_empty t : wf (empty_db t).
Proof.
  assert (Hn : forall A (x : A), x ∈ [] -> False) by (by intros A x ?%elem_of_nil).
  split; cbn; try split; try (by apply NoDup_nil_2); repeat intro; exfalso; by eapply Hn.
Qed.

(** ** Relations every statement respects

    [Statement_rel P R]: a relation on worlds that every statement with the
    guarantee [P], transaction and savepoint respects. *)
Class Statement_rel (P : pgdb -> pgdb -> Prop) (R : world -> world -> Prop) : Prop := {
  sr_db : PreOrder P;
  sr_pre : PreOrder R;
  sr_stmt {A} (f : sql A) : sql_guarantee P f -> evolves R (stmt f);
  sr_tx {A} (body : M world (tx_end A)) : evolves R body -> evolves R (with_tx body);
  sr_savepoint {A} (m : M world A) : evolves R m -> evolves R (with_savepoint m) }.
#[export] Instance Statement_rel_pre P R : Statement_rel P R -> PreOrder R.
Proof. intros H. exact (@sr_pre P R H). Qed.

(** What other clients and the handler do to the tables. *)
#[export] Instance world_rel_statement P `{!PreOrder P} : Statement_rel P (world_rel P).
Proof.
  split; [done|apply _|..]; intros.
  - by apply evolves_stmt.
  - by apply evolves_with_tx.
  - by apply evolves_with_savepoint.
Qed.

(** The schedule is consumed from its front. *)
Definition consumes (w w' : world) : Prop := exists used, w_sched w = used ++ w_sched w'.
#[export] Instance consumes_preorder : PreOrder consumes.
Proof.
  split; [by intros w; exists []|]. intros x y z [a Ha] [b Hb]. exists (a ++ b).
  by rewrite Ha, Hb, app_assoc.
Qed.
Lemma consumes_next w d t now next : consumes w (mk_world d t (next_event (w_sched w)).2 now next).
Proof. destruct (w_sched w) as [|e s] eqn:E; unfold consumes; rewrite E; [by exists []|by exists [e]]. Qed.
Lemma consumes_stmt {A} (f : sql A) : evolves consumes (stmt f).
Proof.
  intros w. unfold stmt. destruct (w_tx w); try reflexivity.
  all: pose proof (fun d t now next => consumes_next w d t now next) as Hn;
    destruct (next_event (w_sched w)) as [ev s]; cbn in Hn; destruct ev; cbn; try apply Hn.
  all: destruct (f _ _ _) as [[r d']|e]; cbn; apply Hn.
Qed.
Lemma consumes_with_tx {A} (body : M world (tx_end A)) :
  evolves consumes body -> evolves consumes (with_tx body).
Proof.
  intros Hb w. unfold with_tx.
  pose proof (fun d t now next => consumes_next w d t now next) as Hn.
  destruct (next_event (w_sched w)) as [ev s]; cbn in Hn.
  assert (Hrun : forall d, consumes w (run_tx body d s (w_now w + 1) (w_next w)).2).
  { intros d. unfold run_tx. specialize (Hb (mk_world d InTx s (w_now w + 1) (w_next w))).
    assert (Ht : consumes w (mk_world d InTx s (w_now w + 1) (w_next w))) by apply Hn.
    destruct (body _) as [[[a|a]|e] w']; cbn in *; try (by etransitivity).
    destruct (w_tx w'); cbn; try (by etransitivity).
    pose proof (fun d t now next => consumes_next w' d t now next) as Hn'.
    destruct (next_event (w_sched w')) as [ev' s']; cbn in *.
    destruct ev'; cbn; (etransitivity; [exact Ht|]; etransitivity; [exact Hb|apply Hn']). }
  destruct ev; cbn; try apply Hn; apply Hrun.
Qed.
Lemma consumes_rollback_to d : evolves consumes (rollback_to d).
Proof.
  intros w. unfold rollback_to. pose proof (fun d t now next => consumes_next w d t now next) as Hn.
  destruct (next_event (w_sched w)) as [ev s]; cbn in Hn. destruct ev; cbn; apply Hn.
Qed.
#[export] Instance consumes_statement P `{!PreOrder P} : Statement_rel P consumes.
Proof.
  split; [done|apply _|..]; intros.
  - apply consumes_stmt.
  - by apply consumes_with_tx.
  - unfold with_savepoint, savepoint, release_savepoint. apply evolves_bind; [apply _|apply consumes_stmt|].
    intros saved. apply evolves_bind; [apply _|by apply evolves_attempt|]. intros [a|e].
    + apply evolves_bind; [apply _|apply consumes_stmt|]. intros. apply evolves_ret, _.
    + apply evolves_bind; [apply _|apply evolves_attempt, consumes_rollback_to|].
      intros. apply evolves_ret, _.
Qed.

(** ** The statements, for any such relation *)

Section Statements.
Context {P : pgdb -> pgdb -> Prop} {R : world -> world -> Prop} `{!Statement_rel P R}.

Lemma ev_select_one {A} (f : pgdb -> option A) : evolves R (stmt (select_one f)).
Proof. pose proof sr_db. apply sr_stmt, guarantee_select_one, _. Qed.
Lemma ev_select_many {A} (f : pgdb -> list A) : evolves R (stmt (select_many f)).
Proof. pose proof sr_db. apply sr_stmt, guarantee_select_many, _. Qed.
Lemma ev_time_Now : evolves R time_Now.
Proof. apply evolves_gets, _. Qed.

Lemma ev_NextPaymentAttemptSeqForOrder order : evolves R (NextPaymentAttemptSeqForOrder order).
Proof. pose proof sr_db. apply sr_stmt. intros now id d r d'. by destruct (_ <? _); intros [= <- <-]. Qed.
Lemma ev_SumRefunds p : evolves R (SumNonFailedRefundAmountForPaymentQ p).
Proof. pose proof sr_db. apply sr_stmt. intros now id d r d'. by destruct (_ <? _); intros [= <- <-]. Qed.
Lemma ev_CountEvents k m : evolves R (InventoryAdminCountInventoryEventsByIdempotencyKey k m).
Proof. pose proof sr_db. apply sr_stmt. by intros now id d r d' [= <- <-]. Qed.
End Statements.
