(* ===== verification/PgCommerce.v ===== *)
(** * The PostgreSQL commerce store

    internal/modules/postgres: commerce_lifecycle.go, financial_correctness.go,
    workflows.go, commerce_webhook.go, reconciliation_payment.go,
    commerce_vend_outbox.go, financial_ledger_tx.go and mappers.go, over the
    statements of Queries.  A method on [*Store] is a definition of the same
    name; the optional audit recorder is a parameter. *)

From S2P Require Import Prelude.
From S2P Require Import GoStd.
From S2P Require Import Pricing.
From S2P Require Import CommerceTypes.
From S2P Require Import Sanitize.
From S2P Require Import Evidence.
From S2P Require Import Snapshot.
From S2P Require Import Rules.
From S2P Require Import Db.
From S2P Require Import Queries.
Local Open Scope string_scope.
Local Open Scope list_scope.
Local Open Scope Z_scope.

(** ** Errors and column values (errors.go, pgconv.go, pgjson) *)

Definition isNoRows (err : goerr) : bool := errors_Is err ErrNoRows.
Definition optionalStringToPgText (s : string) : option string :=
  let v := TrimSpace s in if blank v then None else Some v.
Definition optionalTimeValueToPgTimestamptz (t : Z) : option Z := if IsZero t then None else Some t.
Definition uuidPtrToPgUUID (id : N) : option N := if id =u uuid_Nil then None else Some id.
Definition RequiredString (v : json) : json := match v with JNull => JObj [] | _ => v end.
Definition RequiredRaw (b : rawjson) : json :=
  match b with RawJSON v => RequiredString v | _ => JObj [] end.

(** The switch on [isNoRows] of the lookups. *)
Definition or_not_found {A} (m : M world A) : M world A :=
  let! r := attempt m in
  match r with
  | Ok a => ret a
  | Err e => if isNoRows e then fail ErrNotFound else fail e
  end.

(** ** Mappers (mappers.go) *)

Definition mapOrder (row : Order) : Order :=
  mk_Order (o_ID row) (o_MachineID row) (o_Status row) (o_Currency row) (o_SubtotalMinor row)
    (o_TaxMinor row) (o_TotalMinor row) (o_IdempotencyKey row) (o_Simulated row)
    (o_SimulationRunID row) (o_SimulationScenario row) (o_FakeBill row) (o_FakeBoard row)
    (o_WinningPaymentID row) (o_WinningClaimedAt row) (o_PricingSource row)
    (o_MachinePricingRevision row) (o_MachinePricingSnapshot row)
    (o_ServerReferenceTotalMinor row) (o_CreatedAt row) (o_UpdatedAt row).
Definition mapVendFields (row : VendRow) : VendSession :=
  let s := vr_Session row in
  mk_VendSession (v_ID s) (v_OrderID s) (v_MachineID s) (v_SlotIndex s) (v_ProductID s)
    (v_State s) (v_FinalCommandAttemptID s) (v_Simulated s) (v_SimulationRunID s)
    (v_SimulationScenario s) (v_CreatedAt s).
Definition mapPayment (row : Payment) : Payment :=
  mk_Payment (p_ID row) (p_OrderID row) (p_Provider row) (p_State row) (p_AmountMinor row)
    (p_Currency row) (p_IdempotencyKey row) (p_ReconciliationStatus row)
    (p_SettlementStatus row) (p_SettlementBatchID row) (p_Simulated row)
    (p_SimulationRunID row) (p_SimulationScenario row) (p_FakeBill row) (p_FakeBoard row)
    (p_Outcome row) (p_AttemptSeq row) (p_SupersedesPaymentID row) (p_CreatedAt row).
Definition mapOutbox (row : OutboxEvent) : OutboxEvent :=
  mk_OutboxEvent (ob_ID row) (ob_Topic row) (ob_EventType row) (ob_Payload row)
    (ob_AggregateType row) (ob_AggregateID row) (ob_IdempotencyKey row) (ob_CreatedAt row)
    (ob_PublishedAt row) (ob_PublishAttemptCount row) (ob_LastPublishError row)
    (ob_LastPublishAttemptAt row) (ob_NextPublishAfter row) (ob_DeadLetteredAt row)
    (ob_Status row) (ob_LockedBy row) (ob_LockedUntil row) (ob_Simulated row)
    (ob_SimulationRunID row) (ob_SimulationScenario row) (ob_UpdatedAt row)
    (ob_MaxPublishAttempts row).
Definition mapPaymentAttemptView (row : AttemptRow) : PaymentAttemptView :=
  mk_PaymentAttemptView (at_ID row) (at_PaymentID row) (at_State row) (at_CreatedAt row).
Definition mapCashAllocation (row : CashAllocationRow) : CashAllocationView :=
  mk_CashAllocationView (al_ID row) (al_OrderID row) (al_AmountMinor row)
    (al_PreOrderCreditMinor row) (al_PostOrderInsertedMinor row) (al_ConsentSource row).
Definition mapCashChange (row : CashChangeRow) : CashChangeEventView :=
  mk_CashChangeEventView (ch_ID row) (ch_ChangeDueMinor row) (ch_ChangeDispensedMinor row)
    (ch_Outcome row) (ch_LiabilityMinor row).

Lemma mapOrder_id row : mapOrder row = row. Proof. by destruct row. Qed.
Lemma mapOutbox_id row : mapOutbox row = row. Proof. by destruct row. Qed.
Lemma mapPayment_id row : mapPayment row = row. Proof. by destruct row. Qed.
Lemma mapVendFields_id row : mapVendFields row = vr_Session row.
Proof. unfold mapVendFields. by destruct (vr_Session row). Qed.

(** ** Lookups and single updates (commerce_lifecycle.go) *)

Definition GetOrderByID (orderID : N) : M world Order :=
  fmap_M mapOrder (or_not_found (Queries.GetOrderByID orderID)).
Definition UpdateOrderStatus (orderID companyID : N) (status : string) : M world Order :=
  fmap_M mapOrder (or_not_found (UpdateOrderStatusByOrg status orderID)).
Definition GetVendSessionByOrderAndSlot (orderID : N) (slotIndex : Z) : M world VendSession :=
  fmap_M mapVendFields (or_not_found (GetVendSessionByOrderAndSlotQ orderID slotIndex)).
Definition GetVendSessionByOrderAndLineSequence (orderID : N) (lineSequence : Z)
    : M world VendSession :=
  fmap_M mapVendFields (or_not_found (GetVendSessionByOrderAndLineSequenceQ orderID lineSequence)).
Definition ListVendSessionsForOrder (orderID : N) : M world (list VendSession) :=
  fmap_M (map mapVendFields) (ListVendSessionsByOrder orderID).
Definition UpdateVendSessionState (p : UpdateVendSessionParams) : M world VendSession :=
  if 0 <? uv_LineSequence p then
    fmap_M mapVendFields (or_not_found (UpdateVendSessionStateByOrderLineSequence
      (uv_ToState p) (uv_FailureReason p) (uv_OrderID p) (uv_LineSequence p)))
  else
    fmap_M mapVendFields (or_not_found (UpdateVendSessionStateByOrderSlot
      (uv_ToState p) (uv_FailureReason p) (uv_OrderID p) (uv_SlotIndex p))).
Definition GetLatestPaymentForOrder (orderID : N) : M world Payment :=
  fmap_M mapPayment (or_not_found (GetLatestPaymentForOrderQ orderID)).
Definition GetPaymentByID (paymentID : N) : M world Payment :=
  fmap_M mapPayment (or_not_found (GetPaymentByIDQ paymentID)).
Definition InsertPaymentAttempt (i : InsertPaymentAttemptParams) : M world PaymentAttemptView :=
  fmap_M mapPaymentAttemptView (InsertPaymentAttemptQ (ipa_PaymentID i)
    (ipa_ProviderReference i) (ipa_State i) (RequiredString (ipa_Payload i))).
(** [nil] is [None]. *)
Definition GetLatestPaymentAttemptPayload (paymentID : N) : M world (option json) :=
  let! r := attempt (GetLatestPaymentAttemptPayloadQ paymentID) in
  match r with
  | Ok row => ret (Some row)
  | Err e => if isNoRows e then ret None else fail e
  end.
Definition GetLatestPaymentAttemptProviderReference (paymentID : N) : M world string :=
  let! r := attempt (GetLatestPaymentAttemptProviderReferenceQ paymentID) in
  match r with
  | Ok None => ret ""
  | Ok (Some s) => ret (TrimSpace s)
  | Err e => if isNoRows e then ret "" else fail e
  end.

Definition InsertRefundRow (i : InsertRefundRowInput) : M world RefundRowView :=
  InsertRefundRowQ (fun now id =>
    mk_RefundRowView id (ir_PaymentID i) (ir_OrderID i) (ir_AmountMinor i)
      (ToUpper (TrimSpace (ir_Currency i))) (ir_State i) (optionalStringToPgText (ir_Reason i))
      (optionalStringToPgText (ir_IdempotencyKey i)) (RequiredString (ir_Metadata i)) now).
Definition ListRefundsForOrder (orderID : N) : M world (list RefundRowView) :=
  ListRefundsForOrderQ orderID.
(** These two compare with [err == pgx.ErrNoRows]. *)
Definition or_not_found_eq {A} (m : M world A) : M world A :=
  let! r := attempt m in
  match r with
  | Ok a => ret a
  | Err e => if bool_decide (e = ErrNoRows) then fail ErrNotFound else fail e
  end.
Definition GetRefundByIDForOrder (orderID refundID : N) : M world RefundRowView :=
  or_not_found_eq (GetRefundByIDForOrderQ orderID refundID).
Definition GetRefundByOrderIdempotency (orderID : N) (idempotencyKey : string)
    : M world RefundRowView :=
  or_not_found_eq (GetRefundByOrderIdempotencyQ orderID (optionalStringToPgText idempotencyKey)).
Definition SumNonFailedRefundAmountForPayment (paymentID : N) : M world Z :=
  SumNonFailedRefundAmountForPaymentQ paymentID.

(** ** Winner arbitration and cash evidence (financial_correctness.go) *)

Definition ClaimWinningPayment (paymentID orderID : N) : M world (Order * bool) :=
  let! r := attempt (ClaimWinningPaymentQ paymentID orderID) in
  match r with
  | Ok row => ret (mapOrder row, true)
  | Err e =>
      if isNoRows e then
        let! ord := GetOrderByID orderID in ret (ord, false)
      else fail e
  end.
Definition GetWinningPaymentForOrder (orderID : N) : M world Payment :=
  fmap_M mapPayment (or_not_found (GetWinningPaymentForOrderQ orderID)).
Definition UpdatePaymentOutcome (paymentID : N) (outcome : string) : M world Payment :=
  fmap_M mapPayment (or_not_found (UpdatePaymentOutcomeQ paymentID outcome)).
Definition CancelPaymentByID (paymentID : N) : M world Payment :=
  fmap_M mapPayment (or_not_found (CancelPaymentByIDQ paymentID)).
Definition GetLatestNonCapturedPaymentForOrder (orderID : N) : M world Payment :=
  fmap_M mapPayment (or_not_found (GetLatestNonCapturedPaymentForOrderQ orderID)).
Definition ListPaymentsForOrder (orderID : N) : M world (list Payment) :=
  fmap_M (map mapPayment) (ListPaymentsForOrderQ orderID).

(** [inserted] of [cashMovementInsertResult] (cash_forensic.go). *)
Definition cashMovementInsertResult {A} (r : res A) : res bool :=
  match r with
  | Ok _ => Ok true
  | Err e => if isNoRows e then Ok false else Err e
  end.
Definition RecordCashAcceptanceEvents (i : RecordCashAcceptanceEventsInput) : M world unit :=
  for_each (fun ev =>
    let device := QualifyCashMovementDeviceEventID (cae_DeviceEventID ev) (cae_BootID ev) in
    let! r := attempt (InsertCashAcceptanceEvent (rca_MachineID i) device (fun now id =>
      mk_CashAcceptanceRow id (rca_MachineID i) (Some (rca_OrderID i)) device
        (cae_DenominationMinor ev) (cae_CreditSource ev) (rca_Currency i) (cae_AcceptedAt ev)
        (optionalStringToPgText (cae_BootID ev)) (RequiredString (cae_RawMetadata ev)) now)) in
    let! _ := lift (cashMovementInsertResult r) in
    ret tt) (rca_Events i).
Definition nonempty_text (s : string) : option string := if blank s then None else Some s.
Definition RecordCashAllocation (i : RecordCashAllocationInput) : M world CashAllocationView :=
  let key := nonempty_text (ral_IdempotencyKey i) in
  fmap_M mapCashAllocation (InsertCashAllocation (ral_OrderID i) key (fun now id =>
    mk_CashAllocationRow id (ral_OrderID i) (Some (ral_PaymentID i)) (ral_MachineID i)
      (ral_AmountMinor i) (ral_PreOrderCreditMinor i) (ral_PostOrderInsertedMinor i)
      (ral_ConsentSource i) (ral_ConsentedAt i) (ral_Currency i) key now)).
Definition RecordCashChangeEvent (i : RecordCashChangeEventInput) : M world CashChangeEventView :=
  let key := nonempty_text (rcc_IdempotencyKey i) in
  fmap_M mapCashChange (InsertCashChangeEvent (rcc_OrderID i) key (fun now id =>
    mk_CashChangeRow id (rcc_OrderID i) (Some (rcc_PaymentID i)) (rcc_MachineID i)
      (rcc_ChangeDueMinor i) (rcc_ChangeDispensedMinor i) (rcc_Outcome i) (rcc_LiabilityMinor i)
      (rcc_Currency i) key now)).

(** A row that may be missing. *)
Definition optional_row {A} (m : M world A) : M world (option A) :=
  let! r := attempt m in
  match r with
  | Ok a => ret (Some a)
  | Err e => if isNoRows e then ret None else fail e
  end.
Definition payment_money (winner : option N) (p : Payment) : PaymentMoneyView :=
  match winner with
  | Some w =>
      if p_ID p =u w then mk_PaymentMoneyView (mapPayment p) true false
      else mk_PaymentMoneyView (mapPayment p) false (String.eqb (p_State p) "captured")
  | None => mk_PaymentMoneyView (mapPayment p) false false
  end.
Definition GetOrderMoneyView (orderID : N) : M world OrderMoneyView :=
  let! ord := or_not_found (Queries.GetOrderByID orderID) in
  let! payments := ListPaymentsForOrderQ orderID in
  let winner := o_WinningPaymentID ord in
  let! alloc := optional_row (GetCashAllocationForOrder orderID) in
  let! chg := optional_row (GetCashChangeEventForOrder orderID) in
  let! events := ListCashAcceptanceEventsForOrder orderID in
  ret (mk_OrderMoneyView orderID winner (map (payment_money winner) payments)
    (option_map mapCashAllocation alloc) (option_map mapCashChange chg)
    (map (fun ev => mk_CashAcceptanceEventView (ca_DeviceEventID ev) (ca_DenominationMinor ev)
                      (ca_CreditSource ev) (ca_AcceptedAt ev)) events)
    (match chg with Some c => ch_LiabilityMinor c | None => 0 end)).

Definition InsertLedgerEntry (i : LedgerEntryInput) : M world unit :=
  let! _ := InsertFinancialLedgerEntry (fun _ id =>
    mk_LedgerRow id (le_MachineID i) (le_OrderID i) (le_PaymentID i) (le_EntryType i)
      (le_SignedAmountMinor i) (le_Currency i) (le_OccurredAt i) None
      (RequiredString (le_Metadata i))) in
  ret tt.
Definition UpsertReconciliationCase (i : ReconciliationCaseInput) : M world ReconciliationCase :=
  UpsertCommerceReconciliationCase
    (mk_ReconciliationCaseInput (rci_CaseType i) (rci_Severity i) (rci_OrderID i) (rci_PaymentID i)
       (rci_VendSessionID i) (rci_RefundID i) (rci_MachineID i) (rci_Provider i)
       (rci_ProviderEventID i) (TrimSpace (rci_CorrelationKey i)) (rci_Reason i)
       (RequiredString (rci_Metadata i))).

(** ** Orders and payments in one transaction (workflows.go) *)

(** The row of [InsertOrder]. *)
Definition order_of_input (i : CreateOrderVendInput) (source : string) (now : Z) (id : N) : Order :=
  let created := default now (optionalTimeValueToPgTimestamptz (cov_CreatedAt i)) in
  mk_Order id (cov_MachineID i) (cov_OrderStatus i) (cov_Currency i) (cov_SubtotalMinor i)
    (cov_TaxMinor i) (cov_TotalMinor i) (optionalStringToPgText (cov_IdempotencyKey i))
    (cov_Simulated i) (optionalStringToPgText (cov_SimulationRunID i))
    (optionalStringToPgText (cov_SimulationScenario i)) (cov_FakeBill i) (cov_FakeBoard i)
    None None source (cov_MachinePricingRevision i) (cov_MachinePricingSnapshot i) 0 created now.

(** The [switch] that finds or inserts the order; the flag is
    [orderInserted]. *)
Definition find_or_insert_order (i : CreateOrderVendInput) : M world (Order * bool) :=
  let key := optionalStringToPgText (cov_IdempotencyKey i) in
  let! existing := attempt (GetOrderByMachineAndIdempotencyKey (cov_MachineID i) key) in
  match existing with
  | Ok row => ret (row, false)
  | Err e =>
      if isNoRows e then
        let! source := lift (resolvePricingSourceForOrderPersist (cov_PricingSource i)
          (hasMachinePricingEvidence (cov_MachinePricingRevision i)
             (cov_MachinePricingSnapshot i))) in
        let! inserted := with_savepoint
          (InsertOrder (uuidPtrToPgUUID (cov_OrderID i)) (order_of_input i source)) in
        match inserted with
        | Ok row => ret (row, true)
        | Err e =>
            if negb (isUniqueViolation e) then fail e
            else
              let! again := attempt (GetOrderByMachineAndIdempotencyKey (cov_MachineID i) key) in
              match again with
              | Ok row => ret (row, false)
              | Err e => fail (EWrapPre "postgres: duplicate order idempotency key race" e)
              end
        end
      else fail e
  end.

Definition CreateOrderWithVendSession (i : CreateOrderVendInput) : M world CreateOrderVendResult :=
  if String.eqb (cov_IdempotencyKey i) "" then fail (ENew "postgres: idempotency_key is required")
  else with_tx (
    let! order := find_or_insert_order i in
    let '(row, inserted) := order in
    let! first := (if inserted then ret None else optional_row (GetFirstVendSessionByOrder (o_ID row))) in
    match first with
    | Some v => ret (Commit (mk_CreateOrderVendResult (mapOrder row) (mapVendFields v) true))
    | None =>
        let! vend := optional_row (GetVendSessionByOrderAndSlotQ (o_ID row) (cov_SlotIndex i)) in
        match vend with
        | Some v => ret (Commit (mk_CreateOrderVendResult (mapOrder row) (mapVendFields v) true))
        | None =>
            let! v := InsertVendSession (o_ID row) (cov_MachineID i) (cov_ProductID i)
                        (cov_SlotIndex i) (cov_VendState i) (cov_Simulated i)
                        (optionalStringToPgText (cov_SimulationRunID i))
                        (optionalStringToPgText (cov_SimulationScenario i)) in
            ret (Commit (mk_CreateOrderVendResult (mapOrder row) (mapVendFields v) false))
        end
    end).

(** [ok == false] is [None]. *)
Definition TryReplayCreateOrderWithVend (machineID : N) (idempotencyKey : string)
    : M world (option CreateOrderVendResult) :=
  let key := TrimSpace idempotencyKey in
  if blank key || (machineID =u uuid_Nil) then ret None
  else
    let! order := optional_row
      (GetOrderByMachineAndIdempotencyKey machineID (optionalStringToPgText key)) in
    match order with
    | None => ret None
    | Some row =>
        let! vend := optional_row (GetFirstVendSessionByOrder (o_ID row)) in
        match vend with
        | None => fail (ENew "postgres: idempotent order exists without vend session")
        | Some v => ret (Some (mk_CreateOrderVendResult (mapOrder row) (mapVendFields v) true))
        end
    end.

Definition allocatePaymentAttemptSeq (i : PaymentOutboxInput) : M world Z :=
  let! locked := attempt (LockOrderForPaymentAttempt (poi_OrderID i)) in
  match locked with
  | Err e => if isNoRows e
             then fail (ENew "postgres: order not found for payment attempt allocation")
             else fail e
  | Ok _ =>
      let! next := NextPaymentAttemptSeqForOrder (poi_OrderID i) in
      if next <? 1
      then fail (ENew ("postgres: invalid payment attempt sequence " +:+ FormatInt next))
      else ret next
  end.

Definition payment_outbox_params (i : PaymentOutboxInput) : OutboxParams :=
  mk_OutboxParams (poi_OutboxTopic i) (poi_OutboxEventType i) (RequiredString (poi_OutboxPayload i))
    (poi_OutboxAggregateType i) (poi_OutboxAggregateID i)
    (optionalStringToPgText (poi_OutboxIdempotencyKey i)) (poi_Simulated i)
    (optionalStringToPgText (poi_SimulationRunID i))
    (optionalStringToPgText (poi_SimulationScenario i)).
Definition payment_of_input (i : PaymentOutboxInput) (seq : Z) (now : Z) (id : N) : Payment :=
  mk_Payment id (poi_OrderID i) (poi_Provider i) (poi_PaymentState i) (poi_AmountMinor i)
    (poi_Currency i) (optionalStringToPgText (poi_IdempotencyKey i)) "pending" "unsettled" None
    (poi_Simulated i) (optionalStringToPgText (poi_SimulationRunID i))
    (optionalStringToPgText (poi_SimulationScenario i)) (poi_FakeBill i) (poi_FakeBoard i)
    "pending" seq (poi_SupersedesPaymentID i) now.

(** The branch for a payment that exists. *)
Definition replay_payment (i : PaymentOutboxInput) (existing : Payment)
    : M world (tx_end PaymentOutboxResult) :=
  let! ob := optional_row (GetOutboxByTopicAndIdempotency (poi_OutboxTopic i)
               (optionalStringToPgText (poi_OutboxIdempotencyKey i))) in
  match ob with
  | Some ob => ret (Commit (mk_PaymentOutboxResult (mapPayment existing) (mapOutbox ob) true))
  | None =>
      let! ob := InsertOutboxEvent (payment_outbox_params i) in
      ret (Commit (mk_PaymentOutboxResult (mapPayment existing) (mapOutbox ob) true))
  end.
(** The branch for a new payment. *)
Definition insert_payment (i : PaymentOutboxInput) : M world (tx_end PaymentOutboxResult) :=
  let! seq := allocatePaymentAttemptSeq i in
  let! pay := InsertPayment (payment_of_input i seq) in
  let! ob := InsertOutboxEvent (payment_outbox_params i) in
  let bind_state := TrimSpace (poi_BindAttemptState i) in
  (if negb (blank bind_state) then
     let! _ := InsertPaymentAttemptQ (p_ID pay)
                 (optionalStringToPgText (poi_BindProviderReference i)) bind_state
                 (RequiredString (poi_BindPayload i)) in ret tt
   else ret tt) ;;;
  ret (Commit (mk_PaymentOutboxResult (mapPayment pay) (mapOutbox ob) false)).
Definition CreatePaymentWithOutbox (i : PaymentOutboxInput) : M world PaymentOutboxResult :=
  if String.eqb (poi_IdempotencyKey i) "" || String.eqb (poi_OutboxIdempotencyKey i) ""
  then fail (ENew "postgres: idempotency keys are required")
  else with_tx (
    let! existing := optional_row (GetPaymentByOrderAndIdempotencyKey (poi_OrderID i)
                       (optionalStringToPgText (poi_IdempotencyKey i))) in
    match existing with
    | Some pay => replay_payment i pay
    | None => insert_payment i
    end).

(** ** Provider webhooks (commerce_webhook.go) *)

Definition machineUUIDPtr (id : N) : option N := if id =u uuid_Nil then None else Some id.

Definition conflicting_text (stored : option string) (given : string) : bool :=
  match stored with
  | Some s => negb (blank (TrimSpace s)) && negb (blank given) && negb (String.eqb (TrimSpace s) given)
  | None => false
  end.
Definition assertWebhookReplayFieldsMatch (existing : ProviderEvent)
    (i : ApplyPaymentProviderWebhookInput) : res unit :=
  let? _ := guard_err (conflicting_text (pe_ProviderRef existing) (TrimSpace (wh_ProviderReference i)))
              ErrWebhookIdempotencyConflict in
  guard_err (conflicting_text (pe_WebhookEventID existing) (TrimSpace (wh_WebhookEventID i)))
    ErrWebhookIdempotencyConflict.

(** [p != "" && !strings.EqualFold(p, ...)] *)
Definition provider_mismatch (pay : Payment) (i : ApplyPaymentProviderWebhookInput) : bool :=
  let p := TrimSpace (p_Provider pay) in
  negb (blank p) && negb (EqualFold p (TrimSpace (wh_Provider i))).

Definition promoteCapturedOrderIfNeeded (ord : Order) (pay : Payment) : M world Order :=
  if negb (String.eqb (TrimSpace (p_State pay)) "captured") then ret ord
  else
    let st := TrimSpace (o_Status ord) in
    if negb (String.eqb st "created") && negb (String.eqb st "quoted") then ret ord
    else
      let! claimed := attempt (ClaimWinningPaymentQ (p_ID pay) (o_ID ord)) in
      match claimed with
      | Ok row => ignore (UpdatePaymentOutcomeQ (p_ID pay) "winner") ;;; ret row
      | Err _ =>
          let! updated := UpdateOrderStatusByOrg "paid" (o_ID ord) in
          ignore (UpdatePaymentOutcomeQ (p_ID pay) "winner") ;;; ret updated
      end.

Definition webhookReplayResultFromEvent (existing : ProviderEvent)
    (i : ApplyPaymentProviderWebhookInput) : M world ApplyPaymentProviderWebhookResult :=
  if negb (opt_eqb_N (pe_PaymentID existing) (Some (wh_PaymentID i)))
  then fail (EJoin ErrOrgMismatch (ENew "provider event already bound to a different payment"))
  else
    let! _ := lift (assertWebhookReplayFieldsMatch existing i) in
    let! pay := GetPaymentByIDQ (wh_PaymentID i) in
    if provider_mismatch pay i then fail ErrWebhookProviderMismatch
    else
      let! ord := Queries.GetOrderByID (wh_OrderID i) in
      let! ord := promoteCapturedOrderIfNeeded ord pay in
      ret (mk_WebhookResult true (mapOrder ord) (mapPayment pay) None (pe_ID existing)).

(** The columns [ApplyPaymentProviderWebhook] derives from its input. *)
Definition webhook_validation_status (i : ApplyPaymentProviderWebhookInput) : string :=
  let v := TrimSpace (wh_WebhookValidationStatus i) in if blank v then "hmac_verified" else v.
Definition provider_event_of (i : ApplyPaymentProviderWebhookInput) (applied : Z)
    (_ : Z) (id : N) : ProviderEvent :=
  let vstat := webhook_validation_status i in
  mk_ProviderEvent id (Some (wh_PaymentID i)) (wh_Provider i) (Some (wh_ProviderReference i))
    (optionalStringToPgText (wh_WebhookEventID i)) (wh_ProviderAmountMinor i) (wh_Currency i)
    (wh_EventType i) (RequiredString (SanitizeJSONBytes (wh_Payload i))) vstat
    (RequiredRaw (wh_ProviderMetadata i))
    (one_of vstat ["hmac_verified"; "unsigned_development"; "provider_native_verified"])
    (Some applied) "applied".

Section Webhook.
Context `{UuidText} (enterpriseAudit : option (AuditRecord -> M world unit)).

Definition audit_metadata (i : ApplyPaymentProviderWebhookInput) (replay : bool) : json :=
  JObj (go_map
    [("order_id", JStr (uuid_String (wh_OrderID i)));
     ("payment_id", JStr (uuid_String (wh_PaymentID i)));
     ("provider", JStr (wh_Provider i));
     ("webhook_event_id", JStr (TrimSpace (wh_WebhookEventID i)));
     ("replay", JBool replay); ("validation", JStr (webhook_validation_status i))]).
Definition auditPaymentWebhookTx (i : ApplyPaymentProviderWebhookInput) (replay : bool)
    (machineID : option N) : M world unit :=
  match enterpriseAudit with
  | None => ret tt
  | Some record =>
      record (mk_AuditRecord "payment_provider" None
        (if replay then "payment.webhook.replayed" else "payment.webhook.accepted")
        "commerce.payment" (uuid_String (wh_PaymentID i)) machineID (audit_metadata i replay) "")
  end.

Definition webhookOutboxPayload (i : ApplyPaymentProviderWebhookInput) : json :=
  match wh_OutboxPayload i with
  | RawEmpty =>
      JObj (go_map
        [("source", JStr "payment_webhook"); ("order_id", JStr (uuid_String (wh_OrderID i)));
         ("payment_id", JStr (uuid_String (wh_PaymentID i)));
         ("provider", JStr (TrimSpace (wh_Provider i)));
         ("webhook_event_id", JStr (TrimSpace (wh_WebhookEventID i)));
         ("payment_state", JStr (TrimSpace (wh_NormalizedPaymentState i)))])
  | raw => RequiredRaw raw
  end.

Definition webhookReplayByProviderRef (i : ApplyPaymentProviderWebhookInput)
    : M world ApplyPaymentProviderWebhookResult :=
  let! existing := GetPaymentProviderEventByProviderRef (wh_Provider i)
                     (Some (wh_ProviderReference i)) in
  webhookReplayResultFromEvent existing i.
Definition webhookReplayByWebhookEventID (i : ApplyPaymentProviderWebhookInput)
    : M world ApplyPaymentProviderWebhookResult :=
  let! existing := GetPaymentProviderEventByWebhookEventID (wh_Provider i)
                     (Some (TrimSpace (wh_WebhookEventID i))) in
  webhookReplayResultFromEvent existing i.
Definition webhookReplayAfterUniqueViolation (i : ApplyPaymentProviderWebhookInput)
    : M world ApplyPaymentProviderWebhookResult :=
  let unmatched :=
    ENew "postgres: payment_provider_events unique violation without replay match" in
  let! r := optional_row (webhookReplayByProviderRef i) in
  match r with
  | Some a => ret a
  | None =>
      if blank (TrimSpace (wh_WebhookEventID i)) then fail unmatched
      else
        let! r := optional_row (webhookReplayByWebhookEventID i) in
        match r with Some a => ret a | None => fail unmatched end
  end.

(** What the body of the webhook transaction ends with: a result, or the
    unique violation after which the code rolls back and replays. *)
Inductive webhook_end :=
| WebhookApplied (r : ApplyPaymentProviderWebhookResult)
| WebhookRace.

(** The replay branches at the start of the transaction. *)
Definition replay_recorded (i : ApplyPaymentProviderWebhookInput) (existing : ProviderEvent)
    : M world (tx_end webhook_end) :=
  let! r := webhookReplayResultFromEvent existing i in
  auditPaymentWebhookTx i true (machineUUIDPtr (o_MachineID (wr_Order r))) ;;;
  ret (Commit (WebhookApplied r)).

(** Whether the target state is allowed, and whether it is a late capture. *)
Definition classify_transition (ord : Order) (pay : Payment) (target : string) : res bool :=
  if paymentTransitionAllowed (p_State pay) target then Ok false
  else if String.eqb target "captured" && webhookLateDeliveryAgainstTerminalState ord pay
  then Ok true
  else if webhookLateDeliveryAgainstTerminalState ord pay then Err ErrWebhookAfterTerminalOrder
  else Err ErrIllegalTransition.

Definition late_case (ctype reason key : string) (ord : Order) (pay : Payment)
    : ReconciliationCaseInput :=
  mk_ReconciliationCaseInput ctype "critical" (Some (o_ID ord)) (Some (p_ID pay)) None None
    (Some (o_MachineID ord)) None None (key +:+ uuid_String (p_ID pay)) reason (JObj []).

(** The capture of an open order. *)
Definition settle_capture (ord : Order) (pay : Payment) : M world Order :=
  let! claimed := attempt (ClaimWinningPaymentQ (p_ID pay) (o_ID ord)) in
  match claimed with
  | Ok row => ignore (UpdatePaymentOutcomeQ (p_ID pay) "winner") ;;; ret row
  | Err _ => UpdateOrderStatusByOrg "paid" (o_ID ord)
  end.
(** A capture that arrives late. *)
Definition settle_late_capture (ord : Order) (pay : Payment) : M world Order :=
  match o_WinningPaymentID ord with
  | Some w =>
      if w =u p_ID pay then ret ord
      else
        let! _ := UpdatePaymentOutcomeQ (p_ID pay) "refund_required" in
        ignore (UpsertCommerceReconciliationCase (late_case "late_capture_refund_required"
          "Late capture after order already has winning payment"
          "financial_correctness:late_capture:" ord pay)) ;;;
        ret ord
  | None =>
      let! claimed := attempt (ClaimWinningPaymentQ (p_ID pay) (o_ID ord)) in
      match claimed with
      | Ok row => ignore (UpdatePaymentOutcomeQ (p_ID pay) "winner") ;;; ret row
      | Err _ =>
          if one_of (o_Status ord) ["created"; "quoted"] then
            let! row := UpdateOrderStatusByOrg "paid" (o_ID ord) in
            ignore (UpdatePaymentOutcomeQ (p_ID pay) "winner") ;;; ret row
          else
            ignore (UpsertCommerceReconciliationCase (late_case
              "late_capture_order_promotion_failed" "Late capture could not promote order to paid"
              "financial_correctness:late_capture_promotion:" ord pay)) ;;;
            ret ord
      end
  end.

(** The effects of a new event once its row is in. *)
Definition record_applied (i : ApplyPaymentProviderWebhookInput) (ord : Order) (pay : Payment)
    (target : string) (late : bool) (ev : ProviderEvent) : M world (tx_end webhook_end) :=
  let! attempt_row := InsertPaymentAttemptQ (wh_PaymentID i) (Some (wh_ProviderReference i)) target
                        (RequiredRaw (wh_Payload i)) in
  let captured := String.eqb target "captured" in
  let! ord := (if captured && one_of (o_Status ord) ["created"; "quoted"] && negb late
               then settle_capture ord pay else ret ord) in
  let! ord := (if late && captured then settle_late_capture ord pay else ret ord) in
  (if shouldInsertWebhookOutbox i then
     let! _ := InsertOutboxEvent (mk_OutboxParams (wh_OutboxTopic i) (wh_OutboxEventType i)
       (webhookOutboxPayload i) (wh_OutboxAggregateType i) (wh_OutboxAggregateID i)
       (optionalStringToPgText (wh_OutboxIdempotencyKey i)) false None None) in ret tt
   else ret tt) ;;;
  auditPaymentWebhookTx i false (machineUUIDPtr (o_MachineID ord)) ;;;
  ret (Commit (WebhookApplied (mk_WebhookResult false (mapOrder ord) (mapPayment pay)
    (Some (mapPaymentAttemptView attempt_row)) (pe_ID ev)))).

(** A delivery that is not on record. *)
Definition apply_new (i : ApplyPaymentProviderWebhookInput) : M world (tx_end webhook_end) :=
  let! pay := GetPaymentByIDQ (wh_PaymentID i) in
  if provider_mismatch pay i then fail ErrWebhookProviderMismatch
  else if negb (p_OrderID pay =u wh_OrderID i) then fail ErrOrgMismatch
  else
    let! ord := Queries.GetOrderByID (wh_OrderID i) in
    let! _ := lift (webhookAmountCurrencyMatches pay ord i) in
    let target := TrimSpace (ToLower (wh_NormalizedPaymentState i)) in
    let! late := lift (classify_transition ord pay target) in
    let! pay := (if negb (String.eqb (p_State pay) target) then
                   if late && String.eqb target "captured"
                   then ForceUpdatePaymentStateCaptured (p_ID pay)
                   else UpdatePaymentState (p_ID pay) target
                 else ret pay) in
    let! applied := time_Now in
    let! ev := attempt (InsertPaymentProviderEvent (provider_event_of i applied)) in
    match ev with
    | Err e => if isUniqueViolation e then ret (Rollback WebhookRace) else fail e
    | Ok ev => record_applied i ord pay target late ev
    end.

Definition webhook_body (i : ApplyPaymentProviderWebhookInput) : M world (tx_end webhook_end) :=
  let! by_ref := optional_row (GetPaymentProviderEventByProviderRef (wh_Provider i)
                                 (Some (wh_ProviderReference i))) in
  match by_ref with
  | Some existing => replay_recorded i existing
  | None =>
      let event_id := TrimSpace (wh_WebhookEventID i) in
      let! by_event := (if blank event_id then ret None
                        else optional_row (GetPaymentProviderEventByWebhookEventID (wh_Provider i)
                                             (Some event_id))) in
      match by_event with
      | Some existing => replay_recorded i existing
      | None => apply_new i
      end
  end.

Definition ApplyPaymentProviderWebhook (i : ApplyPaymentProviderWebhookInput)
    : M world ApplyPaymentProviderWebhookResult :=
  let! r := with_tx (webhook_body i) in
  match r with
  | WebhookApplied r => ret r
  | WebhookRace => webhookReplayAfterUniqueViolation i
  end.
End Webhook.

(** ** Reconciled payment transitions (reconciliation_payment.go) *)

Section Reconciliation.
Context `{UuidText}.

Definition reconciledPaymentOutboxPayload (i : ReconciledPaymentTransitionInput) (cur : Payment)
    : json :=
  match rpt_OutboxPayload i with
  | Some payload => payload
  | None =>
      JObj (go_map
        [("source", JStr "reconciler.provider_probe"); ("order_id", JStr (uuid_String (p_OrderID cur)));
         ("payment_id", JStr (uuid_String (p_ID cur))); ("provider", JStr (TrimSpace (p_Provider cur)));
         ("payment_state", JStr (TrimSpace (rpt_ToState i)))])
  end.

Definition reconcile_attempt_payload (i : ReconciledPaymentTransitionInput) : json :=
  JObj (go_map [("reason", JStr (rpt_Reason i)); ("provider_hint", rpt_ProviderHint i);
                ("source", JStr "reconciler.provider_probe")]).

(** The transaction, once the payment read outside it was still open. *)
Definition reconcile_body (i : ReconciledPaymentTransitionInput) (to : string) (cur : Payment)
    : M world (tx_end Payment) :=
  let! updated := optional_row (UpdatePaymentStateForReconciliation to (rpt_PaymentID i)) in
  match updated with
  | None => ret (Commit (mapPayment cur))
  | Some updated =>
      let! _ := InsertPaymentAttemptQ (rpt_PaymentID i) (Some "reconciler:provider_probe")
                  ("reconciliation.probe." +:+ to) (RequiredString (reconcile_attempt_payload i)) in
      (if shouldInsertReconciledPaymentOutbox i then
         let! r := attempt (InsertOutboxEvent (mk_OutboxParams (TrimSpace (rpt_OutboxTopic i))
           (TrimSpace (rpt_OutboxEventType i))
           (RequiredString (reconciledPaymentOutboxPayload i cur))
           (TrimSpace (rpt_OutboxAggregateType i)) (rpt_OutboxAggregateID i)
           (optionalStringToPgText (TrimSpace (rpt_OutboxIdempotencyKey i))) false None None)) in
         match r with
         | Ok _ => ret tt
         | Err e => if isUniqueViolation e then ret tt else fail e
         end
       else ret tt) ;;;
      ret (Commit (mapPayment updated))
  end.

Definition ApplyReconciledPaymentTransition (i : ReconciledPaymentTransitionInput)
    : M world Payment :=
  if rpt_PaymentID i =u uuid_Nil then fail (ENew "postgres: payment_id is required")
  else
    let to := ToLower (TrimSpace (rpt_ToState i)) in
    if negb (one_of to ["captured"; "failed"; "expired"; "canceled"])
    then fail (ENew "postgres: invalid reconciler target state")
    else
      let! cur := GetPaymentByIDQ (rpt_PaymentID i) in
      let! _ := Queries.GetOrderByID (p_OrderID cur) in
      if rpt_DryRun i then ret (mapPayment cur)
      else if negb (open_state cur) then ret (mapPayment cur)
      else with_tx (reconcile_body i to cur).
End Reconciliation.

(** ** Outbox, evidence and ledger of a vend (commerce_vend_outbox.go,
    financial_ledger_tx.go) *)

Record insertOutboxParams := mk_insertOutboxParams {
  io_Topic : string; io_EventType : string; io_Payload : json; io_AggregateType : string;
  io_AggregateID : N; io_IdempotencyKey : string; io_Simulated : bool;
  io_SimulationRun : string; io_SimulationScen : string }.

Definition pgTextOrEmpty (s : string) : option string := optionalStringToPgText s.

Definition insertOutboxEventIdempotent (p : insertOutboxParams) : M world unit :=
  let topic := TrimSpace (io_Topic p) in
  let evType := TrimSpace (io_EventType p) in
  let idem := TrimSpace (io_IdempotencyKey p) in
  if blank topic || blank evType || blank idem then ret tt
  else
    let! r := attempt (InsertOutboxEventIdempotent (mk_OutboxParams topic evType
      (RequiredString (io_Payload p)) (TrimSpace (io_AggregateType p)) (io_AggregateID p)
      (Some idem) (io_Simulated p) (pgTextOrEmpty (io_SimulationRun p))
      (pgTextOrEmpty (io_SimulationScen p)))) in
    match r with
    | Ok _ => ret tt
    | Err e =>
        if negb (isNoRows e) then fail e
        else let! _ := GetOutboxEventByTopicIdempotencyKey topic (Some idem) in ret tt
    end.

Record persistEvidenceInput := mk_persistEvidenceInput {
  pei_OrderID : N; pei_VendSessionID : N; pei_MachineID : N; pei_SlotIndex : Z;
  pei_Evidence : option VendHardwareEvidence; pei_DedupeKey : string }.

Definition emitVendSuccessFinancialLedgerTx (machineID orderID paymentID : N) (amountMinor : Z)
    (currency : string) (correlationID : N) (idempotencyKey : string) : M world unit :=
  if amountMinor <=? 0 then ret tt
  else
    let meta := JObj [("idempotency_key", JStr idempotencyKey);
                      ("source", JStr "commerce_vend_fulfillment")] in
    let! now := time_Now in
    let! _ := InsertFinancialLedgerEntry (fun _ id =>
      mk_LedgerRow id (Some machineID) (Some orderID) (Some paymentID) "payment_captured"
        amountMinor currency now (uuidPtrToPgUUID correlationID) meta) in
    ret tt.

Section VendRecords.
Context `{UuidText} `{Sha256}.

Definition persistVendHardwareEvidenceTx (i : persistEvidenceInput) : M world bool :=
  match pei_Evidence i with
  | None => ret false
  | Some e =>
      let dedupe := TrimSpace (pei_DedupeKey i) in
      if blank dedupe then fail (ENew "postgres: evidence dedupe key required")
      else
        let! r := optional_row (InsertVendHardwareEvidence dedupe (fun _ id =>
          mk_EvidenceRow id (pei_OrderID i) (pei_VendSessionID i) (pei_MachineID i)
            (pei_SlotIndex i) (ev_VendAttemptID e) (ev_CorrelationID e)
            (TrimSpace (hc_CommandID (ev_Command e))) (EvidenceDigest (Some e)) e dedupe)) in
        ret (negb (is_none r))
  end.

Definition vendSuccessOutboxPayload (orderID : N) (slotIndex : Z) (machineID : N)
    (verificationStatus : string) (evidence : option VendHardwareEvidence)
    (idempotencyKey : string) : json :=
  JObj (go_map (
    [("order_id", JStr (uuid_String orderID)); ("slot_index", JInt slotIndex);
     ("machine_id", JStr (uuid_String machineID));
     ("verification_status", JStr verificationStatus);
     ("idempotency_key", JStr idempotencyKey)] ++
    match evidence with
    | None => []
    | Some e =>
        [("vend_attempt_id", JStr (uuid_String (ev_VendAttemptID e)));
         ("correlation_id", JStr (uuid_String (ev_CorrelationID e)));
         ("command_id", JStr (TrimSpace (hc_CommandID (ev_Command e))));
         ("evidence_digest", JStr (EvidenceDigest (Some e)))]
    end)).
Definition vendFailedOutboxPayload (orderID : N) (slotIndex : Z) (failureReason : string)
    (refundRequired localCashRefund : bool) : json :=
  JObj (go_map
    [("order_id", JStr (uuid_String orderID)); ("slot_index", JInt slotIndex);
     ("failure_reason", JStr failureReason); ("refund_required", JBool refundRequired);
     ("local_cash_refund_required_hint", JBool localCashRefund)]).
End VendRecords.
