(* ===== verification/OperatorSessions.v ===== *)
(** * Operator sessions

    The statements of internal/gen/db/operator.sql.go (sqlc, from
    db/queries/operator.sql) with the constraints of migration 00002: a session
    has the shape of its actor, and the partial unique index keeps one active
    session per machine.  The rows are also the values of
    internal/domain/operator (Session, AuthEvent, ActionAttribution), as the
    mappers of repository_mappers.go copy every column.  Foreign keys to
    machines and technicians are taken to hold: the callers load both.

    Then internal/domain/operator (validation), OperatorRepository
    (internal/modules/postgres/operator_repository.go, operator_attribution.go)
    and the service of internal/app/operator: who is signed in at a machine.
    A method is a definition of its name, those of the service in the file
    OperatorService; the fleet's lookups are an interface. *)

From S2P Require Import Prelude.
From S2P Require Import GoStd.
From S2P Require Import Pricing.
From S2P Require Import CommerceTypes.
From S2P Require Import Evidence.
From S2P Require Import Rules.
From S2P Require Import CommerceService.
From S2P Require Import Db.
From S2P Require Import Queries.
From S2P Require Import CashQueries.
From S2P Require Import PgCommerce.
Local Open Scope string_scope.
Local Open Scope list_scope.
Local Open Scope Z_scope.

(** ** Constraints *)

Definition actorTypes : list string := ["TECHNICIAN"; "USER"].
Definition sessionStatuses : list string := ["ACTIVE"; "ENDED"; "EXPIRED"; "REVOKED"].
Definition authEventTypes : list string :=
  ["login_success"; "login_failure"; "logout"; "session_refresh"; "lockout"; "unknown"].
Definition authMethods : list string := ["pin"; "password"; "badge"; "oidc"; "device_cert"; "unknown"].
Definition actionOrigins : list string := ["operator_session"; "system"; "scheduled"; "api"; "remote_support"].
(** [btrim(s) <> '']: [btrim] removes spaces. *)
Definition btrim_nonempty (s : string) : bool := negb (forallb (fun c => Ascii.eqb c " "%char) (s2l s)).
Definition actor_shape (r : SessionRow) : bool :=
  (String.eqb (os_ActorType r) "TECHNICIAN" && negb (is_none (os_TechnicianID r)) && is_none (os_UserPrincipal r)) ||
  (String.eqb (os_ActorType r) "USER" && is_none (os_TechnicianID r) &&
   match os_UserPrincipal r with Some p => btrim_nonempty p | None => false end).
Definition session_ok (r : SessionRow) : res unit :=
  let? _ := check (one_of (os_ActorType r) actorTypes) "machine_operator_sessions_actor_type_check" in
  let? _ := check (one_of (os_Status r) sessionStatuses) "machine_operator_sessions_status_check" in
  check (actor_shape r) "ck_operator_session_actor_shape".
Definition is_active (r : SessionRow) : bool := String.eqb (os_Status r) "ACTIVE".
Definition active_on (machine : N) (r : SessionRow) : bool := (os_MachineID r =u machine) && is_active r.
Definition active_id (id : N) (r : SessionRow) : bool := (os_ID r =u id) && is_active r.

(** ** Sessions *)

Definition GetOperatorSessionByID (id : N) : M world SessionRow :=
  stmt (select_one (fun d => List.find (fun r => os_ID r =u id) (d_sessions d))).
(** The same with the row locked. *)
Definition GetOperatorSessionByIDForUpdate (id : N) : M world SessionRow := GetOperatorSessionByID id.
Definition GetActiveOperatorSessionByMachineID (machine : N) : M world SessionRow :=
  stmt (select_one (fun d => List.find (active_on machine) (d_sessions d))).
Definition GetActiveOperatorSessionByMachineIDForUpdate (machine : N) : M world SessionRow :=
  GetActiveOperatorSessionByMachineID machine.

Definition session_with (r : SessionRow) (status : string) (ended expires : option Z) (metadata : json)
    (activity : Z) (reason : option string) (updated : Z) : SessionRow :=
  mk_SessionRow (os_ID r) (os_MachineID r) (os_ActorType r) (os_TechnicianID r) (os_UserPrincipal r) status
    (os_StartedAt r) ended expires metadata activity reason (os_CreatedAt r) updated.
(** [IS NOT DISTINCT FROM] *)
Definition same_text (a b : option string) : bool := bool_decide (a = b).
Definition session_resumed (expires : option Z) (metadata : json) (now : Z) (r : SessionRow) : SessionRow :=
  session_with r (os_Status r) (os_EndedAt r) (match expires with Some t => Some t | None => os_ExpiresAt r end)
    metadata now (os_EndedReason r) now.
Definition ResumeActiveOperatorSessionForActor (expires : option Z) (metadata : json) (machine : N)
    (actor : string) (technician : option N) (principal : option string) : M world SessionRow :=
  stmt (update_rows d_sessions set_sessions no_check
    (fun r => active_on machine r && String.eqb (os_ActorType r) actor &&
              opt_eqb_N (os_TechnicianID r) technician && same_text (os_UserPrincipal r) principal)
    (session_resumed expires metadata)).
Definition InsertMachineOperatorSession (machine : N) (actor : string) (technician : option N)
    (principal : option string) (status : string) (expires : option Z) (metadata : json) : M world SessionRow :=
  stmt (insert_row set_sessions (fun r d =>
      let? _ := session_ok r in
      let? _ := unique (fun x => os_ID x =u os_ID r) (d_sessions d) "machine_operator_sessions_pkey" in
      if is_active r
      then unique (active_on (os_MachineID r)) (d_sessions d) "ux_machine_operator_sessions_one_active"
      else Ok tt)
    (fun now id => mk_SessionRow id machine actor technician principal status now None expires metadata now None now now)).
Definition session_ended (status : string) (at_ : Z) (reason : option string) (_ : Z) (r : SessionRow) : SessionRow :=
  session_with r status (Some at_) (os_ExpiresAt r) (os_ClientMetadata r) (os_LastActivityAt r) reason at_.
Definition EndMachineOperatorSession (status : string) (at_ : Z) (reason : option string) (id : N)
    : M world SessionRow :=
  stmt (update_rows d_sessions set_sessions (fun r _ => session_ok r) (active_id id) (session_ended status at_ reason)).
Definition session_touched (now : Z) (r : SessionRow) : SessionRow :=
  session_with r (os_Status r) (os_EndedAt r) (os_ExpiresAt r) (os_ClientMetadata r) now (os_EndedReason r) now.
Definition TouchMachineOperatorSessionActivity (id : N) : M world SessionRow :=
  stmt (update_rows d_sessions set_sessions no_check (active_id id) session_touched).
Definition session_expired (now : Z) (r : SessionRow) : SessionRow :=
  session_with r "EXPIRED" (Some now) (os_ExpiresAt r) (os_ClientMetadata r) (os_LastActivityAt r)
    (Some "session_expired") now.
Definition TimeoutMachineOperatorSessionIfExpired (id : N) : M world SessionRow :=
  stmt (fun now fresh d => update_rows d_sessions set_sessions no_check
    (fun r => active_id id r && match os_ExpiresAt r with Some t => t <=? now | None => false end)
    session_expired now fresh d).

(** ** What is done in a session *)

Definition InsertMachineOperatorAuthEvent (session : option N) (machine : N) (event method : string) (at_ : Z)
    (correlation : option N) (metadata : json) : M world AuthEventRow :=
  stmt (insert_row set_auth_events (fun e d =>
      let? _ := check (one_of (ae_EventType e) authEventTypes) "machine_operator_auth_events_event_type_check" in
      let? _ := check (one_of (ae_AuthMethod e) authMethods) "machine_operator_auth_events_auth_method_check" in
      fk_opt os_ID (ae_OperatorSessionID e) (d_sessions d) "machine_operator_auth_events_operator_session_id_fkey")
    (fun _ id => mk_AuthEventRow id session machine event method at_ correlation metadata)).
Definition InsertMachineActionAttribution (session : option N) (machine : N) (origin rtype rid : string) (at_ : Z)
    (metadata : json) (correlation : option N) : M world AttributionRow :=
  stmt (insert_row set_attributions (fun a d =>
      let? _ := check (one_of (aa_ActionOriginType a) actionOrigins) "machine_action_attributions_action_origin_type_check" in
      fk_opt os_ID (aa_OperatorSessionID a) (d_sessions d) "machine_action_attributions_operator_session_id_fkey")
    (fun _ id => mk_AttributionRow id session machine origin rtype rid at_ metadata correlation)).

(** ** Lists, newest first *)

Definition recent {A} (at_ : A -> Z) (limit : Z) (l : list A) : list A :=
  limit_to limit (stable_sort (fun x y => at_ y <? at_ x) l).
Definition ListOperatorSessionsByMachineID (machine : N) (limit : Z) : M world (list SessionRow) :=
  stmt (select_many (fun d => recent os_StartedAt limit (List.filter (fun r => os_MachineID r =u machine) (d_sessions d)))).
Definition ListOperatorSessionsByTechnicianID (technician : N) (limit : Z) : M world (list SessionRow) :=
  stmt (select_many (fun d => recent os_StartedAt limit
    (List.filter (fun r => opt_eqb_N (os_TechnicianID r) (Some technician)) (d_sessions d)))).
Definition of_principal (principal : option string) (r : SessionRow) : bool :=
  String.eqb (os_ActorType r) "USER" && sql_text_eq (os_UserPrincipal r) principal.
Definition ListOperatorSessionsByUserPrincipal (principal : option string) (limit : Z) : M world (list SessionRow) :=
  stmt (select_many (fun d => recent os_StartedAt limit (List.filter (of_principal principal) (d_sessions d)))).
Definition ListMachineOperatorAuthEventsByMachineID (machine : N) (limit : Z) : M world (list AuthEventRow) :=
  stmt (select_many (fun d => recent ae_OccurredAt limit
    (List.filter (fun e => ae_MachineID e =u machine) (d_auth_events d)))).
Definition ListMachineActionAttributionsByMachineID (machine : N) (limit : Z) : M world (list AttributionRow) :=
  stmt (select_many (fun d => recent aa_OccurredAt limit
    (List.filter (fun a => aa_MachineID a =u machine) (d_attributions d)))).
Definition ListMachineActionAttributionsByMachineAndResource (machine : N) (rtype rid : string) (limit : Z)
    : M world (list AttributionRow) :=
  stmt (select_many (fun d => recent aa_OccurredAt limit (List.filter (fun a =>
    (aa_MachineID a =u machine) && String.eqb (aa_ResourceType a) rtype && String.eqb (aa_ResourceID a) rid)
    (d_attributions d)))).
(** [INNER JOIN machine_operator_sessions s ON s.id = a.operator_session_id] *)
Definition in_session (p : SessionRow -> bool) (d : pgdb) (a : AttributionRow) : bool :=
  existsb (fun s => opt_eqb_N (aa_OperatorSessionID a) (Some (os_ID s)) && p s) (d_sessions d).
Definition ListMachineActionAttributionsForTechnician (technician : N) (limit : Z) : M world (list AttributionRow) :=
  stmt (select_many (fun d => recent aa_OccurredAt limit
    (List.filter (in_session (fun s => opt_eqb_N (os_TechnicianID s) (Some technician)) d) (d_attributions d)))).
Definition ListMachineActionAttributionsForUserPrincipal (principal : option string) (limit : Z)
    : M world (list AttributionRow) :=
  stmt (select_many (fun d => recent aa_OccurredAt limit
    (List.filter (in_session (of_principal principal) d) (d_attributions d)))).

(** ** Errors and values (internal/domain/operator) *)

Definition ErrInvalidActor : goerr := ESentinel "operator: actor_type does not match technician_id/user_principal".
Definition ErrCompanyMismatch : goerr := ESentinel "operator: company context does not match machine or technician".
Definition ErrActiveSessionExists : goerr := ESentinel "operator: machine already has an active session".
Definition ErrNoActiveSession : goerr := ESentinel "operator: no active session for machine".
Definition ErrSessionNotFound : goerr := ESentinel "operator: session not found".
Definition ErrSessionMachineMismatch : goerr := ESentinel "operator: session does not belong to this machine".
Definition ErrSessionNotActive : goerr := ESentinel "operator: session is not active".
Definition ErrOperatorSessionRequired : goerr :=
  ESentinel "operator: operator_session_id is required for this physical machine action".
Definition ErrTimeoutNotApplicable : goerr := ESentinel "operator: session is not eligible for expiry timeout".
Definition ErrInvalidAuthMethod : goerr := ESentinel "operator: unknown auth_method".
Definition ErrInvalidAuthEventType : goerr := ESentinel "operator: unknown auth event_type".
Definition ErrInvalidActionOriginType : goerr := ESentinel "operator: unknown action_origin_type".
Definition ErrInvalidSessionEndStatus : goerr := ESentinel "operator: end status must be ENDED or REVOKED".
Definition ErrTechnicianNotAssignedToMachine : goerr :=
  ESentinel "operator: technician has no active assignment to this machine".
Definition ErrTechnicianAssignmentCheckerRequired : goerr :=
  ESentinel "operator: technician login requires a configured assignment checker".
Definition ErrInvalidSessionExpiry : goerr :=
  ESentinel "operator: expires_at must be in the future and within the maximum session lifetime".
Definition ErrMachineContextRequired : goerr := ESentinel "operator: machine_id is required for this operation".
Definition ErrAdminTakeoverUnauthorized : goerr :=
  ESentinel "operator: admin takeover is not permitted for this principal".

Record InsertAuthEventParams := mk_InsertAuthEventParams {
  iae_OperatorSessionID : option N; iae_MachineID : N; iae_EventType : string; iae_AuthMethod : string;
  iae_OccurredAt : option Z; iae_CorrelationID : option N; iae_Metadata : json }.
Record InsertActionAttributionParams := mk_InsertActionAttributionParams {
  iat_OperatorSessionID : option N; iat_MachineID : N; iat_ActionOriginType : string; iat_ResourceType : string;
  iat_ResourceID : string; iat_OccurredAt : option Z; iat_Metadata : json; iat_CorrelationID : option N }.
Record InitialSessionAuth := mk_InitialSessionAuth {
  ia_EventType : string; ia_AuthMethod : string; ia_CorrelationID : option N; ia_AuthMetadata : json }.
Record StartOperatorSessionParams := mk_StartOperatorSessionParams {
  sp_MachineID : N; sp_ActorType : string; sp_TechnicianID : option N; sp_UserPrincipal : option string;
  sp_ExpiresAt : option Z; sp_ClientMetadata : json; sp_InitialAuth : option InitialSessionAuth;
  sp_StaleIdleReclaimAfter : Z; sp_ForceAdminTakeover : bool; sp_AdminTakeoverAuthorized : bool }.
Record EndOperatorSessionParams := mk_EndOperatorSessionParams {
  ep_SessionID : N; ep_Status : string; ep_EndedAt : Z; ep_EndedReason : option string;
  ep_Logout : option InsertAuthEventParams }.

(** ** Validation *)

Definition MaxOperatorSessionTTL : Z := 90 * (24 * Hour).
Definition DefaultStaleIdleReclaimForDifferentOperator : Z := 15 * Minute.
Definition ValidateSessionExpiryBounds (exp : option Z) (now maxTTL : Z) : res unit :=
  match exp with
  | None => Ok tt
  | Some exp =>
      if negb (now <? exp) then Err ErrInvalidSessionExpiry
      else if maxTTL <? time_Sub exp now then Err ErrInvalidSessionExpiry
      else Ok tt
  end.
Definition ValidateActorConsistency (actorType : string) (technicianID : option N) (userPrincipal : option string)
    : res unit :=
  if String.eqb actorType "TECHNICIAN" then
    match technicianID with
    | None => Err ErrInvalidActor
    | Some t =>
        if t =u uuid_Nil then Err ErrInvalidActor
        else match userPrincipal with
             | Some p => if negb (blank (TrimSpace p)) then Err ErrInvalidActor else Ok tt
             | None => Ok tt
             end
    end
  else if String.eqb actorType "USER" then
    if negb (is_none technicianID) then Err ErrInvalidActor
    else match userPrincipal with
         | None => Err ErrInvalidActor
         | Some p => if blank (TrimSpace p) then Err ErrInvalidActor else Ok tt
         end
  else Err ErrInvalidActor.
Definition validateAuthMethod (m : string) : res unit :=
  if one_of m authMethods then Ok tt else Err ErrInvalidAuthMethod.
Definition validateAuthEventType (t : string) : res unit :=
  if one_of t authEventTypes then Ok tt else Err ErrInvalidAuthEventType.
Definition validateActionOriginType (t : string) : res unit :=
  if one_of t actionOrigins then Ok tt else Err ErrInvalidActionOriginType.
Definition ValidateAuthEventSemantics (eventType authMethod : string) : res unit :=
  let? _ := validateAuthEventType eventType in validateAuthMethod authMethod.
Definition ValidateActionAttributionSemantics (origin : string) : res unit := validateActionOriginType origin.

Definition endedReasons : list string :=
  ["client_logout"; "heartbeat_timeout"; "technician_token_expired"; "token_refresh_failed";
   "superseded_by_same_operator"; "superseded_by_admin_takeover"; "admin_forced_close"; "app_crash_detected";
   "device_reboot"; "safe_mode_entered"; "commissioning_completed"; "session_expired"; "server_revoked"; "unknown";
   "stale_session_reclaimed"; "admin_forced_takeover"].
Definition NormalizeEndedReason (raw : string) : string :=
  let v := ToLower (TrimSpace raw) in
  if blank v then "unknown"
  else if String.eqb v "stale_session_reclaimed" then "superseded_by_same_operator"
  else if String.eqb v "admin_forced_takeover" then "superseded_by_admin_takeover"
  else if one_of v endedReasons then v else "unknown".

(** ** The repository *)

Definition ptrTimeOrNow (t : option Z) : M world Z := match t with None => time_Now | Some t => ret t end.
Definition sameOperatorSessionActor (active : SessionRow) (i : StartOperatorSessionParams) : bool :=
  if negb (String.eqb (os_ActorType active) (sp_ActorType i)) then false
  else if String.eqb (sp_ActorType i) "TECHNICIAN" then
    match sp_TechnicianID i, os_TechnicianID active with
    | Some t, Some a => a =u t
    | _, _ => false
    end
  else if String.eqb (sp_ActorType i) "USER" then
    match sp_UserPrincipal i, os_UserPrincipal active with
    | Some p, Some a => String.eqb (TrimSpace a) (TrimSpace p)
    | _, _ => false
    end
  else false.
(** The sign-in event of a session, written with it. *)
Definition record_auth (row : SessionRow) (eventType : string) (a : InitialSessionAuth) : M world unit :=
  let! now := ptrTimeOrNow None in
  let! _ := InsertMachineOperatorAuthEvent (Some (os_ID row)) (os_MachineID row) eventType (ia_AuthMethod a) now
              (ia_CorrelationID a) (RequiredString (ia_AuthMetadata a)) in
  ret tt.

Section Start.
Context (i : StartOperatorSessionParams).

Definition resume_session : M world (tx_end SessionRow) :=
  let! r := attempt (ResumeActiveOperatorSessionForActor (sp_ExpiresAt i) (RequiredString (sp_ClientMetadata i))
                       (sp_MachineID i) (sp_ActorType i) (sp_TechnicianID i) (sp_UserPrincipal i)) in
  let! row := (match r with
               | Ok row => ret row
               | Err e => fail (if isNoRows e then ErrActiveSessionExists else e)
               end) in
  match sp_InitialAuth i with
  | None => ret (Commit row)
  | Some a =>
      let! _ := lift (ValidateAuthEventSemantics "session_refresh" (ia_AuthMethod a)) in
      record_auth row "session_refresh" a ;;; ret (Commit row)
  end.
(** How another's session gives way: its end status and reason. *)
Definition stale_after : Z :=
  if sp_StaleIdleReclaimAfter i <=? 0 then DefaultStaleIdleReclaimForDifferentOperator else sp_StaleIdleReclaimAfter i.
Definition gives_way (active : SessionRow) (now : Z) : option (string * string) :=
  if sp_ForceAdminTakeover i && sp_AdminTakeoverAuthorized i then Some ("REVOKED", "admin_forced_takeover")
  else if stale_after <=? time_Sub now (os_LastActivityAt active) then Some ("ENDED", "stale_session_reclaimed")
  else None.
Definition end_other (active : SessionRow) : M world unit :=
  let! now := time_Now in
  match gives_way active now with
  | None => fail ErrActiveSessionExists
  | Some (status, reason) =>
      let! endedAt := time_Now in
      let! r := attempt (EndMachineOperatorSession status endedAt (Some reason) (os_ID active)) in
      match r with
      | Ok _ => ret tt
      | Err e => fail (if isNoRows e then ErrActiveSessionExists else e)
      end
  end.
Definition insert_session : M world (tx_end SessionRow) :=
  let! r := attempt (InsertMachineOperatorSession (sp_MachineID i) (sp_ActorType i) (sp_TechnicianID i)
                       (sp_UserPrincipal i) "ACTIVE" (sp_ExpiresAt i) (RequiredString (sp_ClientMetadata i))) in
  let! row := (match r with
               | Ok row => ret row
               | Err e => fail (if isUniqueViolation e then ErrActiveSessionExists else e)
               end) in
  match sp_InitialAuth i with
  | None => ret (Commit row)
  | Some a =>
      let eventType := if blank (ia_EventType a) then "login_success" else ia_EventType a in
      record_auth row eventType a ;;; ret (Commit row)
  end.
Definition StartOperatorSession : M world SessionRow :=
  with_tx (
    let! _ := GetMachineByIDForUpdate (sp_MachineID i) in
    let! r := attempt (GetActiveOperatorSessionByMachineIDForUpdate (sp_MachineID i)) in
    match r with
    | Ok active =>
        if sameOperatorSessionActor active i then resume_session
        else end_other active ;;; insert_session
    | Err e => if isNoRows e then insert_session else fail e
    end).
End Start.

Definition or_error {A} (to : goerr) (m : M world A) : M world A :=
  let! r := attempt m in
  match r with Ok a => ret a | Err e => fail (if isNoRows e then to else e) end.
Definition GetOperatorSession (id : N) : M world SessionRow := or_error ErrSessionNotFound (GetOperatorSessionByID id).
Definition GetActiveSessionByMachineID (machineID : N) : M world SessionRow :=
  or_error ErrNoActiveSession (GetActiveOperatorSessionByMachineID machineID).
(** The row locked, which has to be active. *)
Definition locked_active (id : N) : M world SessionRow :=
  let! sess := or_error ErrSessionNotFound (GetOperatorSessionByIDForUpdate id) in
  guard (negb (is_active sess)) ErrSessionNotActive ;;; ret sess.
Definition EndOperatorSession (i : EndOperatorSessionParams) : M world SessionRow :=
  with_tx (
    let! _ := locked_active (ep_SessionID i) in
    let! row := or_error ErrSessionNotActive
                  (EndMachineOperatorSession (ep_Status i) (ep_EndedAt i) (ep_EndedReason i) (ep_SessionID i)) in
    match ep_Logout i with
    | None => ret (Commit row)
    | Some log =>
        let! at_ := ptrTimeOrNow (iae_OccurredAt log) in
        let! _ := InsertMachineOperatorAuthEvent (Some (os_ID row)) (os_MachineID row) (iae_EventType log)
                    (iae_AuthMethod log) at_ (iae_CorrelationID log) (RequiredString (iae_Metadata log)) in
        ret (Commit row)
    end).
Definition TouchOperatorSessionActivity (sessionID : N) : M world SessionRow :=
  with_tx (
    let! _ := locked_active sessionID in
    let! row := or_error ErrSessionNotActive (TouchMachineOperatorSessionActivity sessionID) in
    ret (Commit row)).
Definition TimeoutOperatorSessionIfExpired (sessionID : N) : M world SessionRow :=
  with_tx (
    let! sess := locked_active sessionID in
    let! now := time_Now in
    guard (match os_ExpiresAt sess with Some t => negb (t <? now) | None => true end) ErrTimeoutNotApplicable ;;;
    let! row := or_error ErrTimeoutNotApplicable (TimeoutMachineOperatorSessionIfExpired sessionID) in
    ret (Commit row)).
Definition InsertAuthEvent (i : InsertAuthEventParams) : M world AuthEventRow :=
  let! at_ := ptrTimeOrNow (iae_OccurredAt i) in
  InsertMachineOperatorAuthEvent (iae_OperatorSessionID i) (iae_MachineID i) (iae_EventType i) (iae_AuthMethod i) at_
    (iae_CorrelationID i) (RequiredString (iae_Metadata i)).
Definition InsertActionAttribution (i : InsertActionAttributionParams) : M world AttributionRow :=
  let! at_ := ptrTimeOrNow (iat_OccurredAt i) in
  InsertMachineActionAttribution (iat_OperatorSessionID i) (iat_MachineID i) (iat_ActionOriginType i)
    (iat_ResourceType i) (iat_ResourceID i) at_ (RequiredString (iat_Metadata i)) (iat_CorrelationID i).
Definition ListSessionsByUserPrincipal (principal : string) (limit : Z) : M world (list SessionRow) :=
  ListOperatorSessionsByUserPrincipal (optionalStringToPgText principal) limit.
Definition ListActionAttributionsForUserPrincipal (principal : string) (limit : Z) : M world (list AttributionRow) :=
  ListMachineActionAttributionsForUserPrincipal (optionalStringToPgText principal) limit.

(** ** Attribution of an action (operator_attribution.go) *)

Record operatorAttributionSpec := mk_operatorAttributionSpec {
  oa_MachineID : N; oa_OperatorSessionID : option N; oa_ActionDomain : string; oa_ActionType : string;
  oa_ResourceTable : string; oa_ResourceID : string; oa_CorrelationID : option N; oa_OccurredAt : option Z }.

Section Attribution.
Context `{UuidText}.
Definition attribution_metadata (s : operatorAttributionSpec) (sess : SessionRow) : json :=
  let principal := match os_UserPrincipal sess with Some p => TrimSpace p | None => "" end in
  JObj ([("machine_id", JStr (uuid_String (os_MachineID sess)));
             ("operator_session_id", JStr (uuid_String (os_ID sess)));
             ("actor_type", JStr (os_ActorType sess)); ("action_origin", JStr "operator_session");
             ("action_domain", JStr (oa_ActionDomain s)); ("action_type", JStr (oa_ActionType s));
             ("resource_table", JStr (oa_ResourceTable s)); ("resource_id", JStr (oa_ResourceID s))] ++
            match os_TechnicianID sess with Some t => [("technician_id", JStr (uuid_String t))] | None => [] end ++
            if blank principal then [] else [("user_principal", JStr principal); ("user_id", JStr principal)]).
Definition insertOperatorSessionAttribution (s : operatorAttributionSpec) : M world unit :=
  match oa_OperatorSessionID s with
  | None => ret tt
  | Some session =>
      if session =u uuid_Nil then ret tt
      else
        let! r := attempt (GetOperatorSessionByID session) in
        let! sess := (match r with
                      | Ok sess => ret sess
                      | Err e => fail (if isNoRows e then EWrapPre "operator attribution" ErrSessionNotFound
                                       else EWrapPre "operator attribution: load session" e)
                      end) in
        guard (negb (os_MachineID sess =u oa_MachineID s))
          (ENew "postgres: operator session does not match machine") ;;;
        let! at_ := ptrTimeOrNow (oa_OccurredAt s) in
        let! r := attempt (InsertMachineActionAttribution (Some session) (oa_MachineID s) "operator_session"
                             (oa_ResourceTable s) (oa_ResourceID s) at_ (attribution_metadata s sess)
                             (oa_CorrelationID s)) in
        match r with
        | Ok _ => ret tt
        | Err e => fail (EWrapPre "operator attribution: insert" e)
        end
  end.
End Attribution.

(** ** The service (internal/app/operator) *)

(** What it reads of the fleet: machines, the name of a technician, and
    whether one is assigned to a machine. *)
Record OperatorFleet (W : Type) := mk_OperatorFleet {
  of_Machine : N -> M W unit; of_Technician : N -> M W string;
  of_HasActiveAssignment : option (N -> N -> M W bool) }.
Record OperatorRepository (W : Type) := mk_OperatorRepository {
  or_Start : StartOperatorSessionParams -> M W SessionRow;
  or_Get : N -> M W SessionRow;
  or_Active : N -> M W SessionRow;
  or_End : EndOperatorSessionParams -> M W SessionRow;
  or_Touch : N -> M W SessionRow;
  or_Timeout : N -> M W SessionRow;
  or_InsertAuthEvent : InsertAuthEventParams -> M W AuthEventRow;
  or_InsertAttribution : InsertActionAttributionParams -> M W AttributionRow;
  or_ListSessions : N -> Z -> M W (list SessionRow);
  or_ListTechnicianSessions : N -> Z -> M W (list SessionRow);
  or_ListUserSessions : string -> Z -> M W (list SessionRow);
  or_ListAuthEvents : N -> Z -> M W (list AuthEventRow);
  or_ListAttributions : N -> Z -> M W (list AttributionRow);
  or_ListTechnicianAttributions : N -> Z -> M W (list AttributionRow);
  or_ListUserAttributions : string -> Z -> M W (list AttributionRow) }.
Definition pg_operators : OperatorRepository world :=
  mk_OperatorRepository world StartOperatorSession GetOperatorSession GetActiveSessionByMachineID EndOperatorSession
    TouchOperatorSessionActivity TimeoutOperatorSessionIfExpired InsertAuthEvent InsertActionAttribution
    ListOperatorSessionsByMachineID ListOperatorSessionsByTechnicianID ListSessionsByUserPrincipal
    ListMachineOperatorAuthEventsByMachineID ListMachineActionAttributionsByMachineID
    ListMachineActionAttributionsForTechnician ListActionAttributionsForUserPrincipal.

Record StartOperatorSessionInput := mk_StartOperatorSessionInput {
  si_MachineID : N; si_ActorType : string; si_TechnicianID : option N; si_UserPrincipal : option string;
  si_ExpiresAt : option Z; si_ClientMetadata : json; si_InitialAuthMethod : string; si_CorrelationID : option N;
  si_InitialAuthMetadata : json; si_StaleIdleReclaimAfter : Z; si_ForceAdminTakeover : bool;
  si_AdminTakeoverAuthorized : bool }.
Record EndOperatorSessionInput := mk_EndOperatorSessionInput {
  ei_MachineID : N; ei_SessionID : N; ei_FinalStatus : string; ei_EndedReason : string;
  ei_LogoutAuthMethod : string; ei_LogoutCorrelationID : option N; ei_LogoutMetadata : json }.
Inductive SessionPolicy := SessionRequired | SessionOptionalByOrigin | SessionNotApplicable.
Record MachineActionActor := mk_MachineActionActor {
  mx_MachineID : N; mx_Origin : string; mx_OperatorSessionID : option N }.
Record CurrentOperatorResolution := mk_CurrentOperatorResolution {
  co_MachineID : N; co_ActiveSession : option SessionRow; co_TechnicianDisplayName : option string }.

Definition clampListLimit (limit : Z) : Z := if limit <=? 0 then 50 else if 500 <? limit then 500 else limit.
Definition timelineFetchLimit (limit : Z) : Z := let n := clampListLimit limit in if 200 <? n then 200 else n.

(** ** The timeline of a machine (insight.go) *)

Inductive TimelineDetail :=
| AuthDetail (e : AuthEventRow)
| ActionDetail (a : AttributionRow)
| SessionDetail (id : N) (phase actorType status : string) (endedReason : option string).
Record TimelineItem := mk_TimelineItem { ti_OccurredAt : Z; ti_Kind : string; ti_Detail : TimelineDetail }.
Definition kind_order (k : string) : Z :=
  if String.eqb k "operator_auth" then 1 else if String.eqb k "operator_session" then 2 else 0.
Definition tieBreakKind (a b : string) : bool := kind_order a <? kind_order b.
Definition timeline_before (i j : TimelineItem) : bool :=
  if ti_OccurredAt i =? ti_OccurredAt j then tieBreakKind (ti_Kind i) (ti_Kind j)
  else ti_OccurredAt j <? ti_OccurredAt i.
Definition session_items (s : SessionRow) : list TimelineItem :=
  mk_TimelineItem (os_StartedAt s) "operator_session"
    (SessionDetail (os_ID s) "started" (os_ActorType s) (os_Status s) None) ::
  match os_EndedAt s with
  | None => []
  | Some t =>
      [mk_TimelineItem t "operator_session" (SessionDetail (os_ID s) "ended" (os_ActorType s) (os_Status s) (os_EndedReason s))]
  end.
Definition timeline_items (auth : list AuthEventRow) (attr : list AttributionRow) (sessions : list SessionRow)
    : list TimelineItem :=
  map (fun e => mk_TimelineItem (ae_OccurredAt e) "operator_auth" (AuthDetail e)) auth ++
  map (fun a => mk_TimelineItem (aa_OccurredAt a) "operator_action" (ActionDetail a)) attr ++
  flat_map session_items sessions.
Definition mergeMachineTimeline (auth : list AuthEventRow) (attr : list AttributionRow) (sessions : list SessionRow)
    (maxItems : Z) : list TimelineItem :=
  let maxItems := if maxItems <=? 0 then 50 else maxItems in
  take (Z.to_nat maxItems) (stable_sort timeline_before (timeline_items auth attr sessions)).
