(* ===== verification/OperatorService.v ===== *)
(** * The service of operator sessions

    internal/app/operator over its repository and what it reads of the fleet
    (OperatorSessions): checks of the caller and of the machine around the
    repository, lists, the timeline, and who acts on a machine. *)

From S2P Require Import Prelude.
From S2P Require Import GoStd.
From S2P Require Import Pricing.
From S2P Require Import CommerceTypes.
From S2P Require Import Evidence.
From S2P Require Import Rules.
From S2P Require Import CommerceService.
From S2P Require Import Db.
From S2P Require Import Queries.
From S2P Require Import PgCommerce.
From S2P Require Import OperatorSessions.
Local Open Scope string_scope.
Local Open Scope list_scope.
Local Open Scope Z_scope.

Section Methods.
Context (sessions : OperatorRepository world) (fleet : OperatorFleet world).

Definition GetSessionIfMatchesMachine (sessionID machineID : N) : M world SessionRow :=
  let! sess := or_Get world sessions sessionID in
  guard (negb (os_MachineID sess =u machineID)) ErrSessionMachineMismatch ;;; ret sess.
Definition ActiveSessionForMachine (machineID : N) : M world (option SessionRow) :=
  let! r := attempt (or_Active world sessions machineID) in
  match r with
  | Ok sess => ret (Some sess)
  | Err e => if errors_Is e ErrNoActiveSession then ret None else fail e
  end.

Definition check_technician (technician machine : N) : M world unit :=
  let! _ := of_Technician world fleet technician in
  match of_HasActiveAssignment world fleet with
  | None => fail ErrTechnicianAssignmentCheckerRequired
  | Some assigned =>
      let! ok := assigned technician machine in
      guard (negb ok) ErrTechnicianNotAssignedToMachine
  end.
Definition initial_auth (i : StartOperatorSessionInput) : res (option InitialSessionAuth) :=
  if blank (TrimSpace (si_InitialAuthMethod i)) then Ok None
  else
    let? _ := ValidateAuthEventSemantics "login_success" (si_InitialAuthMethod i) in
    Ok (Some (mk_InitialSessionAuth "login_success" (TrimSpace (si_InitialAuthMethod i)) (si_CorrelationID i)
                (si_InitialAuthMetadata i))).
Definition StartOperatorSession (i : StartOperatorSessionInput) : M world SessionRow :=
  let userPrincipal := option_map TrimSpace (si_UserPrincipal i) in
  let! _ := lift (ValidateActorConsistency (si_ActorType i) (si_TechnicianID i) userPrincipal) in
  let! now := time_Now in
  let! _ := lift (ValidateSessionExpiryBounds (si_ExpiresAt i) now MaxOperatorSessionTTL) in
  of_Machine world fleet (si_MachineID i) ;;;
  (if String.eqb (si_ActorType i) "TECHNICIAN" then
     match si_TechnicianID i with Some t => check_technician t (si_MachineID i) | None => ret tt end
   else ret tt) ;;;
  let! initial := lift (initial_auth i) in
  guard (si_ForceAdminTakeover i && negb (si_AdminTakeoverAuthorized i)) ErrAdminTakeoverUnauthorized ;;;
  or_Start world sessions (mk_StartOperatorSessionParams (si_MachineID i) (si_ActorType i) (si_TechnicianID i)
    userPrincipal (si_ExpiresAt i) (si_ClientMetadata i) initial (si_StaleIdleReclaimAfter i)
    (si_ForceAdminTakeover i) (si_AdminTakeoverAuthorized i)).

Definition EndOperatorSession (i : EndOperatorSessionInput) : M world SessionRow :=
  guard (negb (one_of (ei_FinalStatus i) ["ENDED"; "REVOKED"])) ErrInvalidSessionEndStatus ;;;
  guard (ei_MachineID i =u uuid_Nil) ErrMachineContextRequired ;;;
  let method := TrimSpace (ei_LogoutAuthMethod i) in
  let! _ := lift (if blank method then Ok tt else ValidateAuthEventSemantics "logout" (ei_LogoutAuthMethod i)) in
  let! sess := or_Get world sessions (ei_SessionID i) in
  guard (negb (os_MachineID sess =u ei_MachineID i)) ErrSessionMachineMismatch ;;;
  guard (negb (is_active sess)) ErrSessionNotActive ;;;
  let reason := TrimSpace (ei_EndedReason i) in
  let! now := time_Now in
  or_End world sessions (mk_EndOperatorSessionParams (ei_SessionID i) (ei_FinalStatus i) now
    (if blank reason then None else Some reason)
    (if blank method then None
     else Some (mk_InsertAuthEventParams None uuid_Nil "logout" method None (ei_LogoutCorrelationID i)
                  (ei_LogoutMetadata i)))).
Definition TimeoutOperatorSession (machineID sessionID : N) : M world SessionRow :=
  guard (machineID =u uuid_Nil) ErrMachineContextRequired ;;;
  let! sess := or_Get world sessions sessionID in
  guard (negb (os_MachineID sess =u machineID)) ErrSessionMachineMismatch ;;;
  or_Timeout world sessions sessionID.
Definition TouchOperatorSessionActivity (companyID machineID sessionID : N) : M world SessionRow :=
  guard (machineID =u uuid_Nil) ErrMachineContextRequired ;;;
  let! sess := or_Get world sessions sessionID in
  guard (negb (os_MachineID sess =u machineID)) ErrSessionMachineMismatch ;;;
  guard (negb (companyID =u uuid_Nil)) ErrCompanyMismatch ;;;
  guard (negb (is_active sess)) ErrSessionNotActive ;;;
  or_Touch world sessions sessionID.
Definition HeartbeatOperatorSession (companyID machineID sessionID : N) : M world SessionRow :=
  let! sess := TouchOperatorSessionActivity companyID machineID sessionID in
  let! r := attempt (or_Timeout world sessions sessionID) in
  match r with
  | Ok timed => ret timed
  | Err e => if errors_Is e ErrTimeoutNotApplicable then ret sess else fail e
  end.

(** A lookup of the machine, and the company the caller must not name. *)
Definition known_machine (companyID machineID : N) : M world unit :=
  of_Machine world fleet machineID ;;; guard (negb (companyID =u uuid_Nil)) ErrCompanyMismatch.
Definition ResolveCurrentOperatorForMachine (companyID machineID : N) : M world CurrentOperatorResolution :=
  known_machine companyID machineID ;;;
  let! active := ActiveSessionForMachine machineID in
  match active with
  | None => ret (mk_CurrentOperatorResolution machineID None None)
  | Some sess =>
      match (if String.eqb (os_ActorType sess) "TECHNICIAN" then os_TechnicianID sess else None) with
      | None => ret (mk_CurrentOperatorResolution machineID (Some sess) None)
      | Some t =>
          let! r := attempt (of_Technician world fleet t) in
          ret (mk_CurrentOperatorResolution machineID (Some sess) (match r with Ok n => Some n | Err _ => None end))
      end
  end.
Definition known_technician (companyID technicianID : N) : M world unit :=
  let! _ := of_Technician world fleet technicianID in guard (negb (companyID =u uuid_Nil)) ErrCompanyMismatch.
Definition ListSessionsByMachine (companyID machineID : N) (limit : Z) : M world (list SessionRow) :=
  known_machine companyID machineID ;;; or_ListSessions world sessions machineID (clampListLimit limit).
Definition ListSessionsByTechnician (companyID technicianID : N) (limit : Z) : M world (list SessionRow) :=
  known_technician companyID technicianID ;;; or_ListTechnicianSessions world sessions technicianID (clampListLimit limit).
Definition ListSessionsByUser (userPrincipal : string) (limit : Z) : M world (list SessionRow) :=
  let principal := TrimSpace userPrincipal in
  if blank principal then fail ErrInvalidActor
  else or_ListUserSessions world sessions principal (clampListLimit limit).
Definition ListAuthEventsForMachine (companyID machineID : N) (limit : Z) : M world (list AuthEventRow) :=
  known_machine companyID machineID ;;; or_ListAuthEvents world sessions machineID (clampListLimit limit).
Definition ListActionAttributionsForMachine (companyID machineID : N) (limit : Z) : M world (list AttributionRow) :=
  known_machine companyID machineID ;;; or_ListAttributions world sessions machineID (clampListLimit limit).
Definition ListActionAttributionsForTechnician (companyID technicianID : N) (limit : Z)
    : M world (list AttributionRow) :=
  known_technician companyID technicianID ;;;
  or_ListTechnicianAttributions world sessions technicianID (clampListLimit limit).
Definition ListActionAttributionsForUserPrincipal (userPrincipal : string) (limit : Z)
    : M world (list AttributionRow) :=
  let principal := TrimSpace userPrincipal in
  if blank principal then fail ErrInvalidActor
  else or_ListUserAttributions world sessions principal (clampListLimit limit).
Definition BuildMachineOperatorTimeline (companyID machineID : N) (limit : Z) : M world (list TimelineItem) :=
  known_machine companyID machineID ;;;
  let fetch := timelineFetchLimit limit in
  let! auth := or_ListAuthEvents world sessions machineID fetch in
  let! attr := or_ListAttributions world sessions machineID fetch in
  let! rows := or_ListSessions world sessions machineID fetch in
  ret (mergeMachineTimeline auth attr rows (clampListLimit limit)).

(** The session named has to be of the machine; without one the machine has to
    be known. *)
Definition RecordAuthEvent (i : InsertAuthEventParams) : M world AuthEventRow :=
  let! _ := lift (ValidateAuthEventSemantics (iae_EventType i) (iae_AuthMethod i)) in
  (match iae_OperatorSessionID i with
   | Some session =>
       let! sess := or_Get world sessions session in
       guard (negb (os_MachineID sess =u iae_MachineID i)) ErrCompanyMismatch
   | None => of_Machine world fleet (iae_MachineID i)
   end) ;;;
  or_InsertAuthEvent world sessions i.
Definition RecordActionAttribution (i : InsertActionAttributionParams) : M world AttributionRow :=
  let! _ := lift (ValidateActionAttributionSemantics (iat_ActionOriginType i)) in
  of_Machine world fleet (iat_MachineID i) ;;;
  (match iat_OperatorSessionID i with
   | Some session =>
       let! sess := or_Get world sessions session in
       guard (negb (os_MachineID sess =u iat_MachineID i)) ErrCompanyMismatch
   | None => ret tt
   end) ;;;
  or_InsertAttribution world sessions i.

(** Who acts on a machine: a session that was named is always checked. *)
Definition without_session (machineID : N) (policy : SessionPolicy) : M world MachineActionActor :=
  match policy with
  | SessionRequired => fail ErrOperatorSessionRequired
  | SessionOptionalByOrigin | SessionNotApplicable => ret (mk_MachineActionActor machineID "api" None)
  end.
Definition ResolveMachineActionActor (machineID : N) (supplied : option N) (policy : SessionPolicy)
    : M world MachineActionActor :=
  guard (machineID =u uuid_Nil) ErrMachineContextRequired ;;;
  match supplied with
  | None => without_session machineID policy
  | Some s =>
      if s =u uuid_Nil then without_session machineID policy
      else
        let! sess := GetSessionIfMatchesMachine s machineID in
        guard (negb (EqualFold (TrimSpace (os_Status sess)) "ACTIVE")) ErrSessionNotActive ;;;
        ret (mk_MachineActionActor machineID "operator_session" (Some (os_ID sess)))
  end.
End Methods.
