(* ===== verification/CashSettlement.v ===== *)
(** * A machine's cash is collected

    internal/modules/postgres/cash_settlement.go: an operator opens a
    collection, counts what is in the machine and closes it; the count is set
    against the cash the sales of the machine left in it.  One definition per
    function, in the source's order. *)

From S2P Require Import Prelude.
From S2P Require Import GoStd.
From S2P Require Import JsonText.
From S2P Require Import Pricing.
From S2P Require Import CommerceTypes.
From S2P Require Import Evidence.
From S2P Require Import Rules.
From S2P Require Import CommerceService.
From S2P Require Import Db.
From S2P Require Import Queries.
From S2P Require Import CashQueries.
From S2P Require Import PgCommerce.
From S2P Require Import OperatorSessions.
Local Open Scope string_scope.
Local Open Scope list_scope.
Local Open Scope Z_scope.

(** ** Errors and inputs *)

Definition ErrCollectionNotFound : goerr := ESentinel "cash settlement: collection not found".
Definition ErrClosePayloadConflict : goerr := ESentinel "cash settlement: close payload conflicts with stored close".
Definition ErrOpenCollectionExists : goerr := ESentinel "cash settlement: machine already has an open cash collection".
Definition ErrInvalidCountedAmount : goerr := ESentinel "cash settlement: counted amount invalid".
Definition ErrCurrencyMismatch : goerr := ESentinel "cash settlement: currency does not match open collection".

Record MachineCashboxSummary := mk_MachineCashboxSummary {
  ms_ExpectedAmountMinor : Z; ms_ExpectedCashboxMinor : Z; ms_ExpectedRecyclerMinor : Z; ms_Currency : string;
  ms_LastClosedAt : option Z; ms_OpenCollectionID : option N; ms_VarianceReviewThresholdMinor : Z }.
Record StartMachineCashCollectionInput := mk_StartMachineCashCollectionInput {
  sc_MachineID : N; sc_OperatorSessionID : option N; sc_Currency : string; sc_Notes : string;
  sc_StartIdempotencyKey : string; sc_CorrelationID : option N; sc_OpenedAt : Z }.
Record CloseDenominationCount := mk_CloseDenominationCount { dn_DenominationMinor : Z; dn_Count : Z }.
Record CloseMachineCashCollectionInput := mk_CloseMachineCashCollectionInput {
  cc_MachineID : N; cc_CollectionID : N; cc_OperatorSessionID : option N; cc_CountedAmountMinor : Z;
  cc_CountedCashboxMinor : Z; cc_CountedRecyclerMinor : Z; cc_Currency : string; cc_Notes : string;
  cc_EvidenceArtifactURL : string; cc_EvidencePhotoArtifactID : string;
  cc_Denominations : list CloseDenominationCount; cc_ClosedAtRFC3339 : string; cc_CorrelationID : option N;
  cc_VarianceReviewThreshold : Z; cc_UsesExtendedCloseHash : bool }.

(** ** The hash of a close request *)

Definition legacy_fields (counted : Z) (currency notes evidenceURL : string) : list (string * list ascii) :=
  [("counted_amount_minor", json_int counted); ("currency", marshal_string (TrimSpace currency));
   ("evidence_artifact_url", marshal_string (TrimSpace evidenceURL)); ("notes", marshal_string (TrimSpace notes))].
Definition denomination_text (d : CloseDenominationCount) : list ascii :=
  json_struct [("denominationMinor", json_int (dn_DenominationMinor d)); ("count", json_int (dn_Count d))].
(** [omitempty] leaves out an empty list or text. *)
Definition extended_fields (i : CloseMachineCashCollectionInput) : list (string * list ascii) :=
  let closedAt := TrimSpace (cc_ClosedAtRFC3339 i) in
  [("counted_amount_minor", json_int (cc_CountedAmountMinor i));
   ("counted_cashbox_minor", json_int (cc_CountedCashboxMinor i));
   ("counted_recycler_minor", json_int (cc_CountedRecyclerMinor i));
   ("currency", marshal_string (TrimSpace (cc_Currency i)));
   ("evidence_artifact_url", marshal_string (TrimSpace (cc_EvidenceArtifactURL i)));
   ("evidence_photo_artifact_id", marshal_string (TrimSpace (cc_EvidencePhotoArtifactID i)));
   ("notes", marshal_string (TrimSpace (cc_Notes i)))] ++
  match cc_Denominations i with
  | [] => []
  | ds => [("denominations", json_array (map denomination_text ds))]
  end ++
  (if blank closedAt then [] else [("closed_at", marshal_string closedAt)]).

Section Settlement.
Context `{Sha256} `{UuidText} `{PaymentUpdates}.

Definition legacyCloseHash (counted : Z) (currency notes evidenceURL : string) : string :=
  sha256_hex (json_struct (legacy_fields counted currency notes evidenceURL)).
Definition extendedCloseHash (i : CloseMachineCashCollectionInput) : string := sha256_hex (json_struct (extended_fields i)).
Definition computeCloseRequestHash (i : CloseMachineCashCollectionInput) : string :=
  if cc_UsesExtendedCloseHash i then extendedCloseHash i
  else legacyCloseHash (cc_CountedAmountMinor i) (cc_Currency i) (cc_Notes i) (cc_EvidenceArtifactURL i).
(** The least int64 is its own negation. *)
Definition abs64 (n : Z) : Z := if n <? 0 then wrap64 (- n) else n.

(** ** Summary *)

Definition GetMachineRow (machine : N) : M world N :=
  stmt (select_one (fun d => List.find (N.eqb machine) (tp_Machines (d_topo d)))).
Definition GetMachineCashboxSummary (companyID machineID : N) (currency : string) (threshold : Z)
    : M world MachineCashboxSummary :=
  let cur := TrimSpace currency in
  let cur := if blank cur then "USD" else cur in
  let threshold := if threshold <=? 0 then 500 else threshold in
  let! r := attempt (GetMachineRow machineID) in
  let! _ := (match r with
             | Ok _ => ret tt
             | Err e => fail (if isNoRows e then EWrapPre "cash settlement summary" ErrNoRows else e)
             end) in
  guard (negb (companyID =u uuid_Nil)) (ESentinel "postgres: machine does not belong to deployment boundary") ;;;
  let! exp := CashSettlementNetExpectedMinor machineID cur in
  let! last := CashSettlementLastClosedAt machineID in
  let lastPtr := if UnixEpoch <? last - last mod Second then Some last else None in
  let! openRow := attempt (GetOpenCashCollectionByMachine machineID) in
  let! openID := (match openRow with
                  | Ok row => ret (Some (kc_ID row))
                  | Err e => if isNoRows e then ret None else fail e
                  end) in
  ret (mk_MachineCashboxSummary exp exp 0 cur lastPtr openID threshold).

(** ** Start *)

Definition disclosure : string * json :=
  ("disclosure", JStr "Accounting-only API: does not command bill recycler or other cash hardware.").
Definition text_entry (key value : string) : list (string * json) :=
  let v := TrimSpace value in if blank v then [] else [(key, JStr v)].
Definition start_metadata (i : StartMachineCashCollectionInput) : json :=
  JObj (text_entry "notes" (sc_Notes i) ++
        [("start_idempotency_key", JStr (TrimSpace (sc_StartIdempotencyKey i))); disclosure]).
Definition started_row (i : StartMachineCashCollectionInput) (opened now : Z) (id : N) : CollectionRow :=
  mk_CollectionRow id (sc_MachineID i) opened opened None "open" 0 0 0 false None (TrimSpace (sc_Currency i))
    (start_metadata i) "pending" now (sc_OperatorSessionID i).
(** One lookup of several, the missing row not being an error. *)
Definition optional {A} (m : M world A) : M world (option A) :=
  let! r := attempt m in
  match r with Ok a => ret (Some a) | Err e => if isNoRows e then ret None else fail e end.
Definition start_new (i : StartMachineCashCollectionInput) (opened : Z) : M world (tx_end CollectionRow) :=
  let! r := attempt (InsertCashCollection (started_row i opened)) in
  let! row := (match r with
               | Ok row => ret row
               | Err e => fail (if isUniqueViolation e then ErrOpenCollectionExists else e)
               end) in
  insertOperatorSessionAttribution (mk_operatorAttributionSpec (sc_MachineID i) (sc_OperatorSessionID i) "cash"
    "cash.collection.open" "cash_collections" (uuid_String (kc_ID row)) (sc_CorrelationID i) (Some opened)) ;;;
  ret (Commit row).
Definition StartMachineCashCollection (i : StartMachineCashCollectionInput) : M world CollectionRow :=
  guard (blank (TrimSpace (sc_Currency i))) (ENew "postgres: currency required") ;;;
  guard (blank (TrimSpace (sc_StartIdempotencyKey i))) (ENew "postgres: start idempotency key required") ;;;
  let! opened := (if IsZero (sc_OpenedAt i) then time_Now else ret (sc_OpenedAt i)) in
  with_tx (
    let! m := attempt (GetMachineByIDForUpdate (sc_MachineID i)) in
    let! _ := (match m with
               | Ok _ => ret tt
               | Err e => fail (if isNoRows e then EWrapPre "cash collection start" ErrNoRows else e)
               end) in
    let! replay := optional (FindCashCollectionOpenByStartIdempotencyKey (TrimSpace (sc_StartIdempotencyKey i))
                               (sc_MachineID i)) in
    match replay with
    | Some row => ret (Commit row)
    | None =>
        let! other := optional (GetOpenCashCollectionByMachine (sc_MachineID i)) in
        match other with
        | Some _ => fail ErrOpenCollectionExists
        | None => start_new i opened
        end
    end).

(** ** Close *)

(** [json.Unmarshal] into the map, to which the keys are then set. *)
Definition set_key (fs : list (string * json)) (kv : string * json) : list (string * json) :=
  List.filter (fun f => negb (String.eqb f.1 kv.1)) fs ++ [kv].
Definition denomination_json (d : CloseDenominationCount) : json :=
  JObj [("denominationMinor", JNum (dn_DenominationMinor d) 0); ("count", JNum (dn_Count d) 0)].
Definition close_metadata (stored : json) (i : CloseMachineCashCollectionInput) : json :=
  let fields :=
    text_entry "close_notes" (cc_Notes i) ++ text_entry "evidence_artifact_url" (cc_EvidenceArtifactURL i) ++
    text_entry "evidence_photo_artifact_id" (cc_EvidencePhotoArtifactID i) ++
    (if negb (cc_CountedCashboxMinor i =? 0) || negb (cc_CountedRecyclerMinor i =? 0)
     then [("counted_cashbox_minor", JNum (cc_CountedCashboxMinor i) 0);
           ("counted_recycler_minor", JNum (cc_CountedRecyclerMinor i) 0)] else []) ++
    (match cc_Denominations i with [] => [] | ds => [("denominations", JArr (map denomination_json ds))] end) ++
    text_entry "client_closed_at" (cc_ClosedAtRFC3339 i) ++ [disclosure] in
  JObj (fold_left set_key fields (match stored with JObj fs => fs | _ => [] end)).
(** What the count comes to, against what was expected. *)
Definition close_threshold (i : CloseMachineCashCollectionInput) : Z :=
  if cc_VarianceReviewThreshold i <=? 0 then 500 else cc_VarianceReviewThreshold i.
Definition variance_of (i : CloseMachineCashCollectionInput) (expected : Z) : Z :=
  sub64 (cc_CountedAmountMinor i) expected.
Definition needs_review (i : CloseMachineCashCollectionInput) (expected : Z) : bool :=
  close_threshold i <? abs64 (variance_of i expected).
Definition collection_recon (i : CloseMachineCashCollectionInput) (expected : Z) : string :=
  if needs_review i expected then "pending" else if variance_of i expected =? 0 then "matched" else "mismatch".
Definition ledger_recon (i : CloseMachineCashCollectionInput) (expected : Z) : string :=
  if needs_review i expected then "review" else if variance_of i expected =? 0 then "matched" else "mismatch".
Definition close_params (i : CloseMachineCashCollectionInput) (existing : CollectionRow) (expected : Z) : CloseParams :=
  mk_CloseParams (cc_CountedAmountMinor i) expected (variance_of i expected) (needs_review i expected)
    (computeCloseRequestHash i) (collection_recon i expected) (close_metadata (kc_Metadata existing) i).
Definition recon_row (i : CloseMachineCashCollectionInput) (closed : CollectionRow) (expected now : Z) (id : N)
    : CashReconRow :=
  mk_CashReconRow id (cc_MachineID i) (Some (kc_ID closed)) expected (cc_CountedAmountMinor i)
    (variance_of i expected) now (ledger_recon i expected)
    (JObj [("cash_collection_id", JStr (uuid_String (kc_ID closed)));
           ("operator_close", JBool (negb (is_none (cc_OperatorSessionID i))))]).
(** A collection that is closed: the same request, or a conflict. *)
Definition closed_already (i : CloseMachineCashCollectionInput) (existing : CollectionRow) : res CollectionRow :=
  match kc_CloseRequestHash existing with
  | None => Err ErrClosePayloadConflict
  | Some stored =>
      if blank stored then Err ErrClosePayloadConflict
      else if String.eqb (computeCloseRequestHash i) stored then Ok existing
      else if negb (cc_UsesExtendedCloseHash i) &&
              String.eqb (legacyCloseHash (cc_CountedAmountMinor i) (TrimSpace (cc_Currency i)) (cc_Notes i)
                            (cc_EvidenceArtifactURL i)) stored
      then Ok existing
      else Err ErrClosePayloadConflict
  end.
Definition close_open (i : CloseMachineCashCollectionInput) (existing : CollectionRow) : M world (tx_end CollectionRow) :=
  let! expected := CashSettlementNetExpectedMinor (cc_MachineID i) (TrimSpace (kc_Currency existing)) in
  let! closed := or_error ErrCollectionNotFound
                   (CloseCashCollection (close_params i existing expected) (cc_MachineID i) (cc_CollectionID i)) in
  let! _ := InsertCashReconciliation (recon_row i closed expected) in
  let! now := time_Now in
  insertOperatorSessionAttribution (mk_operatorAttributionSpec (cc_MachineID i) (cc_OperatorSessionID i) "cash"
    "cash.collection.close" "cash_collections" (uuid_String (kc_ID closed)) (cc_CorrelationID i) (Some now)) ;;;
  ret (Commit closed).
Definition CloseMachineCashCollection (i : CloseMachineCashCollectionInput) : M world CollectionRow :=
  let cur := TrimSpace (cc_Currency i) in
  guard (blank cur) (ENew "postgres: currency required") ;;;
  guard ((cc_CountedAmountMinor i <? 0) || (cc_CountedCashboxMinor i <? 0) || (cc_CountedRecyclerMinor i <? 0))
    ErrInvalidCountedAmount ;;;
  with_tx (
    let! existing := or_error ErrCollectionNotFound
                       (GetCashCollectionByIDForOrgMachine (cc_MachineID i) (cc_CollectionID i)) in
    if String.eqb (kc_LifecycleStatus existing) "closed" then
      let! row := lift (closed_already i existing) in ret (Commit row)
    else
      guard (negb (is_open existing)) ErrCollectionNotFound ;;;
      guard (negb (EqualFold (TrimSpace (kc_Currency existing)) cur)) ErrCurrencyMismatch ;;;
      close_open i existing).

(** ** Lists *)

Definition ListMachineCashCollections (machineID : N) (limit offset : Z) : M world (list CollectionRow) :=
  let limit := if limit <=? 0 then 50 else limit in
  let limit := if 500 <? limit then 500 else limit in
  ListCashCollectionsForMachine machineID limit (if offset <? 0 then 0 else offset).
Definition GetMachineCashCollection (companyID machineID collectionID : N) : M world CollectionRow :=
  guard (negb (companyID =u uuid_Nil)) (ENew "postgres: company scope mismatch") ;;;
  GetCashCollectionByIDForOrgMachine machineID collectionID.
End Settlement.
