(* ===== verification/CashForensic.v ===== *)
(** * What a machine reports of its cash

    internal/app/commerce/cash_forensic*.go and
    internal/modules/postgres/cash_forensic.go: notes taken in, notes on their
    way, notes paid out and counts of the recycler, each recorded once under
    the id the device gave it; the position computed from them, and the ledger
    in pages.  A method of the store or of the service is a definition of the
    same name; [CashForensicStore] is the interface between them. *)

From S2P Require Import Prelude.
From S2P Require Import GoStd.
From S2P Require Import Pricing.
From S2P Require Import CommerceTypes.
From S2P Require Import Evidence.
From S2P Require Import Rules.
From S2P Require Import Db.
From S2P Require Import Queries.
From S2P Require Import CashQueries.
From S2P Require Import PgCommerce.
Local Open Scope string_scope.
Local Open Scope list_scope.
Local Open Scope Z_scope.

(** ** Inputs and views *)

Record CashMovementEventInput := mk_CashMovementEventInput {
  xe_Kind : string; xe_DeviceEventID : string; xe_OccurredAt : Z; xe_DenominationMinor : Z; xe_AmountMinor : Z;
  xe_CreditSource : string; xe_LifecycleType : string; xe_WithdrawalID : string; xe_NoteSequence : Z;
  xe_EventType : string; xe_RecyclerCountBefore : option Z; xe_RecyclerCountAfter : option Z;
  xe_OutcomeFinality : string; xe_RawRecordHex : string; xe_BootID : string; xe_OrderID : option N;
  xe_Currency : string; xe_CashboxCount : option Z; xe_ObservationSource : string;
  xe_RecyclerDenominationMinor : Z; xe_RawMetadata : json }.
Record RecordCashMovementsInput := mk_RecordCashMovementsInput {
  xi_MachineID : N; xi_IdempotencyKey : string; xi_Events : list CashMovementEventInput }.
Record RecordCashMovementsResult := mk_RecordCashMovementsResult {
  xr_Replay : bool; xr_AcceptedCount : Z; xr_DuplicateCount : Z }.
Record InsertCashAdjustmentInput := mk_InsertCashAdjustmentInput {
  ia_MachineID : N; ia_AmountMinor : Z; ia_Bucket : string; ia_Reason : string; ia_OperatorAccountID : option N;
  ia_IdempotencyKey : string; ia_Currency : string; ia_Metadata : json }.
Record CashAdjustmentView := mk_CashAdjustmentView {
  av_ID : N; av_MachineID : N; av_AmountMinor : Z; av_Bucket : string; av_Reason : string; av_Currency : string;
  av_CreatedAt : Z }.
Record MachinePhysicalCashPosition := mk_MachinePhysicalCashPosition {
  mc_MachineID : N; mc_Currency : string; mc_AsOf : Z; mc_PhysicalExpectedCashboxMinor : Z;
  mc_PhysicalExpectedRecyclerMinor : Z; mc_PhysicalExpectedMachineMinor : Z; mc_SalesNetExpectedMinor : Z;
  mc_ObservedRecyclerMinor : Z; mc_ObservedRecyclerCount : Z; mc_ObservedRecyclerDenomMinor : Z;
  mc_UnresolvedLiabilityMinor : Z; mc_AmbiguousEventCount : Z; mc_EvidenceStatus : string }.
Record ListCashLedgerInput := mk_ListCashLedgerInput {
  li_MachineID : option N; li_OrderID : option N; li_From : Z; li_To : Z; li_Limit : Z; li_Offset : Z;
  li_AfterOccurredAt : option Z; li_AfterID : option N }.
Record CashLedgerRow := mk_CashLedgerRow {
  lg_ID : N; lg_MachineID : N; lg_OrderID : option N; lg_MovementClass : string; lg_EventType : string;
  lg_Destination : string; lg_DenominationMinor : Z; lg_AmountMinor : Z; lg_Currency : string;
  lg_OccurredAtDevice : Z; lg_RecordedAt : Z; lg_EvidenceStatus : string; lg_DeviceEventID : string }.
Record ListCashLedgerResult := mk_ListCashLedgerResult {
  lz_Items : list CashLedgerRow; lz_NextCursor : option (Z * N); lz_Total : Z }.
Record CashLedgerEventDetail := mk_CashLedgerEventDetail {
  ed_Row : CashLedgerRow; ed_RawMetadata : json; ed_Extra : option json }.
Record CashLifecycleEventView := mk_CashLifecycleEventView {
  lv_DeviceEventID : string; lv_LifecycleType : string; lv_DenominationMinor : Z; lv_RawRecordHex : string;
  lv_OccurredAt : Z }.
Record CashPayoutEventView := mk_CashPayoutEventView {
  yv_ID : N; yv_WithdrawalID : string; yv_NoteSequence : Z; yv_EventType : string; yv_DenominationMinor : Z;
  yv_AmountMinor : Z; yv_OutcomeFinality : string; yv_RecyclerCountBefore : option Z;
  yv_RecyclerCountAfter : option Z; yv_OccurredAt : Z }.
Record OrderCashForensicsView := mk_OrderCashForensicsView {
  fv_Money : OrderMoneyView; fv_RemainderMinor : Z; fv_LifecycleEvents : list CashLifecycleEventView;
  fv_PayoutEvents : list CashPayoutEventView }.

(** ** Movements *)

Definition normalizeMovementKind (kind : string) : string := TrimSpace (ToLower kind).
Definition normalizeOutcomeFinality (s : string) : string :=
  let v := TrimSpace (ToLower s) in
  if one_of v ["command_accepted"; "confirmed"; "ambiguous"; "failed"; "not_delivered"; "requested"] then v
  else "requested".
Definition mapPayoutJournalToFinality (eventType outcome : string) : string :=
  let o := normalizeOutcomeFinality outcome in
  if negb (String.eqb o "requested") then o
  else
    let e := TrimSpace (ToUpper eventType) in
    if String.eqb e "NOTE_COMMAND_ACCEPTED" then "command_accepted"
    else if one_of e ["NOTE_CONFIRMED"; "NOTE_DELIVERED_AFTER_FAULT"; "COMPLETED"] then "confirmed"
    else if one_of e ["NOTE_AMBIGUOUS"; "AMBIGUOUS"] then "ambiguous"
    else if one_of e ["NOTE_FAILED"; "FAILED"; "NOTE_NOT_DELIVERED"] then "not_delivered"
    else "requested".
Definition or_vnd (currency : string) : string :=
  let cur := ToUpper (TrimSpace currency) in if blank cur then "VND" else cur.

Section Movements.
Context (machine : N) (ev : CashMovementEventInput).

Definition movement_device : string := QualifyCashMovementDeviceEventID (xe_DeviceEventID ev) (xe_BootID ev).
Definition movement_currency : string := or_vnd (xe_Currency ev).
Definition acceptance_row (at_ now : Z) (id : N) : CashAcceptanceRow :=
  mk_CashAcceptanceRow id machine (xe_OrderID ev) movement_device (xe_DenominationMinor ev)
    (TrimSpace (xe_CreditSource ev)) movement_currency at_ (optionalStringToPgText (xe_BootID ev))
    (RequiredString (xe_RawMetadata ev)) now.
Definition lifecycle_row (at_ now : Z) (id : N) : LifecycleRow :=
  mk_LifecycleRow id machine (xe_OrderID ev) movement_device (TrimSpace (ToLower (xe_LifecycleType ev)))
    (xe_DenominationMinor ev) (TrimSpace (xe_RawRecordHex ev)) movement_currency at_
    (RequiredString (xe_RawMetadata ev)) now.
Definition payout_finality : string := mapPayoutJournalToFinality (xe_EventType ev) (xe_OutcomeFinality ev).
Definition payout_row (at_ now : Z) (id : N) : PayoutRow :=
  let withdrawalID := TrimSpace (xe_WithdrawalID ev) in
  mk_PayoutRow id machine (xe_OrderID ev) (if blank withdrawalID then "unknown" else withdrawalID)
    (xe_NoteSequence ev) (TrimSpace (ToUpper (xe_EventType ev))) movement_device (xe_DenominationMinor ev)
    (xe_AmountMinor ev) (xe_RecyclerCountBefore ev) (xe_RecyclerCountAfter ev) payout_finality movement_currency
    at_ (RequiredString (xe_RawMetadata ev)) now.
Definition observation_row (at_ now : Z) (id : N) : ObservationRow :=
  let denom := if xe_RecyclerDenominationMinor ev <=? 0 then xe_DenominationMinor ev
               else xe_RecyclerDenominationMinor ev in
  let src := TrimSpace (ToLower (xe_ObservationSource ev)) in
  mk_ObservationRow id machine movement_device at_ denom
    (default (wrap32 (xe_AmountMinor ev)) (xe_RecyclerCountAfter ev)) (xe_CashboxCount ev)
    (if blank src then "poll" else src) movement_currency (RequiredString (xe_RawMetadata ev)) now.
(** Its error is dropped. *)
Definition book_movement (entry : string) (amount at_ : Z) : M world unit :=
  ignore (InsertLedgerEntry (mk_LedgerEntryInput (Some machine) (xe_OrderID ev) None entry amount
    movement_currency at_ (xe_RawMetadata ev))).
(** An insert whose conflict means that the event is known. *)
Definition inserted {A} (m : M world A) : M world bool := let! r := attempt m in lift (cashMovementInsertResult r).

Inductive movement := Credit | Lifecycle | Payout | Observation.
Definition movement_of (kind : string) : option movement :=
  if one_of kind ["bill_credit"; "acceptance"; ""] then Some Credit
  else if one_of kind ["bill_lifecycle"; "lifecycle"] then Some Lifecycle
  else if one_of kind ["payout"; "withdrawal"] then Some Payout
  else if one_of kind ["recycler_observation"; "observation"] then Some Observation
  else None.
(** One event: whether it was new. *)
Definition record_movement (at_ : Z) (k : movement) : M world bool :=
  match k with
  | Credit =>
      let! new := inserted (InsertCashAcceptanceEvent machine movement_device (acceptance_row at_)) in
      (if new then book_movement "cash_accepted" (xe_DenominationMinor ev) at_ else ret tt) ;;;
      ret new
  | Lifecycle => inserted (InsertCashBillLifecycleEvent machine movement_device (lifecycle_row at_))
  | Payout =>
      let! new := inserted (InsertCashPayoutEvent machine movement_device (payout_row at_)) in
      (if new && String.eqb payout_finality "confirmed" && (0 <? xe_AmountMinor ev)
       then book_movement "change_dispensed" (wrap64 (- xe_AmountMinor ev)) at_ else ret tt) ;;;
      ret new
  | Observation => inserted (InsertCashHardwareObservation machine movement_device (observation_row at_))
  end.
(** [%q], of a text without characters to escape. *)
Definition unknown_movement (kind : string) : goerr :=
  let q := String.String (ascii_of_nat 34) "" in ENew ("unknown cash movement kind " +:+ q +:+ kind +:+ q).
(** [None]: the event has no id and is passed over. *)
Definition movement_step : M world (option bool) :=
  if blank movement_device then ret None
  else
    let! at_ := (if IsZero (xe_OccurredAt ev) then time_Now else ret (xe_OccurredAt ev)) in
    match movement_of (normalizeMovementKind (xe_Kind ev)) with
    | Some k => let! new := record_movement at_ k in ret (Some new)
    | None => fail (unknown_movement (xe_Kind ev))
    end.
End Movements.

(** The loop with its two int32 counters; the first error ends it. *)
Fixpoint record_movements (machine : N) (evs : list CashMovementEventInput) (accepted dup : Z)
    : M world RecordCashMovementsResult :=
  match evs with
  | [] => ret (mk_RecordCashMovementsResult false accepted dup)
  | ev :: evs =>
      let! r := movement_step machine ev in
      match r with
      | None => record_movements machine evs accepted dup
      | Some true => record_movements machine evs (wrap32 (accepted + 1)) dup
      | Some false => record_movements machine evs accepted (wrap32 (dup + 1))
      end
  end.
Definition RecordCashMovements (i : RecordCashMovementsInput) : M world RecordCashMovementsResult :=
  record_movements (xi_MachineID i) (xi_Events i) 0 0.

Definition BindAcceptanceEventsToOrder (machineID orderID : N) (deviceEventIDs : list string) : M world unit :=
  for_each (fun id =>
    let id := TrimSpace id in
    if blank id then ret tt else UpdateCashAcceptanceEventOrder machineID id orderID) deviceEventIDs.

(** ** The position *)

Section Store.
Context `{UuidText} `{PaymentUpdates}.

(** Lookups whose error is dropped. *)
Definition or_empty {A} (m : M world (list A)) : M world (list A) :=
  let! r := attempt m in ret (match r with Ok l => l | Err _ => [] end).
Definition at_least_zero (z : Z) : Z := if z <? 0 then 0 else z.
Definition liability_of (machine : N) (rows : list CashChangeRow) : Z :=
  fold_left (fun s r => if ch_MachineID r =u machine then add64 s (ch_LiabilityMinor r) else s) rows 0.
(** AsOf only bounds the open liabilities and the unclear payouts; the sums are
    those of now, since the last closing. *)
Definition GetMachinePhysicalCashPosition (machineID : N) (currency : string) (asOf : option Z)
    : M world MachinePhysicalCashPosition :=
  let cur := or_vnd currency in
  let! now := time_Now in
  let at_ := match asOf with Some t => if IsZero t then now else t | None => now end in
  let! lastClosed := CashSettlementLastClosedAt machineID in
  let since := if IsZero lastClosed then UnixEpoch else lastClosed in
  let! acceptSums := SumCashAcceptanceByMachineSince machineID cur since in
  let! payoutSum := SumCashPayoutConfirmedByMachineSince machineID cur since in
  let! adjSums := SumCashAdjustmentsByMachineSince machineID cur since in
  let! collected := SumCollectedCashByMachineSince machineID cur since in
  let! salesNet := CashSettlementNetExpectedMinor machineID cur in
  let! obs := attempt (GetLatestCashHardwareObservation machineID cur) in
  let '(count, denom, evidence) :=
    match obs with
    | Ok o => (ho_RecyclerCount o, ho_RecyclerDenominationMinor o, "OBSERVED")
    | Err _ => (0, 0, "ACCOUNTING_ONLY")
    end in
  let '(adjBox, adjRecycler, _) := adjSums in
  let cashbox := at_least_zero (sub64 (add64 acceptSums.1 adjBox) collected) in
  let recycler := at_least_zero (sub64 (add64 acceptSums.2 adjRecycler) payoutSum) in
  let! liabilities := or_empty (ListUnresolvedChangeLiabilityQ at_ 100) in
  let! ambiguous := or_empty (ListUnresolvedCashPayoutAmbiguous machineID at_ 100) in
  ret (mk_MachinePhysicalCashPosition machineID cur at_ cashbox recycler (add64 cashbox recycler) salesNet
         (mul64 count denom) count denom (liability_of machineID liabilities)
         (Z.of_nat (length ambiguous)) evidence).

Definition adjustment_row (i : InsertCashAdjustmentInput) (now : Z) (id : N) : AdjustmentRow :=
  mk_AdjustmentRow id (ia_MachineID i) (ia_AmountMinor i) (ia_Bucket i) (ia_Reason i) (ia_OperatorAccountID i)
    (ia_IdempotencyKey i) (ia_Currency i) (RequiredString (ia_Metadata i)) now.
Definition InsertCashAdjustment (i : InsertCashAdjustmentInput) : M world CashAdjustmentView :=
  let! row := InsertCashAdjustmentQ (ia_IdempotencyKey i) (adjustment_row i) in
  ignore (InsertLedgerEntry (mk_LedgerEntryInput (Some (ia_MachineID i)) None None "adjustment" (ia_AmountMinor i)
    (ia_Currency i) (ad_CreatedAt row) (ia_Metadata i))) ;;;
  ret (mk_CashAdjustmentView (ad_ID row) (ad_MachineID row) (ad_AmountMinor row) (ad_Bucket row) (ad_Reason row)
         (ad_Currency row) (ad_CreatedAt row)).

(** ** The ledger in pages *)

Definition cashLedgerFetchLimit (limit offset : Z) : Z :=
  if offset <=? 0 then limit
  else
    let sum := limit + offset in
    if MaxInt32 <? sum then MaxInt32 else sum.
Definition sliceCashLedgerPage {A} (items : list A) (offset limit : Z) : list A :=
  let start := if offset <? 0 then 0 else offset in
  if limit <=? 0 then []
  else if Z.of_nat (length items) <=? start then []
  else
    let last := start + limit in
    let last := if Z.of_nat (length items) <? last then Z.of_nat (length items) else last in
    take (Z.to_nat (last - start)) (drop (Z.to_nat start) items).

Definition payout_evidence (finality : string) : string :=
  if String.eqb finality "command_accepted" then "DERIVED"
  else if String.eqb finality "ambiguous" then "AMBIGUOUS" else "CONFIRMED".
Definition ledger_acceptance (r : CashAcceptanceRow) : CashLedgerRow :=
  mk_CashLedgerRow (ca_ID r) (ca_MachineID r) (ca_OrderID r) "acceptance"
    ("BILL_" +:+ ToUpper (TrimSpace (ca_CreditSource r)))
    (if in_recycler (ca_CreditSource r) then "recycler" else "cashbox") (ca_DenominationMinor r)
    (ca_DenominationMinor r) (ca_Currency r) (ca_AcceptedAt r) (ca_CreatedAt r) "CONFIRMED" (ca_DeviceEventID r).
Definition ledger_payout (r : PayoutRow) : CashLedgerRow :=
  mk_CashLedgerRow (po_ID r) (po_MachineID r) (po_OrderID r) "payout" (po_EventType r) "customer"
    (po_DenominationMinor r) (po_AmountMinor r) (po_Currency r) (po_OccurredAtDevice r) (po_CreatedAt r)
    (payout_evidence (po_OutcomeFinality r)) (po_DeviceEventID r).
Definition ledger_lifecycle (r : LifecycleRow) : CashLedgerRow :=
  mk_CashLedgerRow (bl_ID r) (bl_MachineID r) (bl_OrderID r) "lifecycle" (ToUpper (TrimSpace (bl_LifecycleType r)))
    "bill" (bl_DenominationMinor r) (bl_DenominationMinor r) (bl_Currency r) (bl_OccurredAtDevice r)
    (bl_CreatedAt r) "OBSERVED" (bl_DeviceEventID r).
Definition ledger_observation (r : ObservationRow) : CashLedgerRow :=
  mk_CashLedgerRow (ho_ID r) (ho_MachineID r) None "observation" (ToUpper (TrimSpace (ho_Source r))) "hardware"
    (ho_RecyclerDenominationMinor r) (mul64 (ho_RecyclerCount r) (ho_RecyclerDenominationMinor r)) (ho_Currency r)
    (ho_ObservedAtDevice r) (ho_CreatedAt r) "OBSERVED" (ho_DeviceEventID r).

(** The order of [sort.Slice]: newest first, of the same time by the text of
    the id, downwards. *)
Definition ledger_before (i j : CashLedgerRow) : bool :=
  if lg_OccurredAtDevice i =? lg_OccurredAtDevice j
  then string_lt (uuid_String (lg_ID j)) (uuid_String (lg_ID i))
  else lg_OccurredAtDevice j <? lg_OccurredAtDevice i.
(** The page asked for, once its numbers are put right. *)
Definition ledger_limits (i : ListCashLedgerInput) : Z * Z * option Z * option N :=
  let limit := if li_Limit i <=? 0 then 50 else li_Limit i in
  let limit := if 500 <? limit then 500 else limit in
  let offset := if li_Offset i <? 0 then 0 else li_Offset i in
  if 0 <? offset then (limit, offset, None, None) else (limit, offset, li_AfterOccurredAt i, li_AfterID i).
(** A cursor without an id compares with NULL, which is not true. *)
Definition cursor_of (after : option Z) (id : option N) : option (Z * N) :=
  match after with Some t => Some (t, default 0%N id) | None => None end.
Definition ListCashLedger (i : ListCashLedgerInput) : M world ListCashLedgerResult :=
  let '(limit, offset, after, afterID) := ledger_limits i in
  match li_MachineID i with
  | None => fail (ENew "machine_id required")
  | Some machineID =>
      if machineID =u uuid_Nil then fail (ENew "machine_id required")
      else
        let fetchLimit := cashLedgerFetchLimit limit offset in
        let p := mk_LedgerPage machineID (li_From i) (li_To i) (li_OrderID i) (cursor_of after afterID) fetchLimit in
        let! acceptanceCount := CountCashLedgerAcceptanceEvents p in
        let! payoutCount := CountCashLedgerPayoutEvents p in
        let! lifecycleCount := CountCashLedgerLifecycleEvents p in
        let! obsCount := CountCashLedgerHardwareObservations p in
        let total := add64 (add64 (add64 acceptanceCount payoutCount) lifecycleCount) obsCount in
        let! rows := ListCashLedgerAcceptanceEvents p in
        let! payoutRows := ListCashLedgerPayoutEvents p in
        let! lifecycleRows := ListCashBillLifecycleEventsForLedger p in
        let! obsRows := ListCashHardwareObservationsForLedger p in
        let items := stable_sort ledger_before
          (map ledger_acceptance rows ++ map ledger_payout payoutRows ++ map ledger_lifecycle lifecycleRows ++
           map ledger_observation obsRows) in
        let items := if fetchLimit <? wrap32 (Z.of_nat (length items)) then take (Z.to_nat fetchLimit) items else items in
        let items := sliceCashLedgerPage items offset limit in
        ret (mk_ListCashLedgerResult items
               (option_map (fun r => (lg_OccurredAtDevice r, lg_ID r)) (List.last (map Some items) None)) total)
  end.

(** [json.Unmarshal] into a map, its error dropped. *)
Definition as_map (v : json) : json := match v with JObj _ => v | _ => JObj [] end.
Definition nullInt (v : option Z) : json := match v with Some z => JNum z 0 | None => JNull end.
Definition GetCashLedgerEventDetail (eventID : N) (movementClass : string) : M world CashLedgerEventDetail :=
  if String.eqb (TrimSpace (ToLower movementClass)) "payout" then
    let! row := or_not_found (GetCashPayoutEventByID eventID) in
    ret (mk_CashLedgerEventDetail (ledger_payout row) (as_map (po_RawMetadata row))
      (Some (JObj [("withdrawalId", JStr (po_WithdrawalID row)); ("noteSequence", nullInt (Some (po_NoteSequence row)));
                   ("outcomeFinality", JStr (po_OutcomeFinality row));
                   ("recyclerCountBefore", nullInt (po_RecyclerCountBefore row));
                   ("recyclerCountAfter", nullInt (po_RecyclerCountAfter row))])))
  else
    let! row := or_not_found (GetCashAcceptanceEventByID eventID) in
    ret (mk_CashLedgerEventDetail
      (mk_CashLedgerRow (ca_ID row) (ca_MachineID row) (ca_OrderID row) "acceptance" (ca_CreditSource row)
         (if in_recycler (ca_CreditSource row) then "recycler" else "cashbox") (ca_DenominationMinor row)
         (ca_DenominationMinor row) (ca_Currency row) (ca_AcceptedAt row) (ca_CreatedAt row) "CONFIRMED"
         (ca_DeviceEventID row))
      (as_map (ca_RawMetadata row)) None).

Definition GetOrderCashForensics (orderID : N) : M world OrderCashForensicsView :=
  let! money := PgCommerce.GetOrderMoneyView orderID in
  let! lifecycleRows := ListCashBillLifecycleEventsForOrder orderID in
  let! payoutRows := ListCashPayoutEventsForOrder orderID in
  let gross := fold_left (fun s ev => add64 s (cev_DenominationMinor ev)) (om_AcceptanceEvents money) 0 in
  let remainder := match om_CashAllocation money with
                   | Some a => at_least_zero (sub64 gross (cav_AmountMinor a))
                   | None => 0
                   end in
  ret (mk_OrderCashForensicsView money remainder
    (map (fun r => mk_CashLifecycleEventView (bl_DeviceEventID r) (bl_LifecycleType r) (bl_DenominationMinor r)
                     (bl_RawRecordHex r) (bl_OccurredAtDevice r)) lifecycleRows)
    (map (fun r => mk_CashPayoutEventView (po_ID r) (po_WithdrawalID r) (po_NoteSequence r) (po_EventType r)
                     (po_DenominationMinor r) (po_AmountMinor r) (po_OutcomeFinality r) (po_RecyclerCountBefore r)
                     (po_RecyclerCountAfter r) (po_OccurredAtDevice r)) payoutRows)).
End Store.

(** ** The interface and the service *)

Record CashForensicStore (W : Type) := mk_CashForensicStore {
  cfs_RecordCashMovements : RecordCashMovementsInput -> M W RecordCashMovementsResult;
  cfs_BindAcceptanceEventsToOrder : N -> N -> list string -> M W unit;
  cfs_GetMachinePhysicalCashPosition : N -> string -> option Z -> M W MachinePhysicalCashPosition;
  cfs_InsertCashAdjustment : InsertCashAdjustmentInput -> M W CashAdjustmentView;
  cfs_ListCashLedger : ListCashLedgerInput -> M W ListCashLedgerResult;
  cfs_GetCashLedgerEventDetail : N -> string -> M W CashLedgerEventDetail;
  cfs_GetOrderCashForensics : N -> M W OrderCashForensicsView }.
Definition pg_cash `{UuidText} `{PaymentUpdates} : CashForensicStore world :=
  mk_CashForensicStore world RecordCashMovements BindAcceptanceEventsToOrder GetMachinePhysicalCashPosition
    InsertCashAdjustment ListCashLedger GetCashLedgerEventDetail GetOrderCashForensics.
