(* ===== verification/CashService.v ===== *)
(** * The service of cash reports

    internal/app/commerce/cash_forensic_service.go over the store of
    CashForensic. *)

From S2P Require Import Prelude.
From S2P Require Import GoStd.
From S2P Require Import Pricing.
From S2P Require Import CommerceTypes.
From S2P Require Import Evidence.
From S2P Require Import Rules.
From S2P Require Import Db.
From S2P Require Import Queries.
From S2P Require Import CashQueries.
From S2P Require Import PgCommerce.
From S2P Require Import CashForensic.
Local Open Scope string_scope.
Local Open Scope list_scope.
Local Open Scope Z_scope.

Section Methods.
Context {W : Type} (forensic : option (CashForensicStore W)).
Definition ReportCashMovements (i : RecordCashMovementsInput) : M W RecordCashMovementsResult :=
  match forensic with
  | None => fail ErrNotConfigured
  | Some st =>
      if xi_MachineID i =u uuid_Nil then fail (invalid_arg "machine_id required")
      else if blank (TrimSpace (xi_IdempotencyKey i)) then fail (invalid_arg "idempotency_key required")
      else cfs_RecordCashMovements W st i
  end.
Definition with_store {A} (f : CashForensicStore W -> M W A) : M W A :=
  match forensic with None => fail ErrNotConfigured | Some st => f st end.
Definition GetMachinePhysicalCashPosition (machineID : N) (currency : string) (asOf : option Z) :=
  with_store (fun st => cfs_GetMachinePhysicalCashPosition W st machineID currency asOf).
Definition ListCashLedger (i : ListCashLedgerInput) := with_store (fun st => cfs_ListCashLedger W st i).
Definition GetCashLedgerEventDetail (eventID : N) (movementClass : string) :=
  with_store (fun st => cfs_GetCashLedgerEventDetail W st eventID movementClass).
Definition GetOrderCashForensics (orderID : N) := with_store (fun st => cfs_GetOrderCashForensics W st orderID).
Definition InsertCashAdjustment (i : InsertCashAdjustmentInput) := with_store (fun st => cfs_InsertCashAdjustment W st i).
End Methods.
