(* ===== verification/Fulfillment.v ===== *)
(** * Vend fulfilment

    The two transactions that close a vend (commerce_vend_fulfillment.go) and
    the inventory decrement of a sale with its slot lookups
    (telemetry_store.go), with internal/app/physicaltopology/grid.go. *)

From S2P Require Import Prelude.
From S2P Require Import GoStd.
From S2P Require Import Pricing.
From S2P Require Import CommerceTypes.
From S2P Require Import Sanitize.
From S2P Require Import Evidence.
From S2P Require Import Snapshot.
From S2P Require Import Rules.
From S2P Require Import Db.
From S2P Require Import Queries.
From S2P Require Import PgCommerce.
Local Open Scope string_scope.
Local Open Scope list_scope.
Local Open Scope Z_scope.

(** ** Slot lookups (telemetry_store.go) *)

(** internal/app/physicaltopology/grid.go *)
Definition SlotCodeFromIndex (slotIndex cols : Z) : string :=
  if (cols <? 1) || (slotIndex <? 1) then ""
  else
    let zeroBased := slotIndex - 1 in
    let row := Z.quot zeroBased cols in
    let col := Z.rem zeroBased cols + 1 in
    if (row <? 0) || (25 <? row) then ""
    else String (ascii_of_N (Z.to_N (65 + row))) (FormatInt col).

Definition no_slot_config : goerr := ENew "postgres: no machine_slot_config".
Definition opt_is (o : option N) (x : N) : bool :=
  match o with Some y => y =u x | None => false end.
Definition opt_is_Z (o : option Z) (x : Z) : bool :=
  match o with Some y => y =? x | None => false end.

(** These return an error when nothing matches; [None] here. *)
Definition pickSlotSnapshotForVend (slots : list MachineSlotRow) (slotIndex : Z) (productID : N)
    : option MachineSlotRow :=
  List.find (fun s => (ms_SlotIndex s =? slotIndex) && opt_is (ms_ProductID s) productID) slots.
Definition pickSlotConfigForVend (cfgs : list VendSlotConfig) (slotIndex : Z) (productID : N)
    : option VendSlotConfig :=
  List.find (fun c => opt_is_Z (vc_SlotIndex c) slotIndex && opt_is (vc_ProductID c) productID) cfgs.
Definition pickSlotConfigBySlotCode (cfgs : list VendSlotConfig) (slotCode : string) (productID : N)
    : option VendSlotConfig :=
  let slotCode := TrimSpace slotCode in
  if blank slotCode then None
  else List.find (fun c => String.eqb (TrimSpace (vc_SlotCode c)) slotCode &&
                           opt_is (vc_ProductID c) productID) cfgs.
Definition pickSlotConfigForVendUnassignedProduct (cfgs : list VendSlotConfig) (slotIndex : Z)
    : option VendSlotConfig :=
  List.find (fun c => opt_is_Z (vc_SlotIndex c) slotIndex && is_none (vc_ProductID c)) cfgs.
Definition pickSlotConfigBySlotCodeUnassignedProduct (cfgs : list VendSlotConfig)
    (slotCode : string) : option VendSlotConfig :=
  let slotCode := TrimSpace slotCode in
  if blank slotCode then None
  else List.find (fun c => String.eqb (TrimSpace (vc_SlotCode c)) slotCode &&
                           is_none (vc_ProductID c)) cfgs.

Definition cfg_with (c : VendSlotConfig) (slot : option Z) (product : option N) : VendSlotConfig :=
  mk_VendSlotConfig (vc_ID c) (vc_MachineID c) (vc_SlotCode c) slot product (vc_MaxQuantity c)
    (vc_PriceMinor c).
Definition vendSlotConfigWithProduct (c : VendSlotConfig) (productID : N) : VendSlotConfig :=
  cfg_with c (vc_SlotIndex c)
    (match vc_ProductID c with Some p => Some p | None => Some productID end).

Definition resolveMachineGridCols (machineID : N) : M world Z :=
  let! cols := optional_row (InventoryAdminGetMachineActiveLayoutGridCols machineID) in
  match cols with
  | None => ret 10
  | Some cols => if cols <? 1 then ret 10 else ret cols
  end.

(** [slotCodes]: the code of the grid and the bare index. *)
Definition vend_slot_codes (slotIndex gridCols : Z) : list string :=
  let code := SlotCodeFromIndex slotIndex gridCols in
  let legacyCode := FormatInt slotIndex in
  (if blank code then [] else [code]) ++
  (if negb (blank legacyCode) && (blank code || negb (String.eqb code legacyCode))
   then [legacyCode] else []).

(** The first loop: a configuration found by one of the codes, linked to the
    slot index when it was not. *)
Fixpoint config_by_code (cfgs : list VendSlotConfig) (slotIndex : Z) (productID : N)
    (codes : list string) : M world (option VendSlotConfig) :=
  match codes with
  | [] => ret None
  | code :: codes =>
      match opt_or (pickSlotConfigBySlotCode cfgs code productID)
              (option_map (fun c => vendSlotConfigWithProduct c productID)
                 (pickSlotConfigBySlotCodeUnassignedProduct cfgs code)) with
      | None => config_by_code cfgs slotIndex productID codes
      | Some cfg =>
          if opt_is_Z (vc_SlotIndex cfg) slotIndex then ret (Some cfg)
          else
            InventoryAdminRelinkCurrentMachineSlotConfigSlotIndex (vc_ID cfg) slotIndex ;;;
            ret (Some (cfg_with cfg (Some slotIndex) (vc_ProductID cfg)))
      end
  end.
(** The second loop: the published planogram. *)
Fixpoint config_by_planogram (machineID : N) (slotIndex : Z) (productID : N)
    (codes : list string) : M world VendSlotConfig :=
  match codes with
  | [] => fail no_slot_config
  | code :: codes =>
      let! row := optional_row (InventoryAdminGetPublishedPlanogramSlotForMachine machineID code) in
      match row with
      | Some (product, maxQty, price) =>
          if opt_is product productID then
            ret (mk_VendSlotConfig uuid_Nil uuid_Nil code (Some slotIndex) product
                   (if maxQty <? 1 then 1 else maxQty) price)
          else config_by_planogram machineID slotIndex productID codes
      | None => config_by_planogram machineID slotIndex productID codes
      end
  end.

Definition resolveVendSlotConfigWithFallbacks (machineID : N) (slotIndex : Z) (productID : N)
    (cfgs : list VendSlotConfig) : M world VendSlotConfig :=
  match pickSlotConfigForVend cfgs slotIndex productID with
  | Some cfg => ret cfg
  | None =>
      match pickSlotConfigForVendUnassignedProduct cfgs slotIndex with
      | Some cfg => ret (vendSlotConfigWithProduct cfg productID)
      | None =>
          let! gridCols := resolveMachineGridCols machineID in
          let codes := vend_slot_codes slotIndex gridCols in
          let! cfg := config_by_code cfgs slotIndex productID codes in
          match cfg with
          | Some cfg => ret cfg
          | None => config_by_planogram machineID slotIndex productID codes
          end
      end
  end.

Definition non_nil (o : option N) : option N :=
  match o with Some x => if x =u uuid_Nil then None else Some x | None => None end.
Definition resolveVendLegacyPlanogramID (machineID : N) (legacySlots : list MachineSlotRow)
    : M world N :=
  match non_nil (option_map ms_PlanogramID (head legacySlots)) with
  | Some pg => ret pg
  | None =>
      let! pg := optional_row (InventoryAdminGetMachineLegacyPlanogramID machineID) in
      match non_nil pg with
      | Some pg => ret pg
      | None =>
          let! pg := optional_row InventoryAdminGetPublishedPlanogramID in
          match non_nil pg with
          | Some pg => ret pg
          | None => fail (ENew "postgres: no planogram available for vend legacy slot provision")
          end
      end
  end.

Definition resolveVendSlotSnapshot (machineID : N) (slotIndex : Z) (productID : N)
    : M world MachineSlotRow :=
  let! slots := InventoryAdminListMachineSlots machineID in
  match pickSlotSnapshotForVend slots slotIndex productID with
  | Some snap => ret snap
  | None =>
      let! cfgs := InventoryAdminListCurrentMachineSlotConfigsByMachine machineID in
      let! cfg := resolveVendSlotConfigWithFallbacks machineID slotIndex productID cfgs in
      let! planogramID := resolveVendLegacyPlanogramID machineID slots in
      let curQty := if vc_MaxQuantity cfg <? 1 then 1 else vc_MaxQuantity cfg in
      InventoryAdminUpsertMachineSlotState
        (mk_SlotState machineID planogramID slotIndex curQty (vc_PriceMinor cfg) 1) ;;;
      ret (mk_MachineSlotRow planogramID slotIndex curQty (vc_MaxQuantity cfg) (vc_PriceMinor cfg) 1
             (match vc_ProductID cfg with Some p => Some p | None => Some productID end))
  end.

(** ** The inventory decrement of a sale *)

Definition ErrMachineScopeMismatch : goerr :=
  ESentinel "postgres: machine does not belong to deployment boundary".

Definition sale_event (machineID orderID productID : N) (slotIndex newQty : Z) (key : string)
    (correlationID : option N) (occurred : Z) (_ : Z) (id : N) : InventoryEvent :=
  mk_InventoryEvent id machineID ("S" +:+ FormatInt slotIndex) productID "sale" (-1) newQty
    orderID correlationID occurred (Some key).

Definition applyCommerceVendSuccessInventoryTx (scopeID machineID orderID : N) (slotIndex : Z)
    (lineSequence : Z) (productID : N) (idempotencyKey : string) (correlationID : option N)
    : M world bool :=
  if blank (TrimSpace idempotencyKey)
  then fail (ENew "postgres: idempotency_key is required for vend inventory")
  else
    let! _ := GetMachineByIDForUpdate machineID in
    if negb (uuid_Nil =u scopeID) then fail ErrMachineScopeMismatch
    else
      let! vend := (if 0 <? lineSequence
                    then GetVendSessionByOrderAndLineSequenceQ orderID lineSequence
                    else GetVendSessionByOrderAndSlotQ orderID slotIndex) in
      let v := vr_Session vend in
      if negb (v_MachineID v =u machineID) || negb (v_ProductID v =u productID)
      then fail (ENew "postgres: vend session does not match machine/product")
      else if negb (String.eqb (v_State v) "success")
      then fail (ENew "postgres: vend session must be success before inventory decrement")
      else
        let! cnt := InventoryAdminCountInventoryEventsByIdempotencyKey idempotencyKey machineID in
        if 0 <? cnt then ret true
        else
          let! snap := resolveVendSlotSnapshot machineID slotIndex productID in
          let cur := ms_CurrentQuantity snap in
          if cur <? 1 then fail (ENew "postgres: insufficient stock for vend sale")
          else
            let newQty := cur - 1 in
            let! now := time_Now in
            let! _ := InventoryAdminInsertInventoryEventsBatch
                        (sale_event machineID orderID productID slotIndex newQty idempotencyKey
                           correlationID now) in
            let! _ := InventoryAdminUpsertMachineSlotState
                        (mk_SlotState machineID (ms_PlanogramID snap) slotIndex newQty
                           (ms_PriceMinor snap) (ms_RevisionApplied snap)) in
            ret false.

Definition ApplyCommerceVendSuccessInventory (scopeID machineID orderID : N) (slotIndex : Z)
    (productID : N) (idempotencyKey : string) (correlationID : option N) : M world bool :=
  with_tx (
    let! replay := applyCommerceVendSuccessInventoryTx scopeID machineID orderID slotIndex 0
                     productID idempotencyKey correlationID in
    ret (Commit replay)).

(** ** Closing a vend (commerce_vend_fulfillment.go) *)

Definition derefStr (p : option string) : string :=
  match p with Some s => TrimSpace s | None => "" end.
Definition pgtypeTextString (t : option string) : string := derefStr t.

Definition resolveAuthoritativePaymentRow (orderID : N) (winning : option N) : M world Payment :=
  let fallback :=
    let! all := ListPaymentsForOrderQ orderID in
    match List.find (fun p => one_of (TrimSpace (p_State p)) ["captured"; "partially_refunded"])
            (rev all) with
    | Some p => ret p
    | None => GetLatestPaymentForOrderQ orderID
    end in
  match non_nil winning with
  | None => fallback
  | Some payID =>
      let! row := optional_row (GetPaymentByIDQ payID) in
      match row with
      | Some row => if p_OrderID row =u orderID then ret row else fallback
      | None => fallback
      end
  end.

Record lockedVendSession := mk_lockedVendSession {
  lv_id : N; lv_machineID : N; lv_slotIndex : Z; lv_productID : N; lv_state : string;
  lv_replayVend : VendSession }.
Definition locked_of (row : VendRow) : lockedVendSession :=
  let s := vr_Session row in
  mk_lockedVendSession (v_ID s) (v_MachineID s) (v_SlotIndex s) (v_ProductID s) (v_State s)
    (mapVendFields row).
Definition lockSuccessfulVendSessionForUpdate (i : FulfillSuccessfulVendInput)
    : M world lockedVendSession :=
  fmap_M locked_of (or_not_found
    (if 0 <? fs_LineSequence i
     then LockVendSessionByOrderAndLineSequenceForUpdate (fs_OrderID i) (fs_LineSequence i)
     else LockVendSessionByOrderAndSlotForUpdate (fs_OrderID i) (fs_SlotIndex i))).
Definition lockFailedVendSessionForUpdate (i : FulfillFailedVendInput)
    : M world lockedVendSession :=
  fmap_M locked_of (or_not_found
    (if 0 <? ff_LineSequence i
     then LockVendSessionByOrderAndLineSequenceForUpdate (ff_OrderID i) (ff_LineSequence i)
     else LockVendSessionByOrderAndSlotForUpdate (ff_OrderID i) (ff_SlotIndex i))).

Definition session_states (l : list VendRow) : list string := map (fun v => v_State (vr_Session v)) l.

(** The order status once the last line is closed. *)
Definition settle_order (orderID : N) (ord : Order) : M world Order :=
  let! sessions := ListVendSessionsByOrder orderID in
  let states := session_states sessions in
  if multiLineOrderHasOpenVendLines states then ret ord
  else
    let next := resolveMultiLineTerminalOrderStatus states in
    if String.eqb next (o_Status ord) then ret ord else UpdateOrderStatusByOrg next orderID.

Definition resolveOrderStatusAfterFailedVend (ord : Order) (orderID : N) : M world Order :=
  let! sessions := ListVendSessionsByOrder orderID in
  if (length sessions <=? 1)%nat then UpdateOrderStatusByOrg "failed" orderID
  else
    let states := session_states sessions in
    if multiLineOrderHasOpenVendLines states then ret ord
    else
      let next := resolveMultiLineTerminalOrderStatus states in
      if String.eqb next (o_Status ord) then ret ord else UpdateOrderStatusByOrg next orderID.

Definition update_vend_state (state : string) (reason : option string) (orderID : N)
    (lineSequence slotIndex : Z) : M world VendSession :=
  fmap_M mapVendFields
    (if 0 <? lineSequence
     then UpdateVendSessionStateByOrderLineSequence state reason orderID lineSequence
     else UpdateVendSessionStateByOrderSlot state reason orderID slotIndex).
Definition set_verification (status : string) (orderID : N) (lineSequence slotIndex : Z)
    : M world VendRow :=
  if 0 <? lineSequence
  then SetVendSessionVerificationStatusByLineSequence status orderID lineSequence
  else SetVendSessionVerificationStatus status orderID slotIndex.
Definition verification_or_default (s : string) : string :=
  let v := TrimSpace s in if blank v then VerificationUnverified else v.

Section Fulfil.
Context `{UuidText} `{Sha256}.

(** The vend and order rows of a success: the session moves to success and
    the order is settled, or only the order is repaired. *)
Definition close_success (i : FulfillSuccessfulVendInput) (ord : Order) (pay : Payment)
    (locked : lockedVendSession) : M world (VendSession * Order) :=
  if String.eqb (lv_state locked) "in_progress" then
    if negb (String.eqb (p_State pay) "captured") then fail ErrPaymentNotSettled
    else
      let! v := update_vend_state "success" None (fs_OrderID i) (fs_LineSequence i)
                  (fs_SlotIndex i) in
      let! o := settle_order (fs_OrderID i) ord in
      ret (v, o)
  else if negb (isTerminalOrderStatus (o_Status ord)) then
    if negb (String.eqb (p_State pay) "captured") then fail ErrPaymentNotSettled
    else
      let! o := settle_order (fs_OrderID i) ord in
      ret (lv_replayVend locked, o)
  else ret (lv_replayVend locked, ord).

Definition success_timeline_payload (i : FulfillSuccessfulVendInput) (key : string)
    (invReplay orderVendReplay : bool) (machineID : N) (slotIndex : Z) (vstatus : string) : json :=
  JObj (go_map
    [("idempotency_key", JStr key); ("inventory_replay", JBool invReplay);
     ("order_vend_replay", JBool orderVendReplay); ("machine_id", JStr (uuid_String machineID));
     ("slot_index", JInt slotIndex); ("line_sequence", JInt (fs_LineSequence i));
     ("verification_status", JStr vstatus)]).

(** The reconciliation records of a success without verified evidence. *)
Definition record_unverified (i : FulfillSuccessfulVendInput) (key outboxIdem vstatus : string)
    (ord : Order) (locked : lockedVendSession) : M world unit :=
  let reconType := TrimSpace (fs_ReconciliationEventType i) in
  (if negb (blank reconType) then
     insertOutboxEventIdempotent (mk_insertOutboxParams (fs_OutboxTopic i) reconType
       (JObj (go_map
          [("order_id", JStr (uuid_String (fs_OrderID i))); ("slot_index", JInt (lv_slotIndex locked));
           ("line_sequence", JInt (fs_LineSequence i)); ("verification_status", JStr vstatus);
           ("reason", JStr "hardware_evidence_missing_or_unverified")]))
       (fs_OutboxAggregateType i) (fs_OrderID i) (outboxIdem +:+ ":reconciliation")
       (o_Simulated ord) (pgtypeTextString (o_SimulationRunID ord))
       (pgtypeTextString (o_SimulationScenario ord)))
   else ret tt) ;;;
  let! _ := UpsertCommerceReconciliationCase (mk_ReconciliationCaseInput
    "vend_started_no_terminal_ack" "warning" (Some (fs_OrderID i)) None (Some (lv_id locked)) None
    (Some (o_MachineID ord)) None None (key +:+ ":reconciliation_case")
    "hardware_evidence_missing_or_unverified"
    (JObj (go_map [("verification_status", JStr vstatus); ("slot_index", JInt (lv_slotIndex locked));
                   ("line_sequence", JInt (fs_LineSequence i))]))) in
  ret tt.

(** Everything the success records unless it is a full replay. *)
Definition record_success (i : FulfillSuccessfulVendInput) (key : string) (ord : Order)
    (pay : Payment) (locked : lockedVendSession) (invReplay orderVendReplay : bool)
    : M world unit :=
  let vstatus := verification_or_default (fs_VerificationStatus i) in
  let machineID := o_MachineID ord in
  let slotIndex := lv_slotIndex locked in
  let! _ := set_verification vstatus (fs_OrderID i) (fs_LineSequence i) (fs_SlotIndex i) in
  let! _ := persistVendHardwareEvidenceTx (mk_persistEvidenceInput (fs_OrderID i) (lv_id locked)
              machineID slotIndex (fs_Evidence i) (key +:+ ":hardware_evidence")) in
  emitVendSuccessFinancialLedgerTx machineID (fs_OrderID i) (p_ID pay) (p_AmountMinor pay)
    (p_Currency pay) (default uuid_Nil (fs_CorrelationID i)) (key +:+ ":financial_ledger") ;;;
  let! now := time_Now in
  let! _ := InsertOrderTimelineEvent (fs_OrderID i) "commerce_vend_dispense_succeeded"
              (success_timeline_payload i key invReplay orderVendReplay machineID slotIndex vstatus)
              now in
  let outboxIdem := let k := TrimSpace (fs_OutboxIdempotencyKey i) in
                    if blank k then key +:+ ":vend_outbox" else k in
  insertOutboxEventIdempotent (mk_insertOutboxParams (fs_OutboxTopic i) (fs_OutboxEventType i)
    (vendSuccessOutboxPayload (fs_OrderID i) slotIndex machineID vstatus (fs_Evidence i) key)
    (fs_OutboxAggregateType i) (fs_OrderID i) outboxIdem (o_Simulated ord)
    (pgtypeTextString (o_SimulationRunID ord)) (pgtypeTextString (o_SimulationScenario ord))) ;;;
  if String.eqb vstatus VerificationHardwareUnverified
  then record_unverified i key outboxIdem vstatus ord locked
  else ret tt.

(** The transaction once the payment is known. *)
Definition success_rest (i : FulfillSuccessfulVendInput) (key : string) (ord : Order)
    (locked : lockedVendSession) (pay : Payment) : M world (tx_end FulfillSuccessfulVendResult) :=
  let! closed := close_success i ord pay locked in
  let! invReplay := applyCommerceVendSuccessInventoryTx uuid_Nil (o_MachineID ord)
    (fs_OrderID i) (lv_slotIndex locked) (fs_LineSequence i) (lv_productID locked) key
    (fs_CorrelationID i) in
  let orderVendReplay := String.eqb (lv_state locked) "success" &&
                         String.eqb (o_Status ord) "completed" in
  (if negb (orderVendReplay && invReplay)
   then record_success i key ord pay locked invReplay orderVendReplay
   else ret tt) ;;;
  ret (Commit (mk_FulfillSuccessfulVendResult (mapOrder closed.2) closed.1 invReplay
    orderVendReplay)).
Definition success_body (i : FulfillSuccessfulVendInput) (key : string)
    : M world (tx_end FulfillSuccessfulVendResult) :=
  let! ord := or_not_found (LockOrderByIDAndOrgForUpdate (fs_OrderID i)) in
  let! locked := lockSuccessfulVendSessionForUpdate i in
  if negb (lv_machineID locked =u o_MachineID ord)
  then fail (ENew "postgres: vend row machine mismatch order")
  else if String.eqb (o_Status ord) "cancelled" then fail ErrIllegalTransition
  else if negb (one_of (lv_state locked) ["success"; "in_progress"]) then fail ErrIllegalTransition
  else
    let! pay := attempt (resolveAuthoritativePaymentRow (fs_OrderID i) (o_WinningPaymentID ord)) in
    match pay with
    | Err e => if isNoRows e then fail ErrPaymentNotSettled else fail e
    | Ok pay => success_rest i key ord locked pay
    end.

Definition FulfillSuccessfulVendAtomically (i : FulfillSuccessfulVendInput)
    : M world FulfillSuccessfulVendResult :=
  let key := TrimSpace (fs_InventoryDedupeKey i) in
  if blank key then fail (invalid_arg "inventory dedupe key is required")
  else with_tx (success_body i key).

(** ** A failed vend *)

(** [commerce_vend_failed:<order>|<slot>] *)
Definition failed_key (orderID : N) (slotIndex : Z) : string :=
  "commerce_vend_failed:" +:+ uuid_String orderID +:+ "|" +:+ FormatInt slotIndex.

(** Which compensation the failure asks for: refund, and local cash. *)
Definition compensation (i : FulfillFailedVendInput) (pay : option Payment) : bool * bool :=
  let captured := match pay with
                  | Some p => one_of (p_State p) ["captured"; "partially_refunded"]
                  | None => false
                  end in
  let cash := match pay with
              | Some p => captured && EqualFold (TrimSpace (p_Provider p)) "cash"
              | None => false
              end in
  if negb (ff_RefundRequired i) && negb (ff_LocalCashRefundRequired i)
  then (captured && negb cash, cash && captured)
  else (ff_RefundRequired i, ff_LocalCashRefundRequired i).

Definition record_failure (i : FulfillFailedVendInput) (ord : Order) (refund local_cash : bool)
    : M world unit :=
  let reason := derefStr (ff_FailureReason i) in
  let! now := time_Now in
  let! _ := InsertOrderTimelineEvent (ff_OrderID i) "commerce_vend_dispense_failed"
    (JObj (go_map [("failure_reason", JStr reason); ("refund_required", JBool refund);
                   ("local_cash_refund_required_hint", JBool local_cash);
                   ("slot_index", JInt (ff_SlotIndex i))])) now in
  let outboxIdem := let k := TrimSpace (ff_OutboxIdempotencyKey i) in
                    if blank k then failed_key (ff_OrderID i) (ff_SlotIndex i) else k in
  let row etype payload key := mk_insertOutboxParams (ff_OutboxTopic i) etype payload
    (ff_OutboxAggregateType i) (ff_OrderID i) key (o_Simulated ord)
    (pgtypeTextString (o_SimulationRunID ord)) (pgtypeTextString (o_SimulationScenario ord)) in
  insertOutboxEventIdempotent (row (ff_OutboxEventType i)
    (vendFailedOutboxPayload (ff_OrderID i) (ff_SlotIndex i) reason refund local_cash)
    outboxIdem) ;;;
  let reconType := TrimSpace (ff_ReconciliationEventType i) in
  if (refund || local_cash) && negb (blank reconType) then
    insertOutboxEventIdempotent (row reconType
      (JObj (go_map [("order_id", JStr (uuid_String (ff_OrderID i)));
                     ("slot_index", JInt (ff_SlotIndex i)); ("refund_required", JBool refund);
                     ("local_cash_refund_required_hint", JBool local_cash)]))
      (outboxIdem +:+ ":reconciliation"))
  else ret tt.

(** The transaction once the vend has failed and the order is settled. *)
Definition failed_rest (i : FulfillFailedVendInput) (ord : Order) (locked : lockedVendSession)
    (v : VendSession) (finalOrd : Order) : M world (tx_end FulfillFailedVendResult) :=
  let slotIndex := lv_slotIndex locked in
  let! _ := set_verification (verification_or_default (ff_VerificationStatus i)) (ff_OrderID i)
              (ff_LineSequence i) slotIndex in
  let dedupe := let k := TrimSpace (ff_OutboxIdempotencyKey i) in
                if blank k then failed_key (ff_OrderID i) slotIndex else k in
  let! _ := persistVendHardwareEvidenceTx (mk_persistEvidenceInput (ff_OrderID i) (lv_id locked)
              (o_MachineID ord) slotIndex (ff_Evidence i) (dedupe +:+ ":hardware_evidence")) in
  let! pay := optional_row
                (resolveAuthoritativePaymentRow (ff_OrderID i) (o_WinningPaymentID ord)) in
  let '(refund, local_cash) := compensation i pay in
  record_failure i ord refund local_cash ;;;
  ret (Commit (mk_FulfillFailedVendResult (mapOrder finalOrd) v false)).

Definition failed_body (i : FulfillFailedVendInput) : M world (tx_end FulfillFailedVendResult) :=
  let! ord := or_not_found (LockOrderByIDAndOrgForUpdate (ff_OrderID i)) in
  let! locked := lockFailedVendSessionForUpdate i in
  if negb (lv_machineID locked =u o_MachineID ord)
  then fail (ENew "postgres: vend row machine mismatch order")
  else if String.eqb (lv_state locked) "failed"
  then ret (Commit (mk_FulfillFailedVendResult (mapOrder ord) (lv_replayVend locked) true))
  else if negb (String.eqb (lv_state locked) "in_progress") then fail ErrIllegalTransition
  else
    let slotIndex := lv_slotIndex locked in
    let reason := match ff_FailureReason i with
                  | Some s => optionalStringToPgText s
                  | None => None
                  end in
    let! v := update_vend_state "failed" reason (ff_OrderID i) (ff_LineSequence i) slotIndex in
    let! finalOrd := resolveOrderStatusAfterFailedVend ord (ff_OrderID i) in
    failed_rest i ord locked v finalOrd.

Definition FulfillFailedVendAtomically (i : FulfillFailedVendInput)
    : M world FulfillFailedVendResult :=
  with_tx (failed_body i).
End Fulfil.
