(* ===== verification/Quotes.v ===== *)
(** * Quotes and the orders made from them

    internal/app/commerce/quote_service.go, quote_sale_lines.go,
    quote_sale_lines_snapshot.go and quote_types.go: a cart is priced once, the
    quote is kept for a while, and becomes one order with one vend session per
    unit.  internal/modules/postgres/checkout_quotes.go:
    its store.  The resolvers of a cart are in SaleLines. *)

From S2P Require Import Prelude.
From S2P Require Import GoStd.
From S2P Require Import Pricing.
From S2P Require Import CommerceTypes.
From S2P Require Import Sanitize.
From S2P Require Import Evidence.
From S2P Require Import Snapshot.
From S2P Require Import Rules.
From S2P Require Import CommerceService.
From S2P Require Import Db.
From S2P Require Import Queries.
From S2P Require Import PgCommerce.
Local Open Scope string_scope.
Local Open Scope list_scope.
Local Open Scope Z_scope.

(** ** Inputs and results (quote_types.go, quote_service.go) *)

Record QuoteLineInput := mk_QuoteLineInput {
  qli_ProductID : N; qli_SlotID : option N; qli_CabinetCode : string; qli_SlotCode : string;
  qli_SlotIndex : option Z; qli_Quantity : Z }.
Record CreateQuoteInput := mk_CreateQuoteInput {
  cq_MachineID : N; cq_Currency : string; cq_PaymentMethod : string; cq_Lines : list QuoteLineInput;
  cq_IdempotencyKey : string; cq_QuoteTTL : Z; cq_PricingSnapshot : option MachinePricingSnapshotInput }.
Record QuoteLineView := mk_QuoteLineView {
  qlv_LineSequence : Z; qlv_ProductID : N; qlv_SlotConfigID : N; qlv_CabinetCode : string;
  qlv_SlotCode : string; qlv_SlotIndex : Z; qlv_Quantity : Z; qlv_UnitPriceMinor : Z;
  qlv_LineSubtotalMinor : Z; qlv_PricingFingerprint : string; qlv_PromotionLabel : string }.
Record CreateQuoteResult := mk_CreateQuoteResult {
  cqr_QuoteID : N; cqr_MachineID : N; cqr_Currency : string; cqr_PaymentMethod : string;
  cqr_SubtotalMinor : Z; cqr_DiscountMinor : Z; cqr_PayableMinor : Z; cqr_ExpiresAt : Z;
  cqr_Lines : list QuoteLineView; cqr_Replay : bool; cqr_PricingSource : string;
  cqr_ServerReferencePayableMinor : Z }.
Record CreateOrderFromQuoteInput := mk_CreateOrderFromQuoteInput {
  cfq_MachineID : N; cfq_QuoteID : N; cfq_PaymentMethod : string; cfq_IdempotencyKey : string;
  cfq_Simulated : bool; cfq_SimulationRunID : string; cfq_SimulationScenario : string;
  cfq_FakeBill : bool; cfq_FakeBoard : bool; cfq_PricingSnapshot : option MachinePricingSnapshotInput;
  cfq_ClientOrderID : N; cfq_CreatedAt : Z }.
(** OrderVendLineView and PersistOrderFromQuoteVendLine have the same fields. *)
Record OrderVendLineView := mk_OrderVendLineView {
  ovl_VendSessionID : N; ovl_LineSequence : Z; ovl_SlotIndex : Z; ovl_ProductID : N;
  ovl_CabinetCode : string; ovl_SlotCode : string; ovl_VendState : string }.
Record CreateOrderFromQuoteResult := mk_CreateOrderFromQuoteResult {
  ofq_OrderID : N; ofq_OrderStatus : string; ofq_Currency : string; ofq_SubtotalMinor : Z;
  ofq_TaxMinor : Z; ofq_TotalMinor : Z; ofq_Lines : list OrderVendLineView; ofq_Replay : bool;
  ofq_PricingSource : string; ofq_ServerReferenceTotalMinor : Z }.

Record PersistQuoteLineInput := mk_PersistQuoteLineInput {
  pql_LineSequence : Z; pql_ProductID : N; pql_SlotConfigID : N; pql_CabinetCode : string;
  pql_SlotCode : string; pql_SlotIndex : Z; pql_Quantity : Z; pql_UnitPriceMinor : Z;
  pql_LineSubtotalMinor : Z; pql_PricingFingerprint : string; pql_MachineUnitPriceMinor : option Z;
  pql_ServerReferenceUnitPriceMinor : option Z }.
Record PersistQuoteInput := mk_PersistQuoteInput {
  pqi_MachineID : N; pqi_Currency : string; pqi_PaymentMethod : string; pqi_SubtotalMinor : Z;
  pqi_DiscountMinor : Z; pqi_PayableMinor : Z; pqi_IdempotencyKey : string; pqi_ExpiresAt : Z;
  pqi_PricingSource : string; pqi_MachinePricingRevision : option Z;
  pqi_MachinePricingSnapshot : option json; pqi_ServerReferencePayableMinor : option Z;
  pqi_Lines : list PersistQuoteLineInput }.
Record PersistQuoteResult := mk_PersistQuoteResult {
  pqr_QuoteID : N; pqr_MachineID : N; pqr_Currency : string; pqr_PaymentMethod : string;
  pqr_SubtotalMinor : Z; pqr_DiscountMinor : Z; pqr_PayableMinor : Z; pqr_ExpiresAt : Z;
  pqr_State : string; pqr_PricingSource : string; pqr_ServerReferencePayableMinor : Z;
  pqr_Lines : list PersistQuoteLineInput; pqr_Replay : bool }.
Record PersistOrderFromQuoteInput := mk_PersistOrderFromQuoteInput {
  poq_Quote : PersistQuoteResult; poq_IdempotencyKey : string; poq_Simulated : bool;
  poq_SimulationRunID : string; poq_SimulationScenario : string; poq_FakeBill : bool;
  poq_FakeBoard : bool; poq_ClientOrderID : N; poq_CreatedAt : Z }.
Record PersistOrderFromQuoteResult := mk_PersistOrderFromQuoteResult {
  por_Order : Order; por_Lines : list OrderVendLineView; por_Replay : bool }.

(** The store, and the resolvers of a whole cart: optional interfaces of the
    order store and of the sale line resolver. *)
Record QuoteStore (W : Type) := mk_QuoteStore {
  qs_CreateQuoteWithLines : PersistQuoteInput -> M W PersistQuoteResult;
  qs_TryReplayQuoteByIdempotency : N -> string -> M W (option PersistQuoteResult);
  qs_GetQuoteWithLines : N -> M W PersistQuoteResult;
  qs_CreateOrderFromQuoteWithVendSessions : PersistOrderFromQuoteInput -> M W PersistOrderFromQuoteResult;
  qs_TryReplayOrderFromQuote : N -> string -> M W (option PersistOrderFromQuoteResult) }.
Record CartResolvers (W : Type) := mk_CartResolvers {
  cr_ResolveQuoteSaleLines : option (N -> list (SaleLineSelector * Z) -> M W (list ResolvedSaleLine));
  cr_ResolveQuoteLinesFromMachineSnapshot :
    option (N -> list (SaleLineSelector * Z) -> MachinePricingSnapshotInput -> M W (list ResolvedSaleLine)) }.

Definition defaultQuoteTTL : Z := 15 * Minute.
Definition at_least_one (qty : Z) : Z := if qty <=? 0 then 1 else qty.

Definition validateCreateQuote (i : CreateQuoteInput) : res unit :=
  let? _ := guard_err (cq_MachineID i =u uuid_Nil) (ENew "machine_id is required") in
  let? _ := guard_err (is_nil (cq_Lines i)) (ENew "at least one cart line is required") in
  guard_err (existsb (fun l => qli_ProductID l =u uuid_Nil) (cq_Lines i))
    (ENew "product_id is required on each line").
Definition validateCreateOrderFromQuote (i : CreateOrderFromQuoteInput) : res unit :=
  let? _ := guard_err (cfq_MachineID i =u uuid_Nil) (ENew "machine_id is required") in
  let? _ := guard_err (cfq_QuoteID i =u uuid_Nil) (ENew "quote_id is required") in
  guard_err (blank (TrimSpace (cfq_IdempotencyKey i))) (ENew "idempotency_key is required").

Definition quote_line_view (l : PersistQuoteLineInput) : QuoteLineView :=
  mk_QuoteLineView (pql_LineSequence l) (pql_ProductID l) (pql_SlotConfigID l) (pql_CabinetCode l)
    (pql_SlotCode l) (pql_SlotIndex l) (pql_Quantity l) (pql_UnitPriceMinor l)
    (pql_LineSubtotalMinor l) (pql_PricingFingerprint l) "".
Definition quote_result (p : PersistQuoteResult) (lines : list QuoteLineView) : CreateQuoteResult :=
  mk_CreateQuoteResult (pqr_QuoteID p) (pqr_MachineID p) (pqr_Currency p) (pqr_PaymentMethod p)
    (pqr_SubtotalMinor p) (pqr_DiscountMinor p) (pqr_PayableMinor p) (pqr_ExpiresAt p) lines
    (pqr_Replay p) (pqr_PricingSource p) (pqr_ServerReferencePayableMinor p).
Definition mapPersistQuoteResult (p : PersistQuoteResult) : CreateQuoteResult :=
  quote_result p (map quote_line_view (pqr_Lines p)).
Definition mapPersistOrderFromQuote (p : PersistOrderFromQuoteResult) : CreateOrderFromQuoteResult :=
  let o := por_Order p in
  mk_CreateOrderFromQuoteResult (o_ID o) (o_Status o) (o_Currency o) (o_SubtotalMinor o) (o_TaxMinor o)
    (o_TotalMinor o) (por_Lines p) (por_Replay p) (o_PricingSource o) (o_ServerReferenceTotalMinor o).

(** ** The cart priced (quote_service.go) *)

(** A line as the server prices it. *)
Definition server_line (i : Z) (line : QuoteLineInput) (r : ResolvedSaleLine) : PersistQuoteLineInput :=
  mk_PersistQuoteLineInput (wrap32 (i + 1)) (qli_ProductID line) (sl_SlotConfigID r) (sl_CabinetCode r)
    (sl_SlotCode r) (sl_SlotIndex r) (at_least_one (qli_Quantity line)) (sl_PriceMinor r)
    (sl_TotalMinor r) (sl_PricingFingerprint r) None None.
(** A resolver answers one line per line asked for. *)
Fixpoint server_lines_from (i : Z) (lines : list QuoteLineInput) (resolved : list ResolvedSaleLine)
    : list (PersistQuoteLineInput * string) :=
  match lines, resolved with
  | line :: lines, r :: resolved =>
      (server_line i line r, sl_PromotionLabel r) :: server_lines_from (i + 1) lines resolved
  | _, _ => []
  end.
Definition server_subtotal (resolved : list ResolvedSaleLine) : Z :=
  fold_left (fun sum r => add64 sum (sl_TotalMinor r)) resolved 0.
(** The price the machine declares for the line. *)
Definition machine_line (snap : MachinePricingSnapshotInput) (l : PersistQuoteLineInput)
    : PersistQuoteLineInput :=
  let machineUnit := snapshotLineUnitPrice snap (pql_LineSequence l) (pql_UnitPriceMinor l) in
  mk_PersistQuoteLineInput (pql_LineSequence l) (pql_ProductID l) (pql_SlotConfigID l) (pql_CabinetCode l)
    (pql_SlotCode l) (pql_SlotIndex l) (pql_Quantity l) machineUnit (mul64 machineUnit (pql_Quantity l))
    (pql_PricingFingerprint l) (Some machineUnit) (Some (pql_UnitPriceMinor l)).
Definition labelled_view (l : PersistQuoteLineInput * string) : QuoteLineView :=
  let v := quote_line_view l.1 in
  mk_QuoteLineView (qlv_LineSequence v) (qlv_ProductID v) (qlv_SlotConfigID v) (qlv_CabinetCode v)
    (qlv_SlotCode v) (qlv_SlotIndex v) (qlv_Quantity v) (qlv_UnitPriceMinor v)
    (qlv_LineSubtotalMinor v) (qlv_PricingFingerprint v) l.2.

Section Methods.
Context `{UuidText} {W : Type} (s : Service W) (store : option (QuoteStore W)) (carts : CartResolvers W).
Arguments qs_CreateQuoteWithLines {W}.
Arguments qs_TryReplayQuoteByIdempotency {W}.
Arguments qs_GetQuoteWithLines {W}.
Arguments qs_CreateOrderFromQuoteWithVendSessions {W}.
Arguments qs_TryReplayOrderFromQuote {W}.
Arguments cr_ResolveQuoteSaleLines {W}.
Arguments cr_ResolveQuoteLinesFromMachineSnapshot {W}.

(** *** Resolving the lines (quote_sale_lines.go, quote_sale_lines_snapshot.go) *)

Definition cart_selector (machine : N) (l : QuoteLineInput) : SaleLineSelector :=
  mk_SaleLineSelector machine (qli_ProductID l) (qli_SlotID l) (qli_CabinetCode l) (qli_SlotCode l)
    (qli_SlotIndex l).
Definition resolve_inputs (i : CreateQuoteInput) : list (SaleLineSelector * Z) :=
  map (fun l => (cart_selector (cq_MachineID i) l, at_least_one (qli_Quantity l))) (cq_Lines i).
Definition resolveQuoteLinesFromMachineSnapshot (i : CreateQuoteInput)
    (snap : MachinePricingSnapshotInput) : M W (list ResolvedSaleLine) :=
  let! resolver := need (cr_ResolveQuoteLinesFromMachineSnapshot carts) in
  resolver (cq_MachineID i) (resolve_inputs i) snap.
Definition cart_size (i : CreateQuoteInput) : Z := Z.of_nat (length (cq_Lines i)).
(** The three ways, in order; [None] leaves the cart to the next way. *)
Definition from_snapshot (i : CreateQuoteInput) : M W (option (list ResolvedSaleLine)) :=
  match cq_PricingSnapshot i with
  | None => ret None
  | Some snap =>
      let! now := sv_now W s in
      match validateMachinePricingSnapshotMultiLine now snap (cart_size i) with
      | Err _ => ret None
      | Ok _ =>
          let! r := attempt (resolveQuoteLinesFromMachineSnapshot i snap) in
          match r with
          | Ok lines => ret (Some lines)
          | Err e => if IsAssortmentStaleError e then ret None else fail e
          end
      end
  end.
Definition from_batch (i : CreateQuoteInput) : M W (option (list ResolvedSaleLine)) :=
  match cr_ResolveQuoteSaleLines carts with
  | None => ret None
  | Some batch =>
      let! r := attempt (batch (cq_MachineID i) (resolve_inputs i)) in
      match r with
      | Ok lines => ret (Some lines)
      | Err e => if is_none (cq_PricingSnapshot i) || negb (IsAssortmentStaleError e) then fail e else ret None
      end
  end.
Definition resolveCreateQuoteSaleLines (i : CreateQuoteInput) : M W (list ResolvedSaleLine) :=
  if is_nil (cq_Lines i) then fail ErrInvalidArgument
  else
    let! lines := from_snapshot i in
    match lines with
    | Some lines => ret lines
    | None =>
        let! lines := from_batch i in
        match lines with
        | Some lines => ret lines
        | None => map_each (fun l => resolveCheckoutSaleLine s (cart_selector (cq_MachineID i) l)
                                       (cq_PricingSnapshot i) (at_least_one (qli_Quantity l))) (cq_Lines i)
        end
    end.

(** *** Quotes *)

(** The amounts the machine declares, after validation. *)
Definition machine_priced (i : CreateQuoteInput) (snap : MachinePricingSnapshotInput)
    (lines : list (PersistQuoteLineInput * string)) (serverRef expiresAt : Z) : M W (PersistQuoteInput * list string) :=
  let! now := sv_now W s in
  let! _ := lift (validateMachinePricingSnapshotMultiLine now snap (cart_size i)) in
  let! mirror := (match sv_layoutMirror W s with
                  | Some get =>
                      let! m := attempt (get (cq_MachineID i)) in
                      ret (match m with Ok m => m | Err _ => mk_LocalLayoutMirror 0 RawEmpty 0 end)
                  | None => ret (mk_LocalLayoutMirror 0 RawEmpty 0)
                  end) in
  ret (mk_PersistQuoteInput (cq_MachineID i) (ToUpper (TrimSpace (cq_Currency i)))
         (TrimSpace (cq_PaymentMethod i)) (ps_SubtotalMinor snap) 0 (ps_TotalMinor snap)
         (TrimSpace (cq_IdempotencyKey i)) expiresAt
         (classifyMachineLocalPricingSourceFromMirror snap mirror)
         (if 0 <? ps_LocalPricingRevision snap then Some (ps_LocalPricingRevision snap) else None)
         (Some (machinePricingSnapshotJSON snap)) (Some serverRef)
         (map (fun l => machine_line snap l.1) lines), map snd lines).
Definition server_priced (i : CreateQuoteInput) (lines : list (PersistQuoteLineInput * string))
    (serverRef expiresAt : Z) : PersistQuoteInput * list string :=
  (mk_PersistQuoteInput (cq_MachineID i) (ToUpper (TrimSpace (cq_Currency i)))
     (TrimSpace (cq_PaymentMethod i)) serverRef 0 serverRef (TrimSpace (cq_IdempotencyKey i)) expiresAt
     PricingSourceServerPriced None None (Some serverRef) (map fst lines), map snd lines).
Definition price_quote (i : CreateQuoteInput) (expiresAt : Z) : M W (PersistQuoteInput * list string) :=
  let! resolved := resolveCreateQuoteSaleLines i in
  let lines := server_lines_from 0 (cq_Lines i) resolved in
  let serverRef := server_subtotal resolved in
  match cq_PricingSnapshot i with
  | Some snap => machine_priced i snap lines serverRef expiresAt
  | None => ret (server_priced i lines serverRef expiresAt)
  end.
Definition CreateQuote (i : CreateQuoteInput) : M W CreateQuoteResult :=
  let! _ := lift (validateCreateQuote i) in
  let! store := need store in
  let key := TrimSpace (cq_IdempotencyKey i) in
  let! replay := (if blank key then ret None
                  else qs_TryReplayQuoteByIdempotency store (cq_MachineID i) key) in
  match replay with
  | Some replay => ret (mapPersistQuoteResult replay)
  | None =>
      let! now := sv_now W s in
      let expiresAt := now + (if cq_QuoteTTL i <=? 0 then defaultQuoteTTL else cq_QuoteTTL i) in
      let! priced := price_quote i expiresAt in
      let! persisted := qs_CreateQuoteWithLines store priced.1 in
      ret (quote_result persisted (map labelled_view (combine (pqi_Lines priced.1) priced.2)))
  end.

(** *** Orders from quotes *)

(** The quote as [validateReplayPricingSnapshot] sees an order. *)
Definition quote_as_order (q : PersistQuoteResult) : Order :=
  mk_Order uuid_Nil uuid_Nil "" "" (pqr_SubtotalMinor q) 0 (pqr_PayableMinor q) None false None None false
    false None None (pqr_PricingSource q) None None 0 0 0.
Definition CreateOrderFromQuote (i : CreateOrderFromQuoteInput) : M W CreateOrderFromQuoteResult :=
  let! _ := lift (validateCreateOrderFromQuote i) in
  let! store := need store in
  let key := TrimSpace (cfq_IdempotencyKey i) in
  let! replay := (if blank key then ret None
                  else qs_TryReplayOrderFromQuote store (cfq_MachineID i) key) in
  match replay with
  | Some replay => ret (mapPersistOrderFromQuote replay)
  | None =>
      let! quote := qs_GetQuoteWithLines store (cfq_QuoteID i) in
      guard (negb (pqr_MachineID quote =u cfq_MachineID i)) (ENew "quote machine mismatch") ;;;
      let! _ := lift (validateReplayPricingSnapshot (cfq_PricingSnapshot i) (quote_as_order quote)) in
      guard (negb (String.eqb (ToLower (TrimSpace (pqr_State quote))) "active")) (ENew "quote is not active") ;;;
      let! now := sv_now W s in
      guard (pqr_ExpiresAt quote <? now) (ENew "quote expired") ;;;
      let! created := qs_CreateOrderFromQuoteWithVendSessions store
        (mk_PersistOrderFromQuoteInput quote key (cfq_Simulated i) (TrimSpace (cfq_SimulationRunID i))
           (TrimSpace (cfq_SimulationScenario i)) (cfq_FakeBill i) (cfq_FakeBoard i) (cfq_ClientOrderID i)
           (cfq_CreatedAt i)) in
      ret (mapPersistOrderFromQuote created)
  end.
End Methods.

(** ** The store (checkout_quotes.go) *)

Definition optionalInt64ToPg (v : option Z) : option Z := v.
Definition quote_row (i : PersistQuoteInput) (key source : string) (now : Z) (id : N) : QuoteRow :=
  mk_QuoteRow id (pqi_MachineID i) (pqi_Currency i) (pqi_PaymentMethod i) (pqi_SubtotalMinor i)
    (pqi_DiscountMinor i) (pqi_PayableMinor i) "active" (optionalStringToPgText key) (pqi_ExpiresAt i)
    source (optionalInt64ToPg (pqi_MachinePricingRevision i)) (pqi_MachinePricingSnapshot i)
    (optionalInt64ToPg (pqi_ServerReferencePayableMinor i)) now.
Definition quote_line_row (quote : N) (l : PersistQuoteLineInput) (now : Z) (id : N) : QuoteLineRow :=
  mk_QuoteLineRow id quote (pql_LineSequence l) (pql_ProductID l) (uuidPtrToPgUUID (pql_SlotConfigID l))
    (pql_CabinetCode l) (pql_SlotCode l) (pql_SlotIndex l) (pql_Quantity l) (pql_UnitPriceMinor l)
    (pql_LineSubtotalMinor l) (pql_PricingFingerprint l) (optionalInt64ToPg (pql_MachineUnitPriceMinor l))
    (optionalInt64ToPg (pql_ServerReferenceUnitPriceMinor l)) now.
Definition persisted_line (l : QuoteLineRow) : PersistQuoteLineInput :=
  mk_PersistQuoteLineInput (ql_LineSequence l) (ql_ProductID l) (default uuid_Nil (ql_SlotConfigID l))
    (ql_CabinetCode l) (ql_SlotCode l) (ql_SlotIndex l) (ql_Quantity l) (ql_UnitPriceMinor l)
    (ql_LineSubtotalMinor l) (ql_PricingFingerprint l) None None.
Definition mapPersistQuote (row : QuoteRow) (lines : list QuoteLineRow) (replay : bool) : PersistQuoteResult :=
  mk_PersistQuoteResult (qt_ID row) (qt_MachineID row) (qt_Currency row) (qt_PaymentMethod row)
    (qt_SubtotalMinor row) (qt_DiscountMinor row) (qt_PayableMinor row) (qt_ExpiresAt row) (qt_State row)
    (qt_PricingSource row) (default 0 (qt_ServerReferencePayableMinor row)) (map persisted_line lines) replay.
Definition vend_line (cabinet slot : string) (v : VendRow) : OrderVendLineView :=
  mk_OrderVendLineView (v_ID (vr_Session v)) (vr_LineSequence v) (v_SlotIndex (vr_Session v))
    (v_ProductID (vr_Session v)) cabinet slot (v_State (vr_Session v)).
Definition mapPersistVendLines (vends : list VendRow) : list OrderVendLineView := map (vend_line "" "") vends.

Definition CreateQuoteWithLines (i : PersistQuoteInput) : M world PersistQuoteResult :=
  with_tx (
    let key := TrimSpace (pqi_IdempotencyKey i) in
    let! existing := (if blank key then ret None
      else optional_row (GetCheckoutQuoteByMachineAndIdempotencyKey (pqi_MachineID i)
                           (optionalStringToPgText key))) in
    match existing with
    | Some row =>
        let! lines := ListCheckoutQuoteLines (qt_ID row) in
        ret (Commit (mapPersistQuote row lines true))
    | None =>
        let source := TrimSpace (pqi_PricingSource i) in
        let! source := lift (validatePricingSourceForPersist
                               (if blank source then PricingSourceServerPriced else source)) in
        let! row := InsertCheckoutQuote (quote_row i key source) in
        let! lines := map_each (fun l => InsertCheckoutQuoteLine (quote_line_row (qt_ID row) l)) (pqi_Lines i) in
        ret (Commit (mapPersistQuote row lines false))
    end).
Definition TryReplayQuoteByIdempotency (machineID : N) (idempotencyKey : string)
    : M world (option PersistQuoteResult) :=
  let key := TrimSpace idempotencyKey in
  if blank key || (machineID =u uuid_Nil) then ret None
  else
    let! row := optional_row (GetCheckoutQuoteByMachineAndIdempotencyKey machineID (optionalStringToPgText key)) in
    match row with
    | None => ret None
    | Some row =>
        let! lines := ListCheckoutQuoteLines (qt_ID row) in
        ret (Some (mapPersistQuote row lines true))
    end.
Definition GetQuoteWithLines (quoteID : N) : M world PersistQuoteResult :=
  let! row := GetCheckoutQuoteByID quoteID in
  let! lines := ListCheckoutQuoteLines (qt_ID row) in
  ret (mapPersistQuote row lines false).
Definition TryReplayOrderFromQuote (machineID : N) (idempotencyKey : string)
    : M world (option PersistOrderFromQuoteResult) :=
  let key := TrimSpace idempotencyKey in
  if blank key then ret None
  else
    let! replay := TryReplayCreateOrderWithVend machineID key in
    match replay with
    | None => ret None
    | Some replay =>
        let! vends := ListVendSessionsByOrder (o_ID (cor_Order replay)) in
        ret (Some (mk_PersistOrderFromQuoteResult (cor_Order replay) (mapPersistVendLines vends) true))
    end.

(** One vend session per unit; [lineSeq] counts them through the order. *)
Section Units.
Context (i : PersistOrderFromQuoteInput) (order : N).
Fixpoint insert_units (l : QuoteLineRow) (n : nat) (lineSeq : Z) : M world (list OrderVendLineView * Z) :=
  match n with
  | O => ret ([], lineSeq)
  | S n =>
      let seq := wrap32 (lineSeq + 1) in
      let! v := InsertVendSessionWithLineSequence order (pqr_MachineID (poq_Quote i)) (ql_ProductID l)
                  (ql_SlotIndex l) "pending" (poq_Simulated i) (optionalStringToPgText (poq_SimulationRunID i))
                  (optionalStringToPgText (poq_SimulationScenario i)) seq in
      let! rest := insert_units l n seq in
      ret (vend_line (ql_CabinetCode l) (ql_SlotCode l) v :: rest.1, rest.2)
  end.
Fixpoint insert_lines (lines : list QuoteLineRow) (lineSeq : Z) : M world (list OrderVendLineView) :=
  match lines with
  | [] => ret []
  | l :: lines =>
      let! units := insert_units l (Z.to_nat (at_least_one (ql_Quantity l))) lineSeq in
      let! rest := insert_lines lines units.2 in
      ret (units.1 ++ rest)
  end.
End Units.

Definition order_of_quote (i : PersistOrderFromQuoteInput) (key source : string) (locked : QuoteRow)
    (now : Z) (id : N) : Order :=
  let q := poq_Quote i in
  mk_Order id (pqr_MachineID q) "created" (pqr_Currency q) (pqr_SubtotalMinor q) 0 (pqr_PayableMinor q)
    (optionalStringToPgText key) (poq_Simulated i) (optionalStringToPgText (poq_SimulationRunID i))
    (optionalStringToPgText (poq_SimulationScenario i)) (poq_FakeBill i) (poq_FakeBoard i) None None source
    (qt_MachinePricingRevision locked) (qt_MachinePricingSnapshot locked)
    (default 0 (qt_ServerReferencePayableMinor locked))
    (default now (optionalTimeValueToPgTimestamptz (poq_CreatedAt i))) now.
(** The quote becomes the order. *)
Definition order_from_quote (i : PersistOrderFromQuoteInput) (key : string)
    : M world (tx_end PersistOrderFromQuoteResult) :=
  let quoteID := pqr_QuoteID (poq_Quote i) in
  let! locked := GetCheckoutQuoteByID quoteID in
  guard (negb (String.eqb (ToLower (TrimSpace (qt_State locked))) "active")) (ENew "postgres: quote not active") ;;;
  let! now := time_Now in
  guard (qt_ExpiresAt locked <? now) (ENew "postgres: quote expired") ;;;
  let! source := lift (validatePricingSourceForPersist (qt_PricingSource locked)) in
  let! row := InsertOrder (uuidPtrToPgUUID (poq_ClientOrderID i)) (order_of_quote i key source locked) in
  let! lines := ListCheckoutQuoteLines quoteID in
  let! vendLines := insert_lines i (o_ID row) lines 0 in
  let! _ := MarkCheckoutQuoteConsumed quoteID in
  ret (Commit (mk_PersistOrderFromQuoteResult (mapOrder row) vendLines false)).
(** The order of the key, or a new one. *)
Definition order_of_key (i : PersistOrderFromQuoteInput) (key : string)
    : M world (tx_end PersistOrderFromQuoteResult) :=
  let! existing := optional_row
    (GetOrderByMachineAndIdempotencyKey (pqr_MachineID (poq_Quote i)) (optionalStringToPgText key)) in
  match existing with
  | Some row =>
      let! vends := ListVendSessionsByOrder (o_ID row) in
      ret (Commit (mk_PersistOrderFromQuoteResult (mapOrder row) (mapPersistVendLines vends) true))
  | None => order_from_quote i key
  end.
Definition CreateOrderFromQuoteWithVendSessions (i : PersistOrderFromQuoteInput)
    : M world PersistOrderFromQuoteResult :=
  let key := TrimSpace (poq_IdempotencyKey i) in
  if pqr_QuoteID (poq_Quote i) =u uuid_Nil then fail (ENew "postgres: quote_id required")
  else if blank key then fail (ENew "postgres: idempotency_key required")
  else with_tx (order_of_key i key).

Definition pg_quotes : QuoteStore world :=
  mk_QuoteStore world CreateQuoteWithLines TryReplayQuoteByIdempotency GetQuoteWithLines
    CreateOrderFromQuoteWithVendSessions TryReplayOrderFromQuote.
