(* ===== verification/OfflineSale.v ===== *)
(** * Sales made while the machine was offline

    internal/app/commerce/offline_sale.go: a machine reports a whole cash sale
    as one bundle of JSON; the order is made from the prices the machine sealed
    and the cash confirmed, under keys derived from the key of the bundle. *)

From S2P Require Import Prelude.
From S2P Require Import GoStd.
From S2P Require Import JsonText.
From S2P Require Import Pricing.
From S2P Require Import CommerceTypes.
From S2P Require Import Sanitize.
From S2P Require Import Evidence.
From S2P Require Import Snapshot.
From S2P Require Import Rules.
From S2P Require Import CommerceService.
From S2P Require Import Quotes.
Local Open Scope string_scope.
Local Open Scope list_scope.
Local Open Scope Z_scope.

(** [uuid.Parse] of github.com/google/uuid: a parameter. *)
Class UuidParse := uuid_Parse : string -> option N.

(** ** The bundle *)

Record OfflineSaleWirePayload := mk_OfflineSaleWirePayload {
  ow_OrderID : string; ow_MachineID : string; ow_TransactionID : string;
  ow_CashReceivedMinor : Z; ow_PricingSnapshot : option json; ow_SnapshotID : string;
  ow_PayableTotalMinor : Z; ow_Currency : string }.
Record appCheckoutLine := mk_appCheckoutLine {
  al_SlotCode : string; al_ProductID : string; al_UnitPriceMinor : Z; al_Quantity : Z }.
Record appCheckoutPricingSnapshot := mk_appCheckoutPricingSnapshot {
  as_SnapshotID : string; as_MachineID : string; as_PayableTotalMinor : Z; as_Currency : string;
  as_LocalPricingRevision : Z; as_SlotConfigVersion : Z; as_CapturedAtEpochMs : Z;
  as_Lines : list appCheckoutLine }.
Record OfflineSaleOutboxConfig := mk_OfflineSaleOutboxConfig {
  oc_Topic : string; oc_EventType : string; oc_AggregateType : string }.

(** *** Decoding *)

(** A [json.RawMessage] field: the value as it stands, even null; absent is empty. *)
Definition json_raw (tag : string) (fields : list (string * json)) : option json :=
  last (json_values tag fields).
Definition decode_offline_wire (v : json) : option OfflineSaleWirePayload :=
  let decode fs :=
    order ← json_string "orderId" fs; machine ← json_string "machineId" fs;
    transaction ← json_string "transactionId" fs; cash ← json_int64 "cashReceivedMinor" fs;
    snapshot ← json_string "snapshotId" fs; payable ← json_int64 "payableTotalMinor" fs;
    currency ← json_string "currency" fs;
    Some (mk_OfflineSaleWirePayload order machine transaction cash (json_raw "pricingSnapshot" fs)
            snapshot payable currency) in
  match v with
  | JNull => decode []
  | JObj fs => decode fs
  | _ => None
  end.
Definition decode_checkout_line (v : json) : option appCheckoutLine :=
  let decode fs :=
    slot ← json_string "slotCode" fs; product ← json_string "productId" fs;
    unit_price ← json_int64 "unitPriceMinor" fs; quantity ← json_int64 "quantity" fs;
    Some (mk_appCheckoutLine slot product unit_price quantity) in
  match v with
  | JNull => decode []
  | JObj fs => decode fs
  | _ => None
  end.
Definition store_checkout_lines (acc : list appCheckoutLine) (v : json) : option (list appCheckoutLine) :=
  match v with
  | JNull => Some []
  | JArr l => mapM decode_checkout_line l
  | _ => None
  end.
Definition decode_checkout_snapshot (v : json) : option appCheckoutPricingSnapshot :=
  let decode fs :=
    id ← json_string "snapshotId" fs; machine ← json_string "machineId" fs;
    payable ← json_int64 "payableTotalMinor" fs; currency ← json_string "currency" fs;
    revision ← json_int64 "localPricingRevision" fs; config ← json_int64 "slotConfigVersion" fs;
    captured ← json_int64 "capturedAtEpochMs" fs;
    lines ← json_store store_checkout_lines [] (json_values "lines" fs);
    Some (mk_appCheckoutPricingSnapshot id machine payable currency revision config captured lines) in
  match v with
  | JNull => decode []
  | JObj fs => decode fs
  | _ => None
  end.

(** The error of encoding/json; only its place in the chain matters. *)
Definition json_error : goerr := ENew "json: decoding error".
(** The snapshot may be an object or a string that holds one. *)
Definition snapshot_value (raw : json) : res json :=
  match raw with
  | JStr inner => match json_parse inner with
                  | Some v => Ok v
                  | None => Err (EJoin ErrInvalidArgument (EWrapPre "invalid pricing_snapshot" json_error))
                  end
  | v => Ok v
  end.
Fixpoint lines_have_products (i : Z) (lines : list appCheckoutLine) : res unit :=
  match lines with
  | [] => Ok tt
  | line :: lines =>
      let? _ := guard_err (blank (TrimSpace (al_ProductID line)))
                  (invalid_arg ("pricing_snapshot product_id required at line " +:+ FormatInt i)) in
      lines_have_products (i + 1) lines
  end.
Definition parseOfflineSalePayload (payload : string)
    : res (OfflineSaleWirePayload * appCheckoutPricingSnapshot) :=
  let? _ := guard_err (blank payload) (invalid_arg "offline_sale payload required") in
  match json_parse payload ≫= decode_offline_wire with
  | None => Err (EJoin ErrInvalidArgument (EWrapPre "invalid offline_sale payload" json_error))
  | Some wire =>
      match ow_PricingSnapshot wire with
      | None => Err (invalid_arg "pricing_snapshot required")
      | Some raw =>
          let? v := snapshot_value raw in
          match decode_checkout_snapshot v with
          | None => Err (EJoin ErrInvalidArgument (EWrapPre "invalid pricing_snapshot" json_error))
          | Some snap =>
              let? _ := guard_err (is_nil (as_Lines snap)) (invalid_arg "pricing_snapshot lines required") in
              let? _ := lines_have_products 0 (as_Lines snap) in
              Ok (wire, snap)
          end
      end
  end.

(** ** The prices the machine sealed *)

Section Bundle.
Context `{UuidText} `{UuidParse}.

(** [time.UnixMilli]. *)
Definition UnixMilli (ms : Z) : Z := 62135596800 * Second + ms * Millisecond.
(** Unit price and subtotal of a line; what is missing is derived from the payable total. *)
Definition line_amounts (line : appCheckoutLine) (qty payable n : Z) : Z * Z :=
  let unit_price := if (al_UnitPriceMinor line <=? 0) && (n =? 1) then Z.quot payable qty
                    else al_UnitPriceMinor line in
  if unit_price <=? 0 then
    let lineSubtotal := Z.quot payable n in (Z.quot lineSubtotal qty, lineSubtotal)
  else (unit_price, mul64 unit_price qty).
Definition parsed_product (line : appCheckoutLine) : N :=
  default uuid_Nil (uuid_Parse (TrimSpace (al_ProductID line))).
Definition sealed_line (payable n i : Z) (line : appCheckoutLine) : MachinePricingSnapshotLineInput :=
  let qty := at_least_one (al_Quantity line) in
  let amounts := line_amounts line qty payable n in
  mk_MachinePricingSnapshotLineInput (wrap32 (i + 1)) (parsed_product line) ""
    (TrimSpace (al_SlotCode line)) 0 (wrap32 qty) amounts.1 amounts.2 "".
Fixpoint sealed_lines (payable n i : Z) (lines : list appCheckoutLine)
    : list MachinePricingSnapshotLineInput :=
  match lines with
  | [] => []
  | line :: lines => sealed_line payable n i line :: sealed_lines payable n (i + 1) lines
  end.
Definition machinePricingSnapshotFromAppCheckout (snap : appCheckoutPricingSnapshot) (payable : Z)
    : MachinePricingSnapshotInput :=
  let id := TrimSpace (as_SnapshotID snap) in
  let snapshotID := if blank id
                    then match as_Lines snap with l :: _ => TrimSpace (al_SlotCode l) | [] => id end
                    else id in
  let lines := sealed_lines payable (Z.of_nat (length (as_Lines snap))) 0 (as_Lines snap) in
  mk_MachinePricingSnapshotInput payable 0 payable
    (match lines with l :: _ => pl_UnitPriceMinor l | [] => 0 end) (as_LocalPricingRevision snap)
    snapshotID (if 0 <? as_CapturedAtEpochMs snap then UnixMilli (as_CapturedAtEpochMs snap) else 0)
    snapshotID (as_SlotConfigVersion snap) "" lines.

Definition optionalClientOrderID (raw : string) : N :=
  match uuid_Parse (TrimSpace raw) with
  | Some id => if id =u uuid_Nil then uuid_Nil else id
  | None => uuid_Nil
  end.
Definition resolveOfflineOrderCreatedAt (occurredAt capturedAt : Z) : Z :=
  if negb (IsZero occurredAt) then occurredAt
  else if negb (IsZero capturedAt) then capturedAt
  else 0.
Definition AppCheckoutPricingSnapshotFromPricingInput (i : MachinePricingSnapshotInput) (currency : string)
    : appCheckoutPricingSnapshot :=
  mk_appCheckoutPricingSnapshot (TrimSpace (ps_SnapshotID i)) ""
    (if ps_TotalMinor i <=? 0 then ps_SubtotalMinor i else ps_TotalMinor i) (TrimSpace currency)
    (ps_LocalPricingRevision i) (ps_SlotConfigVersion i) 0
    (map (fun ln => mk_appCheckoutLine (TrimSpace (pl_SlotCode ln)) (uuid_String (pl_ProductID ln))
                      (pl_UnitPriceMinor ln) (pl_Quantity ln)) (ps_Lines i)).

(** ** The order and its cash *)

Section Methods.
Context {W : Type} (s : Service W) (store : option (QuoteStore W)) (carts : CartResolvers W).

Definition line_product (line : appCheckoutLine) : res N :=
  match uuid_Parse (TrimSpace (al_ProductID line)) with
  | Some p => if p =u uuid_Nil then Err (invalid_arg "invalid product_id in pricing_snapshot") else Ok p
  | None => Err (invalid_arg "invalid product_id in pricing_snapshot")
  end.
Definition line_selector (machine product : N) (line : appCheckoutLine) : SaleLineSelector :=
  mk_SaleLineSelector machine product None "" (TrimSpace (al_SlotCode line)) None.
(** One line: an order, under a key of its own. *)
Definition offline_order (machine product : N) (identity : ResolvedSaleLine) (pricing : MachinePricingSnapshotInput)
    (currency key : string) (clientOrderID : N) (createdAt : Z) : CreateOrderInput :=
  mk_CreateOrderInput machine product (Some (sl_SlotConfigID identity)) (sl_CabinetCode identity)
    (sl_SlotCode identity) (Some (sl_SlotIndex identity)) currency 0 0 0 (key +:+ ":offline:create_order")
    false "" "" false false (Some pricing) clientOrderID createdAt.
Definition order_of_one (machine : N) (line : appCheckoutLine) (pricing : MachinePricingSnapshotInput)
    (currency key : string) (clientOrderID : N) (createdAt : Z) : M W N :=
  let! product := lift (line_product line) in
  let! identity := resolveCheckoutSaleLine s (line_selector machine product line) (Some pricing) 1 in
  let! created := CreateOrder s (offline_order machine product identity pricing currency key clientOrderID createdAt) in
  ret (o_ID (cor_Order (cr_Base created))).
(** Several lines: a quote, and an order from it. *)
Definition offline_quote_line (machine : N) (pricing : MachinePricingSnapshotInput) (line : appCheckoutLine)
    : M W QuoteLineInput :=
  let! product := lift (line_product line) in
  let qty := at_least_one (wrap32 (al_Quantity line)) in
  let! identity := resolveCheckoutSaleLine s (line_selector machine product line) (Some pricing) qty in
  ret (mk_QuoteLineInput product (Some (sl_SlotConfigID identity)) (sl_CabinetCode identity)
         (sl_SlotCode identity) (Some (sl_SlotIndex identity)) qty).
Definition order_of_many (machine : N) (lines : list appCheckoutLine) (pricing : MachinePricingSnapshotInput)
    (currency pm key : string) (clientOrderID : N) (createdAt : Z) : M W N :=
  let! quoteLines := map_each (offline_quote_line machine pricing) lines in
  let! quote := CreateQuote s store carts (mk_CreateQuoteInput machine currency pm quoteLines
    (key +:+ ":offline:create_quote") 0 (Some pricing)) in
  let! order := CreateOrderFromQuote s store (mk_CreateOrderFromQuoteInput machine (cqr_QuoteID quote) pm
    (key +:+ ":offline:create_order") false "" "" false false (Some pricing) clientOrderID createdAt) in
  ret (ofq_OrderID order).
Definition payment_method (pm : string) : string :=
  if blank (TrimSpace pm) then "default" else TrimSpace pm.
Definition createOfflineOrderFromSnapshot (machine : N) (snap : appCheckoutPricingSnapshot)
    (pricing : MachinePricingSnapshotInput) (currency paymentMethod key : string) (clientOrderID : N)
    (createdAt : Z) : M W N :=
  match as_Lines snap with
  | [line] => order_of_one machine line pricing currency key clientOrderID createdAt
  | lines => order_of_many machine lines pricing currency (payment_method paymentMethod) key clientOrderID createdAt
  end.

(** The currency and the amounts of the bundle, with the defaults of the code. *)
Definition bundle_currency (wire : OfflineSaleWirePayload) (snap : appCheckoutPricingSnapshot) : string :=
  let c := ToUpper (TrimSpace (ow_Currency wire)) in
  if blank c then ToUpper (TrimSpace (as_Currency snap)) else c.
Definition bundle_payable (wire : OfflineSaleWirePayload) (snap : appCheckoutPricingSnapshot) : Z :=
  if ow_PayableTotalMinor wire <=? 0 then as_PayableTotalMinor snap else ow_PayableTotalMinor wire.
Definition bundle_cash (wire : OfflineSaleWirePayload) (payable : Z) : Z :=
  if ow_CashReceivedMinor wire <=? 0 then payable else ow_CashReceivedMinor wire.
Definition other_machine (machine : N) (raw : string) : bool :=
  match uuid_Parse (TrimSpace raw) with
  | Some mid => negb (mid =u uuid_Nil) && negb (mid =u machine)
  | None => false
  end.
Definition offline_cash (machine order : N) (key : string) (cash payable : Z) (currency : string)
    (outbox : OfflineSaleOutboxConfig) : ConfirmCashPaymentInput :=
  mk_ConfirmCashPaymentInput order machine (key +:+ ":offline:cash") cash payable 0 0 0 0 ""
    "implicit_post_order" None currency [] false "" "" false false (TrimSpace (oc_Topic outbox))
    (TrimSpace (oc_EventType outbox)) (TrimSpace (oc_AggregateType outbox)).
Definition ProcessOfflineSale (machine : N) (idempotencyKey clientEventID payload : string)
    (outbox : OfflineSaleOutboxConfig) (occurredAt : Z) : M W unit :=
  guard (machine =u uuid_Nil) (invalid_arg "machine_id required") ;;;
  let key := TrimSpace idempotencyKey in
  guard (blank key) (invalid_arg "idempotency_key required") ;;;
  guard (blank (TrimSpace clientEventID)) (invalid_arg "client_event_id required") ;;;
  let! bundle := lift (parseOfflineSalePayload payload) in
  let '(wire, snap) := bundle in
  guard (other_machine machine (ow_MachineID wire)) (invalid_arg "machine_id mismatch") ;;;
  let currency := bundle_currency wire snap in
  guard (negb (len currency =? 3)) (invalid_arg "currency must be a 3-letter ISO code") ;;;
  let payable := bundle_payable wire snap in
  guard (payable <=? 0) (invalid_arg "payable_total_minor must be positive") ;;;
  let pricing := machinePricingSnapshotFromAppCheckout snap payable in
  let! order := createOfflineOrderFromSnapshot machine snap pricing currency "cash" key
    (optionalClientOrderID (ow_OrderID wire)) (resolveOfflineOrderCreatedAt occurredAt (ps_CapturedAt pricing)) in
  let! _ := ConfirmCashPayment s
    (offline_cash machine order key (bundle_cash wire payable) payable currency outbox) in
  ret tt.

(** *** A payment session that brings its own snapshot *)

Record MaterializeOrderForPaymentSessionInput := mk_MaterializeInput {
  mo_MachineID : N; mo_PricingSnapshot : MachinePricingSnapshotInput; mo_Currency : string;
  mo_PaymentMethod : string; mo_IdempotencyKey : string }.
Definition MaterializeOrderFromPricingSnapshotInput (machine : N) (pricing : MachinePricingSnapshotInput)
    (snap : appCheckoutPricingSnapshot) (currency paymentMethod key : string) : M W N :=
  createOfflineOrderFromSnapshot machine snap pricing currency (payment_method paymentMethod) key uuid_Nil 0.
Definition MaterializeOrderForPaymentSession (i : MaterializeOrderForPaymentSessionInput) : M W N :=
  let cur := ToUpper (TrimSpace (mo_Currency i)) in
  MaterializeOrderFromPricingSnapshotInput (mo_MachineID i) (mo_PricingSnapshot i)
    (AppCheckoutPricingSnapshotFromPricingInput (mo_PricingSnapshot i) cur) cur (mo_PaymentMethod i)
    (mo_IdempotencyKey i).
End Methods.
End Bundle.
