(* ===== verification/MachineMessages.v ===== *)
(** * The messages of the machine's commerce service, and its errors

    internal/grpcserver: the mapping of errors to gRPC statuses
    (machine_commerce_grpc.go) and the reasons of failures of the database
    (commerce_persistence_log.go): the code of a status decides, in the ledger
    of mutations, whether the machine may try again under its key.
    proto/avf/machine/v1: the requests and answers as the generated code has
    them, the messages they are on the wire, and the parts of
    internal/grpcserver that turn a request into the values of the service:
    parseMachineMutationContext, parseSlotProto, the simulation context, the
    pricing snapshot and the hardware evidence. *)

From S2P Require Import Prelude.
From S2P Require Import GoStd.
From S2P Require Import Protobuf.
From S2P Require Import Pricing.
From S2P Require Import CommerceTypes.
From S2P Require Import Evidence.
From S2P Require Import Rules.
From S2P Require Import PaymentEvents.
From S2P Require Import Db.
From S2P Require Import MachineIdempotency.
From S2P Require Import MachineReplay.
From S2P Require Import OfflineSale.
Local Open Scope string_scope.
Local Open Scope list_scope.
Local Open Scope Z_scope.

(** ** commerce_persistence_log.go *)

Inductive CommerceOperation :=
| OpCreateQuote | OpCreateOrderFromQuote | OpCreateOrder | OpCreatePaymentSession
| OpConfirmCashCheckout | OpConfirmVendSuccess | OpReportVendFailure | OpGenericCommerce.
Definition persistenceReasonForOp (op : CommerceOperation) (suffix : string) : string :=
  match op with
  | OpCreateQuote => "quote_"
  | OpCreateOrderFromQuote | OpCreateOrder => "order_"
  | OpCreatePaymentSession => "payment_session_"
  | OpConfirmCashCheckout => "cash_checkout_"
  | OpConfirmVendSuccess | OpReportVendFailure => "vend_close_"
  | OpGenericCommerce => "commerce_"
  end +:+ suffix.

(** ** The mapping *)

(** The PostgreSQL error of a chain ([errors.As]): its SQLSTATE, and what
    stands for its text: for a violation, the name of the constraint. *)
Fixpoint pg_error (err : goerr) : option (string * string) :=
  match err with
  | EPg code constraint => Some (code, constraint)
  | EJoin a b => match pg_error a with Some e => Some e | None => pg_error b end
  | EWrap e _ | EWrapPre _ e | EOpaque _ e => pg_error e
  | _ => None
  end.
Definition checkConstraintViolationReason (constraintName : string) : string :=
  let c := ToLower (TrimSpace constraintName) in
  if String.eqb c "payments_attempt_seq_check" then "payment_attempt_sequence_invalid"
  else if String.eqb c "cash_allocations_consent_source_check" then "consent_source_invalid"
  else "constraint_violation".
(** [None]: not an error of this mapping. *)
Definition mapCommercePersistenceErrForOp (op : CommerceOperation) (err : goerr) : option goerr :=
  match pg_error err with
  | None => None
  | Some (code, constraint) =>
      if one_of code ["22P02"; "22023"] then
        Some (EStatus Internal (persistenceReasonForOp op "persistence_failed"))
      else if String.eqb code "23505" then
        Some (EStatus FailedPrecondition (persistenceReasonForOp op "conflict"))
      else if String.eqb code "23514" then
        Some (EStatus FailedPrecondition (persistenceReasonForOp op (checkConstraintViolationReason constraint)))
      else if HasPrefix code "08" || String.eqb code "57P03" then
        Some (EStatus Unavailable "commerce_backend_unavailable")
      else None
  end.
(** [status.FromError] finds a status in the chain. *)
Definition is_status (err : goerr) : bool := negb (is_none (status_of err)).
Definition vendHardwareEvidenceRequiredMsg : string := "vend_hardware_evidence_required".
Definition mapCommerceGRPCErrForOp (op : CommerceOperation) (err : goerr) : goerr :=
  let as_ code := EStatus code (err_Error err) in
  if is_status err then err
  else if errors_Is err ErrInvalidArgument then as_ InvalidArgument
  else if errors_Is err ErrNotFound then as_ NotFound
  else if errors_Is err ErrOrgMismatch then as_ PermissionDenied
  else if errors_Is err ErrIllegalTransition then as_ FailedPrecondition
  else if errors_Is err ErrPaymentNotSettled then as_ FailedPrecondition
  else if errors_Is err ErrCancelNotAllowed then as_ FailedPrecondition
  else if errors_Is err ErrNotConfigured then as_ Unavailable
  else if errors_Is err ErrIdempotencyPayloadConflict then as_ CodeAborted
  else if errors_Is err ErrVendEvidenceRequired then EStatus FailedPrecondition vendHardwareEvidenceRequiredMsg
  else if errors_Is err ErrVendEvidenceInvalid then as_ FailedPrecondition
  else
    match mapCommercePersistenceErrForOp op err with
    | Some mapped => mapped
    | None =>
        if Contains (err_Error err) "insufficient stock" then as_ ResourceExhausted else as_ Internal
    end.
Definition mapCommerceGRPCErr : goerr -> goerr := mapCommerceGRPCErrForOp OpGenericCommerce.

(** Errors of the end of a vend that are not failures of the server. *)
Definition mapCommerceVendCloseBusinessErr (err : goerr) : option goerr :=
  let msg := ToLower (err_Error err) in
  if Contains msg "no machine_slot_config" || Contains msg "no machine_slot_state" ||
     Contains msg "no unassigned machine_slot_config"
  then Some (EStatus FailedPrecondition "machine_slot_topology_missing")
  else if Contains msg "insufficient stock" then
    Some (EStatus ResourceExhausted (TrimSpace (err_Error err)))
  else if Contains msg "vend session must be success before inventory" then
    Some (EStatus FailedPrecondition "vend_inventory_precondition")
  else if Contains msg "vend session does not match" then
    Some (EStatus FailedPrecondition "vend_session_mismatch")
  else None.
Definition mapCommerceVendCloseErr (op : CommerceOperation) (err : goerr) : goerr :=
  if is_status err then err
  else
    match mapCommercePersistenceErrForOp op err with
    | Some mapped => mapped
    | None =>
        match mapCommerceVendCloseBusinessErr err with
        | Some mapped => mapped
        | None => mapCommerceGRPCErrForOp op err
        end
    end.

Definition mapCommercePaymentSessionErr (err : goerr) : goerr :=
  let as_ code := EStatus code (err_Error err) in
  let msg := err_Error err in
  if errors_Is err ErrProviderKeyMismatch then as_ InvalidArgument
  else if errors_Is err ErrSandboxProviderInProduction then as_ FailedPrecondition
  else if errors_Is err ErrPaymentProviderRequired then as_ FailedPrecondition
  else if errors_Is err ErrUnknownProvider then as_ InvalidArgument
  else if errors_Is err ErrLiveProviderNotWired then EStatus FailedPrecondition "provider_unavailable"
  else if errors_Is err ErrProviderUnavailable then EStatus FailedPrecondition "provider_unavailable"
  else if errors_Is err ErrInvalidCardSessionProvider then as_ InvalidArgument
  else
    match mapCommercePersistenceErrForOp OpCreatePaymentSession err with
    | Some mapped => mapped
    | None =>
        if Contains msg "momo create failed" || Contains msg "shopeepay create failed" ||
           Contains msg "not allowlisted" || Contains msg "empty provider_reference"
        then EStatus FailedPrecondition "provider_rejected"
        else if Contains msg "momo create:" || Contains msg "shopeepay create:" || Contains msg "timeout"
        then EStatus Unavailable "provider_timeout"
        else mapCommerceGRPCErrForOp OpGenericCommerce err
    end.

(** ** Timestamps *)

(** google.protobuf.Timestamp: seconds since 1970. *)
Record Timestamp := mk_Timestamp { ts_Seconds : Z; ts_Nanos : Z }.
Definition ts_IsValid (t : Timestamp) : bool :=
  (-62135596800 <=? ts_Seconds t) && (ts_Seconds t <=? 253402300799) &&
  (0 <=? ts_Nanos t) && (ts_Nanos t <? Second).
Definition AsTime (t : Timestamp) : Z := (62135596800 + ts_Seconds t) * Second + ts_Nanos t.

(** ** Requests and answers *)

(** A field that may be absent is an option; its getter gives the zero value. *)
Record IdempotencyContext := mk_IdempotencyContext {
  ix_IdempotencyKey : string; ix_ClientEventId : string; ix_ClientCreatedAt : option Timestamp;
  ix_OperatorSessionId : option string }.
Record SlotSelection := mk_SlotSelection {
  sx_SlotId : option string; sx_CabinetCode : string; sx_SlotCode : string; sx_SlotIndex : option Z }.
Record SimulationContext := mk_SimulationContext {
  sc_Simulated : bool; sc_SimulationRunId : string; sc_SimulationScenario : string;
  sc_FakeBill : bool; sc_FakeBoard : bool }.
Record MachinePricingSnapshotLine := mk_SnapshotLineMsg {
  xl_LineSequence : Z; xl_ProductId : string; xl_Slot : option SlotSelection; xl_Quantity : Z;
  xl_UnitPriceMinor : Z; xl_LineSubtotalMinor : Z; xl_PricingSyncState : string }.
Record MachinePricingSnapshot := mk_SnapshotMsg {
  xs_SubtotalMinor : Z; xs_TaxMinor : Z; xs_TotalMinor : Z; xs_UnitPriceMinor : Z;
  xs_LocalPricingRevision : Z; xs_PricingFingerprint : string; xs_CapturedAt : option Timestamp;
  xs_SnapshotId : string; xs_Lines : list (option MachinePricingSnapshotLine);
  xs_SlotConfigVersion : Z; xs_ServerPricingFingerprint : string }.
Record HardwareCommandMsg := mk_HardwareCommandMsg {
  hm_CommandId : string; hm_TxRxDigest : string; hm_RawRef : string }.
Record BillFinalMsg := mk_BillFinalMsg {
  bm_EventId : string; bm_AmountMinor : Z; bm_Currency : string; bm_RawRef : option string }.
Record TcnDispenseMsg := mk_TcnDispenseMsg {
  tm_Slot : string; tm_Result : string; tm_Dropped : bool; tm_Digest : option string;
  tm_RawRef : option string }.
Record VendEvidenceMsg := mk_VendEvidenceMsg {
  em_VendAttemptId : string; em_CorrelationId : string; em_Command : option HardwareCommandMsg;
  em_BillFinal : option BillFinalMsg; em_TcnDispense : option TcnDispenseMsg }.
Record CashAcceptanceEvent := mk_CashAcceptanceMsg {
  am_DeviceEventId : string; am_DenominationMinor : Z; am_CreditSource : string;
  am_AcceptedAt : option Timestamp }.

Record CreateOrderRequest := mk_CreateOrderRequest {
  qo_Context : option IdempotencyContext; qo_MachineId : option string; qo_ProductId : string;
  qo_Slot : option SlotSelection; qo_Currency : string; qo_Simulation : option SimulationContext;
  qo_PricingSnapshot : option MachinePricingSnapshot }.
Record CreateOrderResponse := mk_CreateOrderResponse {
  ao_Replay : bool; ao_OrderId : string; ao_VendSessionId : string; ao_OrderStatus : string;
  ao_VendState : string; ao_SlotId : string; ao_CabinetCode : string; ao_SlotCode : string;
  ao_SlotIndex : Z; ao_SubtotalMinor : Z; ao_TaxMinor : Z; ao_TotalMinor : Z; ao_PriceMinor : Z }.
Record CreatePaymentSessionRequest := mk_CreatePaymentSessionRequest {
  qs_Context : option IdempotencyContext; qs_OrderId : string; qs_Provider : string;
  qs_PaymentState : string; qs_AmountMinor : Z; qs_Currency : string; qs_AttemptSeq : Z;
  qs_SupersedesPaymentId : option string; qs_QuoteId : option string; qs_ClientCheckoutId : option string;
  qs_PricingSnapshot : option MachinePricingSnapshot }.
Record CreatePaymentSessionResponse := mk_CreatePaymentSessionResponse {
  as_Replay : bool; as_PaymentId : string; as_PaymentState : string; as_OutboxEventId : Z;
  as_QrPayloadOrUrl : string; as_MaterializedOrderId : option string }.
Record ConfirmCashPaymentRequest := mk_ConfirmCashPaymentRequest {
  qc_Context : option IdempotencyContext; qc_OrderId : string; qc_Simulation : option SimulationContext;
  qc_GrossAcceptedMinor : Z; qc_AllocatedMinor : Z; qc_PreOrderCreditMinor : Z;
  qc_PostOrderInsertedMinor : Z; qc_ChangeDueMinor : Z; qc_ChangeDispensedMinor : Z;
  qc_ChangeOutcome : string; qc_ConsentSource : string; qc_ConsentedAt : option Timestamp;
  qc_Currency : string; qc_CashAcceptanceEvents : list CashAcceptanceEvent }.
Record ConfirmCashPaymentResponse := mk_ConfirmCashPaymentResponse {
  ac_Replay : bool; ac_PaymentId : string; ac_OrderStatus : string; ac_PaymentState : string }.
Record CancelPaymentSessionRequest := mk_CancelPaymentSessionRequest {
  qx_Context : option IdempotencyContext; qx_OrderId : string; qx_Reason : string; qx_PaymentId : string }.
Record CancelPaymentSessionResponse := mk_CancelPaymentSessionResponse {
  ax_Replay : bool; ax_OrderId : string; ax_OrderStatus : string; ax_PaymentId : string;
  ax_PaymentState : string }.
Record StartVendRequest := mk_StartVendRequest {
  qv_Context : option IdempotencyContext; qv_OrderId : string; qv_SlotIndex : Z; qv_LineSequence : Z }.
Record StartVendResponse := mk_StartVendResponse {
  avr_Replay : bool; avr_VendState : string; avr_SlotIndex : Z }.
(** ReportVendSuccessRequest is the same without the line. *)
Record ConfirmVendSuccessRequest := mk_ConfirmVendSuccessRequest {
  qy_Context : option IdempotencyContext; qy_OrderId : string; qy_SlotIndex : Z;
  qy_CorrelationId : option string; qy_Evidence : option VendEvidenceMsg; qy_LineSequence : Z }.
(** ReportVendSuccessResponse and ConfirmVendSuccessResponse. *)
Record VendSuccessResponse := mk_VendSuccessResponse {
  ay_Replay : bool; ay_InventoryReplay : bool; ay_OrderId : string; ay_OrderStatus : string;
  ay_VendState : string }.
Record ReportVendFailureRequest := mk_ReportVendFailureRequest {
  qf_Context : option IdempotencyContext; qf_OrderId : string; qf_SlotIndex : Z;
  qf_FailureReason : string; qf_CorrelationId : option string; qf_Evidence : option VendEvidenceMsg;
  qf_LineSequence : Z }.
Record ReportVendFailureResponse := mk_ReportVendFailureResponse {
  af_Replay : bool; af_OrderId : string; af_OrderStatus : string; af_VendState : string;
  af_LocalCashRefundRequired : bool; af_RefundRequired : bool }.
(** CancelOrderRequest and MarkOrderUnknownRequest, and their answers. *)
Record CloseOrderRequest := mk_CloseOrderRequest {
  qz_Context : option IdempotencyContext; qz_OrderId : string; qz_Reason : string }.
Record CloseOrderResponse := mk_CloseOrderResponse {
  az_Replay : bool; az_OrderId : string; az_OrderStatus : string }.

(** ** On the wire *)

Definition opt_message {A} (f : A -> pvalue) (o : option A) : pvalue :=
  match o with Some a => f a | None => PNil end.
Definition message (t : string) (fs : list (string * pvalue)) : pvalue := PMessage (machine_v1 t) fs.
Definition ts_value (t : Timestamp) : pvalue :=
  PMessage "google.protobuf.Timestamp" [("seconds", PInt (ts_Seconds t)); ("nanos", PInt (ts_Nanos t))].
Definition context_value (c : IdempotencyContext) : pvalue :=
  message "IdempotencyContext"
    [("idempotency_key", PString (ix_IdempotencyKey c)); ("client_event_id", PString (ix_ClientEventId c));
     ("client_created_at", opt_message ts_value (ix_ClientCreatedAt c));
     ("operator_session_id", POptString (ix_OperatorSessionId c))].
Definition simulation_value (s : SimulationContext) : pvalue :=
  message "SimulationContext"
    [("simulated", PBool (sc_Simulated s)); ("simulation_run_id", PString (sc_SimulationRunId s));
     ("simulation_scenario", PString (sc_SimulationScenario s)); ("fake_bill", PBool (sc_FakeBill s));
     ("fake_board", PBool (sc_FakeBoard s))].
Definition acceptance_value (a : CashAcceptanceEvent) : pvalue :=
  message "CashAcceptanceEvent"
    [("device_event_id", PString (am_DeviceEventId a)); ("denomination_minor", PInt (am_DenominationMinor a));
     ("credit_source", PString (am_CreditSource a)); ("accepted_at", opt_message ts_value (am_AcceptedAt a))].
Definition evidence_value (e : VendEvidenceMsg) : pvalue :=
  message "VendHardwareEvidence"
    [("vend_attempt_id", PString (em_VendAttemptId e)); ("correlation_id", PString (em_CorrelationId e));
     ("command", opt_message (fun c => message "HardwareCommandRef"
        [("command_id", PString (hm_CommandId c)); ("tx_rx_digest", PString (hm_TxRxDigest c));
         ("raw_ref", PString (hm_RawRef c))]) (em_Command e));
     ("bill_final", opt_message (fun b => message "BillFinalRecord"
        [("event_id", PString (bm_EventId b)); ("amount_minor", PInt (bm_AmountMinor b));
         ("currency", PString (bm_Currency b)); ("raw_ref", POptString (bm_RawRef b))]) (em_BillFinal e));
     ("tcn_dispense", opt_message (fun t => message "TcnDispenseRecord"
        [("slot", PString (tm_Slot t)); ("result", PString (tm_Result t)); ("dropped", PBool (tm_Dropped t));
         ("digest", POptString (tm_Digest t)); ("raw_ref", POptString (tm_RawRef t))]) (em_TcnDispense e))].

Definition cash_proto (r : ConfirmCashPaymentRequest) : proto :=
  mk_proto (machine_v1 "ConfirmCashPaymentRequest")
    [("context", opt_message context_value (qc_Context r)); ("order_id", PString (qc_OrderId r));
     ("simulation", opt_message simulation_value (qc_Simulation r));
     ("gross_accepted_minor", PInt (qc_GrossAcceptedMinor r)); ("allocated_minor", PInt (qc_AllocatedMinor r));
     ("pre_order_credit_minor", PInt (qc_PreOrderCreditMinor r));
     ("post_order_inserted_minor", PInt (qc_PostOrderInsertedMinor r));
     ("change_due_minor", PInt (qc_ChangeDueMinor r)); ("change_dispensed_minor", PInt (qc_ChangeDispensedMinor r));
     ("change_outcome", PString (qc_ChangeOutcome r)); ("consent_source", PString (qc_ConsentSource r));
     ("consented_at", opt_message ts_value (qc_ConsentedAt r)); ("currency", PString (qc_Currency r));
     ("cash_acceptance_events", PRepeated (map acceptance_value (qc_CashAcceptanceEvents r)))].
Definition cash_answer (a : ConfirmCashPaymentResponse) : proto :=
  mk_proto (machine_v1 "ConfirmCashPaymentResponse")
    [("replay", PBool (ac_Replay a)); ("payment_id", PString (ac_PaymentId a));
     ("order_status", PString (ac_OrderStatus a)); ("payment_state", PString (ac_PaymentState a))].
Definition start_vend_proto (r : StartVendRequest) : proto :=
  mk_proto (machine_v1 "StartVendRequest")
    [("context", opt_message context_value (qv_Context r)); ("order_id", PString (qv_OrderId r));
     ("slot_index", PInt (qv_SlotIndex r)); ("line_sequence", PInt (qv_LineSequence r))].
Definition start_vend_answer (a : StartVendResponse) : proto :=
  mk_proto (machine_v1 "StartVendResponse")
    [("replay", PBool (avr_Replay a)); ("vend_state", PString (avr_VendState a)); ("slot_index", PInt (avr_SlotIndex a))].
Definition vend_success_proto (r : ConfirmVendSuccessRequest) : proto :=
  mk_proto (machine_v1 "ConfirmVendSuccessRequest")
    [("context", opt_message context_value (qy_Context r)); ("order_id", PString (qy_OrderId r));
     ("slot_index", PInt (qy_SlotIndex r)); ("correlation_id", POptString (qy_CorrelationId r));
     ("evidence", opt_message evidence_value (qy_Evidence r)); ("line_sequence", PInt (qy_LineSequence r))].
Definition vend_success_answer (a : VendSuccessResponse) : proto :=
  mk_proto (machine_v1 "ConfirmVendSuccessResponse")
    [("replay", PBool (ay_Replay a)); ("inventory_replay", PBool (ay_InventoryReplay a));
     ("order_id", PString (ay_OrderId a)); ("order_status", PString (ay_OrderStatus a));
     ("vend_state", PString (ay_VendState a))].
Definition vend_failure_proto (r : ReportVendFailureRequest) : proto :=
  mk_proto (machine_v1 "ReportVendFailureRequest")
    [("context", opt_message context_value (qf_Context r)); ("order_id", PString (qf_OrderId r));
     ("slot_index", PInt (qf_SlotIndex r)); ("failure_reason", PString (qf_FailureReason r));
     ("correlation_id", POptString (qf_CorrelationId r));
     ("evidence", opt_message evidence_value (qf_Evidence r)); ("line_sequence", PInt (qf_LineSequence r))].
Definition vend_failure_answer (a : ReportVendFailureResponse) : proto :=
  mk_proto (machine_v1 "ReportVendFailureResponse")
    [("replay", PBool (af_Replay a)); ("order_id", PString (af_OrderId a));
     ("order_status", PString (af_OrderStatus a)); ("vend_state", PString (af_VendState a));
     ("local_cash_refund_required", PBool (af_LocalCashRefundRequired a));
     ("refund_required", PBool (af_RefundRequired a))].

Definition slot_value (sel : SlotSelection) : pvalue :=
  message "SlotSelection"
    [("slot_id", POptString (sx_SlotId sel)); ("cabinet_code", PString (sx_CabinetCode sel));
     ("slot_code", PString (sx_SlotCode sel));
     ("slot_index", match sx_SlotIndex sel with Some i => PInt i | None => PNil end)].
Definition snapshot_value (x : MachinePricingSnapshot) : pvalue :=
  message "MachinePricingSnapshot"
    [("subtotal_minor", PInt (xs_SubtotalMinor x)); ("tax_minor", PInt (xs_TaxMinor x));
     ("total_minor", PInt (xs_TotalMinor x)); ("unit_price_minor", PInt (xs_UnitPriceMinor x));
     ("local_pricing_revision", PInt (xs_LocalPricingRevision x));
     ("pricing_fingerprint", PString (xs_PricingFingerprint x));
     ("captured_at", opt_message ts_value (xs_CapturedAt x)); ("snapshot_id", PString (xs_SnapshotId x));
     ("lines", PRepeated (map (opt_message (fun l => message "MachinePricingSnapshotLine"
        [("line_sequence", PInt (xl_LineSequence l)); ("product_id", PString (xl_ProductId l));
         ("slot", opt_message slot_value (xl_Slot l)); ("quantity", PInt (xl_Quantity l));
         ("unit_price_minor", PInt (xl_UnitPriceMinor l)); ("line_subtotal_minor", PInt (xl_LineSubtotalMinor l));
         ("pricing_sync_state", PString (xl_PricingSyncState l))])) (xs_Lines x)));
     ("slot_config_version", PInt (xs_SlotConfigVersion x));
     ("server_pricing_fingerprint", PString (xs_ServerPricingFingerprint x))].
Definition create_order_proto (r : CreateOrderRequest) : proto :=
  mk_proto (machine_v1 "CreateOrderRequest")
    [("context", opt_message context_value (qo_Context r)); ("machine_id", POptString (qo_MachineId r));
     ("product_id", PString (qo_ProductId r)); ("slot", opt_message slot_value (qo_Slot r));
     ("currency", PString (qo_Currency r)); ("simulation", opt_message simulation_value (qo_Simulation r));
     ("pricing_snapshot", opt_message snapshot_value (qo_PricingSnapshot r))].
Definition create_order_answer (a : CreateOrderResponse) : proto :=
  mk_proto (machine_v1 "CreateOrderResponse")
    [("replay", PBool (ao_Replay a)); ("order_id", PString (ao_OrderId a));
     ("vend_session_id", PString (ao_VendSessionId a)); ("order_status", PString (ao_OrderStatus a));
     ("vend_state", PString (ao_VendState a)); ("slot_id", PString (ao_SlotId a));
     ("cabinet_code", PString (ao_CabinetCode a)); ("slot_code", PString (ao_SlotCode a));
     ("slot_index", PInt (ao_SlotIndex a)); ("subtotal_minor", PInt (ao_SubtotalMinor a));
     ("tax_minor", PInt (ao_TaxMinor a)); ("total_minor", PInt (ao_TotalMinor a));
     ("price_minor", PInt (ao_PriceMinor a))].
Definition session_proto (r : CreatePaymentSessionRequest) : proto :=
  mk_proto (machine_v1 "CreatePaymentSessionRequest")
    [("context", opt_message context_value (qs_Context r)); ("order_id", PString (qs_OrderId r));
     ("provider", PString (qs_Provider r)); ("payment_state", PString (qs_PaymentState r));
     ("amount_minor", PInt (qs_AmountMinor r)); ("currency", PString (qs_Currency r));
     ("attempt_seq", PInt (qs_AttemptSeq r)); ("supersedes_payment_id", POptString (qs_SupersedesPaymentId r));
     ("quote_id", POptString (qs_QuoteId r)); ("client_checkout_id", POptString (qs_ClientCheckoutId r));
     ("pricing_snapshot", opt_message snapshot_value (qs_PricingSnapshot r))].
Definition session_answer (a : CreatePaymentSessionResponse) : proto :=
  mk_proto (machine_v1 "CreatePaymentSessionResponse")
    [("replay", PBool (as_Replay a)); ("payment_id", PString (as_PaymentId a));
     ("payment_state", PString (as_PaymentState a)); ("outbox_event_id", PInt (as_OutboxEventId a));
     ("qr_payload_or_url", PString (as_QrPayloadOrUrl a));
     ("materialized_order_id", POptString (as_MaterializedOrderId a))].
Definition cancel_session_proto (r : CancelPaymentSessionRequest) : proto :=
  mk_proto (machine_v1 "CancelPaymentSessionRequest")
    [("context", opt_message context_value (qx_Context r)); ("order_id", PString (qx_OrderId r));
     ("reason", PString (qx_Reason r)); ("payment_id", PString (qx_PaymentId r))].
Definition cancel_session_answer (a : CancelPaymentSessionResponse) : proto :=
  mk_proto (machine_v1 "CancelPaymentSessionResponse")
    [("replay", PBool (ax_Replay a)); ("order_id", PString (ax_OrderId a));
     ("order_status", PString (ax_OrderStatus a)); ("payment_id", PString (ax_PaymentId a));
     ("payment_state", PString (ax_PaymentState a))].
(** [t] is CancelOrder or MarkOrderUnknown. *)
Definition close_proto (t : string) (r : CloseOrderRequest) : proto :=
  mk_proto (machine_v1 (t +:+ "Request"))
    [("context", opt_message context_value (qz_Context r)); ("order_id", PString (qz_OrderId r));
     ("reason", PString (qz_Reason r))].
Definition close_answer (t : string) (a : CloseOrderResponse) : proto :=
  mk_proto (machine_v1 (t +:+ "Response"))
    [("replay", PBool (az_Replay a)); ("order_id", PString (az_OrderId a)); ("order_status", PString (az_OrderStatus a))].
Definition report_success_proto (r : ConfirmVendSuccessRequest) : proto :=
  mk_proto (machine_v1 "ReportVendSuccessRequest")
    [("context", opt_message context_value (qy_Context r)); ("order_id", PString (qy_OrderId r));
     ("slot_index", PInt (qy_SlotIndex r)); ("correlation_id", POptString (qy_CorrelationId r));
     ("evidence", opt_message evidence_value (qy_Evidence r))].
Definition report_success_answer (a : VendSuccessResponse) : proto :=
  mk_proto (machine_v1 "ReportVendSuccessResponse") (pm_fields (vend_success_answer a)).

(** ** machine_grpc_mutation_context.go *)

Section Parsing.
Context `{UuidText} `{UuidParse}.

Record machineMutationContext := mk_machineMutationContext {
  mm_IdempotencyKey : string; mm_ClientEventID : string; mm_ClientCreatedAt : Z;
  mm_OperatorSessionID : option N }.

(** [md.Get]: the values under a name, whatever the case it is asked in. *)
Definition md_Get (md : list (string * list string)) (key : string) : list string :=
  match List.find (fun e => String.eqb e.1 (ToLower key)) md with Some e => e.2 | None => [] end.
Definition firstMetadata (md : list (string * list string)) (keys : list string) : string :=
  match List.find (fun v => negb (blank (TrimSpace v))) (concat (map (md_Get md) keys)) with
  | Some v => TrimSpace v
  | None => ""
  end.
(** An id that has to be one, if it is given at all. *)
Definition optional_id (raw : string) (e : goerr) : res (option N) :=
  if blank (TrimSpace raw) then Ok None
  else match uuid_Parse (TrimSpace raw) with
       | Some u => if u =u uuid_Nil then Err e else Ok (Some u)
       | None => Err e
       end.
Definition invalid (msg : string) : goerr := EStatus InvalidArgument msg.
Definition parseMachineMutationContext (ctx : CallContext) (protoCtx : option IdempotencyContext)
    : res machineMutationContext :=
  match protoCtx with
  | None => Err (invalid "context is required")
  | Some c =>
      let metaKey := TrimSpace (firstMetadata (cx_metadata ctx)
                       ["x-idempotency-key"; "idempotency-key"; "x-idempotencykey"]) in
      let bodyKey := TrimSpace (ix_IdempotencyKey c) in
      let? _ := guard_err (negb (blank metaKey) && negb (blank bodyKey) && negb (String.eqb metaKey bodyKey))
                  (invalid "idempotency_key mismatch between metadata and body") in
      let idem := if blank metaKey then bodyKey else metaKey in
      let? _ := guard_err (blank idem) (invalid "idempotency_key required") in
      let ce := TrimSpace (ix_ClientEventId c) in
      let? _ := guard_err (blank ce) (invalid "client_event_id required") in
      let? t := (match ix_ClientCreatedAt c with
                 | Some ts =>
                     if ts_IsValid ts then Ok (AsTime ts)
                     else match cx_offlineReplayOccurredAt ctx with
                          | Some t => Ok t
                          | None => Err (invalid "client_created_at required")
                          end
                 | None => match cx_offlineReplayOccurredAt ctx with
                           | Some t => Ok t
                           | None => Err (invalid "client_created_at required")
                           end
                 end) in
      let? sid := optional_id (default "" (ix_OperatorSessionId c)) (invalid "invalid operator_session_id") in
      Ok (mk_machineMutationContext idem ce t sid)
  end.

(** ** Slots, simulation and snapshots *)

Definition parseSlotProto (sel : option SlotSelection) : res (option N * string * string * option Z) :=
  match sel with
  | None => Err (invalid "slot selection required")
  | Some sel =>
      let cab := TrimSpace (sx_CabinetCode sel) in
      let slot := TrimSpace (sx_SlotCode sel) in
      let? slotID := optional_id (default "" (sx_SlotId sel)) (invalid "invalid slot_id") in
      let? _ := guard_err (match sx_SlotIndex sel with Some i => i <? 0 | None => false end)
                  (invalid "slot_index must be non-negative") in
      let? _ := guard_err (is_none slotID && negb (negb (blank cab) && negb (blank slot)) && is_none (sx_SlotIndex sel))
                  (invalid "set slot_id, cabinet_code+slot_code, or slot_index") in
      Ok (slotID, cab, slot, sx_SlotIndex sel)
  end.

Record simulationMeta := mk_simulationMeta {
  sm_Simulated : bool; sm_SimulationRunID : string; sm_SimulationScenario : string;
  sm_FakeBill : bool; sm_FakeBoard : bool }.
Definition parseSimulationContext (sim : option SimulationContext) : simulationMeta :=
  match sim with
  | None => mk_simulationMeta false "" "" false false
  | Some s => mk_simulationMeta (sc_Simulated s) (TrimSpace (sc_SimulationRunId s))
                (TrimSpace (sc_SimulationScenario s)) (sc_FakeBill s) (sc_FakeBoard s)
  end.
Definition simulationMetaFromOrder (simulated : bool) (runID scenario : option string)
    (fakeBill fakeBoard : bool) : simulationMeta :=
  mk_simulationMeta simulated (TrimSpace (default "" runID)) (TrimSpace (default "" scenario)) fakeBill fakeBoard.
(** The machine of the test bench, by its text; [allow] is the value of
    ALLOW_SIMULATED_COMMERCE. *)
Definition simulationTestMachineID : string := "019ec0d7-0a68-7bb0-ace0-f1d4dd3b0054".
Definition validateSimulationCommerce (allow : string) (machineID : N) (meta : simulationMeta)
    (appEnv : string) : res unit :=
  if negb (sm_Simulated meta) then Ok tt
  else if EqualFold (TrimSpace allow) "true" then Ok tt
  else if negb (String.eqb appEnv "production") then Ok tt
  else if String.eqb (uuid_String machineID) simulationTestMachineID then Ok tt
  else Err (EStatus PermissionDenied "simulated commerce not allowed for this machine").

(** offline_sale_pricing.go: [machinePricingSnapshotFromProto]. *)
Definition snapshot_line (ln : MachinePricingSnapshotLine) : res MachinePricingSnapshotLineInput :=
  let bad := invalid_arg "pricing_snapshot line product_id invalid" in
  match uuid_Parse (TrimSpace (xl_ProductId ln)) with
  | None => Err bad
  | Some productID =>
      let? _ := guard_err (productID =u uuid_Nil) bad in
      let '(cab, sc, idx) := (match xl_Slot ln with
        | None => ("", "", 0)
        | Some s => (TrimSpace (sx_CabinetCode s), TrimSpace (sx_SlotCode s), default 0 (sx_SlotIndex s))
        end) in
      Ok (mk_MachinePricingSnapshotLineInput (xl_LineSequence ln) productID cab sc idx (xl_Quantity ln)
            (xl_UnitPriceMinor ln) (xl_LineSubtotalMinor ln) (TrimSpace (xl_PricingSyncState ln)))
  end.
Fixpoint snapshot_lines (lines : list (option MachinePricingSnapshotLine))
    : res (list MachinePricingSnapshotLineInput) :=
  match lines with
  | [] => Ok []
  | None :: lines => snapshot_lines lines
  | Some ln :: lines =>
      let? l := snapshot_line ln in let? ls := snapshot_lines lines in Ok (l :: ls)
  end.
Definition MachinePricingSnapshotFromProto (snap : option MachinePricingSnapshot) : res MachinePricingSnapshotInput :=
  match snap with
  | None => Err (invalid_arg "pricing_snapshot is required")
  | Some s =>
      let? lines := snapshot_lines (xs_Lines s) in
      Ok (mk_MachinePricingSnapshotInput (xs_SubtotalMinor s) (xs_TaxMinor s) (xs_TotalMinor s)
            (xs_UnitPriceMinor s) (xs_LocalPricingRevision s) (TrimSpace (xs_PricingFingerprint s))
            (match xs_CapturedAt s with Some t => if ts_IsValid t then AsTime t else 0 | None => 0 end)
            (TrimSpace (xs_SnapshotId s)) (xs_SlotConfigVersion s) (TrimSpace (xs_ServerPricingFingerprint s)) lines)
  end.

(** ** machine_commerce_evidence.go *)

Definition parsed_or_nil (raw : string) : res N :=
  match optional_id raw ErrVendEvidenceInvalid with
  | Ok o => Ok (default uuid_Nil o)
  | Err e => Err e
  end.
Definition mapProtoVendHardwareEvidence (ev : option VendEvidenceMsg) (legacyCorr : option N)
    : res VendHardwareEvidence :=
  match ev with
  | None => Err ErrVendEvidenceRequired
  | Some ev =>
      let? attempt := parsed_or_nil (em_VendAttemptId ev) in
      let corrStr := TrimSpace (em_CorrelationId ev) in
      let corrStr := match legacyCorr with
                     | Some c => if blank corrStr then uuid_String c else corrStr
                     | None => corrStr
                     end in
      let? corr := (if blank corrStr then Ok uuid_Nil
                    else match uuid_Parse corrStr with
                         | Some u => if u =u uuid_Nil then Err ErrVendEvidenceInvalid else Ok u
                         | None => Err ErrVendEvidenceInvalid
                         end) in
      Ok (mk_VendHardwareEvidence attempt corr
        (match em_Command ev with
         | Some c => mk_HardwareCommandRef (TrimSpace (hm_CommandId c)) (TrimSpace (hm_TxRxDigest c)) (TrimSpace (hm_RawRef c))
         | None => mk_HardwareCommandRef "" "" ""
         end)
        (match em_BillFinal ev with
         | Some b => Some (mk_BillFinalRecord (TrimSpace (bm_EventId b)) (bm_AmountMinor b) (TrimSpace (bm_Currency b))
                             (TrimSpace (default "" (bm_RawRef b))))
         | None => None
         end)
        (match em_TcnDispense ev with
         | Some t => mk_TcnDispenseRecord (TrimSpace (tm_Slot t)) (TrimSpace (tm_Result t)) (tm_Dropped t)
                       (TrimSpace (default "" (tm_Digest t))) (TrimSpace (default "" (tm_RawRef t)))
         | None => mk_TcnDispenseRecord "" "" false "" ""
         end))
  end.
(** [Err] when evidence is required; otherwise it counts as not verified. *)
Definition doubted (requireEvidence : bool) (e : goerr) : res (option VendHardwareEvidence * string) :=
  if requireEvidence then Err e else Ok (None, VerificationHardwareUnverified).
Definition resolveVendEvidenceFromRequest (ev : option VendEvidenceMsg) (legacyCorr : option N)
    (cashFlow requireEvidence requireSuccessEvidence : bool) (authorizedAmountMinor : Z)
    : res (option VendHardwareEvidence * string) :=
  match ev with
  | None => doubted requireEvidence ErrVendEvidenceRequired
  | Some _ =>
      match mapProtoVendHardwareEvidence ev legacyCorr with
      | Err e => doubted requireEvidence e
      | Ok mapped =>
          match Validate (Some mapped) cashFlow requireSuccessEvidence with
          | Err e => doubted requireEvidence e
          | Ok _ =>
              match ev_BillFinal mapped with
              | Some bill =>
                  if cashFlow && (0 <? authorizedAmountMinor) && negb (bf_AmountMinor bill =? authorizedAmountMinor)
                  then doubted requireEvidence (evidence_invalid
                         ("bill_final.amount_minor " +:+ FormatInt (bf_AmountMinor bill) +:+
                          " does not match authorized " +:+ FormatInt authorizedAmountMinor))
                  else Ok (Some mapped, VerificationVerified)
              | None => Ok (Some mapped, VerificationVerified)
              end
          end
      end
  end.
End Parsing.
