(* ===== verification/MachineCommerce.v ===== *)
(** * The machine's commerce service

    internal/grpcserver/machine_commerce_grpc.go, machine_gate.go and
    commerce_simulation_grpc.go: what each method a machine calls checks and
    does, over the commerce service and the store.  A nil pointer that the
    code does not check is [nil_deref]. *)

From S2P Require Import Prelude.
From S2P Require Import GoStd.
From S2P Require Import Protobuf.
From S2P Require Import Pricing.
From S2P Require Import CommerceTypes.
From S2P Require Import Sanitize.
From S2P Require Import Evidence.
From S2P Require Import Snapshot.
From S2P Require Import Rules.
From S2P Require Import CommerceService.
From S2P Require Import Db.
From S2P Require Import Queries.
From S2P Require Import MachineIdempotency.
From S2P Require Import MachineReplay.
From S2P Require Import PgCommerce.
From S2P Require Import Quotes.
From S2P Require Import OfflineSale.
From S2P Require Import MachineMessages.
Local Open Scope string_scope.
Local Open Scope list_scope.
Local Open Scope Z_scope.

(** ** Statements *)

(** fleet.sql *)
Definition GetMachineCredentialGate (machine : N) : M world MachineGateRow :=
  stmt (select_one (fun d => List.find (fun g => mg_MachineID g =u machine) (d_gates d))).
(** commerce_reconcile_repository.go: the first correlation of a vend stays. *)
Definition vend_touched (correlation : N) (v : VendRow) : VendRow :=
  mk_VendRow (vr_Session v) (vr_LineSequence v) (vr_FailureReason v) (vr_StartedAt v) (vr_CompletedAt v)
    (vr_VerificationStatus v)
    (match vr_CorrelationID v with Some c => Some c | None => Some correlation end).
Definition TouchVendSessionCorrelation (order : N) (slot : Z) (correlation : N) : M world unit :=
  if correlation =u uuid_Nil then ret tt
  else stmt (fun _ _ d =>
    Ok (Some tt, set_vends (update_where (by_slot order slot) (vend_touched correlation)) d)).

(** ** The server *)

Record CommerceConfig := mk_CommerceConfig {
  cg_MachineOrderCheckoutMaxAge : Z;
  cg_PaymentOutboxTopic : string; cg_PaymentOutboxEventType : string; cg_PaymentOutboxAggregateType : string;
  cg_VendOutboxTopic : string; cg_VendOutboxEventTypeSucceeded : string; cg_VendOutboxEventTypeFailed : string;
  cg_VendOutboxEventTypeReconciliation : string; cg_VendOutboxAggregateType : string;
  cg_RequireVendHardwareEvidence : bool; cg_RequireVendHardwareEvidenceMachineIDs : list N;
  cg_AppEnv : string }.
(** What the commerce methods read of MachinePaymentMethodsView. *)
Record PaymentMethodsView := mk_PaymentMethodsView { pm_CashEnabled : bool; pm_QRCardEnabled : bool }.
(** [dp_store]: there is a store; its operations are those of PostgreSQL.  The
    payment methods of a machine and its external code are asked for elsewhere. *)
Record MachineGRPCServicesDeps := mk_MachineDeps {
  dp_Commerce : option (Service world);
  dp_quotes : option (QuoteStore world); dp_carts : CartResolvers world;
  dp_store : bool;
  dp_Config : option CommerceConfig;
  dp_EnterpriseAudit : option (AuditRecord -> M world unit);
  dp_machinePaymentMethods : N -> M world PaymentMethodsView;
  dp_machineExternalCode : N -> M world string;
  dp_AllowSimulatedCommerce : string }.

Definition nil_deref : goerr := ENew "runtime error: invalid memory address or nil pointer dereference".
Definition permission {A} (msg : string) : M world A := fail (EStatus PermissionDenied msg).
Definition bad_request {A} (msg : string) : M world A := fail (invalid msg).
(** [if err != nil { return nil, f(err) }] *)
Definition mapping {A} (f : goerr -> goerr) (m : M world A) : M world A :=
  let! r := attempt m in match r with Ok a => ret a | Err e => fail (f e) end.

Definition evaluateMachineRuntimeInventoryGate (status : string) (credentialVersion : Z) (revoked : bool)
    (claims : MachineAccessClaims) : res unit :=
  let st := ToLower (TrimSpace status) in
  if revoked then Err (EStatus Unauthenticated "machine credentials revoked")
  else if EqualFold (TrimSpace status) "retired" || EqualFold (TrimSpace status) "decommissioned"
  then Err (EStatus PermissionDenied "machine retired")
  else if negb (credentialVersion =? mac_CredentialVersion claims)
  then Err (EStatus Unauthenticated "machine credential version mismatch")
  else if one_of st ["online"; "offline"] then Ok tt
  else Err (EStatus PermissionDenied "machine not operational for inventory").
Definition machineRuntimeInventoryGate (ctx : CallContext) (claims : MachineAccessClaims) : M world unit :=
  match cx_gate ctx with
  | Some s => lift (evaluateMachineRuntimeInventoryGate (gs_status s) (gs_credentialVersion s)
                      (gs_credentialRevoked s) claims)
  | None =>
      let! row := attempt (GetMachineCredentialGate (mac_MachineID claims)) in
      match row with
      | Err _ => fail (EStatus NotFound "machine not found")
      | Ok row => lift (evaluateMachineRuntimeInventoryGate (mg_Status row) (mg_CredentialVersion row)
                          (negb (is_none (mg_CredentialRevokedAt row))) claims)
      end
  end.
Definition machinePrincipalFromAccessClaims (c : MachineAccessClaims) : Principal :=
  mk_Principal [RoleMachine] [mac_MachineID c].

(** [status] with the fold the code uses. *)
Definition order_terminal (st : string) : bool :=
  one_of (ToLower (TrimSpace st)) ["completed"; "partially_completed"; "failed"; "cancelled"; "unknown"].
Definition window_expired : goerr := EStatus FailedPrecondition "order checkout window expired".
Definition checkMachineOrderCheckoutWindow (o : Order) (maxAge now : Z) : res unit :=
  if maxAge <=? 0 then Ok tt
  else guard_err (o_CreatedAt o + maxAge <? now) window_expired.

Section Server.
Context `{UuidText} `{UuidParse} (s : MachineGRPCServicesDeps).

Definition machineOrderCheckoutMaxAge : Z :=
  match dp_Config s with
  | None => 30 * Minute
  | Some c => if cg_MachineOrderCheckoutMaxAge c <=? 0 then 30 * Minute else cg_MachineOrderCheckoutMaxAge c
  end.
Definition check_window (o : Order) : M world unit :=
  let! now := time_Now in lift (checkMachineOrderCheckoutWindow o machineOrderCheckoutMaxAge now).
Definition need_config : M world CommerceConfig :=
  match dp_Config s with Some c => ret c | None => fail nil_deref end.
(** topic, event type and aggregate type of the payment events *)
Definition payment_outbox (c : CommerceConfig) : M world (string * string * string) :=
  let topic := TrimSpace (cg_PaymentOutboxTopic c) in
  let evType := TrimSpace (cg_PaymentOutboxEventType c) in
  let aggType := TrimSpace (cg_PaymentOutboxAggregateType c) in
  if blank topic || blank evType || blank aggType
  then fail (EStatus Unavailable "commerce outbox not configured")
  else ret (topic, evType, aggType).
(** topic, succeeded, failed, reconciliation, aggregate *)
Definition machineCommerceVendOutboxConfig : string * string * string * string * string :=
  match dp_Config s with
  | None => ("", "", "", "", "order")
  | Some c => (cg_VendOutboxTopic c, cg_VendOutboxEventTypeSucceeded c, cg_VendOutboxEventTypeFailed c,
               cg_VendOutboxEventTypeReconciliation c, cg_VendOutboxAggregateType c)
  end.
Definition commerceRequireVendHardwareEvidence (machineID : N) : bool :=
  match dp_Config s with
  | None => false
  | Some c => cg_RequireVendHardwareEvidence c ||
              negb (machineID =u uuid_Nil) &&
              existsb (fun id => id =u machineID) (cg_RequireVendHardwareEvidenceMachineIDs c)
  end.

Definition requireCommerce (ctx : CallContext) : M world (MachineAccessClaims * Service world) :=
  match dp_Commerce s with
  | None => fail (EStatus Unavailable "commerce not configured")
  | Some svc =>
      if negb (dp_store s) then fail (EStatus Unavailable "commerce not configured")
      else
        match cx_claims ctx with
        | None => fail (EStatus Unauthenticated "missing machine credentials")
        | Some claims => machineRuntimeInventoryGate ctx claims ;;; ret (claims, svc)
        end
  end.
Definition auditCommerce (claims : MachineAccessClaims) (action order_id : string)
    (meta : list (string * json)) : M world unit :=
  match dp_EnterpriseAudit s with
  | None => ret tt
  | Some record =>
      ignore (record (mk_AuditRecord "machine" (Some (uuid_String (mac_MachineID claims))) action
        "commerce.order" order_id None (JObj (go_map (("order_id", JStr order_id) :: meta))) ""))
  end.

(** An order id of a request. *)
Definition order_id_of (raw : string) : M world N :=
  match uuid_Parse (TrimSpace raw) with
  | Some u => if u =u uuid_Nil then bad_request "invalid order_id" else ret u
  | None => bad_request "invalid order_id"
  end.
(** The start of a mutation: its context, and who calls. *)
Definition enter (ctx : CallContext) (protoCtx : option IdempotencyContext)
    : M world (machineMutationContext * MachineAccessClaims * Service world) :=
  let! wctx := lift (parseMachineMutationContext ctx protoCtx) in
  let! who := requireCommerce ctx in
  ret (wctx, who.1, who.2).
(** [EnsureCommerceCallerOrderAccess], then [store.GetOrderByID]. *)
Definition accessed_order (svc : Service world) (claims : MachineAccessClaims) (orderID : N) : M world Order :=
  mapping mapCommerceGRPCErr
    (EnsureCommerceCallerOrderAccess svc uuid_Nil orderID (machinePrincipalFromAccessClaims claims)) ;;;
  mapping mapCommerceGRPCErr (PgCommerce.GetOrderByID orderID).
Definition own_order (claims : MachineAccessClaims) (o : Order) : M world unit :=
  if negb (o_MachineID o =u mac_MachineID claims) then permission "order machine mismatch" else ret tt.
Definition open_order (o : Order) : M world unit :=
  if order_terminal (o_Status o) then precondition "order is terminal" else ret tt.
Definition three_letters (raw : string) : M world string :=
  let cur := ToUpper (TrimSpace raw) in
  if negb (len cur =? 3) then bad_request "currency must be a 3-letter ISO code" else ret cur.

(** ** Orders *)

(** A replayed order has to be the one asked for. *)
Definition validateReplayCreateOrder (claims : MachineAccessClaims) (productID : N) (slotID : option N)
    (cab slot : string) (slotIdx : option Z) (snap : option MachinePricingSnapshotInput)
    (out : CreateOrderResult) : res unit :=
  let base := cr_Base out in
  let line := cr_SaleLine out in
  let? _ := guard_err (negb (o_MachineID (cor_Order base) =u mac_MachineID claims)) ErrIdempotencyPayloadConflict in
  let? _ := guard_err (negb (v_ProductID (cor_Vend base) =u productID)) ErrIdempotencyPayloadConflict in
  let? _ := guard_err
    (match slotID with
     | Some id => negb (sl_SlotConfigID line =u id)
     | None =>
         if negb (blank cab) && negb (blank slot) then
           negb (EqualFold (TrimSpace (sl_CabinetCode line)) cab) ||
           negb (EqualFold (TrimSpace (sl_SlotCode line)) slot)
         else match slotIdx with Some i => negb (sl_SlotIndex line =? i) | None => false end
     end) ErrIdempotencyPayloadConflict in
  validateReplayPricingSnapshot snap (cor_Order base).
Definition optional_snapshot (snap : option MachinePricingSnapshot) : M world (option MachinePricingSnapshotInput) :=
  match snap with
  | None => ret None
  | Some _ => fmap_M Some (mapping mapCommerceGRPCErr (lift (MachinePricingSnapshotFromProto snap)))
  end.
Definition CreateOrder (ctx : CallContext) (req : CreateOrderRequest) : M world CreateOrderResponse :=
  let! c := enter ctx (qo_Context req) in
  let '(wctx, claims, svc) := c in
  let mid := TrimSpace (default "" (qo_MachineId req)) in
  (if negb (blank mid) &&
      negb (match uuid_Parse mid with Some m => m =u mac_MachineID claims | None => false end)
   then permission "machine_id does not match token" else ret tt) ;;;
  let! productID := (match uuid_Parse (TrimSpace (qo_ProductId req)) with
                     | Some p => if p =u uuid_Nil then bad_request "invalid product_id" else ret p
                     | None => bad_request "invalid product_id"
                     end) in
  let! slot := lift (parseSlotProto (qo_Slot req)) in
  let '(slotID, cab, sc, slotIdx) := slot in
  let! cur := three_letters (qo_Currency req) in
  let sim := parseSimulationContext (qo_Simulation req) in
  let! cfg := need_config in
  let! _ := lift (validateSimulationCommerce (dp_AllowSimulatedCommerce s) (mac_MachineID claims) sim (cg_AppEnv cfg)) in
  let! snap := optional_snapshot (qo_PricingSnapshot req) in
  let! out := mapping mapCommerceGRPCErr (CommerceService.CreateOrder svc
    (mk_CreateOrderInput (mac_MachineID claims) productID slotID cab sc slotIdx cur 0 0 0
       (mm_IdempotencyKey wctx) (sm_Simulated sim) (sm_SimulationRunID sim) (sm_SimulationScenario sim)
       (sm_FakeBill sim) (sm_FakeBoard sim) snap uuid_Nil 0)) in
  let o := cor_Order (cr_Base out) in
  let v := cor_Vend (cr_Base out) in
  let line := cr_SaleLine out in
  (if cor_Replay (cr_Base out) then
     mapping mapCommerceGRPCErr (lift (validateReplayCreateOrder claims productID slotID cab sc slotIdx snap out))
   else
     auditCommerce claims "machine.commerce.order_created" (uuid_String (o_ID o))
       [("vend_session_id", JStr (uuid_String (v_ID v))); ("idempotency_key", JStr (mm_IdempotencyKey wctx));
        ("client_event_id", JStr (mm_ClientEventID wctx)); ("product_id", JStr (uuid_String productID))]) ;;;
  ret (mk_CreateOrderResponse (cor_Replay (cr_Base out)) (uuid_String (o_ID o)) (uuid_String (v_ID v))
    (o_Status o) (v_State v)
    (if sl_SlotConfigID line =u uuid_Nil then "" else uuid_String (sl_SlotConfigID line))
    (sl_CabinetCode line) (sl_SlotCode line) (sl_SlotIndex line)
    (o_SubtotalMinor o) (o_TaxMinor o) (o_TotalMinor o) (sl_PriceMinor line)).

(** ** Payments *)

(** The key of an order that a payment session makes. *)
Definition checkout_key (wctx : machineMutationContext) (clientCheckoutId : option string) : string :=
  let c := TrimSpace (default "" clientCheckoutId) in
  if blank c then mm_IdempotencyKey wctx else "local_pay:" +:+ c.
(** The order a session is for, and the text of its id when it was made for it. *)
Definition session_order_of (svc : Service world) (claims : MachineAccessClaims) (wctx : machineMutationContext)
    (req : CreatePaymentSessionRequest) : M world (N * option string) :=
  let provider := TrimSpace (qs_Provider req) in
  let quoteIDRaw := TrimSpace (default "" (qs_QuoteId req)) in
  if negb (blank quoteIDRaw) then
    match uuid_Parse quoteIDRaw with
    | Some quoteID =>
        if quoteID =u uuid_Nil then bad_request "invalid quote_id"
        else
          let! out := mapping (mapCommerceGRPCErrForOp OpCreateOrderFromQuote)
            (CreateOrderFromQuote svc (dp_quotes s)
               (mk_CreateOrderFromQuoteInput (mac_MachineID claims) quoteID provider
                  (checkout_key wctx (qs_ClientCheckoutId req)) false "" "" false false None uuid_Nil 0)) in
          ret (ofq_OrderID out, Some (uuid_String (ofq_OrderID out)))
    | None => bad_request "invalid quote_id"
    end
  else
    match qs_PricingSnapshot req with
    | Some _ =>
        let! cur := three_letters (qs_Currency req) in
        let! snap := mapping mapCommerceGRPCErr (lift (MachinePricingSnapshotFromProto (qs_PricingSnapshot req))) in
        let! id := mapping mapCommerceGRPCErr
          (MaterializeOrderForPaymentSession svc (dp_quotes s) (dp_carts s)
             (mk_MaterializeInput (mac_MachineID claims) snap cur provider
                (checkout_key wctx (qs_ClientCheckoutId req)))) in
        ret (id, Some (uuid_String id))
    | None => let! id := order_id_of (qs_OrderId req) in ret (id, None)
    end.
Definition parseOptionalPaymentID (raw : string) : option N :=
  if blank (TrimSpace raw) then None
  else match uuid_Parse (TrimSpace raw) with
       | Some id => if id =u uuid_Nil then None else Some id
       | None => None
       end.
Definition CreatePaymentSession (ctx : CallContext) (req : CreatePaymentSessionRequest)
    : M world CreatePaymentSessionResponse :=
  let! c := enter ctx (qs_Context req) in
  let '(wctx, claims, svc) := c in
  let! made := session_order_of svc claims wctx req in
  let '(orderID, materialized) := made in
  let! o := mapping mapCommerceGRPCErr (PgCommerce.GetOrderByID orderID) in
  check_window o ;;;
  open_order o ;;;
  own_order claims o ;;;
  let! methods := dp_machinePaymentMethods s (mac_MachineID claims) in
  (if negb (pm_QRCardEnabled methods) then precondition "provider_unavailable" else ret tt) ;;;
  let! cfg := need_config in
  let! names := payment_outbox cfg in
  let '(topic, evType, aggType) := names in
  let! cur := three_letters (qs_Currency req) in
  (if negb (qs_AmountMinor req =? o_TotalMinor o) then bad_request "amount_minor must match order total" else ret tt) ;;;
  (if negb (String.eqb (ToUpper (TrimSpace (o_Currency o))) cur) then bad_request "currency must match order" else ret tt) ;;;
  let! machineCode := dp_machineExternalCode s (mac_MachineID claims) in
  let! res := mapping mapCommercePaymentSessionErr (CreateMachinePaymentSession svc
    (mk_SessionInput orderID (mac_MachineID claims) (mm_IdempotencyKey wctx) (TrimSpace (qs_Provider req))
       (TrimSpace (qs_PaymentState req)) (qs_AmountMinor req) cur (cg_AppEnv cfg) topic evType aggType
       machineCode machineCode "" "" (qs_AttemptSeq req)
       (parseOptionalPaymentID (default "" (qs_SupersedesPaymentId req))) (Some o))) in
  (if mr_Replay res then ret tt
   else auditCommerce claims "machine.commerce.payment_session_created" (uuid_String orderID)
     [("payment_id", JStr (uuid_String (p_ID (mr_Payment res)))); ("idempotency_key", JStr (mm_IdempotencyKey wctx));
      ("provider", JStr (mr_ProviderKey res)); ("payment_state", JStr "created")]) ;;;
  ret (mk_CreatePaymentSessionResponse (mr_Replay res) (uuid_String (p_ID (mr_Payment res)))
    (p_State (mr_Payment res)) (Z.of_N (ob_ID (mr_Outbox res))) (mr_QRPayloadOrURL res) materialized).
Definition AttachPaymentResult : CallContext -> CreatePaymentSessionRequest -> M world CreatePaymentSessionResponse :=
  CreatePaymentSession.

(** A note without a time was accepted now. *)
Definition acceptance_input (now : Z) (ev : CashAcceptanceEvent) : CashAcceptanceEventInput :=
  mk_CashAcceptanceEventInput (TrimSpace (am_DeviceEventId ev)) (am_DenominationMinor ev)
    (TrimSpace (am_CreditSource ev))
    (match am_AcceptedAt ev with Some t => AsTime t | None => now end) "" JNull.
Definition cash_input (wctx : machineMutationContext) (claims : MachineAccessClaims) (orderID : N)
    (sim : simulationMeta) (names : string * string * string) (now : Z) (req : ConfirmCashPaymentRequest)
    : ConfirmCashPaymentInput :=
  let '(topic, evType, aggType) := names in
  mk_ConfirmCashPaymentInput orderID (mac_MachineID claims) (mm_IdempotencyKey wctx)
    (qc_GrossAcceptedMinor req) (qc_AllocatedMinor req) (qc_PreOrderCreditMinor req)
    (qc_PostOrderInsertedMinor req) (qc_ChangeDueMinor req) (qc_ChangeDispensedMinor req)
    (qc_ChangeOutcome req) (qc_ConsentSource req) (option_map AsTime (qc_ConsentedAt req))
    (qc_Currency req) (map (acceptance_input now) (qc_CashAcceptanceEvents req))
    (sm_Simulated sim) (sm_SimulationRunID sim) (sm_SimulationScenario sim) (sm_FakeBill sim)
    (sm_FakeBoard sim) topic evType aggType.
(** The simulation of the request, or that of the order. *)
Definition cash_simulation (cfg : CommerceConfig) (claims : MachineAccessClaims) (o : Order)
    (req : ConfirmCashPaymentRequest) : res simulationMeta :=
  let sim := parseSimulationContext (qc_Simulation req) in
  if sm_Simulated sim then
    let? _ := validateSimulationCommerce (dp_AllowSimulatedCommerce s) (mac_MachineID claims) sim (cg_AppEnv cfg) in
    Ok sim
  else Ok (simulationMetaFromOrder (o_Simulated o) (o_SimulationRunID o) (o_SimulationScenario o)
             (o_FakeBill o) (o_FakeBoard o)).
Definition ConfirmCashPayment (ctx : CallContext) (req : ConfirmCashPaymentRequest)
    : M world ConfirmCashPaymentResponse :=
  let! c := enter ctx (qc_Context req) in
  let '(wctx, claims, svc) := c in
  let! orderID := order_id_of (qc_OrderId req) in
  let! o := accessed_order svc claims orderID in
  check_window o ;;;
  open_order o ;;;
  own_order claims o ;;;
  let! methods := dp_machinePaymentMethods s (mac_MachineID claims) in
  (if negb (pm_CashEnabled methods) then precondition "cash_payment_disabled" else ret tt) ;;;
  let! cfg := need_config in
  let! names := payment_outbox cfg in
  let! sim := lift (cash_simulation cfg claims o req) in
  let! now := time_Now in
  let! res := mapping (mapCommerceGRPCErrForOp OpConfirmCashCheckout)
    (CommerceService.ConfirmCashPayment svc (cash_input wctx claims orderID sim names now req)) in
  (if ccr_Replay res then ret tt
   else auditCommerce claims "machine.commerce.cash_payment_confirmed" (uuid_String orderID)
     [("payment_id", JStr (uuid_String (p_ID (ccr_Payment res)))); ("idempotency_key", JStr (mm_IdempotencyKey wctx));
      ("consent_source", JStr (qc_ConsentSource req))]) ;;;
  ret (mk_ConfirmCashPaymentResponse (ccr_Replay res) (uuid_String (p_ID (ccr_Payment res)))
         (o_Status (ccr_Order res)) (p_State (ccr_Payment res))).
Definition CreateCashCheckout : CallContext -> ConfirmCashPaymentRequest -> M world ConfirmCashPaymentResponse :=
  ConfirmCashPayment.

Definition CancelPaymentSession (ctx : CallContext) (req : CancelPaymentSessionRequest)
    : M world CancelPaymentSessionResponse :=
  let! c := enter ctx (qx_Context req) in
  let '(wctx, claims, svc) := c in
  let! orderID := order_id_of (qx_OrderId req) in
  let! o := accessed_order svc claims orderID in
  own_order claims o ;;;
  let! paymentID := lift (optional_id (qx_PaymentId req) (invalid "invalid payment_id")) in
  let! res := mapping mapCommerceGRPCErr (CommerceService.CancelPaymentSession svc
    (mk_CancelPaymentSessionInput orderID (mac_MachineID claims) (mm_IdempotencyKey wctx)
       (TrimSpace (qx_Reason req)) paymentID)) in
  ret (mk_CancelPaymentSessionResponse false (uuid_String (o_ID (cpr_Order res))) (o_Status (cpr_Order res))
         (match cpr_Payment res with Some p => uuid_String (p_ID p) | None => "" end)
         (match cpr_Payment res with Some p => p_State p | None => "" end)).

(** ** Vends *)

(** The vend a request is about: by line when it names one, else by slot. *)
Definition checkout_status (svc : Service world) (orderID : N) (slotIndex lineSequence : Z)
    : M world CheckoutStatusView :=
  mapping mapCommerceGRPCErr
    (if 0 <? lineSequence then GetCheckoutStatusByLineSequence svc uuid_Nil orderID lineSequence
     else GetCheckoutStatus svc uuid_Nil orderID slotIndex).
Definition zero_vend : VendSession := mk_VendSession uuid_Nil uuid_Nil uuid_Nil 0 uuid_Nil "" None false None None 0.
Definition vend_of (st : CheckoutStatusView) : VendSession := default zero_vend (cs_Vend st).
Definition captured (st : CheckoutStatusView) : bool :=
  match cs_Payment st with Some p => String.eqb (p_State p) "captured" | None => false end.
Definition StartVend (ctx : CallContext) (req : StartVendRequest) : M world StartVendResponse :=
  let! c := enter ctx (qv_Context req) in
  let '(wctx, claims, svc) := c in
  let! orderID := order_id_of (qv_OrderId req) in
  let slotIndex := qv_SlotIndex req in
  let lineSequence := qv_LineSequence req in
  let! o := accessed_order svc claims orderID in
  check_window o ;;;
  open_order o ;;;
  let! st := checkout_status svc orderID slotIndex lineSequence in
  let v := vend_of st in
  (if negb (captured st) then precondition "payment not captured" else ret tt) ;;;
  (if negb (one_of (o_Status (cs_Order st)) ["paid"; "vending"]) then precondition "order not paid" else ret tt) ;;;
  if String.eqb (v_State v) "in_progress" then
    ret (mk_StartVendResponse true "in_progress" (if 0 <? lineSequence then v_SlotIndex v else slotIndex))
  else if negb (String.eqb (v_State v) "pending") then precondition "vend not startable"
  else
    let! moved := mapping mapCommerceGRPCErr
      (AdvanceVend svc (mk_AdvanceVendInput orderID (v_SlotIndex v) lineSequence "in_progress" None)) in
    auditCommerce claims "machine.commerce.vend_started" (uuid_String orderID)
      [("slot_index", JInt slotIndex); ("idempotency_key", JStr (mm_IdempotencyKey wctx))] ;;;
    ret (mk_StartVendResponse false (v_State moved) (v_SlotIndex moved)).

(** Paid with cash, and how much. *)
Definition cash_flow (st : CheckoutStatusView) : bool :=
  match cs_Payment st with Some p => EqualFold (TrimSpace (p_Provider p)) "cash" | None => false end.
Definition authorized_amount (st : CheckoutStatusView) : Z :=
  if cash_flow st then match cs_Payment st with Some p => p_AmountMinor p | None => 0 end else 0.
Definition touch (orderID : N) (slot : Z) (corr : option N) : M world unit :=
  match corr with Some c => ignore (TouchVendSessionCorrelation orderID slot c) | None => ret tt end.
(** The order of a vend report. *)
Definition reported_order (svc : Service world) (claims : MachineAccessClaims) (orderID : N) : M world Order :=
  let! o := accessed_order svc claims orderID in
  own_order claims o ;;;
  check_window o ;;;
  ret o.
(** A vend of a paid order that was never reported as started is started now. *)
Definition started_status (svc : Service world) (orderID : N) (slotIndex lineSequence : Z) : M world CheckoutStatusView :=
  let! st := checkout_status svc orderID slotIndex lineSequence in
  let v := vend_of st in
  if String.eqb (v_State v) "pending" && one_of (o_Status (cs_Order st)) ["paid"; "vending"] then
    mapping mapCommerceGRPCErr
      (EnsureVendInProgressForPaidOrder svc uuid_Nil orderID
         (if v_SlotIndex v <=? 0 then slotIndex else v_SlotIndex v)) ;;;
    checkout_status svc orderID slotIndex lineSequence
  else ret st.
(** The correlation of a report that has none is that of its evidence. *)
Definition evidence_corr (corr : option N) (evidence : option VendHardwareEvidence) : option N :=
  match corr with Some c => Some c | None => option_map ev_CorrelationID evidence end.
Definition touch_evidence (orderID : N) (slot : Z) (corr : option N) (evidence : option VendHardwareEvidence)
    : M world unit :=
  match corr, evidence with
  | None, Some e => ignore (TouchVendSessionCorrelation orderID slot (ev_CorrelationID e))
  | _, _ => ret tt
  end.
Definition success_finalize (orderID : N) (slotIndex lineSequence : Z) (key : string) (corr : option N)
    (evidence : option VendHardwareEvidence) (vstatus : string) : FinalizeAfterVendInput :=
  let '(topic, succeeded, _, recon, agg) := machineCommerceVendOutboxConfig in
  mk_FinalizeAfterVendInput orderID slotIndex lineSequence "success" None "" key (evidence_corr corr evidence)
    evidence vstatus topic succeeded agg (key +:+ ":vend:success:" +:+ uuid_String orderID) recon false false.
Definition confirmVendSuccess (claims : MachineAccessClaims) (svc : Service world) (wctx : machineMutationContext)
    (orderID : N) (slotIndex lineSequence : Z) (corr : option N) (protoEvidence : option VendEvidenceMsg)
    : M world VendSuccessResponse :=
  let! _ := reported_order svc claims orderID in
  touch orderID slotIndex corr ;;;
  let! st := started_status svc orderID slotIndex lineSequence in
  (if negb (String.eqb (v_State (vend_of st)) "in_progress") then precondition "vend not in progress" else ret tt) ;;;
  let! resolved := mapping mapCommerceGRPCErr (lift (resolveVendEvidenceFromRequest protoEvidence corr (cash_flow st)
    (commerceRequireVendHardwareEvidence (mac_MachineID claims)) true (authorized_amount st))) in
  let '(evidence, vstatus) := resolved in
  touch_evidence orderID slotIndex corr evidence ;;;
  let! fout := mapping (mapCommerceVendCloseErr OpConfirmVendSuccess) (FinalizeOrderAfterVend svc
    (success_finalize orderID slotIndex lineSequence (TrimSpace (mm_IdempotencyKey wctx)) corr evidence vstatus)) in
  let fullReplay := fo_OrderVendReplay fout && fo_InventoryReplay fout in
  (if fullReplay then ret tt
   else auditCommerce claims "machine.commerce.vend_success" (uuid_String orderID)
     [("idempotency_key", JStr (mm_IdempotencyKey wctx)); ("inventory_replay", JBool (fo_InventoryReplay fout));
      ("finalize_replay", JBool (fo_OrderVendReplay fout))]) ;;;
  ret (mk_VendSuccessResponse fullReplay (fo_InventoryReplay fout) (uuid_String (o_ID (fo_Order fout)))
         (o_Status (fo_Order fout)) (v_State (fo_Vend fout))).
Definition ConfirmVendSuccess (ctx : CallContext) (req : ConfirmVendSuccessRequest) : M world VendSuccessResponse :=
  let! c := enter ctx (qy_Context req) in
  let '(wctx, claims, svc) := c in
  let! orderID := order_id_of (qy_OrderId req) in
  let! corr := lift (optional_id (default "" (qy_CorrelationId req)) (invalid "invalid correlation_id")) in
  confirmVendSuccess claims svc wctx orderID (qy_SlotIndex req) (qy_LineSequence req) corr (qy_Evidence req).
(** Its request has no line. *)
Definition ReportVendSuccess (ctx : CallContext) (req : ConfirmVendSuccessRequest) : M world VendSuccessResponse :=
  let! c := enter ctx (qy_Context req) in
  let '(wctx, claims, svc) := c in
  let! orderID := order_id_of (qy_OrderId req) in
  let! corr := lift (optional_id (default "" (qy_CorrelationId req)) (invalid "invalid correlation_id")) in
  confirmVendSuccess claims svc wctx orderID (qy_SlotIndex req) 0 corr (qy_Evidence req).

(** The correlation of a failure goes to the slot of its line, if that is found. *)
Definition touch_failure (svc : Service world) (orderID : N) (slotIndex lineSequence : Z) (corr : option N)
    : M world unit :=
  match corr with
  | None => ret tt
  | Some c =>
      if 0 <? lineSequence then
        let! st := attempt (GetCheckoutStatusByLineSequence svc uuid_Nil orderID lineSequence) in
        match st with
        | Ok st => ignore (TouchVendSessionCorrelation orderID (v_SlotIndex (vend_of st)) c)
        | Err _ => ret tt
        end
      else ignore (TouchVendSessionCorrelation orderID slotIndex c)
  end.
(** Evidence never stands in the way of a failure. *)
Definition failure_verdict (ev : option VendEvidenceMsg) (corr : option N) (cashFlow requireEvidence : bool)
    (authorized : Z) : option VendHardwareEvidence * string :=
  match resolveVendEvidenceFromRequest ev corr cashFlow requireEvidence false authorized with
  | Ok r => r
  | Err _ => (None, VerificationHardwareUnverified)
  end.
Definition failure_finalize (orderID : N) (slotIndex lineSequence : Z) (key reason : string) (corr : option N)
    (evidence : option VendHardwareEvidence) (vstatus : string) : FinalizeAfterVendInput :=
  let '(topic, _, failed, recon, agg) := machineCommerceVendOutboxConfig in
  mk_FinalizeAfterVendInput orderID slotIndex lineSequence "failed" (if blank reason then None else Some reason)
    "" key (evidence_corr corr evidence) evidence vstatus topic failed agg
    (key +:+ ":vend:failure:" +:+ uuid_String orderID) recon false false.
Definition ReportVendFailure (ctx : CallContext) (req : ReportVendFailureRequest) : M world ReportVendFailureResponse :=
  let! c := enter ctx (qf_Context req) in
  let '(wctx, claims, svc) := c in
  let! orderID := order_id_of (qf_OrderId req) in
  let lineSequence := qf_LineSequence req in
  let reason := TrimSpace (qf_FailureReason req) in
  let! corr := lift (optional_id (default "" (qf_CorrelationId req)) (invalid "invalid correlation_id")) in
  let! _ := reported_order svc claims orderID in
  touch_failure svc orderID (qf_SlotIndex req) lineSequence corr ;;;
  let! st := checkout_status svc orderID (qf_SlotIndex req) lineSequence in
  let resolvedSlotIndex := v_SlotIndex (vend_of st) in
  let slotIndex := if 0 <? lineSequence then resolvedSlotIndex else qf_SlotIndex req in
  (if negb (String.eqb (v_State (vend_of st)) "in_progress") then precondition "vend not in progress" else ret tt) ;;;
  let '(evidence, vstatus) := failure_verdict (qf_Evidence req) corr (cash_flow st)
    (commerceRequireVendHardwareEvidence (mac_MachineID claims)) (authorized_amount st) in
  touch_evidence orderID resolvedSlotIndex corr evidence ;;;
  let! fout := mapping (mapCommerceVendCloseErr OpReportVendFailure) (FinalizeOrderAfterVend svc
    (failure_finalize orderID resolvedSlotIndex lineSequence (TrimSpace (mm_IdempotencyKey wctx)) reason corr
       evidence vstatus)) in
  let vendReplay := String.eqb (v_State (vend_of st)) "failed" || fo_OrderVendReplay fout in
  let! st2 := attempt (GetCheckoutStatus svc uuid_Nil orderID slotIndex) in
  let pay := (match st2 with Ok st2 => cs_Payment st2 | Err _ => None end) in
  let is_captured := (match pay with Some p => String.eqb (p_State p) "captured" | None => false end) in
  let cash := (match pay with Some p => EqualFold (p_Provider p) "cash" | None => false end) in
  (if vendReplay then ret tt
   else auditCommerce claims "machine.commerce.vend_failure" (uuid_String orderID)
     [("idempotency_key", JStr (mm_IdempotencyKey wctx)); ("failure_reason", JStr reason)]) ;;;
  ret (mk_ReportVendFailureResponse vendReplay (uuid_String (o_ID (fo_Order fout))) (o_Status (fo_Order fout))
         (v_State (fo_Vend fout)) (is_captured && cash) (is_captured && negb cash)).

(** ** Closing an order *)

Definition close_order (status : string) (close : Service world -> N -> string -> M world Order) (action : string)
    (ctx : CallContext) (req : CloseOrderRequest) : M world CloseOrderResponse :=
  let! c := enter ctx (qz_Context req) in
  let '(wctx, claims, svc) := c in
  let! orderID := order_id_of (qz_OrderId req) in
  let! o := accessed_order svc claims orderID in
  own_order claims o ;;;
  if EqualFold (TrimSpace (o_Status o)) status then
    ret (mk_CloseOrderResponse true (uuid_String (o_ID o)) (o_Status o))
  else
    open_order o ;;;
    let reason := TrimSpace (qz_Reason req) in
    let! o2 := mapping mapCommerceGRPCErr (close svc orderID reason) in
    auditCommerce claims action (uuid_String orderID)
      [("idempotency_key", JStr (mm_IdempotencyKey wctx)); ("reason", JStr reason)] ;;;
    ret (mk_CloseOrderResponse false (uuid_String (o_ID o2)) (o_Status o2)).
Definition CancelOrder : CallContext -> CloseOrderRequest -> M world CloseOrderResponse :=
  close_order "cancelled" (fun svc => CommerceService.CancelOrder svc uuid_Nil) "machine.commerce.order_cancelled".
Definition MarkOrderUnknown : CallContext -> CloseOrderRequest -> M world CloseOrderResponse :=
  close_order "unknown" (fun svc => CommerceService.MarkOrderUnknown svc uuid_Nil) "machine.commerce.order_unknown".

(** ** The service *)

(** A call of one of the methods, with its request. *)
Inductive machine_rpc :=
| RpcCreateOrder (r : CreateOrderRequest)
| RpcCreatePaymentSession (r : CreatePaymentSessionRequest)
| RpcAttachPaymentResult (r : CreatePaymentSessionRequest)
| RpcConfirmCashPayment (r : ConfirmCashPaymentRequest)
| RpcCreateCashCheckout (r : ConfirmCashPaymentRequest)
| RpcCancelPaymentSession (r : CancelPaymentSessionRequest)
| RpcStartVend (r : StartVendRequest)
| RpcConfirmVendSuccess (r : ConfirmVendSuccessRequest)
| RpcReportVendSuccess (r : ConfirmVendSuccessRequest)
| RpcReportVendFailure (r : ReportVendFailureRequest)
| RpcCancelOrder (r : CloseOrderRequest)
| RpcMarkOrderUnknown (r : CloseOrderRequest).
(** commerce_grpc.pb.go: the method, the request on the wire, and the handler. *)
Definition rpc_method (c : machine_rpc) : string :=
  commerce_rpc (match c with
  | RpcCreateOrder _ => "CreateOrder"
  | RpcCreatePaymentSession _ => "CreatePaymentSession"
  | RpcAttachPaymentResult _ => "AttachPaymentResult"
  | RpcConfirmCashPayment _ => "ConfirmCashPayment"
  | RpcCreateCashCheckout _ => "CreateCashCheckout"
  | RpcCancelPaymentSession _ => "CancelPaymentSession"
  | RpcStartVend _ => "StartVend"
  | RpcConfirmVendSuccess _ => "ConfirmVendSuccess"
  | RpcReportVendSuccess _ => "ReportVendSuccess"
  | RpcReportVendFailure _ => "ReportVendFailure"
  | RpcCancelOrder _ => "CancelOrder"
  | RpcMarkOrderUnknown _ => "MarkOrderUnknown"
  end).
Definition rpc_request (c : machine_rpc) : proto :=
  match c with
  | RpcCreateOrder r => create_order_proto r
  | RpcCreatePaymentSession r | RpcAttachPaymentResult r => session_proto r
  | RpcConfirmCashPayment r | RpcCreateCashCheckout r => cash_proto r
  | RpcCancelPaymentSession r => cancel_session_proto r
  | RpcStartVend r => start_vend_proto r
  | RpcConfirmVendSuccess r => vend_success_proto r
  | RpcReportVendSuccess r => report_success_proto r
  | RpcReportVendFailure r => vend_failure_proto r
  | RpcCancelOrder r => close_proto "CancelOrder" r
  | RpcMarkOrderUnknown r => close_proto "MarkOrderUnknown" r
  end.
Definition rpc_handler (ctx : CallContext) (c : machine_rpc) : M world proto :=
  match c with
  | RpcCreateOrder r => fmap_M create_order_answer (CreateOrder ctx r)
  | RpcCreatePaymentSession r => fmap_M session_answer (CreatePaymentSession ctx r)
  | RpcAttachPaymentResult r => fmap_M session_answer (AttachPaymentResult ctx r)
  | RpcConfirmCashPayment r => fmap_M cash_answer (ConfirmCashPayment ctx r)
  | RpcCreateCashCheckout r => fmap_M cash_answer (CreateCashCheckout ctx r)
  | RpcCancelPaymentSession r => fmap_M cancel_session_answer (CancelPaymentSession ctx r)
  | RpcStartVend r => fmap_M start_vend_answer (StartVend ctx r)
  | RpcConfirmVendSuccess r => fmap_M vend_success_answer (ConfirmVendSuccess ctx r)
  | RpcReportVendSuccess r => fmap_M report_success_answer (ReportVendSuccess ctx r)
  | RpcReportVendFailure r => fmap_M vend_failure_answer (ReportVendFailure ctx r)
  | RpcCancelOrder r => fmap_M (close_answer "CancelOrder") (CancelOrder ctx r)
  | RpcMarkOrderUnknown r => fmap_M (close_answer "MarkOrderUnknown") (MarkOrderUnknown ctx r)
  end.
(** A call through the interceptor of the ledger. *)
Definition serve_rpc `{ProtoCodec} (required : bool) (ledger : option (MutationLedger world)) (ctx : CallContext)
    (c : machine_rpc) : M world (option proto) :=
  newUnaryMachineReplayInterceptor required ledger ctx (Some (rpc_request c)) (rpc_method c)
    (fmap_M Some (rpc_handler ctx c)).
End Server.
