(* ===== verification/SaleLines.v ===== *)
(** * Sale lines from the pricing engine

    internal/modules/postgres/commerce_sale_line.go,
    commerce_sale_line_batch.go and commerce_sale_line_snapshot.go: the store
    resolves the slot and the price of one line, or of a whole cart, by the
    pricing engine or by the prices the machine declares.  The queries of the
    engine are its record of operations. *)

From S2P Require Import Prelude.
From S2P Require Import GoStd.
From S2P Require Import Pricing.
From S2P Require Import CommerceTypes.
From S2P Require Import Sanitize.
From S2P Require Import Evidence.
From S2P Require Import Snapshot.
From S2P Require Import Rules.
From S2P Require Import CommerceService.
From S2P Require Import Quotes.
Local Open Scope string_scope.
Local Open Scope list_scope.
Local Open Scope Z_scope.

Definition errCartRequired : goerr := EJoin ErrInvalidArgument (ENew "machine_id and lines required").
Definition errStoreNoSlotIndex : goerr := ENew "postgres: slot config has no slot_index".

Section Resolvers.
Context `{UuidText} `{Sha256} {W : Type} (q : PricingQueries W) (now : M W Z).
Definition list_slots : N -> M W (list SlotConfigRow) := ListCurrentMachineSlotConfigsByMachine W q.

(** [slotIdxFromInventoryRow] and [MapToResolvedSaleLine]. *)
Definition resolved_of (r : LinePriceResult * SlotConfigRow) : res ResolvedSaleLine :=
  match rowSlotIndex r.2 with
  | None => Err errStoreNoSlotIndex
  | Some si => Ok (MapToResolvedSaleLine (sr_ID r.2) (sr_CabinetCode r.2) (sr_SlotCode r.2) si r.1)
  end.

(** ** One line (commerce_sale_line.go) *)

Definition EvaluateSaleLineAt (sel : SaleLineSelector) (at_ qty : Z) : M W ResolvedSaleLine :=
  let! r := EvaluateSaleLine q sel at_ qty in lift (resolved_of r).
Definition ResolveSaleLine (sel : SaleLineSelector) : M W ResolvedSaleLine :=
  let! at_ := now in EvaluateSaleLineAt sel at_ 1.
Definition ResolveSaleLineWithQuantity (sel : SaleLineSelector) (qty : Z) : M W ResolvedSaleLine :=
  let! at_ := now in EvaluateSaleLineAt sel at_ (at_least_one qty).
Definition LookupCurrentSlotConfigByCode (machineID : N) (slotCode : string) : M W SlotConfigRow :=
  let code := TrimSpace slotCode in
  if (machineID =u uuid_Nil) || blank code
  then fail (EJoin ErrInvalidArgument (ENew "machine_id and slot_code required"))
  else
    let! rows := list_slots machineID in
    match List.find (fun r => EqualFold (TrimSpace (sr_SlotCode r)) code) rows with
    | Some row => ret row
    | None => fail ErrNotFound
    end.
Definition LookupSlotDisplay (companyID machineID productID : N) (slotIndex : Z) : M W ResolvedSaleLine :=
  ResolveSaleLine (mk_SaleLineSelector machineID productID None "" "" (Some slotIndex)).

(** ** A cart by the engine (commerce_sale_line_batch.go) *)

(** The selectors are rebuilt with the machine of the cart. *)
Definition on_machine (machineID : N) (sel : SaleLineSelector) : SaleLineSelector :=
  mk_SaleLineSelector machineID (ss_ProductID sel) (ss_SlotID sel) (ss_CabinetCode sel) (ss_SlotCode sel)
    (ss_SlotIndex sel).
Definition ResolveQuoteSaleLines (machineID : N) (lines : list (SaleLineSelector * Z))
    : M W (list ResolvedSaleLine) :=
  if (machineID =u uuid_Nil) || is_nil lines then fail errCartRequired
  else
    let! at_ := now in
    let! evaluated := EvaluateSaleLines q
      (map (fun l => mk_EvaluateSaleLineRequest (on_machine machineID l.1) (at_least_one l.2)) lines) at_ in
    map_each (fun r => lift (resolved_of r)) evaluated.

(** ** A cart by the machine's prices (commerce_sale_line_snapshot.go) *)

Definition snapshot_line (rows : list SlotConfigRow) (snap : MachinePricingSnapshotInput) (i : Z)
    (sel : SaleLineSelector) (qty : Z) : res ResolvedSaleLine :=
  let? row := PickSlotRowFromInventory rows sel in
  match rowSlotIndex row with
  | None => Err errStoreNoSlotIndex
  | Some si =>
      let line_price := snapshotLineUnitPrice snap (wrap32 (i + 1)) 0 in
      let unit_price := if line_price <=? 0 then ps_UnitPriceMinor snap else line_price in
      let? _ := guard_err (unit_price <=? 0)
                  (EJoin ErrInvalidArgument (ENew "pricing_snapshot unit_price_minor invalid")) in
      let lineTotal := mul64 unit_price (at_least_one qty) in
      Ok (mk_ResolvedSaleLine (sr_ID row) (TrimSpace (sr_CabinetCode row)) (TrimSpace (sr_SlotCode row)) si
            unit_price lineTotal 0 lineTotal 0 0 "" "" (TrimSpace (ps_PricingFingerprint snap)) [])
  end.
Fixpoint snapshot_lines (rows : list SlotConfigRow) (snap : MachinePricingSnapshotInput) (i : Z)
    (lines : list (SaleLineSelector * Z)) : res (list ResolvedSaleLine) :=
  match lines with
  | [] => Ok []
  | (sel, qty) :: lines =>
      let? l := snapshot_line rows snap i sel qty in
      let? rest := snapshot_lines rows snap (i + 1) lines in
      Ok (l :: rest)
  end.
Definition ResolveQuoteLinesFromMachineSnapshot (machineID : N) (lines : list (SaleLineSelector * Z))
    (snap : MachinePricingSnapshotInput) : M W (list ResolvedSaleLine) :=
  if (machineID =u uuid_Nil) || is_nil lines then fail errCartRequired
  else
    let! rows := list_slots machineID in
    lift (snapshot_lines rows snap 0 (map (fun l => (on_machine machineID l.1, l.2)) lines)).

(** What the store is to the service. *)
Definition pg_resolver : SaleLineResolver W :=
  mk_SaleLineResolver W ResolveSaleLine LookupSlotDisplay (Some ResolveSaleLineWithQuantity)
    (Some LookupCurrentSlotConfigByCode).
Definition pg_carts : CartResolvers W :=
  mk_CartResolvers W (Some ResolveQuoteSaleLines) (Some ResolveQuoteLinesFromMachineSnapshot).
End Resolvers.
