(* ===== verification/StoreLaws.v ===== *)
(** * The store respects every statement relation

    For any relation that the statements respect ([Statement_rel]), every
    method of the store respects it, on every outcome: the instances are the
    growth and well-formedness of the tables under other clients' steps, and
    the consumption of the schedule.  Methods that only read respect it for
    any guarantee, so that they leave the tables alone. *)

From S2P Require Import Prelude.
From S2P Require Import GoStd.
From S2P Require Import Pricing.
From S2P Require Import CommerceTypes.
From S2P Require Import Evidence.
From S2P Require Import Rules.
From S2P Require Import Db.
From S2P Require Import Queries.
From S2P Require Import History.
From S2P Require Import PgCommerce.
From S2P Require Import Fulfillment.
Local Open Scope string_scope.
Local Open Scope list_scope.
Local Open Scope Z_scope.

(** ** Reads *)

#[export] Hint Resolve ev_select_one ev_select_many ev_time_Now
  ev_NextPaymentAttemptSeqForOrder ev_SumRefunds ev_CountEvents : evolves.
#[export] Hint Resolve sr_tx sr_savepoint : evolves.
#[export] Hint Extern 1 (evolves _ ?m) =>
  lazymatch m with
  | Queries.GetOrderByID _ => apply ev_select_one
  | LockOrderByIDAndOrgForUpdate _ => apply ev_select_one
  | LockOrderForPaymentAttempt _ => apply ev_select_one
  | GetOrderByMachineAndIdempotencyKey _ _ => apply ev_select_one
  | GetVendSessionByOrderAndSlotQ _ _ => apply ev_select_one
  | GetVendSessionByOrderAndLineSequenceQ _ _ => apply ev_select_one
  | LockVendSessionByOrderAndSlotForUpdate _ _ => apply ev_select_one
  | LockVendSessionByOrderAndLineSequenceForUpdate _ _ => apply ev_select_one
  | ListVendSessionsByOrder _ => apply ev_select_many
  | GetFirstVendSessionByOrder _ => apply ev_select_one
  | GetPaymentByIDQ _ => apply ev_select_one
  | GetPaymentByOrderAndIdempotencyKey _ _ => apply ev_select_one
  | GetLatestPaymentForOrderQ _ => apply ev_select_one
  | GetLatestNonCapturedPaymentForOrderQ _ => apply ev_select_one
  | ListPaymentsForOrderQ _ => apply ev_select_many
  | GetWinningPaymentForOrderQ _ => apply ev_select_one
  | GetLatestPaymentAttemptPayloadQ _ => apply ev_select_one
  | GetLatestPaymentAttemptProviderReferenceQ _ => apply ev_select_one
  | ListRefundsForOrderQ _ => apply ev_select_many
  | GetRefundByIDForOrderQ _ _ => apply ev_select_one
  | GetRefundByOrderIdempotencyQ _ _ => apply ev_select_one
  | GetPaymentProviderEventByProviderRef _ _ => apply ev_select_one
  | GetPaymentProviderEventByWebhookEventID _ _ => apply ev_select_one
  | GetOutboxByTopicAndIdempotency _ _ => apply ev_select_one
  | GetOutboxEventByTopicIdempotencyKey _ _ => apply ev_select_one
  | GetCashAllocationForOrder _ => apply ev_select_one
  | GetCashChangeEventForOrder _ => apply ev_select_one
  | ListCashAcceptanceEventsForOrder _ => apply ev_select_many
  | GetMachineByIDForUpdate _ => apply ev_select_one
  | InventoryAdminListMachineSlots _ => apply ev_select_many
  | InventoryAdminListCurrentMachineSlotConfigsByMachine _ => apply ev_select_many
  | InventoryAdminGetMachineActiveLayoutGridCols _ => apply ev_select_one
  | InventoryAdminGetPublishedPlanogramSlotForMachine _ _ => apply ev_select_one
  | InventoryAdminGetMachineLegacyPlanogramID _ => apply ev_select_one
  | InventoryAdminGetPublishedPlanogramID => apply ev_select_one
  end : evolves.

Section Readers.
Context {P : pgdb -> pgdb -> Prop} {R : world -> world -> Prop} `{!Statement_rel P R}.

Lemma ev_or_not_found {A} (m : M world A) : evolves R m -> evolves R (or_not_found m).
Proof. intros. unfold or_not_found. evolve. Qed.
Lemma ev_or_not_found_eq {A} (m : M world A) : evolves R m -> evolves R (or_not_found_eq m).
Proof. intros. unfold or_not_found_eq. evolve. Qed.
Lemma ev_optional_row {A} (m : M world A) : evolves R m -> evolves R (optional_row m).
Proof. intros. unfold optional_row. evolve. Qed.
End Readers.
#[export] Hint Resolve ev_or_not_found ev_or_not_found_eq ev_optional_row : evolves.

Section StoreReads.
Context {P : pgdb -> pgdb -> Prop} {R : world -> world -> Prop} `{!Statement_rel P R}.

Lemma ev_GetOrderByID o : evolves R (PgCommerce.GetOrderByID o).
Proof. unfold PgCommerce.GetOrderByID. evolve. Qed.
Lemma ev_GetVendSessionByOrderAndSlot o s : evolves R (GetVendSessionByOrderAndSlot o s).
Proof. unfold GetVendSessionByOrderAndSlot. evolve. Qed.
Lemma ev_GetVendSessionByOrderAndLineSequence o l :
  evolves R (GetVendSessionByOrderAndLineSequence o l).
Proof. unfold GetVendSessionByOrderAndLineSequence. evolve. Qed.
Lemma ev_ListVendSessionsForOrder o : evolves R (ListVendSessionsForOrder o).
Proof. unfold ListVendSessionsForOrder. evolve. Qed.
Lemma ev_GetLatestPaymentForOrder o : evolves R (GetLatestPaymentForOrder o).
Proof. unfold GetLatestPaymentForOrder. evolve. Qed.
Lemma ev_GetPaymentByID p : evolves R (GetPaymentByID p).
Proof. unfold GetPaymentByID. evolve. Qed.
Lemma ev_GetLatestPaymentAttemptPayload p : evolves R (GetLatestPaymentAttemptPayload p).
Proof. unfold GetLatestPaymentAttemptPayload. evolve. Qed.
Lemma ev_GetLatestPaymentAttemptProviderReference p :
  evolves R (GetLatestPaymentAttemptProviderReference p).
Proof. unfold GetLatestPaymentAttemptProviderReference. evolve. Qed.
Lemma ev_ListRefundsForOrder o : evolves R (PgCommerce.ListRefundsForOrder o).
Proof. unfold PgCommerce.ListRefundsForOrder. evolve. Qed.
Lemma ev_GetRefundByIDForOrder o r : evolves R (GetRefundByIDForOrder o r).
Proof. unfold GetRefundByIDForOrder. evolve. Qed.
Lemma ev_GetRefundByOrderIdempotency o k : evolves R (GetRefundByOrderIdempotency o k).
Proof. unfold GetRefundByOrderIdempotency. evolve. Qed.
Lemma ev_SumNonFailedRefundAmountForPayment p : evolves R (SumNonFailedRefundAmountForPayment p).
Proof. unfold SumNonFailedRefundAmountForPayment. evolve. Qed.
Lemma ev_GetWinningPaymentForOrder o : evolves R (GetWinningPaymentForOrder o).
Proof. unfold GetWinningPaymentForOrder. evolve. Qed.
Lemma ev_GetLatestNonCapturedPaymentForOrder o : evolves R (GetLatestNonCapturedPaymentForOrder o).
Proof. unfold GetLatestNonCapturedPaymentForOrder. evolve. Qed.
Lemma ev_ListPaymentsForOrder o : evolves R (ListPaymentsForOrder o).
Proof. unfold ListPaymentsForOrder. evolve. Qed.
Lemma ev_GetOrderMoneyView o : evolves R (PgCommerce.GetOrderMoneyView o).
Proof. unfold PgCommerce.GetOrderMoneyView. evolve. Qed.
Lemma ev_TryReplay m k : evolves R (TryReplayCreateOrderWithVend m k).
Proof. unfold TryReplayCreateOrderWithVend. evolve. Qed.
End StoreReads.
#[export] Hint Resolve ev_GetOrderByID ev_GetVendSessionByOrderAndSlot
  ev_GetVendSessionByOrderAndLineSequence ev_ListVendSessionsForOrder ev_GetLatestPaymentForOrder
  ev_GetPaymentByID ev_GetLatestPaymentAttemptPayload ev_GetLatestPaymentAttemptProviderReference
  ev_ListRefundsForOrder ev_GetRefundByIDForOrder ev_GetRefundByOrderIdempotency
  ev_SumNonFailedRefundAmountForPayment ev_GetWinningPaymentForOrder
  ev_GetLatestNonCapturedPaymentForOrder ev_ListPaymentsForOrder ev_GetOrderMoneyView
  ev_TryReplay : evolves.

(** ** Writes *)

Section Writes.
Context {R : world -> world -> Prop} `{!Statement_rel safe R}.

Lemma ev_UpdateOrderStatusByOrg st o : evolves R (UpdateOrderStatusByOrg st o).
Proof. apply sr_stmt, UpdateOrderStatus_safe. Qed.
Lemma ev_ClaimWinningPaymentQ p o : evolves R (ClaimWinningPaymentQ p o).
Proof. apply sr_stmt, ClaimWinning_safe. Qed.
Lemma ev_InsertOrder id i source : evolves R (InsertOrder id (order_of_input i source)).
Proof. by apply sr_stmt, InsertOrder_safe. Qed.
Lemma ev_InsertVendSession o m p sl st sim run sc :
  evolves R (InsertVendSession o m p sl st sim run sc).
Proof. apply sr_stmt, InsertVendSession_safe. Qed.
Lemma ev_UpdateVendByLine st r o l : evolves R (UpdateVendSessionStateByOrderLineSequence st r o l).
Proof. apply sr_stmt, vend_moved_safe. Qed.
Lemma ev_UpdateVendBySlot st r o l : evolves R (UpdateVendSessionStateByOrderSlot st r o l).
Proof. apply sr_stmt, vend_moved_safe. Qed.
Lemma ev_SetVerificationByLine st o l :
  evolves R (SetVendSessionVerificationStatusByLineSequence st o l).
Proof. apply sr_stmt, vend_verified_safe. Qed.
Lemma ev_SetVerification st o l : evolves R (SetVendSessionVerificationStatus st o l).
Proof. apply sr_stmt, vend_verified_safe. Qed.
Lemma ev_InsertPayment row : evolves R (InsertPayment row).
Proof. apply sr_stmt, InsertPayment_safe. Qed.
Lemma ev_UpdatePaymentState p st : evolves R (UpdatePaymentState p st).
Proof. apply sr_stmt, payment_state_safe. Qed.
Lemma ev_ForceUpdatePaymentStateCaptured p : evolves R (ForceUpdatePaymentStateCaptured p).
Proof. apply sr_stmt, payment_state_safe. Qed.
Lemma ev_UpdatePaymentStateForReconciliation st p :
  evolves R (UpdatePaymentStateForReconciliation st p).
Proof. apply sr_stmt, payment_state_safe. Qed.
Lemma ev_UpdatePaymentOutcomeQ p out : evolves R (UpdatePaymentOutcomeQ p out).
Proof. apply sr_stmt, payment_outcome_safe. Qed.
Lemma ev_CancelPaymentByIDQ p : evolves R (CancelPaymentByIDQ p).
Proof. apply sr_stmt, payment_state_safe. Qed.
Lemma ev_InsertPaymentAttemptQ p r st pl : evolves R (InsertPaymentAttemptQ p r st pl).
Proof. apply sr_stmt, InsertPaymentAttempt_safe. Qed.
Lemma ev_InsertRefundRowQ row : evolves R (InsertRefundRowQ row).
Proof. apply sr_stmt, InsertRefundRow_safe. Qed.
Lemma ev_InsertPaymentProviderEvent row : evolves R (InsertPaymentProviderEvent row).
Proof. apply sr_stmt, InsertPaymentProviderEvent_safe. Qed.
Lemma ev_InsertOutboxEvent p : evolves R (InsertOutboxEvent p).
Proof. apply sr_stmt, InsertOutboxEvent_safe. Qed.
Lemma ev_InsertOutboxEventIdempotent p : evolves R (InsertOutboxEventIdempotent p).
Proof. apply sr_stmt, InsertOutboxEventIdempotent_safe. Qed.
Lemma ev_UpsertCase i : evolves R (UpsertCommerceReconciliationCase i).
Proof. apply sr_stmt, UpsertCase_safe. Qed.
Lemma ev_InsertOrderTimelineEvent o t p a : evolves R (InsertOrderTimelineEvent o t p a).
Proof. apply sr_stmt, InsertTimeline_safe. Qed.
Lemma ev_InsertFinancialLedgerEntry row : evolves R (InsertFinancialLedgerEntry row).
Proof. apply sr_stmt, InsertLedger_safe. Qed.
Lemma ev_InsertStockEvent row : evolves R (InventoryAdminInsertInventoryEventsBatch row).
Proof. apply sr_stmt, InsertStockEvent_safe. Qed.
Lemma ev_Relink id sl : evolves R (InventoryAdminRelinkCurrentMachineSlotConfigSlotIndex id sl).
Proof. apply sr_stmt, Relink_safe. Qed.
Lemma ev_UpsertSlot s : 0 <= ss_CurrentQuantity s -> evolves R (InventoryAdminUpsertMachineSlotState s).
Proof. intros Hq. by apply sr_stmt, UpsertSlot_safe. Qed.
End Writes.
#[export] Hint Resolve ev_UpdateOrderStatusByOrg ev_ClaimWinningPaymentQ ev_InsertOrder
  ev_InsertVendSession ev_UpdateVendByLine ev_UpdateVendBySlot ev_SetVerificationByLine
  ev_SetVerification ev_InsertPayment ev_UpdatePaymentState ev_ForceUpdatePaymentStateCaptured
  ev_UpdatePaymentStateForReconciliation ev_UpdatePaymentOutcomeQ ev_CancelPaymentByIDQ
  ev_InsertPaymentAttemptQ ev_InsertRefundRowQ ev_InsertPaymentProviderEvent
  ev_InsertOutboxEvent ev_InsertOutboxEventIdempotent ev_UpsertCase
  ev_InsertOrderTimelineEvent ev_InsertFinancialLedgerEntry ev_InsertStockEvent ev_Relink
  ev_UpsertSlot : evolves.

Section StoreWrites.
Context {R : world -> world -> Prop} `{!Statement_rel safe R}.

Lemma ev_UpdateOrderStatus o c st : evolves R (UpdateOrderStatus o c st).
Proof. unfold UpdateOrderStatus. evolve. Qed.
Lemma ev_UpdateVendSessionState p : evolves R (UpdateVendSessionState p).
Proof. unfold UpdateVendSessionState. evolve. Qed.
Lemma ev_InsertPaymentAttempt i : evolves R (InsertPaymentAttempt i).
Proof. unfold InsertPaymentAttempt. evolve. Qed.
Lemma ev_InsertRefundRow i : evolves R (InsertRefundRow i).
Proof. unfold InsertRefundRow. evolve. Qed.
Lemma ev_ClaimWinningPayment p o : evolves R (ClaimWinningPayment p o).
Proof. unfold ClaimWinningPayment. evolve. Qed.
Lemma ev_UpdatePaymentOutcome p o : evolves R (UpdatePaymentOutcome p o).
Proof. unfold UpdatePaymentOutcome. evolve. Qed.
Lemma ev_CancelPaymentByID p : evolves R (CancelPaymentByID p).
Proof. unfold CancelPaymentByID. evolve. Qed.
Lemma ev_InsertAcceptance machine device cur order ev b :
  evolves R (InsertCashAcceptanceEvent machine device (fun now id =>
      mk_CashAcceptanceRow id machine (Some order) device
        (cae_DenominationMinor ev) (cae_CreditSource ev) cur (cae_AcceptedAt ev)
        b (RequiredString (cae_RawMetadata ev)) now)).
Proof. by apply sr_stmt, InsertAcceptance_safe. Qed.
Hint Resolve ev_InsertAcceptance : evolves.
Lemma ev_RecordCashAcceptanceEvents i : evolves R (RecordCashAcceptanceEvents i).
Proof. unfold RecordCashAcceptanceEvents. evolve. Qed.
Lemma ev_RecordCashAllocation i : evolves R (RecordCashAllocation i).
Proof. unfold RecordCashAllocation. apply evolves_fmap. by apply sr_stmt, InsertAllocation_safe. Qed.
Lemma ev_RecordCashChangeEvent i : evolves R (RecordCashChangeEvent i).
Proof. unfold RecordCashChangeEvent. apply evolves_fmap. by apply sr_stmt, InsertChange_safe. Qed.
Lemma ev_InsertLedgerEntry i : evolves R (InsertLedgerEntry i).
Proof. unfold InsertLedgerEntry. evolve. Qed.
Lemma ev_UpsertReconciliationCase i : evolves R (UpsertReconciliationCase i).
Proof. unfold UpsertReconciliationCase. evolve. Qed.

Lemma ev_find_or_insert_order i : evolves R (find_or_insert_order i).
Proof. unfold find_or_insert_order. evolve. Qed.
Hint Resolve ev_find_or_insert_order : evolves.
Lemma ev_CreateOrderWithVendSession i : evolves R (CreateOrderWithVendSession i).
Proof. unfold CreateOrderWithVendSession. case_match; [evolve|]. apply sr_tx. evolve. Qed.
Lemma ev_allocatePaymentAttemptSeq i : evolves R (allocatePaymentAttemptSeq i).
Proof. unfold allocatePaymentAttemptSeq. evolve. Qed.
Hint Resolve ev_allocatePaymentAttemptSeq : evolves.
Lemma ev_CreatePaymentWithOutbox i : evolves R (CreatePaymentWithOutbox i).
Proof.
  unfold CreatePaymentWithOutbox, replay_payment, insert_payment. case_match; [evolve|].
  apply sr_tx. evolve.
Qed.
End StoreWrites.
#[export] Hint Resolve ev_UpdateOrderStatus ev_UpdateVendSessionState ev_InsertPaymentAttempt
  ev_InsertRefundRow ev_ClaimWinningPayment ev_UpdatePaymentOutcome ev_CancelPaymentByID
  ev_RecordCashAcceptanceEvents ev_RecordCashAllocation ev_RecordCashChangeEvent
  ev_InsertLedgerEntry ev_UpsertReconciliationCase ev_CreateOrderWithVendSession
  ev_CreatePaymentWithOutbox ev_find_or_insert_order ev_allocatePaymentAttemptSeq : evolves.

(** ** Webhooks and reconciliation

    What the delivery of a webhook asks of its writes: the states it gives a
    payment satisfy [ok], or are "captured". *)

Class WebhookStatements (ok : string -> Prop) (R : world -> world -> Prop) : Prop := {
  ws_claim p o : evolves R (ClaimWinningPaymentQ p o);
  ws_status st o : evolves R (UpdateOrderStatusByOrg st o);
  ws_state p st : ok st -> evolves R (UpdatePaymentState p st);
  ws_force p : evolves R (ForceUpdatePaymentStateCaptured p);
  ws_outcome p out : evolves R (UpdatePaymentOutcomeQ p out);
  ws_attempt p r st pl : evolves R (InsertPaymentAttemptQ p r st pl);
  ws_event row : evolves R (InsertPaymentProviderEvent row);
  ws_outbox p : evolves R (InsertOutboxEvent p);
  ws_case i : evolves R (UpsertCommerceReconciliationCase i) }.
#[export] Instance webhook_statements_safe R `{!Statement_rel safe R} : WebhookStatements (fun _ => True) R.
Proof. split; evolve. Qed.

Section WebhookLaws.
Context {P : pgdb -> pgdb -> Prop} {R : world -> world -> Prop} `{!Statement_rel P R} `{UuidText}.
Context {ok : string -> Prop} `{!WebhookStatements ok R}.
Context (audit : option (AuditRecord -> M world unit)).
Context (audit_ok : forall record r, audit = Some record -> evolves R (record r)).
Hint Resolve ws_claim ws_status ws_state ws_force ws_outcome ws_attempt ws_event ws_outbox ws_case : evolves.

Lemma ev_promoteCapturedOrderIfNeeded o p : evolves R (promoteCapturedOrderIfNeeded o p).
Proof. unfold promoteCapturedOrderIfNeeded. evolve. Qed.
Hint Resolve ev_promoteCapturedOrderIfNeeded : evolves.
Lemma ev_webhookReplayResultFromEvent e i : evolves R (webhookReplayResultFromEvent e i).
Proof. unfold webhookReplayResultFromEvent. evolve. Qed.
Hint Resolve ev_webhookReplayResultFromEvent : evolves.
Lemma ev_webhookReplayAfterUniqueViolation i : evolves R (webhookReplayAfterUniqueViolation i).
Proof.
  unfold webhookReplayAfterUniqueViolation. apply evolves_bind; [apply _| |].
  - apply ev_optional_row. unfold webhookReplayByProviderRef. evolve.
  - intros []; [evolve|]. case_match; [evolve|]. apply evolves_bind; [apply _| |evolve].
    apply ev_optional_row. unfold webhookReplayByWebhookEventID. evolve.
Qed.
Lemma ev_auditPaymentWebhookTx i b m : evolves R (auditPaymentWebhookTx audit i b m).
Proof. unfold auditPaymentWebhookTx. destruct audit; [by apply audit_ok|evolve]. Qed.
Hint Resolve ev_auditPaymentWebhookTx : evolves.
Lemma ev_settle_capture o p : evolves R (settle_capture o p).
Proof. unfold settle_capture. evolve. Qed.
Lemma ev_settle_late_capture o p : evolves R (settle_late_capture o p).
Proof. unfold settle_late_capture. evolve. Qed.
Hint Resolve ev_settle_capture ev_settle_late_capture : evolves.
Lemma ev_record_applied i o p t l e : evolves R (record_applied audit i o p t l e).
Proof. unfold record_applied. evolve. Qed.
Hint Resolve ev_record_applied : evolves.
Lemma ev_apply_new i : ok (TrimSpace (ToLower (wh_NormalizedPaymentState i))) -> evolves R (apply_new audit i).
Proof. intros Hok. unfold apply_new. evolve. Qed.
Hint Resolve ev_apply_new : evolves.
Lemma ev_replay_recorded i e : evolves R (replay_recorded audit i e).
Proof. unfold replay_recorded. evolve. Qed.
Hint Resolve ev_replay_recorded : evolves.
Lemma ev_webhook_body i : ok (TrimSpace (ToLower (wh_NormalizedPaymentState i))) -> evolves R (webhook_body audit i).
Proof. intros Hok. unfold webhook_body. evolve. Qed.
Lemma ev_ApplyPaymentProviderWebhook i :
  ok (TrimSpace (ToLower (wh_NormalizedPaymentState i))) ->
  evolves R (PgCommerce.ApplyPaymentProviderWebhook audit i).
Proof.
  intros Hok. apply evolves_bind; [apply _|by apply sr_tx, ev_webhook_body|].
  intros []; [evolve|apply ev_webhookReplayAfterUniqueViolation].
Qed.
End WebhookLaws.

Section ReconcileLaws.
Context {R : world -> world -> Prop} `{!Statement_rel safe R} `{UuidText}.

Lemma ev_reconcile_body i to cur : evolves R (reconcile_body i to cur).
Proof. unfold reconcile_body. evolve. Qed.
Lemma ev_ApplyReconciledPaymentTransition i : evolves R (ApplyReconciledPaymentTransition i).
Proof.
  unfold ApplyReconciledPaymentTransition. pose proof ev_reconcile_body as Hb.
  repeat (case_match; [evolve|]). apply evolves_bind; [apply _|evolve|intros cur].
  apply evolves_bind; [apply _|evolve|intros _].
  repeat (case_match; [evolve|]). apply sr_tx, Hb.
Qed.
End ReconcileLaws.
#[export] Hint Resolve ev_ApplyReconciledPaymentTransition : evolves.

(** ** Fulfilment *)

Section FulfilLaws.
Context {R : world -> world -> Prop} `{!Statement_rel safe R} `{UuidText} `{Sha256}.

Lemma ev_resolveMachineGridCols m : evolves R (resolveMachineGridCols m).
Proof. unfold resolveMachineGridCols. evolve. Qed.
Lemma ev_config_by_code cfgs slot product codes :
  evolves R (config_by_code cfgs slot product codes).
Proof. induction codes; cbn; evolve. Qed.
Lemma ev_config_by_planogram m slot product codes :
  evolves R (config_by_planogram m slot product codes).
Proof. induction codes; cbn; evolve. Qed.
Hint Resolve ev_resolveMachineGridCols ev_config_by_code ev_config_by_planogram : evolves.
Lemma ev_resolveVendSlotConfigWithFallbacks m s p cfgs :
  evolves R (resolveVendSlotConfigWithFallbacks m s p cfgs).
Proof. unfold resolveVendSlotConfigWithFallbacks. evolve. Qed.
Lemma ev_resolveVendLegacyPlanogramID m l : evolves R (resolveVendLegacyPlanogramID m l).
Proof. unfold resolveVendLegacyPlanogramID. evolve. Qed.
Hint Resolve ev_resolveVendSlotConfigWithFallbacks ev_resolveVendLegacyPlanogramID : evolves.

Lemma ev_UpsertSlot_at s : (0 <=? ss_CurrentQuantity s) = true ->
  evolves R (InventoryAdminUpsertMachineSlotState s).
Proof. intros Hq%Z.leb_le. by apply ev_UpsertSlot. Qed.

Lemma ev_resolveVendSlotSnapshot m s p : evolves R (resolveVendSlotSnapshot m s p).
Proof.
  unfold resolveVendSlotSnapshot. apply evolves_bind; [apply _|evolve|intros slots].
  case_match; [evolve|]. apply evolves_bind; [apply _|evolve|intros cfgs].
  apply evolves_bind; [apply _|evolve|intros cfg]. apply evolves_bind; [apply _|evolve|intros pg].
  apply evolves_bind; [apply _| |evolve]. apply ev_UpsertSlot. cbn.
  destruct (Z.ltb_spec (vc_MaxQuantity cfg) 1); lia.
Qed.
Hint Resolve ev_resolveVendSlotSnapshot : evolves.
Lemma ev_applyInventoryTx sc m o s l p k c :
  evolves R (applyCommerceVendSuccessInventoryTx sc m o s l p k c).
Proof.
  unfold applyCommerceVendSuccessInventoryTx. case_match; [evolve|].
  apply evolves_bind; [apply _|evolve|intros _]. case_match; [evolve|].
  apply evolves_bind; [apply _|evolve|intros v]. case_match; [evolve|]. case_match; [evolve|].
  apply evolves_bind; [apply _|evolve|intros cnt]. case_match; [evolve|].
  apply evolves_bind; [apply _|evolve|intros snap].
  destruct (Z.ltb_spec (ms_CurrentQuantity snap) 1); [evolve|].
  apply evolves_bind; [apply _|evolve|intros now]. apply evolves_bind; [apply _|evolve|intros _].
  apply evolves_bind; [apply _| |evolve]. apply ev_UpsertSlot. cbn. lia.
Qed.
Hint Resolve ev_applyInventoryTx : evolves.
Lemma ev_ApplyCommerceVendSuccessInventory sc m o s p k c :
  evolves R (ApplyCommerceVendSuccessInventory sc m o s p k c).
Proof. apply sr_tx. evolve. Qed.

Lemma ev_resolveAuthoritativePaymentRow o w : evolves R (resolveAuthoritativePaymentRow o w).
Proof. unfold resolveAuthoritativePaymentRow. evolve. Qed.
Lemma ev_settle_order o ord : evolves R (settle_order o ord).
Proof. unfold settle_order. evolve. Qed.
Lemma ev_resolveOrderStatusAfterFailedVend o ord : evolves R (resolveOrderStatusAfterFailedVend ord o).
Proof. unfold resolveOrderStatusAfterFailedVend. evolve. Qed.
Lemma ev_update_vend_state st r o l s : evolves R (update_vend_state st r o l s).
Proof. unfold update_vend_state. evolve. Qed.
Lemma ev_set_verification st o l s : evolves R (set_verification st o l s).
Proof. unfold set_verification. evolve. Qed.
Lemma ev_insertOutboxEventIdempotent p : evolves R (insertOutboxEventIdempotent p).
Proof. unfold insertOutboxEventIdempotent. evolve. Qed.
Lemma ev_InsertEvidence i e d dig :
  evolves R (InsertVendHardwareEvidence d (fun _ id =>
          mk_EvidenceRow id (pei_OrderID i) (pei_VendSessionID i) (pei_MachineID i)
            (pei_SlotIndex i) (ev_VendAttemptID e) (ev_CorrelationID e)
            (TrimSpace (hc_CommandID (ev_Command e))) dig e d)).
Proof. by apply sr_stmt, InsertEvidence_safe. Qed.
Hint Resolve ev_InsertEvidence : evolves.
Lemma ev_persistVendHardwareEvidenceTx i : evolves R (persistVendHardwareEvidenceTx i).
Proof. unfold persistVendHardwareEvidenceTx. evolve. Qed.
Lemma ev_emitLedger m o p a c co k : evolves R (emitVendSuccessFinancialLedgerTx m o p a c co k).
Proof. unfold emitVendSuccessFinancialLedgerTx. evolve. Qed.
Hint Resolve ev_resolveAuthoritativePaymentRow ev_settle_order ev_resolveOrderStatusAfterFailedVend
  ev_update_vend_state ev_set_verification ev_insertOutboxEventIdempotent
  ev_persistVendHardwareEvidenceTx ev_emitLedger : evolves.
Lemma ev_lockSuccessful i : evolves R (lockSuccessfulVendSessionForUpdate i).
Proof. unfold lockSuccessfulVendSessionForUpdate. evolve. Qed.
Lemma ev_lockFailed i : evolves R (lockFailedVendSessionForUpdate i).
Proof. unfold lockFailedVendSessionForUpdate. evolve. Qed.
Lemma ev_close_success i o p l : evolves R (close_success i o p l).
Proof. unfold close_success. evolve. Qed.
Lemma ev_record_unverified i k o v ord l : evolves R (record_unverified i k o v ord l).
Proof. unfold record_unverified. evolve. Qed.
Hint Resolve ev_lockSuccessful ev_lockFailed ev_close_success ev_record_unverified : evolves.
Lemma ev_record_success i k o p l a b : evolves R (record_success i k o p l a b).
Proof. unfold record_success. evolve. Qed.
Lemma ev_record_failure i o a b : evolves R (record_failure i o a b).
Proof. unfold record_failure. evolve. Qed.
Hint Resolve ev_record_success ev_record_failure : evolves.
Lemma ev_success_body i k : evolves R (success_body i k).
Proof. unfold success_body, success_rest. evolve. Qed.
Lemma ev_failed_body i : evolves R (failed_body i).
Proof. unfold failed_body, failed_rest. evolve. Qed.
Lemma ev_FulfillSuccessful i : evolves R (FulfillSuccessfulVendAtomically i).
Proof. unfold FulfillSuccessfulVendAtomically. case_match; [evolve|apply sr_tx, ev_success_body]. Qed.
Lemma ev_FulfillFailed i : evolves R (FulfillFailedVendAtomically i).
Proof. apply sr_tx, ev_failed_body. Qed.
End FulfilLaws.
#[export] Hint Resolve ev_FulfillSuccessful ev_FulfillFailed ev_ApplyCommerceVendSuccessInventory : evolves.
