(* ===== verification/Logic.v ===== *)
(** * Reasoning about a quiet database

    A weakest-precondition calculus for the handlers, and its rules for
    statements and transactions when nothing fails and no other client acts
    ([calm]): the functional behaviour of a request is what it does then.
    [stmt_done] is the corresponding fact for any schedule. *)

From S2P Require Import Prelude.
From S2P Require Import GoStd.
From S2P Require Import Pricing.
From S2P Require Import CommerceTypes.
From S2P Require Import Rules.
From S2P Require Import CommerceService.
From S2P Require Import Db.
From S2P Require Import Queries.
From S2P Require Import History.
From S2P Require Import PgCommerce.
Local Open Scope string_scope.
Local Open Scope list_scope.
Local Open Scope Z_scope.

(** ** Weakest preconditions *)

Definition wp {W A} (m : M W A) (Q : res A -> W -> Prop) (w : W) : Prop := Q (m w).1 (m w).2.

Section Wp.
Context {W : Type}.

Lemma wp_bind {A B} (m : M W A) (k : A -> M W B) Q w :
  wp m (fun r w' => match r with Ok a => wp (k a) Q w' | Err e => Q (Err e) w' end) w ->
  wp (bind m k) Q w.
Proof. unfold wp, bind. by destruct (m w) as [[a|e] w']. Qed.
Lemma wp_ret {A} (a : A) (Q : res A -> W -> Prop) w : Q (Ok a) w -> wp (ret a) Q w.
Proof. done. Qed.
Lemma wp_fail {A} e (Q : res A -> W -> Prop) w : Q (Err e) w -> wp (fail e) Q w.
Proof. done. Qed.
Lemma wp_lift {A} (r : res A) (Q : res A -> W -> Prop) w : Q r w -> wp (lift r) Q w.
Proof. done. Qed.
Lemma wp_attempt {A} (m : M W A) Q w : wp m (fun r w' => Q (Ok r) w') w -> wp (attempt m) Q w.
Proof. unfold wp, attempt. by destruct (m w). Qed.
Lemma wp_ignore {A} (m : M W A) Q w : wp m (fun _ w' => Q (Ok tt) w') w -> wp (ignore m) Q w.
Proof. done. Qed.
Lemma wp_fmap {A B} (f : A -> B) (m : M W A) Q w :
  wp m (fun r w' => Q (match r with Ok a => Ok (f a) | Err e => Err e end) w') w ->
  wp (fmap_M f m) Q w.
Proof. unfold wp, fmap_M. by destruct (m w) as [[a|e] w']. Qed.
Lemma wp_mono {A} (m : M W A) (Q Q' : res A -> W -> Prop) w :
  (forall r w', Q r w' -> Q' r w') -> wp m Q w -> wp m Q' w.
Proof. unfold wp. auto. Qed.
Lemma wp_guard b e (Q : res unit -> W -> Prop) w :
  (b = true -> Q (Err e) w) -> (b = false -> Q (Ok tt) w) -> wp (guard b e) Q w.
Proof. intros. unfold wp, guard, lift, guard_err. destruct b; auto. Qed.
Lemma wp_need {D} (d : D) (Q : res D -> W -> Prop) w : Q (Ok d) w -> wp (need (Some d)) Q w.
Proof. done. Qed.
Lemma wp_run {A} (m : M W A) w r w' Q : m w = (r, w') -> wp m Q w -> Q r w'.
Proof. unfold wp. by intros ->. Qed.
End Wp.

(** ** A quiet world *)

(** [calm_from n]: the keys still to be generated are [n] and up. *)
Record calm_from (n : N) (t : txstate) (d : pgdb) (w : world) : Prop := mk_calm {
  calm_db : w_db w = d; calm_tx : w_tx w = t; calm_sched : w_sched w = [];
  calm_next : (n <= w_next w)%N }.
Notation calm := (calm_from 0).
Lemma calm_weaken n m t d w : (m <= n)%N -> calm_from n t d w -> calm_from m t d w.
Proof. intros Hm []. split; [done..|lia]. Qed.

Lemma wp_stmt {A} (f : sql A) n t d w (Q : res A -> world -> Prop) :
  calm_from n t d w -> t <> Aborted ->
  (forall now id a d' w', (n <= id)%N -> f now id d = Ok (Some a, d') -> calm_from n t d' w' -> Q (Ok a) w') ->
  (forall now id d' w', (n <= id)%N -> f now id d = Ok (None, d') -> calm_from n t d' w' -> Q (Err ErrNoRows) w') ->
  (forall now id e w', (n <= id)%N -> f now id d = Err e -> calm_from n (failed_tx t) d w' -> Q (Err e) w') ->
  wp (stmt f) Q w.
Proof.
  intros [Hd Ht Hs Hn] Hna Hok Hno Herr. unfold wp, stmt. rewrite Ht, Hs. cbn [next_event].
  destruct t; try done; rewrite Hd;
    (destruct (f (w_now w) (w_next w) d) as [[[a|] d']|e] eqn:E; cbn;
      [eapply Hok; [exact Hn|exact E|]|eapply Hno; [exact Hn|exact E|]|eapply Herr; [exact Hn|exact E|]];
      split; cbn; try done; lia).
Qed.

(** The same, at the time of the world, which does not move. *)
Lemma wp_stmt_at {A} (f : sql A) n t d w (Q : res A -> world -> Prop) :
  calm_from n t d w -> t <> Aborted ->
  (forall id a d' w', f (w_now w) id d = Ok (Some a, d') -> w_now w' = w_now w -> calm_from n t d' w' -> Q (Ok a) w') ->
  (forall id d' w', f (w_now w) id d = Ok (None, d') -> calm_from n t d' w' -> Q (Err ErrNoRows) w') ->
  (forall id e w', f (w_now w) id d = Err e -> calm_from n (failed_tx t) d w' -> Q (Err e) w') ->
  wp (stmt f) Q w.
Proof.
  intros [Hd Ht Hs Hn] Hna Hok Hno Herr. unfold wp, stmt. rewrite Ht, Hs. cbn [next_event].
  destruct t; try done; rewrite Hd;
    (destruct (f (w_now w) (w_next w) d) as [[[a|] d']|e] eqn:E; cbn;
      [eapply Hok; [exact E|done|]|eapply Hno; [exact E|]|eapply Herr; [exact E|]];
      split; cbn; try done; lia).
Qed.

Lemma wp_select_one {A} (f : pgdb -> option A) n t d w (Q : res A -> world -> Prop) :
  calm_from n t d w -> t <> Aborted ->
  (forall a w', f d = Some a -> calm_from n t d w' -> Q (Ok a) w') ->
  (forall w', f d = None -> calm_from n t d w' -> Q (Err ErrNoRows) w') ->
  wp (stmt (select_one f)) Q w.
Proof.
  intros Hc Hna Hs Hn. eapply wp_stmt; [done|done|..].
  - intros now id a d' w' _ [= E <-] Hc'. eauto.
  - intros now id d' w' _ [= E <-] Hc'. eauto.
  - by intros now id e w' _ [=].
Qed.
Lemma wp_select_many {A} (f : pgdb -> list A) n t d w (Q : res (list A) -> world -> Prop) :
  calm_from n t d w -> t <> Aborted -> (forall w', calm_from n t d w' -> Q (Ok (f d)) w') ->
  wp (stmt (select_many f)) Q w.
Proof.
  intros Hc Hna Hs. eapply wp_stmt; [done|done|..].
  - intros now id a d' w' _ [= <- <-] Hc'. eauto.
  - by intros now id d' w' _ [=].
  - by intros now id e w' _ [=].
Qed.
Lemma wp_insert_row {A} (set : (list A -> list A) -> pgdb -> pgdb) chk row n t d w
    (Q : res A -> world -> Prop) :
  calm_from n t d w -> t <> Aborted ->
  (forall now id w', (n <= id)%N -> chk (row now id) d = Ok tt ->
     calm_from n t (set (fun l => l ++ [row now id]) d) w' -> Q (Ok (row now id)) w') ->
  (forall now id e w', (n <= id)%N -> chk (row now id) d = Err e -> calm_from n (failed_tx t) d w' -> Q (Err e) w') ->
  wp (stmt (insert_row set chk row)) Q w.
Proof.
  intros Hc Hna Hok Herr. eapply wp_stmt; [done|done|..]; unfold insert_row.
  - intros now id a d' w' Hid. destruct (chk _ _) as [[]|] eqn:E; [|done]. intros [= <- <-]. eauto.
  - intros now id d' w' _. by destruct (chk _ _).
  - intros now id e w' Hid. destruct (chk _ _) eqn:E; [done|]. intros [= <-]. eauto.
Qed.
Lemma wp_update_rows {A} get (set : (list A -> list A) -> pgdb -> pgdb) chk p f n t d w
    (Q : res A -> world -> Prop) :
  calm_from n t d w -> t <> Aborted ->
  (forall now r w', List.find p (get d) = Some r -> chk (f now r) d = Ok tt ->
     calm_from n t (set (update_where p (f now)) d) w' -> Q (Ok (f now r)) w') ->
  (forall w', List.find p (get d) = None -> calm_from n t d w' -> Q (Err ErrNoRows) w') ->
  (forall now r e w', List.find p (get d) = Some r -> chk (f now r) d = Err e ->
     calm_from n (failed_tx t) d w' -> Q (Err e) w') ->
  wp (stmt (update_rows get set chk p f)) Q w.
Proof.
  intros Hc Hna Hok Hno Herr. eapply wp_stmt; [done|done|..]; unfold update_rows.
  - intros now id a d' w' Hid. destruct (List.find _ _) as [r|] eqn:E; [|done].
    destruct (chk _ _) as [[]|] eqn:Ec; [|done]. intros [= <- <-]. eauto.
  - intros now id d' w' _. destruct (List.find _ _) as [r|] eqn:E; [by destruct (chk _ _)|].
    intros [= <-]. eauto.
  - intros now id e w' Hid. destruct (List.find _ _) as [r|] eqn:E; [|done].
    destruct (chk _ _) eqn:Ec; [done|]. intros [= <-]. eauto.
Qed.
(** In an aborted transaction. *)
Lemma wp_aborted {A} (f : sql A) n d w (Q : res A -> world -> Prop) :
  calm_from n Aborted d w -> Q (Err pg_in_failed_tx) w -> wp (stmt f) Q w.
Proof. intros [Hd Ht Hs _] HQ. unfold wp, stmt. by rewrite Ht. Qed.
Lemma wp_time_Now n t d w (Q : res Z -> world -> Prop) :
  calm_from n t d w -> (forall now, Q (Ok now) w) -> wp time_Now Q w.
Proof. intros _ HQ. apply HQ. Qed.

(** How a transaction ends. *)
Definition tx_post {A} (n : N) (d : pgdb) (Q : res A -> world -> Prop) (r : res (tx_end A)) (w : world)
    : Prop :=
  match r with
  | Ok (Commit a) =>
      (exists d', calm_from n InTx d' w /\ forall w', calm_from n NoTx d' w' -> Q (Ok a) w') \/
      (exists d', calm_from n Aborted d' w /\ forall w', calm_from n NoTx d w' -> Q (Err ErrTxCommitRollback) w')
  | Ok (Rollback a) => (w_sched w = [] /\ (n <= w_next w)%N) /\ forall w', calm_from n NoTx d w' -> Q (Ok a) w'
  | Err e => (w_sched w = [] /\ (n <= w_next w)%N) /\ forall w', calm_from n NoTx d w' -> Q (Err e) w'
  end.
(** A transaction begins one tick later. *)
Lemma wp_with_tx_at {A} (body : M world (tx_end A)) n d w (Q : res A -> world -> Prop) :
  calm_from n NoTx d w ->
  (forall w', calm_from n InTx d w' -> w_now w' = w_now w + 1 -> wp body (tx_post n d Q) w') ->
  wp (with_tx body) Q w.
Proof.
  intros [Hd Ht Hs Hn] Hb. unfold wp, with_tx. rewrite Hs. cbn [next_event]. unfold run_tx.
  specialize (Hb (mk_world (w_db w) InTx [] (w_now w + 1) (w_next w))).
  unfold wp in Hb. destruct (body _) as [[[a|a]|e] w1]; cbn in *.
  - destruct Hb as [(d' & [Hd' Ht' Hs' Hn'] & HQ)|(d' & [Hd' Ht' Hs' Hn'] & HQ)]; [by split|done|..];
      rewrite Ht'; cbn; [rewrite Hs'|]; apply HQ; split; cbn; congruence.
  - destruct Hb as [[Hs' Hn'] HQ]; [by split|done|]. apply HQ. by split.
  - destruct Hb as [[Hs' Hn'] HQ]; [by split|done|]. apply HQ. by split.
Qed.
Lemma wp_with_tx {A} (body : M world (tx_end A)) n d w (Q : res A -> world -> Prop) :
  calm_from n NoTx d w -> (forall w', calm_from n InTx d w' -> wp body (tx_post n d Q) w') -> wp (with_tx body) Q w.
Proof. intros Hc Hb. eapply wp_with_tx_at; [done|]. auto. Qed.

(** Statements take no time. *)
Definition same_clock (w w' : world) : Prop := w_now w' = w_now w.
#[export] Instance same_clock_preorder : PreOrder same_clock.
Proof. split; unfold same_clock; [done|]. intros x y z. congruence. Qed.
Lemma same_clock_stmt {A} (f : sql A) : evolves same_clock (stmt f).
Proof.
  intros w. unfold stmt, same_clock. destruct (w_tx w); try done;
    destruct (next_event (w_sched w)) as [ev s]; destruct ev; cbn; try done;
    by destruct (f _ _ _) as [[[a|] d']|e].
Qed.
Lemma same_clock_optional_row {A} (f : sql A) : evolves same_clock (optional_row (stmt f)).
Proof. unfold optional_row. pose proof (same_clock_stmt f). evolve. Qed.
#[export] Hint Resolve same_clock_stmt same_clock_optional_row : evolves.
Lemma wp_clock {A} (m : M world A) (Q : res A -> world -> Prop) w :
  evolves same_clock m -> wp m (fun r w' => w_now w' = w_now w -> Q r w') w -> wp m Q w.
Proof. intros Hm HQ. apply HQ, Hm. Qed.

(** ** Any schedule *)

(** A statement that returned a row ran on tables the other clients may have
    moved from where they were. *)
Lemma stmt_done {A} P `{!PreOrder P} (f : sql A) w a w' :
  stmt f w = (Ok a, w') -> polite P (w_sched w) ->
  exists d now id, P (w_db w) d /\ f now id d = Ok (Some a, w_db w').
Proof.
  intros E Hp. unfold stmt in E.
  pose proof (fun d => polite_seen P _ _ d Hp eq_refl) as Hs.
  destruct (next_event (w_sched w)) as [ev s]; cbn [fst] in Hs. specialize (Hs (w_db w)).
  destruct (w_tx w) eqn:Et; [| |done].
  - set (d := match ev with Other g => g (w_db w) | _ => w_db w end) in *.
    exists d, (w_now w), (w_next w). split; [done|]. revert E. subst d.
    destruct ev; cbn; try done; destruct (f _ _ _) as [[[b|] d']|e]; cbn; try done; by intros [= <- <-].
  - exists (w_db w), (w_now w), (w_next w). split; [reflexivity|]. revert E.
    destruct ev; cbn; try done; destruct (f _ _ _) as [[[b|] d']|e]; cbn; try done; by intros [= <- <-].
Qed.

(** What holds of every row the statement can return at its time. *)
Lemma stmt_result {A} (f : sql A) (P : A -> Prop) w a w' :
  (forall id d b d', f (w_now w) id d = Ok (Some b, d') -> P b) -> stmt f w = (Ok a, w') -> P a.
Proof.
  intros Hf. unfold stmt. destruct (w_tx w); [| |done];
    destruct (next_event (w_sched w)) as [ev s]; destruct ev; try done;
    (destruct (f _ _ _) as [[[b|] d']|e] eqn:E; try done; intros [= <- <-]; by eapply Hf).
Qed.

(** A transaction that returned ran its body on tables the other clients may
    have moved, and if it committed those are the tables now. *)
Lemma with_tx_done {A} P `{!PreOrder P} (body : M world (tx_end A)) w a w' :
  with_tx body w = (Ok a, w') -> polite P (w_sched w) ->
  exists w0 w1, P (w_db w) (w_db w0) /\ polite P (w_sched w0) /\
    ((body w0 = (Ok (Commit a), w1) /\ w_db w' = w_db w1) \/ body w0 = (Ok (Rollback a), w1)).
Proof.
  intros E Hp. unfold with_tx in E.
  pose proof (fun d => polite_seen P _ _ d Hp eq_refl) as Hs. pose proof (polite_next P _ Hp) as Hn.
  destruct (next_event (w_sched w)) as [ev s]; cbn [fst snd] in Hs, Hn. specialize (Hs (w_db w)).
  assert (Hrun : forall d, P (w_db w) d -> run_tx body d s (w_now w + 1) (w_next w) = (Ok a, w') ->
    exists w0 w1, P (w_db w) (w_db w0) /\ polite P (w_sched w0) /\
      ((body w0 = (Ok (Commit a), w1) /\ w_db w' = w_db w1) \/ body w0 = (Ok (Rollback a), w1))).
  { intros d Hd Er. unfold run_tx in Er. exists (mk_world d InTx s (w_now w + 1) (w_next w)).
    destruct (body _) as [[[b|b]|e] w1] eqn:Eb; [| |done].
    - destruct (w_tx w1); try done. destruct (next_event (w_sched w1)) as [ev' s'].
      exists w1. split; [done|]. split; [done|]. left.
      destruct ev'; try done; injection Er as <- <-; done.
    - exists w1. split; [done|]. split; [done|]. right. by injection Er as <- _. }
  destruct ev; try done; eapply Hrun; done.
Qed.

(** ** Stepping through a handler

    [wp_go] applies the rules until a query; [wp_one], [wp_many], [wp_insert]
    and [wp_update] apply the rule of the query, leaving its outcomes. *)
Lemma wp_or_not_found {A} (m : M world A) Q w :
  wp m (fun r w' => Q (match r with
                       | Ok a => Ok a
                       | Err e => if isNoRows e then Err ErrNotFound else Err e
                       end) w') w ->
  wp (or_not_found m) Q w.
Proof.
  intros Hm. apply wp_bind, wp_attempt. eapply wp_mono; [|exact Hm].
  intros [a|e] w'; [done|]. cbn beta iota. by destruct (isNoRows e).
Qed.
Lemma wp_or_not_found_eq {A} (m : M world A) Q w :
  wp m (fun r w' => Q (match r with
                       | Ok a => Ok a
                       | Err e => if bool_decide (e = ErrNoRows) then Err ErrNotFound else Err e
                       end) w') w ->
  wp (or_not_found_eq m) Q w.
Proof.
  intros Hm. apply wp_bind, wp_attempt. eapply wp_mono; [|exact Hm].
  intros [a|e] w'; [done|]. cbn beta iota. by destruct (bool_decide _).
Qed.
Lemma wp_optional_row {A} (m : M world A) Q w :
  wp m (fun r w' => Q (match r with
                       | Ok a => Ok (Some a)
                       | Err e => if isNoRows e then Ok None else Err e
                       end) w') w ->
  wp (optional_row m) Q w.
Proof.
  intros Hm. apply wp_bind, wp_attempt. eapply wp_mono; [|exact Hm].
  intros [a|e] w'; [done|]. cbn beta iota. by destruct (isNoRows e).
Qed.
Lemma isNoRows_ErrNoRows : isNoRows ErrNoRows = true. Proof. reflexivity. Qed.

Ltac wp_steps :=
  repeat (cbn beta iota; lazymatch goal with
  | |- wp (bind _ _) _ _ => apply wp_bind
  | |- wp (ret _) _ _ => apply wp_ret
  | |- wp (fail _) _ _ => apply wp_fail
  | |- wp (lift _) _ _ => apply wp_lift
  | |- wp (attempt _) _ _ => apply wp_attempt
  | |- wp (ignore _) _ _ => apply wp_ignore
  | |- wp (fmap_M _ _) _ _ => apply wp_fmap
  | |- wp (need (Some _)) _ _ => apply wp_need
  | |- wp (or_not_found _) _ _ => apply wp_or_not_found
  | |- wp (or_not_found_eq _) _ _ => apply wp_or_not_found_eq
  | |- wp (optional_row _) _ _ => apply wp_optional_row
  end); cbn beta iota.
(** A missing row seen by the code. *)
Ltac wp_no_rows :=
  progress (change (isNoRows ErrNoRows) with true;
            change (bool_decide (ErrNoRows = ErrNoRows)) with true;
            change (errors_Is ErrNotFound ErrNotFound) with true); cbn beta iota delta [negb].
Ltac wp_go := wp_steps; repeat (wp_no_rows; wp_steps).
Ltac wp_query rule := eapply rule; [eassumption|discriminate|..].
Ltac wp_one := wp_query @wp_select_one.
Ltac wp_many := wp_query @wp_select_many.
Ltac wp_insert := wp_query @wp_insert_row.
Ltac wp_update := wp_query @wp_update_rows.

(** ** Statements whose outcome is known *)

Section Known.
Context {A : Type} (n : N) (t : txstate) (d : pgdb) (w : world).
Context (Hc : calm_from n t d w) (Hna : t <> Aborted).

Lemma wp_found (f : pgdb -> option A) a (Q : res A -> world -> Prop) :
  f d = Some a -> (forall w', calm_from n t d w' -> Q (Ok a) w') -> wp (stmt (select_one f)) Q w.
Proof. intros E HQ. eapply wp_select_one; [done|done|..]; intros; simplify_eq; auto. Qed.
Lemma wp_missing (f : pgdb -> option A) (Q : res A -> world -> Prop) :
  f d = None -> (forall w', calm_from n t d w' -> Q (Err ErrNoRows) w') -> wp (stmt (select_one f)) Q w.
Proof. intros E HQ. eapply wp_select_one; [done|done|..]; intros; simplify_eq; auto. Qed.

(** An insert uses the next generated key. *)
Lemma wp_inserted_next (set : (list A -> list A) -> pgdb -> pgdb) chk row (Q : res A -> world -> Prop) :
  wf d -> sql_guarantee safe (insert_row set chk row) ->
  (forall now id, (n <= id)%N -> chk (row now id) d = Ok tt) ->
  (forall now id w', (n <= id)%N -> wf (set (fun l => l ++ [row now id]) d) ->
     calm_from (N.succ id) t (set (fun l => l ++ [row now id]) d) w' -> Q (Ok (row now id)) w') ->
  wp (stmt (insert_row set chk row)) Q w.
Proof.
  intros Hw Hs Hok HQ. destruct Hc as [Hd Ht Hsch Hn].
  assert (Ei : insert_row set chk row (w_now w) (w_next w) d =
    Ok (Some (row (w_now w) (w_next w)), set (fun l => l ++ [row (w_now w) (w_next w)]) d)).
  { unfold insert_row. by rewrite Hok. }
  destruct (Hs _ _ _ _ _ Ei) as [_ Hw']. unfold wp, stmt. rewrite Ht, Hsch. cbn [next_event].
  destruct t; try done; rewrite Hd, Ei; cbn; apply HQ; try done; [by apply Hw'| |by apply Hw'|];
    split; cbn; try done; lia.
Qed.
(** A write that satisfies its constraints; the tables stay well-formed. *)
Lemma wp_inserted (set : (list A -> list A) -> pgdb -> pgdb) chk row (Q : res A -> world -> Prop) :
  wf d -> sql_guarantee safe (insert_row set chk row) ->
  (forall now id, (n <= id)%N -> chk (row now id) d = Ok tt) ->
  (forall now id w', wf (set (fun l => l ++ [row now id]) d) ->
     calm_from n t (set (fun l => l ++ [row now id]) d) w' -> Q (Ok (row now id)) w') ->
  wp (stmt (insert_row set chk row)) Q w.
Proof.
  intros Hw Hs Hok HQ. eapply wp_insert_row; [done|done|..].
  - intros now id w' Hid E Hc'. apply HQ; [|done].
    destruct (Hs now id d (Some (row now id)) (set (fun l => l ++ [row now id]) d)) as [_ H]; [|auto].
    unfold insert_row. by rewrite E.
  - intros now id e w' Hid E. by rewrite Hok in E.
Qed.
Lemma wp_updated get (set : (list A -> list A) -> pgdb -> pgdb) chk p f r
    (Q : res A -> world -> Prop) :
  wf d -> sql_guarantee safe (update_rows get set chk p f) ->
  List.find p (get d) = Some r -> (forall now, chk (f now r) d = Ok tt) ->
  (forall now w', wf (set (update_where p (f now)) d) ->
     calm_from n t (set (update_where p (f now)) d) w' -> Q (Ok (f now r)) w') ->
  wp (stmt (update_rows get set chk p f)) Q w.
Proof.
  intros Hw Hs Ef Hok HQ. eapply wp_update_rows; [done|done|..]; rewrite Ef.
  - intros now r' w' [= <-] E Hc'. apply HQ; [|done].
    destruct (Hs now 0%N d (Some (f now r)) (set (update_where p (f now)) d)) as [_ H]; [|auto].
    unfold update_rows. by rewrite Ef, E.
  - done.
  - intros now r' e w' [= <-] E. by rewrite Hok in E.
Qed.
End Known.

(** Constraints that hold. *)
Lemma check_true b c : b = true -> check b c = Ok tt.
Proof. by intros ->. Qed.
Lemma fk_elem {A} (id : A -> N) i l c : i ∈ map id l -> fk id i l c = Ok tt.
Proof.
  intros (x & -> & Hx)%list_elem_of_fmap. unfold fk, has_id.
  replace (existsb _ l) with true; [done|]. symmetry. apply existsb_exists.
  exists x. rewrite <- list_elem_of_In. split; [done|apply N.eqb_refl].
Qed.
Lemma unique_fresh {A} (same : A -> bool) l c :
  (forall x, x ∈ l -> same x = false) -> unique same l c = Ok tt.
Proof.
  intros H. unfold unique. replace (existsb same l) with false; [done|].
  symmetry. apply not_true_is_false. intros (x & Hx & E)%existsb_exists.
  rewrite <- list_elem_of_In in Hx. by rewrite H in E.
Qed.

(** ** Calls that do not touch the database *)

Definition quiet (w w' : world) : Prop := forall n t d, calm_from n t d w -> calm_from n t d w'.
#[export] Instance quiet_preorder : PreOrder quiet.
Proof. split; [by intros w n t d|]. intros a b c Hab Hbc n t d Ha. by apply Hbc, Hab. Qed.
Lemma wp_quiet {A} (m : M world A) n t d w (Q : res A -> world -> Prop) :
  evolves quiet m -> calm_from n t d w -> (forall r w', calm_from n t d w' -> Q r w') -> wp m Q w.
Proof. intros Hm Hc HQ. apply HQ. by apply (Hm w). Qed.

(** ** Savepoints *)

Lemma wp_with_savepoint {A} (m : M world A) n d w (Q : res (res A) -> world -> Prop) :
  calm_from n InTx d w ->
  (forall w', calm_from n InTx d w' -> wp m (fun r w1 =>
     match r with
     | Ok a => exists d1, calm_from n InTx d1 w1 /\
                 forall w2, calm_from n InTx d1 w2 -> Q (Ok (Ok a)) w2
     | Err e => w_sched w1 = [] /\ (n <= w_next w1)%N /\
                forall w2, calm_from n InTx d w2 -> Q (Ok (Err e)) w2
     end) w') ->
  wp (with_savepoint m) Q w.
Proof.
  intros Hc Hm. unfold with_savepoint, savepoint. wp_go.
  eapply (wp_found n InTx d w Hc ltac:(done) (fun d => Some d)); [done|]. intros w1 Hc1. wp_go.
  eapply wp_mono; [|by apply Hm]. intros [a|e] w2; wp_go.
  - intros (d1 & Hc2 & HQ). unfold release_savepoint. wp_go.
    eapply (wp_found n InTx d1 w2 Hc2 ltac:(done) (fun _ => Some tt)); [done|].
    intros w3 Hc3. wp_go. by apply HQ.
  - intros (Hs & Hn & HQ). wp_go. unfold wp, rollback_to. rewrite Hs. cbn. by apply HQ.
Qed.
