(* ===== verification/CashLaws.v ===== *)
(** * The cash of a machine is recorded once, and read in pages

    The statements on cash respect [safe].  A report that was answered is
    recorded, each event once, under any schedule of failures and polite other
    clients, and the same report sent again is all duplicates and changes
    nothing ([report_recorded]).  In a quiet world the notes taken in and paid
    out and the entries of the ledger stay in step ([report_books]).

    [ListCashLedger] reads the first rows of each of four tables, merges them
    and cuts the page out ([ledger_page]): the result is the same part of all
    the rows in order, as the rows left in the tables come after enough of
    those that were read. *)

From S2P Require Import Prelude.
From S2P Require Import GoStd.
From S2P Require Import Pricing.
From S2P Require Import CommerceTypes.
From S2P Require Import Evidence.
From S2P Require Import Rules.
From S2P Require Import Db.
From S2P Require Import Queries.
From S2P Require Import CashQueries.
From S2P Require Import History.
From S2P Require Import PgCommerce.
From S2P Require Import CashForensic.
From S2P Require Import StoreLaws.
From S2P Require Import Logic.
Local Open Scope string_scope.
Local Open Scope list_scope.
Local Open Scope Z_scope.

(** ** The statements are safe *)

Section Fresh.
Context {A K : Type} (key : A -> option K) (same : A -> bool) (row : A).
Lemma unique_on_fresh (l : list A) :
  unique_on key l -> (forall y, same y = false -> key y = key row -> key row = None) ->
  (forall y, y ∈ l -> same y = false) -> unique_on key (l ++ [row]).
Proof.
  intros Hu Hs Hl. apply unique_on_snoc; [done|]. intros c y Ec Hy Ey.
  rewrite (Hs y (Hl y Hy)) in Ec; congruence.
Qed.
End Fresh.

(** Rows keep their key or lose it. *)
Lemma unique_on_release {A K} (key : A -> option K) p f l :
  unique_on key l -> (forall x, p x = true -> key (f x) = key x \/ key (f x) = None) ->
  unique_on key (update_where p f l).
Proof.
  unfold unique_on. intros Hl Hf. assert (Hsub : omap key (update_where p f l) `sublist_of` omap key l).
  { clear Hl. induction l as [|x l IH]; [done|]. rewrite update_where_cons. cbn.
    destruct (p x) eqn:E; [destruct (Hf x E) as [-> | ->]|]; destruct (key x); eauto using sublist. }
  by eapply sublist_NoDup.
Qed.

Lemma same_key_spec (m m' : N) (k k' : string) :
  (m' =u m) && String.eqb k' k = false -> Some (m', k') = Some (m, k) -> Some (m, k) = None.
Proof. intros H [= -> ->]. by rewrite N.eqb_refl, String.eqb_refl in H. Qed.

Ltac one_cash_table :=
  split; cbn; try done; try (apply rows_kept_app; apply _).

Lemma InsertPayout_safe machine device row :
  (forall now i, payout_key (row now i) = Some (machine, device)) ->
  sql_guarantee safe (insert_once d_payouts set_payouts payout_valid
    (fun x => (po_MachineID x =u machine) && String.eqb (po_DeviceEventID x) device) payout_refs row).
Proof.
  intros Hr. apply guarantee_insert_once; [apply _|]. intros now i d _ Us Hrefs.
  apply safe_cash; [one_cash_table|]. intros []. one_cash_table.
  - eapply unique_on_fresh; [done| |exact Us]. intros y Hy. rewrite Hr. by apply same_key_spec.
  - unfold payout_refs in Hrefs. inv_checks. eapply unique_on_fresh; [done| |exact U].
    intros y Hy [= E1 E2 E3 E4]. exfalso. revert Hy. unfold same_note.
    by rewrite E1, E2, E3, E4, N.eqb_refl, Z.eqb_refl, !String.eqb_refl.
Qed.
Lemma InsertLifecycle_safe machine device row :
  (forall now i, lifecycle_key (row now i) = Some (machine, device)) ->
  sql_guarantee safe (insert_once d_lifecycle set_lifecycle lifecycle_valid
    (fun x => (bl_MachineID x =u machine) && String.eqb (bl_DeviceEventID x) device) lifecycle_refs row).
Proof.
  intros Hr. apply guarantee_insert_once; [apply _|]. intros now i d _ Us _.
  apply safe_cash; [one_cash_table|]. intros []. one_cash_table.
  eapply unique_on_fresh; [done| |exact Us]. intros y Hy. rewrite Hr. by apply same_key_spec.
Qed.
Lemma InsertObservation_safe machine device row :
  (forall now i, observation_key (row now i) = Some (machine, device)) ->
  sql_guarantee safe (insert_once d_observations set_observations observation_valid
    (fun x => (ho_MachineID x =u machine) && String.eqb (ho_DeviceEventID x) device) no_check row).
Proof.
  intros Hr. apply guarantee_insert_once; [apply _|]. intros now i d _ Us _.
  apply safe_cash; [one_cash_table|]. intros []. one_cash_table.
  eapply unique_on_fresh; [done| |exact Us]. intros y Hy. rewrite Hr. by apply same_key_spec.
Qed.
Lemma InsertAdjustment_safe key row :
  (forall now i, ad_IdempotencyKey (row now i) = key) ->
  sql_guarantee safe (fun now id d =>
    let? _ := char3 (ad_Currency (row now id)) in
    let? _ := check (one_of (ad_Bucket (row now id)) adjustmentBuckets) "cash_adjustments_bucket_check" in
    insert_or_get d_adjustments set_adjustments (fun x => String.eqb (ad_IdempotencyKey x) key) no_check row now id d).
Proof.
  intros Hr now id d r d' H. apply res_bind_inv_Ok in H as (u & _ & H). apply res_bind_inv_Ok in H as (u' & _ & H).
  revert H. apply guarantee_insert_or_get; [apply _|]. clear - Hr. intros now id d Us _.
  apply safe_cash; [one_cash_table|]. intros []. one_cash_table.
  eapply unique_on_fresh; [done| |exact Us]. intros y Hy [= E]. cbn in Hy.
  by rewrite E, Hr, String.eqb_refl in Hy.
Qed.
Lemma BindOrder_safe machine device order :
  sql_guarantee safe (fun _ _ d =>
    let hit c := (ca_MachineID c =u machine) && String.eqb (ca_DeviceEventID c) device &&
                 match ca_OrderID c with None => true | Some o => o =u order end in
    if negb (existsb hit (d_acceptances d)) then Ok (Some tt, d)
    else
      let? _ := fk o_ID order (d_orders d) "cash_acceptance_events_order_id_fkey" in
      Ok (Some tt, set_acceptances (update_where hit (acceptance_bound order)) d)).
Proof.
  intros now id d r d'. cbn zeta. destruct (negb _); [by intros [= <- <-]|].
  intros H. apply res_bind_inv_Ok in H as (u & _ & [= <- <-]). apply safe_acceptances.
  - apply rows_kept_update; [apply _|]. intros x Hx. split; [done|]. intros o Eo. rewrite Eo in Hx.
    apply andb_true_iff in Hx as [_ Hx%N.eqb_eq]. by rewrite <- Hx.
  - intros Hw. apply unique_on_update; [apply Hw|done].
Qed.

Section Writers.
Context {R : world -> world -> Prop} `{!Statement_rel safe R}.

Lemma ev_acceptance machine ev at_ :
  evolves R (InsertCashAcceptanceEvent machine (movement_device ev) (acceptance_row machine ev at_)).
Proof. by apply sr_stmt, InsertAcceptance_safe. Qed.
Lemma ev_payout machine ev at_ :
  evolves R (InsertCashPayoutEvent machine (movement_device ev) (payout_row machine ev at_)).
Proof. by apply sr_stmt, InsertPayout_safe. Qed.
Lemma ev_lifecycle machine ev at_ :
  evolves R (InsertCashBillLifecycleEvent machine (movement_device ev) (lifecycle_row machine ev at_)).
Proof. by apply sr_stmt, InsertLifecycle_safe. Qed.
Lemma ev_observation machine ev at_ :
  evolves R (InsertCashHardwareObservation machine (movement_device ev) (observation_row machine ev at_)).
Proof. by apply sr_stmt, InsertObservation_safe. Qed.
Lemma ev_adjustment i : evolves R (InsertCashAdjustmentQ (ia_IdempotencyKey i) (adjustment_row i)).
Proof. by apply sr_stmt, InsertAdjustment_safe. Qed.
Hint Resolve ev_acceptance ev_payout ev_lifecycle ev_observation ev_adjustment ev_InsertLedgerEntry : evolves.
Lemma ev_book machine ev e a t : evolves R (book_movement machine ev e a t).
Proof. unfold book_movement. evolve. Qed.
Hint Resolve ev_book : evolves.
Lemma ev_record_movement machine ev at_ k : evolves R (record_movement machine ev at_ k).
Proof. destruct k; cbn [record_movement]; unfold inserted; evolve. Qed.
Hint Resolve ev_record_movement : evolves.
Lemma ev_movement_step machine ev : evolves R (movement_step machine ev).
Proof. unfold movement_step. evolve. Qed.
Lemma ev_record_movements machine evs a b : evolves R (record_movements machine evs a b).
Proof.
  pose proof (ev_movement_step machine). revert a b.
  induction evs as [|ev evs IH]; intros a b; cbn [record_movements]; evolve.
Qed.
Lemma ev_RecordCashMovements i : evolves R (RecordCashMovements i).
Proof. apply ev_record_movements. Qed.
Lemma ev_BindAcceptanceEventsToOrder m o l : evolves R (BindAcceptanceEventsToOrder m o l).
Proof.
  unfold BindAcceptanceEventsToOrder. evolve. unfold UpdateCashAcceptanceEventOrder. apply sr_stmt, BindOrder_safe.
Qed.
Lemma ev_InsertCashAdjustment i : evolves R (InsertCashAdjustment i).
Proof. unfold InsertCashAdjustment. evolve. Qed.
End Writers.
#[export] Hint Resolve ev_RecordCashMovements ev_BindAcceptanceEventsToOrder ev_InsertCashAdjustment
  ev_movement_step ev_book ev_acceptance ev_payout ev_lifecycle ev_observation : evolves.

(** ** One insert of a report, under any schedule *)

(** Errors of a constraint are not a missing row. *)
Definition never_no_rows {A} (r : res A) : Prop := forall e, r = Err e -> isNoRows e = false.
Lemma nnr_check b c : never_no_rows (check b c).
Proof. intros e. by destruct b; intros [= <-]. Qed.
Lemma nnr_char3 s : never_no_rows (char3 s).
Proof. intros e. unfold char3. destruct (3 <? len s); by intros [= <-]. Qed.
Lemma nnr_unique {A} (same : A -> bool) l c : never_no_rows (unique same l c).
Proof. intros e. unfold unique. destruct (existsb same l); by intros [= <-]. Qed.
Lemma nnr_fk {A} (id : A -> N) i l c : never_no_rows (fk id i l c).
Proof. intros e. unfold fk. destruct (has_id id i l); by intros [= <-]. Qed.
Lemma nnr_fk_opt {A} (id : A -> N) i l c : never_no_rows (fk_opt id i l c).
Proof. destruct i; [apply nnr_fk|done]. Qed.
Lemma nnr_bind {A B} (r : res A) (k : A -> res B) :
  never_no_rows r -> (forall a, never_no_rows (k a)) -> never_no_rows (res_bind r k).
Proof. intros Hr Hk e. destruct r as [a|e']; cbn; [apply Hk|]. intros [= ->]. by apply Hr. Qed.
Lemma nnr_ok {A} (a : A) : never_no_rows (Ok a).
Proof. by intros e [=]. Qed.
Create HintDb no_rows discriminated.
#[export] Hint Resolve nnr_check nnr_char3 nnr_unique nnr_fk nnr_fk_opt : no_rows.
#[export] Hint Resolve nnr_ok : no_rows.
Ltac no_rows :=
  intros; unfold acceptance_valid, acceptance_refs, payout_valid, payout_refs, lifecycle_valid, lifecycle_refs,
    observation_valid, no_check;
  repeat (apply nnr_bind; [|intros _]); auto with no_rows.

Section Once.
Context {A : Type} (get : pgdb -> list A) (set : (list A -> list A) -> pgdb -> pgdb).
Context (valid : A -> res unit) (same : A -> bool) (refs : A -> pgdb -> res unit) (row : Z -> N -> A).
Context (Hvalid : forall r, never_no_rows (valid r)) (Hrefs : forall r d, never_no_rows (refs r d)).
Let F := insert_once get set valid same refs row.

(** What the statement does: a new row, or nothing as one is there. *)
Definition once_result (now : Z) (id : N) (d : pgdb) (new : bool) (d' : pgdb) : Prop :=
  valid (row now id) = Ok tt /\ existsb same (get d) = negb new /\
  if new then refs (row now id) d = Ok tt /\ d' = set (fun l => l ++ [row now id]) d else d' = d.

Lemma insert_once_result now id d r d' :
  F now id d = Ok (r, d') -> once_result now id d (bool_decide (is_Some r)) d'.
Proof.
  unfold F, insert_once, insert_or_nothing, insert_row, once_result.
  destruct (valid _) as [[]|]; [|done]. destruct (existsb same (get d)).
  - by intros [= <- <-].
  - destruct (refs _ _) as [[]|]; [|done]. by intros [= <- <-].
Qed.
Lemma insert_once_error now id d e : F now id d = Err e -> isNoRows e = false.
Proof.
  unfold F, insert_once, insert_or_nothing, insert_row. destruct (valid _) as [[]|] eqn:E; [|intros [= <-]; by eapply Hvalid].
  destruct (existsb same (get d)); [done|]. destruct (refs _ _) as [[]|] eqn:E'; [done|]. intros [= <-]. by eapply Hrefs.
Qed.
Lemma inserted_done P `{!PreOrder P} w new w' :
  inserted (stmt F) w = (Ok new, w') -> polite P (w_sched w) ->
  exists d now id, P (w_db w) d /\ once_result now id d new (w_db w').
Proof.
  unfold inserted, bind, attempt, lift. intros E Hp. destruct (stmt F w) as [r w1] eqn:Es.
  assert (Hr : (exists a, r = Ok a) \/ (exists e, r = Err e /\ (e = ErrNoRows \/ isNoRows e = false))).
  { destruct r as [a|e]; [by left; exists a|]. right. exists e. split; [done|]. revert Es. unfold stmt.
    destruct (w_tx w); [| |intros [= <- <-]; by right];
      (destruct (next_event (w_sched w)) as [ev s]; destruct ev; try (intros [= <- <-]; by right);
       destruct (F _ _ _) as [[[b|] d']|e'] eqn:Ef; intros [= <- <-]; try (by left);
       right; by (reflexivity || eapply insert_once_error)). }
  destruct Hr as [[a ->]|(e & -> & [->|He])]; cbn [cashMovementInsertResult] in E.
  - cbn in E. injection E as <- <-. apply (stmt_done P) in Es as (d & now & id & Hd & Ef); [|done].
    exists d, now, id. split; [done|]. by apply insert_once_result in Ef.
  - change (isNoRows ErrNoRows) with true in E. cbn in E. injection E as <- <-.
    revert Es. unfold stmt. pose proof (polite_seen P _ _ (w_db w) Hp eq_refl) as Hs.
    destruct (w_tx w); [| |done]; destruct (next_event (w_sched w)) as [ev s]; cbn [fst] in Hs;
      (destruct ev; try (by intros [=]); destruct (F _ _ _) as [[[b|] d']|e'] eqn:Ef; try done; intros Es;
       try (injection Es as -> <-; by apply insert_once_error in Ef); injection Es as <-;
       apply insert_once_result in Ef; eexists _, _, _; (split; [|exact Ef]); try exact Hs; reflexivity).
  - rewrite He in E. done.
Qed.
(** In a quiet world, of an event that is known. *)
Lemma wp_inserted_known n t d w (Q : res bool -> world -> Prop) :
  calm_from n t d w -> t <> Aborted -> (forall now id, valid (row now id) = Ok tt) ->
  existsb same (get d) = true -> (forall w', calm_from n t d w' -> Q (Ok false) w') ->
  wp (inserted (stmt F)) Q w.
Proof.
  intros Hc Ht Hv He HQ. unfold inserted. wp_go. eapply wp_stmt; [done|done|..];
    unfold F, insert_once, insert_or_nothing; intros; rewrite Hv, He in *; simplify_eq.
  wp_go. by apply HQ.
Qed.
End Once.
Lemma inserted_inv {A} P `{!PreOrder P} get (set : (list A -> list A) -> pgdb -> pgdb) valid same refs row w new w' :
  inserted (stmt (insert_once get set valid same refs row)) w = (Ok new, w') -> polite P (w_sched w) ->
  (forall r, never_no_rows (valid r)) -> (forall r d, never_no_rows (refs r d)) ->
  exists d now id, P (w_db w) d /\ once_result get set valid same refs row now id d new (w_db w').
Proof. intros E Hp Hv Hr. by eapply inserted_done. Qed.

(** ** A report is recorded *)

(** What the device called the rows of a kind. *)
Definition movement_keys (k : movement) (d : pgdb) : list (N * string) :=
  match k with
  | Credit => map (fun r => (ca_MachineID r, ca_DeviceEventID r)) (d_acceptances d)
  | Lifecycle => map (fun r => (bl_MachineID r, bl_DeviceEventID r)) (d_lifecycle d)
  | Payout => map (fun r => (po_MachineID r, po_DeviceEventID r)) (d_payouts d)
  | Observation => map (fun r => (ho_MachineID r, ho_DeviceEventID r)) (d_observations d)
  end.
Lemma unique_on_all {A K} (g : A -> K) l : unique_on (fun x => Some (g x)) l -> NoDup (map g l).
Proof. unfold unique_on. intros H. replace (map g l) with (omap (fun x => Some (g x)) l); [done|].
  clear. induction l as [|x l IH]; cbn; [done|]. by f_equal. Qed.
Lemma movement_keys_unique k d : wf d -> NoDup (movement_keys k d).
Proof.
  intros Hw. pose proof (wf_ca _ Hw) as Ha. destruct (wf_c _ Hw).
  destruct k; cbn [movement_keys]; apply unique_on_all; assumption.
Qed.
Lemma movement_keys_kept k d d' : safe d d' -> movement_keys k d `prefix_of` movement_keys k d'.
Proof.
  intros [Hg _]. pose proof (gr_acceptances _ _ Hg). destruct (gr_cash _ _ Hg).
  destruct k; cbn [movement_keys]; (eapply rows_kept_map; [|eassumption]); [|by intros ?? ->..].
  intros x y [[=] _]. congruence.
Qed.

Section Recorded.
Context (machine : N) (ev : CashMovementEventInput).
Let key := (machine, movement_device ev).

Definition movement_valid (k : movement) : res unit :=
  match k with
  | Credit => acceptance_valid (acceptance_row machine ev 0 0 0)
  | Lifecycle => lifecycle_valid (lifecycle_row machine ev 0 0 0)
  | Payout => payout_valid (payout_row machine ev 0 0 0)
  | Observation => observation_valid (observation_row machine ev 0 0 0)
  end.
Definition insert_movement (at_ : Z) (k : movement) : M world bool :=
  match k with
  | Credit => inserted (InsertCashAcceptanceEvent machine (movement_device ev) (acceptance_row machine ev at_))
  | Lifecycle => inserted (InsertCashBillLifecycleEvent machine (movement_device ev) (lifecycle_row machine ev at_))
  | Payout => inserted (InsertCashPayoutEvent machine (movement_device ev) (payout_row machine ev at_))
  | Observation =>
      inserted (InsertCashHardwareObservation machine (movement_device ev) (observation_row machine ev at_))
  end.
Definition settle_movement (at_ : Z) (k : movement) (new : bool) : M world unit :=
  match k with
  | Credit => if new then book_movement machine ev "cash_accepted" (xe_DenominationMinor ev) at_ else ret tt
  | Payout =>
      if new && String.eqb (payout_finality ev) "confirmed" && (0 <? xe_AmountMinor ev)
      then book_movement machine ev "change_dispensed" (wrap64 (- xe_AmountMinor ev)) at_ else ret tt
  | _ => ret tt
  end.
Lemma record_movement_split at_ k w :
  record_movement machine ev at_ k w =
  (let! new := insert_movement at_ k in settle_movement at_ k new ;;; ret new) w.
Proof.
  destruct k; cbn [record_movement insert_movement settle_movement]; [done| |done|];
    unfold bind; by destruct (inserted _ w) as [[]].
Qed.
Lemma ev_insert_movement at_ k : evolves (world_rel safe) (insert_movement at_ k).
Proof. destruct k; cbn [insert_movement]; unfold inserted; evolve. Qed.
Lemma settle_evolves at_ k new : evolves (world_rel safe) (settle_movement at_ k new).
Proof. destruct k; cbn [settle_movement]; evolve. Qed.

Lemma existsb_key {A} (g : A -> N * string) l :
  existsb (fun x => (fst (g x) =u machine) && String.eqb (snd (g x)) (movement_device ev)) l = true <->
  key ∈ map g l.
Proof.
  rewrite existsb_exists, list_elem_of_fmap. unfold key. split.
  - intros (x & Hx & [E1%N.eqb_eq E2%String.eqb_eq]%andb_true_iff). exists x. rewrite list_elem_of_In.
    split; [|done]. rewrite <- E1, <- E2. by destruct (g x).
  - intros (x & E & Hx%list_elem_of_In). exists x. split; [done|]. rewrite <- E. cbn.
    by rewrite N.eqb_refl, String.eqb_refl.
Qed.

Lemma insert_movement_done at_ k w new w' :
  insert_movement at_ k w = (Ok new, w') -> polite safe (w_sched w) ->
  movement_valid k = Ok tt /\ key ∈ movement_keys k (w_db w').
Proof.
  destruct k; cbn [insert_movement movement_valid movement_keys];
    (intros E Hp; eapply (inserted_inv safe) in E as (d & now & id & _ & Hv & He & Hn);
       [|exact Hp|solve [intros; no_rows]|solve [intros; no_rows]];
     split; [exact Hv|]; destruct new;
     [destruct Hn as [_ ->]; cbn; rewrite map_app; apply elem_of_app; right; apply list_elem_of_singleton; done
     |subst; revert He; cbn [negb]; lazymatch goal with |- context [map ?g _] => apply (existsb_key g) end]).
Qed.
Lemma wp_insert_known at_ k n t d w (Q : res bool -> world -> Prop) :
  calm_from n t d w -> t <> Aborted -> movement_valid k = Ok tt -> key ∈ movement_keys k d ->
  (forall w', calm_from n t d w' -> Q (Ok false) w') -> wp (insert_movement at_ k) Q w.
Proof.
  intros Hc Ht Hv Hk HQ. revert Hk.
  destruct k; cbn [insert_movement movement_keys];
    lazymatch goal with |- context [map ?g _] => intros Hk%(existsb_key g) end;
    (eapply wp_inserted_known; [exact Hc|exact Ht|intros; exact Hv|exact Hk|exact HQ]).
Qed.

(** The event counts as known: its kind is one, its row is valid and there. *)
Definition known (d : pgdb) : Prop :=
  exists k, movement_of (normalizeMovementKind (xe_Kind ev)) = Some k /\ movement_valid k = Ok tt /\
            key ∈ movement_keys k d.
Lemma known_kept d d' : safe d d' -> known d -> known d'.
Proof.
  intros Hs (k & Ek & Hv & Hk). exists k. split_and!; [done..|].
  destruct (movement_keys_kept k _ _ Hs) as [l ->]. apply elem_of_app. by left.
Qed.
Lemma movement_step_done w new w' :
  movement_step machine ev w = (Ok (Some new), w') -> polite safe (w_sched w) ->
  blank (movement_device ev) = false /\ known (w_db w').
Proof.
  unfold movement_step. destruct (blank _) eqn:Eb; [done|]. intros E Hp. split; [done|].
  apply bind_inv_Ok in E as (at_ & w1 & E1 & E).
  assert (w1 = w) as -> by (destruct (IsZero _); by injection E1).
  destruct (movement_of _) as [k|] eqn:Ek; [|done].
  apply bind_inv_Ok in E as (b & w2 & E2 & E). rewrite record_movement_split in E2.
  apply bind_inv_Ok in E2 as (b' & w3 & E3 & E4). apply bind_inv_Ok in E4 as (u & w4 & E5 & E6).
  pose proof (insert_movement_done _ _ _ _ _ E3 Hp) as [Hv Hk].
  pose proof (settle_evolves at_ k b' w3) as H4.
  assert (Hp3 : polite safe (w_sched w3)).
  { replace w3 with (insert_movement at_ k w).2 by (by rewrite E3).
    apply (ev_insert_movement at_ k w Hp). }
  apply (known_kept (w_db w3)); [|by exists k].
  rewrite E5 in H4. cbn in H4. injection E as _ <-. injection E6 as _ <-. by apply H4.
Qed.
Lemma wp_movement_known n d w (Q : res (option bool) -> world -> Prop) :
  calm_from n NoTx d w -> blank (movement_device ev) = false -> known d ->
  (forall w', calm_from n NoTx d w' -> Q (Ok (Some false)) w') -> wp (movement_step machine ev) Q w.
Proof.
  intros Hc Hb (k & Ek & Hv & Hk) HQ. unfold movement_step. rewrite Hb, Ek. apply wp_bind.
  assert (Hrest : forall at_, wp (let! new := record_movement machine ev at_ k in ret (Some new)) Q w).
  { intros at_. apply wp_bind. unfold wp at 1. rewrite record_movement_split.
    apply wp_bind. eapply wp_insert_known; [done..|]. intros w' Hc'. apply wp_bind.
    destruct k; cbn [settle_movement andb]; wp_go; by apply HQ. }
  destruct (IsZero _); [eapply wp_time_Now; [done|]; intros|apply wp_ret]; apply Hrest.
Qed.
End Recorded.

(** ** A report *)

Definition identified (ev : CashMovementEventInput) : bool := negb (blank (movement_device ev)).
Lemma ev_step_safe machine ev w :
  polite safe (w_sched w) ->
  polite safe (w_sched (movement_step machine ev w).2) /\ safe (w_db w) (w_db (movement_step machine ev w).2).
Proof. apply (ev_movement_step (R := world_rel safe) machine ev). Qed.

Lemma report_loop machine evs : forall a b w r w',
  record_movements machine evs a b w = (Ok r, w') -> polite safe (w_sched w) ->
  0 <= a -> 0 <= b -> a + b + Z.of_nat (length evs) <= MaxInt32 ->
  safe (w_db w) (w_db w') /\ Forall (fun ev => identified ev = true -> known machine ev (w_db w')) evs /\
  xr_Replay r = false /\ a <= xr_AcceptedCount r /\ b <= xr_DuplicateCount r /\
  xr_AcceptedCount r + xr_DuplicateCount r = a + b + Z.of_nat (length (List.filter identified evs)).
Proof.
  induction evs as [|ev evs IH]; intros a b w r w' E Hp Ha Hb Hlen.
  - injection E as <- <-. split_and!; cbn; [reflexivity|constructor|done|lia..].
  - cbn [record_movements] in E. apply bind_inv_Ok in E as (s & w1 & E1 & E).
    destruct (ev_step_safe machine ev w Hp) as [Hp1 Hs1]. rewrite E1 in Hp1, Hs1. cbn [snd length] in *.
    assert (Hw : forall z, 0 <= z <= a + b -> wrap32 (z + 1) = z + 1).
    { intros z Hz. apply wrap32_id. unfold_int. lia. }
    assert (Hnext : exists a' b', record_movements machine evs a' b' w1 = (Ok r, w') /\ a <= a' /\ b <= b' /\
        a' + b' = a + b + (if identified ev then 1 else 0) /\ (identified ev = true -> known machine ev (w_db w1))).
    { destruct s as [[|]|].
      - destruct (movement_step_done _ _ _ _ _ E1 Hp) as [Hid Hk]. unfold identified. rewrite Hid. cbn [negb].
        rewrite Hw in E by lia. exists (a + 1), b. split_and!; [done|lia..|done].
      - destruct (movement_step_done _ _ _ _ _ E1 Hp) as [Hid Hk]. unfold identified. rewrite Hid. cbn [negb].
        rewrite Hw in E by lia. exists a, (b + 1). split_and!; [done|lia..|done].
      - exists a, b. assert (identified ev = false) as ->.
        { unfold identified, movement_step in *. destruct (blank _); [done|].
          apply bind_inv_Ok in E1 as (t & w2 & _ & E1). destruct (movement_of _); [|done].
          by apply bind_inv_Ok in E1 as (u & w3 & _ & [=]). }
        split_and!; [done|lia..|done]. }
    destruct Hnext as (a' & b' & E' & Ha' & Hb' & Hsum & Hk).
    destruct (IH _ _ _ _ _ E' Hp1) as (Hs2 & HF & Hr & H1 & H2 & H3); [lia..|destruct (identified ev); lia|].
    split_and!; [by transitivity (w_db w1)| |done|lia|lia|].
    + constructor; [|done]. intros Hid. eapply known_kept; [exact Hs2|auto].
    + cbn [List.filter]. destruct (identified ev); cbn [length]; lia.
Qed.
(** The same events, all known. *)
Lemma wp_report_known machine n d evs : forall a b w (Q : res RecordCashMovementsResult -> world -> Prop),
  calm_from n NoTx d w -> Forall (fun ev => identified ev = true -> known machine ev d) evs ->
  0 <= b -> b + Z.of_nat (length evs) <= MaxInt32 ->
  (forall w', calm_from n NoTx d w' ->
     Q (Ok (mk_RecordCashMovementsResult false a (b + Z.of_nat (length (List.filter identified evs))))) w') ->
  wp (record_movements machine evs a b) Q w.
Proof.
  induction evs as [|ev evs IH]; intros a b w Q Hc HF Hb Hlen HQ; cbn [record_movements].
  - apply wp_ret. cbn in HQ. rewrite Z.add_0_r in HQ. by apply HQ.
  - apply Forall_cons in HF as [Hk HF]. apply wp_bind. cbn [length List.filter] in *.
    destruct (blank (movement_device ev)) eqn:Eb; unfold identified in Hk, HQ; rewrite Eb in *; cbn [negb] in *.
    + unfold movement_step. rewrite Eb. apply wp_ret. apply (IH a b); [done..|lia|exact HQ].
    + eapply wp_movement_known; [done|done|by apply Hk|]. intros w' Hc'. cbn beta iota.
      rewrite wrap32_id by (unfold_int; lia). apply (IH a (b + 1)); [done|done|lia|lia|].
      intros w2 Hc2. cbn [length] in HQ. rewrite <- Z.add_assoc, Z.add_1_l, <- Nat2Z.inj_succ. by apply HQ.
Qed.

(** C18: A report that was answered, whatever failed on the way and whatever the
    other clients did: every event with an id is recorded, once; the counters
    add up to those events; and sent again in a quiet world, at any later
    state of the tables, it is all duplicates and changes nothing. *)
Theorem report_recorded i w r w' :
  RecordCashMovements i w = (Ok r, w') -> wf (w_db w) -> polite safe (w_sched w) ->
  Z.of_nat (length (xi_Events i)) <= MaxInt32 ->
  let events := Z.of_nat (length (List.filter identified (xi_Events i))) in
  (forall ev, ev ∈ xi_Events i -> identified ev = true ->
     exists k, movement_of (normalizeMovementKind (xe_Kind ev)) = Some k /\
               (xi_MachineID i, movement_device ev) ∈ movement_keys k (w_db w') /\
               NoDup (movement_keys k (w_db w'))) /\
  xr_AcceptedCount r + xr_DuplicateCount r = events /\
  forall n d w2, safe (w_db w') d -> calm_from n NoTx d w2 ->
    exists w3, RecordCashMovements i w2 = (Ok (mk_RecordCashMovementsResult false 0 events), w3) /\ w_db w3 = d.
Proof.
  intros E Hwf Hp Hlen events. apply report_loop in E as (Hs & HF & _ & _ & _ & Hsum); [|done|lia..].
  rewrite Forall_forall in HF. split_and!.
  - intros ev Hev Hid. destruct (HF ev Hev Hid) as (k & Ek & _ & Hk). exists k. split_and!; [done..|].
    apply movement_keys_unique. by apply Hs.
  - by rewrite Hsum.
  - intros n d w2 Hs2 Hc.
    assert (Hwp : wp (RecordCashMovements i) (fun r w3 => r = Ok (mk_RecordCashMovementsResult false 0 events) /\
                    w_db w3 = d) w2).
    { eapply wp_report_known; [exact Hc| |lia|lia|by intros w3 []].
      apply Forall_forall. intros ev Hev Hid. eapply known_kept; [exact Hs2|auto]. }
    exists (RecordCashMovements i w2).2. destruct Hwp as [H1 H2]. split; [|done]. rewrite <- H1.
    by destruct (RecordCashMovements i w2).
Qed.

(** ** The books *)

Definition total {A} (f : A -> Z) (l : list A) : Z := foldr Z.add 0 (map f l).
Arguments total : simpl never.
Lemma total_snoc {A} (f : A -> Z) l x : total f (l ++ [x]) = total f l + f x.
Proof. unfold total. induction l as [|y l IH]; cbn in *; lia. Qed.
Definition ledger_total (machine : N) (entry : string) (d : pgdb) : Z :=
  total (fun l => if opt_eqb_N (lr_MachineID l) (Some machine) && String.eqb (lr_EntryType l) entry
                  then lr_SignedAmountMinor l else 0) (d_ledger d).
Definition notes_taken (machine : N) (d : pgdb) : Z :=
  total (fun c => if ca_MachineID c =u machine then ca_DenominationMinor c else 0) (d_acceptances d).
Definition notes_paid (machine : N) (d : pgdb) : Z :=
  total (fun r => if (po_MachineID r =u machine) && String.eqb (po_OutcomeFinality r) "confirmed"
                  then po_AmountMinor r else 0) (d_payouts d).
(** By how much the ledger is out of step. *)
Definition off_by (machine : N) (d : pgdb) : Z * Z :=
  (ledger_total machine "cash_accepted" d - notes_taken machine d,
   ledger_total machine "change_dispensed" d + notes_paid machine d).

Lemma wp_inserted_once {A} get (set : (list A -> list A) -> pgdb -> pgdb) valid same refs row n d w
    (Q : res bool -> world -> Prop) :
  calm_from n NoTx d w ->
  (forall now id w', once_result get set valid same refs row now id d true (set (fun l => l ++ [row now id]) d) ->
     calm_from n NoTx (set (fun l => l ++ [row now id]) d) w' -> Q (Ok true) w') ->
  (forall r w', r <> Ok true -> calm_from n NoTx d w' -> Q r w') ->
  wp (inserted (stmt (insert_once get set valid same refs row))) Q w.
Proof.
  intros Hc Hnew Hold. unfold inserted. wp_go. eapply wp_stmt; [exact Hc|done|..].
  - intros now id a d' w' _ E%insert_once_result Hc'. wp_go. destruct E as (Hv & He & Hr & ->).
    eapply Hnew; [|done]. by split_and!.
  - intros now id d' w' _ E%insert_once_result Hc'. wp_go. destruct E as (_ & _ & ->). by apply Hold.
  - intros now id e w' _ E Hc'. wp_go. cbn [cashMovementInsertResult]. destruct (isNoRows e); by apply Hold.
Qed.
Lemma fk_opt_name {A} (id : A -> N) i l c c' : fk_opt id i l c = Ok tt -> fk_opt id i l c' = Ok tt.
Proof. destruct i as [i|]; [|done]. unfold fk_opt, fk. by destruct (has_id id i l). Qed.
Lemma wp_book machine ev entry amount at_ n d w (Q : res unit -> world -> Prop) :
  calm_from n NoTx d w -> fk_opt o_ID (xe_OrderID ev) (d_orders d) "" = Ok tt ->
  char3 (movement_currency ev) = Ok tt -> one_of entry ledgerEntryTypes = true ->
  (forall row w', lr_MachineID row = Some machine -> lr_EntryType row = entry -> lr_SignedAmountMinor row = amount ->
     calm_from n NoTx (set_ledger (fun l => l ++ [row]) d) w' -> Q (Ok tt) w') ->
  wp (book_movement machine ev entry amount at_) Q w.
Proof.
  intros Hc Ho H3 He HQ. unfold book_movement, InsertLedgerEntry, InsertFinancialLedgerEntry. wp_go.
  assert (Ho' : forall c, fk_opt o_ID (xe_OrderID ev) (d_orders d) c = Ok tt).
  { intros c. by eapply fk_opt_name. }
  eapply wp_insert_row; [exact Hc|done|..].
  - intros now id w' _ _ Hc'. wp_go. by eapply HQ; [..|exact Hc'].
  - intros now id e w' _.
    cbn [lr_OrderID lr_PaymentID lr_Currency lr_EntryType le_OrderID le_PaymentID le_Currency le_EntryType].
    rewrite Ho', H3. cbn [fk_opt res_bind]. by rewrite check_true.
Qed.

(** A constraint that only looks at the row's own columns. *)
Lemma off_by_ledger machine row d m entry amount :
  lr_MachineID row = Some m -> lr_EntryType row = entry -> lr_SignedAmountMinor row = amount ->
  off_by machine (set_ledger (fun l => l ++ [row]) d) =
    ((off_by machine d).1 + (if (m =u machine) && String.eqb entry "cash_accepted" then amount else 0),
     (off_by machine d).2 + (if (m =u machine) && String.eqb entry "change_dispensed" then amount else 0)).
Proof.
  intros Em Ee Ea. unfold off_by, ledger_total. cbn. rewrite !total_snoc, Em, Ee, Ea. cbn.
  change (notes_taken machine (set_ledger _ d)) with (notes_taken machine d).
  change (notes_paid machine (set_ledger _ d)) with (notes_paid machine d). f_equal; lia.
Qed.
Lemma off_by_note machine row d :
  off_by machine (set_acceptances (fun l => l ++ [row]) d) =
    ((off_by machine d).1 - (if ca_MachineID row =u machine then ca_DenominationMinor row else 0), (off_by machine d).2).
Proof.
  unfold off_by, notes_taken. cbn. rewrite total_snoc.
  change (ledger_total machine "cash_accepted" (set_acceptances _ d)) with (ledger_total machine "cash_accepted" d).
  change (ledger_total machine "change_dispensed" (set_acceptances _ d)) with (ledger_total machine "change_dispensed" d).
  change (notes_paid machine (set_acceptances _ d)) with (notes_paid machine d). f_equal; lia.
Qed.
Lemma off_by_payout machine row d :
  off_by machine (set_payouts (fun l => l ++ [row]) d) =
    ((off_by machine d).1, (off_by machine d).2 +
     (if (po_MachineID row =u machine) && String.eqb (po_OutcomeFinality row) "confirmed" then po_AmountMinor row else 0)).
Proof.
  unfold off_by, notes_paid. cbn. rewrite total_snoc.
  change (ledger_total machine "cash_accepted" (set_payouts _ d)) with (ledger_total machine "cash_accepted" d).
  change (ledger_total machine "change_dispensed" (set_payouts _ d)) with (ledger_total machine "change_dispensed" d).
  change (notes_taken machine (set_payouts _ d)) with (notes_taken machine d).
  change (ct_payouts (mt_cash (d_machine d))) with (d_payouts d). f_equal; lia.
Qed.

Arguments off_by : simpl never.

Section Books.
Context (machine m : N) (ev : CashMovementEventInput) (n : N) (d : pgdb).
Let in_step (w : world) : Prop := exists d', calm_from n NoTx d' w /\ off_by machine d' = off_by machine d.

Lemma wp_credit_books at_ w :
  calm_from n NoTx d w -> wp (record_movement m ev at_ Credit) (fun _ => in_step) w.
Proof.
  intros Hc. cbn [record_movement]. apply wp_bind.
  eapply wp_inserted_once; [exact Hc| |intros [[|]|] w' Hr Hc'; [done|..]; wp_go; by exists d].
  intros now id w' (Hv & _ & Hrefs & _) Hc'. wp_go. unfold acceptance_valid in Hv. inv_checks. destruct u.
  eapply wp_book; [exact Hc'| |done|done|].
  - eapply fk_opt_name, Hrefs.
  - intros row w2 Em Ee Ea Hc2. wp_go. eexists. split; [exact Hc2|].
    rewrite (off_by_ledger _ _ _ _ _ _ Em Ee Ea), off_by_note. cbn. rewrite andb_true_r, andb_false_r.
    destruct (off_by machine d). cbn. f_equal; lia.
Qed.
Lemma wp_payout_books at_ w :
  calm_from n NoTx d w -> in_int64 (xe_AmountMinor ev) -> wp (record_movement m ev at_ Payout) (fun _ => in_step) w.
Proof.
  intros Hc Hi. cbn [record_movement]. apply wp_bind.
  eapply wp_inserted_once; [exact Hc| |intros [[|]|] w' Hr Hc'; [done|..]; wp_go; by exists d].
  intros now id w' (Hv & _ & Hrefs & _) Hc'. apply wp_bind. unfold payout_valid in Hv. inv_checks.
  unfold payout_refs in Hrefs. inv_checks. repeat match goal with u : unit |- _ => destruct u end.
  cbn [andb]. destruct (String.eqb (payout_finality ev) "confirmed") eqn:Ef; cbn [andb];
    [destruct (0 <? xe_AmountMinor ev) eqn:Ea; cbn [andb]|].
  - eapply wp_book; [exact Hc'| |done|done|]; [eapply fk_opt_name, Hrefs|].
    intros row w2 Em Ee Ea' Hc2. wp_go. eexists. split; [exact Hc2|].
    rewrite (off_by_ledger _ _ _ _ _ _ Em Ee Ea'), off_by_payout. cbn. rewrite Ef, !andb_true_r, andb_false_r.
    rewrite wrap64_id by (unfold_int; lia). destruct (off_by machine d). cbn. destruct (m =u machine); f_equal; lia.
  - wp_go. eexists. split; [exact Hc'|]. rewrite off_by_payout. cbn. rewrite Ef.
    replace (xe_AmountMinor ev) with 0 by (cbn in *; lia).
    destruct (off_by machine d). cbn. destruct (_ && _); f_equal; lia.
  - wp_go. eexists. split; [exact Hc'|]. rewrite off_by_payout. cbn. rewrite Ef, andb_false_r.
    destruct (off_by machine d). cbn. f_equal; lia.
Qed.
Lemma wp_movement_books w :
  calm_from n NoTx d w -> in_int64 (xe_AmountMinor ev) -> wp (movement_step m ev) (fun _ => in_step) w.
Proof.
  intros Hc Hi. unfold movement_step. destruct (blank _); [wp_go; by exists d|].
  assert (Hrest : forall at_, wp (match movement_of (normalizeMovementKind (xe_Kind ev)) with
      | Some k => let! new := record_movement m ev at_ k in ret (Some new)
      | None => fail (unknown_movement (xe_Kind ev)) end) (fun _ => in_step) w).
  { intros at_. destruct (movement_of _) as [k|]; [|wp_go; by exists d]. apply wp_bind.
    eapply wp_mono with (Q := fun _ => in_step); [by intros [] w'; wp_go|].
    destruct k; [by apply wp_credit_books| |by apply wp_payout_books|];
      (eapply wp_inserted_once; [exact Hc|intros now id w' _ Hc'|intros r w' _ Hc']; by eexists). }
  apply wp_bind. destruct (IsZero _); [eapply wp_time_Now; [done|]; intros|apply wp_ret]; apply Hrest.
Qed.
End Books.

(** In a quiet world a report, answered or not, leaves the ledger as far out
    of step with the notes as it was: what it took in is the entries
    cash_accepted it made, and what it paid out the entries change_dispensed,
    of every machine. *)
Theorem report_books machine i n d w :
  calm_from n NoTx d w -> Forall (fun ev => in_int64 (xe_AmountMinor ev)) (xi_Events i) ->
  exists d', calm_from n NoTx d' (RecordCashMovements i w).2 /\ off_by machine d' = off_by machine d.
Proof.
  change (calm_from n NoTx d w -> Forall (fun ev => in_int64 (xe_AmountMinor ev)) (xi_Events i) ->
    wp (RecordCashMovements i) (fun _ w' => exists d', calm_from n NoTx d' w' /\ off_by machine d' = off_by machine d) w).
  unfold RecordCashMovements. generalize (xi_Events i) as evs, 0 as a. intros evs a. generalize a at 2 as b.
  revert d w a. induction evs as [|ev evs IH]; intros d w a b Hc HF; cbn [record_movements]; [wp_go; eauto|].
  apply Forall_cons in HF as [Hev HF]. apply wp_bind.
  eapply wp_mono; [|by apply (wp_movement_books machine)].
  intros [new|e] w' (d' & Hc' & E); [|eauto]. cbn beta iota.
  destruct new as [[|]|]; (eapply wp_mono; [|by apply IH]); cbn beta; by rewrite <- E.
Qed.

(** ** The first rows of a sorted list *)

Section First.
Context {A : Type} (less : A -> A -> bool).
Context (Hasym : forall x y, less x y = true -> less y x = false).
Context (Htrans : forall x y z, not_after less x y -> not_after less y z -> not_after less x z).

Definition below (x : A) (l : list A) : nat := length (List.filter (fun y => less y x) l).
Lemma below_Permutation x l k : l ≡ₚ k -> below x l = below x k.
Proof.
  unfold below. induction 1 as [|y l k _ IH|y z l|l k j _ IH1 _ IH2]; cbn; [done| | |congruence].
  - destruct (less y x); cbn; by rewrite IH.
  - by destruct (less y x), (less z x).
Qed.
(** What comes after [n] of the rows is not among the first [n]. *)
Lemma take_insert n x s :
  StronglySorted (not_after less) s -> (n <= below x s)%nat -> take n (sorted_insert less x s) = take n s.
Proof.
  unfold below. revert n. induction s as [|y s IH]; intros n Hs Hn; cbn in *; [by replace n with 0%nat by lia|].
  destruct n as [|n]; [done|]. inversion_clear Hs as [|? ? Hs' Hy]. destruct (less y x) eqn:E.
  - cbn in *. f_equal. apply IH; [done|lia].
  - exfalso. replace (List.filter (fun z => less z x) s) with (@nil A) in Hn; [cbn in Hn; lia|].
    symmetry. clear Hn IH Hs'. induction Hy as [|z s Hz Hy IH]; cbn; [done|].
    assert (less z x = false) as -> by exact (Htrans _ _ _ E Hz). done.
Qed.
Lemma take_sort_more n (l more : list A) :
  (forall x, x ∈ more -> (n <= below x l)%nat) -> take n (stable_sort less (more ++ l)) = take n (stable_sort less l).
Proof.
  induction more as [|x more IH]; intros H; cbn; [done|].
  rewrite take_insert; [apply IH; set_solver|by apply stable_sort_sorted|].
  rewrite (below_Permutation _ _ _ (stable_sort_Permutation less _)).
  unfold below. rewrite List.filter_app, length_app. specialize (H x ltac:(set_solver)). unfold below in H. lia.
Qed.

Lemma sort_Permutation l k :
  (forall x y, x ∈ l -> y ∈ l -> not_after less x y -> not_after less y x -> x = y) ->
  l ≡ₚ k -> stable_sort less l = stable_sort less k.
Proof.
  intros Htotal H. apply (sorted_perm_unique (not_after less)); [|by apply stable_sort_sorted..|].
  - intros x y Hx Hy. rewrite !elem_of_stable_sort in *. by apply Htotal.
  - by rewrite !stable_sort_Permutation.
Qed.

(** The first rows of each of several lists decide the first of all. *)
Definition first_of (n : nat) (l : list A) : list A := take n (stable_sort less l).
Lemma below_app x l k : below x (l ++ k) = (below x l + below x k)%nat.
Proof. unfold below. by rewrite List.filter_app, length_app. Qed.
Lemma below_all x l : (forall y, y ∈ l -> less y x = true) -> below x l = length l.
Proof.
  unfold below. induction l as [|y l IH]; intros H; cbn; [done|]. rewrite (H y) by set_solver. cbn.
  rewrite IH; [done|]. set_solver.
Qed.
Lemma concat_firsts_split n ls :
  concat ls ≡ₚ concat (map (fun l => drop n (stable_sort less l)) ls) ++ concat (map (first_of n) ls).
Proof.
  induction ls as [|l ls IH]; cbn; [done|]. rewrite IH at 1. clear IH.
  rewrite <- (stable_sort_Permutation less l) at 1. rewrite <- (take_drop n (stable_sort less l)) at 1.
  unfold first_of. solve_Permutation.
Qed.
Lemma below_concat x l ls : l ∈ ls -> (below x l <= below x (concat ls))%nat.
Proof.
  intros (l1 & l2 & ->)%list_elem_of_split. rewrite concat_app. cbn. rewrite !below_app. lia.
Qed.
Lemma firsts_below n l x :
  (forall a b, a ∈ l -> b ∈ l -> not_after less a b -> a = b \/ less a b = true) -> NoDup l ->
  x ∈ drop n (stable_sort less l) -> (n <= below x (first_of n l))%nat.
Proof.
  intros Hstrict Hnd Hx. unfold first_of. pose proof (stable_sort_sorted less Hasym Htrans l) as Hs.
  assert (Hnd' : NoDup (stable_sort less l)) by (by rewrite stable_sort_Permutation).
  assert (Hin : forall y, y ∈ stable_sort less l -> y ∈ l) by (intros y; by rewrite elem_of_stable_sort).
  revert Hs Hnd' Hin Hx. generalize (stable_sort less l) as s. intros s Hs Hnd' Hin Hx.
  rewrite <- (take_drop n s) in Hs, Hnd', Hin. rewrite below_all.
  - rewrite length_take. apply list_elem_of_lookup in Hx as [i Hi]. rewrite lookup_drop in Hi.
    apply lookup_lt_Some in Hi. lia.
  - intros y Hy. apply NoDup_app in Hnd' as (_ & Hd & _).
    destruct (Hstrict y x) as [->|]; [set_solver|set_solver| |exfalso; by eapply Hd|done].
    revert Hs Hy Hx. clear. generalize (drop n s) as k. induction (take n s) as [|z t IH]; intros k Hs Hy Hx; [set_solver|].
    inversion_clear Hs as [|? ? Hs' Hz]. apply elem_of_cons in Hy as [->|Hy]; [|by eapply IH].
    rewrite Forall_forall in Hz. apply Hz. set_solver.
Qed.
Lemma first_of_concat n ls :
  (forall a b, a ∈ concat ls -> b ∈ concat ls -> not_after less a b -> a = b \/ less a b = true) ->
  NoDup (concat ls) ->
  take n (stable_sort less (concat (map (first_of n) ls))) = take n (stable_sort less (concat ls)).
Proof.
  intros Hstrict Hnd.
  erewrite sort_Permutation with (2 := concat_firsts_split n ls); [|intros x y Hx Hy Hxy Hyx].
  2: { destruct (Hstrict x y Hx Hy Hxy) as [|E]; [done|]. unfold not_after in Hyx. by rewrite E in Hyx. }
  symmetry. apply take_sort_more. intros x Hx.
  apply list_elem_of_In, in_concat in Hx as (k & Hk & Hx). apply list_elem_of_In in Hx.
  apply in_map_iff in Hk as (l & <- & Hl%list_elem_of_In).
  assert (Hsub : forall y, y ∈ l -> y ∈ concat ls).
  { intros y Hy. rewrite list_elem_of_In, in_concat. exists l. by rewrite <- !list_elem_of_In. }
  etransitivity; [|apply (below_concat x (first_of n l)), list_elem_of_In, in_map, list_elem_of_In, Hl].
  apply firsts_below; [auto| |done].
  apply list_elem_of_split in Hl as (l1 & l2 & ->). rewrite concat_app in Hnd. cbn in Hnd.
  apply NoDup_app in Hnd as (_ & _ & Hnd). by apply NoDup_app in Hnd as (Hnd & _ & _).
Qed.
End First.

Lemma stable_sort_map {A B} (f : A -> B) lessA lessB l :
  (forall x y, lessB (f x) (f y) = lessA x y) -> stable_sort lessB (map f l) = map f (stable_sort lessA l).
Proof.
  intros H. induction l as [|x l IH]; cbn; [done|]. rewrite IH. clear IH.
  induction (stable_sort lessA l) as [|y s IH]; cbn; [done|]. rewrite H. destruct (lessA y x); cbn; by rewrite ?IH.
Qed.

(** ** The rows of the ledger *)

(** The rows of each table that a query can show, in the form of the ledger. *)
Definition matching (p : LedgerPage) (d : pgdb) : list (list CashLedgerRow) :=
  [map ledger_acceptance (List.filter (fun x => acceptance_in p x && past_cursor p (ca_AcceptedAt x) (ca_ID x)) (d_acceptances d));
   map ledger_payout (List.filter (fun x => payout_in p x && past_cursor p (po_OccurredAtDevice x) (po_ID x)) (d_payouts d));
   map ledger_lifecycle (List.filter (fun x => lifecycle_in p x && past_cursor p (bl_OccurredAtDevice x) (bl_ID x)) (d_lifecycle d));
   map ledger_observation (List.filter (fun x => observation_in p x && past_cursor p (ho_ObservedAtDevice x) (ho_ID x)) (d_observations d))].
Definition without_cursor (p : LedgerPage) : LedgerPage :=
  mk_LedgerPage (lp_Machine p) (lp_From p) (lp_To p) (lp_Order p) None (lp_Limit p).
Definition query_of (i : ListCashLedgerInput) (machine : N) : LedgerPage :=
  let '(_, _, after, afterID) := ledger_limits i in
  mk_LedgerPage machine (li_From i) (li_To i) (li_OrderID i) (cursor_of after afterID) 0.

Lemma NoDup_map_NoDup {A B} (f : A -> B) l : NoDup (map f l) -> NoDup l.
Proof. apply NoDup_fmap_1. Qed.
Lemma unique_id_inj l x y : NoDup (map lg_ID l) -> x ∈ l -> y ∈ l -> lg_ID x = lg_ID y -> x = y.
Proof.
  induction l as [|z l IH]; cbn; [by intros _ ?%elem_of_nil|]. intros [Hz Hl]%NoDup_cons Hx Hy E.
  assert (Hno : forall u, u ∈ l -> lg_ID z <> lg_ID u).
  { intros u Hu Eu. apply Hz. rewrite Eu. apply list_elem_of_fmap. eauto. }
  apply elem_of_cons in Hx as [->|Hx], Hy as [->|Hy]; [done|by destruct (Hno y)|by destruct (Hno x)|auto].
Qed.

Section Pages.
Context `{UuidText} `{PaymentUpdates}.
(** The hexadecimal text of a uuid has the order of its bytes. *)
Context (uuid_order : forall i j, string_lt (uuid_String i) (uuid_String j) = (i <? j)%N).

Lemma ledger_before_later i j : ledger_before i j = later lg_OccurredAtDevice lg_ID i j.
Proof.
  unfold ledger_before, later. rewrite uuid_order.
  destruct (lg_OccurredAtDevice i =? lg_OccurredAtDevice j) eqn:E; cbn; [|by rewrite orb_false_r].
  apply Z.eqb_eq in E. by rewrite E, Z.ltb_irrefl.
Qed.
Lemma ledger_before_true x y :
  ledger_before x y = true <->
  lg_OccurredAtDevice y < lg_OccurredAtDevice x \/
  lg_OccurredAtDevice x = lg_OccurredAtDevice y /\ (lg_ID y < lg_ID x)%N.
Proof. rewrite ledger_before_later. unfold later. by rewrite orb_true_iff, andb_true_iff, Z.ltb_lt, Z.eqb_eq, N.ltb_lt. Qed.
Lemma ledger_before_false x y :
  ledger_before x y = false <->
  lg_OccurredAtDevice x < lg_OccurredAtDevice y \/
  lg_OccurredAtDevice x = lg_OccurredAtDevice y /\ (lg_ID x <= lg_ID y)%N.
Proof. rewrite <- not_true_iff_false, ledger_before_true. lia. Qed.
Lemma ledger_asym x y : ledger_before x y = true -> ledger_before y x = false.
Proof. rewrite ledger_before_true, ledger_before_false. lia. Qed.
Lemma ledger_trans x y z :
  not_after ledger_before x y -> not_after ledger_before y z -> not_after ledger_before x z.
Proof. unfold not_after. rewrite !ledger_before_false. lia. Qed.
Lemma ledger_strict x y : not_after ledger_before x y -> lg_ID x = lg_ID y \/ ledger_before x y = true.
Proof. unfold not_after. rewrite ledger_before_false, ledger_before_true. lia. Qed.

Lemma page_first_of {A} (f : A -> CashLedgerRow) at_ id_ hit p l :
  (forall x, lg_OccurredAtDevice (f x) = at_ x) -> (forall x, lg_ID (f x) = id_ x) ->
  map f (page_of p at_ id_ hit l) =
  first_of ledger_before (Z.to_nat (lp_Limit p)) (map f (List.filter (fun x => hit x && past_cursor p (at_ x) (id_ x)) l)).
Proof.
  intros Ha Hi. unfold page_of, limit_to, newest_first, first_of. rewrite <- firstn_map. f_equal.
  symmetry. apply stable_sort_map. intros x y. rewrite ledger_before_later. unfold later. by rewrite !Ha, !Hi.
Qed.
Lemma matching_limit p p' d : lp_Machine p = lp_Machine p' -> lp_From p = lp_From p' -> lp_To p = lp_To p' ->
  lp_Order p = lp_Order p' -> lp_After p = lp_After p' -> matching p d = matching p' d.
Proof. destruct p, p'. cbn. by intros -> -> -> -> ->. Qed.

(** The page cut out of at least its rows. *)
Lemma slice_take {A} (l l' : list A) offset limit :
  0 <= offset -> 0 < limit -> Z.of_nat (length l) <= MaxInt32 -> Z.of_nat (length l') <= MaxInt32 ->
  let fetch := cashLedgerFetchLimit limit offset in
  take (Z.to_nat fetch) l' = take (Z.to_nat fetch) l ->
  sliceCashLedgerPage (if fetch <? wrap32 (Z.of_nat (length l')) then take (Z.to_nat fetch) l' else l') offset limit =
  take (Z.to_nat limit) (drop (Z.to_nat offset) l).
Proof.
  intros Ho Hl Hn Hn' fetch E.
  assert (Hf : fetch = Z.min (limit + offset) MaxInt32 \/ offset = 0 /\ fetch = limit).
  { unfold fetch, cashLedgerFetchLimit. destruct (offset <=? 0) eqn:?; [right; lia|].
    destruct (MaxInt32 <? limit + offset) eqn:?; lia. }
  assert (Hcut : exists k, (if fetch <? wrap32 (Z.of_nat (length l')) then take (Z.to_nat fetch) l' else l') = take k l /\
                  (Z.to_nat (limit + offset) <= k \/ length l <= k)%nat).
  { rewrite wrap32_id by (unfold_int; lia). exists (Z.to_nat fetch). split; [|unfold MaxInt32 in *; lia].
    destruct (fetch <? Z.of_nat (length l')) eqn:Ef; [done|].
    rewrite <- E. rewrite take_ge; [done|lia]. }
  destruct Hcut as (k & -> & Hk). clear E Hf fetch. unfold sliceCashLedgerPage.
  replace (offset <? 0) with false by lia. replace (limit <=? 0) with false by lia.
  rewrite length_take.
  destruct (Z.leb_spec (Z.of_nat (k `min` length l)) offset) as [E1|E1].
  - rewrite drop_ge; [by rewrite take_nil|lia].
  - rewrite skipn_firstn_comm, take_take.
    destruct (Z.ltb_spec (Z.of_nat (k `min` length l)) (offset + limit)) as [E2|E2]; [|f_equal; lia].
    rewrite !take_ge; [done|rewrite length_drop; lia..].
Qed.

Lemma ledger_limits_ok i limit offset after afterID :
  ledger_limits i = (limit, offset, after, afterID) -> 0 < limit <= 500 /\ 0 <= offset.
Proof.
  unfold ledger_limits. intros E.
  destruct (Z.leb_spec (li_Limit i) 0); destruct (Z.ltb_spec (li_Offset i) 0);
    repeat match type of E with context [if ?a <? ?b then _ else _] => destruct (Z.ltb_spec a b) end;
    simplify_eq; lia.
Qed.
Lemma count_matching {A} (f : A -> CashLedgerRow) (hit : A -> bool) at_ id_ p l :
  Z.of_nat (length (map f (List.filter (fun x => hit x && past_cursor (without_cursor p) (at_ x) (id_ x)) l))) = count_in hit l.
Proof.
  unfold count_in. rewrite length_map. do 2 f_equal. apply List.filter_ext. intros x. apply andb_true_r.
Qed.

(** What the four queries of a request return, merged. *)
Lemma merged_firsts p d :
  map ledger_acceptance (page_of p ca_AcceptedAt ca_ID (acceptance_in p) (d_acceptances d)) ++
  map ledger_payout (page_of p po_OccurredAtDevice po_ID (payout_in p) (d_payouts d)) ++
  map ledger_lifecycle (page_of p bl_OccurredAtDevice bl_ID (lifecycle_in p) (d_lifecycle d)) ++
  map ledger_observation (page_of p ho_ObservedAtDevice ho_ID (observation_in p) (d_observations d)) =
  concat (map (first_of ledger_before (Z.to_nat (lp_Limit p))) (matching p d)).
Proof. unfold matching. cbn [map concat]. by rewrite app_nil_r, !page_first_of. Qed.
Lemma firsts_length n (ls : list (list CashLedgerRow)) :
  (length (concat (map (first_of ledger_before n) ls)) <= length (concat ls))%nat.
Proof.
  rewrite (Permutation_length (concat_firsts_split ledger_before n ls)), length_app. lia.
Qed.
Lemma total_counted p d :
  let counted := Z.of_nat (length (concat (matching (without_cursor p) d))) in
  counted <= MaxInt32 ->
  add64 (add64 (add64 (count_in (acceptance_in p) (d_acceptances d)) (count_in (payout_in p) (d_payouts d)))
    (count_in (lifecycle_in p) (d_lifecycle d))) (count_in (observation_in p) (d_observations d)) = counted.
Proof.
  intros counted. assert (E : counted = count_in (acceptance_in p) (d_acceptances d) + count_in (payout_in p) (d_payouts d) +
    count_in (lifecycle_in p) (d_lifecycle d) + count_in (observation_in p) (d_observations d)).
  { unfold counted, matching. cbn [concat]. rewrite !length_app, !Nat2Z.inj_add, !count_matching. cbn [length].
    change (acceptance_in (without_cursor p)) with (acceptance_in p).
    change (payout_in (without_cursor p)) with (payout_in p).
    change (lifecycle_in (without_cursor p)) with (lifecycle_in p).
    change (observation_in (without_cursor p)) with (observation_in p). lia. }
  rewrite E. clear E counted. unfold count_in. intros Hc.
  assert (Hadd : forall x y : Z, 0 <= x -> 0 <= y -> x + y <= MaxInt32 -> add64 x y = x + y).
  { intros x y Hx Hy Hxy. apply wrap64_id. unfold_int. lia. }
  rewrite (Hadd (Z.of_nat _) (Z.of_nat _)) by lia. rewrite (Hadd (_ + _)), (Hadd (_ + _ + _)) by lia. done.
Qed.
Lemma shorter_with_cursor p d : (length (concat (matching p d)) <= length (concat (matching (without_cursor p) d)))%nat.
Proof.
  assert (Hf : forall A (f : A -> CashLedgerRow) (h k : A -> bool) l,
    (length (map f (List.filter (fun x => h x && k x) l)) <= length (map f (List.filter (fun x => h x && true) l)))%nat).
  { intros A f h k l. rewrite !length_map. induction l as [|x l IH]; cbn; [done|].
    destruct (h x), (k x); cbn; lia. }
  unfold matching. cbn [concat]. rewrite !length_app. cbn [length].
  repeat apply Nat.add_le_mono; try done; apply Hf.
Qed.

(** C27: The page of a request is that part of all the rows it asks for, newest
    first, and the total counts the rows without the cursor. *)
Theorem ledger_page i machine limit offset after afterID n d w :
  li_MachineID i = Some machine -> machine <> uuid_Nil ->
  ledger_limits i = (limit, offset, after, afterID) ->
  let rows := concat (matching (query_of i machine) d) in
  let counted := Z.of_nat (length (concat (matching (without_cursor (query_of i machine)) d))) in
  NoDup (map lg_ID rows) -> counted <= MaxInt32 -> calm_from n NoTx d w ->
  let page := take (Z.to_nat limit) (drop (Z.to_nat offset) (stable_sort ledger_before rows)) in
  exists w', calm_from n NoTx d w' /\
    ListCashLedger i w =
      (Ok (mk_ListCashLedgerResult page
             (option_map (fun r => (lg_OccurredAtDevice r, lg_ID r)) (List.last (map Some page) None)) counted), w').
Proof.
  intros Em Hm El rows counted Hnd Hcount Hc page.
  pose proof (ledger_limits_ok _ _ _ _ _ El) as [Hl Ho].
  assert (Hwp : wp (ListCashLedger i) (fun r w' => calm_from n NoTx d w' /\
    r = Ok (mk_ListCashLedgerResult page
      (option_map (fun r => (lg_OccurredAtDevice r, lg_ID r)) (List.last (map Some page) None)) counted)) w).
  2: { destruct Hwp as [H1 H2]. eexists. split; [exact H1|]. rewrite <- H2. by destruct (ListCashLedger i w). }
  unfold ListCashLedger. rewrite El, Em. replace (machine =u uuid_Nil) with false by (symmetry; by apply N.eqb_neq).
  set (fetch := cashLedgerFetchLimit limit offset).
  set (p := mk_LedgerPage machine (li_From i) (li_To i) (li_OrderID i) (cursor_of after afterID) fetch).
  cbn zeta.
  do 4 (apply wp_bind; eapply wp_found; [exact Hc|done|reflexivity|]; clear w Hc; intros w Hc; cbn beta iota).
  do 4 (apply wp_bind; eapply wp_select_many; [exact Hc|done|]; clear w Hc; intros w Hc; cbn beta iota).
  apply wp_ret. split; [done|]. rewrite merged_firsts, total_counted.
  2: { etransitivity; [|exact Hcount]. unfold counted, query_of. by rewrite El. }
  assert (Erows : matching p d = matching (query_of i machine) d) by (apply matching_limit; unfold query_of; by rewrite El).
  assert (Ecount : matching (without_cursor p) d = matching (without_cursor (query_of i machine)) d)
    by (apply matching_limit; unfold query_of; by rewrite El).
  rewrite Erows, Ecount. cbn [lp_Limit p]. change (lp_Limit p) with fetch.
  pose proof (shorter_with_cursor (query_of i machine) d) as Hshort.
  pose proof (firsts_length (Z.to_nat fetch) (matching (query_of i machine) d)) as Hfirsts.
  set (merged := concat (map _ (matching (query_of i machine) d))).
  pose proof (slice_take (stable_sort ledger_before rows) (stable_sort ledger_before merged) offset limit) as Hs.
  cbn zeta in Hs. fold fetch in Hs. rewrite Hs; [reflexivity|lia|lia|..].
  - rewrite stable_sort_Permutation. unfold rows. lia.
  - rewrite stable_sort_Permutation. unfold merged. lia.
  - apply first_of_concat; [apply ledger_asym|apply ledger_trans| |].
    + intros a b Ha Hb Hab. destruct (ledger_strict a b Hab) as [E|E]; [left|by right].
      by eapply (unique_id_inj rows).
    + apply NoDup_map_NoDup in Hnd. exact Hnd.
Qed.
End Pages.
