(* ===== verification/OperatorLaws.v ===== *)
(** * Who is signed in at a machine

    The statements on sessions respect [safe]: at most one session of a
    machine is active and one that ended is final, whatever fails and whatever
    other clients do.  In a quiet world a sign-in is a step of a small state
    machine ([start_refines]): the machine is free, or it is taken by an actor
    who keeps it until it is silent long enough or an administrator steps in. *)

From S2P Require Import Prelude.
From S2P Require Import GoStd.
From S2P Require Import Pricing.
From S2P Require Import CommerceTypes.
From S2P Require Import Evidence.
From S2P Require Import Rules.
From S2P Require Import CommerceService.
From S2P Require Import ServiceLaws.
From S2P Require Import Db.
From S2P Require Import Queries.
From S2P Require Import CashQueries.
From S2P Require Import History.
From S2P Require Import PgCommerce.
From S2P Require Import OperatorService.
From S2P Require Import OperatorSessions.
From S2P Require Import StoreLaws.
From S2P Require Import Logic.
From S2P Require Import CashLaws.
Local Open Scope string_scope.
Local Open Scope list_scope.
Local Open Scope Z_scope.

(** ** The statements are safe *)

Ltac one_operator_table := split; cbn; try done; try (apply rows_kept_app; apply _).
(** An update of active sessions that keeps who they are. *)
Lemma sessions_updated d p f :
  (forall r, p r = true -> is_active r = true) -> (forall r, session_identity (f r) = session_identity r) ->
  safe d (set_sessions (update_where p f) d).
Proof.
  intros Hp Hid. apply safe_operator.
  - split; cbn; try done. apply rows_kept_update; [apply _|]. intros r Hr. split; [by rewrite Hid|].
    intros Hst. apply Hp in Hr. unfold is_active in Hr. apply String.eqb_eq in Hr. done.
  - intros []. split; cbn.
    + apply unique_on_update; [done|]. intros r _. specialize (Hid r). unfold session_identity in Hid. congruence.
    + apply unique_on_release; [done|]. intros r Hr. specialize (Hp r Hr). specialize (Hid r).
      unfold session_identity, active_session, is_active in *. rewrite Hp.
      assert (Hm : os_MachineID (f r) = os_MachineID r) by congruence. rewrite Hm.
      destruct (String.eqb (os_Status (f r)) "ACTIVE"); [left|right]; reflexivity.
Qed.
Lemma with_identity r st en ex md ac re up : session_identity (session_with r st en ex md ac re up) = session_identity r.
Proof. done. Qed.
Lemma update_sessions_safe chk p f :
  (forall r, p r = true -> is_active r = true) -> (forall now r, session_identity (f now r) = session_identity r) ->
  sql_guarantee safe (update_rows d_sessions set_sessions chk p f).
Proof. intros Hp Hid. apply guarantee_update_rows; [apply _|]. intros now d r _ _ _. by apply sessions_updated. Qed.
Lemma active_on_active m r : active_on m r = true -> is_active r = true.
Proof. by intros [_ ?]%andb_true_iff. Qed.
Lemma active_id_active i r : active_id i r = true -> is_active r = true.
Proof. by intros [_ ?]%andb_true_iff. Qed.
Lemma insert_session_safe machine actor tech principal status expires md :
  sql_guarantee safe (insert_row set_sessions (fun r d =>
      let? _ := session_ok r in
      let? _ := unique (fun x => os_ID x =u os_ID r) (d_sessions d) "machine_operator_sessions_pkey" in
      if is_active r
      then unique (active_on (os_MachineID r)) (d_sessions d) "ux_machine_operator_sessions_one_active"
      else Ok tt)
    (fun now id => mk_SessionRow id machine actor tech principal status now None expires md now None now now)).
Proof.
  apply guarantee_insert_row. intros now id d Hc.
  apply res_bind_inv_Ok in Hc as (u & _ & Hc). apply res_bind_inv_Ok in Hc as (u' & Hid & Hc).
  pose proof (unique_Ok _ _ _ _ Hid) as Uid. cbn beta in Uid.
  apply safe_operator; [one_operator_table|]. intros []. split; cbn.
  - apply unique_on_snoc; [done|]. intros c y [= <-] Hy [= E]. specialize (Uid y Hy). cbn in Uid.
    by rewrite E, N.eqb_refl in Uid.
  - apply unique_on_snoc; [done|]. intros c y Ec Hy Ey. unfold active_session in Ec, Ey. cbn in Ec.
    unfold is_active in Hc. cbn in Hc. destruct (String.eqb status "ACTIVE"); [|done].
    pose proof (unique_Ok _ _ _ _ Hc y Hy) as Hu. cbn in Hu. injection Ec as <-.
    unfold active_on, is_active in Hu. destruct (String.eqb (os_Status y) "ACTIVE"); [|done].
    injection Ey as E. by rewrite E, N.eqb_refl in Hu.
Qed.
Lemma append_auth_safe chk row : sql_guarantee safe (insert_row set_auth_events chk row).
Proof. apply guarantee_insert_row. intros now id d _. apply safe_operator; [one_operator_table|by intros []]. Qed.
Lemma append_attribution_safe chk row : sql_guarantee safe (insert_row set_attributions chk row).
Proof. apply guarantee_insert_row. intros now id d _. apply safe_operator; [one_operator_table|by intros []]. Qed.

Section Writers.
Context {R : world -> world -> Prop} `{!Statement_rel safe R}.

Lemma ev_resume ex md m a t p : evolves R (ResumeActiveOperatorSessionForActor ex md m a t p).
Proof.
  apply sr_stmt, update_sessions_safe; [|done]. intros r Hr. do 3 (apply andb_true_iff in Hr as [Hr _]).
  by eapply active_on_active.
Qed.
Lemma ev_insert_session m a t p s e md : evolves R (InsertMachineOperatorSession m a t p s e md).
Proof. apply sr_stmt, insert_session_safe. Qed.
Lemma ev_end s t r i : evolves R (EndMachineOperatorSession s t r i).
Proof. apply sr_stmt, update_sessions_safe; [apply active_id_active|done]. Qed.
Lemma ev_touch i : evolves R (TouchMachineOperatorSessionActivity i).
Proof. apply sr_stmt, update_sessions_safe; [apply active_id_active|done]. Qed.
Lemma ev_timeout i : evolves R (TimeoutMachineOperatorSessionIfExpired i).
Proof.
  apply sr_stmt. intros now id d r d'. apply (update_sessions_safe no_check _ session_expired); [|done].
  intros x Hx. apply andb_true_iff in Hx as [Hx _]. by eapply active_id_active.
Qed.
Lemma ev_auth_event s m e a t c md : evolves R (InsertMachineOperatorAuthEvent s m e a t c md).
Proof. apply sr_stmt, append_auth_safe. Qed.
Lemma ev_attribution s m o rt ri t md c : evolves R (InsertMachineActionAttribution s m o rt ri t md c).
Proof. apply sr_stmt, append_attribution_safe. Qed.
Lemma ev_ptrTimeOrNow t : evolves R (ptrTimeOrNow t).
Proof. destruct t; cbn; evolve. Qed.
Hint Resolve ev_resume ev_insert_session ev_end ev_touch ev_timeout ev_auth_event ev_attribution ev_ptrTimeOrNow : evolves.
Lemma ev_or_error {A} e (m : M world A) : evolves R m -> evolves R (or_error e m).
Proof. intros Hm. unfold or_error. evolve. Qed.
Lemma ev_get i : evolves R (GetOperatorSessionByID i).
Proof. unfold GetOperatorSessionByID. evolve. Qed.
Lemma ev_active m : evolves R (GetActiveOperatorSessionByMachineID m).
Proof. unfold GetActiveOperatorSessionByMachineID. evolve. Qed.
Hint Resolve ev_or_error ev_get ev_active : evolves.
Lemma ev_record_auth r e a : evolves R (record_auth r e a).
Proof. unfold record_auth. evolve. Qed.
Hint Resolve ev_record_auth : evolves.
Lemma ev_locked i : evolves R (locked_active i).
Proof. unfold locked_active, GetOperatorSessionByIDForUpdate. evolve. Qed.
Hint Resolve ev_locked : evolves.
Lemma ev_StartOperatorSession i : evolves R (StartOperatorSession i).
Proof.
  unfold StartOperatorSession. apply sr_tx.
  unfold resume_session, end_other, insert_session, GetActiveOperatorSessionByMachineIDForUpdate. evolve.
Qed.
Lemma ev_EndOperatorSession i : evolves R (EndOperatorSession i).
Proof. unfold EndOperatorSession. apply sr_tx. evolve. Qed.
Lemma ev_TouchOperatorSessionActivity i : evolves R (TouchOperatorSessionActivity i).
Proof. unfold TouchOperatorSessionActivity. apply sr_tx. evolve. Qed.
Lemma ev_TimeoutOperatorSessionIfExpired i : evolves R (TimeoutOperatorSessionIfExpired i).
Proof. unfold TimeoutOperatorSessionIfExpired. apply sr_tx. evolve. Qed.
Lemma ev_InsertAuthEvent i : evolves R (InsertAuthEvent i).
Proof. unfold InsertAuthEvent. evolve. Qed.
Lemma ev_InsertActionAttribution i : evolves R (InsertActionAttribution i).
Proof. unfold InsertActionAttribution. evolve. Qed.
Lemma ev_insertOperatorSessionAttribution `{UuidText} s : evolves R (insertOperatorSessionAttribution s).
Proof. unfold insertOperatorSessionAttribution. evolve. Qed.
End Writers.
#[export] Hint Resolve ev_StartOperatorSession ev_EndOperatorSession ev_TouchOperatorSessionActivity
  ev_TimeoutOperatorSessionIfExpired ev_InsertAuthEvent ev_InsertActionAttribution ev_get ev_active
  ev_insertOperatorSessionAttribution ev_or_error : evolves.

(** ** Statements at the time of the world *)

Lemma wp_stmt_now {A} (f : sql A) n t d w (Q : res A -> world -> Prop) :
  calm_from n t d w -> t <> Aborted ->
  (forall id, (n <= id)%N -> match f (w_now w) id d with
     | Ok (Some a, d') => forall w', w_now w' = w_now w -> calm_from n t d' w' -> Q (Ok a) w'
     | Ok (None, d') => forall w', w_now w' = w_now w -> calm_from n t d' w' -> Q (Err ErrNoRows) w'
     | Err e => forall w', calm_from n (failed_tx t) d w' -> Q (Err e) w'
     end) ->
  wp (stmt f) Q w.
Proof.
  intros [Hd Ht Hs Hn] Hna HQ. specialize (HQ (w_next w) Hn). unfold wp, stmt. rewrite Ht, Hs. cbn [next_event].
  destruct t; try done; rewrite Hd;
    (destruct (f (w_now w) (w_next w) d) as [[[a|] d']|e] eqn:E; cbn; apply HQ; split; cbn; try done; lia).
Qed.
Lemma wp_now (Q : res Z -> world -> Prop) w : Q (Ok (w_now w)) w -> wp time_Now Q w.
Proof. done. Qed.
Section At.
Context (n : N) (t : txstate) (d : pgdb) (w : world) (Hc : calm_from n t d w) (Hna : t <> Aborted).
Lemma wp_found_now {A} (f : pgdb -> option A) a (Q : res A -> world -> Prop) :
  f d = Some a -> (forall w', w_now w' = w_now w -> calm_from n t d w' -> Q (Ok a) w') -> wp (stmt (select_one f)) Q w.
Proof. intros E HQ. eapply wp_stmt_now; [done|done|]. intros id _. unfold select_one. by rewrite E. Qed.
Lemma wp_missing_now {A} (f : pgdb -> option A) (Q : res A -> world -> Prop) :
  f d = None -> (forall w', w_now w' = w_now w -> calm_from n t d w' -> Q (Err ErrNoRows) w') ->
  wp (stmt (select_one f)) Q w.
Proof. intros E HQ. eapply wp_stmt_now; [done|done|]. intros id _. unfold select_one. by rewrite E. Qed.
Lemma wp_updated_now {A} get (set : (list A -> list A) -> pgdb -> pgdb) chk p f r (Q : res A -> world -> Prop) :
  List.find p (get d) = Some r -> chk (f (w_now w) r) d = Ok tt ->
  (forall w', w_now w' = w_now w -> calm_from n t (set (update_where p (f (w_now w))) d) w' -> Q (Ok (f (w_now w) r)) w') ->
  wp (stmt (update_rows get set chk p f)) Q w.
Proof. intros E Hk HQ. eapply wp_stmt_now; [done|done|]. intros id _. unfold update_rows. by rewrite E, Hk. Qed.
Lemma wp_inserted_now {A} (set : (list A -> list A) -> pgdb -> pgdb) chk row (Q : res A -> world -> Prop) :
  (forall id, (n <= id)%N -> chk (row (w_now w) id) d = Ok tt) ->
  (forall id w', (n <= id)%N -> w_now w' = w_now w -> calm_from n t (set (fun l => l ++ [row (w_now w) id]) d) w' ->
     Q (Ok (row (w_now w) id)) w') ->
  wp (stmt (insert_row set chk row)) Q w.
Proof.
  intros Hk HQ. eapply wp_stmt_now; [done|done|]. intros id Hid. unfold insert_row. rewrite Hk by done. eauto.
Qed.
End At.

(** ** Who has the machine *)

Definition seat_of (machine : N) (d : pgdb) : option SessionRow := List.find (active_on machine) (d_sessions d).

Lemma find_updated {A} (q p : A -> bool) f (l : list A) :
  (forall x, x ∈ l -> q (if p x then f x else x) = q x) ->
  List.find q (update_where p f l) = option_map (fun x => if p x then f x else x) (List.find q l).
Proof.
  induction l as [|x l IH]; intros H; [done|]. rewrite update_where_cons. cbn [List.find].
  rewrite H by set_solver. destruct (q x); [done|]. apply IH. intros y Hy. apply H. set_solver.
Qed.
Lemma seat_active machine d a : seat_of machine d = Some a -> a ∈ d_sessions d /\ os_MachineID a = machine /\ is_active a = true.
Proof. intros [Ha [Hm%N.eqb_eq Hs]%andb_true_iff]%find_Some_elem. done. Qed.
(** It is the only one there. *)
Lemma seat_only machine d a x :
  wf d -> seat_of machine d = Some a -> x ∈ d_sessions d -> active_on machine x = true -> x = a.
Proof.
  intros Hw (Ha & Hm & Hs)%seat_active Hx [Hmx%N.eqb_eq Hsx]%andb_true_iff. pose proof (wt_active _ (wf_op _ Hw)) as Hu.
  unfold is_active in *. apply (unique_on_same _ _ _ _ Hu Hx Ha); unfold active_session; rewrite Hsx; [|done].
  rewrite Hs. congruence.
Qed.
Lemma seat_id machine d a x :
  wf d -> seat_of machine d = Some a -> x ∈ d_sessions d -> os_ID x = os_ID a -> x = a.
Proof.
  intros Hw (Ha & _ & _)%seat_active Hx E. pose proof (wt_sessions _ (wf_op _ Hw)) as Hu.
  by apply (unique_on_same _ _ _ _ Hu Hx Ha); [f_equal|].
Qed.

(** The holder's row changes and stays active: the others keep their seats. *)
Lemma seat_renewed machine d a p f :
  wf d -> seat_of machine d = Some a -> p a = true -> (forall x, p x = true -> active_on machine x = true) ->
  (forall x, os_MachineID (f x) = os_MachineID x /\ os_Status (f x) = os_Status x) ->
  seat_of machine (set_sessions (update_where p f) d) = Some (f a) /\
  forall m, m <> machine -> seat_of m (set_sessions (update_where p f) d) = seat_of m d.
Proof.
  intros Hw Hs Hp Hpm Hf.
  assert (Hq : forall m x, x ∈ d_sessions d -> active_on m (if p x then f x else x) = active_on m x).
  { intros m x _. destruct (p x); [|done]. destruct (Hf x) as [H1 H2]. unfold active_on, is_active. by rewrite H1, H2. }
  split.
  - unfold seat_of. cbn. rewrite find_updated by apply Hq. change (List.find _ _) with (seat_of machine d).
    rewrite Hs. cbn. by rewrite Hp.
  - intros m Hm. unfold seat_of at 1. cbn. rewrite find_updated by apply Hq. change (List.find _ _) with (seat_of m d).
    destruct (seat_of m d) as [x|] eqn:Ex; [|done]. cbn. destruct (p x) eqn:Epx; [|done].
    apply Hpm in Epx. apply andb_true_iff in Epx as [E%N.eqb_eq _]. apply seat_active in Ex as (_ & Ex & _). congruence.
Qed.
(** The holder's session ends. *)
Lemma seat_ended machine d a f :
  wf d -> seat_of machine d = Some a -> is_active (f a) = false ->
  seat_of machine (set_sessions (update_where (active_id (os_ID a)) f) d) = None /\
  f a ∈ d_sessions (set_sessions (update_where (active_id (os_ID a)) f) d) /\
  forall m, m <> machine -> seat_of m (set_sessions (update_where (active_id (os_ID a)) f) d) = seat_of m d.
Proof.
  intros Hw Hs Hf. pose proof (seat_active _ _ _ Hs) as (Ha & Hm & Hact).
  assert (Hpa : forall x, x ∈ d_sessions d -> active_id (os_ID a) x = true -> x = a).
  { intros x Hx [E%N.eqb_eq _]%andb_true_iff. by eapply seat_id. }
  assert (Hown : active_id (os_ID a) a = true) by (unfold active_id; by rewrite N.eqb_refl).
  split_and!.
  - unfold seat_of. cbn. apply find_None_elem. intros x (y & Hy & ->)%elem_of_update_where.
    destruct (active_id (os_ID a) y) eqn:E.
    + apply Hpa in E as ->; [|done]. unfold active_on. by rewrite Hf, andb_false_r.
    + apply not_true_iff_false. intros H. rewrite (seat_only _ _ _ _ Hw Hs Hy H) in E. congruence.
  - cbn. apply elem_of_update_where. exists a. by rewrite Hown.
  - intros m Hm'. unfold seat_of at 1. cbn. rewrite find_updated.
    + change (List.find _ _) with (seat_of m d). destruct (seat_of m d) as [x|] eqn:Ex; [|done]. cbn.
      destruct (active_id (os_ID a) x) eqn:E; [|done]. apply seat_active in Ex as (Hx & Ex & _).
      apply Hpa in E; [|done]. subst x. congruence.
    + intros x Hx. destruct (active_id (os_ID a) x) eqn:E; [|done]. apply Hpa in E as ->; [|done].
      unfold active_on. rewrite Hf, andb_false_r, Hm. symmetry. apply andb_false_iff. left. apply N.eqb_neq. congruence.
Qed.
Lemma seat_taken machine d row :
  seat_of machine d = None -> os_MachineID row = machine -> is_active row = true ->
  seat_of machine (set_sessions (fun l => l ++ [row]) d) = Some row /\
  forall m, m <> machine -> seat_of m (set_sessions (fun l => l ++ [row]) d) = seat_of m d.
Proof.
  intros Hs Hm Ha. split.
  - unfold seat_of in *. cbn. rewrite find_snoc. change (d_sessions d) with (ot_sessions (mt_operator (d_machine d))) in Hs.
    rewrite Hs. unfold active_on. by rewrite Ha, Hm, N.eqb_refl.
  - intros m Hm'. unfold seat_of. cbn. rewrite find_snoc. unfold active_on at 2. rewrite Ha.
    replace (os_MachineID row =u m) with false by (symmetry; apply N.eqb_neq; congruence). cbn.
    change (ot_sessions (mt_operator (d_machine d))) with (d_sessions d). by destruct (List.find _ _).
Qed.

(** ** Signing in *)

(** The actor of a session as the service passes it on. *)
Inductive proper_actor : string -> option N -> option string -> Prop :=
| proper_technician t : t <> uuid_Nil -> proper_actor "TECHNICIAN" (Some t) None
| proper_user p : TrimSpace p = p -> btrim_nonempty p = true -> proper_actor "USER" None (Some p).
Definition session_actor (r : SessionRow) := (os_ActorType r, os_TechnicianID r, os_UserPrincipal r).
Definition asked_actor (i : StartOperatorSessionParams) := (sp_ActorType i, sp_TechnicianID i, sp_UserPrincipal i).
#[export] Instance actor_eq_dec : EqDecision (string * option N * option string) := _.

(** The machine as a state: who has it, and what a sign-in makes of that. *)
Inductive sign_in := Resumed (a : SessionRow) | Opened (ended : option (SessionRow * (string * string))).
Definition signs_in (i : StartOperatorSessionParams) (now : Z) (seat : option SessionRow) : res sign_in :=
  match seat with
  | None => Ok (Opened None)
  | Some a =>
      if decide (session_actor a = asked_actor i) then Ok (Resumed a)
      else match gives_way i a now with
           | Some how => Ok (Opened (Some (a, how)))
           | None => Err ErrActiveSessionExists
           end
  end.
(** Its outcome in the tables. *)
Definition signed_in (i : StartOperatorSessionParams) (now : Z) (d d' : pgdb) (r : res SessionRow) : Prop :=
  let machine := sp_MachineID i in
  match signs_in i now (seat_of machine d) with
  | Err e => r = Err e /\ d' = d
  | Ok (Resumed a) =>
      let row := session_resumed (sp_ExpiresAt i) (RequiredString (sp_ClientMetadata i)) now a in
      r = Ok row /\ seat_of machine d' = Some row
  | Ok (Opened old) =>
      exists row, r = Ok row /\ seat_of machine d' = Some row /\ os_MachineID row = machine /\
        session_actor row = asked_actor i /\ os_LastActivityAt row = now /\ os_ExpiresAt row = sp_ExpiresAt i /\
        (forall x, x ∈ d_sessions d -> os_ID x <> os_ID row) /\
        match old with
        | None => True
        | Some (a, (status, reason)) => session_ended status now (Some reason) now a ∈ d_sessions d'
        end
  end.

Lemma same_actor_iff a i :
  proper_actor (os_ActorType a) (os_TechnicianID a) (os_UserPrincipal a) ->
  proper_actor (sp_ActorType i) (sp_TechnicianID i) (sp_UserPrincipal i) ->
  sameOperatorSessionActor a i = bool_decide (session_actor a = asked_actor i).
Proof.
  unfold sameOperatorSessionActor, session_actor, asked_actor. intros Ha Hi.
  destruct Ha as [t Ht|p Hp _]; destruct Hi as [t' Ht'|p' Hp' _]; cbn; try done.
  - destruct (N.eqb_spec t t'); symmetry; [apply bool_decide_eq_true_2|apply bool_decide_eq_false_2]; congruence.
  - rewrite Hp, Hp'. destruct (String.eqb_spec p p'); symmetry; [apply bool_decide_eq_true_2|apply bool_decide_eq_false_2];
      congruence.
Qed.
Lemma proper_shape r : proper_actor (os_ActorType r) (os_TechnicianID r) (os_UserPrincipal r) -> actor_shape r = true.
Proof. unfold actor_shape. intros [t Ht|p Hp Hb]; cbn; [done|by rewrite Hb]. Qed.
Lemma proper_type t a p : proper_actor t a p -> one_of t actorTypes = true.
Proof. by intros []. Qed.

(** The sign-in event. *)
Definition auth_fits (a : option InitialSessionAuth) : Prop :=
  match a with
  | Some a => one_of (ia_AuthMethod a) authMethods = true /\ (blank (ia_EventType a) = true \/ one_of (ia_EventType a) authEventTypes = true)
  | None => True
  end.
Lemma wp_record_auth row e a n d w (Q : res unit -> world -> Prop) :
  calm_from n InTx d w -> row ∈ d_sessions d -> one_of e authEventTypes = true ->
  one_of (ia_AuthMethod a) authMethods = true ->
  (forall f w', calm_from n InTx (set_auth_events f d) w' -> Q (Ok tt) w') -> wp (record_auth row e a) Q w.
Proof.
  intros Hc Hr He Hm HQ. unfold record_auth, ptrTimeOrNow. apply wp_bind. eapply wp_time_Now; [done|]. intros now.
  apply wp_bind. eapply wp_inserted_now; [exact Hc|done|..].
  - intros id _. cbn [ae_EventType ae_AuthMethod ae_OperatorSessionID]. rewrite !check_true by done. cbn [res_bind fk_opt].
    apply fk_elem. apply list_elem_of_fmap. eauto.
  - intros id w' _ _ Hc'. wp_go. by eapply HQ.
Qed.

Section StartSpec.
Context (i : StartOperatorSessionParams) (n : N) (d : pgdb) (Hw : wf d).
Context (Hactor : proper_actor (sp_ActorType i) (sp_TechnicianID i) (sp_UserPrincipal i)).
Context (Hauth : auth_fits (sp_InitialAuth i)).
Context (Hfresh : forall r, r ∈ d_sessions d -> (os_ID r < n)%N).
Let machine := sp_MachineID i.

Lemma auth_sessions f d1 : d_sessions (set_auth_events f d1) = d_sessions d1.
Proof. reflexivity. Qed.
Lemma auth_seat f d1 m : seat_of m (set_auth_events f d1) = seat_of m d1.
Proof. reflexivity. Qed.
Lemma auth_signed f d1 now row :
  signed_in i now d d1 (Ok row) -> signed_in i now d (set_auth_events f d1) (Ok row).
Proof.
  unfold signed_in. rewrite auth_seat. destruct (signs_in _ _ _) as [[a|old]|e]; intros H; [exact H..|by destruct H].
Qed.
Definition seats_kept (d' : pgdb) : Prop := forall m, m <> machine -> seat_of m d' = seat_of m d.
Definition start_post (now : Z) (r : res (tx_end SessionRow)) (w' : world) : Prop :=
  exists d', calm_from n InTx d' w' /\ seats_kept d' /\
    match r with
    | Ok (Commit row) => signed_in i now d d' (Ok row)
    | Ok (Rollback _) => False
    | Err e => signed_in i now d d (Err e)
    end.
(** With the event of the sign-in, or without one. *)
Lemma wp_start_finish now e row d1 w :
  calm_from n InTx d1 w -> row ∈ d_sessions d1 -> seats_kept d1 -> signed_in i now d d1 (Ok row) ->
  (forall a, sp_InitialAuth i = Some a -> one_of (e a) authEventTypes = true) ->
  wp (match sp_InitialAuth i with
      | None => ret (Commit row)
      | Some a => record_auth row (e a) a ;;; ret (Commit row)
      end) (start_post now) w.
Proof.
  intros Hc Hr Hk Hs He. destruct (sp_InitialAuth i) as [a|] eqn:Ea; [|wp_go; by exists d1].
  apply wp_bind. destruct Hauth as [Hm _]. eapply wp_record_auth; [exact Hc|done|by apply He|done|].
  intros f w' Hc'. wp_go. eexists. split; [exact Hc'|]. split; [exact Hk|by apply auth_signed].
Qed.
Lemma wp_resume now a w :
  calm_from n InTx d w -> w_now w = now -> seat_of machine d = Some a -> session_actor a = asked_actor i ->
  wp (resume_session i) (start_post now) w.
Proof.
  intros Hc Hnow Hs Ha. unfold resume_session, ResumeActiveOperatorSessionForActor. wp_go.
  unfold session_actor, asked_actor in Ha. injection Ha as E1 E2 E3.
  set (p := fun r => active_on (sp_MachineID i) r && _ && _ && _).
  assert (Hpm : forall x, p x = true -> active_on machine x = true).
  { intros x Hx. unfold p in Hx. by do 3 (apply andb_true_iff in Hx as [Hx _]). }
  assert (Hpa : p a = true).
  { pose proof (seat_active _ _ _ Hs) as (_ & Hm & Hact). unfold p, active_on. rewrite Hm, Hact, E1, E2, E3.
    unfold machine. rewrite N.eqb_refl, String.eqb_refl. cbn. unfold same_text. rewrite bool_decide_eq_true_2 by done.
    rewrite andb_true_r. destruct (sp_TechnicianID i); cbn; [apply N.eqb_refl|done]. }
  assert (Hf : List.find p (d_sessions d) = Some a).
  { destruct (List.find p (d_sessions d)) as [x|] eqn:Ex.
    - apply find_Some_elem in Ex as [Hx Px]. f_equal. by eapply seat_only; [..|apply Hpm].
    - exfalso. pose proof (proj1 (find_None_elem _ _) Ex a) as Hx. rewrite Hpa in Hx.
      by discriminate Hx; apply seat_active in Hs as [? _]. }
  eapply wp_updated_now; [exact Hc|done|exact Hf|done|]. intros w1 Hn1 Hc1. wp_go.
  set (f := session_resumed _ _) in *.
  destruct (seat_renewed machine d a p (f (w_now w)) Hw Hs Hpa Hpm (fun x => conj eq_refl eq_refl)) as [Hseat Hothers].
  assert (Hs1 : signed_in i now d (set_sessions (update_where p (f (w_now w))) d) (Ok (f (w_now w) a))).
  { unfold signed_in, signs_in. fold machine. rewrite Hs, decide_True by (unfold session_actor, asked_actor; congruence).
    rewrite <- Hnow. by split. }
  assert (Hrow : f (w_now w) a ∈ d_sessions (set_sessions (update_where p (f (w_now w))) d))
    by (by apply (seat_active machine)).
  destruct (sp_InitialAuth i) as [au|] eqn:Eau; [|wp_go; by eexists].
  destruct Hauth as [Hm _].
  assert (Hv : ValidateAuthEventSemantics "session_refresh" (ia_AuthMethod au) = Ok tt)
    by (unfold ValidateAuthEventSemantics, validateAuthMethod; by rewrite Hm).
  rewrite Hv. wp_go. eapply wp_record_auth; [exact Hc1|exact Hrow|done|done|].
  intros g w' Hc'. wp_go. eexists. split; [exact Hc'|]. split; [exact Hothers|by apply auth_signed].
Qed.
Lemma wp_sign_in now old d1 w :
  calm_from n InTx d1 w -> w_now w = now -> seat_of machine d1 = None ->
  (forall r, r ∈ d_sessions d1 -> (os_ID r < n)%N) -> seats_kept d1 ->
  signs_in i now (seat_of machine d) = Ok (Opened old) ->
  match old with
  | None => True
  | Some (a, (status, reason)) => session_ended status now (Some reason) now a ∈ d_sessions d1
  end ->
  wp (insert_session i) (start_post now) w.
Proof.
  intros Hc Hnow Hs Hf Hk Hsi Hold. unfold insert_session, InsertMachineOperatorSession. wp_go.
  eapply wp_inserted_now; [exact Hc|done|..].
  - intros id Hid. unfold session_ok. cbn [os_ActorType os_Status].
    rewrite (check_true _ _ (proper_type _ _ _ Hactor)). cbn [res_bind].
    rewrite check_true by done. cbn [res_bind]. rewrite check_true by (by apply proper_shape). cbn [res_bind].
    rewrite unique_fresh; cbn [res_bind].
    + cbn [is_active os_Status]. apply unique_fresh. intros x Hx. by apply (proj1 (find_None_elem _ _) Hs).
    + intros x Hx. apply N.eqb_neq. cbn. specialize (Hf x Hx). lia.
  - intros id w1 Hid Hn1 Hc1. wp_go. set (row := mk_SessionRow id _ _ _ _ _ _ _ _ _ _ _ _ _) in *.
    destruct (seat_taken machine d1 row Hs eq_refl eq_refl) as [Hseat Hothers].
    assert (Hk' : seats_kept (set_sessions (fun l => l ++ [row]) d1)).
    { intros m Hm. rewrite Hothers by done. by apply Hk. }
    apply wp_start_finish with (e := fun a => if blank (ia_EventType a) then "login_success" else ia_EventType a)
      (d1 := set_sessions (fun l => l ++ [row]) d1); [done|by apply (seat_active machine)|done|..].
    + unfold signed_in. fold machine. rewrite Hsi. exists row. split_and!; try done.
      * intros x Hx E. specialize (Hfresh x Hx). cbn in E. lia.
      * destruct old as [[a [st re]]|]; [|done]. cbn. apply elem_of_app. by left.
    + intros a Ea. rewrite Ea in Hauth. destruct Hauth as [_ [Hb|He]]; [by rewrite Hb|].
      by destruct (blank _).
Qed.
Lemma wp_end_other now a w :
  calm_from n InTx d w -> w_now w = now -> seat_of machine d = Some a -> session_actor a <> asked_actor i ->
  proper_actor (os_ActorType a) (os_TechnicianID a) (os_UserPrincipal a) ->
  wp (let! _ := end_other i a in insert_session i) (start_post now) w.
Proof.
  intros Hc Hnow Hs Ha Hpa. unfold end_other. apply wp_bind, wp_bind, wp_now. cbn beta iota. rewrite Hnow.
  assert (Hsi : signs_in i now (seat_of machine d) = match gives_way i a now with
      | Some how => Ok (Opened (Some (a, how))) | None => Err ErrActiveSessionExists end)
    by (rewrite Hs; unfold signs_in; by rewrite decide_False).
  destruct (gives_way i a now) as [[status reason]|] eqn:Eg.
  2: { wp_go. exists d. split_and!; [done|done|]. unfold signed_in. fold machine.
       by rewrite Hsi. }
  apply wp_bind, wp_now. cbn beta iota. rewrite Hnow. apply wp_bind, wp_attempt.
  assert (Hst : one_of status sessionStatuses = true /\ String.eqb status "ACTIVE" = false).
  { unfold gives_way in Eg. destruct (_ && _); [by injection Eg as <- <-|]. destruct (_ <=? _); [by injection Eg as <- <-|done]. }
  destruct Hst as [Hst Hina].
  assert (Hfind : List.find (active_id (os_ID a)) (d_sessions d) = Some a).
  { destruct (List.find _ _) as [x|] eqn:Ex.
    - apply find_Some_elem in Ex as [Hx [E%N.eqb_eq _]%andb_true_iff]. f_equal. by eapply seat_id.
    - pose proof (seat_active _ _ _ Hs) as (Hin & _ & Hact). pose proof (proj1 (find_None_elem _ _) Ex a Hin) as Hx.
      unfold active_id in Hx. by rewrite N.eqb_refl, Hact in Hx. }
  unfold EndMachineOperatorSession. eapply wp_updated_now; [exact Hc|done|exact Hfind|..].
  - unfold session_ok. cbn [os_ActorType os_Status session_ended session_with].
    rewrite (check_true _ _ (proper_type _ _ _ Hpa)). cbn [res_bind]. rewrite check_true by done. cbn [res_bind].
    apply check_true. by apply proper_shape.
  - intros w1 Hn1 Hc1. wp_go.
    destruct (seat_ended machine d a (session_ended status now (Some reason) (w_now w)) Hw Hs Hina) as (H1 & H2 & H3).
    eapply wp_sign_in; [exact Hc1|congruence|exact H1| |exact H3|exact Hsi|].
    + intros r (x & Hx & ->)%elem_of_update_where. specialize (Hfresh x Hx). by destruct (active_id _ x).
    + exact H2.
Qed.
End StartSpec.


(** ** The service *)

Record FleetLaws (R : world -> world -> Prop) (fleet : OperatorFleet world) : Prop := mk_FleetLaws {
  fl_machine m : evolves R (of_Machine world fleet m);
  fl_technician t : evolves R (of_Technician world fleet t);
  fl_assigned f t m : of_HasActiveAssignment world fleet = Some f -> evolves R (f t m) }.

Section Service.
Context {R : world -> world -> Prop} `{!Statement_rel safe R} (fleet : OperatorFleet world) (Hfleet : FleetLaws R fleet).
Lemma ev_fleet_machine m : evolves R (of_Machine world fleet m).
Proof. apply Hfleet. Qed.
Lemma ev_check_technician t m : evolves R (OperatorService.check_technician fleet t m).
Proof.
  unfold OperatorService.check_technician. pose proof (fl_technician _ _ Hfleet t).
  destruct (of_HasActiveAssignment world fleet) as [f|] eqn:E; [|evolve].
  pose proof (fl_assigned _ _ Hfleet f t m E). evolve.
Qed.
Lemma ev_or_get i : evolves R (or_Get world pg_operators i).
Proof. cbn. unfold GetOperatorSession. evolve. Qed.
Hint Resolve ev_fleet_machine ev_check_technician ev_or_get : evolves.
Lemma ev_service_start i : evolves R (OperatorService.StartOperatorSession pg_operators fleet i).
Proof. unfold OperatorService.StartOperatorSession. cbn [or_Start pg_operators]. evolve. Qed.
Lemma ev_service_end i : evolves R (OperatorService.EndOperatorSession pg_operators i).
Proof. unfold OperatorService.EndOperatorSession. cbn [or_End or_Get pg_operators]. unfold GetOperatorSession. evolve. Qed.
Lemma ev_service_timeout m s : evolves R (OperatorService.TimeoutOperatorSession pg_operators m s).
Proof. unfold OperatorService.TimeoutOperatorSession. cbn [or_Timeout or_Get pg_operators]. unfold GetOperatorSession. evolve. Qed.
Lemma ev_service_heartbeat c m s : evolves R (OperatorService.HeartbeatOperatorSession pg_operators c m s).
Proof.
  unfold OperatorService.HeartbeatOperatorSession, OperatorService.TouchOperatorSessionActivity.
  cbn [or_Timeout or_Get or_Touch pg_operators]. unfold GetOperatorSession. evolve.
Qed.
Lemma ev_service_auth i : evolves R (OperatorService.RecordAuthEvent pg_operators fleet i).
Proof. unfold OperatorService.RecordAuthEvent. cbn [or_InsertAuthEvent or_Get pg_operators]. unfold GetOperatorSession. evolve. Qed.
Lemma ev_service_attribution i : evolves R (OperatorService.RecordActionAttribution pg_operators fleet i).
Proof.
  unfold OperatorService.RecordActionAttribution. cbn [or_InsertAttribution or_Get pg_operators]. unfold GetOperatorSession. evolve.
Qed.
End Service.

(** The calls that change anything. *)
Inductive operator_call :=
| CallStart (i : StartOperatorSessionInput)
| CallEnd (i : EndOperatorSessionInput)
| CallTimeout (machine session : N)
| CallHeartbeat (company machine session : N)
| CallAuthEvent (i : InsertAuthEventParams)
| CallAttribution (i : InsertActionAttributionParams).
Definition operator_serve (fleet : OperatorFleet world) (c : operator_call) : M world unit :=
  match c with
  | CallStart i => ignore (OperatorService.StartOperatorSession pg_operators fleet i)
  | CallEnd i => ignore (OperatorService.EndOperatorSession pg_operators i)
  | CallTimeout m s => ignore (OperatorService.TimeoutOperatorSession pg_operators m s)
  | CallHeartbeat c m s => ignore (OperatorService.HeartbeatOperatorSession pg_operators c m s)
  | CallAuthEvent i => ignore (OperatorService.RecordAuthEvent pg_operators fleet i)
  | CallAttribution i => ignore (OperatorService.RecordActionAttribution pg_operators fleet i)
  end.
Lemma ev_operator_serve R `{!Statement_rel safe R} fleet c : FleetLaws R fleet -> evolves R (operator_serve fleet c).
Proof.
  intros Hf. destruct c; apply evolves_ignore;
    auto using ev_service_start, ev_service_end, ev_service_timeout, ev_service_heartbeat, ev_service_auth,
      ev_service_attribution.
Qed.

(** Whatever the calls, the failures and what polite clients do in between:
    at most one session of a machine is active, a session that has ended is
    final, a session stays its actor's at its machine, and sign-in events and
    attributions are only added. *)
Theorem operators_keep_history fleet calls w :
  FleetLaws (world_rel safe) fleet -> polite safe (w_sched w) -> wf (w_db w) ->
  let d := w_db w in let d' := w_db (for_each (operator_serve fleet) calls w).2 in
  (forall x y, x ∈ d_sessions d' -> y ∈ d_sessions d' -> os_Status x = "ACTIVE" -> os_Status y = "ACTIVE" ->
     os_MachineID x = os_MachineID y -> x = y) /\
  (forall x, x ∈ d_sessions d -> exists y, y ∈ d_sessions d' /\ session_identity x = session_identity y /\
     (os_Status x <> "ACTIVE" -> y = x)) /\
  d_auth_events d `prefix_of` d_auth_events d' /\ d_attributions d `prefix_of` d_attributions d'.
Proof.
  intros Hf Hp Hw d d'.
  assert (Hs : safe d d').
  { assert (Hev : evolves (world_rel safe) (for_each (operator_serve fleet) calls)).
    { apply evolves_for_each; [apply _|]. intros c. by apply ev_operator_serve; [apply _|]. }
    by apply (Hev w Hp). }
  destruct Hs as [Hg Hwf]. specialize (Hwf Hw). destruct (gr_operator _ _ Hg) as [Hsess Hauth Hattr]. split_and!.
  - intros x y Hx Hy Ex Ey E. apply (unique_on_same _ _ _ _ (wt_active _ (wf_op _ Hwf)) Hx Hy);
      unfold active_session; rewrite Ex; cbn; [rewrite Ey; cbn; congruence|done].
  - intros x Hx. destruct (rows_kept_elem _ _ _ _ Hsess Hx) as (y & Hy & Hid & Hfin). exists y. split_and!; [done..|].
    intros H. symmetry. by apply Hfin.
  - pose proof (rows_kept_map _ (fun x => x) _ _ (fun x y E => E) Hauth) as H. by rewrite !map_id in H.
  - pose proof (rows_kept_map _ (fun x => x) _ _ (fun x y E => E) Hattr) as H. by rewrite !map_id in H.
Qed.

Lemma session_read s sess w w' :
  GetOperatorSession s w = (Ok sess, w') -> polite safe (w_sched w) ->
  exists d, safe (w_db w) d /\ sess ∈ d_sessions d /\ os_ID sess = s.
Proof.
  unfold GetOperatorSession, or_error. intros E Hp. apply bind_inv_Ok in E as (r & w1 & E1 & E2).
  unfold attempt in E1. destruct (GetOperatorSessionByID s w) as [r' w2] eqn:Eg. injection E1 as <- <-.
  destruct r' as [x|e]; [|by destruct (isNoRows e)]. injection E2 as <- <-.
  eapply (stmt_done safe) in Eg as (d & now & id & Hd & Ef); [|exact Hp]. injection Ef as Ef _.
  apply find_Some_elem in Ef as [Hin Hid%N.eqb_eq]. eauto.
Qed.

(** Who acts on a machine: an answer with a session names the one supplied,
    which was a session of that machine and active on the tables that were
    read; without a session the policy has to allow it. *)
Theorem actor_checked machine supplied policy w a w' :
  OperatorService.ResolveMachineActionActor pg_operators machine supplied policy w = (Ok a, w') ->
  polite safe (w_sched w) ->
  mx_MachineID a = machine /\ machine <> uuid_Nil /\
  match mx_OperatorSessionID a with
  | Some s =>
      supplied = Some s /\ mx_Origin a = "operator_session" /\
      exists d sess, safe (w_db w) d /\ sess ∈ d_sessions d /\ os_ID sess = s /\ os_MachineID sess = machine /\
        EqualFold (TrimSpace (os_Status sess)) "ACTIVE" = true
  | None => mx_Origin a = "api" /\ policy <> SessionRequired /\ (supplied = None \/ supplied = Some uuid_Nil)
  end.
Proof.
  unfold OperatorService.ResolveMachineActionActor, guard. intros E Hp. inv_run. apply N.eqb_neq in G.
  assert (Hw : forall w1, OperatorService.without_session machine policy w1 = (Ok a, w') ->
    mx_MachineID a = machine /\ mx_OperatorSessionID a = None /\ mx_Origin a = "api" /\ policy <> SessionRequired).
  { intros w1. unfold OperatorService.without_session. by destruct policy; intros [= <- _]. }
  destruct supplied as [s|].
  2: { destruct (Hw _ E) as (-> & -> & -> & Hpol). split_and!; auto. }
  destruct (N.eqb_spec s uuid_Nil) as [->|Hs].
  { destruct (Hw _ E) as (-> & -> & -> & Hpol). split_and!; auto. }
  inv_run. unfold OperatorService.GetSessionIfMatchesMachine, guard in E0. inv_run.
  apply negb_false_iff, N.eqb_eq in G1. apply negb_false_iff in G0. cbn [mx_MachineID mx_OperatorSessionID mx_Origin].
  match goal with H : or_Get _ _ _ _ = _ |- _ => apply session_read in H as (d & Hd & Hin & Hid); [|exact Hp] end.
  split_and!; auto; [by rewrite Hid|]. eexists d, _. by split_and!.
Qed.
