(* ===== verification/CollectionLaws.v ===== *)
(** * Cash is collected once

    A collection that was closed has what it was closed with, whatever fails
    and whoever else acts: two closings that were answered, of the same
    collection, are the same request ([closed_once]).  In a quiet world a
    closing records the count against what the sales left in the machine
    ([close_records]) and is repeated without effect ([close_again]). *)

From S2P Require Import Prelude.
From S2P Require Import GoStd.
From S2P Require Import JsonText.
From S2P Require Import Pricing.
From S2P Require Import CommerceTypes.
From S2P Require Import Evidence.
From S2P Require Import Rules.
From S2P Require Import CommerceService.
From S2P Require Import Db.
From S2P Require Import Queries.
From S2P Require Import CashQueries.
From S2P Require Import History.
From S2P Require Import PgCommerce.
From S2P Require Import OperatorSessions.
From S2P Require Import CashSettlement.
From S2P Require Import StoreLaws.
From S2P Require Import Logic.
From S2P Require Import CashLaws.
From S2P Require Import OperatorLaws.
Local Open Scope string_scope.
Local Open Scope list_scope.
Local Open Scope Z_scope.

(** ** The statements are safe *)

Lemma insert_collection_safe chk row :
  (forall r d, chk r d = Ok tt ->
     (forall x, x ∈ d_collections d -> kc_ID x <> kc_ID r) /\
     (is_open r = true -> forall x, x ∈ d_collections d -> kc_MachineID x = kc_MachineID r -> is_open x = false)) ->
  sql_guarantee safe (insert_row set_collections chk row).
Proof.
  intros H. apply guarantee_insert_row. intros now id d Hc. destruct (H _ _ Hc) as [Hid Hopen].
  apply safe_cash; [one_cash_table|]. intros []. split; cbn; try done.
  - apply unique_on_snoc; [done|]. intros c y [= <-] Hy [= E]. by apply (Hid y).
  - apply unique_on_snoc; [done|]. intros c y Ec Hy Ey. unfold open_collection in Ec, Ey.
    destruct (String.eqb (kc_LifecycleStatus (row now id)) "open") eqn:Er; [|done]. injection Ec as <-.
    destruct (String.eqb (kc_LifecycleStatus y) "open") eqn:Ey'; [|done]. injection Ey as E.
    pose proof (Hopen Er y Hy E) as Hf. unfold is_open in Hf. congruence.
Qed.
Lemma InsertCashCollection_safe row :
  sql_guarantee safe (insert_row set_collections (fun r d =>
    let? _ := char3 (kc_Currency r) in
    let? _ := check (one_of (kc_LifecycleStatus r) collectionStatuses && (0 <=? kc_AmountMinor r)) "cash_collections_check" in
    let? _ := unique (fun x => kc_ID x =u kc_ID r) (d_collections d) "cash_collections_pkey" in
    let? _ := (if is_open r
               then unique (fun x => (kc_MachineID x =u kc_MachineID r) && is_open x) (d_collections d)
                      "ux_cash_collections_machine_one_open"
               else Ok tt) in
    fk_opt os_ID (kc_OperatorSessionID r) (d_sessions d) "cash_collections_operator_session_id_fkey") row).
Proof.
  apply insert_collection_safe. intros r d Hc.
  apply res_bind_inv_Ok in Hc as (u1 & _ & Hc). apply res_bind_inv_Ok in Hc as (u2 & _ & Hc).
  apply res_bind_inv_Ok in Hc as (u3 & Hid & Hc). apply res_bind_inv_Ok in Hc as (u4 & Ho & _).
  pose proof (unique_Ok _ _ _ _ Hid) as Uid. split.
  - intros x Hx E. specialize (Uid x Hx). cbn in Uid. by rewrite E, N.eqb_refl in Uid.
  - intros Hr x Hx E. rewrite Hr in Ho. pose proof (unique_Ok _ _ _ _ Ho x Hx) as U. cbn in U.
    by rewrite E, N.eqb_refl in U.
Qed.
Lemma CloseCashCollection_safe p machine id chk :
  sql_guarantee safe (update_rows d_collections set_collections chk
    (fun r => collection_of machine id r && is_open r) (collection_closed p)).
Proof.
  apply guarantee_update_rows; [apply _|]. intros now d r _ _ _. apply safe_cash.
  - split; cbn; try done. apply rows_kept_update; [apply _|]. intros x [_ Hx]%andb_true_iff.
    unfold is_open in Hx. apply String.eqb_eq in Hx. split; [done|]. by rewrite Hx.
  - intros []. split; cbn; try done.
    + by apply unique_on_update.
    + apply unique_on_release; [done|]. intros x _. by right.
Qed.
Lemma append_recon_safe chk row : sql_guarantee safe (insert_row set_recons chk row).
Proof. apply guarantee_insert_row. intros now id d _. apply safe_cash; [one_cash_table|by intros []]. Qed.

Section Writers.
Context `{Sha256} `{UuidText} `{PaymentUpdates}.
Context {R : world -> world -> Prop} `{!Statement_rel safe R}.
Lemma ev_insert_collection row : evolves R (InsertCashCollection row).
Proof. apply sr_stmt, InsertCashCollection_safe. Qed.
Lemma ev_close_collection p m i : evolves R (CloseCashCollection p m i).
Proof. apply sr_stmt, CloseCashCollection_safe. Qed.
Lemma ev_insert_recon row : evolves R (InsertCashReconciliation row).
Proof. apply sr_stmt, append_recon_safe. Qed.
Lemma ev_net_expected m c : evolves R (CashSettlementNetExpectedMinor m c).
Proof. apply sr_stmt. intros now id d r d'. cbn zeta. destruct (_ && _); [by intros [= _ <-]|done]. Qed.
Lemma ev_optional {A} (m : M world A) : evolves R m -> evolves R (optional m).
Proof. intros Hm. unfold optional. evolve. Qed.
Hint Resolve ev_insert_collection ev_close_collection ev_insert_recon ev_net_expected ev_optional : evolves.
Lemma ev_StartMachineCashCollection i : evolves R (StartMachineCashCollection i).
Proof.
  unfold StartMachineCashCollection, start_new, FindCashCollectionOpenByStartIdempotencyKey,
    GetOpenCashCollectionByMachine. evolve. apply sr_tx. evolve.
Qed.
Lemma ev_CloseMachineCashCollection i : evolves R (CloseMachineCashCollection i).
Proof.
  unfold CloseMachineCashCollection, close_open, GetCashCollectionByIDForOrgMachine. evolve. apply sr_tx. evolve.
Qed.
End Writers.
#[export] Hint Resolve ev_StartMachineCashCollection ev_CloseMachineCashCollection ev_insert_recon : evolves.

(** ** Closed once *)

Section Closed.
Context `{Sha256} `{UuidText} `{PaymentUpdates}.

Lemma closed_row_kept d d' r :
  safe d d' -> r ∈ d_collections d -> kc_LifecycleStatus r <> "open" -> r ∈ d_collections d'.
Proof.
  intros [Hg _] Hr Hst. destruct (rows_kept_elem _ _ _ _ (cg_collections _ _ (gr_cash _ _ Hg)) Hr) as (y & Hy & _ & E).
  by rewrite (E Hst).
Qed.
Lemma legacy_hash_trimmed i :
  cc_UsesExtendedCloseHash i = false ->
  legacyCloseHash (cc_CountedAmountMinor i) (TrimSpace (cc_Currency i)) (cc_Notes i) (cc_EvidenceArtifactURL i) =
  computeCloseRequestHash i.
Proof.
  intros E. unfold computeCloseRequestHash. rewrite E. unfold legacyCloseHash, legacy_fields. by rewrite TrimSpace_idemp.
Qed.
Lemma closed_already_Ok i c r :
  closed_already i c = Ok r -> r = c /\ kc_CloseRequestHash c = Some (computeCloseRequestHash i).
Proof.
  unfold closed_already. destruct (kc_CloseRequestHash c) as [stored|]; [|done]. destruct (blank stored); [done|].
  destruct (String.eqb_spec (computeCloseRequestHash i) stored) as [->|Hne]; [by intros [= ->]|].
  destruct (cc_UsesExtendedCloseHash i) eqn:Ex; [done|]. cbn [negb andb]. rewrite legacy_hash_trimmed by done.
  by destruct (String.eqb_spec (computeCloseRequestHash i) stored).
Qed.
Lemma or_error_inv {A} e (m : M world A) w a w' : or_error e m w = (Ok a, w') -> m w = (Ok a, w').
Proof.
  unfold or_error. intros E. apply bind_inv_Ok in E as (r & w1 & E1 & E2). unfold attempt in E1.
  destruct (m w) as [r' w2]. injection E1 as <- <-. destruct r' as [x|e']; [|by destruct (isNoRows e')].
  by injection E2 as <- <-.
Qed.

(** What an answered closing leaves. *)
Definition closed_by (i : CloseMachineCashCollectionInput) (d : pgdb) (r : CollectionRow) : Prop :=
  r ∈ d_collections d /\ kc_LifecycleStatus r = "closed" /\ kc_ID r = cc_CollectionID i /\
  kc_MachineID r = cc_MachineID i /\ kc_CloseRequestHash r = Some (computeCloseRequestHash i).
Lemma close_open_done i c w e w' :
  close_open i c w = (Ok e, w') -> polite safe (w_sched w) -> exists r, e = Commit r /\ closed_by i (w_db w') r.
Proof.
  unfold close_open. intros E Hp. apply bind_inv_Ok in E as (expected & w1 & E1 & E).
  assert (Hp1 : polite safe (w_sched w1)).
  { pose proof (ev_net_expected (R := world_rel safe) (cc_MachineID i) (TrimSpace (kc_Currency c)) w Hp) as Hev.
    rewrite E1 in Hev. apply Hev. }
  apply bind_inv_Ok in E as (closed & w2 & E2 & E). apply or_error_inv in E2.
  pose proof (ev_close_collection (R := world_rel safe) (close_params i c expected) (cc_MachineID i) (cc_CollectionID i) w1 Hp1)
    as Hev2. rewrite E2 in Hev2. destruct Hev2 as [Hp2 _]. cbn [snd] in Hp2.
  eapply (stmt_done safe) in E2 as (d & now & id & _ & Ef); [|exact Hp1]. unfold update_rows in Ef.
  destruct (List.find _ _) as [x|] eqn:Ex; [|done]. destruct (check _ _) as [[]|]; [|done]. injection Ef as <- Ed.
  apply find_Some_elem in Ex as [Hx Px]. pose proof Px as [[Hid%N.eqb_eq Hm%N.eqb_eq]%andb_true_iff _]%andb_true_iff.
  assert (Hin : collection_closed (close_params i c expected) now x ∈ d_collections (w_db w2)).
  { rewrite <- Ed. cbn. apply elem_of_update_where. exists x. by rewrite Px. }
  set (row := collection_closed _ _ _) in *.
  assert (Hrest : safe (w_db w2) (w_db w') /\ e = Commit row).
  { match type of E with ?m _ = _ => assert (Hev : evolves (world_rel safe) m) by evolve end.
    specialize (Hev w2 Hp2). rewrite E in Hev. split; [apply Hev|]. inv_run. done. }
  destruct Hrest as [Hs ->]. exists row. split; [done|]. split_and!; try done. by eapply closed_row_kept.
Qed.
Lemma close_body_done i w e w' :
  (let! existing := or_error ErrCollectionNotFound
                      (GetCashCollectionByIDForOrgMachine (cc_MachineID i) (cc_CollectionID i)) in
   if String.eqb (kc_LifecycleStatus existing) "closed" then
     let! row := lift (closed_already i existing) in ret (Commit row)
   else
     guard (negb (is_open existing)) ErrCollectionNotFound ;;;
     guard (negb (EqualFold (TrimSpace (kc_Currency existing)) (TrimSpace (cc_Currency i)))) ErrCurrencyMismatch ;;;
     close_open i existing) w = (Ok e, w') ->
  polite safe (w_sched w) -> exists r, e = Commit r /\ closed_by i (w_db w') r.
Proof.
  intros E Hp. apply bind_inv_Ok in E as (c & w1 & E1 & E). apply or_error_inv in E1.
  assert (Hp1 : polite safe (w_sched w1)).
  { assert (Hev : evolves (world_rel safe) (GetCashCollectionByIDForOrgMachine (cc_MachineID i) (cc_CollectionID i)))
      by (unfold GetCashCollectionByIDForOrgMachine; evolve).
    specialize (Hev w Hp). rewrite E1 in Hev. apply Hev. }
  destruct (String.eqb_spec (kc_LifecycleStatus c) "closed") as [Hc|Hc].
  - apply bind_inv_Ok in E as (row & w2 & E2 & E). injection E2 as E2 <-. injection E as <- <-.
    apply closed_already_Ok in E2 as [-> Hh]. eapply (stmt_done safe) in E1 as (d & now & id & _ & Ef); [|exact Hp].
    injection Ef as Ef <-. apply find_Some_elem in Ef as [Hin [Hid%N.eqb_eq Hm%N.eqb_eq]%andb_true_iff].
    exists c. by split_and!.
  - unfold guard in E. inv_run. by eapply close_open_done.
Qed.
Lemma close_done i w r w' :
  CloseMachineCashCollection i w = (Ok r, w') -> polite safe (w_sched w) ->
  closed_by i (w_db w') r /\ safe (w_db w) (w_db w').
Proof.
  intros E Hp. split.
  2: { pose proof (ev_CloseMachineCashCollection (R := world_rel safe) i w Hp) as Hev. rewrite E in Hev. apply Hev. }
  unfold CloseMachineCashCollection, guard in E. inv_run.
  apply (with_tx_done safe) in E as (wa & wb & _ & Hp1 & [[Eb ->]|Eb]); [| |exact Hp];
    apply close_body_done in Eb as (x & Ex & Hx); try done. by injection Ex as ->.
Qed.

(** C16: Two answered closings of one collection, with anything safe in between and
    under any failures, are the same request and have the same answer: the
    first count stands. *)
Theorem closed_once i i' w r w1 w2 r' w3 :
  CloseMachineCashCollection i w = (Ok r, w1) -> polite safe (w_sched w) -> wf (w_db w) ->
  safe (w_db w1) (w_db w2) ->
  CloseMachineCashCollection i' w2 = (Ok r', w3) -> polite safe (w_sched w2) ->
  cc_CollectionID i' = cc_CollectionID i ->
  r' = r /\ computeCloseRequestHash i' = computeCloseRequestHash i /\ cc_MachineID i' = cc_MachineID i.
Proof.
  intros E Hp Hw Hs E' Hp' Hid. apply close_done in E as [(Hr & Hst & Hrid & Hm & Hh) Hs1]; [|done].
  apply close_done in E' as [(Hr' & _ & Hrid' & Hm' & Hh') Hs2]; [|done].
  assert (Hw3 : wf (w_db w3)) by (by apply Hs2, Hs, Hs1).
  assert (Hr3 : r ∈ d_collections (w_db w3)).
  { eapply closed_row_kept; [by transitivity (w_db w2)|exact Hr|by rewrite Hst]. }
  assert (r' = r) as ->.
  { by apply (unique_on_same _ _ _ _ (wc_collections _ (wf_c _ Hw3)) Hr' Hr3); [f_equal; congruence|]. }
  split_and!; [done|congruence|congruence].
Qed.
End Closed.

(** ** What the hash tells apart *)

(** The text that is hashed. *)
Definition close_text (i : CloseMachineCashCollectionInput) : list ascii :=
  json_struct (if cc_UsesExtendedCloseHash i then extended_fields i
               else legacy_fields (cc_CountedAmountMinor i) (cc_Currency i) (cc_Notes i) (cc_EvidenceArtifactURL i)).
Lemma close_hash_of_text `{Sha256} i : computeCloseRequestHash i = sha256_hex (close_text i).
Proof. unfold computeCloseRequestHash, close_text. by destruct (cc_UsesExtendedCloseHash i). Qed.

Definition fields_tail (fs : list (string * list ascii)) : list ascii :=
  match fs with [] => [] | _ => ","%char :: json_fields fs end.
Lemma json_fields_cons f fs : json_fields (f :: fs) = json_field f ++ fields_tail fs.
Proof. destruct fs; [by rewrite app_nil_r|done]. Qed.
Lemma fields_tail_cons f fs : fields_tail (f :: fs) = ","%char :: json_field f ++ fields_tail fs.
Proof. unfold fields_tail at 1. by rewrite json_fields_cons. Qed.
(** A field of a known name that holds a number, and one that holds a text. *)
Lemma int_field_split k a b x y :
  json_field (k, json_int a) ++ ","%char :: x = json_field (k, json_int b) ++ ","%char :: y -> a = b /\ x = y.
Proof.
  unfold json_field. cbn [fst snd]. rewrite <- !app_assoc. intros E. apply json_string_split in E as [_ E].
  apply app_inv_head in E. by apply json_int_split in E.
Qed.
Lemma text_field_split k a b x y :
  json_field (k, marshal_string a) ++ x = json_field (k, marshal_string b) ++ y -> marshal_string a = marshal_string b /\ x = y.
Proof.
  unfold json_field. cbn [fst snd]. rewrite <- !app_assoc. intros E. apply json_string_split in E as [_ E].
  apply app_inv_head in E. by apply json_string_split in E.
Qed.
Lemma field_names k k' v v' x y :
  json_field (k, v) ++ x = json_field (k', v') ++ y -> marshal_string k = marshal_string k'.
Proof. unfold json_field. cbn [fst snd]. rewrite <- !app_assoc. intros E. by apply json_string_split in E as [E _]. Qed.

Lemma cons_tail {A} (c : A) x y : c :: x = c :: y -> x = y.
Proof. by intros [= ->]. Qed.
(** Two requests with one text are of the same kind and count the same, with
    the same texts up to bytes that are no UTF-8: requests that differ in
    these can only be taken for one another if their hashes collide. *)
Theorem close_text_tells i i' :
  close_text i = close_text i' ->
  cc_UsesExtendedCloseHash i = cc_UsesExtendedCloseHash i' /\
  cc_CountedAmountMinor i = cc_CountedAmountMinor i' /\
  marshal_string (TrimSpace (cc_Currency i)) = marshal_string (TrimSpace (cc_Currency i')) /\
  marshal_string (TrimSpace (cc_Notes i)) = marshal_string (TrimSpace (cc_Notes i')) /\
  marshal_string (TrimSpace (cc_EvidenceArtifactURL i)) = marshal_string (TrimSpace (cc_EvidenceArtifactURL i')) /\
  (cc_UsesExtendedCloseHash i = true ->
     cc_CountedCashboxMinor i = cc_CountedCashboxMinor i' /\ cc_CountedRecyclerMinor i = cc_CountedRecyclerMinor i' /\
     marshal_string (TrimSpace (cc_EvidencePhotoArtifactID i)) = marshal_string (TrimSpace (cc_EvidencePhotoArtifactID i'))).
Proof.
  unfold close_text, json_struct. intros E. apply app_inv_head in E. revert E.
  destruct (cc_UsesExtendedCloseHash i) eqn:Ei, (cc_UsesExtendedCloseHash i') eqn:Ei';
    unfold extended_fields, legacy_fields; cbn [app];
    rewrite !json_fields_cons, !fields_tail_cons; cbn [app]; repeat (rewrite <- !app_assoc; cbn [app]); intros E; apply int_field_split in E as [E1 E].
  - apply int_field_split in E as [E2 E]. apply int_field_split in E as [E3 E].
    apply text_field_split in E as [E4 E%cons_tail]. apply text_field_split in E as [E5 E%cons_tail].
    apply text_field_split in E as [E6 E%cons_tail]. apply text_field_split in E as [E7 _]. by split_and!.
  - apply field_names in E. by vm_compute in E.
  - apply field_names in E. by vm_compute in E.
  - apply text_field_split in E as [E4 E%cons_tail]. apply text_field_split in E as [E5 E%cons_tail].
    apply text_field_split in E as [E6 _]. by split_and!.
Qed.

(** ** A closing in a quiet world *)

Section Quiet.
Context `{Sha256} `{UuidText} `{PaymentUpdates}.

Definition net_expected (machine : N) (currency : string) (d : pgdb) : Z :=
  fold_right Z.add 0 (cash_taken machine currency d) - fold_right Z.add 0 (cash_refunded machine currency d).
Lemma wp_net_expected machine currency n t d w (Q : res Z -> world -> Prop) :
  calm_from n t d w -> t <> Aborted -> in_int64 (net_expected machine currency d) ->
  (forall w', w_now w' = w_now w -> calm_from n t d w' -> Q (Ok (net_expected machine currency d)) w') ->
  wp (CashSettlementNetExpectedMinor machine currency) Q w.
Proof.
  intros Hc Ht [Hlo Hhi] HQ. unfold CashSettlementNetExpectedMinor. eapply wp_stmt_now; [exact Hc|done|]. intros id _.
  fold (net_expected machine currency d). rewrite (proj2 (Z.leb_le _ _) Hlo), (proj2 (Z.leb_le _ _) Hhi). exact HQ.
Qed.

(** The session that is named, if any, is one of the machine. *)
Definition session_fits (d : pgdb) (machine : N) (session : option N) : Prop :=
  match session with
  | None => True
  | Some s => exists sess, List.find (fun r => os_ID r =u s) (d_sessions d) = Some sess /\ os_MachineID sess = machine
  end.
Lemma wp_attribution spec n d w (Q : res unit -> world -> Prop) :
  calm_from n InTx d w -> session_fits d (oa_MachineID spec) (oa_OperatorSessionID spec) ->
  (forall f w', calm_from n InTx (set_attributions f d) w' -> Q (Ok tt) w') ->
  wp (insertOperatorSessionAttribution spec) Q w.
Proof.
  intros Hc Hs HQ. unfold insertOperatorSessionAttribution.
  assert (Hnone : wp (ret tt) Q w).
  { apply wp_ret. apply (HQ (fun l => l)). destruct Hc as [<- ? ? ?]. split; try done. by destruct (w_db w) as [? ? ? ? ? ? ? ? ? ? ? ? ? ? ? ? ? ? ? [? ? ? []]]. }
  destruct (oa_OperatorSessionID spec) as [s|]; [|done]. destruct (s =u uuid_Nil); [done|].
  destruct Hs as (sess & Ef & Em). apply wp_bind, wp_attempt. unfold GetOperatorSessionByID.
  eapply wp_found_now; [exact Hc|done|exact Ef|]. intros w1 _ Hc1. wp_go. rewrite Em, N.eqb_refl. wp_go.
  assert (Hat : forall at_ w2, calm_from n InTx d w2 ->
    wp (let! r := attempt (InsertMachineActionAttribution (Some s) (oa_MachineID spec) "operator_session"
          (oa_ResourceTable spec) (oa_ResourceID spec) at_ (attribution_metadata spec sess) (oa_CorrelationID spec)) in
        match r with Ok _ => ret tt | Err e => fail (EWrapPre "operator attribution: insert" e) end) Q w2).
  { intros at_ w2 Hc2. apply wp_bind, wp_attempt. eapply wp_inserted_now; [exact Hc2|done|..].
    - intros id _. cbn [aa_ActionOriginType aa_OperatorSessionID]. rewrite check_true by done. cbn [res_bind fk_opt].
      apply fk_elem. apply find_Some_elem in Ef as [Hin Hid%N.eqb_eq]. rewrite <- Hid. apply list_elem_of_fmap. eauto.
    - intros id w3 _ _ Hc3. wp_go. by eapply HQ. }
  destruct (oa_OccurredAt spec) as [t|]; cbn [ptrTimeOrNow]; [wp_go|apply wp_bind, wp_now; cbn beta iota]; by apply Hat.
Qed.

(** The figures of a closing. *)
Record figures (i : CloseMachineCashCollectionInput) (expected : Z) (r : CollectionRow) (k : CashReconRow) : Prop := mk_figures {
  fg_counted : kc_AmountMinor r = cc_CountedAmountMinor i /\ kr_CountedAmountMinor k = cc_CountedAmountMinor i;
  fg_expected : kc_ExpectedAmountMinor r = expected /\ kr_ExpectedAmountMinor k = expected;
  fg_variance : kc_VarianceAmountMinor r = cc_CountedAmountMinor i - expected /\
                kr_VarianceAmountMinor k = cc_CountedAmountMinor i - expected;
  fg_review : kc_RequiresReview r = true <-> close_threshold i < Z.abs (cc_CountedAmountMinor i - expected);
  fg_status : (kc_ReconciliationStatus r, kr_Status k) =
    if Z.ltb (close_threshold i) (Z.abs (cc_CountedAmountMinor i - expected)) then ("pending", "review")
    else if Z.eqb (cc_CountedAmountMinor i) expected then ("matched", "matched") else ("mismatch", "mismatch");
  fg_of : kr_CashCollectionID k = Some (kc_ID r) /\ kr_MachineID k = cc_MachineID i }.
Lemma abs64_id z : MinInt64 < z <= MaxInt64 -> abs64 z = Z.abs z.
Proof.
  intros Hz. unfold abs64. destruct (Z.ltb_spec z 0); [|lia]. rewrite wrap64_id; [lia|unfold_int; lia].
Qed.
Lemma close_figures i c expected now now' id :
  MinInt64 < cc_CountedAmountMinor i - expected <= MaxInt64 ->
  let r := collection_closed (close_params i c expected) now c in
  figures i expected r (recon_row i r expected now' id).
Proof.
  intros Hv r. assert (Evar : variance_of i expected = cc_CountedAmountMinor i - expected)
    by (apply sub64_id; unfold_int; lia).
  assert (Erev : needs_review i expected = (close_threshold i <? Z.abs (cc_CountedAmountMinor i - expected)))
    by (unfold needs_review; rewrite Evar, abs64_id; done).
  split; unfold r; cbn; rewrite ?Evar, ?Erev; try done.
  - apply Z.ltb_lt.
  - unfold collection_recon, ledger_recon. rewrite Erev, Evar.
    destruct (Z.ltb_spec (close_threshold i) (Z.abs (cc_CountedAmountMinor i - expected))); [done|].
    by destruct (Z.eqb_spec (cc_CountedAmountMinor i - expected) 0), (Z.eqb_spec (cc_CountedAmountMinor i) expected); try lia.
Qed.

Lemma collections_distinct d c x :
  wf d -> c ∈ d_collections d -> x ∈ d_collections d -> kc_ID x = kc_ID c -> x = c.
Proof.
  intros Hw Hc Hx E. by apply (unique_on_same _ _ _ _ (wc_collections _ (wf_c _ Hw)) Hx Hc); [f_equal|].
Qed.
Lemma find_collection d c (p : CollectionRow -> bool) :
  wf d -> c ∈ d_collections d -> p c = true -> (forall x, p x = true -> kc_ID x = kc_ID c) ->
  List.find p (d_collections d) = Some c.
Proof.
  intros Hw Hc Hp Hid. destruct (List.find p (d_collections d)) as [x|] eqn:E.
  - apply find_Some_elem in E as [Hx Px]. f_equal. apply (collections_distinct d); auto.
  - pose proof (proj1 (find_None_elem _ _) E c Hc) as Hfc. congruence.
Qed.
Lemma wp_or_error_Ok {A} e (m : M world A) (Q : res A -> world -> Prop) w :
  wp m (fun r w' => match r with Ok a => Q (Ok a) w' | Err x => Q (Err (if isNoRows x then e else x)) w' end) w ->
  wp (or_error e m) Q w.
Proof.
  intros Hm. unfold or_error. apply wp_bind, wp_attempt. eapply wp_mono; [|exact Hm]. intros [a|x] w' Hr; exact Hr.
Qed.

(** What a closing makes of the collection [c] of the tables [d]: its row [r],
    the entry [k] of the reconciliation and the tables [d']. *)
Record collected (i : CloseMachineCashCollectionInput) (c : CollectionRow) (d : pgdb) (now : Z)
    (r : CollectionRow) (k : CashReconRow) (d' : pgdb) : Prop := mk_collected {
  cl_same : kc_ID r = kc_ID c /\ kc_MachineID r = kc_MachineID c /\ kc_Currency r = kc_Currency c;
  cl_closed : kc_LifecycleStatus r = "closed" /\ kc_ClosedAt r = Some now /\
              kc_CloseRequestHash r = Some (computeCloseRequestHash i);
  cl_figures : figures i (net_expected (cc_MachineID i) (TrimSpace (kc_Currency c)) d) r k;
  cl_collections x : x ∈ d_collections d' <-> x = r \/ (x ∈ d_collections d /\ kc_ID x <> kc_ID c);
  cl_recons : d_recons d' = d_recons d ++ [k];
  cl_sales : d_orders d' = d_orders d /\ d_payments d' = d_payments d /\ d_refunds d' = d_refunds d }.

Lemma filter_none {A} (q : A -> bool) l : (forall x, x ∈ l -> q x = false) -> List.filter q l = [].
Proof.
  induction l as [|x l IH]; intros Hq; [done|]. cbn. rewrite Hq by set_solver. apply IH. set_solver.
Qed.
(** Nothing is expected of a machine that was emptied after all its sales. *)
Lemma last_closed_above machine d r t :
  r ∈ d_collections d -> kc_MachineID r = machine -> kc_LifecycleStatus r = "closed" -> kc_ClosedAt r = Some t ->
  exists u, last_closed machine d = Some u /\ t <= u.
Proof.
  intros Hin Hm Hs Ht. unfold last_closed. revert Hin. induction (d_collections d) as [|x l IH]; [by intros ?%elem_of_nil|].
  cbn [foldr]. intros [<-|Hin]%elem_of_cons.
  - rewrite Hm, N.eqb_refl, Hs, Ht. cbn. destruct (foldr _ _ _); eexists; (split; [done|]); lia.
  - destruct (IH Hin) as (u & -> & Hu). destruct (_ && _); [|by exists u].
    destruct (kc_ClosedAt x); eexists; (split; [done|]); lia.
Qed.
Lemma nothing_expected machine currency d r t :
  r ∈ d_collections d -> kc_MachineID r = machine -> kc_LifecycleStatus r = "closed" -> kc_ClosedAt r = Some t ->
  (forall p, p ∈ d_payments d -> payment_updated_at d p <= t) -> (forall f, f ∈ d_refunds d -> rf_CreatedAt f <= t) ->
  net_expected machine currency d = 0.
Proof.
  intros Hin Hm Hs Ht Hp Hf. destruct (last_closed_above _ _ _ _ Hin Hm Hs Ht) as (u & E & Hu).
  unfold net_expected, cash_taken, cash_refunded. rewrite E. cbn [after_closing].
  rewrite !filter_none; [done|..]; intros x Hx; apply andb_false_iff; right; apply Z.ltb_ge.
  - specialize (Hf x Hx). lia.
  - specialize (Hp x Hx). lia.
Qed.

Lemma wp_close_open i c n d w (Q : res (tx_end CollectionRow) -> world -> Prop) :
  let expected := net_expected (cc_MachineID i) (TrimSpace (kc_Currency c)) d in
  calm_from n InTx d w -> wf d -> c ∈ d_collections d -> collection_of (cc_MachineID i) (cc_CollectionID i) c = true ->
  is_open c = true -> 0 <= cc_CountedAmountMinor i -> session_fits d (cc_MachineID i) (cc_OperatorSessionID i) ->
  in_int64 expected -> MinInt64 < cc_CountedAmountMinor i - expected <= MaxInt64 ->
  (forall r k d' w', collected i c d (w_now w) r k d' -> calm_from n InTx d' w' -> Q (Ok (Commit r)) w') ->
  wp (close_open i c) Q w.
Proof.
  intros expected Hc Hw Hin Hco Ho Hcount Hs He Hv HQ. unfold close_open. apply wp_bind.
  eapply wp_net_expected; [exact Hc|done|exact He|]. intros w1 Hn1 Hc1. fold expected. cbn beta iota.
  set (r := collection_closed (close_params i c expected) (w_now w) c).
  assert (Hid : kc_ID c = cc_CollectionID i) by (by apply andb_true_iff in Hco as [E%N.eqb_eq _]).
  assert (Hfind : List.find (fun x => collection_of (cc_MachineID i) (cc_CollectionID i) x && is_open x) (d_collections d) = Some c).
  { apply find_collection; [done..|by rewrite Hco|]. intros x [[E%N.eqb_eq _]%andb_true_iff _]%andb_true_iff. congruence. }
  apply wp_bind, wp_or_error_Ok. unfold CloseCashCollection. eapply wp_updated_now; [exact Hc1|done|exact Hfind|..].
  { apply check_true. cbn. apply andb_true_iff. split; [by apply Z.leb_le|]. unfold collection_recon.
    destruct (needs_review i expected); [done|]. by destruct (variance_of i expected =? 0). }
  intros w2 Hn2 Hc2. cbn beta iota. rewrite Hn1 in *. fold r in Hc2 |- *.
  match type of Hc2 with calm_from _ _ ?d2 _ => set (d2' := d2) in Hc2 end.
  assert (Hd2 : forall x, x ∈ d_collections d2' <-> x = r \/ (x ∈ d_collections d /\ kc_ID x <> kc_ID c)).
  { intros x. unfold d2'. cbn. rewrite elem_of_update_where. split.
    - intros (y & Hy & ->). destruct (_ && _) eqn:Ey.
      + left. apply andb_true_iff in Ey as [[E%N.eqb_eq _]%andb_true_iff _].
        by rewrite (collections_distinct d c y Hw Hin Hy) by congruence.
      + right. split; [done|]. intros E. rewrite (collections_distinct d c y Hw Hin Hy E), Hco, Ho in Ey. done.
    - intros [->|[Hx E]]; [exists c; by rewrite Hco, Ho|]. exists x. split; [done|].
      unfold collection_of. rewrite <- Hid. apply N.eqb_neq in E. by rewrite E. }
  apply wp_bind. unfold InsertCashReconciliation. eapply wp_inserted_now; [exact Hc2|done|..].
  { intros id _. cbn [recon_row kr_Status kr_CashCollectionID].
    rewrite check_true; [|unfold ledger_recon; destruct (needs_review i expected); [done|]; by destruct (variance_of i expected =? 0)].
    cbn [res_bind fk_opt]. apply fk_elem, list_elem_of_fmap. exists r. split; [done|]. apply Hd2. by left. }
  intros id w3 _ Hn3 Hc3. cbn beta iota. apply wp_bind, wp_now. cbn beta iota. apply wp_bind.
  eapply wp_attribution; [exact Hc3|exact Hs|]. intros f w4 Hc4. apply wp_ret. eapply HQ; [|exact Hc4].
  pose proof (close_figures i c expected (w_now w) (w_now w2) id Hv) as Hfig. cbv zeta in Hfig. fold r in Hfig.
  split; [by split_and!|by split_and!|exact Hfig|exact Hd2|done|by split_and!].
Qed.

(** The answer [a] and the tables [d'] of a closing that went through. *)
Definition close_outcome (i : CloseMachineCashCollectionInput) (c : CollectionRow) (d : pgdb) (now : Z)
    (a : res CollectionRow) (d' : pgdb) : Prop :=
  exists r k, a = Ok r /\ collected i c d now r k d' /\
    ((forall p, p ∈ d_payments d' -> payment_updated_at d' p <= now) ->
     (forall f, f ∈ d_refunds d' -> rf_CreatedAt f <= now) ->
     net_expected (cc_MachineID i) (TrimSpace (kc_Currency c)) d' = 0).

(** C17: In a quiet world the closing of an open collection records the count, the
    cash the sales should have left and their difference, in the collection and
    in the reconciliation alike.  A difference above the threshold makes the
    collection one to review, pending, and the reconciliation's status "review";
    otherwise both say "matched" when the count is what was expected and
    "mismatch" when it is not.  Every other collection and every sale is left as
    it was, and from then on nothing is expected in the machine. *)
Theorem close_records i c n d w :
  let cur := TrimSpace (kc_Currency c) in
  let expected := net_expected (cc_MachineID i) cur d in
  let now := w_now w + 1 in
  calm_from n NoTx d w -> wf d -> c ∈ d_collections d ->
  collection_of (cc_MachineID i) (cc_CollectionID i) c = true -> is_open c = true ->
  blank (TrimSpace (cc_Currency i)) = false -> EqualFold cur (TrimSpace (cc_Currency i)) = true ->
  0 <= cc_CountedAmountMinor i -> 0 <= cc_CountedCashboxMinor i -> 0 <= cc_CountedRecyclerMinor i ->
  session_fits d (cc_MachineID i) (cc_OperatorSessionID i) ->
  in_int64 expected -> MinInt64 < cc_CountedAmountMinor i - expected <= MaxInt64 ->
  exists d', calm_from n NoTx d' (CloseMachineCashCollection i w).2 /\
    close_outcome i c d now (CloseMachineCashCollection i w).1 d'.
Proof.
  intros cur expected now Hc Hw Hin Hco Ho Hb Hfold H1' H2' H3' Hs He Hv.
  change (wp (CloseMachineCashCollection i) (fun a w' => exists d', calm_from n NoTx d' w' /\ close_outcome i c d now a d') w).
  unfold CloseMachineCashCollection. rewrite Hb.
  replace ((cc_CountedAmountMinor i <? 0) || (cc_CountedCashboxMinor i <? 0) || (cc_CountedRecyclerMinor i <? 0))
    with false by (symmetry; rewrite !orb_false_iff, !Z.ltb_ge; lia).
  apply wp_bind, wp_guard; [done|intros _]. apply wp_bind, wp_guard; [done|intros _]. cbn beta iota.
  eapply wp_with_tx_at; [exact Hc|]. intros w1 Hc1 Hn1. apply wp_bind, wp_or_error_Ok.
  unfold GetCashCollectionByIDForOrgMachine. eapply wp_found_now; [exact Hc1|done|..].
  { apply find_collection with (c := c); [done..|]. intros x [E%N.eqb_eq _]%andb_true_iff.
    apply andb_true_iff in Hco as [E'%N.eqb_eq _]. congruence. }
  intros w2 Hn2 Hc2. cbn beta iota. pose proof Ho as Hst. apply String.eqb_eq in Hst. rewrite Hst, Ho. cbn [String.eqb].
  change (String.eqb "open" "closed") with false. cbn iota.
  apply wp_bind, wp_guard; [done|intros _]. cbn beta iota. fold cur. rewrite Hfold.
  apply wp_bind, wp_guard; [done|intros _]. cbn beta iota.
  eapply wp_close_open; [exact Hc2|done..|]. intros r k d' w3 Hcl Hc3. left. exists d'. split; [done|].
  intros w4 Hc4. exists d'. split; [done|]. exists r, k. replace (w_now w2) with now in Hcl by (unfold now; congruence).
  split_and!; [done|done|]. destruct Hcl as [(_ & Hm & _) (Hlc & Hat & _) _ Hx _ _].
  apply andb_true_iff in Hco as [_ Em%N.eqb_eq].
  apply nothing_expected with (r := r); [apply Hx; by left|congruence|done|done].
Qed.

(** In a quiet world a closed collection answers the request it was closed
    with, and every other with a conflict; nothing changes. *)
Theorem close_again i c n d w :
  calm_from n NoTx d w -> wf d -> c ∈ d_collections d ->
  collection_of (cc_MachineID i) (cc_CollectionID i) c = true -> kc_LifecycleStatus c = "closed" ->
  blank (TrimSpace (cc_Currency i)) = false ->
  0 <= cc_CountedAmountMinor i -> 0 <= cc_CountedCashboxMinor i -> 0 <= cc_CountedRecyclerMinor i ->
  calm_from n NoTx d (CloseMachineCashCollection i w).2 /\
  (CloseMachineCashCollection i w).1 =
    match kc_CloseRequestHash c with
    | Some stored => if negb (blank stored) && String.eqb (computeCloseRequestHash i) stored then Ok c
                     else Err ErrClosePayloadConflict
    | None => Err ErrClosePayloadConflict
    end.
Proof.
  intros Hc Hw Hin Hco Hst Hb H1' H2' H3'.
  match goal with |- _ /\ _ = ?x =>
    change (wp (CloseMachineCashCollection i) (fun a w' => calm_from n NoTx d w' /\ a = x) w); set (answer := x) end.
  unfold CloseMachineCashCollection. rewrite Hb.
  replace ((cc_CountedAmountMinor i <? 0) || (cc_CountedCashboxMinor i <? 0) || (cc_CountedRecyclerMinor i <? 0))
    with false by (symmetry; rewrite !orb_false_iff, !Z.ltb_ge; lia).
  apply wp_bind, wp_guard; [done|intros _]. apply wp_bind, wp_guard; [done|intros _]. cbn beta iota.
  eapply wp_with_tx_at; [exact Hc|]. intros w1 Hc1 _. apply wp_bind, wp_or_error_Ok.
  unfold GetCashCollectionByIDForOrgMachine. eapply wp_found_now; [exact Hc1|done|..].
  { apply find_collection with (c := c); [done..|]. intros x [E%N.eqb_eq _]%andb_true_iff.
    apply andb_true_iff in Hco as [E'%N.eqb_eq _]. congruence. }
  intros w2 _ Hc2. cbn beta iota. rewrite Hst. change (String.eqb "closed" "closed") with true. cbn iota.
  assert (Ea : closed_already i c = answer).
  { unfold closed_already, answer. destruct (kc_CloseRequestHash c) as [stored|]; [|done].
    destruct (blank stored); [done|]. destruct (String.eqb_spec (computeCloseRequestHash i) stored) as [_|Hne]; [done|].
    destruct (cc_UsesExtendedCloseHash i) eqn:Ex; [done|]. cbn [negb andb]. rewrite legacy_hash_trimmed by done.
    by destruct (String.eqb_spec (computeCloseRequestHash i) stored). }
  rewrite Ea. apply wp_bind, wp_lift. destruct answer as [a|e]; cbn beta iota.
  - apply wp_ret. left. exists d. by split.
  - destruct Hc2. by split.
Qed.

(** A start as a function of the tables: a collection that the key opened and
    that is still open, a refusal, or a new one. *)
Definition starts (i : StartMachineCashCollectionInput) (d : pgdb) : res (option CollectionRow) :=
  match List.find (fun r => sql_text_eq (metadata_text "start_idempotency_key" (kc_Metadata r))
                              (Some (TrimSpace (sc_StartIdempotencyKey i))) &&
                            (kc_MachineID r =u sc_MachineID i) && is_open r) (d_collections d) with
  | Some r => Ok (Some r)
  | None => match List.find (fun r => (kc_MachineID r =u sc_MachineID i) && is_open r) (d_collections d) with
            | Some _ => Err ErrOpenCollectionExists
            | None => Ok None
            end
  end.
Definition start_outcome (i : StartMachineCashCollectionInput) (n : N) (now : Z) (d : pgdb) (a : res CollectionRow) (d' : pgdb) : Prop :=
  match starts i d with
  | Err e => a = Err e /\ d' = d
  | Ok (Some r) => a = Ok r /\ d' = d
  | Ok None => exists id, (n <= id)%N /\
      let r := started_row i (if IsZero (sc_OpenedAt i) then now else sc_OpenedAt i) (now + 1) id in
      a = Ok r /\ d_collections d' = d_collections d ++ [r]
  end.
Lemma wp_optional {A} (m : M world A) (Q : res (option A) -> world -> Prop) w :
  wp m (fun r w' => match r with
                    | Ok a => Q (Ok (Some a)) w'
                    | Err e => if isNoRows e then Q (Ok None) w' else Q (Err e) w'
                    end) w -> wp (optional m) Q w.
Proof.
  intros Hm. unfold optional. apply wp_bind, wp_attempt. eapply wp_mono; [|exact Hm]. intros [a|e] w' Hr; [exact Hr|].
  cbn beta iota in *. by destruct (isNoRows e).
Qed.
Lemma wp_select_now {A} (f : pgdb -> option A) n t d w (Q : res (option A) -> world -> Prop) :
  calm_from n t d w -> t <> Aborted -> (forall w', w_now w' = w_now w -> calm_from n t d w' -> Q (Ok (f d)) w') ->
  wp (optional (stmt (select_one f))) Q w.
Proof.
  intros Hc Ht HQ. apply wp_optional. destruct (f d) as [a|] eqn:E.
  - eapply wp_found_now; [exact Hc|done|exact E|]. exact HQ.
  - eapply wp_missing_now; [exact Hc|done|exact E|]. exact HQ.
Qed.

(** C31: In a quiet world a start does what [starts] says: never a second open
    collection of a machine, and the same one for the same key while it is
    open. *)
Theorem start_collection i n d w :
  calm_from n NoTx d w -> sc_MachineID i ∈ tp_Machines (d_topo d) ->
  char3 (TrimSpace (sc_Currency i)) = Ok tt -> blank (TrimSpace (sc_Currency i)) = false ->
  blank (TrimSpace (sc_StartIdempotencyKey i)) = false -> session_fits d (sc_MachineID i) (sc_OperatorSessionID i) ->
  (forall r, r ∈ d_collections d -> (kc_ID r < n)%N) ->
  exists d', calm_from n NoTx d' (StartMachineCashCollection i w).2 /\
    start_outcome i n (w_now w) d (StartMachineCashCollection i w).1 d'.
Proof.
  intros Hc Hm Hcur Hb Hk Hs Hfresh.
  change (wp (StartMachineCashCollection i) (fun a w' => exists d', calm_from n NoTx d' w' /\ start_outcome i n (w_now w) d a d') w).
  unfold StartMachineCashCollection. rewrite Hb, Hk.
  apply wp_bind, wp_guard; [done|intros _]. apply wp_bind, wp_guard; [done|intros _]. cbn beta iota.
  set (opened := if IsZero (sc_OpenedAt i) then w_now w else sc_OpenedAt i).
  apply wp_bind. match goal with |- wp _ ?Q _ => assert (Hop : Q (Ok opened) w); [|unfold opened in Hop; by destruct (IsZero _)] end.
  cbn beta iota. eapply wp_with_tx_at; [exact Hc|]. intros w1 Hc1 Hn1.
  assert (Hfind : List.find (N.eqb (sc_MachineID i)) (tp_Machines (d_topo d)) = Some (sc_MachineID i)).
  { destruct (List.find _ _) as [x|] eqn:E; [by apply find_Some_elem in E as [_ ->%N.eqb_eq]|].
    pose proof (proj1 (find_None_elem _ _) E _ Hm) as Hno. by rewrite N.eqb_refl in Hno. }
  apply wp_bind, wp_attempt. eapply wp_found_now; [exact Hc1|done|exact Hfind|]. intros w2 Hn2 Hc2. cbn beta iota.
  apply wp_bind, wp_ret. cbn beta iota. apply wp_bind. unfold FindCashCollectionOpenByStartIdempotencyKey.
  eapply wp_select_now; [exact Hc2|done|]. intros w3 Hn3 Hc3. cbn beta iota. unfold start_outcome, starts.
  destruct (List.find _ (d_collections d)) as [r|].
  { apply wp_ret. left. exists d. split; [done|]. intros w4 Hc4. by exists d. }
  apply wp_bind. unfold GetOpenCashCollectionByMachine. eapply wp_select_now; [exact Hc3|done|].
  intros w4 Hn4 Hc4. cbn beta iota. destruct (List.find _ (d_collections d)) as [r|] eqn:Eo.
  { apply wp_fail. destruct Hc4. split; [done|]. intros w5 Hc5. by exists d. }
  unfold start_new. apply wp_bind, wp_attempt. unfold InsertCashCollection. eapply wp_inserted_now; [exact Hc4|done|..].
  - intros id Hid. cbn [started_row kc_Currency kc_LifecycleStatus kc_AmountMinor kc_ID kc_MachineID kc_OperatorSessionID].
    rewrite Hcur. cbn [res_bind]. rewrite check_true by done. cbn [res_bind].
    change (is_open (started_row i opened (w_now w4) id)) with true. cbn iota.
    rewrite !unique_fresh. cbn [res_bind].
    + destruct (sc_OperatorSessionID i) as [s|]; [|done]. destruct Hs as (sess & [Hin Hid']%find_Some_elem & _).
      apply N.eqb_eq in Hid'. cbn [fk_opt]. apply fk_elem, list_elem_of_fmap. by exists sess.
    + exact (proj1 (find_None_elem _ _) Eo).
    + intros x Hx. apply N.eqb_neq. specialize (Hfresh x Hx). lia.
  - intros id w5 Hid Hn5 Hc5. cbn beta iota. apply wp_bind, wp_ret. cbn beta iota. apply wp_bind.
    eapply wp_attribution; [exact Hc5|exact Hs|]. intros f w6 Hc6. apply wp_ret. left. eexists. split; [exact Hc6|].
    intros w7 Hc7. eexists. split; [exact Hc7|]. exists id. split; [done|].
    replace (w_now w4) with (w_now w + 1) by congruence. by split.
Qed.
End Quiet.
