(* ===== verification/QuoteLaws.v ===== *)
(** * Quotes respect every statement relation

    The store of quotes, for any relation its statements respect; the service
    methods over quotes, for any relation their store and resolvers respect
    (the classes [CartLaws] and [QuoteStoreLaws]); and the resolvers of
    SaleLines, for any relation the queries of the pricing engine respect. *)

From S2P Require Import Prelude.
From S2P Require Import GoStd.
From S2P Require Import Pricing.
From S2P Require Import CommerceTypes.
From S2P Require Import Sanitize.
From S2P Require Import Evidence.
From S2P Require Import Snapshot.
From S2P Require Import Rules.
From S2P Require Import CommerceService.
From S2P Require Import ServiceLaws.
From S2P Require Import Db.
From S2P Require Import Queries.
From S2P Require Import History.
From S2P Require Import PgCommerce.
From S2P Require Import Quotes.
From S2P Require Import SaleLines.
From S2P Require Import StoreLaws.
Local Open Scope string_scope.
Local Open Scope list_scope.
Local Open Scope Z_scope.

(** ** The interfaces *)

Class CartLaws {W} (R : W -> W -> Prop) (c : CartResolvers W) : Prop := {
  cl_batch f m l : cr_ResolveQuoteSaleLines W c = Some f -> evolves R (f m l);
  cl_snapshot f m l snap : cr_ResolveQuoteLinesFromMachineSnapshot W c = Some f -> evolves R (f m l snap) }.
Class QuoteStoreLaws {W} (R : W -> W -> Prop) (q : QuoteStore W) : Prop := {
  ql_create i : evolves R (qs_CreateQuoteWithLines W q i);
  ql_replay m k : evolves R (qs_TryReplayQuoteByIdempotency W q m k);
  ql_get i : evolves R (qs_GetQuoteWithLines W q i);
  ql_order i : evolves R (qs_CreateOrderFromQuoteWithVendSessions W q i);
  ql_replay_order m k : evolves R (qs_TryReplayOrderFromQuote W q m k) }.
#[export] Hint Resolve ql_create ql_replay ql_get ql_order ql_replay_order : evolves.

(** ** The store *)

Section Store.
Context {R : world -> world -> Prop} `{!Statement_rel safe R}.

Lemma ev_InsertCheckoutQuote row : evolves R (InsertCheckoutQuote row).
Proof. apply sr_stmt, InsertCheckoutQuote_safe. Qed.
Lemma ev_InsertCheckoutQuoteLine row : evolves R (InsertCheckoutQuoteLine row).
Proof. apply sr_stmt, InsertCheckoutQuoteLine_safe. Qed.
Lemma ev_MarkCheckoutQuoteConsumed id : evolves R (MarkCheckoutQuoteConsumed id).
Proof. apply sr_stmt, MarkCheckoutQuoteConsumed_safe. Qed.
Lemma ev_GetCheckoutQuoteByID id : evolves R (GetCheckoutQuoteByID id).
Proof. apply ev_select_one. Qed.
Lemma ev_GetCheckoutQuoteByKey m k : evolves R (GetCheckoutQuoteByMachineAndIdempotencyKey m k).
Proof. apply ev_select_one. Qed.
Lemma ev_ListCheckoutQuoteLines id : evolves R (ListCheckoutQuoteLines id).
Proof. apply ev_select_many. Qed.
Lemma ev_InsertVendSessionWithLineSequence o m p sl st sim run sc line :
  evolves R (InsertVendSessionWithLineSequence o m p sl st sim run sc line).
Proof. apply sr_stmt, InsertVendSession_safe. Qed.
Lemma ev_insert_order_of_quote id i key source locked : evolves R (InsertOrder id (order_of_quote i key source locked)).
Proof. by apply sr_stmt, InsertOrder_safe. Qed.
Hint Resolve ev_InsertCheckoutQuote ev_InsertCheckoutQuoteLine ev_MarkCheckoutQuoteConsumed
  ev_GetCheckoutQuoteByID ev_GetCheckoutQuoteByKey ev_ListCheckoutQuoteLines
  ev_InsertVendSessionWithLineSequence ev_insert_order_of_quote : evolves.

Lemma ev_insert_units i order l n seq : evolves R (insert_units i order l n seq).
Proof. revert seq. induction n as [|n IH]; intros seq; cbn [insert_units]; evolve. Qed.
Hint Resolve ev_insert_units : evolves.
Lemma ev_insert_lines i order lines seq : evolves R (insert_lines i order lines seq).
Proof. revert seq. induction lines as [|l lines IH]; intros seq; cbn [insert_lines]; evolve. Qed.
Hint Resolve ev_insert_lines : evolves.
Lemma ev_order_from_quote i key : evolves R (order_from_quote i key).
Proof. unfold order_from_quote, guard. evolve. Qed.
Hint Resolve ev_order_from_quote : evolves.
Lemma ev_order_of_key i key : evolves R (order_of_key i key).
Proof. unfold order_of_key. evolve. Qed.
Hint Resolve ev_order_of_key : evolves.

#[export] Instance pg_quotes_laws : QuoteStoreLaws R pg_quotes.
Proof.
  split; cbn; intros.
  - apply sr_tx. cbn zeta. evolve.
  - unfold TryReplayQuoteByIdempotency. evolve.
  - unfold GetQuoteWithLines. evolve.
  - unfold CreateOrderFromQuoteWithVendSessions. repeat (case_match; [evolve|]). apply sr_tx, ev_order_of_key.
  - unfold TryReplayOrderFromQuote. evolve.
Qed.
End Store.

(** ** The service *)

Section Service.
Context `{UuidText} {W : Type} {R : W -> W -> Prop} {s : Service W} `{!ServiceLaws R s}.
Context {store : option (QuoteStore W)} (store_ok : forall q, store = Some q -> QuoteStoreLaws R q).
Context {carts : CartResolvers W} `{!CartLaws R carts}.

Lemma ev_from_snapshot i : evolves R (from_snapshot s carts i).
Proof.
  unfold from_snapshot, resolveQuoteLinesFromMachineSnapshot. serve. by eapply cl_snapshot.
Qed.
Lemma ev_from_batch i : evolves R (from_batch carts i).
Proof. unfold from_batch. serve. by eapply cl_batch. Qed.
Hint Resolve ev_from_snapshot ev_from_batch sv_resolveCheckoutSaleLine : evolves.
Lemma ev_resolveCreateQuoteSaleLines i : evolves R (resolveCreateQuoteSaleLines s carts i).
Proof. unfold resolveCreateQuoteSaleLines. serve. apply evolves_map_each; serve. Qed.
Hint Resolve ev_resolveCreateQuoteSaleLines : evolves.
Lemma ev_price_quote i e : evolves R (price_quote s carts i e).
Proof. unfold price_quote, machine_priced. serve. by eapply sl_mirror. Qed.
Hint Resolve ev_price_quote : evolves.
Lemma sv_CreateQuote i : evolves R (CreateQuote s store carts i).
Proof.
  unfold CreateQuote. apply evolves_bind_lift; [apply _|intros _ _].
  apply evolves_need; [apply _|]. intros q Hq%store_ok. serve.
Qed.
Lemma sv_CreateOrderFromQuote i : evolves R (CreateOrderFromQuote s store i).
Proof.
  unfold CreateOrderFromQuote. apply evolves_bind_lift; [apply _|intros _ _].
  apply evolves_need; [apply _|]. intros q Hq%store_ok. serve.
Qed.
End Service.

(** ** The resolvers *)

Class EngineLaws {W} (R : W -> W -> Prop) (q : PricingQueries W) : Prop := {
  el_pre :: PreOrder R;
  eq_currency : evolves R (GetOrgDefaultCurrency _ q);
  eq_site m : evolves R (GetMachineSiteForOrg _ q m);
  eq_overrides m t : evolves R (ListMachineOverridesAt _ q m t);
  eq_promos t : evolves R (ListPromotionsForPreview _ q t);
  eq_rules ids : evolves R (ListRulesForPromotions _ q ids);
  eq_targets : evolves R (ListTargetsForOrgPromotions _ q);
  eq_category p : evolves R (GetProductCategory _ q p);
  eq_tags p : evolves R (ListProductTagIDs _ q p);
  eq_categories ids : evolves R (GetProductCategories _ q ids);
  eq_tags_batch ids : evolves R (ListProductTagIDsForProducts _ q ids);
  eq_published p m : evolves R (IsProductInMachinePublishedAssortment _ q p m);
  eq_slots m : evolves R (ListCurrentMachineSlotConfigsByMachine _ q m);
  eq_sync m : evolves R (SyncAssortment _ q m) }.

Section Resolvers.
Context `{UuidText} `{Sha256} {W : Type} {R : W -> W -> Prop} (q : PricingQueries W) `{!EngineLaws R q}.
Context (now : M W Z) (now_ok : evolves R now).
Hint Resolve eq_currency eq_site eq_overrides eq_promos eq_rules eq_targets eq_category eq_tags eq_categories
  eq_tags_batch eq_published eq_slots eq_sync : evolves.

Lemma ev_newBatch a b c : evolves R (newBatch q a b c).
Proof. unfold newBatch. evolve. Qed.
Lemma ev_PrefetchProductMeta b l : evolves R (PrefetchProductMeta q b l).
Proof. unfold PrefetchProductMeta, LoadProductPromoMetaBatch. evolve. Qed.
Lemma ev_PriceLine b i : evolves R (PriceLine q b i).
Proof. unfold PriceLine, productCategoryAndTags. evolve. Qed.
Lemma ev_ensurePublished m p : evolves R (ensurePublished q m p).
Proof. unfold ensurePublished, repairPublishedAssortmentFromSlotConfigs. evolve. Qed.
Hint Resolve ev_newBatch ev_PrefetchProductMeta ev_PriceLine ev_ensurePublished : evolves.
Lemma ev_EvaluateSaleLine sel t n : evolves R (EvaluateSaleLine q sel t n).
Proof. unfold EvaluateSaleLine. evolve. Qed.
Lemma ev_EvaluateSaleLines l t : evolves R (EvaluateSaleLines q l t).
Proof. unfold EvaluateSaleLines, evaluate_request. evolve. Qed.
Hint Resolve ev_EvaluateSaleLine ev_EvaluateSaleLines : evolves.

#[export] Instance pg_resolver_laws : ResolverLaws R (pg_resolver q now).
Proof.
  split; cbn; intros; simplify_eq;
    unfold LookupSlotDisplay, ResolveSaleLine, ResolveSaleLineWithQuantity, EvaluateSaleLineAt,
      LookupCurrentSlotConfigByCode, list_slots; evolve.
Qed.
#[export] Instance pg_carts_laws : CartLaws R (pg_carts q now).
Proof.
  split; cbn; intros; simplify_eq;
    unfold ResolveQuoteSaleLines, ResolveQuoteLinesFromMachineSnapshot, list_slots; evolve.
Qed.
End Resolvers.
