(* ===== verification/Backend.v ===== *)
(** * The commerce backend

    The service over the PostgreSQL store (internal/bootstrap/api.go wires
    them), its requests as one type, and what holds of any history of
    requests: whatever fails in between and whatever the other clients of the
    database do, as long as they respect the same guarantee. *)

From S2P Require Import Prelude.
From S2P Require Import GoStd.
From S2P Require Import Pricing.
From S2P Require Import CommerceTypes.
From S2P Require Import Sanitize.
From S2P Require Import Evidence.
From S2P Require Import Snapshot.
From S2P Require Import Rules.
From S2P Require Import CommerceService.
From S2P Require Import ServiceLaws.
From S2P Require Import Db.
From S2P Require Import Queries.
From S2P Require Import History.
From S2P Require Import PgCommerce.
From S2P Require Import Fulfillment.
From S2P Require Import Quotes.
From S2P Require Import StoreLaws.
From S2P Require Import QuoteLaws.
Local Open Scope string_scope.
Local Open Scope list_scope.
Local Open Scope Z_scope.

(** ** Wiring *)

(** What the backend takes from outside the commerce store: the resolvers of a
    sale line and of a cart, the workflow engine, the audit sink, the hook, the payment
    providers, the cash forensic store, the layout mirror, and references for
    the providers. *)
Record Externals := mk_Externals {
  ex_saleLines : SaleLineResolver world;
  ex_carts : CartResolvers world;
  ex_workflow : WorkflowBoundary world;
  ex_scheduleVendFailureFollowUp : bool;
  ex_audit : option (AuditRecord -> M world unit);
  ex_auditTx : option (AuditRecord -> M world unit);
  ex_hook : option (PaymentWebhookAppliedEvent -> M world unit);
  ex_registry : option (PaymentSessionRegistry world);
  ex_bindAcceptanceEvents : option (N -> N -> list string -> M world unit);
  ex_winnerArbitrationEnabled : bool;
  ex_layoutMirror : option (N -> M world LocalLayoutMirror);
  ex_newReference : M world string }.

Section Wiring.
Context `{UuidText} `{Sha256} (x : Externals).

Definition lifecycle : CommerceLifecycleStore world :=
  mk_CommerceLifecycleStore world PgCommerce.GetOrderByID UpdateOrderStatus
    GetVendSessionByOrderAndSlot GetVendSessionByOrderAndLineSequence ListVendSessionsForOrder
    UpdateVendSessionState GetLatestPaymentForOrder GetPaymentByID
    GetLatestPaymentAttemptProviderReference GetLatestPaymentAttemptPayload
    InsertPaymentAttempt InsertRefundRow PgCommerce.ListRefundsForOrder GetRefundByIDForOrder
    GetRefundByOrderIdempotency SumNonFailedRefundAmountForPayment
    FulfillSuccessfulVendAtomically FulfillFailedVendAtomically.

Definition financial : FinancialCorrectnessStore world :=
  mk_FinancialCorrectnessStore world ClaimWinningPayment GetWinningPaymentForOrder
    UpdatePaymentOutcome CancelPaymentByID GetLatestNonCapturedPaymentForOrder
    ListPaymentsForOrder RecordCashAcceptanceEvents RecordCashAllocation RecordCashChangeEvent
    PgCommerce.GetOrderMoneyView InsertLedgerEntry UpsertReconciliationCase.

Definition service : Service world :=
  mk_Service world (mk_OrderVendWorkflow world CreateOrderWithVendSession TryReplayCreateOrderWithVend)
    (Some CreatePaymentWithOutbox) (Some lifecycle)
    (Some (PgCommerce.ApplyPaymentProviderWebhook (ex_auditTx x))) (ex_saleLines x) (ex_workflow x)
    (ex_scheduleVendFailureFollowUp x) (ex_audit x) (ex_hook x) (ex_registry x) (Some financial)
    (ex_bindAcceptanceEvents x) (ex_winnerArbitrationEnabled x) (ex_layoutMirror x) time_Now
    (ex_newReference x).

(** ** Requests *)

Inductive request :=
| ReqCreateOrder (i : CreateOrderInput)
| ReqStartPayment (i : StartPaymentInput)
| ReqBindAttempt (i : InsertPaymentAttemptParams)
| ReqMarkPaid (companyID orderID : N)
| ReqClaimWinner (paymentID orderID : N)
| ReqAdvanceVend (i : AdvanceVendInput)
| ReqFinalize (i : FinalizeAfterVendInput)
| ReqEnsureInProgress (companyID orderID : N) (slotIndex : Z)
| ReqCancelOrder (companyID orderID : N) (reason : string)
| ReqMarkUnknown (companyID orderID : N) (reason : string)
| ReqCreateRefund (i : CreateRefundInput)
| ReqWebhook (i : ApplyPaymentProviderWebhookInput)
| ReqReconcile (i : ReconciledPaymentTransitionInput)
| ReqConfirmCash (i : ConfirmCashPaymentInput)
| ReqCancelSession (i : CancelPaymentSessionInput)
| ReqSession (i : CreateMachinePaymentSessionInput)
| ReqInventory (machineID orderID : N) (slotIndex : Z) (productID : N) (key : string)
| ReqCreateQuote (i : CreateQuoteInput)
| ReqOrderFromQuote (i : CreateOrderFromQuoteInput)
| ReqRead (r : read_request)
with read_request :=
| ReadRefundEligibility (orderID : N) (slotIndex : Z)
| ReadAccess (companyID orderID : N) (p : Principal)
| ReadCheckout (companyID orderID : N) (slotIndex lineSequence : Z)
| ReadOrderStatus (companyID orderID : N) (slotIndex lineSequence : Z)
| ReadPaymentStatus (companyID orderID paymentID : N)
| ReadRefunds (companyID orderID : N)
| ReadRefund (companyID orderID refundID : N)
| ReadMoney (orderID : N).

(** The answer is for the caller: only the effect matters here. *)
Definition handle_read (r : read_request) : M world unit :=
  match r with
  | ReadRefundEligibility o sl => ignore (EvaluateRefundEligibility service o sl)
  | ReadAccess c o p => ignore (EnsureCommerceCallerOrderAccess service c o p)
  | ReadCheckout c o sl l => ignore (getCheckoutStatus service c o sl l)
  | ReadOrderStatus c o sl l => ignore (GetOrderStatusView service c o sl l)
  | ReadPaymentStatus c o p => ignore (GetPaymentStatusView service c o p)
  | ReadRefunds c o => ignore (CommerceService.ListRefundsForOrder service c o)
  | ReadRefund c o i => ignore (GetRefundForOrder service c o i)
  | ReadMoney o => ignore (CommerceService.GetOrderMoneyView service o)
  end.
Definition handle (r : request) : M world unit :=
  match r with
  | ReqCreateOrder i => ignore (CreateOrder service i)
  | ReqStartPayment i => ignore (StartPaymentWithOutbox service i)
  | ReqBindAttempt i => ignore (BindPaymentAttempt service i)
  | ReqMarkPaid c o => ignore (MarkOrderPaidAfterPaymentCapture service c o)
  | ReqClaimWinner p o => ignore (AttemptWinningPaymentClaim service p o)
  | ReqAdvanceVend i => ignore (AdvanceVend service i)
  | ReqFinalize i => ignore (FinalizeOrderAfterVend service i)
  | ReqEnsureInProgress c o sl => ignore (EnsureVendInProgressForPaidOrder service c o sl)
  | ReqCancelOrder c o r => ignore (CancelOrder service c o r)
  | ReqMarkUnknown c o r => ignore (MarkOrderUnknown service c o r)
  | ReqCreateRefund i => ignore (CreateRefund service i)
  | ReqWebhook i => ignore (CommerceService.ApplyPaymentProviderWebhook service i)
  | ReqReconcile i => ignore (ApplyReconciledPaymentTransition i)
  | ReqConfirmCash i => ignore (ConfirmCashPayment service i)
  | ReqCancelSession i => ignore (CancelPaymentSession service i)
  | ReqSession i => ignore (CreateMachinePaymentSession service i)
  | ReqInventory m o sl p k =>
      ignore (ApplyCommerceVendSuccessInventory uuid_Nil m o sl p k None)
  | ReqCreateQuote i => ignore (CreateQuote service (Some pg_quotes) (ex_carts x) i)
  | ReqOrderFromQuote i => ignore (CreateOrderFromQuote service (Some pg_quotes) i)
  | ReqRead r => handle_read r
  end.
(** The history of one server: requests one after the other, each ending in
    success or failure. *)
Definition serve_all (rs : list request) : M world unit := for_each handle rs.

(** ** The externals respect the guarantee *)

Class ExternalLaws (R : world -> world -> Prop) : Prop := {
  el_saleLines :: ResolverLaws R (ex_saleLines x);
  el_carts :: CartLaws R (ex_carts x);
  el_workflow i : evolves R (wb_Start world (ex_workflow x) i);
  el_audit f r : ex_audit x = Some f -> evolves R (f r);
  el_auditTx f r : ex_auditTx x = Some f -> evolves R (f r);
  el_hook f e : ex_hook x = Some f -> evolves R (f e);
  el_psp reg env prov p k i : ex_registry x = Some reg ->
    reg env prov = Ok (p, k) -> evolves R (p i);
  el_bind f m o l : ex_bindAcceptanceEvents x = Some f -> evolves R (f m o l);
  el_mirror f m : ex_layoutMirror x = Some f -> evolves R (f m);
  el_reference : evolves R (ex_newReference x) }.

Section Laws.
Context (R : world -> world -> Prop) `{!Statement_rel safe R} `{!ExternalLaws R}.

#[export] Instance lifecycle_laws : LifecycleLaws R lifecycle.
Proof. split; intros; cbn; eauto with evolves typeclass_instances. Qed.
#[export] Instance financial_laws : FinancialLaws R financial.
Proof. split; intros; cbn; eauto with evolves typeclass_instances. Qed.
#[export] Instance service_laws : ServiceLaws R service.
Proof.
  split; cbn; intros; simplify_eq; eauto with evolves typeclass_instances.
  - apply (ev_ApplyPaymentProviderWebhook (ok := fun _ => True)); [|done]. intros. by apply el_auditTx.
  - apply el_workflow.
  - by apply el_audit.
  - by apply el_hook.
  - by eapply el_psp.
  - by apply el_bind.
  - by apply el_mirror.
  - apply el_reference.
Qed.

Lemma handle_evolves r : evolves R (handle r).
Proof.
  destruct r as [ | | | | | | | | | | | | | | | | | | |r]; [..|destruct r]; apply evolves_ignore.
  - apply sv_CreateOrder, service_laws.
  - apply sv_StartPaymentWithOutbox, service_laws.
  - apply sv_BindPaymentAttempt, service_laws.
  - apply sv_MarkOrderPaid, service_laws.
  - apply sv_AttemptWinningPaymentClaim, service_laws.
  - apply sv_AdvanceVend, service_laws.
  - apply sv_FinalizeOrderAfterVend, service_laws.
  - apply sv_EnsureVendInProgress, service_laws.
  - apply sv_CancelOrder, service_laws.
  - apply sv_MarkOrderUnknown, service_laws.
  - apply sv_CreateRefund, service_laws.
  - apply sv_ApplyPaymentProviderWebhook, service_laws.
  - apply ev_ApplyReconciledPaymentTransition.
  - apply sv_ConfirmCashPayment, service_laws.
  - apply sv_CancelPaymentSession, service_laws.
  - apply sv_CreateMachinePaymentSession, service_laws.
  - apply ev_ApplyCommerceVendSuccessInventory.
  - apply (sv_CreateQuote (R := R)); [|apply _]. intros q [= <-]. apply _.
  - apply (sv_CreateOrderFromQuote (R := R)). intros q [= <-]. apply _.
  - apply sv_EvaluateRefundEligibility, service_laws.
  - apply sv_EnsureCaller, service_laws.
  - apply sv_getCheckoutStatus, service_laws.
  - apply sv_GetOrderStatusView, service_laws.
  - apply sv_GetPaymentStatusView, service_laws.
  - apply sv_ListRefundsForOrder, service_laws.
  - apply sv_GetRefundForOrder, service_laws.
  - apply sv_GetOrderMoneyView, service_laws.
Qed.
Lemma serve_all_evolves rs : evolves R (serve_all rs).
Proof. apply evolves_for_each; [apply _|apply handle_evolves]. Qed.
End Laws.

(** Reading methods, for any guarantee of the other clients. *)
Lemma handle_read_evolves P (R : world -> world -> Prop) `{!Statement_rel P R} r :
  evolves R (handle_read r).
Proof.
  destruct r; apply evolves_ignore;
    unfold EvaluateRefundEligibility, EnsureCommerceCallerOrderAccess,
      getCheckoutStatus, GetOrderStatusView, resolveVendForOrderStatusRead, lookupVendSession,
      GetPaymentStatusView, CommerceService.ListRefundsForOrder, GetRefundForOrder,
      CommerceService.GetOrderMoneyView, EnsureOrderCompany, payment_if_any,
      resolveAuthoritativePayment, guard; cbn.
  all: repeat first
    [ progress intros
    | lazymatch goal with
      | |- evolves _ (bind (need _) _) => apply evolves_need; [apply _|intros ? [= <-]; cbn]
      | |- evolves _ (bind _ _) => apply evolves_bind; [apply _| |]
      | |- evolves _ (attempt _) => apply evolves_attempt
      | |- evolves _ (fmap_M _ _) => apply evolves_fmap
      end
    | solve [eauto with evolves typeclass_instances]
    | case_match ].
Qed.

(** ** Properties of every history *)

(** C21: whatever requests the backend serves, however each of them ends, whatever statements fail
    or lose their acknowledgement, and whatever other clients do that respects the same
    guarantee: no row is lost, the identity and the money columns of orders, payments and
    refunds never change, the winning payment of an order is final, events, attempts, ledger,
    evidence, cash and stock movements are append-only, and the uniqueness, reference and range
    invariants of the tables hold. *)
Theorem backend_keeps_history rs w :
  ExternalLaws (world_rel safe) -> polite safe (w_sched w) -> wf (w_db w) ->
  let w' := (serve_all rs w).2 in
  grows (w_db w) (w_db w') /\ wf (w_db w').
Proof.
  intros Hx Hp Hw. destruct (serve_all_evolves (world_rel safe) rs w Hp) as [_ [Hg Hs]]. auto.
Qed.

(** The reading requests (refund eligibility, access check, checkout, order and payment
    status, refunds, money view) change no table, on any outcome and under any failures. *)
Theorem reads_change_nothing r w :
  (forall g d, Other g ∈ w_sched w -> g d = d) ->
  w_db (handle (ReqRead r) w).2 = w_db w.
Proof.
  intros Hp. destruct (handle_read_evolves eq (world_rel eq) r w) as [_ He]; [|done].
  intros g d Hg. symmetry. by apply Hp.
Qed.
End Wiring.

(** ** Transactions *)

(** Nothing but statement failures around the server: other clients are
    quiet, and no commit loses its acknowledgement. *)
Definition undisturbed (s : list event) : Prop := forall e, e ∈ s -> e = Calm \/ e = Fails.

Lemma undisturbed_suffix a b : undisturbed (a ++ b) -> undisturbed b.
Proof. intros H e He. apply H, elem_of_app. by right. Qed.
Lemma undisturbed_next s : undisturbed s ->
  ((next_event s).1 = Calm \/ (next_event s).1 = Fails) /\ undisturbed (next_event s).2.
Proof.
  intros H. destruct s as [|e s]; [split; [by left|done]|]. split; [apply H; set_solver|].
  intros e' He. apply H. cbn in He. set_solver.
Qed.

Lemma with_tx_atomic {A} (body : M world (tx_end A)) w :
  evolves consumes body -> undisturbed (w_sched w) -> is_Ok (with_tx body w).1 = false ->
  w_db (with_tx body w).2 = w_db w.
Proof.
  intros Hb Hu. unfold with_tx. destruct (undisturbed_next _ Hu) as [He Hu'].
  destruct (next_event (w_sched w)) as [ev s]; cbn in *. destruct He as [-> | ->]; [|done].
  unfold run_tx. destruct (Hb (mk_world (w_db w) InTx s (w_now w + 1) (w_next w))) as [used Hs].
  destruct (body _) as [[[a|a]|e] w1]; cbn in *; try done.
  destruct (w_tx w1); cbn; try done.
  rewrite Hs in Hu'. apply undisturbed_suffix in Hu'. destruct (undisturbed_next _ Hu') as [He _].
  destruct (next_event (w_sched w1)) as [ev' s']; cbn in *. by destruct He as [-> | ->].
Qed.

(** C37: an order with its vend session, a payment with its outbox row and attempt, a finished
    vend with its stock, evidence, ledger, timeline and outbox, a stock decrement, and an order made
    from a quote are all or nothing: when the call returns an error and only statements failed, no table has changed. *)
Theorem store_transactions_atomic `{UuidText} `{Sha256} w :
  undisturbed (w_sched w) ->
  (forall i, is_Ok (CreateOrderWithVendSession i w).1 = false ->
     w_db (CreateOrderWithVendSession i w).2 = w_db w) /\
  (forall i, is_Ok (CreatePaymentWithOutbox i w).1 = false ->
     w_db (CreatePaymentWithOutbox i w).2 = w_db w) /\
  (forall i, is_Ok (FulfillSuccessfulVendAtomically i w).1 = false ->
     w_db (FulfillSuccessfulVendAtomically i w).2 = w_db w) /\
  (forall i, is_Ok (FulfillFailedVendAtomically i w).1 = false ->
     w_db (FulfillFailedVendAtomically i w).2 = w_db w) /\
  (forall sc m o sl p k c, is_Ok (ApplyCommerceVendSuccessInventory sc m o sl p k c w).1 = false ->
     w_db (ApplyCommerceVendSuccessInventory sc m o sl p k c w).2 = w_db w) /\
  (forall i, is_Ok (CreateOrderFromQuoteWithVendSessions i w).1 = false ->
     w_db (CreateOrderFromQuoteWithVendSessions i w).2 = w_db w).
Proof.
  intros Hu. pose proof (consumes_statement safe) as Hcons. split_and!; intros *.
  - unfold CreateOrderWithVendSession. case_match; [done|]. apply with_tx_atomic; [|done]. evolve.
  - unfold CreatePaymentWithOutbox, replay_payment, insert_payment. case_match; [done|].
    apply with_tx_atomic; [|done]. evolve.
  - unfold FulfillSuccessfulVendAtomically. case_match; [done|].
    apply with_tx_atomic; [|done]. apply ev_success_body.
  - apply with_tx_atomic; [|done]. apply ev_failed_body.
  - apply with_tx_atomic; [|done]. pose proof (ev_applyInventoryTx (R := consumes)). evolve.
  - unfold CreateOrderFromQuoteWithVendSessions. repeat (case_match; [done|]).
    apply with_tx_atomic; [|done]. apply ev_order_of_key.
Qed.
