(* ===== verification/PaymentCallbacks.v ===== *)
(** * Notifications of payment providers over HTTP

    internal/httpserver: the routes a provider calls in its own format
    (commerce_psp_webhooks.go) and the route of the normalized event
    (commerce_webhook_public.go), with how an error of the commerce service is
    answered (commerce_http.go), the lookup of a payment by the reference its
    provider has (modules/postgres/payment_by_provider_ref.go), and who may omit
    the signature (config.go).

    The application is complete (the routes are mounted only then).  Of an answer
    the status and the body are kept; logs, metrics and rate limits are not. *)

From stdpp Require Import gmap.
From S2P Require Import Prelude.
From S2P Require Import GoStd.
From S2P Require Import Sha256.
From S2P Require Import JsonText.
From S2P Require Import Pricing.
From S2P Require Import CommerceTypes.
From S2P Require Import Sanitize.
From S2P Require Import Evidence.
From S2P Require Import Rules.
From S2P Require Import PaymentEvents.
From S2P Require Import AdapterCommon.
From S2P Require Import CommerceService.
From S2P Require MoMo.
From S2P Require ZaloPay.
From S2P Require VNPay.
From S2P Require ShopeePay.
From S2P Require Import PaymentRegistry.
From S2P Require Import Db.
From S2P Require Import Queries.
From S2P Require Import PgCommerce.
From S2P Require Import OfflineSale.
From S2P Require Import Backend.
Local Open Scope string_scope.
Local Open Scope list_scope.
Local Open Scope Z_scope.

(** ** Configuration (config.go) *)

Record WebhookConfig := mk_WebhookConfig {
  wc_AppEnv : string; wc_PaymentWebhookHMACSecret : string;
  wc_PaymentWebhookProviderSecrets : gmap string string; wc_PaymentWebhookTimestampSkew : Z;
  wc_PaymentWebhookAllowUnsigned : bool; wc_PaymentWebhookUnsafeAllowUnsignedProduction : bool;
  wc_PaymentOutboxTopic : string; wc_PaymentOutboxAggregateType : string }.
Definition RestrictsUnsignedCommercePaymentWebhooks (appEnv : string) : bool :=
  one_of appEnv ["production"; "staging"].
Definition AllowsUnsignedCommerceWebhooksInDevelopment (appEnv : string) : bool :=
  one_of appEnv ["development"; "test"].

(** ** Requests and answers *)

(** What the handlers read of a request; [None] is a body that cannot be read.
    [hq_Header] is [r.Header.Get]. *)
Record HttpCall := mk_HttpCall {
  hq_Body : option string; hq_Header : string -> string; hq_RemoteAddr : string; hq_Query : string;
  hq_orderId : string; hq_paymentId : string }.
Definition body_limit : nat := Z.to_nat (Z.shiftl 1 20).
(** [io.ReadAll(io.LimitReader(r.Body, 1<<20))] *)
Definition read_body (q : HttpCall) : option string :=
  option_map (fun b => l2s (take body_limit (s2l b))) (hq_Body q).

Record commerceWebhookResponse := mk_WebhookResponse {
  wp_Replay : bool; wp_OrderID : string; wp_OrderStatus : string; wp_PaymentID : string;
  wp_PaymentState : string; wp_AttemptID : string; wp_ProviderEventID : N }.
Inductive Reply :=
| APIError (status : Z) (code message : string)
| CapabilityNotConfigured (capability message : string)
| ReplyJSON (status : Z) (body : list (string * json))
| ReplyEvent (body : commerceWebhookResponse).
Definition reply_status (r : Reply) : Z :=
  match r with
  | APIError s _ _ => s
  | CapabilityNotConfigured _ _ => 503
  | ReplyJSON s _ => s
  | ReplyEvent _ => 200
  end.

(** commerce_http.go *)
Definition service_error_reply (err : goerr) : Reply :=
  if errors_Is err ErrNotConfigured then CapabilityNotConfigured "v1.commerce.persistence"
    "commerce persistence or webhook pipeline is not configured for this process"
  else if errors_Is err ErrNotFound then APIError 404 "not_found" (err_Error err)
  else if errors_Is err ErrOrgMismatch then APIError 403 "forbidden" "company scope does not match this resource"
  else if errors_Is err ErrWebhookAmountCurrencyMismatch
    then APIError 409 "webhook_amount_currency_mismatch" (err_Error err)
  else if errors_Is err ErrWebhookAfterTerminalOrder
    then APIError 409 "webhook_after_terminal_order" (err_Error err)
  else if errors_Is err ErrIllegalTransition then APIError 409 "illegal_transition" (err_Error err)
  else if errors_Is err ErrWebhookIdempotencyConflict then APIError 409 "webhook_idempotency_conflict"
    "webhook replay does not match stored provider_reference or webhook_event_id"
  else if errors_Is err ErrWebhookProviderMismatch then APIError 403 "webhook_provider_mismatch"
    "webhook provider does not match payment provider"
  else if errors_Is err ErrIdempotencyPayloadConflict
    then APIError 409 "idempotency_payload_conflict" (err_Error err)
  else if errors_Is err ErrPaymentNotSettled then APIError 409 "payment_not_settled" (err_Error err)
  else if errors_Is err ErrCancelNotAllowed then APIError 409 "cancel_not_allowed" (err_Error err)
  else if errors_Is err ErrRefundNotAllowed then APIError 409 "refund_not_allowed" (err_Error err)
  else if errors_Is err ErrInvalidArgument then APIError 400 "invalid_argument" (err_Error err)
  else APIError 500 "internal" (err_Error err).
Definition store_error_reply (err : goerr) : Reply :=
  if errors_Is err ErrNoRows then APIError 404 "not_found" "resource not found"
  else APIError 500 "internal" (err_Error err).

(** ** The payment a reference belongs to (payment_by_provider_ref.go) *)

Record PaymentByProviderRef := mk_PaymentByProviderRef {
  pbr_PaymentID : N; pbr_OrderID : N; pbr_Provider : string; pbr_State : string; pbr_AmountMinor : Z;
  pbr_Currency : string; pbr_ProviderReference : string; pbr_MachineID : N }.
Definition join_attempt (d : pgdb) (reference : string) (pa : AttemptRow) : option (AttemptRow * PaymentByProviderRef) :=
  p ← List.find (fun p => p_ID p =u at_PaymentID pa) (d_payments d);
  o ← List.find (fun o => o_ID o =u p_OrderID p) (d_orders d);
  Some (pa, mk_PaymentByProviderRef (p_ID p) (p_OrderID p) (p_Provider p) (p_State p) (p_AmountMinor p)
              (p_Currency p) reference (o_MachineID o)).
Definition attempts_with (reference : string) (d : pgdb) : list AttemptRow :=
  List.filter (fun a => sql_text_eq (at_ProviderReference a) (Some reference)) (d_attempts d).
Definition payment_by_reference (reference : string) (d : pgdb) : option PaymentByProviderRef :=
  option_map snd (latest (fun r => at_CreatedAt r.1)
    (omap (join_attempt d reference) (attempts_with reference d))).
Definition GetPaymentByProviderReference (providerReference : string) : M world PaymentByProviderRef :=
  stmt (select_one (payment_by_reference providerReference)).
(** The provider of a payment and its latest reference. *)
Definition provider_attempt (paymentID : N) (d : pgdb) : option (string * string) :=
  p ← List.find (fun p => p_ID p =u paymentID) (d_payments d);
  Some (p_Provider p, default "" (latest at_CreatedAt (attempts_of paymentID d) ≫= at_ProviderReference)).
Definition ResolvePaymentProviderAttempt (paymentID : N) : M world (string * string) :=
  stmt (select_one (provider_attempt paymentID)).

Section Routes.
Context `{UuidText} `{Sha256} `{UuidParse} (x : Externals) (reg : Registry) (cfg : WebhookConfig).

(** ** The outbox row of an event *)

Definition OutboxEventPaymentConfirmed : string := "payment.confirmed".
Definition OutboxEventPaymentFailed : string := "payment.failed".
Definition attachPaymentWebhookOutbox (i : ApplyPaymentProviderWebhookInput)
    : ApplyPaymentProviderWebhookInput :=
  let state := TrimSpace (ToLower (wh_NormalizedPaymentState i)) in
  let eventType := if String.eqb state "captured" then OutboxEventPaymentConfirmed
                   else if String.eqb state "failed" then OutboxEventPaymentFailed else "" in
  let topic := TrimSpace (wc_PaymentOutboxTopic cfg) in
  let aggregateType := TrimSpace (wc_PaymentOutboxAggregateType cfg) in
  if blank eventType || blank topic || blank aggregateType then i
  else
    let payload := JObj (go_map
      [("source", JStr "payment_webhook"); ("order_id", JStr (uuid_String (wh_OrderID i)));
       ("payment_id", JStr (uuid_String (wh_PaymentID i))); ("provider", JStr (TrimSpace (wh_Provider i)));
       ("webhook_event_id", JStr (TrimSpace (wh_WebhookEventID i)));
       ("payment_state", JStr (TrimSpace (wh_NormalizedPaymentState i)))]) in
    mk_WebhookInput (wh_OrderID i) (wh_PaymentID i) (wh_Provider i) (wh_ProviderReference i)
      (wh_WebhookEventID i) (wh_EventType i) (wh_NormalizedPaymentState i) (wh_Payload i)
      (wh_ProviderAmountMinor i) (wh_Currency i) (wh_WebhookValidationStatus i) (wh_ProviderMetadata i)
      topic eventType (RawJSON payload) aggregateType (wh_PaymentID i)
      (String.concat ":" ["payment_webhook"; TrimSpace (wh_Provider i); TrimSpace (wh_WebhookEventID i); eventType]).

(** ** Providers in their own format (commerce_psp_webhooks.go) *)

Definition reconcileNativeWebhookProvider (eventProvider storedProvider : string) : string :=
  let eventProv := TrimSpace eventProvider in
  let storedProv := TrimSpace storedProvider in
  if negb (blank storedProv) && (blank eventProv || EqualFold eventProv storedProv) then storedProv
  else if negb (blank storedProv) && negb (blank eventProv) && SameWebhookAdapterFamily eventProv storedProv
  then storedProv
  else if negb (blank eventProv) then eventProv else storedProv.
Definition native_metadata : json := JObj [("delivery", JObj [("mode", JStr "provider_native")])].
(** The event for the payment its reference belongs to. *)
Definition native_input (event : CommerceWebhookEventJSON) (state reference : string) (row : PaymentByProviderRef)
    : ApplyPaymentProviderWebhookInput :=
  let id := TrimSpace (wj_WebhookEventID event) in
  let type := TrimSpace (wj_EventType event) in
  attachPaymentWebhookOutbox
    (mk_WebhookInput (pbr_OrderID row) (pbr_PaymentID row)
       (reconcileNativeWebhookProvider (wj_Provider event) (pbr_Provider row)) reference
       (if blank id then reference else id) (if blank type then "provider.native" else type) state
       (wj_PayloadJSON event) (wj_ProviderAmountMinor event) (wj_Currency event) "provider_native_verified"
       (RawJSON native_metadata) "" "" RawEmpty "" uuid_Nil "").
(** The case of a reference nobody has; the text of its metadata is put together as it is. *)
Definition lookup_miss_case (event : CommerceWebhookEventJSON) (reference : string) : ReconciliationCaseInput :=
  let provider := TrimSpace (wj_Provider event) in
  let provider := if blank provider then "unknown" else provider in
  let metadata := l2s (s2l "{" ++ quote_char :: s2l "provider_reference" ++ quote_char :: s2l ":" ++
                       quote_char :: s2l reference ++ quote_char :: s2l "}") in
  mk_ReconciliationCaseInput "payment_webhook_lookup_miss" "critical" None None None None None (Some provider)
    None ("webhook_lookup_miss:" +:+ provider +:+ ":" +:+ reference)
    "PSP webhook provider_reference did not match any payment row" (RequiredRaw (raw_payload metadata)).
Definition applyNativePSPWebhook (event : CommerceWebhookEventJSON) (normalizedState : string) : M world bool :=
  let reference := TrimSpace (wj_ProviderReference event) in
  guard (blank reference) (ENew "empty provider_reference") ;;;
  let! found := attempt (GetPaymentByProviderReference reference) in
  match found with
  | Err e =>
      (if isNoRows e then ignore (UpsertReconciliationCase (lookup_miss_case event reference)) else ret tt) ;;;
      fail e
  | Ok row =>
      let state := ToLower (TrimSpace normalizedState) in
      let state := if blank state then ToLower (TrimSpace (wj_NormalizedPaymentState event)) else state in
      if negb (one_of state ["captured"; "failed"]) then ret false
      else
        let! _ := CommerceService.ApplyPaymentProviderWebhook (service x) (native_input event state reference row) in
        ret true
  end.
(** [onSuccess] or [onFailure]. *)
Definition handleNativePSPWebhookResponse (event : CommerceWebhookEventJSON) (status : string)
    (success : Reply) (failure : string -> Reply) : M world Reply :=
  let! r := attempt (applyNativePSPWebhook event status) in
  ret (match r with
       | Ok _ => success
       | Err e => failure (if isNoRows e then "order not found" else "apply failed")
       end).

Definition momo_reply (status : Z) (message : string) (resultCode : Z) : Reply :=
  ReplyJSON status [("message", JStr message); ("resultCode", JInt resultCode)].
Definition MoMoNativeIPNHandler (q : HttpCall) : M world Reply :=
  match read_body q, Get reg "momo" with
  | None, _ => ret (momo_reply 400 "invalid body" 1001)
  | Some body, Some (AMoMo prov) =>
      match MoMo.VerifyAndParseIPN prov body with
      | Err e => ret (momo_reply 400 (err_Error e) 1001)
      | Ok (_, status, _, event) =>
          handleNativePSPWebhookResponse event status (momo_reply 200 "Success" 0)
            (fun msg => momo_reply 200 msg 1001)
      end
  | Some _, _ => ret (momo_reply 503 "momo not configured" 1001)
  end.

Definition zalopay_reply (status : Z) (code : Z) (message : string) : Reply :=
  ReplyJSON status [("return_code", JInt code); ("return_message", JStr message)].
Definition ZaloPayNativeCallbackHandler (q : HttpCall) : M world Reply :=
  match read_body q, Get reg "zalopay" with
  | None, _ => ret (zalopay_reply 400 (-1) "invalid body")
  | Some body, Some (AZaloPay prov) =>
      match ZaloPay.VerifyAndParseCallback prov body with
      | Err e => ret (zalopay_reply 400 (-1) (err_Error e))
      | Ok (_, status, _, event) =>
          handleNativePSPWebhookResponse event status (zalopay_reply 200 1 "success")
            (fun msg => zalopay_reply 200 (-1) msg)
      end
  | Some _, _ => ret (zalopay_reply 503 (-1) "zalopay not configured")
  end.

(** [net.SplitHostPort]; [None] is an error. *)
Definition has_char (c : string) (l : list ascii) : bool := existsb (fun d => is_char d c) l.
Definition SplitHostPort (hostport : list ascii) : option (list ascii * list ascii) :=
  match last_index_byte hostport ":"%char with
  | None => None
  | Some i =>
      if is_char (default " "%char (head hostport)) "[" then
        match index_byte hostport "]"%char with
        | None => None
        | Some e =>
            if negb (Nat.eqb (e + 1) i) || has_char "[" (drop 1 hostport) || has_char "]" (drop (e + 1) hostport)
            then None
            else Some (take (e - 1) (drop 1 hostport), drop (i + 1) hostport)
        end
      else
        let host := take i hostport in
        if has_char ":" host || has_char "[" hostport || has_char "]" hostport then None
        else Some (host, drop (i + 1) hostport)
  end.
Definition clientIP (q : HttpCall) : string :=
  match SplitHostPort (s2l (TrimSpace (hq_RemoteAddr q))) with
  | Some (host, _) => l2s host
  | None => TrimSpace (hq_RemoteAddr q)
  end.
Definition shopeeCallbackClientIP (q : HttpCall) (trustProxy : bool) : string :=
  let xff := TrimSpace (hq_Header q "X-Forwarded-For") in
  let realIP := TrimSpace (hq_Header q "X-Real-IP") in
  if trustProxy && negb (blank xff) then TrimSpace (l2s (cut_at "," (s2l xff)).1)
  else if trustProxy && negb (blank realIP) then realIP
  else clientIP q.
Definition shopee_reply (status : Z) (errcode : Z) (message : string) : Reply :=
  ReplyJSON status [("errcode", JInt errcode); ("debug_msg", JStr message)].
Definition shopee_failure (msg : string) : Reply :=
  if EqualFold (TrimSpace msg) "order not found" then shopee_reply 503 1 "order not found"
  else shopee_reply 400 1 msg.
Definition ShopeePayNativeCallbackHandler (q : HttpCall) : M world Reply :=
  match read_body q, Get reg "shopeepay" with
  | None, _ => ret (shopee_reply 400 1 "invalid body")
  | Some body, Some (AShopeePay prov) =>
      match ShopeePay.VerifyAndParseCallback prov body (TrimSpace (hq_Header q "X-Airpay-ClientId"))
              (TrimSpace (hq_Header q "X-Airpay-Req-H"))
              (shopeeCallbackClientIP q (ShopeePay.sp_trustProxy prov)) with
      | Err e => let '(code, msg) := ShopeePay.ShopeeCallbackHTTPStatus e in ret (shopee_reply code 1 msg)
      | Ok (_, status, _, event) =>
          handleNativePSPWebhookResponse event status (shopee_reply 200 0 "success") shopee_failure
      end
  | Some _, _ => ret (shopee_reply 503 1 "shopeepay not configured")
  end.

Definition vnpay_reply (status : Z) (code message : string) : Reply :=
  ReplyJSON status [("RspCode", JStr code); ("Message", JStr message)].
Definition VNPayNativeReturnHandler (q : HttpCall) : M world Reply :=
  match Get reg "vnpay" with
  | Some (AVNPay _) =>
      match VNPay.ParseReturnQuery (ParseQuery (hq_Query q)) with
      | Err e => ret (vnpay_reply 400 "99" (err_Error e))
      | Ok event =>
          handleNativePSPWebhookResponse event (wj_NormalizedPaymentState event)
            (vnpay_reply 200 "00" "Confirm Success") (fun msg => vnpay_reply 200 "99" msg)
      end
  | _ => ret (vnpay_reply 503 "99" "vnpay not configured")
  end.

(** ** The normalized event (commerce_webhook_public.go) *)

Definition commerceWebhookProviderMetadataJSON (unsignedDevelopment : bool) : rawjson :=
  RawJSON (if unsignedDevelopment
           then JObj [("delivery", JObj [("mode", JStr "unsigned_development")])] else JObj []).
Definition commerceOrderMachinePtr (ord : Order) : option N :=
  if o_MachineID ord =u uuid_Nil then None else Some (o_MachineID ord).
(** [json.Marshal] of a map, sanitized. *)
Definition audit_json (meta : list (string * json)) : json := SanitizeJSONBytes (RawJSON (JObj (go_map meta))).
Definition record_critical (action : string) (paymentID : N) (machineID : option N)
    (meta : list (string * json)) (outcome : string) : M world unit :=
  match ex_audit x with
  | None => ret tt
  | Some record => record (mk_AuditRecord "payment_provider" None action "commerce.payment"
                             (uuid_String paymentID) machineID (audit_json meta) outcome)
  end.
Definition auditPaymentWebhookRejected (paymentID : N) (machineID : option N) (meta : list (string * json))
    : M world unit :=
  record_critical "payment.webhook.rejected" paymentID machineID meta "failure".
Definition auditPaymentWebhookIdempotencyConflict (paymentID : N) (machineID : option N)
    (meta : list (string * json)) : M world unit :=
  record_critical "payment.webhook.idempotency_conflict" paymentID machineID meta "failure".
Definition present_id (id : N) : option N := if id =u uuid_Nil then None else Some id.
Definition webhook_case (ord : Order) (paymentID : N) (provider : string) (providerEventID : N)
    (caseType severity reason : string) (meta : list (string * json)) : ReconciliationCaseInput :=
  mk_ReconciliationCaseInput caseType (if blank (TrimSpace severity) then "warning" else TrimSpace severity)
    (present_id (o_ID ord)) (present_id paymentID) None None (present_id (o_MachineID ord))
    (if blank (TrimSpace provider) then None else Some (TrimSpace provider))
    (if (0 <? providerEventID)%N then Some providerEventID else None) "" reason (RequiredString (audit_json meta)).
Definition upsertWebhookReconciliationCase (ord : Order) (paymentID : N) (provider : string)
    (providerEventID : N) (caseType severity reason : string) (meta : list (string * json)) : M world unit :=
  let! _ := UpsertCommerceReconciliationCase
              (webhook_case ord paymentID provider providerEventID caseType severity reason meta) in
  record_critical "commerce.reconciliation.case_created" paymentID (commerceOrderMachinePtr ord)
    [("case_type", JStr caseType); ("detail", JObj (go_map meta))] "success".

(** The outcome that is counted, and the answer. *)
Definition handled : Type := string * Reply.
Definition or_reply {A} (m : M world A) (refuse : goerr -> M world handled) (k : A -> M world handled)
    : M world handled :=
  let! r := attempt m in match r with Ok a => k a | Err e => refuse e end.

(** Whether the delivery has to be signed, and what is recorded of it; or why nothing is accepted. *)
Definition webhook_policy : handled + (bool * string) :=
  let hasSecretMaterial := negb (blank (TrimSpace (wc_PaymentWebhookHMACSecret cfg))) ||
                           negb (bool_decide (wc_PaymentWebhookProviderSecrets cfg = ∅)) in
  let restricted := RestrictsUnsignedCommercePaymentWebhooks (wc_AppEnv cfg) in
  if hasSecretMaterial then inr (true, "hmac_verified")
  else if restricted && wc_PaymentWebhookUnsafeAllowUnsignedProduction cfg then inr (false, "unsigned_development")
  else if AllowsUnsignedCommerceWebhooksInDevelopment (wc_AppEnv cfg) && wc_PaymentWebhookAllowUnsigned cfg
    then inr (false, "unsigned_development")
  else if restricted then inl ("hmac_required_policy", APIError 403 "webhook_hmac_required"
    "payment webhooks require COMMERCE_PAYMENT_WEBHOOK_SECRET and/or COMMERCE_PAYMENT_WEBHOOK_SECRETS_JSON in staging/production; unsigned delivery is rejected unless COMMERCE_PAYMENT_WEBHOOK_UNSAFE_ALLOW_UNSIGNED_PRODUCTION=true (documented unsafe)")
  else inl ("hmac_not_configured", CapabilityNotConfigured "v1.commerce.payment_webhook.hmac"
    "set COMMERCE_PAYMENT_WEBHOOK_SECRET or COMMERCE_PAYMENT_WEBHOOK_ALLOW_UNSIGNED=true (development/test only)").
Definition delivery_secret (body : string) : string :=
  ResolveWebhookHMACSecret (TrimSpace (wc_PaymentWebhookHMACSecret cfg)) (wc_PaymentWebhookProviderSecrets cfg)
    (PeekWebhookProvider body).
Definition webhook_auth_failed (err : goerr) : handled :=
  let els := ToLower (err_Error err) in
  if Contains els "outside allowed skew" || Contains els "invalid x-avf-webhook-timestamp"
  then ("webhook_timestamp_skew", APIError 400 "webhook_timestamp_skew" (err_Error err))
  else ("webhook_hmac_invalid", APIError 401 "webhook_auth_failed" (err_Error err)).
(** The check of the signature at a time, in seconds. *)
Definition verify_delivery (q : HttpCall) (body : string) (now : Z) : handled + unit :=
  let secret := delivery_secret body in
  if blank (TrimSpace secret)
  then inl ("hmac_provider_secret_missing", APIError 403 "webhook_hmac_required"
    "no HMAC secret configured for this provider label; set COMMERCE_PAYMENT_WEBHOOK_SECRET or a matching COMMERCE_PAYMENT_WEBHOOK_SECRETS_JSON entry")
  else
    match VerifyCommerceWebhookHMAC secret (hq_Header q "X-AVF-Webhook-Timestamp")
            (hq_Header q "X-AVF-Webhook-Signature") body (wc_PaymentWebhookTimestampSkew cfg) now with
    | Ok _ => inr tt
    | Err e => inl (webhook_auth_failed e)
    end.

Definition audit_failed : handled :=
  ("audit_failed", APIError 500 "audit_failed" "could not record audit event").
(** An audited refusal. *)
Definition refuse_audited (audit : M world unit) (reply : handled) : M world handled :=
  or_reply audit (fun _ => ret audit_failed) (fun _ => ret reply).
Definition webhook_input (orderID paymentID : N) (wh : CommerceWebhookEventJSON) (validationStatus : string)
    : ApplyPaymentProviderWebhookInput :=
  attachPaymentWebhookOutbox
    (mk_WebhookInput orderID paymentID (wj_Provider wh) (wj_ProviderReference wh) (wj_WebhookEventID wh)
       (wj_EventType wh) (wj_NormalizedPaymentState wh) (wj_PayloadJSON wh) (wj_ProviderAmountMinor wh)
       (wj_Currency wh) validationStatus
       (commerceWebhookProviderMetadataJSON (String.eqb validationStatus "unsigned_development"))
       "" "" RawEmpty "" uuid_Nil "").
(** The case an error of the service leaves, if it leaves one. *)
Definition error_case (err : goerr) : option (string * string) :=
  if errors_Is err ErrWebhookProviderMismatch
  then Some ("webhook_provider_mismatch", "webhook provider does not match persisted payment provider")
  else if errors_Is err ErrWebhookAmountCurrencyMismatch
  then Some ("webhook_amount_currency_mismatch", "webhook amount or currency does not match payment row")
  else if errors_Is err ErrWebhookAfterTerminalOrder
  then Some ("webhook_after_terminal_order", "webhook arrived after order/payment reached terminal state")
  else None.
Definition apply_refused (ord : Order) (paymentID : N) (wh : CommerceWebhookEventJSON) (err : goerr)
    : M world handled :=
  let machine := commerceOrderMachinePtr ord in
  if errors_Is err ErrWebhookIdempotencyConflict
  then refuse_audited
         (auditPaymentWebhookIdempotencyConflict paymentID machine [("reason", JStr "conflicting_replay_fields")])
         ("idempotency_conflict", service_error_reply err)
  else
    or_reply
      (match error_case err with
       | Some (caseType, reason) =>
           upsertWebhookReconciliationCase ord paymentID (wj_Provider wh) 0 caseType "critical" reason
             [("provider", JStr (TrimSpace (wj_Provider wh)))]
       | None => ret tt
       end)
      (fun e => ret ("apply_error_case_persist_failed", APIError 500 "internal" (err_Error e)))
      (fun _ => refuse_audited
         (auditPaymentWebhookRejected paymentID machine
            [("reason", JStr "apply_failed"); ("error", JStr (err_Error err))])
         ("apply_error", service_error_reply err)).
Definition event_reply (r : ApplyPaymentProviderWebhookResult) : Reply :=
  ReplyEvent (mk_WebhookResponse (wr_Replay r) (uuid_String (o_ID (wr_Order r))) (o_Status (wr_Order r))
    (uuid_String (p_ID (wr_Payment r))) (p_State (wr_Payment r))
    (match wr_Attempt r with Some a => uuid_String (pa_ID a) | None => "" end) (wr_ProviderRowID r)).
Definition apply_accepted (ord : Order) (paymentID : N) (wh : CommerceWebhookEventJSON)
    (r : ApplyPaymentProviderWebhookResult) : M world handled :=
  if wr_Replay r
  then or_reply
         (upsertWebhookReconciliationCase ord paymentID (wj_Provider wh) (wr_ProviderRowID r)
            "duplicate_provider_event" "info" "provider webhook replay was received and handled idempotently"
            [("provider", JStr (TrimSpace (wj_Provider wh)));
             ("webhook_event_id", JStr (TrimSpace (wj_WebhookEventID wh)));
             ("provider_ref", JStr (TrimSpace (wj_ProviderReference wh)))])
         (fun e => ret ("replayed_case_persist_failed", APIError 500 "internal" (err_Error e)))
         (fun _ => ret ("replayed", event_reply r))
  else ret ("accepted", event_reply r).
(** A delivery that may be applied, to the payment its path names. *)
Definition apply_delivery (q : HttpCall) (body validationStatus : string) : M world handled :=
  match uuid_Parse (TrimSpace (hq_orderId q)), uuid_Parse (TrimSpace (hq_paymentId q)) with
  | None, _ => ret ("invalid_order_id", APIError 400 "invalid_order_id" "invalid orderId")
  | _, None => ret ("invalid_payment_id", APIError 400 "invalid_payment_id" "invalid paymentId")
  | Some orderID, Some paymentID =>
      let store_error e := ret ("store_error", store_error_reply e) in
      or_reply (GetPaymentByIDQ paymentID) store_error (fun pay =>
      if negb (p_OrderID pay =u orderID)
      then ret ("payment_order_mismatch",
                APIError 400 "payment_order_mismatch" "payment does not belong to order")
      else
      or_reply (Queries.GetOrderByID orderID) store_error (fun ord =>
      let rejected reason := auditPaymentWebhookRejected paymentID (commerceOrderMachinePtr ord)
                               [("reason", JStr reason)] in
      match decode_event body with
      | Err _ => refuse_audited (rejected "invalid_json")
                   ("invalid_json", APIError 400 "invalid_json" "request body must be JSON")
      | Ok wh =>
          if blank (TrimSpace (wj_Provider wh))
          then refuse_audited (rejected "missing_provider")
                 ("missing_provider", APIError 400 "invalid_argument" "provider is required")
          else or_reply
                 (CommerceService.ApplyPaymentProviderWebhook (service x)
                    (webhook_input orderID paymentID wh validationStatus))
                 (apply_refused ord paymentID wh) (apply_accepted ord paymentID wh)
      end))
  end.
Definition commercePublicPaymentWebhookHandler (q : HttpCall) : M world handled :=
  match webhook_policy with
  | inl refused => ret refused
  | inr (verifyHMAC, validationStatus) =>
      match read_body q with
      | None => ret ("invalid_body", APIError 400 "invalid_body" "could not read body")
      | Some body =>
          let! t := time_Now in
          match (if verifyHMAC then verify_delivery q body (time_Unix t) else inr tt) with
          | inl refused => ret refused
          | inr _ => apply_delivery q body validationStatus
          end
      end
  end.
End Routes.
