(* ===== verification/Scenario.v ===== *)
(** * A sale from end to end

    A concrete backend evaluated by the kernel: one machine with one stocked
    slot sells one product, paid by a provider webhook; running every request
    a second time changes nothing more.  The same data instantiate the hypotheses of the properties. *)

From S2P Require Import Prelude.
From S2P Require Import GoStd.
From S2P Require Import Pricing.
From S2P Require Import CommerceTypes.
From S2P Require Import Sanitize.
From S2P Require Import Evidence.
From S2P Require Import Snapshot.
From S2P Require Import Rules.
From S2P Require Import CommerceService.
From S2P Require Import ServiceLaws.
From S2P Require Import Db.
From S2P Require Import Queries.
From S2P Require Import History.
From S2P Require Import PgCommerce.
From S2P Require Import Fulfillment.
From S2P Require Import Quotes.
From S2P Require Import StoreLaws.
From S2P Require Import QuoteLaws.
From S2P Require Import Logic.
From S2P Require Import Backend.
Local Open Scope string_scope.
Local Open Scope list_scope.
Local Open Scope Z_scope.

#[local] Existing Instance decimal_uuid.
#[local] Instance length_sha256 : Sha256 := fun l => pretty (Z.of_nat (length l)).

Definition demo_line : ResolvedSaleLine :=
  mk_ResolvedSaleLine 30 "M" "A3" 3 1000 1000 80 1080 1000 0 "" "USD" "fp" [].
Definition demo_resolver : SaleLineResolver world :=
  mk_SaleLineResolver world (fun _ => ret demo_line) (fun _ _ _ _ => ret demo_line) None None.
Definition demo_carts : CartResolvers world :=
  mk_CartResolvers world (Some (fun _ l => map_each (fun sq => ret (line_times sq.2 demo_line)) l)) None.
(** No workflow engine, audit, hook, payment provider, forensic store or
    mirror; winner arbitration as given. *)
Definition demo_externals (arbitration : bool) : Externals :=
  mk_Externals demo_resolver demo_carts (mk_WorkflowBoundary world false (fun _ => ret tt)) false None None
    None None None arbitration None (ret "REF1").
Lemma demo_externals_laws b R `{!PreOrder R} : ExternalLaws (demo_externals b) R.
Proof.
  split; cbn; try done; [split; cbn; intros; try done; by apply evolves_ret|split; cbn; try done; intros f m l [= <-]|..];
    intros; [apply evolves_map_each; [done|intros]|..]; by apply evolves_ret.
Qed.

Definition demo_db : pgdb :=
  set_slot_cfgs (fun _ => [mk_VendSlotConfig 30 1 "A3" (Some 3) (Some 9%N) 10 1000])
    (set_slots (fun _ => [mk_SlotState 1 7 3 5 1000 1])
       (empty_db (mk_Topology [1%N] [] [] (Some 7%N) []))).
Lemma demo_db_wf : wf demo_db.
Proof.
  assert (Hn : forall A (x : A), x ∈ [] -> False) by (by intros A x ?%elem_of_nil).
  split; cbn; try split; try (by apply NoDup_nil_2); try (repeat intro; exfalso; by eapply Hn).
  - apply NoDup_singleton.
  - intros s ->%list_elem_of_singleton. done.
Qed.
Definition demo_world (d : pgdb) (s : list event) : world := mk_world d NoTx s 1000 100.

Definition demo_create : CreateOrderInput :=
  mk_CreateOrderInput 1 9 None "" "" (Some 3) "usd" 0 0 0 "k1" false "" "" false false None
    500 0.
Definition demo_payment (order : N) : StartPaymentInput :=
  mk_StartPaymentInput order "momo" "created" 1080 "usd" "p1" "payments" "payment.created" (JObj [])
    "order" order "p1:outbox" false "" "" false false 0 None "" "" (JObj []) false.
Definition demo_webhook (order payment : N) : ApplyPaymentProviderWebhookInput :=
  mk_WebhookInput order payment "momo" "ref-1" "evt-1" "payment.captured" "captured"
    (RawJSON (JObj [("card", JStr "4111111111111111")])) (Some 1080) (Some "usd") "" RawEmpty
    "payments" "payment.captured" RawEmpty "payment" payment "evt-1:outbox".
Definition demo_advance (order : N) : AdvanceVendInput :=
  mk_AdvanceVendInput order 3 0 "in_progress" None.
Definition demo_finalize (order : N) : FinalizeAfterVendInput :=
  mk_FinalizeAfterVendInput order 3 0 "success" None "" "w1" None None "" "vends" "vend.succeeded"
    "order" "" "" false false.

Definition demo_story : list request :=
  [ReqCreateOrder demo_create; ReqStartPayment (demo_payment 500); ReqWebhook (demo_webhook 500 111);
   ReqAdvanceVend (demo_advance 500); ReqFinalize (demo_finalize 500)].

Definition summary (d : pgdb) :=
  (map (fun o => (o_ID o, o_Status o, o_WinningPaymentID o)) (d_orders d),
   map (fun p => (p_ID p, p_State p, p_Outcome p, p_AttemptSeq p)) (d_payments d),
   map (fun v => (v_ID (vr_Session v), v_State (vr_Session v))) (d_vends d),
   map ss_CurrentQuantity (d_slots d),
   (length (d_events d), length (d_outbox d), length (d_ledger d), length (d_stock_events d))).

(** The world after the first [n] requests of the story. *)
Definition demo_after (arbitration : bool) (n : nat) : world :=
  (serve_all (demo_externals arbitration) (take n demo_story) (demo_world demo_db [])).2.
Lemma demo_after_wf b n : wf (w_db (demo_after b n)).
Proof.
  pose proof (demo_externals_laws b (world_rel safe)).
  destruct (serve_all_evolves (demo_externals b) (world_rel safe) (take n demo_story)
    (demo_world demo_db [])) as [_ [_ Hw]]; [by intros g d ?%elem_of_nil|].
  apply Hw, demo_db_wf.
Qed.
Lemma demo_after_sched b n : w_sched (demo_after b n) = [].
Proof.
  pose proof (demo_externals_laws b consumes). pose proof (consumes_statement safe).
  destruct (serve_all_evolves (demo_externals b) consumes (take n demo_story)
    (demo_world demo_db [])) as [used E].
  by symmetry in E; apply app_nil in E as [_ E].
Qed.
Lemma nil_polite P s : s = [] -> polite P s.
Proof. by intros -> g d ?%elem_of_nil. Qed.
(** The worlds of the story as values: an order, its payment, the capture,
    the vend in progress, the vend done. *)
Definition demo_w1 : world := Eval vm_compute in demo_after true 1.
Definition demo_w2 : world := Eval vm_compute in demo_after true 2.
Definition demo_w3 : world := Eval vm_compute in demo_after true 3.
Definition demo_w4 : world := Eval vm_compute in demo_after true 4.
Definition demo_w5 : world := Eval vm_compute in demo_after true 5.
Lemma demo_w_after :
  demo_w1 = demo_after true 1 /\ demo_w2 = demo_after true 2 /\ demo_w3 = demo_after true 3 /\
  demo_w4 = demo_after true 4 /\ demo_w5 = demo_after true 5.
Proof. repeat split; vm_compute; reflexivity. Qed.
Lemma demo_w_wf :
  wf (w_db demo_w1) /\ wf (w_db demo_w2) /\ wf (w_db demo_w3) /\ wf (w_db demo_w4) /\
  wf (w_db demo_w5).
Proof.
  destruct demo_w_after as (-> & -> & -> & -> & ->). split_and!; apply demo_after_wf.
Qed.

(** One sale: the order is completed by its winner, one item left stock, and
    one event, ledger entry and stock movement are on record. *)
Example demo_sale : summary (w_db demo_w5) =
  ([(500%N, "completed", Some 111%N)], [(111%N, "captured", "winner", 1)], [(106%N, "success")],
   [4], (1, 3, 1, 1)%nat).
Proof. vm_compute. reflexivity. Qed.
(** The same requests again change nothing of it. *)
Example demo_sale_again :
  summary (serve_all (demo_externals true) demo_story demo_w5).2.(w_db) = summary (w_db demo_w5).
Proof. vm_compute. reflexivity. Qed.

(** ** Witnesses of the properties of Backend *)

(** A statement fails, a commit loses its acknowledgement, and another client
    acts, all around the story. *)
Definition demo_schedule : list event := [Calm; Fails; Calm; Other (fun d => d); LostAck; Calm; Fails].
Lemma demo_schedule_polite R `{!Reflexive R} : polite R demo_schedule.
Proof.
  intros g d Hg. unfold demo_schedule in Hg. rewrite !elem_of_cons, elem_of_nil in Hg.
  destruct_or! Hg; simplify_eq. reflexivity.
Qed.

Lemma backend_keeps_history_witness :
  wf demo_db /\ polite safe demo_schedule /\
  let w' := (serve_all (demo_externals true) demo_story (demo_world demo_db demo_schedule)).2 in
  grows demo_db (w_db w') /\ wf (w_db w').
Proof.
  split; [apply demo_db_wf|]. split; [apply (demo_schedule_polite safe)|].
  apply (backend_keeps_history (demo_externals true) demo_story (demo_world demo_db demo_schedule));
    [apply demo_externals_laws, _|apply (demo_schedule_polite safe)|apply demo_db_wf].
Defined.

Lemma reads_change_nothing_witness :
  let w := mk_world (w_db demo_w3) NoTx demo_schedule 2000 200 in
  (forall g d, Other g ∈ w_sched w -> g d = d) /\
  w_db (handle (demo_externals true) (ReqRead (ReadRefundEligibility 500 3)) w).2 = w_db w.
Proof.
  cbn zeta. assert (Hs : forall g d, Other g ∈ demo_schedule -> g d = d)
    by (intros g d Hg; symmetry; by apply (demo_schedule_polite eq)).
  split; [exact Hs|]. by apply reads_change_nothing.
Defined.

Definition demo_order : CreateOrderVendInput :=
  mk_CreateOrderVendInput 1 9 3 "USD" 1000 80 1080 "k1" "created" "pending" false "" "" false false
    "server_priced" None None 500 0.
(** The order row is in when the insert of the vend session fails. *)
Lemma store_transactions_atomic_witness :
  let w := demo_world demo_db [Calm; Calm; Calm; Calm; Calm; Calm; Fails] in
  undisturbed (w_sched w) /\ (CreateOrderWithVendSession demo_order w).1 = Err ErrConn /\
  w_db (CreateOrderWithVendSession demo_order w).2 = w_db w.
Proof.
  cbn zeta. set (w := demo_world _ _).
  assert (Hu : undisturbed (w_sched w)).
  { intros e He. cbn in He. rewrite !elem_of_cons, elem_of_nil in He. destruct_or! He; subst; auto. }
  split; [exact Hu|]. split; [reflexivity|].
  apply (store_transactions_atomic w Hu). reflexivity.
Defined.
