(* ===== verification/Settlement.v ===== *)
(** * Settlement: which payment pays an order

    Winner arbitration: an order has at most one winner, the first, whatever
    the interleaving, and a claim of an open order wins it. *)

From S2P Require Import Prelude.
From S2P Require Import GoStd.
From S2P Require Import Pricing.
From S2P Require Import CommerceTypes.
From S2P Require Import Sanitize.
From S2P Require Import Evidence.
From S2P Require Import Snapshot.
From S2P Require Import Rules.
From S2P Require Import CommerceService.
From S2P Require Import ServiceLaws.
From S2P Require Import Db.
From S2P Require Import Queries.
From S2P Require Import History.
From S2P Require Import PgCommerce.
From S2P Require Import Fulfillment.
From S2P Require Import StoreLaws.
From S2P Require Import Logic.
From S2P Require Import Backend.
From S2P Require Import Scenario.
Local Open Scope string_scope.
Local Open Scope list_scope.
Local Open Scope Z_scope.

(** ** Rows by id *)

Lemma find_by_id {A} (id : A -> N) l x :
  unique_on (fun a => Some (id a)) l -> x ∈ l -> List.find (fun a => id a =u id x) l = Some x.
Proof.
  intros Hu Hx. destruct (List.find _ l) as [y|] eqn:E.
  - apply find_Some_elem in E as [Hy Ey%N.eqb_eq]. f_equal.
    eapply unique_on_same; [exact Hu|done..| |done]. cbn. congruence.
  - rewrite find_None_elem in E. specialize (E x Hx). by rewrite N.eqb_refl in E.
Qed.
Lemma find_by_id_None {A} (id : A -> N) i l :
  i ∉ map id l -> List.find (fun a => id a =u i) l = None.
Proof.
  intros Hi. apply find_None_elem. intros x Hx. apply N.eqb_neq. intros <-.
  apply Hi. apply list_elem_of_fmap. eauto.
Qed.

Definition has_winner (d : pgdb) (order payment : N) : Prop :=
  exists o, o ∈ d_orders d /\ o_ID o = order /\ o_WinningPaymentID o = Some payment.

Lemma has_winner_kept d d' o p : grows d d' -> has_winner d o p -> has_winner d' o p.
Proof.
  intros [Ho _ _ _ _ _ _ _ _ _ _ _ _ _ _ _ _] (x & Hx & Ei & Ew).
  destruct (rows_kept_elem _ _ _ _ Ho Hx) as (y & Hy & Hk & Hw). exists y.
  split_and!; [done| |by apply Hw]. unfold order_identity in Hk. congruence.
Qed.
Lemma has_winner_unique d o p x :
  wf d -> has_winner d o p -> x ∈ d_orders d -> o_ID x = o -> o_WinningPaymentID x = Some p.
Proof.
  intros Hw (y & Hy & Ei & Ew) Hx Ex. assert (x = y) as ->; [|done].
  eapply unique_on_same; [eapply wo_ids, wf_o, Hw|done..| |done]. cbn. congruence.
Qed.

(** ** Arbitration under any schedule *)

Lemma claim_won p o w r w' :
  ClaimWinningPaymentQ p o w = (Ok r, w') -> polite safe (w_sched w) -> wf (w_db w) ->
  has_winner (w_db w') o p /\ o_WinningPaymentID r = Some p /\ wf (w_db w') /\
  polite safe (w_sched w').
Proof.
  intros E Hp Hw. destruct (stmt_done safe _ _ _ _ E Hp) as (d & now & id & _ & Ef).
  pose proof (ev_ClaimWinningPaymentQ (R := world_rel safe) p o w Hp) as [Hp' [_ Hs]].
  rewrite E in Hp', Hs. cbn in Hp', Hs. split_and!; [|..|by auto|done]; unfold update_rows in Ef;
    (destruct (List.find _ _) as [x|] eqn:Ex; [|done]);
    (destruct (order_update_ok _ _) as [[]|]; [|done]); injection Ef as <- Hd; [|done].
  apply find_Some_elem in Ex as [Hx Px]. rewrite <- Hd. cbn.
  set (f := fun x => order_with x _ (Some p) (Some now) now).
  exists (f x). split_and!; [|by apply andb_true_iff in Px as [?%N.eqb_eq _]|done].
  apply elem_of_update_where. exists x. split; [done|]. by rewrite Px.
Qed.
Lemma claim_lost p o w r w' q :
  ClaimWinningPaymentQ p o w = (Ok r, w') -> polite safe (w_sched w) -> wf (w_db w) ->
  has_winner (w_db w) o q -> False.
Proof.
  intros E Hp Hw Hq. destruct (stmt_done safe _ _ _ _ E Hp) as (d & now & id & [Hg Hs] & Ef).
  pose proof (has_winner_kept _ _ _ _ Hg Hq) as Hq'. unfold update_rows in Ef.
  destruct (List.find _ _) as [x|] eqn:Ex; [|done].
  apply find_Some_elem in Ex as [Hx [Ei Hn]%andb_true_iff]. apply N.eqb_eq in Ei.
  by rewrite (has_winner_unique _ _ _ _ (Hs Hw) Hq' Hx Ei) in Hn.
Qed.

Lemma store_claim_won p o w r w' :
  ClaimWinningPayment p o w = (Ok (r, true), w') -> polite safe (w_sched w) -> wf (w_db w) ->
  has_winner (w_db w') o p /\ wf (w_db w') /\ polite safe (w_sched w').
Proof.
  unfold ClaimWinningPayment, bind, attempt. intros E Hp Hw.
  destruct (ClaimWinningPaymentQ p o w) as [[x|e] w1] eqn:Eq.
  - injection E as <- <-. destruct (claim_won _ _ _ _ _ Eq Hp Hw) as (? & _ & ? & ?). done.
  - destruct (isNoRows e); [|done]. by destruct (PgCommerce.GetOrderByID o w1) as [[y|e'] w2].
Qed.
Lemma store_claim_lost p o w r b w' q :
  ClaimWinningPayment p o w = (Ok (r, b), w') -> polite safe (w_sched w) -> wf (w_db w) ->
  has_winner (w_db w) o q -> b = false.
Proof.
  unfold ClaimWinningPayment, bind, attempt. intros E Hp Hw Hq.
  destruct (ClaimWinningPaymentQ p o w) as [[x|e] w1] eqn:Eq.
  - exfalso. by eapply claim_lost.
  - destruct (isNoRows e); [|done]. destruct (PgCommerce.GetOrderByID o w1) as [[y|e'] w2]; [|done].
    by injection E.
Qed.

(** A call that ended keeps the guarantee. *)
Lemma evolves_run {A} (m : M world A) w r w' :
  evolves (world_rel safe) m -> m w = (r, w') -> polite safe (w_sched w) -> wf (w_db w) ->
  polite safe (w_sched w') /\ wf (w_db w') /\ grows (w_db w) (w_db w').
Proof.
  intros Hm E Hp Hw. destruct (Hm w Hp) as [Hp' [Hg Hs]]. rewrite E in *. auto.
Qed.

Section Arbitration.
Context `{UuidText} `{Sha256} (x : Externals).

Lemma service_claim_won p o w a w' :
  AttemptWinningPaymentClaim (service x) p o w = (Ok a, w') -> ar_Won a = true ->
  polite safe (w_sched w) -> wf (w_db w) ->
  has_winner (w_db w') o p /\ wf (w_db w') /\ polite safe (w_sched w').
Proof.
  intros E Ha Hp Hw. unfold AttemptWinningPaymentClaim in E.
  apply bind_inv_Ok in E as (fin & w0 & E0 & E). injection E0 as <- <-.
  apply bind_inv_Ok in E as (u & w0 & E0 & E). unfold guard, lift in E0. injection E0 as E0 <-.
  apply bind_inv_Ok in E as ([r b] & w1 & E1 & E). cbn in E, E1. destruct b.
  - apply bind_inv_Ok in E as (pay & w2 & E2 & E). injection E as <- <-.
    destruct (store_claim_won _ _ _ _ _ E1 Hp Hw) as (Hh & Hw1 & Hp1).
    destruct (evolves_run _ _ _ _ (ev_UpdatePaymentOutcome (R := world_rel safe) p "winner")
      E2 Hp1 Hw1) as (? & ? & Hg). split_and!; [by eapply has_winner_kept|done..].
  - apply bind_inv_Ok in E as (? & ? & _ & E). apply bind_inv_Ok in E as (? & ? & _ & E).
    apply bind_inv_Ok in E as (? & ? & _ & E). apply bind_inv_Ok in E as (? & ? & _ & E).
    by injection E as <- <-.
Qed.

(** C1: an order is won at most once: after one claim of the order succeeded, every later claim
    (by any payment, the winner included) that returns a result has lost, whatever requests, failures and steps of
    other clients come in between. *)
Theorem order_won_once p1 p2 o w1 a1 w1' w2 a2 w2' :
  wf (w_db w1) -> polite safe (w_sched w1) ->
  AttemptWinningPaymentClaim (service x) p1 o w1 = (Ok a1, w1') -> ar_Won a1 = true ->
  safe (w_db w1') (w_db w2) -> polite safe (w_sched w2) ->
  AttemptWinningPaymentClaim (service x) p2 o w2 = (Ok a2, w2') ->
  ar_Won a2 = false /\ has_winner (w_db w2) o p1.
Proof.
  intros Hw1 Hp1 E1 Ha1 [Hg Hs] Hp2 E2.
  destruct (service_claim_won _ _ _ _ _ E1 Ha1 Hp1 Hw1) as (Hh & Hw1' & _).
  pose proof (has_winner_kept _ _ _ _ Hg Hh) as Hh2. split; [|done].
  unfold AttemptWinningPaymentClaim in E2.
  apply bind_inv_Ok in E2 as (fin & w0 & E0 & E2). injection E0 as <- <-.
  apply bind_inv_Ok in E2 as (u & w0 & E0 & E2). unfold guard, lift in E0. injection E0 as E0 <-.
  apply bind_inv_Ok in E2 as ([r b] & w3 & E3 & E2). cbn in E2, E3.
  pose proof (store_claim_lost _ _ _ _ _ _ _ E3 Hp2 (Hs Hw1') Hh2) as ->.
  apply bind_inv_Ok in E2 as (? & ? & _ & E2). apply bind_inv_Ok in E2 as (? & ? & _ & E2).
  apply bind_inv_Ok in E2 as (? & ? & _ & E2). apply bind_inv_Ok in E2 as (? & ? & _ & E2).
  by injection E2 as <- <-.
Qed.
End Arbitration.

(** ** A claim of a quiet order *)

Section ClaimSpec.
Context `{UuidText} `{Sha256} (x : Externals).

Definition claimed (o : Order) (p : N) (now : Z) : Order :=
  order_with o (if one_of (o_Status o) ["created"; "quoted"] then "paid" else o_Status o)
    (Some p) (Some now) now.

Lemma order_update_ok_claim d o p now :
  wf d -> o ∈ d_orders d -> p ∈ map p_ID (d_payments d) ->
  (forall y, y ∈ d_orders d -> o_WinningPaymentID y <> Some p) ->
  order_update_ok (claimed o p now) d = Ok tt.
Proof.
  intros Hw Ho Hp Hf. unfold order_update_ok, claimed. cbn [o_Status o_WinningPaymentID order_with fk_opt].
  assert (Hst : one_of (if one_of (o_Status o) ["created"; "quoted"] then "paid" else o_Status o)
                  orderStatuses = true).
  { destruct (one_of (o_Status o) ["created"; "quoted"]); [done|].
    apply one_of_spec. by apply (wo_status _ _ (wf_o _ Hw)). }
  rewrite (check_true _ _ Hst), (fk_elem p_ID p _ _ Hp). cbn [res_bind]. apply unique_fresh.
  intros y Hy. specialize (Hf y Hy). destruct (o_WinningPaymentID y) as [w|]; cbn;
    [|by rewrite !andb_false_r]. destruct (N.eqb_spec w p); [congruence|by rewrite !andb_false_r].
Qed.

(** The tables after a claim that wins, and after an outcome is set. *)
Definition claim_db (order p : N) (now : Z) (d : pgdb) : pgdb :=
  set_orders (update_where (fun o => (o_ID o =u order) && is_none (o_WinningPaymentID o))
                (fun o => claimed o p now)) d.
Definition outcome_db (p : N) (outcome : string) (d : pgdb) : pgdb :=
  set_payments (update_where (fun q => p_ID q =u p)
                  (fun q => payment_with q (p_State q) outcome)) d.

Lemma payment_update_ok_outcome d q outcome :
  p_State q ∈ paymentStates -> one_of outcome paymentOutcomes = true ->
  payment_update_ok (payment_with q (p_State q) outcome) d = Ok tt.
Proof.
  intros Hq Ho. unfold payment_update_ok. cbn [p_State p_Outcome payment_with].
  apply one_of_spec in Hq. by rewrite (check_true _ _ Hq), (check_true _ _ Ho).
Qed.
Lemma find_open_order d ord :
  wf d -> ord ∈ d_orders d -> o_WinningPaymentID ord = None ->
  List.find (fun o => (o_ID o =u o_ID ord) && is_none (o_WinningPaymentID o)) (d_orders d) = Some ord.
Proof.
  intros Hw Ho En. destruct (List.find _ _) as [r|] eqn:Er.
  - apply find_Some_elem in Er as [Hr [Er%N.eqb_eq _]%andb_true_iff]. f_equal.
    eapply unique_on_same; [eapply wo_ids, wf_o, Hw|done..| |done]. cbn. congruence.
  - rewrite find_None_elem in Er. specialize (Er ord Ho). by rewrite En, N.eqb_refl in Er.
Qed.
Lemma wp_claim p ord n d w (Q : res Order -> world -> Prop) t :
  calm_from n t d w -> t <> Aborted -> wf d -> ord ∈ d_orders d ->
  o_WinningPaymentID ord = None -> p ∈ map p_ID (d_payments d) ->
  (forall y, y ∈ d_orders d -> o_WinningPaymentID y <> Some p) ->
  (forall now w', wf (claim_db (o_ID ord) p now d) -> calm_from n t (claim_db (o_ID ord) p now d) w' ->
     Q (Ok (claimed ord p now)) w') ->
  wp (ClaimWinningPaymentQ p (o_ID ord)) Q w.
Proof.
  intros Hc Ht Hw Ho En Hp Hf HQ. eapply wp_updated; [done..|apply ClaimWinning_safe| | |exact HQ].
  - by apply find_open_order.
  - intros now. by apply order_update_ok_claim.
Qed.
Lemma wp_outcome pay outcome n d w (Q : res Payment -> world -> Prop) t :
  calm_from n t d w -> t <> Aborted -> wf d -> pay ∈ d_payments d ->
  one_of outcome paymentOutcomes = true ->
  (forall w', wf (outcome_db (p_ID pay) outcome d) -> calm_from n t (outcome_db (p_ID pay) outcome d) w' ->
     Q (Ok (payment_with pay (p_State pay) outcome)) w') ->
  wp (UpdatePaymentOutcomeQ (p_ID pay) outcome) Q w.
Proof.
  intros Hc Ht Hw Hp Ho HQ. pose proof (wp_ids _ _ (wf_p _ Hw)) as Hu.
  eapply (wp_updated n t d w); [done..|apply payment_outcome_safe| | |].
  - by apply (find_by_id p_ID).
  - intros _. apply payment_update_ok_outcome; [|done]. by apply (wp_state _ _ (wf_p _ Hw)).
  - intros _. apply HQ.
Qed.

(** A claim of an order that has no winner, by a payment that is nobody's winner, wins: the
    order gets the winner and, if it was open, becomes paid; the payment's outcome is "winner";
    nothing else changes. *)
Theorem claim_open_order pay ord d w :
  calm NoTx d w -> wf d -> pay ∈ d_payments d -> ord ∈ d_orders d ->
  p_ID pay <> uuid_Nil -> o_ID ord <> uuid_Nil -> o_WinningPaymentID ord = None ->
  (forall y, y ∈ d_orders d -> o_WinningPaymentID y <> Some (p_ID pay)) ->
  wp (AttemptWinningPaymentClaim (service x) (p_ID pay) (o_ID ord)) (fun r w' =>
    exists now, r = Ok (mk_ArbitrationResult true (claimed ord (p_ID pay) now) None) /\
      wf (outcome_db (p_ID pay) "winner" (claim_db (o_ID ord) (p_ID pay) now d)) /\
      calm NoTx (outcome_db (p_ID pay) "winner" (claim_db (o_ID ord) (p_ID pay) now d)) w') w.
Proof.
  intros Hc Hw Hp Ho Hpn Hon Hn Hf. unfold AttemptWinningPaymentClaim. cbn. wp_go.
  apply wp_guard; [intros [E|E]%orb_true_iff; by apply N.eqb_eq in E|intros _]. cbn beta iota.
  cbn [fc_ClaimWinningPayment financial]. unfold ClaimWinningPayment. wp_go.
  eapply wp_claim; try done; [apply list_elem_of_fmap; eauto|].
  intros now w1 Hw1 Hc1. wp_go. rewrite mapOrder_id.
  cbn [snd fst fc_UpdatePaymentOutcome financial]. wp_go. unfold UpdatePaymentOutcome. wp_go.
  eapply wp_outcome; try done. intros w2 Hw2 Hc2. wp_go. by exists now.
Qed.
End ClaimSpec.

(** ** Witnesses *)

#[local] Existing Instance decimal_uuid.
#[local] Existing Instance length_sha256.

Lemma order_won_once_witness :
  let c := AttemptWinningPaymentClaim (service (demo_externals true)) 111 500 in
  exists a1 w1' a2 w2', c demo_w2 = (Ok a1, w1') /\ ar_Won a1 = true /\ c w1' = (Ok a2, w2') /\
    ar_Won a2 = false.
Proof.
  eexists _, _, _, _. split; [vm_compute; reflexivity|]. split; [reflexivity|].
  split; [vm_compute; reflexivity|].
  eapply (order_won_once (demo_externals true) 111 111 500 demo_w2).
  - apply demo_w_wf.
  - by apply nil_polite.
  - vm_compute. reflexivity.
  - reflexivity.
  - reflexivity.
  - by apply nil_polite.
  - vm_compute. reflexivity.
Defined.

Lemma claim_open_order_witness :
  exists now d', wp (AttemptWinningPaymentClaim (service (demo_externals true)) 111 500)
    (fun r w' => (exists o, r = Ok (mk_ArbitrationResult true o None) /\ o_Status o = "paid" /\
                            o_WinningClaimedAt o = Some now) /\ calm NoTx d' w') demo_w2.
Proof.
  assert (Hp : exists pay, pay ∈ d_payments (w_db demo_w2) /\ p_ID pay = 111%N)
    by (eexists; split; [left|done]).
  assert (Ho : exists ord, d_orders (w_db demo_w2) = [ord] /\ o_ID ord = 500%N /\
    o_WinningPaymentID ord = None /\ o_Status ord = "created") by (eexists; split; done).
  destruct Hp as (pay & Hp & Ep), Ho as (ord & Ho & Eo & En & Es).
  edestruct (claim_open_order (demo_externals true) pay ord (w_db demo_w2) demo_w2)
    as (now & Hr & _ & Hc); rewrite ?Ho, ?Ep, ?Eo in *; try done.
  - apply demo_w_wf.
  - left.
  - intros y ->%list_elem_of_singleton. by rewrite En.
  - eexists now, _. split; [|exact Hc]. eexists. split; [exact Hr|].
    unfold claimed. by rewrite Es.
Defined.
