(* ===== verification/Webhooks.v ===== *)
(** * Provider webhooks

    What one notification of a payment provider does: a capture of an open
    order pays it, a delivery that is already on record changes nothing that
    counts, and a delivery that does not fit its payment is refused with the
    tables untouched. *)

From S2P Require Import Prelude.
From S2P Require Import GoStd.
From S2P Require Import Pricing.
From S2P Require Import CommerceTypes.
From S2P Require Import Sanitize.
From S2P Require Import Evidence.
From S2P Require Import Snapshot.
From S2P Require Import Rules.
From S2P Require Import CommerceService.
From S2P Require Import ServiceLaws.
From S2P Require Import Db.
From S2P Require Import Queries.
From S2P Require Import History.
From S2P Require Import PgCommerce.
From S2P Require Import Fulfillment.
From S2P Require Import StoreLaws.
From S2P Require Import Logic.
From S2P Require Import Backend.
From S2P Require Import Scenario.
From S2P Require Import Settlement.
Local Open Scope string_scope.
Local Open Scope list_scope.
Local Open Scope Z_scope.

(** ** The input the store gets *)

Lemma prepare_webhook_inv i j :
  prepare_webhook i = Ok j ->
  wh_OrderID j = wh_OrderID i /\ wh_PaymentID j = wh_PaymentID i /\
  wh_ProviderReference j = TrimSpace (wh_ProviderReference i) /\
  wh_WebhookEventID j = TrimSpace (wh_WebhookEventID i) /\
  wh_Currency j = wh_Currency i /\ wh_ProviderAmountMinor j = wh_ProviderAmountMinor i /\
  wh_NormalizedPaymentState j = TrimSpace (ToLower (wh_NormalizedPaymentState i)) /\
  wh_NormalizedPaymentState j ∈ paymentStates /\
  one_of (webhook_validation_status j)
    ["hmac_verified"; "unsigned_development"; "provider_native_verified"] = true.
Proof.
  unfold prepare_webhook. intros H.
  repeat match type of H with
  | res_bind (guard_err ?b _) _ = _ =>
      let G := fresh "G" in destruct b eqn:G; [discriminate|cbn [res_bind guard_err] in H]
  end.
  injection H as <-. cbn. split_and!; try done.
  - by apply one_of_spec, negb_false_iff.
  - unfold webhook_validation_status. cbn.
    apply negb_false_iff, one_of_spec in G3. unfold webhook_validation_statuses in G3.
    rewrite !elem_of_cons, elem_of_nil in G3. by destruct_or! G3; rewrite ?G3.
Qed.

(** ** Deliveries on record *)

(** No event of the provider has the reference or the id of the delivery. *)
Definition fresh_delivery (j : ApplyPaymentProviderWebhookInput) (d : pgdb) : Prop :=
  forall e, e ∈ d_events d -> pe_Provider e = wh_Provider j ->
    pe_ProviderRef e <> Some (wh_ProviderReference j) /\
    pe_WebhookEventID e <> Some (TrimSpace (wh_WebhookEventID j)).

Lemma sql_text_eq_spec a b : sql_text_eq a (Some b) = true <-> a = Some b.
Proof.
  destruct a as [a|]; cbn; [|done]. rewrite String.eqb_eq. split; [by intros ->|by intros [= ->]].
Qed.
Lemma provider_key_None (key : ProviderEvent -> option string) prov k l :
  (forall e, e ∈ l -> pe_Provider e = prov -> key e <> Some k) ->
  List.find (fun e => String.eqb (pe_Provider e) prov && sql_text_eq (key e) (Some k)) l = None.
Proof.
  intros H. apply find_None_elem. intros e He. apply andb_false_iff.
  destruct (String.eqb_spec (pe_Provider e) prov) as [Ep|]; [right|by left].
  apply not_true_is_false. rewrite sql_text_eq_spec. by apply H.
Qed.

(** The events index accepts a fresh delivery. *)
Lemma event_insert_ok_fresh j d applied now id :
  fresh_delivery j d -> wh_PaymentID j ∈ map p_ID (d_payments d) ->
  (forall c, wh_Currency j = Some c -> len c <= 3) ->
  one_of (webhook_validation_status j)
    ["hmac_verified"; "unsigned_development"; "provider_native_verified"] = true ->
  event_insert_ok (provider_event_of j applied now id) d = Ok tt.
Proof.
  intros Hf Hp Hcur Hv. unfold event_insert_ok.
  cbn [pe_PaymentID pe_ValidationStatus pe_Currency pe_ProviderRef pe_WebhookEventID pe_Provider
       provider_event_of fk_opt].
  rewrite (fk_elem p_ID _ _ _ Hp). cbn [res_bind]. rewrite check_true; [cbn [res_bind]|].
  2: { apply one_of_spec in Hv. apply one_of_spec. revert Hv.
       rewrite !elem_of_cons, elem_of_nil. tauto. }
  replace (match wh_Currency j with Some c => char3 c | None => Ok tt end) with (@Ok unit tt).
  2: { destruct (wh_Currency j) as [c|] eqn:E; [|done]. specialize (Hcur c eq_refl).
       unfold char3. by rewrite (proj2 (Z.ltb_ge 3 (len c)) Hcur). }
  cbn [res_bind]. rewrite unique_fresh; [cbn [res_bind]; apply unique_fresh|].
  - intros e He. rewrite <- andb_assoc. apply andb_false_iff. right. apply andb_false_iff.
    destruct (String.eqb_spec (pe_Provider e) (wh_Provider j)) as [Ep|]; [right|by left].
    apply not_true_is_false. unfold optionalStringToPgText. destruct (blank _); [by destruct (pe_WebhookEventID e)|].
    rewrite sql_text_eq_spec. by apply Hf.
  - intros e He. rewrite <- andb_assoc. apply andb_false_iff. right. apply andb_false_iff.
    destruct (String.eqb_spec (pe_Provider e) (wh_Provider j)) as [Ep|]; [right|by left].
    apply not_true_is_false. rewrite sql_text_eq_spec. by apply Hf.
Qed.

(** ** A capture of an open order *)

Definition state_db (p : N) (state : string) (d : pgdb) : pgdb :=
  set_payments (update_where (fun q => p_ID q =u p)
                  (fun q => payment_with q state (p_Outcome q))) d.

Lemma wp_state pay state n d w (Q : res Payment -> world -> Prop) t :
  calm_from n t d w -> t <> Aborted -> wf d -> pay ∈ d_payments d -> state ∈ paymentStates ->
  one_of (p_Outcome pay) paymentOutcomes = true ->
  (forall w', wf (state_db (p_ID pay) state d) -> calm_from n t (state_db (p_ID pay) state d) w' ->
     Q (Ok (payment_with pay state (p_Outcome pay))) w') ->
  wp (UpdatePaymentState (p_ID pay) state) Q w.
Proof.
  intros Hc Ht Hw Hp Hs Ho HQ. pose proof (wp_ids _ _ (wf_p _ Hw)) as Hu.
  eapply (wp_updated n t d w); [done..|apply (payment_state_safe _ state p_Outcome)| | |].
  - by apply (find_by_id p_ID).
  - intros _. unfold payment_update_ok. cbn [p_State p_Outcome payment_with].
    apply one_of_spec in Hs. by rewrite (check_true _ _ Hs), (check_true _ _ Ho).
  - intros _. apply HQ.
Qed.

(** The rows a delivery adds. *)
Definition webhook_outbox_params `{UuidText} (j : ApplyPaymentProviderWebhookInput) : OutboxParams :=
  mk_OutboxParams (wh_OutboxTopic j) (wh_OutboxEventType j) (webhookOutboxPayload j)
    (wh_OutboxAggregateType j) (wh_OutboxAggregateID j)
    (optionalStringToPgText (wh_OutboxIdempotencyKey j)) false None None.
Definition fresh_outbox (topic : string) (key : option string) (d : pgdb) : Prop :=
  forall o, o ∈ d_outbox d -> ob_Topic o = topic -> sql_text_eq (ob_IdempotencyKey o) key = false.

Lemma outbox_insert_ok_fresh p d now id :
  fresh_outbox (op_Topic p) (op_IdempotencyKey p) d -> outbox_insert_ok (outbox_row p now id) d = Ok tt.
Proof.
  intros Hf. apply unique_fresh. intros o Ho. unfold same_outbox. cbn.
  rewrite <- andb_assoc. apply andb_false_iff. right. apply andb_false_iff.
  destruct (String.eqb_spec (ob_Topic o) (op_Topic p)) as [E|]; [right; by apply Hf|by left].
Qed.

(** The order, its payment and the delivery speak of the same money. *)
Record same_money (pay : Payment) (ord : Order) (j : ApplyPaymentProviderWebhookInput) : Prop :=
  mk_same_money {
  sm_total : p_AmountMinor pay = o_TotalMinor ord;
  sm_currency : ToUpper (TrimSpace (p_Currency pay)) = ToUpper (TrimSpace (o_Currency ord));
  sm_reported : forall a, wh_ProviderAmountMinor j = Some a -> a = o_TotalMinor ord;
  sm_named : forall c, wh_Currency j = Some c -> blank (TrimSpace c) = false ->
    ToUpper (TrimSpace c) = ToUpper (TrimSpace (p_Currency pay)) }.
Lemma same_money_spec pay ord j : webhookAmountCurrencyMatches pay ord j = Ok tt <-> same_money pay ord j.
Proof.
  unfold webhookAmountCurrencyMatches, normalizeWebhookCurrency. split.
  - intros E. repeat match type of E with
    | res_bind (guard_err ?b _) _ = _ =>
        let G := fresh "G" in destruct b eqn:G; [discriminate|cbn [res_bind guard_err] in E]
    end. apply negb_false_iff, Z.eqb_eq in G. apply negb_false_iff, String.eqb_eq in G0. split; try done.
    + intros a Ea. rewrite Ea in G1. by apply negb_false_iff, Z.eqb_eq in G1.
    + intros c Ec Hb. rewrite Ec, Hb in E. cbn [negb andb] in E.
      destruct (String.eqb _ _) eqn:Es; [|done]. by apply String.eqb_eq in Es.
  - intros [-> -> Hr Hn]. rewrite Z.eqb_refl, String.eqb_refl. cbn [negb guard_err res_bind].
    destruct (wh_ProviderAmountMinor j) as [a|]; [rewrite (Hr a eq_refl), Z.eqb_refl|]; cbn [negb guard_err res_bind].
    all: destruct (wh_Currency j) as [c|]; [|done]; specialize (Hn c eq_refl);
      destruct (blank (TrimSpace c)); [done|]; rewrite <- Hn by done; by rewrite String.eqb_refl.
Qed.
Lemma same_money_spec_no pay ord j : ~ same_money pay ord j ->
  webhookAmountCurrencyMatches pay ord j = Err ErrWebhookAmountCurrencyMismatch.
Proof.
  intros Hn. destruct (webhookAmountCurrencyMatches pay ord j) as [[]|e] eqn:E.
  { by apply same_money_spec in E. }
  revert E. unfold webhookAmountCurrencyMatches, guard_err. repeat (case_match; cbn [res_bind]; try congruence).
Qed.

(** Payment and order fit each other and the delivery. *)
Record fits (j : ApplyPaymentProviderWebhookInput) (pay : Payment) (ord : Order) (d : pgdb) : Prop :=
  mk_fits {
  ft_pay : pay ∈ d_payments d; ft_ord : ord ∈ d_orders d;
  ft_payID : wh_PaymentID j = p_ID pay; ft_ordID : wh_OrderID j = o_ID ord;
  ft_of : p_OrderID pay = o_ID ord;
  ft_provider : provider_mismatch pay j = false;
  ft_amounts : same_money pay ord j }.
(** An order a capture may pay, and a payment that may be captured. *)
Record open_sale (pay : Payment) (ord : Order) (d : pgdb) : Prop := mk_open_sale {
  os_state : open_state pay = true;
  os_status : one_of (o_Status ord) ["created"; "quoted"] = true;
  os_winner : o_WinningPaymentID ord = None;
  os_free : forall y, y ∈ d_orders d -> o_WinningPaymentID y <> Some (p_ID pay);
  os_outcome : one_of (p_Outcome pay) paymentOutcomes = true }.

(** The tables after the capture. *)
Record captured_tables `{UuidText} (j : ApplyPaymentProviderWebhookInput) (pay : Payment) (ord : Order)
    (now : Z) (ev : ProviderEvent) (att : AttemptRow) (d d' : pgdb) : Prop := mk_captured_tables {
  ct_orders : d_orders d' = d_orders (claim_db (o_ID ord) (p_ID pay) now d);
  ct_payments : d_payments d' = update_where (fun q => p_ID q =u p_ID pay)
    (fun q => payment_with q "captured" "winner") (d_payments d);
  ct_events : d_events d' = d_events d ++ [ev];
  ct_event : exists applied t, ev = provider_event_of j applied t (pe_ID ev);
  ct_attempts : d_attempts d' = d_attempts d ++ [att];
  ct_attempt : at_PaymentID att = p_ID pay /\ at_State att = "captured" /\
               at_ProviderReference att = Some (wh_ProviderReference j);
  ct_outbox : exists t id, d_outbox d' = d_outbox d ++
    (if shouldInsertWebhookOutbox j then [outbox_row (webhook_outbox_params j) t id] else []);
  ct_vends : d_vends d' = d_vends d; ct_refunds : d_refunds d' = d_refunds d;
  ct_cases : d_cases d' = d_cases d; ct_ledger : d_ledger d' = d_ledger d;
  ct_stock : d_slots d' = d_slots d /\ d_stock_events d' = d_stock_events d }.

Lemma update_where_twice {A} (p : A -> bool) (f g : A -> A) l :
  (forall x, p (f x) = p x) ->
  update_where p g (update_where p f l) = update_where p (fun x => g (f x)) l.
Proof.
  intros Hp. unfold update_where. rewrite map_map. apply map_ext. intros x.
  destruct (p x) eqn:E; [by rewrite Hp, E|by rewrite E].
Qed.

Section Capture.
Context `{UuidText}.

Lemma classify_capture ord pay :
  open_state pay = true -> classify_transition ord pay "captured" = Ok false.
Proof.
  intros Ho. unfold classify_transition. replace (paymentTransitionAllowed _ _) with true; [done|].
  unfold open_state in Ho. apply one_of_spec in Ho. rewrite !elem_of_cons, elem_of_nil in Ho.
  unfold paymentTransitionAllowed. by destruct_or! Ho; rewrite ?Ho.
Qed.
Lemma open_not_captured pay : open_state pay = true -> String.eqb (p_State pay) "captured" = false.
Proof.
  intros Ho. unfold open_state in Ho. apply one_of_spec in Ho. rewrite !elem_of_cons, elem_of_nil in Ho.
  by destruct_or! Ho; rewrite ?Ho.
Qed.

(** The effects once the event is in, for a capture of an open order. *)
Lemma wp_record_capture j ord pay ev d w (Q : res (tx_end webhook_end) -> world -> Prop) :
  calm InTx d w -> wf d -> ord ∈ d_orders d -> pay ∈ d_payments d ->
  wh_PaymentID j = p_ID pay -> p_State pay = "captured" ->
  one_of (o_Status ord) ["created"; "quoted"] = true ->
  o_WinningPaymentID ord = None -> (forall y, y ∈ d_orders d -> o_WinningPaymentID y <> Some (p_ID pay)) ->
  fresh_outbox (wh_OutboxTopic j) (optionalStringToPgText (wh_OutboxIdempotencyKey j)) d ->
  (forall now t1 id1 t2 id2 w',
     let att := mk_AttemptRow id1 (p_ID pay) (Some (wh_ProviderReference j)) "captured"
                  (RequiredRaw (wh_Payload j)) t1 in
     let d1 := outcome_db (p_ID pay) "winner" (claim_db (o_ID ord) (p_ID pay) now
                 (set_attempts (fun l => l ++ [att]) d)) in
     calm InTx (if shouldInsertWebhookOutbox j
                then set_outbox (fun l => l ++ [outbox_row (webhook_outbox_params j) t2 id2]) d1
                else d1) w' ->
     Q (Ok (Commit (WebhookApplied (mk_WebhookResult false (claimed ord (p_ID pay) now) pay
          (Some (mapPaymentAttemptView att)) (pe_ID ev))))) w') ->
  wp (record_applied None j ord pay "captured" false ev) Q w.
Proof.
  intros Hc Hw Ho Hp Ej Es Hst Hn Hf Hob HQ. unfold record_applied. wp_go.
  assert (Hpm : p_ID pay ∈ map p_ID (d_payments d)) by (apply list_elem_of_fmap; eauto).
  eapply (wp_inserted _ InTx d w); [done..|apply InsertPaymentAttempt_safe| |].
  { intros. cbn [at_PaymentID]. rewrite Ej. by apply fk_elem. }
  intros t1 id1 w1 Hw1 Hc1. rewrite Ej in *.
  rewrite Hst. cbn [String.eqb Ascii.eqb Bool.eqb andb negb]. unfold settle_capture. wp_go.
  eapply wp_claim; [exact Hc1|done..|]. intros now w2 Hw2 Hc2. wp_go.
  eapply wp_outcome; [exact Hc2|done|done|done|done|]. intros w3 Hw3 Hc3. wp_go.
  destruct (shouldInsertWebhookOutbox j) eqn:Eob; wp_go.
  - eapply (wp_inserted _ InTx _ w3); [exact Hc3|done|done|apply InsertOutboxEvent_safe| |].
    { intros. by apply outbox_insert_ok_fresh. }
    intros t2 id2 w4 _ Hc4. wp_go. rewrite mapOrder_id, mapPayment_id. eapply HQ. exact Hc4.
  - rewrite mapOrder_id, mapPayment_id. by eapply (HQ now t1 id1 0 0%N).
Qed.

(** A delivery that is not on record is applied. *)
Lemma wp_webhook_new audit j d w Q :
  calm InTx d w -> fresh_delivery j d ->
  (forall w', calm InTx d w' -> wp (apply_new audit j) Q w') -> wp (webhook_body audit j) Q w.
Proof.
  intros Hc Hf HQ. unfold webhook_body. wp_go.
  eapply (wp_missing _ InTx d w); [done..|apply provider_key_None; intros e He Ee; by apply Hf|].
  intros w1 Hc1. wp_go. destruct (blank _); wp_go; [by apply HQ|].
  eapply (wp_missing _ InTx d w1); [done..|apply provider_key_None; intros e He Ee; by apply Hf|].
  intros w2 Hc2. wp_go. by apply HQ.
Qed.
Lemma wp_apply_capture j pay ord d w (Q : res ApplyPaymentProviderWebhookResult -> world -> Prop) :
  calm NoTx d w -> wf d -> fits j pay ord d -> open_sale pay ord d -> fresh_delivery j d ->
  wh_NormalizedPaymentState j = "captured" ->
  (forall c, wh_Currency j = Some c -> len c <= 3) ->
  one_of (webhook_validation_status j)
    ["hmac_verified"; "unsigned_development"; "provider_native_verified"] = true ->
  fresh_outbox (wh_OutboxTopic j) (optionalStringToPgText (wh_OutboxIdempotencyKey j)) d ->
  (forall now ev att d' w', captured_tables j pay ord now ev att d d' -> calm NoTx d' w' ->
     Q (Ok (mk_WebhookResult false (claimed ord (p_ID pay) now)
              (payment_with pay "captured" (p_Outcome pay)) (Some (mapPaymentAttemptView att))
              (pe_ID ev))) w') ->
  wp (PgCommerce.ApplyPaymentProviderWebhook None j) Q w.
Proof.
  intros Hc Hw [Hp Ho Epi Eoi Eof Hpm Ham%same_money_spec] [Hst Hos Hn Hfree Hout] Hfr Est Hcur Hv Hob HQ.
  unfold PgCommerce.ApplyPaymentProviderWebhook. apply wp_bind.
  eapply wp_with_tx; [exact Hc|]. clear w Hc. intros w Hc. eapply wp_webhook_new; [done..|].
  clear w Hc. intros w Hc. unfold apply_new. wp_go.
  eapply (wp_found _ InTx d w); [done..| |].
  { rewrite Epi. apply (find_by_id p_ID); [apply (wp_ids _ _ (wf_p _ Hw))|done]. }
  clear w Hc. intros w Hc. wp_go. rewrite Hpm, Eof, Eoi, N.eqb_refl. cbn [negb]. wp_go.
  eapply (wp_found _ InTx d w); [done..| |].
  { apply (find_by_id o_ID); [apply (wo_ids _ _ (wf_o _ Hw))|done]. }
  clear w Hc. intros w Hc. wp_go. rewrite Ham. wp_go. rewrite Est.
  change (TrimSpace (ToLower "captured")) with "captured". rewrite classify_capture by done. wp_go.
  rewrite open_not_captured by done. cbn [negb andb].
  eapply wp_state; [exact Hc|done..|by apply one_of_spec|done|].
  clear w Hc. intros w Hw1 Hc. wp_go. eapply wp_time_Now; [exact Hc|]. intros applied. wp_go.
  eapply (wp_inserted _ InTx _ w); [exact Hc|done|done|apply InsertPaymentProviderEvent_safe| |].
  { intros. apply event_insert_ok_fresh; [done| |done|done]. rewrite Epi.
    cbn. rewrite map_update_where by done. apply list_elem_of_fmap. eauto. }
  clear w Hc. intros te ide w Hw2 Hc. wp_go.
  set (pay' := payment_with pay "captured" (p_Outcome pay)).
  eapply (wp_record_capture j ord pay'); [exact Hc|done|done| |done|done|done|done|done|done|].
  { cbn. apply elem_of_update_where. exists pay. by rewrite N.eqb_refl. }
  clear w Hc. intros now t1 id1 t2 id2 w att d1 Hc. left. eexists. split; [exact Hc|].
  clear w Hc. intros w Hc. wp_go. eapply HQ; [|exact Hc].
  subst d1 att pay'. split; destruct (shouldInsertWebhookOutbox j); cbn; try done.
  all: try (rewrite update_where_twice by done; done).
  all: try (by eexists _, _); try (exists t2, id2; by rewrite ?app_nil_r).
Qed.
End Capture.

(** ** A delivery on record *)

(** The event the delivery finds: by reference, or by its id. *)
Definition recorded (j : ApplyPaymentProviderWebhookInput) (e : ProviderEvent) (d : pgdb) : Prop :=
  e ∈ d_events d /\ pe_Provider e = wh_Provider j /\
  (pe_ProviderRef e = Some (wh_ProviderReference j) /\ keyed (pe_ProviderRef e) = true \/
   (forall e', e' ∈ d_events d -> pe_Provider e' = wh_Provider j ->
      pe_ProviderRef e' <> Some (wh_ProviderReference j)) /\
   pe_WebhookEventID e = Some (TrimSpace (wh_WebhookEventID j)) /\
   keyed (pe_WebhookEventID e) = true).

Lemma find_provider_key (key : ProviderEvent -> option string) (ukey : ProviderEvent -> option (string * string))
    d e k :
  unique_on ukey (d_events d) ->
  (forall e', key e' = Some k -> keyed (key e') = true -> ukey e' = Some (pe_Provider e', k)) ->
  e ∈ d_events d -> key e = Some k -> keyed (key e) = true ->
  List.find (fun e' => String.eqb (pe_Provider e') (pe_Provider e) && sql_text_eq (key e') (Some k))
    (d_events d) = Some e.
Proof.
  intros Hu Hk He Ee Ek. destruct (List.find _ _) as [e'|] eqn:Ef.
  - apply find_Some_elem in Ef as [He' [Ep%String.eqb_eq Es%sql_text_eq_spec]%andb_true_iff]. f_equal.
    eapply unique_on_same; [exact Hu|done|done| |]; rewrite (Hk e') by (try done; congruence);
      [rewrite (Hk e) by done; congruence|done].
  - rewrite find_None_elem in Ef. specialize (Ef e He). rewrite String.eqb_refl in Ef.
    by rewrite Ee, sql_text_eq_refl in Ef.
Qed.

Section Replay.
Context `{UuidText}.

Lemma wp_webhook_recorded audit j e d w Q :
  calm InTx d w -> wf d -> recorded j e d ->
  (forall w', calm InTx d w' -> wp (replay_recorded audit j e) Q w') ->
  wp (webhook_body audit j) Q w.
Proof.
  intros Hc Hw (He & Ep & Hr) HQ. unfold webhook_body. wp_go. destruct Hr as [[Er Ek]|(Hno & Eid & Ek)].
  - eapply (wp_found _ InTx d w); [done..| |].
    { rewrite <- Ep. eapply (find_provider_key pe_ProviderRef event_ref_key); [apply Hw| |done..].
      intros e' E1 E2. unfold event_ref_key, text_key. by rewrite E2, E1. }
    intros w1 Hc1. wp_go. by apply HQ.
  - eapply (wp_missing _ InTx d w); [done..|by apply provider_key_None|].
    intros w1 Hc1. wp_go. destruct (blank (TrimSpace (wh_WebhookEventID j))) eqn:Eb.
    { rewrite Eid in Ek. cbn in Ek. by rewrite TrimSpace_idemp, Eb in Ek. }
    wp_go. eapply (wp_found _ InTx d w1); [done..| |].
    { rewrite <- Ep. eapply (find_provider_key pe_WebhookEventID event_id_key); [apply Hw| |done..].
      intros e' E1 E2. unfold event_id_key, text_key. by rewrite E2, E1. }
    intros w2 Hc2. wp_go. by apply HQ.
Qed.

(** The replay of an event whose order needs no promotion. *)
Lemma wp_replay_settled j e pay ord d w (Q : res (tx_end webhook_end) -> world -> Prop) :
  calm InTx d w -> wf d -> pe_PaymentID e = Some (wh_PaymentID j) ->
  assertWebhookReplayFieldsMatch e j = Ok tt -> pay ∈ d_payments d -> ord ∈ d_orders d ->
  wh_PaymentID j = p_ID pay -> wh_OrderID j = o_ID ord -> provider_mismatch pay j = false ->
  String.eqb (TrimSpace (p_State pay)) "captured" = false \/
    one_of (TrimSpace (o_Status ord)) ["created"; "quoted"] = false ->
  (forall w', calm InTx d w' ->
     Q (Ok (Commit (WebhookApplied (mk_WebhookResult true ord pay None (pe_ID e))))) w') ->
  wp (replay_recorded None j e) Q w.
Proof.
  intros Hc Hw Ee Hf Hp Ho Ep Eo Hpm Hst HQ. unfold replay_recorded, webhookReplayResultFromEvent.
  rewrite Ee. cbn [opt_eqb_N]. rewrite N.eqb_refl. cbn [negb]. wp_go. rewrite Hf. wp_go.
  eapply (wp_found _ InTx d w); [done..| |].
  { rewrite Ep. apply (find_by_id p_ID); [apply (wp_ids _ _ (wf_p _ Hw))|done]. }
  intros w1 Hc1. wp_go. rewrite Hpm. wp_go. eapply (wp_found _ InTx d w1); [done..| |].
  { rewrite Eo. apply (find_by_id o_ID); [apply (wo_ids _ _ (wf_o _ Hw))|done]. }
  intros w2 Hc2. wp_go. unfold promoteCapturedOrderIfNeeded.
  destruct (String.eqb (TrimSpace (p_State pay)) "captured"); cbn [negb]; wp_go.
  - replace (negb (String.eqb (TrimSpace (o_Status ord)) "created") &&
             negb (String.eqb (TrimSpace (o_Status ord)) "quoted")) with true.
    2: { destruct Hst as [|Hst]; [done|]. cbn in Hst. apply orb_false_iff in Hst as [-> Hst].
         by rewrite orb_false_r in Hst; rewrite Hst. }
    wp_go. rewrite mapOrder_id, mapPayment_id. by apply HQ.
  - rewrite mapOrder_id, mapPayment_id. by apply HQ.
Qed.

(** ** A delivery that does not fit *)

Inductive rejected (j : ApplyPaymentProviderWebhookInput) (pay : Payment) (ord : Order)
    : goerr -> Prop :=
| rejected_provider :
    provider_mismatch pay j = true -> rejected j pay ord ErrWebhookProviderMismatch
| rejected_order :
    provider_mismatch pay j = false -> p_OrderID pay <> wh_OrderID j ->
    rejected j pay ord ErrOrgMismatch
| rejected_amount :
    provider_mismatch pay j = false -> p_OrderID pay = wh_OrderID j ->
    ~ same_money pay ord j -> rejected j pay ord ErrWebhookAmountCurrencyMismatch
| rejected_late :
    let target := TrimSpace (ToLower (wh_NormalizedPaymentState j)) in
    provider_mismatch pay j = false -> p_OrderID pay = wh_OrderID j -> same_money pay ord j ->
    paymentTransitionAllowed (p_State pay) target = false -> target <> "captured" ->
    webhookLateDeliveryAgainstTerminalState ord pay = true ->
    rejected j pay ord ErrWebhookAfterTerminalOrder
| rejected_transition :
    let target := TrimSpace (ToLower (wh_NormalizedPaymentState j)) in
    provider_mismatch pay j = false -> p_OrderID pay = wh_OrderID j -> same_money pay ord j ->
    paymentTransitionAllowed (p_State pay) target = false ->
    webhookLateDeliveryAgainstTerminalState ord pay = false ->
    rejected j pay ord ErrIllegalTransition.

Lemma rejected_by_code j pay ord e : rejected j pay ord e ->
  provider_mismatch pay j = true /\ e = ErrWebhookProviderMismatch \/
  provider_mismatch pay j = false /\ p_OrderID pay <> wh_OrderID j /\ e = ErrOrgMismatch \/
  provider_mismatch pay j = false /\ p_OrderID pay = wh_OrderID j /\
    (webhookAmountCurrencyMatches pay ord j = Err e \/
     webhookAmountCurrencyMatches pay ord j = Ok tt /\
     classify_transition ord pay (TrimSpace (ToLower (wh_NormalizedPaymentState j))) = Err e).
Proof.
  intros [Hp|Hp Ho|Hp Ho Hm|target Hp Ho Hm Ht Hn Hl|target Hp Ho Hm Ht Hl].
  1, 2: tauto.
  all: right; right; split; [done|]; split; [done|].
  - left. by apply same_money_spec_no.
  - right. split; [by apply same_money_spec|]. unfold classify_transition. fold target.
    apply String.eqb_neq in Hn. by rewrite Ht, Hl, Hn.
  - right. split; [by apply same_money_spec|]. unfold classify_transition. fold target.
    by rewrite Ht, Hl, andb_false_r.
Qed.

Lemma wp_apply_rejected audit j pay ord e d w (Q : res (tx_end webhook_end) -> world -> Prop) :
  calm InTx d w -> wf d -> pay ∈ d_payments d -> ord ∈ d_orders d ->
  wh_PaymentID j = p_ID pay -> wh_OrderID j = o_ID ord -> rejected j pay ord e ->
  (forall w', calm InTx d w' -> Q (Err e) w') -> wp (apply_new audit j) Q w.
Proof.
  intros Hc Hw Hp Ho Ep Eo Hr HQ. unfold apply_new. wp_go.
  eapply (wp_found _ InTx d w); [done..| |].
  { rewrite Ep. apply (find_by_id p_ID); [apply (wp_ids _ _ (wf_p _ Hw))|done]. }
  intros w1 Hc1. wp_go. apply rejected_by_code in Hr as [[Hpm ->]|[(Hpm & Hof & ->)|(Hpm & Hof & [Ham|[Ham Hcl]])]];
    rewrite Hpm; wp_go; [by apply HQ|apply N.eqb_neq in Hof; rewrite Hof; wp_go; by apply HQ|..];
    rewrite Hof, N.eqb_refl; cbn [negb]; wp_go.
  all: eapply (wp_found _ InTx d w1); [done..| |];
    [rewrite Eo; apply (find_by_id o_ID); [apply (wo_ids _ _ (wf_o _ Hw))|done]|].
  all: intros w2 Hc2; wp_go; rewrite Ham; wp_go; rewrite ?Hcl; wp_go; by apply HQ.
Qed.
End Replay.

(** ** The properties *)

Section Delivery.
Context `{UuidText} `{Sha256} (x : Externals).

(** The service hands a checked delivery to the store, and its answer to the hook. *)
Lemma wp_service_webhook i j d w (Q : res ApplyPaymentProviderWebhookResult -> world -> Prop) :
  (forall f e, ex_hook x = Some f -> evolves quiet (f e)) -> calm NoTx d w ->
  prepare_webhook i = Ok j -> blank (TrimSpace (wh_WebhookEventID i)) = false ->
  len (TrimSpace (wh_WebhookEventID i)) <= 256 ->
  wp (PgCommerce.ApplyPaymentProviderWebhook (ex_auditTx x) j) (fun r w' =>
    exists d', calm NoTx d' w' /\ forall w'', calm NoTx d' w'' -> Q r w'') w ->
  wp (CommerceService.ApplyPaymentProviderWebhook (service x) i) Q w.
Proof.
  intros Hhook Hc Hj Hblank Hlen Hm. unfold CommerceService.ApplyPaymentProviderWebhook. wp_go.
  apply wp_guard; [congruence|intros _]. wp_go.
  apply wp_guard; [intros Hl%Z.ltb_lt; lia|intros _]. wp_go.
  cbn [sv_webhook service sv_webhookAppliedHook]. wp_go. rewrite Hj. wp_go.
  eapply wp_mono; [|exact Hm]. intros [r|e] w1 (d' & Hc1 & HQ); [|by apply HQ]. wp_go.
  destruct (ex_hook x) as [f|] eqn:Eh; wp_go; [|by apply HQ].
  eapply wp_quiet; [by apply Hhook|exact Hc1|]. intros _ w2 Hc2. wp_go. by apply HQ.
Qed.

(** A capture not on record, for an open payment of an open order. *)
Record capture_due (i j : ApplyPaymentProviderWebhookInput) (pay : Payment) (ord : Order) (d : pgdb) : Prop :=
  mk_capture_due {
  cd_audit : ex_auditTx x = None;
  cd_hook : forall f e, ex_hook x = Some f -> evolves quiet (f e);
  cd_prepared : prepare_webhook i = Ok j;
  cd_id : blank (TrimSpace (wh_WebhookEventID i)) = false;
  cd_id_len : len (TrimSpace (wh_WebhookEventID i)) <= 256;
  cd_fits : fits j pay ord d;
  cd_open : open_sale pay ord d;
  cd_fresh : fresh_delivery j d;
  cd_captured : wh_NormalizedPaymentState j = "captured";
  cd_currency : forall c, wh_Currency i = Some c -> len c <= 3;
  cd_outbox : fresh_outbox (wh_OutboxTopic j) (optionalStringToPgText (wh_OutboxIdempotencyKey j)) d }.
Lemma wp_capture_delivery i j pay ord d w (Q : res ApplyPaymentProviderWebhookResult -> world -> Prop) :
  calm NoTx d w -> wf d -> capture_due i j pay ord d ->
  (forall now ev att d' w', calm NoTx d' w' -> captured_tables j pay ord now ev att d d' ->
     Q (Ok (mk_WebhookResult false (claimed ord (p_ID pay) now)
              (payment_with pay "captured" (p_Outcome pay)) (Some (mapPaymentAttemptView att))
              (pe_ID ev))) w') ->
  wp (CommerceService.ApplyPaymentProviderWebhook (service x) i) Q w.
Proof.
  intros Hc Hw [Haud Hhook Hj Hblank Hlen Hfit Hopen Hfr Hst Hcur Hob] HQ.
  pose proof (prepare_webhook_inv i j Hj) as (_ & _ & _ & _ & Ecur & _ & _ & _ & Hv).
  eapply wp_service_webhook; [done|exact Hc|done..|]. rewrite Haud.
  eapply wp_apply_capture; [exact Hc|done..| |done|done|].
  { intros c. rewrite Ecur. apply Hcur. }
  intros now ev att d' w' Ht Hc'. exists d'. split; [done|]. intros w'' Hc''. by eapply HQ.
Qed.

(** A delivery of a capture that is not on record, for a payment that is open and an order
    that is open and has no winner, with matching provider, amount and currency, pays the order:
    payment captured and winner, order paid, one event, one attempt and one outbox row (when
    asked for) added, and no vend, refund, ledger or stock row touched. *)
Theorem webhook_capture_pays i j pay ord d w :
  calm NoTx d w -> wf d -> capture_due i j pay ord d ->
  wp (CommerceService.ApplyPaymentProviderWebhook (service x) i) (fun r w' =>
    exists now ev att d', calm NoTx d' w' /\ captured_tables j pay ord now ev att d d' /\
      r = Ok (mk_WebhookResult false (claimed ord (p_ID pay) now)
                (payment_with pay "captured" (p_Outcome pay)) (Some (mapPaymentAttemptView att))
                (pe_ID ev))) w.
Proof.
  intros Hc Hw Hd. eapply wp_capture_delivery; [exact Hc|done..|]. intros now ev att d' w' Hc' Ht.
  by exists now, ev, att, d'.
Qed.

(** A delivery that is on record, by its provider reference or by its event id, answers as a
    replay with the recorded event's row, and changes no table, when the order does not have to be promoted. *)
Theorem webhook_replayed i j e pay ord d w :
  ex_auditTx x = None -> (forall f e, ex_hook x = Some f -> evolves quiet (f e)) ->
  calm NoTx d w -> wf d -> prepare_webhook i = Ok j ->
  blank (TrimSpace (wh_WebhookEventID i)) = false -> len (TrimSpace (wh_WebhookEventID i)) <= 256 ->
  recorded j e d -> pe_PaymentID e = Some (wh_PaymentID j) ->
  assertWebhookReplayFieldsMatch e j = Ok tt -> pay ∈ d_payments d -> ord ∈ d_orders d ->
  wh_PaymentID j = p_ID pay -> wh_OrderID j = o_ID ord -> provider_mismatch pay j = false ->
  (String.eqb (TrimSpace (p_State pay)) "captured" = false \/
   one_of (TrimSpace (o_Status ord)) ["created"; "quoted"] = false) ->
  wp (CommerceService.ApplyPaymentProviderWebhook (service x) i) (fun r w' =>
    r = Ok (mk_WebhookResult true ord pay None (pe_ID e)) /\ calm NoTx d w') w.
Proof.
  intros Haud Hhook Hc Hw Hj Hb Hl Hrec Ee Hf Hp Ho Ep Eo Hpm Hst.
  eapply wp_service_webhook; [done|exact Hc|done..|]. rewrite Haud.
  unfold PgCommerce.ApplyPaymentProviderWebhook. wp_go. eapply wp_with_tx; [exact Hc|].
  clear w Hc. intros w Hc. eapply wp_webhook_recorded; [done..|]. clear w Hc. intros w Hc.
  eapply wp_replay_settled; [done..|]. clear w Hc. intros w Hc. left. eexists. split; [exact Hc|].
  clear w Hc. intros w Hc. wp_go. exists d. auto.
Qed.

(** A new delivery whose provider, order, amounts or transition do not fit its payment is
    refused with the error of the first of these checks that fails, and changes no table. *)
Theorem webhook_rejected i j pay ord e d w :
  (forall f e, ex_hook x = Some f -> evolves quiet (f e)) ->
  calm NoTx d w -> wf d -> prepare_webhook i = Ok j ->
  blank (TrimSpace (wh_WebhookEventID i)) = false -> len (TrimSpace (wh_WebhookEventID i)) <= 256 ->
  fresh_delivery j d -> pay ∈ d_payments d -> ord ∈ d_orders d ->
  wh_PaymentID j = p_ID pay -> wh_OrderID j = o_ID ord -> rejected j pay ord e ->
  wp (CommerceService.ApplyPaymentProviderWebhook (service x) i) (fun r w' =>
    r = Err e /\ calm NoTx d w') w.
Proof.
  intros Hhook Hc Hw Hj Hb Hl Hfr Hp Ho Ep Eo Hr.
  eapply wp_service_webhook; [done|exact Hc|done..|].
  unfold PgCommerce.ApplyPaymentProviderWebhook. wp_go. eapply wp_with_tx; [exact Hc|].
  clear w Hc. intros w Hc. eapply wp_webhook_new; [done..|]. clear w Hc. intros w Hc.
  eapply wp_apply_rejected; [done..|]. clear w Hc. intros w Hc. split; [split; apply Hc|].
  clear w Hc. intros w Hc. exists d. auto.
Qed.
End Delivery.

(** ** Witnesses *)

#[local] Existing Instance decimal_uuid.
#[local] Existing Instance length_sha256.

Definition demo_prepared (i : ApplyPaymentProviderWebhookInput) : ApplyPaymentProviderWebhookInput :=
  match prepare_webhook i with Ok j => j | Err _ => i end.
(** The rows of a sale that is open, paid, and the event that paid it. *)
Lemma demo_open_rows : exists pay ord, let j := demo_prepared (demo_webhook 500 111) in
  pay ∈ d_payments (w_db demo_w2) /\ ord ∈ d_orders (w_db demo_w2) /\
  fits j pay ord (w_db demo_w2) /\ open_sale pay ord (w_db demo_w2) /\
  o_ID ord = 500%N /\ p_ID pay = 111%N /\ o_Status ord = "created".
Proof.
  eexists _, _. cbn zeta. split; [left|]. split; [left|]. split.
  { split; try done; [left|left|]. split; try done; by intros a [= <-]. }
  split; [|done]. split; try done. intros y ->%list_elem_of_singleton. done.
Qed.

Lemma webhook_capture_pays_witness :
  exists pay ord, o_ID ord = 500%N /\ p_ID pay = 111%N /\ o_Status ord = "created" /\
  wp (CommerceService.ApplyPaymentProviderWebhook (service (demo_externals true)) (demo_webhook 500 111))
    (fun r w' => exists now ev att d', calm NoTx d' w' /\
      captured_tables (demo_prepared (demo_webhook 500 111)) pay ord now ev att (w_db demo_w2) d' /\
      r = Ok (mk_WebhookResult false (claimed ord (p_ID pay) now)
                (payment_with pay "captured" (p_Outcome pay)) (Some (mapPaymentAttemptView att))
                (pe_ID ev))) demo_w2.
Proof.
  destruct demo_open_rows as (pay & ord & Hp & Ho & Hfit & Hopen & Eo & Ep & Es).
  exists pay, ord. split; [exact Eo|]. split; [exact Ep|]. split; [exact Es|].
  apply webhook_capture_pays; [by split|apply demo_w_wf|]. split.
  - reflexivity.
  - discriminate.
  - vm_compute. reflexivity.
  - reflexivity.
  - vm_compute. discriminate.
  - exact Hfit.
  - exact Hopen.
  - by intros e ?%elem_of_nil.
  - reflexivity.
  - intros c [= <-]. vm_compute. discriminate.
  - intros o Ho' _. vm_compute in Ho'. apply list_elem_of_singleton in Ho' as ->. reflexivity.
Defined.

(** The same delivery once more, and another amount for an order still open. *)
Lemma demo_paid_rows : exists pay ord e, let d := w_db demo_w3 in
  pay ∈ d_payments d /\ ord ∈ d_orders d /\ e ∈ d_events d /\ d_events d = [e] /\
  o_ID ord = 500%N /\ p_ID pay = 111%N /\ pe_PaymentID e = Some 111%N /\
  assertWebhookReplayFieldsMatch e (demo_prepared (demo_webhook 500 111)) = Ok tt /\
  recorded (demo_prepared (demo_webhook 500 111)) e d /\
  provider_mismatch pay (demo_prepared (demo_webhook 500 111)) = false /\ o_Status ord = "paid".
Proof.
  eexists _, _, _. cbn zeta. split; [left|]. split; [left|]. split; [left|]. split; [reflexivity|].
  split_and!; try done. split; [left|]. split; [reflexivity|]. left. by split.
Qed.

Lemma webhook_replayed_witness :
  exists pay ord e, d_events (w_db demo_w3) = [e] /\
  wp (CommerceService.ApplyPaymentProviderWebhook (service (demo_externals true)) (demo_webhook 500 111))
    (fun r w' => r = Ok (mk_WebhookResult true ord pay None (pe_ID e)) /\
                 calm NoTx (w_db demo_w3) w') demo_w3.
Proof.
  destruct demo_paid_rows as (pay & ord & e & Hp & Ho & He & Ee & Eo & Ep & Epe & Hf & Hrec & Hpm & Es).
  exists pay, ord, e. split; [exact Ee|].
  eapply (webhook_replayed (demo_externals true) (demo_webhook 500 111)
    (demo_prepared (demo_webhook 500 111))).
  - reflexivity.
  - discriminate.
  - by split.
  - apply demo_w_wf.
  - vm_compute. reflexivity.
  - reflexivity.
  - vm_compute. discriminate.
  - exact Hrec.
  - exact Epe.
  - exact Hf.
  - exact Hp.
  - exact Ho.
  - by rewrite Ep.
  - by rewrite Eo.
  - exact Hpm.
  - right. by rewrite Es.
Defined.

Definition demo_short_webhook : ApplyPaymentProviderWebhookInput :=
  mk_WebhookInput 500 111 "momo" "ref-2" "evt-2" "payment.captured" "captured"
    (RawJSON (JObj [])) (Some 1) (Some "usd") "" RawEmpty "" "" RawEmpty "" 0 "".
Lemma webhook_rejected_witness :
  wp (CommerceService.ApplyPaymentProviderWebhook (service (demo_externals true)) demo_short_webhook)
    (fun r w' => r = Err ErrWebhookAmountCurrencyMismatch /\ calm NoTx (w_db demo_w2) w') demo_w2.
Proof.
  edestruct demo_open_rows as (pay & ord & Hp & Ho & [] & Hopen & Eo & Ep & Es).
  eapply (webhook_rejected (demo_externals true) demo_short_webhook (demo_prepared demo_short_webhook)
    pay ord).
  - discriminate.
  - by split.
  - apply demo_w_wf.
  - vm_compute. reflexivity.
  - reflexivity.
  - vm_compute. discriminate.
  - by intros e ?%elem_of_nil.
  - exact Hp.
  - exact Ho.
  - by rewrite Ep.
  - by rewrite Eo.
  - vm_compute in Hp, Ho. apply list_elem_of_singleton in Hp as ->, Ho as ->.
    apply rejected_amount; [done|done|]. intros [_ _ Hr _]. by specialize (Hr 1 eq_refl).
Defined.
