(* ===== verification/CallbackLaws.v ===== *)
(** * What a notification of a payment over HTTP does

    A delivery that is not signed where it has to be changes nothing at all; a
    signed one of a capture that is due pays the order, and so does a
    notification in the format of a provider; a notification that reports
    nothing final, or of a payment nobody has, changes no table. *)

From stdpp Require Import gmap.
From S2P Require Import Prelude.
From S2P Require Import GoStd.
From S2P Require Import Sha256.
From S2P Require Import JsonText.
From S2P Require Import Pricing.
From S2P Require Import CommerceTypes.
From S2P Require Import Sanitize.
From S2P Require Import Strconv.
From S2P Require Import Hmac.
From S2P Require Import Evidence.
From S2P Require Import Texts.
From S2P Require Import Snapshot.
From S2P Require Import Rules.
From S2P Require Import PaymentEvents.
From S2P Require Import AdapterCommon.
From S2P Require Import CommerceService.
From S2P Require MoMo.
From S2P Require ZaloPay.
From S2P Require VNPay.
From S2P Require ShopeePay.
From S2P Require Import PaymentRegistry.
From S2P Require Import PaymentLaws.
From S2P Require Import ServiceLaws.
From S2P Require Import Db.
From S2P Require Import Queries.
From S2P Require Import History.
From S2P Require Import PgCommerce.
From S2P Require Import OfflineSale.
From S2P Require Import StoreLaws.
From S2P Require Import Logic.
From S2P Require Import Backend.
From S2P Require Import PaymentCallbacks.
From S2P Require Import Settlement.
From S2P Require Import Webhooks.
Local Open Scope string_scope.
Local Open Scope list_scope.
Local Open Scope Z_scope.

Section Callbacks.
Context `{UuidText} `{UuidParse} (x : Externals) (cfg : WebhookConfig).

(** ** Who may deliver *)

(** The delivery carries a time of the window and its digest under the secret of its provider. *)
Definition signed_delivery (q : HttpCall) (body : string) (now ts : Z) : Prop :=
  blank (TrimSpace (delivery_secret cfg body)) = false /\
  signed (delivery_secret cfg body) (hq_Header q "X-AVF-Webhook-Timestamp")
    (hq_Header q "X-AVF-Webhook-Signature") body (wc_PaymentWebhookTimestampSkew cfg) now ts.
Lemma verify_delivery_ok q body now :
  verify_delivery cfg q body now = inr tt <-> exists ts, signed_delivery q body now ts.
Proof.
  unfold verify_delivery, signed_delivery. split.
  - destruct (blank _); [done|]. destruct (VerifyCommerceWebhookHMAC _ _ _ _ _ _) as [[]|] eqn:E; [|done].
    intros _. apply verified_signed in E as [ts Hs]. by exists ts.
  - intros (ts & -> & Hs). rewrite (proj2 (verified_signed _ _ _ _ _ _)); [done|eauto].
Qed.
Lemma webhook_auth_status e : reply_status (webhook_auth_failed e).2 ∈ [400; 401; 403].
Proof. unfold webhook_auth_failed. destruct (_ || _); cbn; [left|right; left]. Qed.
Lemma verify_delivery_status q body now out :
  verify_delivery cfg q body now = inl out -> reply_status out.2 ∈ [400; 401; 403].
Proof.
  unfold verify_delivery. destruct (blank _).
  - intros [= <-]. cbn. right; right; left.
  - destruct (VerifyCommerceWebhookHMAC _ _ _ _ _ _); [done|]. intros [= <-]. apply webhook_auth_status.
Qed.
Lemma restricted_policy :
  RestrictsUnsignedCommercePaymentWebhooks (wc_AppEnv cfg) = true ->
  wc_PaymentWebhookUnsafeAllowUnsignedProduction cfg = false ->
  webhook_policy cfg = inr (true, "hmac_verified") \/
  exists out, webhook_policy cfg = inl out /\ reply_status out.2 = 403.
Proof.
  intros Hr Hu. unfold webhook_policy. rewrite Hr, Hu. cbn [andb]. destruct (_ || _); [by left|].
  destruct (AllowsUnsignedCommerceWebhooksInDevelopment (wc_AppEnv cfg)) eqn:Ea; [|right; eexists; by split].
  apply one_of_spec in Hr, Ea. rewrite !elem_of_cons, elem_of_nil in Hr, Ea.
  destruct_or! Hr; destruct_or! Ea; congruence.
Qed.

(** C4: In staging and in production, unless the unsafe switch is on, a delivery
    that does not carry, under the secret configured for its provider, the
    digest of its time and body, or whose time is out of the window, is answered
    with 400, 401 or 403 and leaves the whole world as it was, whatever it says
    and whatever fails. *)
Theorem unsigned_delivery_refused q w :
  RestrictsUnsignedCommercePaymentWebhooks (wc_AppEnv cfg) = true ->
  wc_PaymentWebhookUnsafeAllowUnsignedProduction cfg = false ->
  (forall body ts, read_body q = Some body -> ~ signed_delivery q body (time_Unix (w_now w)) ts) ->
  exists outcome reply, commercePublicPaymentWebhookHandler x cfg q w = (Ok (outcome, reply), w) /\
    reply_status reply ∈ [400; 401; 403].
Proof.
  intros Hr Hu Hn. unfold commercePublicPaymentWebhookHandler.
  destruct (restricted_policy Hr Hu) as [->|([outcome reply] & -> & Es)].
  2: { exists outcome, reply. split; [done|]. cbn in Es. rewrite Es. right; right; left. }
  destruct (read_body q) as [body|] eqn:Eb.
  2: { eexists _, _. split; [done|]. left. }
  unfold bind, time_Now, gets. destruct (verify_delivery cfg q body (time_Unix (w_now w))) as [[outcome reply]|[]] eqn:Ev.
  - exists outcome, reply. split; [done|]. by apply verify_delivery_status in Ev.
  - apply verify_delivery_ok in Ev as [ts Hs]. by apply Hn in Hs.
Qed.

(** ** A signed delivery *)

(** A delivery the handler takes to the service: its path names a payment and
    its order, and its body is an event. *)
Record delivery_of (q : HttpCall) (body : string) (wh : CommerceWebhookEventJSON) (pay : Payment) (ord : Order)
    (d : pgdb) : Prop := mk_delivery_of {
  dv_body : read_body q = Some body;
  dv_order : uuid_Parse (TrimSpace (hq_orderId q)) = Some (o_ID ord);
  dv_payment : uuid_Parse (TrimSpace (hq_paymentId q)) = Some (p_ID pay);
  dv_event : decode_event body = Ok wh;
  dv_provider : blank (TrimSpace (wj_Provider wh)) = false;
  dv_pay : pay ∈ d_payments d; dv_ord : ord ∈ d_orders d; dv_of : p_OrderID pay = o_ID ord }.

Lemma wp_or_reply {A} (m : M world A) refuse k (Q : res handled -> world -> Prop) w :
  wp m (fun r w' => match r with Ok a => wp (k a) Q w' | Err e => wp (refuse e) Q w' end) w ->
  wp (or_reply m refuse k) Q w.
Proof.
  intros Hm. unfold or_reply. apply wp_bind, wp_attempt. eapply wp_mono; [|exact Hm]. by intros [a|e] w'.
Qed.
(** What the service answers is what the handler goes on with. *)
Lemma wp_apply_delivery q body wh pay ord vstat d w (Q : res handled -> world -> Prop) :
  calm NoTx d w -> wf d -> delivery_of q body wh pay ord d ->
  (forall w', calm NoTx d w' ->
     wp (CommerceService.ApplyPaymentProviderWebhook (service x)
           (webhook_input cfg (o_ID ord) (p_ID pay) wh vstat))
       (fun r w'' => match r with
                     | Ok r => wp (apply_accepted x ord (p_ID pay) wh r) Q w''
                     | Err e => wp (apply_refused x ord (p_ID pay) wh e) Q w''
                     end) w') ->
  wp (apply_delivery x cfg q body vstat) Q w.
Proof.
  intros Hc Hw [_ Eo Ep Ee Hb Hp Ho Eof] HQ. unfold apply_delivery. rewrite Eo, Ep.
  apply wp_or_reply. eapply (wp_found _ NoTx d w); [done..| |].
  { apply (find_by_id p_ID); [apply (wp_ids _ _ (wf_p _ Hw))|done]. }
  clear w Hc. intros w Hc. rewrite Eof, N.eqb_refl. cbn [negb]. apply wp_or_reply.
  eapply (wp_found _ NoTx d w); [done..| |].
  { apply (find_by_id o_ID); [apply (wo_ids _ _ (wf_o _ Hw))|done]. }
  clear w Hc. intros w Hc. rewrite Ee, Hb. by apply wp_or_reply, HQ.
Qed.


(** ** Notifications in the format of a provider *)

Lemma wp_lookup reference row d w (Q : res bool -> world -> Prop) event status :
  calm NoTx d w -> TrimSpace (wj_ProviderReference event) = reference -> blank reference = false ->
  payment_by_reference reference d = Some row ->
  (forall w', calm NoTx d w' ->
     let state := if blank (ToLower (TrimSpace status)) then ToLower (TrimSpace (wj_NormalizedPaymentState event))
                  else ToLower (TrimSpace status) in
     wp (if negb (one_of state ["captured"; "failed"]) then ret false
         else let! _ := CommerceService.ApplyPaymentProviderWebhook (service x)
                          (native_input cfg event state reference row) in ret true) Q w') ->
  wp (applyNativePSPWebhook x cfg event status) Q w.
Proof.
  intros Hc <- Hb Hrow HQ. unfold applyNativePSPWebhook. apply wp_bind, wp_guard; [congruence|intros _].
  apply wp_bind, wp_attempt. eapply (wp_found _ NoTx d w); [done..|]. intros w' Hc'. by apply HQ.
Qed.

(** What a notification of a capture has to meet: its reference is that of an
    attempt, whose payment and order are the ones the capture is due for. *)
Record native_capture (event : CommerceWebhookEventJSON) (row : PaymentByProviderRef)
    (j : ApplyPaymentProviderWebhookInput) (pay : Payment) (ord : Order) (d : pgdb) : Prop := mk_native_capture {
  nc_reference : blank (TrimSpace (wj_ProviderReference event)) = false;
  nc_row : payment_by_reference (TrimSpace (wj_ProviderReference event)) d = Some row;
  nc_due : capture_due x (native_input cfg event "captured" (TrimSpace (wj_ProviderReference event)) row)
             j pay ord d }.

Lemma wp_native_capture event row j pay ord success failure d w :
  calm NoTx d w -> wf d -> native_capture event row j pay ord d ->
  wp (handleNativePSPWebhookResponse x cfg event "captured" success failure) (fun r w' =>
    r = Ok success /\ exists now ev att d', calm NoTx d' w' /\ captured_tables j pay ord now ev att d d') w.
Proof.
  intros Hc Hw [Hb Hrow Hdue]. unfold handleNativePSPWebhookResponse. apply wp_bind, wp_attempt.
  eapply wp_lookup; [exact Hc|done..|]. clear w Hc. intros w Hc. cbn zeta.
  change (ToLower (TrimSpace "captured")) with "captured". cbn [blank String.eqb one_of existsb negb].
  apply wp_bind. eapply wp_capture_delivery; [exact Hc|done..|]. intros now ev att d' w' Hc' Ht.
  split; [done|]. by exists now, ev, att, d'.
Qed.

(** A call of one of the four routes that the adapter of its provider reads as
    a capture: the handler, the event, and the answer the provider waits for. *)
Inductive capture_notified (reg : Registry) (q : HttpCall)
    : M world Reply -> CommerceWebhookEventJSON -> Reply -> Prop :=
| by_momo p body ref trans event :
    read_body q = Some body -> Get reg "momo" = Some (AMoMo p) ->
    MoMo.VerifyAndParseIPN p body = Ok (ref, "captured", trans, event) ->
    capture_notified reg q (MoMoNativeIPNHandler x reg cfg q) event (momo_reply 200 "Success" 0)
| by_zalopay p body ref trans event :
    read_body q = Some body -> Get reg "zalopay" = Some (AZaloPay p) ->
    ZaloPay.VerifyAndParseCallback p body = Ok (ref, "captured", trans, event) ->
    capture_notified reg q (ZaloPayNativeCallbackHandler x reg cfg q) event (zalopay_reply 200 1 "success")
| by_shopeepay p body ref trans event :
    read_body q = Some body -> Get reg "shopeepay" = Some (AShopeePay p) ->
    ShopeePay.VerifyAndParseCallback p body (TrimSpace (hq_Header q "X-Airpay-ClientId"))
      (TrimSpace (hq_Header q "X-Airpay-Req-H")) (shopeeCallbackClientIP q (ShopeePay.sp_trustProxy p)) =
      Ok (ref, "captured", trans, event) ->
    capture_notified reg q (ShopeePayNativeCallbackHandler x reg cfg q) event (shopee_reply 200 0 "success")
| by_vnpay p event :
    Get reg "vnpay" = Some (AVNPay p) -> VNPay.ParseReturnQuery (ParseQuery (hq_Query q)) = Ok event ->
    wj_NormalizedPaymentState event = "captured" ->
    capture_notified reg q (VNPayNativeReturnHandler x reg cfg q) event (vnpay_reply 200 "00" "Confirm Success").


(** The case of a reference nobody has is refused by the table of the cases. *)
Lemma lookup_miss_refused event reference d w (Q : res ReconciliationCase -> world -> Prop) :
  calm NoTx d w -> (forall e w', calm NoTx d w' -> Q (Err e) w') ->
  wp (UpsertReconciliationCase (lookup_miss_case event reference)) Q w.
Proof.
  intros Hc HQ. unfold UpsertReconciliationCase, UpsertCommerceReconciliationCase.
  eapply wp_stmt; [exact Hc|done|..]; cbn [rci_CaseType lookup_miss_case].
  - intros now id a d' w' _. by destruct (one_of _ _) eqn:E.
  - intros now id d' w' _. by destruct (one_of _ _) eqn:E.
  - intros now id e w' _ _ Hc'. by apply HQ.
Qed.

(** A notification that reports no final state is acknowledged, and one whose
    reference no attempt has is answered with "order not found"; neither changes
    any table, and the case that is meant to record the second is not recorded. *)
Theorem native_unapplied_keeps event status success failure d w :
  calm NoTx d w -> blank (TrimSpace (wj_ProviderReference event)) = false ->
  let row := payment_by_reference (TrimSpace (wj_ProviderReference event)) d in
  let state := if blank (ToLower (TrimSpace status)) then ToLower (TrimSpace (wj_NormalizedPaymentState event))
               else ToLower (TrimSpace status) in
  row = None \/ state ∉ ["captured"; "failed"] ->
  wp (handleNativePSPWebhookResponse x cfg event status success failure) (fun r w' =>
    r = Ok (if is_none row then failure "order not found" else success) /\ calm NoTx d w') w.
Proof.
  intros Hc Hb. cbn zeta. set (row := payment_by_reference _ d).
  intros Hcase. unfold handleNativePSPWebhookResponse. apply wp_bind, wp_attempt.
  destruct row as [r|] eqn:Erow; cbn [is_none].
  - destruct Hcase as [|Hs]; [done|]. eapply wp_lookup; [exact Hc|done..|]. clear w Hc. intros w Hc. cbn zeta.
    destruct (one_of _ _) eqn:E; [by apply one_of_spec in E|]. done.
  - unfold applyNativePSPWebhook. apply wp_bind, wp_guard; [congruence|intros _].
    apply wp_bind, wp_attempt. eapply (wp_missing _ NoTx d w); [done..|]. clear w Hc. intros w Hc.
    rewrite isNoRows_ErrNoRows. apply wp_bind, wp_ignore. eapply lookup_miss_refused; [exact Hc|]. done.
Qed.
End Callbacks.
