(* ===== verification/Orders.v ===== *)
(** * Orders and payments

    Creating an order and its payment, and their replays. *)

From S2P Require Import Prelude.
From S2P Require Import GoStd.
From S2P Require Import Pricing.
From S2P Require Import CommerceTypes.
From S2P Require Import Sanitize.
From S2P Require Import Evidence.
From S2P Require Import Snapshot.
From S2P Require Import Rules.
From S2P Require Import CommerceService.
From S2P Require Import ServiceLaws.
From S2P Require Import Db.
From S2P Require Import Queries.
From S2P Require Import History.
From S2P Require Import PgCommerce.
From S2P Require Import Fulfillment.
From S2P Require Import StoreLaws.
From S2P Require Import Logic.
From S2P Require Import Backend.
From S2P Require Import Scenario.
From S2P Require Import Settlement.
From S2P Require Import Webhooks.
Local Open Scope string_scope.
Local Open Scope list_scope.
Local Open Scope Z_scope.

(** ** A new order *)

Lemma find_key_None {A} (key : A -> option string) (p : A -> bool) k l :
  (forall x, x ∈ l -> key x <> Some k) ->
  List.find (fun x => p x && sql_text_eq (key x) (Some k)) l = None.
Proof.
  intros H. apply find_None_elem. intros x Hx. apply andb_false_iff. right.
  apply not_true_is_false. rewrite sql_text_eq_spec. by apply H.
Qed.
Lemma optional_text s : blank (TrimSpace s) = false -> optionalStringToPgText s = Some (TrimSpace s).
Proof. intros H. unfold optionalStringToPgText. by rewrite H. Qed.

(** The key an order gets, and no row that stands in its way. *)
Definition free_order_id (i : CreateOrderVendInput) (n : N) (d : pgdb) : Prop :=
  forall fresh, (n <= fresh)%N ->
    default fresh (uuidPtrToPgUUID (cov_OrderID i)) ∉ map o_ID (d_orders d).
Record order_room (i : CreateOrderVendInput) (n : N) (d : pgdb) : Prop := mk_order_room {
  or_machine : cov_MachineID i ∈ tp_Machines (d_topo d);
  or_key : forall o, o ∈ d_orders d -> o_IdempotencyKey o <> Some (TrimSpace (cov_IdempotencyKey i));
  or_id : free_order_id i n d;
  or_vends : forall v id, v ∈ d_vends d -> (n <= id)%N -> v_ID (vr_Session v) <> id }.
(** An input the constraints of the tables accept. *)
Record order_valid (i : CreateOrderVendInput) (source : string) : Prop := mk_order_valid {
  ov_key : blank (TrimSpace (cov_IdempotencyKey i)) = false;
  ov_source : resolvePricingSourceForOrderPersist (cov_PricingSource i)
    (hasMachinePricingEvidence (cov_MachinePricingRevision i) (cov_MachinePricingSnapshot i)) = Ok source;
  ov_supported : one_of source supportedPricingSources = true;
  ov_status : one_of (cov_OrderStatus i) orderStatuses = true;
  ov_vend : one_of (cov_VendState i) vendStates = true;
  ov_amounts : 0 <= cov_SubtotalMinor i /\ 0 <= cov_TaxMinor i /\ 0 <= cov_TotalMinor i;
  ov_currency : len (cov_Currency i) <= 3 }.

Definition vend_of_input (i : CreateOrderVendInput) (order id : N) (now : Z) : VendRow :=
  mk_VendRow (mk_VendSession id order (cov_MachineID i) (cov_SlotIndex i) (cov_ProductID i)
    (cov_VendState i) None (cov_Simulated i) (optionalStringToPgText (cov_SimulationRunID i))
    (optionalStringToPgText (cov_SimulationScenario i)) now) 1 None None None "unverified" None.

(** The constraints on a new order. *)
Lemma order_insert_ok_fresh o d :
  o_MachineID o ∈ tp_Machines (d_topo d) -> one_of (o_Status o) orderStatuses = true ->
  one_of (o_PricingSource o) supportedPricingSources = true ->
  0 <= o_SubtotalMinor o -> 0 <= o_TaxMinor o -> 0 <= o_TotalMinor o -> len (o_Currency o) <= 3 ->
  o_ID o ∉ map o_ID (d_orders d) ->
  (forall x, x ∈ d_orders d -> sql_text_eq (o_IdempotencyKey x) (o_IdempotencyKey o) = false) ->
  order_insert_ok o d = Ok tt.
Proof.
  intros Hm Hst Hsrc H1 H2 H3 Hcur Hid Hkey. unfold order_insert_ok, order_row_ok.
  rewrite (fk_elem (fun x => x)) by (rewrite map_id; exact Hm). cbn [res_bind].
  rewrite (check_true _ _ Hst). cbn [res_bind]. rewrite check_true.
  2: { by rewrite !andb_true_iff, !Z.leb_le. }
  cbn [res_bind]. rewrite (check_true _ _ Hsrc). cbn [res_bind]. unfold char3.
  rewrite (proj2 (Z.ltb_ge 3 _) Hcur). cbn [guard_err res_bind]. rewrite unique_fresh; cbn [res_bind].
  - apply unique_fresh. intros x Hx. rewrite Hkey by done. apply andb_false_r.
  - intros x Hx. apply N.eqb_neq. intros E. apply Hid. rewrite <- E. apply list_elem_of_fmap. eauto.
Qed.
(** A key that is on no order. *)
Lemma text_key_free (x : Order) key :
  blank (TrimSpace key) = false -> o_IdempotencyKey x <> Some (TrimSpace key) ->
  sql_text_eq (o_IdempotencyKey x) (optionalStringToPgText key) = false.
Proof.
  intros Hk Hx. rewrite optional_text by done. apply not_true_is_false. by rewrite sql_text_eq_spec.
Qed.
Lemma order_insert_ok_new i source n d now id :
  order_room i n d -> order_valid i source -> (n <= id)%N ->
  order_insert_ok (order_of_input i source now (default id (uuidPtrToPgUUID (cov_OrderID i)))) d = Ok tt.
Proof.
  intros [Hm Hk Hi _] [Hkey _ Hsrc Hst _ (H1 & H2 & H3) Hcur] Hid.
  apply order_insert_ok_fresh; try done; [by apply Hi|]. intros x Hx. apply text_key_free; [done|by apply Hk].
Qed.
Lemma vend_insert_ok_new i order n d now id :
  order ∈ map o_ID (d_orders d) -> one_of (cov_VendState i) vendStates = true -> (n <= id)%N ->
  (forall v id, v ∈ d_vends d -> (n <= id)%N -> v_ID (vr_Session v) <> id) ->
  (forall v, v ∈ d_vends d -> v_OrderID (vr_Session v) <> order) ->
  vend_insert_ok (vend_of_input i order id now) d = Ok tt.
Proof.
  intros Ho Hs Hid Hfr Hno. unfold vend_insert_ok. cbn [vr_Session vend_of_input v_OrderID v_State v_ID].
  rewrite (fk_elem o_ID _ _ _ Ho), (check_true _ _ Hs). cbn [res_bind]. rewrite unique_fresh; cbn [res_bind].
  - apply unique_fresh. intros v Hv. apply andb_false_iff. left. apply N.eqb_neq. by apply Hno.
  - intros v Hv. apply N.eqb_neq. by apply (Hfr v id).
Qed.

Lemma wp_find_or_insert_new i source n d w (Q : res (Order * bool) -> world -> Prop) :
  calm_from n InTx d w -> wf d -> order_room i n d -> order_valid i source ->
  (forall now id w', (n <= id)%N ->
     let o := order_of_input i source now (default id (uuidPtrToPgUUID (cov_OrderID i))) in
     wf (set_orders (fun l => l ++ [o]) d) ->
     calm_from n InTx (set_orders (fun l => l ++ [o]) d) w' -> Q (Ok (o, true)) w') ->
  wp (find_or_insert_order i) Q w.
Proof.
  intros Hc Hw Hroom Hv HQ. unfold find_or_insert_order. wp_go.
  rewrite (optional_text _ (ov_key _ _ Hv)).
  eapply (wp_missing n InTx d w); [done..|apply find_key_None; apply Hroom|].
  intros w1 Hc1. wp_go. rewrite (ov_source _ _ Hv). wp_go.
  eapply wp_with_savepoint; [exact Hc1|]. intros w2 Hc2. unfold InsertOrder.
  eapply (wp_stmt _ n InTx d w2); [exact Hc2|done|..].
  - intros now id a d' w3 Hid E Hc3. pose proof (order_insert_ok_new i source n d now id Hroom Hv Hid) as Hok.
    assert (wf d') as Hw'.
    { pose proof (InsertOrder_safe (uuidPtrToPgUUID (cov_OrderID i)) (order_of_input i source)
        ltac:(done) now id d (Some a) d' E) as [_ Hs]. by apply Hs. }
    unfold insert_row in E. rewrite Hok in E. injection E as <- <-.
    eexists. split; [exact Hc3|]. intros w4 Hc4. wp_go. by eapply HQ.
  - intros now id d' w3 Hid E. unfold insert_row in E. by destruct (order_insert_ok _ _).
  - intros now id e w3 Hid E. unfold insert_row in E.
    by rewrite (order_insert_ok_new i source n d now id Hroom Hv Hid) in E.
Qed.

Lemma wp_create_new i source n d w (Q : res CreateOrderVendResult -> world -> Prop) :
  calm_from n NoTx d w -> wf d -> order_room i n d -> order_valid i source ->
  (forall now id1 now2 id2 w', (n <= id1)%N ->
     let o := order_of_input i source now (default id1 (uuidPtrToPgUUID (cov_OrderID i))) in
     let v := vend_of_input i (o_ID o) id2 now2 in
     wf (set_vends (fun l => l ++ [v]) (set_orders (fun l => l ++ [o]) d)) ->
     calm_from n NoTx (set_vends (fun l => l ++ [v]) (set_orders (fun l => l ++ [o]) d)) w' ->
     Q (Ok (mk_CreateOrderVendResult o (vr_Session v) false)) w') ->
  wp (CreateOrderWithVendSession i) Q w.
Proof.
  intros Hc Hw Hroom Hv HQ. unfold CreateOrderWithVendSession.
  destruct (String.eqb_spec (cov_IdempotencyKey i) "") as [E|_].
  { exfalso. pose proof (ov_key _ _ Hv) as Hk. by rewrite E in Hk. }
  eapply wp_with_tx; [exact Hc|]. clear w Hc. intros w Hc. wp_go.
  eapply wp_find_or_insert_new; [done..|]. clear w Hc. intros now id w Hid o Hw1 Hc. wp_go.
  assert (Hno : forall v, v ∈ d_vends d -> v_OrderID (vr_Session v) <> o_ID o).
  { intros v Hv' E. apply (or_id _ _ _ Hroom id Hid).
    pose proof (wv_order _ _ (wf_v _ Hw) v Hv') as Hin. cbn in Hin. by rewrite E in Hin. }
  eapply (wp_missing n InTx _ w); [exact Hc|done|..].
  { apply find_None_elem. intros v Hv'. apply andb_false_iff. left. apply N.eqb_neq. by apply Hno. }
  clear w Hc. intros w Hc. wp_go.
  eapply (wp_inserted n InTx _ w); [exact Hc|done|exact Hw1|apply InsertVendSession_safe|..].
  { intros now2 id2 Hid2. eapply (vend_insert_ok_new i); [|apply Hv|exact Hid2|apply Hroom|exact Hno].
    cbn. rewrite map_app. apply elem_of_app. right. by apply list_elem_of_singleton. }
  clear w Hc. intros now2 id2 w Hw2 Hc. wp_go. left. eexists. split; [exact Hc|].
  clear w Hc. intros w Hc. rewrite mapOrder_id, mapVendFields_id.
  by apply (HQ now id now2 id2).
Qed.

Section Creating.
Context `{UuidText} `{Sha256} (x : Externals).

(** The input the service hands to the store for what it priced. *)
Definition order_input (i : CreateOrderInput) (line : ResolvedSaleLine) (source : string)
    (revision : option Z) (snapshot : option json) : CreateOrderVendInput :=
  mk_CreateOrderVendInput (co_MachineID i) (co_ProductID i) (sl_SlotIndex line)
    (ToUpper (TrimSpace (co_Currency i))) (sl_SubtotalMinor line) (sl_TaxMinor line)
    (sl_TotalMinor line) (TrimSpace (co_IdempotencyKey i)) "created" "pending" (co_Simulated i)
    (TrimSpace (co_SimulationRunID i)) (TrimSpace (co_SimulationScenario i)) (co_FakeBill i)
    (co_FakeBoard i) source revision snapshot (co_ClientOrderID i) (co_CreatedAt i).
Definition priced_input (i : CreateOrderInput) (line : ResolvedSaleLine) : CreateOrderVendInput :=
  order_input i line PricingSourceServerPriced None None.
Lemma supported_source source evidence :
  one_of source supportedPricingSources = true ->
  resolvePricingSourceForOrderPersist source evidence = Ok source.
Proof.
  intros Hs. unfold resolvePricingSourceForOrderPersist, validatePricingSourceForPersist.
  assert (Hin : source ∈ supportedPricingSources) by by apply one_of_spec.
  unfold supportedPricingSources in Hin. rewrite !elem_of_cons, elem_of_nil in Hin.
  destruct Hin as [->|[->|[->|[]]]]; vm_compute; done.
Qed.

Lemma validateCreateOrder_inv i :
  validateCreateOrder i = Ok tt ->
  co_MachineID i <> uuid_Nil /\ blank (TrimSpace (co_IdempotencyKey i)) = false /\
  len (ToUpper (TrimSpace (co_Currency i))) = 3.
Proof.
  unfold validateCreateOrder, bad_currency. intros H'.
  repeat match type of H' with
  | res_bind (guard_err ?b _) _ = _ =>
      let G := fresh "G" in destruct b eqn:G; [discriminate|cbn [res_bind guard_err] in H']
  end.
  apply orb_false_iff in G as [G _]. apply orb_false_iff in G1 as [G1 _].
  split_and!; [by apply N.eqb_neq|done|]. apply negb_false_iff in G1. by apply Z.eqb_eq.
Qed.

Lemma wp_try_replay_None m key n d w (Q : res (option CreateOrderVendResult) -> world -> Prop) t :
  calm_from n t d w -> t <> Aborted -> m <> uuid_Nil -> blank (TrimSpace key) = false ->
  (forall o, o ∈ d_orders d -> o_IdempotencyKey o <> Some (TrimSpace key)) ->
  (forall w', calm_from n t d w' -> Q (Ok None) w') -> wp (TryReplayCreateOrderWithVend m key) Q w.
Proof.
  intros Hc Ht Hm Hk Hno HQ. unfold TryReplayCreateOrderWithVend.
  apply N.eqb_neq in Hm. rewrite Hk, Hm. cbn [orb]. wp_go.
  rewrite optional_text by (by rewrite TrimSpace_idemp). rewrite TrimSpace_idemp.
  eapply (wp_missing n t d w); [done..|by apply find_key_None|]. intros w1 Hc1. wp_go. by apply HQ.
Qed.

Lemma wp_create_order i line source revision snapshot n d w (Q : res CreateOrderResult -> world -> Prop) :
  (forall w', calm_from n NoTx d w' -> w_now w' = w_now w ->
     wp (price_order (service x) i) (fun r w'' =>
       r = Ok (line, source, revision, snapshot) /\ calm_from n NoTx d w'') w') ->
  calm_from n NoTx d w -> wf d -> validateCreateOrder i = Ok tt ->
  one_of source supportedPricingSources = true ->
  order_room (order_input i line source revision snapshot) n d ->
  0 <= sl_SubtotalMinor line -> 0 <= sl_TaxMinor line -> 0 <= sl_TotalMinor line ->
  (forall now id1 now2 id2 w', (n <= id1)%N ->
    let o := order_of_input (order_input i line source revision snapshot) source now
               (default id1 (uuidPtrToPgUUID (co_ClientOrderID i))) in
    let v := vend_of_input (order_input i line source revision snapshot) (o_ID o) id2 now2 in
    let d' := set_vends (fun l => l ++ [v]) (set_orders (fun l => l ++ [o]) d) in
    wf d' -> calm_from n NoTx d' w' ->
    Q (Ok (mk_CreateOrderResult (mk_CreateOrderVendResult o (vr_Session v) false) line)) w') ->
  wp (CreateOrder (service x) i) Q w.
Proof.
  intros Hprice Hc Hw Hv Hsrc Hroom H1 H2 H3 HQ. pose proof (validateCreateOrder_inv i Hv) as (Hm & Hk & Hcur).
  unfold CreateOrder. wp_go. rewrite Hv. wp_go. cbn [sv_orders service ow_TryReplay].
  apply wp_clock; [unfold TryReplayCreateOrderWithVend; evolve|].
  eapply wp_try_replay_None; [exact Hc|done|done|by rewrite TrimSpace_idemp|apply Hroom|].
  intros w1 Hc1 Ht. wp_go. eapply wp_mono; [|by apply Hprice]. clear w Hc Hprice Ht w1 Hc1. intros r w [-> Hc].
  wp_go. cbn [ow_CreateOrderWithVendSession]. fold (order_input i line source revision snapshot).
  assert (Hval : order_valid (order_input i line source revision snapshot) source).
  { split; try done; cbn [cov_IdempotencyKey cov_Currency order_input];
      [by rewrite TrimSpace_idemp|by apply supported_source|by rewrite Hcur]. }
  eapply wp_create_new; [exact Hc|done|exact Hroom|exact Hval|].
  clear w Hc. intros now id1 now2 id2 w Hid o v Hw' Hc. wp_go. by eapply HQ.
Qed.

(** A new key creates exactly one order and one pending vend session, with the amounts of the
    line the server priced, the caller's currency and key, and status "created"; nothing else
    changes. *)
Theorem create_order_new i line n d w :
  (forall n t d w, calm_from n t d w ->
     wp (slr_ResolveSaleLine world (ex_saleLines x) (selector_of i))
       (fun r w' => r = Ok line /\ calm_from n t d w') w) ->
  calm_from n NoTx d w -> wf d -> validateCreateOrder i = Ok tt -> co_PricingSnapshot i = None ->
  order_room (priced_input i line) n d ->
  0 <= sl_SubtotalMinor line -> 0 <= sl_TaxMinor line -> 0 <= sl_TotalMinor line ->
  wp (CreateOrder (service x) i) (fun r w' => exists now id1 now2 id2,
    let o := order_of_input (priced_input i line) "server_priced" now
               (default id1 (uuidPtrToPgUUID (co_ClientOrderID i))) in
    let v := vend_of_input (priced_input i line) (o_ID o) id2 now2 in
    r = Ok (mk_CreateOrderResult (mk_CreateOrderVendResult o (vr_Session v) false) line) /\
    calm_from n NoTx (set_vends (fun l => l ++ [v]) (set_orders (fun l => l ++ [o]) d)) w') w.
Proof.
  intros Hres Hc Hw Hv Hsnap Hroom H1 H2 H3. eapply (wp_create_order i line PricingSourceServerPriced None None); [|done..|].
  - intros w' Hc' _. unfold price_order. rewrite Hsnap. wp_go. cbn [sv_saleLines service].
    eapply wp_mono; [|by apply Hres]. intros r w'' [-> Hc'']. by wp_go.
  - intros now id1 now2 id2 w' _ o v d' _ Hc'. by exists now, id1, now2, id2.
Qed.

(** ** An order on record *)

Lemma in_order_elem {A} (at_ : A -> Z) l y : y ∈ in_order at_ l <-> y ∈ l.
Proof. apply elem_of_stable_sort. Qed.
Lemma first_vend d o v :
  v ∈ d_vends d -> v_OrderID (vr_Session v) = o -> exists v', v' ∈ d_vends d /\
    v_OrderID (vr_Session v') = o /\
    head (in_order (fun v => v_CreatedAt (vr_Session v)) (List.filter (by_order o) (d_vends d))) = Some v'.
Proof.
  intros Hv Eo. destruct (in_order _ _) as [|v' l] eqn:E.
  - exfalso. assert (Hin : v ∈ in_order (fun v => v_CreatedAt (vr_Session v)) (List.filter (by_order o) (d_vends d))).
    { apply in_order_elem, elem_of_filter_bool. split; [done|]. by apply N.eqb_eq. }
    rewrite E in Hin. by apply elem_of_nil in Hin.
  - exists v'. assert (Hin : v' ∈ v' :: l) by left. rewrite <- E in Hin.
    apply in_order_elem, elem_of_filter_bool in Hin as [Hin Eo'%N.eqb_eq]. done.
Qed.
Lemma find_order_key d o m k :
  wf d -> o ∈ d_orders d -> o_MachineID o = m -> o_IdempotencyKey o = Some k ->
  blank (TrimSpace k) = false ->
  List.find (fun o => (o_MachineID o =u m) && sql_text_eq (o_IdempotencyKey o) (Some k)) (d_orders d) = Some o.
Proof.
  intros Hw Ho Em Ek Hb. destruct (List.find _ _) as [o'|] eqn:E.
  - apply find_Some_elem in E as [Ho' [_ Es%sql_text_eq_spec]%andb_true_iff]. f_equal.
    eapply unique_on_same; [apply (wo_keys _ _ (wf_o _ Hw))|done|done| |];
      unfold order_key, text_key, keyed; rewrite Es, ?Ek; cbn; by rewrite Hb.
  - rewrite find_None_elem in E. specialize (E o Ho). by rewrite Em, Ek, N.eqb_refl, sql_text_eq_refl in E.
Qed.

(** A key the machine has used answers with the order on record and its first vend session,
    marked as a replay, priced as the order is, and changes no table. *)
Theorem create_order_replayed i o v n d w :
  (forall c m p sl, evolves quiet (slr_LookupSlotDisplay world (ex_saleLines x) c m p sl)) ->
  calm_from n NoTx d w -> wf d -> validateCreateOrder i = Ok tt ->
  o ∈ d_orders d -> o_MachineID o = co_MachineID i ->
  o_IdempotencyKey o = Some (TrimSpace (co_IdempotencyKey i)) ->
  v ∈ d_vends d -> v_OrderID (vr_Session v) = o_ID o ->
  validateReplayPricingSnapshot (co_PricingSnapshot i) o = Ok tt ->
  wp (CreateOrder (service x) i) (fun r w' => calm_from n NoTx d w' /\ exists v' line,
    v' ∈ d_vends d /\ v_OrderID (vr_Session v') = o_ID o /\
    sl_TotalMinor line = o_TotalMinor o /\ sl_SubtotalMinor line = o_SubtotalMinor o /\
    r = Ok (mk_CreateOrderResult (mk_CreateOrderVendResult o (vr_Session v') true) line)) w.
Proof.
  intros Hdisp Hc Hw Hv Ho Em Ek Hvd Evo Hsnap. pose proof (validateCreateOrder_inv i Hv) as (Hm & Hk & _).
  destruct (first_vend d (o_ID o) v Hvd Evo) as (v' & Hv' & Evo' & Hhead).
  unfold CreateOrder. wp_go. rewrite Hv. wp_go. cbn [sv_orders service ow_TryReplay].
  unfold TryReplayCreateOrderWithVend. apply N.eqb_neq in Hm.
  rewrite !TrimSpace_idemp, Hk, Hm. cbn [orb]. wp_go.
  rewrite optional_text by (by rewrite TrimSpace_idemp). rewrite TrimSpace_idemp.
  eapply (wp_found n NoTx d w); [done..|apply find_order_key; try done; by rewrite TrimSpace_idemp|].
  clear w Hc. intros w Hc. wp_go. eapply (wp_found n NoTx d w); [done..|exact Hhead|].
  clear w Hc. intros w Hc. wp_go. rewrite mapOrder_id, mapVendFields_id. unfold create_order_replay.
  cbn [sv_saleLines service cor_Order cor_Vend]. wp_go. eapply wp_quiet; [apply Hdisp|exact Hc|].
  clear w Hc. intros r w Hc. wp_go. rewrite Hsnap. wp_go. split; [done|].
  exists v'. destruct r as [l|e]; (eexists; split; [exact Hv'|]); by repeat split.
Qed.
End Creating.

(** ** Payments *)

Section Paying.
Context `{UuidText} `{Sha256} (x : Externals).

(** The input of the store. *)
Definition payment_input (i : StartPaymentInput) : PaymentOutboxInput :=
  mk_PaymentOutboxInput (sp_OrderID i) (TrimSpace (sp_Provider i)) (sp_PaymentState i)
    (sp_AmountMinor i) (ToUpper (TrimSpace (sp_Currency i))) (TrimSpace (sp_IdempotencyKey i))
    (TrimSpace (sp_OutboxTopic i)) (TrimSpace (sp_OutboxEventType i)) (sp_OutboxPayload i)
    (TrimSpace (sp_OutboxAggregateType i)) (sp_OutboxAggregateID i)
    (TrimSpace (sp_OutboxIdempotencyKey i)) (sp_Simulated i) (TrimSpace (sp_SimulationRunID i))
    (TrimSpace (sp_SimulationScenario i)) (sp_FakeBill i) (sp_FakeBoard i) (sp_AttemptSeq i)
    (sp_SupersedesPaymentID i) (sp_BindAttemptState i) (sp_BindProviderReference i)
    (sp_BindPayload i).

Lemma validateStartPayment_inv i :
  validateStartPayment i = Ok tt ->
  sp_PaymentState i ∈ paymentStates /\ 0 <= sp_AmountMinor i /\
  len (ToUpper (TrimSpace (sp_Currency i))) = 3 /\
  blank (TrimSpace (sp_IdempotencyKey i)) = false /\
  blank (TrimSpace (sp_OutboxIdempotencyKey i)) = false.
Proof.
  unfold validateStartPayment, bad_currency. intros H'.
  repeat match type of H' with
  | res_bind (guard_err ?b _) _ = _ =>
      let G := fresh "G" in destruct b eqn:G; [discriminate|cbn [res_bind guard_err] in H']
  end.
  apply orb_false_iff in G3 as [G3 _]. apply orb_false_iff in G4 as [G4 G4'].
  split_and!; [by apply one_of_spec, negb_false_iff|by apply Z.ltb_ge| |done|done].
  apply negb_false_iff in G3. by apply Z.eqb_eq.
Qed.

(** The attempts bound to a new payment. *)
Definition bound_attempts (i : PaymentOutboxInput) (pay : N) (t : Z) (id : N) : list AttemptRow :=
  if blank (TrimSpace (poi_BindAttemptState i)) then []
  else [mk_AttemptRow id pay (optionalStringToPgText (poi_BindProviderReference i))
          (TrimSpace (poi_BindAttemptState i)) (RequiredString (poi_BindPayload i)) t].
(** No row stands in the way of a payment. *)
Record payment_room (i : PaymentOutboxInput) (n : N) (d : pgdb) : Prop := mk_payment_room {
  pr_order : poi_OrderID i ∈ map o_ID (d_orders d);
  pr_key : forall p, p ∈ d_payments d -> p_OrderID p = poi_OrderID i ->
    p_IdempotencyKey p <> Some (TrimSpace (poi_IdempotencyKey i));
  pr_ids : forall p id, p ∈ d_payments d -> (n <= id)%N -> p_ID p <> id;
  pr_seq : next_attempt_seq (poi_OrderID i) d <= MaxInt32;
  pr_outbox : fresh_outbox (poi_OutboxTopic i) (optionalStringToPgText (poi_OutboxIdempotencyKey i)) d }.

Lemma next_attempt_seq_pos o d : 1 <= next_attempt_seq o d.
Proof.
  unfold next_attempt_seq. assert (0 <= foldr (fun p m => Z.max (p_AttemptSeq p) m) 0 (payments_of o d)); [|lia].
  induction (payments_of o d); cbn; lia.
Qed.
Lemma payment_insert_ok_new i n d now id :
  payment_room i n d -> poi_PaymentState i ∈ paymentStates -> 0 <= poi_AmountMinor i ->
  len (poi_Currency i) <= 3 -> blank (TrimSpace (poi_IdempotencyKey i)) = false -> (n <= id)%N ->
  payment_insert_ok (payment_of_input i (next_attempt_seq (poi_OrderID i) d) now id) d = Ok tt.
Proof.
  intros [Ho Hk Hi _ _] Hs Ha Hc Hb Hid. unfold payment_insert_ok, payment_update_ok.
  cbn [p_OrderID p_State p_Outcome p_AmountMinor p_AttemptSeq p_Currency p_ID p_IdempotencyKey payment_of_input].
  rewrite (fk_elem o_ID _ _ _ Ho). apply one_of_spec in Hs. rewrite (check_true _ _ Hs). cbn [res_bind].
  rewrite check_true by reflexivity. cbn [res_bind].
  rewrite check_true by by apply Z.leb_le. cbn [res_bind].
  rewrite check_true by (apply Z.leb_le, next_attempt_seq_pos). cbn [res_bind]. unfold char3.
  rewrite (proj2 (Z.ltb_ge 3 _) Hc). cbn [guard_err res_bind]. rewrite unique_fresh; cbn [res_bind].
  - apply unique_fresh. intros p Hp. rewrite (optional_text _ Hb).
    destruct (N.eqb_spec (p_OrderID p) (poi_OrderID i)) as [E|]; [|by rewrite andb_false_r].
    apply andb_false_iff. right. apply not_true_is_false. rewrite sql_text_eq_spec. by apply Hk.
  - intros p Hp. apply N.eqb_neq. by eapply Hi.
Qed.
Lemma find_payment_key_None d o k :
  (forall p, p ∈ d_payments d -> p_OrderID p = o -> p_IdempotencyKey p <> Some k) ->
  List.find (fun p => sql_text_eq (p_IdempotencyKey p) (Some k)) (payments_of o d) = None.
Proof.
  intros Hk. apply find_None_elem. intros p [Hp Eo%N.eqb_eq]%elem_of_filter_bool.
  apply not_true_is_false. rewrite sql_text_eq_spec. by apply Hk.
Qed.

Lemma find_payment_key d o p k :
  wf d -> p ∈ d_payments d -> p_OrderID p = o -> p_IdempotencyKey p = Some k ->
  blank (TrimSpace k) = false ->
  List.find (fun p => sql_text_eq (p_IdempotencyKey p) (Some k)) (payments_of o d) = Some p.
Proof.
  intros Hw Hp Eo Ek Hb. destruct (List.find _ _) as [q|] eqn:E.
  - apply find_Some_elem in E as [[Hq Eq%N.eqb_eq]%elem_of_filter_bool Es%sql_text_eq_spec]. f_equal.
    eapply unique_on_same; [apply (wp_keys _ _ (wf_p _ Hw))|done|done| |];
      unfold payment_key, text_key, keyed; rewrite Es, ?Ek, ?Eq, ?Eo; cbn; by rewrite Hb.
  - rewrite find_None_elem in E. specialize (E p). rewrite Ek, sql_text_eq_refl in E.
    discriminate E. apply elem_of_filter_bool. split; [done|by apply N.eqb_eq].
Qed.
Lemma find_outbox_key d ob k :
  wf d -> ob ∈ d_outbox d -> ob_IdempotencyKey ob = Some k -> blank (TrimSpace k) = false ->
  List.find (fun y => String.eqb (ob_Topic y) (ob_Topic ob) && sql_text_eq (ob_IdempotencyKey y) (Some k))
    (d_outbox d) = Some ob.
Proof.
  intros Hw Ho Ek Hb. destruct (List.find _ _) as [q|] eqn:E.
  - apply find_Some_elem in E as [Hq [Et%String.eqb_eq Es%sql_text_eq_spec]%andb_true_iff]. f_equal.
    eapply unique_on_same; [apply (wf_ob _ Hw)|done|done| |];
      unfold outbox_key, text_key, keyed; rewrite Es, ?Ek, ?Et; cbn; by rewrite Hb.
  - rewrite find_None_elem in E. specialize (E ob Ho).
    by rewrite Ek, sql_text_eq_refl, String.eqb_refl in E.
Qed.

Lemma wp_attempt_seq i n d w (Q : res Z -> world -> Prop) :
  calm_from n InTx d w -> poi_OrderID i ∈ map o_ID (d_orders d) ->
  next_attempt_seq (poi_OrderID i) d <= MaxInt32 ->
  (forall w', calm_from n InTx d w' -> Q (Ok (next_attempt_seq (poi_OrderID i) d)) w') ->
  wp (allocatePaymentAttemptSeq i) Q w.
Proof.
  intros Hc Ho Hs HQ. unfold allocatePaymentAttemptSeq. wp_go.
  destruct (List.find (fun o => o_ID o =u poi_OrderID i) (d_orders d)) as [o|] eqn:E.
  2: { exfalso. apply list_elem_of_fmap in Ho as (o & Eo & Ho). rewrite find_None_elem in E.
       specialize (E o Ho). by rewrite Eo, N.eqb_refl in E. }
  eapply (wp_found n InTx d w); [done..|by rewrite E|]. clear w Hc. intros w Hc. wp_go.
  apply Z.ltb_ge in Hs.
  eapply (wp_stmt _ n InTx d w); [done|done|..]; [|by intros *; rewrite Hs|by intros *; rewrite Hs].
  intros now id a d' w1 _ E1 Hc1. rewrite Hs in E1. injection E1 as <- <-. wp_go.
  pose proof (next_attempt_seq_pos (poi_OrderID i) d) as Hpos.
  rewrite (proj2 (Z.ltb_ge _ 1)) by lia. wp_go. by apply HQ.
Qed.

Lemma wp_insert_payment i n d w (Q : res (tx_end PaymentOutboxResult) -> world -> Prop) :
  calm_from n InTx d w -> wf d -> payment_room i n d -> poi_PaymentState i ∈ paymentStates ->
  0 <= poi_AmountMinor i -> len (poi_Currency i) <= 3 ->
  blank (TrimSpace (poi_IdempotencyKey i)) = false ->
  (forall t1 id1 t2 id2 t3 id3 w',
     let pay := payment_of_input i (next_attempt_seq (poi_OrderID i) d) t1 id1 in
     let ob := outbox_row (payment_outbox_params i) t2 id2 in
     let d' := set_attempts (fun l => l ++ bound_attempts i id1 t3 id3)
       (set_outbox (fun l => l ++ [ob]) (set_payments (fun l => l ++ [pay]) d)) in
     (n <= id1)%N -> wf d' -> calm_from n InTx d' w' ->
     Q (Ok (Commit (mk_PaymentOutboxResult pay ob false))) w') ->
  wp (insert_payment i) Q w.
Proof.
  intros Hc Hw Hroom Hs Ha Hcur Hk HQ. unfold insert_payment. wp_go.
  eapply wp_attempt_seq; [exact Hc|apply Hroom|apply Hroom|]. clear w Hc. intros w Hc. wp_go.
  eapply (wp_inserted_next n InTx d w); [exact Hc|done|done|apply InsertPayment_safe| |].
  { intros now id Hid. by eapply payment_insert_ok_new. }
  clear w Hc. intros t1 id1 w Hid1 Hw1 Hc. apply (calm_weaken _ n) in Hc; [|lia]. wp_go.
  eapply (wp_inserted n InTx _ w); [exact Hc|done|exact Hw1|apply InsertOutboxEvent_safe| |].
  { intros now id Hid. apply outbox_insert_ok_fresh. apply Hroom. }
  clear w Hc. intros t2 id2 w Hw2 Hc. wp_go. unfold bound_attempts in HQ.
  destruct (blank (TrimSpace (poi_BindAttemptState i))) eqn:Eb; cbn [negb]; wp_go.
  - rewrite mapPayment_id, mapOutbox_id.
    specialize (HQ t1 id1 t2 id2 0 0%N w). cbn zeta in HQ. unfold set_attempts in HQ.
    rewrite app_nil_r in HQ. by apply HQ.
  - eapply (wp_inserted n InTx _ w); [exact Hc|done|exact Hw2|apply InsertPaymentAttempt_safe| |].
    { intros now id Hid. apply fk_elem. cbn. rewrite map_app. apply elem_of_app. right.
      by apply list_elem_of_singleton. }
    clear w Hc. intros t3 id3 w Hw3 Hc. wp_go. rewrite mapPayment_id, mapOutbox_id.
    by apply (HQ t1 id1 t2 id2 t3 id3).
Qed.

(** The order lookup of the service. *)
Lemma wp_order_by_id ord id n t d w (Q : res Order -> world -> Prop) :
  calm_from n t d w -> t <> Aborted -> wf d -> ord ∈ d_orders d -> o_ID ord = id ->
  (forall w', calm_from n t d w' -> Q (Ok ord) w') -> wp (PgCommerce.GetOrderByID id) Q w.
Proof.
  intros Hc Ht Hw Ho <- HQ. unfold PgCommerce.GetOrderByID. wp_go.
  eapply (wp_found n t d w); [done..|apply (find_by_id o_ID); [apply (wo_ids _ _ (wf_o _ Hw))|done]|].
  intros w1 Hc1. wp_go. rewrite mapOrder_id. by apply HQ.
Qed.
Lemma wp_start_lookup i n d w Q :
  calm_from n NoTx d w -> wf d -> sp_OrderID i ∈ map o_ID (d_orders d) ->
  (forall w', calm_from n NoTx d w' -> Q (Ok tt) w') ->
  wp (if negb (sp_SkipOrderLookup i)
      then let! _ := ls_GetOrderByID world lifecycle (sp_OrderID i) in ret tt else ret tt) Q w.
Proof.
  intros Hc Hw (o & Eo & Ho)%list_elem_of_fmap HQ. destruct (negb _); wp_go; [|by apply HQ].
  cbn [ls_GetOrderByID lifecycle]. eapply wp_order_by_id; [exact Hc|done..|].
  intros w1 Hc1. wp_go. by apply HQ.
Qed.

Lemma wp_start_payment i n d w (Q : res PaymentOutboxResult -> world -> Prop) :
  calm_from n NoTx d w -> wf d -> validateStartPayment i = Ok tt ->
  payment_room (payment_input i) n d ->
  (forall t1 id1 t2 id2 t3 id3 w',
    let pay := payment_of_input (payment_input i) (next_attempt_seq (sp_OrderID i) d) t1 id1 in
    let ob := outbox_row (payment_outbox_params (payment_input i)) t2 id2 in
    let d' := set_attempts (fun l => l ++ bound_attempts (payment_input i) id1 t3 id3)
      (set_outbox (fun l => l ++ [ob]) (set_payments (fun l => l ++ [pay]) d)) in
    (n <= id1)%N -> wf d' -> calm_from n NoTx d' w' -> Q (Ok (mk_PaymentOutboxResult pay ob false)) w') ->
  wp (StartPaymentWithOutbox (service x) i) Q w.
Proof.
  intros Hc Hw Hv Hroom HQ. pose proof (validateStartPayment_inv i Hv) as (Hs & Ha & Hcur & Hk & Hok).
  unfold StartPaymentWithOutbox. cbn [sv_payments service sv_life]. wp_go. rewrite Hv. wp_go.
  eapply wp_start_lookup; [exact Hc|done|apply Hroom|]. clear w Hc. intros w Hc. wp_go.
  fold (payment_input i). unfold CreatePaymentWithOutbox.
  destruct (String.eqb_spec (poi_IdempotencyKey (payment_input i)) "") as [E|_].
  { exfalso. cbn in E. by rewrite E in Hk. }
  destruct (String.eqb_spec (poi_OutboxIdempotencyKey (payment_input i)) "") as [E|_].
  { exfalso. cbn in E. by rewrite E in Hok. }
  cbn [orb]. eapply wp_with_tx; [exact Hc|]. clear w Hc. intros w Hc. wp_go.
  assert (Hk' : blank (TrimSpace (poi_IdempotencyKey (payment_input i))) = false)
    by (cbn [poi_IdempotencyKey payment_input]; by rewrite TrimSpace_idemp).
  rewrite (optional_text _ Hk').
  eapply (wp_missing n InTx d w); [done..|apply find_payment_key_None; apply Hroom|].
  clear w Hc. intros w Hc. wp_go. eapply wp_insert_payment; [exact Hc|done|exact Hroom|done|done| |done|].
  { cbn [poi_Currency payment_input]. by rewrite Hcur. }
  clear w Hc. intros t1 id1 t2 id2 t3 id3 w pay ob d' Hid Hw' Hc. left. eexists. split; [exact Hc|].
  clear w Hc. intros w Hc. by apply (HQ t1 id1 t2 id2 t3 id3).
Qed.

(** A new key creates exactly one payment of the order, with the next attempt number, its
    outbox event, and the attempt that binds a provider reference when one is given; nothing
    else changes. *)
Theorem start_payment_new i n d w :
  calm_from n NoTx d w -> wf d -> validateStartPayment i = Ok tt ->
  payment_room (payment_input i) n d ->
  wp (StartPaymentWithOutbox (service x) i) (fun r w' => exists t1 id1 t2 id2 t3 id3,
    let pay := payment_of_input (payment_input i) (next_attempt_seq (sp_OrderID i) d) t1 id1 in
    let ob := outbox_row (payment_outbox_params (payment_input i)) t2 id2 in
    r = Ok (mk_PaymentOutboxResult pay ob false) /\
    calm_from n NoTx (set_attempts (fun l => l ++ bound_attempts (payment_input i) id1 t3 id3)
      (set_outbox (fun l => l ++ [ob]) (set_payments (fun l => l ++ [pay]) d))) w') w.
Proof.
  intros Hc Hw Hv Hroom. eapply wp_start_payment; [done..|].
  intros t1 id1 t2 id2 t3 id3 w' pay ob d' _ _ Hc'. by exists t1, id1, t2, id2, t3, id3.
Qed.

(** A key the order has used answers with the payment and the outbox event on record, marked
    as a replay, and changes no table. *)
Theorem start_payment_replayed i pay ob n d w :
  calm_from n NoTx d w -> wf d -> validateStartPayment i = Ok tt ->
  sp_OrderID i ∈ map o_ID (d_orders d) -> pay ∈ d_payments d -> p_OrderID pay = sp_OrderID i ->
  p_IdempotencyKey pay = Some (TrimSpace (sp_IdempotencyKey i)) ->
  ob ∈ d_outbox d -> ob_Topic ob = TrimSpace (sp_OutboxTopic i) ->
  ob_IdempotencyKey ob = Some (TrimSpace (sp_OutboxIdempotencyKey i)) ->
  wp (StartPaymentWithOutbox (service x) i) (fun r w' =>
    r = Ok (mk_PaymentOutboxResult pay ob true) /\ calm_from n NoTx d w') w.
Proof.
  intros Hc Hw Hv Ho Hp Epo Epk Hob Eot Eok.
  pose proof (validateStartPayment_inv i Hv) as (_ & _ & _ & Hk & Hok).
  unfold StartPaymentWithOutbox. cbn [sv_payments service sv_life]. wp_go. rewrite Hv. wp_go.
  eapply wp_start_lookup; [exact Hc|done|done|]. clear w Hc. intros w Hc. wp_go.
  fold (payment_input i). unfold CreatePaymentWithOutbox.
  destruct (String.eqb_spec (poi_IdempotencyKey (payment_input i)) "") as [E|_].
  { exfalso. cbn in E. by rewrite E in Hk. }
  destruct (String.eqb_spec (poi_OutboxIdempotencyKey (payment_input i)) "") as [E|_].
  { exfalso. cbn in E. by rewrite E in Hok. }
  cbn [orb]. eapply wp_with_tx; [exact Hc|]. clear w Hc. intros w Hc. wp_go.
  cbn [poi_IdempotencyKey poi_OrderID payment_input].
  rewrite optional_text by (by rewrite TrimSpace_idemp). rewrite TrimSpace_idemp.
  eapply (wp_found n InTx d w); [done..|apply find_payment_key; try done; by rewrite TrimSpace_idemp|]. clear w Hc. intros w Hc. wp_go.
  unfold replay_payment. wp_go. cbn [poi_OutboxTopic poi_OutboxIdempotencyKey payment_input].
  rewrite optional_text by (by rewrite TrimSpace_idemp). rewrite TrimSpace_idemp, <- Eot.
  eapply (wp_found n InTx d w); [done..|apply find_outbox_key; try done; by rewrite TrimSpace_idemp|]. clear w Hc. intros w Hc. wp_go.
  rewrite mapPayment_id, mapOutbox_id. left. exists d. split; [done|].
  clear w Hc. intros w Hc. done.
Qed.
End Paying.
