(* ===== verification/Requests.v ===== *)
(** * Requests on an order

    The payment an order is judged by, and the requests that depend on it:
    moving a vend, cancelling the order or a payment, refunds, and the access
    check. *)

From S2P Require Import Prelude.
From S2P Require Import GoStd.
From S2P Require Import Pricing.
From S2P Require Import CommerceTypes.
From S2P Require Import Sanitize.
From S2P Require Import Evidence.
From S2P Require Import Snapshot.
From S2P Require Import Rules.
From S2P Require Import CommerceService.
From S2P Require Import ServiceLaws.
From S2P Require Import Db.
From S2P Require Import Queries.
From S2P Require Import History.
From S2P Require Import PgCommerce.
From S2P Require Import Fulfillment.
From S2P Require Import StoreLaws.
From S2P Require Import Logic.
From S2P Require Import Backend.
From S2P Require Import Scenario.
From S2P Require Import Settlement.
From S2P Require Import Webhooks.
From S2P Require Import Orders.
Local Open Scope string_scope.
Local Open Scope list_scope.
Local Open Scope Z_scope.

(** ** The payment an order is judged by

    The winner; or the oldest payment whose money is in; or the latest. *)
Definition authoritative (order : N) (d : pgdb) : option Payment :=
  match winner_of order d with
  | Some p => Some p
  | None =>
      match oldestCapturedOrPartiallyRefundedPayment (in_order p_CreatedAt (payments_of order d)) with
      | Some p => Some p
      | None => latest p_CreatedAt (payments_of order d)
      end
  end.

Lemma latest_from_elem {A} (at_ : A -> Z) best l x :
  latest_from at_ best l = Some x -> best = Some x \/ x ∈ l.
Proof.
  revert best. induction l as [|y l IH]; intros best; cbn; [by left|].
  destruct best as [b|]; [destruct (at_ y <? at_ b)|]; intros [E|E]%IH; set_solver.
Qed.
Lemma winner_of_elem order d p : winner_of order d = Some p -> p ∈ d_payments d.
Proof.
  unfold winner_of. destruct (List.find _ (d_orders d)) as [o|]; cbn; [|done].
  destruct (o_WinningPaymentID o); cbn; [|done]. by intros [? _]%find_Some_elem.
Qed.
Lemma authoritative_elem order d p : authoritative order d = Some p -> p ∈ d_payments d.
Proof.
  unfold authoritative. destruct (winner_of order d) as [q|] eqn:E.
  { intros [= <-]. by eapply winner_of_elem. }
  destruct (oldestCapturedOrPartiallyRefundedPayment _) as [q|] eqn:Eo.
  - intros [= <-]. apply oldest_captured_spec in Eo as ([?|[Hin _]] & _); [done|].
    by apply in_order_elem, elem_of_filter_bool in Hin as [? _].
  - intros [?|Hin]%latest_from_elem; [done|]. by apply elem_of_filter_bool in Hin as [? _].
Qed.

(** Resolves the calls of the service to the methods of the store. *)
Ltac wp_resolve :=
  cbn [negb fst snd service lifecycle financial sv_life sv_financial sv_payments sv_saleLines sv_orders
       sv_enterpriseAudit sv_winnerArbitrationEnabled
       fc_GetWinningPaymentForOrder fc_ListPaymentsForOrder fc_CancelPaymentByID
       fc_GetLatestNonCapturedPaymentForOrder fc_ClaimWinningPayment fc_UpdatePaymentOutcome
       ls_GetOrderByID ls_GetLatestPaymentForOrder ls_UpdateOrderStatus ls_GetPaymentByID
       ls_GetVendSessionByOrderAndSlot ls_GetVendSessionByOrderAndLineSequence
       ls_UpdateVendSessionState ls_InsertRefundRow ls_GetRefundByOrderIdempotency
       ls_SumNonFailedRefundAmountForPayment].
Ltac wp_service := wp_resolve; wp_go; wp_resolve; wp_go.

Section Judged.
Context `{UuidText} `{Sha256} (x : Externals).

Lemma map_mapPayment l : map mapPayment l = l.
Proof. induction l as [|p l IH]; cbn; [done|]. by rewrite mapPayment_id, IH. Qed.

Lemma wp_authoritative order n t d w (Q : res Payment -> world -> Prop) :
  calm_from n t d w -> t <> Aborted ->
  (forall w', calm_from n t d w' ->
     Q (match authoritative order d with Some p => Ok p | None => Err ErrNotFound end) w') ->
  wp (resolveAuthoritativePayment (service x) order) Q w.
Proof.
  intros Hc Ht HQ. unfold resolveAuthoritativePayment, authoritative in *.
  wp_service. unfold GetWinningPaymentForOrder. wp_go. destruct (winner_of order d) as [p|] eqn:Ew.
  { eapply (wp_found n t d w); [done..|exact Ew|]. clear w Hc. intros w Hc. wp_go.
    rewrite mapPayment_id. by apply HQ. }
  eapply (wp_missing n t d w); [done..|exact Ew|]. clear w Hc. intros w Hc. wp_go.
  wp_service. unfold ListPaymentsForOrder. wp_go.
  eapply (wp_select_many _ n t d w); [done..|]. clear w Hc. intros w Hc. wp_go. rewrite map_mapPayment.
  destruct (oldestCapturedOrPartiallyRefundedPayment _) as [p|] eqn:Eo; wp_go; [by apply HQ|].
  wp_service. unfold GetLatestPaymentForOrder. wp_go.
  destruct (latest p_CreatedAt (payments_of order d)) as [p|] eqn:El.
  - eapply (wp_found n t d w); [done..|exact El|]. clear w Hc. intros w Hc. wp_go.
    rewrite mapPayment_id. by apply HQ.
  - eapply (wp_missing n t d w); [done..|exact El|]. clear w Hc. intros w Hc. wp_go. by apply HQ.
Qed.
Lemma wp_payment_if_any order n t d w (Q : res (option Payment) -> world -> Prop) :
  calm_from n t d w -> t <> Aborted ->
  (forall w', calm_from n t d w' -> Q (Ok (authoritative order d)) w') ->
  wp (payment_if_any (service x) order) Q w.
Proof.
  intros Hc Ht HQ. unfold payment_if_any. wp_go. eapply wp_authoritative; [exact Hc|done|].
  clear w Hc. intros w Hc. wp_go. destruct (authoritative order d); wp_go; by apply HQ.
Qed.
End Judged.

(** ** Refunds *)

Section Refunds.
Context `{UuidText} `{Sha256} (x : Externals).

Lemma find_refund_key d o k r :
  List.find (fun r => (rf_OrderID r =u o) && sql_text_eq (rf_IdempotencyKey r) (Some k)) (d_refunds d) = Some r ->
  r ∈ d_refunds d /\ rf_OrderID r = o /\ rf_IdempotencyKey r = Some k.
Proof.
  intros E. apply find_Some_elem in E as [Hr E]. apply andb_true_iff in E as [Eo Ek].
  apply N.eqb_eq in Eo. by apply sql_text_eq_spec in Ek.
Qed.

Lemma wp_refund_by_key o k n t d w (Q : res RefundRowView -> world -> Prop) :
  calm_from n t d w -> t <> Aborted -> blank (TrimSpace k) = false ->
  (forall w', calm_from n t d w' ->
     Q (match List.find (fun r => (rf_OrderID r =u o) && sql_text_eq (rf_IdempotencyKey r) (Some (TrimSpace k)))
                (d_refunds d) with Some r => Ok r | None => Err ErrNotFound end) w') ->
  wp (GetRefundByOrderIdempotency o k) Q w.
Proof.
  intros Hc Ht Hk HQ. unfold GetRefundByOrderIdempotency. rewrite (optional_text _ Hk). wp_go.
  destruct (List.find _ _) as [r|] eqn:E.
  - eapply (wp_found n t d w); [done..|exact E|]. clear w Hc. intros w Hc. wp_go. by apply HQ.
  - eapply (wp_missing n t d w); [done..|exact E|]. clear w Hc. intros w Hc. wp_go. by apply HQ.
Qed.
Lemma wp_refund_sum p n d w (Q : res Z -> world -> Prop) t :
  calm_from n t d w -> t = NoTx -> 
  (forall w', calm_from n t d w' -> Q (Ok (refunded_minor p d)) w') ->
  (MaxInt64 < refunded_minor p d -> forall e w', calm_from n t d w' -> Q (Err e) w') ->
  wp (SumNonFailedRefundAmountForPayment p) Q w.
Proof.
  intros Hc -> HQ He. unfold SumNonFailedRefundAmountForPayment, SumNonFailedRefundAmountForPaymentQ.
  destruct (Z.ltb_spec MaxInt64 (refunded_minor p d)) as [Hl|Hl]; [pose proof Hl as Hb; apply Z.ltb_lt in Hb|
    pose proof Hl as Hb; apply Z.ltb_ge in Hb];
    (eapply (wp_stmt _ n NoTx d w); [done|done|..]; cbv beta; rewrite Hb; try done).
  - intros now id e w' _ _ Hc'. by apply He.
  - intros now id a d' w' _ E Hc'. injection E as <- <-. by apply HQ.
Qed.

(** What a refund request may do: answer the refund on record under its key, or add one. *)
Definition refund_outcome (i : CreateRefundInput) (n : N) (d : pgdb) (r : res RefundRowView) (w : world) : Prop :=
  match r with
  | Err _ => calm_from n NoTx d w
  | Ok row => rf_OrderID row = cf_OrderID i /\ rf_IdempotencyKey row = Some (TrimSpace (cf_IdempotencyKey i)) /\
      (row ∈ d_refunds d /\ calm_from n NoTx d w \/
       exists pay, authoritative (cf_OrderID i) d = Some pay /\ settled pay = true /\
         rf_PaymentID row = p_ID pay /\ rf_AmountMinor row = cf_AmountMinor i /\ 0 < cf_AmountMinor i /\
         refunded_minor (p_ID pay) d + cf_AmountMinor i <= p_AmountMinor pay /\
         calm_from n NoTx (set_refunds (fun l => l ++ [row]) d) w)
  end.

Lemma wp_insert_refund i pay cur n d w :
  (forall f r, ex_audit x = Some f -> evolves quiet (f r)) ->
  calm_from n NoTx d w -> blank (TrimSpace (cf_IdempotencyKey i)) = false ->
  authoritative (cf_OrderID i) d = Some pay -> settled pay = true -> 0 < cf_AmountMinor i ->
  refunded_minor (p_ID pay) d + cf_AmountMinor i <= p_AmountMinor pay ->
  wp (insert_refund (service x) lifecycle i pay cur) (refund_outcome i n d) w.
Proof.
  intros Haud Hc Hk Ha Hs Hpos Hle. unfold insert_refund. wp_service. unfold InsertRefundRow.
  eapply (wp_insert_row _ _ _ n NoTx d w); [done|done|..].
  - clear w Hc. intros now id w Hid _ Hc. wp_go.
    assert (Hdone : forall w', calm_from n NoTx (set_refunds (fun l => l ++ [mk_RefundRowView id (p_ID pay)
      (cf_OrderID i) (cf_AmountMinor i) (ToUpper (TrimSpace cur)) "requested"
      (optionalStringToPgText (TrimSpace (cf_Reason i)))
      (optionalStringToPgText (TrimSpace (cf_IdempotencyKey i)))
      (RequiredString (default (JObj []) (cf_Metadata i))) now]) d) w' ->
      refund_outcome i n d (Ok (mk_RefundRowView id (p_ID pay)
      (cf_OrderID i) (cf_AmountMinor i) (ToUpper (TrimSpace cur)) "requested"
      (optionalStringToPgText (TrimSpace (cf_Reason i)))
      (optionalStringToPgText (TrimSpace (cf_IdempotencyKey i)))
      (RequiredString (default (JObj []) (cf_Metadata i))) now)) w').
    { intros w' Hc'. split; [done|]. split; [cbn [rf_IdempotencyKey]; rewrite optional_text, TrimSpace_idemp; [done|by rewrite TrimSpace_idemp]|].
      right. by exists pay. }
    destruct (ex_audit x) as [f|] eqn:Ef; cbn [sv_enterpriseAudit service]; rewrite ?Ef; wp_go; [|by apply Hdone].
    eapply wp_quiet; [by apply Haud|exact Hc|]. clear w Hc. intros _ w Hc. wp_go. by apply Hdone.
  - clear w Hc. intros now id e w _ _ Hc. wp_go. destruct (isUniqueViolation e); wp_go; [|done].
    wp_service. eapply wp_refund_by_key; [exact Hc|done|done|]. clear w Hc. intros w Hc.
    destruct (List.find _ _) as [r|] eqn:E; [|done]. apply find_refund_key in E as (Hr & Eo & Ek).
    split; [done|]. split; [done|]. by left.
Qed.

(** C32: with no other client in the way, and when what is refunded of the payment and what is asked
    for add up within 64 bits, a refund request answers the refund on record under its key, or adds
    one refund of the requested amount to the payment the order is judged by, which is settled and
    whose refunds together stay within its amount; in every other case it changes nothing.  Neither
    condition can be dropped: the sum of the check wraps around, and two requests at the same time
    both read the sum before either is recorded. *)
Theorem refund_within_payment i n d w :
  (forall f r, ex_audit x = Some f -> evolves quiet (f r)) ->
  calm_from n NoTx d w -> wf d ->
  (forall pay, authoritative (cf_OrderID i) d = Some pay ->
     0 <= refunded_minor (p_ID pay) d + cf_AmountMinor i <= MaxInt64) ->
  wp (CreateRefund (service x) i) (refund_outcome i n d) w.
Proof.
  intros Haud Hc Hw Hov. unfold CreateRefund. wp_service.
  apply wp_guard; [by intros _|intros _]. wp_go.
  apply wp_guard; [by intros _|intros Hpos%Z.leb_gt]. wp_go.
  apply wp_guard; [by intros _|intros Hk]. wp_go.
  apply wp_guard; [by intros _|intros _]. wp_go. wp_service.
  unfold PgCommerce.GetOrderByID. wp_go. eapply (wp_select_one _ n NoTx d w); [done|done|..].
  2: { clear w Hc. intros w _ Hc. wp_go. done. }
  clear w Hc. intros o w _ Hc. wp_go. eapply wp_authoritative; [exact Hc|done|]. clear w Hc. intros w Hc.
  destruct (authoritative (cf_OrderID i) d) as [pay|] eqn:Ea; wp_go; [|done].
  apply wp_guard; [by intros _|intros Hs%negb_false_iff]. wp_go.
  apply wp_guard; [by intros _|intros _]. wp_go. wp_service.
  eapply wp_refund_by_key; [exact Hc|done|done|]. clear w Hc. intros w Hc.
  destruct (List.find _ _) as [r|] eqn:E; wp_go.
  { apply find_refund_key in E as (Hr & Eo & Ek). split; [done|]. split; [done|]. by left. }
  wp_service. eapply wp_refund_sum; [exact Hc|done| |done]. clear w Hc. intros w Hc. wp_go.
  apply wp_guard; [done|]. intros Hle%Z.ltb_ge. cbn beta iota.
  rewrite add64_id in Hle by (specialize (Hov pay eq_refl); unfold in_int64, MinInt64; lia).
  by apply wp_insert_refund.
Qed.

(** A refund that is due. *)
Record refund_due (i : CreateRefundInput) (pay : Payment) (d : pgdb) : Prop := mk_refund_due {
  rd_order : cf_OrderID i ∈ map o_ID (d_orders d); rd_id : cf_OrderID i <> uuid_Nil;
  rd_amount : 0 < cf_AmountMinor i; rd_key : blank (TrimSpace (cf_IdempotencyKey i)) = false;
  rd_pay : authoritative (cf_OrderID i) d = Some pay; rd_settled : settled pay = true;
  rd_currency : len (ToUpper (TrimSpace (cf_Currency i))) = 3 /\
    ToUpper (TrimSpace (p_Currency pay)) = ToUpper (TrimSpace (cf_Currency i));
  rd_column : len (ToUpper (TrimSpace (ToUpper (TrimSpace (cf_Currency i))))) <= 3;
  rd_fresh : forall r, r ∈ d_refunds d -> rf_OrderID r = cf_OrderID i ->
    rf_IdempotencyKey r <> Some (TrimSpace (cf_IdempotencyKey i));
  rd_room : refunded_minor (p_ID pay) d + cf_AmountMinor i <= p_AmountMinor pay <= MaxInt64 }.

Lemma refunded_minor_nonneg p d : wf d -> 0 <= refunded_minor p d.
Proof.
  intros Hw. unfold refunded_minor. pose proof (wr_amounts _ _ _ (wf_r _ Hw)) as Ha.
  assert (Hf : forall r, r ∈ List.filter (counted p) (d_refunds d) -> 0 <= rf_AmountMinor r).
  { intros r [Hr _]%elem_of_filter_bool. by apply Ha. }
  induction (List.filter _ _) as [|r l IH]; cbn; [lia|].
  assert (0 <= rf_AmountMinor r) by (apply Hf; left).
  assert (0 <= foldr Z.add 0 (map rf_AmountMinor l)) by (apply IH; intros; apply Hf; by right). lia.
Qed.
Definition refund_row (i : CreateRefundInput) (pay : Payment) (now : Z) (id : N) : RefundRowView :=
  mk_RefundRowView id (p_ID pay) (cf_OrderID i) (cf_AmountMinor i)
    (ToUpper (TrimSpace (ToUpper (TrimSpace (cf_Currency i))))) "requested"
    (optionalStringToPgText (TrimSpace (cf_Reason i)))
    (Some (TrimSpace (cf_IdempotencyKey i))) (RequiredString (default (JObj []) (cf_Metadata i))) now.
Lemma refund_insert_ok_due i pay d now id :
  refund_due i pay d -> refund_insert_ok (refund_row i pay now id) d = Ok tt.
Proof.
  intros [Ho _ Ha Hk Hp _ _ Hcol Hf _]. apply authoritative_elem in Hp. unfold refund_insert_ok.
  cbn [rf_PaymentID rf_OrderID rf_AmountMinor rf_State rf_Currency rf_IdempotencyKey refund_row].
  rewrite (fk_elem p_ID) by (apply list_elem_of_fmap; eauto). cbn [res_bind].
  rewrite (fk_elem o_ID) by done. cbn [res_bind]. rewrite check_true by (apply Z.leb_le; lia).
  cbn [res_bind]. rewrite check_true by done. cbn [res_bind]. unfold char3.
  rewrite (proj2 (Z.ltb_ge 3 _) Hcol). cbn [guard_err res_bind]. apply unique_fresh. intros r Hr.
  destruct (N.eqb_spec (rf_OrderID r) (cf_OrderID i)); [|by rewrite andb_false_r].
  apply andb_false_iff. right. apply not_true_is_false. rewrite sql_text_eq_spec. by apply Hf.
Qed.

(** A refund that is due is created: one row for the payment the order is judged by, in state
    "requested", and nothing else changes. *)
Theorem refund_created i pay n d w :
  (forall f r, ex_audit x = Some f -> evolves quiet (f r)) ->
  calm_from n NoTx d w -> wf d -> refund_due i pay d ->
  wp (CreateRefund (service x) i) (fun r w' => exists now id, r = Ok (refund_row i pay now id) /\
    calm_from n NoTx (set_refunds (fun l => l ++ [refund_row i pay now id]) d) w') w.
Proof.
  intros Haud Hc Hw Hdue.
  pose proof Hdue as [Ho Hid Ha Hk Hp Hs [Hl Hcur] _ Hf [Hr1 Hr2]].
  pose proof (refunded_minor_nonneg (p_ID pay) d Hw) as Hnn. unfold CreateRefund. wp_service.
  apply wp_guard; [intros E%N.eqb_eq; done|intros _]. wp_go.
  apply wp_guard; [intros E%Z.leb_le; lia|intros _]. wp_go.
  apply wp_guard; [congruence|intros _]. wp_go.
  apply wp_guard; [rewrite Hl; discriminate|intros _]. wp_service.
  apply list_elem_of_fmap in Ho as (o & Eo & Ho).
  eapply wp_order_by_id; [exact Hc|done|done|exact Ho|done|]. clear w Hc. intros w Hc. wp_go.
  eapply wp_authoritative; [exact Hc|done|]. clear w Hc. intros w Hc. rewrite Hp. wp_go.
  apply wp_guard; [by rewrite Hs|intros _]. wp_go.
  apply wp_guard; [by rewrite Hcur, String.eqb_refl|intros _]. wp_service.
  eapply wp_refund_by_key; [exact Hc|done|done|]. clear w Hc. intros w Hc.
  destruct (List.find _ _) as [r|] eqn:E; wp_go.
  { apply find_refund_key in E as (Hr & Eor & Ek). by destruct (Hf r Hr Eor). }
  wp_service. eapply wp_refund_sum; [exact Hc|done| |lia]. clear w Hc. intros w Hc. wp_go.
  apply wp_guard; [intros Hlt%Z.ltb_lt; rewrite add64_id in Hlt by (unfold in_int64, MinInt64; lia); lia|].
  intros _. wp_go. unfold insert_refund. wp_service. unfold InsertRefundRow.
  assert (Ek : optionalStringToPgText (TrimSpace (cf_IdempotencyKey i)) = Some (TrimSpace (cf_IdempotencyKey i)))
    by (rewrite optional_text; rewrite TrimSpace_idemp; done).
  cbn [ir_PaymentID ir_OrderID ir_AmountMinor ir_Currency ir_State ir_Reason ir_IdempotencyKey ir_Metadata].
  rewrite Ek. change (fun (now : Z) (id : N) => _) with (refund_row i pay).
  eapply (wp_inserted n NoTx d w); [exact Hc|done|done|apply InsertRefundRow_safe| |].
  { intros now id _. by apply refund_insert_ok_due. }
  clear w Hc. intros now id w _ Hc. wp_go. destruct (ex_audit x) as [f|] eqn:Ef;
    cbn [sv_enterpriseAudit service]; rewrite ?Ef; wp_go; [|by exists now, id].
  eapply wp_quiet; [by apply Haud|exact Hc|]. clear w Hc. intros _ w Hc. wp_go. by exists now, id.
Qed.
End Refunds.

(** ** Order status *)

Definition status_db (o : N) (status : string) (now : Z) (d : pgdb) : pgdb :=
  set_orders (update_where (fun y => o_ID y =u o)
    (fun y => order_with y status (o_WinningPaymentID y) (o_WinningClaimedAt y) now)) d.

Lemma order_update_ok_status d o status now :
  wf d -> o ∈ d_orders d -> one_of status orderStatuses = true ->
  order_update_ok (order_with o status (o_WinningPaymentID o) (o_WinningClaimedAt o) now) d = Ok tt.
Proof.
  intros Hw Ho Hs. unfold order_update_ok. cbn [o_Status o_WinningPaymentID o_ID order_with].
  rewrite (check_true _ _ Hs). cbn [res_bind].
  destruct (o_WinningPaymentID o) as [p|] eqn:Ew; cbn [fk_opt].
  - rewrite (fk_elem p_ID) by (by eapply (wo_winner_exists _ _ (wf_o _ Hw))). cbn [res_bind].
    apply unique_fresh. intros y Hy. cbn [is_none negb]. rewrite andb_true_r.
    apply not_true_is_false. intros [Hn%negb_true_iff Hp]%andb_true_iff.
    destruct (o_WinningPaymentID y) as [q|] eqn:Ey; [|done]. cbn in Hp. apply N.eqb_eq in Hp as ->.
    assert (y = o) as ->; [|by rewrite N.eqb_refl in Hn].
    eapply unique_on_same; [apply (wo_winners _ _ (wf_o _ Hw))|done|done|congruence|congruence].
  - cbn [res_bind]. apply unique_fresh. intros y Hy. cbn [is_none negb]. by rewrite andb_false_r.
Qed.
Lemma wp_order_status o status company n t d w (Q : res Order -> world -> Prop) :
  calm_from n t d w -> t <> Aborted -> wf d -> o ∈ d_orders d -> one_of status orderStatuses = true ->
  (forall now w', wf (status_db (o_ID o) status now d) ->
     calm_from n t (status_db (o_ID o) status now d) w' ->
     Q (Ok (order_with o status (o_WinningPaymentID o) (o_WinningClaimedAt o) now)) w') ->
  wp (UpdateOrderStatus (o_ID o) company status) Q w.
Proof.
  intros Hc Ht Hw Ho Hs HQ. unfold UpdateOrderStatus. wp_go.
  eapply (wp_updated n t d w); [done..|apply UpdateOrderStatus_safe| | |].
  - apply (find_by_id o_ID); [apply (wo_ids _ _ (wf_o _ Hw))|done].
  - intros now. by apply order_update_ok_status.
  - intros now w1 Hw1 Hc1. wp_go. rewrite mapOrder_id. by apply HQ.
Qed.

Section Status.
Context `{UuidText} `{Sha256} (x : Externals).

Definition paid_for (o : N) (d : pgdb) : bool :=
  match authoritative o d with Some pay => settled pay | None => false end.

(** An order is cancelled exactly when it is still created or quoted and the payment it is
    judged by, if any, has no money in; otherwise the request is refused and nothing changes. *)
Theorem cancel_order o company reason n d w :
  calm_from n NoTx d w -> wf d -> o ∈ d_orders d -> o_ID o <> uuid_Nil -> company = uuid_Nil ->
  wp (CancelOrder (service x) company (o_ID o) reason) (fun r w' =>
    if one_of (o_Status o) ["created"; "quoted"] && negb (paid_for (o_ID o) d)
    then exists now, calm_from n NoTx (status_db (o_ID o) "cancelled" now d) w' /\
           r = Ok (order_with o "cancelled" (o_WinningPaymentID o) (o_WinningClaimedAt o) now)
    else r = Err ErrCancelNotAllowed /\ calm_from n NoTx d w') w.
Proof.
  intros Hc Hw Ho Hn ->. unfold CancelOrder. wp_service.
  apply wp_guard; [intros E%N.eqb_eq; done|intros _]. wp_service.
  eapply wp_order_by_id; [exact Hc|done|done|exact Ho|done|]. clear w Hc. intros w Hc. wp_go.
  apply wp_guard; [done|intros _]. wp_go.
  apply wp_guard; [intros ->%negb_true_iff; done|intros ->%negb_false_iff]. wp_go.
  eapply wp_payment_if_any; [exact Hc|done|]. clear w Hc. intros w Hc. wp_go. unfold paid_for.
  apply wp_guard; intros ->; cbn [negb andb]; [done|]. wp_service.
  eapply wp_order_status; [exact Hc|done|done|exact Ho|done|]. clear w Hc. intros now w _ Hc.
  by exists now.
Qed.

(** ** Starting a vend *)

Definition vend_at (o : N) (slot line : Z) (d : pgdb) : option VendRow :=
  if 0 <? line then List.find (by_line o line) (d_vends d) else List.find (by_slot o slot) (d_vends d).
Definition vend_key (o : N) (slot line : Z) : VendRow -> bool :=
  if 0 <? line then by_line o line else by_slot o slot.
Definition vend_db (o : N) (slot line : Z) (state : string) (reason : option string) (now : Z) (d : pgdb)
    : pgdb := set_vends (update_where (vend_key o slot line) (vend_moved state reason now)) d.

Lemma vend_at_key o slot line d : vend_at o slot line d = List.find (vend_key o slot line) (d_vends d).
Proof. unfold vend_at, vend_key. by destruct (0 <? line). Qed.
Lemma wp_lookup_vend o slot line v n t d w (Q : res VendSession -> world -> Prop) :
  calm_from n t d w -> t <> Aborted -> vend_at o slot line d = Some v ->
  (forall w', calm_from n t d w' -> Q (Ok (vr_Session v)) w') ->
  wp (lookupVendSession (service x) o slot line) Q w.
Proof.
  intros Hc Ht E HQ. unfold lookupVendSession, vend_at in *. wp_service.
  destruct (0 <? line); wp_service;
    [unfold GetVendSessionByOrderAndLineSequence|unfold GetVendSessionByOrderAndSlot]; wp_go;
    (eapply (wp_found n t d w); [done..|exact E|]; clear w Hc; intros w Hc; wp_go;
     rewrite mapVendFields_id; by apply HQ).
Qed.
Lemma vend_update_ok_moved d v state reason now :
  one_of state vendStates = true ->
  one_of (vr_VerificationStatus v) ["unverified"; "verified"; "hardware_unverified"] = true ->
  vend_update_ok (vend_moved state reason now v) d = Ok tt.
Proof.
  intros Hs Hv. unfold vend_update_ok. cbn [vr_Session v_State vend_moved session_with vr_VerificationStatus].
  by rewrite (check_true _ _ Hs), (check_true _ _ Hv).
Qed.
Lemma wp_move_vend p v n t d w (Q : res VendSession -> world -> Prop) :
  let o := uv_OrderID p in let slot := uv_SlotIndex p in let line := uv_LineSequence p in
  calm_from n t d w -> t <> Aborted -> wf d -> vend_at o slot line d = Some v ->
  one_of (uv_ToState p) vendStates = true ->
  one_of (vr_VerificationStatus v) ["unverified"; "verified"; "hardware_unverified"] = true ->
  (forall now w', wf (vend_db o slot line (uv_ToState p) (uv_FailureReason p) now d) ->
     calm_from n t (vend_db o slot line (uv_ToState p) (uv_FailureReason p) now d) w' ->
     Q (Ok (session_with (vr_Session v) (uv_ToState p))) w') ->
  wp (UpdateVendSessionState p) Q w.
Proof.
  intros o slot line Hc Ht Hw E Hs Hv HQ. unfold UpdateVendSessionState, vend_db, vend_key, vend_at in *.
  fold line. destruct (0 <? line); wp_go;
    (eapply (wp_updated n t d w); [done..|apply vend_moved_safe|exact E|by intros; apply vend_update_ok_moved|];
     intros now w1 Hw1 Hc1; wp_go; rewrite mapVendFields_id; cbn [vr_Session vend_moved];
     by eapply HQ).
Qed.

(** A pending vend starts exactly when the payment the order is judged by has its money in;
    the session moves to "in_progress", a paid order to "vending", and nothing else changes.
    Without the money the request is refused and nothing changes. *)
Theorem advance_vend i o v n d w :
  calm_from n NoTx d w -> wf d -> o ∈ d_orders d -> o_ID o = av_OrderID i -> o_ID o <> uuid_Nil ->
  av_ToState i = "in_progress" ->
  vend_at (av_OrderID i) (av_SlotIndex i) (av_LineSequence i) d = Some v ->
  v_State (vr_Session v) = "pending" ->
  one_of (vr_VerificationStatus v) ["unverified"; "verified"; "hardware_unverified"] = true ->
  wp (AdvanceVend (service x) i) (fun r w' =>
    if paid_for (av_OrderID i) d
    then exists now now', let d1 := vend_db (av_OrderID i) (av_SlotIndex i) (av_LineSequence i)
             "in_progress" (av_FailureReason i) now d in
         r = Ok (session_with (vr_Session v) "in_progress") /\
         calm_from n NoTx (if String.eqb (o_Status o) "paid" then status_db (o_ID o) "vending" now' d1 else d1) w'
    else r = Err ErrPaymentNotSettled /\ calm_from n NoTx d w') w.
Proof.
  intros Hc Hw Ho Eo Hn Et Hv Hvs Hver. unfold AdvanceVend. wp_service.
  assert (Hok : validateAdvanceVend i = Ok tt).
  { unfold validateAdvanceVend. rewrite Et. cbn [guard_err]. rewrite <- Eo. by apply N.eqb_neq in Hn as ->. }
  rewrite Hok. wp_service. eapply wp_order_by_id; [exact Hc|done|done|exact Ho|done|].
  clear w Hc. intros w Hc. wp_go. eapply wp_lookup_vend; [exact Hc|done|exact Hv|].
  clear w Hc. intros w Hc. wp_go. rewrite Et. apply wp_guard; [done|intros _]. wp_go. rewrite Hvs.
  apply wp_guard; [done|intros _]. cbn [String.eqb Ascii.eqb Bool.eqb andb]. wp_go.
  eapply wp_payment_if_any; [exact Hc|done|]. clear w Hc. intros w Hc. wp_go.
  fold (paid_for (av_OrderID i) d). apply wp_guard; [intros ->%negb_true_iff; done|intros ->%negb_false_iff].
  wp_service. eapply wp_move_vend; [exact Hc|done|done|exact Hv|done|exact Hver|].
  clear w Hc. intros now w Hw1 Hc. cbn [uv_OrderID uv_SlotIndex uv_LineSequence uv_ToState uv_FailureReason] in Hw1, Hc |- *. wp_go.
  destruct (String.eqb (o_Status o) "paid"); wp_service; [|by exists now, 0].
  rewrite <- Eo. eapply (wp_order_status o); [exact Hc|done|exact Hw1|exact Ho|done|].
  clear w Hc. intros now' w _ Hc. wp_go. exists now, now'. rewrite <- Eo in Hc. done.
Qed.
End Status.

(** ** Cancelling a payment session *)

Section Sessions.
Context `{UuidText} `{Sha256} (x : Externals).

Definition latest_open (o : N) (d : pgdb) : option Payment :=
  latest p_CreatedAt (List.filter open_state (payments_of o d)).
(** The payment a cancellation is for: the one named, or the latest open one. *)
Definition session_target (i : CancelPaymentSessionInput) (d : pgdb) : option Payment :=
  match non_nil (cps_PaymentID i) with
  | Some p => List.find (fun q => p_ID q =u p) (d_payments d)
  | None => latest_open (cps_OrderID i) d
  end.
Definition canceled (p : Payment) : Payment :=
  payment_with p "canceled"
    (if String.eqb (p_Outcome p) "winner" then p_Outcome p
     else if String.eqb (p_Outcome p) "pending" then "superseded" else p_Outcome p).
Definition cancel_db (p : N) (d : pgdb) : pgdb :=
  set_payments (update_where (fun q => (p_ID q =u p) && open_state q) canceled) d.

Lemma latest_open_spec o d p : latest_open o d = Some p ->
  p ∈ d_payments d /\ p_OrderID p = o /\ open_state p = true.
Proof.
  intros [?|Hin]%latest_from_elem; [done|].
  apply elem_of_filter_bool in Hin as [[Hp Eo%N.eqb_eq]%elem_of_filter_bool Hs]. done.
Qed.
Lemma wp_cancel_payment p n t d w (Q : res Payment -> world -> Prop) :
  calm_from n t d w -> t <> Aborted -> wf d -> p ∈ d_payments d ->
  one_of (p_Outcome p) paymentOutcomes = true ->
  (open_state p = true -> forall w', calm_from n t (cancel_db (p_ID p) d) w' -> Q (Ok (canceled p)) w') ->
  (open_state p = false -> forall w', calm_from n t d w' -> Q (Err ErrNotFound) w') ->
  wp (CancelPaymentByID (p_ID p)) Q w.
Proof.
  intros Hc Ht Hw Hp Ho Hok Hno. unfold CancelPaymentByID. wp_go.
  pose proof (wp_ids _ _ (wf_p _ Hw)) as Hu.
  eapply (wp_update_rows _ _ _ _ _ n t d w); [done|done|..].
  - intros now r w1 Er _ Hc1. apply find_Some_elem in Er as [Hr [Ei%N.eqb_eq Es]%andb_true_iff].
    assert (r = p) as -> by (eapply unique_on_same; [exact Hu|done|done| |done]; cbn; congruence).
    wp_go. rewrite mapPayment_id. by apply Hok.
  - intros w1 En Hc1. wp_go. apply Hno; [|done]. rewrite find_None_elem in En. specialize (En p Hp).
    by rewrite N.eqb_refl in En.
  - intros now r e w1 Er Hck. apply find_Some_elem in Er as [Hr [Ei%N.eqb_eq Es]%andb_true_iff].
    assert (r = p) as -> by (eapply unique_on_same; [exact Hu|done|done| |done]; cbn; congruence).
    exfalso. revert Hck. unfold payment_update_ok. cbn [p_State p_Outcome payment_with].
    rewrite check_true by done. cbn [res_bind]. rewrite check_true; [done|].
    apply one_of_spec in Ho. destruct (String.eqb (p_Outcome p) "winner"); [by apply one_of_spec|].
    destruct (String.eqb (p_Outcome p) "pending"); [done|by apply one_of_spec].
Qed.

Lemma wp_session_target i pay n d w (Q : res (res Payment) -> world -> Prop) :
  calm_from n NoTx d w -> wf d -> session_target i d = Some pay -> p_OrderID pay = cps_OrderID i ->
  (forall w', calm_from n NoTx d w' -> Q (Ok (Ok pay)) w') ->
  wp (match cps_PaymentID i with
      | Some pid =>
          if pid =u uuid_Nil
          then attempt (fc_GetLatestNonCapturedPaymentForOrder world financial (cps_OrderID i))
          else
            let! pay := ls_GetPaymentByID world lifecycle pid in
            guard (negb (p_OrderID pay =u cps_OrderID i)) (invalid_arg "payment order mismatch") ;;;
            ret (Ok pay)
      | None => attempt (fc_GetLatestNonCapturedPaymentForOrder world financial (cps_OrderID i))
      end) Q w.
Proof.
  intros Hc Hw Ht Epo HQ.
  assert (Hlatest : latest_open (cps_OrderID i) d = Some pay ->
    wp (attempt (fc_GetLatestNonCapturedPaymentForOrder world financial (cps_OrderID i))) Q w).
  { intros E. wp_service. unfold GetLatestNonCapturedPaymentForOrder. wp_go.
    eapply (wp_found n NoTx d w); [done..|exact E|]. intros w2 Hc2. wp_go. rewrite mapPayment_id. by apply HQ. }
  unfold session_target, non_nil in Ht. destruct (cps_PaymentID i) as [pid|]; [|by apply Hlatest].
  destruct (pid =u uuid_Nil); [by apply Hlatest|].
  apply find_Some_elem in Ht as [Hp Ei%N.eqb_eq]. subst pid. wp_service. unfold GetPaymentByID. wp_go.
  eapply (wp_found n NoTx d w); [done..|apply (find_by_id p_ID); [apply (wp_ids _ _ (wf_p _ Hw))|done]|].
  clear w Hc Hlatest. intros w Hc. wp_go. rewrite mapPayment_id.
  apply wp_guard; [by rewrite Epo, N.eqb_refl|intros _]. wp_go. by apply HQ.
Qed.

(** cancelling a session cancels the payment it is for when that payment is still open, and
    only that payment; a payment whose money is in, or that is closed, is never touched. *)
Theorem cancel_session i o pay n d w :
  calm_from n NoTx d w -> wf d -> o ∈ d_orders d -> o_ID o = cps_OrderID i ->
  o_ID o <> uuid_Nil -> o_MachineID o = cps_MachineID i -> orderStatusTerminal (o_Status o) = false ->
  session_target i d = Some pay -> p_OrderID pay = o_ID o ->
  one_of (p_Outcome pay) paymentOutcomes = true ->
  wp (CancelPaymentSession (service x) i) (fun r w' =>
    if open_state pay
    then r = Ok (mk_CancelPaymentSessionResult o (Some (canceled pay))) /\
         calm_from n NoTx (cancel_db (p_ID pay) d) w'
    else r = Err ErrNotFound /\ calm_from n NoTx d w') w.
Proof.
  intros Hc Hw Ho Eo Hn Em Hterm Ht Epo Hout. unfold CancelPaymentSession. wp_service.
  apply wp_guard; [rewrite <- Eo; intros E%N.eqb_eq; done|intros _]. wp_service.
  eapply wp_order_by_id; [exact Hc|done|done|exact Ho|done|]. clear w Hc. intros w Hc. wp_go.
  apply wp_guard; [by rewrite Em, N.eqb_refl|intros _]. wp_go.
  apply wp_guard; [by rewrite Hterm|intros _]. wp_service.
  eapply wp_session_target; [exact Hc|done|exact Ht|congruence|]. clear w Hc. intros w Hc. wp_service.
  assert (Hpay : pay ∈ d_payments d).
  { unfold session_target in Ht. destruct (non_nil _); [by apply find_Some_elem in Ht as [? _]|].
    by apply latest_open_spec in Ht as (? & _). }
  eapply wp_cancel_payment; [exact Hc|done|done|done|done| |]; intros ->; clear w Hc; intros w Hc; by wp_go.
Qed.

(** ** Access *)

(** A caller gets access to an order exactly when the order exists, the tenant is the
    deployment's own, and the caller either is not a machine or is a machine of the order. *)
Theorem caller_access company order p n d w :
  calm_from n NoTx d w -> wf d ->
  wp (EnsureCommerceCallerOrderAccess (service x) company order p) (fun r w' =>
    calm_from n NoTx d w' /\
    (r = Ok tt <-> company = uuid_Nil /\ exists o, o ∈ d_orders d /\ o_ID o = order /\
       (HasRole p RoleMachine = false \/ AllowsMachine p (o_MachineID o) = true))) w.
Proof.
  intros Hc Hw. unfold EnsureCommerceCallerOrderAccess, EnsureOrderCompany. wp_service.
  unfold PgCommerce.GetOrderByID at 1. wp_go. eapply (wp_select_one _ n NoTx d w); [done|done|..].
  2: { clear w Hc. intros w En Hc. wp_go. split; [done|]. split; [done|].
       intros (_ & o & Ho & Eo & _). rewrite find_None_elem in En. specialize (En o Ho).
       by rewrite Eo, N.eqb_refl in En. }
  clear w Hc. intros o w [Ho Eo%N.eqb_eq]%find_Some_elem Hc. wp_go.
  assert (Hall : forall o', o' ∈ d_orders d -> o_ID o' = order -> o' = o).
  { intros o' Ho' Eo'. eapply unique_on_same; [apply (wo_ids _ _ (wf_o _ Hw))|done|done| |done]. cbn. congruence. }
  apply wp_guard.
  { intros Ec%negb_true_iff%N.eqb_neq. split; [done|]. split; [done|]. by intros [-> _]. }
  intros Ec%negb_false_iff%N.eqb_eq. wp_go. destruct (HasRole p RoleMachine) eqn:Er; cbn [negb]; wp_go.
  - wp_service. eapply wp_order_by_id; [exact Hc|done|done|exact Ho|done|]. clear w Hc. intros w Hc. wp_go.
    apply wp_guard; intros Ha; (split; [done|]).
    + apply negb_true_iff in Ha. split; [done|]. intros (_ & o' & Ho' & Eo' & [?|Hal]); [done|].
      rewrite (Hall o' Ho' Eo') in Hal. congruence.
    + apply negb_false_iff in Ha. split; [|done]. intros _. split; [done|]. exists o. auto.
  - split; [done|]. split; [|done]. intros _. split; [done|]. exists o. auto.
Qed.
End Sessions.
