(* ===== verification/MutationLaws.v ===== *)
(** * What the ledger of machine mutations promises

    Against any schedule: a mutation runs at most once per machine, operation
    and key ([MutationLedgerLaws], the interface; [mutations_run_once]).  In a
    quiet world: the answer is given again, other payloads are refused.  The
    fingerprint of a request ignores exactly its volatile fields. *)

From S2P Require Import Prelude.
From S2P Require Import GoStd.
From S2P Require Import Sha256.
From S2P Require Import JsonText.
From S2P Require Import Protobuf.
From S2P Require Import Pricing.
From S2P Require Import CommerceTypes.
From S2P Require Import Sanitize.
From S2P Require Import Evidence.
From S2P Require Import Rules.
From S2P Require Import Db.
From S2P Require Import Queries.
From S2P Require Import MachineIdempotency.
From S2P Require Import MachineReplay.
From S2P Require Import History.
From S2P Require Import CommerceService.
From S2P Require Import PgCommerce.
From S2P Require Import Logic.
Local Open Scope string_scope.
Local Open Scope list_scope.
Local Open Scope Z_scope.

(** ** The statements *)

Lemma same_mutation_spec m o k r :
  same_mutation m o k r = true <-> mutation_key r = Some (m, o, k).
Proof.
  unfold same_mutation, mutation_key. rewrite !andb_true_iff, N.eqb_eq, !String.eqb_eq.
  split; [by intros [[-> ->] ->]|by intros [= -> -> ->]].
Qed.
Lemma same_mutation_with m o k r st sn la ex tr :
  same_mutation m o k (mutation_with r st sn la ex tr) = same_mutation m o k r.
Proof. done. Qed.
(** Only the columns of [mutation_with] change. *)
Lemma update_mutations_safe p (f : Z -> MutationRow -> MutationRow) :
  (forall now r, exists st sn la ex tr, f now r = mutation_with r st sn la ex tr) ->
  forall now d, safe d (set_mutations (update_where p (f now)) d).
Proof.
  intros Hf now d. apply safe_mutations.
  - apply rows_kept_update; [apply _|]. intros r _. by destruct (Hf now r) as (? & ? & ? & ? & ? & ->).
  - intros H. apply unique_on_update; [by destruct H|]. intros r _.
    by destruct (Hf now r) as (? & ? & ? & ? & ? & ->).
Qed.
Lemma Upsert_safe machine operation key hash expires trace :
  sql_guarantee safe (fun now id d =>
    let same := same_mutation machine operation key in
    match List.find same (d_mutations d) with
    | Some r => Ok (Some (mutation_seen expires trace now r, false),
                    set_mutations (update_where same (mutation_seen expires trace now)) d)
    | None =>
        let row := mk_MutationRow id machine operation key hash None "in_progress" now now expires trace in
        let? _ := fk (fun m => m) machine (tp_Machines (d_topo d)) "machine_idempotency_keys_machine_id_fkey" in
        Ok (Some (row, true), set_mutations (fun l => l ++ [row]) d)
    end).
Proof.
  intros now id d r d'. cbn zeta. destruct (List.find _ _) as [x|] eqn:E.
  - intros [= <- <-]. apply (update_mutations_safe _ (mutation_seen expires trace)). intros. by eexists _, _, _, _, _.
  - unfold res_bind. destruct (fk _ _ _ _); [|done]. intros [= <- <-]. apply safe_mutations.
    + apply rows_kept_app, _.
    + intros [_ _ _ _ _ _ _ _ _ _ _ _ _ _ Hu]. apply unique_on_snoc; [done|]. intros c y [= <-] Hy Ey.
      eapply find_None_elem in E; [|exact Hy].
      assert (same_mutation machine operation key y = true) as Hs by (by apply same_mutation_spec). congruence.
Qed.

Section Statements.
Context {R : world -> world -> Prop} `{!Statement_rel safe R}.
Lemma ev_update_mutations p f :
  (forall now r, exists st sn la ex tr, f now r = mutation_with r st sn la ex tr) ->
  evolves R (stmt (update_mutations p f)).
Proof. intros Hf. apply sr_stmt. intros now id d r d' [= <- <-]. by apply update_mutations_safe. Qed.
Lemma ev_Upsert machine operation key hash expires trace :
  evolves R (UpsertMachineIdempotencyKey machine operation key hash expires trace).
Proof. apply sr_stmt, Upsert_safe. Qed.
Lemma ev_MarkConflict machine operation key : evolves R (MarkMachineIdempotencyConflict machine operation key).
Proof. apply ev_update_mutations. intros. by eexists _, _, _, _, _. Qed.
Lemma ev_MarkFailedQ trace machine operation key :
  evolves R (MarkMachineIdempotencyFailed trace machine operation key).
Proof. apply ev_update_mutations. intros. by eexists _, _, _, _, _. Qed.
Lemma ev_MarkSucceededQ `{ProtoCodec} snapshot trace machine operation key :
  evolves R (MarkMachineIdempotencySucceeded snapshot trace machine operation key).
Proof.
  apply sr_stmt. intros now id d r d'. unfold res_bind. destruct (jsonb_or_null snapshot) as [sn|]; [|done].
  apply (guarantee_update_rows safe). intros. apply (update_mutations_safe _ (mutation_succeeded sn trace)).
  intros. by eexists _, _, _, _, _.
Qed.
End Statements.
#[export] Hint Resolve ev_Upsert ev_MarkConflict ev_MarkFailedQ ev_MarkSucceededQ : evolves.

(** ** The row is never old

    The statement that looks for the row also stamps it, so the row a call
    gets back is as old as the call, and the branch that deletes a stale row
    is never taken. *)

Section Begin.
Context `{UuidText} `{ProtoCodec} (l : Ledger) (claims : MachineAccessClaims).

(** [BeginMutation] without that branch. *)
Definition begin_direct (operation key hash trace : string) (newResponse : string -> option string)
    : M world (MutationRow * option proto) :=
  let key := TrimSpace key in
  let! now := time_Now in
  let! row := attempt (UpsertMachineIdempotencyKey (mac_MachineID claims) operation key hash
                         (now + or_default (lg_idempotencyTTL l) DefaultTTL) trace) in
  match row with
  | Err _ => internal "machine idempotency lookup failed"
  | Ok row =>
      let! replay := decide_mutation l claims row newResponse operation key hash now in
      ret (row.1, replay)
  end.
Lemma Upsert_stamps machine operation key hash expires trace w row w' :
  UpsertMachineIdempotencyKey machine operation key hash expires trace w = (Ok row, w') ->
  mu_LastSeenAt row.1 = w_now w.
Proof.
  apply (stmt_result _ (fun row => mu_LastSeenAt row.1 = w_now w)). intros id d b d'. cbn zeta.
  destruct (List.find _ _); [by intros [= <- _]|]. destruct (fk _ _ _ _); [|done]. by intros [= <- _].
Qed.
Lemma fresh_not_stale now row : mu_LastSeenAt row.1 = now -> looks_stale (stale_cutoff l now) row = false.
Proof.
  intros Hr. unfold looks_stale, stale_cutoff. rewrite Hr.
  assert (0 < or_default (lg_staleInProgress l) DefaultInProgressStale).
  { unfold or_default. destruct (Z.leb_spec (lg_staleInProgress l) 0); [done|lia]. }
  rewrite (proj2 (Z.ltb_ge _ _)) by lia. by rewrite andb_false_r.
Qed.
Lemma begin_is_direct operation key hash trace newResponse w :
  BeginMutation l claims operation key hash trace newResponse w =
  begin_direct operation key hash trace newResponse w.
Proof.
  unfold BeginMutation, begin_direct, time_Now, gets, bind at 1 6. cbn [upsert_attempts].
  unfold bind, attempt, ret, internal, fail.
  destruct (UpsertMachineIdempotencyKey _ _ _ _ _ _ w) as [[row|e] w'] eqn:E; [|done].
  rewrite (fresh_not_stale (w_now w) row); [done|]. by eapply Upsert_stamps.
Qed.
End Begin.

(** ** The interface *)

(** Machine, operation and key of a mutation. *)
Definition mutation : Type := N * string * string.
Definition keeps {W} (ok : W -> Prop) (seen : W -> mutation -> Prop) (w w' : W) : Prop :=
  ok w -> ok w' /\ forall k, seen w k -> seen w' k.
#[export] Instance keeps_preorder {W} (ok : W -> Prop) seen : PreOrder (keeps ok seen).
Proof.
  split; [by intros w Hw|]. intros x y z Hxy Hyz Hx. destruct (Hxy Hx) as [Hy H1].
  destruct (Hyz Hy) as [Hz H2]. auto.
Qed.
(** In states that are [ok], the mutations [seen] stay so, and a mutation that
    is let through was not seen before and is seen from then on. *)
Class MutationLedgerLaws {W} (ledger : MutationLedger W) (ok : W -> Prop) (seen : W -> mutation -> Prop)
    : Prop := {
  mll_begin c op key hash tr new : evolves (keeps ok seen) (ml_BeginMutation W ledger c op key hash tr new);
  mll_succeeded c op key m tr : evolves (keeps ok seen) (ml_MarkSucceeded W ledger c op key m tr);
  mll_failed c op key tr : evolves (keeps ok seen) (ml_MarkFailed W ledger c op key tr);
  mll_begun c op key hash tr new w row w' : ok w ->
    ml_BeginMutation W ledger c op key hash tr new w = (Ok (row, None), w') ->
    ~ seen w (mac_MachineID c, op, TrimSpace key) /\ seen w' (mac_MachineID c, op, TrimSpace key) }.

(** The database keeps it, among clients that respect the tables. *)
Definition recorded (d : pgdb) (k : mutation) : Prop := exists r, r ∈ d_mutations d /\ mutation_key r = Some k.
Lemma recorded_safe d d' k : safe d d' -> recorded d k -> recorded d' k.
Proof.
  intros [Hg _] (r & Hr & Hk). destruct (rows_kept_elem _ _ _ _ (gr_mutations _ _ Hg) Hr) as (y & Hy & E).
  exists y. split; [done|]. rewrite <- Hk. injection E as E1 E2 E3 E4 E5 E6. unfold mutation_key. congruence.
Qed.
(** Tables that were [d0] once. *)
Definition kept_since (d0 : pgdb) (w : world) : Prop := polite safe (w_sched w) /\ safe d0 (w_db w).
Lemma world_safe_keeps {A} d0 (m : M world A) :
  evolves (world_rel safe) m -> evolves (keeps (kept_since d0) (fun w => recorded (w_db w))) m.
Proof.
  intros Hm w [Hp H0]. destruct (Hm w Hp) as [Hp' Hs]. split; [|intros k; by apply recorded_safe].
  split; [done|by etransitivity].
Qed.

Section Pg.
Context `{UuidText} `{ProtoCodec} (l : Ledger).
Context {R : world -> world -> Prop} `{!Statement_rel safe R}.
Context (audit_ok : forall f r, lg_audit l = Some f -> evolves R (f r)).

Lemma ev_recordAudit claims action op key meta : evolves R (recordAudit l claims action op key meta).
Proof. unfold recordAudit. destruct (lg_audit l) eqn:E; [apply evolves_ignore; by eapply audit_ok|evolve]. Qed.
#[local] Hint Resolve ev_recordAudit ev_time_Now : evolves.
Lemma ev_decide claims row new op key hash now : evolves R (decide_mutation l claims row new op key hash now).
Proof.
  unfold decide_mutation, replay_response, conflicting_payload, precondition, internal. evolve.
Qed.
#[local] Hint Resolve ev_decide : evolves.
Lemma ev_BeginMutation claims op key hash tr new : evolves R (BeginMutation l claims op key hash tr new).
Proof.
  assert (evolves R (begin_direct l claims op key hash tr new)) as Hd.
  { unfold begin_direct, internal. evolve. }
  intros w. rewrite begin_is_direct. apply Hd.
Qed.
Lemma ev_MarkSucceeded claims op key m tr : evolves R (MarkSucceeded claims op key m tr).
Proof. unfold MarkSucceeded, internal. evolve. Qed.
Lemma ev_MarkFailed claims op key tr : evolves R (MarkFailed claims op key tr).
Proof. unfold MarkFailed. evolve. Qed.
Lemma ev_interceptor cfg ctx req method handler :
  evolves R handler -> evolves R (UnaryServerInterceptor (pg_ledger l) cfg ctx req method handler).
Proof.
  intros Hh. unfold UnaryServerInterceptor, mutate, run_and_record, internal, precondition.
  cbn [pg_ledger ml_BeginMutation ml_MarkSucceeded ml_MarkFailed].
  pose proof ev_BeginMutation. pose proof ev_MarkSucceeded. pose proof ev_MarkFailed. evolve.
Qed.
End Pg.
#[export] Hint Resolve ev_BeginMutation ev_MarkSucceeded ev_MarkFailed : evolves.

(** Only an inserted row lets a mutation through. *)
Lemma decide_through `{UuidText} `{ProtoCodec} l claims row new op key hash now w w' :
  decide_mutation l claims row new op key hash now w = (Ok None, w') -> row.2 = true.
Proof.
  unfold decide_mutation, precondition, bind, fmap_M, ret, fail. intros E.
  repeat (case_match; simplify_eq; try done).
Qed.
Lemma upsert_inserts machine op key hash expires trace w row w' :
  polite safe (w_sched w) ->
  UpsertMachineIdempotencyKey machine op key hash expires trace w = (Ok row, w') -> row.2 = true ->
  ~ recorded (w_db w) (machine, op, key) /\ recorded (w_db w') (machine, op, key).
Proof.
  intros Hp E Hi. destruct (stmt_done safe _ _ _ _ E Hp) as (d & now & id & Hs & Ef). cbn zeta in Ef.
  destruct (List.find _ _) as [r|] eqn:Ed; [by injection Ef as <- _|].
  destruct (fk _ _ _ _); [|done]. injection Ef as <- Ew. rewrite <- Ew. split.
  - intros (r & Hr & Hk)%(recorded_safe _ d _ Hs). apply same_mutation_spec in Hk.
    pose proof (proj1 (find_None_elem _ _) Ed _ Hr). congruence.
  - unfold recorded, d_mutations. cbn. eexists. split; [apply elem_of_snoc; by right|done].
Qed.
#[export] Instance pg_ledger_laws `{UuidText} `{ProtoCodec} l d0 :
  (forall f r, lg_audit l = Some f -> evolves (world_rel safe) (f r)) ->
  MutationLedgerLaws (pg_ledger l) (kept_since d0) (fun w => recorded (w_db w)).
Proof.
  intros Ha. split; cbn [pg_ledger ml_BeginMutation ml_MarkSucceeded ml_MarkFailed]; [intros..|intros c op key hash tr new w row w' [Hp _] E0].
  - by apply world_safe_keeps, (ev_BeginMutation l (R := world_rel safe)).
  - apply world_safe_keeps, (ev_MarkSucceeded (R := world_rel safe)).
  - apply world_safe_keeps, (ev_MarkFailed (R := world_rel safe)).
  - rewrite begin_is_direct in E0. unfold begin_direct, time_Now, gets, internal, bind at 1, bind at 1, attempt at 1 in E0.
    destruct (UpsertMachineIdempotencyKey _ _ _ _ _ _ w) as [[r|e] w1] eqn:E; [|done].
    apply bind_inv_Ok in E0 as (replay & w2 & Ed & [= <- -> <-]).
    pose proof (decide_through _ _ _ _ _ _ _ _ _ _ Ed) as Hi.
    destruct (upsert_inserts _ _ _ _ _ _ _ _ _ Hp E Hi) as [Hn Hr]. split; [done|].
    pose proof (ev_Upsert (R := world_rel safe) (mac_MachineID c) op (TrimSpace key) hash
      (w_now w + or_default (lg_idempotencyTTL l) DefaultTTL) tr w Hp) as [Hp1 _]. rewrite E in Hp1.
    pose proof (ev_decide l Ha c r new op (TrimSpace key) hash (w_now w) w1 Hp1) as [_ Hs2]. rewrite Ed in Hs2.
    by eapply recorded_safe.
Qed.

(** ** At most once *)

(** One call that reaches the interceptor. *)
Record call (W : Type) := mk_call {
  cl_ctx : CallContext; cl_req : option proto; cl_method : string; cl_handler : M W (option proto) }.
(** The mutation a call asks for, when the interceptor gets as far as that. *)
Definition mutation_of {W} (cfg : InterceptorConfig) (c : call W) : option mutation :=
  if ic_IsIdempotentMutation cfg (cl_method W c) then
    match cx_claims (cl_ctx W c), cl_req W c with
    | Some claims, Some pm =>
        match MutationIdempotencyKey pm with
        | Ok key => Some (mac_MachineID claims, ledger_operation cfg (cl_method W c), TrimSpace key)
        | Err _ => None
        end
    | _, _ => None
    end
  else None.

Section Journal.
Context `{ProtoCodec} {W : Type} (ledger : MutationLedger W) (cfg : InterceptorConfig).
(** The state with the mutations whose handlers ran, in order. *)
Definition on_state {A} (m : M W A) : M (W * list mutation) A := fun s =>
  let '(r, w) := m s.1 in (r, (w, s.2)).
Definition journaled : MutationLedger (W * list mutation) :=
  mk_MutationLedger _ (fun c op key hash tr new => on_state (ml_BeginMutation W ledger c op key hash tr new))
    (fun c op key m tr => on_state (ml_MarkSucceeded W ledger c op key m tr))
    (fun c op key tr => on_state (ml_MarkFailed W ledger c op key tr)).
Definition logged (c : call W) : M (W * list mutation) (option proto) :=
  match mutation_of cfg c with
  | Some k => modify (fun s => (s.1, s.2 ++ [k])) ;;; on_state (cl_handler W c)
  | None => on_state (cl_handler W c)
  end.
Definition serve_calls (calls : list (call W)) : M (W * list mutation) unit :=
  for_each (fun c => ignore (UnaryServerInterceptor journaled cfg (cl_ctx W c) (cl_req W c) (cl_method W c) (logged c)))
    calls.

Context (ok : W -> Prop) (seen : W -> mutation -> Prop) `{!MutationLedgerLaws ledger ok seen}.
(** The journal grows by distinct mutations that were not seen. *)
Definition journal_ok (s s' : W * list mutation) : Prop :=
  ok s.1 -> NoDup s.2 -> (forall k, k ∈ s.2 -> seen s.1 k) ->
  (ok s'.1 /\ NoDup s'.2 /\ (forall k, k ∈ s'.2 -> seen s'.1 k)) /\
  (forall k, seen s.1 k -> seen s'.1 k) /\
  exists new, s'.2 = s.2 ++ new /\ forall k, k ∈ new -> ~ seen s.1 k.
#[local] Instance journal_ok_preorder : PreOrder journal_ok.
Proof.
  split.
  - intros s ? ? ?. split_and!; [done..|]. exists []. rewrite app_nil_r. split; [done|]. by intros k ?%elem_of_nil.
  - intros x y z Hxy Hyz Hx Hn Hs. destruct (Hxy Hx Hn Hs) as ((Hy & Hny & Hsy) & Hm & new & E & Hnew).
    destruct (Hyz Hy Hny Hsy) as (Hz & Hm' & new' & E' & Hnew'). split; [done|]. split; [auto|].
    exists (new ++ new'). rewrite E', E, <- app_assoc. split; [done|]. intros k [Hk|Hk]%elem_of_app; auto.
    intros Hk'. by apply (Hnew' k Hk), Hm.
Qed.
Lemma journal_on_state {A} (m : M W A) : evolves (keeps ok seen) m -> evolves journal_ok (on_state m).
Proof.
  intros Hm [w j] Hw Hn Hj. unfold on_state. cbn in *. destruct (Hm w Hw) as [Hw' Hs].
  destruct (m w) as [r w']; cbn in *. split_and!; auto. exists []. rewrite app_nil_r. split; [done|].
  by intros k ?%elem_of_nil.
Qed.
(** After a mutation was let through its handler is logged. *)
Lemma run_journaled c claims row op key tr k w j :
  evolves (keeps ok seen) (cl_handler W c) -> mutation_of cfg c = Some k ->
  ~ seen w k -> forall w1, ok w1 -> seen w1 k -> (forall k', seen w k' -> seen w1 k') ->
  ok w -> journal_ok (w, j) (run_and_record journaled claims row op key tr (logged c) (w1, j)).2.
Proof.
  intros Hh Ek Hnew w1 Hw1 Hk Hm Hw Hok Hn Hj. cbn [fst snd] in *.
  assert (Hrun : evolves journal_ok
    (run_and_record journaled claims row op key tr (on_state (cl_handler W c)))).
  { unfold run_and_record. apply evolves_bind; [apply _|apply evolves_attempt; by apply journal_on_state|].
    pose proof (fun m => journal_on_state _ (mll_succeeded claims (mu_Operation row) key m tr)) as Hsucc.
    pose proof (journal_on_state _ (mll_failed claims op key tr)) as Hfail.
    pose proof (evolves_ignore journal_ok _ Hfail) as Hfail'.
    unfold internal, precondition. evolve; first [apply Hsucc|exact Hfail]. }
  assert (E : run_and_record journaled claims row op key tr (logged c) (w1, j) =
              run_and_record journaled claims row op key tr (on_state (cl_handler W c)) (w1, j ++ [k])).
  { unfold run_and_record, logged, attempt. rewrite Ek. done. }
  rewrite E. destruct (Hrun (w1, j ++ [k])) as (Hend & Hm' & new & E' & Hnew'); cbn [fst snd] in *.
  - done.
  - apply NoDup_app. split_and!; [done| |apply NoDup_singleton].
    intros x Hx ->%list_elem_of_singleton. by apply Hnew, Hj.
  - intros x [Hx| ->%list_elem_of_singleton]%elem_of_app; auto.
  - split; [done|]. split; [auto|]. exists (k :: new). rewrite E', <- app_assoc. split; [done|].
    intros x [->|Hx]%elem_of_cons; [done|]. intros Hs. by apply (Hnew' x Hx), Hm.
Qed.
Lemma interceptor_journaled c :
  evolves (keeps ok seen) (cl_handler W c) ->
  evolves journal_ok
    (UnaryServerInterceptor journaled cfg (cl_ctx W c) (cl_req W c) (cl_method W c) (logged c)).
Proof.
  intros Hh. unfold UnaryServerInterceptor.
  destruct (ic_IsIdempotentMutation cfg (cl_method W c)) eqn:Em; cbn [negb].
  2: { unfold logged, mutation_of. rewrite Em. by apply journal_on_state. }
  destruct (cx_claims (cl_ctx W c)) as [claims|] eqn:Ec; [|evolve].
  destruct (cl_req W c) as [pm|] eqn:Er; [|evolve].
  destruct (MutationIdempotencyKey pm) as [key|] eqn:Ekey; [|evolve].
  destruct (HashMutationRequest pm) as [hash|]; [|evolve].
  assert (Ek : mutation_of cfg c = Some (mac_MachineID claims, ledger_operation cfg (cl_method W c), TrimSpace key))
    by (unfold mutation_of; by rewrite Em, Ec, Er, Ekey).
  apply evolves_fmap. intros [w j]. unfold mutate, bind at 1. cbn [journaled ml_BeginMutation].
  unfold on_state at 1. cbn [fst snd].
  set (op := ledger_operation cfg (cl_method W c)) in *.
  pose proof (mll_begin claims op key hash (trace_of cfg (cl_ctx W c)) (ic_NewMutationResponse cfg) w) as Hb.
  destruct (ml_BeginMutation W ledger claims op key hash _ _ w) as [[[row [replay|]]|e] w1] eqn:E; cbn [snd] in *.
  - intros Hw Hn Hj. cbn in *. destruct (Hb Hw) as [Hw1 Hm]. split_and!; auto. exists [].
    rewrite app_nil_r. split; [done|]. by intros k ?%elem_of_nil.
  - intros Hw Hn Hj. cbn [fst] in *. destruct (Hb Hw) as [Hw1 Hm]. destruct (mll_begun _ _ _ _ _ _ _ _ _ Hw E).
    by eapply run_journaled.
  - intros Hw Hn Hj. cbn in *. destruct (Hb Hw) as [Hw1 Hm]. split_and!; auto. exists [].
    rewrite app_nil_r. split; [done|]. by intros k ?%elem_of_nil.
Qed.
Lemma serve_journaled calls :
  Forall (fun c => evolves (keeps ok seen) (cl_handler W c)) calls -> evolves journal_ok (serve_calls calls).
Proof.
  unfold serve_calls. induction 1 as [|c calls Hc _ IH]; cbn; [evolve|].
  apply evolves_bind; [apply _|apply evolves_ignore; by apply interceptor_journaled|done].
Qed.
End Journal.

Lemma calls_run_once `{UuidText} `{ProtoCodec} l cfg calls w :
  (forall f r, lg_audit l = Some f -> evolves (world_rel safe) (f r)) ->
  Forall (fun c => evolves (world_rel safe) (cl_handler world c)) calls ->
  polite safe (w_sched w) ->
  let '(w', ran) := (serve_calls (pg_ledger l) cfg calls (w, [])).2 in
  safe (w_db w) (w_db w') /\ NoDup ran /\ forall k, k ∈ ran -> ~ recorded (w_db w) k /\ recorded (w_db w') k.
Proof.
  intros Ha Hh Hp. pose proof (pg_ledger_laws l (w_db w) Ha) as Hl.
  destruct (serve_journaled (pg_ledger l) cfg _ _ calls ltac:(eapply Forall_impl; [exact Hh|];
    intros c Hc; by apply (world_safe_keeps (w_db w))) (w, [])) as (([_ Hd] & Hn & Hs) & _ & new & E & Hnew);
    cbn [fst snd] in *; [by split|constructor|by intros k ?%elem_of_nil|].
  destruct (serve_calls _ _ _ _).2 as [w' ran]. cbn in *. subst ran. split_and!; auto.
Qed.


(** ** In a quiet world *)

Lemma set_mutations_twice f g d : set_mutations g (set_mutations f d) = set_mutations (fun r => g (f r)) d.
Proof. done. Qed.

Section Quiet.
Context `{UuidText} `{ProtoCodec} (l : Ledger) (cfg : InterceptorConfig).
Context (audit_quiet : forall f r, lg_audit l = Some f -> evolves quiet (f r)).
Context (n : N) (ctx : CallContext) (claims : MachineAccessClaims) (method : string) (pm : proto) (key hash : string).
Let op := ledger_operation cfg method.
Let mine := same_mutation (mac_MachineID claims) op (TrimSpace key).

(** A mutation the interceptor takes up. *)
Record taken_up : Prop := mk_taken_up {
  tu_mutation : ic_IsIdempotentMutation cfg method = true;
  tu_claims : cx_claims ctx = Some claims;
  tu_key : MutationIdempotencyKey pm = Ok key;
  tu_hash : HashMutationRequest pm = Ok hash }.
Context (Htu : taken_up).

Lemma wp_recordAudit t d w action op' k meta (Q : res unit -> world -> Prop) :
  calm_from n t d w -> (forall w', calm_from n t d w' -> Q (Ok tt) w') ->
  wp (recordAudit l claims action op' k meta) Q w.
Proof.
  intros Hc HQ. unfold recordAudit. destruct (lg_audit l) as [f|] eqn:E; [|wp_go; by apply HQ].
  apply wp_ignore. eapply wp_quiet; [by apply audit_quiet|exact Hc|]. intros _ w' Hc'. by apply HQ.
Qed.
Lemma wp_interceptor handler (Q : res (option proto) -> world -> Prop) w :
  wp (fmap_M Some (mutate (pg_ledger l) cfg ctx claims method key hash handler)) Q w ->
  wp (UnaryServerInterceptor (pg_ledger l) cfg ctx (Some pm) method handler) Q w.
Proof. destruct Htu as [Hm Hc Hk Hh]. unfold UnaryServerInterceptor. by rewrite Hm, Hc, Hk, Hh. Qed.

(** A mutation on record: the row is stamped, then decided. *)
Definition stamped_row (d : pgdb) (expires now : Z) : pgdb :=
  set_mutations (update_where mine (mutation_seen expires (trace_of cfg ctx) now)) d.
Lemma wp_begin_known d w r (Q : res (MutationRow * option proto) -> world -> Prop) :
  calm_from n NoTx d w -> List.find mine (d_mutations d) = Some r ->
  (forall expires now w1, w_now w < expires -> w_now w1 = now -> calm_from n NoTx (stamped_row d expires now) w1 ->
     wp (decide_mutation l claims (mutation_seen expires (trace_of cfg ctx) now r, false)
           (ic_NewMutationResponse cfg) op (TrimSpace key) hash (w_now w))
        (fun a w2 => Q (match a with Ok a => Ok (mutation_seen expires (trace_of cfg ctx) now r, a) | Err e => Err e end) w2) w1) ->
  wp (BeginMutation l claims op key hash (trace_of cfg ctx) (ic_NewMutationResponse cfg)) Q w.
Proof.
  intros Hc Hf HQ. unfold wp. rewrite begin_is_direct. change (wp (begin_direct l claims op key hash
    (trace_of cfg ctx) (ic_NewMutationResponse cfg)) Q w).
  unfold begin_direct, time_Now, gets. apply wp_bind. unfold wp at 1. cbn [fst snd].
  set (expires := w_now w + _).
  assert (Hexp : w_now w < expires).
  { unfold expires, or_default. destruct (Z.leb_spec (lg_idempotencyTTL l) 0); unfold DefaultTTL, Hour, Minute, Second; lia. }
  wp_go. eapply wp_stmt_at; [exact Hc|discriminate|..]; intros id; cbn zeta;
    change (same_mutation (mac_MachineID claims) op (TrimSpace key)) with mine; rewrite Hf.
  - intros a d' w1 [= <- <-] Hnow Hc1. wp_go. eapply wp_mono; [|by apply (HQ expires (w_now w) w1)].
    intros [a|e] w2; [|done]. by wp_go.
  - by intros d' w1 [=].
  - by intros e w1 [=].
Qed.

(** The answer on record is given again, marked; the handler does not run. *)
Lemma wp_replayed d w r text t m handler (Q : res (option proto) -> world -> Prop) :
  calm_from n NoTx d w -> List.find mine (d_mutations d) = Some r ->
  mu_RequestHash r = hash -> mu_Status r = "succeeded" -> mu_ResponseSnapshot r = Some text ->
  text <> "" -> ic_NewMutationResponse cfg op = Some t -> protojson_Unmarshal t text = Ok m ->
  (forall expires now w1, calm_from n NoTx (stamped_row d expires now) w1 ->
     Q (Ok (Some (decorated cfg m))) w1) ->
  wp (UnaryServerInterceptor (pg_ledger l) cfg ctx (Some pm) method handler) Q w.
Proof.
  intros Hc Hf Hh Hst Hsn Htx Ht Hm HQ. apply wp_interceptor, wp_fmap. unfold mutate. apply wp_bind.
  cbn [pg_ledger ml_BeginMutation]. eapply wp_begin_known; [exact Hc|exact Hf|].
  intros expires now w1 Hexp Hnow Hc1. unfold decide_mutation. cbn [fst snd mu_ExpiresAt mutation_seen mutation_with
    mu_RequestHash mu_Status].
  rewrite (proj2 (Z.ltb_ge _ _)) by lia. rewrite Hh, String.eqb_refl, Hst. cbn [negb].
  change (String.eqb (ToLower (TrimSpace "succeeded")) "succeeded") with true. cbn beta iota.
  wp_go. unfold replay_response. cbn [mu_ResponseSnapshot mutation_seen mutation_with]. rewrite Hsn.
  destruct (String.eqb_spec text ""); [done|]. rewrite Ht, Hm. wp_go.
  eapply wp_recordAudit; [exact Hc1|]. intros w2 Hc2. wp_go. by eapply HQ.
Qed.

(** What the row of an earlier call refuses. *)
Definition refusal (r : MutationRow) : option goerr :=
  if negb (String.eqb (mu_RequestHash r) hash) then
    Some (EStatus FailedPrecondition ErrMsgIdempotencyPayloadMismatch)
  else if String.eqb (mu_Status r) "in_progress" then
    Some (EStatus CodeAborted "idempotent operation already in progress")
  else if String.eqb (mu_Status r) "failed" then
    Some (EStatus FailedPrecondition "idempotent operation failed_final; use a new idempotency key")
  else if String.eqb (mu_Status r) "conflict" then
    Some (EStatus FailedPrecondition ErrMsgIdempotencyPayloadMismatch)
  else if String.eqb (mu_Status r) "expired" then
    Some (EStatus FailedPrecondition "idempotency key expired")
  else None.
Definition refused_db (d : pgdb) (r : MutationRow) (expires now now' : Z) : pgdb :=
  if String.eqb (mu_RequestHash r) hash then stamped_row d expires now
  else set_mutations (update_where mine (mutation_conflict now')) (stamped_row d expires now).
Lemma wp_refused d w r e handler :
  calm_from n NoTx d w -> List.find mine (d_mutations d) = Some r -> refusal r = Some e ->
  wp (UnaryServerInterceptor (pg_ledger l) cfg ctx (Some pm) method handler)
    (fun res w' => res = Err e /\ exists expires now now', calm_from n NoTx (refused_db d r expires now now') w') w.
Proof.
  intros Hc Hf He. apply wp_interceptor, wp_fmap. unfold mutate. apply wp_bind.
  cbn [pg_ledger ml_BeginMutation]. eapply wp_begin_known; [exact Hc|exact Hf|].
  intros expires now w1 Hexp Hnow Hc1. unfold decide_mutation. cbn [fst snd mu_ExpiresAt mutation_seen mutation_with
    mu_RequestHash mu_Status].
  rewrite (proj2 (Z.ltb_ge _ _)) by lia. unfold refusal in He. unfold refused_db.
  destruct (String.eqb (mu_RequestHash r) hash); cbn [negb] in *.
  - unfold precondition, time_Now, gets.
    repeat match type of He with (if String.eqb _ ?s then _ else _) = _ =>
      destruct (String.eqb_spec (mu_Status r) s) as [->|] end; try done; injection He as <-;
      lazymatch goal with |- context [ToLower (TrimSpace ?s)] => change (ToLower (TrimSpace s)) with s end;
      cbn [String.eqb Ascii.eqb Bool.eqb eqb].
    1: { wp_go. unfold wp at 1. cbn [fst snd]. rewrite Hnow, Z.sub_diag.
         unfold or_default. destruct (Z.leb_spec (lg_staleInProgress l) 0);
           rewrite (proj2 (Z.ltb_ge _ _)) by (unfold DefaultInProgressStale, Minute, Second; lia);
           wp_go; (split; [done|]); by exists expires, now, 0. }
    all: wp_go; (split; [done|]); by exists expires, now, 0.
  - injection He as <-. unfold conflicting_payload, precondition, MarkMachineIdempotencyConflict. wp_go.
    eapply wp_stmt; [exact Hc1|discriminate|..]; unfold update_mutations; intros now' id;
      [intros a d' w2 _ [= _ <-] Hc2|done|done].
    wp_go. eapply wp_recordAudit; [exact Hc2|]. intros w3 Hc3. wp_go. split; [done|].
    by exists expires, now, now'.
Qed.

(** A new mutation: its row is inserted, the handler runs, the answer is
    stored. *)
Definition begun_row (id : N) (now expires : Z) : MutationRow :=
  mk_MutationRow id (mac_MachineID claims) op (TrimSpace key) hash None "in_progress" now now expires (trace_of cfg ctx).
Definition begun_db (d : pgdb) (id : N) (now expires : Z) : pgdb :=
  set_mutations (fun rows => rows ++ [begun_row id now expires]) d.
Definition answered_row (r : MutationRow) (stored : string) (now : Z) : MutationRow :=
  mutation_succeeded (Some stored) (trace_of cfg ctx) now r.
Lemma find_begun d id now expires :
  List.find mine (d_mutations d) = None -> List.find mine (d_mutations (begun_db d id now expires)) = Some (begun_row id now expires).
Proof.
  intros Hf. unfold begun_db, d_mutations. cbn. fold (d_mutations d). rewrite find_snoc, Hf. cbn.
  unfold mine, same_mutation, begun_row. cbn. by rewrite N.eqb_refl, !String.eqb_refl.
Qed.
Lemma begun_wf d id now expires :
  wf d -> List.find mine (d_mutations d) = None -> mac_MachineID claims ∈ tp_Machines (d_topo d) ->
  wf (begun_db d id now expires).
Proof.
  intros Hw Hf Hm.
  assert (Hfk : fk (fun m => m) (mac_MachineID claims) (tp_Machines (d_topo d))
    "machine_idempotency_keys_machine_id_fkey" = Ok tt) by (apply fk_elem; by rewrite map_id).
  apply (Upsert_safe (mac_MachineID claims) op (TrimSpace key) hash expires (trace_of cfg ctx) now id d
    (Some (begun_row id now expires, true))); [|done].
  cbn zeta beta. change (same_mutation (mac_MachineID claims) op (TrimSpace key)) with mine. by rewrite Hf, Hfk.
Qed.
Lemma wp_begin_new d w (Q : res (MutationRow * option proto) -> world -> Prop) :
  calm_from n NoTx d w -> List.find mine (d_mutations d) = None ->
  mac_MachineID claims ∈ tp_Machines (d_topo d) ->
  (forall id expires w1, w_now w1 = w_now w -> calm_from n NoTx (begun_db d id (w_now w) expires) w1 ->
     Q (Ok (begun_row id (w_now w) expires, None)) w1) ->
  wp (BeginMutation l claims op key hash (trace_of cfg ctx) (ic_NewMutationResponse cfg)) Q w.
Proof.
  intros Hc Hf Hm HQ. unfold wp. rewrite begin_is_direct. change (wp (begin_direct l claims op key hash
    (trace_of cfg ctx) (ic_NewMutationResponse cfg)) Q w).
  unfold begin_direct, time_Now, gets. apply wp_bind. unfold wp at 1. cbn [fst snd].
  set (expires := w_now w + _).
  assert (Hexp : w_now w < expires).
  { unfold expires, or_default. destruct (Z.leb_spec (lg_idempotencyTTL l) 0); unfold DefaultTTL, Hour, Minute, Second; lia. }
  assert (Hfk : fk (fun m => m) (mac_MachineID claims) (tp_Machines (d_topo d))
    "machine_idempotency_keys_machine_id_fkey" = Ok tt) by (apply fk_elem; by rewrite map_id).
  wp_go. eapply wp_stmt_at; [exact Hc|discriminate|..]; intros id; cbn zeta;
    change (same_mutation (mac_MachineID claims) op (TrimSpace key)) with mine; rewrite Hf, Hfk; cbn [res_bind].
  - intros a d' w1 [= <- <-] Hnow Hc1. wp_go. unfold decide_mutation.
    cbn [fst snd mu_ExpiresAt mu_RequestHash mu_Status]. rewrite (proj2 (Z.ltb_ge _ _)) by lia.
    rewrite String.eqb_refl. cbn [negb].
    change (ToLower (TrimSpace "in_progress")) with "in_progress". cbn [String.eqb Ascii.eqb Bool.eqb eqb].
    wp_go. by eapply (HQ id expires).
  - by intros d' w1 [=].
  - by intros e w1 [=].
Qed.
Lemma wp_stored d w r m text (Q : res unit -> world -> Prop) `{!ProtoCodecLaws _} :
  calm_from n NoTx d w -> List.find mine (d_mutations d) = Some r -> column_text m text ->
  (forall stored now w1, stored <> "" -> protojson_Unmarshal (pm_type m) stored = Ok m ->
     calm_from n NoTx (set_mutations (update_where mine (fun x => answered_row x stored now)) d) w1 -> Q (Ok tt) w1) ->
  wp (MarkSucceeded claims op key m (trace_of cfg ctx)) Q w.
Proof.
  intros Hc Hf [Hm Htx] HQ. unfold MarkSucceeded. rewrite Hm.
  destruct (protojson_object _ _ Hm) as (Htrim & Hne & Hnull & Hp).
  destruct (protojson_stored m text (conj Hm Htx)) as (stored & Hj & Hs & Hu).
  assert (Hreq : RequiredJSONText text = text).
  { unfold RequiredJSONText. rewrite Htrim. destruct (String.eqb_spec text ""); [done|].
    destruct (String.eqb_spec text "null"); [done|]. by destruct Hp as [j ->]. }
  rewrite Hreq. unfold MarkMachineIdempotencySucceeded, jsonb_or_null.
  destruct (String.eqb_spec text ""); [done|]. rewrite Hj. cbn [res_bind].
  wp_go. eapply (wp_update_rows d_mutations set_mutations); [exact Hc|discriminate|..];
    change (same_mutation (mac_MachineID claims) op (TrimSpace key)) with mine; rewrite Hf.
  - intros now r' w1 [= <-] _ Hc1. wp_go. exact (HQ stored now w1 Hs Hu Hc1).
  - done.
  - done.
Qed.
(** A mutation without a row. *)
Lemma find_unrecorded d : ~ recorded d (mac_MachineID claims, op, TrimSpace key) -> List.find mine (d_mutations d) = None.
Proof.
  intros Hnew. apply find_None_elem. intros r Hr. destruct (mine r) eqn:Es; [|done].
  destruct Hnew. exists r. split; [done|]. by apply same_mutation_spec.
Qed.
Lemma find_answered rows r stored now :
  List.find mine rows = Some r ->
  List.find mine (update_where mine (fun x => answered_row x stored now) rows) = Some (answered_row r stored now).
Proof.
  intros Hf. rewrite find_update_where, Hf by done. cbn. by rewrite (proj2 (find_Some_elem _ _ _ Hf)).
Qed.
End Quiet.

(** Two calls of one mutation, the first of which is answered with a message
    and tables that have [answers]. *)
Definition twice `{UuidText} `{ProtoCodec} (l : Ledger) (cfg : InterceptorConfig) (c1 c2 : call world)
    : M world (option proto * option proto) :=
  let serve c := UnaryServerInterceptor (pg_ledger l) cfg (cl_ctx world c) (cl_req world c) (cl_method world c) (cl_handler world c) in
  let! a := serve c1 in let! b := serve c2 in ret (a, b).
Definition resends (cfg : InterceptorConfig) (method1 key1 method2 key2 : string) : Prop :=
  ledger_operation cfg method2 = ledger_operation cfg method1 /\ TrimSpace key2 = TrimSpace key1.
Definition answering `{ProtoCodec} (t : string) (answers : proto -> pgdb -> Prop) (mutations : list MutationRow)
    (r : res (option proto)) (w : world) : Prop :=
  exists m text d, r = Ok (Some m) /\ pm_type m = t /\ column_text m text /\ answers m d /\
    calm NoTx d w /\ d_mutations d = mutations.
Lemma wp_answered_again `{UuidText} `{ProtoCodec} `{!ProtoCodecLaws _} l cfg n claims
    ctx1 method1 pm1 key1 ctx2 method2 pm2 key2 hash d w t answers handler1 handler2 :
  (forall f r, lg_audit l = Some f -> evolves quiet (f r)) ->
  taken_up cfg ctx1 claims method1 pm1 key1 hash -> taken_up cfg ctx2 claims method2 pm2 key2 hash ->
  resends cfg method1 key1 method2 key2 -> ic_NewMutationResponse cfg (ledger_operation cfg method1) = Some t ->
  calm_from n NoTx d w -> mac_MachineID claims ∈ tp_Machines (d_topo d) ->
  ~ recorded d (mac_MachineID claims, ledger_operation cfg method1, TrimSpace key1) ->
  (forall id expires w1, w_now w1 = w_now w ->
     calm_from n NoTx (begun_db cfg ctx1 claims method1 key1 hash d id (w_now w) expires) w1 ->
     wp handler1 (answering t answers (d_mutations (begun_db cfg ctx1 claims method1 key1 hash d id (w_now w) expires))) w1) ->
  wp (twice l cfg (mk_call world ctx1 (Some pm1) method1 handler1) (mk_call world ctx2 (Some pm2) method2 handler2))
    (fun r w' => exists m d2 f, r = Ok (Some m, Some (decorated cfg m)) /\ answers m d2 /\
       calm NoTx (set_mutations f d2) w') w.
Proof.
  intros Ha Htu1 Htu2 [Hop Hkey] Ht Hc Hmach Hnew Hh.
  pose proof (find_unrecorded cfg claims method1 key1 d Hnew) as Hf.
  unfold twice. cbn [cl_ctx cl_req cl_method cl_handler].
  apply wp_bind, (wp_interceptor l cfg ctx1 claims method1 pm1 key1 hash Htu1), wp_fmap.
  unfold mutate. apply wp_bind. cbn [pg_ledger ml_BeginMutation].
  eapply wp_begin_new; [exact Hc|exact Hf|exact Hmach|]. intros id expires w1 Hnow Hc1. cbn [fst snd].
  unfold run_and_record. wp_go. eapply wp_mono; [|exact (Hh id expires w1 Hnow Hc1)].
  intros r w2 (m & text & d2 & -> & Hty & Hm & Hans & Hc2 & Hmu). wp_go.
  cbn [pg_ledger ml_MarkSucceeded begun_row mu_Operation].
  pose proof (find_begun cfg ctx1 claims method1 key1 hash d id (w_now w) expires Hf) as Hf2. rewrite <- Hmu in Hf2.
  eapply wp_stored; [exact _|exact Hc2|exact Hf2|exact Hm|]. intros stored now' w3 Hs Hu Hc3. wp_go.
  apply (find_answered cfg ctx1 claims method1 key1 _ _ stored now') in Hf2.
  rewrite <- Hop, <- Hkey in Hf2, Hc3.
  eapply wp_replayed; [exact Ha|exact Htu2|exact Hc3|exact Hf2|done..|by rewrite Hop|rewrite <- Hty; exact Hu|].
  intros expires' now'' w4 Hc4. wp_go.
  unfold stamped_row in Hc4. rewrite set_mutations_twice in Hc4. by eexists m, d2, _.
Qed.

(** C15: a mutation whose handler answered is answered again from the ledger: when the same request
    comes a second time, under the same key and with the same fingerprint, by any name of the same
    operation, the answer is the stored one, marked as a replay, and the handler of the second call
    does not run; the tables are those the first handler left, but for the ledger's. *)
Theorem mutation_answered_again `{UuidText} `{ProtoCodec} `{!ProtoCodecLaws _} l cfg n claims
    ctx1 method1 pm1 key1 ctx2 method2 pm2 key2 hash d w t answers handler1 handler2 :
  (forall f r, lg_audit l = Some f -> evolves quiet (f r)) ->
  taken_up cfg ctx1 claims method1 pm1 key1 hash -> taken_up cfg ctx2 claims method2 pm2 key2 hash ->
  resends cfg method1 key1 method2 key2 -> ic_NewMutationResponse cfg (ledger_operation cfg method1) = Some t ->
  calm_from n NoTx d w -> mac_MachineID claims ∈ tp_Machines (d_topo d) ->
  ~ recorded d (mac_MachineID claims, ledger_operation cfg method1, TrimSpace key1) ->
  (forall id expires w1, w_now w1 = w_now w ->
     calm_from n NoTx (begun_db cfg ctx1 claims method1 key1 hash d id (w_now w) expires) w1 ->
     wp handler1 (answering t answers (d_mutations (begun_db cfg ctx1 claims method1 key1 hash d id (w_now w) expires))) w1) ->
  wp (twice l cfg (mk_call world ctx1 (Some pm1) method1 handler1) (mk_call world ctx2 (Some pm2) method2 handler2))
    (fun r w' => exists m d2 f, r = Ok (Some m, Some (decorated cfg m)) /\ answers m d2 /\
       calm NoTx (set_mutations f d2) w') w.
Proof. apply wp_answered_again. Qed.

(** a mutation on record that cannot be answered again is refused, with the error of its case,
    and its handler does not run: another payload under the key (whatever became of the first
    request), a request that is still in progress, one that failed for good, one in conflict or
    expired.  Only the ledger's row changes. *)
Theorem mutation_refused `{UuidText} `{ProtoCodec} l cfg n ctx claims method pm key hash d w r e handler :
  (forall f a, lg_audit l = Some f -> evolves quiet (f a)) -> taken_up cfg ctx claims method pm key hash ->
  wf d -> calm_from n NoTx d w -> r ∈ d_mutations d ->
  mutation_key r = Some (mac_MachineID claims, ledger_operation cfg method, TrimSpace key) ->
  refusal hash r = Some e ->
  wp (UnaryServerInterceptor (pg_ledger l) cfg ctx (Some pm) method handler)
    (fun res w' => res = Err e /\ exists f, calm_from n NoTx (set_mutations f d) w') w.
Proof.
  intros Ha Htu Hw Hc Hr Hk He.
  assert (Hf : List.find (same_mutation (mac_MachineID claims) (ledger_operation cfg method) (TrimSpace key))
                 (d_mutations d) = Some r).
  { destruct (List.find _ _) as [x|] eqn:E.
    - apply find_Some_elem in E as [Hx Hm%same_mutation_spec]. f_equal.
      eapply unique_on_same; [exact (wf_mu _ Hw)|done|done|congruence|by rewrite Hm].
    - pose proof (proj1 (find_None_elem _ _) E r Hr) as Hn. apply same_mutation_spec in Hk. congruence. }
  eapply wp_mono; [|by eapply wp_refused]. intros res w' (-> & expires & now & now' & Hc'). split; [done|].
  unfold refused_db, stamped_row in Hc'. destruct (String.eqb _ _); [eauto|].
  rewrite set_mutations_twice in Hc'. eauto.
Qed.

(** ** The fingerprint *)

(** The texts and times that change from one sending to the next. *)
Definition text_varies (name : string) : Prop := name ∈ ["request_id"; "client_event_id"; "simulation_run_id"].
Definition time_varies (name : string) : Prop := name ∈ ["client_created_at"; "captured_at"; "generated_at"; "occurred_at"].
(** The field named [name] of a request and of its retry. *)
Inductive resent (name : string) : pvalue -> pvalue -> Prop :=
| resent_same v : resent name v v
| resent_text s s' : text_varies name -> resent name (PString s) (PString s')
| resent_optional o o' : text_varies name -> resent name (POptString o) (POptString o')
| resent_time t fs t' fs' : time_varies name -> resent name (PMessage t fs) (PMessage t' fs')
| resent_time_set t fs : time_varies name -> resent name PNil (PMessage t fs)
| resent_time_unset t fs : time_varies name -> resent name (PMessage t fs) PNil
| resent_message t fs fs' :
    Forall2 (fun x y => x.1 = y.1 /\ resent x.1 x.2 y.2) fs fs' -> resent name (PMessage t fs) (PMessage t fs').
Definition retry_of (m m' : proto) : Prop :=
  pm_type m = pm_type m' /\ Forall2 (fun x y => x.1 = y.1 /\ resent x.1 x.2 y.2) (pm_fields m) (pm_fields m').
Lemma text_varies_spec name : text_varies name <-> volatile_text name = true.
Proof. unfold text_varies, volatile_text. by rewrite one_of_spec. Qed.
Lemma time_varies_spec name : time_varies name <-> isVolatileTimestampField name = true.
Proof. unfold time_varies, isVolatileTimestampField. by rewrite one_of_spec. Qed.

Definition scrub_field (nv : string * pvalue) : string * pvalue := (nv.1, scrub_value nv.1 nv.2).
Lemma scrub_message name t fs :
  scrub_value name (PMessage t fs) =
  if isVolatileTimestampField name then PNil else PMessage t (map scrub_field fs).
Proof.
  cbn [scrub_value]. destruct (isVolatileTimestampField name); [done|]. f_equal.
  apply map_ext. intros [n v].
  reflexivity.
Qed.
Lemma scrub_fields_resent (fs fs' : list (string * pvalue)) :
  Forall (fun nv => forall name v', resent name nv.2 v' <-> scrub_value name nv.2 = scrub_value name v') fs ->
  Forall2 (fun x y => x.1 = y.1 /\ resent x.1 x.2 y.2) fs fs' <-> map scrub_field fs = map scrub_field fs'.
Proof.
  intros Hfs. revert fs'. induction Hfs as [|[n v] fs Hv _ IH]; intros fs'; cbn in *.
  - split; [by inversion 1|]. by destruct fs'.
  - destruct fs' as [|[n' v'] fs']; [split; [by inversion 1|done]|]. rewrite Forall2_cons. cbn [fst snd map].
    change (scrub_field (n, v)) with (n, scrub_value n v). change (scrub_field (n', v')) with (n', scrub_value n' v').
    split.
    + intros [[-> Hr%Hv] ->%IH]. by rewrite Hr.
    + intros [= -> Hr Hm]. split; [split; [done|by apply Hv]|by apply IH].
Qed.
#[local] Arguments volatile_text : simpl never.
#[local] Arguments isVolatileTimestampField : simpl never.
Lemma scrub_value_resent v : forall name v', resent name v v' <-> scrub_value name v = scrub_value name v'.
Proof.
  induction v as [s|o|b|z| |t fs IH|vs IH] using pvalue_ind_deep; intros name v'.
  all: split;
    [intros Hr; inversion Hr; subst; rewrite ?scrub_message; cbn [scrub_value];
       repeat match goal with
         | H : text_varies _ |- _ => apply text_varies_spec in H; rewrite H; clear H
         | H : time_varies _ |- _ => apply time_varies_spec in H; rewrite H; clear H
         end; try done
    |destruct v'; rewrite ?scrub_message; cbn [scrub_value]; intros E;
       destruct (volatile_text name) eqn:?; destruct (isVolatileTimestampField name) eqn:?; simplify_eq;
       try (by constructor; first [apply text_varies_spec|apply time_varies_spec])].
  - destruct (isVolatileTimestampField name); [done|]. f_equal. by apply scrub_fields_resent.
  - apply resent_message, scrub_fields_resent; done.
  - apply resent_message, scrub_fields_resent; done.
Qed.

(** Two requests have the same scrubbed form, the one that is hashed, exactly when they differ in
    nothing but volatile texts and times: so a sending and its retry have one fingerprint. *)
Theorem fingerprint_ignores_volatile `{ProtoCodec} m m' :
  (scrubVolatileFieldsForLedger m = scrubVolatileFieldsForLedger m' <-> retry_of m m') /\
  (retry_of m m' -> HashMutationRequest m = HashMutationRequest m').
Proof.
  assert (E : scrubVolatileFieldsForLedger m = scrubVolatileFieldsForLedger m' <-> retry_of m m').
  { unfold retry_of. rewrite scrub_fields_resent
      by (apply Forall_forall; intros nv _; apply scrub_value_resent).
    unfold scrubVolatileFieldsForLedger. fold scrub_field. split; [by intros [= -> ->]|by intros [-> ->]]. }
  split; [done|]. intros Hr%E. unfold HashMutationRequest. by rewrite Hr.
Qed.

(** The key of a batch to reconcile does not depend on the order of its keys. *)
Lemma synthetic_key_perm keys keys' :
  keys ≡ₚ keys' -> reconcileEventsSyntheticKey keys = reconcileEventsSyntheticKey keys'.
Proof.
  intros Hp. unfold reconcileEventsSyntheticKey.
  by rewrite (sort_strings_perm (map TrimSpace keys) (map TrimSpace keys')) by (by rewrite Hp).
Qed.

(** ** The methods *)

(** What is needed of one method. *)
Definition replayable (method : string) : bool :=
  let op := canonicalMachineMutationOperation method in
  String.eqb (ledger_operation machine_replay_config method) op && isMachineIdempotentMutation op &&
  String.eqb (canonicalMachineMutationOperation op) op &&
  match newMachineMutationResponse op, declared_response method with
  | Some t, Some t' =>
      String.eqb t t' || String.eqb method (commerce_rpc "ReportVendSuccess") &&
                         String.eqb t (machine_v1 "ConfirmVendSuccessResponse")
  | _, _ => false
  end.
Lemma all_replayable : forallb replayable machine_mutations = true.
Proof. vm_compute. reflexivity. Qed.

(** C35: every method the ledger guards can be replayed: its operation is itself a guarded method and
    its own operation, and the message a stored answer is decoded into exists (so the lookup does not
    panic) and is the one the method declares; ReportVendSuccess alone is answered with the message of
    ConfirmVendSuccess, whose fields are the same. *)
Theorem replays_are_typed method :
  isMachineIdempotentMutation method = true ->
  let op := ledger_operation machine_replay_config method in
  isMachineIdempotentMutation op = true /\ ledger_operation machine_replay_config op = op /\
  exists t, newMachineMutationResponse op = Some t /\
    (declared_response method = Some t \/
     method = commerce_rpc "ReportVendSuccess" /\ t = machine_v1 "ConfirmVendSuccessResponse").
Proof.
  assert (Hall : forall m, isMachineIdempotentMutation m = true -> replayable m = true).
  { intros m Hm. pose proof (proj1 (forallb_forall _ _) all_replayable m) as H. apply H.
    apply existsb_exists in Hm as (x & Hx & ->%String.eqb_eq). done. }
  intros Hm. pose proof (Hall _ Hm) as Hr. unfold replayable in Hr. cbn zeta in Hr.
  rewrite !andb_true_iff, !String.eqb_eq in Hr. destruct Hr as [[[Eop Hop] Hcan] Hty]. cbn zeta. rewrite Eop.
  split; [done|]. pose proof (Hall _ Hop) as Hr2. unfold replayable in Hr2. cbn zeta in Hr2.
  rewrite !andb_true_iff, !String.eqb_eq in Hr2. destruct Hr2 as [[[Eop2 _] _] _].
  split; [by rewrite Eop2|].
  destruct (newMachineMutationResponse _) as [t|]; [|done]. destruct (declared_response method) as [t'|]; [|done].
  exists t. split; [done|]. rewrite orb_true_iff, andb_true_iff, !String.eqb_eq in Hty. naive_solver.
Qed.
