(* ===== verification/CashSales.v ===== *)
(** * Sales paid in cash

    What the confirmation of a cash payment leaves in the tables, and the
    whole sale of a machine that was offline. *)

From S2P Require Import Prelude.
From S2P Require Import GoStd.
From S2P Require Import JsonText.
From S2P Require Import Pricing.
From S2P Require Import CommerceTypes.
From S2P Require Import Sanitize.
From S2P Require Import Evidence.
From S2P Require Import Snapshot.
From S2P Require Import Rules.
From S2P Require Import CommerceService.
From S2P Require Import ServiceLaws.
From S2P Require Import Db.
From S2P Require Import Queries.
From S2P Require Import History.
From S2P Require Import PgCommerce.
From S2P Require Import Quotes.
From S2P Require Import OfflineSale.
From S2P Require Import StoreLaws.
From S2P Require Import Logic.
From S2P Require Import Backend.
From S2P Require Import Settlement.
From S2P Require Import Webhooks.
From S2P Require Import Orders.
Local Open Scope string_scope.
Local Open Scope list_scope.
Local Open Scope Z_scope.

(** ** Rows that are new *)

Section Statements.
Context {A : Type} (n : N) (t : txstate) (d : pgdb) (w : world).
Context (Hc : calm_from n t d w) (Hna : t <> Aborted).

Lemma wp_insert_or_get_new get (set : (list A -> list A) -> pgdb -> pgdb) same chk row
    (Q : res A -> world -> Prop) :
  wf d -> sql_guarantee safe (insert_or_get get set same chk row) ->
  (forall x, x ∈ get d -> same x = false) -> (forall now id, (n <= id)%N -> chk (row now id) d = Ok tt) ->
  (forall now id w', wf (set (fun l => l ++ [row now id]) d) ->
     calm_from n t (set (fun l => l ++ [row now id]) d) w' -> Q (Ok (row now id)) w') ->
  wp (stmt (insert_or_get get set same chk row)) Q w.
Proof.
  intros Hw Hs Hnew Hok HQ.
  assert (E : forall now id, insert_or_get get set same chk row now id d = insert_row set chk row now id d).
  { intros now id. unfold insert_or_get. by rewrite (proj2 (find_None_elem _ _)). }
  eapply (wp_stmt _ n t d w); [done|done|..]; unfold insert_row in E.
  - intros now id a d' w' Hid. intros Er. pose proof (Hs _ _ _ _ _ Er) as [_ Hw'].
    rewrite E, Hok in Er by done. injection Er as <- <-. eauto.
  - intros now id d' w' Hid. by rewrite E, Hok.
  - intros now id e w' Hid. by rewrite E, Hok.
Qed.
End Statements.

Section Cash.
Context `{UuidText} `{Sha256} (x : Externals).

(** ** One confirmation *)

Definition cash_start (i : ConfirmCashPaymentInput) (o : Order) (allocated : Z) : StartPaymentInput :=
  cash_payment i allocated (cash_currency i o).
Definition allocation_row (i : ConfirmCashPaymentInput) (o : Order) (allocated : Z) (consent : string)
    (pay : N) (now : Z) (id : N) : CashAllocationRow :=
  mk_CashAllocationRow id (cc_OrderID i) (Some pay) (cc_MachineID i) allocated (cc_PreOrderCreditMinor i)
    (cc_PostOrderInsertedMinor i) consent (cc_ConsentedAt i) (cash_currency i o)
    (Some (TrimSpace (cc_IdempotencyKey i) +:+ ":cash:allocation")) now.
Definition allocated_entry (i : ConfirmCashPaymentInput) (o : Order) (allocated : Z) (pay : N) (at_ : Z)
    (id : N) : LedgerRow :=
  mk_LedgerRow id (Some (cc_MachineID i)) (Some (cc_OrderID i)) (Some pay) "cash_allocated" allocated
    (cash_currency i o) at_ None (RequiredString (JObj [])).

(** A first confirmation of an open order, without evidence of single notes and
    without change. *)
Record cash_due (i : ConfirmCashPaymentInput) (o : Order) (allocated : Z) (consent : string) (n : N) (d : pgdb)
    : Prop := mk_cash_due {
  ch_arbitration : ex_winnerArbitrationEnabled x = true;
  ch_order : o ∈ d_orders d;
  ch_order_id : o_ID o = cc_OrderID i;
  ch_ids : cc_OrderID i <> uuid_Nil /\ cc_MachineID i <> uuid_Nil /\ n <> uuid_Nil;
  ch_machine : o_MachineID o = cc_MachineID i;
  ch_key : blank (TrimSpace (cc_IdempotencyKey i)) = false;
  ch_open : orderStatusTerminal (o_Status o) = false;
  ch_unpaid : o_WinningPaymentID o = None;
  ch_amount : cash_amount i o = Ok (allocated, consent);
  ch_consent : consent <> "unknown";
  ch_amounts : 0 <= allocated /\ 0 <= cc_PreOrderCreditMinor i /\ 0 <= cc_PostOrderInsertedMinor i;
  ch_no_events : cc_AcceptanceEvents i = [];
  ch_no_change : cc_ChangeDueMinor i <= 0 /\ normalizeChangeOutcome (cc_ChangeOutcome i) = "none";
  ch_currency : len (cash_currency i o) <= 3;
  ch_start : validateStartPayment (cash_start i o allocated) = Ok tt;
  ch_room : payment_room (payment_input (cash_start i o allocated)) n d;
  ch_new : forall a, a ∈ d_allocations d -> al_OrderID a = cc_OrderID i ->
    al_IdempotencyKey a <> Some (TrimSpace (cc_IdempotencyKey i) +:+ ":cash:allocation") }.

(** The tables after it. *)
Record cash_paid (i : ConfirmCashPaymentInput) (o : Order) (allocated : Z) (consent : string)
    (pay : Payment) (ob : OutboxEvent) (al : CashAllocationRow) (led : LedgerRow) (now : Z) (d d' : pgdb) : Prop :=
  mk_cash_paid {
  cp_orders : d_orders d' = update_where (fun y => (o_ID y =u o_ID o) && is_none (o_WinningPaymentID y))
    (fun y => claimed y (p_ID pay) now) (d_orders d);
  cp_payments : d_payments d' =
    update_where (fun q => p_ID q =u p_ID pay) (fun q => payment_with q (p_State q) "winner") (d_payments d ++ [pay]);
  cp_new : p_ID pay ∉ map p_ID (d_payments d);
  cp_payment : p_State pay = "captured" /\ p_AmountMinor pay = allocated /\ p_OrderID pay = o_ID o /\
    p_Provider pay = "cash" /\ p_AttemptSeq pay = next_attempt_seq (o_ID o) d;
  cp_outbox : d_outbox d' = d_outbox d ++ [ob];
  cp_allocations : d_allocations d' = d_allocations d ++ [al];
  cp_allocation : al = allocation_row i o allocated consent (p_ID pay) (al_CreatedAt al) (al_ID al);
  cp_ledger : d_ledger d' = d_ledger d ++ [led];
  cp_entry : led = allocated_entry i o allocated (p_ID pay) (lr_OccurredAt led) (lr_ID led);
  cp_vends : d_vends d' = d_vends d;
  cp_slots : d_slots d' = d_slots d;
  cp_others : d_attempts d' = d_attempts d /\ d_changes d' = d_changes d /\ d_refunds d' = d_refunds d /\
    d_cases d' = d_cases d /\ d_events d' = d_events d /\ d_quotes d' = d_quotes d /\ d_mutations d' = d_mutations d;
  cp_rest : d_timeline d' = d_timeline d /\ d_evidences d' = d_evidences d /\
    d_acceptances d' = d_acceptances d /\ d_stock_events d' = d_stock_events d /\
    d_slot_cfgs d' = d_slot_cfgs d /\ d_quote_lines d' = d_quote_lines d /\
    d_machine d' = d_machine d /\ d_topo d' = d_topo d }.

Lemma in_app_last {A} (f : A -> N) l y : f y ∈ map f (l ++ [y]).
Proof. rewrite map_app. apply elem_of_app. right. by apply list_elem_of_singleton. Qed.
Lemma consent_known i o allocated consent :
  cash_amount i o = Ok (allocated, consent) ->
  one_of consent ["explicit_confirm"; "implicit_post_order"; "operator"; "unknown"; "wallet_auto_settlement"] = true.
Proof.
  unfold cash_amount. intros E. assert (consent = if legacy_thin i then "unknown" else normalizeConsentSource (cc_ConsentSource i)) as ->.
  { repeat match type of E with res_bind ?r _ = _ => destruct r as [[]|]; cbn [res_bind] in E; [|done] end. by injection E. }
  destruct (legacy_thin i); [done|]. unfold normalizeConsentSource.
  destruct (one_of (TrimSpace (ToLower (cc_ConsentSource i))) _) eqn:Eo; [exact Eo|reflexivity].
Qed.

Lemma wp_record_cash i o allocated consent pay n d w
    (Q : res (option CashAllocationView * option CashChangeEventView) -> world -> Prop) :
  calm_from n NoTx d w -> wf d -> p_ID pay ∈ map p_ID (d_payments d) -> cc_OrderID i ∈ map o_ID (d_orders d) ->
  len (cash_currency i o) <= 3 -> cash_amount i o = Ok (allocated, consent) -> consent <> "unknown" ->
  0 <= allocated /\ 0 <= cc_PreOrderCreditMinor i /\ 0 <= cc_PostOrderInsertedMinor i ->
  cc_AcceptanceEvents i = [] ->
  cc_ChangeDueMinor i <= 0 /\ normalizeChangeOutcome (cc_ChangeOutcome i) = "none" ->
  (forall a, a ∈ d_allocations d -> al_OrderID a = cc_OrderID i ->
    al_IdempotencyKey a <> Some (TrimSpace (cc_IdempotencyKey i) +:+ ":cash:allocation")) ->
  (forall ta ida at_ idl w',
    let al := allocation_row i o allocated consent (p_ID pay) ta ida in
    let led := allocated_entry i o allocated (p_ID pay) at_ idl in
    let d' := set_ledger (fun l => l ++ [led]) (set_allocations (fun l => l ++ [al]) d) in
    wf d' -> calm_from n NoTx d' w' -> Q (Ok (Some (mapCashAllocation al), None)) w') ->
  wp (record_cash (service x) financial i pay allocated consent (cash_currency i o)) Q w.
Proof.
  intros Hc Hw Hpay Ho Hcur Hamt Hcon (Ha1 & Ha2 & Ha3) Hev (Hdue & Hout) Hnew HQ.
  unfold record_cash, record_acceptance. rewrite Hev. cbn [is_nil]. wp_go.
  cbn [fc_RecordCashAllocation financial]. unfold RecordCashAllocation, InsertCashAllocation. wp_go.
  cbn [ral_IdempotencyKey ral_OrderID ral_PaymentID ral_MachineID ral_AmountMinor ral_PreOrderCreditMinor
       ral_PostOrderInsertedMinor ral_ConsentSource ral_ConsentedAt ral_Currency].
  assert (Hk : nonempty_text (TrimSpace (cc_IdempotencyKey i) +:+ ":cash:allocation") =
    Some (TrimSpace (cc_IdempotencyKey i) +:+ ":cash:allocation")).
  { unfold nonempty_text. destruct (String.eqb_spec (TrimSpace (cc_IdempotencyKey i) +:+ ":cash:allocation") "") as [E|E];
      unfold blank; [|by rewrite (proj2 (String.eqb_neq _ _) E)]. by destruct (TrimSpace (cc_IdempotencyKey i)). }
  rewrite Hk. eapply (wp_insert_or_get_new n NoTx d w); [exact Hc|done|done|apply InsertAllocation_safe; intros; done|..].
  { intros a Ha. apply andb_false_iff. destruct (N.eqb_spec (al_OrderID a) (cc_OrderID i)) as [E|]; [right|by left].
    apply not_true_is_false. rewrite sql_text_eq_spec. by apply Hnew. }
  { intros now id Hid. cbn [al_OrderID al_PaymentID al_AmountMinor al_PreOrderCreditMinor
      al_PostOrderInsertedMinor al_ConsentSource fk_opt].
    rewrite (fk_elem o_ID _ _ _ Ho), (fk_elem p_ID _ _ _ Hpay). cbn [res_bind].
    rewrite check_true by by rewrite !andb_true_iff, !Z.leb_le. cbn [res_bind].
    apply check_true. by eapply consent_known. }
  clear w Hc. intros ta ida w Hw1 Hc. wp_go. unfold record_change. rewrite Hout.
  rewrite (proj2 (Z.ltb_ge _ _) Hdue). cbn [orb String.eqb Ascii.eqb Bool.eqb negb]. wp_go.
  cbn [sv_now service]. eapply wp_time_Now; [exact Hc|]. intros at_. wp_go.
  cbn [fc_InsertLedgerEntry financial]. unfold InsertLedgerEntry, InsertFinancialLedgerEntry. wp_go.
  eapply (wp_inserted n NoTx _ w); [exact Hc|done|exact Hw1|apply InsertLedger_safe|..].
  { intros now id Hid. cbn [lr_OrderID lr_PaymentID lr_Currency lr_EntryType le_OrderID le_PaymentID
      le_Currency le_EntryType fk_opt]. unfold set_allocations. cbn [d_orders d_payments].
    rewrite (fk_elem o_ID _ _ _ Ho), (fk_elem p_ID _ _ _ Hpay). cbn [res_bind]. unfold char3.
    by rewrite (proj2 (Z.ltb_ge 3 _) Hcur). }
  clear w Hc. intros tl idl w Hw2 Hc. wp_go.
  rewrite (proj2 (String.eqb_neq _ _) Hcon). wp_go. by apply (HQ ta ida at_ idl).
Qed.

Lemma wp_confirm_cash i o allocated consent n d w (Q : res ConfirmCashPaymentResult -> world -> Prop) :
  calm_from n NoTx d w -> wf d -> cash_due i o allocated consent n d ->
  (forall pay ob al led now d' w', calm NoTx d' w' -> wf d' ->
     cash_paid i o allocated consent pay ob al led now d d' ->
     Q (Ok (mk_ConfirmCashPaymentResult false pay (claimed o (p_ID pay) now) (Some (mapCashAllocation al)) None)) w') ->
  wp (ConfirmCashPayment (service x) i) Q w.
Proof.
  intros Hc Hw [Harb Ho Eo (Hon & Hmn & Hnn) Hm Hk Hopen Hunp Hamt Hcon Hams Hev Hch Hcur Hv Hroom Hnew] HQ.
  unfold ConfirmCashPayment. cbn [sv_payments service sv_life sv_financial]. wp_go.
  apply wp_guard; [intros [E|E]%orb_true_iff; by apply N.eqb_eq in E|intros _]. wp_go.
  apply wp_guard; [congruence|intros _]. wp_go. cbn [ls_GetOrderByID lifecycle].
  eapply wp_order_by_id; [exact Hc|done|done|exact Ho|done|]. clear w Hc. intros w Hc. wp_go.
  apply wp_guard; [by rewrite Hm, N.eqb_refl|intros _]. wp_go.
  apply wp_guard; [congruence|intros _]. wp_go. rewrite Hamt. wp_go. fold (cash_start i o allocated).
  eapply wp_start_payment; [exact Hc|done..|]. clear w Hc. intros t1 id1 t2 id2 t3 id3 w pay ob d1 Hid Hw1 Hc. wp_go.
  cbn [por_Replay andb]. apply wp_guard; [done|intros _]. wp_go. cbn [por_Payment].
  assert (Hpay : pay ∈ d_payments d1) by (apply elem_of_app; right; by apply list_elem_of_singleton).
  eapply wp_record_cash; [exact Hc|done| | |done..|].
  { apply list_elem_of_fmap. by exists pay. }
  { apply list_elem_of_fmap. by exists o. }
  clear w Hc. intros ta ida at_ idl w al led d2 Hw2 Hc. wp_go. unfold pay_with_cash.
  cbn [sv_winnerArbitrationEnabled service sv_financial]. rewrite Harb. cbn [andb is_none negb].
  apply wp_bind. rewrite <- Eo. eapply wp_mono; [|eapply (claim_open_order x pay o d2 w); try done].
  - intros r w' (now & -> & Hw' & Hc'). wp_go. apply wp_guard; [done|intros _]. wp_go.
    eapply (HQ pay ob al led now); [exact Hc'|done|]. split; try done.
    + intros (q & Eq & Hq)%list_elem_of_fmap. by apply (pr_ids _ _ _ Hroom q id1 Hq Hid).
    + cbn. by rewrite Eo.
    + unfold outcome_db, claim_db. cbn. unfold bound_attempts. cbn. by rewrite app_nil_r.
  - apply (calm_weaken n); [lia|exact Hc].
  - intros E. apply Hnn. change (p_ID pay) with id1 in E. unfold uuid_Nil in *. lia.
  - by rewrite Eo.
  - intros y Hy Ey. change (p_ID pay) with id1 in Ey.
    pose proof (wo_winner_exists _ _ (wf_o _ Hw) y id1 Hy Ey) as Hin.
    apply list_elem_of_fmap in Hin as (q & Eq & Hq). by apply (pr_ids _ _ _ Hroom q id1 Hq Hid).
Qed.

(** The first confirmation of the cash for an open order, in one piece and without change,
    makes one captured cash payment that wins the order, which becomes paid, with its outbox
    event, one allocation and one ledger entry; no vend, stock, refund or case row changes. *)
Theorem cash_pays_order i o allocated consent n d w :
  calm_from n NoTx d w -> wf d -> cash_due i o allocated consent n d ->
  wp (ConfirmCashPayment (service x) i) (fun r w' => exists pay ob al led now d',
    r = Ok (mk_ConfirmCashPaymentResult false pay (claimed o (p_ID pay) now) (Some (mapCashAllocation al)) None) /\
    calm NoTx d' w' /\ cash_paid i o allocated consent pay ob al led now d d') w.
Proof.
  intros Hc Hw Hd. eapply wp_confirm_cash; [done..|]. intros pay ob al led now d' w' Hc' _ Hp.
  by exists pay, ob, al, led, now, d'.
Qed.
End Cash.
