(* ===== verification/OfflineLaws.v ===== *)
(** * What an offline sale becomes

    When the prices a machine sealed are accepted, and the tables after a
    sale of one line: one paid order with its cash. *)

From S2P Require Import Prelude.
From S2P Require Import GoStd.
From S2P Require Import JsonText.
From S2P Require Import Pricing.
From S2P Require Import CommerceTypes.
From S2P Require Import Sanitize.
From S2P Require Import Evidence.
From S2P Require Import Texts.
From S2P Require Import Snapshot.
From S2P Require Import Rules.
From S2P Require Import CommerceService.
From S2P Require Import ServiceLaws.
From S2P Require Import Db.
From S2P Require Import Queries.
From S2P Require Import History.
From S2P Require Import PgCommerce.
From S2P Require Import Quotes.
From S2P Require Import OfflineSale.
From S2P Require Import StoreLaws.
From S2P Require Import Logic.
From S2P Require Import Backend.
From S2P Require Import Settlement.
From S2P Require Import Webhooks.
From S2P Require Import Orders.
From S2P Require Import CashSales.
Local Open Scope string_scope.
Local Open Scope list_scope.
Local Open Scope Z_scope.

(** ** Accepted prices *)

Section Sealed.
Context `{UuidText} `{UuidParse}.

Lemma validate_lines_complete lines : forall acc seqs ids,
  0 <= acc -> Forall line_exact lines -> acc + sum_Z (map pl_LineSubtotalMinor lines) <= MaxInt64 ->
  NoDup (map pl_LineSequence lines) -> (forall x, x ∈ map pl_LineSequence lines -> x ∉ seqs) ->
  NoDup (map line_identity lines) -> (forall x, x ∈ map line_identity lines -> x ∉ ids) ->
  validate_lines acc seqs ids lines = Ok (acc + sum_Z (map pl_LineSubtotalMinor lines)).
Proof.
  induction lines as [|ln lines IH]; intros acc seqs ids Hacc; cbn -[MaxInt64 Z.quot sum_Z].
  { intros _ _ _ _ _ _. f_equal. unfold sum_Z. cbn. lia. }
  change (sum_Z (pl_LineSubtotalMinor ln :: map pl_LineSubtotalMinor lines))
    with (pl_LineSubtotalMinor ln + sum_Z (map pl_LineSubtotalMinor lines)).
  intros [(Hs & Hq & (Hu & Hmax) & Hp) Hex]%Forall_cons Hsum [Hns Hnd]%NoDup_cons Hdis
    [Hni Hnd']%NoDup_cons Hdis'.
  assert (Hrest : 0 <= sum_Z (map pl_LineSubtotalMinor lines)).
  { clear -Hex. induction Hex as [|l ls (_ & ? & (? & _) & E) _ IH]; [done|]. unfold sum_Z in *. cbn. rewrite E. nia. }
  assert (0 <= pl_LineSubtotalMinor ln) by (rewrite Hp; nia).
  rewrite (proj2 (Z.leb_gt _ _) Hs), (proj2 (Z.leb_gt _ _) Hq), (proj2 (Z.leb_gt _ _) Hu),
    (proj2 (Z.ltb_ge _ _) Hmax). cbn [guard_err res_bind orb].
  rewrite (proj2 (existsb_eqb_Z _ _)) by (apply Hdis; left). cbn [guard_err res_bind].
  rewrite (proj2 (existsb_eqb_string _ _)) by (apply Hdis'; left). cbn [guard_err res_bind].
  assert (Hb : pl_UnitPriceMinor ln <= Z.quot MaxInt64 (pl_Quantity ln)).
  { apply Z.quot_le_lower_bound; [done|]. nia. }
  rewrite (proj2 (Z.ltb_ge _ _) Hb).
  cbn [guard_err res_bind]. rewrite mul64_id by (rewrite <- Hp; unfold_int; lia).
  rewrite Hp, Z.eqb_refl, <- Hp. cbn [negb guard_err res_bind].
  rewrite sub64_id by (unfold_int; lia). rewrite (proj2 (Z.ltb_ge _ _)) by lia. cbn [guard_err res_bind].
  rewrite add64_id by (unfold_int; lia). rewrite IH; [f_equal; lia|lia|done|lia|done| |done|].
  - intros y Hy [->|Hin]%elem_of_cons; [done|]. by apply (Hdis y); [right|].
  - intros y Hy [->|Hin]%elem_of_cons; [done|]. by apply (Hdis' y); [right|].
Qed.

Lemma sealed_length payable n i lines : length (sealed_lines payable n i lines) = length lines.
Proof. revert i. induction lines; intros i; cbn; auto. Qed.
Lemma sealed_sequences payable n lines : forall i,
  0 <= i -> i + Z.of_nat (length lines) <= MaxInt32 ->
  map pl_LineSequence (sealed_lines payable n i lines) = map (fun k => i + 1 + Z.of_nat k) (seq 0 (length lines)).
Proof.
  induction lines as [|l lines IH]; intros i Hi Hl; [done|]. cbn [length] in Hl. cbn [sealed_lines map length seq].
  f_equal; [cbn; rewrite wrap32_id by (unfold_int; lia); lia|].
  rewrite IH, <- seq_shift, map_map by lia. apply map_ext. intros k. lia.
Qed.
Lemma sealed_sequences_distinct payable n lines :
  Z.of_nat (length lines) <= MaxInt32 ->
  NoDup (map pl_LineSequence (sealed_lines payable n 0 lines)) /\
  Forall (fun l => 0 < pl_LineSequence l) (sealed_lines payable n 0 lines).
Proof.
  intros Hl. pose proof (sealed_sequences payable n lines 0 ltac:(lia) ltac:(lia)) as E. split.
  - rewrite E. assert (Inj (=) (=) (fun k => 0 + 1 + Z.of_nat k)) by (intros a b; lia).
    apply NoDup_fmap_2, NoDup_seq. done.
  - apply Forall_forall. intros l Hin.
    assert (Hx : pl_LineSequence l ∈ map pl_LineSequence (sealed_lines payable n 0 lines))
      by (apply list_elem_of_fmap; eauto).
    rewrite E in Hx. apply list_elem_of_fmap in Hx as (k & -> & _). lia.
Qed.

(** A line with a price of its own. *)
Definition priced_line (line : appCheckoutLine) : Prop :=
  0 < al_UnitPriceMinor line <= MaxInt64 /\ al_Quantity line <= MaxInt32.
Definition line_total (line : appCheckoutLine) : Z := al_UnitPriceMinor line * at_least_one (al_Quantity line).
Lemma at_least_one_pos q : 0 < at_least_one q.
Proof. unfold at_least_one. destruct (Z.leb_spec q 0); lia. Qed.
Lemma at_least_one_max q : q <= MaxInt32 -> at_least_one q <= MaxInt32.
Proof. unfold at_least_one. destruct (Z.leb_spec q 0); unfold_int; lia. Qed.

Lemma sealed_line_priced payable n i line :
  priced_line line -> let l := sealed_line payable n i line in
  pl_UnitPriceMinor l = al_UnitPriceMinor line /\ pl_Quantity l = at_least_one (al_Quantity line) /\
  pl_LineSubtotalMinor l = wrap64 (line_total line).
Proof.
  intros ((Hu & _) & Hq). cbn -[wrap64]. unfold line_amounts. apply at_least_one_max in Hq.
  pose proof (at_least_one_pos (al_Quantity line)).
  rewrite (proj2 (Z.leb_gt _ _) Hu). cbn [andb]. rewrite (proj2 (Z.leb_gt _ _) Hu).
  split_and!; [done| |done]. apply wrap32_id. unfold_int. lia.
Qed.
Lemma sealed_lines_exact payable n lines : forall i,
  Forall priced_line lines -> Forall (fun l => 0 < pl_LineSequence l) (sealed_lines payable n i lines) ->
  Forall line_exact (sealed_lines payable n i lines) <->
  Forall (fun l => al_UnitPriceMinor l <= pricingMaxUnitPriceMinor) lines.
Proof.
  induction lines as [|l lines IH]; intros i; [by split|].
  cbn [sealed_lines]. intros [Hl Hp]%Forall_cons [Hs Hss]%Forall_cons.
  rewrite !Forall_cons, (IH _ Hp Hss). apply and_iff_compat_r.
  destruct (sealed_line_priced payable n i l Hl) as (E1 & E2 & E3). unfold line_exact. rewrite E1, E2, E3.
  pose proof (at_least_one_pos (al_Quantity l)). destruct Hl as (Hu & Hq). apply at_least_one_max in Hq.
  split; [by intros (_ & _ & (_ & ?) & _)|]. intros Hmax. split_and!; try done; [lia|].
  unfold line_total. apply wrap64_id. unfold pricingMaxUnitPriceMinor in Hmax. unfold_int. nia.
Qed.
Lemma sealed_totals payable n lines : forall i,
  Forall priced_line lines -> Forall line_exact (sealed_lines payable n i lines) ->
  map pl_LineSubtotalMinor (sealed_lines payable n i lines) = map line_total lines.
Proof.
  induction lines as [|l lines IH]; intros i; [done|].
  cbn [sealed_lines map]. intros [Hl Hp]%Forall_cons [(_ & _ & _ & E) Hss]%Forall_cons. f_equal; [|auto].
  destruct (sealed_line_priced payable n i l Hl) as (E1 & E2 & _). by rewrite E, E1, E2.
Qed.

Lemma validate_lines_iff lines total :
  Forall line_in_range lines -> 0 <= total <= MaxInt64 ->
  validate_lines 0 [] [] lines = Ok total <->
  Forall line_exact lines /\ total = sum_Z (map pl_LineSubtotalMinor lines) /\
  NoDup (map pl_LineSequence lines) /\ NoDup (map line_identity lines).
Proof.
  intros Hr Ht. split.
  - intros (Hex & -> & _ & Hs & _ & Hi & _)%validate_lines_exact; [by rewrite Z.add_0_l|unfold_int; lia|done].
  - intros (Hex & -> & Hs & Hi). rewrite validate_lines_complete; [by rewrite Z.add_0_l|done|done|lia|done| |done|];
      intros y _; apply not_elem_of_nil.
Qed.
Lemma wrap32_range z : in_int32 (wrap32 z).
Proof. unfold wrap32, wrap. pose proof (Z.mod_pos_bound (z + 2 ^ (32 - 1)) (2 ^ 32) eq_refl). unfold_int. lia. Qed.
Lemma sealed_in_range payable n lines i :
  Forall priced_line lines -> Forall line_in_range (sealed_lines payable n i lines).
Proof.
  revert i. induction lines as [|l lines IH]; intros i; [constructor|]. intros [Hl Hp]%Forall_cons.
  cbn [sealed_lines]. apply Forall_cons. split; [|auto].
  destruct (sealed_line_priced payable n i l Hl) as (E1 & E2 & E3). unfold line_in_range. rewrite E1, E3.
  destruct Hl as ((? & ?) & _). split_and!; [apply wrap32_range|apply wrap32_range|unfold_int; lia|apply wrap64_range].
Qed.

(** The capture time is absent, or near enough to now. *)
Definition captured_in_time (now : Z) (snap : appCheckoutPricingSnapshot) : Prop :=
  0 < as_CapturedAtEpochMs snap ->
  - pricingSnapshotMaxFutureSkew <= now - UnixMilli (as_CapturedAtEpochMs snap) <= pricingSnapshotMaxSkew.
Lemma capture_check now snap payable :
  (if negb (IsZero (ps_CapturedAt (machinePricingSnapshotFromAppCheckout snap payable))) then
     guard_err ((now - ps_CapturedAt (machinePricingSnapshotFromAppCheckout snap payable) <? - pricingSnapshotMaxFutureSkew) ||
                (pricingSnapshotMaxSkew <? now - ps_CapturedAt (machinePricingSnapshotFromAppCheckout snap payable)))
       (invalid_arg "pricing_snapshot captured_at outside allowed skew")
   else Ok tt) = Ok tt <-> captured_in_time now snap.
Proof.
  cbn [ps_CapturedAt machinePricingSnapshotFromAppCheckout]. unfold captured_in_time.
  destruct (Z.ltb_spec 0 (as_CapturedAtEpochMs snap)) as [Hms|Hms].
  - unfold IsZero. rewrite (proj2 (Z.eqb_neq _ _)) by (unfold UnixMilli, Second, Millisecond; lia). cbn [negb].
    rewrite guard_err_Ok, orb_false_iff, !Z.ltb_ge. naive_solver.
  - cbn. split; [lia|done].
Qed.

(** the sealed prices of an offline sale whose lines all have a price are accepted exactly when
    every price is at most the maximum, prices times quantities add up to the payable total in
    exact integers, no line is there twice, the revision is not negative and the capture time is
    recent; nothing else of what the machine sends decides. *)
Theorem sealed_sale_accepted now snap payable :
  let sealed := machinePricingSnapshotFromAppCheckout snap payable in
  as_Lines snap <> [] -> Z.of_nat (length (as_Lines snap)) <= MaxInt32 ->
  Forall priced_line (as_Lines snap) -> 0 < payable <= MaxInt64 ->
  validateMachinePricingSnapshot now sealed = Ok tt <->
  Forall (fun l => al_UnitPriceMinor l <= pricingMaxUnitPriceMinor) (as_Lines snap) /\
  sum_Z (map line_total (as_Lines snap)) = payable /\
  NoDup (map line_identity (ps_Lines sealed)) /\
  0 <= as_LocalPricingRevision snap /\ captured_in_time now snap.
Proof.
  intros sealed Hne Hlen Hp [Hpos Hmax]. set (n := Z.of_nat (length (as_Lines snap))).
  destruct (sealed_sequences_distinct payable n (as_Lines snap) Hlen) as [Hseq Hseqs].
  pose proof (sealed_lines_exact payable n (as_Lines snap) 0 Hp Hseqs) as Hex.
  pose proof (sealed_totals payable n (as_Lines snap) 0 Hp) as Htot.
  pose proof (validate_lines_iff (ps_Lines sealed) payable (sealed_in_range _ _ _ _ Hp) ltac:(lia)) as Hv.
  assert (Hl : length (ps_Lines sealed) = length (as_Lines snap)) by apply sealed_length.
  unfold validateMachinePricingSnapshot, validateMachinePricingSnapshotMultiLine.
  pose proof (capture_check now snap payable) as Hcap. subst sealed.
  change (ps_Lines (machinePricingSnapshotFromAppCheckout snap payable))
    with (sealed_lines payable n 0 (as_Lines snap)) in *.
  change (ps_UnitPriceMinor (machinePricingSnapshotFromAppCheckout snap payable))
    with (match sealed_lines payable n 0 (as_Lines snap) with l :: _ => pl_UnitPriceMinor l | [] => 0 end).
  change (ps_SubtotalMinor (machinePricingSnapshotFromAppCheckout snap payable)) with payable.
  destruct (sealed_lines payable n 0 (as_Lines snap)) as [|l0 ls] eqn:El; [by destruct (as_Lines snap)|].
  cbn [is_nil negb]. rewrite bind_unit, bind_guard, bind_unit, Hcap.
  assert (Ht : validateMachinePricingSnapshotTotals (machinePricingSnapshotFromAppCheckout snap payable) = Ok tt <->
    0 <= as_LocalPricingRevision snap).
  { unfold validateMachinePricingSnapshotTotals. cbn [ps_TotalMinor ps_SubtotalMinor ps_TaxMinor
      ps_LocalPricingRevision machinePricingSnapshotFromAppCheckout].
    rewrite !bind_guard, guard_err_Ok, orb_false_iff, negb_false_iff, !Z.ltb_ge, Z.leb_gt, Z.eqb_eq.
    rewrite add64_id by (unfold_int; lia). lia. }
  rewrite Ht, Z.eqb_refl. cbn [negb andb]. rewrite andb_false_r. rewrite <- Hex.
  split.
  - intros (Hrev & _ & Hc & (total & Hvl & Hrest)%res_bind_Ok).
    rewrite bind_guard, negb_false_iff, Z.eqb_eq in Hrest. destruct Hrest as [-> _].
    apply Hv in Hvl as (He & Et & _ & Hi). by rewrite <- (Htot He), <- Et.
  - intros (He & Et & Hi & Hrev & Hc). split_and!; [done..|]. apply res_bind_Ok. exists payable. split.
    + apply Hv. by rewrite (Htot He), Et.
    + rewrite !Z.eqb_refl. cbn [negb guard_err res_bind]. by rewrite andb_false_r.
Qed.
End Sealed.

Lemma update_where_last {A} (p : A -> bool) f l y :
  (forall x, x ∈ l -> p x = false) -> p y = true -> update_where p f (l ++ [y]) = l ++ [f y].
Proof.
  intros Hl Hy. unfold update_where. rewrite map_app. cbn. rewrite Hy. f_equal.
  by apply update_where_none.
Qed.

(** ** A sale of one line *)

Section OneLine.
Context `{UuidText} `{UuidParse} `{Sha256} (x : Externals).

(** The resolver finds the slot, and takes no time. *)
Definition resolves (sel : SaleLineSelector) (pricing : MachinePricingSnapshotInput) (identity : ResolvedSaleLine)
    : Prop :=
  forall n d w, calm_from n NoTx d w -> wp (resolveCheckoutSaleLine (service x) sel (Some pricing) 1)
    (fun r w' => r = Ok identity /\ calm_from n NoTx d w' /\ w_now w' = w_now w) w.

(** The line a sealed price gives. *)
Definition sealed_sale_line (identity : ResolvedSaleLine) (pricing : MachinePricingSnapshotInput) (currency : string)
    : ResolvedSaleLine :=
  mk_ResolvedSaleLine (sl_SlotConfigID identity) (sl_CabinetCode identity) (sl_SlotCode identity)
    (sl_SlotIndex identity) (ps_UnitPriceMinor pricing) (ps_SubtotalMinor pricing) (ps_TaxMinor pricing)
    (ps_TotalMinor pricing) 0 0 "" currency (ps_PricingFingerprint pricing) [].
Definition sealed_order_input (i : CreateOrderInput) (identity : ResolvedSaleLine)
    (pricing : MachinePricingSnapshotInput) (currency : string) : CreateOrderVendInput :=
  order_input i (sealed_sale_line identity pricing currency) (classifyMachineLocalPricingSource pricing identity)
    (Some (ps_LocalPricingRevision pricing)) (Some (machinePricingSnapshotJSON pricing)).

Lemma classified_supported pricing identity :
  one_of (classifyMachineLocalPricingSource pricing identity) supportedPricingSources = true.
Proof. unfold classifyMachineLocalPricingSource. by destruct (_ && _ && _). Qed.

Lemma wp_sealed_order i pricing identity currency n d w (Q : res CreateOrderResult -> world -> Prop) :
  co_PricingSnapshot i = Some pricing -> currency = ToUpper (TrimSpace (co_Currency i)) ->
  resolves (selector_of i) pricing identity ->
  validateMachinePricingSnapshot (w_now w) pricing = Ok tt ->
  calm_from n NoTx d w -> wf d -> validateCreateOrder i = Ok tt ->
  order_room (sealed_order_input i identity pricing currency) n d ->
  0 <= ps_SubtotalMinor pricing -> 0 <= ps_TaxMinor pricing -> 0 <= ps_TotalMinor pricing ->
  (forall now id1 now2 id2 w', (n <= id1)%N ->
    let source := classifyMachineLocalPricingSource pricing identity in
    let input := sealed_order_input i identity pricing currency in
    let o := order_of_input input source now (default id1 (uuidPtrToPgUUID (co_ClientOrderID i))) in
    let v := vend_of_input input (o_ID o) id2 now2 in
    let d' := set_vends (fun l => l ++ [v]) (set_orders (fun l => l ++ [o]) d) in
    wf d' -> calm_from n NoTx d' w' ->
    Q (Ok (mk_CreateOrderResult (mk_CreateOrderVendResult o (vr_Session v) false)
             (sealed_sale_line identity pricing currency))) w') ->
  wp (CreateOrder (service x) i) Q w.
Proof.
  intros Hsnap -> Hres Hval Hc Hw Hv Hroom H1' H2' H3 HQ.
  eapply (wp_create_order x i); [|exact Hc|done|done|apply classified_supported|exact Hroom|done..|exact HQ].
  intros w' Hc' Ht. unfold price_order. rewrite Hsnap. apply wp_bind. unfold wp at 1.
  cbn [sv_now service time_Now gets fst snd]. rewrite Ht. wp_go. rewrite Hval. wp_go.
  eapply wp_mono; [|by apply Hres]. intros r w'' (-> & Hc'' & _). by wp_go.
Qed.

(** One line that is due, of a machine that paid in cash. *)
Record offline_due (machine : N) (idempotencyKey clientEventID payload : string) (outbox : OfflineSaleOutboxConfig)
    (occurredAt : Z) (wire : OfflineSaleWirePayload) (snap : appCheckoutPricingSnapshot) (line : appCheckoutLine)
    (product : N) (identity : ResolvedSaleLine) (n : N) (d : pgdb) (now : Z) : Prop := mk_offline_due {
  od_arbitration : ex_winnerArbitrationEnabled x = true;
  od_machine : machine <> uuid_Nil;
  od_key : blank (TrimSpace idempotencyKey) = false;
  od_event : blank (TrimSpace clientEventID) = false;
  od_parsed : parseOfflineSalePayload payload = Ok (wire, snap);
  od_same_machine : other_machine machine (ow_MachineID wire) = false;
  od_currency : len (bundle_currency wire snap) = 3 /\ isAllAlpha (bundle_currency wire snap) = true;
  od_payable : 0 < bundle_payable wire snap;
  od_line : as_Lines snap = [line];
  od_one : at_least_one (al_Quantity line) = 1;
  od_product : line_product line = Ok product;
  od_outbox : blank (TrimSpace (oc_Topic outbox)) = false /\ blank (TrimSpace (oc_EventType outbox)) = false /\
    blank (TrimSpace (oc_AggregateType outbox)) = false;
  od_n : n <> uuid_Nil;
  od_sealed : validateMachinePricingSnapshot now
    (machinePricingSnapshotFromAppCheckout snap (bundle_payable wire snap)) = Ok tt;
  od_slot : slot_id_set (Some (sl_SlotConfigID identity)) = true;
  od_resolves : let pricing := machinePricingSnapshotFromAppCheckout snap (bundle_payable wire snap) in
    let i := offline_order machine product identity pricing (bundle_currency wire snap) (TrimSpace idempotencyKey)
               (optionalClientOrderID (ow_OrderID wire))
               (resolveOfflineOrderCreatedAt occurredAt (ps_CapturedAt pricing)) in
    resolves (line_selector machine product line) pricing identity /\ resolves (selector_of i) pricing identity /\
    order_room (sealed_order_input i identity pricing (bundle_currency wire snap)) n d;
  od_no_payment : forall p id, p ∈ d_payments d -> (n <= id)%N -> p_ID p <> id;
  od_no_outbox : forall order, fresh_outbox (TrimSpace (oc_Topic outbox))
    (optionalStringToPgText (TrimSpace (TrimSpace idempotencyKey +:+ ":offline:cash:cash:payment:outbox:" +:+ uuid_String order))) d;
  od_no_allocation : forall a, a ∈ d_allocations d ->
    al_IdempotencyKey a <> Some (TrimSpace idempotencyKey +:+ ":offline:cash:cash:allocation") }.

Arguments od_arbitration {_ _ _ _ _ _ _ _ _ _ _ _ _ _} _.
Arguments od_machine {_ _ _ _ _ _ _ _ _ _ _ _ _ _} _.
Arguments od_key {_ _ _ _ _ _ _ _ _ _ _ _ _ _} _.
Arguments od_event {_ _ _ _ _ _ _ _ _ _ _ _ _ _} _.
Arguments od_parsed {_ _ _ _ _ _ _ _ _ _ _ _ _ _} _.
Arguments od_same_machine {_ _ _ _ _ _ _ _ _ _ _ _ _ _} _.
Arguments od_currency {_ _ _ _ _ _ _ _ _ _ _ _ _ _} _.
Arguments od_payable {_ _ _ _ _ _ _ _ _ _ _ _ _ _} _.
Arguments od_one {_ _ _ _ _ _ _ _ _ _ _ _ _ _} _.
Arguments od_line {_ _ _ _ _ _ _ _ _ _ _ _ _ _} _.
Arguments od_product {_ _ _ _ _ _ _ _ _ _ _ _ _ _} _.
Arguments od_outbox {_ _ _ _ _ _ _ _ _ _ _ _ _ _} _.
Arguments od_n {_ _ _ _ _ _ _ _ _ _ _ _ _ _} _.
Arguments od_sealed {_ _ _ _ _ _ _ _ _ _ _ _ _ _} _.
Arguments od_slot {_ _ _ _ _ _ _ _ _ _ _ _ _ _} _.
Arguments od_resolves {_ _ _ _ _ _ _ _ _ _ _ _ _ _} _.
Arguments od_no_payment {_ _ _ _ _ _ _ _ _ _ _ _ _ _} _.
Arguments od_no_outbox {_ _ _ _ _ _ _ _ _ _ _ _ _ _} _.
Arguments od_no_allocation {_ _ _ _ _ _ _ _ _ _ _ _ _ _} _.

Section Due.
Context {machine : N} {idempotencyKey clientEventID payload : string} {outbox : OfflineSaleOutboxConfig}.
Context {occurredAt : Z} {wire : OfflineSaleWirePayload} {snap : appCheckoutPricingSnapshot} {line : appCheckoutLine}.
Context {product : N} {identity : ResolvedSaleLine} {n : N} {d : pgdb} {now : Z}.
Context (Hdue : offline_due machine idempotencyKey clientEventID payload outbox occurredAt wire snap line product
                  identity n d now).
Notation key := (TrimSpace idempotencyKey).
Notation currency := (bundle_currency wire snap).
Notation payable := (bundle_payable wire snap).
Notation pricing := (machinePricingSnapshotFromAppCheckout snap payable).
Notation order_request := (offline_order machine product identity pricing currency key
  (optionalClientOrderID (ow_OrderID wire)) (resolveOfflineOrderCreatedAt occurredAt (ps_CapturedAt pricing))).
Notation cash_request order :=
  (offline_cash machine order key (bundle_cash wire payable) payable currency outbox).

Lemma currency_trimmed : TrimSpace currency = currency.
Proof.
  destruct (od_currency Hdue) as [Hl Ha].
  destruct (s2l currency) as [|c l] eqn:E.
  { by rewrite <- (l2s_s2l currency), E in Hl. }
  assert (Hs : forall c, c ∈ s2l currency -> solid c).
  { intros b Hb. unfold isAllAlpha in Ha. rewrite forallb_forall in Ha. apply list_elem_of_In, Ha in Hb.
    unfold is_letter in Hb. unfold solid. rewrite orb_true_iff, !andb_true_iff, !N.leb_le in Hb. lia. }
  destruct (exists_last (l := s2l currency)) as (l' & b & El); [by rewrite E|].
  rewrite <- (l2s_s2l currency), E. apply (TrimSpace_solid c l b).
  - apply Hs. rewrite E. by left.
  - apply Hs. rewrite El. apply elem_of_app. right. by left.
  - exists l'. by rewrite <- E.
Qed.
Lemma currency_upper : ToUpper (TrimSpace currency) = currency.
Proof.
  rewrite currency_trimmed. unfold bundle_currency. by destruct (blank _); rewrite ToUpper_idemp.
Qed.
Lemma cash_key_trimmed order : TrimSpace (cc_IdempotencyKey (cash_request order)) = key +:+ ":offline:cash".
Proof. by apply TrimSpace_suffix; [apply Hdue|..]. Qed.

Lemma offline_validates : validateCreateOrder order_request = Ok tt.
Proof.
  unfold validateCreateOrder, bad_currency. cbn [co_MachineID co_ProductID co_IdempotencyKey co_Currency
    co_SubtotalMinor co_TaxMinor co_TotalMinor co_SlotID offline_order].
  pose proof (od_product Hdue) as Hp. unfold line_product in Hp.
  rewrite (proj2 (N.eqb_neq _ _) (od_machine Hdue)).
  assert (product =u uuid_Nil = false) as ->.
  { destruct (uuid_Parse _) as [p|]; [|done]. destruct (p =u uuid_Nil) eqn:E; [done|]. by injection Hp as <-. }
  cbn [orb guard_err res_bind].
  rewrite suffixed_not_blank by (try apply Hdue; split; cbn; lia). cbn [guard_err res_bind].
  destruct (od_currency Hdue) as [Hl Ha].
  rewrite currency_upper, Hl, Ha. cbn [guard_err res_bind Z.eqb Pos.eqb negb orb].
  by rewrite (od_slot Hdue).
Qed.

(** The order the bundle makes, and its vend session. *)
Notation input := (sealed_order_input order_request identity pricing currency).
Definition offline_row (at_ : Z) (id : N) : Order :=
  order_of_input input (classifyMachineLocalPricingSource pricing identity) at_
    (default id (uuidPtrToPgUUID (optionalClientOrderID (ow_OrderID wire)))).
Definition with_sale (o : Order) (v : VendRow) : pgdb :=
  set_vends (fun l => l ++ [v]) (set_orders (fun l => l ++ [o]) d).

Lemma offline_id_new at_ id : wf d -> (n <= id)%N ->
  o_ID (offline_row at_ id) <> uuid_Nil /\ o_ID (offline_row at_ id) ∉ map o_ID (d_orders d).
Proof.
  intros Hw Hid. split.
  - cbn. unfold uuidPtrToPgUUID. destruct (_ =u uuid_Nil) eqn:E; cbn.
    + pose proof (od_n Hdue) as Hn. unfold uuid_Nil in *. lia.
    + by apply N.eqb_neq in E.
  - destruct (od_resolves Hdue) as (_ & _ & Hroom). by apply (or_id _ _ _ Hroom).
Qed.
Lemma offline_no_payments at_ id v : wf d -> (n <= id)%N ->
  payments_of (o_ID (offline_row at_ id)) (with_sale (offline_row at_ id) v) = [].
Proof.
  intros Hw Hid. unfold payments_of. cbn [d_payments with_sale set_vends set_orders].
  destruct (List.filter _ _) as [|p l] eqn:E; [done|]. exfalso.
  assert (Hp : p ∈ p :: l) by left. rewrite <- E in Hp. apply elem_of_filter_bool in Hp as [Hp Eo%N.eqb_eq].
  destruct (offline_id_new at_ id Hw Hid) as [_ Hn]. apply Hn. rewrite <- Eo.
  by apply (wp_order _ _ (wf_p _ Hw)).
Qed.
Lemma offline_start at_ id : wf d -> (n <= id)%N ->
  let o := offline_row at_ id in
  validateStartPayment (cash_start (cash_request (o_ID o)) o payable) = Ok tt /\
  cash_currency (cash_request (o_ID o)) o = currency.
Proof.
  intros Hw Hid o. destruct (offline_id_new at_ id Hw Hid) as [Hn _]. fold o in Hn.
  destruct (od_currency Hdue) as [Hl Ha]. destruct (od_outbox Hdue) as (Ht & He & Hg).
  assert (Ecur : cash_currency (cash_request (o_ID o)) o = currency).
  { unfold cash_currency. cbn [cc_Currency offline_cash]. rewrite currency_upper. destruct (blank currency) eqn:Eb; [|done].
    unfold blank in Eb. apply String.eqb_eq in Eb. by rewrite Eb in Hl. }
  split; [|done]. unfold validateStartPayment, cash_start, cash_payment, bad_currency.
  cbn [sp_OrderID sp_Provider sp_PaymentState sp_AmountMinor sp_Currency sp_IdempotencyKey
       sp_OutboxIdempotencyKey sp_OutboxTopic sp_OutboxEventType sp_OutboxAggregateType sp_OutboxAggregateID
       sp_AttemptSeq cc_OrderID cc_OutboxTopic cc_OutboxEventType cc_OutboxAggregateType].
  rewrite cash_key_trimmed, Ecur, currency_upper, Hl, Ha. cbn [offline_cash cc_OrderID cc_OutboxTopic
    cc_OutboxEventType cc_OutboxAggregateType]. rewrite !TrimSpace_idemp, Ht, He, Hg, (proj2 (N.eqb_neq _ _) Hn).
  rewrite (proj2 (Z.ltb_ge _ _)) by (pose proof (od_payable Hdue); lia).
  assert (Hkey : forall k, blank (TrimSpace (key +:+ ":offline:cash" +:+ k)) = false).
  { intros k. apply (suffixed_not_blank _ ":"%char); [apply Hdue|split; cbn; lia]. }
  rewrite !append_assoc, !Hkey. vm_compute. done.
Qed.
Lemma offline_cash_due at_ id v : wf d -> (n <= id)%N ->
  let o := offline_row at_ id in
  cash_due x (cash_request (o_ID o)) o payable "implicit_post_order" n (with_sale o v).
Proof.
  intros Hw Hid o. destruct (offline_id_new at_ id Hw Hid) as [Hn Hfresh].
  destruct (offline_start at_ id Hw Hid) as [Hv Ecur]. fold o in Hn, Hfresh, Hv, Ecur. pose proof (od_payable Hdue) as Hpay.
  assert (Ho : o ∈ d_orders (with_sale o v)) by (apply elem_of_app; right; by apply list_elem_of_singleton).
  split; try done.
  - apply Hdue.
  - split_and!; [done|apply Hdue|apply Hdue].
  - rewrite cash_key_trimmed. by apply blank_suffix.
  - unfold cash_amount, legacy_thin. cbn [cc_GrossAcceptedMinor cc_AllocatedMinor offline_cash].
    rewrite (proj2 (Z.eqb_neq payable 0)) by lia. rewrite andb_false_r. cbn [negb andb].
    rewrite (proj2 (Z.leb_gt payable 0)) by lia. cbn [guard_err res_bind].
    change (o_TotalMinor o) with payable. rewrite Z.eqb_refl. cbn [negb guard_err res_bind].
    change (normalizeConsentSource _) with "implicit_post_order". cbn [validateCashConfirmConsent
      cc_PreOrderCreditMinor cc_PostOrderInsertedMinor offline_cash Z.leb Z.compare res_bind].
    unfold bundle_cash. assert (Hcash : (0 <? (if ow_CashReceivedMinor wire <=? 0 then payable else ow_CashReceivedMinor wire)) = true).
    { apply Z.ltb_lt. destruct (Z.leb_spec (ow_CashReceivedMinor wire) 0); lia. }
    rewrite Hcash. change (add64 0 0) with 0. apply Z.ltb_lt in Hcash. rewrite (proj2 (Z.ltb_ge _ 0)) by lia. done.
  - cbn. lia.
  - rewrite Ecur. destruct (od_currency Hdue) as [-> _]. lia.
  - split; cbn [poi_OrderID payment_input cash_start cash_payment sp_OrderID offline_cash cc_OrderID].
    + apply list_elem_of_fmap. by exists o.
    + intros p Hp Eo. exfalso. apply Hfresh. change (p_OrderID p = o_ID o) in Eo. rewrite <- Eo.
      by apply (wp_order _ _ (wf_p _ Hw)).
    + apply (od_no_payment Hdue).
    + unfold next_attempt_seq. change (payments_of _ _) with (payments_of (o_ID o) (with_sale o v)).
      unfold o. by rewrite offline_no_payments.
    + intros ob Hob Et. change (ob_Topic ob = TrimSpace (TrimSpace (oc_Topic outbox))) in Et.
      rewrite TrimSpace_idemp in Et.
      change (sql_text_eq (ob_IdempotencyKey ob) (optionalStringToPgText (TrimSpace
        (TrimSpace (cc_IdempotencyKey (cash_request (o_ID o))) +:+ ":cash:payment:outbox:" +:+ uuid_String (o_ID o)))) = false).
      rewrite cash_key_trimmed, !append_assoc. by apply (od_no_outbox Hdue).
  - intros a Ha _. rewrite cash_key_trimmed, append_assoc. by apply (od_no_allocation Hdue).
Qed.

(** The tables after the sale. *)
Record sale_booked (o : Order) (v : VendRow) (pay : Payment) (ob : OutboxEvent) (al : CashAllocationRow)
    (led : LedgerRow) (paid_at : Z) (d' : pgdb) : Prop := mk_sale_booked {
  sb_orders : d_orders d' = d_orders d ++ [claimed o (p_ID pay) paid_at];
  sb_order : o_MachineID o = machine /\ o_TotalMinor o = payable /\ o_Currency o = currency /\
    o_IdempotencyKey o = Some (key +:+ ":offline:create_order") /\ o_Status o = "created";
  sb_vends : d_vends d' = d_vends d ++ [v];
  sb_vend : v_OrderID (vr_Session v) = o_ID o /\ v_ProductID (vr_Session v) = product /\
    v_SlotIndex (vr_Session v) = sl_SlotIndex identity /\ v_State (vr_Session v) = "pending";
  sb_payments : d_payments d' = d_payments d ++ [payment_with pay "captured" "winner"];
  sb_payment : p_OrderID pay = o_ID o /\ p_AmountMinor pay = payable /\ p_Provider pay = "cash" /\ p_AttemptSeq pay = 1;
  sb_evidence : d_outbox d' = d_outbox d ++ [ob] /\ d_allocations d' = d_allocations d ++ [al] /\
    d_ledger d' = d_ledger d ++ [led];
  sb_amounts : al_AmountMinor al = payable /\ lr_SignedAmountMinor led = payable;
  sb_others : d_slots d' = d_slots d /\ d_slot_cfgs d' = d_slot_cfgs d /\ d_stock_events d' = d_stock_events d /\
    d_quotes d' = d_quotes d /\ d_quote_lines d' = d_quote_lines d /\ d_attempts d' = d_attempts d /\
    d_refunds d' = d_refunds d /\ d_cases d' = d_cases d /\ d_events d' = d_events d /\
    d_timeline d' = d_timeline d /\ d_evidences d' = d_evidences d /\ d_acceptances d' = d_acceptances d /\
    d_changes d' = d_changes d /\ d_machine d' = d_machine d /\ d_topo d' = d_topo d }.
Lemma cash_books_sale at_ id v pay ob al led paid_at d' : wf d -> (n <= id)%N ->
  let o := offline_row at_ id in
  v_OrderID (vr_Session v) = o_ID o /\ v_ProductID (vr_Session v) = product /\
    v_SlotIndex (vr_Session v) = sl_SlotIndex identity /\ v_State (vr_Session v) = "pending" ->
  cash_paid (cash_request (o_ID o)) o payable "implicit_post_order" pay ob al led paid_at (with_sale o v) d' ->
  sale_booked o v pay ob al led paid_at d'.
Proof.
  intros Hw Hid o Hv [Hords Hpays Hnew (Est & Ea & Eo & Ep & Es) Hob Hal Eal Hled Eled Hvends Hslots Hoth Hrest].
  destruct (offline_id_new at_ id Hw Hid) as [_ Hfresh]. fold o in Hfresh.
  destruct Hoth as (? & ? & ? & ? & ? & ? & ?), Hrest as (? & ? & ? & ? & ? & ? & ? & ?). split; try done.
  - rewrite Hords. change (d_orders (with_sale o v)) with (d_orders d ++ [o]).
    apply (update_where_last _ (fun y => claimed y (p_ID pay) paid_at)).
    + intros y Hy. apply andb_false_iff. left. apply N.eqb_neq. intros E. apply Hfresh.
      rewrite <- E. apply list_elem_of_fmap. by exists y.
    + cbn. by rewrite N.eqb_refl.
  - assert (Ek : TrimSpace (key +:+ ":offline:create_order") = key +:+ ":offline:create_order").
    { by apply TrimSpace_suffix; [apply Hdue|..]. }
    split_and!; try done; [apply currency_upper|].
    change (optionalStringToPgText (TrimSpace (key +:+ ":offline:create_order")) = Some (key +:+ ":offline:create_order")).
    rewrite Ek, optional_text by (rewrite Ek; by apply blank_suffix). by rewrite Ek.
  - rewrite Hpays, <- Est. apply (update_where_last _ (fun q => payment_with q (p_State q) "winner")).
    + intros y Hy. apply N.eqb_neq. intros E. apply Hnew. rewrite <- E. apply list_elem_of_fmap. by exists y.
    + apply N.eqb_refl.
  - split_and!; try done. rewrite Es. unfold next_attempt_seq. unfold o. by rewrite offline_no_payments.
  - rewrite Eal, Eled. done.
Qed.

(** C10: a first offline cash sale of one item, whose sealed price is accepted and whose slot the
    machine has, becomes one order of the payable total, paid by one captured cash payment that
    won it, one pending vend session of the product, one allocation, one ledger entry and one
    outbox event; every other row and table stays as it is: stock and its events, the slots, the
    quotes, attempts, refunds, cases, provider events, timelines, evidence, notes accepted, change
    given, and the machine's own tables. *)
Theorem offline_sale_pays w :
  now = w_now w -> calm_from n NoTx d w -> wf d ->
  wp (ProcessOfflineSale (service x) (Some pg_quotes) (ex_carts x) machine idempotencyKey clientEventID payload
        outbox occurredAt) (fun r w' =>
    exists at_ id v pay ob al led paid_at d', r = Ok tt /\ calm NoTx d' w' /\
      sale_booked (offline_row at_ id) v pay ob al led paid_at d') w.
Proof.
  intros Et Hc Hw. unfold ProcessOfflineSale.
  apply wp_bind, wp_guard; [intros E; by apply N.eqb_eq, (od_machine Hdue) in E|intros _]. wp_go.
  apply wp_guard; [by rewrite (od_key Hdue)|intros _]. wp_go.
  apply wp_guard; [by rewrite (od_event Hdue)|intros _]. wp_go. rewrite (od_parsed Hdue). wp_go.
  apply wp_guard; [by rewrite (od_same_machine Hdue)|intros _]. wp_go.
  destruct (od_currency Hdue) as [Hl _]. apply wp_guard; [by rewrite Hl|intros _]. wp_go.
  pose proof (od_payable Hdue) as Hpay. apply wp_guard; [intros E%Z.leb_le; lia|intros _]. wp_go.
  unfold createOfflineOrderFromSnapshot. rewrite (od_line Hdue). unfold order_of_one. wp_go.
  rewrite (od_product Hdue). wp_go. destruct (od_resolves Hdue) as (Hres1 & Hres2 & Hroom).
  eapply wp_mono; [|by apply Hres1]. clear Hres1. intros r w1 (-> & Hc1 & Et1). wp_go.
  eapply (wp_sealed_order order_request pricing identity currency); [done|symmetry; apply currency_upper|done| |exact Hc1
    |done|apply offline_validates|exact Hroom|cbn; lia..|].
  { rewrite Et1, <- Et. apply (od_sealed Hdue). }
  intros at_ id at2 id2 w2 Hid source i o v d1 Hw1 Hc2. wp_go. cbn [cor_Order cr_Base].
  eapply wp_confirm_cash; [exact Hc2|done|by apply offline_cash_due|].
  intros pay ob al led paid_at d' w3 Hc3 _ Hp. wp_go.
  exists at_, id, v, pay, ob, al, led, paid_at, d'. split; [done|]. split; [done|].
  by apply cash_books_sale.
Qed.
End Due.
End OneLine.
