(* ===== verification/OfflineSteps.v ===== *)
(** * Offline sales of one machine

    Concrete bundles, accepted and refused, what a bundle that is sent twice
    does, and the theorems on cash sales there. *)

From S2P Require Import Prelude.
From S2P Require Import GoStd.
From S2P Require Import JsonText.
From S2P Require Import Pricing.
From S2P Require Import CommerceTypes.
From S2P Require Import Sanitize.
From S2P Require Import Evidence.
From S2P Require Import Snapshot.
From S2P Require Import Rules.
From S2P Require Import CommerceService.
From S2P Require Import Db.
From S2P Require Import Queries.
From S2P Require Import History.
From S2P Require Import PgCommerce.
From S2P Require Import Quotes.
From S2P Require Import OfflineSale.
From S2P Require Import StoreLaws.
From S2P Require Import Logic.
From S2P Require Import Backend.
From S2P Require Import Scenario.
From S2P Require Import Settlement.
From S2P Require Import Webhooks.
From S2P Require Import Orders.
From S2P Require Import CashSales.
From S2P Require Import OfflineLaws.
Local Open Scope string_scope.
Local Open Scope list_scope.
Local Open Scope Z_scope.

#[local] Existing Instance decimal_uuid.
#[local] Existing Instance length_sha256.
(** Identifiers as decimal numbers. *)
Fixpoint decimal_value (acc : N) (l : list ascii) : option N :=
  match l with
  | [] => Some acc
  | c :: l => if is_digit c then decimal_value (acc * 10 + (N_of_ascii c - 48))%N l else None
  end.
#[local] Instance decimal_parse : UuidParse := fun s =>
  match s2l s with [] => None | l => decimal_value 0 l end.

(** ** Bundles *)

Definition bundle (snapshot : string) : string :=
  quoted ("{'orderId':'500','machineId':'1','cashReceivedMinor':2000,'currency':'usd','payableTotalMinor':2000,"
          +:+ "'pricingSnapshot':" +:+ snapshot +:+ "}").
Definition one_line : string := "{'snapshotId':'s1','lines':[{'slotCode':'A3','productId':'9','unitPriceMinor':2000,'quantity':1}]}".
Definition two_units : string := "{'lines':[{'slotCode':'A3','productId':'9','unitPriceMinor':1000,'quantity':2}]}".
Definition no_price (qty : string) : string :=
  "{'lines':[{'slotCode':'A3','productId':'9','quantity':" +:+ qty +:+ "}]}".
Definition sealed_of (payload : string) : option MachinePricingSnapshotInput :=
  match parseOfflineSalePayload payload with
  | Ok (wire, snap) => Some (machinePricingSnapshotFromAppCheckout snap (bundle_payable wire snap))
  | Err _ => None
  end.
Definition accepted (payload : string) : option bool :=
  option_map (fun p => match validateMachinePricingSnapshot 1000 p with Ok _ => true | Err _ => false end)
    (sealed_of payload).

(** A price that is missing is derived, which works when the quantity divides the total. *)
Example missing_price :
  map accepted [bundle one_line; bundle two_units; bundle (no_price "2"); bundle (no_price "3")] =
  [Some true; Some true; Some true; Some false].
Proof. vm_compute. reflexivity. Qed.
(** The snapshot may come as a string that holds it. *)
Example snapshot_in_a_string :
  sealed_of (bundle "'{\'lines\':[{\'slotCode\':\'A3\',\'productId\':\'9\',\'unitPriceMinor\':1000,\'quantity\':2}]}'") =
  sealed_of (bundle two_units).
Proof. vm_compute. reflexivity. Qed.
Example bundles_refused :
  map (fun p => match parseOfflineSalePayload p with Ok _ => "ok" | Err e => err_Error e end)
    [""; quoted "{'orderId':1}"; quoted "{}"; bundle "{'lines':[]}"; bundle "{'lines':[{'slotCode':'A3'}]}"] =
  map (fun s => err_Error ErrInvalidArgument +:+ String "010"%char s)
    ["offline_sale payload required"; "invalid offline_sale payload: json: decoding error";
     "pricing_snapshot required"; "pricing_snapshot lines required";
     "pricing_snapshot product_id required at line 0"].
Proof. vm_compute. reflexivity. Qed.

(** ** A sale and its repetition *)

Definition demo_outbox : OfflineSaleOutboxConfig := mk_OfflineSaleOutboxConfig "payments" "payment.captured" "payment".
Definition offline_sale (snapshot : string) : M world unit :=
  ProcessOfflineSale (service (demo_externals true)) (Some pg_quotes) (ex_carts (demo_externals true))
    1 " b1 " "e1" (bundle snapshot) demo_outbox 0.
Definition offline_start_world : world := demo_world demo_db [].
Definition booked (w : world) :=
  (map (fun o => (o_ID o, o_Status o, o_TotalMinor o)) (d_orders (w_db w)),
   map (fun v => v_State (vr_Session v)) (d_vends (w_db w)),
   map (fun p => (p_State p, p_Outcome p)) (d_payments (w_db w)),
   map al_AmountMinor (d_allocations (w_db w)), map lr_SignedAmountMinor (d_ledger (w_db w))).
(** Sent twice, as after a lost answer: the second run refuses, but not before it
    has marked the winning payment for a refund and booked the cash again. *)
Example offline_sale_sent_twice :
  let w1 := (offline_sale one_line offline_start_world).2 in
  let w2 := (offline_sale one_line w1).2 in
  (offline_sale one_line offline_start_world).1 = Ok tt /\
  booked w1 = ([(500%N, "paid", 2000)], ["pending"], [("captured", "winner")], [2000], [2000]) /\
  (offline_sale one_line w1).1 = Err (illegal_transition "payment lost winner arbitration") /\
  booked w2 = ([(500%N, "paid", 2000)], ["pending"], [("captured", "refund_required")], [2000], [2000; 2000]).
Proof. vm_compute. done. Qed.
(** Two units of one line are sold as one vend session. *)
Example two_units_one_vend :
  let w1 := (offline_sale two_units offline_start_world).2 in
  booked w1 = ([(500%N, "paid", 2000)], ["pending"], [("captured", "winner")], [2000], [2000]).
Proof. vm_compute. done. Qed.

(** ** The theorems there *)

Definition demo_bundle : string := Eval vm_compute in bundle one_line.
Definition demo_wire : OfflineSaleWirePayload := Eval vm_compute in
  match parseOfflineSalePayload demo_bundle as r
    return match r with Ok _ => OfflineSaleWirePayload | Err _ => unit end with
  | Ok (wire, _) => wire
  | Err _ => tt
  end.
Definition demo_checkout : appCheckoutPricingSnapshot := Eval vm_compute in
  match parseOfflineSalePayload demo_bundle as r
    return match r with Ok _ => appCheckoutPricingSnapshot | Err _ => unit end with
  | Ok (_, snap) => snap
  | Err _ => tt
  end.
Definition demo_checkout_line : appCheckoutLine := mk_appCheckoutLine "A3" "9" 2000 1.

Lemma demo_resolves sel pricing : resolves (demo_externals true) sel pricing demo_line.
Proof.
  intros n d w Hc. unfold resolveCheckoutSaleLine. cbn. unfold wp. cbn. by repeat split; try apply Hc.
Qed.
Lemma demo_offline_due :
  offline_due (demo_externals true) 1 " b1 " "e1" demo_bundle demo_outbox 0 demo_wire demo_checkout
    demo_checkout_line 9 demo_line 100 demo_db 1000.
Proof.
  split.
  - reflexivity.
  - discriminate.
  - reflexivity.
  - reflexivity.
  - vm_compute. reflexivity.
  - reflexivity.
  - split; vm_compute; reflexivity.
  - vm_compute. reflexivity.
  - reflexivity.
  - reflexivity.
  - reflexivity.
  - split_and!; reflexivity.
  - discriminate.
  - vm_compute. reflexivity.
  - reflexivity.
  - split_and!; [apply demo_resolves..|]. split.
    + left.
    + by intros o ?%elem_of_nil.
    + intros fresh _. apply not_elem_of_nil.
    + by intros v id ?%elem_of_nil.
  - by intros p id ?%elem_of_nil.
  - by intros order o ?%elem_of_nil.
  - by intros a ?%elem_of_nil.
Qed.
Lemma offline_sale_pays_witness :
  wp (ProcessOfflineSale (service (demo_externals true)) (Some pg_quotes) (ex_carts (demo_externals true))
        1 " b1 " "e1" demo_bundle demo_outbox 0) (fun r w' => r = Ok tt /\ exists d', calm NoTx d' w') offline_start_world.
Proof.
  eapply wp_mono; [|apply (offline_sale_pays (demo_externals true) demo_offline_due offline_start_world)].
  - intros r w' (at_ & id & v & pay & ob & al & led & paid_at & d' & -> & Hc & _). split; [done|]. by exists d'.
  - reflexivity.
  - by split.
  - apply demo_db_wf.
Defined.

Lemma sealed_sale_accepted_witness :
  validateMachinePricingSnapshot 1000 (machinePricingSnapshotFromAppCheckout demo_checkout 2000) = Ok tt.
Proof.
  apply (sealed_sale_accepted 1000 demo_checkout 2000).
  - discriminate.
  - vm_compute. discriminate.
  - repeat constructor; vm_compute; discriminate.
  - split; vm_compute; [reflexivity|discriminate].
  - split_and!.
    + repeat constructor; vm_compute; discriminate.
    + vm_compute. reflexivity.
    + vm_compute. apply NoDup_singleton.
    + vm_compute. discriminate.
    + intros Hms. by vm_compute in Hms.
Defined.

Definition demo_cash : ConfirmCashPaymentInput :=
  mk_ConfirmCashPaymentInput 500 1 "c1" 1500 1080 0 0 0 0 "" "implicit_post_order" None "usd" [] false "" "" false
    false "payments" "payment.captured" "payment".
Definition demo_unpaid : Order := Eval vm_compute in
  match d_orders (w_db demo_w1) as l return match l with [] => unit | _ => Order end with
  | [] => tt
  | o :: _ => o
  end.
Lemma demo_cash_due : cash_due (demo_externals true) demo_cash demo_unpaid 1080 "implicit_post_order" 102 (w_db demo_w1).
Proof.
  split.
  - reflexivity.
  - left.
  - reflexivity.
  - split_and!; discriminate.
  - reflexivity.
  - reflexivity.
  - reflexivity.
  - reflexivity.
  - vm_compute. reflexivity.
  - discriminate.
  - split_and!; vm_compute; discriminate.
  - reflexivity.
  - split; [vm_compute; discriminate|reflexivity].
  - vm_compute. discriminate.
  - vm_compute. reflexivity.
  - split.
    + left.
    + by intros p ?%elem_of_nil.
    + by intros p id ?%elem_of_nil.
    + vm_compute. discriminate.
    + by intros o ?%elem_of_nil.
  - by intros a ?%elem_of_nil.
Qed.
Lemma cash_pays_order_witness :
  wp (ConfirmCashPayment (service (demo_externals true)) demo_cash) (fun r w' =>
    (exists a, r = Ok a /\ ccr_Replay a = false) /\ exists d', calm NoTx d' w') demo_w1.
Proof.
  eapply wp_mono; [|apply (cash_pays_order (demo_externals true) demo_cash demo_unpaid 1080 "implicit_post_order" 102
    (w_db demo_w1) demo_w1)].
  - intros r w' (pay & ob & al & led & now & d' & -> & Hc & _). split; [by eexists|]. by exists d'.
  - by split.
  - apply demo_w_wf.
  - exact demo_cash_due.
Defined.
