(* ===== verification/MutationSteps.v ===== *)
(** * A mutation sent again

    Concrete calls of a machine through the ledger, and the theorems of
    MutationLaws there. *)

From S2P Require Import Prelude.
From S2P Require Import GoStd.
From S2P Require Import Sha256.
From S2P Require Import JsonText.
From S2P Require Import Protobuf.
From S2P Require Import Pricing.
From S2P Require Import CommerceTypes.
From S2P Require Import Sanitize.
From S2P Require Import Rules.
From S2P Require Import Db.
From S2P Require Import Queries.
From S2P Require Import MachineIdempotency.
From S2P Require Import MachineReplay.
From S2P Require Import CommerceService.
From S2P Require Import ServiceLaws.
From S2P Require Import History.
From S2P Require Import PgCommerce.
From S2P Require Import StoreLaws.
From S2P Require Import Logic.
From S2P Require Import Backend.
From S2P Require Import Scenario.
From S2P Require Import MutationLaws.
Local Open Scope string_scope.
Local Open Scope list_scope.
Local Open Scope Z_scope.

#[local] Existing Instance decimal_uuid.
#[local] Existing Instance sha256.

(** A codec that can carry one answer; requests are rendered field by field. *)
Fixpoint render (v : pvalue) : string :=
  match v with
  | PString s => "s(" +:+ s +:+ ")"
  | POptString None => "-"
  | POptString (Some s) => "o(" +:+ s +:+ ")"
  | PBool b => if b then "t" else "f"
  | PInt z => pretty z
  | PMessage t fs =>
      t +:+ "{" +:+ foldr (fun nv s => let '(n, x) := nv in n +:+ ":" +:+ render x +:+ ";" +:+ s) "" fs +:+ "}"
  | PNil => "nil"
  | PRepeated l => "[" +:+ foldr (fun x s => render x +:+ ";" +:+ s) "" l +:+ "]"
  end.
Definition one_answer (a : proto) : ProtoCodec := {|
  proto_Marshal m := Ok (s2l (render (pm_value m)));
  protojson_Marshal m := if decide (m = a) then Ok "{}" else Err (ENew "unknown message");
  protojson_Unmarshal t s :=
    if String.eqb t (pm_type a) && String.eqb s "{}" then Ok a else Err (ENew "unexpected token");
  jsonb_text s := Ok s |}.
Lemma one_answer_laws a : ProtoCodecLaws (one_answer a).
Proof.
  split; intros m text; unfold column_text, protojson_Marshal; cbn; destruct (decide (m = a)) as [->|].
  - intros [= <-]. split_and!; [reflexivity|done|done|]. eexists. vm_compute. reflexivity.
  - done.
  - intros [[= <-] _]. exists "{}". by rewrite !String.eqb_refl.
  - by intros [? _].
Qed.

Definition stamp (seconds : Z) : pvalue := PMessage "google.protobuf.Timestamp" [("seconds", PInt seconds); ("nanos", PInt 0)].
(** A request to create an order, with an amount that stands for its payload. *)
Definition order_request (key : string) (event : string) (at_ amount : Z) : proto :=
  mk_proto (machine_v1 "CreateOrderRequest")
    [("context", PMessage (machine_v1 "IdempotencyContext")
        [("idempotency_key", PString key); ("client_event_id", PString event); ("client_created_at", stamp at_)]);
     ("currency", PString "USD"); ("amount", PInt amount)].
Definition order_answer (replay : bool) : proto :=
  mk_proto (machine_v1 "CreateOrderResponse") [("replay", PBool replay); ("order_id", PString "500")].
#[local] Instance demo_codec : ProtoCodec := one_answer (order_answer false).
Lemma demo_codec_laws : ProtoCodecLaws demo_codec.
Proof. apply one_answer_laws. Qed.

(** Machine 1 creates an order with the service. *)
Definition machine_one : CallContext := mk_CallContext (Some (mk_MachineAccessClaims 1 1)) None (Some "req-1") [] None.
Definition create_order : M world (option proto) :=
  fmap_M (fun _ => Some (order_answer false)) (CreateOrder (service (demo_externals true)) demo_create).
Definition order_call (req : proto) : call world :=
  mk_call world machine_one (Some req) (commerce_rpc "CreateOrder") create_order.
Definition demo_ledger : Ledger := NewLedger None.
Definition through_ledger (c : call world) : M world (option proto) :=
  newUnaryMachineReplayInterceptor true (Some (pg_ledger demo_ledger)) (cl_ctx world c) (cl_req world c)
    (cl_method world c) (cl_handler world c).

(** Sent twice, with another event id and time: one order, and the second
    answer is marked.  Another amount under the key is refused. *)
Example order_sent_twice :
  let first := through_ledger (order_call (order_request "k1" "e1" 1 7)) (demo_world demo_db []) in
  let second := through_ledger (order_call (order_request " k1 " "e2" 2 7)) first.2 in
  let other := through_ledger (order_call (order_request "k1" "e2" 2 8)) first.2 in
  first.1 = Ok (Some (order_answer false)) /\ second.1 = Err (EStatus FailedPrecondition ErrMsgIdempotencyPayloadMismatch) /\
  (through_ledger (order_call (order_request "k1" "e2" 2 7)) first.2).1 = Ok (Some (order_answer true)) /\
  other.1 = Err (EStatus FailedPrecondition ErrMsgIdempotencyPayloadMismatch) /\
  length (d_orders (w_db other.2)) = 1%nat.
Proof. vm_compute. done. Qed.
(** The refused request put the row in conflict: the true retry is not
    answered any more. *)
Example conflict_loses_answer :
  let first := through_ledger (order_call (order_request "k1" "e1" 1 7)) (demo_world demo_db []) in
  let other := through_ledger (order_call (order_request "k1" "e2" 2 8)) first.2 in
  (through_ledger (order_call (order_request "k1" "e1" 1 7)) other.2).1
  = Err (EStatus FailedPrecondition ErrMsgIdempotencyPayloadMismatch).
Proof. vm_compute. done. Qed.
(** The answer cannot be stored: the order exists, and no retry under the key
    learns of it, however late it comes: the row is stamped by the retry. *)
Example interrupted_for_good :
  let first := through_ledger (order_call (order_request "k1" "e1" 1 7))
    (demo_world demo_db (repeat Calm 10 ++ [Fails; Fails])) in
  let late := mk_world (w_db first.2) NoTx [] (w_now first.2 + 48 * Hour) (w_next first.2) in
  first.1 = Err (EStatus FailedPrecondition ErrMsgIdempotencyFinalizeFailed) /\
  length (d_orders (w_db first.2)) = 1%nat /\ map mu_Status (d_mutations (w_db first.2)) = ["in_progress"] /\
  (through_ledger (order_call (order_request "k1" "e1" 1 7)) late).1
  = Err (EStatus CodeAborted "idempotent operation already in progress").
Proof. vm_compute. done. Qed.

(** ** Witnesses *)

Lemma create_order_keeps : evolves (world_rel safe) create_order.
Proof.
  pose proof (demo_externals_laws true (world_rel safe)). apply evolves_fmap, sv_CreateOrder, service_laws; [apply _|done].
Qed.
(** Three calls under one key, and one under another, while statements fail
    and another client acts. *)
Definition demo_calls : list (call world) :=
  map order_call [order_request "k1" "e1" 1 7; order_request "k1" "e2" 2 7; order_request "k2" "e3" 3 7;
                  order_request "k1" "e4" 4 7].

Definition key_hash : string := Eval vm_compute in
  match HashMutationRequest (order_request "k1" "e1" 1 7) with Ok h => h | Err _ => "" end.
Lemma demo_taken_up event at_ :
  taken_up machine_replay_config machine_one (mk_MachineAccessClaims 1 1) (commerce_rpc "CreateOrder")
    (order_request "k1" event at_ 7) "k1" key_hash.
Proof. split; vm_compute; done. Qed.

Definition no_handler_call : call world :=
  mk_call world machine_one (Some (order_request "k1" "e1" 1 7)) (commerce_rpc "CreateOrder") (ret (Some (order_answer false))).
Lemma mutation_answered_again_witness :
  exists w', twice demo_ledger machine_replay_config no_handler_call (order_call (order_request "k1" "e2" 2 7))
               (demo_world demo_db [])
             = (Ok (Some (order_answer false), Some (order_answer true)), w') /\
    exists d2 f, d_orders d2 = [] /\ calm NoTx (set_mutations f d2) w'.
Proof.
  pose proof (mutation_answered_again (H0 := demo_codec) (ProtoCodecLaws0 := demo_codec_laws)
    demo_ledger machine_replay_config 0 (mk_MachineAccessClaims 1 1)
    machine_one (commerce_rpc "CreateOrder") (order_request "k1" "e1" 1 7) "k1"
    machine_one (commerce_rpc "CreateOrder") (order_request "k1" "e2" 2 7) "k1" key_hash
    demo_db (demo_world demo_db []) (machine_v1 "CreateOrderResponse")
    (fun m d => m = order_answer false /\ d_orders d = [])
    (ret (Some (order_answer false))) create_order) as H.
  destruct H as (m & d2 & f & Hr & [-> Hd] & Hc).
  - by intros f r [=].
  - apply demo_taken_up.
  - apply demo_taken_up.
  - by split.
  - vm_compute. reflexivity.
  - by split.
  - set_solver.
  - by intros (r & ?%elem_of_nil & _).
  - intros id expires w1 _ Hc1. apply wp_ret. exists (order_answer false), "{}".
    eexists. split; [done|]. split; [done|]. split; [by split; vm_compute|]. split; [|by split].
    split; [done|reflexivity].
  - assert (Ed : decorated machine_replay_config (order_answer false) = order_answer true) by (vm_compute; reflexivity).
    rewrite Ed in Hr. unfold no_handler_call, order_call. eexists. split; [|exists d2, f; exact (conj Hd Hc)]. etransitivity; [apply surjective_pairing|].
    exact (f_equal (fun r => (r, _)) Hr).
Defined.

(** The same key with another payload, after the first was answered. *)
Definition answered_world : world := Eval vm_compute in
  (through_ledger (order_call (order_request "k1" "e1" 1 7)) (demo_world demo_db [])).2.

Definition answered_row_value : MutationRow := Eval vm_compute in
  match d_mutations (w_db answered_world) as l return match l with [] => unit | _ => MutationRow end with
  | [] => tt
  | r :: _ => r
  end.
Definition other_hash : string := Eval vm_compute in
  match HashMutationRequest (order_request "k1" "e2" 2 8) with Ok h => h | Err _ => "" end.
Lemma through_ledger_keeps c :
  evolves (world_rel safe) (cl_handler world c) -> evolves (world_rel safe) (through_ledger c).
Proof.
  intros Hh. unfold through_ledger, newUnaryMachineReplayInterceptor. cbn [negb].
  apply ev_interceptor; [apply _|by intros f r [=]|done].
Qed.
Lemma answered_from :
  answered_world = (through_ledger (order_call (order_request "k1" "e1" 1 7)) (demo_world demo_db [])).2.
Proof. vm_compute. reflexivity. Qed.
Lemma answered_wf : wf (w_db answered_world).
Proof.
  rewrite answered_from.
  destruct (through_ledger_keeps (order_call (order_request "k1" "e1" 1 7)) create_order_keeps
    (demo_world demo_db [])) as [_ [_ Hw]]; [by apply nil_polite|]. apply Hw, demo_db_wf.
Qed.
Lemma mutation_refused_witness :
  (through_ledger (order_call (order_request "k1" "e2" 2 8)) answered_world).1
  = Err (EStatus FailedPrecondition ErrMsgIdempotencyPayloadMismatch) /\
  exists f, calm NoTx (set_mutations f (w_db answered_world))
    (through_ledger (order_call (order_request "k1" "e2" 2 8)) answered_world).2.
Proof.
  apply (mutation_refused (H0 := demo_codec) demo_ledger machine_replay_config 0 machine_one (mk_MachineAccessClaims 1 1)
    (commerce_rpc "CreateOrder") (order_request "k1" "e2" 2 8) "k1" other_hash
    (w_db answered_world) answered_world answered_row_value).
  - by intros f r [=].
  - split; vm_compute; done.
  - apply answered_wf.
  - by split.
  - vm_compute. apply list_elem_of_singleton. reflexivity.
  - vm_compute. reflexivity.
  - vm_compute. reflexivity.
Defined.

Lemma replays_are_typed_witness :
  let op := ledger_operation machine_replay_config (commerce_rpc "CreateCashCheckout") in
  isMachineIdempotentMutation op = true /\ ledger_operation machine_replay_config op = op /\
  exists t, newMachineMutationResponse op = Some t /\
    (declared_response (commerce_rpc "CreateCashCheckout") = Some t \/
     commerce_rpc "CreateCashCheckout" = commerce_rpc "ReportVendSuccess" /\
     t = machine_v1 "ConfirmVendSuccessResponse").
Proof. apply replays_are_typed. vm_compute. reflexivity. Defined.

(** Two orders of the keys to reconcile are one mutation. *)
Example reconcile_in_any_order :
  let request keys := mk_proto ReconcileEventsRequest [("idempotency_keys", PRepeated (map PString keys))] in
  MutationIdempotencyKey (request ["b"; "a "]) = MutationIdempotencyKey (request ["a"; "b"]) /\
  MutationIdempotencyKey (request []) = Err (key_error "reconcile idempotency_keys must contain 1 to 500 entries").
Proof. vm_compute. done. Qed.
(** The key of the envelope counts, though another was found before it. *)
Example last_own_key_wins :
  MachineRequestIdempotencyKey (mk_proto "m"
    [("context", PMessage "c" [("idempotency_key", PString "first")]); ("idempotency_key", PString "own")]) = "own".
Proof. reflexivity. Qed.
