(* ===== verification/QuoteOrders.v ===== *)
(** * A quote becomes one order

    Under any schedule at most one order is made from a quote; undisturbed, an
    active quote becomes exactly one order with one pending vend session per
    unit of its lines, and is consumed. *)

From S2P Require Import Prelude.
From S2P Require Import GoStd.
From S2P Require Import Pricing.
From S2P Require Import CommerceTypes.
From S2P Require Import Sanitize.
From S2P Require Import Evidence.
From S2P Require Import Snapshot.
From S2P Require Import Rules.
From S2P Require Import CommerceService.
From S2P Require Import ServiceLaws.
From S2P Require Import Db.
From S2P Require Import Queries.
From S2P Require Import History.
From S2P Require Import PgCommerce.
From S2P Require Import Fulfillment.
From S2P Require Import Quotes.
From S2P Require Import SaleLines.
From S2P Require Import StoreLaws.
From S2P Require Import Logic.
From S2P Require Import QuoteLaws.
From S2P Require Import Backend.
From S2P Require Import Scenario.
From S2P Require Import Settlement.
From S2P Require Import Webhooks.
From S2P Require Import Orders.
Local Open Scope string_scope.
Local Open Scope list_scope.
Local Open Scope Z_scope.

(** ** Under any schedule *)

Definition consumed (q : N) (d : pgdb) : Prop :=
  exists r, r ∈ d_quotes d /\ qt_ID r = q /\ qt_State r = "consumed".

Lemma consumed_kept q d d' : grows d d' -> consumed q d -> consumed q d'.
Proof.
  intros Hg (r & Hr & Ei & Es). destruct (rows_kept_elem _ _ _ _ (gr_quotes _ _ Hg) Hr) as (y & Hy & Hk & Hs).
  exists y. split_and!; [done| |by apply Hs]. unfold quote_identity in Hk. congruence.
Qed.
Lemma consumed_unique q d r : wf d -> consumed q d -> r ∈ d_quotes d -> qt_ID r = q -> qt_State r = "consumed".
Proof.
  intros Hw (y & Hy & Ei & Es) Hr Er. assert (r = y) as ->; [|done].
  eapply unique_on_same; [eapply wq_ids, wf_q, Hw|done..| |done]. cbn. congruence.
Qed.

Lemma always_polite s : polite (fun _ _ => True) s.
Proof. by intros g d _. Qed.
#[local] Instance true_preorder : PreOrder (fun _ _ : pgdb => True).
Proof. by split. Qed.

Lemma mark_consumes q w r w' : MarkCheckoutQuoteConsumed q w = (Ok r, w') -> consumed q (w_db w').
Proof.
  intros E. destruct (stmt_done (fun _ _ => True) _ _ _ _ E (always_polite _)) as (d & now & id & _ & Ef).
  unfold update_rows, no_check in Ef. destruct (List.find _ _) as [x|] eqn:Ex; [|done].
  injection Ef as <- <-. apply find_Some_elem in Ex as [Hx Px].
  exists (quote_with "consumed" x). split_and!; [|by apply andb_true_iff in Px as [?%N.eqb_eq _]|done].
  cbn. apply elem_of_update_where. exists x. by rewrite Px.
Qed.
(** The order of a fresh key consumes the quote. *)
Lemma order_from_quote_consumes i key w r w1 :
  order_from_quote i key w = (Ok r, w1) ->
  consumed (pqr_QuoteID (poq_Quote i)) (w_db w1) /\ exists o, r = Commit o.
Proof.
  unfold order_from_quote. intros E. apply bind_inv_Ok in E as (? & ? & _ & E).
  apply bind_inv_Ok in E as (? & ? & _ & E). apply bind_inv_Ok in E as (? & ? & _ & E).
  apply bind_inv_Ok in E as (? & ? & _ & E). apply bind_inv_Ok in E as (? & ? & _ & E).
  apply bind_inv_Ok in E as (? & ? & _ & E). apply bind_inv_Ok in E as (? & ? & _ & E).
  apply bind_inv_Ok in E as (? & ? & _ & E). apply bind_inv_Ok in E as (m & w2 & E2 & E).
  injection E as <- <-. split; [by eapply mark_consumes|eauto].
Qed.
(** A consumed quote gives no order. *)
Lemma order_from_quote_refused i key w r w1 :
  consumed (pqr_QuoteID (poq_Quote i)) (w_db w) -> wf (w_db w) -> polite safe (w_sched w) ->
  order_from_quote i key w = (Ok r, w1) -> False.
Proof.
  unfold order_from_quote. intros Hq Hw Hp E. apply bind_inv_Ok in E as (locked & w2 & E2 & E).
  destruct (stmt_done safe _ _ _ _ E2 Hp) as (d & now & id & [Hg Hs] & Ef).
  injection Ef as Ef _. apply find_Some_elem in Ef as [Hl El%N.eqb_eq].
  pose proof (consumed_unique _ d locked (Hs Hw) (consumed_kept _ _ _ Hg Hq) Hl El) as Hst.
  apply bind_inv_Ok in E as (u & w3 & E3 & _). unfold guard, lift in E3. by rewrite Hst in E3.
Qed.

Lemma order_of_key_consumes i key w r w1 :
  order_of_key i key w = (Ok r, w1) ->
  exists o, r = Commit o /\ (por_Replay o = false -> consumed (pqr_QuoteID (poq_Quote i)) (w_db w1)).
Proof.
  unfold order_of_key. intros ([row|] & w2 & _ & E)%bind_inv_Ok.
  - apply bind_inv_Ok in E as (? & ? & _ & [= <- <-]). eexists. split; [reflexivity|done].
  - apply order_from_quote_consumes in E as [? [o ->]]. eauto.
Qed.
Lemma order_of_key_refused i key w r w1 :
  consumed (pqr_QuoteID (poq_Quote i)) (w_db w) -> wf (w_db w) -> polite safe (w_sched w) ->
  order_of_key i key w = (Ok r, w1) -> exists o, r = Commit o /\ por_Replay o = true.
Proof.
  unfold order_of_key. intros Hq Hw Hp ([row|] & w2 & E2 & E)%bind_inv_Ok.
  - apply bind_inv_Ok in E as (? & ? & _ & [= <- <-]). by eexists.
  - assert (Hev : evolves (world_rel safe) (optional_row (GetOrderByMachineAndIdempotencyKey
      (pqr_MachineID (poq_Quote i)) (optionalStringToPgText key)))) by evolve.
    destruct (evolves_run _ _ _ _ Hev E2 Hp Hw) as (? & ? & ?).
    exfalso. eapply order_from_quote_refused; [by eapply consumed_kept|done..].
Qed.

Lemma store_order_consumes i w r w' :
  CreateOrderFromQuoteWithVendSessions i w = (Ok r, w') -> por_Replay r = false ->
  consumed (pqr_QuoteID (poq_Quote i)) (w_db w').
Proof.
  unfold CreateOrderFromQuoteWithVendSessions. intros E Hr. repeat (case_match; [done|]).
  destruct (with_tx_done (fun _ _ => True) _ _ _ _ E (always_polite _)) as (w0 & w1 & _ & _ & [[Eb ->]|Eb]);
    apply order_of_key_consumes in Eb as (o & [= ->] & Hc). by apply Hc.
Qed.
Lemma store_order_refused i w r w' :
  consumed (pqr_QuoteID (poq_Quote i)) (w_db w) -> wf (w_db w) -> polite safe (w_sched w) ->
  CreateOrderFromQuoteWithVendSessions i w = (Ok r, w') -> por_Replay r = true.
Proof.
  unfold CreateOrderFromQuoteWithVendSessions. intros Hq Hw Hp E. repeat (case_match; [done|]).
  destruct (with_tx_done safe _ _ _ _ E Hp) as (w0 & w1 & [Hg Hs] & Hp0 & [[Eb _]|Eb]);
    apply order_of_key_refused in Eb as (o & [= ->] & Ho); auto; by eapply consumed_kept.
Qed.

Section OneOrder.
Context `{UuidText} `{Sha256} (x : Externals).

Lemma quote_of_id q w r w' : GetQuoteWithLines q w = (Ok r, w') -> pqr_QuoteID r = q.
Proof.
  unfold GetQuoteWithLines. intros (row & w1 & E & E')%bind_inv_Ok.
  destruct (stmt_done (fun _ _ => True) _ _ _ _ E (always_polite _)) as (d & now & id & _ & Ef).
  injection Ef as Ef _. apply find_Some_elem in Ef as [_ Eq%N.eqb_eq].
  apply bind_inv_Ok in E' as (? & ? & _ & [= <- _]). done.
Qed.
Lemma replay_is_replay m k w p w' : TryReplayOrderFromQuote m k w = (Ok (Some p), w') -> por_Replay p = true.
Proof.
  unfold TryReplayOrderFromQuote. case_match; [done|]. intros ([rep|] & w1 & _ & E)%bind_inv_Ok; [|done].
  by apply bind_inv_Ok in E as (? & ? & _ & [= <- _]).
Qed.
(** The call of the service: a replay, or a call of the store. *)
Lemma service_order i w r w' :
  CreateOrderFromQuote (service x) (Some pg_quotes) i w = (Ok r, w') ->
  ofq_Replay r = true \/ exists w1 c p, world_rel safe w w1 /\ pqr_QuoteID (poq_Quote c) = cfq_QuoteID i /\
    CreateOrderFromQuoteWithVendSessions c w1 = (Ok p, w') /\ r = mapPersistOrderFromQuote p.
Proof.
  unfold CreateOrderFromQuote. intros (u & w1 & [= _ <-] & E)%bind_inv_Ok.
  apply bind_inv_Ok in E as (st & w1 & [= <- <-] & E). apply bind_inv_Ok in E as (rep & w1 & E1 & E).
  cbn [pg_quotes qs_TryReplayOrderFromQuote qs_GetQuoteWithLines qs_CreateOrderFromQuoteWithVendSessions] in *.
  assert (H1 : world_rel safe w w1 /\ forall p, rep = Some p -> por_Replay p = true).
  { destruct (blank _); [by injection E1 as <- <-|]. split.
    - pose proof (ql_replay_order (R := world_rel safe) (q := pg_quotes) (cfq_MachineID i)
        (TrimSpace (cfq_IdempotencyKey i)) w) as Hr. cbn in Hr. by rewrite E1 in Hr.
    - intros p ->. by eapply replay_is_replay. }
  destruct H1 as [H1 Hrep], rep as [rep|]; [left; injection E as <- _; by apply Hrep|right].
  apply bind_inv_Ok in E as (q & w2 & E2 & E).
  pose proof (ql_get (R := world_rel safe) (q := pg_quotes) (cfq_QuoteID i) w1) as H2. cbn in H2.
  rewrite E2 in H2. apply quote_of_id in E2.
  apply bind_inv_Ok in E as (? & ? & [= _ <-] & E). apply bind_inv_Ok in E as (? & ? & [= _ <-] & E).
  apply bind_inv_Ok in E as (? & ? & [= _ <-] & E). apply bind_inv_Ok in E as (? & ? & [= _ <-] & E).
  apply bind_inv_Ok in E as (? & ? & [= _ <-] & E). apply bind_inv_Ok in E as (p & w3 & E3 & [= <- <-]).
  eexists w2, _, p. split; [by etransitivity|]. split; [|split; [exact E3|done]]. done.
Qed.

(** C8: at most one order is ever made from a quote: once a call made an order from the quote,
    every later call for the same quote, under whatever key, that returns a result answers the
    order already on record for its key, as a replay, whatever requests, failures and steps of
    other clients come in between. *)
Theorem quote_makes_one_order i1 i2 w1 r1 w1' w2 r2 w2' :
  wf (w_db w1) -> polite safe (w_sched w1) ->
  CreateOrderFromQuote (service x) (Some pg_quotes) i1 w1 = (Ok r1, w1') -> ofq_Replay r1 = false ->
  safe (w_db w1') (w_db w2) -> polite safe (w_sched w2) -> cfq_QuoteID i2 = cfq_QuoteID i1 ->
  CreateOrderFromQuote (service x) (Some pg_quotes) i2 w2 = (Ok r2, w2') ->
  ofq_Replay r2 = true /\ consumed (cfq_QuoteID i1) (w_db w2).
Proof.
  intros Hw Hp E1 Hr1 [Hg Hs] Hp2 Eq E2.
  destruct (service_order _ _ _ _ E1) as [|(w3 & c & p & H3 & Eq1 & E3 & ->)]; [congruence|].
  pose proof (store_order_consumes _ _ _ _ E3 Hr1) as Hc. rewrite Eq1 in Hc.
  apply (consumed_kept _ _ _ Hg) in Hc as Hc2. split; [|done].
  destruct (service_order _ _ _ _ E2) as [|(w4 & c2 & p2 & H4 & Eq2 & E4 & ->)]; [done|].
  assert (Hw' : wf (w_db w1')).
  { destruct (H3 Hp) as [Hp3 [_ Hs3]].
    pose proof (ql_order (R := world_rel safe) (q := pg_quotes) c w3 Hp3) as [_ [_ Hs4]]. cbn in Hs4.
    rewrite E3 in Hs4. auto. }
  destruct (H4 Hp2) as [Hp4 [Hg4 Hs4]]. cbn.
  eapply (store_order_refused c2 w4); [|by auto|exact Hp4|exact E4]. rewrite Eq2, Eq. by eapply consumed_kept.
Qed.
End OneOrder.

(** ** An undisturbed order *)

(** One entry per unit, in the order of the lines. *)
Definition unit_lines (lines : list QuoteLineRow) : list QuoteLineRow :=
  flat_map (fun l => repeat l (Z.to_nat (at_least_one (ql_Quantity l)))) lines.

Section Units.
Context (i : PersistOrderFromQuoteInput) (order : N).

(** The vend session of a unit: pending, for the product and slot of its line. *)
Definition unit_row (l : QuoteLineRow) (seq now : Z) (id : N) : VendRow :=
  mk_VendRow (mk_VendSession id order (pqr_MachineID (poq_Quote i)) (ql_SlotIndex l) (ql_ProductID l)
    "pending" None (poq_Simulated i) (optionalStringToPgText (poq_SimulationRunID i))
    (optionalStringToPgText (poq_SimulationScenario i)) now) seq None None None "unverified" None.
(** One row per unit, numbered on from [k]. *)
Inductive vends_for : Z -> list QuoteLineRow -> list VendRow -> Prop :=
| vends_nil k : vends_for k [] []
| vends_cons k l ls vs now id :
    vends_for (k + 1) ls vs -> vends_for k (l :: ls) (unit_row l (k + 1) now id :: vs).
Definition unit_views (ls : list QuoteLineRow) (vs : list VendRow) : list OrderVendLineView :=
  zip_with (fun l v => vend_line (ql_CabinetCode l) (ql_SlotCode l) v) ls vs.

Lemma vends_app k ls ls' vs vs' :
  vends_for k ls vs -> vends_for (k + Z.of_nat (length ls)) ls' vs' -> vends_for k (ls ++ ls') (vs ++ vs').
Proof.
  intros H1 H2. induction H1 as [k|k l ls vs now id _ IH]; cbn [app] in *.
  - by rewrite Z.add_0_r in H2.
  - constructor. apply IH. by replace (k + 1 + Z.of_nat (length ls)) with (k + Z.of_nat (length (l :: ls)))
      by (cbn [length]; lia).
Qed.
Lemma vends_length k ls vs : vends_for k ls vs -> length vs = length ls.
Proof. induction 1; cbn; congruence. Qed.
Lemma unit_views_app k ls ls' vs vs' :
  vends_for k ls vs -> unit_views (ls ++ ls') (vs ++ vs') = unit_views ls vs ++ unit_views ls' vs'.
Proof. intros H%vends_length. by apply zip_with_app. Qed.

(** Room for the sessions numbered from [k + 1] with keys from [n] on. *)
Record unit_room (n : N) (k : Z) (d : pgdb) : Prop := mk_unit_room {
  ur_order : order ∈ map o_ID (d_orders d);
  ur_ids : forall v id, v ∈ d_vends d -> (n <= id)%N -> v_ID (vr_Session v) <> id;
  ur_seq : forall v, v ∈ d_vends d -> v_OrderID (vr_Session v) = order -> vr_LineSequence v <= k }.
Definition with_vends (vs : list VendRow) : pgdb -> pgdb := set_vends (fun l => l ++ vs).

Lemma with_vends_nil d : with_vends [] d = d.
Proof. unfold with_vends, set_vends. rewrite app_nil_r. by destruct d. Qed.
Lemma with_vends_app d vs vs' : with_vends vs' (with_vends vs d) = with_vends (vs ++ vs') d.
Proof. unfold with_vends, set_vends. cbn. by rewrite <- app_assoc. Qed.

Lemma unit_insert_ok n k d l now id :
  unit_room n k d -> (n <= id)%N -> vend_insert_ok (unit_row l (k + 1) now id) d = Ok tt.
Proof.
  intros [Ho Hi Hs] Hid. unfold vend_insert_ok. cbn [vr_Session unit_row v_OrderID v_State v_ID vr_LineSequence].
  rewrite (fk_elem o_ID _ _ _ Ho). cbn [res_bind]. rewrite check_true by done. cbn [res_bind].
  rewrite unique_fresh; cbn [res_bind].
  - apply unique_fresh. intros v Hv. apply andb_false_iff.
    destruct (N.eqb_spec (v_OrderID (vr_Session v)) order) as [E|]; [|by left]. right.
    apply Z.eqb_neq. specialize (Hs v Hv E). lia.
  - intros v Hv. apply N.eqb_neq. by apply (Hi v id).
Qed.
Lemma unit_room_next n k d l now id :
  unit_room n k d -> (n <= id)%N -> unit_room (N.succ id) (k + 1) (with_vends [unit_row l (k + 1) now id] d).
Proof.
  intros [Ho Hi Hs] Hid. split; [done|..]; cbn.
  - intros v id' [Hv| ->]%elem_of_snoc Hid'; [apply Hi; [done|lia]|cbn; lia].
  - intros v [Hv| ->]%elem_of_snoc E; [specialize (Hs v Hv E); lia|cbn; lia].
Qed.

(** What a run of inserts leaves. *)
Definition units_done (k : Z) (ls : list QuoteLineRow) (d : pgdb) (vs : list VendRow) (n : N) (w : world) : Prop :=
  vends_for k ls vs /\ wf (with_vends vs d) /\ calm_from n InTx (with_vends vs d) w /\
  unit_room n (k + Z.of_nat (length ls)) (with_vends vs d).

Lemma wp_insert_units l m : forall k n d w (Q : res (list OrderVendLineView * Z) -> world -> Prop),
  calm_from n InTx d w -> wf d -> unit_room n k d -> 0 <= k -> k + Z.of_nat m <= MaxInt32 ->
  (forall vs n' w', (n <= n')%N -> units_done k (repeat l m) d vs n' w' ->
     Q (Ok (unit_views (repeat l m) vs, k + Z.of_nat m)) w') ->
  wp (insert_units i order l m k) Q w.
Proof.
  induction m as [|m IH]; intros k n d w Q Hc Hw Hr Hk Hm HQ; cbn [insert_units].
  { wp_go. rewrite <- (Z.add_0_r k) at 1. apply (HQ [] n w); [lia|]. unfold units_done.
    rewrite with_vends_nil, Z.add_0_r. split; [constructor|done]. }
  rewrite wrap32_id by (unfold_int; lia). wp_go.
  eapply (wp_inserted_next n InTx d w Hc ltac:(done)); [done|apply InsertVendSession_safe|..].
  { intros now id Hid. by eapply (unit_insert_ok n k d l). }
  intros now id w1 Hid Hw1 Hc1. fold (unit_row l (k + 1) now id) in *. wp_go.
  eapply (IH (k + 1) (N.succ id) (with_vends [unit_row l (k + 1) now id] d)); try done; try lia;
    [by apply (unit_room_next n)|].
  intros vs n' w' Hn' (Hvs & Hw' & Hc' & Hr'). wp_go. rewrite with_vends_app in *.
  replace (k + 1 + Z.of_nat m) with (k + Z.of_nat (S m)) by lia.
  apply (HQ (unit_row l (k + 1) now id :: vs) n'); [lia|]. unfold units_done.
  split_and!; [by constructor|done..|]. cbn [length repeat].
  replace (k + Z.of_nat (S (length (repeat l m)))) with (k + 1 + Z.of_nat (length (repeat l m))) by lia. done.
Qed.

Lemma wp_insert_lines lines : forall k n d w (Q : res (list OrderVendLineView) -> world -> Prop),
  calm_from n InTx d w -> wf d -> unit_room n k d -> 0 <= k ->
  k + Z.of_nat (length (unit_lines lines)) <= MaxInt32 ->
  (forall vs n' w', (n <= n')%N -> units_done k (unit_lines lines) d vs n' w' ->
     Q (Ok (unit_views (unit_lines lines) vs)) w') ->
  wp (insert_lines i order lines k) Q w.
Proof.
  induction lines as [|l lines IH]; intros k n d w Q Hc Hw Hr Hk Hm HQ; cbn [insert_lines].
  { wp_go. apply (HQ [] n w); [lia|]. unfold units_done. rewrite with_vends_nil, Z.add_0_r.
    split; [constructor|done]. }
  cbn [unit_lines flat_map] in *. fold (unit_lines lines) in *. rewrite length_app, repeat_length in Hm. wp_go.
  eapply (wp_insert_units l _ k n d); try done; [lia|].
  intros vs n1 w1 Hn1 (Hvs & Hw1 & Hc1 & Hr1). rewrite repeat_length in Hr1. wp_go. cbn [fst snd].
  eapply (IH _ n1 (with_vends vs d)); try done; try lia.
  intros vs' n' w' Hn' (Hvs' & Hw' & Hc' & Hr'). wp_go. rewrite with_vends_app in *.
  erewrite <- unit_views_app by exact Hvs. apply (HQ (vs ++ vs') n'); [lia|]. unfold units_done.
  rewrite length_app, repeat_length. split_and!; [|done..|].
  - apply vends_app; [done|]. by rewrite repeat_length.
  - by rewrite Nat2Z.inj_add, Z.add_assoc.
Qed.
End Units.

Section Order.
Context (i : PersistOrderFromQuoteInput) (key source : string).
Implicit Types (q : QuoteRow) (d : pgdb).

(** A quote that can be ordered, and no row that stands in its way. *)
Record quote_room (q : QuoteRow) (n : N) (d : pgdb) : Prop := mk_quote_room {
  qr_quote : q ∈ d_quotes d;
  qr_id : qt_ID q = pqr_QuoteID (poq_Quote i);
  qr_state : qt_State q = "active";
  qr_source : validatePricingSourceForPersist (qt_PricingSource q) = Ok source;
  qr_supported : one_of source supportedPricingSources = true;
  qr_machine : pqr_MachineID (poq_Quote i) ∈ tp_Machines (d_topo d);
  qr_amounts : 0 <= pqr_SubtotalMinor (poq_Quote i) /\ 0 <= pqr_PayableMinor (poq_Quote i);
  qr_currency : len (pqr_Currency (poq_Quote i)) <= 3;
  qr_key : forall o, o ∈ d_orders d -> o_IdempotencyKey o <> Some (TrimSpace key);
  qr_order_id : forall fresh, (n <= fresh)%N ->
    default fresh (uuidPtrToPgUUID (poq_ClientOrderID i)) ∉ map o_ID (d_orders d);
  qr_vends : forall v id, v ∈ d_vends d -> (n <= id)%N -> v_ID (vr_Session v) <> id;
  qr_units : Z.of_nat (length (unit_lines (quote_lines_of (qt_ID q) d))) <= MaxInt32 }.

(** The tables once the quote has become the order [o] with the sessions [vs]. *)
Definition ordered_db (q : QuoteRow) (o : Order) (vs : list VendRow) (d : pgdb) : pgdb :=
  set_quotes (update_where (active_quote (qt_ID q)) (quote_with "consumed"))
    (with_vends vs (set_orders (fun l => l ++ [o]) d)).

Lemma room_for_units q n d o :
  wf d -> quote_room q n d -> (forall v, v ∈ d_vends d -> v_OrderID (vr_Session v) <> o_ID o) ->
  unit_room (o_ID o) n 0 (set_orders (fun l => l ++ [o]) d).
Proof.
  intros Hw Hr Hno. split; cbn.
  - rewrite map_app. apply elem_of_app. right. by apply list_elem_of_singleton.
  - apply Hr.
  - intros v Hv E. by destruct (Hno v Hv).
Qed.
Lemma order_of_quote_ok q n d now id :
  quote_room q n d -> blank (TrimSpace key) = false -> (n <= id)%N ->
  order_insert_ok (order_of_quote i key source q now (default id (uuidPtrToPgUUID (poq_ClientOrderID i)))) d = Ok tt.
Proof.
  intros Hr Hkey Hid. pose proof (qr_amounts _ _ _ Hr) as [H1 H2]. apply order_insert_ok_fresh; try done.
  - apply Hr.
  - apply Hr.
  - apply Hr.
  - by apply (qr_order_id _ _ _ Hr).
  - intros x Hx. apply text_key_free; [done|by apply (qr_key _ _ _ Hr)].
Qed.
Lemma find_active q d : wf d -> q ∈ d_quotes d -> qt_State q = "active" ->
  List.find (active_quote (qt_ID q)) (d_quotes d) = Some q.
Proof.
  intros Hw Hq Hs. destruct (List.find _ _) as [r|] eqn:E.
  - apply find_Some_elem in E as [Hr [Er%N.eqb_eq _]%andb_true_iff]. f_equal.
    eapply unique_on_same; [eapply wq_ids, wf_q, Hw|done..| |done]. cbn. congruence.
  - rewrite find_None_elem in E. specialize (E q Hq). unfold active_quote in E.
    by rewrite N.eqb_refl, Hs in E.
Qed.
(** The writes: the order, its sessions, the state of the quote. *)
Definition order_writes (q : QuoteRow) : M world (tx_end PersistOrderFromQuoteResult) :=
  let! row := InsertOrder (uuidPtrToPgUUID (poq_ClientOrderID i)) (order_of_quote i key source q) in
  let! lines := ListCheckoutQuoteLines (qt_ID q) in
  let! vendLines := insert_lines i (o_ID row) lines 0 in
  let! _ := MarkCheckoutQuoteConsumed (qt_ID q) in
  ret (Commit (mk_PersistOrderFromQuoteResult (mapOrder row) vendLines false)).
Lemma wp_order_writes q n d w (Q : res (tx_end PersistOrderFromQuoteResult) -> world -> Prop) :
  calm_from n InTx d w -> wf d -> quote_room q n d -> blank (TrimSpace key) = false ->
  (forall now id vs w',
     let o := order_of_quote i key source q now (default id (uuidPtrToPgUUID (poq_ClientOrderID i))) in
     vends_for i (o_ID o) 0 (unit_lines (quote_lines_of (qt_ID q) d)) vs ->
     calm_from n InTx (ordered_db q o vs d) w' ->
     Q (Ok (Commit (mk_PersistOrderFromQuoteResult o
              (unit_views (unit_lines (quote_lines_of (qt_ID q) d)) vs) false))) w') ->
  wp (order_writes q) Q w.
Proof.
  intros Hc Hw Hr Hkey HQ. unfold order_writes, InsertOrder. wp_go.
  eapply (wp_inserted_next n InTx d w Hc ltac:(done)); [done|by apply InsertOrder_safe|..].
  { intros now id. by apply order_of_quote_ok. }
  intros now id w1 Hid Hw1 Hc1. set (o := order_of_quote _ _ _ _ _ _) in *. wp_go.
  apply (calm_weaken _ n) in Hc1; [|lia].
  eapply (wp_select_many (quote_lines_of (qt_ID q)) n InTx); [exact Hc1|done|].
  clear w1 Hc1. intros w1 Hc1. wp_go.
  assert (Hno : forall v, v ∈ d_vends d -> v_OrderID (vr_Session v) <> o_ID o).
  { intros v Hv E. apply (qr_order_id _ _ _ Hr id Hid).
    pose proof (wv_order _ _ (wf_v _ Hw) v Hv) as Hin. cbn in Hin. by rewrite E in Hin. }
  eapply (wp_insert_lines i (o_ID o) (quote_lines_of (qt_ID q) d) 0 n); try done; [by eapply room_for_units|apply Hr|].
  intros vs n' w2 Hn' (Hvs & Hw2 & Hc2 & _). wp_go. apply (calm_weaken _ n) in Hc2; [|lia].
  eapply (wp_updated n InTx _ w2 Hc2 ltac:(done)); [done|apply MarkCheckoutQuoteConsumed_safe| |done|].
  { apply find_active; [done|apply Hr|apply Hr]. }
  intros now2 w3 _ Hc3. wp_go. rewrite mapOrder_id. by apply (HQ now id vs w3).
Qed.
Lemma wp_order_from_quote q n d w Q :
  calm_from n InTx d w -> wf d -> quote_room q n d -> w_now w <= qt_ExpiresAt q ->
  (forall w', calm_from n InTx d w' -> wp (order_writes q) Q w') ->
  wp (order_from_quote i key) Q w.
Proof.
  intros Hc Hw Hr Hexp HQ. unfold order_from_quote. wp_go. rewrite <- (qr_id _ _ _ Hr).
  apply wp_clock; [apply same_clock_stmt|].
  eapply (wp_found n InTx d w); [done..|apply (find_by_id qt_ID); [apply (wq_ids _ _ (wf_q _ Hw))|apply Hr]|].
  clear Hc. intros w1 Hc Hclk. wp_go. rewrite (qr_state _ _ _ Hr).
  apply wp_guard; [done|intros _]. wp_go. unfold wp at 1. cbn [time_Now gets fst snd]. wp_go.
  apply wp_guard; [intros E%Z.ltb_lt; lia|intros _]. wp_go. rewrite (qr_source _ _ _ Hr).
  cbn beta iota. by apply HQ.
Qed.
End Order.

Section Ordering.
Context `{UuidText} `{Sha256} (x : Externals).

(** What the service hands to the store for a quote on record. *)
Definition quote_on_record (q : QuoteRow) (d : pgdb) : PersistQuoteResult :=
  mapPersistQuote q (quote_lines_of (qt_ID q) d) false.
Definition order_input (i : CreateOrderFromQuoteInput) (q : QuoteRow) (d : pgdb) : PersistOrderFromQuoteInput :=
  mk_PersistOrderFromQuoteInput (quote_on_record q d) (TrimSpace (cfq_IdempotencyKey i)) (cfq_Simulated i)
    (TrimSpace (cfq_SimulationRunID i)) (TrimSpace (cfq_SimulationScenario i)) (cfq_FakeBill i)
    (cfq_FakeBoard i) (cfq_ClientOrderID i) (cfq_CreatedAt i).
Definition quote_order (i : CreateOrderFromQuoteInput) (source : string) (q : QuoteRow) (d : pgdb)
    (now : Z) (id : N) : Order :=
  order_of_quote (order_input i q d) (TrimSpace (cfq_IdempotencyKey i)) source q now
    (default id (uuidPtrToPgUUID (cfq_ClientOrderID i))).
Definition orderable (i : CreateOrderFromQuoteInput) (source : string) (q : QuoteRow) (n : N) (d : pgdb) : Prop :=
  quote_room (order_input i q d) (TrimSpace (cfq_IdempotencyKey i)) source q n d.

Lemma validate_order_inv i :
  validateCreateOrderFromQuote i = Ok tt ->
  cfq_MachineID i <> uuid_Nil /\ cfq_QuoteID i <> uuid_Nil /\ blank (TrimSpace (cfq_IdempotencyKey i)) = false.
Proof.
  unfold validateCreateOrderFromQuote, guard_err. intros Hv.
  destruct (_ =u _) eqn:E1 in Hv; [done|]. cbn in Hv. destruct (_ =u _) eqn:E2 in Hv; [done|]. cbn in Hv.
  split_and!; [by apply N.eqb_neq|by apply N.eqb_neq|by destruct (blank _)].
Qed.
Lemma wp_no_order_replay m key n d w (Q : res (option PersistOrderFromQuoteResult) -> world -> Prop) :
  calm_from n NoTx d w -> m <> uuid_Nil -> blank (TrimSpace key) = false ->
  (forall o, o ∈ d_orders d -> o_IdempotencyKey o <> Some (TrimSpace key)) ->
  (forall w', calm_from n NoTx d w' -> w_now w' = w_now w -> Q (Ok None) w') ->
  wp (TryReplayOrderFromQuote m key) Q w.
Proof.
  intros Hc Hm Hk Hno HQ.
  apply wp_clock; [unfold TryReplayOrderFromQuote, TryReplayCreateOrderWithVend; evolve|].
  unfold TryReplayOrderFromQuote. rewrite Hk. wp_go.
  eapply wp_try_replay_None; [exact Hc|done|done|by rewrite TrimSpace_idemp|by rewrite TrimSpace_idemp|].
  intros w' Hc'. wp_go. by apply HQ.
Qed.
Lemma wp_quote_on_record q n d w (Q : res PersistQuoteResult -> world -> Prop) :
  calm_from n NoTx d w -> wf d -> q ∈ d_quotes d ->
  (forall w', calm_from n NoTx d w' -> w_now w' = w_now w -> Q (Ok (quote_on_record q d)) w') ->
  wp (GetQuoteWithLines (qt_ID q)) Q w.
Proof.
  intros Hc Hw Hq HQ. apply wp_clock; [unfold GetQuoteWithLines; evolve|].
  unfold GetQuoteWithLines. wp_go.
  eapply (wp_found n NoTx d w); [done..|apply (find_by_id qt_ID); [apply (wq_ids _ _ (wf_q _ Hw))|done]|].
  intros w1 Hc1. wp_go. eapply (wp_select_many (quote_lines_of (qt_ID q)) n NoTx); [exact Hc1|done|].
  intros w2 Hc2. wp_go. by apply HQ.
Qed.
(** The store, undisturbed. *)
Lemma wp_store_order i source q n d w (Q : res PersistOrderFromQuoteResult -> world -> Prop) :
  calm_from n NoTx d w -> wf d -> blank (TrimSpace (cfq_IdempotencyKey i)) = false ->
  qt_ID q <> uuid_Nil -> orderable i source q n d -> w_now w < qt_ExpiresAt q ->
  (forall now id vs w', let o := quote_order i source q d now id in
     let lines := unit_lines (quote_lines_of (qt_ID q) d) in
     vends_for (order_input i q d) (o_ID o) 0 lines vs ->
     calm_from n NoTx (ordered_db q o vs d) w' ->
     Q (Ok (mk_PersistOrderFromQuoteResult o (unit_views lines vs) false)) w') ->
  wp (CreateOrderFromQuoteWithVendSessions (order_input i q d)) Q w.
Proof.
  intros Hc Hw Hk Hq Hr Hexp HQ. unfold CreateOrderFromQuoteWithVendSessions.
  cbn [order_input poq_Quote poq_IdempotencyKey quote_on_record mapPersistQuote pqr_QuoteID].
  rewrite TrimSpace_idemp, Hk, (proj2 (N.eqb_neq _ _) Hq). eapply wp_with_tx_at; [exact Hc|].
  clear Hc. intros w1 Hc Hclk. unfold order_of_key. wp_go. apply wp_clock; [apply same_clock_stmt|].
  rewrite optional_text by (by rewrite TrimSpace_idemp).
  eapply (wp_missing n InTx d w1); [done..|apply find_key_None; apply Hr|].
  clear Hc. intros w2 Hc Hclk2. wp_go. eapply wp_order_from_quote; [done..| |]; [lia|].
  clear w1 w2 Hc Hclk Hclk2. intros w1 Hc. eapply wp_order_writes; [done..|by rewrite TrimSpace_idemp|].
  clear w1 Hc. intros now id vs w1 o Hvs Hc. left. eexists. split; [exact Hc|].
  intros w2 Hc2. by apply (HQ now id vs w2).
Qed.

(** C9: an active quote that has not expired becomes exactly one order with the amounts, currency
    and pricing source of the quote, and one pending vend session per unit of its lines, numbered
    from 1 in the order of the lines; the quote is consumed; nothing else changes. *)
Theorem quote_becomes_order i source q n d w :
  calm_from n NoTx d w -> wf d -> validateCreateOrderFromQuote i = Ok tt ->
  qt_ID q = cfq_QuoteID i -> qt_MachineID q = cfq_MachineID i -> orderable i source q n d ->
  validateReplayPricingSnapshot (cfq_PricingSnapshot i) (quote_as_order (quote_on_record q d)) = Ok tt ->
  w_now w < qt_ExpiresAt q ->
  wp (CreateOrderFromQuote (service x) (Some pg_quotes) i) (fun r w' => exists now id vs,
    let o := quote_order i source q d now id in
    let lines := unit_lines (quote_lines_of (qt_ID q) d) in
    vends_for (order_input i q d) (o_ID o) 0 lines vs /\
    r = Ok (mapPersistOrderFromQuote (mk_PersistOrderFromQuoteResult o (unit_views lines vs) false)) /\
    calm_from n NoTx (ordered_db q o vs d) w') w.
Proof.
  intros Hc Hw Hv Eq Em Hr Hsnap Hexp. destruct (validate_order_inv i Hv) as (Hm & Hq & Hk).
  unfold CreateOrderFromQuote. wp_go. rewrite Hv. wp_go. rewrite Hk.
  cbn [pg_quotes qs_TryReplayOrderFromQuote qs_GetQuoteWithLines qs_CreateOrderFromQuoteWithVendSessions].
  eapply wp_no_order_replay; [exact Hc|done|by rewrite TrimSpace_idemp|apply Hr|].
  clear Hc. intros w1 Hc Hclk1. wp_go. rewrite <- Eq.
  eapply wp_quote_on_record; [exact Hc|done|apply Hr|]. clear Hc. intros w2 Hc Hclk2. wp_go.
  cbn [pqr_MachineID pqr_State pqr_ExpiresAt quote_on_record mapPersistQuote].
  apply wp_guard; [rewrite Em, N.eqb_refl; done|intros _]. wp_go. rewrite Hsnap. wp_go.
  rewrite (qr_state _ _ _ _ _ _ Hr). apply wp_guard; [done|intros _]. wp_go.
  cbn [sv_now service]. unfold wp at 1. cbn [time_Now gets fst snd]. wp_go.
  apply wp_guard; [intros E%Z.ltb_lt; lia|intros _]. wp_go. fold (quote_on_record q d) (order_input i q d).
  eapply wp_store_order; [exact Hc|done|done|congruence|exact Hr|lia|].
  clear w1 w2 Hc Hclk1 Hclk2. intros now id vs w1 o lines Hvs Hc. wp_go. by exists now, id, vs.
Qed.
End Ordering.

(** ** A cart, its quote and its order *)

#[local] Existing Instance decimal_uuid.
#[local] Existing Instance length_sha256.

Definition cart_line (slot quantity : Z) : QuoteLineInput := mk_QuoteLineInput 9 None "M" "A3" (Some slot) quantity.
Definition demo_cart : CreateQuoteInput :=
  mk_CreateQuoteInput 1 "usd" "qr" [cart_line 3 2; cart_line 4 1] "cart-1" 0 None.
Definition demo_quote_request (key : string) (order : N) : CreateOrderFromQuoteInput :=
  mk_CreateOrderFromQuoteInput 1 102 "qr" key false "" "" false false None order 0.
Definition create_demo_quote : M world CreateQuoteResult :=
  CreateQuote (service (demo_externals true)) (Some pg_quotes) demo_carts demo_cart.
Definition order_demo_quote (key : string) (order : N) : M world CreateOrderFromQuoteResult :=
  CreateOrderFromQuote (service (demo_externals true)) (Some pg_quotes) (demo_quote_request key order).
Definition quoted_w : world := Eval vm_compute in (create_demo_quote (demo_world demo_db [])).2.
Definition ordered_w : world := Eval vm_compute in (order_demo_quote "k1" 500 quoted_w).2.

(** The quote adds up, the order has one session per unit, and the quote is used up: another key
    is refused, the same key replays. *)
Example demo_quote_amounts :
  map (fun l => (ql_LineSequence l, ql_Quantity l, ql_LineSubtotalMinor l)) (d_quote_lines (w_db quoted_w)) =
    [(1, 2, 2000); (2, 1, 1080)] /\
  map (fun q => (qt_ID q, qt_PayableMinor q, qt_State q)) (d_quotes (w_db quoted_w)) = [(102%N, 3080, "active")].
Proof. vm_compute. done. Qed.
Example demo_quote_order :
  map (fun o => (o_ID o, o_TotalMinor o, o_Status o)) (d_orders (w_db ordered_w)) = [(500%N, 3080, "created")] /\
  map (fun v => (vr_LineSequence v, v_OrderID (vr_Session v), v_State (vr_Session v))) (d_vends (w_db ordered_w)) =
    [(1, 500%N, "pending"); (2, 500%N, "pending"); (3, 500%N, "pending")] /\
  map qt_State (d_quotes (w_db ordered_w)) = ["consumed"].
Proof. vm_compute. done. Qed.
Example demo_quote_used_up :
  (order_demo_quote "k2" 501 ordered_w).1 = Err (ENew "quote is not active") /\
  match (order_demo_quote "k1" 501 ordered_w).1 with
  | Ok r => (ofq_OrderID r, ofq_Replay r) = (500%N, true)
  | Err _ => False
  end.
Proof. vm_compute. done. Qed.

Lemma quoted_w_wf : wf (w_db quoted_w).
Proof.
  pose proof (demo_externals_laws true (world_rel safe)).
  destruct (handle_evolves (demo_externals true) (world_rel safe) (ReqCreateQuote demo_cart) (demo_world demo_db []))
    as [_ [_ Hw]]; [by apply nil_polite|].
  replace quoted_w with (handle (demo_externals true) (ReqCreateQuote demo_cart) (demo_world demo_db [])).2
    by (vm_compute; reflexivity).
  apply Hw, demo_db_wf.
Qed.

Lemma quote_makes_one_order_witness :
  let c key := order_demo_quote key 0 in
  exists r1 w1 r2 w2, c "k1" quoted_w = (Ok r1, w1) /\ ofq_Replay r1 = false /\ c "k1" w1 = (Ok r2, w2) /\
    ofq_Replay r2 = true.
Proof.
  eexists _, _, _, _. split; [vm_compute; reflexivity|]. split; [reflexivity|].
  split; [vm_compute; reflexivity|].
  eapply (quote_makes_one_order (demo_externals true) (demo_quote_request "k1" 0) (demo_quote_request "k1" 0) quoted_w).
  - apply quoted_w_wf.
  - by apply nil_polite.
  - vm_compute. reflexivity.
  - reflexivity.
  - reflexivity.
  - by apply nil_polite.
  - reflexivity.
  - vm_compute. reflexivity.
Defined.

Definition demo_quote_row : QuoteRow :=
  Eval vm_compute in default (quote_row (mk_PersistQuoteInput 0 "" "" 0 0 0 "" 0 "" None None None []) "" "" 0 0)
                       (head (d_quotes (w_db quoted_w))).
Lemma demo_orderable :
  orderable (demo_quote_request "k1" 500) "server_priced" demo_quote_row 200 (w_db quoted_w).
Proof.
  split; try done.
  - left.
  - left.
  - intros o Ho. by apply elem_of_nil in Ho.
  - intros fresh _ Hf. by apply elem_of_nil in Hf.
  - intros v id Hv. by apply elem_of_nil in Hv.
Qed.
Lemma quote_becomes_order_witness :
  let w := mk_world (w_db quoted_w) NoTx [] (w_now quoted_w) 200 in
  wp (CreateOrderFromQuote (service (demo_externals true)) (Some pg_quotes) (demo_quote_request "k1" 500))
    (fun r w' => exists o vs d',
       calm_from 200 NoTx d' w' /\ d_orders d' = [o] /\ o_TotalMinor o = 3080 /\ d_vends d' = vs /\
       length vs = 3%nat /\ map qt_State (d_quotes d') = ["consumed"]) w.
Proof.
  intros w. assert (Hc : calm_from 200 NoTx (w_db quoted_w) w) by (by split).
  pose proof (quote_becomes_order (demo_externals true) (demo_quote_request "k1" 500) "server_priced"
    demo_quote_row 200 (w_db quoted_w) w Hc quoted_w_wf eq_refl eq_refl eq_refl demo_orderable eq_refl
    ltac:(by apply Z.ltb_lt)) as Hwp.
  eapply wp_mono; [|exact Hwp]. clear Hwp.
  cbn beta. intros r w' (now & id & vs & Hvs & _ & Hc'). apply vends_length in Hvs.
  eexists _, vs, _. split_and!; [exact Hc'|reflexivity..|exact Hvs|reflexivity].
Defined.

(** *** The machine's own prices *)

Definition snapshot_carts : CartResolvers world :=
  mk_CartResolvers world None (Some (fun _ l _ => map_each (fun sq => ret (line_times sq.2 demo_line)) l)).
Definition quote_with_snapshot (lines : list QuoteLineInput) (snap : MachinePricingSnapshotInput)
    : M world CreateQuoteResult :=
  CreateQuote (service (demo_externals true)) (Some pg_quotes) snapshot_carts
    (mk_CreateQuoteInput 1 "usd" "qr" lines "cart-2" 0 (Some snap)).
Definition unit_snapshot (tax : Z) : MachinePricingSnapshotInput :=
  mk_MachinePricingSnapshotInput 1000 tax (1000 + tax) 1000 1 "fp" 0 "snap" 0 "" [].

(** The quantity of the cart is not in the snapshot: a snapshot of one unit prices five. *)
Example snapshot_of_one_unit :
  let w := (quote_with_snapshot [cart_line 3 5] (unit_snapshot 0) (demo_world demo_db [])).2 in
  let w' := (order_demo_quote "k1" 500 w).2 in
  map (fun l => (ql_Quantity l, ql_LineSubtotalMinor l)) (d_quote_lines (w_db w)) = [(5, 5000)] /\
  map qt_PayableMinor (d_quotes (w_db w)) = [1000] /\
  map o_TotalMinor (d_orders (w_db w')) = [1000] /\ length (d_vends (w_db w')) = 5%nat.
Proof. vm_compute. done. Qed.
(** A snapshot with tax never matches the quote made from it. *)
Example snapshot_with_tax :
  let w := (quote_with_snapshot [cart_line 3 1] (unit_snapshot 80) (demo_world demo_db [])).2 in
  map qt_PayableMinor (d_quotes (w_db w)) = [1080] /\
  (CreateOrderFromQuote (service (demo_externals true)) (Some pg_quotes)
     (mk_CreateOrderFromQuoteInput 1 102 "qr" "k1" false "" "" false false (Some (unit_snapshot 80)) 500 0) w).1 =
    Err ErrIdempotencyPayloadConflict /\
  map (fun o => (o_SubtotalMinor o, o_TaxMinor o, o_TotalMinor o)) (d_orders (w_db (order_demo_quote "k1" 500 w).2)) =
    [(1000, 0, 1080)].
Proof. vm_compute. done. Qed.
