(* ===== verification/Stock.v ===== *)
(** * Stock and fulfilment

    A sale takes one item from its slot, once per key; a finished vend closes
    its order, and finishing it again changes nothing. *)

From S2P Require Import Prelude.
From S2P Require Import GoStd.
From S2P Require Import Pricing.
From S2P Require Import CommerceTypes.
From S2P Require Import Sanitize.
From S2P Require Import Evidence.
From S2P Require Import Snapshot.
From S2P Require Import Rules.
From S2P Require Import CommerceService.
From S2P Require Import ServiceLaws.
From S2P Require Import Db.
From S2P Require Import Queries.
From S2P Require Import History.
From S2P Require Import PgCommerce.
From S2P Require Import Fulfillment.
From S2P Require Import StoreLaws.
From S2P Require Import Logic.
From S2P Require Import Backend.
From S2P Require Import Scenario.
From S2P Require Import Settlement.
From S2P Require Import Webhooks.
From S2P Require Import Orders.
From S2P Require Import Requests.
Local Open Scope string_scope.
Local Open Scope list_scope.
Local Open Scope Z_scope.

(** ** The decrement *)

(** The movements recorded under a key. *)
Definition sales_of (key : string) (machine : N) (d : pgdb) : list InventoryEvent :=
  List.filter (fun e => (ie_MachineID e =u machine) && sql_text_eq (ie_IdempotencyKey e) (Some key))
    (d_stock_events d).
Definition machine_slots (machine : N) (d : pgdb) : list MachineSlotRow :=
  map (machine_slot_row machine d)
    (in_order ss_Slot (in_order (fun s => Z.of_N (ss_PlanogramID s))
       (List.filter (fun s => ss_Machine s =u machine) (d_slots d)))).

Lemma machine_slots_elem machine d r : r ∈ machine_slots machine d ->
  exists s, s ∈ d_slots d /\ ss_Machine s = machine /\ r = machine_slot_row machine d s.
Proof.
  intros (s & -> & Hs)%list_elem_of_fmap. exists s.
  apply in_order_elem, in_order_elem, elem_of_filter_bool in Hs as [Hs Em%N.eqb_eq]. done.
Qed.

(** A sold line: the vend it is for, and the slot it is taken from. *)
Record sold_line (machine order : N) (slot line : Z) (product : N) (snap : MachineSlotRow) (d : pgdb)
    : Prop := mk_sold_line {
  sd_machine : machine ∈ tp_Machines (d_topo d); sd_slot : 0 <= slot;
  sd_vend : exists v, vend_at order slot line d = Some v /\ v_MachineID (vr_Session v) = machine /\
              v_ProductID (vr_Session v) = product /\ v_State (vr_Session v) = "success";
  sd_snap : pickSlotSnapshotForVend (machine_slots machine d) slot product = Some snap }.

(** The slot row after the sale, and the tables. *)
Definition sold_slot (machine : N) (slot : Z) (snap : MachineSlotRow) : SlotState :=
  mk_SlotState machine (ms_PlanogramID snap) slot (ms_CurrentQuantity snap - 1)
    (ms_PriceMinor snap) (ms_RevisionApplied snap).
Definition stock_db (ev : InventoryEvent) (s : SlotState) (d : pgdb) : pgdb :=
  set_slots (update_where (same_slot s) (fun _ => s)) (set_stock_events (fun l => l ++ [ev]) d).

Lemma wp_count key machine n t d w (Q : res Z -> world -> Prop) :
  calm_from n t d w -> t <> Aborted ->
  (forall w', calm_from n t d w' -> Q (Ok (Z.of_nat (length (sales_of key machine d)))) w') ->
  wp (InventoryAdminCountInventoryEventsByIdempotencyKey key machine) Q w.
Proof.
  intros Hc Ht HQ. eapply (wp_found n t d w Hc Ht (fun d => Some (Z.of_nat (length (sales_of key machine d)))));
    [reflexivity|exact HQ].
Qed.
Lemma wp_upsert_slot s n t d w (Q : res SlotState -> world -> Prop) :
  calm_from n t d w -> t <> Aborted -> 0 <= ss_Slot s -> existsb (same_slot s) (d_slots d) = true ->
  (forall w', calm_from n t (set_slots (update_where (same_slot s) (fun _ => s)) d) w' -> Q (Ok s) w') ->
  wp (InventoryAdminUpsertMachineSlotState s) Q w.
Proof.
  intros Hc Ht Hs He HQ. eapply (wp_stmt _ n t d w); [done|done|..]; rewrite (proj2 (Z.ltb_ge _ 0) Hs), He;
    [|done|done].
  intros now id a d' w' _ [= <- <-]. apply HQ.
Qed.

Lemma wp_apply_inventory machine order slot line product key corr snap n d w
    (Q : res bool -> world -> Prop) :
  calm_from n InTx d w -> wf d -> sold_line machine order slot line product snap d ->
  blank (TrimSpace key) = false ->
  (sales_of key machine d <> [] -> forall w', calm_from n InTx d w' -> Q (Ok true) w') ->
  (sales_of key machine d = [] -> ms_CurrentQuantity snap < 1 -> forall w',
     calm_from n InTx d w' -> Q (Err (ENew "postgres: insufficient stock for vend sale")) w') ->
  (sales_of key machine d = [] -> 1 <= ms_CurrentQuantity snap -> forall occurred t id w',
     calm_from n InTx (stock_db (sale_event machine order product slot (ms_CurrentQuantity snap - 1)
       key corr occurred t id) (sold_slot machine slot snap) d) w' -> Q (Ok false) w') ->
  wp (applyCommerceVendSuccessInventoryTx uuid_Nil machine order slot line product key corr) Q w.
Proof.
  intros Hc Hw [Hm Hslot (v & Hv & Evm & Evp & Evs) Hsnap] Hk Hrep Hlow Hok.
  unfold applyCommerceVendSuccessInventoryTx. rewrite Hk. wp_go.
  destruct (List.find (N.eqb machine) (tp_Machines (d_topo d))) as [m|] eqn:Em.
  2: { rewrite find_None_elem in Em. specialize (Em machine Hm). by rewrite N.eqb_refl in Em. }
  eapply (wp_found n InTx d w); [done..|exact Em|]. clear w Hc. intros w Hc. wp_go.
  rewrite N.eqb_refl. cbn [negb]. wp_go.
  assert (Hvend : forall Q', (forall w', calm_from n InTx d w' -> Q' (Ok v) w') ->
    wp (if 0 <? line then GetVendSessionByOrderAndLineSequenceQ order line
        else GetVendSessionByOrderAndSlotQ order slot) Q' w).
  { intros Q' HQ'. unfold vend_at in Hv. destruct (0 <? line);
      (eapply (wp_found n InTx d w); [done..|exact Hv|exact HQ']). }
  apply Hvend. clear w Hc Hvend. intros w Hc. wp_go. rewrite Evm, Evp, Evs, !N.eqb_refl. cbn [negb orb].
  rewrite String.eqb_refl. cbn [negb]. wp_go. eapply wp_count; [exact Hc|done|]. clear w Hc. intros w Hc. wp_go.
  destruct (sales_of key machine d) as [|e l] eqn:Es.
  2: { change (0 <? Z.of_nat (length (e :: l))) with true. wp_go. by apply Hrep. }
  change (0 <? Z.of_nat (length [])) with false. wp_go. unfold resolveVendSlotSnapshot. wp_go.
  eapply (wp_select_many _ n InTx d w); [done|done|]. clear w Hc. intros w Hc. wp_go.
  fold (machine_slots machine d). rewrite Hsnap. wp_go.
  destruct (Z.ltb_spec (ms_CurrentQuantity snap) 1) as [Hl|Hg]; wp_go; [by apply Hlow|].
  eapply wp_time_Now; [exact Hc|]. intros occ. wp_go.
  eapply (wp_inserted n InTx d w); [exact Hc|done|done|apply InsertStockEvent_safe|done|].
  clear w Hc. intros t id w _ Hc. wp_go. eapply wp_upsert_slot; [exact Hc|done|done| |].
  { unfold pickSlotSnapshotForVend in Hsnap. apply find_Some_elem in Hsnap as [Hin [Ei%Z.eqb_eq _]%andb_true_iff].
    apply machine_slots_elem in Hin as (s & Hs & Esm & ->). apply existsb_exists. exists s.
    rewrite <- list_elem_of_In. split; [done|]. apply same_slot_spec. unfold slot_identity. cbn.
    cbn in Ei. by rewrite Esm, Ei. }
  clear w Hc. intros w Hc. wp_go. by eapply Hok.
Qed.

Section Decrement.

(** A sale takes exactly one item: under a key on record nothing changes; on an empty slot the
    sale is refused and nothing changes; otherwise one movement of -1 is recorded under the key
    and the slot's quantity goes down by one, never below zero. *)
Theorem stock_decrement machine order slot product key corr snap n d w :
  calm_from n NoTx d w -> wf d -> sold_line machine order slot 0 product snap d ->
  blank (TrimSpace key) = false ->
  wp (ApplyCommerceVendSuccessInventory uuid_Nil machine order slot product key corr) (fun r w' =>
    if negb (is_nil (sales_of key machine d)) then r = Ok true /\ calm_from n NoTx d w'
    else if ms_CurrentQuantity snap <? 1
    then r = Err (ENew "postgres: insufficient stock for vend sale") /\ calm_from n NoTx d w'
    else r = Ok false /\ 0 <= ms_CurrentQuantity snap - 1 /\ exists occurred t id,
      calm_from n NoTx (stock_db (sale_event machine order product slot (ms_CurrentQuantity snap - 1)
        key corr occurred t id) (sold_slot machine slot snap) d) w') w.
Proof.
  intros Hc Hw Hs Hk. unfold ApplyCommerceVendSuccessInventory. eapply wp_with_tx; [exact Hc|].
  clear w Hc. intros w Hc. wp_go. eapply wp_apply_inventory; [exact Hc|done|done|done|..].
  - intros Hn. clear w Hc. intros w Hc. wp_go. left. exists d. split; [done|]. intros w' Hc'.
    by destruct (sales_of key machine d).
  - intros Hn Hl. clear w Hc. intros w Hc. split; [split; apply Hc|]. intros w' Hc'.
    rewrite Hn. apply Z.ltb_lt in Hl as Hl'. by rewrite Hl'.
  - intros Hn Hl occ t id. clear w Hc. intros w Hc. wp_go. left. eexists. split; [exact Hc|].
    clear w Hc. intros w Hc. rewrite Hn. apply Z.ltb_ge in Hl as Hl'. rewrite Hl'. cbn.
    split; [done|]. split; [lia|]. by exists occ, t, id.
Qed.
End Decrement.

(** ** Finishing a vend *)

(** The payment row a fulfilment is judged by. *)
Definition payment_row_fallback (order : N) (d : pgdb) : option Payment :=
  match List.find (fun p => one_of (TrimSpace (p_State p)) ["captured"; "partially_refunded"])
          (rev (in_order p_CreatedAt (payments_of order d))) with
  | Some p => Some p
  | None => latest p_CreatedAt (payments_of order d)
  end.
Definition payment_row (order : N) (winning : option N) (d : pgdb) : option Payment :=
  match non_nil winning with
  | None => payment_row_fallback order d
  | Some id =>
      match List.find (fun p => p_ID p =u id) (d_payments d) with
      | Some row => if p_OrderID row =u order then Some row else payment_row_fallback order d
      | None => payment_row_fallback order d
      end
  end.
Lemma payment_row_fallback_elem order d p : payment_row_fallback order d = Some p -> p ∈ d_payments d.
Proof.
  unfold payment_row_fallback. destruct (List.find _ _) as [q|] eqn:E.
  - intros [= <-]. apply find_Some_elem in E as [Hin _]. rewrite list_elem_of_In, <- in_rev in Hin.
    rewrite <- list_elem_of_In in Hin. by apply in_order_elem, elem_of_filter_bool in Hin as [? _].
  - intros [?|Hin]%latest_from_elem; [done|]. by apply elem_of_filter_bool in Hin as [? _].
Qed.
Lemma payment_row_elem order w d p : payment_row order w d = Some p -> p ∈ d_payments d.
Proof.
  unfold payment_row. destruct (non_nil w); [|apply payment_row_fallback_elem].
  destruct (List.find _ _) as [q|] eqn:E; [|apply payment_row_fallback_elem].
  destruct (_ =u _); [|apply payment_row_fallback_elem]. intros [= <-].
  by apply find_Some_elem in E as [? _].
Qed.

Lemma wp_payment_row order winning n t d w (Q : res Payment -> world -> Prop) :
  calm_from n t d w -> t <> Aborted ->
  (forall w', calm_from n t d w' ->
     Q (match payment_row order winning d with Some p => Ok p | None => Err ErrNoRows end) w') ->
  wp (resolveAuthoritativePaymentRow order winning) Q w.
Proof.
  intros Hc Ht HQ. unfold resolveAuthoritativePaymentRow, payment_row in *.
  set (fb := bind (ListPaymentsForOrderQ order) _).
  assert (Hfall : forall w Q', calm_from n t d w -> (forall w', calm_from n t d w' ->
    Q' (match payment_row_fallback order d with Some p => Ok p | None => Err ErrNoRows end) w') ->
    wp fb Q' w).
  { clear w Hc Q HQ. intros w Q Hc HQ. subst fb. wp_go. eapply (wp_select_many _ n t d w); [done..|].
    clear w Hc. intros w Hc. wp_go. unfold payment_row_fallback in HQ.
    destruct (List.find _ _) as [p|]; [by apply HQ|].
    destruct (latest p_CreatedAt (payments_of order d)) as [p|] eqn:El.
    - eapply (wp_found n t d w); [done..|exact El|]. clear w Hc. intros w Hc. by apply HQ.
    - eapply (wp_missing n t d w); [done..|exact El|]. clear w Hc. intros w Hc. by apply HQ. }
  clearbody fb. destruct (non_nil winning) as [id|]; [|by apply Hfall]. wp_go.
  destruct (List.find (fun p => p_ID p =u id) (d_payments d)) as [row|] eqn:Er.
  - eapply (wp_found n t d w); [done..|exact Er|]. clear w Hc. intros w Hc. wp_go.
    destruct (p_OrderID row =u order); [by apply HQ|by apply Hfall].
  - eapply (wp_missing n t d w); [done..|exact Er|]. clear w Hc. intros w Hc. wp_go. by apply Hfall.
Qed.

Lemma wp_lock_order o id n t d w (Q : res Order -> world -> Prop) :
  calm_from n t d w -> t <> Aborted -> wf d -> o ∈ d_orders d -> o_ID o = id ->
  (forall w', calm_from n t d w' -> Q (Ok o) w') ->
  wp (or_not_found (LockOrderByIDAndOrgForUpdate id)) Q w.
Proof.
  intros Hc Ht Hw Ho <- HQ. wp_go. eapply (wp_found n t d w); [done..| |].
  { apply (find_by_id o_ID); [apply (wo_ids _ _ (wf_o _ Hw))|done]. }
  intros w1 Hc1. wp_go. by apply HQ.
Qed.
Lemma wp_lock_vend o slot line v n t d w (Q : res lockedVendSession -> world -> Prop) :
  calm_from n t d w -> t <> Aborted -> vend_at o slot line d = Some v ->
  (forall w', calm_from n t d w' -> Q (Ok (locked_of v)) w') ->
  wp (fmap_M locked_of (or_not_found
       (if 0 <? line then LockVendSessionByOrderAndLineSequenceForUpdate o line
        else LockVendSessionByOrderAndSlotForUpdate o slot))) Q w.
Proof.
  intros Hc Ht E HQ. unfold vend_at in E. wp_go. destruct (0 <? line);
    (eapply (wp_found n t d w); [done..|exact E|]; clear w Hc; intros w Hc; wp_go; by apply HQ).
Qed.

Section Finishing.
Context `{UuidText} `{Sha256}.

(** A fulfilment up to its payment. *)
Lemma wp_success i o v n d w (Q : res FulfillSuccessfulVendResult -> world -> Prop) :
  calm_from n NoTx d w -> wf d -> blank (TrimSpace (fs_InventoryDedupeKey i)) = false ->
  o ∈ d_orders d -> o_ID o = fs_OrderID i ->
  vend_at (fs_OrderID i) (fs_SlotIndex i) (fs_LineSequence i) d = Some v ->
  v_MachineID (vr_Session v) = o_MachineID o -> o_Status o <> "cancelled" ->
  one_of (v_State (vr_Session v)) ["success"; "in_progress"] = true ->
  match payment_row (fs_OrderID i) (o_WinningPaymentID o) d with
  | Some pay => forall w', calm_from n InTx d w' ->
      wp (success_rest i (TrimSpace (fs_InventoryDedupeKey i)) o (locked_of v) pay) (tx_post n d Q) w'
  | None => forall w', calm_from n NoTx d w' -> Q (Err ErrPaymentNotSettled) w'
  end ->
  wp (FulfillSuccessfulVendAtomically i) Q w.
Proof.
  intros Hc Hw Hk Ho Eo Hv Em Es Evs HQ. unfold FulfillSuccessfulVendAtomically. rewrite Hk.
  eapply wp_with_tx; [exact Hc|]. clear w Hc. intros w Hc. unfold success_body.
  apply wp_bind. eapply wp_lock_order; [exact Hc|done|done|exact Ho|exact Eo|]. clear w Hc. intros w Hc.
  cbn beta iota. apply wp_bind. unfold lockSuccessfulVendSessionForUpdate.
  eapply wp_lock_vend; [exact Hc|done|exact Hv|]. clear w Hc. intros w Hc. cbn beta iota.
  replace (negb (lv_machineID (locked_of v) =u o_MachineID o)) with false
    by (cbn; by rewrite Em, N.eqb_refl).
  apply String.eqb_neq in Es. change (lv_state (locked_of v)) with (v_State (vr_Session v)).
  rewrite Es, Evs. cbn [negb]. wp_go. eapply wp_payment_row; [exact Hc|done|]. clear w Hc. intros w Hc.
  destruct (payment_row _ _ _) as [pay|]; wp_go; [by apply HQ|]. split; [split; apply Hc|exact HQ].
Qed.

(** Finishing a vend that is finished and whose order is completed, under a key whose sale is
    on record, answers a replay and changes nothing. *)
Theorem fulfil_success_replayed i o v pay snap n d w :
  calm_from n NoTx d w -> wf d -> blank (TrimSpace (fs_InventoryDedupeKey i)) = false ->
  o ∈ d_orders d -> o_ID o = fs_OrderID i -> o_Status o = "completed" ->
  vend_at (fs_OrderID i) (fs_SlotIndex i) (fs_LineSequence i) d = Some v ->
  v_MachineID (vr_Session v) = o_MachineID o -> v_State (vr_Session v) = "success" ->
  payment_row (fs_OrderID i) (o_WinningPaymentID o) d = Some pay ->
  sold_line (o_MachineID o) (fs_OrderID i) (v_SlotIndex (vr_Session v)) (fs_LineSequence i)
    (v_ProductID (vr_Session v)) snap d ->
  sales_of (TrimSpace (fs_InventoryDedupeKey i)) (o_MachineID o) d <> [] ->
  wp (FulfillSuccessfulVendAtomically i) (fun r w' =>
    r = Ok (mk_FulfillSuccessfulVendResult o (vr_Session v) true true) /\ calm_from n NoTx d w') w.
Proof.
  intros Hc Hw Hk Ho Eo Es Hv Em Evs Hp Hsold Hsales. eapply wp_success; [done..| |by rewrite Evs|].
  { by rewrite Es. }
  rewrite Hp. clear w Hc. intros w Hc. unfold success_rest, close_success.
  cbn [locked_of lv_state lv_replayVend lv_slotIndex lv_productID]. rewrite Evs, Es.
  cbn [String.eqb Ascii.eqb Bool.eqb]. change (isTerminalOrderStatus "completed") with true.
  cbn [negb]. wp_go. eapply wp_apply_inventory; [exact Hc|done|exact Hsold|by rewrite TrimSpace_idemp| |done|done].
  intros _. clear w Hc. intros w Hc. wp_go. cbn [negb andb]. wp_go. left. exists d. split; [done|].
  intros w' Hc'. cbn [fst snd]. by rewrite mapOrder_id, mapVendFields_id.
Qed.

(** A vend whose payment has no money in is not finished: the request fails with
    ErrPaymentNotSettled and changes nothing. *)
Theorem fulfil_needs_capture i o v n d w :
  calm_from n NoTx d w -> wf d -> blank (TrimSpace (fs_InventoryDedupeKey i)) = false ->
  o ∈ d_orders d -> o_ID o = fs_OrderID i -> o_Status o <> "cancelled" ->
  vend_at (fs_OrderID i) (fs_SlotIndex i) (fs_LineSequence i) d = Some v ->
  v_MachineID (vr_Session v) = o_MachineID o -> v_State (vr_Session v) = "in_progress" ->
  (forall pay, payment_row (fs_OrderID i) (o_WinningPaymentID o) d = Some pay -> p_State pay <> "captured") ->
  wp (FulfillSuccessfulVendAtomically i) (fun r w' =>
    r = Err ErrPaymentNotSettled /\ calm_from n NoTx d w') w.
Proof.
  intros Hc Hw Hk Ho Eo Es Hv Em Evs Hp. eapply wp_success; [done..|by rewrite Evs|].
  destruct (payment_row _ _ _) as [pay|] eqn:Ep; [|done]. clear w Hc. intros w Hc.
  unfold success_rest, close_success. cbn [locked_of lv_state]. rewrite Evs.
  cbn [String.eqb Ascii.eqb Bool.eqb]. specialize (Hp pay eq_refl). apply String.eqb_neq in Hp.
  rewrite Hp. wp_go. split; [split; apply Hc|]. done.
Qed.

(** A vend that has failed answers a replay and changes nothing. *)
Theorem fulfil_failed_replayed i o v n d w :
  calm_from n NoTx d w -> wf d -> o ∈ d_orders d -> o_ID o = ff_OrderID i ->
  vend_at (ff_OrderID i) (ff_SlotIndex i) (ff_LineSequence i) d = Some v ->
  v_MachineID (vr_Session v) = o_MachineID o -> v_State (vr_Session v) = "failed" ->
  wp (FulfillFailedVendAtomically i) (fun r w' =>
    r = Ok (mk_FulfillFailedVendResult o (vr_Session v) true) /\ calm_from n NoTx d w') w.
Proof.
  intros Hc Hw Ho Eo Hv Em Evs. unfold FulfillFailedVendAtomically.
  eapply wp_with_tx; [exact Hc|]. clear w Hc. intros w Hc. unfold failed_body.
  apply wp_bind. eapply wp_lock_order; [exact Hc|done|done|exact Ho|exact Eo|]. clear w Hc. intros w Hc.
  cbn beta iota. apply wp_bind. unfold lockFailedVendSessionForUpdate.
  eapply wp_lock_vend; [exact Hc|done|exact Hv|]. clear w Hc. intros w Hc. cbn beta iota.
  cbn [locked_of lv_machineID lv_state lv_replayVend]. rewrite Em, N.eqb_refl, Evs. cbn [negb].
  rewrite String.eqb_refl. wp_go. rewrite mapOrder_id, mapVendFields_id. left. exists d. by split.
Qed.
End Finishing.
