(* ===== verification/Vends.v ===== *)
(** * A vend that succeeds, or fails

    The tables after the first report of a success: the vend closed, the order
    settled by its lines, one item out of stock, the money in the ledger, one
    timeline row, and the event for the outbox.  And after the report of a
    failure: no stock and no money moved, and what is owed to the buyer decided
    by the payment. *)

From S2P Require Import Prelude.
From S2P Require Import GoStd.
From S2P Require Import Pricing.
From S2P Require Import CommerceTypes.
From S2P Require Import Sanitize.
From S2P Require Import Evidence.
From S2P Require Import Texts.
From S2P Require Import Snapshot.
From S2P Require Import Rules.
From S2P Require Import CommerceService.
From S2P Require Import ServiceLaws.
From S2P Require Import Db.
From S2P Require Import Queries.
From S2P Require Import History.
From S2P Require Import PgCommerce.
From S2P Require Import Fulfillment.
From S2P Require Import StoreLaws.
From S2P Require Import Logic.
From S2P Require Import Backend.
From S2P Require Import Scenario.
From S2P Require Import Settlement.
From S2P Require Import Webhooks.
From S2P Require Import Orders.
From S2P Require Import Requests.
From S2P Require Import Stock.
Local Open Scope string_scope.
Local Open Scope list_scope.
Local Open Scope Z_scope.

(** ** The order settled by its lines *)

Definition order_states (o : N) (d : pgdb) : list string :=
  session_states (in_order vr_LineSequence (List.filter (by_order o) (d_vends d))).
(** The status the lines ask for, when it is not the order's own. *)
Definition settled_status (o : Order) (d : pgdb) : option string :=
  let states := order_states (o_ID o) d in
  if multiLineOrderHasOpenVendLines states then None
  else let next := resolveMultiLineTerminalOrderStatus states in
       if String.eqb next (o_Status o) then None else Some next.
Definition settle_db (o : Order) (now : Z) (d : pgdb) : pgdb :=
  match settled_status o d with Some s => status_db (o_ID o) s now d | None => d end.
Definition settled_order (o : Order) (now : Z) (d : pgdb) : Order :=
  match settled_status o d with
  | Some s => order_with o s (o_WinningPaymentID o) (o_WinningClaimedAt o) now
  | None => o
  end.

Lemma resolved_is_status states : one_of (resolveMultiLineTerminalOrderStatus states) orderStatuses = true.
Proof. unfold resolveMultiLineTerminalOrderStatus. by repeat case_match. Qed.

Lemma wp_settle o n t d w (Q : res Order -> world -> Prop) :
  calm_from n t d w -> t <> Aborted -> wf d -> o ∈ d_orders d ->
  (forall now w', wf (settle_db o now d) -> calm_from n t (settle_db o now d) w' ->
     Q (Ok (settled_order o now d)) w') ->
  wp (settle_order (o_ID o) o) Q w.
Proof.
  intros Hc Ht Hw Ho HQ. unfold settle_order. wp_go.
  eapply (wp_select_many _ n t d w); [done..|]. clear w Hc. intros w Hc. wp_go.
  fold (order_states (o_ID o) d). unfold settle_db, settled_order, settled_status in HQ.
  destruct (multiLineOrderHasOpenVendLines _); wp_go; [by apply (HQ 0)|].
  destruct (String.eqb _ _); wp_go; [by apply (HQ 0)|].
  eapply (wp_updated n t d w); [done..|apply UpdateOrderStatus_safe| | |].
  - apply (find_by_id o_ID); [apply (wo_ids _ _ (wf_o _ Hw))|done].
  - intros now. apply order_update_ok_status; [done..|apply resolved_is_status].
  - intros now w1 Hw1 Hc1. by apply HQ.
Qed.

(** ** The vend rows *)

Lemma vend_key_same o slot line v v' :
  vr_LineSequence v' = vr_LineSequence v ->
  v_OrderID (vr_Session v') = v_OrderID (vr_Session v) ->
  v_SlotIndex (vr_Session v') = v_SlotIndex (vr_Session v) ->
  vend_key o slot line v' = vend_key o slot line v.
Proof. unfold vend_key, by_line, by_slot. intros E1 E2 E3. by destruct (0 <? line); rewrite E2, ?E1, ?E3. Qed.
Lemma vend_at_moved o slot line state reason now v d :
  vend_at o slot line d = Some v ->
  vend_at o slot line (vend_db o slot line state reason now d) = Some (vend_moved state reason now v).
Proof.
  rewrite !vend_at_key. intros E. unfold vend_db. cbn [d_vends set_vends].
  rewrite find_update_where by by (intros; apply vend_key_same).
  rewrite E. apply find_Some_elem in E as [_ Ep]. cbn. by rewrite Ep.
Qed.

Lemma wp_update_vend state reason o slot line v n t d w (Q : res VendSession -> world -> Prop) :
  calm_from n t d w -> t <> Aborted -> wf d -> vend_at o slot line d = Some v ->
  one_of state vendStates = true ->
  one_of (vr_VerificationStatus v) ["unverified"; "verified"; "hardware_unverified"] = true ->
  (forall now w', wf (vend_db o slot line state reason now d) ->
     calm_from n t (vend_db o slot line state reason now d) w' ->
     Q (Ok (session_with (vr_Session v) state)) w') ->
  wp (update_vend_state state reason o line slot) Q w.
Proof.
  intros Hc Ht Hw E Hs Hv HQ. unfold update_vend_state, vend_db, vend_key, vend_at in *.
  destruct (0 <? line); wp_go;
    (eapply (wp_updated n t d w); [done..|apply vend_moved_safe|exact E|by intros; apply vend_update_ok_moved|];
     intros now w1 Hw1 Hc1; wp_go; rewrite mapVendFields_id; cbn [vr_Session vend_moved];
     by eapply HQ).
Qed.
Definition verified_db (o : N) (slot line : Z) (status : string) (d : pgdb) : pgdb :=
  set_vends (update_where (vend_key o slot line) (vend_verified status 0)) d.
Lemma wp_set_verification status o slot line v n t d w (Q : res VendRow -> world -> Prop) :
  calm_from n t d w -> t <> Aborted -> vend_at o slot line d = Some v ->
  v_State (vr_Session v) ∈ vendStates ->
  one_of status ["unverified"; "verified"; "hardware_unverified"] = true ->
  (forall r w', calm_from n t (verified_db o slot line status d) w' -> Q (Ok r) w') ->
  wp (set_verification status o line slot) Q w.
Proof.
  intros Hc Ht E Hv Hs HQ. unfold set_verification, verified_db, vend_key, vend_at in *.
  assert (Hok : forall now, vend_update_ok (vend_verified status now v) d = Ok tt).
  { intros now. apply one_of_spec in Hv. unfold vend_update_ok.
    cbn [vr_Session vend_verified vr_VerificationStatus]. by rewrite (check_true _ _ Hv), (check_true _ _ Hs). }
  destruct (0 <? line); (eapply (wp_update_rows _ _ _ _ _ n t d w); [done|done|..]; rewrite E;
    [intros now r w1 [= <-] _; apply HQ|done|intros now r e w1 [= <-] Er; by rewrite Hok in Er]).
Qed.

(** ** The outbox *)

(** The row an event is published by, unless nothing was asked for. *)
Definition outbox_asked (p : insertOutboxParams) : bool :=
  negb (blank (TrimSpace (io_Topic p)) || blank (TrimSpace (io_EventType p)) ||
        blank (TrimSpace (io_IdempotencyKey p))).
Definition outbox_params (p : insertOutboxParams) : OutboxParams :=
  mk_OutboxParams (TrimSpace (io_Topic p)) (TrimSpace (io_EventType p))
    (RequiredString (io_Payload p)) (TrimSpace (io_AggregateType p)) (io_AggregateID p)
    (Some (TrimSpace (io_IdempotencyKey p))) (io_Simulated p) (pgTextOrEmpty (io_SimulationRun p))
    (pgTextOrEmpty (io_SimulationScen p)).
(** An event on record under the key is kept as it is. *)
Definition outbox_db (p : insertOutboxParams) (t : Z) (id : N) (d : pgdb) : pgdb :=
  if outbox_asked p && negb (existsb (same_outbox (op_Topic (outbox_params p))
                                        (op_IdempotencyKey (outbox_params p))) (d_outbox d))
  then set_outbox (fun l => l ++ [outbox_row (outbox_params p) t id]) d else d.

Lemma wp_outbox_idempotent p n t d w (Q : res unit -> world -> Prop) :
  calm_from n t d w -> t <> Aborted ->
  (forall now id w', calm_from n t (outbox_db p now id d) w' -> Q (Ok tt) w') ->
  wp (insertOutboxEventIdempotent p) Q w.
Proof.
  intros Hc Ht HQ. unfold insertOutboxEventIdempotent, outbox_db, outbox_asked in *.
  destruct (blank (TrimSpace (io_Topic p)) || _ || _); cbn [negb andb] in HQ; wp_go; [by apply (HQ 0 0%N)|].
  fold (outbox_params p). unfold InsertOutboxEventIdempotent.
  destruct (existsb _ (d_outbox d)) eqn:Ee; cbn [negb] in HQ.
  - eapply (wp_stmt _ n t d w); [done|done|..]; unfold insert_or_nothing; rewrite Ee; [done| |done].
    intros now id d' w1 _ [= <-] Hc1. wp_go.
    apply existsb_exists in Ee as (x & Hx & Es). rewrite <- list_elem_of_In in Hx.
    unfold same_outbox in Es. rewrite <- andb_assoc in Es. apply andb_true_iff in Es as [_ Es].
    unfold GetOutboxEventByTopicIdempotencyKey, GetOutboxByTopicAndIdempotency.
    eapply (wp_select_one _ n t d w1); [done|done|..].
    + intros ob w2 _ Hc2. wp_go. by apply (HQ now id).
    + intros w2 En Hc2. rewrite find_None_elem in En. specialize (En x Hx).
      cbn [op_Topic op_IdempotencyKey outbox_params] in Es. congruence.
  - eapply (wp_stmt _ n t d w); [done|done|..]; unfold insert_or_nothing; rewrite Ee; [|done|done].
    intros now id a d' w1 _ [= <- <-] Hc1. wp_go. by apply (HQ now id).
Qed.

(** ** Evidence and cases *)

Section Reported.
Context `{UuidText} `{Sha256}.

(** Evidence is stored once per key. *)
Definition evidence_row (p : persistEvidenceInput) (e : VendHardwareEvidence) (id : N) : EvidenceRow :=
  mk_EvidenceRow id (pei_OrderID p) (pei_VendSessionID p) (pei_MachineID p) (pei_SlotIndex p)
    (ev_VendAttemptID e) (ev_CorrelationID e) (TrimSpace (hc_CommandID (ev_Command e)))
    (EvidenceDigest (Some e)) e (TrimSpace (pei_DedupeKey p)).
Definition evidence_db (p : persistEvidenceInput) (id : N) (d : pgdb) : pgdb :=
  match pei_Evidence p with
  | Some e =>
      if existsb (fun r => String.eqb (er_DedupeKey r) (TrimSpace (pei_DedupeKey p))) (d_evidences d) then d
      else set_evidences (fun l => l ++ [evidence_row p e id]) d
  | None => d
  end.
Lemma wp_persist_evidence p n t d w (Q : res bool -> world -> Prop) :
  calm_from n t d w -> t <> Aborted -> pei_OrderID p ∈ map o_ID (d_orders d) ->
  blank (TrimSpace (pei_DedupeKey p)) = false ->
  (forall b id w', calm_from n t (evidence_db p id d) w' -> Q (Ok b) w') ->
  wp (persistVendHardwareEvidenceTx p) Q w.
Proof.
  intros Hc Ht Ho Hb HQ. unfold persistVendHardwareEvidenceTx, evidence_db in *.
  destruct (pei_Evidence p) as [e|]; [|wp_go; by apply (HQ false 0%N)].
  rewrite Hb. wp_go. unfold InsertVendHardwareEvidence.
  eapply (wp_stmt _ n t d w); [done|done|..]; intros now id; unfold insert_or_nothing, insert_row;
    cbn [er_OrderID]; rewrite (fk_elem o_ID _ _ _ Ho); destruct (existsb _ (d_evidences d)); try done.
  - intros a d' w1 _ [= <- <-] Hc1. wp_go. by eapply HQ.
  - intros d' w1 _ [= <-] Hc1. wp_go. by apply (HQ _ id).
Qed.

(** A case is opened, or the open one of its key is refreshed. *)
Definition case_row (i : ReconciliationCaseInput) (now : Z) (id : N) : ReconciliationCase :=
  mk_ReconciliationCase id (rci_CaseType i) "open" (rci_Severity i) (rci_OrderID i)
    (rci_PaymentID i) (rci_VendSessionID i) (rci_RefundID i) (rci_MachineID i)
    (rci_Provider i) (rci_ProviderEventID i) (rci_CorrelationKey i) (rci_Reason i)
    (rci_Metadata i) now now.
Definition case_db (i : ReconciliationCaseInput) (now : Z) (id : N) (d : pgdb) : pgdb :=
  let c := case_row i now id in
  match List.find (same_case c) (d_cases d) with
  | Some _ => set_cases (update_where (same_case c) (case_refreshed c now)) d
  | None => set_cases (fun l => l ++ [c]) d
  end.
Lemma wp_upsert_case i n t d w (Q : res ReconciliationCase -> world -> Prop) :
  calm_from n t d w -> t <> Aborted -> one_of (rci_CaseType i) caseTypes = true ->
  (forall c now id w', calm_from n t (case_db i now id d) w' -> Q (Ok c) w') ->
  wp (UpsertCommerceReconciliationCase i) Q w.
Proof.
  intros Hc Ht Hty HQ. unfold UpsertCommerceReconciliationCase, case_db, case_row in *.
  eapply (wp_stmt _ n t d w); [done|done|..]; intros now id; rewrite Hty; cbn [negb]; cbn zeta;
    specialize (fun c => HQ c now id); cbn zeta in HQ; destruct (List.find _ _); try done.
  - intros a d' w1 _ [= <- <-] Hc1. by eapply HQ.
  - intros a d' w1 _ [= <- <-] Hc1. by eapply HQ.
Qed.
End Reported.

(** ** What a success records *)

Section Recorded.
Context `{UuidText} `{Sha256}.
Variables (i : FulfillSuccessfulVendInput) (o : Order) (v : VendRow) (pay : Payment)
  (snap : MachineSlotRow).

Definition vstatus_of : string := verification_or_default (fs_VerificationStatus i).
Definition sale_key : string := TrimSpace (fs_InventoryDedupeKey i).
Definition ledger_rows (at_ : Z) (id : N) : list LedgerRow :=
  if p_AmountMinor pay <=? 0 then []
  else [mk_LedgerRow id (Some (o_MachineID o)) (Some (fs_OrderID i)) (Some (p_ID pay))
          "payment_captured" (p_AmountMinor pay) (p_Currency pay) at_
          (uuidPtrToPgUUID (default uuid_Nil (fs_CorrelationID i)))
          (JObj [("idempotency_key", JStr (sale_key +:+ ":financial_ledger"));
                 ("source", JStr "commerce_vend_fulfillment")])].
Definition timeline_row (at_ : Z) (id : N) : TimelineRow :=
  mk_TimelineRow id (fs_OrderID i) "commerce_vend_dispense_succeeded" "system"
    (success_timeline_payload i sale_key false false (o_MachineID o) (v_SlotIndex (vr_Session v))
       vstatus_of) at_.
Definition success_event : insertOutboxParams :=
  mk_insertOutboxParams (fs_OutboxTopic i) (fs_OutboxEventType i)
    (vendSuccessOutboxPayload (fs_OrderID i) (v_SlotIndex (vr_Session v)) (o_MachineID o) vstatus_of
       (fs_Evidence i) sale_key)
    (fs_OutboxAggregateType i) (fs_OrderID i)
    (let k := TrimSpace (fs_OutboxIdempotencyKey i) in
     if blank k then sale_key +:+ ":vend_outbox" else k)
    (o_Simulated o) (pgtypeTextString (o_SimulationRunID o)) (pgtypeTextString (o_SimulationScenario o)).

Definition success_evidence : persistEvidenceInput :=
  mk_persistEvidenceInput (fs_OrderID i) (v_ID (vr_Session v)) (o_MachineID o) (v_SlotIndex (vr_Session v))
    (fs_Evidence i) (sale_key +:+ ":hardware_evidence").
(** What follows a success whose evidence is missing or was not verified: an
    event to reconcile, when its type is configured, and a case. *)
Definition unverified : bool := String.eqb vstatus_of VerificationHardwareUnverified.
Definition unverified_event : insertOutboxParams :=
  mk_insertOutboxParams (fs_OutboxTopic i) (TrimSpace (fs_ReconciliationEventType i))
    (JObj (go_map
       [("order_id", JStr (uuid_String (fs_OrderID i))); ("slot_index", JInt (v_SlotIndex (vr_Session v)));
        ("line_sequence", JInt (fs_LineSequence i)); ("verification_status", JStr vstatus_of);
        ("reason", JStr "hardware_evidence_missing_or_unverified")]))
    (fs_OutboxAggregateType i) (fs_OrderID i) (io_IdempotencyKey success_event +:+ ":reconciliation")
    (o_Simulated o) (pgtypeTextString (o_SimulationRunID o)) (pgtypeTextString (o_SimulationScenario o)).
Definition unverified_case : ReconciliationCaseInput :=
  mk_ReconciliationCaseInput
    "vend_started_no_terminal_ack" "warning" (Some (fs_OrderID i)) None (Some (v_ID (vr_Session v))) None
    (Some (o_MachineID o)) None None (sale_key +:+ ":reconciliation_case")
    "hardware_evidence_missing_or_unverified"
    (JObj (go_map [("verification_status", JStr vstatus_of); ("slot_index", JInt (v_SlotIndex (vr_Session v)));
                   ("line_sequence", JInt (fs_LineSequence i))])).
Definition events_db (t : Z) (id : N) (t' : Z) (id' : N) (d : pgdb) : pgdb :=
  let d1 := outbox_db success_event t id d in
  if unverified && negb (blank (TrimSpace (fs_ReconciliationEventType i)))
  then outbox_db unverified_event t' id' d1 else d1.
Definition doubt_db (t : Z) (id : N) (d : pgdb) : pgdb :=
  if unverified then case_db unverified_case t id d else d.

(** The slot left behind, and every table. *)
Definition sold : SlotState := sold_slot (o_MachineID o) (v_SlotIndex (vr_Session v)) snap.
Record fulfilled (now now' : Z) (d d' : pgdb) : Prop := mk_fulfilled {
  fl_vends : d_vends d' = update_where (vend_key (fs_OrderID i) (fs_SlotIndex i) (fs_LineSequence i))
    (fun y => vend_verified vstatus_of 0 (vend_moved "success" None now y)) (d_vends d);
  fl_orders : d_orders d' = d_orders (settle_db o now'
    (vend_db (fs_OrderID i) (fs_SlotIndex i) (fs_LineSequence i) "success" None now d));
  fl_slots : d_slots d' = update_where (same_slot sold) (fun _ => sold) (d_slots d);
  fl_sale : exists occurred t id, d_stock_events d' = d_stock_events d ++
    [sale_event (o_MachineID o) (fs_OrderID i) (v_ProductID (vr_Session v))
       (v_SlotIndex (vr_Session v)) (ms_CurrentQuantity snap - 1) sale_key (fs_CorrelationID i)
       occurred t id];
  fl_ledger : exists t id, d_ledger d' = d_ledger d ++ ledger_rows t id;
  fl_timeline : exists t id, d_timeline d' = d_timeline d ++ [timeline_row t id];
  fl_outbox : exists t id t' id', d_outbox d' = d_outbox (events_db t id t' id' d);
  fl_payments : d_payments d' = d_payments d; fl_attempts : d_attempts d' = d_attempts d;
  fl_refunds : d_refunds d' = d_refunds d; fl_events : d_events d' = d_events d;
  fl_cases : exists t id, d_cases d' = d_cases (doubt_db t id d);
  fl_evidences : exists id, d_evidences d' = d_evidences (evidence_db success_evidence id d);
  fl_mutations : d_mutations d' = d_mutations d }.

Lemma wp_ledger n t d w (Q : res unit -> world -> Prop) :
  calm_from n t d w -> t <> Aborted -> fs_OrderID i ∈ map o_ID (d_orders d) ->
  p_ID pay ∈ map p_ID (d_payments d) -> len (p_Currency pay) <= 3 ->
  (forall at_ id w', calm_from n t (set_ledger (fun l => l ++ ledger_rows at_ id) d) w' -> Q (Ok tt) w') ->
  wp (emitVendSuccessFinancialLedgerTx (o_MachineID o) (fs_OrderID i) (p_ID pay) (p_AmountMinor pay)
        (p_Currency pay) (default uuid_Nil (fs_CorrelationID i)) (sale_key +:+ ":financial_ledger")) Q w.
Proof.
  intros Hc Ht Ho Hp Hcur HQ. unfold emitVendSuccessFinancialLedgerTx, ledger_rows in *.
  destruct (p_AmountMinor pay <=? 0); wp_go.
  { apply (HQ 0 0%N). destruct Hc as [Hd ? ? ?]. split; [|done..]. rewrite Hd. unfold set_ledger.
    rewrite app_nil_r. by destruct d. }
  eapply wp_time_Now; [exact Hc|]. intros at_. wp_go.
  assert (Hok : forall row, lr_OrderID row = Some (fs_OrderID i) -> lr_PaymentID row = Some (p_ID pay) ->
    lr_Currency row = p_Currency pay -> lr_EntryType row = "payment_captured" ->
    (let? _ := fk_opt o_ID (lr_OrderID row) (d_orders d) "financial_ledger_entries_order_id_fkey" in
     let? _ := fk_opt p_ID (lr_PaymentID row) (d_payments d) "financial_ledger_entries_payment_id_fkey" in
     let? _ := char3 (lr_Currency row) in
     check (one_of (lr_EntryType row) ledgerEntryTypes) "financial_ledger_entries_entry_type_check") = Ok tt).
  { intros row -> -> -> ->. cbn [fk_opt]. rewrite (fk_elem o_ID _ _ _ Ho), (fk_elem p_ID _ _ _ Hp).
    cbn [res_bind]. unfold char3. by rewrite (proj2 (Z.ltb_ge 3 _) Hcur). }
  eapply (wp_insert_row _ _ _ n t d w); [done|done|..].
  - intros now id w1 _ _ Hc1. wp_go. by eapply HQ.
  - intros now id e w1 _ Er. by rewrite Hok in Er.
Qed.

(** The records of the first success. *)
Definition recorded_db (t1 : Z) (id1 : N) (t2 : Z) (id2 : N) (t3 : Z) (id3 : N) (t4 : Z) (id4 : N)
    (t5 : Z) (id5 id6 : N) (d : pgdb) : pgdb :=
  doubt_db t5 id5 (events_db t3 id3 t4 id4
    (set_timeline (fun l => l ++ [timeline_row t2 id2]) (set_ledger (fun l => l ++ ledger_rows t1 id1)
      (evidence_db success_evidence id6
        (verified_db (fs_OrderID i) (fs_SlotIndex i) (fs_LineSequence i) vstatus_of d))))).
Lemma wp_record_unverified n d w (Q : res unit -> world -> Prop) :
  calm_from n InTx d w ->
  (forall t id t' id' w', calm_from n InTx (case_db unverified_case t' id'
     (if negb (blank (TrimSpace (fs_ReconciliationEventType i))) then outbox_db unverified_event t id d else d)) w' ->
     Q (Ok tt) w') ->
  wp (record_unverified i sale_key (io_IdempotencyKey success_event) vstatus_of o (locked_of v)) Q w.
Proof.
  intros Hc HQ. unfold record_unverified. cbn [locked_of lv_slotIndex lv_id].
  change (mk_insertOutboxParams _ _ _ _ _ _ _ _ _) with unverified_event.
  change (mk_ReconciliationCaseInput _ _ _ _ _ _ _ _ _ _ _ _) with unverified_case.
  assert (Hend : forall d1 w1, calm_from n InTx d1 w1 ->
    (forall t' id' w', calm_from n InTx (case_db unverified_case t' id' d1) w' -> Q (Ok tt) w') ->
    wp (let! _ := UpsertCommerceReconciliationCase unverified_case in ret tt) Q w1).
  { intros d1 w1 Hc1 HQ1. wp_go. eapply wp_upsert_case; [exact Hc1|done|done|].
    intros c now id w2 Hc2. wp_go. by eapply HQ1. }
  apply wp_bind. destruct (negb _).
  - eapply wp_outbox_idempotent; [exact Hc|done|]. clear w Hc. intros t id w Hc.
    eapply Hend; [exact Hc|]. intros t' id' w' Hc'. by eapply HQ.
  - apply wp_ret. eapply Hend; [exact Hc|]. intros t' id' w' Hc'. by apply (HQ 0 0%N t' id').
Qed.
Lemma wp_record_success n d w (Q : res unit -> world -> Prop) :
  calm_from n InTx d w -> fs_OrderID i ∈ map o_ID (d_orders d) ->
  p_ID pay ∈ map p_ID (d_payments d) -> len (p_Currency pay) <= 3 -> blank sale_key = false ->
  one_of vstatus_of ["unverified"; "verified"; "hardware_unverified"] = true ->
  (exists v', vend_at (fs_OrderID i) (fs_SlotIndex i) (fs_LineSequence i) d = Some v' /\ v_State (vr_Session v') ∈ vendStates) ->
  (forall t1 id1 t2 id2 t3 id3 t4 id4 t5 id5 id6 w',
     calm_from n InTx (recorded_db t1 id1 t2 id2 t3 id3 t4 id4 t5 id5 id6 d) w' -> Q (Ok tt) w') ->
  wp (record_success i sale_key o pay (locked_of v) false false) Q w.
Proof.
  intros Hc Ho Hp Hcur Hkey Hvs (v' & Hv' & Hst) HQ. unfold record_success. fold vstatus_of.
  apply wp_bind. eapply wp_set_verification; [exact Hc|done|exact Hv'|exact Hst|exact Hvs|].
  clear w Hc. intros r w Hc. wp_go. cbn [locked_of lv_slotIndex lv_id]. fold success_evidence.
  eapply wp_persist_evidence; [exact Hc|done|done|by apply suffixed_not_blank|]. clear w Hc. intros b id6 w Hc. wp_go.
  eapply wp_ledger; [exact Hc|by unfold evidence_db; repeat case_match|
    by unfold evidence_db; repeat case_match|by unfold evidence_db; repeat case_match|done|].
  clear w Hc. intros t1 id1 w Hc. wp_go.
  eapply wp_time_Now; [exact Hc|]. intros at_. wp_go.
  eapply (wp_insert_row _ _ _ n InTx _ w); [exact Hc|done|..].
  2: { intros now id e w1 _ Er. rewrite (fk_elem o_ID) in Er; [done|].
       unfold evidence_db; by repeat case_match. }
  clear w Hc. intros now id w _ _ Hc. wp_go.
  fold success_event. eapply wp_outbox_idempotent; [exact Hc|done|]. clear w Hc. intros t3 id3 w Hc. wp_go.
  change (let k := TrimSpace (fs_OutboxIdempotencyKey i) in _) with (io_IdempotencyKey success_event).
  fold unverified. unfold recorded_db, events_db, doubt_db in HQ. destruct unverified; cbn [andb] in HQ.
  - eapply wp_record_unverified; [exact Hc|]. clear w Hc. intros t4 id4 t5 id5 w Hc.
    eapply (HQ t1 id1 _ _ t3 id3 t4 id4 t5 id5 id6). exact Hc.
  - wp_go. eapply (HQ t1 id1 _ _ t3 id3 0 0%N 0 0%N id6). exact Hc.
Qed.
End Recorded.

(** ** The theorem *)

(** A sale line depends on the vend, the slots and the topology alone. *)
Lemma sold_line_same machine order slot line product snap d d' :
  d_topo d' = d_topo d -> d_vends d' = d_vends d -> d_slots d' = d_slots d ->
  d_slot_cfgs d' = d_slot_cfgs d ->
  sold_line machine order slot line product snap d -> sold_line machine order slot line product snap d'.
Proof.
  intros Et Ev Es Ec [Hm Hs Hv Hp]. split; [by rewrite Et|done| |].
  - unfold vend_at in *. by rewrite Ev.
  - rewrite <- Hp. f_equal. unfold machine_slots. rewrite Es. apply map_ext. intros y.
    unfold machine_slot_row, slot_config_at, planogram_slot. by rewrite Ec, Et.
Qed.
Lemma settle_db_tables o now d : let d' := settle_db o now d in
  d_topo d' = d_topo d /\ d_vends d' = d_vends d /\ d_slots d' = d_slots d /\
  d_slot_cfgs d' = d_slot_cfgs d /\ d_payments d' = d_payments d /\
  map o_ID (d_orders d') = map o_ID (d_orders d) /\ d_stock_events d' = d_stock_events d.
Proof.
  unfold settle_db. cbn zeta. destruct (settled_status o d); [|done]. split_and!; try done.
  cbn [d_orders status_db set_orders]. by apply map_update_where.
Qed.

Section Succeeding.
Context `{UuidText} `{Sha256}.

(** Each record changes its own table alone. *)
Lemma outbox_db_set p t id d : exists f, outbox_db p t id d = set_outbox f d /\
  forall d', d_outbox d' = d_outbox d -> d_outbox (outbox_db p t id d') = f (d_outbox d).
Proof.
  exists (fun l => if outbox_asked p && negb (existsb (same_outbox (op_Topic (outbox_params p))
    (op_IdempotencyKey (outbox_params p))) l) then l ++ [outbox_row (outbox_params p) t id] else l).
  unfold outbox_db. split.
  - destruct (outbox_asked p && _) eqn:Eb; unfold set_outbox; cbn beta; rewrite Eb; [done|by destruct d].
  - intros d' E. rewrite E. by destruct (outbox_asked p && _); cbn; rewrite E.
Qed.
Lemma events_db_set i o v t id t' id' d : exists f, events_db i o v t id t' id' d = set_outbox f d /\
  forall d', d_outbox d' = d_outbox d -> d_outbox (events_db i o v t id t' id' d') = f (d_outbox d).
Proof.
  unfold events_db. destruct (outbox_db_set (success_event i o v) t id d) as (f & E & Hf).
  destruct (unverified i && _); [|eauto].
  rewrite E. destruct (outbox_db_set (unverified_event i o v) t' id' (set_outbox f d)) as (g & E' & Hg).
  exists (fun l => g (f l)). rewrite E'. split; [done|]. intros d' Ed. apply Hg. cbn. by apply Hf.
Qed.
Lemma evidence_db_set p id d : exists f, evidence_db p id d = set_evidences f d /\
  forall d', d_evidences d' = d_evidences d -> d_evidences (evidence_db p id d') = f (d_evidences d).
Proof.
  unfold evidence_db. destruct (pei_Evidence p) as [e|].
  - exists (fun l => if existsb (fun r => String.eqb (er_DedupeKey r) (TrimSpace (pei_DedupeKey p))) l
                     then l else l ++ [evidence_row p e id]). split.
    + destruct (existsb _ _) eqn:Eb; unfold set_evidences; cbn beta; rewrite Eb; [by destruct d|done].
    + intros d' E. rewrite E. by destruct (existsb _ _); cbn; rewrite E.
  - exists (fun l => l). split; [by destruct d|done].
Qed.
Lemma doubt_db_set i o v t id d : exists f, doubt_db i o v t id d = set_cases f d /\
  forall d', d_cases d' = d_cases d -> d_cases (doubt_db i o v t id d') = f (d_cases d).
Proof.
  unfold doubt_db, case_db. destruct (unverified i).
  - exists (fun l => match List.find (same_case (case_row (unverified_case i o v) t id)) l with
      | Some _ => update_where (same_case (case_row (unverified_case i o v) t id))
                    (case_refreshed (case_row (unverified_case i o v) t id) t) l
      | None => l ++ [case_row (unverified_case i o v) t id] end). split.
    + destruct (List.find _ _) eqn:Eb; unfold set_cases; cbn beta; rewrite Eb; done.
    + intros d' E. rewrite E. by destruct (List.find _ _); cbn; rewrite E.
  - exists (fun l => l). split; [by destruct d|done].
Qed.

Lemma fulfilled_end i o v pay snap now now' occ t id t1 id1 t2 id2 t3 id3 t4 id4 t5 id5 id6 d :
  let d1 := vend_db (fs_OrderID i) (fs_SlotIndex i) (fs_LineSequence i) "success" None now d in
  fulfilled i o v pay snap now now' d
    (recorded_db i o v pay t1 id1 t2 id2 t3 id3 t4 id4 t5 id5 id6
       (stock_db (sale_event (o_MachineID o) (fs_OrderID i) (v_ProductID (vr_Session v))
          (v_SlotIndex (vr_Session v)) (ms_CurrentQuantity snap - 1) (sale_key i)
          (fs_CorrelationID i) occ t id) (sold o v snap) (settle_db o now' d1))).
Proof.
  intros d1. unfold recorded_db.
  set (d2 := verified_db _ _ _ _ _). assert (E2 : d2 = d2) by done.
  destruct (evidence_db_set (success_evidence i o v) id6 d2) as (f & Ef & Hf). rewrite Ef.
  set (d3 := set_timeline _ _).
  destruct (events_db_set i o v t3 id3 t4 id4 d3) as (g & Eg & Hg). rewrite Eg.
  destruct (doubt_db_set i o v t5 id5 (set_outbox g d3)) as (h & Eh & Hh). rewrite Eh.
  assert (Hs : d_outbox d = d_outbox d2 /\ d_cases d = d_cases d2 /\ d_evidences d = d_evidences d2 /\
    d_vends d2 = update_where (vend_key (fs_OrderID i) (fs_SlotIndex i) (fs_LineSequence i))
      (fun y => vend_verified (vstatus_of i) 0 (vend_moved "success" None now y)) (d_vends d) /\
    d_ledger d2 = d_ledger d /\ d_timeline d2 = d_timeline d /\
    d_orders d2 = d_orders (settle_db o now' d1) /\
    d_slots d2 = update_where (same_slot (sold o v snap)) (fun _ => sold o v snap) (d_slots d) /\
    (exists a b c, d_stock_events d2 = d_stock_events d ++
      [sale_event (o_MachineID o) (fs_OrderID i) (v_ProductID (vr_Session v))
       (v_SlotIndex (vr_Session v)) (ms_CurrentQuantity snap - 1) (sale_key i) (fs_CorrelationID i) a b c]) /\
    d_payments d2 = d_payments d /\ d_attempts d2 = d_attempts d /\ d_refunds d2 = d_refunds d /\
    d_events d2 = d_events d /\ d_mutations d2 = d_mutations d).
  { subst d2. unfold settle_db. destruct (settled_status o d1); split_and!; try done;
      try (cbn; apply update_where_twice; intros y; by apply vend_key_same); by exists occ, t, id. }
  clearbody d2. destruct Hs as (Eo & Ec & Ee & Evd & El & Etl & Eor & Esl & Est & Ep & Ea & Er & Ev & Em).
  split; cbn.
  - exact Evd.
  - exact Eor.
  - exact Esl.
  - exact Est.
  - exists t1, id1. by rewrite El.
  - exists t2, id2. by rewrite Etl.
  - exists t3, id3, t4, id4. symmetry. by apply Hg.
  - exact Ep.
  - exact Ea.
  - exact Er.
  - exact Ev.
  - exists t5, id5. symmetry. by apply Hh.
  - exists id6. symmetry. by apply Hf.
  - exact Em.
Qed.

(** A first success: the vend in progress, the money captured, the item in its
    slot and not yet taken under the sale's key. *)
Record success_due (i : FulfillSuccessfulVendInput) (o : Order) (v : VendRow) (pay : Payment) (snap : MachineSlotRow)
    (d : pgdb) : Prop := mk_success_due {
  sd_key : blank (sale_key i) = false;
  sd_order : o ∈ d_orders d;
  sd_order_id : o_ID o = fs_OrderID i;
  sd_open : o_Status o <> "cancelled";
  sd_vend : vend_at (fs_OrderID i) (fs_SlotIndex i) (fs_LineSequence i) d = Some v;
  sd_machine : v_MachineID (vr_Session v) = o_MachineID o;
  sd_state : v_State (vr_Session v) = "in_progress";
  sd_verified : one_of (vr_VerificationStatus v) ["unverified"; "verified"; "hardware_unverified"] = true;
  sd_payment : payment_row (fs_OrderID i) (o_WinningPaymentID o) d = Some pay;
  sd_captured : p_State pay = "captured";
  sd_currency : len (p_Currency pay) <= 3;
  sd_status : one_of (vstatus_of i) ["unverified"; "verified"; "hardware_unverified"] = true;
  sd_line : forall now, sold_line (o_MachineID o) (fs_OrderID i) (v_SlotIndex (vr_Session v)) (fs_LineSequence i)
     (v_ProductID (vr_Session v)) snap
     (vend_db (fs_OrderID i) (fs_SlotIndex i) (fs_LineSequence i) "success" None now d);
  sd_new : sales_of (sale_key i) (o_MachineID o) d = [];
  sd_stock : 1 <= ms_CurrentQuantity snap }.

Lemma wp_fulfil_success i o v pay snap n d w (Q : res FulfillSuccessfulVendResult -> world -> Prop) :
  calm_from n NoTx d w -> wf d -> success_due i o v pay snap d ->
  (forall now now' d' w',
    fulfilled i o v pay snap now now' d d' -> calm_from n NoTx d' w' ->
    Q (Ok (mk_FulfillSuccessfulVendResult
             (settled_order o now' (vend_db (fs_OrderID i) (fs_SlotIndex i) (fs_LineSequence i) "success" None now d))
             (session_with (vr_Session v) "success") false false)) w') ->
  wp (FulfillSuccessfulVendAtomically i) Q w.
Proof.
  intros Hc Hw [Hk Ho Eo Es Hv Em Evs Hver Hp Hcap Hcur Hvs Hsold Hnew Hq] HQ.
  eapply wp_success; [done..|by rewrite Evs|]. rewrite Hp. clear w Hc. intros w Hc. unfold success_rest.
  wp_go. unfold close_success. cbn [locked_of lv_state]. rewrite Evs, Hcap.
  change (String.eqb "in_progress" "in_progress") with true. change (String.eqb "captured" "captured") with true.
  cbn [negb]. wp_go. eapply wp_update_vend; [exact Hc|done|done|exact Hv|done|done|].
  clear w Hc. intros now w Hw1 Hc. wp_go. rewrite <- Eo. eapply wp_settle; [exact Hc|done|done|exact Ho|].
  rewrite Eo. clear w Hc. intros now' w Hw2 Hc. wp_go.
  set (d1 := vend_db _ _ _ _ _ _ _) in *. pose proof (settle_db_tables o now' d1) as (Et & Ev & Esl & Ecf & Epp & Eoo & Ese).
  cbn [locked_of lv_slotIndex lv_productID]. fold (sale_key i).
  eapply wp_apply_inventory; [exact Hc|done| |by unfold sale_key; rewrite TrimSpace_idemp|..].
  { eapply (sold_line_same _ _ _ _ _ _ d1); [done..|apply Hsold]. }
  { intros Hn. exfalso. apply Hn. unfold sales_of. by rewrite Ese. }
  { intros _. lia. }
  intros _ _ occ t id. clear w Hc. intros w Hc. wp_go.
  change (String.eqb "in_progress" "success") with false. cbn [andb negb]. wp_go.
  assert (Hpay : pay ∈ d_payments d) by by eapply payment_row_elem.
  eapply wp_record_success; [exact Hc|..|done|done|done|exists (vend_moved "success" None now v); split|].
  - cbn. rewrite Eoo, <- Eo. apply list_elem_of_fmap. eauto.
  - cbn. rewrite Epp. apply list_elem_of_fmap. eauto.
  - unfold vend_at. cbn. rewrite Ev. apply (vend_at_moved _ _ _ "success" None now _ _ Hv).
  - cbn. set_solver.
  - clear w Hc. intros t1 id1 t2 id2 t3 id3 t4 id4 t5 id5 id6 w Hc. wp_go. left. eexists. split; [exact Hc|].
    clear w Hc. intros w Hc. rewrite mapOrder_id. eapply HQ; [|exact Hc]. apply fulfilled_end.
Qed.

(** C7: the first report of a success, with the money captured and the item in its slot, closes
    the vend and settles the order by its lines, takes one item from the slot under the sale's
    key, books the capture in the ledger, keeps the evidence, writes one timeline row and at most
    one event for the outbox, and touches no payment, refund, attempt or provider event; without
    verified evidence it also opens a case, and asks for it to be reconciled. *)
Theorem fulfil_success i o v pay snap n d w :
  calm_from n NoTx d w -> wf d -> success_due i o v pay snap d ->
  wp (FulfillSuccessfulVendAtomically i) (fun r w' => exists now now' d',
    let d1 := vend_db (fs_OrderID i) (fs_SlotIndex i) (fs_LineSequence i) "success" None now d in
    r = Ok (mk_FulfillSuccessfulVendResult (settled_order o now' d1)
              (session_with (vr_Session v) "success") false false) /\
    fulfilled i o v pay snap now now' d d' /\ calm_from n NoTx d' w') w.
Proof.
  intros Hc Hw Hd. eapply wp_fulfil_success; [done..|]. intros now now' d' w' Hf Hc'. by exists now, now', d'.
Qed.
End Succeeding.

(** ** A vend that fails *)

Section Failing.
Context `{UuidText} `{Sha256}.
Variables (i : FulfillFailedVendInput) (o : Order) (v : VendRow) (pay : option Payment).

(** A single line decides its order alone. *)
Definition failed_status (d : pgdb) : option string :=
  if (length (order_states (o_ID o) d) <=? 1)%nat then Some "failed" else settled_status o d.
Definition fail_db (now : Z) (d : pgdb) : pgdb :=
  match failed_status d with Some s => status_db (o_ID o) s now d | None => d end.
Definition failed_order (now : Z) (d : pgdb) : Order :=
  match failed_status d with
  | Some s => order_with o s (o_WinningPaymentID o) (o_WinningClaimedAt o) now
  | None => o
  end.
Definition failure_reason : option string :=
  match ff_FailureReason i with Some s => optionalStringToPgText s | None => None end.
Definition failed_vend_db (now : Z) (d : pgdb) : pgdb :=
  vend_db (ff_OrderID i) (v_SlotIndex (vr_Session v)) (ff_LineSequence i) "failed" failure_reason now d.
Definition fstatus_of : string := verification_or_default (ff_VerificationStatus i).

Lemma wp_fail_order n t d w (Q : res Order -> world -> Prop) :
  calm_from n t d w -> t <> Aborted -> wf d -> o ∈ d_orders d ->
  (forall now w', calm_from n t (fail_db now d) w' -> Q (Ok (failed_order now d)) w') ->
  wp (resolveOrderStatusAfterFailedVend o (o_ID o)) Q w.
Proof.
  intros Hc Ht Hw Ho HQ. unfold resolveOrderStatusAfterFailedVend. wp_go.
  eapply (wp_select_many _ n t d w); [done..|]. clear w Hc. intros w Hc. wp_go.
  fold (order_states (o_ID o) d). unfold fail_db, failed_order, failed_status, settled_status in HQ.
  replace (length (order_states (o_ID o) d)) with
    (length (in_order vr_LineSequence (List.filter (by_order (o_ID o)) (d_vends d)))) in HQ
    by (unfold order_states, session_states; by rewrite length_map).
  assert (Hupd : forall s w, calm_from n t d w -> one_of s orderStatuses = true ->
    (forall now w', calm_from n t (status_db (o_ID o) s now d) w' ->
       Q (Ok (order_with o s (o_WinningPaymentID o) (o_WinningClaimedAt o) now)) w') ->
    wp (UpdateOrderStatusByOrg s (o_ID o)) Q w).
  { clear w Hc HQ. intros s w Hc Hs HQ. eapply (wp_updated n t d w); [done..|apply UpdateOrderStatus_safe| | |].
    - apply (find_by_id o_ID); [apply (wo_ids _ _ (wf_o _ Hw))|done].
    - intros now. by apply order_update_ok_status.
    - intros now w1 _ Hc1. by apply HQ. }
  destruct (_ <=? 1)%nat; [by apply Hupd|].
  destruct (multiLineOrderHasOpenVendLines _); wp_go; [by apply (HQ 0)|].
  destruct (String.eqb _ _); wp_go; [by apply (HQ 0)|]. apply Hupd; [done|apply resolved_is_status|done].
Qed.

(** What the failure writes beside the vend and the order. *)
(** The compensation the caller asks for; or, when it asks for none, a local refund of money that
    is in as cash, and a refund of any other money that is in. *)
Definition money_in (p : Payment) : bool := one_of (p_State p) ["captured"; "partially_refunded"].
Definition paid_cash (p : Payment) : bool := EqualFold (TrimSpace (p_Provider p)) "cash".
Definition refund_flags : bool * bool :=
  if ff_RefundRequired i || ff_LocalCashRefundRequired i
  then (ff_RefundRequired i, ff_LocalCashRefundRequired i)
  else match pay with
       | Some p => if money_in p then (if paid_cash p then (false, true) else (true, false))
                   else (false, false)
       | None => (false, false)
       end.
Lemma compensation_flags : compensation i pay = refund_flags.
Proof.
  unfold compensation, refund_flags, money_in, paid_cash.
  destruct (ff_RefundRequired i), (ff_LocalCashRefundRequired i); cbn [negb andb orb]; try done.
  destruct pay as [p|]; [|done]. by destruct (one_of _ _), (EqualFold _ _).
Qed.
Definition failed_timeline (at_ : Z) (id : N) : TimelineRow :=
  mk_TimelineRow id (ff_OrderID i) "commerce_vend_dispense_failed" "system"
    (JObj (go_map [("failure_reason", JStr (derefStr (ff_FailureReason i)));
                   ("refund_required", JBool refund_flags.1);
                   ("local_cash_refund_required_hint", JBool refund_flags.2);
                   ("slot_index", JInt (ff_SlotIndex i))])) at_.
Definition failed_outbox_key : string :=
  let k := TrimSpace (ff_OutboxIdempotencyKey i) in
  if blank k then failed_key (ff_OrderID i) (ff_SlotIndex i) else k.
Definition failed_event (etype : string) (payload : json) (key : string) : insertOutboxParams :=
  mk_insertOutboxParams (ff_OutboxTopic i) etype payload (ff_OutboxAggregateType i) (ff_OrderID i) key
    (o_Simulated o) (pgtypeTextString (o_SimulationRunID o)) (pgtypeTextString (o_SimulationScenario o)).
Definition failure_event : insertOutboxParams :=
  failed_event (ff_OutboxEventType i)
    (vendFailedOutboxPayload (ff_OrderID i) (ff_SlotIndex i) (derefStr (ff_FailureReason i))
       refund_flags.1 refund_flags.2) failed_outbox_key.
Definition refund_event : insertOutboxParams :=
  failed_event (TrimSpace (ff_ReconciliationEventType i))
    (JObj (go_map [("order_id", JStr (uuid_String (ff_OrderID i)));
                   ("slot_index", JInt (ff_SlotIndex i)); ("refund_required", JBool refund_flags.1);
                   ("local_cash_refund_required_hint", JBool refund_flags.2)]))
    (failed_outbox_key +:+ ":reconciliation").
Definition refund_asked : bool :=
  (refund_flags.1 || refund_flags.2) && negb (blank (TrimSpace (ff_ReconciliationEventType i))).
Definition failure_db (t1 : Z) (id1 : N) (t2 : Z) (id2 : N) (t3 : Z) (id3 : N) (d : pgdb) : pgdb :=
  let d1 := outbox_db failure_event t2 id2 (set_timeline (fun l => l ++ [failed_timeline t1 id1]) d) in
  if refund_asked then outbox_db refund_event t3 id3 d1 else d1.

Lemma wp_record_failure n d w (Q : res unit -> world -> Prop) :
  calm_from n InTx d w -> ff_OrderID i ∈ map o_ID (d_orders d) ->
  (forall t1 id1 t2 id2 t3 id3 w', calm_from n InTx (failure_db t1 id1 t2 id2 t3 id3 d) w' -> Q (Ok tt) w') ->
  wp (record_failure i o refund_flags.1 refund_flags.2) Q w.
Proof.
  intros Hc Ho HQ. unfold record_failure. wp_go. eapply wp_time_Now; [exact Hc|]. intros at_. wp_go.
  eapply (wp_insert_row _ _ _ n InTx _ w); [exact Hc|done|..].
  2: { intros now id e w1 _ Er. rewrite (fk_elem o_ID) in Er by done. discriminate. }
  clear w Hc. intros now id w _ _ Hc. wp_go. fold failed_outbox_key. fold (failed_event (ff_OutboxEventType i)).
  change (mk_insertOutboxParams _ (ff_OutboxEventType i) _ _ _ _ _ _ _) with failure_event.
  eapply wp_outbox_idempotent; [exact Hc|done|]. clear w Hc. intros t2 id2 w Hc. wp_go.
  change (mk_insertOutboxParams _ _ _ _ _ _ _ _ _) with refund_event. fold refund_asked.
  unfold failure_db in HQ. destruct refund_asked; wp_go; [|by eapply (HQ _ _ _ _ 0 0%N)].
  eapply wp_outbox_idempotent; [exact Hc|done|]. clear w Hc. intros t3 id3 w Hc. by eapply HQ.
Qed.
End Failing.

Lemma vend_at_own o slot line v d :
  vend_at o slot line d = Some v -> vend_at o (v_SlotIndex (vr_Session v)) line d = Some v.
Proof.
  unfold vend_at. destruct (0 <? line); [done|]. intros E. pose proof E as E'.
  apply find_Some_elem in E' as [_ [_ Es%Z.eqb_eq]%andb_true_iff]. by rewrite Es.
Qed.
Lemma fail_db_tables o now d : let d' := fail_db o now d in
  d_topo d' = d_topo d /\ d_vends d' = d_vends d /\ d_payments d' = d_payments d /\
  map o_ID (d_orders d') = map o_ID (d_orders d).
Proof.
  unfold fail_db. cbn zeta. destruct (failed_status o d); [|done]. split_and!; try done.
  cbn [d_orders status_db set_orders]. by apply map_update_where.
Qed.

Section Failure.
Context `{UuidText} `{Sha256}.

(** The evidence of a failure is stored under the key of its event. *)
Definition failure_evidence (i : FulfillFailedVendInput) (o : Order) (v : VendRow) : persistEvidenceInput :=
  mk_persistEvidenceInput (ff_OrderID i) (v_ID (vr_Session v)) (o_MachineID o) (v_SlotIndex (vr_Session v))
    (ff_Evidence i)
    ((let k := TrimSpace (ff_OutboxIdempotencyKey i) in
      if blank k then failed_key (ff_OrderID i) (v_SlotIndex (vr_Session v)) else k) +:+ ":hardware_evidence").
Lemma failed_key_solid order slot suf : blank (TrimSpace (failed_key order slot +:+ suf)) = false.
Proof.
  apply TrimSpace_not_blank; unfold failed_key; rewrite !s2l_app;
    set (rest := s2l (uuid_String order)); [done|].
  change (s2l "commerce_vend_failed:") with ("c"%char :: "o"%char :: s2l "mmerce_vend_failed:"). done.
Qed.
Lemma failure_evidence_key i o v : blank (TrimSpace (pei_DedupeKey (failure_evidence i o v))) = false.
Proof.
  cbn [pei_DedupeKey failure_evidence]. cbn zeta.
  destruct (blank (TrimSpace (ff_OutboxIdempotencyKey i))) eqn:Eb; [apply failed_key_solid|by apply suffixed_not_blank].
Qed.
Lemma evidence_db_tables p id d : let d' := evidence_db p id d in
  d_orders d' = d_orders d /\ d_payments d' = d_payments d /\ d_vends d' = d_vends d.
Proof. unfold evidence_db. cbn zeta. by repeat case_match. Qed.

Lemma wp_failed_rest i o v session final n d w
    (Q : res (tx_end FulfillFailedVendResult) -> world -> Prop) :
  let pay := payment_row (ff_OrderID i) (o_WinningPaymentID o) d in
  calm_from n InTx d w -> ff_OrderID i ∈ map o_ID (d_orders d) ->
  (exists v', vend_at (ff_OrderID i) (v_SlotIndex (vr_Session v)) (ff_LineSequence i) d = Some v' /\
              v_State (vr_Session v') ∈ vendStates) ->
  one_of (fstatus_of i) ["unverified"; "verified"; "hardware_unverified"] = true ->
  (forall t1 id1 t2 id2 t3 id3 id4 w', calm_from n InTx (failure_db i o pay t1 id1 t2 id2 t3 id3
     (evidence_db (failure_evidence i o v) id4
       (verified_db (ff_OrderID i) (v_SlotIndex (vr_Session v)) (ff_LineSequence i) (fstatus_of i) d))) w' ->
     Q (Ok (Commit (mk_FulfillFailedVendResult (mapOrder final) session false))) w') ->
  wp (failed_rest i o (locked_of v) session final) Q w.
Proof.
  intros pay Hc Ho (v' & Hv & Hst) Hvs HQ. unfold failed_rest. cbn [locked_of lv_slotIndex lv_id].
  fold (fstatus_of i). apply wp_bind. eapply wp_set_verification; [exact Hc|done|exact Hv|exact Hst|exact Hvs|].
  clear w Hc. intros r w Hc. cbn beta iota zeta. fold (failure_evidence i o v). wp_go.
  eapply wp_persist_evidence; [exact Hc|done|done|apply failure_evidence_key|]. clear w Hc. intros b id4 w Hc.
  wp_go. set (d4 := evidence_db _ id4 _) in *.
  pose proof (evidence_db_tables (failure_evidence i o v) id4
    (verified_db (ff_OrderID i) (v_SlotIndex (vr_Session v)) (ff_LineSequence i) (fstatus_of i) d)) as (Eo & Ep & _).
  fold d4 in Eo, Ep. eapply wp_payment_row; [exact Hc|done|]. clear w Hc. intros w Hc.
  assert (Epay : payment_row (ff_OrderID i) (o_WinningPaymentID o) d4 = pay).
  { unfold pay, payment_row, payment_row_fallback, payments_of. by rewrite Ep. }
  rewrite Epay.
  assert (Hend : wp (let '(refund, local_cash) := compensation i pay in
                     record_failure i o refund local_cash ;;;
                     ret (Commit (mk_FulfillFailedVendResult (mapOrder final) session false))) Q w).
  { rewrite compensation_flags, (surjective_pairing (refund_flags i pay)). wp_go.
    eapply wp_record_failure; [exact Hc|by rewrite Eo|]. clear w Hc. intros t1 id1 t2 id2 t3 id3 w Hc. wp_go.
    by eapply HQ. }
  clearbody pay. clear Epay. destruct pay as [p|]; wp_go; exact Hend.
Qed.

(** A first report of a failure. *)
Record failure_due (i : FulfillFailedVendInput) (o : Order) (v : VendRow) (d : pgdb) : Prop := mk_failure_due {
  fd_order : o ∈ d_orders d;
  fd_order_id : o_ID o = ff_OrderID i;
  fd_vend : vend_at (ff_OrderID i) (ff_SlotIndex i) (ff_LineSequence i) d = Some v;
  fd_machine : v_MachineID (vr_Session v) = o_MachineID o;
  fd_state : v_State (vr_Session v) = "in_progress";
  fd_verified : one_of (vr_VerificationStatus v) ["unverified"; "verified"; "hardware_unverified"] = true;
  fd_status : one_of (fstatus_of i) ["unverified"; "verified"; "hardware_unverified"] = true }.
(** The tables after it. *)
Definition failed_end (i : FulfillFailedVendInput) (o : Order) (v : VendRow) (now now' : Z)
    (t1 : Z) (id1 : N) (t2 : Z) (id2 : N) (t3 : Z) (id3 id4 : N) (d : pgdb) : pgdb :=
  failure_db i o (payment_row (ff_OrderID i) (o_WinningPaymentID o) d) t1 id1 t2 id2 t3 id3
    (evidence_db (failure_evidence i o v) id4
      (verified_db (ff_OrderID i) (v_SlotIndex (vr_Session v)) (ff_LineSequence i) (fstatus_of i)
        (fail_db o now' (failed_vend_db i v now d)))).
Lemma wp_fulfil_failed i o v n d w (Q : res FulfillFailedVendResult -> world -> Prop) :
  calm_from n NoTx d w -> wf d -> failure_due i o v d ->
  (forall now now' t1 id1 t2 id2 t3 id3 id4 w',
    calm_from n NoTx (failed_end i o v now now' t1 id1 t2 id2 t3 id3 id4 d) w' ->
    Q (Ok (mk_FulfillFailedVendResult (failed_order o now' (failed_vend_db i v now d))
             (session_with (vr_Session v) "failed") false)) w') ->
  wp (FulfillFailedVendAtomically i) Q w.
Proof.
  intros Hc Hw [Ho Eo Hv Em Evs Hver Hvs] HQ. unfold FulfillFailedVendAtomically.
  eapply wp_with_tx; [exact Hc|]. clear w Hc. intros w Hc. unfold failed_body.
  apply wp_bind. eapply wp_lock_order; [exact Hc|done|done|exact Ho|exact Eo|]. clear w Hc. intros w Hc.
  cbn beta iota. apply wp_bind. unfold lockFailedVendSessionForUpdate.
  eapply wp_lock_vend; [exact Hc|done|exact Hv|]. clear w Hc. intros w Hc. cbn beta iota.
  cbn [locked_of lv_machineID lv_state lv_replayVend lv_slotIndex lv_id]. rewrite Em, N.eqb_refl, Evs. cbn [negb].
  change (String.eqb "in_progress" "failed") with false. rewrite String.eqb_refl. cbn [negb].
  apply vend_at_own in Hv. apply wp_bind. fold (failure_reason i).
  eapply wp_update_vend; [exact Hc|done|done|exact Hv|done|done|]. fold (failed_vend_db i v).
  clear w Hc. intros now w Hw1 Hc. cbn beta iota. change (vend_db _ _ _ _ _ now d) with (failed_vend_db i v now d) in *.
  apply wp_bind. rewrite <- Eo. eapply wp_fail_order; [exact Hc|done|done|exact Ho|]. rewrite ?Eo.
  clear w Hc. intros now' w Hc. cbn beta iota.
  pose proof (fail_db_tables o now' (failed_vend_db i v now d)) as (Et & Ev & Ep & Eoo).
  eapply wp_failed_rest; [exact Hc| | |exact Hvs|].
  { rewrite Eoo, <- Eo. apply list_elem_of_fmap. eauto. }
  { exists (vend_moved "failed" (failure_reason i) now v). split; [|cbn; set_solver].
    unfold vend_at. rewrite Ev. by apply (vend_at_moved _ _ _ "failed" _ now _ _ Hv). }
  clear w Hc. intros t1 id1 t2 id2 t3 id3 id4 w Hc. left. eexists. split; [exact Hc|].
  clear w Hc. intros w Hc. rewrite mapOrder_id. apply (HQ now now' t1 id1 t2 id2 t3 id3 id4).
  unfold failed_end, payment_row, payment_row_fallback, payments_of in *. by rewrite Ep in Hc.
Qed.

(** C33: the report of a failure of a vend in progress fails the vend and settles the order,
    keeps the evidence, decides the compensation by the payment the order is judged by, writes one
    timeline row and the events asked for, and moves no stock and no money. *)
Theorem fulfil_failed i o v n d w :
  calm_from n NoTx d w -> wf d -> failure_due i o v d ->
  wp (FulfillFailedVendAtomically i) (fun r w' => exists now now' t1 id1 t2 id2 t3 id3 id4,
    r = Ok (mk_FulfillFailedVendResult (failed_order o now' (failed_vend_db i v now d))
              (session_with (vr_Session v) "failed") false) /\
    calm_from n NoTx (failed_end i o v now now' t1 id1 t2 id2 t3 id3 id4 d) w') w.
Proof.
  intros Hc Hw Hd. eapply wp_fulfil_failed; [done..|]. intros now now' t1 id1 t2 id2 t3 id3 id4 w' Hc'.
  by exists now, now', t1, id1, t2, id2, t3, id3, id4.
Qed.
End Failure.
