(* ===== verification/SaleSteps.v ===== *)
(** * The properties at the steps of the sale

    Each property of an order, a payment, a refund, a vend or the stock,
    applied to the worlds of the sale of Scenario and to its requests. *)

From S2P Require Import Prelude.
From S2P Require Import GoStd.
From S2P Require Import Pricing.
From S2P Require Import CommerceTypes.
From S2P Require Import Sanitize.
From S2P Require Import Evidence.
From S2P Require Import Snapshot.
From S2P Require Import Rules.
From S2P Require Import CommerceService.
From S2P Require Import ServiceLaws.
From S2P Require Import Db.
From S2P Require Import Queries.
From S2P Require Import History.
From S2P Require Import PgCommerce.
From S2P Require Import Fulfillment.
From S2P Require Import StoreLaws.
From S2P Require Import Logic.
From S2P Require Import Backend.
From S2P Require Import Scenario.
From S2P Require Import Settlement.
From S2P Require Import Webhooks.
From S2P Require Import Orders.
From S2P Require Import Requests.
From S2P Require Import Stock.
From S2P Require Import Vends.
Local Open Scope string_scope.
Local Open Scope list_scope.
Local Open Scope Z_scope.

#[local] Existing Instance decimal_uuid.
#[local] Existing Instance length_sha256.

(** ** The rows of the worlds *)

Definition first_of {A} (dflt : A) (l : list A) : A := match l with x :: _ => x | [] => dflt end.
Definition no_order : Order := order_of_input demo_order "" 0 0.
Definition no_vend : VendRow := vend_of_input demo_order 0 0 0.
Definition no_payment : Payment := payment_of_input (payment_input (demo_payment 0)) 0 0 0.
Definition order_in (w : world) : Order := first_of no_order (d_orders (w_db w)).
Definition vend_in (w : world) : VendRow := first_of no_vend (d_vends (w_db w)).
Definition payment_in (w : world) : Payment := first_of no_payment (d_payments (w_db w)).

Lemma demo_rows :
  d_orders (w_db demo_w1) = [order_in demo_w1] /\ d_vends (w_db demo_w1) = [vend_in demo_w1] /\
  d_payments (w_db demo_w1) = [] /\
  d_orders (w_db demo_w2) = [order_in demo_w2] /\ d_payments (w_db demo_w2) = [payment_in demo_w2] /\
  d_orders (w_db demo_w3) = [order_in demo_w3] /\ d_vends (w_db demo_w3) = [vend_in demo_w3] /\
  d_payments (w_db demo_w3) = [payment_in demo_w3] /\
  d_orders (w_db demo_w4) = [order_in demo_w4] /\ d_vends (w_db demo_w4) = [vend_in demo_w4] /\
  d_payments (w_db demo_w4) = [payment_in demo_w4] /\
  d_orders (w_db demo_w5) = [order_in demo_w5] /\ d_vends (w_db demo_w5) = [vend_in demo_w5].
Proof. repeat split. Qed.

(** ** Orders and payments *)

Lemma create_order_new_witness :
  validateCreateOrder demo_create = Ok tt /\
  wp (CreateOrder (service (demo_externals true)) demo_create) (fun r w' => exists now id1 now2 id2,
    let o := order_of_input (priced_input demo_create demo_line) "server_priced" now
               (default id1 (uuidPtrToPgUUID (co_ClientOrderID demo_create))) in
    let v := vend_of_input (priced_input demo_create demo_line) (o_ID o) id2 now2 in
    r = Ok (mk_CreateOrderResult (mk_CreateOrderVendResult o (vr_Session v) false) demo_line) /\
    calm_from 0 NoTx (set_vends (fun l => l ++ [v]) (set_orders (fun l => l ++ [o]) demo_db)) w')
    (demo_world demo_db []).
Proof.
  split; [reflexivity|]. apply create_order_new.
  - intros n t d w Hc. by split.
  - by split.
  - apply demo_db_wf.
  - reflexivity.
  - reflexivity.
  - split; cbn.
    + by left.
    + by intros o ?%elem_of_nil.
    + by intros fresh _ ?%elem_of_nil.
    + by intros v id ?%elem_of_nil.
  - done.
  - done.
  - done.
Defined.

Lemma create_order_replayed_witness :
  let o := order_in demo_w1 in let d := w_db demo_w1 in
  validateCreateOrder demo_create = Ok tt /\
  wp (CreateOrder (service (demo_externals true)) demo_create) (fun r w' => calm_from 0 NoTx d w' /\
    exists v' line, v' ∈ d_vends d /\ v_OrderID (vr_Session v') = o_ID o /\
    sl_TotalMinor line = o_TotalMinor o /\ sl_SubtotalMinor line = o_SubtotalMinor o /\
    r = Ok (mk_CreateOrderResult (mk_CreateOrderVendResult o (vr_Session v') true) line)) demo_w1.
Proof.
  cbn zeta. split; [reflexivity|]. pose proof demo_rows as (Eo & Ev & _).
  apply (create_order_replayed _ _ _ (vend_in demo_w1)).
  - intros c m p sl w. cbn. reflexivity.
  - by split.
  - apply demo_w_wf.
  - reflexivity.
  - rewrite Eo. left.
  - reflexivity.
  - reflexivity.
  - rewrite Ev. left.
  - reflexivity.
  - reflexivity.
Defined.

Lemma start_payment_new_witness :
  let i := demo_payment 500 in let d := w_db demo_w1 in
  validateStartPayment i = Ok tt /\
  wp (StartPaymentWithOutbox (service (demo_externals true)) i) (fun r w' => exists t1 id1 t2 id2 t3 id3,
    let pay := payment_of_input (payment_input i) (next_attempt_seq (sp_OrderID i) d) t1 id1 in
    let ob := outbox_row (payment_outbox_params (payment_input i)) t2 id2 in
    r = Ok (mk_PaymentOutboxResult pay ob false) /\
    calm_from 0 NoTx (set_attempts (fun l => l ++ bound_attempts (payment_input i) id1 t3 id3)
      (set_outbox (fun l => l ++ [ob]) (set_payments (fun l => l ++ [pay]) d))) w') demo_w1.
Proof.
  cbn zeta. split; [reflexivity|]. apply start_payment_new.
  - by split.
  - apply demo_w_wf.
  - reflexivity.
  - split; cbn.
    + by left.
    + by intros p ?%elem_of_nil.
    + by intros p id ?%elem_of_nil.
    + done.
    + by intros o ?%elem_of_nil.
Defined.

Lemma start_payment_replayed_witness : exists pay ob,
  d_payments (w_db demo_w2) = [pay] /\ d_outbox (w_db demo_w2) = [ob] /\
  wp (StartPaymentWithOutbox (service (demo_externals true)) (demo_payment 500)) (fun r w' =>
    r = Ok (mk_PaymentOutboxResult pay ob true) /\ calm_from 0 NoTx (w_db demo_w2) w') demo_w2.
Proof.
  eexists _, _. split; [reflexivity|]. split; [reflexivity|]. apply start_payment_replayed.
  - by split.
  - apply demo_w_wf.
  - reflexivity.
  - left.
  - left.
  - reflexivity.
  - reflexivity.
  - left.
  - reflexivity.
  - reflexivity.
Defined.

(** ** Refunds, cancellations, access *)

Definition demo_refund (amount : Z) : CreateRefundInput :=
  mk_CreateRefundInput 500 amount "usd" "broken" "rf1" None.

(** More than the payment holds, and a part of it. *)
Lemma refund_within_payment_witness :
  wp (CreateRefund (service (demo_externals true)) (demo_refund 2000))
    (refund_outcome (demo_refund 2000) 0 (w_db demo_w3)) demo_w3.
Proof.
  apply refund_within_payment.
  - discriminate.
  - by split.
  - apply demo_w_wf.
  - vm_compute. intros pay [= <-]. by split.
Defined.

Lemma refund_created_witness :
  let i := demo_refund 400 in let d := w_db demo_w3 in let pay := payment_in demo_w3 in
  refund_due i pay d /\
  wp (CreateRefund (service (demo_externals true)) i) (fun r w' => exists now id,
    r = Ok (refund_row i pay now id) /\
    calm_from 0 NoTx (set_refunds (fun l => l ++ [refund_row i pay now id]) d) w') demo_w3.
Proof.
  cbn zeta.
  assert (Hdue : refund_due (demo_refund 400) (payment_in demo_w3) (w_db demo_w3)).
  { split; try done; [left|by intros r ?%elem_of_nil]. }
  split; [exact Hdue|]. apply refund_created.
  - discriminate.
  - by split.
  - apply demo_w_wf.
  - exact Hdue.
Defined.

(** An order whose payment is still open is cancelled; a paid one is not. *)
Lemma cancel_order_witness :
  wp (CancelOrder (service (demo_externals true)) 0 500 "changed my mind") (fun r w' =>
    exists now, calm_from 0 NoTx (status_db 500 "cancelled" now (w_db demo_w2)) w' /\
      r = Ok (order_with (order_in demo_w2) "cancelled" None None now)) demo_w2 /\
  wp (CancelOrder (service (demo_externals true)) 0 500 "changed my mind") (fun r w' =>
    r = Err ErrCancelNotAllowed /\ calm_from 0 NoTx (w_db demo_w3) w') demo_w3.
Proof.
  pose proof demo_rows as (_ & _ & _ & Eo & _ & Eo3 & _).
  split; [apply (cancel_order (demo_externals true) (order_in demo_w2) 0 "changed my mind" 0 (w_db demo_w2))|
    apply (cancel_order (demo_externals true) (order_in demo_w3) 0 "changed my mind" 0 (w_db demo_w3))].
  - by split.
  - apply demo_w_wf.
  - rewrite Eo. left.
  - discriminate.
  - reflexivity.
  - by split.
  - apply demo_w_wf.
  - rewrite Eo3. left.
  - discriminate.
  - reflexivity.
Defined.

Lemma advance_vend_witness :
  let i := demo_advance 500 in let d := w_db demo_w3 in
  wp (AdvanceVend (service (demo_externals true)) i) (fun r w' => exists now now',
    let d1 := vend_db 500 3 0 "in_progress" None now d in
    r = Ok (session_with (vr_Session (vend_in demo_w3)) "in_progress") /\
    calm_from 0 NoTx (status_db 500 "vending" now' d1) w') demo_w3.
Proof.
  cbn zeta. pose proof demo_rows as (_ & _ & _ & _ & _ & Eo & Ev & _).
  apply (advance_vend (demo_externals true) (demo_advance 500) (order_in demo_w3) (vend_in demo_w3)
    0 (w_db demo_w3) demo_w3).
  - by split.
  - apply demo_w_wf.
  - rewrite Eo. left.
  - reflexivity.
  - discriminate.
  - reflexivity.
  - reflexivity.
  - reflexivity.
  - reflexivity.
Defined.

Definition demo_cancel : CancelPaymentSessionInput := mk_CancelPaymentSessionInput 500 1 "c1" "" (Some 111%N).
Lemma cancel_session_witness :
  open_state (payment_in demo_w2) = true /\
  wp (CancelPaymentSession (service (demo_externals true)) demo_cancel) (fun r w' =>
    r = Ok (mk_CancelPaymentSessionResult (order_in demo_w2) (Some (canceled (payment_in demo_w2)))) /\
    calm_from 0 NoTx (cancel_db 111 (w_db demo_w2)) w') demo_w2.
Proof.
  pose proof demo_rows as (_ & _ & _ & Eo & _).
  split; [reflexivity|].
  apply (cancel_session (demo_externals true) demo_cancel (order_in demo_w2) (payment_in demo_w2) 0 (w_db demo_w2)).
  - by split.
  - apply demo_w_wf.
  - rewrite Eo. left.
  - reflexivity.
  - discriminate.
  - reflexivity.
  - reflexivity.
  - reflexivity.
  - reflexivity.
  - reflexivity.
Defined.

Lemma caller_access_witness :
  let p := mk_Principal ["machine"] [2%N] in
  wp (EnsureCommerceCallerOrderAccess (service (demo_externals true)) 0 500 p) (fun r w' =>
    calm_from 0 NoTx (w_db demo_w2) w' /\
    (r = Ok tt <-> 0%N = uuid_Nil /\ exists o, o ∈ d_orders (w_db demo_w2) /\ o_ID o = 500%N /\
       (HasRole p RoleMachine = false \/ AllowsMachine p (o_MachineID o) = true))) demo_w2.
Proof.
  cbn zeta. apply caller_access; [by split|apply demo_w_wf].
Defined.

(** ** Stock and vends *)

(** The slot of the demo as the store sees it. *)
Definition demo_snap (w : world) : MachineSlotRow :=
  first_of (mk_MachineSlotRow 0 0 0 0 0 0 None) (machine_slots 1 (w_db w)).
(** Any vend of the demo is on sale once it has succeeded. *)
Lemma stock_decrement_witness :
  sales_of "other" 1 (w_db demo_w5) = [] /\ ms_CurrentQuantity (demo_snap demo_w5) = 4 /\
  wp (ApplyCommerceVendSuccessInventory uuid_Nil 1 500 3 9 "other" None) (fun r w' =>
    r = Ok false /\ 0 <= 4 - 1 /\ exists occurred t id,
      calm_from 0 NoTx (stock_db (sale_event 1 500 9 3 3 "other" None occurred t id)
        (sold_slot 1 3 (demo_snap demo_w5)) (w_db demo_w5)) w') demo_w5.
Proof.
  split; [reflexivity|]. split; [reflexivity|].
  apply (stock_decrement 1 500 3 9 "other" None (demo_snap demo_w5) 0 (w_db demo_w5) demo_w5).
  - by split.
  - apply demo_w_wf.
  - split; [left|done| |reflexivity]. by exists (vend_in demo_w5).
  - reflexivity.
Defined.

(** The other end of the story: the payment is refunded while the vend is in
    progress, or the vend fails. *)
Definition demo_run (l : list request) : world :=
  (serve_all (demo_externals true) l (demo_world demo_db [])).2.
Definition demo_refunded : ApplyPaymentProviderWebhookInput :=
  mk_WebhookInput 500 111 "momo" "ref-2" "evt-2" "payment.refunded" "refunded"
    (RawJSON (JObj [])) (Some 1080) (Some "usd") "" RawEmpty "" "" RawEmpty "" 0 "".
Definition demo_broken : FinalizeAfterVendInput :=
  mk_FinalizeAfterVendInput 500 3 0 "failed" (Some "jam") "" "w1" None None "" "vends" "vend.failed"
    "order" "" "" false false.
Definition demo_to_w6 : list request := take 4 demo_story ++ [ReqWebhook demo_refunded].
Definition demo_to_w7 : list request := take 4 demo_story ++ [ReqFinalize demo_broken].
Definition demo_w6 : world := Eval vm_compute in demo_run demo_to_w6.
Definition demo_w7 : world := Eval vm_compute in demo_run demo_to_w7.

Lemma demo_run_wf l : wf (w_db (demo_run l)).
Proof.
  pose proof (demo_externals_laws true (world_rel safe)).
  destruct (serve_all_evolves (demo_externals true) (world_rel safe) l
    (demo_world demo_db [])) as [_ [_ Hw]]; [by intros g d ?%elem_of_nil|].
  apply Hw, demo_db_wf.
Qed.
Lemma demo_w_run : demo_w6 = demo_run demo_to_w6 /\ demo_w7 = demo_run demo_to_w7.
Proof. split; vm_compute; reflexivity. Qed.
Lemma demo_w6_wf : wf (w_db demo_w6). Proof. destruct demo_w_run as [-> _]. apply demo_run_wf. Qed.
Lemma demo_w7_wf : wf (w_db demo_w7). Proof. destruct demo_w_run as [_ ->]. apply demo_run_wf. Qed.

(** The reports the store gets. *)
Definition demo_success : FulfillSuccessfulVendInput :=
  mk_FulfillSuccessfulVendInput 500 3 0 "w1:vend_sale_inventory" None None "hardware_unverified" "vends"
    "vend.succeeded" "order" "" "vend.reconcile".
Definition demo_failure : FulfillFailedVendInput :=
  mk_FulfillFailedVendInput 500 3 0 (Some "jam") None "" "vends" "vend.failed" "order" "" "" false false.

Lemma demo_success_due :
  success_due demo_success (order_in demo_w4) (vend_in demo_w4) (payment_in demo_w4) (demo_snap demo_w4) (w_db demo_w4).
Proof.
  pose proof demo_rows as (_ & _ & _ & _ & _ & _ & _ & _ & Eo & _).
  split; [reflexivity|rewrite Eo; left|reflexivity|discriminate|reflexivity..|vm_compute; discriminate|reflexivity| |
    reflexivity|vm_compute; discriminate].
  intros now. split; [left|done| |reflexivity]. eexists. split; [reflexivity|]. by split_and!.
Qed.
Lemma fulfil_success_witness :
  let i := demo_success in let d := w_db demo_w4 in let o := order_in demo_w4 in let v := vend_in demo_w4 in
  unverified i = true /\
  wp (FulfillSuccessfulVendAtomically i) (fun r w' => exists now now' d',
    let d1 := vend_db 500 3 0 "success" None now d in
    r = Ok (mk_FulfillSuccessfulVendResult (settled_order o now' d1)
              (session_with (vr_Session v) "success") false false) /\
    fulfilled i o v (payment_in demo_w4) (demo_snap demo_w4) now now' d d' /\
    calm_from 0 NoTx d' w') demo_w4.
Proof.
  cbn zeta. split; [reflexivity|].
  apply (fulfil_success demo_success (order_in demo_w4) (vend_in demo_w4) (payment_in demo_w4)
    (demo_snap demo_w4) 0 (w_db demo_w4) demo_w4); [by split|apply demo_w_wf|apply demo_success_due].
Defined.

Lemma fulfil_success_replayed_witness :
  wp (FulfillSuccessfulVendAtomically demo_success) (fun r w' =>
    r = Ok (mk_FulfillSuccessfulVendResult (order_in demo_w5) (vr_Session (vend_in demo_w5)) true true) /\
    calm_from 0 NoTx (w_db demo_w5) w') demo_w5.
Proof.
  pose proof demo_rows as (_ & _ & _ & _ & _ & _ & _ & _ & _ & _ & _ & Eo & _).
  eapply (fulfil_success_replayed demo_success (order_in demo_w5) (vend_in demo_w5)).
  - by split.
  - apply demo_w_wf.
  - reflexivity.
  - rewrite Eo. left.
  - reflexivity.
  - reflexivity.
  - reflexivity.
  - reflexivity.
  - reflexivity.
  - reflexivity.
  - split; [left|done| |reflexivity]. by exists (vend_in demo_w5).
  - discriminate.
Defined.

Lemma fulfil_needs_capture_witness :
  p_State (payment_in demo_w6) = "refunded" /\
  wp (FulfillSuccessfulVendAtomically demo_success) (fun r w' =>
    r = Err ErrPaymentNotSettled /\ calm_from 0 NoTx (w_db demo_w6) w') demo_w6.
Proof.
  split; [reflexivity|].
  apply (fulfil_needs_capture demo_success (order_in demo_w6) (vend_in demo_w6)).
  - by split.
  - apply demo_w6_wf.
  - reflexivity.
  - left.
  - reflexivity.
  - discriminate.
  - reflexivity.
  - reflexivity.
  - reflexivity.
  - vm_compute. intros pay [= <-]. discriminate.
Defined.

Lemma fulfil_failed_witness :
  let i := demo_failure in let d := w_db demo_w4 in let o := order_in demo_w4 in let v := vend_in demo_w4 in
  compensation i (Some (payment_in demo_w4)) = (true, false) /\
  wp (FulfillFailedVendAtomically i) (fun r w' => exists now now' t1 id1 t2 id2 t3 id3 id4,
    r = Ok (mk_FulfillFailedVendResult (failed_order o now' (failed_vend_db i v now d))
              (session_with (vr_Session v) "failed") false) /\
    calm_from 0 NoTx (failed_end i o v now now' t1 id1 t2 id2 t3 id3 id4 d) w') demo_w4.
Proof.
  cbn zeta. split; [reflexivity|].
  apply (fulfil_failed demo_failure (order_in demo_w4) (vend_in demo_w4) 0 (w_db demo_w4) demo_w4);
    [by split|apply demo_w_wf|].
  split; [left|reflexivity..].
Defined.

Lemma fulfil_failed_replayed_witness :
  wp (FulfillFailedVendAtomically demo_failure) (fun r w' =>
    r = Ok (mk_FulfillFailedVendResult (order_in demo_w7) (vr_Session (vend_in demo_w7)) true) /\
    calm_from 0 NoTx (w_db demo_w7) w') demo_w7.
Proof.
  apply fulfil_failed_replayed.
  - by split.
  - apply demo_w7_wf.
  - left.
  - reflexivity.
  - reflexivity.
  - reflexivity.
  - reflexivity.
Defined.
