(* ===== verification/MachineCommerceLaws.v ===== *)
(** * What the machine's commerce service promises

    Calls that are refused before anything is written, whatever the other
    clients of the database do in between ([refused]): on the order of another
    machine and after the checkout window.  What becomes of errors and of
    hardware evidence.  Every call keeps the tables, and runs once. *)

From S2P Require Import Prelude.
From S2P Require Import GoStd.
From S2P Require Import Protobuf.
From S2P Require Import Pricing.
From S2P Require Import CommerceTypes.
From S2P Require Import Sanitize.
From S2P Require Import Evidence.
From S2P Require Import Snapshot.
From S2P Require Import Rules.
From S2P Require Import CommerceService.
From S2P Require Import ServiceLaws.
From S2P Require Import Db.
From S2P Require Import Queries.
From S2P Require Import MachineIdempotency.
From S2P Require Import MachineReplay.
From S2P Require Import History.
From S2P Require Import PgCommerce.
From S2P Require Import Quotes.
From S2P Require Import OfflineSale.
From S2P Require Import MachineMessages.
From S2P Require Import MachineCommerce.
From S2P Require Import StoreLaws.
From S2P Require Import Logic.
From S2P Require Import QuoteLaws.
From S2P Require Import Backend.
From S2P Require Import Orders.
From S2P Require Import MutationLaws.
Local Open Scope string_scope.
Local Open Scope list_scope.
Local Open Scope Z_scope.

(** ** Errors are statuses *)

Definition statused (e : goerr) : Prop := is_status e = true.
Lemma statused_status c m : statused (EStatus c m). Proof. done. Qed.
Lemma persistence_statused op err e : mapCommercePersistenceErrForOp op err = Some e -> statused e.
Proof.
  unfold mapCommercePersistenceErrForOp. destruct (pg_error err) as [[code constraint]|]; [|done].
  intros H. repeat case_match; by simplify_eq.
Qed.
Lemma grpc_statused op err : statused (mapCommerceGRPCErrForOp op err).
Proof.
  unfold mapCommerceGRPCErrForOp. destruct (is_status err) eqn:E; [done|].
  repeat lazymatch goal with |- statused (if ?b then _ else _) => destruct b; [done|] end.
  destruct (mapCommercePersistenceErrForOp op err) eqn:Ep; [by eapply persistence_statused|].
  by destruct (Contains _ _).
Qed.
Lemma close_statused op err : statused (mapCommerceVendCloseErr op err).
Proof.
  unfold mapCommerceVendCloseErr. destruct (is_status err) eqn:E; [done|].
  destruct (mapCommercePersistenceErrForOp op err) eqn:Ep; [by eapply persistence_statused|].
  destruct (mapCommerceVendCloseBusinessErr err) eqn:Eb; [|apply grpc_statused].
  unfold mapCommerceVendCloseBusinessErr in Eb. repeat case_match; by simplify_eq.
Qed.
Lemma session_statused err : statused (mapCommercePaymentSessionErr err).
Proof.
  unfold mapCommercePaymentSessionErr.
  repeat lazymatch goal with |- statused (if ?b then _ else _) => destruct b; [done|] end.
  destruct (mapCommercePersistenceErrForOp _ err) eqn:Ep; [by eapply persistence_statused|].
  repeat lazymatch goal with |- statused (if ?b then _ else _) => destruct b; [done|] end.
  apply grpc_statused.
Qed.
#[export] Hint Resolve statused_status grpc_statused close_statused session_statused : statused.

(** ** Calls that only read so far *)

Section Reading.
Context (R : pgdb -> pgdb -> Prop) `{!PreOrder R}.
Context (I : pgdb -> Prop) (I_stable : forall d d', R d d' -> I d -> I d').
Context (now : Z).

(** From tables with [I] (at the time [now]) the call ends in tables the other
    clients moved, at that time; its result has [P], its error [E]. *)
Definition reads (E : goerr -> Prop) {A} (P : A -> Prop) (m : M world A) : Prop :=
  forall w, polite R (w_sched w) -> I (w_db w) -> w_now w = now ->
    match (m w).1 with Ok a => P a | Err e => E e end /\
    polite R (w_sched (m w).2) /\ R (w_db w) (w_db (m w).2) /\ w_now (m w).2 = now.

Lemma reads_bind {A B} E (P : A -> Prop) (Q : B -> Prop) m k :
  reads E P m -> (forall a, P a -> reads E Q (k a)) -> reads E Q (bind m k).
Proof.
  intros Hm Hk w Hp Hi Hn. destruct (Hm w Hp Hi Hn) as (H1 & H2 & H3 & H4). unfold bind.
  destruct (m w) as [[a|e] w1]; cbn [fst snd] in *; [|done].
  destruct (Hk a H1 w1 H2 (I_stable _ _ H3 Hi) H4) as (K1 & K2 & K3 & K4).
  split; [done|]. split; [done|]. split; [by etransitivity|done].
Qed.
Lemma reads_mono {A} (E E' : goerr -> Prop) (P P' : A -> Prop) m :
  (forall e, E e -> E' e) -> (forall a, P a -> P' a) -> reads E P m -> reads E' P' m.
Proof.
  intros HE HP Hm w Hp Hi Hn. destruct (Hm w Hp Hi Hn) as (H1 & H2). split; [|done].
  destruct (m w).1; auto.
Qed.
Lemma reads_lift {A} E (P : A -> Prop) r :
  match r with Ok a => P a | Err e => E e end -> reads E P (lift r).
Proof. intros Hr w Hp Hi Hn. by split. Qed.
Lemma reads_ret {A} E (P : A -> Prop) a : P a -> reads E P (ret a).
Proof. apply (reads_lift E P (Ok a)). Qed.
Lemma reads_fail {A} (E : goerr -> Prop) (P : A -> Prop) e : E e -> reads E P (fail e).
Proof. apply (reads_lift E P (Err e)). Qed.
Lemma reads_need {A} (E : goerr -> Prop) (P : A -> Prop) o :
  E ErrNotConfigured -> (forall a, o = Some a -> P a) -> reads E P (need o).
Proof. intros HE HP. destruct o; [by apply reads_ret, HP|by apply reads_fail]. Qed.
Lemma reads_guard (E : goerr -> Prop) (P : unit -> Prop) b e :
  (b = true -> E e) -> (b = false -> P tt) -> reads E P (guard b e).
Proof. intros He HP. unfold guard. apply reads_lift. destruct b; cbn; auto. Qed.
Lemma reads_fmap {A B} E (P : A -> Prop) (Q : B -> Prop) f m :
  (forall a, P a -> Q (f a)) -> reads E P m -> reads E Q (fmap_M f m).
Proof.
  intros HPQ Hm w Hp Hi Hn. destruct (Hm w Hp Hi Hn) as (H1 & H2). unfold fmap_M.
  destruct (m w) as [[a|e] w1]; cbn [fst snd] in *; auto.
Qed.
Lemma reads_attempt {A} E (P : A -> Prop) m (E' : goerr -> Prop) :
  reads E P m -> reads E' (fun r => match r with Ok a => P a | Err e => E e end) (attempt m).
Proof.
  intros Hm w Hp Hi Hn. destruct (Hm w Hp Hi Hn) as (H1 & H2). unfold attempt.
  destruct (m w) as [r w1]; cbn [fst snd] in *; auto.
Qed.
Lemma reads_mapping {A} (P : A -> Prop) f m :
  (forall e, statused (f e)) -> reads (fun _ => True) P m -> reads statused P (mapping f m).
Proof.
  intros Hf Hm. eapply reads_bind; [by apply reads_attempt|]. intros [a|e] Ha; [by apply reads_ret|by apply reads_fail].
Qed.
Lemma reads_now E : reads E (fun t => t = now) time_Now.
Proof. intros w Hp Hi Hn. by split. Qed.
(** A query finds what the tables have then. *)
Lemma reads_one {A} (P : A -> Prop) (f : pgdb -> option A) :
  (forall d a, I d -> f d = Some a -> P a) -> reads (fun _ => True) P (stmt (select_one f)).
Proof.
  intros HP w Hp Hi Hn. destruct (ev_select_one (R := world_rel R) f w Hp) as [Hp' HR].
  pose proof (same_clock_stmt (select_one f) w) as Ht.
  split; [|by split_and!; [done..|rewrite Ht]].
  destruct (stmt (select_one f) w) as [[a|e] w1] eqn:Es; [|done]. cbn [fst].
  destruct (stmt_done R _ _ _ _ Es Hp) as (d & t & id & Hd & Ef). cbn in Ef. injection Ef as Ef _.
  by eapply HP; [eapply I_stable|].
Qed.
Lemma reads_or_not_found {A} (P : A -> Prop) m :
  reads (fun _ => True) P m -> reads (fun _ => True) P (or_not_found m).
Proof.
  intros Hm. eapply reads_bind; [by apply reads_attempt|]. intros [a|e] Ha; [by apply reads_ret|].
  cbn beta iota. destruct (isNoRows e); by apply reads_fail.
Qed.
End Reading.

(** ** An order on record *)

(** The row of [o], whatever has become of it since. *)
Definition on_record (o : Order) (d : pgdb) : Prop :=
  wf d /\ exists y, y ∈ d_orders d /\ order_identity y = order_identity o.
Lemma on_record_safe o d d' : safe d d' -> on_record o d -> on_record o d'.
Proof.
  intros [Hg Hw] (Hd & y & Hy & E). split; [auto|].
  destruct (rows_kept_elem _ _ _ _ (gr_orders _ _ Hg) Hy) as (z & Hz & Ez & _). exists z. split; [done|congruence].
Qed.

(** The order a call names, where it looks one up. *)
Definition rpc_order (c : machine_rpc) : option string :=
  match c with
  | RpcCreateOrder _ => None
  | RpcCreatePaymentSession r | RpcAttachPaymentResult r =>
      match qs_PricingSnapshot r with
      | None => if blank (TrimSpace (default "" (qs_QuoteId r))) then Some (qs_OrderId r) else None
      | Some _ => None
      end
  | RpcConfirmCashPayment r | RpcCreateCashCheckout r => Some (qc_OrderId r)
  | RpcCancelPaymentSession r => Some (qx_OrderId r)
  | RpcStartVend r => Some (qv_OrderId r)
  | RpcConfirmVendSuccess r | RpcReportVendSuccess r => Some (qy_OrderId r)
  | RpcReportVendFailure r => Some (qf_OrderId r)
  | RpcCancelOrder r | RpcMarkOrderUnknown r => Some (qz_OrderId r)
  end.
(** The calls that are bound to the time to check out. *)
Definition rpc_timed (c : machine_rpc) : bool :=
  match c with
  | RpcCreateOrder _ | RpcCancelPaymentSession _ | RpcCancelOrder _ | RpcMarkOrderUnknown _ => false
  | _ => true
  end.
Definition names `{UuidParse} (c : machine_rpc) (order : N) : Prop :=
  exists raw, rpc_order c = Some raw /\ uuid_Parse (TrimSpace raw) = Some order.

Section Refused.
Context `{UuidText} `{UuidParse} (s : MachineGRPCServicesDeps) (ctx : CallContext) (claims : MachineAccessClaims).
Context (store_ok : forall svc, dp_Commerce s = Some svc -> sv_life world svc = Some lifecycle).
Context (claims_ok : cx_claims ctx = Some claims).
Context (R : pgdb -> pgdb -> Prop) `{!PreOrder R} (R_safe : forall d d', R d d' -> safe d d').
Context (o : Order) (now : Z).
Let I := on_record o.
Notation sees := (reads R I now statused).
Lemma I_stable d d' : R d d' -> I d -> I d'.
Proof. intros Hr. by apply on_record_safe, R_safe. Qed.
(** Ends with a status, whatever it is. *)
Definition refused {A} (m : M world A) : Prop := sees (fun _ => False) m.

Lemma refused_bind {A B} (P : A -> Prop) m (k : A -> M world B) :
  sees P m -> (forall a, P a -> refused (k a)) -> refused (bind m k).
Proof. apply reads_bind; [done|apply I_stable]. Qed.
Lemma refused_first {A B} m (k : A -> M world B) : refused m -> refused (bind m k).
Proof. intros Hm. eapply refused_bind; [exact Hm|done]. Qed.
Lemma refused_fmap {A B} (f : A -> B) m : refused m -> refused (fmap_M f m).
Proof. by apply reads_fmap. Qed.
(** The row of an id is that of [o]. *)
Lemma read_row id : o_ID o = id ->
  reads R I now (fun _ => True) (fun y => order_identity y = order_identity o) (PgCommerce.GetOrderByID id).
Proof.
  intros Hid. pose proof I_stable as HI. unfold PgCommerce.GetOrderByID.
  eapply reads_fmap, reads_or_not_found, reads_one; [|done..|]; [intros a Ha; rewrite mapOrder_id; exact Ha|].
  intros d y (Hw & z & Hz & Ez) Hf. apply find_Some_elem in Hf as [Hy Ey]. apply N.eqb_eq in Ey.
  assert (z = y) as ->; [|done].
  eapply (unique_on_same (fun o => Some (o_ID o))); [apply (wo_ids _ _ (wf_o _ Hw))|done|done| |done].
  assert (o_ID z = o_ID o) by (unfold order_identity in Ez; congruence). congruence.
Qed.
Lemma read_order id : o_ID o = id ->
  sees (fun y => order_identity y = order_identity o) (mapping mapCommerceGRPCErr (PgCommerce.GetOrderByID id)).
Proof. intros Hid. apply reads_mapping; [done|apply I_stable|intros; apply grpc_statused|by apply read_row]. Qed.
Lemma read_access svc id : o_ID o = id -> dp_Commerce s = Some svc ->
  sees (fun _ => o_MachineID o = mac_MachineID claims)
    (mapping mapCommerceGRPCErr
      (EnsureCommerceCallerOrderAccess svc uuid_Nil id (machinePrincipalFromAccessClaims claims))).
Proof.
  intros Hid Hsvc. pose proof I_stable as HI. apply reads_mapping; [done|done|intros; apply grpc_statused|].
  unfold EnsureCommerceCallerOrderAccess, EnsureOrderCompany. rewrite (store_ok _ Hsvc).
  change (HasRole (machinePrincipalFromAccessClaims claims) RoleMachine) with true. cbn [negb need].
  pose proof (read_row id Hid) as Hrow.
  eapply (reads_bind _ _ HI) with (P := fun _ => True); [|intros _ _].
  - eapply (reads_bind _ _ HI) with (P := fun l => l = lifecycle); [by apply reads_ret|]. intros ? ->.
    eapply (reads_bind _ _ HI); [exact Hrow|]. intros y _. by apply reads_guard.
  - eapply (reads_bind _ _ HI) with (P := fun l => l = lifecycle); [by apply reads_ret|]. intros ? ->.
    eapply (reads_bind _ _ HI); [exact Hrow|]. intros y Ey. apply reads_guard; [done..|].
    unfold AllowsMachine, machinePrincipalFromAccessClaims. cbn [pri_MachineIDs existsb].
    intros Hb%negb_false_iff. destruct (o_MachineID y =u uuid_Nil); [done|]. rewrite orb_false_r in Hb.
    apply N.eqb_eq in Hb. unfold order_identity in Ey. congruence.
Qed.

(** The start of a call. *)
Lemma context_statused protoCtx e : parseMachineMutationContext ctx protoCtx = Err e -> statused e.
Proof.
  unfold parseMachineMutationContext, optional_id, res_bind, guard_err. intros Hp.
  repeat (case_match; simplify_eq; try done).
Qed.
Lemma read_gate : sees (fun _ => True) (machineRuntimeInventoryGate ctx claims).
Proof.
  assert (Hev : forall st v rev, match evaluateMachineRuntimeInventoryGate st v rev claims with Ok _ => True | Err e => statused e end).
  { intros. unfold evaluateMachineRuntimeInventoryGate. cbv zeta.
    by repeat lazymatch goal with |- context [if ?b then _ else _] => destruct b end. }
  unfold machineRuntimeInventoryGate. destruct (cx_gate ctx); [apply reads_lift; [done|apply Hev]|].
  eapply (reads_bind _ _ I_stable); [by eapply reads_attempt, (reads_one _ _ I_stable) with (P := fun _ => True)|].
  intros [row|e] _; [apply reads_lift; [done|apply Hev]|by apply reads_fail].
Qed.
Lemma read_enter protoCtx :
  sees (fun c => c.1.2 = claims /\ dp_Commerce s = Some c.2) (enter s ctx protoCtx).
Proof.
  pose proof I_stable as HI. unfold enter. eapply (reads_bind _ _ HI) with (P := fun _ => True); [apply reads_lift; [done|]|].
  { destruct (parseMachineMutationContext _ _) eqn:E; [done|by eapply context_statused]. }
  intros wctx _. eapply (reads_bind _ _ HI) with (P := fun who => who.1 = claims /\ dp_Commerce s = Some who.2);
    [|intros [c svc] [Hc Hs]; by apply reads_ret].
  unfold requireCommerce. destruct (dp_Commerce s) as [svc|]; [|by apply reads_fail].
  destruct (negb (dp_store s)); [by apply reads_fail|]. rewrite claims_ok.
  eapply (reads_bind _ _ HI); [exact read_gate|]. intros _ _. by apply reads_ret.
Qed.
Lemma read_id raw id : uuid_Parse (TrimSpace raw) = Some id -> sees (fun a => a = id) (order_id_of raw).
Proof. intros E. unfold order_id_of. rewrite E. destruct (id =u uuid_Nil); [by apply reads_fail|by apply reads_ret]. Qed.
Lemma read_lift {A} (r : res A) : (forall e, r = Err e -> statused e) -> sees (fun _ => True) (lift r).
Proof. intros Hr. apply reads_lift; [done|]. destruct r; auto. Qed.
Lemma optional_statused raw msg e : optional_id raw (invalid msg) = Err e -> statused e.
Proof. unfold optional_id. intros E. by repeat (case_match; simplify_eq). Qed.
Lemma read_open y : sees (fun _ => True) (open_order y).
Proof. unfold open_order. destruct (order_terminal _); [by apply reads_fail|by apply reads_ret]. Qed.
Lemma read_window y :
  sees (fun _ => 0 < machineOrderCheckoutMaxAge s -> now <= o_CreatedAt y + machineOrderCheckoutMaxAge s) (check_window s y).
Proof.
  unfold check_window. eapply (reads_bind _ _ I_stable); [by apply reads_now|]. intros ? ->. apply reads_lift; [done|].
  unfold checkMachineOrderCheckoutWindow. destruct (Z.leb_spec (machineOrderCheckoutMaxAge s) 0); [lia|].
  unfold guard_err. destruct (Z.ltb_spec (o_CreatedAt y + machineOrderCheckoutMaxAge s) now); [done|lia].
Qed.
Lemma read_own y :
  order_identity y = order_identity o -> sees (fun _ => o_MachineID o = mac_MachineID claims) (own_order claims y).
Proof.
  intros Ey. unfold own_order. destruct (N.eqb_spec (o_MachineID y) (mac_MachineID claims)) as [E|E]; cbn [negb].
  - apply reads_ret; [done|]. unfold order_identity in Ey. congruence.
  - by apply reads_fail.
Qed.

(** [why]: either reason to refuse the calls on [o]. *)
Inductive barred (c : machine_rpc) : Prop :=
| barred_foreign : o_MachineID o <> mac_MachineID claims -> barred c
| barred_late : rpc_timed c = true -> 0 < machineOrderCheckoutMaxAge s ->
    o_CreatedAt o + machineOrderCheckoutMaxAge s < now -> barred c.
Lemma created_same y : order_identity y = order_identity o -> o_CreatedAt y = o_CreatedAt o.
Proof. unfold order_identity. congruence. Qed.

Lemma read_accessed svc id : o_ID o = id -> dp_Commerce s = Some svc ->
  sees (fun y => order_identity y = order_identity o /\ o_MachineID o = mac_MachineID claims)
    (accessed_order svc claims id).
Proof.
  intros Hid Hsvc. unfold accessed_order. eapply (reads_bind _ _ I_stable); [by apply read_access|]. intros u Em.
  eapply reads_mono, read_order; [done| |done]. done.
Qed.
Lemma refused_timed c y {A} (k : unit -> M world A) :
  barred c -> order_identity y = order_identity o -> o_MachineID o = mac_MachineID claims ->
  refused (bind (check_window s y) k).
Proof.
  intros Hb Ey Em. eapply refused_bind; [apply read_window|]. intros u Hin.
  destruct Hb as [Hb|_ Hpos Hlate]; [done|]. rewrite (created_same y Ey) in Hin. specialize (Hin Hpos). lia.
Qed.
Lemma refused_foreign c : rpc_timed c = false -> barred c -> o_MachineID o <> mac_MachineID claims.
Proof. intros Ht [?|?]; [done|congruence]. Qed.
Lemma refused_reported c svc id : o_ID o = id -> dp_Commerce s = Some svc -> barred c ->
  refused (reported_order s svc claims id).
Proof.
  intros Hid Hsvc Hb. unfold reported_order. eapply refused_bind; [by apply read_accessed|]. intros y [Ey Em].
  eapply refused_bind; [by apply read_own|]. intros u _. by eapply refused_timed.
Qed.
Lemma refused_session c r : rpc_order (RpcCreatePaymentSession r) = rpc_order c -> rpc_timed c = true ->
  names c (o_ID o) -> barred c -> refused (CreatePaymentSession s ctx r).
Proof.
  intros Eo Ht (raw & Eraw & Hraw) Hb. rewrite <- Eo in Eraw. cbn in Eraw.
  unfold CreatePaymentSession. eapply refused_bind; [apply read_enter|]. intros [[wctx cl] svc] [Ecl Hsvc]. cbn in Ecl, Hsvc. subst cl.
  eapply refused_bind with (P := fun made => made.1 = o_ID o).
  { unfold session_order_of. destruct (qs_PricingSnapshot r); [done|].
    destruct (blank (TrimSpace (default "" (qs_QuoteId r)))) eqn:Eq; [|done]. cbn [negb]. injection Eraw as <-.
    eapply (reads_bind _ _ I_stable); [by apply read_id|]. intros id ->. by apply reads_ret. }
  intros [id mat] Hid. cbn [fst] in Hid.
  eapply refused_bind; [by apply read_order|]. intros y Ey.
  destruct (N.eqb_spec (o_MachineID o) (mac_MachineID claims)) as [Em|Em]; [by eapply refused_timed|].
  eapply refused_bind; [apply read_window|]. intros u _.
  eapply refused_bind; [apply read_open|]. intros u' _.
  eapply refused_bind; [by apply read_own|]. done.
Qed.

(** The handlers after their first steps. *)
Ltac entered := eapply refused_bind; [apply read_enter|]; intros [[wctx cl] svc] [Ecl Hsvc]; cbn in Ecl, Hsvc; subst cl.
Ltac named := eapply refused_bind; [by apply read_id|]; intros ? ->.
Ltac accessed := eapply refused_bind; [by apply read_accessed|]; intros y [Ey Em].
Lemma rpc_refused c : names c (o_ID o) -> barred c -> refused (rpc_handler s ctx c).
Proof.
  intros Hn Hb. destruct c; try (destruct Hn as (raw & [= <-] & Hraw)); cbn [rpc_handler]; apply refused_fmap.
  - by apply (refused_session (RpcCreatePaymentSession r)).
  - by apply (refused_session (RpcAttachPaymentResult r)).
  - entered. named. accessed. by eapply refused_timed.
  - entered. named. accessed. by eapply refused_timed.
  - entered. named. accessed. by apply refused_foreign in Hb.
  - entered. named. accessed. by eapply refused_timed.
  - entered. named. eapply refused_bind; [apply read_lift; intros e; apply optional_statused|]. intros corr _.
    unfold confirmVendSuccess. by eapply refused_first, refused_reported.
  - entered. named. eapply refused_bind; [apply read_lift; intros e; apply optional_statused|]. intros corr _.
    unfold confirmVendSuccess. by eapply refused_first, refused_reported.
  - entered. named. eapply refused_bind; [apply read_lift; intros e; apply optional_statused|]. intros corr _.
    by eapply refused_first, refused_reported.
  - entered. named. accessed. by apply refused_foreign in Hb.
  - entered. named. accessed. by apply refused_foreign in Hb.
Qed.
End Refused.

Lemma max_age_positive s : 0 < machineOrderCheckoutMaxAge s.
Proof.
  unfold machineOrderCheckoutMaxAge. destruct (dp_Config s) as [c|]; [|done].
  destruct (Z.leb_spec (cg_MachineOrderCheckoutMaxAge c) 0); [done|lia].
Qed.

(** A call that ended with a status; the tables moved along [R] meanwhile. *)
Definition turned_away (R : pgdb -> pgdb -> Prop) (w : world) (out : res proto * world) : Prop :=
  (exists e, out.1 = Err e /\ statused e) /\ R (w_db w) (w_db out.2).

Section Barred.
Context `{UuidText} `{UuidParse} (s : MachineGRPCServicesDeps) (ctx : CallContext) (claims : MachineAccessClaims).
Context (store_ok : forall svc, dp_Commerce s = Some svc -> sv_life world svc = Some lifecycle).
Context (claims_ok : cx_claims ctx = Some claims).
Context (R : pgdb -> pgdb -> Prop) `{!PreOrder R} (R_safe : forall d d', R d d' -> safe d d').
Context (o : Order) (c : machine_rpc) (named : names c (o_ID o)).

Lemma barred_call w : barred s claims o (w_now w) c -> polite R (w_sched w) -> on_record o (w_db w) ->
  turned_away R w (rpc_handler s ctx c w).
Proof.
  intros Hb Hp Hi.
  destruct (rpc_refused s ctx claims store_ok claims_ok R R_safe o (w_now w) c named Hb w Hp Hi eq_refl)
    as (Hr & _ & HR & _). split; [|done].
  destruct (rpc_handler s ctx c w).1 as [a|e]; [done|]. by exists e.
Qed.
(** C13: a machine can do nothing to an order of another machine: every call that names one (a
    payment session, cash, a vend report, a cancellation) is refused with a status, and the call itself
    changes nothing, whatever statements fail and whatever other clients do while it runs ([R], which
    keeps rows and well-formed tables). *)
Theorem foreign_order_refused w :
  o_MachineID o <> mac_MachineID claims -> polite R (w_sched w) -> wf (w_db w) -> o ∈ d_orders (w_db w) ->
  turned_away R w (rpc_handler s ctx c w).
Proof.
  intros Hm Hp Hw Ho. apply barred_call; [by apply barred_foreign|done|]. split; [done|]. by exists o.
Qed.
(** once the time to check out has passed since the order was created, cash, payment sessions
    and vend reports for it are refused with a status and change nothing, whatever became of the
    order since and whatever happens while the call runs. *)
Theorem late_call_refused w :
  rpc_timed c = true -> o_CreatedAt o + machineOrderCheckoutMaxAge s < w_now w ->
  polite R (w_sched w) -> on_record o (w_db w) -> turned_away R w (rpc_handler s ctx c w).
Proof.
  intros Ht Hl Hp Hr. apply barred_call; [|done..]. by apply barred_late; [|apply max_age_positive|].
Qed.
End Barred.

(** ** Errors a machine may retry *)

Definition refusals : list goerr :=
  [ErrInvalidArgument; ErrNotFound; ErrOrgMismatch; ErrIllegalTransition; ErrPaymentNotSettled; ErrCancelNotAllowed].
(** What the ledger takes for the end of a mutation. *)
Definition final_error (err : goerr) : bool :=
  existsb (errors_Is err) refusals ||
  negb (errors_Is err ErrNotConfigured) && negb (errors_Is err ErrIdempotencyPayloadConflict) &&
  (errors_Is err ErrVendEvidenceRequired || errors_Is err ErrVendEvidenceInvalid ||
   match pg_error err with Some e => one_of e.1 ["23505"; "23514"] | None => false end).

Lemma refusals_by_name err : existsb (errors_Is err) refusals =
  errors_Is err ErrInvalidArgument || errors_Is err ErrNotFound || errors_Is err ErrOrgMismatch ||
  errors_Is err ErrIllegalTransition || errors_Is err ErrPaymentNotSettled || errors_Is err ErrCancelNotAllowed.
Proof. unfold refusals. cbn [existsb]. by rewrite orb_false_r, !orb_assoc. Qed.
Lemma persistence_final op err :
  match mapCommercePersistenceErrForOp op err with
  | Some e => shouldMarkLedgerRowFailed e =
      match pg_error err with Some e => one_of e.1 ["23505"; "23514"] | None => false end
  | None => match pg_error err with Some e => one_of e.1 ["23505"; "23514"] | None => false end = false
  end.
Proof.
  unfold mapCommercePersistenceErrForOp. destruct (pg_error err) as [[code constraint]|]; [|done]. cbn [fst].
  unfold one_of. cbn [existsb].
  destruct (String.eqb_spec code "22P02") as [->|]; [done|].
  destruct (String.eqb_spec code "22023") as [->|]; [done|].
  destruct (String.eqb_spec code "23505") as [->|]; [done|].
  destruct (String.eqb_spec code "23514") as [->|]; [done|]. cbn [orb].
  by destruct (HasPrefix code "08"), (String.eqb code "57P03").
Qed.

(** C29: every error of a handler reaches the machine as a status, a status as it is; and the ledger
    closes the mutation for good exactly on the refusals of the service, on refused evidence and on
    violated uniqueness or CHECK constraints: after a lost connection, an internal error or an
    unconfigured service the row stays open. *)
Theorem errors_classified op err :
  is_status (mapCommerceGRPCErrForOp op err) = true /\
  (is_status err = true -> mapCommerceGRPCErrForOp op err = err) /\
  (is_status err = false -> shouldMarkLedgerRowFailed (mapCommerceGRPCErrForOp op err) = final_error err).
Proof.
  split; [apply grpc_statused|]. unfold mapCommerceGRPCErrForOp.
  split; intros ->; [done|]. unfold final_error. rewrite refusals_by_name.
  repeat (lazymatch goal with |- context [if errors_Is err ?s then _ else _] => destruct (errors_Is err s) end;
    cbn [orb andb negb]; [reflexivity|]).
  pose proof (persistence_final op err) as Hp. destruct (mapCommercePersistenceErrForOp op err) as [e|]; [done|].
  rewrite Hp. by destruct (Contains _ _).
Qed.

(** ** What becomes of evidence *)

Section Evidence.
Context `{UuidText} `{UuidParse} (msg : option VendEvidenceMsg) (corr : option N)
  (cash require success : bool) (authorized : Z).

(** The record a message stands for, well formed for the flow, whose bill is
    the amount that was paid. *)
Record proven (e : VendHardwareEvidence) : Prop := mk_proven {
  pv_mapped : mapProtoVendHardwareEvidence msg corr = Ok e;
  pv_formed : well_formed_evidence e cash success;
  pv_bill : forall b, ev_BillFinal e = Some b -> cash = true -> 0 < authorized -> bf_AmountMinor b = authorized }.
(** How evidence is refused. *)
Definition evidence_error (e : goerr) : Prop :=
  e = ErrVendEvidenceRequired \/ e = ErrVendEvidenceInvalid \/ exists m, e = evidence_invalid m.
Lemma evidence_error_final e : evidence_error e ->
  status_Code (mapCommerceGRPCErr e) = FailedPrecondition /\ shouldMarkLedgerRowFailed (mapCommerceGRPCErr e) = true.
Proof. intros [->|[->|[m ->]]]; split; reflexivity. Qed.
Lemma parsed_error raw e : parsed_or_nil raw = Err e -> evidence_error e.
Proof.
  unfold parsed_or_nil, optional_id. intros E. repeat (case_match; simplify_eq; try done); by right; left.
Qed.
Lemma mapped_error e : mapProtoVendHardwareEvidence msg corr = Err e -> evidence_error e.
Proof.
  unfold mapProtoVendHardwareEvidence. destruct msg as [ev|]; [|intros [= <-]; by left].
  destruct (parsed_or_nil _) as [a|e'] eqn:Ea; cbn [res_bind]; [|intros [= <-]; by eapply parsed_error].
  intros E. apply res_bind_Err in E as [E|(c & _ & [=])].
  repeat (case_match; simplify_eq; try done); by right; left.
Qed.
Lemma guard_evidence b m e : guard_err b (evidence_invalid m) = Err e -> evidence_error e.
Proof. unfold guard_err. destruct b; [|done]. intros [= <-]. right; right; eauto. Qed.
Lemma bill_error b e : Validate_bill b = Err e -> evidence_error e.
Proof.
  unfold Validate_bill, res_bind, guard_err. intros E. repeat (case_match; simplify_eq; try done); right; right; eauto.
Qed.
Lemma validate_error m e : Validate (Some m) cash success = Err e -> evidence_error e.
Proof.
  unfold Validate. intros E.
  repeat (apply res_bind_Err in E as [E|([] & _ & E)];
    [first [by eapply guard_evidence|destruct cash; [by eapply bill_error|done]]|]). by eapply guard_evidence.
Qed.

(** C30: the evidence of a vend is taken as verified exactly when the message stands for a record
    that is well formed for the flow and whose bill is the amount paid ([proven]); any other evidence,
    and none, is dropped and the vend counted as not verified by hardware, unless the machine has to
    give evidence: then the report is refused, for good under its key. *)
Theorem evidence_verdict :
  match resolveVendEvidenceFromRequest msg corr cash require success authorized with
  | Ok (Some e, v) => v = VerificationVerified /\ proven e
  | Ok (None, v) => v = VerificationHardwareUnverified /\ require = false /\ forall e, ~ proven e
  | Err e => require = true /\ (forall m, ~ proven m) /\
      status_Code (mapCommerceGRPCErr e) = FailedPrecondition /\ shouldMarkLedgerRowFailed (mapCommerceGRPCErr e) = true
  end.
Proof.
  assert (Hdoubt : forall e, (forall m, ~ proven m) -> evidence_error e ->
    match doubted require e with
    | Ok (Some e, v) => v = VerificationVerified /\ proven e
    | Ok (None, v) => v = VerificationHardwareUnverified /\ require = false /\ forall e, ~ proven e
    | Err e => require = true /\ (forall m, ~ proven m) /\
        status_Code (mapCommerceGRPCErr e) = FailedPrecondition /\ shouldMarkLedgerRowFailed (mapCommerceGRPCErr e) = true
    end).
  { intros e Hn He%evidence_error_final. unfold doubted. by destruct require. }
  assert (Hmap : forall m, proven m -> mapProtoVendHardwareEvidence msg corr = Ok m) by by intros m [].
  unfold resolveVendEvidenceFromRequest. destruct msg as [ev|] eqn:Emsg.
  2: { apply Hdoubt; [intros m Hm%Hmap; discriminate|by left]. }
  rewrite <- Emsg in *. destruct (mapProtoVendHardwareEvidence msg corr) as [m|e] eqn:Em.
  2: { apply Hdoubt; [intros m Hm%Hmap; discriminate|by eapply mapped_error]. }
  assert (Hone : forall m', proven m' -> m' = m) by (intros m' Hm'%Hmap; congruence).
  destruct (Validate (Some m) cash success) as [[]|e] eqn:Ev.
  2: { apply Hdoubt; [|by eapply validate_error]. intros m' Hp. pose proof (Hone m' Hp) as ->.
       destruct Hp as [_ Hf _]. apply Validate_spec in Hf. congruence. }
  apply Validate_spec in Ev. destruct (ev_BillFinal m) as [bill|] eqn:Eb.
  2: { split; [done|]. split; [done|done|]. congruence. }
  destruct (cash && (0 <? authorized) && negb (bf_AmountMinor bill =? authorized)) eqn:Ec.
  - rewrite !andb_true_iff, negb_true_iff, Z.ltb_lt, Z.eqb_neq in Ec. destruct Ec as [[Ec Hpos] Hne].
    apply Hdoubt; [|right; right; eauto]. intros m' Hp. pose proof (Hone m' Hp) as ->.
    destruct Hp as [_ _ Hb]. by apply Hne, Hb.
  - split; [done|]. split; [done|done|]. intros b Hb Hcash Hpos. assert (b = bill) as -> by congruence.
    rewrite Hcash, (proj2 (Z.ltb_lt _ _) Hpos) in Ec. cbn in Ec. by apply negb_false_iff, Z.eqb_eq in Ec.
Qed.
End Evidence.

(** ** Every call keeps the tables *)

Section Service.
Context `{UuidText} `{UuidParse} {W : Type} {R : W -> W -> Prop} {s : Service W} `{!ServiceLaws R s}.
Context {store : option (QuoteStore W)} (store_ok : forall q, store = Some q -> QuoteStoreLaws R q).
Context {carts : CartResolvers W} `{!CartLaws R carts}.

Lemma ev_order_of_one m line p cur k c at_ : evolves R (order_of_one s m line p cur k c at_).
Proof.
  pose proof (sv_resolveCheckoutSaleLine R s). pose proof (sv_CreateOrder R s).
  unfold order_of_one. serve.
Qed.
Lemma ev_order_of_many m lines p cur pm k c at_ : evolves R (order_of_many s store carts m lines p cur pm k c at_).
Proof.
  pose proof (sv_resolveCheckoutSaleLine R s).
  pose proof (sv_CreateQuote (s := s) (carts := carts) store_ok). pose proof (sv_CreateOrderFromQuote (s := s) store_ok).
  unfold order_of_many, offline_quote_line. serve. apply evolves_map_each; serve.
Qed.
Lemma sv_Materialize i : evolves R (MaterializeOrderForPaymentSession s store carts i).
Proof.
  unfold MaterializeOrderForPaymentSession, MaterializeOrderFromPricingSnapshotInput, createOfflineOrderFromSnapshot.
  pose proof ev_order_of_one. pose proof ev_order_of_many. by repeat case_match.
Qed.
End Service.

(** What the server is given respects [R]. *)
Class DepsLaws (R : world -> world -> Prop) (s : MachineGRPCServicesDeps) : Prop := {
  dl_service svc : dp_Commerce s = Some svc -> ServiceLaws R svc;
  dl_quotes q : dp_quotes s = Some q -> QuoteStoreLaws R q;
  dl_carts :: CartLaws R (dp_carts s);
  dl_audit f r : dp_EnterpriseAudit s = Some f -> evolves R (f r);
  dl_methods m : evolves R (dp_machinePaymentMethods s m);
  dl_code m : evolves R (dp_machineExternalCode s m) }.

Lemma evolves_bind_got {W A B} (R : W -> W -> Prop) `{!PreOrder R} (P : A -> Prop) (m : M W A) (k : A -> M W B) :
  (forall w a w', m w = (Ok a, w') -> P a) -> evolves R m -> (forall a, P a -> evolves R (k a)) ->
  evolves R (bind m k).
Proof.
  intros HP Hm Hk w. unfold bind. specialize (Hm w). specialize (HP w).
  destruct (m w) as [[a|e] w']; cbn in *; [|done]. etransitivity; [exact Hm|]. eapply Hk, HP. done.
Qed.

Section Server.
Context `{UuidText} `{UuidParse} (s : MachineGRPCServicesDeps) {R : world -> world -> Prop}
  `{!Statement_rel safe R} `{!DepsLaws R s}.

Lemma ev_mapping {A} f (m : M world A) : evolves R m -> evolves R (mapping f m).
Proof. intros Hm. unfold mapping. evolve. Qed.
Hint Resolve ev_mapping : evolves.
Lemma TouchVendSessionCorrelation_safe order slot c : evolves R (TouchVendSessionCorrelation order slot c).
Proof.
  unfold TouchVendSessionCorrelation. destruct (c =u uuid_Nil); [evolve|].
  apply sr_stmt. intros now id d r d' [= <- <-]. by apply vends_updated_safe.
Qed.
Lemma ev_audit claims a o meta : evolves R (auditCommerce s claims a o meta).
Proof. unfold auditCommerce. destruct (dp_EnterpriseAudit s) eqn:E; [apply evolves_ignore; by eapply dl_audit|evolve]. Qed.
Lemma ev_GetOrder id : evolves R (PgCommerce.GetOrderByID id).
Proof. apply (ll_GetOrderByID (l := lifecycle)). Qed.
Lemma ev_gate ctx claims : evolves R (machineRuntimeInventoryGate ctx claims).
Proof. unfold machineRuntimeInventoryGate, GetMachineCredentialGate. pose proof (fun f => ev_select_one (R := R) (A := MachineGateRow) f). evolve. Qed.
Hint Resolve TouchVendSessionCorrelation_safe ev_audit ev_GetOrder ev_gate ev_time_Now : evolves.
Hint Resolve dl_methods dl_code : evolves.

Lemma ev_enter ctx pc : evolves R (enter s ctx pc).
Proof. unfold enter, requireCommerce. evolve. Qed.
Lemma enter_service ctx pc w c w' : enter s ctx pc w = (Ok c, w') -> dp_Commerce s = Some c.2.
Proof.
  unfold enter, requireCommerce, bind, lift, ret, fail. intros E.
  repeat (case_match; simplify_eq; try done).
Qed.
(** A handler that got past its start. *)
Lemma ev_entered {A} ctx pc (k : machineMutationContext * MachineAccessClaims * Service world -> M world A) :
  (forall wctx claims svc, ServiceLaws R svc -> evolves R (k (wctx, claims, svc))) ->
  evolves R (bind (enter s ctx pc) k).
Proof.
  intros Hk. eapply (evolves_bind_got R (fun c => dp_Commerce s = Some c.2));
    [apply enter_service|apply ev_enter|]. intros [[wctx claims] svc] Hs. by apply Hk, (dl_service (s := s)).
Qed.

Section Handlers.
Context (svc : Service world) `{!ServiceLaws R svc}.
Lemma ev_accessed claims id : evolves R (accessed_order svc claims id).
Proof. pose proof (sv_EnsureCaller R svc). unfold accessed_order. evolve. Qed.
Lemma ev_own claims o : evolves R (own_order claims o).
Proof. unfold own_order, permission. evolve. Qed.
Lemma ev_open o : evolves R (open_order o).
Proof. unfold open_order, precondition. evolve. Qed.
Lemma ev_window o : evolves R (check_window s o).
Proof. unfold check_window. evolve. Qed.
Lemma ev_status id slot line : evolves R (checkout_status svc id slot line).
Proof. pose proof (sv_getCheckoutStatus R svc). unfold checkout_status, GetCheckoutStatus, GetCheckoutStatusByLineSequence. evolve. Qed.
Lemma ev_session_order claims wctx req : evolves R (session_order_of s svc claims wctx req).
Proof.
  pose proof (sv_CreateOrderFromQuote (s := svc) (dl_quotes (R := R) (s := s))).
  pose proof (sv_Materialize (s := svc) (carts := dp_carts s) (dl_quotes (R := R) (s := s))).
  unfold session_order_of, order_id_of, three_letters, bad_request. evolve.
Qed.
Hint Resolve ev_accessed ev_own ev_open ev_window ev_status ev_session_order : evolves.
Lemma ev_confirmVendSuccess claims wctx id slot line corr ev :
  evolves R (confirmVendSuccess s claims svc wctx id slot line corr ev).
Proof.
  pose proof (sv_EnsureVendInProgress R svc). pose proof (sv_FinalizeOrderAfterVend R svc).
  unfold confirmVendSuccess, reported_order, touch, touch_evidence, started_status, precondition. evolve.
Qed.
End Handlers.
Hint Resolve ev_accessed ev_own ev_open ev_window ev_status ev_session_order ev_confirmVendSuccess : evolves.

Ltac handler := apply ev_entered; intros wctx claims svc Hsvc.
Lemma ev_CreateOrder ctx r : evolves R (CreateOrder s ctx r).
Proof.
  unfold CreateOrder. handler. pose proof (sv_CreateOrder R svc).
  unfold permission, bad_request, three_letters, need_config, optional_snapshot. evolve.
Qed.
Lemma ev_CreatePaymentSession ctx r : evolves R (CreatePaymentSession s ctx r).
Proof.
  unfold CreatePaymentSession. handler. pose proof (sv_CreateMachinePaymentSession R svc).
  unfold precondition, need_config, payment_outbox, bad_request, three_letters. evolve.
Qed.
Lemma ev_ConfirmCashPayment ctx r : evolves R (ConfirmCashPayment s ctx r).
Proof.
  unfold ConfirmCashPayment. handler. pose proof (sv_ConfirmCashPayment R svc).
  unfold order_id_of, precondition, need_config, payment_outbox, bad_request. evolve.
Qed.
Lemma ev_CancelPaymentSession ctx r : evolves R (CancelPaymentSession s ctx r).
Proof.
  unfold CancelPaymentSession. handler. pose proof (sv_CancelPaymentSession R svc).
  unfold order_id_of, bad_request. evolve.
Qed.
Lemma ev_StartVend ctx r : evolves R (StartVend s ctx r).
Proof.
  unfold StartVend. handler. pose proof (sv_AdvanceVend R svc).
  unfold order_id_of, bad_request, precondition. evolve.
Qed.
Lemma ev_ConfirmVendSuccess ctx r : evolves R (ConfirmVendSuccess s ctx r).
Proof. unfold ConfirmVendSuccess. handler. unfold order_id_of, bad_request. evolve. Qed.
Lemma ev_ReportVendSuccess ctx r : evolves R (ReportVendSuccess s ctx r).
Proof. unfold ReportVendSuccess. handler. unfold order_id_of, bad_request. evolve. Qed.
Lemma ev_ReportVendFailure ctx r : evolves R (ReportVendFailure s ctx r).
Proof.
  unfold ReportVendFailure. handler. pose proof (sv_FinalizeOrderAfterVend R svc).
  pose proof (sv_getCheckoutStatus R svc).
  unfold order_id_of, bad_request, reported_order, touch_failure, touch_evidence, precondition,
    GetCheckoutStatus, GetCheckoutStatusByLineSequence. evolve.
Qed.
Lemma ev_close_order st close action ctx r :
  (forall svc id reason, ServiceLaws R svc -> evolves R (close svc id reason)) ->
  evolves R (close_order s st close action ctx r).
Proof.
  intros Hc. unfold close_order. handler. pose proof (fun id reason => Hc svc id reason Hsvc).
  unfold order_id_of, bad_request. evolve.
Qed.
Lemma rpc_evolves ctx c : evolves R (rpc_handler s ctx c).
Proof.
  destruct c; cbn [rpc_handler]; apply evolves_fmap.
  - apply ev_CreateOrder.
  - apply ev_CreatePaymentSession.
  - apply ev_CreatePaymentSession.
  - apply ev_ConfirmCashPayment.
  - apply ev_ConfirmCashPayment.
  - apply ev_CancelPaymentSession.
  - apply ev_StartVend.
  - apply ev_ConfirmVendSuccess.
  - apply ev_ReportVendSuccess.
  - apply ev_ReportVendFailure.
  - apply ev_close_order. intros svc id reason Hsvc. apply sv_CancelOrder, Hsvc.
  - apply ev_close_order. intros svc id reason Hsvc. apply sv_MarkOrderUnknown, Hsvc.
Qed.
End Server.

(** A call of a method as the interceptor gets it. *)
Definition rpc_call `{UuidText} `{UuidParse} (s : MachineGRPCServicesDeps) (c : CallContext * machine_rpc) : call world :=
  mk_call world c.1 (Some (rpc_request c.2)) (rpc_method c.2) (fmap_M Some (rpc_handler s c.1 c.2)).

(** whatever calls machines make of the commerce service through the ledger, in any order, under
    any failures and among other clients that respect the tables: each mutation (a machine, a
    method under any of its names, a key) runs at most once, and all of them together keep every row,
    with its identity, and the tables well formed. *)
Theorem machine_calls_run_once `{UuidText} `{UuidParse} `{ProtoCodec} l s `{!DepsLaws (world_rel safe) s} calls w :
  (forall f r, lg_audit l = Some f -> evolves (world_rel safe) (f r)) ->
  polite safe (w_sched w) ->
  let '(w', ran) := (serve_calls (pg_ledger l) machine_replay_config (map (rpc_call s) calls) (w, [])).2 in
  safe (w_db w) (w_db w') /\ NoDup ran /\ forall k, k ∈ ran -> ~ recorded (w_db w) k /\ recorded (w_db w') k.
Proof.
  intros Ha Hp. apply calls_run_once; [done| |done].
  apply Forall_forall. intros c Hc. apply list_elem_of_fmap in Hc as ([ctx rpc] & -> & _).
  apply evolves_fmap, (rpc_evolves s (R := world_rel safe)).
Qed.
