(* ===== verification/MachineSales.v ===== *)
(** * A sale through the machine's service

    The calls of a sale from the interceptor of the ledger down to the tables,
    in a quiet world: what the first call of a method leaves, and that sending
    it again only repeats the answer. *)

From S2P Require Import Prelude.
From S2P Require Import GoStd.
From S2P Require Import Protobuf.
From S2P Require Import Pricing.
From S2P Require Import CommerceTypes.
From S2P Require Import Sanitize.
From S2P Require Import Evidence.
From S2P Require Import Snapshot.
From S2P Require Import Rules.
From S2P Require Import CommerceService.
From S2P Require Import ServiceLaws.
From S2P Require Import Db.
From S2P Require Import Queries.
From S2P Require Import MachineIdempotency.
From S2P Require Import MachineReplay.
From S2P Require Import History.
From S2P Require Import PgCommerce.
From S2P Require Import Quotes.
From S2P Require Import OfflineSale.
From S2P Require Import MachineMessages.
From S2P Require Import MachineCommerce.
From S2P Require Import StoreLaws.
From S2P Require Import Logic.
From S2P Require Import Backend.
From S2P Require Import Settlement.
From S2P Require Import Webhooks.
From S2P Require Import Orders.
From S2P Require Import Requests.
From S2P Require Import MutationLaws.
From S2P Require Import MachineCommerceLaws.
From S2P Require Import CashSales.
From S2P Require Import Stock.
From S2P Require Import Vends.
Local Open Scope string_scope.
Local Open Scope list_scope.
Local Open Scope Z_scope.

Lemma wp_mapping {A} f (m : M world A) Q w :
  wp m (fun r w' => Q (match r with Ok a => Ok a | Err e => Err (f e) end) w') w -> wp (mapping f m) Q w.
Proof.
  intros Hm. apply wp_bind, wp_attempt. eapply wp_mono; [|exact Hm]. by intros [a|e] w'.
Qed.

Lemma need_some {W A B} (a : A) (k : A -> M W B) : bind (need (Some a)) k = k a.
Proof. reflexivity. Qed.

(** ** The start of a call *)

Section Start.
Context `{UuidText} `{UuidParse} `{Sha256} (s : MachineGRPCServicesDeps) (x : Externals).
Context (ctx : CallContext) (claims : MachineAccessClaims).

(** The credentials are good, by the snapshot or by the tables. *)
Definition gate_open (d : pgdb) : Prop :=
  match cx_gate ctx with
  | Some g => evaluateMachineRuntimeInventoryGate (gs_status g) (gs_credentialVersion g) (gs_credentialRevoked g) claims = Ok tt
  | None => exists row, List.find (fun g => mg_MachineID g =u mac_MachineID claims) (d_gates d) = Some row /\
      evaluateMachineRuntimeInventoryGate (mg_Status row) (mg_CredentialVersion row)
        (negb (is_none (mg_CredentialRevokedAt row))) claims = Ok tt
  end.
Record let_in (pc : option IdempotencyContext) (wctx : machineMutationContext) (d : pgdb) : Prop := mk_let_in {
  li_context : parseMachineMutationContext ctx pc = Ok wctx;
  li_service : dp_Commerce s = Some (service x);
  li_store : dp_store s = true;
  li_claims : cx_claims ctx = Some claims;
  li_gate : gate_open d;
  li_audit : forall f a, dp_EnterpriseAudit s = Some f -> evolves quiet (f a) }.

Context {pc : option IdempotencyContext} {wctx : machineMutationContext} {d : pgdb} (Hin : let_in pc wctx d).
Context {n : N} {t : txstate}.

Lemma clock_enter : evolves same_clock (enter s ctx pc).
Proof. unfold enter, requireCommerce, machineRuntimeInventoryGate, GetMachineCredentialGate. evolve. Qed.
Lemma wp_enter w (Q : res (machineMutationContext * MachineAccessClaims * Service world) -> world -> Prop) :
  calm_from n t d w -> t <> Aborted ->
  (forall w', calm_from n t d w' -> w_now w' = w_now w -> Q (Ok (wctx, claims, service x)) w') ->
  wp (enter s ctx pc) Q w.
Proof.
  intros Hc Ht HQ. destruct Hin as [Hctx Hsvc Hst Hcl Hg _]. apply wp_clock; [apply clock_enter|].
  unfold enter, requireCommerce. rewrite Hctx, Hsvc, Hst, Hcl. cbn [negb]. wp_go.
  unfold machineRuntimeInventoryGate. unfold gate_open in Hg. destruct (cx_gate ctx) as [g|].
  - rewrite Hg. wp_go. by apply HQ.
  - destruct Hg as (row & Hf & He). wp_go. unfold GetMachineCredentialGate.
    eapply (wp_found n t d w); [done..|exact Hf|]. intros w1 Hc1. wp_go. rewrite He. wp_go. by apply HQ.
Qed.

Lemma clock_GetOrder id : evolves same_clock (PgCommerce.GetOrderByID id).
Proof. unfold PgCommerce.GetOrderByID, or_not_found, Queries.GetOrderByID. evolve. Qed.
Hint Resolve clock_GetOrder : evolves.
Lemma clock_access id p : evolves same_clock (EnsureCommerceCallerOrderAccess (service x) uuid_Nil id p).
Proof.
  unfold EnsureCommerceCallerOrderAccess, EnsureOrderCompany, guard. cbn [service sv_life].
  rewrite need_some. cbn [lifecycle ls_GetOrderByID]. apply evolves_bind; [apply _|evolve|intros _].
  destruct (negb _); [evolve|]. rewrite need_some. cbn [lifecycle ls_GetOrderByID]. evolve.
Qed.
Lemma wp_accessed o w (Q : res Order -> world -> Prop) :
  calm_from n t d w -> t <> Aborted -> wf d -> o ∈ d_orders d ->
  o_MachineID o = mac_MachineID claims -> o_MachineID o <> uuid_Nil ->
  (forall w', calm_from n t d w' -> w_now w' = w_now w -> Q (Ok o) w') ->
  wp (accessed_order (service x) claims (o_ID o)) Q w.
Proof.
  intros Hc Ht Hw Ho Em Hn HQ. apply wp_clock.
  { pose proof clock_access. unfold accessed_order, mapping. evolve. }
  unfold accessed_order. wp_go. apply wp_mapping.
  unfold EnsureCommerceCallerOrderAccess, EnsureOrderCompany. cbn [service sv_life].
  change (HasRole (machinePrincipalFromAccessClaims claims) RoleMachine) with true. cbn [negb]. wp_go.
  cbn [lifecycle ls_GetOrderByID].
  eapply wp_order_by_id; [exact Hc|done..|]. intros w1 Hc1. wp_go. apply wp_guard; [done|intros _]. wp_go.
  eapply wp_order_by_id; [exact Hc1|done..|]. intros w2 Hc2. wp_go. apply wp_guard.
  { unfold AllowsMachine, machinePrincipalFromAccessClaims. cbn [pri_MachineIDs existsb].
    rewrite (proj2 (N.eqb_neq _ _) Hn), Em, N.eqb_refl. done. }
  intros _. wp_go. apply wp_mapping. eapply wp_order_by_id; [exact Hc2|done..|]. intros w3 Hc3.
  intros Hnow. by apply HQ.
Qed.
Lemma wp_window o w (Q : res unit -> world -> Prop) :
  w_now w <= o_CreatedAt o + machineOrderCheckoutMaxAge s -> Q (Ok tt) w -> wp (check_window s o) Q w.
Proof.
  intros Hle HQ. unfold check_window, time_Now, gets. apply wp_bind. unfold wp at 1. cbn [fst snd]. apply wp_lift.
  unfold checkMachineOrderCheckoutWindow, guard_err. destruct (_ <=? 0); [done|].
  by rewrite (proj2 (Z.ltb_ge _ _)).
Qed.
Lemma wp_open o w (Q : res unit -> world -> Prop) :
  order_terminal (o_Status o) = false -> Q (Ok tt) w -> wp (open_order o) Q w.
Proof. intros E HQ. unfold open_order. by rewrite E. Qed.
Lemma wp_own o w (Q : res unit -> world -> Prop) :
  o_MachineID o = mac_MachineID claims -> Q (Ok tt) w -> wp (own_order claims o) Q w.
Proof. intros E HQ. unfold own_order. by rewrite E, N.eqb_refl. Qed.
Lemma wp_audit m d' w a id meta (Q : res unit -> world -> Prop) :
  calm_from m t d' w -> (forall w', calm_from m t d' w' -> Q (Ok tt) w') -> wp (auditCommerce s claims a id meta) Q w.
Proof.
  intros Hc HQ. pose proof (li_audit _ _ _ Hin) as Ha. unfold auditCommerce.
  destruct (dp_EnterpriseAudit s) as [f|]; [|wp_go; by apply HQ].
  apply wp_ignore. eapply wp_quiet; [by apply Ha|exact Hc|]. intros _ w' Hc'. by apply HQ.
Qed.
End Start.

(** ** Cash *)

Section Cash.
Context `{UuidText} `{UuidParse} `{Sha256} (s : MachineGRPCServicesDeps) (x : Externals) (cfg : CommerceConfig).
Context (ctx : CallContext) (claims : MachineAccessClaims) (r : ConfirmCashPaymentRequest).

Definition outbox_names : string * string * string :=
  (TrimSpace (cg_PaymentOutboxTopic cfg), TrimSpace (cg_PaymentOutboxEventType cfg), TrimSpace (cg_PaymentOutboxAggregateType cfg)).
(** What the service is asked to do; without single notes the time does not matter. *)
Definition cash_asked (wctx : machineMutationContext) (o : Order) (sim : simulationMeta) : ConfirmCashPaymentInput :=
  cash_input wctx claims (o_ID o) sim outbox_names 0 r.
(** The call is about an open order of the machine, in time, and the cash of it
    was not confirmed before ([cash_due]). *)
Record cash_call (wctx : machineMutationContext) (sim : simulationMeta) (o : Order) (allocated : Z)
    (consent : string) (n : N) (now : Z) (d : pgdb) : Prop := mk_cash_call {
  kc_in : let_in s x ctx claims (qc_Context r) wctx d;
  kc_order : uuid_Parse (TrimSpace (qc_OrderId r)) = Some (o_ID o);
  kc_window : now <= o_CreatedAt o + machineOrderCheckoutMaxAge s;
  kc_open : order_terminal (o_Status o) = false;
  kc_methods : evolves quiet (dp_machinePaymentMethods s (mac_MachineID claims)) /\
    forall w, exists v, (dp_machinePaymentMethods s (mac_MachineID claims) w).1 = Ok v /\ pm_CashEnabled v = true;
  kc_config : dp_Config s = Some cfg;
  kc_names : let '(a, b, c) := outbox_names in blank a || blank b || blank c = false;
  kc_simulation : cash_simulation s cfg claims o r = Ok sim;
  kc_due : cash_due x (cash_asked wctx o sim) o allocated consent n d }.
Definition cash_response (replay : bool) (o : Order) (pay : Payment) : ConfirmCashPaymentResponse :=
  mk_ConfirmCashPaymentResponse replay (uuid_String (p_ID pay)) (o_Status (claimed o (p_ID pay) 0)) "captured".

Lemma cash_input_now wctx o sim now :
  qc_CashAcceptanceEvents r = [] -> cash_input wctx claims (o_ID o) sim outbox_names now r = cash_asked wctx o sim.
Proof. intros E. unfold cash_asked, cash_input, outbox_names. by rewrite E. Qed.

Lemma wp_cash_call wctx sim o allocated consent n d w (Q : res ConfirmCashPaymentResponse -> world -> Prop) :
  calm_from n NoTx d w -> wf d -> cash_call wctx sim o allocated consent n (w_now w) d ->
  (forall pay ob al led now d' w', calm NoTx d' w' ->
     cash_paid (cash_asked wctx o sim) o allocated consent pay ob al led now d d' ->
     Q (Ok (cash_response false o pay)) w') ->
  wp (ConfirmCashPayment s ctx r) Q w.
Proof.
  intros Hc Hw [Hin Hid Hwin Hopen [Hmq Hm] Hcfg Hnames Hsim Hdue] HQ.
  pose proof (ch_order _ _ _ _ _ _ _ Hdue) as Ho. pose proof (ch_machine _ _ _ _ _ _ _ Hdue : o_MachineID o = mac_MachineID claims) as Em.
  destruct (ch_ids _ _ _ _ _ _ _ Hdue) as (Hon & Hmn & _).
  change (o_ID o <> uuid_Nil) in Hon. change (mac_MachineID claims <> uuid_Nil) in Hmn.
  assert (Hev : qc_CashAcceptanceEvents r = []) by (eapply map_eq_nil, (ch_no_events _ _ _ _ _ _ _ Hdue)).
  unfold ConfirmCashPayment. wp_go. eapply (wp_enter s x ctx claims Hin); [exact Hc|done|].
  clear Hc. intros w1 Hc Hn1. wp_go. unfold order_id_of. rewrite Hid.
  rewrite (proj2 (N.eqb_neq _ _) Hon). wp_go.
  eapply (wp_accessed x claims); [exact Hc|done|done|exact Ho|done|congruence|].
  clear Hc. intros w2 Hc Hn2. wp_go.
  apply wp_window; [lia|]. wp_go. apply wp_open; [done|]. wp_go. apply wp_own; [done|]. wp_go.
  destruct (Hm w2) as (v & Ev & Hcash). unfold wp at 1.
  destruct (dp_machinePaymentMethods s (mac_MachineID claims) w2) as [rv w3] eqn:Er. cbn [fst snd] in Ev |- *. subst rv.
  pose proof (Hmq w2 n NoTx d Hc) as Hc3. rewrite Er in Hc3. cbn [snd] in Hc3. clear Hc. rename Hc3 into Hc.
  rewrite Hcash. cbn [negb]. wp_go. unfold need_config. rewrite Hcfg. wp_go. unfold payment_outbox.
  fold outbox_names. unfold outbox_names in Hnames. cbv zeta. rewrite Hnames. wp_go. rewrite Hsim. wp_go.
  eapply wp_time_Now; [exact Hc|]. intros now. wp_go. apply wp_mapping. fold outbox_names.
  rewrite cash_input_now by done.
  eapply wp_confirm_cash; [exact Hc|done|exact Hdue|]. clear Hc. intros pay ob al led paid d' w4 Hc _ Hp. wp_go.
  cbn [ccr_Replay ccr_Payment ccr_Order].
  eapply (wp_audit s x ctx claims Hin); [exact Hc|]. intros w5 Hc5. wp_go.
  destruct (cp_payment _ _ _ _ _ _ _ _ _ _ _ Hp) as (Est & _).
  unfold cash_response in HQ. rewrite <- Est in HQ. by eapply HQ.
Qed.

(** The ledger's rows are no concern of a payment. *)
Lemma cash_call_begun wctx sim o allocated consent n now d f :
  cash_call wctx sim o allocated consent n now d -> cash_call wctx sim o allocated consent n now (set_mutations f d).
Proof.
  intros [[] ? ? ? ? ? ? ? [? ? ? ? ? ? ? ? ? ? ? ? ? ? ? [] ?]]. split; try done.
Qed.
Lemma cash_paid_begun i o allocated consent pay ob al led now d d' f :
  cash_paid i o allocated consent pay ob al led now (set_mutations f d) d' ->
  cash_paid i o allocated consent pay ob al led now d (set_mutations (fun _ => d_mutations d) d').
Proof.
  intros [? ? ? ? ? ? ? ? ? ? ? (? & ? & ? & ? & ? & ? & ?) (? & ? & ? & ? & ? & ? & Hm & ?)].
  split; try done. split_and!; try done. cbn. rewrite Hm. by destruct d as [? ? ? ? ? ? ? ? ? ? ? ? ? ? ? ? ? ? ? [] ?].
Qed.
Lemma decorated_cash o pay :
  decorated machine_replay_config (cash_answer (cash_response false o pay)) = cash_answer (cash_response true o pay).
Proof. reflexivity. Qed.

End Cash.

(** ** A vend that succeeded *)

(** The vend of a slot keeps its first correlation. *)
Definition touched_db (order : N) (slot : Z) (corr : option N) (d : pgdb) : pgdb :=
  match corr with
  | Some c => if c =u uuid_Nil then d else set_vends (update_where (by_slot order slot) (vend_touched c)) d
  | None => d
  end.
Lemma touched_wf order slot corr d : wf d -> wf (touched_db order slot corr d).
Proof.
  intros Hw. unfold touched_db. destruct corr as [c|]; [|done]. destruct (c =u uuid_Nil); [done|].
  by eapply (vends_updated_safe (by_slot order slot) (vend_touched c) d).
Qed.
Lemma vend_at_touched order slot corr o sl line d v :
  vend_at o sl line d = Some v ->
  exists v', vend_at o sl line (touched_db order slot corr d) = Some v' /\ vr_Session v' = vr_Session v.
Proof.
  intros Hv. unfold touched_db. destruct corr as [c|]; [|by exists v]. destruct (c =u uuid_Nil); [by exists v|].
  rewrite vend_at_key in Hv |- *.
  change (d_vends (set_vends (update_where (by_slot order slot) (vend_touched c)) d))
    with (update_where (by_slot order slot) (vend_touched c) (d_vends d)).
  rewrite find_update_where by (intros y; unfold vend_key; by destruct (0 <? line)). rewrite Hv. cbn.
  destruct (by_slot order slot v); by eexists.
Qed.
Lemma authoritative_touched order slot corr o d : authoritative o (touched_db order slot corr d) = authoritative o d.
Proof. unfold touched_db. destruct corr as [c|]; [|done]. by destruct (c =u uuid_Nil). Qed.
Lemma orders_touched order slot corr d : d_orders (touched_db order slot corr d) = d_orders d.
Proof. unfold touched_db. destruct corr as [c|]; [|done]. by destruct (c =u uuid_Nil). Qed.
Lemma wp_touch order slot corr n d w (Q : res unit -> world -> Prop) :
  calm_from n NoTx d w ->
  (forall w', calm_from n NoTx (touched_db order slot corr d) w' -> Q (Ok tt) w') ->
  wp (touch order slot corr) Q w.
Proof.
  intros Hc HQ. unfold touch, touched_db in *. destruct corr as [c|]; [|wp_go; by apply HQ].
  apply wp_ignore. unfold TouchVendSessionCorrelation. destruct (c =u uuid_Nil); [wp_go; by apply HQ|].
  eapply wp_stmt; [exact Hc|done|..]; intros now id; [intros a d' w' _ [= <- <-] Hc'; by apply HQ|done|done].
Qed.

Section Success.
Context `{UuidText} `{UuidParse} `{Sha256} (s : MachineGRPCServicesDeps) (x : Externals).
Context (ctx : CallContext) (claims : MachineAccessClaims) (r : ConfirmVendSuccessRequest).

Lemma wp_checkout_status o slot line v n t d w (Q : res CheckoutStatusView -> world -> Prop) :
  calm_from n t d w -> t <> Aborted -> wf d -> o ∈ d_orders d -> vend_at (o_ID o) slot line d = Some v ->
  (forall w', calm_from n t d w' ->
     Q (Ok (mk_CheckoutStatusView o (Some (vr_Session v)) (authoritative (o_ID o) d))) w') ->
  wp (checkout_status (service x) (o_ID o) slot line) Q w.
Proof.
  intros Hc Ht Hw Ho Hv HQ. unfold checkout_status. apply wp_mapping.
  assert (Hread : forall slot line, vend_at (o_ID o) slot line d = Some v ->
    wp (getCheckoutStatus (service x) uuid_Nil (o_ID o) slot line)
      (fun r w' => Q (match r with Ok a => Ok a | Err e => Err (mapCommerceGRPCErr e) end) w') w).
  { clear slot line Hv. intros slot line Hv. unfold getCheckoutStatus. wp_service.
    eapply wp_order_by_id; [exact Hc|done..|]. intros w1 Hc1. wp_go. apply wp_guard; [done|intros _]. wp_go.
    eapply wp_lookup_vend; [exact Hc1|done|exact Hv|]. intros w2 Hc2. wp_go.
    eapply wp_payment_if_any; [exact Hc2|done|]. intros w3 Hc3. wp_go. by apply HQ. }
  unfold GetCheckoutStatusByLineSequence, GetCheckoutStatus. destruct (0 <? line) eqn:El; apply Hread.
  - unfold vend_at in *. by rewrite El in *.
  - unfold vend_at in *. by rewrite El in Hv.
Qed.

(** What the store is asked to do. *)
Definition success_asked (wctx : machineMutationContext) (o : Order) (corr : option N)
    (evidence : option VendHardwareEvidence) (vstatus : string) : FulfillSuccessfulVendInput :=
  let i := success_finalize s (o_ID o) (qy_SlotIndex r) (qy_LineSequence r) (TrimSpace (mm_IdempotencyKey wctx))
             corr evidence vstatus in
  mk_FulfillSuccessfulVendInput (fi_OrderID i) (fi_SlotIndex i) (fi_LineSequence i)
    (inventory_dedupe_key i) (fi_CorrelationID i) (fi_Evidence i) (fi_VerificationStatus i)
    (fi_OutboxTopic i) (fi_OutboxEventType i) (fi_OutboxAggregateType i)
    (fi_OutboxIdempotencyKey i) (fi_ReconciliationEventType i).
Definition status_view (o : Order) (v : VendRow) (d : pgdb) : CheckoutStatusView :=
  mk_CheckoutStatusView o (Some (vr_Session v)) (authoritative (o_ID o) d).
(** The tables when the store is asked. *)
Definition reported_db (o : Order) (corr : option N) (evidence : option VendHardwareEvidence) (d : pgdb) : pgdb :=
  touched_db (o_ID o) (qy_SlotIndex r) (evidence_corr corr evidence) d.
(** The report is about a vend in progress of an order of the machine, in
    time, and the sale is due ([success_due]). *)
Record vend_call (wctx : machineMutationContext) (o : Order) (v : VendRow) (pay : Payment) (snap : MachineSlotRow)
    (corr : option N) (evidence : option VendHardwareEvidence) (vstatus : string) (now : Z) (d : pgdb) : Prop := mk_vend_call {
  vc_in : let_in s x ctx claims (qy_Context r) wctx d;
  vc_ids : o_ID o <> uuid_Nil /\ o_MachineID o <> uuid_Nil;
  vc_order : uuid_Parse (TrimSpace (qy_OrderId r)) = Some (o_ID o);
  vc_corr : optional_id (default "" (qy_CorrelationId r)) (invalid "invalid correlation_id") = Ok corr;
  vc_own : o_MachineID o = mac_MachineID claims;
  vc_window : now <= o_CreatedAt o + machineOrderCheckoutMaxAge s;
  vc_vend : vend_at (o_ID o) (qy_SlotIndex r) (qy_LineSequence r) d = Some v;
  vc_verdict : resolveVendEvidenceFromRequest (qy_Evidence r) corr (cash_flow (status_view o v d))
    (commerceRequireVendHardwareEvidence s (mac_MachineID claims)) true (authorized_amount (status_view o v d))
    = Ok (evidence, vstatus);
  vc_due : exists v', vr_Session v' = vr_Session v /\
    success_due (success_asked wctx o corr evidence vstatus) o v' pay snap (reported_db o corr evidence d) }.

Lemma success_finalize_fields o slot line key corr evidence vstatus :
  let i := success_finalize s o slot line key corr evidence vstatus in
  fi_OrderID i = o /\ fi_SlotIndex i = slot /\ fi_LineSequence i = line /\ fi_TerminalVendState i = "success".
Proof. cbn zeta. unfold success_finalize. by destruct (machineCommerceVendOutboxConfig s) as [[[[? ?] ?] ?] ?]. Qed.
Lemma wp_finalize_success i v' fo o pay snap n d w (Q : res FinalizeOutcome -> world -> Prop) :
  calm_from n NoTx d w -> wf d -> o_ID o <> uuid_Nil -> fi_OrderID i = o_ID o -> fi_TerminalVendState i = "success" ->
  fo = mk_FulfillSuccessfulVendInput (fi_OrderID i) (fi_SlotIndex i) (fi_LineSequence i)
    (inventory_dedupe_key i) (fi_CorrelationID i) (fi_Evidence i) (fi_VerificationStatus i)
    (fi_OutboxTopic i) (fi_OutboxEventType i) (fi_OutboxAggregateType i)
    (fi_OutboxIdempotencyKey i) (fi_ReconciliationEventType i) ->
  success_due fo o v' pay snap d ->
  (forall now now' d' w', fulfilled fo o v' pay snap now now' d d' -> calm_from n NoTx d' w' ->
    Q (Ok (mk_FinalizeOutcome (settled_order o now' (vend_db (fs_OrderID fo) (fs_SlotIndex fo) (fs_LineSequence fo) "success" None now d))
             (session_with (vr_Session v') "success") false false)) w') ->
  wp (FinalizeOrderAfterVend (service x) i) Q w.
Proof.
  intros Hc Hw Hn Eo Et Efo Hdue HQ. unfold FinalizeOrderAfterVend. wp_service.
  apply wp_guard; [rewrite Eo; by intros E%N.eqb_eq|intros _]. wp_go. apply wp_guard; [by rewrite Et|intros _].
  wp_service. eapply wp_order_by_id; [exact Hc|done|done|exact (sd_order _ _ _ _ _ _ Hdue)|by rewrite Eo|].
  intros w1 Hc1. wp_go.
  pose proof (sd_vend _ _ _ _ _ _ Hdue) as Hv. rewrite Efo in Hv. cbn in Hv.
  eapply wp_lookup_vend; [exact Hc1|done|exact Hv|]. intros w2 Hc2. wp_go. rewrite Et.
  change (EqualFold "success" "success") with true. cbn beta iota. unfold finalize_success. wp_service. rewrite <- Efo.
  eapply wp_fulfil_success; [exact Hc2|done|exact Hdue|]. intros now now' d' w3 Hf Hc3. wp_go. by eapply HQ.
Qed.

Lemma wp_touch_evidence o slot corr evidence n d w (Q : res unit -> world -> Prop) :
  calm_from n NoTx (touched_db o slot corr d) w ->
  (forall w', calm_from n NoTx (touched_db o slot (evidence_corr corr evidence) d) w' -> Q (Ok tt) w') ->
  wp (touch_evidence o slot corr evidence) Q w.
Proof.
  intros Hc HQ. unfold touch_evidence. destruct corr as [c|]; [apply wp_ret; by apply HQ|].
  destruct evidence as [e|]; [|apply wp_ret; by apply HQ].
  apply (wp_touch o slot (Some (ev_CorrelationID e)) n d); [exact Hc|exact HQ].
Qed.
(** The answer of a first report. *)
Definition success_response (replay : bool) (o : Order) (status : string) : VendSuccessResponse :=
  mk_VendSuccessResponse replay false (uuid_String (o_ID o)) status "success".

Lemma wp_vend_call wctx o v pay snap corr evidence vstatus n d w (Q : res VendSuccessResponse -> world -> Prop) :
  calm_from n NoTx d w -> wf d -> vend_call wctx o v pay snap corr evidence vstatus (w_now w) d ->
  (forall v' status now now' d' w', calm_from n NoTx d' w' ->
     fulfilled (success_asked wctx o corr evidence vstatus) o v' pay snap now now' (reported_db o corr evidence d) d' ->
     status = o_Status (settled_order o now' (vend_db (o_ID o) (qy_SlotIndex r) (qy_LineSequence r) "success" None now (reported_db o corr evidence d))) ->
     Q (Ok (success_response false o status)) w') ->
  wp (ConfirmVendSuccess s ctx r) Q w.
Proof.
  intros Hc Hw [Hin (Hon & Hmn) Hid Hcorr Hown Hwin Hv Hver (v1 & Ev1 & Hdue)] HQ.
  assert (Ho : o ∈ d_orders d).
  { pose proof (sd_order _ _ _ _ _ _ Hdue) as Ho. unfold reported_db in Ho. by rewrite orders_touched in Ho. }
  assert (Hprog : v_State (vr_Session v) = "in_progress") by (rewrite <- Ev1; apply (sd_state _ _ _ _ _ _ Hdue)).
  unfold ConfirmVendSuccess. wp_go. eapply (wp_enter s x ctx claims Hin); [exact Hc|done|].
  clear Hc. intros w1 Hc Hn1. wp_go. unfold order_id_of. rewrite Hid, (proj2 (N.eqb_neq _ _) Hon). wp_go.
  rewrite Hcorr. wp_go. unfold confirmVendSuccess, reported_order. wp_go.
  eapply (wp_accessed x claims); [exact Hc|done|done|exact Ho|done|done|].
  clear Hc. intros w2 Hc Hn2. wp_go. apply wp_own; [done|]. wp_go. apply wp_window; [lia|]. wp_go.
  eapply wp_touch; [exact Hc|]. clear Hc. intros w3 Hc. wp_go. unfold started_status. wp_go.
  destruct (vend_at_touched (o_ID o) (qy_SlotIndex r) corr _ _ _ _ _ Hv) as (v2 & Hv2 & Ev2).
  eapply wp_checkout_status; [exact Hc|done|by apply touched_wf|by rewrite orders_touched|exact Hv2|].
  clear Hc. intros w4 Hc. wp_go. rewrite authoritative_touched, Ev2. fold (status_view o v d).
  assert (Hst : v_State (vend_of (status_view o v d)) = "in_progress") by exact Hprog.
  rewrite Hst. change (String.eqb "in_progress" "pending") with false. cbn [andb]. wp_go. rewrite Hst.
  change (String.eqb "in_progress" "in_progress") with true. cbn [negb]. wp_go. apply wp_mapping, wp_lift.
  rewrite Hver. wp_go. eapply wp_touch_evidence; [exact Hc|]. clear Hc. intros w5 Hc. wp_go. apply wp_mapping.
  fold (reported_db o corr evidence d) in Hc.
  destruct (success_finalize_fields (o_ID o) (qy_SlotIndex r) (qy_LineSequence r)
    (TrimSpace (mm_IdempotencyKey wctx)) corr evidence vstatus) as (Ei & Esl & Eln & Et).
  eapply wp_finalize_success; [exact Hc|by apply touched_wf|exact Hon|exact Ei|exact Et|reflexivity|exact Hdue|].
  clear Hc. intros now now' d' w6 Hf Hc. cbn [fs_OrderID fs_SlotIndex fs_LineSequence]. rewrite Ei, Esl, Eln. wp_go.
  cbn [fo_OrderVendReplay fo_InventoryReplay andb fo_Order fo_Vend].
  eapply (wp_audit s x ctx claims Hin); [exact Hc|]. intros w7 Hc7. wp_go.
  set (d1 := vend_db _ _ _ _ _ _ _). assert (Eid : o_ID (settled_order o now' d1) = o_ID o).
  { unfold settled_order. by destruct (settled_status o d1). }
  rewrite Eid. by eapply (HQ v1 _ now now' d' w7 Hc7 Hf).
Qed.

(** The ledger's rows are no concern of a vend. *)
Lemma reported_begun o corr evidence d f :
  reported_db o corr evidence (set_mutations f d) = set_mutations f (reported_db o corr evidence d).
Proof. unfold reported_db, touched_db. destruct (evidence_corr corr evidence) as [c|]; [|done]. by destruct (c =u uuid_Nil). Qed.
Lemma success_due_begun fo o v pay snap d f : success_due fo o v pay snap d -> success_due fo o v pay snap (set_mutations f d).
Proof.
  intros [? ? ? ? ? ? ? ? ? ? ? ? Hl ? ?]. split; try done. intros now. destruct (Hl now). by split.
Qed.
Lemma fulfilled_begun fo o v pay snap now now' d d' f :
  fulfilled fo o v pay snap now now' (set_mutations f d) d' ->
  fulfilled fo o v pay snap now now' d (set_mutations (fun _ => d_mutations d) d').
Proof.
  intros [? Hor ? ? ? ? Hob ? ? ? ? Hca Hev ?]. split; try done.
  - change (d_orders (set_mutations _ d')) with (d_orders d'). rewrite Hor. unfold settle_db.
    change (settled_status o (vend_db (fs_OrderID fo) (fs_SlotIndex fo) (fs_LineSequence fo) "success" None now (set_mutations f d)))
      with (settled_status o (vend_db (fs_OrderID fo) (fs_SlotIndex fo) (fs_LineSequence fo) "success" None now d)).
    by destruct (settled_status o _).
  - destruct Hob as (t & id & t' & id' & E). exists t, id, t', id'.
    destruct (events_db_set fo o v t id t' id' d) as (g & Eg & Hg).
    rewrite Eg. change (d_outbox d' = g (d_outbox d)). rewrite E. by apply Hg.
  - destruct Hca as (t & id & E). exists t, id. destruct (doubt_db_set fo o v t id d) as (g & Eg & Hg).
    rewrite Eg. change (d_cases d' = g (d_cases d)). rewrite E. by apply Hg.
  - destruct Hev as (id & E). exists id. destruct (evidence_db_set (success_evidence fo o v) id d) as (g & Eg & Hg).
    rewrite Eg. change (d_evidences d' = g (d_evidences d)). rewrite E. by apply Hg.
Qed.
Lemma decorated_success o status :
  decorated machine_replay_config (vend_success_answer (success_response false o status)) =
  vend_success_answer (success_response true o status).
Proof. reflexivity. Qed.
Lemma vend_call_begun wctx o v pay snap corr evidence vstatus now d f :
  vend_call wctx o v pay snap corr evidence vstatus now d ->
  vend_call wctx o v pay snap corr evidence vstatus now (set_mutations f d).
Proof.
  intros [[] ? ? ? ? ? ? ? (v' & ? & ?)]. split; try done. exists v'. split; [done|].
  rewrite reported_begun. by apply success_due_begun.
Qed.

Lemma settled_known o now d d1 : wf d -> o ∈ d_orders d -> o_Status (settled_order o now d1) ∈ orderStatuses.
Proof.
  intros Hw Ho. unfold settled_order. destruct (settled_status o d1) as [st|] eqn:E.
  - cbn. unfold settled_status in E. destruct (multiLineOrderHasOpenVendLines _); [done|].
    destruct (String.eqb _ _); [done|]. injection E as <-. apply one_of_spec, resolved_is_status.
  - by apply (wo_status _ _ (wf_o _ Hw)).
Qed.

(** C12: the success of a vend, reported through the ledger and reported again (by either name of
    the method, with other volatile fields): the first call does what is due once ([fulfilled]: vend
    closed, order settled, one item out of stock, the money booked, the evidence stored, the doubt
    recorded when there is one), on the tables with the correlation of the report; the second is
    given the same answer marked as a replay, and nothing but the ledger's row changes again. *)
Theorem vend_call_sells_once `{ProtoCodec} `{!ProtoCodecLaws _} l key1 key2 hash ctx2 c2 wctx o v pay snap corr evidence
    vstatus n d w :
  (forall f a, lg_audit l = Some f -> evolves quiet (f a)) ->
  taken_up machine_replay_config ctx claims (rpc_method (RpcConfirmVendSuccess r)) (vend_success_proto r) key1 hash ->
  taken_up machine_replay_config ctx2 claims (rpc_method c2) (rpc_request c2) key2 hash ->
  resends machine_replay_config (rpc_method (RpcConfirmVendSuccess r)) key1 (rpc_method c2) key2 ->
  calm_from n NoTx d w -> wf d -> mac_MachineID claims ∈ tp_Machines (d_topo d) ->
  ~ recorded d (mac_MachineID claims, rpc_method (RpcConfirmVendSuccess r), TrimSpace key1) ->
  (forall status, status ∈ orderStatuses -> exists text, column_text (vend_success_answer (success_response false o status)) text) ->
  vend_call wctx o v pay snap corr evidence vstatus (w_now w) d ->
  wp (twice l machine_replay_config (rpc_call s (ctx, RpcConfirmVendSuccess r)) (rpc_call s (ctx2, c2)))
    (fun res w' => exists v' status now now' d' f,
       res = Ok (Some (vend_success_answer (success_response false o status)),
                 Some (vend_success_answer (success_response true o status))) /\
       fulfilled (success_asked wctx o corr evidence vstatus) o v' pay snap now now' (reported_db o corr evidence d) d' /\
       calm NoTx (set_mutations f d') w') w.
Proof.
  intros Ha H1' H2' Hre Hc Hw Hm Hnew Htext Hcall.
  set (answers := fun (m : proto) d2 => exists v' status now now', m = vend_success_answer (success_response false o status) /\
    fulfilled (success_asked wctx o corr evidence vstatus) o v' pay snap now now' (reported_db o corr evidence d)
      (set_mutations (fun _ => d_mutations (reported_db o corr evidence d)) d2)).
  eapply wp_mono; [|eapply (wp_answered_again l machine_replay_config n claims) with (answers := answers); try done].
  - intros res w' (m & d2 & f & -> & (v' & status & now & now' & -> & Hp) & Hc').
    exists v', status, now, now', (set_mutations (fun _ => d_mutations (reported_db o corr evidence d)) d2), (fun _ => f (d_mutations d2)).
    by rewrite decorated_success.
  - intros id expires w1 Hnow Hc1. apply wp_fmap, wp_fmap.
    eapply wp_vend_call; [exact Hc1| |rewrite Hnow; by apply vend_call_begun|].
    + apply begun_wf; [done|by apply find_unrecorded|done].
    + intros v' status now now' d' w' Hc' Hp Est. destruct (Htext status) as [text Ht].
      { rewrite Est. eapply settled_known; [exact Hw|]. destruct Hcall as [_ _ _ _ _ _ _ _ (v1 & _ & Hdue)].
        pose proof (sd_order _ _ _ _ _ _ Hdue) as Ho. unfold reported_db in Ho. by rewrite orders_touched in Ho. }
      exists (vend_success_answer (success_response false o status)), text, d'. split_and!; try done.
      * exists v', status, now, now'. split; [done|]. unfold begun_db in Hp. rewrite reported_begun in Hp.
        by apply fulfilled_begun in Hp.
      * apply (calm_weaken n); [lia|exact Hc'].
      * rewrite (fl_mutations _ _ _ _ _ _ _ _ _ Hp). unfold reported_db, touched_db.
        destruct (evidence_corr corr evidence) as [c|]; [|done]. by destruct (c =u uuid_Nil).
Qed.
End Success.
