(* ===== verification/MachineSteps.v ===== *)
(** * A machine sells

    A concrete server and its calls, and the theorems of MachineCommerceLaws
    and MachineSales there. *)

From S2P Require Import Prelude.
From S2P Require Import GoStd.
From S2P Require Import JsonText.
From S2P Require Import Protobuf.
From S2P Require Import Pricing.
From S2P Require Import CommerceTypes.
From S2P Require Import Evidence.
From S2P Require Import Texts.
From S2P Require Import Rules.
From S2P Require Import CommerceService.
From S2P Require Import ServiceLaws.
From S2P Require Import Db.
From S2P Require Import Queries.
From S2P Require Import MachineIdempotency.
From S2P Require Import MachineReplay.
From S2P Require Import History.
From S2P Require Import PgCommerce.
From S2P Require Import Quotes.
From S2P Require Import MachineMessages.
From S2P Require Import MachineCommerce.
From S2P Require Import StoreLaws.
From S2P Require Import Logic.
From S2P Require Import QuoteLaws.
From S2P Require Import Backend.
From S2P Require Import Scenario.
From S2P Require Import Orders.
From S2P Require Import Requests.
From S2P Require Import MutationLaws.
From S2P Require Import CashSales.
From S2P Require Import OfflineSteps.
From S2P Require Import Stock.
From S2P Require Import Vends.
From S2P Require Import SaleSteps.
From S2P Require Import MutationSteps.
From S2P Require Import MachineCommerceLaws.
From S2P Require Import MachineSales.
Local Open Scope string_scope.
Local Open Scope list_scope.
Local Open Scope Z_scope.

#[local] Existing Instance decimal_uuid.
#[local] Existing Instance decimal_parse.
#[local] Existing Instance length_sha256.

(** ** The server *)

Definition demo_config : CommerceConfig :=
  mk_CommerceConfig 0 "payments" "payment.captured" "payment" "vends" "vend.succeeded" "vend.failed"
    "vend.reconcile" "order" false [] "test".
Definition demo_deps : MachineGRPCServicesDeps :=
  mk_MachineDeps (Some (service (demo_externals true))) (Some pg_quotes) demo_carts true (Some demo_config) None
    (fun _ => ret (mk_PaymentMethodsView true true)) (fun _ => ret "M1") "".
Lemma demo_deps_laws R `{!Statement_rel safe R} : DepsLaws R demo_deps.
Proof.
  pose proof (demo_externals_laws true R). split; cbn; try done.
  - intros svc [= <-]. apply _.
  - intros q [= <-]. apply _.
  - apply (@el_carts (demo_externals true) R _).
  - intros m. apply evolves_ret, _.
  - intros m. apply evolves_ret, _.
Qed.
Definition from_machine (m : N) : CallContext :=
  mk_CallContext (Some (mk_MachineAccessClaims m 1)) (Some (mk_GateSnapshot "online" 1 false)) (Some "req-1") [] None.
Definition keyed (key event : string) : option IdempotencyContext :=
  Some (mk_IdempotencyContext key event (Some (mk_Timestamp 0 0)) None).
Definition cash_request (key event : string) : ConfirmCashPaymentRequest :=
  mk_ConfirmCashPaymentRequest (keyed key event) "500" None 1500 1080 0 0 0 0 "" "implicit_post_order" None "usd" [].
Definition success_report (key event : string) : ConfirmVendSuccessRequest :=
  mk_ConfirmVendSuccessRequest (keyed key event) "500" 3 None None 0.

(** A codec for the answers with one text that varies. *)
Definition enclosed (x : string) : string := String (byte_of 34) (x +:+ String (byte_of 34) "").
Definition one_text (f : string -> proto) (get : proto -> string) : ProtoCodec := {|
  proto_Marshal m := Ok (s2l (render (pm_value m)));
  protojson_Marshal m :=
    let text := enclosed (get m) in
    if decide (m = f (get m)) then
      if decide (TrimSpace text = text /\ json_parse text <> None) then Ok text else Err (ENew "invalid UTF-8")
    else Err (ENew "unknown message");
  protojson_Unmarshal t s :=
    let x := String.substring 1 (String.length s - 2) s in
    if String.eqb t (pm_type (f x)) then Ok (f x) else Err (ENew "unexpected token");
  jsonb_text s := Ok s |}.
Lemma substring_app a b : String.substring 0 (String.length a) (a +:+ b) = a.
Proof. induction a as [|c a IH]; [by destruct b|]. exact (f_equal (String c) IH). Qed.
Lemma between_quotes x : String.substring 1 (String.length (enclosed x) - 2) (enclosed x) = x.
Proof.
  unfold enclosed. cbn [String.length]. assert (E : String.length (x +:+ String (byte_of 34) "") = S (String.length x)).
  { induction x as [|c x IH]; [done|]. exact (f_equal S IH). }
  rewrite E. cbn [Nat.sub]. rewrite Nat.sub_0_r. cbn [String.substring]. apply substring_app.
Qed.
Lemma one_text_laws f get : ProtoCodecLaws (one_text f get).
Proof.
  split; intros m text; unfold column_text, protojson_Marshal; cbn -[enclosed];
    (destruct (decide (m = f (get m))) as [E|]; [|by try intros [? _]]);
    (destruct (decide _) as [[Ht Hj]|]; [|by try intros [? _]]).
  - intros [= <-]. split_and!; [done..|]. by destruct (json_parse _) as [j|]; [exists j|].
  - intros [[= <-] _]. exists (enclosed (get m)). split; [done|]. split; [done|]. rewrite between_quotes, <- E.
    by rewrite String.eqb_refl.
Qed.

(** The decimal digits are a JSON string. *)
Lemma digits_step c acc st : is_digit c = true -> step c (ScStr false acc, st) = Some (ScStr false (SByte c :: acc), st).
Proof.
  unfold is_digit. intros [H1%N.leb_le H2%N.leb_le]%andb_true_iff. cbn [step]. unfold code.
  assert (Hc : (48 <= Z.of_N (N_of_ascii c) <= 57)) by lia.
  rewrite (proj2 (Z.eqb_neq _ 34)) by lia.
  destruct (is_char c "\") eqn:Eb.
  - unfold is_char in Eb. by destruct c as [[] [] [] [] [] [] [] []].
  - by rewrite (proj2 (Z.ltb_ge _ 32)) by lia.
Qed.
Lemma digits_run l : forall acc st rest, forallb is_digit l = true ->
  run (l ++ rest) (ScStr false acc, st) = run rest (ScStr false (rev (map SByte l) ++ acc), st).
Proof.
  induction l as [|c l IH]; intros acc st rest; [done|]. cbn [forallb]. intros [Hc Hl]%andb_true_iff.
  cbn [app run]. rewrite digits_step by done. rewrite IH by done. cbn. by rewrite <- app_assoc.
Qed.
Lemma pretty_digits (n : N) : forallb is_digit (s2l (pretty n)) = true.
Proof.
  assert (Hgo : forall n s, forallb is_digit (s2l s) = true -> forallb is_digit (s2l (pretty_N_go n s)) = true).
  { clear n. intros n. induction n as [n IH] using (well_founded_ind N.lt_wf_0). intros s Hs.
    destruct (decide (n = 0%N)) as [->|Hn]; [by rewrite pretty_N_go_0|].
    rewrite pretty_N_go_step by lia. apply IH; [apply N.div_lt; lia|].
    change (is_digit (pretty_N_char (n `mod` 10)) && forallb is_digit (s2l s) = true). rewrite Hs, andb_true_r.
    pose proof (N.mod_lt n 10 ltac:(done)) as Hm. generalize dependent (n `mod` 10)%N. intros k Hk.
    assert (Hl : forall j, (j < 10)%nat -> is_digit (pretty_N_char (N.of_nat j)) = true)
      by (intros j Hj; do 10 (destruct j as [|j]; [done|]); lia).
    rewrite <- (N2Nat.id k). apply Hl. lia. }
  unfold pretty, pretty_N. destruct (decide _); [done|]. by apply Hgo.
Qed.
(** A text that a JSON string can hold as it is. *)
Definition plain_text (x : string) : Prop :=
  TrimSpace (enclosed x) = enclosed x /\ json_parse (enclosed x) <> None /\ jsonb_takes (enclosed x) = true.
Lemma no_escape s : forallb (fun c => negb (is_char c "\")) (s2l s) = true -> jsonb_takes s = true.
Proof.
  unfold jsonb_takes. intros Hs. apply negb_true_iff. induction s as [|c s IH]; [done|].
  cbn [s2l forallb] in Hs. apply andb_true_iff in Hs as [Hc Hs]. cbn [Contains]. rewrite (IH Hs), orb_false_r.
  cbn [String.prefix]. destruct (ascii_dec _ c) as [<-|]; [by vm_compute in Hc|done].
Qed.
Lemma enclosed_trimmed x : TrimSpace (enclosed x) = enclosed x.
Proof.
  assert (E : s2l (enclosed x) = byte_of 34 :: s2l x ++ [byte_of 34]).
  { change (s2l (enclosed x)) with (byte_of 34 :: s2l (x +:+ String (byte_of 34) "")). by rewrite s2l_app. }
  assert (Hq : solid (byte_of 34)) by (unfold solid; cbn; lia).
  apply TrimSpace_id; rewrite E.
  - by destruct (s2l x ++ [byte_of 34]) as [|? [|]].
  - rewrite app_comm_cons, rev_app_distr. by apply solid_ends.
Qed.
Lemma digits_plain (n : N) : plain_text (pretty n).
Proof.
  assert (E : s2l (enclosed (pretty n)) = byte_of 34 :: s2l (pretty n) ++ [byte_of 34]).
  { change (s2l (enclosed (pretty n))) with (byte_of 34 :: s2l (pretty n +:+ String (byte_of 34) "")). by rewrite s2l_app. }
  pose proof (pretty_digits n) as Hd. split; [apply enclosed_trimmed|]. split.
  - unfold json_parse. rewrite E. change (run (byte_of 34 :: ?l) (ScValue, [])) with (run l (ScStr false [], [])).
    by rewrite digits_run.
  - apply no_escape. rewrite E. cbn [forallb]. rewrite forallb_app. apply andb_true_iff. split; [done|].
    apply andb_true_iff. split; [|done]. rewrite forallb_forall in Hd |- *. intros c Hc. apply Hd in Hc.
    unfold is_char. destruct (Ascii.eqb_spec c "\"%char) as [->|]; [by vm_compute in Hc|done].
Qed.

Lemma one_text_carries f get x : get (f x) = x -> plain_text x ->
  exists text, column_text (H := one_text f get) (f x) text.
Proof.
  intros Hg (Ht & Hp & Hj). exists (enclosed x). split; [|exact Hj].
  unfold protojson_Marshal. cbn -[enclosed]. rewrite Hg. by rewrite !decide_True.
Qed.

(** ** Cash *)

Definition paid_answer (p : string) : proto := cash_answer (mk_ConfirmCashPaymentResponse false p "paid" "captured").
Definition cash_codec : ProtoCodec :=
  one_text paid_answer (fun m => match pm_fields m with [_; (_, PString p); _; _] => p | _ => "" end).
Definition cash_hash : string := Eval vm_compute in
  match HashMutationRequest (H := cash_codec) (cash_proto (cash_request "c1" "e1")) with Ok h => h | Err _ => "" end.
Definition demo_wctx (key event : string) : machineMutationContext := mk_machineMutationContext key event (62135596800 * Second) None.
Definition no_simulation : simulationMeta := mk_simulationMeta false "" "" false false.
Lemma demo_let_in key event d :
  parseMachineMutationContext (from_machine 1) (keyed key event) = Ok (demo_wctx key event) ->
  let_in demo_deps (demo_externals true) (from_machine 1) (mk_MachineAccessClaims 1 1) (keyed key event) (demo_wctx key event) d.
Proof. intros Hp. by split. Qed.
Lemma demo_cash_call :
  cash_call demo_deps (demo_externals true) demo_config (from_machine 1) (mk_MachineAccessClaims 1 1)
    (cash_request "c1" "e1") (demo_wctx "c1" "e1") no_simulation demo_unpaid 1080 "implicit_post_order" 102
    (w_now demo_w1) (w_db demo_w1).
Proof.
  split.
  - apply demo_let_in. vm_compute. reflexivity.
  - vm_compute. reflexivity.
  - vm_compute. discriminate.
  - reflexivity.
  - split; [apply evolves_ret, _|]. intros w. by eexists.
  - reflexivity.
  - reflexivity.
  - vm_compute. reflexivity.
  - exact demo_cash_due.
Qed.
Lemma cash_taken_up event :
  taken_up (H0 := cash_codec) machine_replay_config (from_machine 1) (mk_MachineAccessClaims 1 1)
    (commerce_rpc "ConfirmCashPayment") (cash_proto (cash_request "c1" event)) "c1" cash_hash.
Proof. split; vm_compute; done. Qed.


(** ** A vend *)

Definition sold_answer (status : string) : proto := vend_success_answer (mk_VendSuccessResponse false false "500" status "success").
Definition sold_codec : ProtoCodec :=
  one_text sold_answer (fun m => match pm_fields m with [_; _; _; (_, PString p); _] => p | _ => "" end).
Definition sold_hash : string := Eval vm_compute in
  match HashMutationRequest (H := sold_codec) (vend_success_proto (success_report "w1" "e1")) with Ok h => h | Err _ => "" end.
Lemma demo_report_due :
  success_due (success_asked demo_deps (success_report "w1" "e1") (demo_wctx "w1" "e1") (order_in demo_w4) None None "hardware_unverified")
    (order_in demo_w4) (vend_in demo_w4) (payment_in demo_w4) (demo_snap demo_w4) (w_db demo_w4).
Proof.
  pose proof demo_rows as (_ & _ & _ & _ & _ & _ & _ & _ & Eo & _).
  split; [reflexivity|rewrite Eo; left|reflexivity|discriminate|reflexivity..|vm_compute; discriminate|reflexivity| |
    reflexivity|vm_compute; discriminate].
  intros now. split; [left|done| |reflexivity]. eexists. split; [reflexivity|]. by split_and!.
Qed.
Lemma demo_vend_call :
  vend_call demo_deps (demo_externals true) (from_machine 1) (mk_MachineAccessClaims 1 1) (success_report "w1" "e1")
    (demo_wctx "w1" "e1") (order_in demo_w4) (vend_in demo_w4) (payment_in demo_w4) (demo_snap demo_w4)
    None None "hardware_unverified" (w_now demo_w4) (w_db demo_w4).
Proof.
  split.
  - apply demo_let_in. vm_compute. reflexivity.
  - split; discriminate.
  - vm_compute. reflexivity.
  - reflexivity.
  - reflexivity.
  - vm_compute. discriminate.
  - reflexivity.
  - reflexivity.
  - exists (vend_in demo_w4). split; [done|exact demo_report_due].
Qed.
Lemma statuses_plain status : status ∈ orderStatuses -> plain_text status.
Proof.
  intros Hs. split; [apply enclosed_trimmed|].
  assert (Hall : forallb (fun st => negb (is_none (json_parse (enclosed st))) && jsonb_takes (enclosed st)) orderStatuses
                 = true) by (vm_compute; reflexivity).
  rewrite forallb_forall in Hall. apply list_elem_of_In, Hall, andb_true_iff in Hs as [Hs Hj].
  split; [by destruct (json_parse (enclosed status))|exact Hj].
Qed.
Lemma vend_call_sells_once_witness :
  let c1 := RpcConfirmVendSuccess (success_report "w1" "e1") in
  let c2 := RpcConfirmVendSuccess (success_report "w1" "e2") in
  wp (twice (H0 := sold_codec) demo_ledger machine_replay_config
        (rpc_call demo_deps (from_machine 1, c1)) (rpc_call demo_deps (from_machine 1, c2)))
    (fun res w' => (exists status, res = Ok (Some (vend_success_answer (success_response false (order_in demo_w4) status)),
         Some (vend_success_answer (success_response true (order_in demo_w4) status)))) /\
       exists d', calm NoTx d' w') demo_w4.
Proof.
  cbn zeta. eapply wp_mono; [|apply (vend_call_sells_once (H2 := sold_codec) (ProtoCodecLaws0 := one_text_laws _ _)
    demo_deps (demo_externals true) (from_machine 1) (mk_MachineAccessClaims 1 1) (success_report "w1" "e1")
    demo_ledger "w1" "w1" sold_hash (from_machine 1) (RpcConfirmVendSuccess (success_report "w1" "e2"))
    (demo_wctx "w1" "e1") (order_in demo_w4) (vend_in demo_w4) (payment_in demo_w4) (demo_snap demo_w4) None None
    "hardware_unverified" 0 (w_db demo_w4) demo_w4)].
  - intros r w' (v' & status & now & now' & d' & f & -> & _ & Hc). split; [by exists status|]. by eexists.
  - by intros f a [=].
  - split; vm_compute; done.
  - split; vm_compute; done.
  - by split.
  - by split.
  - apply demo_w_wf.
  - left.
  - by intros (r & ?%elem_of_nil & _).
  - intros status Hs. by apply (one_text_carries sold_answer _ status), statuses_plain.
  - exact demo_vend_call.
Defined.

(** ** Calls that are refused *)

Lemma demo_store_ok svc : dp_Commerce demo_deps = Some svc -> sv_life world svc = Some lifecycle.
Proof. by intros [= <-]. Qed.
(** Machine 2 confirms cash for the order of machine 1, while a statement fails
    and another client acts. *)
Lemma foreign_order_refused_witness :
  turned_away safe (mk_world (w_db demo_w1) NoTx demo_schedule 2000 200)
    (rpc_handler demo_deps (from_machine 2) (RpcConfirmCashPayment (cash_request "c1" "e1"))
       (mk_world (w_db demo_w1) NoTx demo_schedule 2000 200)).
Proof.
  apply (foreign_order_refused demo_deps (from_machine 2) (mk_MachineAccessClaims 2 1) demo_store_ok eq_refl
    safe (fun d d' H => H) (order_in demo_w1)).
  - eexists. split; [reflexivity|]. vm_compute. reflexivity.
  - discriminate.
  - apply (demo_schedule_polite safe).
  - apply demo_w_wf.
  - pose proof demo_rows as (Eo & _). cbn [w_db]. rewrite Eo. left.
Defined.
(** The report of a vend that was paid for, after half an hour. *)
Definition late_world : world := mk_world (w_db demo_w4) NoTx demo_schedule (w_now demo_w4 + 31 * Minute) 200.
Lemma late_call_refused_witness :
  turned_away safe late_world
    (rpc_handler demo_deps (from_machine 1) (RpcConfirmVendSuccess (success_report "w1" "e1")) late_world).
Proof.
  apply (late_call_refused demo_deps (from_machine 1) (mk_MachineAccessClaims 1 1) demo_store_ok eq_refl
    safe (fun d d' H => H) (order_in demo_w4)).
  - eexists. split; [reflexivity|]. vm_compute. reflexivity.
  - reflexivity.
  - vm_compute. reflexivity.
  - apply (demo_schedule_polite safe).
  - split; [apply demo_w_wf|]. exists (order_in demo_w4). split; [|done].
    pose proof demo_rows as (_ & _ & _ & _ & _ & _ & _ & _ & Eo & _). cbn [w_db late_world]. rewrite Eo. left.
Defined.

(** The report is refused: the customer paid, and the order stays as it is. *)
Example late_success_refused :
  let late := mk_world (w_db demo_w4) NoTx [] (w_now demo_w4 + 31 * Minute) 200 in
  map o_Status (d_orders (w_db demo_w4)) = ["vending"] /\
  (rpc_handler demo_deps (from_machine 1) (RpcConfirmVendSuccess (success_report "w1" "e1")) late).1 = Err window_expired.
Proof. vm_compute. done. Qed.
(** A success reported again under another key is refused, not answered. *)
Example success_again_refused :
  let first := rpc_handler demo_deps (from_machine 1) (RpcConfirmVendSuccess (success_report "w1" "e1")) demo_w4 in
  first.1 = Ok (sold_answer "completed") /\
  (rpc_handler demo_deps (from_machine 1) (RpcConfirmVendSuccess (success_report "w2" "e2")) first.2).1
    = Err (EStatus FailedPrecondition "vend not in progress").
Proof. vm_compute. done. Qed.
(** A key given in the metadata alone is good for the handler, not for the
    ledger before it. *)
Example metadata_key_refused :
  let ctx := mk_CallContext (cx_claims (from_machine 1)) (cx_gate (from_machine 1)) None [("x-idempotency-key", ["c1"])] None in
  let c := RpcConfirmCashPayment (cash_request "" "e1") in
  (serve_rpc (H1 := cash_codec) demo_deps true (Some (pg_ledger (H0 := cash_codec) demo_ledger)) ctx c demo_w1).1
    = Err (EStatus InvalidArgument "idempotency_key required") /\
  exists a, (rpc_handler demo_deps ctx c demo_w1).1 = Ok a.
Proof. split; [vm_compute; reflexivity|]. eexists. vm_compute. reflexivity. Qed.

(** ** The rest of the theorems *)

(** A violated index closes the mutation; a lost connection leaves it open. *)
Lemma errors_classified_witness :
  (is_status (EPg "23505" "orders_pkey") = false /\
   shouldMarkLedgerRowFailed (mapCommerceGRPCErr (EPg "23505" "orders_pkey")) = true) /\
  (is_status (EPg "08006" "") = false /\
   shouldMarkLedgerRowFailed (mapCommerceGRPCErr (EPg "08006" "")) = false).
Proof.
  split; (split; [reflexivity|]).
  - by apply (errors_classified OpGenericCommerce (EPg "23505" "orders_pkey")).
  - by apply (errors_classified OpGenericCommerce (EPg "08006" "")).
Defined.

Definition demo_rpcs : list (CallContext * machine_rpc) :=
  [(from_machine 1, RpcConfirmCashPayment (cash_request "c1" "e1"));
   (from_machine 1, RpcCreateCashCheckout (cash_request "c1" "e2"));
   (from_machine 2, RpcConfirmCashPayment (cash_request "c1" "e1"));
   (from_machine 1, RpcStartVend (mk_StartVendRequest (keyed "v1" "e3") "500" 3 0));
   (from_machine 1, RpcCancelPaymentSession (mk_CancelPaymentSessionRequest (keyed "x1" "e4") "500" "" ""))].
Lemma machine_calls_run_once_witness :
  polite safe demo_schedule /\
  let w := mk_world (w_db demo_w1) NoTx demo_schedule 2000 200 in
  let '(w', ran) := (serve_calls (H := cash_codec) (pg_ledger (H0 := cash_codec) demo_ledger) machine_replay_config
                       (map (rpc_call demo_deps) demo_rpcs) (w, [])).2 in
  safe (w_db w) (w_db w') /\ NoDup ran /\ forall k, k ∈ ran -> ~ recorded (w_db w) k /\ recorded (w_db w') k.
Proof.
  split; [apply (demo_schedule_polite safe)|]. cbn zeta.
  pose proof (demo_deps_laws (world_rel safe)) as Hl.
  apply (machine_calls_run_once (H1 := cash_codec) demo_ledger demo_deps demo_rpcs
    (mk_world (w_db demo_w1) NoTx demo_schedule 2000 200)); [by intros f r [=]|apply (demo_schedule_polite safe)].
Defined.
