(* ===== verification/Outbox.v ===== *)
(** * Recovery policy and the outbox publisher

    internal/app/reliability: the thresholds of the recovery jobs, the
    backoff and poison rules of the outbox, the decision for each kind of
    candidate, and the scans and the outbox plan over their finders.  Times
    and durations are nanoseconds; the trace notes, which only go to the log,
    are left out of the decisions.

    The life of an event from its row to the broker: the statements on
    outbox_events (reliability.sql, outbox.sql, admin_outbox_ops.sql), the
    repository over them (repositories.go), one tick of the worker
    (internal/app/background/worker.go), the JetStream publisher
    (internal/platform/nats) and the operator's actions (internal/app/outbox).
    The broker itself is a parameter. *)

From S2P Require Import Prelude.
From S2P Require Import GoStd.
From S2P Require Import Pricing.
From S2P Require Import CommerceTypes.
From S2P Require Import Evidence.
From S2P Require Import Rules.
From S2P Require Import Db.
From S2P Require Import Queries.
From S2P Require Import PgCommerce.
Local Open Scope string_scope.
Local Open Scope list_scope.
Local Open Scope Z_scope.

(** ** Time *)


(** ** Types (types.go) *)

Definition ReasonPaymentAgedNonTerminal := "PAYMENT_AGED_NON_TERMINAL".
Definition ReasonCommandLedgerStale := "COMMAND_LEDGER_STALE".
Definition ReasonVendStalledVsOrder := "VEND_STALLED_VS_ORDER".
Definition ReasonOutboxAgedUnpublished := "OUTBOX_AGED_UNPUBLISHED".
Definition ReasonOutboxDeadLettered := "OUTBOX_DEAD_LETTERED".
Definition ReasonOutboxPublishBackoff := "OUTBOX_PUBLISH_BACKOFF".
Definition ReasonOutboxLeaseClaim := "OUTBOX_LEASE_CLAIM".
Definition ReasonNoopPolicy := "NOOP_POLICY".
Definition ReasonNoopAlreadyTerminal := "NOOP_ALREADY_TERMINAL".
Definition ReasonNoopFresh := "NOOP_BELOW_AGE_THRESHOLD".

Inductive RecoveryAction :=
| ActionNoop | ActionRepublishOutbox | ActionEscalatePaymentReview | ActionSuggestCommandRepublish
| ActionEscalateVendRecovery.

Record RecoveryPolicy := mk_RecoveryPolicy {
  rp_PaymentStatesNonTerminal : list string; rp_PaymentMinAge : Z; rp_CommandMinAge : Z;
  rp_VendStatesOrphan : list string; rp_VendMinAge : Z; rp_OrderStatusesOrphanVend : list string;
  rp_OutboxMinAge : Z; rp_OutboxMaxPublishAttempts : Z; rp_OutboxPublishBackoffBase : Z;
  rp_OutboxPublishBackoffMax : Z }.
Record OutboxLeaseParams := mk_OutboxLeaseParams { ol_WorkerID : string; ol_LockTTL : Z }.
Record StuckPaymentCandidate := mk_StuckPaymentCandidate {
  spc_PaymentID : N; spc_OrderID : N; spc_State : string; spc_AmountMinor : Z; spc_Currency : string;
  spc_CreatedAt : Z }.
Record StuckCommandCandidate := mk_StuckCommandCandidate {
  scc_CommandID : N; scc_MachineID : N; scc_Sequence : Z; scc_CommandType : string; scc_CreatedAt : Z }.
Record OrphanVendCandidate := mk_OrphanVendCandidate {
  ovc_OrderID : N; ovc_MachineID : N; ovc_SlotIndex : Z; ovc_VendState : string;
  ovc_OrderStatus : string; ovc_VendCreatedAt : Z }.
(** A candidate with what to do about it, and why. *)
Record RecoveryDecision (C : Type) := mk_RecoveryDecision {
  rd_Candidate : C; rd_Action : RecoveryAction; rd_ReasonCode : string }.
Arguments mk_RecoveryDecision {C}.
Arguments rd_Candidate {C}.
Arguments rd_Action {C}.
Arguments rd_ReasonCode {C}.
Record OutboxReplayDecision := mk_OutboxReplayDecision {
  ord_Event : OutboxEvent; ord_ShouldRepublish : bool; ord_ReasonCode : string }.

(** ** Errors and policy (errors.go, service.go) *)

Definition ErrReliabilityInvalidArgument : goerr := ESentinel "reliability: invalid argument".
Definition ErrReliabilityNotConfigured : goerr := ESentinel "reliability: dependency not configured".
Definition bad_policy (msg : string) : goerr := EJoin ErrReliabilityInvalidArgument (ENew msg).

Definition DefaultRecoveryPolicy : RecoveryPolicy :=
  mk_RecoveryPolicy ["created"; "authorized"] (30 * Minute) (15 * Minute) ["pending"; "in_progress"]
    (30 * Minute) ["paid"; "vending"] (2 * Minute) 24 Second (5 * Minute).

Definition NormalizeRecoveryPolicy (p : RecoveryPolicy) : RecoveryPolicy :=
  let def := DefaultRecoveryPolicy in
  let strings a b := if is_nil a then b else a in
  let nonzero a b := if a =? 0 then b else a in
  let positive a b := if a <=? 0 then b else a in
  mk_RecoveryPolicy
    (strings (rp_PaymentStatesNonTerminal p) (rp_PaymentStatesNonTerminal def))
    (nonzero (rp_PaymentMinAge p) (rp_PaymentMinAge def))
    (nonzero (rp_CommandMinAge p) (rp_CommandMinAge def))
    (strings (rp_VendStatesOrphan p) (rp_VendStatesOrphan def))
    (nonzero (rp_VendMinAge p) (rp_VendMinAge def))
    (strings (rp_OrderStatusesOrphanVend p) (rp_OrderStatusesOrphanVend def))
    (nonzero (rp_OutboxMinAge p) (rp_OutboxMinAge def))
    (positive (rp_OutboxMaxPublishAttempts p) (rp_OutboxMaxPublishAttempts def))
    (positive (rp_OutboxPublishBackoffBase p) (rp_OutboxPublishBackoffBase def))
    (positive (rp_OutboxPublishBackoffMax p) (rp_OutboxPublishBackoffMax def)).

Definition ValidateRecoveryPolicy (p : RecoveryPolicy) : res unit :=
  let? _ := guard_err (is_nil (rp_PaymentStatesNonTerminal p))
              (bad_policy "payment_states_non_terminal is required") in
  let? _ := guard_err (rp_PaymentMinAge p <=? 0) (bad_policy "payment_min_age must be positive") in
  let? _ := guard_err (rp_CommandMinAge p <=? 0) (bad_policy "command_min_age must be positive") in
  let? _ := guard_err (is_nil (rp_VendStatesOrphan p)) (bad_policy "vend_states_orphan is required") in
  let? _ := guard_err (rp_VendMinAge p <=? 0) (bad_policy "vend_min_age must be positive") in
  let? _ := guard_err (is_nil (rp_OrderStatusesOrphanVend p))
              (bad_policy "order_statuses_orphan_vend is required") in
  let? _ := guard_err (rp_OutboxMinAge p <=? 0) (bad_policy "outbox_min_age must be positive") in
  let? _ := guard_err (rp_OutboxMaxPublishAttempts p <? 2)
              (bad_policy "outbox_max_publish_attempts must be at least 2") in
  let? _ := guard_err (rp_OutboxPublishBackoffBase p <=? 0)
              (bad_policy "outbox_publish_backoff_base must be positive") in
  guard_err (rp_OutboxPublishBackoffMax p <? rp_OutboxPublishBackoffBase p)
    (bad_policy "outbox_publish_backoff_max must be >= outbox_publish_backoff_base").
Definition validateScanLimits (maxItems : Z) : res unit :=
  guard_err (maxItems <=? 0) (bad_policy "limits.max_items must be positive").
Definition validateRunContext (now : Z) : res unit :=
  guard_err (IsZero now) (bad_policy "run.now must be set").

(** ** The outbox rules (outbox_effective_max.go, outbox_poison.go, outbox_publish_backoff.go) *)

Definition EffectiveOutboxMaxAttempts (ev : OutboxEvent) (policyMax : Z) : Z :=
  if 0 <? ob_MaxPublishAttempts ev then ob_MaxPublishAttempts ev else policyMax.
Definition OutboxWillDeadLetterThisFailure (attemptCountBeforeIncrement maxPublishAttempts : Z) : bool :=
  maxPublishAttempts <=? attemptCountBeforeIncrement + 1.

(** [n] more turns of the doubling loop. *)
Fixpoint backoff_loop (n : nat) (d max : Z) : Z :=
  match n with
  | O => if max <? d then max else d
  | S n => let next := wrap64 (d * 2) in if max <=? next then max else backoff_loop n next max
  end.
Definition OutboxPublishBackoffAfterFailure (attemptAfterThisFailure base max : Z) : Z :=
  if base <=? 0 then 0
  else
    let max := if max <? base then base else max in
    let attempt := if attemptAfterThisFailure <? 1 then 1 else attemptAfterThisFailure in
    backoff_loop (Z.to_nat (attempt - 1)) base max.

(** ** Decisions (service.go) *)

Definition containsString (set : list string) (v : string) : bool := existsb (fun s => EqualFold s v) set.

Definition DecidePaymentRecovery (now : Z) (policy : RecoveryPolicy) (c : StuckPaymentCandidate)
    : RecoveryDecision StuckPaymentCandidate :=
  let age := time_Sub now (spc_CreatedAt c) in
  if negb (containsString (rp_PaymentStatesNonTerminal policy) (spc_State c))
  then mk_RecoveryDecision c ActionNoop ReasonNoopAlreadyTerminal
  else if age <? rp_PaymentMinAge policy then mk_RecoveryDecision c ActionNoop ReasonNoopFresh
  else mk_RecoveryDecision c ActionEscalatePaymentReview ReasonPaymentAgedNonTerminal.
Definition DecideCommandRecovery (now : Z) (policy : RecoveryPolicy) (c : StuckCommandCandidate)
    : RecoveryDecision StuckCommandCandidate :=
  if time_Sub now (scc_CreatedAt c) <? rp_CommandMinAge policy
  then mk_RecoveryDecision c ActionNoop ReasonNoopFresh
  else mk_RecoveryDecision c ActionSuggestCommandRepublish ReasonCommandLedgerStale.
Definition DecideVendRecovery (now : Z) (policy : RecoveryPolicy) (c : OrphanVendCandidate)
    : RecoveryDecision OrphanVendCandidate :=
  let age := time_Sub now (ovc_VendCreatedAt c) in
  if negb (containsString (rp_VendStatesOrphan policy) (ovc_VendState c))
  then mk_RecoveryDecision c ActionNoop ReasonNoopAlreadyTerminal
  else if negb (containsString (rp_OrderStatusesOrphanVend policy) (ovc_OrderStatus c))
  then mk_RecoveryDecision c ActionNoop ReasonNoopPolicy
  else if age <? rp_VendMinAge policy then mk_RecoveryDecision c ActionNoop ReasonNoopFresh
  else mk_RecoveryDecision c ActionEscalateVendRecovery ReasonVendStalledVsOrder.

(** [now] is before the time [t], when there is one. *)
Definition before_opt (now : Z) (t : option Z) : bool :=
  match t with Some t => now <? t | None => false end.
Definition DecideOutboxReplay (now : Z) (policy : RecoveryPolicy) (ev : OutboxEvent)
    : OutboxReplayDecision :=
  if negb (is_none (ob_PublishedAt ev))
  then mk_OutboxReplayDecision ev false ReasonNoopAlreadyTerminal
  else if negb (is_none (ob_DeadLetteredAt ev))
  then mk_OutboxReplayDecision ev false ReasonOutboxDeadLettered
  else if before_opt now (ob_NextPublishAfter ev)
  then mk_OutboxReplayDecision ev false ReasonOutboxPublishBackoff
  else if EqualFold (ob_Status ev) "publishing" && before_opt now (ob_LockedUntil ev)
  then mk_OutboxReplayDecision ev false ReasonNoopPolicy
  else if time_Sub now (ob_CreatedAt ev) <? rp_OutboxMinAge policy
  then mk_OutboxReplayDecision ev false ReasonNoopFresh
  else mk_OutboxReplayDecision ev true ReasonOutboxAgedUnpublished.

(** ** Scans and the plan (ports.go, service.go)

    A finder gets the time of the run, the policy and the limit. *)
Section Scans.
Context {W : Type}.

Definition finder (C : Type) : Type := Z -> RecoveryPolicy -> Z -> M W (list C).
Record OutboxPipelineStats := mk_OutboxPipelineStats {
  ops_PendingTotal : Z; ops_PendingDueNow : Z; ops_DeadLetteredTotal : Z;
  ops_PublishingLeasedTotal : Z; ops_OldestPendingCreatedAt : option Z; ops_MaxPendingAttempts : Z;
  ops_FailedPendingTotal : Z }.
(** domain/reliability: OutboxRepository and the failure record. *)
Record OutboxPublishFailureRecord := mk_OutboxPublishFailureRecord {
  opf_EventID : N; opf_ErrorMessage : string; opf_NextPublishAfter : option Z;
  opf_DeadLettered : bool }.
Record OutboxRepository := mk_OutboxRepository {
  or_ListUnpublished : Z -> M W (list OutboxEvent);
  or_LeaseOutboxForPublish : string -> Z -> Z -> Z -> M W (list OutboxEvent);
  or_RecordOutboxPublishFailure : OutboxPublishFailureRecord -> M W unit;
  or_GetOutboxPipelineStats : M W OutboxPipelineStats }.
Record ReliabilityService := mk_ReliabilityService {
  rs_payments : option (finder StuckPaymentCandidate);
  rs_commands : option (finder StuckCommandCandidate);
  rs_vends : option (finder OrphanVendCandidate);
  rs_outbox : option OutboxRepository }.

Definition configured {A} (o : option A) : M W A :=
  match o with Some a => ret a | None => fail ErrReliabilityNotConfigured end.
Definition valid_run (now : Z) (policy : RecoveryPolicy) (maxItems : Z) : M W unit :=
  lift (validateRunContext now) ;;;
  lift (ValidateRecoveryPolicy policy) ;;;
  lift (validateScanLimits maxItems).

Definition ScanStuckPayments (s : ReliabilityService) (now : Z) (policy : RecoveryPolicy) (maxItems : Z)
    : M W (list (RecoveryDecision StuckPaymentCandidate)) :=
  valid_run now policy maxItems ;;;
  let! find := configured (rs_payments s) in
  let! candidates := find now policy maxItems in
  ret (map (DecidePaymentRecovery now policy) candidates).
Definition ScanStuckCommands (s : ReliabilityService) (now : Z) (policy : RecoveryPolicy) (maxItems : Z)
    : M W (list (RecoveryDecision StuckCommandCandidate)) :=
  valid_run now policy maxItems ;;;
  let! find := configured (rs_commands s) in
  let! candidates := find now policy maxItems in
  ret (map (DecideCommandRecovery now policy) candidates).
Definition ScanOrphanVendSessions (s : ReliabilityService) (now : Z) (policy : RecoveryPolicy)
    (maxItems : Z) : M W (list (RecoveryDecision OrphanVendCandidate)) :=
  valid_run now policy maxItems ;;;
  let! find := configured (rs_vends s) in
  let! candidates := find now policy maxItems in
  ret (map (DecideVendRecovery now policy) candidates).

(** A lease in force: one with a worker. *)
Definition active_lease (lease : option OutboxLeaseParams) : option OutboxLeaseParams :=
  match lease with
  | Some l => if blank (TrimSpace (ol_WorkerID l)) then None else Some l
  | None => None
  end.
Definition PlanOutboxRepublishBatch (s : ReliabilityService) (now : Z) (policy : RecoveryPolicy)
    (maxItems : Z) (lease : option OutboxLeaseParams)
    : M W (list OutboxReplayDecision * OutboxPipelineStats) :=
  valid_run now policy maxItems ;;;
  let! outbox := configured (rs_outbox s) in
  let! pipeline := or_GetOutboxPipelineStats outbox in
  match active_lease lease with
  | Some l =>
      let lockTTL := if ol_LockTTL l <=? 0 then 30 * Second else ol_LockTTL l in
      let! events := or_LeaseOutboxForPublish outbox (ol_WorkerID l) lockTTL (rp_OutboxMinAge policy)
                       maxItems in
      ret (map (fun ev => mk_OutboxReplayDecision ev true ReasonOutboxLeaseClaim) events, pipeline)
  | None =>
      let! events := or_ListUnpublished outbox maxItems in
      ret (map (DecideOutboxReplay now policy) events, pipeline)
  end.
End Scans.
Arguments finder : clear implicits.
Arguments OutboxRepository : clear implicits.
Arguments ReliabilityService : clear implicits.

(** ** Statements *)

(** The columns the publishing side writes. *)
Definition outbox_with (e : OutboxEvent) (published : option Z) (attempts : Z) (error : option string)
    (attempted next dead : option Z) (status : string) (by_ : option string) (until : option Z)
    (updated : Z) : OutboxEvent :=
  mk_OutboxEvent (ob_ID e) (ob_Topic e) (ob_EventType e) (ob_Payload e) (ob_AggregateType e)
    (ob_AggregateID e) (ob_IdempotencyKey e) (ob_CreatedAt e) published attempts error attempted next
    dead status by_ until (ob_Simulated e) (ob_SimulationRunID e) (ob_SimulationScenario e) updated
    (ob_MaxPublishAttempts e).

(** [t IS NULL OR t <= now()], [t IS NULL OR t < now()] *)
Definition null_or_reached (t : option Z) (now : Z) : bool :=
  match t with Some t => t <=? now | None => true end.
Definition null_or_passed (t : option Z) (now : Z) : bool :=
  match t with Some t => t <? now | None => true end.
Definition unterminated (e : OutboxEvent) : bool :=
  is_none (ob_PublishedAt e) && is_none (ob_DeadLetteredAt e) &&
  negb (one_of (ob_Status e) ["published"; "dead_letter"]).
(** The rows both queries offer. *)
Definition due (now : Z) (e : OutboxEvent) : bool :=
  unterminated e && null_or_reached (ob_NextPublishAfter e) now &&
  (one_of (ob_Status e) ["pending"; "failed"] ||
   String.eqb (ob_Status e) "publishing" && null_or_passed (ob_LockedUntil e) now).
Definition oldest_first (l : list OutboxEvent) : list OutboxEvent :=
  in_order ob_CreatedAt (in_order (fun e => Z.of_N (ob_ID e)) l).

Definition ListOutboxUnpublished (limit : Z) : M world (list OutboxEvent) :=
  stmt (fun now _ d =>
    Ok (Some (take (Z.to_nat limit) (oldest_first (List.filter (due now) (d_outbox d)))), d)).

(** The candidates of a lease are locked and marked in one statement; rows
    that another transaction has locked are skipped, and statements do not
    overlap here.  The order of RETURNING is that of the candidates. *)
Definition lease_candidates (now minAgeSeconds limit : Z) (l : list OutboxEvent) : list OutboxEvent :=
  take (Z.to_nat limit) (oldest_first (List.filter (fun e =>
    due now e && (ob_CreatedAt e <=? now - minAgeSeconds * Second)) l)).
Definition leased (worker : string) (ttlSeconds now : Z) (e : OutboxEvent) : OutboxEvent :=
  outbox_with e (ob_PublishedAt e) (ob_PublishAttemptCount e) (ob_LastPublishError e)
    (ob_LastPublishAttemptAt e) (ob_NextPublishAfter e) (ob_DeadLetteredAt e) "publishing"
    (Some worker) (Some (now + ttlSeconds * Second)) now.
Definition has_row_id (l : list OutboxEvent) (e : OutboxEvent) : bool :=
  existsb (fun c => ob_ID e =u ob_ID c) l.
Definition LeaseOutboxForPublishQ (worker : string) (ttlSeconds minAgeSeconds limit : Z)
    : M world (list OutboxEvent) :=
  stmt (fun now _ d =>
    let candidates := lease_candidates now minAgeSeconds limit (d_outbox d) in
    Ok (Some (map (leased worker ttlSeconds now) candidates),
        set_outbox (update_where (has_row_id candidates) (leased worker ttlSeconds now)) d)).

(** [:exec] and [:execrows] report no row, and their number. *)
Definition update_outbox (p : OutboxEvent -> bool) (f : Z -> OutboxEvent -> OutboxEvent) : sql Z :=
  fun now _ d => Ok (Some (Z.of_nat (length (List.filter p (d_outbox d)))),
                     set_outbox (update_where p (f now)) d).
Definition failed_publish (error : string) (next : option Z) (dead : bool) (now : Z) (e : OutboxEvent)
    : OutboxEvent :=
  outbox_with e (ob_PublishedAt e) (ob_PublishAttemptCount e + 1) (Some error) (Some now)
    (if dead then None else next) (if dead then Some now else ob_DeadLetteredAt e)
    (if dead then "dead_letter" else "failed") None None now.
Definition open_row (id : N) (e : OutboxEvent) : bool :=
  (ob_ID e =u id) && is_none (ob_PublishedAt e) && is_none (ob_DeadLetteredAt e).
Definition RecordOutboxPublishFailureQ (id : N) (error : string) (next : option Z) (dead : bool)
    : M world unit :=
  fmap_M (fun _ => tt) (stmt (update_outbox (open_row id) (failed_publish error next dead))).
Definition published (now : Z) (e : OutboxEvent) : OutboxEvent :=
  outbox_with e (Some now) (ob_PublishAttemptCount e) (ob_LastPublishError e)
    (ob_LastPublishAttemptAt e) (ob_NextPublishAfter e) (ob_DeadLetteredAt e) "published" None None now.
Definition unpublished_row (id : N) (e : OutboxEvent) : bool :=
  (ob_ID e =u id) && is_none (ob_PublishedAt e).
Definition MarkOutboxEventPublished (id : N) : M world OutboxEvent :=
  stmt (update_rows d_outbox set_outbox no_check (unpublished_row id) published).

Definition count_rows (p : OutboxEvent -> bool) (l : list OutboxEvent) : Z :=
  Z.of_nat (length (List.filter p l)).
Definition live_row (e : OutboxEvent) : bool := is_none (ob_PublishedAt e) && is_none (ob_DeadLetteredAt e).
Definition max_opt (o : option Z) (x : Z) : option Z :=
  match o with Some y => Some (Z.max x y) | None => Some x end.
Definition min_opt (o : option Z) (x : Z) : option Z :=
  match o with Some y => Some (Z.min x y) | None => Some x end.
Definition pipeline_stats (now : Z) (l : list OutboxEvent) : OutboxPipelineStats :=
  let live := List.filter live_row l in
  mk_OutboxPipelineStats (Z.of_nat (length live))
    (count_rows (fun e => one_of (ob_Status e) ["pending"; "failed"] &&
       null_or_reached (ob_NextPublishAfter e) now && null_or_passed (ob_LockedUntil e) now) live)
    (count_rows (fun e => negb (is_none (ob_DeadLetteredAt e)) || String.eqb (ob_Status e) "dead_letter") l)
    (count_rows (fun e => String.eqb (ob_Status e) "publishing" &&
       match ob_LockedUntil e with Some t => now <=? t | None => false end) live)
    (foldl min_opt None (map ob_CreatedAt live))
    (default 0 (foldl max_opt None (map ob_PublishAttemptCount live)))
    (count_rows (fun e => String.eqb (ob_Status e) "failed") live).
Definition GetOutboxPipelineStatsQ : M world OutboxPipelineStats :=
  stmt (fun now _ d => Ok (Some (pipeline_stats now (d_outbox d)), d)).

(** ** The repository (repositories.go) *)

(** [d.Round(time.Second) / time.Second]: halves away from zero. *)
Definition round_seconds (d : Z) : Z :=
  if d <? 0 then - ((- d + Second / 2) / Second) else (d + Second / 2) / Second.
Definition LeaseOutboxForPublish (workerID : string) (lockTTL minAge limit : Z)
    : M world (list OutboxEvent) :=
  if blank (TrimSpace workerID) then fail (ENew "postgres: lease worker_id is required")
  else
    let lt := round_seconds lockTTL in
    let lt := if lt <=? 0 then 30 else lt in
    let ma := round_seconds minAge in
    let ma := if ma <? 0 then 0 else ma in
    LeaseOutboxForPublishQ workerID lt ma limit.
Definition outboxPublishErrMsgMax : nat := 512.
Definition truncateOutboxPublishErrMsg (s : string) : string :=
  let s := TrimSpace s in String.substring 0 outboxPublishErrMsgMax s.
Definition RecordOutboxPublishFailure (rec : OutboxPublishFailureRecord) : M world unit :=
  RecordOutboxPublishFailureQ (opf_EventID rec) (truncateOutboxPublishErrMsg (opf_ErrorMessage rec))
    (opf_NextPublishAfter rec) (opf_DeadLettered rec).
Definition MarkOutboxPublished (outboxID : N) : M world bool :=
  let! r := optional_row (MarkOutboxEventPublished outboxID) in
  ret (negb (is_none r)).
Definition pg_outbox : OutboxRepository world :=
  mk_OutboxRepository ListOutboxUnpublished LeaseOutboxForPublish RecordOutboxPublishFailure
    GetOutboxPipelineStatsQ.

(** ** One tick of the worker (worker.go)

    Metrics and logs are left out; the mirror hook cannot fail, and its panics
    are recovered. *)
Record PaymentPendingTimeoutInput := mk_PaymentPendingTimeoutInput {
  ppt_PaymentID : N; ppt_OrderID : N; ppt_ObservedAt : Z; ppt_ReasonCode : string }.

Section Tick.
Context {W : Type}.

(** [wd_WorkflowStart] is the workflow boundary when it is there and enabled. *)
Record WorkerDeps := mk_WorkerDeps {
  wd_Reliability : option (ReliabilityService W);
  wd_Policy : RecoveryPolicy; wd_MaxItems : Z; wd_OutboxBatchMaxItems : Z;
  wd_OutboxList : option (OutboxRepository W);
  wd_OutboxMark : option (N -> M W bool);
  wd_OutboxPub : option (OutboxEvent -> M W unit);
  wd_OutboxDeadLetter : option (OutboxEvent -> string -> M W unit);
  wd_OnOutboxPublishedMirror : option (OutboxEvent -> M W unit);
  wd_OutboxLease : option OutboxLeaseParams;
  wd_SchedulePaymentPendingTimeout : bool;
  wd_WorkflowStart : option (PaymentPendingTimeoutInput -> M W unit);
  wd_MQTTCommandAckTimeouts : option (Z -> M W unit);
  wd_Now : M W Z }.

(** What a failed publish is recorded as. *)
Definition failure_record (policy : RecoveryPolicy) (now : Z) (ev : OutboxEvent) (err : goerr)
    : OutboxPublishFailureRecord :=
  let nextAttempt := wrap32 (ob_PublishAttemptCount ev + 1) in
  let maxAttempts := EffectiveOutboxMaxAttempts ev (rp_OutboxMaxPublishAttempts policy) in
  let dead := OutboxWillDeadLetterThisFailure (ob_PublishAttemptCount ev) maxAttempts in
  mk_OutboxPublishFailureRecord (ob_ID ev) (err_Error err)
    (if dead then None
     else Some (now + OutboxPublishBackoffAfterFailure nextAttempt (rp_OutboxPublishBackoffBase policy)
                        (rp_OutboxPublishBackoffMax policy)))
    dead.

Definition publish_failed (deps : WorkerDeps) (list_ : OutboxRepository W) (now : Z) (ev : OutboxEvent)
    (err : goerr) : M W unit :=
  let rec := failure_record (wd_Policy deps) now ev err in
  or_RecordOutboxPublishFailure list_ rec ;;;
  match (if opf_DeadLettered rec then wd_OutboxDeadLetter deps else None) with
  | Some dlq => ignore (dlq ev (err_Error err))
  | None => ret tt
  end.
Definition publish_succeeded (deps : WorkerDeps) (mark : N -> M W bool) (now : Z) (ev : OutboxEvent)
    : M W unit :=
  let! marked := mark (ob_ID ev) in
  match (if marked then wd_OnOutboxPublishedMirror deps else None) with
  | Some hook =>
      ignore (hook (outbox_with ev (Some now) (ob_PublishAttemptCount ev) (ob_LastPublishError ev)
        (ob_LastPublishAttemptAt ev) (ob_NextPublishAfter ev) (ob_DeadLetteredAt ev) (ob_Status ev)
        (ob_LockedBy ev) (ob_LockedUntil ev) (ob_UpdatedAt ev)))
  | None => ret tt
  end.
Definition dispatch (deps : WorkerDeps) (list_ : OutboxRepository W) (mark : N -> M W bool) (now : Z)
    (d : OutboxReplayDecision) : M W unit :=
  if negb (ord_ShouldRepublish d) then ret tt
  else
    match wd_OutboxPub deps with
    | None => ret tt
    | Some pub =>
        let ev := ord_Event d in
        let! r := attempt (pub ev) in
        match r with
        | Err err => publish_failed deps list_ now ev err
        | Ok _ => publish_succeeded deps mark now ev
        end
    end.

Definition OutboxDispatchTick (deps : WorkerDeps) : M W unit :=
  match wd_Reliability deps, wd_OutboxList deps, wd_OutboxMark deps with
  | Some rel, Some list_, Some mark =>
      let! now := wd_Now deps in
      let batch := if 0 <? wd_OutboxBatchMaxItems deps then wd_OutboxBatchMaxItems deps
                   else wd_MaxItems deps in
      let! plan := PlanOutboxRepublishBatch rel now (wd_Policy deps) batch (wd_OutboxLease deps) in
      for_each (dispatch deps list_ mark now) plan.1
  | _, _, _ => ret tt
  end.

(** The other scans only log what they find, and may start a follow-up. *)
Definition follow_up_payment (deps : WorkerDeps) (now : Z) (d : RecoveryDecision StuckPaymentCandidate)
    : M W unit :=
  match rd_Action d, wd_SchedulePaymentPendingTimeout deps, wd_WorkflowStart deps with
  | ActionEscalatePaymentReview, true, Some start =>
      ignore (start (mk_PaymentPendingTimeoutInput (spc_PaymentID (rd_Candidate d))
        (spc_OrderID (rd_Candidate d)) now (rd_ReasonCode d)))
  | _, _, _ => ret tt
  end.
Definition PaymentTimeoutScanTick (deps : WorkerDeps) : M W unit :=
  match wd_Reliability deps with
  | None => ret tt
  | Some rel =>
      let! now := wd_Now deps in
      let! decisions := ScanStuckPayments rel now (wd_Policy deps) (wd_MaxItems deps) in
      for_each (follow_up_payment deps now) decisions
  end.
Definition StuckCommandScanTick (deps : WorkerDeps) : M W unit :=
  (match wd_MQTTCommandAckTimeouts deps with
   | Some timeouts => let! now := wd_Now deps in timeouts now
   | None => ret tt
   end) ;;;
  match wd_Reliability deps with
  | None => ret tt
  | Some rel =>
      let! now := wd_Now deps in
      let! _ := ScanStuckCommands rel now (wd_Policy deps) (wd_MaxItems deps) in
      ret tt
  end.
End Tick.
Arguments WorkerDeps : clear implicits.

(** [RunWorker]: the intervals of the outbox, payment, command and retention
    loops; a loop whose interval is not positive does not run. *)
Definition DefaultWorkerTickSchedule : Z * Z * Z * Z := (3 * Second, 10 * Second, 15 * Second, 0).
Definition worker_intervals (outboxOnly : bool) (ob pay cmd retention : Z) : Z * Z * Z * Z :=
  let '(dob, dpay, dcmd, dret) := DefaultWorkerTickSchedule in
  let or_default d x := if x <=? 0 then d else x in
  if outboxOnly then (or_default dob ob, 0, 0, 0)
  else (or_default dob ob, or_default dpay pay, or_default dcmd cmd, or_default dret retention).

(** worker.go, runner.go: how long a cycle and its lock may last. *)
Definition workerLockTTL (interval : Z) : Z :=
  if interval <=? 0 then 2 * Minute
  else
    let d := wrap64 (interval * 3) in
    if 15 * Minute <? d then 15 * Minute else d.
Definition EffectivePeriodicCycleTimeout (tickInterval configured : Z) : Z :=
  if 0 <? configured then configured
  else if tickInterval <=? 0 then 2 * Minute
  else
    let t := wrap64 (tickInterval + Z.quot tickInterval 2) in
    let t := if t <? 45 * Second then 45 * Second else t in
    if 12 * Minute <? t then 12 * Minute else t.

(** ** The operator (internal/app/outbox, admin_outbox_http.go)

    [audit] is the enterprise audit inside the transaction; it is required
    once a row changes. *)
(** SQL's [trim]: spaces. *)
Fixpoint trim_left_spaces (l : list ascii) : list ascii :=
  match l with
  | " "%char :: l => trim_left_spaces l
  | l => l
  end.
Definition sql_trim (s : string) : string :=
  l2s (rev (trim_left_spaces (rev (trim_left_spaces (s2l s))))).
Definition manual_dead_letter (note : string) (now : Z) (e : OutboxEvent) : OutboxEvent :=
  outbox_with e (ob_PublishedAt e) (ob_PublishAttemptCount e)
    (if blank (sql_trim note) then ob_LastPublishError e else Some (sql_trim note))
    (ob_LastPublishAttemptAt e) None (Some now) "dead_letter" None None now.
Definition AdminMarkOutboxManualDeadLetter (note : string) (id : N) : M world Z :=
  stmt (update_outbox (fun e => (ob_ID e =u id) && unterminated e) (manual_dead_letter note)).
Definition retried (now : Z) (e : OutboxEvent) : OutboxEvent :=
  outbox_with e (ob_PublishedAt e) 0 None (ob_LastPublishAttemptAt e) None None "pending" None None now.
Definition dead_row (id : N) (e : OutboxEvent) : bool :=
  (ob_ID e =u id) &&
  (String.eqb (ob_Status e) "dead_letter" || negb (is_none (ob_DeadLetteredAt e))) &&
  is_none (ob_PublishedAt e).
Definition AdminRetryOutboxDeadLetter (id : N) : M world Z :=
  stmt (update_outbox (dead_row id) retried).
Definition requeued (note : string) (now : Z) (e : OutboxEvent) : OutboxEvent :=
  outbox_with e (ob_PublishedAt e) (ob_PublishAttemptCount e)
    (if blank (sql_trim note) then ob_LastPublishError e else Some note)
    (ob_LastPublishAttemptAt e) None (ob_DeadLetteredAt e) "pending" None None now.
Definition AdminRequeueOutboxPendingByID (note : string) (id : N) : M world Z :=
  stmt (update_outbox (fun e => (ob_ID e =u id) && unterminated e) (requeued note)).

Definition ErrPoisonReplayRequiresConfirm : goerr :=
  ESentinel "outbox: replay dead-letter requires explicit operator confirmation".
Definition RequirePoisonReplayConfirmation (confirmed : bool) : res unit :=
  guard_err (negb confirmed) ErrPoisonReplayRequiresConfirm.
Definition ReplayDeadLetter (id : N) : M world Z := AdminRetryOutboxDeadLetter id.
Definition MarkManualDLQ (id : N) (note : string) : M world Z := AdminMarkOutboxManualDeadLetter note id.
Definition ReplayDeadLetterTx (id : N) (audit : option (M world unit)) : M world Z :=
  with_tx (
    let! n := AdminRetryOutboxDeadLetter id in
    (if 0 <? n then
       match audit with
       | None => fail (ENew "outbox: enterprise audit is required for replay")
       | Some record => record
       end
     else ret tt) ;;;
    ret (Commit n)).
Definition MarkManualDLQTx (id : N) (note : string) (audit : option (M world unit)) : M world Z :=
  match audit with
  | None => fail (ENew "outbox: enterprise audit is required for manual DLQ")
  | Some record =>
      with_tx (
        let! n := AdminMarkOutboxManualDeadLetter note id in
        (if 0 <? n then record else ret tt) ;;;
        ret (Commit n))
  end.
Definition GetByID (id : N) : M world OutboxEvent :=
  stmt (select_one (fun d => List.find (fun e => ob_ID e =u id) (d_outbox d))).
Definition pending_window (after before : Z) (status : string) (e : OutboxEvent) : bool :=
  unterminated e && (after <=? ob_CreatedAt e) && (ob_CreatedAt e <? before) &&
  (blank status || String.eqb (ob_Status e) status).
Definition ListPendingWindow (createdAfter createdBefore : Z) (statusFilter : string) (limit : Z)
    : M world (list OutboxEvent) :=
  if negb (createdAfter <? createdBefore)
  then fail (ENew "outbox: createdBefore must be after createdAfter")
  else
    let limit := if limit <=? 0 then 100 else limit in
    let limit := if 500 <? limit then 500 else limit in
    stmt (select_many (fun d => take (Z.to_nat limit)
      (oldest_first (List.filter (pending_window createdAfter createdBefore statusFilter) (d_outbox d))))).
Definition RequeuePendingByID (id : N) (operatorNote : string) : M world Z :=
  AdminRequeueOutboxPendingByID operatorNote id.
Definition ReplayDeadLetterAfterConfirm (id : N) (confirmed : bool) : M world Z :=
  lift (RequirePoisonReplayConfirmation confirmed) ;;; ReplayDeadLetter id.
Definition outboxEligibleForReplay (row : OutboxEvent) : bool :=
  if negb (is_none (ob_PublishedAt row)) then false
  else String.eqb (ob_Status row) "dead_letter" || negb (is_none (ob_DeadLetteredAt row)).
Definition outboxEligibleForManualDLQ (row : OutboxEvent) : bool :=
  if negb (is_none (ob_PublishedAt row)) then false
  else if negb (is_none (ob_DeadLetteredAt row)) then false
  else negb (one_of (ob_Status row) ["published"; "dead_letter"]).

(** ** The JetStream message (internal/platform/nats)

    The key the broker recognises a repeated publish by, and the routing
    suffix. *)
Definition OutboxEventKey (ev : OutboxEvent) : string :=
  match ob_IdempotencyKey ev with
  | Some k => if blank (TrimSpace k) then "outbox-" +:+ FormatInt (Z.of_N (ob_ID ev)) else TrimSpace k
  | None => "outbox-" +:+ FormatInt (Z.of_N (ob_ID ev))
  end.
Definition LogicalTopic (ev : OutboxEvent) : string :=
  let t := TrimSpace (ob_Topic ev) in
  if negb (blank t) then t
  else
    let t := TrimSpace (ob_EventType ev) in
    if negb (blank t) then t else "unknown".

Definition schema_keys : list string :=
  ["schema_version"; "schemaVersion"; "payload_schema_version"; "payloadSchemaVersion"].
(** What one key says: text, or a number that is an integer. *)
Definition schema_value (v : json) : option string :=
  match v with
  | JStr s => Some (TrimSpace s)
  | JNum m k =>
      let f := f64_of_decimal m k in
      let z := f64_to_int64 f in
      if f64_leb f (f64_of_Z z) && f64_leb (f64_of_Z z) f then Some (FormatInt z) else None
  | _ => None
  end.
Fixpoint first_schema (keys : list string) (fields : list (string * json)) : string :=
  match keys with
  | [] => "1"
  | k :: keys =>
      match option_map schema_value (json_last k fields) with
      | Some (Some s) => s
      | _ => first_schema keys fields
      end
  end.
Definition OutboxPayloadSchemaVersion (payload : json) : string :=
  match payload with
  | JObj fields => first_schema schema_keys fields
  | JNull => "1"
  | _ => ""
  end.
Definition missing_parts (ev : OutboxEvent) : list string :=
  (if blank (TrimSpace (ob_AggregateType ev)) then ["aggregate_type"] else []) ++
  (if ob_AggregateID ev =u uuid_Nil then ["aggregate_id"] else []) ++
  (if blank (TrimSpace (ob_EventType ev)) then ["event_type"] else []) ++
  (if blank (TrimSpace (OutboxEventKey ev)) then ["idempotency/event key"] else []) ++
  (if IsZero (ob_CreatedAt ev) then ["created_at"] else []) ++
  (if blank (TrimSpace (OutboxPayloadSchemaVersion (ob_Payload ev))) then ["payload schema version"] else []).
Definition ValidateOutboxEvent (ev : OutboxEvent) : res unit :=
  match missing_parts ev with
  | [] => Ok tt
  | missing => Err (ENew ("nats: invalid outbox event contract: missing " +:+ String.concat ", " missing))
  end.
(** [send] is [JetStreamContext.PublishMsg]; the message id it is given is
    [OutboxEventKey ev].  The subject it is sent to ([OutboxPublishSubject]
    folds Unicode letters) only shows in the error. *)
Definition JetStreamPublish {W} (subject : OutboxEvent -> string) (send : OutboxEvent -> M W unit)
    (ev : OutboxEvent) : M W unit :=
  lift (ValidateOutboxEvent ev) ;;;
  let! r := attempt (send ev) in
  match r with
  | Ok _ => ret tt
  | Err e => fail (EWrapPre ("nats: jetstream publish " +:+ subject ev) e)
  end.
