(* ===== verification/OutboxLaws.v ===== *)
(** * The laws of the outbox

    The backoff schedule, the agreement of the worker's decision with the
    query it leases by, and the life cycle that every statement, tick and
    action of an operator follows under any schedule. *)

From S2P Require Import Prelude.
From S2P Require Import GoStd.
From S2P Require Import Pricing.
From S2P Require Import CommerceTypes.
From S2P Require Import Evidence.
From S2P Require Import Rules.
From S2P Require Import Db.
From S2P Require Import Queries.
From S2P Require Import History.
From S2P Require Import PgCommerce.
From S2P Require Import Logic.
From S2P Require Import Outbox.
Local Open Scope string_scope.
Local Open Scope list_scope.
Local Open Scope Z_scope.

(** ** Backoff *)

Lemma backoff_loop_exact n d max :
  0 < d <= max -> max < 2 ^ 62 -> backoff_loop n d max = Z.min max (d * 2 ^ Z.of_nat n).
Proof.
  revert d. induction n as [|n IH]; intros d Hd Hm.
  - cbn [backoff_loop]. rewrite Z.pow_0_r, Z.mul_1_r. rewrite (proj2 (Z.ltb_ge max d)) by lia. lia.
  - cbn [backoff_loop]. rewrite wrap64_id by (unfold_int; change (2 ^ 62) with 4611686018427387904 in Hm; lia).
    rewrite Nat2Z.inj_succ, Z.pow_succ_r by lia. assert (0 < 2 ^ Z.of_nat n) by (apply Z.pow_pos_nonneg; lia).
    destruct (Z.leb_spec max (d * 2)) as [Hl|Hg].
    + rewrite Z.min_l; [done|]. nia.
    + rewrite IH by lia. f_equal. lia.
Qed.

(** The delay before the next attempt doubles from the base up to the maximum, exactly and
    without overflow for maxima below 2^62 ns; it lies between base and maximum and never
    decreases with the number of failures. *)
Theorem backoff_schedule n base max :
  0 < base -> max < 2 ^ 62 -> 1 <= n -> base < 2 ^ 62 ->
  OutboxPublishBackoffAfterFailure n base max = Z.min (Z.max base max) (base * 2 ^ (n - 1)) /\
  base <= OutboxPublishBackoffAfterFailure n base max <= Z.max base max /\
  forall m, n <= m -> OutboxPublishBackoffAfterFailure n base max <= OutboxPublishBackoffAfterFailure m base max.
Proof.
  intros Hb Hm Hn Hb2.
  assert (Hex : forall k, 1 <= k ->
    OutboxPublishBackoffAfterFailure k base max = Z.min (Z.max base max) (base * 2 ^ (k - 1))).
  { intros k Hk. unfold OutboxPublishBackoffAfterFailure.
    rewrite (proj2 (Z.leb_gt base 0)) by lia. rewrite (proj2 (Z.ltb_ge k 1)) by lia.
    replace (if max <? base then base else max) with (Z.max base max)
      by (destruct (Z.ltb_spec max base); lia).
    rewrite backoff_loop_exact by lia. by rewrite Z2Nat.id by lia. }
  assert (Hpow : forall k, 1 <= k -> 1 <= 2 ^ (k - 1)).
  { intros k Hk. pose proof (Z.pow_pos_nonneg 2 (k - 1)). lia. }
  split; [by apply Hex|]. rewrite Hex by done. split; [specialize (Hpow n Hn); nia|].
  intros m Hnm. rewrite Hex by lia.
  assert (2 ^ (n - 1) <= 2 ^ (m - 1)) by (apply Z.pow_le_mono_r; lia). nia.
Qed.

Lemma backoff_schedule_witness :
  OutboxPublishBackoffAfterFailure 24 Second (5 * Minute) = 5 * Minute /\
  OutboxPublishBackoffAfterFailure 3 Second (5 * Minute) = 4 * Second.
Proof.
  split.
  - destruct (backoff_schedule 24 Second (5 * Minute)) as [E _]; [done..|]. rewrite E. reflexivity.
  - destruct (backoff_schedule 3 Second (5 * Minute)) as [E _]; [done..|]. rewrite E. reflexivity.
Defined.

(** ** The worker's decision and the query *)

Definition outboxStatuses : list string := ["pending"; "publishing"; "published"; "failed"; "dead_letter"].
(** The status and the time stamps of a row tell the same story. *)
Record stamped (e : OutboxEvent) : Prop := mk_stamped {
  st_status : ob_Status e ∈ outboxStatuses;
  st_published : ob_Status e = "published" <-> ob_PublishedAt e <> None;
  st_dead : ob_Status e = "dead_letter" <-> ob_PublishedAt e = None /\ ob_DeadLetteredAt e <> None }.

(** A row is unpublished and not quarantined exactly when its status says so. *)
Lemma stamped_unterminated e : stamped e -> unterminated e = live_row e.
Proof.
  intros [Hs Hp Hd]. unfold unterminated, live_row.
  destruct (ob_PublishedAt e) as [t|] eqn:Ep; [done|].
  destruct (ob_DeadLetteredAt e) as [t|] eqn:Ed; [done|]. cbn [is_none andb].
  replace (one_of (ob_Status e) ["published"; "dead_letter"]) with false; [done|].
  symmetry. apply not_true_is_false. intros [E|[E|[]%elem_of_nil]%elem_of_cons]%one_of_spec%elem_of_cons.
  - by apply Hp in E.
  - by apply Hd in E as [_ E].
Qed.
Lemma stamped_due now e : stamped e -> due now e =
  live_row e && null_or_reached (ob_NextPublishAfter e) now &&
  negb (String.eqb (ob_Status e) "publishing" && negb (null_or_passed (ob_LockedUntil e) now)).
Proof.
  intros Hst. unfold due. rewrite stamped_unterminated by done.
  destruct (live_row e) eqn:El; [|done]. cbn [andb]. f_equal.
  destruct Hst as [Hs Hp Hd]. unfold live_row in El. apply andb_true_iff in El as [Ep Ed].
  destruct (ob_PublishedAt e); [done|]. destruct (ob_DeadLetteredAt e); [done|].
  unfold outboxStatuses in Hs. rewrite !elem_of_cons, elem_of_nil in Hs.
  destruct_or! Hs; try done; rewrite Hs; try done.
  - cbn. by destruct (null_or_passed _ _).
  - by destruct (proj1 Hp Hs).
  - by destruct (proj1 Hd Hs) as [_ ?].
Qed.

(** For a row whose status and stamps agree, the worker's own decision to publish is the
    condition of the query that leases rows, except at the instant a lease runs out. *)
Theorem decision_is_query now policy seconds e :
  stamped e -> in_int64 (now - ob_CreatedAt e) -> rp_OutboxMinAge policy = seconds * Second ->
  ob_LockedUntil e <> Some now ->
  ord_ShouldRepublish (DecideOutboxReplay now policy e) =
  due now e && (ob_CreatedAt e <=? now - seconds * Second).
Proof.
  intros Hst Hage Hmin Hlock. rewrite stamped_due by done. unfold DecideOutboxReplay, live_row.
  destruct (ob_PublishedAt e); [done|]. destruct (ob_DeadLetteredAt e); [done|]. cbn [is_none negb andb].
  replace (null_or_reached (ob_NextPublishAfter e) now) with (negb (before_opt now (ob_NextPublishAfter e)))
    by (unfold null_or_reached, before_opt; destruct (ob_NextPublishAfter e); [|done]; by rewrite Z.ltb_antisym, negb_involutive).
  destruct (before_opt now (ob_NextPublishAfter e)); [done|]. cbn [negb andb].
  replace (EqualFold (ob_Status e) "publishing") with (String.eqb (ob_Status e) "publishing").
  2: { destruct Hst as [Hs _ _]. unfold outboxStatuses in Hs. rewrite !elem_of_cons, elem_of_nil in Hs.
       destruct_or! Hs; try done; by rewrite Hs. }
  replace (before_opt now (ob_LockedUntil e)) with (negb (null_or_passed (ob_LockedUntil e) now)).
  2: { unfold null_or_passed, before_opt. destruct (ob_LockedUntil e) as [t|]; [|done].
       destruct (Z.ltb_spec t now), (Z.ltb_spec now t); try done; try lia.
       by replace t with now in Hlock by lia. }
  destruct (String.eqb (ob_Status e) "publishing" && _); [done|]. cbn [negb andb].
  unfold time_Sub. unfold_int. rewrite Z.min_r, Z.max_r by lia. rewrite Hmin.
  destruct (Z.ltb_spec (now - ob_CreatedAt e) (seconds * Second)),
    (Z.leb_spec (ob_CreatedAt e) (now - seconds * Second)); try done; lia.
Qed.

(** ** The life cycle

    What the outbox promises, per event: it waits, counting failures, until
    it is delivered or quarantined; a quarantined event may be given another
    life; a delivered one is never touched again. *)
Inductive stage := Waiting (failures : Z) | Delivered | Quarantined.
Definition stage_of (e : OutboxEvent) : stage :=
  match ob_PublishedAt e, ob_DeadLetteredAt e with
  | Some _, _ => Delivered
  | None, Some _ => Quarantined
  | None, None => Waiting (ob_PublishAttemptCount e)
  end.
Inductive stage_step : stage -> stage -> Prop :=
| stage_failed n : stage_step (Waiting n) (Waiting (n + 1))
| stage_quarantined n : stage_step (Waiting n) Quarantined
| stage_delivered s : s <> Delivered -> stage_step s Delivered
| stage_retried : stage_step Quarantined (Waiting 0).

Definition row_moves (e e' : OutboxEvent) : Prop :=
  outbox_identity e = outbox_identity e' /\ (stamped e -> stamped e') /\
  (stamped e -> rtc stage_step (stage_of e) (stage_of e')).
#[export] Instance row_moves_preorder : PreOrder row_moves.
Proof.
  split; [by intros e|]. intros a b c (I1 & S1 & M1) (I2 & S2 & M2).
  split; [congruence|]. split; [auto|]. intros Hs. etransitivity; eauto.
Qed.
(** Between two states of the table, whose primary key is [ob_ID]. *)
Definition outbox_ids (d : pgdb) : list N := map ob_ID (d_outbox d).
Definition outbox_moves (d d' : pgdb) : Prop :=
  NoDup (outbox_ids d) ->
  NoDup (outbox_ids d') /\ rows_kept row_moves (d_outbox d) (d_outbox d') /\
  ((forall e, e ∈ d_outbox d -> stamped e) -> forall e, e ∈ d_outbox d' -> stamped e).
#[export] Instance outbox_moves_preorder : PreOrder outbox_moves.
Proof.
  split; [by intros d|]. intros a b c H1 H2 Ha.
  destruct (H1 Ha) as (Hb & K1 & S1). destruct (H2 Hb) as (Hc & K2 & S2).
  split; [done|]. split; [by etransitivity|auto].
Qed.

(** Delivered is final. *)
Lemma delivered_final s : rtc stage_step Delivered s -> s = Delivered.
Proof.
  intros H. remember Delivered as s0. revert Heqs0.
  induction H as [|a b c Hab _ IH]; [done|]. intros ->. by inversion Hab.
Qed.

Lemma moves_update p f d :
  (forall e, ob_ID (f e) = ob_ID e) ->
  (NoDup (outbox_ids d) -> forall e, e ∈ d_outbox d -> p e = true -> row_moves e (f e)) ->
  outbox_moves d (set_outbox (update_where p f) d).
Proof.
  intros Hid Hf Hn. specialize (Hf Hn). split; [|split].
  - unfold outbox_ids in *. cbn. by rewrite map_update_where.
  - cbn. exists (update_where p f (d_outbox d)), []. split; [by rewrite app_nil_r|].
    clear Hn. induction (d_outbox d) as [|x l IH]; [constructor|]. rewrite update_where_cons.
    constructor; [|apply IH; intros; apply Hf; [by right|done]].
    destruct (p x) eqn:E; [by apply Hf; [left|]|reflexivity].
  - intros Hs e (x & Hx & ->)%elem_of_update_where.
    destruct (p x) eqn:E; [by apply Hf, Hs|by apply Hs].
Qed.
Lemma stamped_with_waiting e a b c n u v w s :
  ob_PublishedAt e = None -> s ∈ ["pending"; "publishing"; "failed"] ->
  stamped (outbox_with e None a b c n None s u v w).
Proof.
  intros _ Hs. split; cbn [ob_Status ob_PublishedAt ob_DeadLetteredAt outbox_with].
  - unfold outboxStatuses. set_solver.
  - split; [|done]. intros ->. set_solver.
  - split; [|by intros [_ ?]]. intros ->. set_solver.
Qed.
Lemma stage_with_waiting e a b c n u v w s :
  stage_of (outbox_with e None a b c n None s u v w) = Waiting a.
Proof. done. Qed.
Lemma live_row_spec e : live_row e = true -> ob_PublishedAt e = None /\ ob_DeadLetteredAt e = None.
Proof.
  unfold live_row. destruct (ob_PublishedAt e); [done|]. by destruct (ob_DeadLetteredAt e).
Qed.

Lemma moves_leased worker ttl now e : live_row e = true -> row_moves e (leased worker ttl now e).
Proof.
  intros [Hp Hd]%live_row_spec. unfold leased. rewrite Hp, Hd. split; [done|].
  split; intros _; [apply stamped_with_waiting; [done|set_solver]|].
  rewrite stage_with_waiting. unfold stage_of. by rewrite Hp, Hd.
Qed.
Lemma stamped_dead e a b c n t u v w :
  ob_PublishedAt e = None -> stamped (outbox_with e None a b c n (Some t) "dead_letter" u v w).
Proof. split; cbn; [unfold outboxStatuses; set_solver|by split|by split]. Qed.
Lemma moves_failed err next dead now e :
  live_row e = true -> row_moves e (failed_publish err next dead now e).
Proof.
  intros [Hp Hd]%live_row_spec. unfold failed_publish. rewrite Hp, Hd. split; [done|]. destruct dead.
  - split; intros _; [by apply stamped_dead|]. unfold stage_of. rewrite Hp, Hd.
    apply rtc_once, stage_quarantined.
  - split; intros _; [apply stamped_with_waiting; [done|set_solver]|].
    rewrite stage_with_waiting. unfold stage_of. rewrite Hp, Hd. apply rtc_once, stage_failed.
Qed.
Lemma moves_published now e : ob_PublishedAt e = None -> row_moves e (published now e).
Proof.
  intros Hp. split; [done|]. split; intros _.
  - split; cbn; [unfold outboxStatuses; set_solver|by split|by split; [|intros [? _]]].
  - apply rtc_once, stage_delivered. unfold stage_of. rewrite Hp. by destruct (ob_DeadLetteredAt e).
Qed.
Lemma moves_manual note now e : live_row e = true -> row_moves e (manual_dead_letter note now e).
Proof.
  intros [Hp Hd]%live_row_spec. unfold manual_dead_letter. rewrite Hp. split; [done|].
  split; intros _; [by apply stamped_dead|]. unfold stage_of. rewrite Hp, Hd.
  apply rtc_once, stage_quarantined.
Qed.
Lemma moves_requeued note now e : live_row e = true -> row_moves e (requeued note now e).
Proof.
  intros [Hp Hd]%live_row_spec. unfold requeued. rewrite Hp, Hd. split; [done|].
  split; intros _; [apply stamped_with_waiting; [done|set_solver]|].
  rewrite stage_with_waiting. unfold stage_of. by rewrite Hp, Hd.
Qed.
Lemma moves_retried id now e : dead_row id e = true -> row_moves e (retried now e).
Proof.
  unfold dead_row. intros Hr. rewrite !andb_true_iff in Hr. destruct Hr as [[_ Hs] Hn].
  destruct (ob_PublishedAt e) eqn:Hp; [done|]. unfold retried. rewrite Hp. split; [done|].
  split; [intros _; apply stamped_with_waiting; [done|set_solver]|]. intros Hst.
  rewrite stage_with_waiting. unfold stage_of. rewrite Hp.
  destruct (ob_DeadLetteredAt e) eqn:Hd; [apply rtc_once, stage_retried|].
  exfalso. rewrite orb_false_r in Hs. apply String.eqb_eq in Hs.
  apply (st_dead _ Hst) in Hs as [_ Hne]. by rewrite Hd in Hne.
Qed.
Lemma unterminated_live e : unterminated e = true -> live_row e = true.
Proof. unfold unterminated, live_row. by intros [? _]%andb_true_iff. Qed.
Lemma due_live now e : due now e = true -> live_row e = true.
Proof. unfold due. rewrite !andb_true_iff. intros [[? _] _]. by apply unterminated_live. Qed.

(** ** Every statement follows the life cycle *)

Lemma candidate_elem now age limit l c : c ∈ lease_candidates now age limit l ->
  c ∈ l /\ due now c = true /\ ob_CreatedAt c <= now - age * Second.
Proof.
  intros (i & Hi & _)%elem_of_take. apply list_elem_of_lookup_2 in Hi.
  unfold oldest_first, in_order in Hi. rewrite !elem_of_stable_sort in Hi.
  apply elem_of_filter_bool in Hi as [Hc [Hd Ha%Z.leb_le]%andb_true_iff]. done.
Qed.
Lemma NoDup_map_same {A B} (f : A -> B) l x y : NoDup (map f l) -> x ∈ l -> y ∈ l -> f x = f y -> x = y.
Proof.
  induction l as [|z l IH]; cbn; [by intros _ ?%elem_of_nil|].
  rewrite NoDup_cons, !elem_of_cons. intros [Hz Hn] [->|Hx] [->|Hy] E; try done; [..|by apply IH].
  - destruct Hz. rewrite E. by apply list_elem_of_fmap_2.
  - destruct Hz. rewrite <- E. by apply list_elem_of_fmap_2.
Qed.
Lemma has_row_id_spec l e : has_row_id l e = true <-> exists c, c ∈ l /\ ob_ID e = ob_ID c.
Proof.
  unfold has_row_id. rewrite existsb_exists. setoid_rewrite <- list_elem_of_In.
  by setoid_rewrite N.eqb_eq.
Qed.
Lemma row_of_candidate now age limit l e : NoDup (map ob_ID l) -> e ∈ l ->
  has_row_id (lease_candidates now age limit l) e = true -> e ∈ lease_candidates now age limit l.
Proof.
  intros Hn He (c & Hc & E)%has_row_id_spec. pose proof (candidate_elem _ _ _ _ _ Hc) as [Hl _].
  by rewrite (NoDup_map_same ob_ID l e c).
Qed.

Lemma Lease_moves worker ttl age limit :
  sql_guarantee outbox_moves (fun now _ d =>
    let candidates := lease_candidates now age limit (d_outbox d) in
    Ok (Some (map (leased worker ttl now) candidates),
        set_outbox (update_where (has_row_id candidates) (leased worker ttl now)) d)).
Proof.
  intros now id d r d' [= _ <-]. apply moves_update; [done|]. intros Hn e He Hr.
  apply moves_leased. apply row_of_candidate, candidate_elem in Hr as (_ & Hd & _); [|done..].
  by eapply due_live.
Qed.
Lemma update_outbox_moves p f :
  (forall now e, ob_ID (f now e) = ob_ID e) -> (forall now e, p e = true -> row_moves e (f now e)) ->
  sql_guarantee outbox_moves (update_outbox p f).
Proof. intros Hid Hf now id d r d' [= _ <-]. apply moves_update; auto. Qed.
Lemma Mark_moves id :
  sql_guarantee outbox_moves (update_rows d_outbox set_outbox no_check (unpublished_row id) published).
Proof.
  intros now k d r d'. unfold update_rows. destruct (List.find _ _); cbn; [|by intros [= _ <-]].
  intros [= _ <-]. apply moves_update; [done|]. intros _ e _ [_ Hp]%andb_true_iff.
  apply moves_published. by destruct (ob_PublishedAt e).
Qed.
Lemma open_row_live id e : open_row id e = true -> live_row e = true.
Proof. unfold open_row, live_row. rewrite !andb_true_iff. tauto. Qed.
Lemma Record_moves id err next dead :
  sql_guarantee outbox_moves (update_outbox (open_row id) (failed_publish err next dead)).
Proof. apply update_outbox_moves; [done|]. intros now e H. eapply moves_failed, open_row_live, H. Qed.
Lemma Manual_moves note id : sql_guarantee outbox_moves
  (update_outbox (fun e => (ob_ID e =u id) && unterminated e) (manual_dead_letter note)).
Proof.
  apply update_outbox_moves; [done|]. intros now e [_ H]%andb_true_iff. by apply moves_manual, unterminated_live.
Qed.
Lemma Requeue_moves note id : sql_guarantee outbox_moves
  (update_outbox (fun e => (ob_ID e =u id) && unterminated e) (requeued note)).
Proof.
  apply update_outbox_moves; [done|]. intros now e [_ H]%andb_true_iff. by apply moves_requeued, unterminated_live.
Qed.
Lemma Retry_moves id : sql_guarantee outbox_moves (update_outbox (dead_row id) retried).
Proof. apply update_outbox_moves; [done|]. intros now e. apply moves_retried. Qed.
Lemma read_moves {A} (f : Z -> pgdb -> A) : sql_guarantee outbox_moves (fun now _ d => Ok (Some (f now d), d)).
Proof. by intros now id d r d' [= _ <-]. Qed.

Section Moves.
Context {R : world -> world -> Prop} `{!Statement_rel outbox_moves R}.

Lemma ev_ListOutboxUnpublished limit : evolves R (ListOutboxUnpublished limit).
Proof. apply sr_stmt, read_moves. Qed.
Lemma ev_GetOutboxPipelineStats : evolves R GetOutboxPipelineStatsQ.
Proof. apply sr_stmt, read_moves. Qed.
Lemma ev_LeaseOutboxForPublish worker ttl age limit : evolves R (LeaseOutboxForPublish worker ttl age limit).
Proof. unfold LeaseOutboxForPublish. case_match; [evolve|]. apply sr_stmt, Lease_moves. Qed.
Lemma ev_RecordOutboxPublishFailure rec : evolves R (RecordOutboxPublishFailure rec).
Proof. apply evolves_fmap, sr_stmt, Record_moves. Qed.
Lemma ev_MarkOutboxPublished id : evolves R (MarkOutboxPublished id).
Proof.
  unfold MarkOutboxPublished. apply evolves_bind; [apply _| |evolve].
  apply evolves_bind; [apply _|apply evolves_attempt, sr_stmt, Mark_moves|]. intros [|]; [evolve|]. case_match; evolve.
Qed.
Lemma ev_AdminRetry id : evolves R (AdminRetryOutboxDeadLetter id).
Proof. apply sr_stmt, Retry_moves. Qed.
Lemma ev_AdminMark note id : evolves R (AdminMarkOutboxManualDeadLetter note id).
Proof. apply sr_stmt, Manual_moves. Qed.
Lemma ev_AdminRequeue note id : evolves R (AdminRequeueOutboxPendingByID note id).
Proof. apply sr_stmt, Requeue_moves. Qed.
Hint Resolve ev_AdminRetry ev_AdminMark sr_tx : evolves.
Lemma ev_ReplayDeadLetterTx id audit :
  (forall m, audit = Some m -> evolves R m) -> evolves R (ReplayDeadLetterTx id audit).
Proof.
  intros Ha. unfold ReplayDeadLetterTx. apply sr_tx. apply evolves_bind; [apply _|evolve|intros n].
  apply evolves_bind; [apply _| |evolve]. destruct (0 <? n); [|evolve].
  destruct audit; [by apply Ha|evolve].
Qed.
Lemma ev_MarkManualDLQTx id note audit :
  (forall m, audit = Some m -> evolves R m) -> evolves R (MarkManualDLQTx id note audit).
Proof.
  intros Ha. unfold MarkManualDLQTx. destruct audit; [|evolve]. apply sr_tx.
  apply evolves_bind; [apply _|evolve|intros n]. apply evolves_bind; [apply _| |evolve].
  destruct (0 <? n); [by apply Ha|evolve].
Qed.
End Moves.

(** ** The tick against its interfaces *)

Section Tick.
Context {W : Type} (R : W -> W -> Prop) `{!PreOrder R}.

Definition repo_evolves (r : OutboxRepository W) : Prop :=
  (forall n, evolves R (or_ListUnpublished r n)) /\
  (forall a b c n, evolves R (or_LeaseOutboxForPublish r a b c n)) /\
  (forall rec, evolves R (or_RecordOutboxPublishFailure r rec)) /\
  evolves R (or_GetOutboxPipelineStats r).

Lemma ev_PlanOutbox rel now policy n lease :
  (forall r, rs_outbox rel = Some r -> repo_evolves r) ->
  evolves R (PlanOutboxRepublishBatch rel now policy n lease).
Proof.
  intros Hr. unfold PlanOutboxRepublishBatch, valid_run, configured.
  apply evolves_bind; [done|evolve|intros _].
  destruct (rs_outbox rel) as [o|] eqn:Eo; [|by intros w; unfold bind].
  destruct (Hr o eq_refl) as (H1 & H2 & _ & H4).
  apply evolves_bind_ret, evolves_bind; [done|done|intros st].
  destruct (active_lease _); (apply evolves_bind; [done|done|intros ?; evolve]).
Qed.

(** What the worker's dependencies do to the state; [settle] is what a failed
    and a successful publish do. *)
Record deps_respect (deps : WorkerDeps W) : Prop := mk_deps_respect {
  dr_repo : forall s r, wd_Reliability deps = Some s -> rs_outbox s = Some r -> repo_evolves r;
  dr_list : forall r, wd_OutboxList deps = Some r -> repo_evolves r;
  dr_publish : forall p m e, wd_OutboxPub deps = Some p -> wd_OutboxMark deps = Some m ->
    evolves R (p e) /\
    forall now w w', p e w = (Ok tt, w') -> R w' (publish_succeeded deps m now e w').2;
  dr_dead : forall p e m, wd_OutboxDeadLetter deps = Some p -> evolves R (p e m);
  dr_now : evolves R (wd_Now deps) }.

Lemma ev_OutboxDispatchTick deps : deps_respect deps -> evolves R (OutboxDispatchTick deps).
Proof.
  intros [Hr Hl Hp Hd Hn]. unfold OutboxDispatchTick.
  destruct (wd_Reliability deps) as [rel|] eqn:Erel; [|evolve].
  destruct (wd_OutboxList deps) as [repo|] eqn:El; [|evolve].
  destruct (wd_OutboxMark deps) as [mark|] eqn:Em; [|evolve].
  apply evolves_bind; [done|done|intros now]. apply evolves_bind; [done|apply ev_PlanOutbox; eauto|].
  intros plan. apply evolves_for_each; [done|]. intros d. unfold dispatch.
  destruct (Hl repo eq_refl) as (_ & _ & H3 & _).
  destruct (negb _); [evolve|]. destruct (wd_OutboxPub deps) as [pub|] eqn:Ep; [|evolve].
  destruct (Hp pub mark (ord_Event d) eq_refl eq_refl) as [Hpub Hok]. intros w. unfold bind at 1, attempt.
  specialize (Hpub w). destruct (pub (ord_Event d) w) as [[[]|e] w1] eqn:E; cbn [snd] in Hpub; (etransitivity; [exact Hpub|]).
  - by eapply Hok.
  - revert w1 Hpub E. intros w1 _ _. revert w1. change (evolves R (publish_failed deps repo now (ord_Event d) e)).
    unfold publish_failed. apply evolves_bind; [done|done|intros []].
    destruct (opf_DeadLettered _); [|evolve]. destruct (wd_OutboxDeadLetter deps); [|evolve].
    by apply evolves_ignore, Hd.
Qed.

(** A store whose marking always respects [R]. *)
Lemma ev_publish_succeeded deps mark now e :
  evolves R (mark (ob_ID e)) -> (forall p e, wd_OnOutboxPublishedMirror deps = Some p -> evolves R (p e)) ->
  evolves R (publish_succeeded deps mark now e).
Proof.
  intros Hm Hh. unfold publish_succeeded. apply evolves_bind; [done|done|intros b].
  destruct b; [|evolve]. destruct (wd_OnOutboxPublishedMirror deps); [|evolve]. by apply evolves_ignore, Hh.
Qed.
End Tick.

(** ** Any work on the outbox follows the life cycle *)

Inductive outbox_work :=
| WorkerTick (deps : WorkerDeps world)
| OperatorReplay (id : N) (audit : option (M world unit))
| OperatorQuarantine (id : N) (note : string) (audit : option (M world unit))
| OperatorRequeue (id : N) (note : string).
Definition do_work (r : outbox_work) : M world unit :=
  match r with
  | WorkerTick deps => ignore (OutboxDispatchTick deps)
  | OperatorReplay id audit => ignore (ReplayDeadLetterTx id audit)
  | OperatorQuarantine id note audit => ignore (MarkManualDLQTx id note audit)
  | OperatorRequeue id note => ignore (AdminRequeueOutboxPendingByID note id)
  end.
(** The worker over PostgreSQL, with whatever broker, dead letter queue, mirror
    and audit that leave the outbox alone. *)
Definition pg_service : ReliabilityService world := mk_ReliabilityService None None None (Some pg_outbox).
Definition work_respects (R : world -> world -> Prop) (r : outbox_work) : Prop :=
  match r with
  | WorkerTick deps =>
      wd_Reliability deps = Some pg_service /\ wd_OutboxList deps = Some pg_outbox /\
      wd_OutboxMark deps = Some MarkOutboxPublished /\ wd_Now deps = time_Now /\
      (forall p e, wd_OutboxPub deps = Some p -> evolves R (p e)) /\
      (forall p e m, wd_OutboxDeadLetter deps = Some p -> evolves R (p e m)) /\
      (forall p e, wd_OnOutboxPublishedMirror deps = Some p -> evolves R (p e))
  | OperatorReplay _ audit | OperatorQuarantine _ _ audit => forall m, audit = Some m -> evolves R m
  | OperatorRequeue _ _ => True
  end.

Lemma ev_do_work {R} `{!Statement_rel outbox_moves R} r : work_respects R r -> evolves R (do_work r).
Proof.
  destruct r as [deps|id audit|id note audit|id note]; cbn [work_respects do_work]; intros H; apply evolves_ignore.
  - destruct H as (Er & El & Em & En & Hp & Hd & Hm). apply ev_OutboxDispatchTick; [apply _|].
    assert (repo_evolves R pg_outbox) as Hrepo.
    { split_and!; cbn; intros; [apply ev_ListOutboxUnpublished|apply ev_LeaseOutboxForPublish|
        apply ev_RecordOutboxPublishFailure|apply ev_GetOutboxPipelineStats]. }
    split; try done.
    + intros s r Es Hr. rewrite Er in Es. injection Es as <-. by injection Hr as <-.
    + intros r Hr. rewrite El in Hr. by injection Hr as <-.
    + intros p m e Ep Hm'. rewrite Em in Hm'. injection Hm' as <-. split; [by apply Hp|]. intros now w w' _.
      apply ev_publish_succeeded; [apply _|apply ev_MarkOutboxPublished|done].
    + rewrite En. apply evolves_gets, _.
  - by apply ev_ReplayDeadLetterTx.
  - by apply ev_MarkManualDLQTx.
  - apply ev_AdminRequeue.
Qed.

(** C36: whatever the workers and operators do, under any failures and steps of other clients that
    respect it, every event keeps its identity and follows the life cycle of the outbox: waiting,
    counting its failures, to delivered or quarantined, from quarantine back by a retry only, and
    never away from delivered; and the status of a row agrees with its time stamps throughout. *)
Theorem outbox_follows_life_cycle work w :
  (forall r, r ∈ work -> work_respects (world_rel outbox_moves) r) ->
  polite outbox_moves (w_sched w) -> NoDup (outbox_ids (w_db w)) ->
  (forall e, e ∈ d_outbox (w_db w) -> stamped e) ->
  let d' := w_db (for_each do_work work w).2 in
  NoDup (outbox_ids d') /\ (forall e, e ∈ d_outbox d' -> stamped e) /\
  forall e, e ∈ d_outbox (w_db w) -> exists e', e' ∈ d_outbox d' /\
    outbox_identity e = outbox_identity e' /\ rtc stage_step (stage_of e) (stage_of e') /\
    (stage_of e = Delivered -> stage_of e' = Delivered).
Proof.
  intros Hwork Hpol Hn Hst. cbn zeta.
  assert (Hev : evolves (world_rel outbox_moves) (for_each do_work work)).
  { induction work as [|r work IH]; cbn [for_each]; [evolve|].
    apply evolves_bind; [apply _|apply ev_do_work, Hwork; left|]. intros _. apply IH.
    intros r' Hr'. apply Hwork. by right. }
  destruct (Hev w Hpol) as [_ Hd]. destruct (Hd Hn) as (Hn' & Hk & Hs).
  split; [done|]. split; [by apply Hs|]. intros e He.
  destruct (rows_kept_elem _ _ _ _ Hk He) as (e' & He' & Hi & Hst' & Hm).
  exists e'. split; [done|]. split; [done|]. specialize (Hm (Hst e He)). split; [done|].
  intros E. rewrite E in Hm. by apply delivered_final.
Qed.
