(* ===== verification/OutboxProgress.v ===== *)
(** * The outbox makes progress, and marks nothing the broker did not acknowledge

    What the worker relies on when nothing fails is an interface,
    [OutboxStore]: rows at a time of the clock, and what each operation of the
    repository does to them.  Against it: one tick publishes its candidates,
    a broker that is up drains the outbox, a broker that is down leads every
    event into quarantine.  PostgreSQL is an instance.

    Then the worker over PostgreSQL beside a broker: the state is the database
    and the list of the events the broker has acknowledged.  The outcome of every
    statement and of every publish is arbitrary, and other clients act in
    between. *)

From S2P Require Import Prelude.
From S2P Require Import GoStd.
From S2P Require Import Pricing.
From S2P Require Import CommerceTypes.
From S2P Require Import Evidence.
From S2P Require Import Rules.
From S2P Require Import Db.
From S2P Require Import Queries.
From S2P Require Import History.
From S2P Require Import PgCommerce.
From S2P Require Import Logic.
From S2P Require Import Outbox.
From S2P Require Import OutboxLaws.
Local Open Scope string_scope.
Local Open Scope list_scope.
Local Open Scope Z_scope.

(** ** The interface of the store *)

Definition lease_seconds (ttl : Z) : Z := if round_seconds ttl <=? 0 then 30 else round_seconds ttl.
Definition age_seconds (age : Z) : Z := if round_seconds age <? 0 then 0 else round_seconds age.

Class OutboxStore (W : Type) := {
  os_repo : OutboxRepository W;
  os_mark : N -> M W bool;
  os_clock : M W Z;
  (** The rows [l] in [w], where the clock shows [t]. *)
  os_at : list OutboxEvent -> Z -> W -> Prop;
  os_clock_law l t w : os_at l t w -> wp os_clock (fun r w' => r = Ok t /\ os_at l t w') w;
  os_stats_law l t w : os_at l t w ->
    wp (or_GetOutboxPipelineStats os_repo) (fun r w' => r = Ok (pipeline_stats t l) /\ os_at l t w') w;
  os_lease_law l t w worker ttl age n : blank (TrimSpace worker) = false -> os_at l t w ->
    let cs := lease_candidates t (age_seconds age) n l in
    let f := leased worker (lease_seconds ttl) t in
    wp (or_LeaseOutboxForPublish os_repo worker ttl age n)
       (fun r w' => r = Ok (map f cs) /\ os_at (update_where (has_row_id cs) f l) t w') w;
  os_record_law l t w rec : os_at l t w ->
    let f := failed_publish (truncateOutboxPublishErrMsg (opf_ErrorMessage rec))
               (opf_NextPublishAfter rec) (opf_DeadLettered rec) t in
    wp (or_RecordOutboxPublishFailure os_repo rec)
       (fun r w' => r = Ok tt /\ os_at (update_where (open_row (opf_EventID rec)) f l) t w') w;
  os_mark_law l t w id : os_at l t w ->
    wp (os_mark id)
       (fun r w' => r = Ok (existsb (unpublished_row id) l) /\
                    os_at (update_where (unpublished_row id) (published t) l) t w') w }.

(** ** Rows under a sequence of updates *)

Lemma foldl_rows {C} (p : C -> OutboxEvent -> bool) (g : C -> OutboxEvent -> OutboxEvent) cs l :
  foldl (fun l c => update_where (p c) (g c) l) l cs =
  map (fun e => foldl (fun e c => if p c e then g c e else e) e cs) l.
Proof.
  revert l. induction cs as [|c cs IH]; intros l; cbn; [by rewrite map_id|].
  rewrite IH. unfold update_where. by rewrite map_map.
Qed.
Lemma foldl_one_row (p : OutboxEvent -> OutboxEvent -> bool) (g : OutboxEvent -> OutboxEvent -> OutboxEvent) cs e c :
  (forall c e, p c e = true -> ob_ID e = ob_ID c) -> (forall c e, ob_ID (g c e) = ob_ID e) ->
  NoDup (map ob_ID cs) -> c ∈ cs -> ob_ID c = ob_ID e -> p c e = true ->
  foldl (fun e c => if p c e then g c e else e) e cs = g c e.
Proof.
  intros Hp Hg Hn Hc He Hpe.
  assert (Hskip : forall cs e, ~ In (ob_ID e) (map ob_ID cs) ->
    foldl (fun e c => if p c e then g c e else e) e cs = e).
  { clear - Hp. induction cs as [|x cs IH]; cbn; intros e He; [done|].
    destruct (p x e) eqn:E; [destruct He; left; by rewrite (Hp _ _ E)|]. apply IH. tauto. }
  induction cs as [|x cs IH]; [by apply elem_of_nil in Hc|]. cbn in *. apply NoDup_cons in Hn as [Hx Hn].
  rewrite list_elem_of_In in Hx. apply elem_of_cons in Hc as [->|Hc].
  - rewrite Hpe. apply Hskip. by rewrite Hg, <- He.
  - destruct (p x e) eqn:E; [|by apply IH].
    destruct Hx. rewrite <- (Hp _ _ E), <- He. by apply in_map, list_elem_of_In.
Qed.
Lemma foldl_no_row (p : OutboxEvent -> OutboxEvent -> bool) (g : OutboxEvent -> OutboxEvent -> OutboxEvent) cs e :
  (forall c e, p c e = true -> ob_ID e = ob_ID c) -> (forall c, c ∈ cs -> ob_ID c <> ob_ID e) ->
  foldl (fun e c => if p c e then g c e else e) e cs = e.
Proof.
  intros Hp. induction cs as [|x cs IH]; cbn; intros He; [done|].
  destruct (p x e) eqn:E; [by destruct (He x); [left|rewrite (Hp _ _ E)]|].
  apply IH. intros c Hc. apply He. by right.
Qed.

Lemma NoDup_map_filter {A B} (f : A -> B) q l : NoDup (map f l) -> NoDup (map f (List.filter q l)).
Proof.
  induction l as [|x l IH]; cbn; [done|]. rewrite NoDup_cons. intros [Hx Hn].
  destruct (q x); [|auto]. cbn. rewrite NoDup_cons. split; [|auto].
  intros (y & E & [Hy _]%elem_of_filter_bool)%list_elem_of_fmap. apply Hx. rewrite E. by apply list_elem_of_fmap_2.
Qed.
Lemma oldest_first_map {B} (f : OutboxEvent -> B) l : map f (oldest_first l) ≡ₚ map f l.
Proof. apply Permutation_map. unfold oldest_first, in_order. by do 2 rewrite stable_sort_Permutation. Qed.
Lemma NoDup_candidates t age n l : NoDup (map ob_ID l) -> NoDup (map ob_ID (lease_candidates t age n l)).
Proof.
  intros Hn. unfold lease_candidates. rewrite <- firstn_map. eapply sublist_NoDup; [|apply sublist_take].
  rewrite (oldest_first_map ob_ID). by apply NoDup_map_filter.
Qed.

(** ** A tick of a configured worker *)

Section Tick.
Context {W : Type} `{!OutboxStore W}.
Variables (deps : WorkerDeps W) (lp : OutboxLeaseParams).

Definition batch_size : Z :=
  if 0 <? wd_OutboxBatchMaxItems deps then wd_OutboxBatchMaxItems deps else wd_MaxItems deps.
Definition lease_ttl : Z := lease_seconds (if ol_LockTTL lp <=? 0 then 30 * Second else ol_LockTTL lp).
Definition min_age : Z := age_seconds (rp_OutboxMinAge (wd_Policy deps)).
(** The worker runs over the store, with a lease and a valid policy. *)
Record well_configured : Prop := {
  wc_service : exists s, wd_Reliability deps = Some s /\ rs_outbox s = Some os_repo;
  wc_list : wd_OutboxList deps = Some os_repo;
  wc_mark : wd_OutboxMark deps = Some os_mark;
  wc_clock : wd_Now deps = os_clock;
  wc_lease : wd_OutboxLease deps = Some lp;
  wc_worker : blank (TrimSpace (ol_WorkerID lp)) = false;
  wc_policy : ValidateRecoveryPolicy (wd_Policy deps) = Ok tt;
  wc_batch : 0 < batch_size }.

Definition candidates (t : Z) (l : list OutboxEvent) : list OutboxEvent :=
  lease_candidates t min_age batch_size l.
Definition claim_of (t : Z) (e : OutboxEvent) : OutboxEvent := leased (ol_WorkerID lp) lease_ttl t e.
(** The rows after a tick that turns a claim_of candidate [e] into [g e]. *)
Definition settled_rows (g : OutboxEvent -> OutboxEvent) (t : Z) (l : list OutboxEvent) : list OutboxEvent :=
  update_where (has_row_id (candidates t l)) (fun e => g (claim_of t e)) l.

(** Settling the claim_of rows one by one settles the candidates. *)
Lemma foldl_settled (p : OutboxEvent -> OutboxEvent -> bool) (g : OutboxEvent -> OutboxEvent -> OutboxEvent) t l :
  (forall c e, p c e = true -> ob_ID e = ob_ID c) -> (forall c e, ob_ID (g c e) = ob_ID e) ->
  (forall e, live_row e = true -> p (claim_of t e) (claim_of t e) = true) -> NoDup (map ob_ID l) ->
  foldl (fun l c => update_where (p c) (g c) l)
        (update_where (has_row_id (candidates t l)) (claim_of t) l) (map (claim_of t) (candidates t l)) =
  settled_rows (fun e => g e e) t l.
Proof.
  intros Hp Hg Hlive Hn. rewrite foldl_rows. unfold settled_rows, update_where at 1. rewrite map_map.
  unfold update_where. apply map_ext_in. intros e He%list_elem_of_In.
  destruct (has_row_id (candidates t l) e) eqn:Ec.
  - pose proof (row_of_candidate _ _ _ _ _ Hn He Ec) as Hc.
    destruct (candidate_elem _ _ _ _ _ Hc) as (_ & Hd & _). apply due_live in Hd.
    apply (foldl_one_row p g); try done; [|by apply (list_elem_of_fmap_2 (claim_of t) _ e)|exact (Hlive e Hd)].
    rewrite map_map. by apply NoDup_candidates.
  - apply (foldl_no_row p g); [done|]. intros c (c0 & -> & Hc0)%list_elem_of_fmap Hid.
    apply not_true_iff_false in Ec. apply Ec, has_row_id_spec. by exists c0.
Qed.

(** What settling one event does decides what the tick does. *)
Lemma wp_tick (p : OutboxEvent -> OutboxEvent -> bool) (g : OutboxEvent -> OutboxEvent -> OutboxEvent) t l w :
  well_configured -> 0 < t -> NoDup (map ob_ID l) -> os_at l t w ->
  (forall c e, p c e = true -> ob_ID e = ob_ID c) -> (forall c e, ob_ID (g c e) = ob_ID e) ->
  (forall e, live_row e = true -> p (claim_of t e) (claim_of t e) = true) ->
  (forall c l w, os_at l t w ->
     wp (dispatch deps os_repo os_mark t (mk_OutboxReplayDecision c true ReasonOutboxLeaseClaim))
        (fun r w' => r = Ok tt /\ os_at (update_where (p c) (g c) l) t w') w) ->
  wp (OutboxDispatchTick deps)
     (fun r w' => r = Ok tt /\ os_at (settled_rows (fun e => g e e) t l) t w') w.
Proof.
  intros [(s & Hs & Ho) Hl Hm Hk Hle Hw Hp Hb] Ht Hn Hat Hpid Hg Hlive Hdisp.
  unfold OutboxDispatchTick. rewrite Hs, Hl, Hm, Hk.
  apply wp_bind. eapply wp_mono; [|by apply os_clock_law]. intros r w1 [-> H1]. cbn beta iota.
  fold batch_size. apply wp_bind.
  eapply wp_mono with (Q := fun r w' => exists stats,
    r = Ok (map (fun e => mk_OutboxReplayDecision e true ReasonOutboxLeaseClaim)
              (map (claim_of t) (candidates t l)), stats) /\
    os_at (update_where (has_row_id (candidates t l)) (claim_of t) l) t w').
  - intros r w2 (stats & -> & H2). cbn [fst]. rewrite <- (foldl_settled p g) by done.
    revert w2 H2. generalize (update_where (has_row_id (candidates t l)) (claim_of t) l) as l2.
    induction (map (claim_of t) (candidates t l)) as [|c cs IH]; intros l2 w2 H2; cbn; [by split|].
    apply wp_bind. eapply wp_mono; [|by apply Hdisp]. intros r w3 [-> H3]. cbn beta iota. by apply IH.
  - unfold PlanOutboxRepublishBatch, valid_run, validateRunContext, validateScanLimits, guard_err, configured, active_lease.
    rewrite Ho, Hle, Hw, Hp. replace (IsZero t) with false by (symmetry; apply Z.eqb_neq; lia).
    rewrite (proj2 (Z.leb_gt batch_size 0)) by done. wp_steps.
    eapply wp_mono; [|by apply os_stats_law]. intros r w2 [-> H2]. wp_steps.
    pose proof (os_lease_law l t w2 _ (if ol_LockTTL lp <=? 0 then 30 * Second else ol_LockTTL lp)
      (rp_OutboxMinAge (wd_Policy deps)) batch_size Hw H2) as H3. cbn zeta in H3.
    eapply wp_mono; [|exact H3]. clear H3. intros r w3 [-> H3]. wp_steps. by eexists.
Qed.

(** ** A publisher and what it answers *)

Definition keeps_rows (m : M W unit) : Prop := forall l t w, os_at l t w -> wp m (fun _ w' => os_at l t w') w.
(** The publisher answers an event with [verdict] and leaves the store alone; so
    do the mirror and the dead letter queue, whatever they answer. *)
Record answers (verdict : OutboxEvent -> res unit) : Prop := {
  an_publish : exists pub, wd_OutboxPub deps = Some pub /\
    forall e l t w, os_at l t w -> wp (pub e) (fun r w' => r = verdict e /\ os_at l t w') w;
  an_mirror : forall hook e, wd_OnOutboxPublishedMirror deps = Some hook -> keeps_rows (hook e);
  an_dead : forall dlq e m, wd_OutboxDeadLetter deps = Some dlq -> keeps_rows (dlq e m) }.

Definition one_more_failure (err : goerr) (t : Z) (c e : OutboxEvent) : OutboxEvent :=
  let rec := failure_record (wd_Policy deps) t c err in
  failed_publish (truncateOutboxPublishErrMsg (opf_ErrorMessage rec)) (opf_NextPublishAfter rec)
    (opf_DeadLettered rec) t e.
(** What becomes of the row [e] of a claim [c]. *)
Definition settle (verdict : OutboxEvent -> res unit) (t : Z) (c e : OutboxEvent) : OutboxEvent :=
  match verdict c with Ok _ => published t e | Err err => one_more_failure err t c e end.
Definition touched (verdict : OutboxEvent -> res unit) (c : OutboxEvent) : OutboxEvent -> bool :=
  match verdict c with Ok _ => unpublished_row (ob_ID c) | Err _ => open_row (ob_ID c) end.
Lemma settle_id verdict t c e : ob_ID (settle verdict t c e) = ob_ID e.
Proof. unfold settle. by destruct (verdict c). Qed.

Lemma wp_publish_succeeded verdict t c l w :
  answers verdict -> os_at l t w ->
  wp (publish_succeeded deps os_mark t c)
     (fun r w' => r = Ok tt /\ os_at (update_where (unpublished_row (ob_ID c)) (published t) l) t w') w.
Proof.
  intros [_ Hm _] Hat. unfold publish_succeeded. wp_steps. eapply wp_mono; [|by apply os_mark_law].
  intros r w1 [-> H1]. cbn beta iota. destruct (existsb _ _); [|by apply wp_ret].
  destruct (wd_OnOutboxPublishedMirror deps) as [hook|] eqn:Eh; [|by apply wp_ret].
  apply wp_ignore. eapply wp_mono; [|by apply (Hm hook)]. by intros r w2 H2.
Qed.
Lemma wp_publish_failed verdict err t c l w :
  answers verdict -> os_at l t w ->
  wp (publish_failed deps os_repo t c err)
     (fun r w' => r = Ok tt /\ os_at (update_where (open_row (ob_ID c)) (one_more_failure err t c) l) t w') w.
Proof.
  intros [_ _ Hd] Hat. unfold publish_failed. wp_steps.
  pose proof (os_record_law l t w (failure_record (wd_Policy deps) t c err) Hat) as H1. cbn zeta in H1.
  eapply wp_mono; [|exact H1]. clear H1. intros r w1 [-> H1].
  change (os_at (update_where (open_row (ob_ID c)) (one_more_failure err t c) l) t w1) in H1.
  cbn beta iota. destruct (opf_DeadLettered _); [|by apply wp_ret].
  destruct (wd_OutboxDeadLetter deps) as [dlq|] eqn:Eq; [|by apply wp_ret].
  apply wp_ignore. eapply wp_mono; [|by apply (Hd dlq)]. by intros r w2 H2.
Qed.
Lemma wp_tick_answers verdict t l w :
  well_configured -> answers verdict -> 0 < t -> NoDup (map ob_ID l) -> os_at l t w ->
  wp (OutboxDispatchTick deps)
     (fun r w' => r = Ok tt /\ os_at (settled_rows (fun e => settle verdict t e e) t l) t w') w.
Proof.
  intros Hwc Han Ht Hn Hat. apply (wp_tick (touched verdict) (settle verdict t)); try done.
  - intros c e. unfold touched. destruct (verdict c); unfold unpublished_row, open_row;
      rewrite !andb_true_iff; [by intros [E%N.eqb_eq _]|by intros [[E%N.eqb_eq _] _]].
  - intros c e. apply settle_id.
  - intros e [Hpe Hde]%live_row_spec. unfold touched. destruct (verdict _); unfold unpublished_row, open_row; cbn;
      by rewrite N.eqb_refl, Hpe, ?Hde.
  - intros c l' w1 H1. destruct (an_publish _ Han) as (pub & Hpub & Hp).
    unfold dispatch. cbn [ord_ShouldRepublish negb ord_Event]. rewrite Hpub.
    wp_steps. eapply wp_mono; [|by apply Hp]. intros r w2 [-> H2]. cbn beta iota.
    unfold touched, settle. destruct (verdict c) as [[]|err];
      [by eapply wp_publish_succeeded|by eapply wp_publish_failed].
Qed.

(** ** The publisher over a broker *)

(** The worker publishes to JetStream, and the broker answers an event it is
    sent with [sent]: a worker never sends what breaks the contract of the
    message. *)
Record over_broker (subject : OutboxEvent -> string) (sent : OutboxEvent -> res unit) : Prop := {
  ob_send : exists send, wd_OutboxPub deps = Some (JetStreamPublish subject send) /\
    forall e l t w, ValidateOutboxEvent e = Ok tt -> os_at l t w ->
      wp (send e) (fun r w' => r = sent e /\ os_at l t w') w;
  ob_mirror : forall hook e, wd_OnOutboxPublishedMirror deps = Some hook -> keeps_rows (hook e);
  ob_dead : forall dlq e m, wd_OutboxDeadLetter deps = Some dlq -> keeps_rows (dlq e m) }.
(** The broker acknowledges, or refuses, whatever it is sent. *)
Definition broker_up : Prop := exists subject, over_broker subject (fun _ => Ok tt).
Definition broker_down (err : OutboxEvent -> goerr) : Prop := exists subject, over_broker subject (fun e => Err (err e)).

Definition publish_verdict (subject : OutboxEvent -> string) (sent : OutboxEvent -> res unit) (e : OutboxEvent)
    : res unit :=
  match ValidateOutboxEvent e, sent e with
  | Err err, _ => Err err
  | Ok _, Ok _ => Ok tt
  | Ok _, Err err => Err (EWrapPre ("nats: jetstream publish " +:+ subject e) err)
  end.
Lemma over_broker_answers subject sent : over_broker subject sent -> answers (publish_verdict subject sent).
Proof.
  intros [(send & Hpub & Hs) Hm Hd]. split; [|done..]. eexists. split; [exact Hpub|].
  intros e l t w Hat. unfold JetStreamPublish, publish_verdict.
  destruct (ValidateOutboxEvent e) as [[]|err] eqn:Ev; [|by apply wp_bind]. apply wp_bind. cbn beta iota.
  unfold wp at 1, lift. cbn [fst snd]. wp_steps. eapply wp_mono; [|by apply Hs]. intros r w1 [-> H1]. cbn beta iota.
  by destruct (sent e) as [[]|err].
Qed.
End Tick.

(** ** What one tick does to the rows *)

Section Rows.
Context {W : Type} `{!OutboxStore W}.
Variables (deps : WorkerDeps W) (lp : OutboxLeaseParams).

(** What a tick offers a broker: due, and old enough. *)
Definition offered (t : Z) (e : OutboxEvent) : bool :=
  due t e && (ob_CreatedAt e <=? t - min_age deps * Second).

Lemma candidates_length t l :
  length (candidates deps t l) = Nat.min (Z.to_nat (batch_size deps)) (length (List.filter (offered t) l)).
Proof.
  unfold candidates, lease_candidates. rewrite length_take. f_equal.
  by rewrite <- (length_map ob_ID), (oldest_first_map ob_ID), length_map.
Qed.

Lemma candidate_offered t l c : c ∈ candidates deps t l -> c ∈ l /\ offered t c = true.
Proof.
  intros (Hl & Hd & Ha)%candidate_elem. split; [done|]. unfold offered. rewrite Hd. by apply Z.leb_le.
Qed.
Lemma offered_live t e : offered t e = true -> live_row e = true.
Proof. intros [Hd _]%andb_true_iff. by eapply due_live. Qed.
Lemma offered_later t t' e : offered t e = true -> t <= t' -> offered t' e = true.
Proof.
  unfold offered, due. rewrite !andb_true_iff. intros [[[Hu Hn] Hs] Ha%Z.leb_le] Ht.
  split_and!; [done| | |apply Z.leb_le; lia].
  - unfold null_or_reached in *. destruct (ob_NextPublishAfter e); [|done]. apply Z.leb_le in Hn. apply Z.leb_le. lia.
  - apply orb_true_iff in Hs as [Hs|[Hs Hl]%andb_true_iff]; apply orb_true_iff; [by left|right].
    rewrite Hs. unfold null_or_passed in *. destruct (ob_LockedUntil e); [|done].
    apply Z.ltb_lt in Hl. apply Z.ltb_lt. lia.
Qed.
(** When the batch holds them all, every offered row is a candidate. *)
Lemma offered_candidate t l e :
  Z.of_nat (length (List.filter (offered t) l)) <= batch_size deps -> e ∈ l -> offered t e = true ->
  e ∈ candidates deps t l.
Proof.
  intros Hb He Hr. unfold candidates, lease_candidates. rewrite take_ge.
  - unfold oldest_first, in_order. rewrite !elem_of_stable_sort. by apply elem_of_filter_bool.
  - rewrite <- (length_map ob_ID), (oldest_first_map ob_ID), length_map.
    apply Nat2Z.inj_le.
    rewrite Z2Nat.id by lia. exact Hb.
Qed.

(** A measure of the rows, summed over a table. *)
Definition total (f : OutboxEvent -> Z) (l : list OutboxEvent) : Z := foldr (fun e n => f e + n) 0 l.
Lemma total_nonneg f l : (forall e, 0 <= f e) -> 0 <= total f l.
Proof. intros Hf. induction l as [|x l IH]; cbn [total foldr]; [lia|]. fold (total f l). specialize (Hf x). lia. Qed.
Lemma total_elem f l e : (forall e, 0 <= f e) -> e ∈ l -> f e <= total f l.
Proof.
  intros Hf. induction l as [|x l IH]; [by intros ?%elem_of_nil|].
  pose proof (total_nonneg f l Hf). cbn [total foldr]. fold (total f l).
  intros [->|He]%elem_of_cons; [lia|]. specialize (IH He). specialize (Hf x). lia.
Qed.
Lemma total_update f p g l : (forall e, e ∈ l -> p e = true -> f (g e) = f e - 1) ->
  total f (update_where p g l) = total f l - Z.of_nat (length (List.filter p l)).
Proof.
  induction l as [|x l IH]; [done|]. intros H. rewrite update_where_cons. cbn [total foldr List.filter].
  fold (total f l) (total f (update_where p g l)). rewrite IH by (intros; apply H; [by right|done]).
  destruct (p x) eqn:E; cbn [length]; [rewrite H by (done || by left); lia|lia].
Qed.
Lemma candidates_filter t l : NoDup (map ob_ID l) ->
  length (List.filter (has_row_id (candidates deps t l)) l) = length (candidates deps t l).
Proof.
  intros Hn. rewrite <- (length_map ob_ID), <- (length_map ob_ID (candidates _ _ _)).
  apply Permutation_length, NoDup_Permutation; [by apply NoDup_map_filter|by apply NoDup_candidates|].
  intros x. rewrite !list_elem_of_fmap. split.
  - intros (e & -> & [He Hc]%elem_of_filter_bool). exists e. split; [done|]. by apply row_of_candidate.
  - intros (e & -> & He). exists e. split; [done|]. apply elem_of_filter_bool.
    split; [by eapply candidate_elem|]. apply has_row_id_spec. by exists e.
Qed.
Lemma settled_total f g t l : NoDup (map ob_ID l) ->
  (forall e, e ∈ candidates deps t l -> f (g (claim_of lp t e)) = f e - 1) ->
  total f (settled_rows deps lp g t l) = total f l - Z.of_nat (length (candidates deps t l)).
Proof.
  intros Hn Hf. unfold settled_rows. rewrite total_update, candidates_filter; try done.
  intros e He Hc. apply Hf. by apply row_of_candidate.
Qed.
Lemma settled_ids g t l : (forall e, ob_ID (g e) = ob_ID e) -> map ob_ID (settled_rows deps lp g t l) = map ob_ID l.
Proof. intros Hg. apply map_update_where. intros e. by rewrite Hg. Qed.
(** Where a row goes. *)
Lemma settled_elem g t l e : NoDup (map ob_ID l) -> e ∈ l ->
  e ∈ candidates deps t l /\ g (claim_of lp t e) ∈ settled_rows deps lp g t l \/
  e ∉ candidates deps t l /\ e ∈ settled_rows deps lp g t l.
Proof.
  intros Hn He. destruct (has_row_id (candidates deps t l) e) eqn:Ec.
  - left. split; [by apply row_of_candidate|]. apply elem_of_update_where. exists e. by rewrite Ec.
  - right. split.
    + intros Hc. apply not_true_iff_false in Ec. apply Ec, has_row_id_spec. by exists e.
    + apply elem_of_update_where. exists e. by rewrite Ec.
Qed.
End Rows.

(** ** Ticks over time *)

Section Progress.
Context {W : Type} `{!OutboxStore W}.
Variables (deps : WorkerDeps W) (lp : OutboxLeaseParams).

(** At least [gap] passes, and nobody touches the rows. *)
Definition time_passes (gap : Z) (w w' : W) : Prop :=
  forall l t, os_at l t w -> exists t', t + gap <= t' /\ os_at l t' w'.
Inductive ticks (gap : Z) : nat -> W -> W -> Prop :=
| ticks_0 w : ticks gap 0 w w
| ticks_S k w w1 w2 : time_passes gap (OutboxDispatchTick deps w).2 w1 -> ticks gap k w1 w2 ->
    ticks gap (S k) w w2.

Definition is_live (e : OutboxEvent) : Z := if live_row e then 1 else 0.
Definition delivered (e : OutboxEvent) : Prop := ob_PublishedAt e <> None.
Definition quarantined (e : OutboxEvent) : Prop := ob_PublishedAt e = None /\ ob_DeadLetteredAt e <> None.

(** A sequence of ticks, each of which settles its candidates by [g]. *)
Lemma ticks_settle (P : OutboxEvent -> Prop) (g : Z -> OutboxEvent -> OutboxEvent) gap k w w' l t :
  0 <= gap -> (forall t e, ob_ID (g t e) = ob_ID e) -> (forall e, P e -> live_row e = false) ->
  (forall t l w, 0 < t -> NoDup (map ob_ID l) -> os_at l t w ->
     wp (OutboxDispatchTick deps) (fun r w' => r = Ok tt /\ os_at (settled_rows deps lp (g t) t l) t w') w) ->
  ticks gap k w w' -> 0 < t -> NoDup (map ob_ID l) -> os_at l t w ->
  exists l' t', os_at l' t' w' /\ forall e, e ∈ l -> P e -> e ∈ l'.
Proof.
  intros Hgap Hg HP Htick Hk. revert l t. induction Hk as [w|k w w1 w2 Hp _ IH]; intros l t Ht Hn Hat.
  - by exists l, t.
  - destruct (Htick t l w Ht Hn Hat) as [_ H1]. destruct (Hp _ _ H1) as (t1 & Ht1 & Hat1).
    destruct (IH _ _ (Z.lt_le_trans 0 (t + gap) t1 ltac:(lia) Ht1)
                (eq_ind_r NoDup Hn (settled_ids deps lp (g t) t l (Hg t))) Hat1) as (l' & t' & H' & HK).
    exists l', t'. split; [done|]. intros e He HPe. apply HK; [|done].
    destruct (settled_elem deps lp (g t) t l e Hn He) as [[Hc _]|[_ Hs]]; [|done].
    apply candidate_offered in Hc as [_ Hr%offered_live]. by rewrite (HP e HPe) in Hr.
Qed.


Lemma is_live_nonneg e : 0 <= is_live e.
Proof. unfold is_live. by destruct (live_row e). Qed.
Lemma delivered_not_live e : delivered e -> live_row e = false.
Proof. unfold delivered, live_row. by destruct (ob_PublishedAt e). Qed.
Lemma quarantined_not_live e : quarantined e -> live_row e = false.
Proof. unfold quarantined, live_row. intros [-> Hd]. by destruct (ob_DeadLetteredAt e). Qed.
Lemma live_counts f l e : (forall e, 0 <= f e) -> (forall e, live_row e = true -> 1 <= f e) ->
  e ∈ l -> live_row e = true -> 1 <= total f l.
Proof. intros Hf Hl He Hr. pose proof (total_elem f l e Hf He). specialize (Hl e Hr). lia. Qed.
Lemma is_live_live e : live_row e = true -> 1 <= is_live e.
Proof. intros H. unfold is_live. by rewrite H. Qed.

(** Ready, in terms of the life of a row: it waits, its backoff is over, no
    other worker holds it, and it is old enough. *)
Definition ready (t : Z) (e : OutboxEvent) : bool :=
  live_row e && null_or_reached (ob_NextPublishAfter e) t &&
  negb (String.eqb (ob_Status e) "publishing" && negb (null_or_passed (ob_LockedUntil e) t)) &&
  (ob_CreatedAt e <=? t - min_age deps * Second).
Lemma stamped_ready t e : stamped e -> ready t e = offered deps t e.
Proof. intros Hs. unfold ready, offered. by rewrite stamped_due. Qed.

(** The attempts a row has left. *)
Definition max_attempts (e : OutboxEvent) : Z :=
  EffectiveOutboxMaxAttempts e (rp_OutboxMaxPublishAttempts (wd_Policy deps)).
Definition attempts_left (e : OutboxEvent) : Z :=
  if live_row e then Z.max 1 (max_attempts e - ob_PublishAttemptCount e) else 0.
Definition longest_backoff : Z := rp_OutboxPublishBackoffMax (wd_Policy deps).

Lemma attempts_left_nonneg e : 0 <= attempts_left e.
Proof. unfold attempts_left. destruct (live_row e); lia. Qed.
Lemma attempts_left_live e : live_row e = true -> 1 <= attempts_left e.
Proof. intros H. unfold attempts_left. rewrite H. lia. Qed.

(** One more failed attempt on a claim_of row: it is quarantined, or waits no
    longer than the longest backoff, with one attempt less. *)
Lemma policy_backoff : ValidateRecoveryPolicy (wd_Policy deps) = Ok tt ->
  0 < rp_OutboxPublishBackoffBase (wd_Policy deps) <= longest_backoff.
Proof.
  unfold ValidateRecoveryPolicy, guard_err, longest_backoff.
  repeat match goal with |- res_bind (if ?b then _ else _) _ = _ -> _ => destruct b eqn:?; [done|]; cbn [res_bind] end.
  destruct (Z.ltb_spec (rp_OutboxPublishBackoffMax (wd_Policy deps)) (rp_OutboxPublishBackoffBase (wd_Policy deps)));
    [done|]. intros _. rewrite Z.leb_gt in *. lia.
Qed.
Lemma failure_left err t e : offered deps t e = true ->
  attempts_left (one_more_failure deps err t (claim_of lp t e) (claim_of lp t e)) = attempts_left e - 1.
Proof.
  intros Hl%offered_live. pose proof (live_row_spec e Hl) as [Hp Hd]. unfold attempts_left at 2. rewrite Hl.
  unfold one_more_failure, failure_record, failed_publish, attempts_left, live_row, claim_of, leased.
  cbn -[Z.max]. rewrite Hp, Hd.
  change (EffectiveOutboxMaxAttempts _ _) with (max_attempts e).
  change (max_attempts (outbox_with _ _ _ _ _ _ _ _ _ _ _)) with (max_attempts e).
  unfold OutboxWillDeadLetterThisFailure. destruct (Z.leb_spec (max_attempts e) (ob_PublishAttemptCount e + 1)); cbn -[Z.max]; lia.
Qed.
Lemma backoff_loop_le n d max : backoff_loop n d max <= max.
Proof.
  revert d. induction n as [|n IH]; intros d; cbn [backoff_loop].
  - destruct (Z.ltb_spec max d); lia.
  - case_match; [lia|apply IH].
Qed.
Lemma backoff_le_longest n : ValidateRecoveryPolicy (wd_Policy deps) = Ok tt ->
  OutboxPublishBackoffAfterFailure n (rp_OutboxPublishBackoffBase (wd_Policy deps)) longest_backoff <= longest_backoff.
Proof.
  intros Hp%policy_backoff. unfold OutboxPublishBackoffAfterFailure.
  rewrite (proj2 (Z.leb_gt _ 0)) by lia. rewrite (proj2 (Z.ltb_ge longest_backoff _)) by lia.
  apply backoff_loop_le.
Qed.
Lemma failure_next err t t' e : ValidateRecoveryPolicy (wd_Policy deps) = Ok tt ->
  offered deps t e = true -> t + longest_backoff <= t' ->
  let e' := one_more_failure deps err t (claim_of lp t e) (claim_of lp t e) in
  quarantined e' \/ offered deps t' e' = true.
Proof.
  intros Hpol Hr Ht. cbn zeta. pose proof (offered_live _ _ _ Hr) as [Hp Hd]%live_row_spec.
  pose proof (policy_backoff Hpol) as Hpos. unfold offered in Hr. apply andb_true_iff in Hr as [_ Ha%Z.leb_le].
  unfold one_more_failure, failure_record, failed_publish, claim_of, leased. cbn -[OutboxPublishBackoffAfterFailure].
  rewrite Hp, Hd. destruct (OutboxWillDeadLetterThisFailure _ _); [left|right].
  - by split.
  - unfold offered, due, unterminated, min_age. cbn -[OutboxPublishBackoffAfterFailure Z.mul].
    pose proof (backoff_le_longest (wrap32 (ob_PublishAttemptCount e + 1)) Hpol) as Hb. unfold longest_backoff in *.
    apply andb_true_iff. split; [|apply Z.leb_le; unfold min_age in Ha; lia].
    rewrite andb_true_r. apply Z.leb_le. lia.
Qed.

(** *** A broker that is up *)

(** The ticks an event may still take a place in: one for an event that can be
    sent, an attempt each for one that cannot. *)
Definition tries_left (e : OutboxEvent) : Z :=
  match ValidateOutboxEvent e with Ok _ => is_live e | Err _ => attempts_left e end.
Lemma tries_left_nonneg e : 0 <= tries_left e.
Proof. unfold tries_left. destruct (ValidateOutboxEvent e); [apply is_live_nonneg|apply attempts_left_nonneg]. Qed.
Lemma tries_left_live e : live_row e = true -> 1 <= tries_left e.
Proof. unfold tries_left. destruct (ValidateOutboxEvent e); [apply is_live_live|apply attempts_left_live]. Qed.
Lemma claim_keeps_contract t e : ValidateOutboxEvent (claim_of lp t e) = ValidateOutboxEvent e.
Proof. reflexivity. Qed.
Lemma failure_keeps_contract err t c e : ValidateOutboxEvent (one_more_failure deps err t c e) = ValidateOutboxEvent e.
Proof. reflexivity. Qed.
Lemma published_keeps_contract t e : ValidateOutboxEvent (published t e) = ValidateOutboxEvent e.
Proof. reflexivity. Qed.

Section Up.
Context (subject : OutboxEvent -> string).
Notation verdict := (publish_verdict subject (fun _ => Ok tt)).
Lemma settled_tries t e : offered deps t e = true ->
  tries_left (settle deps verdict t (claim_of lp t e) (claim_of lp t e)) = tries_left e - 1.
Proof.
  intros Ho. unfold settle, publish_verdict. rewrite claim_keeps_contract.
  destruct (ValidateOutboxEvent e) as [[]|err] eqn:Ev; unfold tries_left.
  - rewrite published_keeps_contract, claim_keeps_contract, Ev. unfold is_live.
    by rewrite (offered_live _ _ _ Ho).
  - rewrite failure_keeps_contract, claim_keeps_contract, Ev. by apply failure_left.
Qed.
Lemma settled_valid t e : ValidateOutboxEvent e = Ok tt ->
  settle deps verdict t (claim_of lp t e) (claim_of lp t e) = published t (claim_of lp t e).
Proof. intros Ev. unfold settle, publish_verdict. by rewrite claim_keeps_contract, Ev. Qed.

Lemma drains_offered k w w' l t :
  well_configured deps lp -> over_broker deps subject (fun _ => Ok tt) -> ticks 0 k w w' ->
  0 < t -> NoDup (map ob_ID l) -> os_at l t w ->
  total tries_left l <= Z.of_nat k * batch_size deps ->
  exists l' t', os_at l' t' w' /\ forall e, e ∈ l ->
    offered deps t e = true /\ ValidateOutboxEvent e = Ok tt \/ delivered e ->
    exists e', e' ∈ l' /\ outbox_identity e' = outbox_identity e /\ delivered e'.
Proof.
  intros Hwc Hup%over_broker_answers Hk. revert l t.
  induction Hk as [w|k w w1 w2 Hp Hk IH]; intros l t Ht Hn Hat Htot.
  { exists l, t. split; [done|]. intros e He [[Hr%offered_live _]|Hd]; [|by exists e].
    pose proof (live_counts tries_left l e tries_left_nonneg tries_left_live He Hr). lia. }
  set (g := fun t e => settle deps verdict t e e).
  destruct (wp_tick_answers deps lp verdict t l w) as [_ H1]; [done..|]. destruct (Hp _ _ H1) as (t1 & Ht1 & Hat1).
  assert (Hg : forall t e, ob_ID (g t e) = ob_ID e) by (intros; apply settle_id).
  assert (Hn1 : NoDup (map ob_ID (settled_rows deps lp (g t) t l))) by by rewrite settled_ids.
  pose proof (fun e He => settled_elem deps lp (g t) t l e Hn He) as Hgo.
  destruct (Z.le_gt_cases (Z.of_nat (length (List.filter (offered deps t) l))) (batch_size deps)) as [Hle|Hgt].
  - destruct (ticks_settle delivered g 0 k w1 w2 (settled_rows deps lp (g t) t l) t1)
      as (l' & t' & H' & HK); try done; [by apply delivered_not_live|by intros; apply wp_tick_answers|lia|].
    exists l', t'. split; [done|]. intros e He [[Hr Hv]|Hd].
    + exists (published t (claim_of lp t e)). split; [|done]. apply HK; [|done].
      pose proof (offered_candidate deps t l e Hle He Hr) as Hc. rewrite <- settled_valid by done.
      by destruct (Hgo e He) as [[_ ?]|[? _]].
    + exists e. split; [|done]. apply HK; [|done]. destruct (Hgo e He) as [[Hc _]|[_ ?]]; [|done].
      apply candidate_offered in Hc as [_ Hr%offered_live]. by rewrite delivered_not_live in Hr.
  - destruct (IH (settled_rows deps lp (g t) t l) t1) as (l' & t' & H' & HK); [lia|done..| |].
    { rewrite settled_total; [|done|].
      - rewrite candidates_length. pose proof (wc_batch _ _ Hwc). lia.
      - intros e [_ Hr]%candidate_offered. by apply settled_tries. }
    exists l', t'. split; [done|]. intros e He Hr. destruct (Hgo e He) as [[Hc Hs]|[_ Hs]].
    + apply candidate_offered in Hc as [_ Ho]. destruct Hr as [[_ Hv]|Hd].
      * unfold g in Hs. rewrite settled_valid in Hs by done.
        destruct (HK _ Hs) as (e' & ? & Hi & ?); [by right|]. by exists e'.
      * apply offered_live in Ho. by rewrite delivered_not_live in Ho.
    + apply HK; [done|]. destruct Hr as [[Hr Hv]|Hd]; [left; split; [eapply offered_later; [done|lia]|done]|by right].
Qed.
End Up.

(** C19: A broker that acknowledges what it is sent drains the outbox: when [k]
    batches hold every unpublished event (an event that breaks the contract of
    the message, which the publisher refuses, counted once for each attempt it
    has left), every event that honours the contract and was ready at the start,
    or was delivered, is delivered after [k] ticks of the worker, with its
    identity unchanged, however the clock moves between them and wherever the
    events that cannot be sent stand. *)
Theorem outbox_drains k w w' l t :
  well_configured deps lp -> broker_up deps -> ticks 0 k w w' ->
  0 < t -> NoDup (map ob_ID l) -> (forall e, e ∈ l -> stamped e) -> os_at l t w ->
  total tries_left l <= Z.of_nat k * batch_size deps ->
  exists l' t', os_at l' t' w' /\ forall e, e ∈ l ->
    ready t e = true /\ ValidateOutboxEvent e = Ok tt \/ delivered e ->
    exists e', e' ∈ l' /\ outbox_identity e' = outbox_identity e /\ delivered e'.
Proof.
  intros Hwc [subject Hup] Hk Ht Hn Hs Hat Htot.
  destruct (drains_offered subject k w w' l t) as (l' & t' & H' & HK); try done.
  exists l', t'. split; [done|]. intros e He Hr. apply HK; [done|]. by rewrite <- stamped_ready by auto.
Qed.

(** *** A broker that is down *)

Lemma refused_failure verdict t c e err : verdict c = Err err ->
  settle deps verdict t c e = one_more_failure deps err t c e.
Proof. intros E. unfold settle. by rewrite E. Qed.
Lemma gives_up_offered verdict k w w' l t :
  (forall e, exists err, verdict e = Err err) ->
  well_configured deps lp -> answers deps verdict -> ticks longest_backoff k w w' ->
  0 < t -> NoDup (map ob_ID l) -> os_at l t w ->
  total attempts_left l <= Z.of_nat k ->
  exists l' t', os_at l' t' w' /\ forall e, e ∈ l -> offered deps t e = true \/ quarantined e ->
    exists e', e' ∈ l' /\ outbox_identity e' = outbox_identity e /\ quarantined e'.
Proof.
  intros Hrefuse Hwc Hdown Hk. pose proof (wc_policy _ _ Hwc) as Hpol. pose proof (policy_backoff Hpol) as Hpos.
  revert l t. induction Hk as [w|k w w1 w2 Hp Hk IH]; intros l t Ht Hn Hat Htot.
  { exists l, t. split; [done|]. intros e He [Hr%offered_live|Hd]; [|by exists e].
    pose proof (live_counts attempts_left l e attempts_left_nonneg attempts_left_live He Hr). lia. }
  destruct (wp_tick_answers deps lp verdict t l w) as [_ H1]; [done..|]. destruct (Hp _ _ H1) as (t1 & Ht1 & Hat1).
  set (g := fun t e => settle deps verdict t e e) in *.
  assert (Hg : forall t e, ob_ID (g t e) = ob_ID e) by (intros; apply settle_id).
  assert (Hn1 : NoDup (map ob_ID (settled_rows deps lp (g t) t l))) by by rewrite settled_ids.
  pose proof (fun e He => settled_elem deps lp (g t) t l e Hn He) as Hgo.
  assert (Hleft : total attempts_left (settled_rows deps lp (g t) t l) =
                  total attempts_left l - Z.of_nat (length (candidates deps t l))).
  { apply settled_total; [done|]. intros e [_ Hr]%candidate_offered.
    destruct (Hrefuse (claim_of lp t e)) as [err Ee]. unfold g. rewrite (refused_failure _ _ _ _ _ Ee). by apply failure_left. }
  destruct (decide (length (candidates deps t l) = 0%nat)) as [E0|Hne].
  - destruct (ticks_settle quarantined g longest_backoff k w1 w2 (settled_rows deps lp (g t) t l) t1)
      as (l' & t' & H' & HK); try done; [lia|by apply quarantined_not_live|by intros; apply wp_tick_answers|lia|].
    exists l', t'. split; [done|]. intros e He [Hr|Hd].
    + rewrite candidates_length in E0. pose proof (wc_batch _ _ Hwc).
      assert (In e (List.filter (offered deps t) l)) as Hin by (apply filter_In; by rewrite <- list_elem_of_In).
      destruct (List.filter (offered deps t) l); [done|]. cbn in E0. lia.
    + exists e. split; [|done]. apply HK; [|done]. destruct (Hgo e He) as [[Hc _]|[_ ?]]; [|done].
      apply candidate_offered in Hc as [_ Hr%offered_live]. by rewrite quarantined_not_live in Hr.
  - destruct (IH (settled_rows deps lp (g t) t l) t1) as (l' & t' & H' & HK); [lia|done|done|lia|].
    exists l', t'. split; [done|]. intros e He Hr. destruct (Hgo e He) as [[Hc Hs]|[_ Hs]].
    + apply candidate_offered in Hc as [_ Hre]. destruct (Hrefuse (claim_of lp t e)) as [err Ee].
      unfold g in Hs. rewrite (refused_failure _ _ _ _ _ Ee) in Hs.
      destruct (failure_next err t t1 e Hpol Hre Ht1) as [Hq|Hre'];
        destruct (HK _ Hs) as (e' & ? & Hi & ?); [by right|by exists e'|by left|by exists e'].
    + apply HK; [done|]. destruct Hr as [Hr|Hd]; [left; eapply offered_later; [done|lia]|by right].
Qed.

End Progress.

(** ** PostgreSQL keeps the promises of the interface *)

(** No transaction is open, nothing fails and nobody else acts. *)
Definition quiet (l : list OutboxEvent) (t : Z) (w : world) : Prop :=
  w_sched w = [] /\ w_tx w = NoTx /\ w_now w = t /\ d_outbox (w_db w) = l.

Lemma quiet_stmt {A} (f : sql A) l t w (Q : res A -> world -> Prop) :
  quiet l t w ->
  (forall d id r d', d_outbox d = l -> f t id d = Ok (r, d') ->
     forall w', quiet (d_outbox d') t w' -> Q (match r with Some a => Ok a | None => Err ErrNoRows end) w') ->
  (forall d id e, f t id d = Err e -> False) ->
  wp (stmt f) Q w.
Proof.
  intros (Hs & Ht & <- & Hl) Hok Herr. unfold wp, stmt. rewrite Ht, Hs. cbn [next_event].
  destruct (f (w_now w) (w_next w) (w_db w)) as [[r d']|e] eqn:E; [|by destruct (Herr _ _ _ E)].
  by eapply (Hok (w_db w) (w_next w)).
Qed.
Lemma find_existsb {A} (p : A -> bool) l : existsb p l = negb (is_none (List.find p l)).
Proof. induction l as [|x l IH]; [done|]. cbn. by destruct (p x). Qed.

#[export] Program Instance pg_store : OutboxStore world := {
  os_repo := pg_outbox; os_mark := MarkOutboxPublished; os_clock := time_Now; os_at := quiet }.
Next Obligation. intros l t w Hq. split; [|done]. by destruct Hq as (_ & _ & <- & _). Qed.
Next Obligation.
  intros l t w Hq. eapply quiet_stmt; [done| |done]. intros d id r d' <- [= <- <-] w' Hw'. by split.
Qed.
Next Obligation.
  intros l t w worker ttl age n Hb Hq. cbn. unfold LeaseOutboxForPublish. rewrite Hb.
  eapply quiet_stmt; [done| |done]. intros d id r d' <- [= <- <-] w' Hw'. by split.
Qed.
Next Obligation.
  intros l t w rec Hq. cbn. unfold RecordOutboxPublishFailure, RecordOutboxPublishFailureQ. apply wp_fmap.
  eapply quiet_stmt; [done| |done]. intros d id r d' <- [= <- <-] w' Hw'. by split.
Qed.
Next Obligation.
  intros l t w id Hq. unfold MarkOutboxPublished. wp_steps. unfold MarkOutboxEventPublished.
  eapply quiet_stmt; [done| |].
  - intros d k r d' <-. unfold update_rows. rewrite find_existsb.
    destruct (List.find (unpublished_row id) (d_outbox d)) as [e|] eqn:E; cbn; intros [= <- <-] w' Hw'; (split; [done|]);
      [done|]. rewrite update_where_none; [done|]. by apply find_None_elem.
  - intros d k e. unfold update_rows. by destruct (List.find _ _).
Qed.

(** Time on the database server. *)
Definition later (gap : Z) (w : world) : world :=
  mk_world (w_db w) (w_tx w) (w_sched w) (w_now w + gap) (w_next w).
Lemma later_passes gap w : time_passes gap w (later gap w).
Proof. intros l t (Hs & Ht & <- & Hl). exists (w_now w + gap). by split; [lia|]. Qed.
Fixpoint tick_for (deps : WorkerDeps world) (gap : Z) (k : nat) (w : world) : world :=
  match k with
  | O => w
  | S k => tick_for deps gap k (later gap (OutboxDispatchTick deps w).2)
  end.
Lemma tick_for_ticks deps gap k w : ticks deps gap k w (tick_for deps gap k w).
Proof.
  revert w. induction k as [|k IH]; intros w; [constructor|]. econstructor; [apply later_passes|apply IH].
Qed.

(** ** The published events *)

Definition is_published (e : OutboxEvent) : bool := negb (is_none (ob_PublishedAt e)).
Definition published_ids (d : pgdb) : list N := map ob_ID (List.filter is_published (d_outbox d)).
(** Others may publish only what was published. *)
Definition publishes_nothing (d d' : pgdb) : Prop := forall id, id ∈ published_ids d' -> id ∈ published_ids d.
(** [i] is not published in between. *)
Definition not_published (i : N) (d d' : pgdb) : Prop := i ∈ published_ids d' -> i ∈ published_ids d.
#[export] Instance not_published_preorder i : PreOrder (not_published i).
Proof. split; [by intros d ?|]. intros a b c. unfold not_published. auto. Qed.

Lemma published_ids_update p f d :
  (forall e, ob_ID (f e) = ob_ID e) -> (forall e, ob_PublishedAt (f e) = ob_PublishedAt e) ->
  published_ids (set_outbox (update_where p f) d) = published_ids d.
Proof.
  intros Hi Hp. unfold published_ids. cbn. rewrite filter_update_where by (intros; unfold is_published; by rewrite Hp).
  by rewrite map_update_where.
Qed.

Section Others.
Variable i : N.
Let P := not_published i.

Lemma np_update_outbox p f :
  (forall now e, ob_ID (f now e) = ob_ID e) -> (forall now e, ob_PublishedAt (f now e) = ob_PublishedAt e) ->
  sql_guarantee P (update_outbox p f).
Proof. intros Hi Hp now k d r d' [= _ <-]. unfold P, not_published. by rewrite published_ids_update. Qed.
Lemma np_read {A} (f : Z -> pgdb -> A) : sql_guarantee P (fun now _ d => Ok (Some (f now d), d)).
Proof. by intros now k d r d' [= _ <-]. Qed.
Lemma np_lease worker ttl age limit :
  sql_guarantee P (fun now _ d =>
    let candidates := lease_candidates now age limit (d_outbox d) in
    Ok (Some (map (leased worker ttl now) candidates),
        set_outbox (update_where (has_row_id candidates) (leased worker ttl now)) d)).
Proof. intros now k d r d' [= _ <-]. unfold P, not_published. by rewrite published_ids_update. Qed.
Lemma np_mark id : id <> i ->
  sql_guarantee P (update_rows d_outbox set_outbox no_check (unpublished_row id) published).
Proof.
  intros Hne now k d r d'. unfold update_rows. destruct (List.find _ _); cbn; [|by intros [= _ <-]].
  intros [= _ <-]. unfold P, not_published, published_ids. cbn. rewrite !list_elem_of_fmap.
  intros (e & -> & [(x & Hx & ->)%elem_of_update_where He]%elem_of_filter_bool).
  destruct (unpublished_row id x) eqn:E.
  - apply andb_true_iff in E as [E%N.eqb_eq _]. by destruct Hne.
  - exists x. by rewrite elem_of_filter_bool.
Qed.

Context {R : world -> world -> Prop} `{!Statement_rel P R}.
Lemma np_repo : repo_evolves R pg_outbox.
Proof.
  split_and!; cbn; intros; [apply sr_stmt, np_read| |by apply evolves_fmap, sr_stmt, np_update_outbox|apply sr_stmt, np_read].
  unfold LeaseOutboxForPublish. case_match; [evolve|]. apply sr_stmt, np_lease.
Qed.
Lemma np_MarkOutboxPublished id : id <> i -> evolves R (MarkOutboxPublished id).
Proof.
  intros Hne. unfold MarkOutboxPublished. apply evolves_bind; [apply _| |evolve].
  apply evolves_bind; [apply _|by apply evolves_attempt, sr_stmt, np_mark|]. intros [|]; [evolve|]. case_match; evolve.
Qed.
End Others.

(** ** Beside a broker *)

Notation node := (world * list N)%type.
(** The database's operations do not reach the broker, and the other way
    round. *)
Definition on_store {A} (m : M world A) : M node A :=
  fun w => let '(r, s) := m w.1 in (r, (s, w.2)).
Definition on_broker {A} (m : list N -> res A * list N) : M node A :=
  fun w => let '(r, b) := m w.2 in (r, (w.1, b)).
Definition outbox_on_store (r : OutboxRepository world) : OutboxRepository node :=
  mk_OutboxRepository (fun n => on_store (or_ListUnpublished r n))
    (fun a b c n => on_store (or_LeaseOutboxForPublish r a b c n))
    (fun rec => on_store (or_RecordOutboxPublishFailure r rec)) (on_store (or_GetOutboxPipelineStats r)).

(** A broker forgets no acknowledgement, and says yes only after one.  The
    channel of the dead letters and the mirror are topics of their own. *)
Record broker := mk_broker {
  bk_publish : OutboxEvent -> list N -> res unit * list N;
  bk_dead : OutboxEvent -> string -> list N -> res unit * list N;
  bk_mirror : OutboxEvent -> list N -> res unit * list N }.
Record broker_laws (b : broker) : Prop := {
  bl_publish e s : s ⊆ (bk_publish b e s).2 /\ ((bk_publish b e s).1 = Ok tt -> ob_ID e ∈ (bk_publish b e s).2);
  bl_dead e m s : s ⊆ (bk_dead b e m s).2;
  bl_mirror e s : s ⊆ (bk_mirror b e s).2 }.
(** The worker over PostgreSQL and the broker. *)
Definition pg_worker (b : broker) (policy : RecoveryPolicy) (maxItems batch : Z)
    (lease : option OutboxLeaseParams) : WorkerDeps node :=
  let repo := outbox_on_store pg_outbox in
  mk_WorkerDeps (Some (mk_ReliabilityService None None None (Some repo))) policy maxItems batch (Some repo)
    (Some (fun id => on_store (MarkOutboxPublished id)))
    (Some (JetStreamPublish LogicalTopic (fun e => on_broker (bk_publish b e)))) (Some (fun e m => on_broker (bk_dead b e m)))
    (Some (fun e => on_broker (bk_mirror b e))) lease false None None (on_store time_Now).

(** Until [i] is acknowledged it is not published. *)
Definition acked_first (i : N) (w w' : node) : Prop :=
  w.2 ⊆ w'.2 /\ (i ∉ w'.2 -> world_rel (not_published i) w.1 w'.1).
#[export] Instance acked_first_preorder i : PreOrder (acked_first i).
Proof.
  split; [by intros w|]. intros a b c [H1 R1] [H2 R2]. split; [by etransitivity|].
  intros Hi. transitivity b.1; [|by apply R2]. apply R1. by intros ?%H2.
Qed.
Lemma acked_on_store {A} i (m : M world A) :
  evolves (world_rel (not_published i)) m -> evolves (acked_first i) (on_store m).
Proof. intros Hm w. specialize (Hm w.1). unfold on_store. destruct (m w.1) as [r s]. by split. Qed.
Lemma acked_on_broker {A} i (m : list N -> res A * list N) :
  (forall s, s ⊆ (m s).2) -> evolves (acked_first i) (on_broker m).
Proof.
  intros Hm w. specialize (Hm w.2). unfold on_broker. destruct (m w.2) as [r s].
  split; [done|]. intros _. cbn. reflexivity.
Qed.

Lemma ev_JetStreamPublish {W} (R : W -> W -> Prop) `{!PreOrder R} subject send e :
  evolves R (send e) -> evolves R (JetStreamPublish subject send e).
Proof.
  intros Hs. unfold JetStreamPublish. apply evolves_bind; [done|evolve|intros _].
  apply evolves_bind; [done|by apply evolves_attempt|]. intros [|]; evolve.
Qed.
Lemma JetStreamPublish_Ok {W} subject (send : OutboxEvent -> M W unit) e w w' :
  JetStreamPublish subject send e w = (Ok tt, w') -> send e w = (Ok tt, w').
Proof.
  unfold JetStreamPublish, bind, lift, attempt. destruct (ValidateOutboxEvent e); [|done].
  by destruct (send e w) as [[[]|] ?].
Qed.

Lemma ev_pg_worker i b policy maxItems batch lease :
  broker_laws b -> evolves (acked_first i) (OutboxDispatchTick (pg_worker b policy maxItems batch lease)).
Proof.
  intros [Hp Hd Hm]. apply ev_OutboxDispatchTick; [apply _|].
  assert (repo_evolves (acked_first i) (outbox_on_store pg_outbox)) as Hrepo.
  { destruct (np_repo i (R := world_rel (not_published i))) as (H1 & H2 & H3 & H4).
    split_and!; intros; apply acked_on_store; [apply H1|apply H2|apply H3|apply H4]. }
  split.
  - by intros s r [= <-] [= <-].
  - by intros r [= <-].
  - intros p m e [= <-] [= <-]. split; [apply ev_JetStreamPublish; [apply _|]; apply acked_on_broker; intros s; apply Hp|].
    intros now w w' E%JetStreamPublish_Ok. destruct (decide (ob_ID e = i)) as [<-|Hne].
    + unfold on_broker in E. destruct (Hp e w.2) as [_ Hack]. destruct (bk_publish b e w.2) as [r s].
      injection E as -> <-. specialize (Hack eq_refl). cbn in Hack.
      assert (evolves (fun a c : node => a.2 ⊆ c.2) (publish_succeeded (pg_worker b policy maxItems batch lease)
        (fun id => on_store (MarkOutboxPublished id)) now e)) as Hgrow.
      { apply ev_publish_succeeded; [split; [by intros ?|by intros ??? ->]| |].
        - intros a. unfold on_store. by destruct (MarkOutboxPublished _ _).
        - intros q e' [= <-] a. unfold on_broker. specialize (Hm e' a.2). by destruct (bk_mirror _ _ _). }
      specialize (Hgrow (w.1, s)). split; [done|]. intros Hi. destruct Hi. by apply Hgrow.
    + apply ev_publish_succeeded; [apply _|by eapply acked_on_store, (np_MarkOutboxPublished i)|].
      intros q e' [= <-]. apply acked_on_broker. intros s. apply Hm.
  - intros p e m [= <-]. apply acked_on_broker. intros s. apply Hd.
  - apply acked_on_store, evolves_gets, _.
Qed.

(** C20: an event is marked published only after the broker acknowledged it: whatever any number of
    ticks do, with any failures, lost answers and steps of clients that publish nothing themselves,
    every event published in the end was published at the start or has been acknowledged. *)
Theorem published_was_acked b policy maxItems batch lease n (w : node) :
  broker_laws b -> polite publishes_nothing (w_sched w.1) ->
  let w' := Nat.iter n (fun w => (OutboxDispatchTick (pg_worker b policy maxItems batch lease) w).2) w in
  forall id, id ∈ published_ids (w_db w'.1) -> id ∈ published_ids (w_db w.1) \/ id ∈ w'.2.
Proof.
  intros Hb Hpol w' id Hid. destruct (decide (id ∈ w'.2)) as [|Hack]; [by right|left].
  assert (acked_first id w w') as [_ HR].
  { clear Hid Hack. subst w'. induction n as [|n IH]; [reflexivity|]. etransitivity; [exact IH|].
    cbn [Nat.iter]. by apply ev_pg_worker. }
  destruct (HR Hack) as [_ Hd]; [|by apply Hd]. intros g d Hg. exact (Hpol g d Hg id).
Qed.
