(* ===== verification/OutboxSteps.v ===== *)
(** * The outbox at work

    A small outbox, a worker with the default policy, and the theorems of
    OutboxLaws and OutboxProgress applied to them. *)

From S2P Require Import Prelude.
From S2P Require Import GoStd.
From S2P Require Import Pricing.
From S2P Require Import CommerceTypes.
From S2P Require Import Evidence.
From S2P Require Import Rules.
From S2P Require Import Db.
From S2P Require Import Queries.
From S2P Require Import History.
From S2P Require Import PgCommerce.
From S2P Require Import Logic.
From S2P Require Import Scenario.
From S2P Require Import Outbox.
From S2P Require Import OutboxLaws.
From S2P Require Import OutboxProgress.
Local Open Scope string_scope.
Local Open Scope list_scope.
Local Open Scope Z_scope.

(** ** The rows

    One event waits, one has failed 22 times, one worker died with the third;
    the fourth is published, the fifth is quarantined; the sixth names no
    aggregate, which the contract of the message asks for. *)
Definition at_second (n : Z) : Z := n * Second.
Definition demo_row (id : N) (published : option Z) (attempts : Z) (dead : option Z) (status : string)
    (until : option Z) : OutboxEvent :=
  mk_OutboxEvent id "payments" "payment.captured" (JObj []) "payment" id (Some ("k" +:+ FormatInt (Z.of_N id)))
    (at_second (Z.of_N id)) published attempts None None None dead status None until false None None 0 24.
Definition demo_incomplete : OutboxEvent :=
  mk_OutboxEvent 6 "payments" "payment.captured" (JObj []) "payment" uuid_Nil (Some "k6")
    (at_second 6) None 0 None None None None "pending" None None false None None 0 24.
Definition demo_rows : list OutboxEvent :=
  [ demo_row 1 None 0 None "pending" None;
    demo_row 2 None 22 None "failed" None;
    demo_row 3 None 0 None "publishing" (Some (at_second 100));
    demo_row 4 (Some (at_second 5)) 0 None "published" None;
    demo_row 5 None 24 (Some (at_second 6)) "dead_letter" None;
    demo_incomplete ].
Example demo_incomplete_refused : map ValidateOutboxEvent demo_rows =
  [Ok tt; Ok tt; Ok tt; Ok tt; Ok tt;
   Err (ENew "nats: invalid outbox event contract: missing aggregate_id")].
Proof. vm_compute. reflexivity. Qed.
Definition outbox_world (s : list event) : world :=
  mk_world (set_outbox (fun _ => demo_rows) demo_db) NoTx s (at_second 1000) 100.

Lemma demo_rows_stamped e : e ∈ demo_rows -> stamped e.
Proof.
  unfold demo_rows. rewrite !elem_of_cons, elem_of_nil. intros He.
  destruct_or! He; subst; try done; split; try done; unfold outboxStatuses; set_solver.
Qed.
Lemma demo_rows_ids : NoDup (map ob_ID demo_rows).
Proof. apply (bool_decide_unpack _). vm_compute. exact I. Qed.

Lemma decision_is_query_witness :
  ord_ShouldRepublish (DecideOutboxReplay (at_second 1000) DefaultRecoveryPolicy (demo_row 2 None 22 None "failed" None)) = true /\
  due (at_second 1000) (demo_row 2 None 22 None "failed" None) = true.
Proof.
  split; [|reflexivity].
  rewrite (decision_is_query (at_second 1000) DefaultRecoveryPolicy 120); [reflexivity|..].
  - apply demo_rows_stamped. by apply (list_elem_of_lookup_2 _ 1).
  - by vm_compute.
  - reflexivity.
  - done.
Defined.

(** ** The worker *)

Definition demo_lease : OutboxLeaseParams := mk_OutboxLeaseParams "worker-1" (30 * Second).
Definition demo_worker (publish : OutboxEvent -> M world unit) : WorkerDeps world :=
  mk_WorkerDeps (Some pg_service) DefaultRecoveryPolicy 2 0 (Some pg_outbox) (Some MarkOutboxPublished)
    (Some publish) None None (Some demo_lease) false None None time_Now.
Lemma demo_worker_configured publish : well_configured (demo_worker publish) demo_lease.
Proof. split; try done. by eexists. Qed.
Definition demo_subject (e : OutboxEvent) : string := "avf.outbox." +:+ LogicalTopic e.
Definition demo_sender (sent : OutboxEvent -> res unit) : WorkerDeps world :=
  demo_worker (JetStreamPublish demo_subject (fun e => lift (sent e))).
Lemma demo_over_broker sent : over_broker (demo_sender sent) demo_subject sent.
Proof. split; [|done..]. eexists. split; [done|]. intros e l t w _ Hq. by split. Qed.
Definition acknowledged : OutboxEvent -> res unit := fun _ => Ok tt.
Definition no_broker : goerr := ENew "nats: timeout".
Definition no_answer (e : OutboxEvent) : goerr := EWrapPre (ob_Topic e) no_broker.
Definition unanswered (e : OutboxEvent) : res unit := Err (no_answer e).

(** The three that can be sent are published within 14 ticks of two events each:
    the incomplete one takes a place until it is quarantined, at most 24 times. *)
Lemma outbox_drains_witness :
  exists l' t', os_at l' t' (tick_for (demo_sender acknowledged) 0 14 (outbox_world [])) /\
    exists e', e' ∈ l' /\ ob_ID e' = 3%N /\ delivered e'.
Proof.
  destruct (outbox_drains (demo_sender acknowledged) demo_lease 14 (outbox_world [])
    (tick_for (demo_sender acknowledged) 0 14 (outbox_world [])) demo_rows (at_second 1000)) as (l' & t' & Hat & H).
  - apply demo_worker_configured.
  - exists demo_subject. apply (demo_over_broker acknowledged).
  - apply tick_for_ticks.
  - done.
  - apply demo_rows_ids.
  - apply demo_rows_stamped.
  - done.
  - vm_compute. discriminate.
  - exists l', t'. split; [done|]. destruct (H (demo_row 3 None 0 None "publishing" (Some (at_second 100)))) as (e' & He & Hi & Hd).
    + by apply (list_elem_of_lookup_2 _ 2).
    + left. split; [reflexivity|]. vm_compute. reflexivity.
    + exists e'. split; [done|]. split; [|done]. by injection Hi as ->.
Defined.
(** What the kernel computes of the first two ticks. *)
Example outbox_drains_at_work :
  published_ids (w_db (tick_for (demo_sender acknowledged) 0 2 (outbox_world []))) = [1; 2; 3; 4]%N.
Proof. vm_compute. reflexivity. Qed.


(** The worker publishes, then the operator retries the quarantined event,
    with a statement that fails in between. *)
Lemma outbox_follows_life_cycle_witness :
  let work := [WorkerTick (demo_worker (fun _ => ret tt)); OperatorReplay 5 (Some (ret tt))] in
  let d' := w_db (for_each do_work work (outbox_world [Calm; Calm; Calm; Fails])).2 in
  NoDup (outbox_ids d') /\ exists e', e' ∈ d_outbox d' /\ ob_ID e' = 4%N /\ stage_of e' = Delivered.
Proof.
  cbn zeta.
  destruct (outbox_follows_life_cycle
    [WorkerTick (demo_worker (fun _ => ret tt)); OperatorReplay 5 (Some (ret tt))]
    (outbox_world [Calm; Calm; Calm; Fails])) as (Hn & _ & H).
  - intros r Hr. rewrite !elem_of_cons, elem_of_nil in Hr. destruct Hr as [->|[->|[]]]; cbn.
    + split_and!; try done. intros p e [= <-] w. reflexivity.
    + intros m [= <-] w. reflexivity.
  - intros g d Hg. exfalso. revert Hg. cbn. rewrite !elem_of_cons, elem_of_nil. by intros [|[|[|[|[]]]]].
  - apply demo_rows_ids.
  - apply demo_rows_stamped.
  - split; [exact Hn|]. destruct (H (demo_row 4 (Some (at_second 5)) 0 None "published" None)) as (e' & He & Hi & _ & Hd).
    + by apply (list_elem_of_lookup_2 _ 3).
    + exists e'. split; [done|]. split; [by injection Hi as ->|by apply Hd].
Defined.

(** A broker that acknowledges the first event only. *)
Definition demo_broker : broker :=
  mk_broker (fun e s => if (ob_ID e =u 1)%N then (Ok tt, ob_ID e :: s) else (Err no_broker, s))
    (fun _ _ s => (Ok tt, s)) (fun _ s => (Ok tt, s)).
Lemma demo_broker_laws : broker_laws demo_broker.
Proof. split; intros; cbn; [|done..]. destruct (_ =u _); cbn; split; try done; set_solver. Qed.
Lemma published_was_acked_witness :
  let w' := Nat.iter 3 (fun w => (OutboxDispatchTick (pg_worker demo_broker DefaultRecoveryPolicy 2 0 (Some demo_lease)) w).2)
              (outbox_world [Calm; Calm; Calm; LostAck], []) in
  published_ids (w_db w'.1) = [1; 4]%N /\ (1%N ∈ published_ids (w_db (outbox_world [])) \/ 1%N ∈ w'.2).
Proof.
  cbn zeta. split; [vm_compute; reflexivity|].
  apply (published_was_acked demo_broker DefaultRecoveryPolicy 2 0 (Some demo_lease) 3
    (outbox_world [Calm; Calm; Calm; LostAck], [])).
  - apply demo_broker_laws.
  - intros g d Hg. exfalso. revert Hg. cbn. rewrite !elem_of_cons, elem_of_nil. by intros [|[|[|[|[]]]]].
  - by apply (list_elem_of_lookup_2 _ 0).
Defined.

(** The topic is not part of the key of a message: the store accepts two
    events with one key in two topics, and both are sent under one id. *)
Definition keyed_event (id : N) (topic : string) : OutboxParams :=
  mk_OutboxParams topic "payment.captured" (JObj []) "payment" id (Some "k") false None None.
Example event_key_ignores_topic :
  let a := outbox_row (keyed_event 1 "payments") 1 1 in
  let b := outbox_row (keyed_event 2 "vends") 2 2 in
  outbox_insert_ok b (set_outbox (fun _ => [a]) demo_db) = Ok tt /\
  ValidateOutboxEvent a = Ok tt /\ ValidateOutboxEvent b = Ok tt /\
  ob_Topic a <> ob_Topic b /\ OutboxEventKey a = OutboxEventKey b.
Proof. by vm_compute. Qed.
