(* ===== verification/Reconciler.v ===== *)
(** * The reconciler

    internal/app/background/reconciler.go, reconcile_classify.go and
    financial_correctness_reconciler.go: the periodic jobs that look for
    orders, payments, vends and refunds that got stuck, open cases for them,
    ask the provider, promote paid orders and hand tickets to the refund
    queue; and the repository they read
    (internal/modules/postgres/commerce_reconcile_repository.go).  The payment
    gateway, the refund queue and the workflow boundary are parameters; logs
    and metrics are left out. *)

From S2P Require Import Prelude.
From S2P Require Import GoStd.
From S2P Require Import Pricing.
From S2P Require Import CommerceTypes.
From S2P Require Import Evidence.
From S2P Require Import Sanitize.
From S2P Require Import Snapshot.
From S2P Require Import Rules.
From S2P Require Import PaymentEvents.
From S2P Require Import Db.
From S2P Require Import Queries.
From S2P Require Import CashQueries.
From S2P Require Import PgCommerce.
Local Open Scope string_scope.
Local Open Scope list_scope.
Local Open Scope Z_scope.

(** ** Candidates and collaborators (reconciliation.go, ports.go) *)

Record PaidOrderVendStartCandidate := mk_PaidOrderVendStartCandidate {
  pvs_OrderID : N; pvs_MachineID : N; pvs_PaymentID : N; pvs_Provider : string;
  pvs_PaymentState : string; pvs_VendSessionID : N; pvs_VendState : string; pvs_UpdatedAt : Z }.
Record PaidVendFailureCandidate := mk_PaidVendFailureCandidate {
  pvf_OrderID : N; pvf_MachineID : N; pvf_PaymentID : N; pvf_Provider : string;
  pvf_PaymentState : string; pvf_VendSessionID : N; pvf_VendState : string; pvf_CompletedAt : option Z }.
Record RefundPendingCandidate := mk_RefundPendingCandidate {
  rpc_RefundID : N; rpc_PaymentID : N; rpc_OrderID : N; rpc_Provider : string;
  rpc_RefundState : string; rpc_AmountMinor : Z; rpc_Currency : string; rpc_CreatedAt : Z }.
Record VendReconciliationCandidate := mk_VendReconciliationCandidate {
  vrc_Session : VendSession; vrc_OrderStatus : string }.
Record RefundReviewTicket := mk_RefundReviewTicket {
  rrt_OrderID : N; rrt_PaymentID : N; rrt_Reason : string }.
(** workfloworch: the two follow-ups the reconciler starts. *)
Inductive FollowUp :=
| ManualReviewEscalation (orderID paymentID : N) (reason : string) (requestedAt : Z)
| RefundOrchestration (orderID paymentID : N) (reason : string) (requestedAt : Z).

(** ** Classification (reconcile_classify.go) *)

Definition classifyProviderNormalizedState (normalized : string) : option string :=
  let s := ToLower (TrimSpace normalized) in
  if one_of s ["captured"; "succeeded"; "settled"; "complete"; "completed"; "paid"] then Some "captured"
  else if one_of s ["failed"; "declined"; "voided"; "rejected"] then Some "failed"
  else if one_of s ["expired"; "abandoned"] then Some "expired"
  else if one_of s ["canceled"; "cancelled"] then Some "canceled"
  else None.
Definition reconciledPaymentOutboxEventType (toState : string) : string :=
  let s := TrimSpace (ToLower toState) in
  if String.eqb s "captured" then "payment.confirmed"
  else if String.eqb s "failed" then "payment.failed" else "".

(** ** The ticks (reconciler.go) *)

Section Ticks.
Context `{UuidText} {W : Type}.

(** domain/commerce.ReconciliationReader; the last field is the optional
    extension [PaymentProviderReconcileTick] looks for. *)
Record ReconciliationReader := mk_ReconciliationReader {
  rr_ListPaymentsPendingTimeout : Z -> Z -> M W (list Payment);
  rr_ListOrdersWithCapturedUnpaidPayment : Z -> Z -> M W (list N);
  rr_ListOrdersWithUnresolvedPayment : Z -> Z -> M W (list Order);
  rr_ListVendSessionsStuckForReconciliation : Z -> Z -> M W (list VendReconciliationCandidate);
  rr_ListPotentialDuplicatePayments : Z -> Z -> M W (list Payment);
  rr_ListPaymentsForRefundReview : Z -> Z -> M W (list Payment);
  rr_ListPaidOrdersWithoutVendStart : Z -> Z -> M W (list PaidOrderVendStartCandidate);
  rr_ListPaidVendFailuresForReview : Z -> Z -> M W (list PaidVendFailureCandidate);
  rr_ListRefundsPendingTooLong : Z -> Z -> M W (list RefundPendingCandidate);
  rr_GetLatestPaymentAttemptProviderReference : option (N -> M W string) }.
(** The queries sent on [ObservabilityPool]. *)
Record ObservabilityPool := mk_ObservabilityPool {
  op_GetMachineCode : N -> M W string;
  op_ListCapturedPaymentsWithoutWinner : Z -> Z -> M W (list Payment);
  op_ListOrdersWithCashGrossMismatch : Z -> Z -> M W (list N);
  op_ListUnresolvedChangeLiability : Z -> Z -> M W (list CashChangeRow) }.
(** [rd_Start] is the workflow boundary when it is there and enabled. *)
Record ReconcilerDeps := mk_ReconcilerDeps {
  rd_Reader : option ReconciliationReader;
  rd_CaseWriter : option (ReconciliationCaseInput -> M W ReconciliationCase);
  rd_OrderRead : option (N -> M W Order);
  rd_Gateway : option (PaymentProviderLookup -> M W PaymentStatusSnapshot);
  rd_RefundSink : option (RefundReviewTicket -> M W unit);
  rd_Start : option (FollowUp -> M W unit);
  rd_ActionsEnabled : bool; rd_DryRun : bool;
  rd_PaymentApplier : option (ReconciledPaymentTransitionInput -> M W Payment);
  rd_MarkOrderPaid : option (N -> N -> M W Order);
  rd_PaymentOutboxTopic : string; rd_PaymentOutboxAggregateType : string;
  rd_StableAge : Z; rd_Limits : Z;
  rd_ObservabilityPool : option ObservabilityPool;
  rd_ScheduleRefundOrchestration : bool; rd_ScheduleManualReviewEscalation : bool;
  rd_Now : M W Z }.

Variable deps : ReconcilerDeps.

Definition limits : Z := if rd_Limits deps <=? 0 then 100 else rd_Limits deps.
Definition beforeBoundary : M W Z :=
  let age := if rd_StableAge deps <=? 0 then 2 * Minute else rd_StableAge deps in
  let! now := rd_Now deps in ret (now - age).
(** A case about an order and what hangs on it. *)
Definition case_about (type severity : string) (order payment vend refund machine : option N)
    (provider : option string) (key reason : string) (metadata : list (string * json))
    : ReconciliationCaseInput :=
  mk_ReconciliationCaseInput type severity order payment vend refund machine
    (option_map TrimSpace provider) None key reason (JObj (go_map metadata)).
(** Opening a case, the error returned. *)
Definition open_case (write : ReconciliationCaseInput -> M W ReconciliationCase)
    (i : ReconciliationCaseInput) : M W unit := let! _ := write i in ret tt.

Definition vend_not_started_case (row : PaidOrderVendStartCandidate) : ReconciliationCaseInput :=
  case_about "payment_paid_vend_not_started" "critical" (Some (pvs_OrderID row))
    (Some (pvs_PaymentID row)) (Some (pvs_VendSessionID row)) None (Some (pvs_MachineID row))
    (Some (pvs_Provider row)) "" "captured payment has an order still paid while vend session is pending"
    [("payment_state", JStr (pvs_PaymentState row)); ("vend_state", JStr (pvs_VendState row));
     ("machine_id", JStr (uuid_String (pvs_MachineID row)))].
Definition promote_order (mark : N -> N -> M W Order) (orderID : N) : M W unit :=
  if orderID =u uuid_Nil then ret tt else ignore (mark uuid_Nil orderID).
Definition CapturedUnpaidOrderPromotionTick : M W unit :=
  match rd_Reader deps, rd_MarkOrderPaid deps with
  | Some reader, Some mark =>
      if negb (rd_ActionsEnabled deps) then ret tt
      else
        let! now := rd_Now deps in
        let! orderIDs := rr_ListOrdersWithCapturedUnpaidPayment reader (now - 60 * Second) limits in
        for_each (promote_order mark) orderIDs
  | _, _ => ret tt
  end.
Definition UnresolvedOrdersTick : M W unit :=
  match rd_Reader deps with
  | None => ret tt
  | Some reader =>
      let! before := beforeBoundary in
      let! _ := rr_ListOrdersWithUnresolvedPayment reader before limits in
      (match rd_CaseWriter deps with
       | None => ret tt
       | Some write =>
           let! rows := rr_ListPaidOrdersWithoutVendStart reader before limits in
           for_each (fun row => open_case write (vend_not_started_case row)) rows
       end) ;;;
      CapturedUnpaidOrderPromotionTick
  end.

(** *** Asking the provider *)

Definition probe_outbox_key (paymentID : N) (toState : string) : string :=
  let eventType := reconciledPaymentOutboxEventType toState in
  if (paymentID =u uuid_Nil) || blank eventType then ""
  else "payment_reconcile:" +:+ uuid_String paymentID +:+ ":" +:+ eventType.
Definition probe_outbox_payload (p : Payment) (toState : string) (snap : PaymentStatusSnapshot) : json :=
  JObj (go_map
    [("source", JStr "reconciler.provider_probe"); ("order_id", JStr (uuid_String (p_OrderID p)));
     ("payment_id", JStr (uuid_String (p_ID p))); ("provider", JStr (TrimSpace (p_Provider p)));
     ("payment_state", JStr (TrimSpace (ToLower toState)));
     ("provider_status", JStr (TrimSpace (pss_NormalizedState snap)))]).
Definition reconcilerMachineCode (orderID : N) : M W string :=
  match rd_OrderRead deps, rd_ObservabilityPool deps with
  | Some order_of, Some pool =>
      if orderID =u uuid_Nil then ret ""
      else
        let! o := attempt (order_of orderID) in
        match o with
        | Err _ => ret ""
        | Ok o =>
            if o_MachineID o =u uuid_Nil then ret ""
            else
              let! code := attempt (op_GetMachineCode pool (o_MachineID o)) in
              match code with Ok c => ret (TrimSpace c) | Err _ => ret "" end
        end
  | _, _ => ret ""
  end.
Definition probe_reference (reader : ReconciliationReader) (p : Payment) : M W string :=
  match rr_GetLatestPaymentAttemptProviderReference reader with
  | None => ret (GenerateFromUUID (p_ID p))
  | Some getter =>
      let! stored := attempt (getter (p_ID p)) in
      match stored with
      | Ok s => ret (if blank (TrimSpace s) then GenerateFromUUID (p_ID p) else TrimSpace s)
      | Err _ => ret (GenerateFromUUID (p_ID p))
      end
  end.
Definition probe_transition (p : Payment) (toState : string) (snap : PaymentStatusSnapshot)
    : ReconciledPaymentTransitionInput :=
  mk_ReconciledPaymentTransitionInput (p_ID p) toState
    ("provider_probe:" +:+ TrimSpace (pss_NormalizedState snap)) (pss_ProviderHint snap) (rd_DryRun deps)
    (TrimSpace (rd_PaymentOutboxTopic deps)) (reconciledPaymentOutboxEventType toState)
    (Some (probe_outbox_payload p toState snap)) (TrimSpace (rd_PaymentOutboxAggregateType deps))
    (p_ID p) (probe_outbox_key (p_ID p) toState).
(** A captured payment promotes its order; failures are only logged. *)
Definition promote_probed (p : Payment) (toState : string) : M W unit :=
  match rd_MarkOrderPaid deps, rd_OrderRead deps with
  | Some mark, Some order_of =>
      if negb (rd_DryRun deps) && String.eqb toState "captured" then
        let! o := attempt (order_of (p_OrderID p)) in
        match o with
        | Err _ => ret tt
        | Ok _ => ignore (mark uuid_Nil (p_OrderID p))
        end
      else ret tt
  | _, _ => ret tt
  end.
Definition probe_payment (reader : ReconciliationReader)
    (fetch : PaymentProviderLookup -> M W PaymentStatusSnapshot)
    (apply : ReconciledPaymentTransitionInput -> M W Payment) (p : Payment) : M W unit :=
  let! reference := probe_reference reader p in
  let! code := reconcilerMachineCode (p_OrderID p) in
  let! snap := attempt (fetch (mk_PaymentProviderLookup (p_Provider p) (p_ID p) (p_OrderID p) reference
                                 (p_AmountMinor p) code None)) in
  match snap with
  | Err _ => ret tt
  | Ok snap =>
      match classifyProviderNormalizedState (pss_NormalizedState snap) with
      | None => ret tt
      | Some toState =>
          let! updated := attempt (apply (probe_transition p toState snap)) in
          match updated with
          | Err _ => ret tt
          | Ok _ => promote_probed p toState
          end
      end
  end.
Definition PaymentProviderReconcileTick : M W unit :=
  match rd_Reader deps with
  | None => ret tt
  | Some reader =>
      if negb (rd_ActionsEnabled deps) then ret tt
      else
        match rd_Gateway deps, rd_PaymentApplier deps with
        | Some fetch, Some apply =>
            let! before := beforeBoundary in
            let! payments := rr_ListPaymentsPendingTimeout reader before limits in
            for_each (probe_payment reader fetch apply) payments
        | _, _ => fail (ENew "reconciler: payment_provider_probe requires Gateway and PaymentApplier when RECONCILER_ACTIONS_ENABLED=true")
        end
  end.

(** *** Vends, duplicates and refunds *)

Definition vend_stuck_case (row : VendReconciliationCandidate) : ReconciliationCaseInput :=
  let v := vrc_Session row in
  case_about "vend_started_no_terminal_ack" "warning" (Some (v_OrderID v)) None (Some (v_ID v)) None
    (Some (v_MachineID v)) None "" "vend session remains non-terminal after timeout"
    [("vend_state", JStr (v_State v)); ("order_status", JStr (vrc_OrderStatus row));
     ("machine_id", JStr (uuid_String (v_MachineID v)))].
Definition vend_failed_case (row : PaidVendFailureCandidate) : ReconciliationCaseInput :=
  case_about "payment_paid_vend_failed" "critical" (Some (pvf_OrderID row)) (Some (pvf_PaymentID row))
    (Some (pvf_VendSessionID row)) None (Some (pvf_MachineID row)) (Some (pvf_Provider row)) ""
    "captured payment is attached to a failed vend"
    [("payment_state", JStr (pvf_PaymentState row)); ("vend_state", JStr (pvf_VendState row));
     ("machine_id", JStr (uuid_String (pvf_MachineID row)))].
Definition note_stuck_vend (row : VendReconciliationCandidate) : M W unit :=
  match rd_CaseWriter deps with
  | Some write =>
      if EqualFold (v_State (vrc_Session row)) "in_progress" then ignore (write (vend_stuck_case row))
      else ret tt
  | None => ret tt
  end.
Definition VendTimeoutReconcileTick : M W unit :=
  match rd_Reader deps with
  | None => ret tt
  | Some reader =>
      let! before := beforeBoundary in
      let! rows := rr_ListVendSessionsStuckForReconciliation reader before limits in
      for_each note_stuck_vend rows ;;;
      match rd_CaseWriter deps with
      | None => ret tt
      | Some write =>
          let! failures := rr_ListPaidVendFailuresForReview reader before limits in
          for_each (fun row => open_case write (vend_failed_case row)) failures
      end
  end.

Definition duplicate_case (p : Payment) (machine : N) : ReconciliationCaseInput :=
  case_about "duplicate_payment" "critical" (Some (p_OrderID p)) (Some (p_ID p)) None None (Some machine)
    (Some (p_Provider p)) "" "multiple payments with matching amount/currency exist for the same order"
    [("payment_state", JStr (p_State p)); ("amount_minor", JInt (p_AmountMinor p));
     ("currency", JStr (p_Currency p))].
Definition note_duplicate (p : Payment) : M W unit :=
  match rd_CaseWriter deps, rd_OrderRead deps with
  | Some write, Some order_of =>
      let! o := attempt (order_of (p_OrderID p)) in
      match o with
      | Ok o => ignore (write (duplicate_case p (o_MachineID o)))
      | Err _ => ret tt
      end
  | _, _ => ret tt
  end.
(** Starting a follow-up, when that is on: whether it was started. *)
Definition started (on : bool) (orderID : N) (follow_up : Z -> FollowUp) : M W bool :=
  match rd_OrderRead deps, rd_Start deps with
  | Some order_of, Some start =>
      if on && negb (rd_DryRun deps) then
        let! o := attempt (order_of orderID) in
        match o with
        | Err _ => ret false
        | Ok _ =>
            let! now := rd_Now deps in
            let! r := attempt (start (follow_up now)) in
            ret (is_Ok r)
        end
      else ret false
  | _, _ => ret false
  end.
(** A ticket for the refund queue: only with actions, and not in a dry run. *)
Definition hand_over (p : Payment) (reason : string) : M W unit :=
  match rd_RefundSink deps, rd_OrderRead deps with
  | Some sink, Some order_of =>
      if rd_ActionsEnabled deps && negb (rd_DryRun deps) then
        let! o := attempt (order_of (p_OrderID p)) in
        match o with
        | Err _ => ret tt
        | Ok _ => ignore (sink (mk_RefundReviewTicket (p_OrderID p) (p_ID p) reason))
        end
      else ret tt
  | _, _ => ret tt
  end.
Definition recover_duplicate (p : Payment) : M W unit :=
  note_duplicate p ;;;
  let! scheduled := started (rd_ScheduleManualReviewEscalation deps) (p_OrderID p)
                      (ManualReviewEscalation (p_OrderID p) (p_ID p) "manual_review:potential_duplicate_payment") in
  if scheduled then ret tt else hand_over p "potential_duplicate_payment".
Definition DuplicatePaymentRecoveryTick : M W unit :=
  match rd_Reader deps with
  | None => ret tt
  | Some reader =>
      let! before := beforeBoundary in
      let! payments := rr_ListPotentialDuplicatePayments reader before limits in
      for_each recover_duplicate payments
  end.

Definition refund_pending_case (row : RefundPendingCandidate) (machine : option N) : ReconciliationCaseInput :=
  case_about "refund_pending_too_long" "warning" (Some (rpc_OrderID row)) (Some (rpc_PaymentID row)) None
    (Some (rpc_RefundID row)) machine (Some (rpc_Provider row)) ""
    "refund remains requested/processing after reconciliation timeout"
    [("refund_state", JStr (rpc_RefundState row)); ("amount_minor", JInt (rpc_AmountMinor row));
     ("currency", JStr (rpc_Currency row))].
Definition note_pending_refund (write : ReconciliationCaseInput -> M W ReconciliationCase)
    (row : RefundPendingCandidate) : M W unit :=
  let! machine := (match rd_OrderRead deps with
                   | Some order_of =>
                       let! o := attempt (order_of (rpc_OrderID row)) in
                       ret (match o with Ok o => Some (o_MachineID o) | Err _ => None end)
                   | None => ret None
                   end) in
  open_case write (refund_pending_case row machine).
Definition review_refund (p : Payment) : M W unit :=
  let! scheduled := started (rd_ScheduleRefundOrchestration deps) (p_OrderID p)
                      (RefundOrchestration (p_OrderID p) (p_ID p) "captured_payment_failed_order") in
  if scheduled then ret tt else hand_over p "captured_payment_failed_order".
Definition RefundReviewDecisionTick : M W unit :=
  match rd_Reader deps with
  | None => ret tt
  | Some reader =>
      if rd_ActionsEnabled deps && (is_none (rd_RefundSink deps) || is_none (rd_OrderRead deps))
      then fail (ENew "reconciler: refund_review requires RefundSink and OrderRead when RECONCILER_ACTIONS_ENABLED=true")
      else
        let! before := beforeBoundary in
        let! payments := rr_ListPaymentsForRefundReview reader before limits in
        (match rd_CaseWriter deps with
         | None => ret tt
         | Some write =>
             let! refunds := rr_ListRefundsPendingTooLong reader before limits in
             for_each (note_pending_refund write) refunds
         end) ;;;
        for_each review_refund payments
  end.

(** *** Financial correctness (financial_correctness_reconciler.go) *)

Definition unclaimed_case (p : Payment) : ReconciliationCaseInput :=
  case_about "unclaimed_capture" "warning" (Some (p_OrderID p)) (Some (p_ID p)) None None None None
    ("unclaimed_capture:" +:+ uuid_String (p_ID p)) "captured payment without winning_payment_id claim"
    [("payment_id", JStr (uuid_String (p_ID p)))].
Definition gross_mismatch_case (orderID : N) : ReconciliationCaseInput :=
  case_about "cash_gross_mismatch" "critical" (Some orderID) None None None None None
    ("cash_gross_mismatch:" +:+ uuid_String orderID)
    "allocated + change + liability does not reconcile to gross accepted"
    [("order_id", JStr (uuid_String orderID))].
Definition change_liability_case (c : CashChangeRow) : ReconciliationCaseInput :=
  case_about "change_liability_unresolved" "warning" (Some (ch_OrderID c)) None None None None None
    ("change_liability:" +:+ uuid_String (ch_ID c)) "change liability remains unresolved"
    [("order_id", JStr (uuid_String (ch_OrderID c))); ("liability_minor", JInt (ch_LiabilityMinor c));
     ("change_outcome", JStr (ch_Outcome c))].
(** Cases are opened when there is a writer; failures are ignored. *)
Definition note_all {A} (case_of : A -> ReconciliationCaseInput) (l : list A) : M W unit :=
  for_each (fun a => match rd_CaseWriter deps with
                     | Some write => ignore (write (case_of a))
                     | None => ret tt
                     end) l.
Definition wrapped {A} (what : string) (m : M W A) : M W A :=
  let! r := attempt m in
  match r with Ok a => ret a | Err e => fail (EWrapPre ("financial_correctness: " +:+ what) e) end.
Definition FinancialCorrectnessReconcileTick : M W unit :=
  match rd_ObservabilityPool deps with
  | None => ret tt
  | Some pool =>
      let! before := beforeBoundary in
      let! unclaimed := wrapped "list unclaimed captures" (op_ListCapturedPaymentsWithoutWinner pool before limits) in
      note_all unclaimed_case unclaimed ;;;
      let! mismatches := wrapped "list gross mismatch" (op_ListOrdersWithCashGrossMismatch pool before limits) in
      note_all gross_mismatch_case mismatches ;;;
      let! liabilities := wrapped "list change liability" (op_ListUnresolvedChangeLiability pool before limits) in
      note_all change_liability_case liabilities
  end.
End Ticks.
Arguments ReconciliationReader : clear implicits.
Arguments ObservabilityPool : clear implicits.
Arguments ReconcilerDeps : clear implicits.

Definition DefaultReconcilerTickSchedule : Z * Z * Z * Z * Z :=
  (20 * Second, 30 * Second, 20 * Second, 5 * Minute, 2 * Minute).
Definition reconcilerLockTTL (interval : Z) : Z :=
  if interval <=? 0 then 3 * Minute
  else
    let d := wrap64 (interval * 3) in
    if 15 * Minute <? d then 15 * Minute else d.
(** [RunReconciler]: the intervals of its six loops. *)
Definition reconciler_intervals (u pp v d r fc : Z) : Z * Z * Z * Z * Z * Z :=
  let '(du, dpp, dv, dd, dr) := DefaultReconcilerTickSchedule in
  let or_default a b := if b <=? 0 then a else b in
  (or_default du u, or_default dpp pp, or_default dv v, or_default dd d, or_default dr r,
   or_default (2 * Minute) fc).

(** ** The repository (commerce_reconcile_repository.go) and its queries *)

(** [WHERE at < before ORDER BY at LIMIT n]; rows with the same time stay in
    the order of the table. *)
Definition before_in_order {A} (at_ : A -> Z) (before limit : Z) (l : list A) : list A :=
  take (Z.to_nat limit) (in_order at_ (List.filter (fun a => at_ a <? before) l)).
Definition ListPaymentsPendingTimeoutQ (before limit : Z) : M world (list Payment) :=
  stmt (select_many (fun d => before_in_order p_CreatedAt before limit (List.filter open_state (d_payments d)))).
Definition has_payment (q : Payment -> bool) (d : pgdb) (order : N) : bool :=
  existsb (fun p => (p_OrderID p =u order) && q p) (d_payments d).
(** The orders still open although money came in. *)
Definition stuck_orders (before limit : Z) (d : pgdb) : list N :=
  map o_ID (before_in_order o_UpdatedAt before limit
    (List.filter (fun o => one_of (o_Status o) ["created"; "quoted"] &&
       has_payment (fun p => String.eqb (p_State p) "captured") d (o_ID o)) (d_orders d))).
Definition ListOrdersWithCapturedUnpaidPaymentQ (before limit : Z) : M world (list N) :=
  stmt (select_many (stuck_orders before limit)).
(** One row per order, by its id. *)
Definition ListOrdersWithUnresolvedPaymentQ (before limit : Z) : M world (list Order) :=
  stmt (select_many (fun d => take (Z.to_nat limit) (in_order (fun o => Z.of_N (o_ID o))
    (List.filter (fun o => has_payment (fun p => open_state p && (p_CreatedAt p <? before)) d (o_ID o))
       (d_orders d))))).
Definition ListVendSessionsStuckForReconciliationQ (before limit : Z)
    : M world (list (VendRow * Order)) :=
  stmt (select_many (fun d => before_in_order (fun vo => v_CreatedAt (vr_Session vo.1)) before limit
    (List.filter (fun vo => one_of (v_State (vr_Session vo.1)) ["pending"; "in_progress"] &&
       one_of (o_Status vo.2) ["paid"; "vending"; "created"])
       (with_order (fun v => v_OrderID (vr_Session v)) d (d_vends d))))).
(** Another payment of the order with the same amount and currency. *)
Definition duplicated (d : pgdb) (p : Payment) : bool :=
  existsb (fun q => (p_OrderID q =u p_OrderID p) && negb (p_ID q =u p_ID p) &&
    (p_AmountMinor q =? p_AmountMinor p) && String.eqb (p_Currency q) (p_Currency p)) (d_payments d).
Definition ListPotentialDuplicatePaymentsQ (before limit : Z) : M world (list Payment) :=
  stmt (select_many (fun d => take (Z.to_nat limit) (in_order (fun p => Z.of_N (p_OrderID p))
    (in_order p_CreatedAt (List.filter (fun p => duplicated d p && (p_CreatedAt p <? before)) (d_payments d)))))).
Definition ListPaymentsForRefundReviewQ (before limit : Z) : M world (list Payment) :=
  stmt (select_many (fun d => before_in_order p_CreatedAt before limit
    (map fst (List.filter (fun po => String.eqb (p_State po.1) "captured" && String.eqb (o_Status po.2) "failed")
       (with_order p_OrderID d (d_payments d)))))).
(** The payments with money in, their orders, and the vends of those. *)
Definition paid_vends (d : pgdb) : list (Payment * Order * VendRow) :=
  flat_map (fun po => map (fun v => (po, v)) (List.filter (by_order (o_ID po.2)) (d_vends d)))
    (with_order p_OrderID d (List.filter (fun p => one_of (p_State p) ["captured"; "partially_refunded"])
                               (d_payments d))).
Definition ListPaidOrdersWithoutVendStartQ (before limit : Z) : M world (list (Payment * Order * VendRow)) :=
  stmt (select_many (fun d => before_in_order (fun r => o_UpdatedAt r.1.2) before limit
    (List.filter (fun r => String.eqb (o_Status r.1.2) "paid" &&
       String.eqb (v_State (vr_Session r.2)) "pending") (paid_vends d)))).
Definition ListPaidVendFailuresForReviewQ (before limit : Z) : M world (list (Payment * Order * VendRow)) :=
  stmt (select_many (fun d => take (Z.to_nat limit) (in_order (fun r => default 0 (vr_CompletedAt r.2))
    (List.filter (fun r => String.eqb (o_Status r.1.2) "failed" &&
       String.eqb (v_State (vr_Session r.2)) "failed" &&
       match vr_CompletedAt r.2 with Some t => t <? before | None => false end) (paid_vends d))))).
Definition ListRefundsPendingTooLongQ (before limit : Z) : M world (list (RefundRowView * Payment)) :=
  stmt (select_many (fun d => before_in_order (fun rp => rf_CreatedAt rp.1) before limit
    (flat_map (fun ro => map (fun p => (ro.1, p)) (List.filter (fun p => p_ID p =u rf_PaymentID ro.1) (d_payments d)))
       (with_order rf_OrderID d (List.filter (fun r => one_of (rf_State r) ["requested"; "processing"])
                                   (d_refunds d)))))).
Definition ListCapturedPaymentsWithoutWinnerQ (before limit : Z) : M world (list Payment) :=
  stmt (select_many (fun d => before_in_order p_CreatedAt before limit
    (map fst (List.filter (fun po => String.eqb (p_State po.1) "captured" &&
       is_none (o_WinningPaymentID po.2) && negb (one_of (o_Status po.2) ["cancelled"; "failed"]))
       (with_order p_OrderID d (d_payments d)))))).
(** The sums of one allocation and one change event of the order, if any. *)
Definition gross_short (a : CashAllocationRow) (c : option CashChangeRow) : bool :=
  al_AmountMinor a + match c with Some c => ch_ChangeDispensedMinor c + ch_LiabilityMinor c | None => 0 end <?
  al_PreOrderCreditMinor a + al_PostOrderInsertedMinor a.
Definition left_join {A} (l : list A) : list (option A) := if is_nil l then [None] else map Some l.
Definition ListOrdersWithCashGrossMismatchQ (before limit : Z) : M world (list N) :=
  stmt (select_many (fun d => take (Z.to_nat limit)
    (flat_map (fun o => flat_map (fun a => flat_map (fun c => if gross_short a c then [o_ID o] else [])
        (left_join (List.filter (fun c => ch_OrderID c =u o_ID o) (d_changes d))))
        (List.filter (fun a => al_OrderID a =u o_ID o) (d_allocations d)))
       (List.filter (fun o => negb (is_none (o_WinningPaymentID o)) && (o_UpdatedAt o <? before)) (d_orders d))))).
(** machines.code, for the machines that have one: the fleet is not among the
    tables. *)
Definition GetMachineByID (codes : list (N * string)) (id : N) : M world string :=
  stmt (select_one (fun _ => option_map snd (List.find (fun mc => mc.1 =u id) codes))).

Definition vend_start_candidate (r : Payment * Order * VendRow) : PaidOrderVendStartCandidate :=
  let '(p, o, v) := r in
  mk_PaidOrderVendStartCandidate (o_ID o) (o_MachineID o) (p_ID p) (p_Provider p) (p_State p)
    (v_ID (vr_Session v)) (v_State (vr_Session v)) (o_UpdatedAt o).
Definition vend_failure_candidate (r : Payment * Order * VendRow) : PaidVendFailureCandidate :=
  let '(p, o, v) := r in
  mk_PaidVendFailureCandidate (o_ID o) (o_MachineID o) (p_ID p) (p_Provider p) (p_State p)
    (v_ID (vr_Session v)) (v_State (vr_Session v)) (vr_CompletedAt v).
Definition refund_candidate (rp : RefundRowView * Payment) : RefundPendingCandidate :=
  let '(r, p) := rp in
  mk_RefundPendingCandidate (rf_ID r) (rf_PaymentID r) (rf_OrderID r) (p_Provider p) (rf_State r)
    (rf_AmountMinor r) (rf_Currency r) (rf_CreatedAt r).
Definition pg_reader : ReconciliationReader world := mk_ReconciliationReader
  (fun b n => fmap_M (map mapPayment) (ListPaymentsPendingTimeoutQ b n))
  ListOrdersWithCapturedUnpaidPaymentQ
  (fun b n => fmap_M (map mapOrder) (ListOrdersWithUnresolvedPaymentQ b n))
  (fun b n => fmap_M (map (fun vo => mk_VendReconciliationCandidate (mapVendFields vo.1) (o_Status vo.2)))
                (ListVendSessionsStuckForReconciliationQ b n))
  (fun b n => fmap_M (map mapPayment) (ListPotentialDuplicatePaymentsQ b n))
  (fun b n => fmap_M (map mapPayment) (ListPaymentsForRefundReviewQ b n))
  (fun b n => fmap_M (map vend_start_candidate) (ListPaidOrdersWithoutVendStartQ b n))
  (fun b n => fmap_M (map vend_failure_candidate) (ListPaidVendFailuresForReviewQ b n))
  (fun b n => fmap_M (map refund_candidate) (ListRefundsPendingTooLongQ b n))
  (Some GetLatestPaymentAttemptProviderReference).
Definition pg_pool (codes : list (N * string)) : ObservabilityPool world :=
  mk_ObservabilityPool (GetMachineByID codes) ListCapturedPaymentsWithoutWinnerQ
    ListOrdersWithCashGrossMismatchQ ListUnresolvedChangeLiabilityQ.
(** The lookup of an order by the reconciler does not map the error. *)
Definition reconcile_GetOrderByID (id : N) : M world Order := fmap_M mapOrder (Queries.GetOrderByID id).
