(* ===== verification/Refresh.v ===== *)
(** * The status refresh with the provider

    internal/app/commerce/payment_query_refresh.go, payment_query_refresh_by_payment.go
    and payment_query_refresh_outcome.go: while a payment is open the provider
    may be asked for its state, not too often, and a capture it reports is
    applied as a delivery.  The process keeps, per payment, when it last asked. *)

From stdpp Require Import gmap.
From S2P Require Import Prelude.
From S2P Require Import GoStd.
From S2P Require Import Pricing.
From S2P Require Import CommerceTypes.
From S2P Require Import Sanitize.
From S2P Require Import Evidence.
From S2P Require Import Snapshot.
From S2P Require Import Rules.
From S2P Require Import PaymentEvents.
From S2P Require Import CommerceService.
From S2P Require Import Reconciler.
Local Open Scope string_scope.
Local Open Scope list_scope.
Local Open Scope Z_scope.

Record PaymentQueryRefreshOutcome := mk_RefreshOutcome { ro_Diagnostic : string; ro_Skipped : bool }.
Definition diagnosed (d : string) : PaymentQueryRefreshOutcome := mk_RefreshOutcome d false.
Definition skipped (d : string) : PaymentQueryRefreshOutcome := mk_RefreshOutcome d true.

Definition paymentQueryMinIntervalDefault : Z := 5 * Second.
Definition paymentQueryMinIntervalActiveQR : Z := 1500 * Millisecond.
Definition paymentQueryAcceleratedWindow : Z := 2 * Minute.

Definition isPendingPaymentQueryState (state : string) : bool :=
  one_of (ToLower (TrimSpace state)) ["created"; "authorized"; "pending"].
Definition paymentQueryMinInterval (paymentCreatedAt now : Z) : Z :=
  if IsZero paymentCreatedAt then paymentQueryMinIntervalDefault
  else if now - paymentCreatedAt <=? paymentQueryAcceleratedWindow then paymentQueryMinIntervalActiveQR
  else paymentQueryMinIntervalDefault.
(** [paymentQueryThrottle]: keyed by the text of the id, which determines it. *)
Definition throttle : Type := gmap N Z.
Definition paymentQueryThrottleAllows (t : throttle) (paymentID : N) (paymentCreatedAt now : Z) : bool :=
  if paymentID =u uuid_Nil then true
  else match t !! paymentID with
       | Some last => negb (now - last <? paymentQueryMinInterval paymentCreatedAt now)
       | None => true
       end.

(** One adapter, as the registry gives it. *)
Record QueryProvider (W : Type) := mk_QueryProvider {
  qp_SupportsQueryPaymentStatus : bool;
  qp_QueryPaymentStatus : PaymentProviderLookup -> M W PaymentStatusSnapshot }.
(** The process: the world, and what it remembers. *)
Record process (W : Type) := mk_process { pr_world : W; pr_throttle : throttle }.
Arguments mk_process {W}.
Arguments pr_world {W}.
Arguments pr_throttle {W}.
Definition on_world {W A} (m : M W A) : M (process W) A := fun s =>
  let '(r, w) := m (pr_world s) in (r, mk_process w (pr_throttle s)).
Definition remember {W} (paymentID : N) (at_ : Z) : M (process W) unit :=
  modify (fun s => mk_process (pr_world s) (<[paymentID := at_]> (pr_throttle s))).

Section Refresh.
Context `{UuidText} {W : Type} (s : Service W).
(** [Get] of the registry, if it has one, and whether the caller is gone. *)
Context (get_provider : string -> option (QueryProvider W)) (ctx_done : M W bool).

(** The delivery a reported capture becomes. *)
Definition refresh_delivery (orderID : N) (pay : Payment) (reference : string) (norm : string)
    (hint : json) : ApplyPaymentProviderWebhookInput :=
  mk_WebhookInput orderID (p_ID pay) (ToLower (TrimSpace (p_Provider pay))) reference
    ("query_refresh:" +:+ uuid_String (p_ID pay) +:+ ":captured") "provider.query_refresh" norm
    (RawJSON hint) None None "provider_native_verified" RawEmpty "" "" RawEmpty "" uuid_Nil "".
(** The reference and payload of the last attempt, errors ignored. *)
Definition attempt_lookup (life : CommerceLifecycleStore W) (pay : Payment) : M W (string * option json) :=
  if p_ID pay =u uuid_Nil then ret ("", None)
  else
    let! stored := attempt (ls_GetLatestPaymentAttemptProviderReference W life (p_ID pay)) in
    let! payload := attempt (ls_GetLatestPaymentAttemptPayload W life (p_ID pay)) in
    let reference := match stored with Ok r => TrimSpace r | Err _ => "" end in
    ret (if blank reference then GenerateFromUUID (p_ID pay) else reference,
         match payload with Ok p => p | Err _ => None end).
(** The answer of the provider, applied if it is a capture. *)
Definition apply_snapshot (orderID : N) (pay : Payment) (reference : string)
    (snap : PaymentStatusSnapshot) : M W PaymentQueryRefreshOutcome :=
  let norm := ToLower (TrimSpace (pss_NormalizedState snap)) in
  if negb (String.eqb norm "captured") then
    ret (diagnosed (if String.eqb norm "failed" then "provider_reported_failure" else "provider_pending"))
  else
    let! applied := attempt (ApplyPaymentProviderWebhook s
                               (refresh_delivery orderID pay reference norm (pss_ProviderHint snap))) in
    ret (diagnosed (match applied with Ok _ => "captured" | Err _ => "apply_rejected" end)).
Definition refreshPaymentFromProvider (life : CommerceLifecycleStore W) (orderID : N) (pay : Payment)
    (machineExternalCode : string) (started : Z) : M (process W) PaymentQueryRefreshOutcome :=
  let provKey := ToLower (TrimSpace (p_Provider pay)) in
  match get_provider provKey with
  | None => ret (skipped "provider_unsupported")
  | Some p =>
      if negb (qp_SupportsQueryPaymentStatus W p) then ret (skipped "provider_unsupported")
      else
        let! found := on_world (attempt_lookup life pay) in
        remember (p_ID pay) started ;;;
        let! snap := attempt (on_world (qp_QueryPaymentStatus W p
          (mk_PaymentProviderLookup provKey (p_ID pay) orderID found.1 (p_AmountMinor pay)
             (TrimSpace machineExternalCode) found.2))) in
        match snap with
        | Err _ => ret (diagnosed "provider_error")
        | Ok snap => on_world (apply_snapshot orderID pay found.1 snap)
        end
  end.

(** Everything the refresh needs is there. *)
Definition refresh_configured : option (CommerceLifecycleStore W) :=
  if is_none (sv_paymentSessionReg W s) || is_none (sv_webhook W s) then None else sv_life W s.
Definition throttled (pay : Payment) (started : Z) : M (process W) bool :=
  gets (fun st => negb (paymentQueryThrottleAllows (pr_throttle st) (p_ID pay) (p_CreatedAt pay) started)).
Definition RefreshPendingPaymentFromProviderForPayment (companyID orderID paymentID : N)
    (machineExternalCode : string) : M (process W) PaymentQueryRefreshOutcome :=
  let! started := on_world (sv_now W s) in
  match refresh_configured with
  | None => ret (diagnosed "not_configured")
  | Some life =>
      if (orderID =u uuid_Nil) || (paymentID =u uuid_Nil) then ret (diagnosed "invalid_ids")
      else
        let! pay := attempt (on_world (ls_GetPaymentByID W life paymentID)) in
        match pay with
        | Err _ => ret (diagnosed "payment_lookup_error")
        | Ok pay =>
            if negb (p_OrderID pay =u orderID) then ret (diagnosed "payment_order_mismatch")
            else if negb (isPendingPaymentQueryState (p_State pay)) then ret (skipped "skipped_terminal_state")
            else
              let! wait := throttled pay started in
              if wait then ret (skipped "provider_throttled")
              else refreshPaymentFromProvider life orderID pay machineExternalCode started
        end
  end.

(** The open payments of an order, oldest first; [sort.Slice] leaves the order
    of equal times open. *)
Definition pendingPaymentsForQueryRefresh (orderID : N) : M W (list Payment) :=
  let! all := (match sv_financial W s, sv_life W s with
               | Some fin, _ => fc_ListPaymentsForOrder W fin orderID
               | None, Some life => fmap_M (fun p => [p]) (ls_GetLatestPaymentForOrder W life orderID)
               | None, None => fail ErrNotConfigured
               end) in
  ret (List.filter (fun p => isPendingPaymentQueryState (p_State p)) all).
Definition by_creation : list Payment -> list Payment :=
  stable_sort (fun a b => p_CreatedAt a <? p_CreatedAt b).
Definition older (oldest : Z) (pay : Payment) : Z :=
  if IsZero oldest || negb (IsZero (p_CreatedAt pay)) && (p_CreatedAt pay <? oldest)
  then p_CreatedAt pay else oldest.
Definition OldestPendingPaymentCreatedAt (orderID : N) : M W (option Z) :=
  let! pending := pendingPaymentsForQueryRefresh orderID in
  ret (match pending with
       | [] => None
       | p :: rest => Some (fold_left older rest (p_CreatedAt p))
       end).

(** One payment after the other, up to the first capture. *)
Fixpoint refresh_each (companyID orderID : N) (machineExternalCode lastDiagnostic : string)
    (pending : list Payment) : M (process W) PaymentQueryRefreshOutcome :=
  match pending with
  | [] => ret (diagnosed lastDiagnostic)
  | pay :: pending =>
      let! gone := on_world ctx_done in
      if gone then ret (diagnosed lastDiagnostic)
      else
        let! r := RefreshPendingPaymentFromProviderForPayment companyID orderID (p_ID pay) machineExternalCode in
        let last := TrimSpace (ro_Diagnostic r) in
        let last := if blank last then "awaiting_callback" else last in
        if String.eqb last "captured" then ret (diagnosed "captured")
        else refresh_each companyID orderID machineExternalCode last pending
  end.
Definition order_is_paid (orderID : N) : M W bool :=
  let! pay := attempt (resolveAuthoritativePayment s orderID) in
  ret (match pay with Ok pay => String.eqb (ToLower (TrimSpace (p_State pay))) "captured" | Err _ => false end).
Definition RefreshPendingPaymentFromProvider (companyID orderID : N) (machineExternalCode : string)
    : M (process W) PaymentQueryRefreshOutcome :=
  match refresh_configured with
  | None => ret (diagnosed "not_configured")
  | Some _ =>
      let! paid := on_world (order_is_paid orderID) in
      if paid then ret (skipped "skipped_terminal_state")
      else
        let! pending := attempt (on_world (pendingPaymentsForQueryRefresh orderID)) in
        match pending with
        | Err _ => ret (diagnosed "checkout_status_error")
        | Ok [] => ret (diagnosed "no_payment")
        | Ok pending =>
            refresh_each companyID orderID machineExternalCode "awaiting_callback" (by_creation pending)
        end
  end.
End Refresh.
