(* ===== verification/RefreshLaws.v ===== *)
(** * What a status refresh can do

    It asks the provider at most once per interval, applies nothing but
    captures, and one reported capture has the effect of its delivery. *)

From stdpp Require Import gmap.
From S2P Require Import Prelude.
From S2P Require Import GoStd.
From S2P Require Import Pricing.
From S2P Require Import CommerceTypes.
From S2P Require Import Sanitize.
From S2P Require Import Evidence.
From S2P Require Import Snapshot.
From S2P Require Import Rules.
From S2P Require Import PaymentEvents.
From S2P Require Import CommerceService.
From S2P Require Import ServiceLaws.
From S2P Require Import Db.
From S2P Require Import Queries.
From S2P Require Import History.
From S2P Require Import PgCommerce.
From S2P Require Import Fulfillment.
From S2P Require Import StoreLaws.
From S2P Require Import Logic.
From S2P Require Import Backend.
From S2P Require Import Scenario.
From S2P Require Import Settlement.
From S2P Require Import Webhooks.
From S2P Require Import Reconciler.
From S2P Require Import Refresh.
Local Open Scope string_scope.
Local Open Scope list_scope.
Local Open Scope Z_scope.

(** ** The process and its world *)

Definition about_world {W} (R : W -> W -> Prop) (s s' : process W) : Prop := R (pr_world s) (pr_world s').
#[export] Instance about_world_preorder {W} (R : W -> W -> Prop) `{!PreOrder R} : PreOrder (about_world R).
Proof. split; unfold about_world; [by intros s|]. intros a b c. by etransitivity. Qed.
Lemma ev_on_world {W A} (R : W -> W -> Prop) (m : M W A) : evolves R m -> evolves (about_world R) (on_world m).
Proof. intros Hm s. unfold on_world, about_world. specialize (Hm (pr_world s)). by destruct (m _). Qed.
Lemma ev_remember {W} (R : W -> W -> Prop) `{!Reflexive R} p t : evolves (about_world R) (remember p t).
Proof. intros s. unfold about_world. reflexivity. Qed.

(** ** Only captures *)

Definition only_captured (p q : Payment) : Prop := p_State q = p_State p \/ p_State q = "captured".
#[export] Instance only_captured_preorder : PreOrder only_captured.
Proof. split; [by left|]. intros a b c [H1|H1] [H2|H2]; unfold only_captured; rewrite ?H2, ?H1; auto. Qed.
(** No payment comes or goes, and a state that changes becomes "captured". *)
Definition captures_only (d d' : pgdb) : Prop := Forall2 only_captured (d_payments d) (d_payments d').
#[export] Instance captures_only_preorder : PreOrder captures_only.
Proof. unfold captures_only. split; [by intros d|]. intros a b c. by etransitivity. Qed.

Lemma same_payments d d' : d_payments d' = d_payments d -> captures_only d d'.
Proof. intros E. unfold captures_only. by rewrite E. Qed.
Lemma update_payment_captures p f :
  (forall x, only_captured x (f x)) -> sql_guarantee captures_only
    (update_rows d_payments set_payments payment_update_ok p (fun _ => f)).
Proof.
  intros Hf. apply guarantee_update_rows; [apply _|]. intros _ d r _ _ _. unfold captures_only. cbn.
  induction (d_payments d) as [|x l IH]; [constructor|]. rewrite update_where_cons. constructor; [|done].
  by destruct (p x).
Qed.

Section CapturesOnly.
Context {R : world -> world -> Prop} `{!Statement_rel captures_only R}.

#[export] Instance webhook_statements_captures : WebhookStatements (fun st => st = "captured") R.
Proof.
  split; intros; apply sr_stmt.
  1, 2: by apply guarantee_update_rows; [apply _|]; intros; apply same_payments.
  1, 2: apply update_payment_captures; intros x; right; cbn; congruence.
  1: apply update_payment_captures; by left.
  1, 2, 3: by apply guarantee_insert_row; [apply _..|]; intros; apply same_payments.
  intros now id d r d'. case_match; [done|]. cbn zeta. destruct (List.find _ _); by intros [= _ <-]; apply same_payments.
Qed.
End CapturesOnly.

Section Captures.
Context `{UuidText} `{Sha256} (x : Externals) {R : world -> world -> Prop} `{!Statement_rel captures_only R}.
Context (audit_ok : forall f r, ex_auditTx x = Some f -> evolves R (f r)).
Context (hook_ok : forall f e, ex_hook x = Some f -> evolves R (f e)).
Context (get_provider : string -> option (QueryProvider world)).
Context (provider_ok : forall k p l, get_provider k = Some p -> evolves R (qp_QueryPaymentStatus world p l)).
Context (ctx_done : M world bool) (done_ok : evolves R ctx_done).

Lemma ev_apply_captured i :
  wh_NormalizedPaymentState i = "captured" ->
  evolves R (CommerceService.ApplyPaymentProviderWebhook (service x) i).
Proof.
  intros Hn. unfold CommerceService.ApplyPaymentProviderWebhook, guard.
  do 2 (apply evolves_bind_lift; [apply _|intros _ _]). apply evolves_need; [apply _|intros f [= <-]].
  apply evolves_bind_lift; [apply _|intros j Hj]. apply evolves_bind; [apply _| |intros r].
  - apply (ev_ApplyPaymentProviderWebhook (ok := fun st => st = "captured")); [done|].
    destruct (prepare_webhook_inv _ _ Hj) as (_ & _ & _ & _ & _ & _ & -> & _). by rewrite Hn.
  - pose proof hook_ok. evolve.
Qed.
Lemma ev_apply_snapshot o pay reference snap : evolves R (apply_snapshot (service x) o pay reference snap).
Proof.
  unfold apply_snapshot. destruct (String.eqb_spec (ToLower (TrimSpace (pss_NormalizedState snap))) "captured")
    as [E|]; cbn [negb]; [|evolve]. pose proof ev_apply_captured. evolve.
Qed.
Lemma ev_attempt_lookup pay : evolves R (attempt_lookup lifecycle pay).
Proof. unfold attempt_lookup. cbn [lifecycle ls_GetLatestPaymentAttemptProviderReference ls_GetLatestPaymentAttemptPayload]. evolve. Qed.
Hint Resolve ev_on_world ev_remember ev_apply_snapshot ev_attempt_lookup : evolves.
Hint Extern 2 (Reflexive _) => apply reflexivity : evolves.

Lemma ev_refreshPayment o pay code t :
  evolves (about_world R) (refreshPaymentFromProvider (service x) get_provider lifecycle o pay code t).
Proof.
  unfold refreshPaymentFromProvider. destruct (get_provider _) as [p|] eqn:Ep; [|evolve].
  pose proof (fun l => provider_ok _ p l Ep) as Hp. evolve.
Qed.
Hint Resolve ev_refreshPayment : evolves.
Lemma configured_life life : refresh_configured (service x) = Some life -> life = lifecycle.
Proof. unfold refresh_configured. cbn. by destruct (is_none _); intros [= <-]. Qed.
Lemma ev_refresh_payment c o p code :
  evolves (about_world R) (RefreshPendingPaymentFromProviderForPayment (service x) get_provider c o p code).
Proof.
  unfold RefreshPendingPaymentFromProviderForPayment, throttled. cbn [service sv_now].
  destruct (refresh_configured _) as [life|] eqn:El; [apply configured_life in El as ->|evolve].
  cbn [lifecycle ls_GetPaymentByID]. fold lifecycle. evolve.
Qed.
Hint Resolve ev_refresh_payment : evolves.

Lemma ev_refresh_each c o code pending : forall last,
  evolves (about_world R) (refresh_each (service x) get_provider ctx_done c o code last pending).
Proof. induction pending as [|pay pending IH]; intros last; cbn [refresh_each]; evolve. Qed.
Hint Resolve ev_refresh_each : evolves.
Lemma ev_order_is_paid o : evolves R (order_is_paid (service x) o).
Proof. unfold order_is_paid, resolveAuthoritativePayment. cbn. evolve. Qed.
Lemma ev_pending o : evolves R (pendingPaymentsForQueryRefresh (service x) o).
Proof. unfold pendingPaymentsForQueryRefresh. cbn. evolve. Qed.
Hint Resolve ev_order_is_paid ev_pending : evolves.
Lemma ev_refresh_order c o code :
  evolves (about_world R) (RefreshPendingPaymentFromProvider (service x) get_provider ctx_done c o code).
Proof. unfold RefreshPendingPaymentFromProvider. cbn [refresh_configured]. evolve. Qed.
End Captures.

(** whatever the provider answers, in whatever order payments are asked about, under any
    failures and steps of other clients that keep to the same, a refresh of an order never adds or
    removes a payment and never gives one any state but "captured": a failure it hears of is not
    applied. *)
Theorem refresh_only_captures `{UuidText} `{Sha256} (x : Externals) get_provider ctx_done c o code s :
  (forall f r, ex_auditTx x = Some f -> evolves (world_rel captures_only) (f r)) ->
  (forall f e, ex_hook x = Some f -> evolves (world_rel captures_only) (f e)) ->
  (forall k p l, get_provider k = Some p -> evolves (world_rel captures_only) (qp_QueryPaymentStatus world p l)) ->
  evolves (world_rel captures_only) ctx_done -> polite captures_only (w_sched (pr_world s)) ->
  captures_only (w_db (pr_world s))
    (w_db (pr_world (RefreshPendingPaymentFromProvider (service x) get_provider ctx_done c o code s).2)).
Proof.
  intros Ha Hh Hp Hd Hs.
  by destruct (ev_refresh_order (R := world_rel captures_only) x Ha Hh get_provider Hp ctx_done Hd c o code s Hs).
Qed.

(** ** One payment, undisturbed *)

Lemma wp_on_world {W A} (m : M W A) (Q : res A -> process W -> Prop) s :
  wp m (fun r w' => Q r (mk_process w' (pr_throttle s))) (pr_world s) -> wp (on_world m) Q s.
Proof. unfold wp, on_world. by destruct (m _). Qed.

Section OnePayment.
Context `{UuidText} `{Sha256} (x : Externals) (get_provider : string -> option (QueryProvider world)).
Notation refresh := (RefreshPendingPaymentFromProviderForPayment (service x) get_provider).

(** A payment the provider may be asked about. *)
Record askable (o : N) (pay : Payment) (d : pgdb) : Prop := mk_askable {
  ak_registry : ex_registry x <> None;
  ak_pay : pay ∈ d_payments d;
  ak_order : p_OrderID pay = o;
  ak_ids : o <> uuid_Nil /\ p_ID pay <> uuid_Nil;
  ak_state : isPendingPaymentQueryState (p_State pay) = true }.

(** Up to the throttle. *)
Lemma wp_refresh_asks c o pay code n d s (Q : res PaymentQueryRefreshOutcome -> process world -> Prop) :
  calm_from n NoTx d (pr_world s) -> wf d -> askable o pay d ->
  (forall w, calm_from n NoTx d w ->
     wp (if negb (paymentQueryThrottleAllows (pr_throttle s) (p_ID pay) (p_CreatedAt pay) (w_now (pr_world s)))
         then ret (skipped "provider_throttled")
         else refreshPaymentFromProvider (service x) get_provider lifecycle o pay code (w_now (pr_world s)))
        Q (mk_process w (pr_throttle s))) ->
  wp (refresh c o (p_ID pay) code) Q s.
Proof.
  intros Hc Hw [Hreg Hp Ho [Hon Hpn] Hst] HQ.
  unfold RefreshPendingPaymentFromProviderForPayment. apply wp_bind, wp_on_world. unfold wp at 1.
  cbn [sv_now service time_Now gets fst snd]. unfold refresh_configured.
  cbn [service sv_paymentSessionReg sv_webhook sv_life]. destruct (ex_registry x); [cbn [is_none orb]|done].
  rewrite (proj2 (N.eqb_neq _ _) Hon), (proj2 (N.eqb_neq _ _) Hpn). cbn [orb].
  apply wp_bind, wp_attempt, wp_on_world. cbn [lifecycle ls_GetPaymentByID pr_world pr_throttle].
  unfold GetPaymentByID. apply wp_fmap, wp_or_not_found.
  eapply (wp_found n NoTx d (pr_world s)); [done..|apply (find_by_id p_ID); [apply (wp_ids _ _ (wf_p _ Hw))|done]|].
  intros w Hc1. cbn beta iota. rewrite mapPayment_id, Ho, N.eqb_refl, Hst. cbn [negb].
  apply wp_bind. unfold throttled. unfold wp at 1. cbn [gets fst snd pr_throttle]. by apply HQ.
Qed.

(** Within the interval after the provider was asked about a payment, a refresh of it does not
    ask again and changes nothing, whatever the provider would do. *)
Theorem refresh_throttled c o pay code last n d s :
  calm_from n NoTx d (pr_world s) -> wf d -> askable o pay d -> pr_throttle s !! p_ID pay = Some last ->
  w_now (pr_world s) - last < paymentQueryMinInterval (p_CreatedAt pay) (w_now (pr_world s)) ->
  wp (refresh c o (p_ID pay) code) (fun r s' =>
    r = Ok (skipped "provider_throttled") /\ calm_from n NoTx d (pr_world s') /\
    pr_throttle s' = pr_throttle s) s.
Proof.
  intros Hc Hw Ha Hl Hlt. eapply wp_refresh_asks; [exact Hc|done..|]. intros w Hc1.
  unfold paymentQueryThrottleAllows. destruct (ak_ids _ _ _ Ha) as [_ Hpn].
  rewrite (proj2 (N.eqb_neq _ _) Hpn), Hl, (proj2 (Z.ltb_lt _ _) Hlt). by apply wp_ret.
Qed.

(** The reference the provider is asked by: the last one on record, or one made from the id. *)
Definition stored_reference (p : N) (d : pgdb) : string :=
  match latest at_CreatedAt (List.filter (fun a => keyed (at_ProviderReference a)) (attempts_of p d)) with
  | Some a => TrimSpace (default "" (at_ProviderReference a))
  | None => ""
  end.
Definition reference_on_record (p : N) (d : pgdb) : string :=
  if blank (stored_reference p d) then GenerateFromUUID p else stored_reference p d.
Definition payload_on_record (p : N) (d : pgdb) : option json :=
  option_map at_Payload (latest at_CreatedAt (attempts_of p d)).
Lemma wp_stored_reference p n d w (Q : res string -> world -> Prop) :
  calm_from n NoTx d w -> (forall w', calm_from n NoTx d w' -> Q (Ok (stored_reference p d)) w') ->
  wp (GetLatestPaymentAttemptProviderReference p) Q w.
Proof.
  intros Hc HQ. unfold GetLatestPaymentAttemptProviderReference, stored_reference in *. wp_go.
  wp_one; destruct (latest _ _) as [a|]; cbn; try done; [intros r w' [= <-] Hc'|intros w' _ Hc']; wp_go; [|by apply HQ].
  specialize (HQ w' Hc'). by destruct (at_ProviderReference a).
Qed.
Lemma wp_attempt_lookup pay n d w (Q : res (string * option json) -> world -> Prop) :
  calm_from n NoTx d w -> p_ID pay <> uuid_Nil ->
  (forall w', calm_from n NoTx d w' -> Q (Ok (reference_on_record (p_ID pay) d, payload_on_record (p_ID pay) d)) w') ->
  wp (attempt_lookup lifecycle pay) Q w.
Proof.
  intros Hc Hpn HQ. unfold attempt_lookup. rewrite (proj2 (N.eqb_neq _ _) Hpn).
  cbn [lifecycle ls_GetLatestPaymentAttemptProviderReference ls_GetLatestPaymentAttemptPayload]. wp_go.
  eapply wp_stored_reference; [exact Hc|]. intros w1 Hc1. wp_go.
  assert (Et : TrimSpace (stored_reference (p_ID pay) d) = stored_reference (p_ID pay) d).
  { unfold stored_reference. destruct (latest _ _); [apply TrimSpace_idemp|done]. }
  rewrite Et. unfold GetLatestPaymentAttemptPayload. wp_go. unfold payload_on_record in HQ.
  wp_one; destruct (latest _ _) as [a|]; cbn in *; try done; [intros r w' [= <-] Hc'|intros w' _ Hc']; wp_go; by apply HQ.
Qed.

(** The effect of a reported capture: that of its delivery. *)
Definition reported_capture (o : N) (pay : Payment) (hint : json) (d : pgdb) : ApplyPaymentProviderWebhookInput :=
  refresh_delivery o pay (reference_on_record (p_ID pay) d) "captured" hint.

End OnePayment.
