(* ===== verification/ReconcilerLaws.v ===== *)
(** * The laws of the reconciler

    What its ticks may touch: with actions off, or in a dry run, they open
    cases and do nothing else, whatever the collaborators that act are; with
    actions on they respect every relation the collaborators respect, so the
    history of the tables is kept.  The upsert keeps one open case per
    finding. *)

From S2P Require Import Prelude.
From S2P Require Import GoStd.
From S2P Require Import Pricing.
From S2P Require Import CommerceTypes.
From S2P Require Import Evidence.
From S2P Require Import Sanitize.
From S2P Require Import Snapshot.
From S2P Require Import Rules.
From S2P Require Import Db.
From S2P Require Import Queries.
From S2P Require Import History.
From S2P Require Import PgCommerce.
From S2P Require Import Fulfillment.
From S2P Require Import StoreLaws.
From S2P Require Import Logic.
From S2P Require Import Reconciler.
Local Open Scope string_scope.
Local Open Scope list_scope.
Local Open Scope Z_scope.

(** ** The six loops *)

Inductive reconcile_tick :=
| TickUnresolved | TickProbe | TickVends | TickDuplicates | TickRefunds | TickFinancial.
#[export] Instance reconcile_tick_eq_dec : EqDecision reconcile_tick.
Proof. solve_decision. Defined.

Section Ticks.
Context `{UuidText} {W : Type} (deps : ReconcilerDeps W).

Definition run_tick (t : reconcile_tick) : M W unit :=
  match t with
  | TickUnresolved => UnresolvedOrdersTick deps
  | TickProbe => PaymentProviderReconcileTick deps
  | TickVends => VendTimeoutReconcileTick deps
  | TickDuplicates => DuplicatePaymentRecoveryTick deps
  | TickRefunds => RefundReviewDecisionTick deps
  | TickFinancial => FinancialCorrectnessReconcileTick deps
  end.
(** Any interleaving of the loops, each tick ending in success or failure. *)
Definition run_ticks (ts : list reconcile_tick) : M W unit :=
  for_each (fun t => ignore (run_tick t)) ts.

(** ** What the collaborators promise

    Reading and opening cases respect [R].  The collaborators that act need
    to only where the reconciler may call them: [promotes] says whether the
    promotion of captured orders, which a dry run does not hold back, is among
    the ticks. *)
Class ReconcilerLaws (promotes : bool) (R : W -> W -> Prop) : Prop := {
  rl_pre :: PreOrder R;
  rl_pending r b n : rd_Reader deps = Some r -> evolves R (rr_ListPaymentsPendingTimeout r b n);
  rl_unpaid r b n : rd_Reader deps = Some r -> evolves R (rr_ListOrdersWithCapturedUnpaidPayment r b n);
  rl_unresolved r b n : rd_Reader deps = Some r -> evolves R (rr_ListOrdersWithUnresolvedPayment r b n);
  rl_stuck r b n : rd_Reader deps = Some r -> evolves R (rr_ListVendSessionsStuckForReconciliation r b n);
  rl_duplicates r b n : rd_Reader deps = Some r -> evolves R (rr_ListPotentialDuplicatePayments r b n);
  rl_review r b n : rd_Reader deps = Some r -> evolves R (rr_ListPaymentsForRefundReview r b n);
  rl_not_started r b n : rd_Reader deps = Some r -> evolves R (rr_ListPaidOrdersWithoutVendStart r b n);
  rl_failures r b n : rd_Reader deps = Some r -> evolves R (rr_ListPaidVendFailuresForReview r b n);
  rl_refunds r b n : rd_Reader deps = Some r -> evolves R (rr_ListRefundsPendingTooLong r b n);
  rl_reference r g p : rd_Reader deps = Some r ->
    rr_GetLatestPaymentAttemptProviderReference r = Some g -> evolves R (g p);
  rl_case write i : rd_CaseWriter deps = Some write -> evolves R (write i);
  rl_order order_of o : rd_OrderRead deps = Some order_of -> evolves R (order_of o);
  rl_machine pool m : rd_ObservabilityPool deps = Some pool -> evolves R (op_GetMachineCode pool m);
  rl_unclaimed pool b n : rd_ObservabilityPool deps = Some pool ->
    evolves R (op_ListCapturedPaymentsWithoutWinner pool b n);
  rl_mismatch pool b n : rd_ObservabilityPool deps = Some pool ->
    evolves R (op_ListOrdersWithCashGrossMismatch pool b n);
  rl_liability pool b n : rd_ObservabilityPool deps = Some pool ->
    evolves R (op_ListUnresolvedChangeLiability pool b n);
  rl_now : evolves R (rd_Now deps);
  rl_fetch fetch l : rd_Gateway deps = Some fetch -> rd_ActionsEnabled deps = true -> evolves R (fetch l);
  rl_apply apply i : rd_PaymentApplier deps = Some apply -> rd_ActionsEnabled deps = true ->
    rpt_DryRun i = rd_DryRun deps -> evolves R (apply i);
  rl_mark mark c o : rd_MarkOrderPaid deps = Some mark -> rd_ActionsEnabled deps = true ->
    promotes || negb (rd_DryRun deps) = true -> evolves R (mark c o);
  rl_sink sink t : rd_RefundSink deps = Some sink -> rd_ActionsEnabled deps = true ->
    rd_DryRun deps = false -> evolves R (sink t);
  rl_start start f : rd_Start deps = Some start -> rd_DryRun deps = false ->
    rd_ScheduleRefundOrchestration deps || rd_ScheduleManualReviewEscalation deps = true ->
    evolves R (start f) }.

Context {promotes : bool} {R : W -> W -> Prop} `{!ReconcilerLaws promotes R}.

Hint Resolve rl_pending rl_unpaid rl_unresolved rl_stuck rl_duplicates rl_review rl_not_started
  rl_failures rl_refunds rl_reference rl_machine rl_unclaimed rl_mismatch rl_liability rl_now : evolves.

Lemma ev_beforeBoundary : evolves R (beforeBoundary deps).
Proof. unfold beforeBoundary. evolve. Qed.
Hint Resolve ev_beforeBoundary : evolves.
Lemma ev_open_case (write : ReconciliationCaseInput -> M W ReconciliationCase) i :
  rd_CaseWriter deps = Some write -> evolves R (open_case write i).
Proof. intros Hw. unfold open_case. apply evolves_bind; [apply _|by eapply rl_case|evolve]. Qed.
Hint Resolve ev_open_case : evolves.

(** When the promotion of captured orders is covered by the promises. *)
Definition promotion_covered : Prop :=
  promotes = true \/ rd_DryRun deps = false \/ rd_ActionsEnabled deps = false.
Lemma ev_CapturedUnpaidOrderPromotionTick :
  promotion_covered -> evolves R (CapturedUnpaidOrderPromotionTick deps).
Proof.
  intros Hp. unfold CapturedUnpaidOrderPromotionTick.
  destruct (rd_ActionsEnabled deps) eqn:Ha; [|by evolve].
  assert (promotes || negb (rd_DryRun deps) = true) as Hm
    by (destruct Hp as [-> | [-> | ?]]; [|destruct promotes|congruence]; done).
  unfold promote_order. evolve. by eapply rl_mark.
Qed.
Lemma ev_UnresolvedOrdersTick : promotion_covered -> evolves R (UnresolvedOrdersTick deps).
Proof. intros Hp. apply ev_CapturedUnpaidOrderPromotionTick in Hp. unfold UnresolvedOrdersTick. evolve. Qed.

Lemma ev_reconcilerMachineCode o : evolves R (reconcilerMachineCode deps o).
Proof. unfold reconcilerMachineCode. evolve. by eapply rl_order. Qed.
Lemma ev_probe_reference r p : rd_Reader deps = Some r -> evolves R (probe_reference r p).
Proof. intros Hr. unfold probe_reference. evolve. Qed.
Lemma ev_promote_probed p to : rd_ActionsEnabled deps = true -> evolves R (promote_probed deps p to).
Proof.
  intros Ha. unfold promote_probed. evolve; [by eapply rl_order|].
  eapply rl_mark; [done..|]. destruct (rd_DryRun deps); [done|by destruct promotes].
Qed.
Hint Resolve ev_reconcilerMachineCode ev_probe_reference ev_promote_probed : evolves.
Lemma ev_PaymentProviderReconcileTick : evolves R (PaymentProviderReconcileTick deps).
Proof.
  unfold PaymentProviderReconcileTick. case_match; [|evolve].
  destruct (rd_ActionsEnabled deps) eqn:Ha; [|by evolve].
  unfold probe_payment. evolve; [by eapply rl_fetch|by eapply rl_apply].
Qed.

Lemma ev_VendTimeoutReconcileTick : evolves R (VendTimeoutReconcileTick deps).
Proof. unfold VendTimeoutReconcileTick, note_stuck_vend. evolve. by eapply rl_case. Qed.

Lemma ev_started on o f :
  rd_ScheduleRefundOrchestration deps || rd_ScheduleManualReviewEscalation deps = true \/ on = false ->
  evolves R (started deps on o f).
Proof.
  intros Hon. unfold started. evolve; [by eapply rl_order|].
  destruct on, (rd_DryRun deps) eqn:Hd; try done. destruct Hon; [|done]. by eapply rl_start.
Qed.
Lemma ev_hand_over p reason : evolves R (hand_over deps p reason).
Proof.
  unfold hand_over. evolve; [by eapply rl_order|].
  destruct (rd_ActionsEnabled deps) eqn:Ha, (rd_DryRun deps) eqn:Hd; try done. by eapply rl_sink.
Qed.
Hint Resolve ev_hand_over : evolves.
Lemma ev_DuplicatePaymentRecoveryTick : evolves R (DuplicatePaymentRecoveryTick deps).
Proof.
  unfold DuplicatePaymentRecoveryTick, recover_duplicate, note_duplicate.
  evolve; [by eapply rl_order|by eapply rl_case|]. apply ev_started.
  destruct (rd_ScheduleManualReviewEscalation deps); [left; by destruct (rd_ScheduleRefundOrchestration deps)|by right].
Qed.
Lemma ev_RefundReviewDecisionTick : evolves R (RefundReviewDecisionTick deps).
Proof.
  unfold RefundReviewDecisionTick, note_pending_refund, review_refund. evolve; [by eapply rl_order|].
  apply ev_started. destruct (rd_ScheduleRefundOrchestration deps); [by left|by right].
Qed.

Lemma ev_note_all {A} (f : A -> ReconciliationCaseInput) l : evolves R (note_all deps f l).
Proof. unfold note_all. evolve. by eapply rl_case. Qed.
Lemma ev_wrapped {A} what (m : M W A) : evolves R m -> evolves R (wrapped what m).
Proof. intros Hm. unfold wrapped. evolve. Qed.
Hint Resolve ev_note_all ev_wrapped : evolves.
Lemma ev_FinancialCorrectnessReconcileTick : evolves R (FinancialCorrectnessReconcileTick deps).
Proof. unfold FinancialCorrectnessReconcileTick. evolve. Qed.

Lemma ev_run_ticks ts :
  (TickUnresolved ∈ ts -> promotion_covered) -> evolves R (run_ticks ts).
Proof.
  unfold run_ticks. induction ts as [|t ts IH]; intros Hp; cbn [for_each]; [evolve|].
  apply evolves_bind; [apply _| |intros _; apply IH; set_solver]. apply evolves_ignore.
  destruct t; cbn [run_tick]; [apply ev_UnresolvedOrdersTick; set_solver|apply ev_PaymentProviderReconcileTick|
    apply ev_VendTimeoutReconcileTick|apply ev_DuplicatePaymentRecoveryTick|
    apply ev_RefundReviewDecisionTick|apply ev_FinancialCorrectnessReconcileTick].
Qed.
End Ticks.

(** ** Cases, and nothing else *)

(** One open case per finding. *)
Definition one_open_case (l : list ReconciliationCase) : Prop :=
  forall i j x y, l !! i = Some x -> l !! j = Some y -> case_open x = true -> same_case x y = true -> i = j.
(** Only the cases change: those on record keep what they are about, and a
    finding never gets a second open case. *)
Record cases_only (d d' : pgdb) : Prop := mk_cases_only {
  co_rest : d' = set_cases (fun _ => d_cases d') d;
  co_kept : rows_kept (fixed case_identity) (d_cases d) (d_cases d');
  co_one : one_open_case (d_cases d) -> one_open_case (d_cases d') }.
#[export] Instance cases_only_preorder : PreOrder cases_only.
Proof.
  split; [intros []; by split|]. intros a b c [E1 K1 O1] [E2 K2 O2].
  split; [|by etransitivity|auto]. rewrite E2, E1. by destruct a.
Qed.

Lemma same_case_sym c x : case_open c = true -> same_case c x = true -> same_case x c = true.
Proof.
  unfold same_case. intros ->. rewrite !andb_true_iff, !String.eqb_eq.
  assert (forall a b, opt_eqb_N a b = true -> opt_eqb_N b a = true) as Hs
    by (intros [a|] [b|]; cbn; try done; by rewrite !N.eqb_eq).
  naive_solver.
Qed.
Lemma same_case_refreshed c now x y z : same_case (case_refreshed c now x) y = same_case x y /\
  same_case z (case_refreshed c now x) = same_case z x.
Proof. done. Qed.

Lemma one_open_refreshed p c now l :
  one_open_case l -> one_open_case (update_where p (case_refreshed c now) l).
Proof.
  intros Hl i j x y. unfold update_where. rewrite !list_lookup_fmap_Some.
  intros (x0 & -> & Hx) (y0 & -> & Hy) Ho Hs. apply (Hl i j x0 y0); try done.
  - by destruct (p x0).
  - by destruct (p x0), (p y0).
Qed.
Lemma one_open_snoc l c :
  case_open c = true -> List.find (same_case c) l = None -> one_open_case l -> one_open_case (l ++ [c]).
Proof.
  intros Hc Hf Hl i j x y Hx Hy Ho Hs.
  assert (forall k z, l !! k = Some z -> same_case c z = false) as Hn
    by (intros k z Hk; eapply find_none; [done|]; apply list_elem_of_In; by eapply list_elem_of_lookup_2).
  apply lookup_app_Some in Hx as [Hx|[Hix Hx]], Hy as [Hy|[Hjy Hy]]; [by eapply Hl| | |].
  - apply list_lookup_singleton_Some in Hy as [_ <-]. apply same_case_sym in Hs; [|done].
    by rewrite (Hn i x) in Hs.
  - apply list_lookup_singleton_Some in Hx as [_ <-]. by rewrite (Hn j y) in Hs.
  - apply list_lookup_singleton_Some in Hx as [? _], Hy as [? _]. lia.
Qed.

Section CasesOnly.
Context {R : world -> world -> Prop} `{!Statement_rel cases_only R}.
Lemma co_Upsert i : evolves R (UpsertReconciliationCase i).
Proof.
  apply sr_stmt. intros now id d r d'. case_match; [done|].
  set (c := mk_ReconciliationCase _ _ _ _ _ _ _ _ _ _ _ _ _ _ _ _).
  cbn zeta. destruct (List.find (same_case c) (d_cases d)) eqn:E; intros [= _ <-]; split; cbn; try done.
  - apply rows_kept_update; [apply _|done].
  - apply one_open_refreshed.
  - apply rows_kept_app, _.
  - by apply one_open_snoc.
Qed.
End CasesOnly.

(** ** The reconciler over PostgreSQL *)

(** What cmd/reconciler always wires; the others are arbitrary. *)
Record pg_backed `{UuidText} (codes : list (N * string)) (deps : ReconcilerDeps world) : Prop := mk_pg_backed {
  pb_reader : rd_Reader deps = Some pg_reader;
  pb_cases : rd_CaseWriter deps = Some UpsertReconciliationCase;
  pb_orders : rd_OrderRead deps = Some reconcile_GetOrderByID;
  pb_pool : rd_ObservabilityPool deps = Some (pg_pool codes);
  pb_apply : rd_PaymentApplier deps = Some ApplyReconciledPaymentTransition;
  pb_now : rd_Now deps = time_Now }.

Section Repository.
Context `{UuidText} {P : pgdb -> pgdb -> Prop} {R : world -> world -> Prop} `{!Statement_rel P R}.

(** The repository only reads. *)
Lemma pg_backed_laws codes deps promotes :
  pg_backed codes deps ->
  (forall i, evolves R (UpsertReconciliationCase i)) ->
  (forall fetch l, rd_Gateway deps = Some fetch -> evolves R (fetch l)) ->
  (forall i, rd_ActionsEnabled deps = true -> rpt_DryRun i = rd_DryRun deps ->
             evolves R (ApplyReconciledPaymentTransition i)) ->
  (forall mark c o, rd_MarkOrderPaid deps = Some mark -> rd_ActionsEnabled deps = true ->
     promotes || negb (rd_DryRun deps) = true -> evolves R (mark c o)) ->
  (forall sink t, rd_RefundSink deps = Some sink -> rd_ActionsEnabled deps = true ->
     rd_DryRun deps = false -> evolves R (sink t)) ->
  (forall start f, rd_Start deps = Some start -> rd_DryRun deps = false ->
     rd_ScheduleRefundOrchestration deps || rd_ScheduleManualReviewEscalation deps = true ->
     evolves R (start f)) ->
  ReconcilerLaws deps promotes R.
Proof.
  intros [Er Ec Eo Ep Ea En] Hc Hf Ha Hm Hs Ht.
  split; try apply _; rewrite ?Er, ?Ec, ?Eo, ?Ep, ?Ea, ?En; try done; intros; simplify_eq/=;
    try (apply evolves_fmap); try apply ev_select_one; try apply ev_select_many; evolve.
  all: eauto.
Qed.

(** A dry run of the applier writes nothing. *)
Lemma ev_apply_dry i : rpt_DryRun i = true -> evolves R (ApplyReconciledPaymentTransition i).
Proof. intros Hd. unfold ApplyReconciledPaymentTransition. rewrite Hd. evolve. Qed.
End Repository.

(** Nothing that acts is switched on, or a dry run holds it back. *)
Definition held_back (deps : ReconcilerDeps world) (ts : list reconcile_tick) : Prop :=
  (rd_DryRun deps = true \/
   rd_ActionsEnabled deps = false /\ rd_ScheduleRefundOrchestration deps = false /\
   rd_ScheduleManualReviewEscalation deps = false) /\
  (TickUnresolved ∈ ts -> rd_ActionsEnabled deps = false).

(** with actions off, or in a dry run (for the five loops that honour it), the reconciler opens
    cases and does nothing else: whatever ticks run, under any failures and other clients that touch
    only cases, every other table is left as it was, cases on record keep what they are about, and
    no finding gets a second open case.  The refund queue, the workflows and the promotion of
    orders are arbitrary, because they are never called. *)
Theorem held_back_opens_cases_only `{UuidText} codes deps ts w :
  pg_backed codes deps ->
  (forall fetch l, rd_Gateway deps = Some fetch -> evolves (world_rel cases_only) (fetch l)) ->
  held_back deps ts -> polite cases_only (w_sched w) ->
  cases_only (w_db w) (w_db (run_ticks deps ts w).2).
Proof.
  intros Hb Hf [Hh Ht] Hp.
  assert (ReconcilerLaws deps false (world_rel cases_only)) as Hl.
  { apply (pg_backed_laws codes); try done; [apply co_Upsert|..].
    - intros i Ha Hi. apply ev_apply_dry. rewrite Hi. destruct Hh as [|[? _]]; congruence.
    - intros mark c o _ Ha. destruct Hh as [-> |[? _]]; [done|congruence].
    - intros sink t _ Ha Hd. destruct Hh as [|[? _]]; congruence.
    - intros start f _ Hd. destruct Hh as [|(_ & -> & ->)]; [congruence|done]. }
  assert (TickUnresolved ∈ ts -> promotion_covered deps (promotes := false)) as Hc
    by (intros Hts; right; right; auto).
  exact (proj2 (ev_run_ticks deps ts Hc w Hp)).
Qed.

(** With actions on, whatever ticks run, the tables keep their history and stay well-formed when
    the collaborators that act keep them so. *)
Theorem reconciler_keeps_history `{UuidText} codes deps ts w :
  pg_backed codes deps ->
  (forall fetch l, rd_Gateway deps = Some fetch -> evolves (world_rel safe) (fetch l)) ->
  (forall mark c o, rd_MarkOrderPaid deps = Some mark -> evolves (world_rel safe) (mark c o)) ->
  (forall sink t, rd_RefundSink deps = Some sink -> evolves (world_rel safe) (sink t)) ->
  (forall start f, rd_Start deps = Some start -> evolves (world_rel safe) (start f)) ->
  polite safe (w_sched w) -> wf (w_db w) ->
  let w' := (run_ticks deps ts w).2 in grows (w_db w) (w_db w') /\ wf (w_db w').
Proof.
  intros Hb Hf Hm Hs Ht Hp Hw.
  assert (ReconcilerLaws deps true (world_rel safe)) as Hl
    by (apply (pg_backed_laws codes); eauto with evolves typeclass_instances).
  destruct (ev_run_ticks deps ts (promotes := true) ltac:(by left) w Hp) as [_ [Hg Hs']]. auto.
Qed.
