(* ===== verification/Promotion.v ===== *)
(** * Captured orders get paid

    One pass of the promotion of captured orders over PostgreSQL, with no
    other client in the way: every order it selects whose money is in, by the
    payment it is judged by, is paid afterwards, whatever the orders before it
    in the batch. *)

From S2P Require Import Prelude.
From S2P Require Import GoStd.
From S2P Require Import Pricing.
From S2P Require Import CommerceTypes.
From S2P Require Import Evidence.
From S2P Require Import Sanitize.
From S2P Require Import Snapshot.
From S2P Require Import Rules.
From S2P Require Import CommerceService.
From S2P Require Import ServiceLaws.
From S2P Require Import Db.
From S2P Require Import Queries.
From S2P Require Import History.
From S2P Require Import PgCommerce.
From S2P Require Import Fulfillment.
From S2P Require Import StoreLaws.
From S2P Require Import Logic.
From S2P Require Import Backend.
From S2P Require Import Scenario.
From S2P Require Import Settlement.
From S2P Require Import Webhooks.
From S2P Require Import Orders.
From S2P Require Import Requests.
From S2P Require Import Reconciler.
From S2P Require Import ReconcilerLaws.
Local Open Scope string_scope.
Local Open Scope list_scope.
Local Open Scope Z_scope.

(** ** One order *)

Definition order_of (j : N) (d : pgdb) : option Order := List.find (fun o => o_ID o =u j) (d_orders d).
Definition is_paid (j : N) (d : pgdb) : Prop := exists o, order_of j d = Some o /\ o_Status o = "paid".
(** Winners are payments of the orders they won. *)
Definition own_winners (d : pgdb) : Prop :=
  forall o p, o ∈ d_orders d -> p ∈ d_payments d -> o_WinningPaymentID o = Some (p_ID p) -> p_OrderID p = o_ID o.
(** Open, and judged by a payment that is captured. *)
Definition promotable (j : N) (d : pgdb) : Prop :=
  exists o pay, order_of j d = Some o /\ one_of (o_Status o) ["created"; "quoted"] = true /\
    authoritative j d = Some pay /\ p_State pay = "captured" /\ p_ID pay <> uuid_Nil /\ j <> uuid_Nil.

Lemma find_in_filter {A} (q r : A -> bool) l :
  (forall x, x ∈ l -> q x = true -> r x = true) -> List.find q (List.filter r l) = List.find q l.
Proof.
  induction l as [|x l IH]; intros Hq; [done|]. cbn [List.filter List.find].
  destruct (q x) eqn:Ex.
  - rewrite (Hq x) by (done || set_solver). cbn [List.find]. by rewrite Ex.
  - destruct (r x); cbn [List.find]; rewrite ?Ex; apply IH; set_solver.
Qed.
Lemma order_of_elem j d o : order_of j d = Some o -> o ∈ d_orders d /\ o_ID o = j.
Proof. by intros [? ?%N.eqb_eq]%find_Some_elem. Qed.

(** What an order is judged by hangs on its row and its payments. *)
Lemma winner_of_own j d : own_winners d ->
  winner_of j d = (o ← order_of j d; w ← o_WinningPaymentID o; List.find (fun p => p_ID p =u w) (payments_of j d)).
Proof.
  intros Hw. unfold winner_of. change (List.find (fun o => o_ID o =u j) (d_orders d)) with (order_of j d).
  destruct (order_of j d) as [o|] eqn:Eo; [|done]. cbn. destruct (o_WinningPaymentID o) as [w|] eqn:Ew; [|done]. cbn.
  symmetry. apply find_in_filter. intros p Hp Ep%N.eqb_eq. apply order_of_elem in Eo as [Ho <-].
  apply N.eqb_eq, Hw; [done..|]. by rewrite Ew, Ep.
Qed.
Lemma authoritative_same j d d' : own_winners d -> own_winners d' ->
  order_of j d' = order_of j d -> payments_of j d' = payments_of j d -> authoritative j d' = authoritative j d.
Proof. intros Hw Hw' Eo Ep. unfold authoritative. by rewrite !winner_of_own, Eo, Ep. Qed.
Lemma authoritative_own j d p : own_winners d -> authoritative j d = Some p -> p_OrderID p = j.
Proof.
  intros Hw. unfold authoritative. destruct (winner_of j d) as [q|] eqn:E.
  - intros [= <-]. rewrite winner_of_own in E by done. destruct (order_of j d) as [o|]; [|done]. cbn in E.
    destruct (o_WinningPaymentID o); [|done]. cbn in E. apply find_Some_elem in E as [E _].
    by apply elem_of_filter_bool in E as [_ ?%N.eqb_eq].
  - destruct (oldestCapturedOrPartiallyRefundedPayment _) as [q|] eqn:Eo.
    + intros [= <-]. apply oldest_captured_spec in Eo as ([?|[Hin _]] & _); [done|].
      by apply in_order_elem, elem_of_filter_bool in Hin as [_ ?%N.eqb_eq].
    + intros [?|Hin]%latest_from_elem; [done|]. by apply elem_of_filter_bool in Hin as [_ ?%N.eqb_eq].
Qed.

(** What promoting [i] does to the tables. *)
Record promoted (i : N) (d d' : pgdb) : Prop := mk_promoted {
  pm_wf : wf d';
  pm_own : own_winners d';
  pm_orders j : j <> i -> order_of j d' = order_of j d;
  pm_payments j : j <> i -> payments_of j d' = payments_of j d;
  pm_kept : is_paid i d -> is_paid i d';
  pm_paid : promotable i d -> is_paid i d' }.
Lemma promoted_none i d : wf d -> own_winners d -> (promotable i d -> is_paid i d) -> promoted i d d.
Proof. by split. Qed.
Lemma promoted_frame i j d d' : own_winners d -> promoted i d d' -> j <> i ->
  (is_paid j d -> is_paid j d') /\ (promotable j d -> promotable j d').
Proof.
  intros Hw [_ Hw' Ho Hp _ _] Hj. unfold is_paid, promotable.
  by rewrite (authoritative_same j d d'), (Ho j) by auto.
Qed.

(** The two ways an order becomes paid: the claim of its payment, or, when it
    has a winner already or winners are not arbitrated, its status. *)
Lemma order_of_update i j p f d :
  (forall o, p o = true -> o_ID o = i) -> (forall o, o_ID (f o) = o_ID o) -> j <> i ->
  order_of j (set_orders (update_where p f) d) = order_of j d.
Proof.
  intros Hp Hf Hj. unfold order_of. cbn. rewrite find_update_where by (intros; by rewrite Hf).
  destruct (List.find _ _) as [o|] eqn:Eo; [|done]. cbn. destruct (p o) eqn:E; [|done].
  apply Hp in E. apply find_Some_elem in Eo as [_ ?%N.eqb_eq]. congruence.
Qed.
Lemma promoted_claim i o pay now d :
  wf (outcome_db (p_ID pay) "winner" (claim_db i (p_ID pay) now d)) -> wf d -> own_winners d ->
  order_of i d = Some o -> one_of (o_Status o) ["created"; "quoted"] = true -> o_WinningPaymentID o = None ->
  authoritative i d = Some pay ->
  promoted i d (outcome_db (p_ID pay) "winner" (claim_db i (p_ID pay) now d)).
Proof.
  intros Hw' Hw Hown Eo Es En Ea. pose proof (authoritative_elem _ _ _ Ea) as Hpay.
  pose proof (authoritative_own _ _ _ Hown Ea) as Hi.
  assert (is_paid i (outcome_db (p_ID pay) "winner" (claim_db i (p_ID pay) now d))) as Hpaid.
  { eexists. unfold order_of in *. cbn. rewrite find_update_where by done. rewrite Eo. cbn.
    apply find_Some_elem in Eo as [_ ->]. rewrite En. split; [done|]. cbn [andb is_none claimed o_Status order_with]. unfold claimed. cbn [o_Status order_with]. by rewrite Es. }
  assert (forall p, p ∈ d_payments d -> (p_ID p =u p_ID pay) = true -> p = pay) as Hsame.
  { intros p Hp E%N.eqb_eq. eapply unique_on_same; [apply (wp_ids _ _ (wf_p _ Hw))|done|done|..]; cbn; congruence. }
  split; [done| |..]; [|intros j Hj..|done|done].
  - intros y p. cbn. intros (y0 & Hy & ->)%elem_of_update_where (p0 & Hp & ->)%elem_of_update_where.
    assert (forall b : bool, p_ID (if b then payment_with p0 (p_State p0) "winner" else p0) = p_ID p0 /\
      p_OrderID (if b then payment_with p0 (p_State p0) "winner" else p0) = p_OrderID p0) as Hb by by intros [].
    rewrite !(proj1 (Hb _)), (proj2 (Hb _)). destruct (_ && _) eqn:E; [|by apply Hown].
    apply andb_true_iff in E as [E%N.eqb_eq _]. cbn. intros [= E']. rewrite E.
    rewrite (Hsame p0 Hp); [done|by apply N.eqb_eq].
  - unfold outcome_db, claim_db. unfold order_of at 1. cbn. apply (order_of_update i); [|done..].
    by intros x [?%N.eqb_eq _]%andb_true_iff.
  - unfold payments_of. cbn. rewrite filter_update_where by done. apply update_where_none.
    intros p [Hp Ep%N.eqb_eq]%elem_of_filter_bool. apply not_true_is_false. intros ->%Hsame; [|done]. congruence.
Qed.
Lemma promoted_status i o now d :
  wf (status_db i "paid" now d) -> own_winners d -> order_of i d = Some o ->
  promoted i d (status_db i "paid" now d).
Proof.
  intros Hw' Hown Eo.
  assert (is_paid i (status_db i "paid" now d)) as Hpaid.
  { eexists. unfold order_of in *. cbn. rewrite find_update_where by done. rewrite Eo. cbn.
    by apply find_Some_elem in Eo as [_ ->]. }
  split; [done| |..]; [|intros j Hj..|done|done].
  - intros y p. cbn. intros (y0 & Hy & ->)%elem_of_update_where Hp. destruct (_ =u _); cbn; by apply Hown.
  - apply (order_of_update i); [|done..]. by intros x ?%N.eqb_eq.
  - done.
Qed.

Lemma one_of_both s l l' :
  one_of s l = true -> one_of s l' = true -> existsb (fun a => one_of a l') l = true.
Proof.
  intros Hl Hl'. apply existsb_exists. exists s. split; [|done]. by apply list_elem_of_In, one_of_spec.
Qed.

Section Promote.
Context `{UuidText} `{Sha256} (x : Externals).

Lemma wp_mark_paid i d w (Q : res Order -> world -> Prop) :
  calm NoTx d w -> wf d -> own_winners d ->
  (forall r d' w', promoted i d d' -> calm NoTx d' w' -> Q r w') ->
  wp (MarkOrderPaidAfterPaymentCapture (service x) uuid_Nil i) Q w.
Proof.
  intros Hc Hw Hown HQ. unfold MarkOrderPaidAfterPaymentCapture.
  assert (forall r w', (promotable i d -> is_paid i d) -> calm NoTx d w' -> Q r w') as Hnone
    by (intros r w' Hn; by apply HQ, promoted_none).
  wp_service. apply wp_guard; [intros E%N.eqb_eq; apply Hnone; [|done]; by intros (? & ? & _ & _ & _ & _ & _ & ?)|intros Hi].
  wp_service. unfold PgCommerce.GetOrderByID. wp_go. destruct (order_of i d) as [o|] eqn:Eo.
  2: { eapply (wp_missing 0 NoTx d w); [done..|exact Eo|]. intros w1 Hc1. wp_go. apply Hnone; [|done].
       intros (? & ? & E & _). congruence. }
  eapply (wp_found 0 NoTx d w); [done..|exact Eo|]. clear w Hc. intros w Hc. wp_go. rewrite mapOrder_id.
  apply wp_guard; [done|intros _]. wp_go. eapply wp_authoritative; [exact Hc|done|]. clear w Hc. intros w Hc.
  destruct (authoritative i d) as [pay|] eqn:Ea; cbn beta iota;
    [|apply Hnone; [|done]; intros (? & ? & _ & _ & E & _); congruence]. wp_go.
  apply wp_guard; [intros E%negb_true_iff%String.eqb_neq|intros Hs%negb_false_iff%String.eqb_eq].
  { apply Hnone; [|done]. intros (? & ? & _ & _ & E' & ? & _). congruence. }
  wp_go. destruct (one_of (o_Status o) ["paid"; "vending"; "completed"]) eqn:E1; wp_go.
  { apply Hnone; [|done]. intros (o' & ? & [= <-]%(eq_trans (eq_sym Eo)) & Es & _).
    by pose proof (one_of_both _ _ _ E1 Es). }
  apply wp_guard; [intros E2%negb_true_iff|intros E2%negb_false_iff].
  { apply Hnone; [|done]. intros (o' & ? & E' & Es & _). congruence. }
  wp_go. destruct (order_of_elem _ _ _ Eo) as [Ho Hoi].
  destruct (ex_winnerArbitrationEnabled x && _ && is_none (o_WinningPaymentID o)) eqn:Earb.
  - apply andb_true_iff in Earb as [_ En]. destruct (o_WinningPaymentID o) eqn:En'; [done|].
    destruct (decide (p_ID pay = uuid_Nil)) as [Hn|Hn].
    { wp_go. unfold AttemptWinningPaymentClaim. wp_service. rewrite Hn. apply wp_guard; [intros _|done].
      apply Hnone; [|done]. intros (? & ? & _ & _ & E & _ & ? & _). congruence. }
    wp_go. rewrite <- Hoi. eapply wp_mono; [|eapply (claim_open_order x pay o d); try done].
    + intros r w' (now & -> & Hw' & Hc'). cbn [ar_Won ar_Order]. wp_go. rewrite Hoi in *.
      eapply HQ; [by eapply promoted_claim|done].
    + by eapply authoritative_elem.
    + rewrite Hoi. by apply N.eqb_neq.
    + intros y Hy Ey. pose proof (Hown y pay Hy (authoritative_elem _ _ _ Ea) Ey) as Hyo.
      rewrite (authoritative_own _ _ _ Hown Ea) in Hyo. assert (y = o) as ->; [|congruence].
      eapply unique_on_same; [apply (wo_ids _ _ (wf_o _ Hw))|done|done|..]; cbn; congruence.
  - wp_go. rewrite <- Hoi. eapply wp_order_status; [exact Hc|done..|].
    intros now w' Hw' Hc'. rewrite Hoi in *. eapply HQ; [by eapply promoted_status|done].
Qed.

(** A batch of orders, whatever happened to the ones before. *)
Definition promoted_all (l : list N) (d d' : pgdb) : Prop :=
  (forall j, is_paid j d \/ j ∈ l /\ promotable j d -> is_paid j d') /\
  (forall j, j ∉ l -> order_of j d' = order_of j d /\ payments_of j d' = payments_of j d).
Lemma wp_promote_batch l d w :
  calm NoTx d w -> wf d -> own_winners d ->
  wp (for_each (promote_order (MarkOrderPaidAfterPaymentCapture (service x))) l) (fun r w' =>
    r = Ok tt /\ promoted_all l d (w_db w')) w.
Proof.
  revert d w. induction l as [|i l IH]; intros d w Hc Hw Hown; cbn [for_each].
  { apply wp_ret. rewrite (calm_db _ _ _ _ Hc). split; [done|]. split; [|done].
    by intros j [?|[?%elem_of_nil _]]. }
  apply wp_bind.
  assert (forall d1 w1, promoted i d d1 -> calm NoTx d1 w1 ->
    wp (for_each (promote_order (MarkOrderPaidAfterPaymentCapture (service x))) l)
      (fun r w' => r = Ok tt /\ promoted_all (i :: l) d (w_db w')) w1) as Hrest.
  { intros d1 w1 Hp Hc1. eapply wp_mono; [|apply (IH d1 w1 Hc1); apply Hp].
    intros r w' (-> & Hpaid & Hsame). split; [done|]. split.
    - intros j Hj. apply Hpaid. destruct (decide (j = i)) as [->|Hne].
      + left. destruct Hj as [?|[_ ?]]; [by apply (pm_kept i d d1)|by apply (pm_paid i d d1)].
      + destruct (promoted_frame i j d d1) as [Hk Hpr]; [done..|].
        destruct Hj as [?|[Hj ?]]; [left; auto|right]. split; [set_solver|auto].
    - intros j [Hne Hj]%not_elem_of_cons. destruct (Hsame j Hj) as [-> ->].
      by rewrite (pm_orders i d d1), (pm_payments i d d1). }
  unfold promote_order at 1. destruct (i =u uuid_Nil) eqn:Ei.
  - apply wp_ret. apply (Hrest d); [|done]. apply promoted_none; [done..|].
    intros (? & ? & _ & _ & _ & _ & _ & Hn). by apply N.eqb_eq in Ei.
  - apply wp_ignore. eapply wp_mark_paid; [done..|]. intros r d1 w1 Hp Hc1. cbn beta iota. by apply (Hrest d1).
Qed.

(** C22: with actions switched on, not in a dry run, and with no other client in the way, one pass of
    the promotion pays every order it selects that is judged by a captured payment, whatever became of
    the orders before it in the batch, and touches no order it does not select. *)
Theorem captured_orders_get_paid codes deps d w :
  pg_backed codes deps -> rd_ActionsEnabled deps = true -> rd_DryRun deps = false ->
  rd_MarkOrderPaid deps = Some (MarkOrderPaidAfterPaymentCapture (service x)) ->
  calm NoTx d w -> wf d -> own_winners d ->
  wp (CapturedUnpaidOrderPromotionTick deps) (fun r w' => r = Ok tt /\
    promoted_all (stuck_orders (w_now w - 60 * Second) (limits deps) d) d (w_db w')) w.
Proof.
  intros [Er _ _ _ _ En] Ha _ Em Hc Hw Hown. unfold CapturedUnpaidOrderPromotionTick.
  rewrite Er, Em, Ha, En. cbn [negb]. apply wp_bind. unfold wp at 1. cbn [fst snd time_Now gets].
  wp_go. cbn [rr_ListOrdersWithCapturedUnpaidPayment pg_reader]. unfold ListOrdersWithCapturedUnpaidPaymentQ.
  eapply (wp_select_many _ 0 NoTx d w); [done..|]. intros w1 Hc1. by apply wp_promote_batch.
Qed.
End Promote.
