(* ===== verification/ReconcilerSteps.v ===== *)
(** * The reconciler and the refresh at work

    Concrete runs of the status refresh of one sale, and its theorems there; a
    payment that the provider took and nobody reported: the probe finds it and
    the order gets paid.  The same data instantiate the hypotheses of the
    properties. *)

From stdpp Require Import gmap.
From S2P Require Import Prelude.
From S2P Require Import GoStd.
From S2P Require Import Pricing.
From S2P Require Import CommerceTypes.
From S2P Require Import Sanitize.
From S2P Require Import Evidence.
From S2P Require Import Snapshot.
From S2P Require Import Rules.
From S2P Require Import PaymentEvents.
From S2P Require Import CommerceService.
From S2P Require Import ServiceLaws.
From S2P Require Import Db.
From S2P Require Import Queries.
From S2P Require Import History.
From S2P Require Import PgCommerce.
From S2P Require Import Fulfillment.
From S2P Require Import StoreLaws.
From S2P Require Import Logic.
From S2P Require Import Backend.
From S2P Require Import Scenario.
From S2P Require Import Settlement.
From S2P Require Import Webhooks.
From S2P Require Import Requests.
From S2P Require Import Reconciler.
From S2P Require Import Refresh.
From S2P Require Import RefreshLaws.
From S2P Require Import ReconcilerLaws.
From S2P Require Import Promotion.
Local Open Scope string_scope.
Local Open Scope list_scope.
Local Open Scope Z_scope.

#[local] Existing Instance decimal_uuid.
#[local] Existing Instance length_sha256.

(** With a registry; "momo" answers [answer], and asks cost nothing. *)
Definition refresh_externals : Externals :=
  mk_Externals demo_resolver demo_carts (mk_WorkflowBoundary world false (fun _ => ret tt)) false None None
    None (Some (fun _ _ => Err ErrNotConfigured)) None true None (ret "REF1").
Definition one_provider (answer : string) (key : string) : option (QueryProvider world) :=
  if String.eqb key "momo"
  then Some (mk_QueryProvider world true (fun _ => ret (mk_PaymentStatusSnapshot answer (JObj []))))
  else None.
Definition refresh_order (answer : string) : M (process world) PaymentQueryRefreshOutcome :=
  RefreshPendingPaymentFromProvider (service refresh_externals) (one_provider answer) (ret false) 0 500 "m1".
Definition fresh_process : process world := mk_process demo_w2 ∅.

(** A capture pays the order; then there is nothing left to ask. *)
Example refresh_twice :
  let s := (refresh_order "Captured" fresh_process).2 in
  (refresh_order "Captured" fresh_process).1 = Ok (diagnosed "captured") /\
  map (fun p => (p_State p, p_Outcome p)) (d_payments (w_db (pr_world s))) = [("captured", "winner")] /\
  map o_Status (d_orders (w_db (pr_world s))) = ["paid"] /\
  (refresh_order "Captured" s).1 = Ok (skipped "skipped_terminal_state").
Proof. vm_compute. done. Qed.
(** A failure is reported and not applied, and the provider is not asked again at once. *)
Example refresh_failed :
  let s := (refresh_order "failed" fresh_process).2 in
  (refresh_order "failed" fresh_process).1 = Ok (diagnosed "provider_reported_failure") /\
  map p_State (d_payments (w_db (pr_world s))) = ["created"] /\
  (refresh_order "captured" s).1 = Ok (diagnosed "provider_throttled").
Proof. vm_compute. done. Qed.

Lemma refresh_only_captures_witness :
  captures_only (w_db (pr_world fresh_process)) (w_db (pr_world (refresh_order "captured" fresh_process).2)).
Proof.
  unfold refresh_order.
  apply (refresh_only_captures refresh_externals (one_provider "captured") (ret false) 0 500 "m1" fresh_process).
  - by intros f r [=].
  - by intros f e [=].
  - intros k p l. unfold one_provider. destruct (String.eqb k "momo"); intros E; [injection E as <-|discriminate E].
    apply evolves_ret, _.
  - apply evolves_ret, _.
  - by apply nil_polite.
Defined.

(** The rows of the sale and the delivery a capture becomes, as values. *)
Definition demo_pay : Payment := Eval vm_compute in
  match d_payments (w_db demo_w2) as l return match l with [] => unit | _ => Payment end with
  | [] => tt
  | p :: _ => p
  end.
Definition demo_ord : Order := Eval vm_compute in
  match d_orders (w_db demo_w2) as l return match l with [] => unit | _ => Order end with
  | [] => tt
  | o :: _ => o
  end.
Definition demo_reported : ApplyPaymentProviderWebhookInput :=
  Eval vm_compute in reported_capture 500 demo_pay (JObj []) (w_db demo_w2).
Definition demo_delivery : ApplyPaymentProviderWebhookInput := Eval vm_compute in demo_prepared demo_reported.
Lemma demo_reported_eq : reported_capture 500 demo_pay (JObj []) (w_db demo_w2) = demo_reported.
Proof. vm_compute. reflexivity. Qed.

Lemma demo_askable : askable refresh_externals 500 demo_pay (w_db demo_w2).
Proof.
  split.
  - discriminate.
  - left.
  - reflexivity.
  - split; discriminate.
  - reflexivity.
Qed.

Lemma refresh_throttled_witness :
  let s := mk_process demo_w2 {[111%N := w_now demo_w2]} in
  wp (RefreshPendingPaymentFromProviderForPayment (service refresh_externals) (one_provider "captured") 0 500 111 "m1")
    (fun r s' => r = Ok (skipped "provider_throttled") /\ calm NoTx (w_db demo_w2) (pr_world s')) s.
Proof.
  eapply wp_mono; [|eapply (refresh_throttled refresh_externals (one_provider "captured") 0 500 demo_pay "m1"
    (w_now demo_w2) 0 (w_db demo_w2))].
  - intros r s' (? & ? & _). done.
  - by split.
  - apply demo_w_wf.
  - exact demo_askable.
  - reflexivity.
  - unfold paymentQueryMinInterval. cbn [pr_world]. rewrite Z.sub_diag. by repeat case_match.
Defined.

Lemma demo_capture_due : capture_due refresh_externals demo_reported demo_delivery demo_pay demo_ord (w_db demo_w2).
Proof.
  split.
  - reflexivity.
  - discriminate.
  - vm_compute. reflexivity.
  - reflexivity.
  - vm_compute. discriminate.
  - split; try reflexivity; [left|left|]. split; try reflexivity; by intros a [=].
  - split; try reflexivity. intros y ->%list_elem_of_singleton. discriminate.
  - by intros e ?%elem_of_nil.
  - reflexivity.
  - by intros c [=].
  - intros o Ho' _. vm_compute in Ho'. apply list_elem_of_singleton in Ho' as ->. reflexivity.
Qed.


(** The provider says the money is in; the refund queue and the workflows
    refuse. *)
Definition demo_reconciler (actions dry : bool) : ReconcilerDeps world :=
  mk_ReconcilerDeps (Some pg_reader) (Some UpsertReconciliationCase) (Some reconcile_GetOrderByID)
    (Some (fun _ => ret (mk_PaymentStatusSnapshot " Settled " (JObj []))))
    (Some (fun _ => fail ErrConn)) (Some (fun _ => fail ErrConn)) actions dry
    (Some ApplyReconciledPaymentTransition)
    (Some (MarkOrderPaidAfterPaymentCapture (service (demo_externals true))))
    "payments" "payment" 0 0 (Some (pg_pool [])) true true time_Now.
Lemma demo_reconciler_backed actions dry : pg_backed [] (demo_reconciler actions dry).
Proof. by split. Qed.

(** Ten minutes after the payment was started. *)
Definition late (w : world) (s : list event) : world := mk_world (w_db w) NoTx s (10 * Minute) (w_next w).

(** The probe settles the payment and pays the order. *)
Example probe_pays_order :
  summary (w_db (run_ticks (demo_reconciler true false) [TickProbe] (late demo_w2 [])).2) =
  ([(500%N, "paid", Some 111%N)], [(111%N, "captured", "winner", 1)], [(106%N, "pending")],
   [5], (0, 2, 0, 0)%nat).
Proof. vm_compute. reflexivity. Qed.
(** In a dry run it changes nothing. *)
Example probe_dry_run :
  let w := late demo_w2 [] in w_db (run_ticks (demo_reconciler true true) [TickProbe] w).2 = w_db w.
Proof. vm_compute. reflexivity. Qed.

(** A capture recorded when the server died before the order was paid. *)
Definition demo_capture : ReconciledPaymentTransitionInput :=
  mk_ReconciledPaymentTransitionInput 111 "captured" "provider_probe:settled" (JObj []) false "" "" None "" 0 "".
Definition captured_world : world :=
  Eval vm_compute in (serve_all (demo_externals true) (take 2 demo_story ++ [ReqReconcile demo_capture])
                        (demo_world demo_db [])).2.
Lemma captured_world_wf : wf (w_db captured_world).
Proof.
  pose proof (demo_externals_laws true (world_rel safe)).
  assert (captured_world = (serve_all (demo_externals true) (take 2 demo_story ++ [ReqReconcile demo_capture])
    (demo_world demo_db [])).2) as -> by (vm_compute; reflexivity).
  destruct (serve_all_evolves (demo_externals true) (world_rel safe) (take 2 demo_story ++ [ReqReconcile demo_capture])
    (demo_world demo_db [])) as [_ [_ Hw]]; [by apply nil_polite|]. apply Hw, demo_db_wf.
Qed.
Lemma captured_world_own : own_winners (w_db captured_world).
Proof. intros o p ->%list_elem_of_singleton ->%list_elem_of_singleton. done. Qed.

Lemma captured_orders_get_paid_witness :
  let w := late captured_world [] in
  calm NoTx (w_db captured_world) w /\ 500%N ∈ stuck_orders (w_now w - 60 * Second) 100 (w_db w) /\
  promotable 500 (w_db captured_world) /\
  is_paid 500 (w_db (CapturedUnpaidOrderPromotionTick (demo_reconciler true false) w).2).
Proof.
  cbn zeta. set (w := late captured_world []).
  assert (calm NoTx (w_db captured_world) w) as Hc by (split; cbn; [done..|lia]).
  assert (500%N ∈ stuck_orders (w_now w - 60 * Second) 100 (w_db w)) as Hs by (vm_compute; left).
  assert (promotable 500 (w_db captured_world)) as Hp by (do 2 eexists; split_and!; [vm_compute; reflexivity..|done|done]).
  split; [done|]. split; [done|]. split; [done|].
  apply (captured_orders_get_paid (demo_externals true) [] (demo_reconciler true false) (w_db captured_world) w
    (demo_reconciler_backed _ _) eq_refl eq_refl eq_refl Hc captured_world_wf captured_world_own).
  by right.
Defined.

(** The promotion ignores the dry run: with actions on it pays the order. *)
Example dry_run_still_promotes :
  summary (w_db (run_ticks (demo_reconciler true true) [TickUnresolved] (late captured_world [])).2) =
  ([(500%N, "paid", Some 111%N)], [(111%N, "captured", "winner", 1)], [(106%N, "pending")],
   [5], (0, 1, 0, 0)%nat).
Proof. vm_compute. reflexivity. Qed.

(** Every loop in a dry run, with failures and another client around. *)
Lemma held_back_opens_cases_only_witness :
  let deps := demo_reconciler true true in
  let ts := [TickProbe; TickVends; TickDuplicates; TickRefunds; TickFinancial; TickVends] in
  let w := late demo_w4 demo_schedule in
  held_back deps ts /\ polite cases_only demo_schedule /\ cases_only (w_db w) (w_db (run_ticks deps ts w).2).
Proof.
  cbn zeta. set (ts := [_; _; _; _; _; _]).
  assert (held_back (demo_reconciler true true) ts) as Hh by (split; [by left|set_solver]).
  split; [exact Hh|]. split; [apply (demo_schedule_polite cases_only)|].
  apply (held_back_opens_cases_only [] (demo_reconciler true true) ts (late demo_w4 demo_schedule));
    [apply demo_reconciler_backed| |exact Hh|apply (demo_schedule_polite cases_only)].
  intros fetch l [= <-]. apply evolves_ret, _.
Defined.
(** What it found: a vend that is under way for too long. *)
Example dry_run_opens_case :
  map (fun c => (rc_CaseType c, rc_Status c))
    (d_cases (w_db (run_ticks (demo_reconciler true true) [TickVends; TickVends] (late demo_w4 [])).2)) =
  [("vend_started_no_terminal_ack", "open")].
Proof. vm_compute. reflexivity. Qed.

(** A first attempt that failed and a second that was captured for the same
    amount are listed as duplicates of each other. *)
Example failed_attempt_is_duplicate :
  let payment id state := mk_Payment id 1 "momo" state 100 "USD" None "" "" None false None None false
                            false "" 1 None 0 in
  let payments := [payment 1%N "failed"; payment 2%N "captured"] in
  List.filter (duplicated (set_payments (fun _ => payments) demo_db)) payments = payments.
Proof. reflexivity. Qed.
