(* ===== verification/CashSteps.v ===== *)
(** * A machine is emptied

    A concrete machine that reports its cash, is signed in to and is emptied,
    and the theorems of CashLaws, OperatorLaws and CollectionLaws
    there. *)

From S2P Require Import Prelude.
From S2P Require Import GoStd.
From S2P Require Import JsonText.
From S2P Require Import Pricing.
From S2P Require Import CommerceTypes.
From S2P Require Import Evidence.
From S2P Require Import Rules.
From S2P Require Import CommerceService.
From S2P Require Import ServiceLaws.
From S2P Require Import Db.
From S2P Require Import Queries.
From S2P Require Import CashQueries.
From S2P Require Import History.
From S2P Require Import PgCommerce.
From S2P Require Import OperatorService.
From S2P Require Import OperatorSessions.
From S2P Require Import CashSettlement.
From S2P Require Import CashForensic.
From S2P Require Import StoreLaws.
From S2P Require Import Logic.
From S2P Require Import CashLaws.
From S2P Require Import OperatorLaws.
From S2P Require Import CollectionLaws.
From S2P Require Import Backend.
From S2P Require Import Scenario.
From S2P Require Import CashSales.
From S2P Require Import OfflineSteps.
Local Open Scope string_scope.
Local Open Scope list_scope.
Local Open Scope Z_scope.

#[local] Existing Instance decimal_uuid.
#[local] Existing Instance length_sha256.
(** Every payment was last written when the clock began. *)
#[local] Instance early_updates : PaymentUpdates := fun _ _ => 1000.

(** ** Reports *)

Definition note (kind device : string) (amount : Z) : CashMovementEventInput :=
  mk_CashMovementEventInput kind device 0 1000 amount "stacked_cashbox" "returned_customer" "w1" 1 "NOTE_CONFIRMED"
    None (Some 4) "" "" "b1" None "USD" None "poll" 500 (JObj []).
(** A note that came in, one that went out, a count, and one without an id. *)
Definition demo_report : RecordCashMovementsInput :=
  mk_RecordCashMovementsInput 1 "r1" [note "bill_credit" "n1" 0; note "payout" "n2" 300; note "observation" "n3" 0; note "payout" "" 5].
(** The other client's row and a lost acknowledgement. *)
Definition report_schedule : list event := [Calm; Other (fun d => d); Calm; Calm].

Lemma report_recorded_witness :
  let w := demo_world demo_db report_schedule in
  exists r w', RecordCashMovements demo_report w = (Ok r, w') /\ xr_AcceptedCount r + xr_DuplicateCount r = 3.
Proof.
  cbn zeta. set (w := demo_world demo_db report_schedule).
  assert (E : RecordCashMovements demo_report w =
    (Ok (mk_RecordCashMovementsResult false 3 0), (RecordCashMovements demo_report w).2)) by (vm_compute; reflexivity).
  eexists _, _. split; [exact E|].
  assert (Hp : polite safe (w_sched w)).
  { intros g d Hg. change (w_sched w) with report_schedule in Hg. unfold report_schedule in Hg. rewrite !elem_of_cons, elem_of_nil in Hg. destruct_or! Hg; simplify_eq. reflexivity. }
  apply (report_recorded demo_report w _ _ E demo_db_wf Hp). vm_compute. discriminate.
Defined.
Lemma report_books_witness :
  exists d', calm_from 0 NoTx d' (RecordCashMovements demo_report (demo_world demo_db [])).2 /\
    off_by 1 d' = off_by 1 demo_db.
Proof.
  apply (report_books 1); [done|]. repeat constructor; vm_compute; discriminate.
Defined.

(** Texts in the order of the numbers. *)
Fixpoint letters (n : nat) : string := match n with O => "" | S n => String "a" (letters n) end.
Definition unary_uuid : UuidText := fun i => letters (N.to_nat i).
Lemma letters_lt n m : string_lt (letters n) (letters m) = (n <? m)%nat.
Proof.
  revert m. induction n as [|n IH]; intros [|m]; try done. rewrite <- (IH m : _ = (S n <? S m)%nat).
  unfold string_lt, String.ltb. cbn [letters String.compare]. done.
Qed.
Lemma unary_uuid_order i j : string_lt (unary_uuid i) (unary_uuid j) = (i <? j)%N.
Proof.
  unfold unary_uuid. rewrite letters_lt. apply eq_bool_prop_intro. rewrite !Is_true_true, Nat.ltb_lt, N.ltb_lt. lia.
Qed.
Definition reported_db : pgdb := Eval vm_compute in w_db (RecordCashMovements demo_report (demo_world demo_db [])).2.
Definition demo_ledger : ListCashLedgerInput := mk_ListCashLedgerInput (Some 1%N) None 0 5000 2 1 None None.
Lemma ledger_page_witness :
  exists w' page next, calm_from 0 NoTx reported_db w' /\
    @ListCashLedger unary_uuid demo_ledger (demo_world reported_db []) =
      (Ok (mk_ListCashLedgerResult page next 3), w') /\ length page = 2%nat.
Proof.
  pose proof (ledger_page (H := unary_uuid) unary_uuid_order demo_ledger 1 2 1 None None 0 reported_db (demo_world reported_db [])
    eq_refl (fun H => ltac:(discriminate H)) eq_refl) as Hp. cbv zeta in Hp.
  destruct Hp as (w' & Hc & E).
  - vm_compute. repeat (apply NoDup_cons_2; [rewrite ?elem_of_cons, elem_of_nil; intros Hx; destruct_or! Hx; by simplify_eq|]).
    apply NoDup_nil_2.
  - vm_compute. discriminate.
  - done.
  - eexists w', _, _. split; [exact Hc|]. split; [exact E|]. vm_compute. reflexivity.
Defined.

(** ** Who is signed in *)

Definition sign_in_of (who : string) (force : bool) : StartOperatorSessionParams :=
  mk_StartOperatorSessionParams 1 "USER" None (Some who) (Some 900000) (JObj [])
    (Some (mk_InitialSessionAuth "" "pin" None (JObj []))) 0 force force.
Definition signed_in_world : world := Eval vm_compute in (StartOperatorSession (sign_in_of "ann" false) (demo_world demo_db [])).2.
Lemma evolved_wf {A} (m : M world A) w : evolves (world_rel safe) m -> w_sched w = [] -> wf (w_db w) -> wf (w_db (m w).2).
Proof. intros Hm Hs Hw. destruct (Hm w (nil_polite safe _ Hs)) as [_ [_ H]]. by apply H. Qed.
Lemma signed_in_wf : wf (w_db signed_in_world).
Proof.
  change signed_in_world with (StartOperatorSession (sign_in_of "ann" false) (demo_world demo_db [])).2.
  apply evolved_wf; [apply ev_StartOperatorSession|done|apply demo_db_wf].
Qed.
Example bob_takes_over :
  map (fun r => (os_UserPrincipal r, os_Status r))
    (d_sessions (w_db (StartOperatorSession (sign_in_of "bob" true) (mk_world (w_db signed_in_world) NoTx [] 2000 200)).2)) =
  [(Some "ann", "REVOKED"); (Some "bob", "ACTIVE")].
Proof. vm_compute. reflexivity. Qed.

Definition demo_fleet : OperatorFleet world := mk_OperatorFleet world (fun _ => ret tt) (fun _ => ret "T") None.
Lemma demo_fleet_laws : FleetLaws (world_rel safe) demo_fleet.
Proof. split; cbn; intros; try done; apply evolves_ret, _. Qed.
Definition demo_calls : list operator_call :=
  [CallStart (mk_StartOperatorSessionInput 1 "USER" None (Some "ann") None (JObj []) "pin" None (JObj []) 0 false false);
   CallHeartbeat 1 1 100; CallTimeout 1 100;
   CallEnd (mk_EndOperatorSessionInput 1 100 "ENDED" "client_logout" "" None (JObj []))].
Lemma operators_keep_history_witness :
  let w := demo_world demo_db demo_schedule in
  let d' := w_db (for_each (operator_serve demo_fleet) demo_calls w).2 in
  d_auth_events demo_db `prefix_of` d_auth_events d' /\
  (forall x y, x ∈ d_sessions d' -> y ∈ d_sessions d' -> os_Status x = "ACTIVE" -> os_Status y = "ACTIVE" ->
     os_MachineID x = os_MachineID y -> x = y).
Proof.
  cbn zeta. destruct (operators_keep_history demo_fleet demo_calls (demo_world demo_db demo_schedule) demo_fleet_laws
    (demo_schedule_polite safe) demo_db_wf) as (Hone & _ & Hauth & _). by split.
Defined.
Definition ann_session : N := match d_sessions (w_db signed_in_world) with r :: _ => os_ID r | [] => 0%N end.
Lemma actor_checked_witness :
  let r := OperatorService.ResolveMachineActionActor pg_operators 1 (Some ann_session) SessionRequired signed_in_world in
  exists a, r.1 = Ok a /\ mx_MachineID a = 1%N.
Proof.
  cbn zeta. eexists. split; [vm_compute; reflexivity|].
  eapply (actor_checked 1 (Some ann_session) SessionRequired signed_in_world); [vm_compute; reflexivity|].
  by apply nil_polite.
Defined.

(** ** The machine is emptied *)

Definition paid_world : world := Eval vm_compute in (ConfirmCashPayment (service (demo_externals true)) demo_cash demo_w1).2.
Definition start_of (key : string) : StartMachineCashCollectionInput :=
  mk_StartMachineCashCollectionInput 1 None "USD" "" key None 0.
Definition opened_world : world := Eval vm_compute in (StartMachineCashCollection (start_of "s1") paid_world).2.
Definition close_of (counted : Z) : CloseMachineCashCollectionInput :=
  mk_CloseMachineCashCollectionInput 1 (match d_collections (w_db opened_world) with c :: _ => kc_ID c | [] => 0%N end)
    None counted 0 0 "usd" "" "" "" [] "" None 0 false.
Lemma paid_wf : wf (w_db paid_world).
Proof.
  change paid_world with (ConfirmCashPayment (service (demo_externals true)) demo_cash demo_w1).2.
  apply evolved_wf; [|done|apply demo_w_wf].
  pose proof (demo_externals_laws true (world_rel safe)). apply sv_ConfirmCashPayment; apply _.
Qed.
Lemma opened_wf : wf (w_db opened_world).
Proof.
  change opened_world with (StartMachineCashCollection (start_of "s1") paid_world).2.
  apply evolved_wf; [apply ev_StartMachineCashCollection|done|apply paid_wf].
Qed.
Lemma start_collection_witness :
  exists d', calm_from 300 NoTx d' (StartMachineCashCollection (start_of "s1") (mk_world (w_db paid_world) NoTx [] 2000 300)).2 /\
    start_outcome (start_of "s1") 300 2000 (w_db paid_world) (StartMachineCashCollection (start_of "s1") (mk_world (w_db paid_world) NoTx [] 2000 300)).1 d'.
Proof.
  apply (start_collection (start_of "s1") 300 (w_db paid_world) (mk_world (w_db paid_world) NoTx [] 2000 300)); try done.
  - left.
  - by intros r ?%elem_of_nil.
Defined.

(** It is closed on what the sale left in the machine, and on less. *)
Definition opened_row : CollectionRow := Eval vm_compute in
  match d_collections (w_db opened_world) as l return match l with [] => unit | _ => CollectionRow end with
  | [] => tt | c :: _ => c end.
Lemma close_records_witness :
  exists d', calm_from 300 NoTx d' (CloseMachineCashCollection (close_of 1000) (mk_world (w_db opened_world) NoTx [] 2000 300)).2 /\
    close_outcome (close_of 1000) opened_row (w_db opened_world) 2001
      (CloseMachineCashCollection (close_of 1000) (mk_world (w_db opened_world) NoTx [] 2000 300)).1 d'.
Proof.
  apply (close_records (close_of 1000) opened_row 300 (w_db opened_world) (mk_world (w_db opened_world) NoTx [] 2000 300)); try done.
  - apply opened_wf.
  - left.
Defined.
Example closed_short :
  match CloseMachineCashCollection (close_of 1000) opened_world with
  | (Ok r, w) => (kc_ExpectedAmountMinor r, kc_VarianceAmountMinor r, kc_ReconciliationStatus r, net_expected 1 "USD" (w_db w))
  | _ => (0, 0, "", 0)
  end = (1080, -80, "mismatch", 0).
Proof. vm_compute. reflexivity. Qed.
Definition closed_world : world := Eval vm_compute in (CloseMachineCashCollection (close_of 1080) opened_world).2.
Definition closed_row : CollectionRow := Eval vm_compute in
  match d_collections (w_db closed_world) as l return match l with [] => unit | _ => CollectionRow end with
  | [] => tt | c :: _ => c end.
Lemma closed_wf : wf (w_db closed_world).
Proof.
  change closed_world with (CloseMachineCashCollection (close_of 1080) opened_world).2.
  apply evolved_wf; [apply ev_CloseMachineCashCollection|done|apply opened_wf].
Qed.
(** Of the same length, which is what this hash sees. *)
Lemma close_again_witness :
  (CloseMachineCashCollection (close_of 1080) closed_world).1 = Ok closed_row /\
  (CloseMachineCashCollection (close_of 99) closed_world).1 = Err ErrClosePayloadConflict.
Proof.
  split.
  - destruct (close_again (close_of 1080) closed_row 0 (w_db closed_world) closed_world) as [_ ->]; try done; [apply closed_wf|left].
  - destruct (close_again (close_of 99) closed_row 0 (w_db closed_world) closed_world) as [_ ->]; try done; [apply closed_wf|left].
Defined.
Lemma closing_first : CloseMachineCashCollection (close_of 1080) opened_world = (Ok closed_row, closed_world).
Proof. vm_compute. reflexivity. Qed.
Definition again_world : world := Eval vm_compute in (CloseMachineCashCollection (close_of 1080) closed_world).2.
Lemma closing_again : CloseMachineCashCollection (close_of 1080) closed_world = (Ok closed_row, again_world).
Proof. vm_compute. reflexivity. Qed.
Lemma closed_once_witness :
  exists r w1 r' w2, CloseMachineCashCollection (close_of 1080) opened_world = (Ok r, w1) /\
    CloseMachineCashCollection (close_of 1080) w1 = (Ok r', w2) /\ r' = r.
Proof.
  exists closed_row, closed_world, closed_row, again_world. split; [exact closing_first|]. split; [exact closing_again|].
  apply (closed_once (close_of 1080) (close_of 1080) opened_world closed_row closed_world closed_world closed_row
           again_world closing_first (nil_polite safe _ eq_refl) opened_wf (PreOrder_Reflexive _) closing_again
           (nil_polite safe _ eq_refl) eq_refl).
Defined.
Lemma close_text_tells_witness :
  let i := close_of 1080 in
  let i' := mk_CloseMachineCashCollectionInput 1 (cc_CollectionID i) None 1080 0 0 " usd " "" "" "" [] "" None 0 false in
  close_text i = close_text i' /\ cc_CountedAmountMinor i = cc_CountedAmountMinor i'.
Proof.
  cbn zeta. split; [vm_compute; reflexivity|]. apply close_text_tells. vm_compute. reflexivity.
Defined.

(** ** What goes wrong *)

(** The ledger entry of a note is lost with a connection, and the report sent
    again does not bring it back. *)
Definition lost_entry_world : world := demo_world demo_db [Calm; Fails].
Example lost_ledger_entry :
  let report := mk_RecordCashMovementsInput 1 "r1" [note "bill_credit" "n1" 0] in
  let w1 := (RecordCashMovements report lost_entry_world).2 in
  (RecordCashMovements report lost_entry_world).1 = Ok (mk_RecordCashMovementsResult false 1 0) /\
  (RecordCashMovements report w1).1 = Ok (mk_RecordCashMovementsResult false 0 1) /\
  off_by 1 (w_db (RecordCashMovements report w1).2) = (-1000, 0).
Proof. cbn zeta. split_and!; vm_compute; reflexivity. Qed.
(** Two events of one note, with different ids: the second violates the other
    key of the table, and so does the report whenever it is sent again. *)
Example report_never_accepted :
  let report := mk_RecordCashMovementsInput 1 "r1" [note "payout" "n2" 300; note "payout" "n9" 300; note "bill_credit" "n1" 0] in
  let once := RecordCashMovements report (demo_world demo_db []) in
  let again := RecordCashMovements report once.2 in
  is_Ok once.1 = false /\ is_Ok again.1 = false /\ length (d_payouts (w_db again.2)) = 1%nat /\ d_acceptances (w_db again.2) = [].
Proof. cbn zeta. split_and!; vm_compute; reflexivity. Qed.
(** A note is stored under its qualified id, and bound to its order under the
    id it was reported with. *)
Example bound_by_another_id :
  let w := (RecordCashMovements (mk_RecordCashMovementsInput 1 "r1" [note "bill_credit" "abcdef:000001" 0]) (demo_world (w_db demo_w1) [])).2 in
  map ca_OrderID (d_acceptances (w_db (BindAcceptanceEventsToOrder 1 500 ["abcdef:000001"] w).2)) = [None] /\
  map ca_DeviceEventID (d_acceptances (w_db w)) <> ["abcdef:000001"].
Proof. cbn zeta. split; vm_compute; [reflexivity|discriminate]. Qed.
(** An adjustment that is sent again is one row and two ledger entries. *)
Example adjustment_booked_twice :
  let i := mk_InsertCashAdjustmentInput 1 500 "cashbox" "count" None "a1" "USD" (JObj []) in
  let w := (InsertCashAdjustment i (InsertCashAdjustment i (demo_world demo_db [])).2).2 in
  length (d_adjustments (w_db w)) = 1%nat /\ ledger_total 1 "adjustment" (w_db w) = 1000.
Proof. cbn zeta. split; vm_compute; reflexivity. Qed.
(** What was collected since the last closing is always nothing: a closing
    after the last one is not there. *)
Lemma nothing_collected_since machine currency d :
  collected_since machine currency (default UnixEpoch (last_closed machine d)) d = [] \/ last_closed machine d = None.
Proof.
  destruct (last_closed machine d) as [u|] eqn:E; [left; cbn [default]|by right]. unfold collected_since.
  apply filter_none. intros r Hr. apply not_true_iff_false. intros Hp.
  apply andb_true_iff in Hp as [[[Hm%N.eqb_eq _]%andb_true_iff Hs%String.eqb_eq]%andb_true_iff Ht].
  destruct (kc_ClosedAt r) as [t|] eqn:Et; [|done].
  destruct (last_closed_above machine d r t Hr Hm Hs Et) as (u' & E' & Hu). simplify_eq. apply Z.ltb_lt in Ht. cbn in Ht. lia.
Qed.
(** The key of a start is forgotten with the closing. *)
Example start_key_forgotten :
  let w := (StartMachineCashCollection (start_of "s1") closed_world).2 in length (d_collections (w_db w)) = 2%nat.
Proof. vm_compute. reflexivity. Qed.
(** The difference is its own negation, and calls for no review. *)
Example largest_difference_unreviewed : needs_review (close_of 0) MinInt64 = false.
Proof. reflexivity. Qed.
(** A session past its end passes as the actor of an action. *)
Example expired_actor :
  let w := mk_world (w_db signed_in_world) NoTx [] 5000000 200 in
  is_Ok (OperatorService.ResolveMachineActionActor pg_operators 1 (Some ann_session) SessionRequired w).1 = true.
Proof. vm_compute. reflexivity. Qed.
