(* ===== verification/PaymentSteps.v ===== *)
(** * Notifications of a concrete deployment

    Configured providers, a signed delivery, a notification of MoMo and a return
    of VNPay, evaluated by the kernel: the theorems of PaymentLaws and
    CallbackLaws there, and what the code does that its comments do not say. *)

From stdpp Require Import gmap.
From S2P Require Import Prelude.
From S2P Require Import GoStd.
From S2P Require Import Sha256.
From S2P Require Import JsonText.
From S2P Require Import Pricing.
From S2P Require Import CommerceTypes.
From S2P Require Import Sanitize.
From S2P Require Import Strconv.
From S2P Require Import Hmac.
From S2P Require Import Evidence.
From S2P Require Import Rules.
From S2P Require Import PaymentEvents.
From S2P Require Import AdapterCommon.
From S2P Require Import CommerceService.
From S2P Require MoMo.
From S2P Require ZaloPay.
From S2P Require VNPay.
From S2P Require ShopeePay.
From S2P Require Import PaymentRegistry.
From S2P Require Import PaymentLaws.
From S2P Require Import ServiceLaws.
From S2P Require Import Db.
From S2P Require Import Queries.
From S2P Require Import History.
From S2P Require Import PgCommerce.
From S2P Require Import OfflineSale.
From S2P Require Import StoreLaws.
From S2P Require Import QuoteLaws.
From S2P Require Import Logic.
From S2P Require Import Backend.
From S2P Require Import PaymentCallbacks.
From S2P Require Import Scenario.
From S2P Require Import Settlement.
From S2P Require Import Webhooks.
From S2P Require Import CallbackLaws.
From S2P Require Import OfflineSteps.
Local Open Scope string_scope.
Local Open Scope list_scope.
Local Open Scope Z_scope.

#[local] Existing Instance decimal_uuid.
#[local] Existing Instance decimal_parse.
#[local] Existing Instance length_sha256.

(** ** Signatures *)

Lemma signed_delivery_round_trip_witness :
  VerifyCommerceWebhookHMAC "s3cret" "1700000000" (signature_of "s3cret" 1700000000 "{}") "{}" (300 * Second)
    1700000100 = Ok tt.
Proof.
  apply (signed_delivery_round_trip "s3cret" (300 * Second) 1700000100 1700000000 "{}").
  - vm_compute. split; discriminate.
  - vm_compute. split; discriminate.
Defined.

Lemma zalopay_reference_round_trip_witness :
  ZaloPay.AppTransID "A_1" (63844847999 * Second) = "240229_A_1" /\
  ZaloPay.reference_of_trans (ZaloPay.AppTransID "A_1" (63844847999 * Second)) = "A_1".
Proof. split; [reflexivity|]. apply zalopay_reference_round_trip. discriminate. Defined.

(** ** A deployment *)

Definition momo_keys (partner key endpoint : string) : MoMo.Credentials :=
  MoMo.mk_Credentials partner "access" key endpoint "" "" "T1".
Definition no_momo : MoMo.Credentials := momo_keys "" "" "".
Definition no_zalopay : ZaloPay.Credentials := ZaloPay.mk_Credentials "" "" "" "" "".
Definition no_vnpay : VNPay.Credentials := VNPay.mk_Credentials "" "" "" "" "" "" "" "" "" "".
Definition no_shopee : ShopeePay.Credentials := ShopeePay.mk_Credentials "" "" "" "" "" "" "".
Definition demo_payments (default : string) (allowed : list string) : PaymentsConfig :=
  mk_PaymentsConfig "production" "live" default allowed
    (MoMo.mk_TenantKeys (momo_keys "AVF" "k1" "https://momo.example") no_momo) no_zalopay no_vnpay
    (ShopeePay.mk_ShopeePayConfig (ShopeePay.mk_TenantKeys no_shopee no_shopee) [] [] "" false).
Definition demo_registry : Registry := NewRegistry "" (demo_payments "momo" ["momo"; "zalopay"]).

Lemma production_sessions_live_witness :
  exists p, ResolveForPaymentSession demo_registry "production" "MoMo_QR" = Ok (p, "momo") /\
    LivePaymentWired p = Some true.
Proof.
  exists (momo_of (demo_payments "momo" ["momo"; "zalopay"])).
  assert (E : ResolveForPaymentSession demo_registry "production" "MoMo_QR" =
              Ok (momo_of (demo_payments "momo" ["momo"; "zalopay"]), "momo")) by (vm_compute; reflexivity).
  split; [exact E|]. apply (production_sessions_live _ _ _ _ _ E).
Defined.

Definition no_override : MachineMethodOverride := mk_MachineMethodOverride false ∅.
Lemma offered_methods_resolve_witness :
  let view := ResolveMachinePaymentMethodsWithOverride (demo_payments "momo" ["momo"; "zalopay"]) demo_registry
                ∅ no_override in
  EnabledSessionCreatableProviders view = ["momo"] /\
  exists p, ResolveForPaymentSession demo_registry "production" "momo" = Ok (p, "momo").
Proof.
  cbn zeta. set (view := ResolveMachinePaymentMethodsWithOverride _ _ _ _).
  assert (E : EnabledSessionCreatableProviders view = ["momo"]) by (vm_compute; reflexivity).
  split; [exact E|].
  destruct (offered_methods_resolve "" (demo_payments "momo" ["momo"; "zalopay"]) ∅ no_override "momo")
    as (p & _ & _ & _ & Hr).
  - fold demo_registry. fold view. rewrite E. left.
  - exists p. apply Hr. left. discriminate.
Defined.

(** With no list, and the sandbox for a default, the machine is offered MoMo and refused it. *)
Example offered_and_refused :
  let cfg := mk_PaymentsConfig "staging" "sandbox" "sandbox" []
    (MoMo.mk_TenantKeys (momo_keys "AVF" "k1" "https://momo.example") no_momo) no_zalopay no_vnpay
    (ShopeePay.mk_ShopeePayConfig (ShopeePay.mk_TenantKeys no_shopee no_shopee) [] [] "" false) in
  let reg := NewRegistry "" cfg in
  EnabledSessionCreatableProviders (ResolveMachinePaymentMethods cfg reg ∅) = ["momo"] /\
  match ResolveForPaymentSession reg "staging" "momo" with
  | Err e => errors_Is e ErrProviderKeyMismatch = true
  | Ok _ => False
  end.
Proof. vm_compute. split; reflexivity. Qed.

(** ** A signed delivery *)

Definition demo_webhook_cfg : WebhookConfig :=
  mk_WebhookConfig "production" "s3cret" ∅ (300 * Second) false false "payments" "payment".
Definition demo_body : string := quoted
  "{'provider':'momo','provider_reference':'ref-1','webhook_event_id':'evt-1','event_type':'payment.captured','normalized_payment_state':'captured','payload_json':{},'provider_amount_minor':1080,'currency':'usd'}".
Definition demo_time : Z := Eval vm_compute in time_Unix (w_now demo_w2).
Definition demo_signature : string := Eval vm_compute in signature_of "s3cret" demo_time demo_body.
Definition demo_call (signature : string) : HttpCall :=
  mk_HttpCall (Some demo_body)
    (fun h => if String.eqb h "X-AVF-Webhook-Timestamp" then FormatInt demo_time
              else if String.eqb h "X-AVF-Webhook-Signature" then signature else "")
    "203.0.113.9:4711" "" "500" "111".
Definition demo_event : CommerceWebhookEventJSON :=
  Eval vm_compute in match decode_event demo_body with Ok e => e | Err _ => no_event end.

Lemma unsigned_delivery_refused_witness :
  exists outcome reply,
    commercePublicPaymentWebhookHandler (demo_externals true) demo_webhook_cfg (demo_call "sha256=00") demo_w2 =
      (Ok (outcome, reply), demo_w2) /\ reply_status reply ∈ [400; 401; 403].
Proof.
  apply unsigned_delivery_refused; [reflexivity|reflexivity|].
  intros body ts _ (_ & _ & _ & Ha).
  assert (E : announced (TrimSpace (hq_Header (demo_call "sha256=00") "X-AVF-Webhook-Signature")) =
              Some [byte_char 0]) by (vm_compute; reflexivity).
  rewrite E in Ha. apply (inj Some), (f_equal length) in Ha. by rewrite length_hmac in Ha.
Defined.

Definition demo_due : ApplyPaymentProviderWebhookInput :=
  Eval vm_compute in demo_prepared (webhook_input demo_webhook_cfg 500 111 demo_event "hmac_verified").

(** ** A notification of MoMo, and a return of VNPay *)

Definition vnd_line : ResolvedSaleLine :=
  mk_ResolvedSaleLine 30 "M" "A3" 3 1000 1000 80 1080 1000 0 "" "VND" "fp" [].
Definition vnd_externals : Externals :=
  mk_Externals (mk_SaleLineResolver world (fun _ => ret vnd_line) (fun _ _ _ _ => ret vnd_line) None None)
    demo_carts (mk_WorkflowBoundary world false (fun _ => ret tt)) false None None None None None true None
    (ret "REF1").
Definition vnd_create : CreateOrderInput :=
  mk_CreateOrderInput 1 9 None "" "" (Some 3) "vnd" 0 0 0 "k1" false "" "" false false None 500 0.
Definition vnd_payment (provider : string) : StartPaymentInput :=
  mk_StartPaymentInput 500 provider "created" 1080 "vnd" "p1" "payments" "payment.created" (JObj [])
    "order" 500 "p1:outbox" false "" "" false false 0 None "" "" (JObj []) false.
(** An order of 1080 VND whose open payment has the reference REF1 at its provider. *)
Definition vnd_sale (provider : string) : world :=
  (serve_all vnd_externals
     [ReqCreateOrder vnd_create; ReqStartPayment (vnd_payment provider);
      ReqBindAttempt (mk_InsertPaymentAttemptParams 111 "created" (Some "REF1") (JObj []))]
     (demo_world demo_db [])).2.
Definition momo_world : world := Eval vm_compute in vnd_sale "momo".
Example momo_sale_open : summary (w_db momo_world) =
  ([(500%N, "created", None)], [(111%N, "created", "pending", 1)], [(106%N, "pending")], [5], (0, 1, 0, 0)%nat)
  /\ map at_ProviderReference (d_attempts (w_db momo_world)) = [Some "REF1"].
Proof. vm_compute. split; reflexivity. Qed.
Lemma vnd_externals_laws R `{!PreOrder R} : ExternalLaws vnd_externals R.
Proof.
  split; cbn; try done; [split; cbn; intros; try done; by apply evolves_ret|split; cbn; try done; intros f m l [= <-]|..];
    intros; [apply evolves_map_each; [done|intros]|..]; by apply evolves_ret.
Qed.
Lemma vnd_sale_wf provider : wf (w_db (vnd_sale provider)).
Proof.
  pose proof (vnd_externals_laws (world_rel safe)). unfold vnd_sale. set (rs := [_; _; _]).
  destruct (serve_all_evolves vnd_externals (world_rel safe) rs (demo_world demo_db [])) as [_ [_ Hw]];
    [by intros g d ?%elem_of_nil|]. apply Hw, demo_db_wf.
Qed.
Lemma momo_world_wf : wf (w_db momo_world).
Proof. replace momo_world with (vnd_sale "momo") by (vm_compute; reflexivity). apply vnd_sale_wf. Qed.

Definition ipn_body (signature : string) : string := quoted (
  "{'partnerCode':'AVF','orderId':'REF1','requestId':'req-1','amount':1080,'orderInfo':'i','orderType':'t','transId':42,'resultCode':0,'message':'ok','payType':'qr','responseTime':1700000000000,'extraData':'','signature':'"
  +:+ signature +:+ "'}").
Definition avf_keys : MoMo.Credentials := momo_keys "AVF" "k1" "https://momo.example".
Definition ipn_signature : string := Eval vm_compute in
  match decodeJSONMap (ipn_body "") with
  | Ok data => MoMo.SignIPN "k1" (MoMo.ipn_fields avf_keys "AVF" data)
  | Err _ => ""
  end.
Definition momo_adapter : MoMo.MoMoProvider :=
  MoMo.NewMoMoProvider (pc_MoMo (demo_payments "momo" ["momo"; "zalopay"])).
Definition momo_call : HttpCall := mk_HttpCall (Some (ipn_body ipn_signature)) (fun _ => "") "" "" "" "".
Definition momo_event : CommerceWebhookEventJSON := Eval vm_compute in
  match MoMo.VerifyAndParseIPN momo_adapter (ipn_body ipn_signature) with Ok (_, e) => e | Err _ => no_event end.
Definition momo_row : PaymentByProviderRef := mk_PaymentByProviderRef 111 500 "momo" "created" 1080 "VND" "REF1" 1.
Definition momo_due : ApplyPaymentProviderWebhookInput :=
  Eval vm_compute in demo_prepared (native_input demo_webhook_cfg momo_event "captured" "REF1" momo_row).
Lemma ipn_read :
  MoMo.VerifyAndParseIPN momo_adapter (ipn_body ipn_signature) = Ok ("REF1", "captured", "42", momo_event).
Proof. vm_compute. reflexivity. Qed.
(** A garbled signature is refused. *)
Example ipn_forged : match MoMo.VerifyAndParseIPN momo_adapter (ipn_body "00") with Ok _ => False | Err _ => True end.
Proof. vm_compute. exact I. Qed.


Lemma momo_open_rows : exists pay ord, let d := w_db momo_world in
  pay ∈ d_payments d /\ ord ∈ d_orders d /\ o_ID ord = 500%N /\ p_ID pay = 111%N /\ o_Status ord = "created" /\
  native_capture vnd_externals demo_webhook_cfg momo_event momo_row momo_due pay ord d.
Proof.
  eexists _, _. cbn zeta. split; [left|]. split; [left|]. split; [reflexivity|]. split; [reflexivity|].
  split; [reflexivity|]. split; [reflexivity|vm_compute; reflexivity|]. split.
  - reflexivity.
  - discriminate.
  - vm_compute. reflexivity.
  - reflexivity.
  - vm_compute. discriminate.
  - split; try done; [left|left|]. split; try done; by intros a [= <-].
  - split; try done. intros y ->%list_elem_of_singleton. done.
  - by intros e ?%elem_of_nil.
  - reflexivity.
  - intros c [= <-]. vm_compute. discriminate.
  - intros o Ho' _. vm_compute in Ho'. apply list_elem_of_singleton in Ho' as ->. reflexivity.
Qed.

(** Anyone who knows a reference pays its order: the query of VNPay's return
    carries no signature, and no amount. *)
Definition vnpay_call : HttpCall :=
  mk_HttpCall None (fun _ => "") "198.51.100.7:80" "vnp_TxnRef=REF1&vnp_ResponseCode=00&vnp_TransactionNo=1" "" "".
Example vnpay_return_unauthenticated :
  let '(r, w') := VNPayNativeReturnHandler vnd_externals demo_registry demo_webhook_cfg vnpay_call (vnd_sale "vnpay") in
  r = Ok (vnpay_reply 200 "00" "Confirm Success") /\
  map (fun o => (o_ID o, o_Status o)) (d_orders (w_db w')) = [(500%N, "paid")] /\
  map (fun p => (p_ID p, p_State p)) (d_payments (w_db w')) = [(111%N, "captured")].
Proof. vm_compute. repeat split. Qed.

(** ** What the adapters take for a success *)

(** A query that is answered. *)
Definition momo_gateway (body : string) : HttpRequest -> M unit HttpResponse :=
  fun _ => ret (mk_HttpResponse 200 (fun _ => "") body).
Definition ask_momo (body : string) : res PaymentStatusSnapshot :=
  (PaymentRegistry.QueryPaymentStatus (momo_gateway body) (ret 0) 0 (ret "req-1") (AMoMo momo_adapter)
     (mk_PaymentProviderLookup "momo" 111 500 "REF1" 1080 "AVF1" None) tt).1.
Example momo_query_states :
  map (fun code => match ask_momo (quoted ("{'resultCode':" +:+ code +:+ "}")) with
                   | Ok s => pss_NormalizedState s | Err e => err_Error e end) ["0"; "1006"; "7002"; "424242"] =
  ["captured"; "failed"; "pending"; "pending"].
Proof. vm_compute. reflexivity. Qed.
Lemma queried_state_exact_witness :
  exists s m, ask_momo (quoted "{'resultCode':0}") = Ok s /\ pss_ProviderHint s = JObj m /\
    has_field "resultCode" m = true /\ momo_success m.
Proof.
  destruct (ask_momo (quoted "{'resultCode':0}")) as [s|e] eqn:E; [|by vm_compute in E].
  assert (Hc : pss_NormalizedState s = "captured") by (vm_compute in E; by injection E as <-).
  destruct (queried_state_exact (momo_gateway (quoted "{'resultCode':0}")) (ret 0) 0 (ret "req-1")
              (AMoMo momo_adapter) (mk_PaymentProviderLookup "momo" 111 500 "REF1" 1080 "AVF1" None) tt s tt)
    as (m & Hm & _ & Hs).
  - unfold ask_momo in E. destruct (PaymentRegistry.QueryPaymentStatus _ _ _ _ _ _ tt) as [r []]. cbn [fst] in E.
    by rewrite E.
  - exists s, m. split; [done|]. split; [done|]. by apply Hs.
Defined.
(** A query without a code is refused; a notification without one, or with one
    that is no number, is a capture. *)
Example momo_code_missing :
  match ask_momo "{}" with Ok _ => False | Err _ => True end /\
  MoMo.MapResultCode (asInt (field "resultCode" [])) = "captured" /\
  MoMo.MapResultCode (asInt (JStr "denied")) = "captured".
Proof. vm_compute. auto. Qed.
(** Two notifications of different orders with the same text to sign. *)
Example momo_text_ambiguous :
  let f order info := MoMo.mk_IPNFields "a" "1" "" "m" order info "t" "AVF" "qr" "r" "1" "0" "2" in
  MoMo.ipn_text (f "REF1" "x&orderInfo=y") = MoMo.ipn_text (f "REF1&orderInfo=x" "y").
Proof. reflexivity. Qed.
(** A callback of ZaloPay without a return code reports nothing final, with a
    transaction of ZaloPay as without one. *)
Example zalopay_without_code :
  wj_NormalizedPaymentState (ZaloPay.callback_event (ZaloPay.NewZaloPayProvider no_zalopay false)
    [("app_trans_id", JStr "240229_REF1"); ("zp_trans_id", JStr "77")] "{}") = "pending".
Proof. vm_compute. reflexivity. Qed.
